(* ===== verification/_CoqProject ===== *)
-Q . S2P
Prelude.v
Bits.v
ListHead.v
CMem.v
Buddy.v
BuddyBlocks.v
BuddyProof.v
BuddyTheorems.v
PageAlloc.v
MemPool.v
MemPoolProof.v
Kalloc.v
KallocProof.v
KallocTheorems.v
Alloc.v
Hlist.v
LSort.v
LSortProof.v
Radix.v
Hmap.v
HmapProof.v
Vfs.v
VfsOps.v
VfsPath.v
VfsCache.v
VfsWalk.v
VfsInv.v
VfsSafe.v
VfsFiles.v
VfsCalls.v
VfsMount.v
VfsTheorems.v
Jhash.v
Sched.v
SchedLists.v
SchedInv.v
SchedSteps.v
SchedProof.v
SchedCalls.v
SchedTheorems.v
Vm.v
VmProof.v
VmTheorems.v
Class.v
ClassProof.v
ClassTheorems.v
VmSpace.v
VmSpaceTheorems.v
Rbtree.v
RbtreeHeap.v
RbtreeProof.v
RbtreeErase.v
RbtreeIter.v
RbtreeTheorems.v
Time.v
Timer.v
TimerProof.v
TimerEvents.v
TimerTheorems.v
Block.v
BlockProof.v
Strtoul.v
Cpio.v
CpioProof.v
CpioArchive.v
CpioTheorems.v
Virtio.v
VirtioProof.v
VirtioTheorems.v
VirtioBlk.v
VirtioBlkTheorems.v
Interrupt.v
Xjil.v
XjilProof.v
XjilTheorems.v
Device.v
Input.v
Gpu.v
Printf.v
VirtioMmio.v
