(* ===== verification/Prelude.v ===== *)
(** * Ginkgo OS: a verification of the kernel's core

    ** The program

    Ginkgo OS (src/) is a small kernel for 64-bit RISC-V.  Its parts, from the bottom up:
    - memory: a buddy allocator of pages (mm/buddy.c), a small-block allocator on it
      (mm/mem_pool.c), and malloc, calloc, realloc and free over the two (mm/kalloc.c);
    - libraries: strings (lib/libc/string.c), character classes and the parsing of numbers
      (lib/libc/ctype.c, lib/libc/strtoul.c), intrusive lists (include/list.h), a list sort
      (lib/lsort.c), a radix tree (lib/radix.c), a hash map (lib/hmap.c), the Jenkins hash
      (include/jhash.h), red-black trees (lib/rbtree.c), and printing (core/printf.c);
    - an object system with single inheritance (core/class/class.c);
    - page tables (arch/vm.c), and on them address spaces, memory objects and the capability
      slots of processes (core/vmspace.c, core/vmo.c, core/process.c);
    - threads, the scheduler, mutexes, semaphores, futexes, wait queues and migrating calls
      (core/sched.c, core/thread.c, core/mutex.c, core/semaphore.c, core/futex.c,
      core/waitqueue.c, core/ipc/);
    - clocks (include/core/time.h, driver/clocksource.c, driver/clockevent.c, the two drivers
      of the CLINT timer) and timers on a red-black tree (core/timer.c);
    - a virtual file system switch with its vnode cache (fs/vfs.c), block devices
      (driver/block.c) and the filesystem of cpio archives on them (fs/cpio/cpio.c);
    - devices, which are objects that are made from the device tree (core/device.c), a text in a
      language of its own (lib/xjil/);
    - interrupt controllers and handlers (driver/interrupt.c, driver/plic.c);
    - virtio devices: the rings that they share with the kernel and their registers
      (driver/virtio/virtio.c), disks, the keyboard, the mouse and the display
      (driver/virtio/block.c, keyboard.c, mouse.c, gpu.c, driver/framebuffer.c).

    A system call on a file goes through most of them: the switch asks the filesystem of the
    mount, which reads ranges of bytes of a block device, whose driver puts a request into a
    ring and waits until the interrupt handler has taken it back.  The theorems follow these
    calls: [switch_on_archives] runs the switch on archives on any block driver, and
    [virtio_block_refines] shows that the driver of virtio disks is one.

    ** How the code is modelled

    C functions are Rocq functions of the same names on explicit states.  A function that can
    fail an assertion or do something the C standard leaves undefined returns a [res]: [Ok],
    [Panic] or [Undef] (below).  Integers are [Z] with their wrap-around written out ([u32],
    [s32], [u64], [s64]).  Pointers are addresses; structures live in finite maps from their
    address, and intrusive list nodes in heaps of [next] and [prev] fields (ListHead.v,
    Hlist.v), so that a dangling pointer is a lookup that fails.  Interrupts and the
    preemption of the kernel are off while it runs, so that spin locks are left out.

    ** The files

    - Prelude.v: results of C code, machine integers, generic lemmas and tactics.
    - Bits.v: include/ffs.h, fls.h, log2.h, mm/buddy-common.h.
    - ListHead.v, Hlist.v: include/list.h; each operation refines a list function.
    - CMem.v: byte memory and lib/libc/string.c.
    - Buddy.v, BuddyBlocks.v, BuddyProof.v, BuddyTheorems.v: mm/buddy.c refines partitions of
      the page frames into aligned blocks.  PageAlloc.v: the interface that its clients use.
    - MemPool.v, MemPoolProof.v: mm/mem_pool.c on any [PageAllocator].
    - Kalloc.v, KallocProof.v, KallocTheorems.v: mm/kalloc.c and strdup; live allocations are
      disjoint and keep their bytes.  Alloc.v: the interfaces [KernelAlloc] and [KernelHeap]
      that the heap offers, with the instances that the heap satisfies them.
    - LSort.v, LSortProof.v: lib/lsort.c is a stable sort.
    - Radix.v: lib/radix.c, on any [KernelAlloc].
    - Hmap.v, HmapProof.v: lib/hmap.c and include/shash.h refine a finite map.
    - Jhash.v: include/jhash.h.
    - Vfs.v, VfsOps.v: fs/vfs.c, for any filesystem that keeps the contract [fs_ok];
      VfsPath.v, VfsCache.v, VfsWalk.v, VfsInv.v, VfsSafe.v, VfsFiles.v, VfsMount.v,
      VfsCalls.v, VfsTheorems.v: the reference counts of the vnodes are exact in every
      reachable state, no call uses a dangling node, and what the calls do.
    - Sched.v, SchedLists.v, SchedInv.v, SchedSteps.v, SchedProof.v, SchedCalls.v,
      SchedTheorems.v: threads and all that blocks on the scheduler; every reachable state is
      consistent, mutexes exclude, wake-ups are not lost, dispatch is in order.
    - Vm.v, VmProof.v, VmTheorems.v: arch/vm.c against the Sv39 walk of the processor.
    - Class.v, ClassProof.v, ClassTheorems.v: core/class/class.c; casts are exact.
    - VmSpace.v, VmSpaceTheorems.v: the slots of core/process.c, core/vmo.c, core/vmspace.c.
    - Rbtree.v, RbtreeHeap.v, RbtreeProof.v, RbtreeErase.v, RbtreeIter.v, RbtreeTheorems.v:
      lib/rbtree.c on pointers; insertion and removal keep the balance and the order, and the
      loops are logarithmic.
    - Time.v: instants and the fixed-point conversions of the clocks.
    - Timer.v, TimerProof.v, TimerEvents.v, TimerTheorems.v: core/timer.c refines a list sorted
      by expiry, on the interfaces [Clock] and [TimerFunctions]; an event fires what is due.
    - Block.v, BlockProof.v: driver/block.c gives access to ranges of bytes, on any
      [BlockDriver].  Strtoul.v: lib/libc/ctype.c and strtoul.c.
    - Cpio.v, CpioProof.v, CpioArchive.v, CpioTheorems.v: fs/cpio/cpio.c; what an archive was
      made of is read back, and the switch runs safely on archives.
    - Virtio.v, VirtioProof.v, VirtioTheorems.v: the rings of driver/virtio/virtio.c, with a
      device that takes and returns chains in any order: nothing is lost or duplicated.
      VirtioMmio.v: the registers, and the probe functions of the virtio drivers.
    - VirtioBlk.v, VirtioBlkTheorems.v: driver/virtio/block.c refines the interface of block
      drivers.
    - Interrupt.v: driver/interrupt.c and driver/plic.c; a handler runs exactly when it is
      registered and its interrupt is enabled.
    - Xjil.v, XjilProof.v, XjilTheorems.v: lib/xjil/xjil.c parses exactly its grammar, and reads
      printed values back.
    - Device.v: core/device.c on the object system and the parser; every node of the device
      tree becomes a device that is found under its name.
    - Input.v: the event queues of the keyboard and the mouse; every event is reported once.
    - Gpu.v: the commands of the display, which come to it in their order.
    - Printf.v: core/printf.c prints numerals that strtoul reads back.

    ** Bounds and fuel

    Loops with a counter recurse on it.  A scan of memory runs on one more step than there
    are mapped bytes, a walk along a list on one more than there are nodes, a walk through
    page tables on [2^27] pages, which is all there are below [MAXVA], a walk through parts
    of an object on the number of classes, a walk in a red-black tree on one more than there
    are nodes, the handler of a timer event on one more than there are timers, a walk through
    an archive on one more than the bytes of its device, a chain of descriptors on one more than
    the 128 of a ring, as does the loop that fills the queue of an input device, the handler of a
    ring on the [2^16] values of its indexes, the parser of the device tree on eight steps for
    each character, the registration of a device on one more than there are classes, and the
    digits of a number on the 16 bytes that hold them.  The theorems
    that say what a function returns are proved with that fuel, so that it is enough; running
    out of it counts as [Undef].

    ** What is not modelled

    Assembly and boot code (arch/*.S, arch/start.c, arch/device.c), traps and the system call
    table (arch/exception.c, arch/syscall_table.c), whose effect is to call the modelled
    functions; the serial line (driver/uart.c, core/print.c), which exchanges registers with
    hardware; the mapping of the screen into user space; the stubs of the timer system calls
    (core/sys/timer.c); freeing the values of the device tree; the augmentation callbacks of the
    red-black trees; the loading of user binaries; the copying of capabilities between the
    processes of a call; everything under user-test/, which runs in user mode: the C library,
    libm, mimalloc, gato and the sample programs are third-party or client code, and
    user-test/vfs_server/ is a version of the switch for user mode. *)

From stdpp Require Export base tactics gmap list fin_maps.
From Stdlib Require Export ZArith Lia.

#[global] Open Scope Z_scope.

(** ** Results of C code

    [Ok a] is a normal return.  [Panic] is a failed [assert] or a call of
    [PANIC], which never returns (include/log.h).  [Undef] is a step the C
    standard leaves undefined: a NULL or dangling dereference, an index past
    the end of an array, a shift by a negative or too large amount. *)
Inductive res (A : Type) : Type :=
| Ok (a : A)
| Panic
| Undef.
Arguments Ok {A} a.
Arguments Panic {A}.
Arguments Undef {A}.

Definition res_bind {A B} (m : res A) (k : A -> res B) : res B :=
  match m with
  | Ok a => k a
  | Panic => Panic
  | Undef => Undef
  end.

Declare Scope c_scope.
Delimit Scope c_scope with c.
Notation "'let*' x := m 'in' k" := (res_bind m (fun x => k))
  (at level 10, x name, m at level 100, k at level 200,
   format "'[v' 'let*'  x  :=  m  'in' '/' k ']'") : c_scope.
Notation "'let*' ' p := m 'in' k" := (res_bind m (fun x => match x with p => k end))
  (at level 10, p pattern, m at level 100, k at level 200) : c_scope.
#[global] Open Scope c_scope.

(** [assert(cond)] of include/assert.h. *)
Definition c_assert (b : bool) : res unit := if b then Ok tt else Panic.

(** A dereference of a pointer that may be NULL or dangling. *)
Definition deref {A} (o : option A) : res A :=
  match o with Some a => Ok a | None => Undef end.

(** A step that is defined only when [b] holds. *)
Definition defined_if (b : bool) : res unit := if b then Ok tt else Undef.

Lemma res_bind_Ok {A B} (m : res A) (k : A -> res B) b :
  res_bind m k = Ok b <-> exists a, m = Ok a /\ k a = Ok b.
Proof.
  destruct m; cbn; split; intros H; try discriminate; eauto.
  - by destruct H as (? & [= ->] & ?).
  - by destruct H as (? & ? & ?).
  - by destruct H as (? & ? & ?).
Qed.

Lemma res_bind_assoc {A B C} (m : res A) (f : A -> res B) (g : B -> res C) :
  res_bind (res_bind m f) g = res_bind m (fun a => res_bind (f a) g).
Proof. by destruct m. Qed.

Lemma c_assert_true b : b = true -> c_assert b = Ok tt.
Proof. by intros ->. Qed.

Lemma defined_if_true b : b = true -> defined_if b = Ok tt.
Proof. by intros ->. Qed.

(** ** Machine integers

    An unsigned [w]-bit value is a [Z] in [[0, 2^w)]; a signed one is a [Z] in
    [[-2^(w-1), 2^(w-1))]. *)
Definition wrap (w x : Z) : Z := x mod 2 ^ w.
Definition u32 (x : Z) : Z := wrap 32 x.
Definition u64 (x : Z) : Z := wrap 64 x.
Definition swrap (w x : Z) : Z := (x + 2 ^ (w - 1)) mod 2 ^ w - 2 ^ (w - 1).
Definition s32 (x : Z) : Z := swrap 32 x.
Definition s64 (x : Z) : Z := swrap 64 x.

(** [~x] at 64 bits, and [1UL << n], undefined outside [0 <= n < 64]. *)
Definition not64 (x : Z) : Z := Z.lxor x (Z.ones 64).
Definition shl1 (n : Z) : res Z :=
  if (0 <=? n) && (n <? 64) then Ok (2 ^ n) else Undef.

Lemma wrap_small w x : 0 <= x < 2 ^ w -> wrap w x = x.
Proof. apply Z.mod_small. Qed.

Lemma wrap_range w x : 0 <= w -> 0 <= wrap w x < 2 ^ w.
Proof. intros. apply Z.mod_pos_bound. apply Z.pow_pos_nonneg; lia. Qed.

Lemma u32_small x : 0 <= x < 2 ^ 32 -> u32 x = x.
Proof. apply wrap_small. Qed.

Lemma u64_small x : 0 <= x < 2 ^ 64 -> u64 x = x.
Proof. apply wrap_small. Qed.

Lemma u64_range x : 0 <= u64 x < 2 ^ 64.
Proof. by apply wrap_range. Qed.

Lemma swrap_small w x : 0 < w -> - 2 ^ (w - 1) <= x < 2 ^ (w - 1) -> swrap w x = x.
Proof.
  intros Hw Hx. unfold swrap.
  assert (2 ^ w = 2 * 2 ^ (w - 1)) by (rewrite <- Z.pow_succ_r by lia; f_equal; lia).
  rewrite Z.mod_small; lia.
Qed.

Lemma s32_small x : - 2 ^ 31 <= x < 2 ^ 31 -> s32 x = x.
Proof. by apply (swrap_small 32). Qed.

Lemma s64_small x : - 2 ^ 63 <= x < 2 ^ 63 -> s64 x = x.
Proof. by apply (swrap_small 64). Qed.

Lemma shl1_ok n : 0 <= n < 64 -> shl1 n = Ok (2 ^ n).
Proof.
  intros [??]. unfold shl1.
  by rewrite (proj2 (Z.leb_le 0 n)), (proj2 (Z.ltb_lt n 64)) by lia.
Qed.

Create Rewrite HintDb cval.
#[export] Hint Rewrite u32_small u64_small s32_small s64_small shl1_ok
  using (cbn; lia) : cval.
