(* ===== verification/Bits.v ===== *)
(** * Bits: bit searches, power-of-two rounding and alignment

    Models include/ffs.h, include/fls.h, include/log2.h and the helpers of
    mm/buddy-common.h.  The searches are the source's five halving steps; the
    theorems relate them to [Z.log2] and [Z.testbit]. *)

From S2P Require Import Prelude.

(** ** include/fls.h *)

(** One step [if (!(x & mask)) { x <<= k; r -= k; }] on an unsigned int. *)
Definition fls_step (mask k : Z) (p : Z * Z) : Z * Z :=
  let '(x, r) := p in
  if Z.land x mask =? 0 then (u32 (Z.shiftl x k), r - k) else (x, r).

Definition fls (x : Z) : Z :=
  if x =? 0 then 0
  else snd (fls_step 0x80000000 1
           (fls_step 0xc0000000 2
           (fls_step 0xf0000000 4
           (fls_step 0xff000000 8
           (fls_step 0xffff0000 16 (x, 32)))))).

(** ** include/ffs.h *)

(** One step [if (!(x & mask)) { x >>= k; r += k; }] on an int; the shift of a
    negative value is arithmetic. *)
Definition ffs_step (mask k : Z) (p : Z * Z) : Z * Z :=
  let '(x, r) := p in
  if Z.land x mask =? 0 then (Z.shiftr x k, r + k) else (x, r).

Definition ffs (x : Z) : Z :=
  if x =? 0 then 0
  else snd (ffs_step 1 1
           (ffs_step 3 2
           (ffs_step 0xf 4
           (ffs_step 0xff 8
           (ffs_step 0xffff 16 (x, 1)))))).

(** ** include/log2.h *)

Definition fls64 (x : Z) : Z :=
  let h := u32 (Z.shiftr x 32) in
  if negb (h =? 0) then fls h + 32 else fls (u32 x).

Definition fls_long (l : Z) : Z := fls64 l.

Definition is_power_of_2 (n : Z) : bool :=
  negb (n =? 0) && (Z.land n (u64 (n - 1)) =? 0).

Definition __roundup_pow_of_two (n : Z) : res Z := shl1 (fls_long (u64 (n - 1))).

Definition __rounddown_pow_of_two (n : Z) : res Z := shl1 (fls_long n - 1).

(** ** mm/buddy-common.h *)

Definition buddy_ffs (word : Z) : Z := ffs (s32 word) - 1.

Definition buddy_fls (word : Z) : Z := fls word - 1.

Definition buddy_fls_sizet (size : Z) : Z :=
  let high := s32 (Z.shiftr size 32) in
  if negb (high =? 0) then 32 + buddy_fls (u32 high)
  else buddy_fls (Z.land (u32 (s32 size)) 0xffffffff).

Definition buddy_ffs_sizet (size : Z) : Z :=
  let low := s32 size in
  if negb (low =? 0) then buddy_ffs (u32 low)
  else 32 + buddy_ffs (u32 (s32 (Z.shiftr size 32))).

Definition pow2_assert (align : Z) : res unit :=
  c_assert (Z.land align (u64 (align - 1)) =? 0).

Definition align_up (x align : Z) : res Z :=
  let* _ := pow2_assert align in
  Ok (Z.land (u64 (x + u64 (align - 1))) (not64 (u64 (align - 1)))).

Definition align_down (x align : Z) : res Z :=
  let* _ := pow2_assert align in
  Ok (u64 (x - Z.land x (u64 (align - 1)))).

Definition align_ptr (ptr align : Z) : res Z :=
  let* _ := c_assert (negb (ptr =? 0) && negb (align =? 0)) in
  let aligned := Z.land (u64 (ptr + u64 (align - 1))) (not64 (u64 (align - 1))) in
  let* _ := pow2_assert align in
  Ok aligned.

(** ** Lemmas *)

Lemma land_high_mask x k w :
  0 <= k <= w -> 0 <= x < 2 ^ w -> Z.land x (2 ^ w - 2 ^ k) = x / 2 ^ k * 2 ^ k.
Proof.
  intros Hk Hx.
  rewrite <- Z.shiftl_mul_pow2, <- Z.shiftr_div_pow2 by lia.
  replace (2 ^ w - 2 ^ k) with (Z.shiftl (Z.ones (w - k)) k).
  2:{ rewrite Z.shiftl_mul_pow2, Z.ones_equiv, <- Z.sub_1_r, Z.mul_sub_distr_r,
        <- Z.pow_add_r, Z.mul_1_l by lia. do 2 f_equal; lia. }
  apply Z.bits_inj'; intros i Hi.
  rewrite Z.land_spec, !Z.shiftl_spec by lia.
  destruct (decide (i < k)).
  - rewrite !(Z.testbit_neg_r _ (i - k)) by lia. apply andb_false_r.
  - rewrite Z.shiftr_spec by lia. replace (i - k + k) with i by lia.
    destruct (decide (i < w)).
    + rewrite Z.ones_spec_low by lia. apply andb_true_r.
    + rewrite Z.ones_spec_high by lia.
      rewrite <- (Z.mod_small x (2 ^ w)), Z.mod_pow2_bits_high by lia. done.
Qed.

Lemma land_high_mask_0 x k w :
  0 <= k <= w -> 0 <= x < 2 ^ w -> (Z.land x (2 ^ w - 2 ^ k) =? 0) = (x <? 2 ^ k).
Proof.
  intros Hk Hx. rewrite land_high_mask by done.
  assert (0 < 2 ^ k) by (apply Z.pow_pos_nonneg; lia).
  destruct (Z.ltb_spec x (2 ^ k)).
  - rewrite Z.div_small by lia. done.
  - apply Z.eqb_neq. assert (1 <= x / 2 ^ k) by (apply Z.div_le_lower_bound; lia). nia.
Qed.

(** The loop invariant of [fls]: shifting left by [32 - r] has moved the top
    bit up by [32 - r] places. *)
Definition fls_inv (x0 : Z) (p : Z * Z) : Prop :=
  0 < p.1 < 2 ^ 32 /\ Z.log2 p.1 = Z.log2 x0 + (32 - p.2).

Lemma fls_step_inv x0 mask k p :
  0 < k < 32 -> mask = 2 ^ 32 - 2 ^ (32 - k) -> fls_inv x0 p ->
  (Z.log2 x0 + (32 - p.2) >= 32 - 2 * k) ->
  fls_inv x0 (fls_step mask k p) /\
  Z.log2 (fls_step mask k p).1 >= 32 - k.
Proof.
  intros Hk -> [Hx Hl] Hge. destruct p as [x r]; cbn [fst snd] in *.
  unfold fls_step. rewrite land_high_mask_0 by lia.
  destruct (Z.ltb_spec x (2 ^ (32 - k))) as [Hlt|Hle]; cbn [fst snd].
  - rewrite Z.shiftl_mul_pow2 by lia.
    assert (x * 2 ^ k < 2 ^ 32).
    { replace 32 with (32 - k + k) at 1 by lia. rewrite Z.pow_add_r by lia.
      apply Z.mul_lt_mono_pos_r; [apply Z.pow_pos_nonneg|]; lia. }
    assert (0 < x * 2 ^ k) by (apply Z.mul_pos_pos; [|apply Z.pow_pos_nonneg]; lia).
    rewrite u32_small by lia.
    assert (Z.log2 (x * 2 ^ k) = Z.log2 x + k)
      by (rewrite Z.log2_mul_pow2 by lia; lia).
    unfold fls_inv; cbn [fst snd]. lia.
  - unfold fls_inv; cbn [fst snd]. repeat split; try lia.
    apply Z.le_ge, Z.log2_le_pow2; lia.
Qed.

Lemma fls_spec x : 0 < x < 2 ^ 32 -> fls x = Z.log2 x + 1.
Proof.
  intros Hx. unfold fls. rewrite (proj2 (Z.eqb_neq x 0)) by lia.
  assert (H0 : fls_inv x (x, 32)) by (unfold fls_inv; cbn [fst snd]; lia).
  pose proof (Z.log2_nonneg x).
  assert (Hgo : forall mask k p, 0 < k < 32 -> mask = 2 ^ 32 - 2 ^ (32 - k) ->
            fls_inv x p -> Z.log2 p.1 >= 32 - 2 * k ->
            fls_inv x (fls_step mask k p) /\ Z.log2 (fls_step mask k p).1 >= 32 - k).
  { intros mask k p ?? Hi ?. apply fls_step_inv; try done. destruct Hi. lia. }
  destruct (Hgo 0xffff0000 16 _ ltac:(lia) eq_refl H0) as [H1 G1];
    [cbn [fst]; lia|].
  destruct (Hgo 0xff000000 8 _ ltac:(lia) eq_refl H1) as [H2 G2]; [lia|].
  destruct (Hgo 0xf0000000 4 _ ltac:(lia) eq_refl H2) as [H3 G3]; [lia|].
  destruct (Hgo 0xc0000000 2 _ ltac:(lia) eq_refl H3) as [H4 G4]; [lia|].
  destruct (Hgo 0x80000000 1 _ ltac:(lia) eq_refl H4) as [H5 G5]; [lia|].
  destruct H5 as [[Hp Hu] He].
  apply Z.log2_lt_pow2 in Hu; [|lia]. lia.
Qed.

(** [is_lsb x i]: bit [i] is the lowest set bit of [x]. *)
Definition is_lsb (x i : Z) : Prop :=
  0 <= i /\ Z.testbit x i = true /\ forall j, 0 <= j < i -> Z.testbit x j = false.

Lemma is_lsb_mul x i k :
  0 <= k -> is_lsb x i -> is_lsb (x * 2 ^ k) (i + k).
Proof.
  intros Hk (Hi & Ht & Hl). split; [lia|split].
  - rewrite Z.mul_pow2_bits by lia. by replace (i + k - k) with i by lia.
  - intros j Hj. rewrite Z.mul_pow2_bits by lia.
    destruct (decide (j < k)); [by apply Z.testbit_neg_r; lia | apply Hl; lia].
Qed.

(** The loop invariant of [ffs]. *)
Definition ffs_inv (x0 : Z) (p : Z * Z) : Prop :=
  1 <= p.2 /\ x0 = p.1 * 2 ^ (p.2 - 1).

Lemma ffs_step_inv x0 k p :
  0 < k -> ffs_inv x0 p -> p.1 mod 2 ^ (2 * k) <> 0 ->
  ffs_inv x0 (ffs_step (2 ^ k - 1) k p) /\ (ffs_step (2 ^ k - 1) k p).1 mod 2 ^ k <> 0 /\
  (ffs_step (2 ^ k - 1) k p).2 <= p.2 + k.
Proof.
  intros Hk [Hr Hx] Hm. destruct p as [x r]; cbn [fst snd] in *. unfold ffs_step.
  replace (2 ^ k - 1) with (Z.ones k) by (rewrite Z.ones_equiv; lia).
  rewrite Z.land_ones by lia.
  destruct (Z.eqb_spec (x mod 2 ^ k) 0) as [E|E]; cbn [fst snd].
  - rewrite Z.shiftr_div_pow2 by lia.
    assert (0 < 2 ^ k) by (apply Z.pow_pos_nonneg; lia).
    pose proof (Z_div_exact_full_2 x (2 ^ k) ltac:(lia) E) as Hd.
    unfold ffs_inv; cbn [fst snd]. split; [split; [lia|] | split; [|lia]].
    + replace (r + k - 1) with (k + (r - 1)) by lia.
      rewrite Z.pow_add_r by lia. rewrite Hx, Hd at 1. ring.
    + intros E2. apply Hm. replace (2 * k) with (k + k) by lia.
      rewrite Z.pow_add_r, Z.rem_mul_r, E, E2 by lia. lia.
  - unfold ffs_inv; cbn [fst snd]. lia.
Qed.

Lemma odd_is_lsb x : x mod 2 <> 0 -> is_lsb x 0.
Proof.
  intros H. split; [lia|split; [|lia]].
  rewrite <- Z.bit0_mod in H. by destruct (Z.testbit x 0).
Qed.

Lemma ffs_spec x :
  - 2 ^ 31 <= x < 2 ^ 31 -> x <> 0 -> is_lsb x (ffs x - 1) /\ 1 <= ffs x <= 32.
Proof.
  intros Hx Hn. unfold ffs. rewrite (proj2 (Z.eqb_neq x 0)) by done.
  assert (H0 : ffs_inv x (x, 1)) by (unfold ffs_inv; cbn [fst snd]; rewrite Z.pow_0_r; lia).
  assert (G0 : (x, 1).1 mod 2 ^ (2 * 16) <> 0).
  { cbn [fst]. intros E. apply Z.mod_divide in E; [|lia]. destruct E as [q ->]. lia. }
  destruct (ffs_step_inv x 16 _ ltac:(lia) H0 G0) as (H1 & G1 & L1).
  destruct (ffs_step_inv x 8 _ ltac:(lia) H1 G1) as (H2 & G2 & L2).
  destruct (ffs_step_inv x 4 _ ltac:(lia) H2 G2) as (H3 & G3 & L3).
  destruct (ffs_step_inv x 2 _ ltac:(lia) H3 G3) as (H4 & G4 & L4).
  destruct (ffs_step_inv x 1 _ ltac:(lia) H4 G4) as (H5 & G5 & L5).
  cbn in L1, L2, L3, L4, L5.
  destruct (ffs_step (2 ^ 1 - 1) 1 _) as [y r] eqn:E.
  change (2 ^ 1 - 1) with 1 in E. change (2 ^ 2 - 1) with 3 in E.
  change (2 ^ 4 - 1) with 15 in E. change (2 ^ 8 - 1) with 255 in E.
  change (2 ^ 16 - 1) with 65535 in E. rewrite E. cbn [fst snd] in *.
  destruct H5 as [Hr Hy]; cbn [fst snd] in *. split; [|split; [lia|]].
  - rewrite Hy at 1. replace (r - 1) with (0 + (r - 1)) at 2 by lia.
    apply is_lsb_mul; [lia|]. apply odd_is_lsb. apply G5.
  - lia.
Qed.

(** ** 64-bit searches *)

Lemma log2_high x : 2 ^ 32 <= x < 2 ^ 64 -> Z.log2 x = 32 + Z.log2 (Z.shiftr x 32).
Proof.
  intros Hx. rewrite Z.log2_shiftr by lia.
  assert (32 <= Z.log2 x) by (apply Z.log2_le_pow2; lia). lia.
Qed.

Lemma shiftr32_range x : 0 <= x < 2 ^ 64 -> 0 <= Z.shiftr x 32 < 2 ^ 32.
Proof.
  intros Hx. rewrite Z.shiftr_div_pow2 by lia. split; [apply Z.div_pos; lia|].
  apply Z.div_lt_upper_bound; lia.
Qed.

Lemma shiftr32_zero x : 0 <= x -> Z.shiftr x 32 = 0 <-> x < 2 ^ 32.
Proof.
  intros Hx. rewrite Z.shiftr_div_pow2 by lia. split; intros H; [|apply Z.div_small; lia].
  apply Z.div_small_iff in H; lia.
Qed.

Lemma fls64_spec x : 0 < x < 2 ^ 64 -> fls64 x = Z.log2 x + 1.
Proof.
  intros Hx. unfold fls64. pose proof (shiftr32_range x ltac:(lia)).
  pose proof (shiftr32_zero x ltac:(lia)) as Hz.
  rewrite u32_small by lia.
  destruct (Z.eqb_spec (Z.shiftr x 32) 0) as [E|E]; cbn [negb].
  - apply Hz in E. rewrite u32_small, fls_spec by lia. done.
  - rewrite fls_spec by lia. rewrite (log2_high x) by lia. lia.
Qed.

Lemma swrap_inv w x : 0 < w -> wrap w (swrap w x) = wrap w x.
Proof.
  intros Hw. unfold wrap, swrap.
  assert (2 ^ w <> 0) by (apply Z.pow_nonzero; lia).
  rewrite Zminus_mod_idemp_l. f_equal. lia.
Qed.

Lemma u32_s32 x : u32 (s32 x) = u32 x.
Proof. by apply swrap_inv. Qed.

Lemma s32_u32 x : s32 (u32 x) = s32 x.
Proof. unfold s32, u32, swrap, wrap. by rewrite Zplus_mod_idemp_l. Qed.

Lemma s32_zero x : s32 x = 0 <-> u32 x = 0.
Proof.
  split; intros H.
  - by rewrite <- u32_s32, H.
  - rewrite <- s32_u32, H. done.
Qed.

Lemma s32_range x : - 2 ^ 31 <= s32 x < 2 ^ 31.
Proof. unfold s32, swrap. pose proof (Z.mod_pos_bound (x + 2 ^ (32 - 1)) (2 ^ 32)). lia. Qed.

Lemma buddy_fls_sizet_spec x :
  0 < x < 2 ^ 64 -> buddy_fls_sizet x = Z.log2 x.
Proof.
  intros Hx. unfold buddy_fls_sizet, buddy_fls.
  pose proof (shiftr32_range x ltac:(lia)). pose proof (shiftr32_zero x ltac:(lia)) as Hz.
  rewrite u32_s32. rewrite (u32_s32 x).
  destruct (Z.eqb_spec (s32 (Z.shiftr x 32)) 0) as [E|E]; cbn [negb].
  - apply s32_zero in E. rewrite u32_small in E by lia. apply Hz in E.
    rewrite u32_small by lia. change 0xffffffff with (Z.ones 32).
    rewrite Z.land_ones, Z.mod_small, fls_spec by lia. lia.
  - rewrite s32_zero in E. rewrite u32_small in E |- * by lia.
    rewrite fls_spec by lia. rewrite (log2_high x) by lia. lia.
Qed.

Lemma is_lsb_mod x w i : 0 <= i < w -> is_lsb (x mod 2 ^ w) i <-> is_lsb x i.
Proof.
  intros Hi. unfold is_lsb. rewrite Z.mod_pow2_bits_low by lia.
  split; intros (?&?&Hj); (split; [lia|split; [done|]]); intros j Hj';
    specialize (Hj j Hj'); rewrite Z.mod_pow2_bits_low in * by lia; done.
Qed.

Lemma is_lsb_s32 x i : 0 <= i < 32 -> is_lsb (s32 x) i <-> is_lsb x i.
Proof.
  intros Hi. rewrite <- (is_lsb_mod (s32 x) 32), <- (is_lsb_mod x 32) by done.
  change (s32 x mod 2 ^ 32) with (u32 (s32 x)). by rewrite u32_s32.
Qed.

Lemma buddy_ffs_sizet_spec x :
  0 < x < 2 ^ 64 -> is_lsb x (buddy_ffs_sizet x) /\ 0 <= buddy_ffs_sizet x < 64.
Proof.
  intros Hx. unfold buddy_ffs_sizet, buddy_ffs.
  rewrite !s32_u32.
  rewrite (s32_small (s32 x)) by apply s32_range.
  rewrite (s32_small (s32 (Z.shiftr x 32))) by apply s32_range.
  pose proof (shiftr32_range x ltac:(lia)).
  destruct (Z.eqb_spec (s32 x) 0) as [E|E]; cbn [negb].
  - apply s32_zero in E. unfold u32, wrap in E.
    assert (Hn : Z.shiftr x 32 <> 0).
    { intros Hz. apply shiftr32_zero in Hz; [|lia]. rewrite Z.mod_small in E; lia. }
    assert (s32 (Z.shiftr x 32) <> 0) by (rewrite s32_zero, u32_small; lia).
    destruct (ffs_spec _ (s32_range (Z.shiftr x 32))) as [Hl Hb]; [done|].
    rewrite is_lsb_s32 in Hl by lia. split; [|lia].
    apply (is_lsb_mul _ _ 32) in Hl; [|lia].
    rewrite (Z.shiftr_div_pow2 x 32) in Hl |- * by lia.
    pose proof (Z_div_exact_full_2 x (2 ^ 32) ltac:(lia) E) as Hd.
    rewrite (Z.mul_comm (x / 2 ^ 32)), <- Hd in Hl. by rewrite Z.add_comm.
  - destruct (ffs_spec _ (s32_range x) E) as [Hl Hb].
    rewrite is_lsb_s32 in Hl by lia. split; [done|lia].
Qed.

(** ** Alignment *)

Lemma land_pow2_pred k : 0 <= k -> Z.land (2 ^ k) (2 ^ k - 1) = 0.
Proof.
  intros Hk. replace (2 ^ k - 1) with (Z.ones k) by (rewrite Z.ones_equiv; lia).
  rewrite Z.land_ones, Z_mod_same_full by lia. done.
Qed.

Lemma pow2_assert_ok k : 0 <= k < 64 -> pow2_assert (2 ^ k) = Ok tt.
Proof.
  intros Hk. unfold pow2_assert.
  assert (0 < 2 ^ k < 2 ^ 64) by (split; [apply Z.pow_pos_nonneg | apply Z.pow_lt_mono_r]; lia).
  rewrite u64_small, land_pow2_pred by lia. done.
Qed.

Lemma land_not64_low x k :
  0 <= k <= 64 -> 0 <= x < 2 ^ 64 -> Z.land x (not64 (2 ^ k - 1)) = x / 2 ^ k * 2 ^ k.
Proof.
  intros Hk Hx. rewrite <- (land_high_mask x k 64) by lia. f_equal.
  unfold not64. replace (2 ^ k - 1) with (Z.ones k) by (rewrite Z.ones_equiv; lia).
  apply Z.bits_inj'; intros i Hi. rewrite Z.lxor_spec.
  replace (2 ^ 64 - 2 ^ k) with (Z.shiftl (Z.ones (64 - k)) k).
  2:{ rewrite Z.shiftl_mul_pow2, Z.ones_equiv, <- Z.sub_1_r, Z.mul_sub_distr_r,
        <- Z.pow_add_r, Z.mul_1_l by lia. do 2 f_equal; lia. }
  rewrite Z.shiftl_spec by lia.
  destruct (decide (i < k)).
  - rewrite !Z.ones_spec_low, Z.testbit_neg_r by lia. done.
  - rewrite (Z.ones_spec_high k) by lia. destruct (decide (i < 64)).
    + rewrite !Z.ones_spec_low by lia. done.
    + rewrite !Z.ones_spec_high by lia. done.
Qed.

(** [up_to x m]: the least multiple of [m] that is at least [x]. *)
Definition up_to (x m : Z) : Z := (x + (m - 1)) / m * m.

Lemma up_to_spec x m : 0 < m -> x <= up_to x m < x + m /\ (m | up_to x m).
Proof.
  intros Hm. unfold up_to. split; [|apply Z.divide_factor_r].
  pose proof (Z.div_mod (x + (m - 1)) m ltac:(lia)).
  pose proof (Z.mod_pos_bound (x + (m - 1)) m Hm). lia.
Qed.

Lemma align_up_spec x k :
  0 <= k < 64 -> 0 <= x -> x + (2 ^ k - 1) < 2 ^ 64 ->
  align_up x (2 ^ k) = Ok (up_to x (2 ^ k)).
Proof.
  intros Hk Hx Hb. unfold align_up. rewrite pow2_assert_ok by done. cbn [res_bind].
  assert (0 < 2 ^ k) by (apply Z.pow_pos_nonneg; lia).
  rewrite (u64_small (2 ^ k - 1)), u64_small, land_not64_low by lia. done.
Qed.

Lemma align_ptr_spec p k :
  0 <= k < 64 -> 0 < p -> p + (2 ^ k - 1) < 2 ^ 64 ->
  align_ptr p (2 ^ k) = Ok (up_to p (2 ^ k)).
Proof.
  intros Hk Hx Hb. unfold align_ptr.
  assert (0 < 2 ^ k) by (apply Z.pow_pos_nonneg; lia).
  rewrite !(proj2 (Z.eqb_neq _ 0)) by lia. cbn [negb andb c_assert res_bind].
  rewrite pow2_assert_ok by done. cbn [res_bind].
  rewrite (u64_small (2 ^ k - 1)), u64_small, land_not64_low by lia. done.
Qed.

Lemma align_down_spec x k :
  0 <= k < 64 -> 0 <= x < 2 ^ 64 -> align_down x (2 ^ k) = Ok (x / 2 ^ k * 2 ^ k).
Proof.
  intros Hk Hx. unfold align_down. rewrite pow2_assert_ok by done. cbn [res_bind].
  assert (0 < 2 ^ k < 2 ^ 64) by (split; [apply Z.pow_pos_nonneg | apply Z.pow_lt_mono_r]; lia).
  rewrite (u64_small (2 ^ k - 1)) by lia.
  replace (2 ^ k - 1) with (Z.ones k) by (rewrite Z.ones_equiv; lia).
  rewrite Z.land_ones by lia.
  pose proof (Z.div_mod x (2 ^ k) ltac:(lia)). pose proof (Z.mod_pos_bound x (2 ^ k) ltac:(lia)).
  pose proof (Z.mod_le x (2 ^ k) ltac:(lia) ltac:(lia)).
  rewrite u64_small by lia. f_equal. lia.
Qed.

(** ** Rounding to a power of two *)

Lemma roundup_pow_of_two_spec n :
  1 < n <= 2 ^ 63 -> __roundup_pow_of_two n = Ok (2 ^ Z.log2_up n).
Proof.
  intros Hn. unfold __roundup_pow_of_two, fls_long.
  rewrite u64_small, fls64_spec by lia.
  rewrite Z.log2_up_eqn, Z.sub_1_r by lia. rewrite <- Z.add_1_r.
  apply shl1_ok. split; [pose proof (Z.log2_nonneg (Z.pred n)); lia|].
  assert (Z.log2 (Z.pred n) < 63) by (apply Z.log2_lt_pow2; lia). lia.
Qed.

Lemma log2_log2_up_pow x : 0 < x -> 2 ^ Z.log2 x <= x <= 2 ^ Z.log2_up x.
Proof.
  intros Hx. split; [apply Z.log2_spec; lia|].
  destruct (decide (x = 1)) as [->|]; [done|]. apply Z.log2_up_spec; lia.
Qed.
