(* ===== verification/ListHead.v ===== *)
(** * ListHead: the circular doubly linked lists of include/list.h

    [struct list_head] nodes live at locations of an arbitrary countable type
    [L]; a heap gives the [next] and [prev] field of each location, an absent
    entry standing for the NULL pointer (or memory never initialised, which the
    code must not follow either).  The operations are the source's sequences of
    field writes.  [dlist h hd xs] says that [hd] heads the circular list whose
    entries are [xs], in order; the refinement lemmas show that each operation
    acts on [xs] as the list function its name promises, and touches nothing
    else ([same_outside]). *)

From S2P Require Import Prelude.

Record lheap (L : Type) `{Countable L} := mk_lheap {
  lnext : gmap L L;
  lprev : gmap L L;
}.
Arguments mk_lheap {L _ _} _ _.
Arguments lnext {L _ _} _.
Arguments lprev {L _ _} _.

Section ops.
Context {L : Type} `{Countable L}.
Implicit Types (h : lheap L) (a b new head entry list prev next : L).

Definition set_next a b h : lheap L := mk_lheap (<[a := b]> (lnext h)) (lprev h).
Definition set_prev a b h : lheap L := mk_lheap (lnext h) (<[a := b]> (lprev h)).
Definition get_next a h : res L := deref (lnext h !! a).
Definition get_prev a h : res L := deref (lprev h !! a).

Definition init_list_head list h : lheap L := set_prev list list (set_next list list h).

Definition __list_add new prev next h : lheap L :=
  set_next prev new (set_prev new prev (set_next new next (set_prev next new h))).

Definition list_add new head h : res (lheap L) :=
  let* next := get_next head h in
  Ok (__list_add new head next h).

Definition list_add_tail new head h : res (lheap L) :=
  let* prev := get_prev head h in
  Ok (__list_add new prev head h).

Definition __list_del prev next h : lheap L :=
  set_next prev next (set_prev next prev h).

Definition __list_del_entry entry h : res (lheap L) :=
  let* prev := get_prev entry h in
  let* next := get_next entry h in
  Ok (__list_del prev next h).

(** [entry->next = 0; entry->prev = 0;] *)
Definition clear_links entry h : lheap L :=
  mk_lheap (delete entry (lnext h)) (delete entry (lprev h)).

Definition list_del entry h : res (lheap L) :=
  let* h := __list_del_entry entry h in
  Ok (clear_links entry h).

Definition list_del_init entry h : res (lheap L) :=
  let* h := __list_del_entry entry h in
  Ok (init_list_head entry h).

Definition list_replace old new h : res (lheap L) :=
  let* n := get_next old h in
  let h := set_prev n new (set_next new n h) in
  let* p := get_prev old h in
  Ok (set_next p new (set_prev new p h)).

Definition list_move list head h : res (lheap L) :=
  let* h := __list_del_entry list h in
  list_add list head h.

Definition list_move_tail list head h : res (lheap L) :=
  let* h := __list_del_entry list h in
  list_add_tail list head h.

(** Pointer comparisons: a NULL [next] is equal to no node. *)
Definition list_empty head h : bool := bool_decide (lnext h !! head = Some head).

Definition list_empty_careful head h : bool :=
  bool_decide (lnext h !! head = Some head) && bool_decide (lprev h !! head = Some head).

Definition list_is_last list head h : bool := bool_decide (lnext h !! list = Some head).

Definition list_is_singular head h : bool :=
  negb (list_empty head h) && bool_decide (lnext h !! head = lprev h !! head).

Definition list_rotate_left head h : res (lheap L) :=
  if list_empty head h then Ok h
  else let* first := get_next head h in
       list_move_tail first head h.

Definition __list_splice list prev next h : res (lheap L) :=
  let* first := get_next list h in
  let* last := get_prev list h in
  Ok (set_prev next last (set_next last next (set_next prev first (set_prev first prev h)))).

Definition list_splice list head h : res (lheap L) :=
  if list_empty list h then Ok h
  else let* next := get_next head h in
       __list_splice list head next h.

Definition list_splice_tail list head h : res (lheap L) :=
  if list_empty list h then Ok h
  else let* prev := get_prev head h in
       __list_splice list prev head h.

Definition list_splice_init list head h : res (lheap L) :=
  if list_empty list h then Ok h
  else let* next := get_next head h in
       let* h := __list_splice list head next h in
       Ok (init_list_head list h).

Definition list_splice_tail_init list head h : res (lheap L) :=
  if list_empty list h then Ok h
  else let* prev := get_prev head h in
       let* h := __list_splice list prev head h in
       Ok (init_list_head list h).

(** [list_first_entry] and [list_last_entry], at the level of nodes. *)
Definition list_first_entry head h : res L := get_next head h.
Definition list_last_entry head h : res L := get_prev head h.

(** [list_for_each]: the nodes the loop visits.  The fuel bounds the number of
    iterations; [list_for_each_spec] shows how much is enough. *)
Fixpoint list_walk (fuel : nat) head pos h : res (list L) :=
  match fuel with
  | O => Undef
  | S fuel =>
      if bool_decide (pos = head) then Ok []
      else let* n := get_next pos h in
           let* rest := list_walk fuel head n h in
           Ok (pos :: rest)
  end.

Definition list_for_each (fuel : nat) head h : res (list L) :=
  let* pos := get_next head h in
  list_walk fuel head pos h.
End ops.

(** ** Paths through one of the two fields *)

Section path.
Context {L : Type} `{Countable L}.
Implicit Types (f g : gmap L L) (a b x z : L) (xs ys l : list L).

Fixpoint path f a xs z : Prop :=
  match xs with
  | [] => f !! a = Some z
  | x :: xs => f !! a = Some x /\ path f x xs z
  end.

Lemma path_app f a xs x ys z :
  path f a (xs ++ x :: ys) z <-> path f a xs x /\ path f x ys z.
Proof. revert a. induction xs as [|y xs IH]; intros a; cbn; [done|]. rewrite IH. tauto. Qed.

Lemma path_frame f g a xs z :
  (forall y, y ∈ a :: xs -> f !! y = g !! y) -> path f a xs z -> path g a xs z.
Proof.
  revert a. induction xs as [|x xs IH]; intros a Hy; cbn.
  - by rewrite <- Hy by set_solver.
  - intros [??]. rewrite <- Hy by set_solver. split; [done|]. apply IH; set_solver.
Qed.

Lemma path_insert_ne f a xs z x v :
  x ∉ a :: xs -> path f a xs z -> path (<[x := v]> f) a xs z.
Proof.
  intros Hx. apply path_frame. intros y Hy. rewrite lookup_insert_ne; [done|set_solver].
Qed.

(** The node before the end of a path, and the node after its start. *)
Definition last_of a xs : L := default a (last xs).
Definition first_of xs z : L := default z (head xs).

Lemma last_of_cons a x xs : last_of a (x :: xs) = last_of x xs.
Proof. unfold last_of. rewrite last_cons. by destruct (last xs). Qed.

Lemma last_of_snoc a xs x : last_of a (xs ++ [x]) = x.
Proof. unfold last_of. by rewrite last_snoc. Qed.

Lemma last_of_elem a xs : last_of a xs ∈ a :: xs.
Proof.
  revert a. induction xs as [|x xs IH]; intros a; [set_solver|].
  rewrite last_of_cons. specialize (IH x). set_solver.
Qed.

Lemma first_of_elem xs z : first_of xs z ∈ z :: xs.
Proof. destruct xs; set_solver. Qed.

Lemma path_first f a xs z : path f a xs z -> f !! a = Some (first_of xs z).
Proof. destruct xs; cbn; [done|]. by intros [? _]. Qed.

Lemma path_last f a xs z : path f a xs z -> f !! last_of a xs = Some z.
Proof.
  revert a. induction xs as [|x xs IH]; intros a; [done|].
  intros [_ Hp]. rewrite last_of_cons. by apply IH.
Qed.

(** Redirecting the end of a path. *)
Lemma path_retarget f a xs z w :
  NoDup (a :: xs) -> path f a xs z -> path (<[last_of a xs := w]> f) a xs w.
Proof.
  revert a. induction xs as [|x xs IH]; intros a Hnd Hp.
  - cbn. by rewrite lookup_insert_eq.
  - rewrite last_of_cons. destruct Hp as [Ha Hp]. apply NoDup_cons in Hnd as [Hna Hnd].
    split; [|by apply IH].
    rewrite lookup_insert_ne; [done|]. pose proof (last_of_elem x xs). set_solver.
Qed.

(** Starting the tail of a path from another node. *)
Lemma path_restart f a x xs z :
  x ∉ xs -> path f a xs z -> path (<[x := first_of xs z]> f) x xs z.
Proof.
  intros Hx. destruct xs as [|y ys]; cbn; [by rewrite lookup_insert_eq|].
  intros [_ Hp]. split; [by rewrite lookup_insert_eq|]. by apply path_insert_ne.
Qed.

Lemma path_split_first f hd l1 l2 z :
  path f hd (l1 ++ l2) z -> path f hd l1 (first_of l2 z).
Proof.
  destruct l2 as [|y l2]; [by rewrite app_nil_r|]. rewrite path_app. by intros [? _].
Qed.

Lemma path_split_last f hd l1 l2 z :
  path f hd (l1 ++ l2) z -> path f (last_of hd l1) l2 z.
Proof.
  destruct l1 as [|y l1] using rev_ind; [done|].
  rewrite last_of_snoc, <- app_assoc. cbn. rewrite path_app. by intros [_ ?].
Qed.

Lemma NoDup_app_last hd l1 l2 : NoDup (hd :: l1 ++ l2) -> last_of hd l1 ∉ l2.
Proof.
  intros Hnd. pose proof (last_of_elem hd l1) as Hl.
  rewrite app_comm_cons, NoDup_app in Hnd. set_solver.
Qed.

Lemma NoDup_hd_l hd l1 l2 : NoDup (hd :: l1 ++ l2) -> NoDup (hd :: l1).
Proof. rewrite app_comm_cons, NoDup_app. tauto. Qed.

(** Linking [x] in, and unlinking it. *)
Lemma path_link f hd l1 l2 x :
  NoDup (hd :: l1 ++ l2) -> x ∉ hd :: l1 ++ l2 -> path f hd (l1 ++ l2) hd ->
  path (<[last_of hd l1 := x]> (<[x := first_of l2 hd]> f)) hd (l1 ++ x :: l2) hd.
Proof.
  intros Hnd Hx Hp. apply path_app. pose proof (NoDup_app_last _ _ _ Hnd).
  pose proof (last_of_elem hd l1). split.
  - apply path_retarget with (z := first_of l2 hd); [by eapply NoDup_hd_l|].
    apply path_insert_ne; [set_solver|]. by apply path_split_first.
  - apply path_insert_ne; [set_solver|].
    apply path_restart with (a := last_of hd l1); [set_solver|]. by apply path_split_last.
Qed.

Lemma path_unlink f hd l1 x l2 :
  NoDup (hd :: l1 ++ x :: l2) -> path f hd (l1 ++ x :: l2) hd ->
  path (<[last_of hd l1 := first_of l2 hd]> f) hd (l1 ++ l2) hd.
Proof.
  intros Hnd Hp. apply path_app in Hp as [H1 H2].
  pose proof (NoDup_app_last _ _ _ Hnd) as Hl.
  pose proof (path_retarget _ _ _ _ (first_of l2 hd) (NoDup_hd_l _ _ _ Hnd) H1) as Hp.
  destruct l2 as [|y l2]; [by rewrite app_nil_r|]. apply path_app. split; [done|].
  apply path_insert_ne; [set_solver|]. by destruct H2 as [_ ?].
Qed.

(** Splicing the body of the list headed by [l] in. *)
Lemma path_splice f hd l1 l2 (l : L) ys :
  NoDup (hd :: l1 ++ l2) -> NoDup (l :: ys) -> (hd :: l1 ++ l2) ## (l :: ys) -> ys <> [] ->
  path f hd (l1 ++ l2) hd -> path f l ys l ->
  path (<[last_of l ys := first_of l2 hd]> (<[last_of hd l1 := first_of ys l]> f))
    hd (l1 ++ ys ++ l2) hd.
Proof.
  intros Hnd Hnd' Hdis Hne Hp Hq. destruct ys as [|y ys]; [done|]. cbn [app].
  pose proof (last_of_elem hd l1). pose proof (last_of_elem y ys).
  pose proof (NoDup_app_last _ _ _ Hnd).
  apply path_app. rewrite last_of_cons. split.
  - apply path_insert_ne; [set_solver|].
    apply path_retarget with (z := first_of l2 hd); [by eapply NoDup_hd_l|].
    by apply path_split_first.
  - destruct Hq as [_ Hq].
    assert (Hr : path (<[last_of hd l1 := first_of (y :: ys) l]> f) y ys l)
      by (apply path_insert_ne; [set_solver|done]).
    apply (path_retarget _ _ _ _ (first_of l2 hd)) in Hr; [|by apply NoDup_cons in Hnd' as [_ ?]].
    apply path_split_last in Hp.
    destruct l2 as [|z l2]; [by rewrite app_nil_r|]. apply path_app. split; [done|].
    apply path_insert_ne; [set_solver|]. apply path_insert_ne; [set_solver|].
    by destruct Hp as [_ ?].
Qed.
End path.

(** ** Lists *)

Section dlist.
Context {L : Type} `{Countable L}.
Implicit Types (h : lheap L) (hd x y : L) (xs ys l : list L).

Definition dlist h hd xs : Prop :=
  NoDup (hd :: xs) /\ path (lnext h) hd xs hd /\ path (lprev h) hd (reverse xs) hd.

(** [h'] differs from [h] only at the nodes of [ns]. *)
Definition same_outside (ns : list L) h h' : Prop :=
  forall y, y ∉ ns -> lnext h' !! y = lnext h !! y /\ lprev h' !! y = lprev h !! y.

Lemma same_outside_refl ns h : same_outside ns h h.
Proof. done. Qed.

Lemma same_outside_trans ns h1 h2 h3 :
  same_outside ns h1 h2 -> same_outside ns h2 h3 -> same_outside ns h1 h3.
Proof. intros H1 H2 y Hy. destruct (H1 y Hy), (H2 y Hy). split; congruence. Qed.

Lemma same_outside_weaken ns ns' h h' :
  ns ⊆ ns' -> same_outside ns h h' -> same_outside ns' h h'.
Proof. intros Hs Ho y Hy. apply Ho. set_solver. Qed.

Lemma same_outside_set_next ns h h' a b :
  a ∈ ns -> same_outside ns h h' -> same_outside ns h (set_next a b h').
Proof.
  intros Ha Ho y Hy. destruct (Ho y Hy). cbn.
  rewrite lookup_insert_ne by set_solver. done.
Qed.

Lemma same_outside_set_prev ns h h' a b :
  a ∈ ns -> same_outside ns h h' -> same_outside ns h (set_prev a b h').
Proof.
  intros Ha Ho y Hy. destruct (Ho y Hy). cbn.
  rewrite lookup_insert_ne by set_solver. done.
Qed.

Lemma same_outside_clear ns h h' a :
  a ∈ ns -> same_outside ns h h' -> same_outside ns h (clear_links a h').
Proof.
  intros Ha Ho y Hy. destruct (Ho y Hy). cbn.
  rewrite !lookup_delete_ne by set_solver. done.
Qed.

Ltac same_outside :=
  repeat first
    [ apply same_outside_refl
    | apply same_outside_set_next; [set_solver|]
    | apply same_outside_set_prev; [set_solver|]
    | apply same_outside_clear; [set_solver|] ].

Lemma dlist_frame h h' hd xs ns :
  same_outside ns h h' -> (hd :: xs) ## ns -> dlist h hd xs -> dlist h' hd xs.
Proof.
  intros Ho Hd (Hnd & Hn & Hp). split; [done|split].
  - eapply path_frame, Hn. intros y Hy. symmetry. apply Ho. set_solver.
  - eapply path_frame, Hp. intros y Hy. symmetry. apply Ho.
    rewrite elem_of_cons, elem_of_reverse in Hy. set_solver.
Qed.

Lemma dlist_NoDup h hd xs : dlist h hd xs -> NoDup (hd :: xs).
Proof. by intros [? _]. Qed.

Lemma last_of_reverse hd xs : last_of hd (reverse xs) = first_of xs hd.
Proof. unfold last_of, first_of. by rewrite last_reverse. Qed.

Lemma first_of_reverse hd xs : first_of (reverse xs) hd = last_of hd xs.
Proof. unfold last_of, first_of. by rewrite head_reverse. Qed.

Lemma NoDup_hd_reverse hd xs : NoDup (hd :: xs) -> NoDup (hd :: reverse xs).
Proof. by rewrite !NoDup_cons, elem_of_reverse, (reverse_Permutation xs). Qed.

Lemma dlist_init h hd : dlist (init_list_head hd h) hd [].
Proof.
  split; [apply NoDup_singleton|]. cbn. by rewrite !lookup_insert_eq.
Qed.

Lemma init_same_outside h hd : same_outside [hd] h (init_list_head hd h).
Proof. unfold init_list_head. same_outside. Qed.

Lemma dlist_first h hd xs : dlist h hd xs -> lnext h !! hd = Some (first_of xs hd).
Proof. intros (_ & Hn & _). by apply path_first in Hn. Qed.

Lemma dlist_last h hd xs : dlist h hd xs -> lprev h !! hd = Some (last_of hd xs).
Proof. intros (_ & _ & Hp). apply path_first in Hp. by rewrite first_of_reverse in Hp. Qed.

Lemma dlist_next h hd l1 x l2 :
  dlist h hd (l1 ++ x :: l2) -> lnext h !! x = Some (first_of l2 hd).
Proof. intros (_ & Hn & _). apply path_app in Hn as [_ Hn]. by apply path_first in Hn. Qed.

Lemma dlist_prev h hd l1 x l2 :
  dlist h hd (l1 ++ x :: l2) -> lprev h !! x = Some (last_of hd l1).
Proof.
  intros (_ & _ & Hp). rewrite reverse_app, reverse_cons, <- app_assoc in Hp.
  apply path_app in Hp as [_ Hp]. apply path_first in Hp. by rewrite first_of_reverse in Hp.
Qed.

Lemma first_of_eq_hd hd xs : hd ∉ xs -> first_of xs hd = hd -> xs = [].
Proof. destruct xs as [|x xs]; cbn; [done|]. intros Hn <-. set_solver. Qed.

Lemma list_empty_spec h hd xs :
  dlist h hd xs -> list_empty hd h = bool_decide (xs = []).
Proof.
  intros Hd. unfold list_empty. rewrite (dlist_first _ _ _ Hd).
  apply bool_decide_ext. split; [|by intros ->].
  intros [= E]. apply first_of_eq_hd in E; [done|].
  apply dlist_NoDup, NoDup_cons in Hd. tauto.
Qed.

Lemma dlist_link h hd l1 l2 x :
  dlist h hd (l1 ++ l2) -> x ∉ hd :: l1 ++ l2 ->
  dlist (__list_add x (last_of hd l1) (first_of l2 hd) h) hd (l1 ++ x :: l2).
Proof.
  intros (Hnd & Hn & Hp) Hx. split; [|split].
  - rewrite <- (Permutation_middle l1 l2 x). rewrite !NoDup_cons in *. set_solver.
  - apply path_link; done.
  - cbn [lprev __list_add set_next set_prev].
    assert (Hne : x <> first_of l2 hd).
    { pose proof (first_of_elem l2 hd). set_solver. }
    rewrite insert_insert_ne by done.
    rewrite reverse_app, reverse_cons, <- app_assoc. cbn.
    rewrite <- (first_of_reverse hd l1), <- (last_of_reverse hd l2).
    rewrite reverse_app in Hp. apply path_link; [| |done].
    + rewrite <- reverse_app. by apply NoDup_hd_reverse.
    + rewrite <- reverse_app, elem_of_cons, elem_of_reverse. set_solver.
Qed.

Lemma list_add_same_outside h x p n ns :
  x ∈ ns -> p ∈ ns -> n ∈ ns -> same_outside ns h (__list_add x p n h).
Proof.
  intros. unfold __list_add. same_outside.
Qed.

Lemma list_add_spec h hd xs x :
  dlist h hd xs -> x ∉ hd :: xs ->
  exists h', list_add x hd h = Ok h' /\ dlist h' hd (x :: xs) /\
             same_outside (x :: hd :: xs) h h'.
Proof.
  intros Hd Hx. unfold list_add, get_next. rewrite (dlist_first _ _ _ Hd). cbn.
  eexists. split; [done|]. split; [by apply (dlist_link h hd [] xs)|].
  pose proof (first_of_elem xs hd). apply list_add_same_outside; set_solver.
Qed.

Lemma list_add_tail_spec h hd xs x :
  dlist h hd xs -> x ∉ hd :: xs ->
  exists h', list_add_tail x hd h = Ok h' /\ dlist h' hd (xs ++ [x]) /\
             same_outside (x :: hd :: xs) h h'.
Proof.
  intros Hd Hx. unfold list_add_tail, get_prev. rewrite (dlist_last _ _ _ Hd). cbn.
  eexists. split; [done|]. split.
  - apply (dlist_link h hd xs []); rewrite ?app_nil_r; done.
  - pose proof (last_of_elem hd xs). apply list_add_same_outside; set_solver.
Qed.

Lemma list_del_entry_spec h hd l1 x l2 :
  dlist h hd (l1 ++ x :: l2) ->
  exists h', __list_del_entry x h = Ok h' /\ dlist h' hd (l1 ++ l2) /\
             same_outside (hd :: l1 ++ l2) h h'.
Proof.
  intros Hd. unfold __list_del_entry, get_prev, get_next.
  rewrite (dlist_next _ _ _ _ _ Hd), (dlist_prev _ _ _ _ _ Hd). cbn.
  eexists. split; [done|].
  pose proof (first_of_elem l2 hd). pose proof (last_of_elem hd l1). split.
  - destruct Hd as (Hnd & Hn & Hp). split; [|split].
    + rewrite <- (Permutation_middle l1 l2 x), !NoDup_cons in Hnd. rewrite NoDup_cons. set_solver.
    + cbn. by apply path_unlink with (x := x).
    + cbn. rewrite reverse_app, reverse_cons, <- app_assoc in Hp. cbn in Hp.
      rewrite <- (first_of_reverse hd l1), <- (last_of_reverse hd l2), reverse_app.
      apply path_unlink with (x := x); [|done].
      replace (reverse l2 ++ x :: reverse l1) with (reverse (l1 ++ x :: l2))
        by (by rewrite reverse_app, reverse_cons, <- app_assoc).
      by apply NoDup_hd_reverse.
  - unfold __list_del. same_outside.
Qed.

Lemma dlist_middle_notin h hd l1 x l2 : dlist h hd (l1 ++ x :: l2) -> x ∉ hd :: l1 ++ l2.
Proof.
  intros Hd%dlist_NoDup. rewrite <- (Permutation_middle l1 l2 x), !NoDup_cons in Hd. set_solver.
Qed.

Lemma list_del_spec h hd l1 x l2 :
  dlist h hd (l1 ++ x :: l2) ->
  exists h', list_del x h = Ok h' /\ dlist h' hd (l1 ++ l2) /\
             same_outside (x :: hd :: l1 ++ l2) h h'.
Proof.
  intros Hd. destruct (list_del_entry_spec _ _ _ _ _ Hd) as (h' & E & Hd' & Ho).
  unfold list_del. rewrite E. cbn [res_bind]. eexists. split; [done|].
  pose proof (dlist_middle_notin _ _ _ _ _ Hd) as Hx. split.
  - eapply (dlist_frame h' _ _ _ [x]); [|set_solver|done].
    same_outside.
  - apply same_outside_clear; [set_solver|]. eapply same_outside_weaken, Ho. set_solver.
Qed.

Lemma list_del_init_spec h hd l1 x l2 :
  dlist h hd (l1 ++ x :: l2) ->
  exists h', list_del_init x h = Ok h' /\ dlist h' hd (l1 ++ l2) /\ dlist h' x [] /\
             same_outside (x :: hd :: l1 ++ l2) h h'.
Proof.
  intros Hd. destruct (list_del_entry_spec _ _ _ _ _ Hd) as (h' & E & Hd' & Ho).
  unfold list_del_init. rewrite E. cbn [res_bind]. eexists. split; [done|].
  pose proof (dlist_middle_notin _ _ _ _ _ Hd) as Hx. split; [|split].
  - eapply dlist_frame; [apply init_same_outside|set_solver|done].
  - apply dlist_init.
  - eapply same_outside_trans.
    + eapply same_outside_weaken, Ho. set_solver.
    + eapply same_outside_weaken, init_same_outside. set_solver.
Qed.

(** [list_move] and [list_move_tail] within one list or between two. *)
Lemma list_move_tail_spec h hd l1 x l2 :
  dlist h hd (l1 ++ x :: l2) ->
  exists h', list_move_tail x hd h = Ok h' /\ dlist h' hd (l1 ++ l2 ++ [x]) /\
             same_outside (x :: hd :: l1 ++ l2) h h'.
Proof.
  intros Hd. destruct (list_del_entry_spec _ _ _ _ _ Hd) as (h1 & E1 & Hd1 & Ho1).
  unfold list_move_tail. rewrite E1. cbn [res_bind].
  destruct (list_add_tail_spec h1 hd (l1 ++ l2) x Hd1) as (h2 & E2 & Hd2 & Ho2);
    [by eapply dlist_middle_notin|].
  exists h2. rewrite <- app_assoc in Hd2. split; [done|]. split; [done|].
  eapply same_outside_trans, Ho2. eapply same_outside_weaken, Ho1. set_solver.
Qed.

Lemma list_rotate_left_spec h hd x xs :
  dlist h hd (x :: xs) ->
  exists h', list_rotate_left hd h = Ok h' /\ dlist h' hd (xs ++ [x]).
Proof.
  intros Hd. unfold list_rotate_left. rewrite (list_empty_spec _ _ _ Hd).
  rewrite bool_decide_false by done. unfold get_next.
  rewrite (dlist_first _ _ _ Hd). cbn [deref res_bind first_of].
  destruct (list_move_tail_spec h hd [] x xs Hd) as (h' & E & Hd' & _). by exists h'.
Qed.

(** Joining two lists: the entries of [hd2] end up after those of [hd], and
    [hd2] is left empty. *)
Lemma list_splice_tail_init_spec h hd hd2 xs ys :
  dlist h hd xs -> dlist h hd2 ys -> (hd :: xs) ## (hd2 :: ys) ->
  exists h', list_splice_tail_init hd2 hd h = Ok h' /\
    dlist h' hd (xs ++ ys) /\ dlist h' hd2 [] /\
    same_outside (hd :: hd2 :: xs ++ ys) h h'.
Proof.
  intros Hd Hd2 Hdis. unfold list_splice_tail_init. rewrite (list_empty_spec _ _ _ Hd2).
  destruct (decide (ys = [])) as [->|Hne].
  { rewrite bool_decide_true by done. rewrite app_nil_r. eauto using same_outside_refl. }
  rewrite bool_decide_false by done. unfold __list_splice, get_prev, get_next.
  rewrite (dlist_last _ _ _ Hd), (dlist_first _ _ _ Hd2), (dlist_last _ _ _ Hd2).
  cbn [deref res_bind]. eexists. split; [done|].
  pose proof (last_of_elem hd xs). pose proof (last_of_elem hd2 ys).
  pose proof (first_of_elem ys hd2).
  assert (Hn2 : hd2 ∉ ys) by (apply dlist_NoDup, NoDup_cons in Hd2; tauto).
  split; [|split].
  - eapply dlist_frame; [apply init_same_outside|set_solver|].
    destruct Hd as (Hnd & Hn & Hp), Hd2 as (Hnd2 & Hq2 & Hp2). split; [|split].
    + rewrite app_comm_cons. apply NoDup_app. apply NoDup_cons in Hnd2. set_solver.
    + cbn. pose proof (path_splice (lnext h) hd xs [] hd2 ys) as Hs.
      rewrite !app_nil_r in Hs. by apply Hs.
    + cbn. pose proof (path_splice (lprev h) hd [] (reverse xs) hd2 (reverse ys)) as Hs.
      cbn [app] in Hs. rewrite last_of_reverse, !first_of_reverse in Hs.
      rewrite reverse_app.
      rewrite insert_insert_ne by set_solver.
      apply Hs; [by apply NoDup_hd_reverse|by apply NoDup_hd_reverse| |
                 |done|done].
      * intros z. rewrite !elem_of_cons, !elem_of_reverse. set_solver.
      * intros E. apply Hne. rewrite <- (reverse_involutive ys), E. done.
  - apply dlist_init.
  - unfold init_list_head. same_outside.
Qed.

(** The traversal visits exactly the entries, and one unit of fuel more than
    there are entries is enough. *)
Lemma list_walk_spec h hd xs a fuel :
  hd ∉ xs -> path (lnext h) a xs hd -> (length xs < fuel)%nat ->
  list_walk fuel hd (first_of xs hd) h = Ok xs.
Proof.
  revert a xs. induction fuel as [|fuel IH]; intros a xs Hn Hp Hf; [lia|].
  destruct xs as [|x xs]; cbn; [by rewrite bool_decide_true|].
  destruct Hp as [_ Hp]. rewrite bool_decide_false by set_solver.
  unfold get_next. rewrite (path_first _ _ _ _ Hp). cbn [deref res_bind].
  rewrite (IH x); [done|set_solver|done|cbn in Hf; lia].
Qed.

Lemma list_for_each_spec h hd xs fuel :
  dlist h hd xs -> (length xs < fuel)%nat -> list_for_each fuel hd h = Ok xs.
Proof.
  intros Hd Hf. unfold list_for_each, get_next. rewrite (dlist_first _ _ _ Hd).
  cbn [deref res_bind]. destruct Hd as (Hnd & Hn & _).
  apply (list_walk_spec _ _ _ hd); [by apply NoDup_cons in Hnd as [? _]|done|done].
Qed.
End dlist.
