(* ===== verification/CMem.v ===== *)
(** * CMem: byte memory and the string functions of lib/libc/string.c

    Memory is a finite map from addresses to bytes; an address that is absent is
    not mapped, and touching it is undefined.  The loops of the source become
    recursions: a counted loop recurses on its count, a loop that runs to a NUL
    recurses on a fuel of one more than the number of mapped bytes, which no run
    can exhaust without leaving the mapped bytes first.  [char] is signed: the
    kernel is compiled with [-fsigned-char]. *)

From S2P Require Import Prelude.

Abbreviation cmem := (gmap Z Z).

Local Coercion Z.of_nat : nat >-> Z.

Implicit Types m : cmem.

Definition byte (c : Z) : Z := wrap 8 c.
Definition schar (b : Z) : Z := swrap 8 b.

Definition load8 m (a : Z) : res Z := deref (m !! a).
Definition store8 m (a v : Z) : res cmem :=
  match m !! a with Some _ => Ok (<[a := byte v]> m) | None => Undef end.

(** Fuel for a scan that ends at a NUL. *)
Definition scan_fuel m : nat := S (size m).

(** ** Blocks of memory *)

Fixpoint memset_loop (n : nat) m (cdst i c : Z) : res cmem :=
  match n with
  | O => Ok m
  | S n => let* m := store8 m (cdst + i) c in memset_loop n m cdst (i + 1) c
  end.

(** The index is an [int]: the loop overflows it when [n] exceeds [INT_MAX]. *)
Definition memset m (dst c n : Z) : res cmem :=
  let n := u32 n in
  let* m := memset_loop (Z.to_nat n) m dst 0 c in
  let* _ := defined_if (n <? 2 ^ 31) in
  Ok m.

Fixpoint memcmp_loop (n : nat) m (s1 s2 : Z) : res Z :=
  match n with
  | O => Ok 0
  | S n =>
      let* a := load8 m s1 in
      let* b := load8 m s2 in
      if negb (a =? b) then Ok (a - b) else memcmp_loop n m (s1 + 1) (s2 + 1)
  end.

Definition memcmp m (v1 v2 n : Z) : res Z := memcmp_loop (Z.to_nat (u32 n)) m v1 v2.

(** [while (n-- > 0) *--d = *--s;] *)
Fixpoint copy_down (n : nat) m (d s : Z) : res cmem :=
  match n with
  | O => Ok m
  | S n =>
      let* b := load8 m (s - 1) in
      let* m := store8 m (d - 1) b in
      copy_down n m (d - 1) (s - 1)
  end.

(** [while (n-- > 0) *d++ = *s++;] *)
Fixpoint copy_up (n : nat) m (d s : Z) : res cmem :=
  match n with
  | O => Ok m
  | S n =>
      let* b := load8 m s in
      let* m := store8 m d b in
      copy_up n m (d + 1) (s + 1)
  end.

Definition memmove m (dst src n : Z) : res cmem :=
  let n := u32 n in
  if (src <? dst) && (dst <? src + n)
  then copy_down (Z.to_nat n) m (dst + n) (src + n)
  else copy_up (Z.to_nat n) m dst src.

Definition memcpy m (dst src n : Z) : res cmem := memmove m dst src n.

(** ** Strings *)

Fixpoint strncmp_loop (n : nat) m (p q : Z) : res Z :=
  match n with
  | O => Ok 0
  | S n' =>
      let* a := load8 m p in
      if a =? 0 then let* b := load8 m q in Ok (a - b)
      else
        let* b := load8 m q in
        if a =? b then strncmp_loop n' m (p + 1) (q + 1) else Ok (a - b)
  end.

Definition strncmp m (p q n : Z) : res Z := strncmp_loop (Z.to_nat (u32 n)) m p q.

(** [while (n-- > 0) *s++ = 0;] *)
Fixpoint zero_fill (n : nat) m (s : Z) : res cmem :=
  match n with
  | O => Ok m
  | S n => let* m := store8 m s 0 in zero_fill n m (s + 1)
  end.

(** The first loop ends either with [n] exhausted, the test having decremented
    it to -1, or after copying the NUL; the second loop pads. *)
Fixpoint strncpy_loop (n : nat) m (s t : Z) : res cmem :=
  match n with
  | O => Ok m
  | S n =>
      let* b := load8 m t in
      let* m := store8 m s b in
      if b =? 0 then zero_fill n m (s + 1) else strncpy_loop n m (s + 1) (t + 1)
  end.

Definition strncpy m (s t n : Z) : res cmem := strncpy_loop (Z.to_nat n) m s t.

Fixpoint safestrcpy_loop (n : nat) m (s t : Z) : res cmem :=
  match n with
  | O => store8 m s 0
  | S n =>
      let* b := load8 m t in
      let* m := store8 m s b in
      if b =? 0 then store8 m (s + 1) 0 else safestrcpy_loop n m (s + 1) (t + 1)
  end.

Definition safestrcpy m (s t n : Z) : res cmem :=
  if n <=? 0 then Ok m else safestrcpy_loop (Z.to_nat (n - 1)) m s t.

Fixpoint strlen_loop (fuel : nat) m (s n : Z) : res Z :=
  match fuel with
  | O => Undef
  | S fuel =>
      let* b := load8 m (s + n) in
      if b =? 0 then Ok n
      else let* _ := defined_if (n + 1 <? 2 ^ 31) in strlen_loop fuel m s (n + 1)
  end.

Definition strlen m (s : Z) : res Z := strlen_loop (scan_fuel m) m s 0.

Fixpoint strcmp_loop (fuel : nat) m (s1 s2 : Z) : res Z :=
  match fuel with
  | O => Undef
  | S fuel =>
      let* a := load8 m s1 in
      let* b := load8 m s2 in
      let r := schar a - schar b in
      if negb (r =? 0) || (a =? 0) then Ok r else strcmp_loop fuel m (s1 + 1) (s2 + 1)
  end.

Definition strcmp m (s1 s2 : Z) : res Z := strcmp_loop (scan_fuel m) m s1 s2.

Fixpoint strcpy_loop (fuel : nat) m (dest src : Z) : res cmem :=
  match fuel with
  | O => Undef
  | S fuel =>
      let* b := load8 m src in
      let* m := store8 m dest b in
      if b =? 0 then Ok m else strcpy_loop fuel m (dest + 1) (src + 1)
  end.

Definition strcpy m (dest src : Z) : res cmem := strcpy_loop (scan_fuel m) m dest src.

(** The remaining length [l1] decreases at every step. *)
Fixpoint strstr_loop (fuel : nat) m (s1 l1 s2 l2 : Z) : res Z :=
  match fuel with
  | O => Undef
  | S fuel =>
      if l2 <=? l1 then
        let* r := memcmp m s1 s2 l2 in
        if r =? 0 then Ok s1 else strstr_loop fuel m (s1 + 1) (l1 - 1) s2 l2
      else Ok 0
  end.

Definition strstr m (s1 s2 : Z) : res Z :=
  let* l2 := strlen m s2 in
  if l2 =? 0 then Ok s1
  else
    let* l1 := strlen m s1 in
    strstr_loop (S (Z.to_nat l1)) m s1 l1 s2 l2.

Definition strlcpy m (dest src n : Z) : res (cmem * Z) :=
  let* ret := strlen m src in
  if negb (n =? 0) then
    let len := if n <=? ret then n - 1 else ret in
    let* m := memcpy m dest src len in
    let* m := store8 m (dest + len) 0 in
    Ok (m, ret)
  else Ok (m, ret).

(** A NULL result is 0. *)
Fixpoint strchr_loop (fuel : nat) m (s c : Z) : res Z :=
  match fuel with
  | O => Undef
  | S fuel =>
      let* b := load8 m s in
      if b =? byte c then Ok s
      else if b =? 0 then Ok 0 else strchr_loop fuel m (s + 1) c
  end.

Definition strchr m (s c : Z) : res Z := strchr_loop (scan_fuel m) m s c.

(** [n] is the number of addresses from [s] to [p]. *)
Fixpoint strrchr_loop (n : nat) m (p c : Z) : res Z :=
  match n with
  | O => Ok 0
  | S n =>
      let* b := load8 m p in
      if b =? byte c then Ok p else strrchr_loop n m (p - 1) c
  end.

Definition strrchr m (s c : Z) : res Z :=
  let* n := strlen m s in
  strrchr_loop (S (Z.to_nat n)) m (s + n) c.

(** ** Ranges of bytes *)

Fixpoint bytes_at m (p : Z) (bs : list Z) : Prop :=
  match bs with
  | [] => True
  | b :: bs => m !! p = Some b /\ bytes_at m (p + 1) bs
  end.

Fixpoint write_bytes m (p : Z) (bs : list Z) : cmem :=
  match bs with
  | [] => m
  | b :: bs => write_bytes (<[p := b]> m) (p + 1) bs
  end.

Definition mapped m (p n : Z) : Prop := forall a, p <= a < p + n -> is_Some (m !! a).

Definition is_byte (b : Z) : Prop := 0 <= b < 256.

(** [s] is the C string at [p]: its bytes are not NUL and a NUL follows them. *)
Definition cstr m (p : Z) (s : list Z) : Prop :=
  bytes_at m p (s ++ [0]) /\ Forall (fun b => 0 < b < 256) s.

Lemma byte_id b : is_byte b -> byte b = b.
Proof. apply (wrap_small 8). Qed.

Lemma byte_range c : is_byte (byte c).
Proof. by apply (wrap_range 8). Qed.

Lemma schar_inj a b : is_byte a -> is_byte b -> schar a = schar b <-> a = b.
Proof.
  unfold is_byte, schar, swrap. change (2 ^ (8 - 1)) with 128. change (2 ^ 8) with 256.
  intros Ha Hb. split; [|by intros ->]. Z.to_euclidean_division_equations. lia.
Qed.

Lemma bytes_at_app m p bs cs :
  bytes_at m p (bs ++ cs) <-> bytes_at m p bs /\ bytes_at m (p + length bs) cs.
Proof.
  revert p. induction bs as [|b bs IH]; intros p; cbn [app bytes_at length].
  - rewrite Z.add_0_r. tauto.
  - rewrite IH. replace (p + 1 + Z.of_nat (length bs)) with (p + Z.of_nat (S (length bs))) by lia. tauto.
Qed.

Lemma bytes_at_insert_ne m p bs a v :
  ~ (p <= a < p + length bs) -> bytes_at m p bs -> bytes_at (<[a := v]> m) p bs.
Proof.
  revert p. induction bs as [|b bs IH]; intros p Ha; cbn [bytes_at length] in *; [done|].
  intros [Hb Hr]. rewrite lookup_insert_ne by lia. split; [done|]. apply IH; [lia|done].
Qed.

Lemma bytes_at_mapped m p bs : bytes_at m p bs -> mapped m p (length bs).
Proof.
  revert p. induction bs as [|b bs IH]; intros p; cbn [bytes_at length]; intros H a Ha; [lia|].
  destruct H as [Hb Hr]. destruct (decide (a = p)) as [->|]; [eauto|]. apply (IH (p + 1)); [done|lia].
Qed.

Lemma mapped_insert m p n a v : mapped m p n -> mapped (<[a := v]> m) p n.
Proof.
  intros Hm x Hx. destruct (decide (x = a)) as [->|].
  - rewrite lookup_insert_eq. eauto.
  - rewrite lookup_insert_ne by done. by apply Hm.
Qed.

Lemma mapped_sub m p n q k : mapped m p n -> p <= q -> q + k <= p + n -> mapped m q k.
Proof. intros Hm Hq Hk a Ha. apply Hm. lia. Qed.

Lemma store8_ok m a v n p : mapped m p n -> p <= a < p + n -> store8 m a v = Ok (<[a := byte v]> m).
Proof. intros Hm Ha. unfold store8. by destruct (Hm a Ha) as [x ->]. Qed.

Lemma write_bytes_insert m p bs a v :
  ~ (p <= a < p + length bs) ->
  write_bytes (<[a := v]> m) p bs = <[a := v]> (write_bytes m p bs).
Proof.
  revert m p. induction bs as [|b bs IH]; intros m p Ha; cbn [write_bytes length] in *; [done|].
  rewrite insert_insert_ne by lia. apply IH. lia.
Qed.

Lemma write_bytes_snoc m p bs b :
  write_bytes m p (bs ++ [b]) = <[p + length bs := b]> (write_bytes m p bs).
Proof.
  revert m p. induction bs as [|c bs IH]; intros m p; cbn [write_bytes app length].
  - by rewrite Z.add_0_r.
  - rewrite IH. f_equal. lia.
Qed.

Lemma lookup_write_bytes_out m p bs a :
  ~ (p <= a < p + length bs) -> write_bytes m p bs !! a = m !! a.
Proof.
  revert m p. induction bs as [|b bs IH]; intros m p Ha; cbn [write_bytes length] in *; [done|].
  rewrite IH by lia. apply lookup_insert_ne. lia.
Qed.

Lemma bytes_at_write m p bs : bytes_at (write_bytes m p bs) p bs.
Proof.
  revert m p. induction bs as [|b bs IH]; intros m p; cbn [write_bytes bytes_at]; [done|].
  split; [|apply IH]. rewrite lookup_write_bytes_out by lia. apply lookup_insert_eq.
Qed.

Lemma bytes_at_frame m p bs q cs :
  p + length bs <= q \/ q + length cs <= p -> bytes_at m p bs -> bytes_at (write_bytes m q cs) p bs.
Proof.
  revert m q. induction cs as [|c cs IH]; intros m q Hd Hb; cbn [write_bytes length] in *; [done|].
  apply IH; [lia|]. apply bytes_at_insert_ne; [lia|done].
Qed.

(** ** The functions on ranges *)

Lemma memset_loop_spec m d i c n :
  mapped m (d + i) (Z.of_nat n) ->
  memset_loop n m d i c = Ok (write_bytes m (d + i) (replicate n (byte c))).
Proof.
  revert m i. induction n as [|n IH]; intros m i Hm; cbn [memset_loop replicate write_bytes]; [done|].
  rewrite (store8_ok _ _ _ _ _ Hm) by lia. cbn [res_bind]. rewrite IH.
  - do 2 f_equal. lia.
  - apply mapped_insert, (mapped_sub _ _ _ _ _ Hm); lia.
Qed.

Lemma memset_spec m d c n :
  0 <= n < 2 ^ 31 -> mapped m d n ->
  memset m d c n = Ok (write_bytes m d (replicate (Z.to_nat n) (byte c))).
Proof.
  intros Hn Hm. unfold memset. rewrite u32_small by lia.
  rewrite memset_loop_spec by (rewrite Z2Nat.id by lia; by rewrite Z.add_0_r).
  cbn [res_bind]. rewrite (proj2 (Z.ltb_lt n (2 ^ 31))) by lia. cbn. by rewrite Z.add_0_r.
Qed.

Lemma copy_up_spec m d s bs :
  Forall is_byte bs -> bytes_at m s bs -> mapped m d (length bs) ->
  (d <= s \/ s + length bs <= d) -> copy_up (length bs) m d s = Ok (write_bytes m d bs).
Proof.
  revert m d s. induction bs as [|b bs IH]; intros m d s Hf Hb Hm Hd; cbn [length copy_up write_bytes] in *; [done|].
  apply Forall_cons in Hf as [Hb0 Hf]. destruct Hb as [Hb Hbs].
  unfold load8. rewrite Hb. cbn [deref res_bind].
  rewrite (store8_ok _ _ _ _ _ Hm) by lia. cbn [res_bind]. rewrite byte_id by done. apply IH.
  - done.
  - apply bytes_at_insert_ne; [lia|done].
  - apply mapped_insert, (mapped_sub _ _ _ _ _ Hm); lia.
  - lia.
Qed.

Lemma copy_down_spec m d s bs :
  Forall is_byte bs -> bytes_at m s bs -> mapped m d (length bs) -> s < d ->
  copy_down (length bs) m (d + length bs) (s + length bs) = Ok (write_bytes m d bs).
Proof.
  revert m. induction bs as [|b bs IH] using rev_ind; intros m Hf Hb Hm Hd; [done|].
  rewrite length_app in *. cbn [length] in *. replace (length bs + 1)%nat with (S (length bs)) in * by lia.
  apply Forall_app in Hf as [Hf Hb0]. rewrite Forall_singleton in Hb0.
  apply bytes_at_app in Hb as [Hbs [Hb _]].
  cbn [copy_down]. unfold load8.
  replace (s + Z.of_nat (S (length bs)) - 1) with (s + length bs) by lia.
  rewrite Hb. cbn [deref res_bind].
  replace (d + Z.of_nat (S (length bs)) - 1) with (d + length bs) by lia.
  rewrite (store8_ok _ _ _ _ _ Hm) by lia. cbn [res_bind].
  rewrite byte_id by done. rewrite IH.
  - f_equal. rewrite write_bytes_snoc, write_bytes_insert by lia. done.
  - done.
  - apply bytes_at_insert_ne; [lia|done].
  - apply mapped_insert, (mapped_sub _ _ _ _ _ Hm); lia.
  - done.
Qed.

Lemma memmove_spec m d s bs :
  Z.of_nat (length bs) < 2 ^ 32 -> Forall is_byte bs -> bytes_at m s bs -> mapped m d (length bs) ->
  memmove m d s (length bs) = Ok (write_bytes m d bs).
Proof.
  intros Hl Hf Hb Hm. unfold memmove. rewrite u32_small, Nat2Z.id by lia.
  destruct (Z.ltb_spec s d), (Z.ltb_spec d (s + length bs)); cbn [andb];
    first [apply copy_down_spec; done | apply copy_up_spec; [done..|lia]].
Qed.

(** ** The functions on strings *)

Lemma cstr_nil m p : cstr m p [] <-> m !! p = Some 0.
Proof.
  unfold cstr. cbn. split; [tauto|]. intros ->. split; [done|]. apply Forall_nil_2.
Qed.

Lemma cstr_cons m p b s : cstr m p (b :: s) <-> m !! p = Some b /\ 0 < b < 256 /\ cstr m (p + 1) s.
Proof. unfold cstr. cbn. rewrite Forall_cons. tauto. Qed.

Lemma bytes_at_size m p bs : bytes_at m p bs -> (length bs <= size m)%nat.
Proof.
  intros Hb. rewrite <- (size_dom (D := gset Z)).
  assert (Hs : list_to_set (seqZ p (length bs)) ⊆ (dom m : gset Z)).
  { intros a Ha. apply elem_of_list_to_set, elem_of_seqZ in Ha.
    apply elem_of_dom. by apply (bytes_at_mapped m p bs). }
  apply subseteq_size in Hs. rewrite size_list_to_set in Hs by apply NoDup_seqZ.
  rewrite length_seqZ in Hs. lia.
Qed.

Lemma cstr_fuel m p s : cstr m p s -> (length s < scan_fuel m)%nat.
Proof.
  intros [Hb _]. apply bytes_at_size in Hb. rewrite length_app in Hb. cbn in Hb.
  unfold scan_fuel. lia.
Qed.

Lemma strlen_loop_spec fuel m p n s :
  cstr m (p + n) s -> 0 <= n -> n + length s < 2 ^ 31 -> (length s < fuel)%nat ->
  strlen_loop fuel m p n = Ok (n + length s).
Proof.
  revert n s. induction fuel as [|fuel IH]; intros n s Hs Hn Hl Hf; [lia|].
  cbn [strlen_loop]. unfold load8. destruct s as [|b s].
  - apply cstr_nil in Hs. rewrite Hs. cbn. f_equal. lia.
  - apply cstr_cons in Hs as (Hb & Hr & Hs). rewrite Hb. cbn [deref res_bind length] in *.
    rewrite (proj2 (Z.eqb_neq b 0)) by lia. rewrite (proj2 (Z.ltb_lt _ _)) by lia. cbn [defined_if res_bind].
    rewrite (IH (n + 1) s); [f_equal; lia| |lia..]. by rewrite Z.add_assoc.
Qed.

Lemma strlen_spec m p s : cstr m p s -> Z.of_nat (length s) < 2 ^ 31 -> strlen m p = Ok (Z.of_nat (length s)).
Proof.
  intros Hs Hl. unfold strlen. rewrite (strlen_loop_spec _ _ _ _ s); [done| |lia..|by eapply cstr_fuel].
  by rewrite Z.add_0_r.
Qed.

(** Lexicographic comparison of byte strings under an order-embedding [f] of the
    bytes; the end of a string counts as a NUL. *)
Fixpoint lex_diff (f : Z -> Z) (s t : list Z) : Z :=
  match s, t with
  | [], [] => 0
  | [], b :: _ => f 0 - f b
  | a :: _, [] => f a - f 0
  | a :: s, b :: t => if a =? b then lex_diff f s t else f a - f b
  end.

Lemma strcmp_loop_spec fuel m p q s t :
  cstr m p s -> cstr m q t -> (length s < fuel)%nat ->
  strcmp_loop fuel m p q = Ok (lex_diff schar s t).
Proof.
  revert p q s t. induction fuel as [|fuel IH]; intros p q s t Hs Ht Hf; [lia|].
  cbn [strcmp_loop]. unfold load8.
  destruct s as [|a s], t as [|b t]; rewrite ?cstr_nil, ?cstr_cons in *.
  - by rewrite Hs, Ht.
  - destruct Ht as (Hb & Hr & _). rewrite Hs, Hb. cbn [deref res_bind lex_diff].
    by rewrite orb_true_r.
  - destruct Hs as (Ha & Hr & _). rewrite Ha, Ht. cbn [deref res_bind lex_diff].
    assert (schar a <> schar 0) by (rewrite schar_inj; unfold is_byte; lia).
    by rewrite (proj2 (Z.eqb_neq _ 0)) by lia.
  - destruct Hs as (Ha & Hra & Hs), Ht as (Hb & Hrb & Ht). rewrite Ha, Hb.
    cbn [deref res_bind lex_diff length] in *. rewrite (proj2 (Z.eqb_neq a 0)) by lia.
    rewrite orb_false_r. destruct (Z.eqb_spec a b) as [->|Hne].
    + rewrite Z.sub_diag. cbn. apply IH; [done..|lia].
    + assert (schar a <> schar b) by (rewrite schar_inj; unfold is_byte; lia).
      by rewrite (proj2 (Z.eqb_neq _ 0)) by lia.
Qed.

Lemma strcmp_spec m p q s t :
  cstr m p s -> cstr m q t -> strcmp m p q = Ok (lex_diff schar s t).
Proof. intros Hs Ht. apply strcmp_loop_spec; [done..|by eapply cstr_fuel]. Qed.

Lemma lex_diff_zero f s t :
  (forall a b, is_byte a -> is_byte b -> f a = f b -> a = b) ->
  Forall (fun b => 0 < b < 256) s -> Forall (fun b => 0 < b < 256) t ->
  lex_diff f s t = 0 <-> s = t.
Proof.
  intros Hf Hs. revert t. induction Hs as [|a s Ha Hs IH]; intros t Ht;
    destruct Ht as [|b t Hb Ht]; cbn [lex_diff]; [done| | |].
  - split; [|done]. intros E. assert (0 = b) by (apply Hf; unfold is_byte; lia). lia.
  - split; [|done]. intros E. assert (a = 0) by (apply Hf; unfold is_byte; lia). lia.
  - destruct (Z.eqb_spec a b) as [->|Hne].
    + rewrite (IH t Ht). naive_solver.
    + split; [|naive_solver]. intros E. assert (a = b) by (apply Hf; unfold is_byte; lia). lia.
Qed.

Lemma strncmp_loop_spec n m p q s t :
  cstr m p s -> cstr m q t ->
  strncmp_loop n m p q = Ok (lex_diff id (take n s) (take n t)).
Proof.
  revert p q s t. induction n as [|n IH]; intros p q s t Hs Ht; [done|].
  cbn [strncmp_loop take]. unfold load8.
  destruct s as [|a s], t as [|b t]; rewrite ?cstr_nil, ?cstr_cons in *;
    cbn [take lex_diff].
  - by rewrite Hs, Ht.
  - destruct Ht as (Hb & Hr & _). by rewrite Hs, Hb.
  - destruct Hs as (Ha & Hr & _). rewrite Ha, Ht. cbn [deref res_bind id].
    by rewrite !(proj2 (Z.eqb_neq a 0)) by lia.
  - destruct Hs as (Ha & Hra & Hs), Ht as (Hb & Hrb & Ht). rewrite Ha, Hb.
    cbn [deref res_bind]. rewrite (proj2 (Z.eqb_neq a 0)) by lia.
    destruct (Z.eqb_spec a b) as [->|Hne]; [by apply IH|done].
Qed.

Lemma strncmp_spec m p q n s t :
  0 <= n < 2 ^ 32 -> cstr m p s -> cstr m q t ->
  strncmp m p q n = Ok (lex_diff id (take (Z.to_nat n) s) (take (Z.to_nat n) t)).
Proof. intros Hn Hs Ht. unfold strncmp. rewrite u32_small by done. by apply strncmp_loop_spec. Qed.

Lemma strchr_loop_spec fuel m p c s :
  cstr m p s -> byte c <> 0 -> (length s < fuel)%nat ->
  strchr_loop fuel m p c =
    Ok (match list_find (fun b => b = byte c) s with Some (i, _) => p + Z.of_nat i | None => 0 end).
Proof.
  intros Hs Hc. revert p s Hs. induction fuel as [|fuel IH]; intros p s Hs Hf; [lia|].
  cbn [strchr_loop]. unfold load8. destruct s as [|b s].
  - apply cstr_nil in Hs. rewrite Hs. cbn [deref res_bind list_find].
    by rewrite (proj2 (Z.eqb_neq 0 _)) by lia.
  - apply cstr_cons in Hs as (Hb & Hr & Hs). rewrite Hb. cbn [deref res_bind list_find length] in *.
    destruct (Z.eqb_spec b (byte c)) as [E|Hne].
    + rewrite decide_True by done. f_equal. lia.
    + rewrite decide_False by done. rewrite (proj2 (Z.eqb_neq b 0)) by lia.
      rewrite IH with (s := s) by (done || lia).
      destruct (list_find _ s) as [[i x]|]; cbn; f_equal; lia.
Qed.

Lemma strchr_spec m p c s :
  cstr m p s -> byte c <> 0 ->
  strchr m p c =
    Ok (match list_find (fun b => b = byte c) s with Some (i, _) => p + Z.of_nat i | None => 0 end).
Proof. intros Hs Hc. apply strchr_loop_spec; [done..|by eapply cstr_fuel]. Qed.

Lemma cstr_bytes m p s : cstr m p s -> bytes_at m p s /\ m !! (p + length s) = Some 0.
Proof. intros [Hb _]. apply bytes_at_app in Hb as [? [? _]]. done. Qed.

Lemma cstr_is_byte m p s : cstr m p s -> Forall is_byte s.
Proof. intros [_ Hf]. eapply Forall_impl; [done|]. unfold is_byte. cbn. lia. Qed.

Lemma bytes_at_take m p n bs : bytes_at m p bs -> bytes_at m p (take n bs).
Proof. rewrite <- (take_drop n bs) at 1. rewrite bytes_at_app. by intros [? _]. Qed.

Lemma mapped_write m p n q bs : mapped m p n -> mapped (write_bytes m q bs) p n.
Proof.
  revert m q. induction bs as [|b bs IH]; intros m q Hm; cbn; [done|].
  by apply IH, mapped_insert.
Qed.

(** [strlcpy] stores the longest prefix that fits, always NUL-terminated, and
    returns the length of the whole source. *)
Lemma strlcpy_spec m d p n s :
  cstr m p s -> Z.of_nat (length s) < 2 ^ 31 -> 0 < n ->
  mapped m d (Z.min n (length s + 1)) ->
  strlcpy m d p n = Ok (write_bytes m d (take (Z.to_nat (n - 1)) s ++ [0]), Z.of_nat (length s)).
Proof.
  intros Hs Hl Hn Hm. unfold strlcpy. rewrite (strlen_spec _ _ s) by done. cbn [res_bind].
  rewrite (proj2 (Z.eqb_neq n 0)) by lia. cbn [negb].
  set (len := if n <=? length s then n - 1 else length s). set (k := Z.to_nat (n - 1)).
  assert (Elen : len = Z.of_nat (length (take k s))).
  { rewrite length_take. subst len k. destruct (Z.leb_spec n (length s)); lia. }
  rewrite Elen. unfold memcpy. rewrite memmove_spec.
  - cbn [res_bind]. rewrite (store8_ok _ _ _ (Z.min n (length s + 1)) d).
    + cbn [res_bind]. by rewrite write_bytes_snoc.
    + by apply mapped_write.
    + rewrite <- Elen. subst len. destruct (Z.leb_spec n (length s)); lia.
  - rewrite <- Elen. subst len. destruct (Z.leb_spec n (length s)); lia.
  - apply Forall_take. by eapply cstr_is_byte.
  - apply bytes_at_take. by apply cstr_bytes.
  - apply (mapped_sub _ _ _ _ _ Hm); [lia|]. rewrite <- Elen. subst len.
    destruct (Z.leb_spec n (length s)); lia.
Qed.

Lemma zero_fill_spec n m p :
  mapped m p (Z.of_nat n) -> zero_fill n m p = Ok (write_bytes m p (replicate n 0)).
Proof.
  revert m p. induction n as [|n IH]; intros m p Hm; cbn [zero_fill replicate write_bytes]; [done|].
  rewrite (store8_ok _ _ _ _ _ Hm) by lia. cbn [res_bind]. change (byte 0) with 0. apply IH.
  apply mapped_insert, (mapped_sub _ _ _ _ _ Hm); lia.
Qed.

(** Source and destination of the copying loops below must not overlap. *)
Definition apart (p n q k : Z) : Prop := p + n <= q \/ q + k <= p.

Lemma cstr_insert_ne m p s a v :
  apart a 1 p (length s + 1) -> cstr m p s -> cstr (<[a := v]> m) p s.
Proof.
  unfold apart. intros Ha [Hb Hf]. split; [|done].
  apply bytes_at_insert_ne; [|done]. rewrite length_app. cbn. lia.
Qed.

(** [strncpy] fills exactly [n] bytes: the prefix of the source and NULs. *)
Lemma strncpy_loop_spec n m d p s :
  cstr m p s -> mapped m d (Z.of_nat n) -> apart d n p (length s + 1) ->
  strncpy_loop n m d p = Ok (write_bytes m d (take n (s ++ replicate n 0))).
Proof.
  unfold apart. revert m d p s. induction n as [|n IH]; intros m d p s Hs Hm Ha; [done|].
  cbn [strncpy_loop]. unfold load8. destruct s as [|b s].
  - apply cstr_nil in Hs. rewrite Hs. cbn [deref res_bind].
    rewrite (store8_ok _ _ _ _ _ Hm) by lia. cbn [res_bind app]. change (byte 0) with 0. cbn [Z.eqb].
    rewrite zero_fill_spec by (apply mapped_insert, (mapped_sub _ _ _ _ _ Hm); lia).
    rewrite take_ge by (rewrite length_replicate; lia). done.
  - apply cstr_cons in Hs as (Hb & Hr & Hs). rewrite Hb. cbn [deref res_bind length] in *.
    rewrite (store8_ok _ _ _ _ _ Hm) by lia. cbn [res_bind].
    rewrite byte_id by (unfold is_byte; lia). rewrite (proj2 (Z.eqb_neq b 0)) by lia.
    rewrite (IH _ _ _ s).
    + rewrite (replicate_S_end n). cbn [app take write_bytes]. f_equal.
      rewrite (app_assoc s), (take_app_le (s ++ _) [0]); [done|]. rewrite length_app, length_replicate. lia.
    + apply cstr_insert_ne; [unfold apart; lia|done].
    + apply mapped_insert, (mapped_sub _ _ _ _ _ Hm); lia.
    + lia.
Qed.

Lemma strncpy_spec m d p n s :
  0 <= n -> cstr m p s -> mapped m d n -> apart d n p (length s + 1) ->
  strncpy m d p n = Ok (write_bytes m d (take (Z.to_nat n) (s ++ replicate (Z.to_nat n) 0))).
Proof.
  intros Hn Hs Hm Ha. unfold strncpy. apply strncpy_loop_spec; [done|by rewrite Z2Nat.id..].
Qed.

(** [strcpy] copies the string with its NUL. *)
Lemma strcpy_loop_spec fuel m d p s :
  cstr m p s -> mapped m d (length s + 1) -> apart d (length s + 1) p (length s + 1) ->
  (length s < fuel)%nat -> strcpy_loop fuel m d p = Ok (write_bytes m d (s ++ [0])).
Proof.
  unfold apart. revert m d p s. induction fuel as [|fuel IH]; intros m d p s Hs Hm Ha Hf; [lia|].
  cbn [strcpy_loop]. unfold load8. destruct s as [|b s].
  - apply cstr_nil in Hs. rewrite Hs. cbn [deref res_bind].
    rewrite (store8_ok _ _ _ _ _ Hm) by (cbn; lia). done.
  - apply cstr_cons in Hs as (Hb & Hr & Hs). rewrite Hb. cbn [deref res_bind length] in *.
    rewrite (store8_ok _ _ _ _ _ Hm) by lia. cbn [res_bind].
    rewrite byte_id by (unfold is_byte; lia). rewrite (proj2 (Z.eqb_neq b 0)) by lia.
    cbn [app write_bytes]. apply IH; [|apply mapped_insert, (mapped_sub _ _ _ _ _ Hm); lia|lia..].
    apply cstr_insert_ne; [unfold apart; lia|done].
Qed.

Lemma strcpy_spec m d p s :
  cstr m p s -> mapped m d (length s + 1) -> apart d (length s + 1) p (length s + 1) ->
  strcpy m d p = Ok (write_bytes m d (s ++ [0])).
Proof. intros Hs Hm Ha. apply strcpy_loop_spec; [done..|by eapply cstr_fuel]. Qed.

(** [memcmp] on two ranges of the same length. *)
Lemma memcmp_loop_spec m p q s t :
  length s = length t -> bytes_at m p s -> bytes_at m q t ->
  memcmp_loop (length s) m p q = Ok (lex_diff id s t).
Proof.
  revert p q t. induction s as [|a s IH]; intros p q [|b t] Hl Hs Ht; try done.
  destruct Hs as [Ha Hs], Ht as [Hb Ht]. cbn [memcmp_loop length lex_diff]. unfold load8.
  rewrite Ha, Hb. cbn [deref res_bind]. destruct (Z.eqb_spec a b); cbn [negb]; [|done].
  apply IH; [|done..]. by injection Hl.
Qed.

(** ** The results on strings, as the callers use them *)

(** [strstr] finds the first occurrence. *)
Fixpoint occurs_at (t s : list Z) (i : nat) : option nat :=
  match s with
  | [] => None
  | _ :: s' => if bool_decide (take (length t) s = t) then Some i else occurs_at t s' (S i)
  end.

Lemma strstr_loop_spec fuel m p q s t i :
  cstr m p s -> cstr m q t -> t <> [] -> Z.of_nat (length t) < 2 ^ 32 -> (length s < fuel)%nat ->
  strstr_loop fuel m p (length s) q (length t) =
    Ok (match occurs_at t s i with Some j => p + j - i | None => 0 end).
Proof.
  intros Hs Ht Hne Hl. revert p s i Hs. induction fuel as [|fuel IH]; intros p s i Hs Hf; [lia|].
  cbn [strstr_loop]. destruct s as [|a s].
  { destruct t; [done|]. by rewrite (proj2 (Z.leb_gt _ _)) by (cbn; lia). }
  destruct (Z.leb_spec (length t) (length (a :: s))) as [Hle|Hgt].
  - unfold memcmp. rewrite u32_small, Nat2Z.id by lia.
    pose proof (cstr_is_byte _ _ _ Hs) as Hsb. pose proof (cstr_is_byte _ _ _ Ht) as Htb.
    pose proof (length_take_le (a :: s) (length t) ltac:(lia)) as Elt.
    rewrite <- Elt at 1. rewrite (memcmp_loop_spec _ _ _ _ t);
      [|done|apply bytes_at_take; by apply cstr_bytes|by apply cstr_bytes].
    cbn [res_bind]. destruct (Z.eqb_spec (lex_diff id (take (length t) (a :: s)) t) 0) as [E|E].
    + rewrite lex_diff_zero in E; [|done|apply Forall_take; apply Hs|apply Ht].
      cbn [occurs_at]. rewrite bool_decide_true by done. f_equal. lia.
    + rewrite lex_diff_zero in E; [|done|apply Forall_take; apply Hs|apply Ht].
      cbn [occurs_at]. rewrite bool_decide_false by done.
      apply cstr_cons in Hs as (_ & _ & Hs).
      replace (length (a :: s) - 1) with (Z.of_nat (length s)) by (cbn; lia).
      rewrite (IH (p + 1) s (S i) Hs) by (cbn in Hf; lia).
      destruct (occurs_at t s (S i)); f_equal; lia.
  - f_equal. destruct (occurs_at t (a :: s) i) as [j|] eqn:E; [exfalso|done].
    clear IH Hs Hf. remember (a :: s) as u eqn:Eu. clear Eu a s. revert i E.
    induction u as [|b u IHu]; intros i E; [done|]. cbn [occurs_at] in E.
    case_bool_decide as Hd; [|apply (IHu ltac:(cbn in Hgt; lia) _ E)].
    apply (f_equal length) in Hd. rewrite length_take in Hd. lia.
Qed.

Lemma strstr_spec m p q s t :
  cstr m p s -> cstr m q t -> Z.of_nat (length s) < 2 ^ 31 -> Z.of_nat (length t) < 2 ^ 31 -> t <> [] ->
  strstr m p q = Ok (match occurs_at t s 0 with Some j => p + Z.of_nat j | None => 0 end).
Proof.
  intros Hs Ht Hls Hlt Hne. unfold strstr. rewrite (strlen_spec _ _ t) by done. cbn [res_bind].
  rewrite (proj2 (Z.eqb_neq _ 0)) by (destruct t; cbn; [done|lia]).
  rewrite (strlen_spec _ _ s) by done. cbn [res_bind].
  rewrite Nat2Z.id, (strstr_loop_spec _ _ _ _ s t 0) by (done || lia).
  destruct (occurs_at t s 0); f_equal; lia.
Qed.
