(* ===== verification/Buddy.v ===== *)
(** * Buddy: the physical page allocator

    Models mm/buddy.c and include/mm/buddy.h.  A [page_t *] is the index (page
    frame number) of the descriptor in [system->map]; the free lists are kept as
    the linked [struct list_head] nodes of the source ([links]).  Reading or
    writing outside [map] or [page_buddy] is [Undef].

    The abstract view of a system is a partition of its page frames into aligned
    power-of-two blocks, each free or in use ([blocks], [wf_blocks]); [buddy_ok]
    relates the concrete state to it. *)

From S2P Require Import Prelude Bits ListHead.

Definition MAX_ORDER : Z := 20.
Definition PAGE_SIZE : Z := 4096.
Definition PAGE_SHIFT : Z := 12.
Definition PAGE_MASK : Z := 2 ^ PAGE_SHIFT - 1.
(** [INVALID_ORDER] as stored in the unsigned field [order]. *)
Definition INVALID_ORDER : Z := 2 ^ 32 - 1.

Definition sizeof_page_t : Z := 24.
Definition sizeof_buddy_system_t : Z := 528.

(** The [struct list_head]s of the allocator: the heads [page_buddy[o]] and the
    member [list] of each page descriptor. *)
Inductive floc : Type :=
| FHead (o : Z)
| FPage (p : Z).

#[export] Instance floc_eq_dec : EqDecision floc.
Proof. solve_decision. Defined.

#[export] Instance floc_countable : Countable floc.
Proof.
  refine (inj_countable'
    (fun l => match l with FHead o => inl o | FPage p => inr p end)
    (fun s => match s with inl o => FHead o | inr p => FPage p end) _).
  by intros [].
Defined.

#[export] Instance FPage_inj : Inj (=) (=) FPage.
Proof. by intros ?? [=]. Qed.

Record page_t := mk_page {
  u32_flags : Z;  (* bit 0 is flags.is_free *)
  order : Z;
}.

Record buddy_system_t := mk_buddy {
  links : lheap floc;      (* page_buddy[] and map[].list *)
  count : gmap Z Z;        (* count[] *)
  bitmap : Z;
  page_start : Z;
  max_pfn : Z;
  map_ : gmap Z page_t;    (* map[], without the list members *)
}.

Definition set_links v s := mk_buddy v (count s) (bitmap s) (page_start s) (max_pfn s) (map_ s).
Definition set_count v s := mk_buddy (links s) v (bitmap s) (page_start s) (max_pfn s) (map_ s).
Definition set_bitmap v s := mk_buddy (links s) (count s) v (page_start s) (max_pfn s) (map_ s).
Definition set_map v s := mk_buddy (links s) (count s) (bitmap s) (page_start s) (max_pfn s) v.

(** [page->...] and [page->field = v]. *)
Definition get_page (p : Z) (s : buddy_system_t) : res page_t := deref (map_ s !! p).
Definition set_page (p : Z) (pg : page_t) (s : buddy_system_t) : buddy_system_t :=
  set_map (<[p := pg]> (map_ s)) s.
Definition set_order (p o : Z) (s : buddy_system_t) : res buddy_system_t :=
  let* pg := get_page p s in
  Ok (set_page p (mk_page (u32_flags pg) (u32 o)) s).
Definition set_flags (p f : Z) (s : buddy_system_t) : res buddy_system_t :=
  let* pg := get_page p s in
  Ok (set_page p (mk_page f (order pg)) s).

(** [&system->page_buddy[order]] *)
Definition page_buddy (o : Z) : res floc :=
  let* _ := defined_if ((0 <=? o) && (o <=? MAX_ORDER)) in
  Ok (FHead o).

Definition get_count (o : Z) (s : buddy_system_t) : res Z := deref (count s !! o).

Definition buddy_add_page (s : buddy_system_t) (page : Z) : res buddy_system_t :=
  let* pg := get_page page s in
  let order := s32 (order pg) in
  let* s := set_flags page 1 s in
  let* head := page_buddy order in
  let* l := list_add_tail (FPage page) head (links s) in
  let s := set_links l s in
  let* bit := shl1 order in
  let s := set_bitmap (Z.lor (bitmap s) bit) s in
  let* c := get_count order s in
  Ok (set_count (<[order := u64 (c + 1)]> (count s)) s).

Definition buddy_del_page (s : buddy_system_t) (page : Z) : res buddy_system_t :=
  let* pg := get_page page s in
  let order := s32 (order pg) in
  let* l := list_del (FPage page) (links s) in
  let s := set_links l s in
  let* s := set_flags page 0 s in
  let* head := page_buddy order in
  let* bit := shl1 order in
  let s := if list_empty head (links s)
           then set_bitmap (Z.land (bitmap s) (not64 bit)) s else s in
  let* c := get_count order s in
  Ok (set_count (<[order := u64 (c - 1)]> (count s)) s).

Definition page_to_ptr (s : buddy_system_t) (page : Z) : Z :=
  u64 (page_start s + PAGE_SIZE * page).

(** Pointers are subtracted as pointers to [char[PAGE_SIZE]]. *)
Definition page_from_ptr (s : buddy_system_t) (ptr : Z) : res Z :=
  let* _ := c_assert (ptr mod PAGE_SIZE =? 0) in
  Ok ((ptr - page_start s) / PAGE_SIZE).

Definition pfn_valid (s : buddy_system_t) (pfn : Z) : bool := pfn <=? max_pfn s.

Definition page_free (s : buddy_system_t) (page : Z) : res bool :=
  let* pg := get_page page s in
  Ok (Z.testbit (u32_flags pg) 0).

(** [for (order = 0; order <= MAX_ORDER; order++) ...] of [buddy_new]. *)
Definition orders : list Z := seqZ 0 (MAX_ORDER + 1).

Definition buddy_new (max_pfn0 : Z) (map0 : gmap Z page_t) : buddy_system_t :=
  mk_buddy
    (foldl (fun l o => init_list_head (FHead o) l) (mk_lheap ∅ ∅) orders)
    (foldl (fun c o => <[o := 0]> c) ∅ orders)
    0 0 max_pfn0 map0.

(** [for (i = 0; i < page_count; i++) system->map[i].order = INVALID_ORDER;],
    with [mem0] the previous contents of that memory. *)
Definition map_invalid (mem0 : Z -> page_t) (page_count : Z) : gmap Z page_t :=
  list_to_map ((fun i => (i, mk_page (u32_flags (mem0 i)) INVALID_ORDER)) <$> seqZ 0 page_count).

(** The loop of [buddy_create] that carves the free blocks.  [n] bounds the
    iterations; [count] itself is enough, since each iteration removes at least
    one page. *)
Fixpoint buddy_fill (n : nat) (s : buddy_system_t) (i cnt : Z) : res buddy_system_t :=
  if cnt =? 0 then Ok s
  else match n with
  | O => Undef
  | S n =>
      let order := buddy_fls_sizet cnt in
      let* _ := c_assert (0 <=? order) in
      let order := if MAX_ORDER <? order then MAX_ORDER else order in
      let s := set_links (init_list_head (FPage i) (links s)) s in
      let* s := set_order i order s in
      let* s := buddy_add_page s i in
      let* step := shl1 order in
      buddy_fill n s (u64 (i + step)) (u64 (cnt - step))
  end.

Definition buddy_create (mem0 : Z -> page_t) (mem size : Z) : res buddy_system_t :=
  let* _ := c_assert (negb (mem =? 0) && negb (size =? 0)) in
  let mem := u64 (mem + sizeof_buddy_system_t) in
  let size := u64 (size - sizeof_buddy_system_t) in
  let page_count := Z.shiftr size PAGE_SHIFT in
  let* map_size := align_up (u64 (page_count * sizeof_page_t)) PAGE_SIZE in
  let mem := u64 (mem + map_size) in
  let size := u64 (size - map_size) in
  let* aligned := align_ptr mem PAGE_SIZE in
  let mem_diff := u64 (aligned - mem) in
  let mem := u64 (mem + mem_diff) in
  let size := u64 (size - mem_diff) in
  let page_count := Z.shiftr size PAGE_SHIFT in
  let* _ := c_assert (Z.land mem PAGE_MASK =? 0) in
  let s := buddy_new (u64 (page_count - 1)) (map_invalid mem0 page_count) in
  let s := mk_buddy (links s) (count s) (bitmap s) mem (max_pfn s) (map_ s) in
  buddy_fill (Z.to_nat page_count) s 0 page_count.

(** [None] is the NULL return. *)
Definition buddy_locate_free (s : buddy_system_t) (order : Z) : res (option Z) :=
  let* _ := c_assert (0 <=? order) in
  let* head := page_buddy order in
  let* c := get_count order s in
  let* _ := c_assert (Bool.eqb (list_empty head (links s)) (c =? 0)) in
  let* found :=
    if list_empty head (links s) then
      let bm := Z.land (bitmap s) (u64 (Z.shiftl (Z.ones 64) order)) in
      if bm =? 0 then Ok None
      else let order := buddy_ffs_sizet bm in
           let* _ := c_assert (0 <=? order) in
           Ok (Some order)
    else Ok (Some order) in
  match found with
  | None => Ok None
  | Some order =>
      let* head := page_buddy order in
      let* e := list_last_entry head (links s) in
      match e with
      | FPage p => Ok (Some p)
      | FHead _ => Undef
      end
  end.

(** [for (i = page->order; i > order; i--)], with [n = i - order]. *)
Fixpoint page_split_loop (n : nat) (s : buddy_system_t) (page order : Z) : res buddy_system_t :=
  match n with
  | O => Ok s
  | S n =>
      let new := order + Z.of_nat n in
      let* step := shl1 new in
      let buddy := page + step in
      let* s := set_order buddy new s in
      let* s := buddy_add_page s buddy in
      page_split_loop n s page order
  end.

Definition page_split (s : buddy_system_t) (page order_ : Z) : res buddy_system_t :=
  let* _ := c_assert (0 <=? order_) in
  let* pg := get_page page s in
  let* s := page_split_loop (Z.to_nat (s32 (order pg) - order_)) s page order_ in
  set_order page order_ s.

(** [for (; order <= MAX_ORDER;)], with [n = MAX_ORDER + 1 - order]; a page
    pointer and its frame number are the same index. *)
Fixpoint page_merge_loop (n : nat) (s : buddy_system_t) (pfn : Z)
  : res (buddy_system_t * Z * Z) :=
  let ord := MAX_ORDER + 1 - Z.of_nat n in
  match n with
  | O => Ok (s, pfn, ord)
  | S n =>
      let* bit := shl1 ord in
      let buddy_pfn := Z.lxor pfn bit in
      if negb (pfn_valid s buddy_pfn) then Ok (s, pfn, ord)
      else
        let* buddy := get_page buddy_pfn s in
        if negb (order buddy =? u32 ord) then Ok (s, pfn, ord)
        else
          let* free := page_free s buddy_pfn in
          if negb free then Ok (s, pfn, ord)
          else
            let* s := buddy_del_page s buddy_pfn in
            let private_pfn := Z.lor buddy_pfn pfn in
            let* s := set_order private_pfn INVALID_ORDER s in
            let combined_pfn := Z.land buddy_pfn pfn in
            page_merge_loop n s combined_pfn
  end.

Definition page_merge (s : buddy_system_t) (page : Z) : res (buddy_system_t * Z) :=
  let* pg := get_page page s in
  let ord := s32 (order pg) in
  let* '(s, page, ord) := page_merge_loop (Z.to_nat (MAX_ORDER + 1 - ord)) s page in
  let* s := set_order page ord s in
  Ok (s, page).

Definition page_prepare_used (s : buddy_system_t) (page order_ : Z) : res (buddy_system_t * Z) :=
  let* _ := c_assert (0 <=? order_) in
  let* s := buddy_del_page s page in
  let* pg := get_page page s in
  let* s := if u32 order_ <? order pg then page_split s page order_ else Ok s in
  Ok (s, page_to_ptr s page).

(** A returned pointer of 0 is NULL. *)
Definition buddy_alloc_page (s : buddy_system_t) (cnt : Z) : res (buddy_system_t * Z) :=
  let* _ := c_assert (negb (cnt =? 0)) in
  let* top := shl1 (buddy_fls_sizet cnt) in
  let order := buddy_fls_sizet (u64 (cnt + (top - 1))) in
  let* page := buddy_locate_free s order in
  match page with
  | None => Ok (s, 0)
  | Some page => page_prepare_used s page order
  end.

Definition buddy_free_page (s : buddy_system_t) (ptr : Z) : res buddy_system_t :=
  let* _ := c_assert (negb (ptr =? 0)) in
  let* page := page_from_ptr s ptr in
  let* free := page_free s page in
  if free then Ok s
  else
    let* '(s, page) := page_merge s page in
    buddy_add_page s page.
