(* ===== verification/BuddyBlocks.v ===== *)
(** * BuddyBlocks: partitions of page frames into aligned blocks

    The abstract state of the buddy allocator.  A partition maps the first frame
    of each block to its order and whether it is free; [wf_blocks N B] says that
    [B] partitions the frames [0 .. N-1] into naturally aligned blocks.  Splitting
    and merging buddies preserve it.  [coalesced] says that no two free buddies
    are left unmerged, from which [coalesced_no_run] derives that a free aligned
    run always lies inside one free block. *)

From S2P Require Import Prelude Bits Buddy.

Record blk := mk_blk { bord : Z; bfree : bool }.

Abbreviation blocks := (gmap Z blk).

Definition covers (B : blocks) (q p : Z) : Prop :=
  exists b, B !! p = Some b /\ p <= q < p + 2 ^ bord b.

Record wf_blocks (N : Z) (B : blocks) : Prop := {
  wf_ord p b : B !! p = Some b -> 0 <= bord b <= MAX_ORDER;
  wf_align p b : B !! p = Some b -> (2 ^ bord b | p);
  wf_range p b : B !! p = Some b -> 0 <= p /\ p + 2 ^ bord b <= N;
  wf_cover q : 0 <= q < N -> exists p, covers B q p;
  wf_disj q p p' : covers B q p -> covers B q p' -> p = p';
}.

Definition coalesced (B : blocks) : Prop :=
  forall p o, B !! p = Some (mk_blk o true) -> B !! Z.lxor p (2 ^ o) = Some (mk_blk o true) -> False.

(** The allocated blocks: first frame to order. *)
Definition used (B : blocks) : gmap Z Z :=
  omap (fun b => if bfree b then None else Some (bord b)) B.

Lemma lookup_used B p o : used B !! p = Some o <-> B !! p = Some (mk_blk o false).
Proof.
  unfold used. rewrite lookup_omap. destruct (B !! p) as [[o' [|]]|]; cbn; split; congruence.
Qed.

Lemma used_insert_free B p o : used (<[p := mk_blk o true]> B) = delete p (used B).
Proof. unfold used. by rewrite omap_insert. Qed.

Lemma used_insert_used B p o : used (<[p := mk_blk o false]> B) = <[p := o]> (used B).
Proof. unfold used. by rewrite omap_insert. Qed.

Lemma used_delete B p : used (delete p B) = delete p (used B).
Proof. unfold used. by rewrite omap_delete. Qed.

Lemma pow2_pos o : 0 <= o -> 0 < 2 ^ o.
Proof. intros. apply Z.pow_pos_nonneg; lia. Qed.

Lemma pow2_S o : 0 <= o -> 2 ^ (o + 1) = 2 * 2 ^ o.
Proof. intros. rewrite Z.pow_add_r by lia. lia. Qed.

(** ** Buddies *)

Lemma even_bits k :
  0 <= k -> Z.lxor (2 * k) 1 = 2 * k + 1 /\ Z.lxor (2 * k + 1) 1 = 2 * k /\
  Z.land (2 * k) (2 * k + 1) = 2 * k /\ Z.lor (2 * k) (2 * k + 1) = 2 * k + 1.
Proof.
  intros Hk.
  assert (T1 : forall j, 0 <= j -> Z.testbit 1 (Z.succ j) = false)
    by (intros j Hj; apply (Z.testbit_odd_succ 0 j) in Hj; by rewrite Z.testbit_0_l in Hj).
  repeat split; apply Z.bits_inj'; intros i Hi;
    rewrite ?Z.lxor_spec, ?Z.land_spec, ?Z.lor_spec;
    (destruct (decide (i = 0)) as [->|Hn];
     [by rewrite ?Z.testbit_even_0, ?Z.testbit_odd_0|]);
    replace i with (Z.succ (i - 1)) by lia;
    rewrite ?T1, ?Z.testbit_even_succ, ?Z.testbit_odd_succ by lia;
    by rewrite ?xorb_false_r, ?andb_diag, ?orb_diag.
Qed.

(** The buddy of an aligned block is its other half: the lower of the two is
    aligned to the double size and the other follows it. *)
Lemma buddy_bits p o :
  0 <= o -> 0 <= p -> (2 ^ o | p) ->
  let b := Z.lxor p (2 ^ o) in
  exists lo, 0 <= lo /\ (2 ^ (o + 1) | lo) /\ Z.land b p = lo /\ Z.lor b p = lo + 2 ^ o /\
    (p = lo /\ b = lo + 2 ^ o \/ p = lo + 2 ^ o /\ b = lo).
Proof.
  intros Ho Hp [q Hq] b. pose proof (pow2_pos o Ho).
  assert (0 <= q) by nia.
  assert (Hsh : forall x, x * 2 ^ o = Z.shiftl x o) by (intros; by rewrite Z.shiftl_mul_pow2).
  assert (Hb : b = Z.lxor q 1 * 2 ^ o).
  { unfold b. rewrite Hq, !Hsh, Z.shiftl_lxor. by rewrite Z.shiftl_1_l. }
  destruct (Z.Even_or_Odd q) as [[k Hk]|[k Hk]]; destruct (even_bits k ltac:(lia)) as (E1 & E2 & E3 & E4).
  - exists (2 * k * 2 ^ o). rewrite Hb, Hq, Hk, E1.
    split; [apply Z.mul_nonneg_nonneg; lia|]. split; [exists k; rewrite pow2_S by done; ring|].
    rewrite !Hsh, <- Z.shiftl_land, <- Z.shiftl_lor.
    rewrite (Z.land_comm (2 * k + 1)), (Z.lor_comm (2 * k + 1)), E3, E4, <- !Hsh. lia.
  - exists (2 * k * 2 ^ o). rewrite Hb, Hq, Hk, E2.
    split; [apply Z.mul_nonneg_nonneg; lia|]. split; [exists k; rewrite pow2_S by done; ring|].
    rewrite !Hsh, <- Z.shiftl_land, <- Z.shiftl_lor, E3, E4, <- !Hsh. lia.
Qed.

Lemma buddy_invol p o : Z.lxor (Z.lxor p (2 ^ o)) (2 ^ o) = p.
Proof. by rewrite Z.lxor_assoc, Z.lxor_nilpotent, Z.lxor_0_r. Qed.

(** Two aligned intervals of power-of-two length are nested or disjoint. *)
Lemma aligned_nested p i q j :
  0 <= i <= j -> (2 ^ i | p) -> (2 ^ j | q) -> q <= p < q + 2 ^ j -> p + 2 ^ i <= q + 2 ^ j.
Proof.
  intros Hij [a ->] [b ->] Hin. pose proof (pow2_pos i ltac:(lia)).
  assert (E : 2 ^ j = 2 ^ (j - i) * 2 ^ i) by (rewrite <- Z.pow_add_r by lia; f_equal; lia).
  rewrite E in *. set (c := 2 ^ (j - i)) in *. set (d := 2 ^ i) in *.
  assert (a < b * c + c) by (apply (Z.mul_lt_mono_pos_r d); lia).
  replace (a * d + d) with ((a + 1) * d) by ring.
  replace (b * (c * d) + c * d) with ((b * c + c) * d) by ring.
  apply Z.mul_le_mono_nonneg_r; lia.
Qed.

Lemma aligned_lower p q i :
  0 <= i -> (2 ^ i | p) -> (2 ^ i | q) -> p < q + 2 ^ i -> p <= q.
Proof.
  intros Hi [a ->] [b ->] Hlt. pose proof (pow2_pos i Hi).
  assert (a < b + 1) by (apply (Z.mul_lt_mono_pos_r (2 ^ i)); lia).
  apply Z.mul_le_mono_nonneg_r; lia.
Qed.

Lemma divide_pow2_le i j p : 0 <= i <= j -> (2 ^ j | p) -> (2 ^ i | p).
Proof.
  intros Hij H. etrans; [|exact H]. exists (2 ^ (j - i)).
  rewrite <- Z.pow_add_r by lia. f_equal. lia.
Qed.

Lemma buddy_aligned p o : 0 <= o -> 0 <= p -> (2 ^ o | p) -> (2 ^ o | Z.lxor p (2 ^ o)).
Proof.
  intros Ho Hp Ha. destruct (buddy_bits p o Ho Hp Ha) as (lo & _ & Hl & _ & _ & D).
  apply (divide_pow2_le o (o + 1)) in Hl; [|lia].
  destruct D as [[_ ->]|[_ ->]]; [by apply Z.divide_add_r|done].
Qed.

(** ** Operations on partitions *)

Section wf.
Context {N : Z} {B : blocks} (Hwf : wf_blocks N B).

Lemma wf_head_unique p b p' b' :
  B !! p = Some b -> B !! p' = Some b' -> p <= p' < p + 2 ^ bord b -> p = p'.
Proof.
  intros Hb Hb' Hin. eapply (wf_disj _ _ Hwf p'); [by exists b|exists b'; split; [done|]].
  pose proof (pow2_pos (bord b')) as Hp. pose proof (wf_ord _ _ Hwf _ _ Hb'). lia.
Qed.

Lemma wf_set_free p o f f' :
  B !! p = Some (mk_blk o f) -> wf_blocks N (<[p := mk_blk o f']> B).
Proof using Hwf.
  intros Hp.
  assert (Hl : forall q b, <[p := mk_blk o f']> B !! q = Some b ->
            exists b', B !! q = Some b' /\ bord b' = bord b).
  { intros q b Hq. destruct (decide (q = p)) as [->|].
    - rewrite lookup_insert_eq in Hq. injection Hq as <-. eauto.
    - rewrite lookup_insert_ne in Hq by done. eauto. }
  assert (Hr : forall q b, B !! q = Some b ->
            exists b', <[p := mk_blk o f']> B !! q = Some b' /\ bord b' = bord b).
  { intros q b Hq. destruct (decide (q = p)) as [->|].
    - rewrite lookup_insert_eq. simplify_eq. eauto.
    - rewrite lookup_insert_ne by done. eauto. }
  split.
  - intros q b (b' & Hb & <-)%Hl. by eapply wf_ord.
  - intros q b (b' & Hb & <-)%Hl. by eapply wf_align.
  - intros q b (b' & Hb & <-)%Hl. by eapply wf_range.
  - intros q Hq. destruct (wf_cover _ _ Hwf q Hq) as (h & b & Hb & Hin).
    destruct (Hr _ _ Hb) as (b' & Hb' & E). exists h, b'. by rewrite E.
  - intros q h h' (b & (b1 & Hb1 & E)%Hl & Hin) (b' & (b2 & Hb2 & E')%Hl & Hin').
    rewrite <- E in Hin. rewrite <- E' in Hin'. eapply (wf_disj _ _ Hwf q); by eexists.
Qed.

Lemma split_fresh p o f :
  B !! p = Some (mk_blk (o + 1) f) -> 0 <= o -> B !! (p + 2 ^ o) = None.
Proof using Hwf.
  intros Hp Ho. destruct (B !! (p + 2 ^ o)) as [b|] eqn:E; [exfalso|done].
  pose proof (pow2_pos o Ho). pose proof (pow2_S o Ho).
  assert (p = p + 2 ^ o) by (eapply wf_head_unique; [done|done|cbn; lia]). lia.
Qed.

Lemma wf_split p o f f1 f2 :
  B !! p = Some (mk_blk (o + 1) f) -> 0 <= o ->
  wf_blocks N (<[p + 2 ^ o := mk_blk o f2]> (<[p := mk_blk o f1]> B)).
Proof using Hwf.
  intros Hp Ho. pose proof (pow2_pos o Ho) as Hpos. pose proof (pow2_S o Ho) as HS.
  pose proof (wf_ord _ _ Hwf _ _ Hp) as Hord. pose proof (wf_align _ _ Hwf _ _ Hp) as Hal.
  pose proof (wf_range _ _ Hwf _ _ Hp) as Hrg. cbn [bord] in *.
  pose proof (split_fresh _ _ _ Hp Ho) as Hfr.
  assert (Hdiv : (2 ^ o | p)) by (etrans; [|exact Hal]; rewrite HS; apply Z.divide_factor_r).
  assert (Hl : forall q b, <[p + 2 ^ o := mk_blk o f2]> (<[p := mk_blk o f1]> B) !! q = Some b ->
      (q = p + 2 ^ o /\ bord b = o) \/ (q = p /\ bord b = o) \/
      (q <> p /\ q <> p + 2 ^ o /\ B !! q = Some b)).
  { intros q b Hq. destruct (decide (q = p + 2 ^ o)) as [->|].
    { rewrite lookup_insert_eq in Hq. injection Hq as <-. auto. }
    rewrite lookup_insert_ne in Hq by done.
    destruct (decide (q = p)) as [->|].
    { rewrite lookup_insert_eq in Hq. injection Hq as <-. auto. }
    rewrite lookup_insert_ne in Hq by done. auto. }
  split.
  - intros q b [(-> & ->)|[(-> & ->)|(_ & _ & Hb)]]%Hl; [lia..|by eapply wf_ord].
  - intros q b [(-> & ->)|[(-> & ->)|(_ & _ & Hb)]]%Hl; [|done|by eapply wf_align].
    by apply Z.divide_add_r.
  - intros q b [(-> & ->)|[(-> & ->)|(_ & _ & Hb)]]%Hl; [lia..|by eapply wf_range].
  - intros q Hq. destruct (wf_cover _ _ Hwf q Hq) as (h & b & Hb & Hin).
    destruct (decide (h = p)) as [->|Hne].
    + simplify_eq. cbn in Hin. destruct (decide (q < p + 2 ^ o)).
      * exists p, (mk_blk o f1). rewrite lookup_insert_ne, lookup_insert_eq by lia. split; [done|cbn; lia].
      * exists (p + 2 ^ o), (mk_blk o f2). rewrite lookup_insert_eq. split; [done|cbn; lia].
    + exists h, b. rewrite !lookup_insert_ne; [done|done|]. intros <-. congruence.
  - assert (Hc : forall q h, covers (<[p + 2 ^ o := mk_blk o f2]> (<[p := mk_blk o f1]> B)) q h ->
      (h = p /\ p <= q < p + 2 ^ o) \/ (h = p + 2 ^ o /\ p + 2 ^ o <= q < p + 2 ^ (o + 1)) \/
      (h <> p /\ covers B q h)).
    { intros q h (b & [(-> & E)|[(-> & E)|(? & _ & Hb)]]%Hl & Hin);
        rewrite ?E in Hin; [lia..|]. right; right. split; [done|by exists b]. }
    assert (Hcp : forall q, p <= q < p + 2 ^ (o + 1) -> covers B q p)
      by (intros; by exists (mk_blk (o + 1) f)).
    intros q h h' [[-> ?]|[[-> ?]|[? H1]]]%Hc [[-> ?]|[[-> ?]|[? H2]]]%Hc; try lia.
    + exfalso. apply H0. by eapply (wf_disj _ _ Hwf q), Hcp; [|lia].
    + exfalso. apply H0. by eapply (wf_disj _ _ Hwf q), Hcp; [|lia].
    + exfalso. apply H. by eapply (wf_disj _ _ Hwf q), Hcp; [|lia].
    + exfalso. apply H. by eapply (wf_disj _ _ Hwf q), Hcp; [|lia].
    + by eapply (wf_disj _ _ Hwf q).
Qed.

Lemma wf_merge lo o f f1 f2 :
  B !! lo = Some (mk_blk o f1) -> B !! (lo + 2 ^ o) = Some (mk_blk o f2) ->
  (2 ^ (o + 1) | lo) -> o < MAX_ORDER ->
  wf_blocks N (<[lo := mk_blk (o + 1) f]> (delete (lo + 2 ^ o) B)).
Proof using Hwf.
  intros Hlo Hhi Hal Ho.
  pose proof (wf_ord _ _ Hwf _ _ Hlo) as Hord. cbn [bord] in Hord.
  pose proof (pow2_pos o ltac:(lia)) as Hpos. pose proof (pow2_S o ltac:(lia)) as HS.
  pose proof (wf_range _ _ Hwf _ _ Hlo) as Hr1. pose proof (wf_range _ _ Hwf _ _ Hhi) as Hr2.
  cbn [bord] in *.
  assert (Hl : forall q b, <[lo := mk_blk (o + 1) f]> (delete (lo + 2 ^ o) B) !! q = Some b ->
      (q = lo /\ bord b = o + 1) \/ (q <> lo /\ q <> lo + 2 ^ o /\ B !! q = Some b)).
  { intros q b Hq. destruct (decide (q = lo)) as [->|].
    { rewrite lookup_insert_eq in Hq. injection Hq as <-. auto. }
    rewrite lookup_insert_ne in Hq by done.
    apply lookup_delete_Some in Hq as [? ?]. auto. }
  assert (Hc : forall q h, covers (<[lo := mk_blk (o + 1) f]> (delete (lo + 2 ^ o) B)) q h ->
      (h = lo /\ lo <= q < lo + 2 ^ (o + 1)) \/ (h <> lo /\ h <> lo + 2 ^ o /\ covers B q h)).
  { intros q h (b & [(-> & E)|(? & ? & Hb)]%Hl & Hin); rewrite ?E in Hin; [by left|].
    right. split; [done|split; [done|by exists b]]. }
  assert (Hin : forall q, lo <= q < lo + 2 ^ (o + 1) -> covers B q lo \/ covers B q (lo + 2 ^ o)).
  { intros q Hq. destruct (decide (q < lo + 2 ^ o)); [left|right]; eexists; cbn;
      (split; [done|cbn; lia]). }
  split.
  - intros q b [(-> & ->)|(_ & _ & Hb)]%Hl; [lia|by eapply wf_ord].
  - intros q b [(-> & ->)|(_ & _ & Hb)]%Hl; [done|by eapply wf_align].
  - intros q b [(-> & ->)|(_ & _ & Hb)]%Hl; [lia|by eapply wf_range].
  - intros q Hq. destruct (wf_cover _ _ Hwf q Hq) as (h & b & Hb & Hbin).
    destruct (decide (h = lo \/ h = lo + 2 ^ o)) as [Hd|Hd].
    + exists lo, (mk_blk (o + 1) f). rewrite lookup_insert_eq. split; [done|cbn [bord]].
      destruct Hd as [-> | ->]; simplify_eq; cbn [bord] in Hbin; lia.
    + exists h, b. rewrite lookup_insert_ne, lookup_delete_ne by naive_solver. done.
  - intros q h h' [[-> Hq]|(Hn1 & Hn2 & Hh)]%Hc [[-> Hq']|(Hn1' & Hn2' & Hh')]%Hc; try done.
    + exfalso. destruct (Hin q Hq) as [C|C]; pose proof (wf_disj _ _ Hwf _ _ _ C Hh'); congruence.
    + exfalso. destruct (Hin q Hq') as [C|C]; pose proof (wf_disj _ _ Hwf _ _ _ C Hh); congruence.
    + by eapply (wf_disj _ _ Hwf q).
Qed.

(** Without enough frames for two blocks of the largest order, such a block has
    no buddy. *)
Lemma wf_top_no_buddy p b b' :
  N < 2 ^ (MAX_ORDER + 1) -> B !! p = Some b -> bord b = MAX_ORDER ->
  B !! Z.lxor p (2 ^ MAX_ORDER) = Some b' -> bord b' = MAX_ORDER -> False.
Proof using Hwf.
  intros HN Hp Ho Hq Ho'.
  pose proof (wf_range _ _ Hwf _ _ Hp) as R1. pose proof (wf_range _ _ Hwf _ _ Hq) as R2.
  pose proof (wf_align _ _ Hwf _ _ Hp) as A. rewrite Ho in *. rewrite Ho' in *.
  destruct (buddy_bits p MAX_ORDER ltac:(done) ltac:(lia) A) as (lo & Hlo & _ & _ & _ & D).
  rewrite pow2_S in HN by done. lia.
Qed.
End wf.

(** ** Coalescing *)

Definition free_page (B : blocks) (q : Z) : Prop :=
  exists p b, B !! p = Some b /\ bfree b = true /\ p <= q < p + 2 ^ bord b.

(** A smallest free block inside a free run would have a free buddy of the same
    order next to it. *)
Lemma coalesced_no_small N B p o :
  wf_blocks N B -> coalesced B -> 0 <= p -> (2 ^ o | p) -> 0 <= o ->
  (forall q, p <= q < p + 2 ^ o -> free_page B q) ->
  forall (n : nat) h b, bord b = Z.of_nat n -> bord b < o ->
    B !! h = Some b -> p <= h < p + 2 ^ o -> False.
Proof.
  intros Hwf Hco Hp0 Hal Ho Hrun n. induction n as [n IH] using lt_wf_ind.
  intros h b Hn Hlt Hb Hin.
  assert (Hj : 0 <= bord b) by lia.
  pose proof (wf_align _ _ Hwf _ _ Hb) as Hah.
  destruct (buddy_bits h (bord b) Hj ltac:(lia) Hah) as (lo & Hlo & Hlal & _ & _ & D).
  pose proof (buddy_aligned h (bord b) Hj ltac:(lia) Hah) as Hag.
  set (g := Z.lxor h (2 ^ bord b)) in *.
  pose proof (pow2_pos (bord b) Hj) as Hpos. pose proof (pow2_S (bord b) Hj) as HS.
  assert (Hpl : p <= lo).
  { apply (aligned_lower p lo (bord b + 1)); [lia| |done|lia].
    by apply (divide_pow2_le _ o); [lia|]. }
  pose proof (aligned_nested lo (bord b + 1) p o ltac:(lia) Hlal Hal ltac:(lia)) as Hpr.
  destruct (Hrun g ltac:(lia)) as (k & c & Hc & Hfc & Hkc).
  destruct (Hrun h ltac:(lia)) as (h' & b' & Hb' & Hfb & Hhb).
  assert (h' = h) as ->
    by (symmetry; eapply (wf_disj _ _ Hwf h); [exists b; split; [done|lia]|by exists b']).
  simplify_eq.
  pose proof (wf_ord _ _ Hwf _ _ Hc) as Hoc. pose proof (wf_align _ _ Hwf _ _ Hc) as Hac.
  destruct (decide (bord c <= bord b)) as [Hle|Hgt].
  - assert (k = g).
    { apply Z.le_antisymm; [lia|]. apply (aligned_lower g k (bord c)); [lia| |done|lia].
      by apply (divide_pow2_le _ (bord b)); [lia|]. }
    subst k. destruct (decide (bord c = bord b)) as [Heq|Hne].
    + destruct b as [ob fb], c as [oc fc]. cbn in *. subst oc fb fc. by apply (Hco h ob).
    + apply (IH (Z.to_nat (bord c)) ltac:(lia) g c); [lia|lia|done|lia].
  - assert (k <= lo).
    { apply (aligned_lower k lo (bord b + 1)); [lia| |done|lia].
      by apply (divide_pow2_le _ (bord c)); [lia|]. }
    pose proof (aligned_nested lo (bord b + 1) k (bord c) ltac:(lia) Hlal Hac ltac:(lia)).
    assert (k = h) by (eapply (wf_disj _ _ Hwf h); [exists c|exists b]; split; (done || lia)).
    subst k. simplify_eq. lia.
Qed.

(** A free aligned run of [2^o] frames lies inside one free block. *)
Lemma coalesced_no_run N B p o :
  wf_blocks N B -> coalesced B -> 0 <= p -> (2 ^ o | p) -> 0 <= o ->
  (forall q, p <= q < p + 2 ^ o -> free_page B q) ->
  exists h b, B !! h = Some b /\ bfree b = true /\ o <= bord b.
Proof.
  intros Hwf Hco Hp0 Hal Ho Hrun. pose proof (pow2_pos o Ho).
  destruct (Hrun p ltac:(lia)) as (h & b & Hb & Hf & Hin).
  exists h, b. split; [done|split; [done|]].
  pose proof (wf_ord _ _ Hwf _ _ Hb) as Hob. pose proof (wf_align _ _ Hwf _ _ Hb) as Hab.
  destruct (decide (o <= bord b)) as [|Hn]; [done|exfalso].
  assert (p <= h).
  { apply (aligned_lower p h (bord b)); [lia| |done|lia].
    by apply (divide_pow2_le _ o); [lia|]. }
  apply (coalesced_no_small N B p o Hwf Hco Hp0 Hal Ho Hrun (Z.to_nat (bord b)) h b);
    [lia|lia|done|lia].
Qed.
