(* ===== verification/BuddyProof.v ===== *)
(** * BuddyProof: the page allocator implements the partition

    The refinement between the concrete state of mm/buddy.c and the partitions of
    [BuddyBlocks], operation by operation, and the theorems on [buddy_create],
    [buddy_alloc_page] and [buddy_free_page]. *)

From S2P Require Import Prelude Bits ListHead Buddy BuddyBlocks.

(** ** Bits of the free-list bitmap *)

Lemma lor_lt_pow2 a b n : 0 <= n -> 0 <= a < 2 ^ n -> 0 <= b < 2 ^ n -> 0 <= Z.lor a b < 2 ^ n.
Proof.
  intros Hn Ha Hb. split; [apply Z.lor_nonneg; lia|].
  destruct (decide (Z.lor a b = 0)) as [->|Hne]; [apply Z.pow_pos_nonneg; lia|].
  pose proof (proj2 (Z.lor_nonneg a b) ltac:(lia)).
  apply Z.log2_lt_pow2; [lia|]. rewrite Z.log2_lor by lia.
  assert (Hl : forall x, 0 <= x < 2 ^ n -> Z.log2 x < n \/ x = 0).
  { intros x Hx. destruct (decide (x = 0)); [by right|left]. apply Z.log2_lt_pow2; lia. }
  destruct (Hl a Ha) as [|Ea], (Hl b Hb) as [|Eb]; rewrite ?Ea, ?Eb in *; cbn in *;
    try change (Z.log2 0) with 0; try lia; try done.
  - pose proof (Z.log2_nonneg a). lia.
  - pose proof (Z.log2_nonneg b). lia.
Qed.

Lemma land_lt_pow2 a b n : 0 <= n -> 0 <= a < 2 ^ n -> 0 <= b -> 0 <= Z.land a b < 2 ^ n.
Proof.
  intros Hn Ha Hb. split; [apply Z.land_nonneg; lia|].
  destruct (decide (Z.land a b = 0)) as [->|Hne]; [apply Z.pow_pos_nonneg; lia|].
  pose proof (proj2 (Z.land_nonneg a b) ltac:(lia)).
  assert (a <> 0) by (intros ->; by rewrite Z.land_0_l in Hne).
  apply Z.log2_lt_pow2; [lia|]. pose proof (Z.log2_land a b ltac:(lia) Hb).
  assert (Z.log2 a < n) by (apply Z.log2_lt_pow2; lia). lia.
Qed.

Lemma testbit_not64_pow2 o i :
  0 <= o < 64 -> 0 <= i < 64 -> Z.testbit (not64 (2 ^ o)) i = negb (i =? o).
Proof.
  intros Ho Hi. unfold not64. rewrite Z.lxor_spec, Z.ones_spec_low by lia.
  rewrite Z.pow2_bits_eqb by lia. rewrite (Z.eqb_sym i o). by destruct (o =? i).
Qed.

Lemma not64_nonneg o : 0 <= o -> 0 <= not64 (2 ^ o).
Proof.
  intros Ho. unfold not64. apply Z.lxor_nonneg. split; intros _; [done|].
  apply Z.pow_nonneg. lia.
Qed.

(** A duplicate-free list of numbers below a bound is no longer than the bound. *)
Lemma NoDup_bounded_length (l : list Z) N :
  NoDup l -> (forall x, x ∈ l -> 0 <= x < N) -> Z.of_nat (length l) <= Z.max 0 N.
Proof.
  intros Hnd Hb. assert (Hs : l ⊆+ seqZ 0 N).
  { apply NoDup_submseteq; [done|]. intros x Hx. apply elem_of_seqZ. specialize (Hb x Hx). lia. }
  apply submseteq_length in Hs. rewrite length_seqZ in Hs. lia.
Qed.

(** ** The free lists, counts and bitmap *)

Definition lists_ok (l : lheap floc) (cnt : gmap Z Z) (bm : Z) (B : blocks) : Prop :=
  0 <= bm < 2 ^ (MAX_ORDER + 1) /\
  exists fl : Z -> list Z, forall o, 0 <= o <= MAX_ORDER ->
    dlist l (FHead o) (FPage <$> fl o) /\
    (forall p, p ∈ fl o <-> B !! p = Some (mk_blk o true)) /\
    cnt !! o = Some (Z.of_nat (length (fl o))) /\
    Z.testbit bm o = bool_decide (fl o <> []).

Lemma lists_ext l cnt bm B B' :
  (forall p o, B !! p = Some (mk_blk o true) <-> B' !! p = Some (mk_blk o true)) ->
  lists_ok l cnt bm B -> lists_ok l cnt bm B'.
Proof.
  intros Hext (Hbm & fl & Hfl). split; [done|]. exists fl. intros o Ho.
  destruct (Hfl o Ho) as (Hd & Hm & Hc & Ht).
  split; [done|split; [|by split]]. intros p. by rewrite Hm, Hext.
Qed.

Lemma dlist_free_NoDup l o (xs : list Z) : dlist l (FHead o) (FPage <$> xs) -> NoDup xs.
Proof. intros Hd%dlist_NoDup. apply NoDup_cons in Hd as [_ Hd]. by apply NoDup_fmap_1 in Hd. Qed.

Section lists.
Context {l : lheap floc} {cnt : gmap Z Z} {bm : Z} {B : blocks} (N : Z).
Hypothesis HN : 0 <= N < 2 ^ 64.
Hypothesis Hdom : forall q b, B !! q = Some b -> 0 <= q < N.
Hypothesis Hok : lists_ok l cnt bm B.

Lemma lists_count o : 0 <= o <= MAX_ORDER -> exists c, cnt !! o = Some c.
Proof using Hok. intros Ho. destruct Hok as (_ & fl & Hfl). destruct (Hfl o Ho) as (_ & _ & -> & _). by eexists. Qed.

Lemma lists_add p o :
  0 <= o <= MAX_ORDER -> 0 <= p < N -> (forall o', B !! p <> Some (mk_blk o' true)) ->
  exists l' c, list_add_tail (FPage p) (FHead o) l = Ok l' /\ cnt !! o = Some c /\
    lists_ok l' (<[o := u64 (c + 1)]> cnt) (Z.lor bm (2 ^ o)) (<[p := mk_blk o true]> B).
Proof.
  intros Ho Hp Hnf. destruct Hok as (Hbm & fl & Hfl).
  destruct (Hfl o Ho) as (Hd & Hm & Hc & Ht).
  assert (Hpn : forall o', 0 <= o' <= MAX_ORDER -> p ∉ fl o').
  { intros o' Ho' Hin. apply (Hfl o' Ho') in Hin. by eapply Hnf. }
  destruct (list_add_tail_spec l (FHead o) (FPage <$> fl o) (FPage p) Hd)
    as (l' & El & Hd' & Hout).
  { rewrite elem_of_cons, list_elem_of_fmap. intros [|(x & [= ->] & Hx)]; [done|].
    by eapply Hpn. }
  assert (Hlt : Z.of_nat (length (fl o)) + 1 <= N).
  { pose proof (NoDup_bounded_length (p :: fl o) N) as Hb. cbn [length] in Hb.
    assert (Z.of_nat (S (length (fl o))) <= Z.max 0 N); [|lia]. apply Hb.
    - apply NoDup_cons. split; [by apply Hpn|]. by eapply dlist_free_NoDup.
    - intros x [->|Hx]%elem_of_cons; [done|]. apply Hm in Hx. by eapply Hdom. }
  exists l', (Z.of_nat (length (fl o))). split; [done|]. split; [done|].
  assert (0 < 2 ^ o < 2 ^ (MAX_ORDER + 1))
    by (split; [apply pow2_pos | apply Z.pow_lt_mono_r]; lia).
  split; [apply lor_lt_pow2; lia|].
  exists (fun o' => if decide (o' = o) then fl o ++ [p] else fl o'). intros o' Ho'.
  rewrite Z.lor_spec, Z.pow2_bits_eqb by lia.
  destruct (decide (o' = o)) as [->|Hne].
  - rewrite Z.eqb_refl, lookup_insert_eq, length_app. cbn [length].
    rewrite u64_small by lia. rewrite fmap_app. split; [done|split; [|split]].
    + intros q. rewrite elem_of_app, list_elem_of_singleton, Hm.
      destruct (decide (q = p)) as [->|]; [rewrite lookup_insert_eq; naive_solver|].
      rewrite lookup_insert_ne by done. naive_solver.
    + f_equal. lia.
    + rewrite orb_true_r. symmetry. apply bool_decide_eq_true. by destruct (fl o).
  - destruct (Hfl o' Ho') as (Hd2 & Hm2 & Hc2 & Ht2).
    rewrite (proj2 (Z.eqb_neq o o')), orb_false_r, lookup_insert_ne by done.
    split; [|split; [|split]]; [| |done|done].
    + eapply dlist_frame; [exact Hout| |done]. intros x Hx.
      rewrite elem_of_cons, list_elem_of_fmap in Hx.
      rewrite !elem_of_cons, list_elem_of_fmap.
      intros [->|[->|(y & -> & Hy)]]; destruct Hx as [[=]|(z & [=] & Hz)]; subst; [..|done|];
        [by eapply (Hpn o')|].
      apply Hm in Hy. apply Hm2 in Hz. congruence.
    + intros q. rewrite Hm2. destruct (decide (q = p)) as [->|]; [|by rewrite lookup_insert_ne].
      rewrite lookup_insert_eq. split; [intros E; by apply Hnf in E|congruence].
Qed.

Lemma lists_del p o :
  B !! p = Some (mk_blk o true) -> 0 <= o <= MAX_ORDER ->
  exists l' c, list_del (FPage p) l = Ok l' /\ cnt !! o = Some c /\
    lists_ok l' (<[o := u64 (c - 1)]> cnt)
      (if list_empty (FHead o) l' then Z.land bm (not64 (2 ^ o)) else bm)
      (<[p := mk_blk o false]> B).
Proof.
  intros Hp Ho. destruct Hok as (Hbm & fl & Hfl).
  destruct (Hfl o Ho) as (Hd & Hm & Hc & Ht).
  destruct (list_elem_of_split (fl o) p) as (f1 & f2 & Ef); [by apply Hm|].
  pose proof (dlist_free_NoDup _ _ _ Hd) as Hnd.
  rewrite Ef, fmap_app, fmap_cons in Hd.
  destruct (list_del_spec l (FHead o) _ _ _ Hd) as (l' & El & Hd' & Hout).
  rewrite <- fmap_app in Hd'.
  assert (Hpf : p ∉ f1 ++ f2).
  { rewrite Ef, <- (Permutation_middle f1 f2 p), NoDup_cons in Hnd. tauto. }
  assert (Hlen : Z.of_nat (length (fl o)) <= Z.max 0 N)
    by (apply NoDup_bounded_length; [done|]; intros x Hx; apply Hm in Hx; by eapply Hdom).
  rewrite Ef, length_app in Hlen. cbn [length] in Hlen.
  exists l', (Z.of_nat (length (fl o))). split; [done|]. split; [done|].
  rewrite (list_empty_spec _ _ _ Hd').
  assert (Hbit : forall o', 0 <= o' <= MAX_ORDER ->
    Z.testbit (if bool_decide (FPage <$> f1 ++ f2 = []) then Z.land bm (not64 (2 ^ o)) else bm) o' =
    if decide (o' = o) then bool_decide (f1 ++ f2 <> []) else Z.testbit bm o').
  { intros o' Ho'. destruct (decide (f1 ++ f2 = [])) as [He|He].
    - rewrite (bool_decide_true (FPage <$> _ = [])) by (by rewrite He). rewrite Z.land_spec.
      rewrite testbit_not64_pow2 by (unfold MAX_ORDER in *; lia).
      destruct (decide (o' = o)) as [->|Hne].
      + rewrite Z.eqb_refl, andb_false_r, He. done.
      + rewrite (proj2 (Z.eqb_neq o' o)), andb_true_r by done. done.
    - rewrite (bool_decide_false (FPage <$> _ = [])) by (by intros ?%fmap_nil_inv).
      destruct (decide (o' = o)) as [->|Hne]; [|done].
      rewrite Ht, Ef, !bool_decide_true; [done|done|by destruct f1]. }
  split.
  { destruct (bool_decide (FPage <$> _ = [])); [|done]. apply land_lt_pow2; [done|lia|]. apply not64_nonneg. lia. }
  exists (fun o' => if decide (o' = o) then f1 ++ f2 else fl o'). intros o' Ho'.
  rewrite Hbit by done. destruct (decide (o' = o)) as [->|Hne].
  - rewrite lookup_insert_eq, Ef, length_app. cbn [length].
    rewrite u64_small by lia. split; [done|split; [|split; [|done]]].
    + intros q. destruct (decide (q = p)) as [->|Hq].
      * rewrite lookup_insert_eq. split; [done|congruence].
      * rewrite lookup_insert_ne, <- Hm, Ef by done. set_solver.
    + f_equal. rewrite length_app. lia.
  - destruct (Hfl o' Ho') as (Hd2 & Hm2 & Hc2 & Ht2). rewrite lookup_insert_ne by done.
    split; [|split; [|split]]; [| |done|done].
    + eapply dlist_frame; [exact Hout| |done]. intros x Hx. rewrite <- fmap_app.
      rewrite elem_of_cons, list_elem_of_fmap in Hx.
      rewrite !elem_of_cons, list_elem_of_fmap.
      intros [->|[->|(y & -> & Hy)]]; destruct Hx as [[=]|(z & [=] & Hz)]; subst; [|done|].
      * apply Hm2 in Hz. congruence.
      * assert (z ∈ fl o) as Hy' by (rewrite Ef; set_solver).
        apply Hm in Hy'. apply Hm2 in Hz. congruence.
    + intros q. rewrite Hm2. destruct (decide (q = p)) as [->|]; [|by rewrite lookup_insert_ne].
      rewrite lookup_insert_eq. split; congruence.
Qed.
End lists.

(** ** The page descriptors

    Outside the exempt set [X], the field [order] is the block's order at the
    first frame of a block and [INVALID_ORDER] elsewhere, and [is_free] is right
    at every first frame. *)

Definition ord_of (ob : option blk) : Z :=
  match ob with Some b => bord b | None => INVALID_ORDER end.

Definition pages_ok (X : gset Z) (m : gmap Z page_t) (N : Z) (B : blocks) : Prop :=
  (forall q, is_Some (m !! q) <-> 0 <= q < N) /\
  (forall q pg, m !! q = Some pg -> q ∉ X ->
     order pg = ord_of (B !! q) /\
     (forall b, B !! q = Some b -> u32_flags pg = Z.b2z (bfree b))).

Lemma pages_ext X m N B B' :
  (forall q, q ∉ X -> B !! q = B' !! q) -> pages_ok X m N B -> pages_ok X m N B'.
Proof.
  intros He [Hd Hp]. split; [done|]. intros q pg Hq HX.
  rewrite <- He by done. by apply Hp.
Qed.

Lemma pages_weaken X X' m N B : X ⊆ X' -> pages_ok X m N B -> pages_ok X' m N B.
Proof. intros HX [Hd Hp]. split; [done|]. intros q pg Hq Hn. apply Hp; set_solver. Qed.

(** Writing a descriptor settles it; writing an exempt one keeps it exempt. *)
Lemma pages_set X m N B p pg :
  pages_ok ({[p]} ∪ X) m N B -> 0 <= p < N -> order pg = ord_of (B !! p) ->
  (forall b, B !! p = Some b -> u32_flags pg = Z.b2z (bfree b)) ->
  pages_ok X (<[p := pg]> m) N B.
Proof.
  intros [Hd Hp] Hr Ho Hf. split.
  - intros q. rewrite <- Hd. destruct (decide (q = p)) as [->|]; [|by rewrite lookup_insert_ne].
    rewrite lookup_insert_eq, Hd. split; [done|by eexists].
  - intros q pg' Hq HX. destruct (decide (q = p)) as [->|].
    + rewrite lookup_insert_eq in Hq. by injection Hq as <-.
    + rewrite lookup_insert_ne in Hq by done. apply Hp; set_solver.
Qed.

Lemma pages_set_exempt X m N B p pg :
  p ∈ X -> pages_ok X m N B -> 0 <= p < N -> pages_ok X (<[p := pg]> m) N B.
Proof.
  intros HX [Hd Hp] Hr. split.
  - intros q. rewrite <- Hd. destruct (decide (q = p)) as [->|]; [|by rewrite lookup_insert_ne].
    rewrite lookup_insert_eq, Hd. split; [done|by eexists].
  - intros q pg' Hq HX'. rewrite lookup_insert_ne in Hq by set_solver. by apply Hp.
Qed.

Definition same_geom (s s' : buddy_system_t) : Prop :=
  page_start s' = page_start s /\ max_pfn s' = max_pfn s.

Lemma same_geom_trans s1 s2 s3 : same_geom s1 s2 -> same_geom s2 s3 -> same_geom s1 s3.
Proof. unfold same_geom. intuition congruence. Qed.

Lemma ord_range o : 0 <= o <= MAX_ORDER ->
  s32 o = o /\ u32 o = o /\ shl1 o = Ok (2 ^ o) /\ page_buddy o = Ok (FHead o).
Proof.
  unfold MAX_ORDER. intros Ho. rewrite s32_small, u32_small, shl1_ok by lia.
  unfold page_buddy, MAX_ORDER.
  rewrite (proj2 (Z.leb_le 0 o)), (proj2 (Z.leb_le o 20)) by lia. done.
Qed.

Lemma lists_ok_dom N B : wf_blocks N B -> forall q b, B !! q = Some b -> 0 <= q < N.
Proof.
  intros Hwf q b Hb. pose proof (wf_range _ _ Hwf _ _ Hb). pose proof (wf_ord _ _ Hwf _ _ Hb).
  pose proof (pow2_pos (bord b) ltac:(lia)). lia.
Qed.

Abbreviation lists_of s := (lists_ok (links s) (count s) (bitmap s)).

(** Symbolic execution of the state updates. *)
Ltac buddy_cbn :=
  cbn [res_bind deref set_page set_map set_links set_bitmap set_count
       links count bitmap map_ page_start max_pfn].

(** [buddy_add_page] on a page whose [order] field is set. *)
Lemma add_page_ok X s N B p o pg :
  0 <= N < 2 ^ 64 -> (forall q b, B !! q = Some b -> 0 <= q < N) ->
  map_ s !! p = Some pg -> order pg = o -> 0 <= o <= MAX_ORDER -> 0 <= p < N ->
  (forall o', B !! p <> Some (mk_blk o' true)) -> lists_of s B ->
  pages_ok ({[p]} ∪ X) (map_ s) N (<[p := mk_blk o true]> B) ->
  exists s', buddy_add_page s p = Ok s' /\ same_geom s s' /\
    lists_of s' (<[p := mk_blk o true]> B) /\ pages_ok X (map_ s') N (<[p := mk_blk o true]> B) /\
    (forall q, q <> p -> map_ s' !! q = map_ s !! q).
Proof.
  intros HN Hdom Hpg <- Ho Hp Hnf Hl Hpages.
  destruct (ord_range _ Ho) as (Es & Eu & Esh & Eb).
  destruct (lists_add N HN Hdom Hl p (order pg) Ho Hp Hnf) as (l' & c & El & Ec & Hl').
  unfold buddy_add_page, set_flags, get_page, get_count. rewrite Hpg. buddy_cbn.
  rewrite Es, Eb. buddy_cbn. rewrite El. buddy_cbn. rewrite Esh. buddy_cbn. rewrite Ec. buddy_cbn.
  eexists. split; [done|]. split; [done|]. split; [done|]. cbn. split.
  - apply pages_set; [done|done| |].
    + by rewrite lookup_insert_eq.
    + intros b. rewrite lookup_insert_eq. by intros [= <-].
  - intros q Hq. by rewrite lookup_insert_ne.
Qed.

(** [buddy_del_page] on a free block: it becomes a block in use. *)
Lemma del_page_ok X s N B p o :
  0 <= N < 2 ^ 64 -> (forall q b, B !! q = Some b -> 0 <= q < N) ->
  B !! p = Some (mk_blk o true) -> 0 <= o <= MAX_ORDER -> p ∉ X ->
  lists_of s B -> pages_ok X (map_ s) N B ->
  exists s', buddy_del_page s p = Ok s' /\ same_geom s s' /\
    lists_of s' (<[p := mk_blk o false]> B) /\ pages_ok X (map_ s') N (<[p := mk_blk o false]> B) /\
    (forall q, q <> p -> map_ s' !! q = map_ s !! q) /\
    map_ s' !! p = Some (mk_page 0 o).
Proof.
  intros HN Hdom HB Ho HX Hl Hpages.
  destruct (ord_range _ Ho) as (Es & Eu & Esh & Eb).
  destruct (lists_del N HN Hdom Hl p o HB Ho) as (l' & c & El & Ec & Hl').
  pose proof (Hdom _ _ HB) as Hp. destruct Hpages as [Hd Hpg].
  destruct (proj2 (Hd p) Hp) as [pg Hpg']. destruct (Hpg _ _ Hpg' HX) as [Eo _].
  rewrite HB in Eo. cbn in Eo.
  unfold buddy_del_page, set_flags, get_page, get_count. rewrite Hpg'. buddy_cbn.
  rewrite El. buddy_cbn. rewrite Hpg'. buddy_cbn. rewrite Eo, Es, Eb. buddy_cbn.
  rewrite Esh. buddy_cbn.
  destruct (list_empty (FHead o) l') eqn:Hemp; buddy_cbn;
    rewrite Ec; buddy_cbn; eexists; (split; [done|]); (split; [done|]); (split; [done|]); buddy_cbn.
  all: split; [|split; [intros q Hq; by rewrite lookup_insert_ne|by rewrite lookup_insert_eq]].
  all: apply pages_set; [|done|by rewrite lookup_insert_eq|
         by intros b; rewrite lookup_insert_eq; intros [= <-]].
  all: eapply pages_ext; [|eapply pages_weaken; [|by split]; set_solver].
  all: intros q Hq; rewrite lookup_insert_ne; [done|set_solver].
Qed.

(** ** The whole state *)

Definition geom (N : Z) (s : buddy_system_t) : Prop :=
  max_pfn s = N - 1 /\ 0 < N <= 2 ^ 52 /\ page_start s mod PAGE_SIZE = 0 /\
  0 < page_start s /\ page_start s + PAGE_SIZE * N <= 2 ^ 64.

Record buddy_rel (X : gset Z) (s : buddy_system_t) (N : Z) (B : blocks) : Prop := {
  rel_geom : geom N s;
  rel_wf : wf_blocks N B;
  rel_lists : lists_of s B;
  rel_pages : pages_ok X (map_ s) N B;
}.

Lemma geom_same N s s' : same_geom s s' -> geom N s -> geom N s'.
Proof. unfold same_geom, geom. by intros [-> ->]. Qed.

Lemma geom_bound N s : geom N s -> 0 <= N < 2 ^ 64.
Proof. unfold geom. lia. Qed.

(** [set_order] on an exempt page. *)
Lemma set_order_ok X s N B p o pg :
  map_ s !! p = Some pg -> 
  exists s', set_order p o s = Ok s' /\ same_geom s s' /\ (lists_of s B -> lists_of s' B) /\
    map_ s' = <[p := mk_page (u32_flags pg) (u32 o)]> (map_ s) /\
    (p ∈ X -> 0 <= p < N -> pages_ok X (map_ s) N B -> pages_ok X (map_ s') N B).
Proof.
  intros Hpg. unfold set_order, get_page. rewrite Hpg. buddy_cbn. eexists.
  do 4 (split; [done|]). intros. by apply pages_set_exempt.
Qed.

(** *** Splitting *)

Lemma coalesced_split N B p o :
  wf_blocks N B -> coalesced B -> B !! p = Some (mk_blk (o + 1) false) -> 0 <= o ->
  coalesced (<[p + 2 ^ o := mk_blk o true]> (<[p := mk_blk o false]> B)).
Proof.
  intros Hwf Hco Hp Ho. pose proof (wf_align _ _ Hwf _ _ Hp) as Ha.
  pose proof (wf_range _ _ Hwf _ _ Hp) as Hr. cbn [bord] in *.
  pose proof (pow2_pos o Ho) as Hpos.
  assert (Hd : (2 ^ o | p)) by (apply (divide_pow2_le _ (o + 1)); [lia|done]).
  assert (Hx : Z.lxor p (2 ^ o) = p + 2 ^ o).
  { destruct (buddy_bits p o Ho ltac:(lia) Hd) as (lo & Hlo & Hlal & _ & _ & [[-> ->]|[E _]]); [done|].
    exfalso. pose proof (aligned_lower p lo (o + 1) ltac:(lia) Ha Hlal).
    rewrite pow2_S in * by done. lia. }
  assert (Hx' : Z.lxor (p + 2 ^ o) (2 ^ o) = p) by (rewrite <- Hx; apply buddy_invol).
  assert (Hnew : forall q i,
    <[p + 2 ^ o := mk_blk o true]> (<[p := mk_blk o false]> B) !! q = Some (mk_blk i true) ->
    (q = p + 2 ^ o /\ i = o) \/ (q <> p /\ q <> p + 2 ^ o /\ B !! q = Some (mk_blk i true))).
  { intros q i Hq. destruct (decide (q = p + 2 ^ o)) as [->|].
    { rewrite lookup_insert_eq in Hq. left. split; congruence. }
    rewrite lookup_insert_ne in Hq by done. destruct (decide (q = p)) as [->|].
    { rewrite lookup_insert_eq in Hq. congruence. }
    rewrite lookup_insert_ne in Hq by done. auto. }
  intros q i [[-> ->]|(Hq1 & Hq2 & Hq)]%Hnew [[E1 E2]|(Hq1' & Hq2' & Hq')]%Hnew.
  - rewrite Hx' in E1. lia.
  - by rewrite Hx' in Hq1'.
  - subst i. apply Hq1. rewrite <- Hx', <- E1. by rewrite buddy_invol.
  - by apply (Hco q i).
Qed.

Lemma split_loop_ok n s N B p o :
  buddy_rel {[p]} s N B -> coalesced B -> B !! p = Some (mk_blk (o + Z.of_nat n) false) -> 0 <= o ->
  exists s' B', page_split_loop n s p o = Ok s' /\ same_geom s s' /\ buddy_rel {[p]} s' N B' /\
    coalesced B' /\ B' !! p = Some (mk_blk o false) /\ used B' = <[p := o]> (used B) /\
    map_ s' !! p = map_ s !! p.
Proof.
  revert s B. induction n as [|n IH]; intros s B [Hg Hwf Hl Hpg] Hco Hp Ho; cbn [page_split_loop].
  { rewrite Z.add_0_r in Hp. exists s, B. do 5 (split; [done|]).
    split; [|done]. symmetry. apply insert_id. by apply lookup_used. }
  replace (o + Z.of_nat (S n)) with (o + Z.of_nat n + 1) in Hp by lia.
  set (new := o + Z.of_nat n) in *.
  pose proof (wf_ord _ _ Hwf _ _ Hp) as Hord. cbn [bord] in Hord.
  assert (Hnew : 0 <= new <= MAX_ORDER) by lia.
  destruct (ord_range new Hnew) as (Es & Eu & Esh & _). rewrite Esh. cbn [res_bind].
  pose proof (pow2_pos new ltac:(lia)) as Hpos.
  set (bud := p + 2 ^ new) in *. assert (Hne : bud <> p) by (unfold bud; lia).
  assert (Hfresh : B !! bud = None) by (by apply (split_fresh Hwf _ _ _ Hp); lia).
  pose proof (wf_split Hwf p new false false true Hp ltac:(lia)) as Hwf'.
  pose proof (geom_bound _ _ Hg) as HN.
  assert (Hbud : 0 <= bud < N).
  { eapply (lists_ok_dom _ _ Hwf'). by rewrite lookup_insert_eq. }
  destruct (proj2 (proj1 Hpg bud) Hbud) as [pg Epg].
  destruct (set_order_ok {[bud; p]} s N B bud new pg Epg) as (s1 & E1 & G1 & L1 & M1 & P1).
  rewrite E1. cbn [res_bind].
  set (B1 := <[p := mk_blk new false]> B).
  assert (HB1 : forall q b, B1 !! q = Some b -> 0 <= q < N).
  { intros q b Hq. unfold B1 in Hq. destruct (decide (q = p)) as [->|].
    - by eapply (lists_ok_dom _ _ Hwf).
    - rewrite lookup_insert_ne in Hq by done. by eapply (lists_ok_dom _ _ Hwf). }
  destruct (add_page_ok {[p]} s1 N B1 bud new (mk_page (u32_flags pg) (u32 new)) HN HB1)
    as (s2 & E2 & G2 & L2 & P2 & F2).
  { by rewrite M1, lookup_insert_eq. }
  { done. }
  { done. }
  { done. }
  { intros o' Hc. unfold B1 in Hc. rewrite lookup_insert_ne in Hc by done. congruence. }
  { eapply lists_ext, L1, Hl. intros q i. unfold B1. destruct (decide (q = p)) as [->|].
    - rewrite lookup_insert_eq. split; congruence.
    - by rewrite lookup_insert_ne. }
  { eapply pages_ext, P1; [| set_solver|done|eapply pages_weaken, Hpg; set_solver].
    intros q Hq. unfold B1. rewrite !lookup_insert_ne by set_solver. done. }
  rewrite E2. cbn [res_bind].
  destruct (IH s2 (<[bud := mk_blk new true]> B1)) as (s3 & B3 & E3 & G3 & R3 & C3 & P3 & U3 & M3).
  - split; [|done|done|done]. eapply geom_same, Hg. by eapply same_geom_trans.
  - apply (coalesced_split N); [done..|lia].
  - unfold B1. by rewrite lookup_insert_ne, lookup_insert_eq.
  - done.
  - exists s3, B3. split; [done|]. split; [by do 2 (eapply same_geom_trans; [done|])|].
    do 3 (split; [done|]). split.
    + rewrite U3, used_insert_free. unfold B1. rewrite used_insert_used.
      rewrite delete_insert_ne, insert_insert_eq by done. f_equal.
      apply delete_id. apply eq_None_not_Some. intros [i Hi%lookup_used]. congruence.
    + rewrite M3, F2, M1, lookup_insert_ne by done. done.
Qed.

(** *** Merging *)

Lemma merge_used B p b lo o :
  B !! p = Some (mk_blk o false) -> B !! b = Some (mk_blk o true) ->
  (p = lo /\ b = lo + 2 ^ o \/ p = lo + 2 ^ o /\ b = lo) ->
  delete lo (used (<[lo := mk_blk (o + 1) false]> (delete (lo + 2 ^ o) B))) = delete p (used B).
Proof.
  intros Hp Hb D. rewrite used_insert_used, used_delete, delete_insert_eq.
  assert (used B !! b = None) by (apply eq_None_not_Some; intros [i Hi%lookup_used]; congruence).
  destruct D as [[-> ->]|[-> ->]].
  - by rewrite (delete_id (used B)).
  - by rewrite (delete_delete (used B)), (delete_id (used B)).
Qed.

(** One merge of the block at [p] with its free buddy. *)
Lemma merge_step_ok s N B p o pg :
  buddy_rel {[p]} s N B -> B !! p = Some (mk_blk o false) -> o < MAX_ORDER ->
  map_ s !! p = Some pg -> u32_flags pg = 0 ->
  let b := Z.lxor p (2 ^ o) in
  B !! b = Some (mk_blk o true) ->
  exists s1 s2 B', buddy_del_page s b = Ok s1 /\
    set_order (Z.lor b p) INVALID_ORDER s1 = Ok s2 /\ same_geom s s2 /\
    buddy_rel {[Z.land b p]} s2 N B' /\ B' !! Z.land b p = Some (mk_blk (o + 1) false) /\
    (coalesced B -> coalesced B') /\ delete (Z.land b p) (used B') = delete p (used B) /\
    exists pg', map_ s2 !! Z.land b p = Some pg' /\ u32_flags pg' = 0.
Proof.
  intros [Hg Hwf Hl Hpg] Hp Hom Epg Hfl b Hb.
  pose proof (geom_bound _ _ Hg) as HN. pose proof (lists_ok_dom _ _ Hwf) as Hdom.
  pose proof (wf_ord _ _ Hwf _ _ Hp) as Ho. cbn [bord] in Ho.
  pose proof (wf_align _ _ Hwf _ _ Hp) as Ha. cbn [bord] in Ha.
  pose proof (Hdom _ _ Hp) as Hpr. pose proof (pow2_pos o ltac:(lia)) as Hpos.
  destruct (buddy_bits p o ltac:(lia) ltac:(lia) Ha) as (lo & Hlo & Hlal & Eand & Eor & D).
  fold b in Eand, Eor, D. rewrite Eand, Eor. clearbody b.
  assert (Hbp : b <> p) by lia.
  destruct (del_page_ok {[p]} s N B b o HN Hdom Hb Ho ltac:(set_solver) Hl Hpg)
    as (s1 & E1 & G1 & L1 & P1 & F1 & M1).
  remember (lo + 2 ^ o) as hi eqn:Ehi. set (B' := <[lo := mk_blk (o + 1) false]> (delete hi B)).
  assert (Hhi : exists pg1, map_ s1 !! hi = Some pg1).
  { destruct D as [[_ <-]|[<- _]]; [by eexists|]. rewrite F1 by done. by eexists. }
  destruct Hhi as [pg1 Epg1].
  destruct (set_order_ok {[lo; hi]} s1 N B' hi INVALID_ORDER pg1 Epg1)
    as (s2 & E2 & G2 & L2 & M2 & P2).
  assert (Hlh : lo <> hi) by lia.
  assert (Hhr : 0 <= hi < N) by (destruct D as [[_ <-]|[<- _]]; [by eapply Hdom|done]).
  exists s1, s2, B'. split; [done|]. split; [done|].
  split; [by eapply same_geom_trans|]. split; [split|split; [|split; [|split]]].
  - eapply geom_same, Hg. by eapply same_geom_trans.
  - unfold B'. subst hi. destruct D as [[-> E]|[E ->]].
    + apply (wf_merge Hwf lo o false false true); [done|by rewrite <- E|done|done].
    + apply (wf_merge Hwf lo o false true false); [done|by rewrite <- E|done|done].
  - apply L2. eapply lists_ext, L1. intros q i. unfold B'.
    destruct (decide (q = b)) as [->|Hqb].
    + rewrite lookup_insert_eq. destruct D as [[_ <-]|[_ ->]].
      * rewrite lookup_insert_ne, lookup_delete_eq by done. split; congruence.
      * rewrite lookup_insert_eq. split; congruence.
    + rewrite lookup_insert_ne by done. destruct (decide (q = p)) as [->|Hqp].
      * rewrite Hp. destruct D as [[-> _]|[-> _]].
        -- rewrite lookup_insert_eq. split; congruence.
        -- rewrite lookup_insert_ne, lookup_delete_eq by done. split; congruence.
      * rewrite lookup_insert_ne, lookup_delete_ne; [done|..];
          destruct D as [[-> ->]|[-> ->]]; congruence.
  - rewrite M2. apply pages_set; [|done| |].
    + eapply pages_ext; [|eapply pages_weaken, P1; destruct D as [[-> _]|[-> _]]; set_solver].
      intros q Hq. unfold B'. rewrite !lookup_insert_ne, lookup_delete_ne;
        [done|set_solver..|]. destruct D as [[_ ->]|[_ ->]]; set_solver.
    + unfold B'. by rewrite lookup_insert_ne, lookup_delete_eq.
    + intros bb. unfold B'. by rewrite lookup_insert_ne, lookup_delete_eq.
  - unfold B'. by rewrite lookup_insert_eq.
  - intros Hco q i Hq Hq'. unfold B' in *.
    apply lookup_insert_Some in Hq as [[_ ?]|[_ [_ Hq]%lookup_delete_Some]]; [congruence|].
    apply lookup_insert_Some in Hq' as [[_ ?]|[_ [_ Hq']%lookup_delete_Some]]; [congruence|].
    by apply (Hco q i).
  - unfold B'. subst hi. by apply (merge_used B p b).
  - rewrite M2, lookup_insert_ne by done. destruct D as [[<- _]|[_ <-]].
    + exists pg. by rewrite F1.
    + rewrite M1. by eexists.
Qed.

Lemma merge_loop_ok n s N B p o pg :
  N < 2 ^ (MAX_ORDER + 1) -> o = MAX_ORDER + 1 - Z.of_nat n -> o <= MAX_ORDER ->
  buddy_rel {[p]} s N B -> B !! p = Some (mk_blk o false) -> coalesced B ->
  map_ s !! p = Some pg -> u32_flags pg = 0 ->
  exists s' p' o' B', page_merge_loop n s p = Ok (s', p', o') /\ same_geom s s' /\
    buddy_rel {[p']} s' N B' /\ B' !! p' = Some (mk_blk o' false) /\ coalesced B' /\
    B' !! Z.lxor p' (2 ^ o') <> Some (mk_blk o' true) /\
    delete p' (used B') = delete p (used B).
Proof.
  intros HN. revert s B p o pg. induction n as [|n IH]; intros s B p o pg Eo Hom Hrel Hp Hco Epg Hfl; [lia|].
  cbn [page_merge_loop]. rewrite <- Eo.
  pose proof Hrel as [Hg Hwf Hl Hpg].
  pose proof (wf_ord _ _ Hwf _ _ Hp) as Ho. cbn [bord] in Ho.
  pose proof (lists_ok_dom _ _ Hwf _ _ Hp) as Hpr.
  pose proof (wf_align _ _ Hwf _ _ Hp) as Ha. cbn [bord] in Ha.
  destruct (ord_range o Ho) as (Es & Eu & Esh & _). rewrite Esh. cbn [res_bind].
  assert (Hexit : B !! Z.lxor p (2 ^ o) <> Some (mk_blk o true) ->
    exists s' p' o' B', Ok (s, p, o) = Ok (s', p', o') /\ same_geom s s' /\
      buddy_rel {[p']} s' N B' /\ B' !! p' = Some (mk_blk o' false) /\ coalesced B' /\
      B' !! Z.lxor p' (2 ^ o') <> Some (mk_blk o' true) /\
      delete p' (used B') = delete p (used B)) by (intros; by exists s, p, o, B).
  assert (Hb0 : 0 <= Z.lxor p (2 ^ o)) by (apply Z.lxor_nonneg; split; intros; try apply Z.pow_nonneg; lia).
  assert (Hbp : Z.lxor p (2 ^ o) <> p).
  { pose proof (pow2_pos o ltac:(lia)).
    destruct (buddy_bits p o ltac:(lia) ltac:(lia) Ha) as (lo & _ & _ & _ & _ & D). lia. }
  unfold pfn_valid. destruct Hg as (Emax & Hg'). rewrite Emax.
  destruct (Z.leb_spec (Z.lxor p (2 ^ o)) (N - 1)) as [Hv|Hv]; cbn [negb].
  2:{ apply Hexit. intros E%(lists_ok_dom _ _ Hwf). lia. }
  destruct (proj2 (proj1 Hpg (Z.lxor p (2 ^ o))) ltac:(lia)) as [bg Ebg].
  unfold page_free, get_page. rewrite Ebg. cbn [deref res_bind]. rewrite Eu.
  destruct (proj2 Hpg _ _ Ebg ltac:(set_solver)) as [Ebo Ebf].
  destruct (Z.eqb_spec (order bg) o) as [Eq|Nq]; cbn [negb].
  2:{ apply Hexit. intros E. rewrite E in Ebo. cbn in Ebo. congruence. }
  destruct (B !! Z.lxor p (2 ^ o)) as [[ob fb]|] eqn:Eb.
  2:{ cbn in Ebo. rewrite Eq in Ebo. unfold INVALID_ORDER, MAX_ORDER in *. lia. }
  cbn in Ebo. assert (ob = o) as -> by congruence.
  rewrite (Ebf _ eq_refl). destruct fb; cbn [bfree Z.b2z Z.testbit negb].
  2:{ apply Hexit. congruence. }
  assert (Hlt : o < MAX_ORDER).
  { destruct (decide (o = MAX_ORDER)) as [->|]; [exfalso|lia].
    by apply (wf_top_no_buddy Hwf _ _ _ HN Hp eq_refl Eb). }
  destruct (merge_step_ok s N B p o pg Hrel Hp Hlt Epg Hfl Eb)
    as (s1 & s2 & B2 & E1 & E2 & G2 & R2 & P2 & C2 & U2 & pg2 & Epg2 & Hfl2).
  rewrite E1. cbn [res_bind]. rewrite E2. cbn [res_bind].
  destruct (IH s2 B2 (Z.land (Z.lxor p (2 ^ o)) p) (o + 1) pg2) as (s3 & p3 & o3 & B3 & E3 & G3 & R3 & P3 & C3 & N3 & U3);
    [lia|lia|done|done|by apply C2|done|done|].
  exists s3, p3, o3, B3. split; [done|]. split; [by eapply same_geom_trans|].
  do 4 (split; [done|]). by rewrite U3, U2.
Qed.

(** ** The invariant and the operations

    [buddy_ok s U]: the state is consistent, no two free buddies are left
    unmerged, and [U] maps the first frame of each allocated block to its
    order. *)

Definition buddy_ok (s : buddy_system_t) (U : gmap Z Z) : Prop :=
  exists B, buddy_rel ∅ s (max_pfn s + 1) B /\ coalesced B /\ used B = U.

Lemma coalesced_free N B p o :
  wf_blocks N B -> coalesced B -> B !! p = Some (mk_blk o false) ->
  B !! Z.lxor p (2 ^ o) <> Some (mk_blk o true) -> coalesced (<[p := mk_blk o true]> B).
Proof.
  intros Hwf Hco Hp Hb q i Hq Hq'.
  pose proof (wf_ord _ _ Hwf _ _ Hp) as Ho. cbn [bord] in Ho.
  pose proof (pow2_pos o ltac:(lia)).
  apply lookup_insert_Some in Hq as [[<- [= <-]]|[Hne Hq]];
    apply lookup_insert_Some in Hq' as [[E E']|[Hne' Hq']].
  - pose proof (lists_ok_dom _ _ Hwf _ _ Hp) as Hpr.
    pose proof (wf_align _ _ Hwf _ _ Hp) as Ha. cbn [bord] in Ha.
    destruct (buddy_bits p o ltac:(lia) ltac:(lia) Ha) as (lo & _ & _ & _ & _ & D). lia.
  - by apply Hb.
  - injection E' as <-. apply Hb. rewrite E, buddy_invol. done.
  - by apply (Hco q i).
Qed.

Lemma coalesced_used B p o : coalesced B -> coalesced (<[p := mk_blk o false]> B).
Proof.
  intros Hco q i Hq Hq'. apply lookup_insert_Some in Hq as [[_ ?]|[_ Hq]]; [congruence|].
  apply lookup_insert_Some in Hq' as [[_ ?]|[_ Hq']]; [congruence|]. by apply (Hco q i).
Qed.

Lemma page_ptr_roundtrip N s p :
  geom N s -> 0 <= p < N ->
  page_to_ptr s p = page_start s + PAGE_SIZE * p /\ page_from_ptr s (page_to_ptr s p) = Ok p /\
  page_to_ptr s p <> 0.
Proof.
  intros (_ & HN & Hal & Hpos & Hend) Hp. unfold page_to_ptr, page_from_ptr, PAGE_SIZE in *.
  rewrite u64_small by lia.
  assert ((page_start s + 4096 * p) mod 4096 = 0) as ->.
  { rewrite Z.mul_comm, Z_mod_plus_full. done. }
  cbn [Z.eqb c_assert res_bind]. split; [done|]. split; [|lia]. f_equal.
  replace (page_start s + 4096 * p - page_start s) with (p * 4096) by lia.
  by apply Z.div_mul.
Qed.

(** The last step of [page_merge] and [buddy_add_page] put the merged block on
    its free list. *)
Lemma merge_add_ok s N B p o :
  N < 2 ^ (MAX_ORDER + 1) -> buddy_rel ∅ s N B -> coalesced B -> B !! p = Some (mk_blk o false) ->
  exists s1 p' s2 B', page_merge s p = Ok (s1, p') /\ buddy_add_page s1 p' = Ok s2 /\
    same_geom s s2 /\ buddy_rel ∅ s2 N B' /\ coalesced B' /\ used B' = delete p (used B).
Proof.
  intros HN Hrel Hco Hp. pose proof Hrel as [Hg Hwf Hl Hpg].
  pose proof (wf_ord _ _ Hwf _ _ Hp) as Ho. cbn [bord] in Ho.
  destruct (ord_range o Ho) as (Es & Eu & _).
  destruct (proj2 (proj1 Hpg p) (lists_ok_dom _ _ Hwf _ _ Hp)) as [pg Epg].
  destruct (proj2 Hpg _ _ Epg ltac:(set_solver)) as [Eo Ef]. rewrite Hp in Eo, Ef. cbn in Eo.
  unfold page_merge, get_page. rewrite Epg. cbn [deref res_bind]. rewrite Eo, Es.
  destruct (merge_loop_ok (Z.to_nat (MAX_ORDER + 1 - o)) s N B p o pg HN)
    as (s1 & p1 & o1 & B1 & E1 & G1 & [Hg1 Hwf1 Hl1 Hpg1] & P1 & C1 & N1 & U1);
    [lia|lia|by split; [..|eapply pages_weaken, Hpg]|done|done|done|by apply (Ef _ eq_refl)|].
  rewrite E1. cbn [res_bind].
  pose proof (wf_ord _ _ Hwf1 _ _ P1) as Ho1. cbn [bord] in Ho1.
  destruct (ord_range o1 Ho1) as (_ & Eu1 & _).
  pose proof (lists_ok_dom _ _ Hwf1 _ _ P1) as Hp1.
  destruct (proj2 (proj1 Hpg1 p1) Hp1) as [pg1 Epg1].
  destruct (set_order_ok {[p1]} s1 N B1 p1 o1 pg1 Epg1) as (s2 & E2 & G2 & L2 & M2 & P2).
  rewrite E2. cbn [res_bind].
  destruct (add_page_ok ∅ s2 N B1 p1 o1 (mk_page (u32_flags pg1) (u32 o1))
              (geom_bound _ _ Hg) (lists_ok_dom _ _ Hwf1)) as (s3 & E3 & G3 & L3 & P3 & _).
  { by rewrite M2, lookup_insert_eq. }
  { done. }
  { done. }
  { done. }
  { congruence. }
  { by apply L2. }
  { eapply pages_ext; [|eapply pages_weaken, P2; [set_solver|set_solver|done|done]].
    intros q Hq. by rewrite lookup_insert_ne by set_solver. }
  exists s2, p1, s3, (<[p1 := mk_blk o1 true]> B1). do 2 (split; [done|]).
  assert (same_geom s s3) by (do 2 (eapply same_geom_trans; [done|]); done).
  split; [done|]. split; [split; [by eapply geom_same|by eapply wf_set_free|done|done]|].
  split; [by eapply coalesced_free|]. by rewrite used_insert_free.
Qed.

(** Freeing an allocated block returns normally, keeps the invariant and the
    other allocated blocks, and gives the block back. *)
Lemma free_page_ok s U p o :
  buddy_ok s U -> max_pfn s + 1 < 2 ^ (MAX_ORDER + 1) -> U !! p = Some o ->
  exists s', buddy_free_page s (page_to_ptr s p) = Ok s' /\ buddy_ok s' (delete p U) /\
             same_geom s s'.
Proof.
  intros (B & Hrel & Hco & <-) HN Hp%lookup_used. pose proof Hrel as [Hg Hwf Hl Hpg].
  pose proof (lists_ok_dom _ _ Hwf _ _ Hp) as Hpr.
  destruct (page_ptr_roundtrip _ _ _ Hg Hpr) as (_ & Eptr & Hnz).
  unfold buddy_free_page. rewrite (proj2 (Z.eqb_neq _ 0) Hnz). cbn [negb c_assert res_bind].
  rewrite Eptr. cbn [res_bind].
  destruct (proj2 (proj1 Hpg p) Hpr) as [pg Epg].
  destruct (proj2 Hpg _ _ Epg ltac:(set_solver)) as [_ Ef]. rewrite Hp in Ef.
  unfold page_free, get_page. rewrite Epg. cbn [deref res_bind].
  rewrite (Ef _ eq_refl). cbn [bfree Z.b2z Z.testbit].
  destruct (merge_add_ok _ _ _ _ _ HN Hrel Hco Hp) as (s1 & p' & s2 & B' & E1 & E2 & G & R & C & U').
  rewrite E1. cbn [res_bind]. rewrite E2. exists s2. split; [done|]. split; [|done].
  exists B'. rewrite (proj2 G). done.
Qed.

(** ** Allocation *)

Lemma alloc_order cnt :
  0 < cnt <= 2 ^ 63 ->
  shl1 (buddy_fls_sizet cnt) = Ok (2 ^ Z.log2 cnt) /\
  buddy_fls_sizet (u64 (cnt + (2 ^ Z.log2 cnt - 1))) = Z.log2_up cnt.
Proof.
  intros Hc. rewrite (buddy_fls_sizet_spec cnt) by lia.
  pose proof (Z.log2_spec cnt ltac:(lia)) as [Hl Hu]. pose proof (Z.log2_nonneg cnt) as Hn.
  rewrite Z.pow_succ_r in Hu by done.
  assert (Z.log2 cnt <= 63) by (change 63 with (Z.log2 (2 ^ 63)); apply Z.log2_le_mono; lia).
  split; [apply shl1_ok; lia|].
  set (k := Z.log2 cnt) in *. pose proof (pow2_pos k Hn) as Hk.
  destruct (decide (cnt = 2 ^ k)) as [E|E].
  - assert (2 ^ k <= 2 ^ 63) by lia.
    rewrite u64_small, buddy_fls_sizet_spec by lia. rewrite E, Z.log2_up_pow2 by done.
    replace (2 ^ k + (2 ^ k - 1)) with (2 ^ (k + 1) - 1) by (rewrite pow2_S; lia).
    rewrite Z.sub_1_r, Z.log2_pred_pow2 by lia. lia.
  - assert (Hk62 : k <= 62).
    { destruct (decide (k = 63)) as [E63|]; [|lia]. rewrite E63 in *. lia. }
    assert (2 ^ k <= 2 ^ 62) by (apply Z.pow_le_mono_r; lia).
    rewrite u64_small, buddy_fls_sizet_spec by lia.
    rewrite Z.log2_up_eqn by lia.
    assert (Z.log2 (Z.pred cnt) = k) as ->.
    { apply Z.log2_unique; [lia|]. rewrite Z.pow_succ_r by done. lia. }
    apply Z.log2_unique; [lia|]. rewrite !Z.pow_succ_r by lia. lia.
Qed.

Lemma testbit_mask64 bm o i :
  0 <= bm < 2 ^ 64 -> 0 <= o < 64 -> 0 <= i ->
  Z.testbit (Z.land bm (u64 (Z.shiftl (Z.ones 64) o))) i = Z.testbit bm i && (o <=? i).
Proof.
  intros Hbm Ho Hi. rewrite Z.land_spec. unfold u64, wrap.
  destruct (decide (i < 64)).
  - rewrite Z.mod_pow2_bits_low, Z.shiftl_spec by lia. f_equal.
    destruct (Z.leb_spec o i).
    + apply Z.ones_spec_low. lia.
    + apply Z.testbit_neg_r. lia.
  - assert (Z.testbit bm i = false) as ->; [|done].
    rewrite <- (Z.mod_small bm (2 ^ 64)) by done. apply Z.mod_pow2_bits_high. lia.
Qed.

Lemma last_entry_ok l o (xs : list Z) :
  dlist l (FHead o) (FPage <$> xs) -> xs <> [] ->
  exists p, p ∈ xs /\ list_last_entry (FHead o) l = Ok (FPage p).
Proof.
  intros Hd Hne. unfold list_last_entry, get_prev. rewrite (dlist_last _ _ _ Hd). cbn [deref].
  destruct xs as [|p xs] using rev_ind; [done|].
  exists p. rewrite fmap_app. cbn [fmap list_fmap]. rewrite last_of_snoc. split; [set_solver|done].
Qed.

(** [buddy_locate_free] finds a free block of at least the requested order when
    there is one. *)
Lemma locate_free_ok s N B o :
  buddy_rel ∅ s N B -> 0 <= o <= MAX_ORDER ->
  (exists p o', buddy_locate_free s o = Ok (Some p) /\ B !! p = Some (mk_blk o' true) /\
                o <= o' <= MAX_ORDER) \/
  (buddy_locate_free s o = Ok None /\ forall p b, B !! p = Some b -> bfree b = true -> bord b < o).
Proof.
  intros [Hg Hwf (Hbm & fl & Hfl) Hpg] Ho. unfold buddy_locate_free, get_count.
  destruct (Hfl o Ho) as (Hd & Hm & Hc & Ht). destruct (ord_range o Ho) as (_ & _ & _ & Eb).
  rewrite (proj2 (Z.leb_le 0 o)) by lia. cbn [c_assert res_bind]. rewrite Eb. cbn [res_bind].
  rewrite Hc. cbn [deref res_bind]. rewrite (list_empty_spec _ _ _ Hd).
  assert (Hbmr : 0 <= bitmap s < 2 ^ 64).
  { assert (2 ^ (MAX_ORDER + 1) <= 2 ^ 64) by (by apply Z.pow_le_mono_r). lia. }
  assert (Hfree : forall p b, B !! p = Some b -> bfree b = true -> p ∈ fl (bord b)).
  { intros p [i f] Hp Hf. cbn in Hf. subst f. apply (Hfl i); [|done]. by apply (wf_ord _ _ Hwf _ _ Hp). }
  destruct (decide (fl o = [])) as [He|He].
  - rewrite He, bool_decide_true by done. cbn [length Z.of_nat Z.eqb Bool.eqb c_assert res_bind].
    set (bm := Z.land _ _). assert (Hbit : forall i, 0 <= i -> Z.testbit bm i = Z.testbit (bitmap s) i && (o <=? i))
      by (intros; apply testbit_mask64; unfold MAX_ORDER in *; lia).
    assert (0 <= bm < 2 ^ 64)
      by (apply land_lt_pow2; [lia|done|apply u64_range]).
    destruct (Z.eqb_spec bm 0) as [E|E].
    + right. split; [done|]. intros p b Hp Hf.
      destruct (decide (bord b < o)) as [|Hge]; [done|exfalso].
      pose proof (wf_ord _ _ Hwf _ _ Hp) as Hob. pose proof (Hfree _ _ Hp Hf) as Hin.
      specialize (Hbit (bord b) ltac:(lia)). rewrite E, Z.testbit_0_l in Hbit.
      destruct (Hfl (bord b) Hob) as (_ & _ & _ & Htb).
      rewrite Htb, (proj2 (Z.leb_le o (bord b))), andb_true_r, bool_decide_true in Hbit;
        [done|intros E'; rewrite E' in Hin; set_solver|lia].
    + left. destruct (buddy_ffs_sizet_spec bm ltac:(lia)) as [(Hi0 & Hi & _) Hi64].
      set (i := buddy_ffs_sizet bm) in *. rewrite Hbit in Hi by done.
      apply andb_true_iff in Hi as [Hbi Hoi%Z.leb_le].
      assert (Him : i <= MAX_ORDER).
      { destruct (decide (i <= MAX_ORDER)) as [|Hgt]; [done|exfalso].
        rewrite <- (Z.mod_small (bitmap s) (2 ^ (MAX_ORDER + 1))) in Hbi by done.
        rewrite Z.mod_pow2_bits_high in Hbi by (unfold MAX_ORDER in *; lia). done. }
      destruct (Hfl i ltac:(lia)) as (Hdi & Hmi & _ & Hti).
      rewrite Hti in Hbi. apply bool_decide_eq_true in Hbi.
      destruct (last_entry_ok _ _ _ Hdi Hbi) as (p & Hp & El).
      rewrite (proj2 (Z.leb_le 0 i)) by lia. cbn [c_assert res_bind].
      destruct (ord_range i ltac:(lia)) as (_ & _ & _ & ->). cbn [res_bind].
      rewrite El. cbn [res_bind]. exists p, i. split; [done|]. split; [by apply Hmi|lia].
  - rewrite bool_decide_false by (by intros ?%fmap_nil_inv).
    assert ((Z.of_nat (length (fl o)) =? 0) = false) as ->
      by (apply Z.eqb_neq; destruct (fl o); [done|cbn; lia]).
    cbn [Bool.eqb c_assert res_bind]. rewrite Eb. cbn [res_bind].
    destruct (last_entry_ok _ _ _ Hd He) as (p & Hp & El). rewrite El. cbn [res_bind].
    left. exists p, o. split; [done|]. split; [by apply Hm|lia].
Qed.

(** [page_prepare_used] turns a free block of order [o'] into a block in use of
    order [o <= o'] at the same frame, freeing the rest. *)
Lemma prepare_used_ok s N B p o o' :
  buddy_rel ∅ s N B -> coalesced B -> B !! p = Some (mk_blk o' true) -> 0 <= o <= o' ->
  exists s' B', page_prepare_used s p o = Ok (s', page_to_ptr s p) /\ same_geom s s' /\
    buddy_rel ∅ s' N B' /\ coalesced B' /\ used B' = <[p := o]> (used B).
Proof.
  intros [Hg Hwf Hl Hpg] Hco Hp Hoo'. unfold page_prepare_used.
  pose proof (wf_ord _ _ Hwf _ _ Hp) as Ho'. cbn [bord] in Ho'.
  pose proof (lists_ok_dom _ _ Hwf) as Hdom. pose proof (Hdom _ _ Hp) as Hpr.
  destruct (ord_range o' Ho') as (Es' & _). destruct (ord_range o ltac:(lia)) as (_ & Eu & _).
  rewrite (proj2 (Z.leb_le 0 o)) by lia. cbn [c_assert res_bind].
  destruct (del_page_ok ∅ s N B p o' (geom_bound _ _ Hg) Hdom Hp Ho' ltac:(set_solver) Hl Hpg)
    as (s1 & E1 & G1 & L1 & P1 & _ & M1).
  rewrite E1. cbn [res_bind]. unfold page_split, get_page. rewrite M1. cbn [deref res_bind order].
  rewrite Eu, Es'. unfold page_to_ptr.
  pose proof (wf_set_free Hwf p o' true false Hp) as Hwf1.
  destruct (Z.ltb_spec o o') as [Hlt|Hge]; cbn [res_bind].
  - rewrite (proj2 (Z.leb_le 0 o)) by lia. cbn [c_assert res_bind].
    destruct (split_loop_ok (Z.to_nat (o' - o)) s1 N (<[p := mk_blk o' false]> B) p o)
      as (s2 & B2 & E2 & G2 & [Hg2 Hwf2 Hl2 Hpg2] & C2 & P2 & U2 & M2).
    { split; [by eapply geom_same|done|done|eapply pages_weaken, P1; set_solver]. }
    { by apply coalesced_used. }
    { rewrite lookup_insert_eq. do 2 f_equal. lia. }
    { lia. }
    rewrite E2. cbn [res_bind]. rewrite M1 in M2.
    destruct (set_order_ok ∅ s2 N B2 p o _ M2) as (s3 & E3 & G3 & L3 & M3 & _).
    rewrite E3. cbn [res_bind].
    assert (Hgs : same_geom s s3) by (do 2 (eapply same_geom_trans; [done|]); done).
    rewrite (proj1 Hgs).
    exists s3, B2. split; [done|]. split; [done|]. split; [|split; [done|]].
    + split; [by eapply geom_same|done|by apply L3|].
      rewrite M3. apply pages_set; [|done| |].
      * eapply pages_weaken, Hpg2. set_solver.
      * rewrite P2. cbn. by rewrite Eu.
      * intros b. rewrite P2. by intros [= <-].
    + rewrite U2, used_insert_used, insert_insert_eq. done.
  - assert (o' = o) as -> by lia. rewrite (proj1 G1).
    exists s1, (<[p := mk_blk o false]> B). split; [done|]. split; [done|].
    split; [split; [by eapply geom_same|done|done|done]|].
    split; [by apply coalesced_used|by rewrite used_insert_used].
Qed.

(** ** Creation *)

Lemma foldl_init_list_head (os : list Z) l o :
  o ∈ os -> dlist (foldl (fun l o => init_list_head (FHead o) l) l os) (FHead o) [].
Proof.
  induction os as [|o' os IH] using rev_ind; [set_solver|]. rewrite foldl_app. cbn.
  intros Ho. destruct (decide (o = o')) as [->|Hne]; [apply dlist_init|].
  eapply dlist_frame; [apply init_same_outside|set_solver|]. apply IH. set_solver.
Qed.

Lemma foldl_insert_0 (os : list Z) (c : gmap Z Z) o :
  o ∈ os -> foldl (fun c o => <[o := 0]> c) c os !! o = Some 0.
Proof.
  induction os as [|o' os IH] using rev_ind; [set_solver|]. rewrite foldl_app. cbn.
  intros Ho. destruct (decide (o = o')) as [->|Hne]; [by rewrite lookup_insert_eq|].
  rewrite lookup_insert_ne by done. apply IH. set_solver.
Qed.

Lemma buddy_new_lists mp m : lists_of (buddy_new mp m) ∅.
Proof.
  split; [done|]. exists (fun _ => []). intros o Ho.
  assert (o ∈ orders) by (apply elem_of_seqZ; unfold MAX_ORDER in *; lia).
  split; [by apply foldl_init_list_head|].
  split; [intros p; rewrite lookup_empty; set_solver|].
  split; [by apply foldl_insert_0|]. cbn. by rewrite Z.testbit_0_l.
Qed.

Lemma lists_init_page l cnt bm B p :
  (forall o, B !! p <> Some (mk_blk o true)) -> lists_ok l cnt bm B ->
  lists_ok (init_list_head (FPage p) l) cnt bm B.
Proof.
  intros Hnf (Hbm & fl & Hfl). split; [done|]. exists fl. intros o Ho.
  destruct (Hfl o Ho) as (Hd & Hm & Hc & Ht). split; [|done].
  eapply dlist_frame; [apply init_same_outside| |done].
  intros x Hx. rewrite list_elem_of_singleton. intros ->.
  rewrite elem_of_cons, list_elem_of_fmap in Hx. destruct Hx as [[=]|(q & [= ->] & Hq)].
  apply Hm in Hq. by apply Hnf in Hq.
Qed.

Lemma wf_extend i k B :
  wf_blocks i B -> 0 <= i -> 0 <= k <= MAX_ORDER -> (2 ^ k | i) ->
  wf_blocks (i + 2 ^ k) (<[i := mk_blk k true]> B).
Proof.
  intros Hwf Hi Hk Ha. pose proof (pow2_pos k ltac:(lia)) as Hpos.
  pose proof (lists_ok_dom _ _ Hwf) as Hdom.
  assert (Hc : forall q h, covers (<[i := mk_blk k true]> B) q h ->
    (h = i /\ i <= q) \/ (q < i /\ covers B q h)).
  { intros q h (b & Hb & Hin). apply lookup_insert_Some in Hb as [[<- <-]|[_ Hb]]; [by left; cbn in *; lia|].
    right. pose proof (wf_range _ _ Hwf _ _ Hb). split; [lia|by exists b]. }
  split.
  - intros p b Hb. apply lookup_insert_Some in Hb as [[<- <-]|[_ Hb]]; [done|by eapply wf_ord].
  - intros p b Hb. apply lookup_insert_Some in Hb as [[<- <-]|[_ Hb]]; [done|by eapply wf_align].
  - intros p b Hb. apply lookup_insert_Some in Hb as [[<- <-]|[_ Hb]]; [cbn; lia|].
    pose proof (wf_range _ _ Hwf _ _ Hb). lia.
  - intros q Hq. destruct (decide (q < i)).
    + destruct (wf_cover _ _ Hwf q ltac:(lia)) as (h & b & Hb & Hin). exists h, b.
      rewrite lookup_insert_ne; [done|]. pose proof (Hdom _ _ Hb). lia.
    + exists i, (mk_blk k true). rewrite lookup_insert_eq. split; [done|cbn; lia].
  - intros q h h' [[-> ?]|[? H1]]%Hc [[-> ?]|[? H2]]%Hc; [done|lia|lia|]. by eapply (wf_disj _ _ Hwf q).
Qed.

(** The loop of [buddy_create]: the frames below [i] are partitioned into free
    blocks of order greater than [log2 cnt]. *)
Lemma buddy_fill_ok n s N i cnt B :
  0 < N < 2 ^ (MAX_ORDER + 1) -> 0 <= i -> 0 <= cnt -> i + cnt = N -> cnt <= Z.of_nat n ->
  wf_blocks i B -> lists_of s B -> pages_ok ∅ (map_ s) N B -> used B = ∅ -> coalesced B ->
  (0 < cnt -> (2 ^ (Z.log2 cnt + 1) | i)) ->
  (0 < cnt -> forall p b, B !! p = Some b -> Z.log2 cnt < bord b) ->
  exists s' B', buddy_fill n s i cnt = Ok s' /\ same_geom s s' /\ wf_blocks N B' /\
    lists_of s' B' /\ pages_ok ∅ (map_ s') N B' /\ used B' = ∅ /\ coalesced B'.
Proof.
  intros HN. assert (HN64 : 0 <= N < 2 ^ 64).
  { assert (2 ^ (MAX_ORDER + 1) <= 2 ^ 64) by (by apply Z.pow_le_mono_r). lia. }
  revert s i cnt B. induction n as [|n IH]; intros s i cnt B Hi Hc Hic Hf Hwf Hl Hpg Hu Hco Hal Hord;
    cbn [buddy_fill]; (destruct (Z.eqb_spec cnt 0) as [->|Hnz];
      [rewrite Z.add_0_r in Hic; subst i; by exists s, B|]); [lia|].
  specialize (Hal ltac:(lia)). specialize (Hord ltac:(lia)).
  rewrite buddy_fls_sizet_spec by lia. set (k := Z.log2 cnt) in *.
  assert (Hk : 0 <= k <= MAX_ORDER).
  { split; [apply Z.log2_nonneg|]. assert (k < MAX_ORDER + 1) by (apply Z.log2_lt_pow2; lia). lia. }
  pose proof (Z.log2_spec cnt ltac:(lia)) as Hlog. fold k in Hlog. rewrite Z.pow_succ_r in Hlog by lia.
  pose proof (pow2_pos k ltac:(lia)) as Hpos.
  rewrite (proj2 (Z.leb_le 0 k)) by lia. cbn [c_assert res_bind].
  rewrite (proj2 (Z.ltb_ge MAX_ORDER k)) by lia.
  destruct (ord_range k Hk) as (_ & Eu & Esh & _).
  assert (HBi : B !! i = None).
  { destruct (B !! i) as [b|] eqn:E; [|done]. pose proof (lists_ok_dom _ _ Hwf _ _ E). lia. }
  assert (Hdom : forall q b, B !! q = Some b -> 0 <= q < N)
    by (intros q b Hq; pose proof (lists_ok_dom _ _ Hwf _ _ Hq); lia).
  destruct (proj2 (proj1 Hpg i) ltac:(lia)) as [pg Epg].
  set (s0 := set_links _ s).
  destruct (set_order_ok {[i]} s0 N B i k pg Epg) as (s1 & E1 & G1 & L1 & M1 & P1).
  rewrite E1. cbn [res_bind].
  destruct (add_page_ok ∅ s1 N B i k (mk_page (u32_flags pg) (u32 k)) HN64 Hdom)
    as (s2 & E2 & G2 & L2 & P2 & _).
  { by rewrite M1, lookup_insert_eq. }
  { done. }
  { done. }
  { lia. }
  { congruence. }
  { apply L1. apply lists_init_page; [congruence|done]. }
  { eapply pages_ext; [|eapply pages_weaken, P1; [set_solver|set_solver|lia|]].
    - intros q Hq. by rewrite lookup_insert_ne by set_solver.
    - eapply pages_weaken, Hpg. set_solver. }
  rewrite E2. cbn [res_bind]. rewrite Esh. cbn [res_bind].
  assert (Hdk : (2 ^ k | i)) by (apply (divide_pow2_le _ (k + 1)); [lia|done]).
  rewrite !u64_small by lia.
  destruct (IH s2 (i + 2 ^ k) (cnt - 2 ^ k) (<[i := mk_blk k true]> B))
    as (s3 & B3 & E3 & G3 & R3); [lia|lia|lia|lia|by apply wf_extend|done|done| | | | |].
  - rewrite used_insert_free, Hu. apply delete_empty.
  - intros q j Hq Hq'.
    apply lookup_insert_Some in Hq as [[<- [= <-]]|[Hne Hq]];
      apply lookup_insert_Some in Hq' as [[E E']|[Hne' Hq']].
    + destruct (buddy_bits i k ltac:(lia) Hi Hdk) as (lo & _ & _ & _ & _ & D). lia.
    + apply Hord in Hq'. cbn in Hq'. lia.
    + injection E' as <-. apply Hord in Hq. cbn in Hq. lia.
    + by apply (Hco q j).
  - intros Hc'. assert (Z.log2 (cnt - 2 ^ k) < k) by (apply Z.log2_lt_pow2; lia).
    pose proof (Z.log2_nonneg (cnt - 2 ^ k)).
    apply (divide_pow2_le _ k); [lia|]. by apply Z.divide_add_r.
  - intros Hc' p b Hb. assert (Z.log2 (cnt - 2 ^ k) < k) by (apply Z.log2_lt_pow2; lia).
    apply lookup_insert_Some in Hb as [[_ <-]|[_ Hb]]; [done|]. apply Hord in Hb. lia.
  - exists s3, B3. split; [done|]. split; [|done].
    eapply same_geom_trans, G3. eapply same_geom_trans, G2. done.
Qed.

Lemma pages_invalid mem0 N : pages_ok ∅ (map_invalid mem0 N) N ∅.
Proof.
  unfold map_invalid.
  set (g := fun i => mk_page (u32_flags (mem0 i)) INVALID_ORDER).
  assert (Hlk : forall q, list_to_map (M := gmap Z page_t) ((fun i => (i, g i)) <$> seqZ 0 N) !! q =
    if decide (0 <= q < N) then Some (g q) else None).
  { intros q. destruct (decide (0 <= q < N)) as [Hq|Hq].
    - apply elem_of_list_to_map.
      + rewrite <- list_fmap_compose. cbn. rewrite list_fmap_id. apply NoDup_seqZ.
      + apply list_elem_of_fmap. exists q. split; [done|]. apply elem_of_seqZ. lia.
    - apply not_elem_of_list_to_map. rewrite <- list_fmap_compose. cbn. rewrite list_fmap_id.
      rewrite elem_of_seqZ. lia. }
  split.
  - intros q. rewrite Hlk. case_decide; split; intros H'; try lia; try done; by eexists.
  - intros q pg Hq _. rewrite Hlk in Hq. case_decide; [|done]. injection Hq as <-.
    rewrite lookup_empty. done.
Qed.

(** Where [buddy_create] puts the first page: after the control structure and
    one [page_t] per page, rounded up to a page boundary. *)
Definition first_page (mem size : Z) : Z :=
  up_to (mem + sizeof_buddy_system_t +
         up_to ((size - sizeof_buddy_system_t) / PAGE_SIZE * sizeof_page_t) PAGE_SIZE) PAGE_SIZE.

Lemma create_layout mem size :
  0 < mem -> sizeof_buddy_system_t <= size -> first_page mem size + PAGE_SIZE <= mem + size ->
  mem + size + PAGE_SIZE <= 2 ^ 64 ->
  forall mem0, buddy_create mem0 mem size =
    let N := (mem + size - first_page mem size) / PAGE_SIZE in
    buddy_fill (Z.to_nat N)
      (mk_buddy (links (buddy_new (N - 1) (map_invalid mem0 N)))
                (count (buddy_new (N - 1) (map_invalid mem0 N))) 0
                (first_page mem size) (N - 1) (map_invalid mem0 N)) 0 N.
Proof.
  unfold first_page, sizeof_buddy_system_t, sizeof_page_t, PAGE_SIZE.
  intros Hm Hs Hfit Hend mem0. unfold buddy_create, PAGE_SHIFT, PAGE_SIZE, sizeof_buddy_system_t.
  rewrite !(proj2 (Z.eqb_neq _ 0)) by lia. cbn [negb andb c_assert res_bind].
  rewrite (u64_small (mem + 528)), (u64_small (size - 528)) by lia.
  rewrite Z.shiftr_div_pow2 by lia. change (2 ^ 12) with 4096.
  set (pc := (size - 528) / 4096) in *.
  assert (Hpc : 0 <= pc /\ 4096 * pc <= size - 528)
    by (split; [apply Z.div_pos; lia|apply Z.mul_div_le; lia]).
  unfold sizeof_page_t. rewrite (u64_small (pc * 24)) by lia.
  change 4096 with (2 ^ 12) at 1. rewrite align_up_spec by lia. change (2 ^ 12) with 4096.
  cbn [res_bind].
  pose proof (up_to_spec (pc * 24) 4096 ltac:(lia)) as [Hu1 _].
  set (ms := up_to (pc * 24) 4096) in *.
  pose proof (up_to_spec (mem + 528 + ms) 4096 ltac:(lia)) as [Hu2 Hdiv].
  set (fp := up_to (mem + 528 + ms) 4096) in *.
  rewrite (u64_small (mem + 528 + ms)), (u64_small (size - 528 - ms)) by lia.
  change 4096 with (2 ^ 12) at 1. rewrite align_ptr_spec by lia. change (2 ^ 12) with 4096.
  fold fp. cbn [res_bind].
  rewrite (u64_small (fp - (mem + 528 + ms))) by lia.
  replace (mem + 528 + ms + (fp - (mem + 528 + ms))) with fp by lia.
  replace (size - 528 - ms - (fp - (mem + 528 + ms))) with (mem + size - fp) by lia.
  rewrite (u64_small fp), (u64_small (mem + size - fp)) by lia.
  rewrite Z.shiftr_div_pow2 by lia. change (2 ^ 12) with 4096.
  assert (Hpm : Z.land fp PAGE_MASK = 0).
  { change PAGE_MASK with (Z.ones 12). rewrite Z.land_ones by lia.
    apply Z.mod_divide; [lia|done]. }
  rewrite Hpm. cbn [Z.eqb c_assert res_bind].
  assert (1 <= (mem + size - fp) / 4096) by (apply Z.div_le_lower_bound; lia).
  assert ((mem + size - fp) / 4096 < 2 ^ 64) by (apply Z.div_lt_upper_bound; lia).
  rewrite u64_small by lia. done.
Qed.

(** ** The three entry points *)

Lemma create_ok mem0 mem size :
  0 < mem -> sizeof_buddy_system_t <= size ->
  first_page mem size + PAGE_SIZE <= mem + size -> mem + size + PAGE_SIZE <= 2 ^ 64 ->
  mem + size - first_page mem size < PAGE_SIZE * 2 ^ (MAX_ORDER + 1) ->
  exists s, buddy_create mem0 mem size = Ok s /\ buddy_ok s ∅ /\
    page_start s = first_page mem size /\
    max_pfn s + 1 = (mem + size - first_page mem size) / PAGE_SIZE /\
    page_start s + PAGE_SIZE * (max_pfn s + 1) <= mem + size.
Proof.
  intros Hm Hs Hfit Hend Hmax. rewrite create_layout by done. cbn zeta.
  set (N := (mem + size - first_page mem size) / PAGE_SIZE).
  assert (Hfp : 0 < first_page mem size /\ (PAGE_SIZE | first_page mem size)).
  { assert (0 <= (size - sizeof_buddy_system_t) / PAGE_SIZE) by (apply Z.div_pos; [lia|done]).
    pose proof (up_to_spec ((size - sizeof_buddy_system_t) / PAGE_SIZE * sizeof_page_t)
                  PAGE_SIZE ltac:(done)) as [? _].
    pose proof (up_to_spec (mem + sizeof_buddy_system_t + up_to ((size - sizeof_buddy_system_t) /
                  PAGE_SIZE * sizeof_page_t) PAGE_SIZE) PAGE_SIZE ltac:(done)) as [? ?].
    unfold first_page, sizeof_page_t, sizeof_buddy_system_t in *. split; [lia|done]. }
  assert (HN : 1 <= N) by (apply Z.div_le_lower_bound; unfold PAGE_SIZE in *; lia).
  assert (HN' : N < 2 ^ (MAX_ORDER + 1)) by (apply Z.div_lt_upper_bound; [done|lia]).
  assert (Hin : PAGE_SIZE * N <= mem + size - first_page mem size) by (by apply Z.mul_div_le).
  set (s0 := mk_buddy _ _ _ _ _ _).
  destruct (buddy_fill_ok (Z.to_nat N) s0 N 0 N ∅) as (s & B & E & G & Hwf & Hl & Hpg & Hu & Hco);
    [lia|lia|lia|lia|lia| |apply buddy_new_lists|apply pages_invalid|done|done| | |].
  - split; try (intros p b; by rewrite lookup_empty); [lia|].
    intros q p p' (b & Hb & _). by rewrite lookup_empty in Hb.
  - intros _. apply Z.divide_0_r.
  - intros _ p b. by rewrite lookup_empty.
  - destruct G as [Gs Gm]. cbn in Gs, Gm. exists s. split; [done|]. rewrite Gs, Gm.
    replace (N - 1 + 1) with N by lia. split; [|split; [done|split; [done|lia]]].
    exists B. rewrite Gm. replace (N - 1 + 1) with N by lia. split; [|done]. split; [|done..].
    unfold geom. rewrite Gs, Gm. split; [done|]. split.
    { assert (2 ^ (MAX_ORDER + 1) <= 2 ^ 52) by (by apply Z.pow_le_mono_r). lia. }
    split; [by apply Z.mod_divide, Hfp|]. unfold PAGE_SIZE in *. lia.
Qed.

Lemma alloc_page_ok s U cnt :
  buddy_ok s U -> 0 < cnt <= 2 ^ MAX_ORDER ->
  let o := Z.log2_up cnt in
  exists s' ptr, buddy_alloc_page s cnt = Ok (s', ptr) /\
    ((exists p, ptr = page_start s + PAGE_SIZE * p /\ ptr <> 0 /\ U !! p = None /\
                buddy_ok s' (<[p := o]> U) /\ same_geom s s') \/
     (ptr = 0 /\ s' = s /\
      forall p, 0 <= p -> (2 ^ o | p) -> p + 2 ^ o <= max_pfn s + 1 ->
        exists q p' o', p <= q < p + 2 ^ o /\ U !! p' = Some o' /\ p' <= q < p' + 2 ^ o')).
Proof.
  intros (B & Hrel & Hco & <-) Hc o. pose proof Hrel as [Hg Hwf Hl Hpg].
  destruct (alloc_order cnt) as [E1 E2]; [assert (2 ^ MAX_ORDER <= 2 ^ 63) by (by apply Z.pow_le_mono_r); lia|].
  unfold buddy_alloc_page. rewrite (proj2 (Z.eqb_neq cnt 0)) by lia. cbn [negb c_assert res_bind].
  rewrite E1. cbn [res_bind]. rewrite E2. fold o.
  assert (Ho : 0 <= o <= MAX_ORDER).
  { split; [apply Z.log2_up_nonneg|]. change MAX_ORDER with (Z.log2_up (2 ^ MAX_ORDER)).
    apply Z.log2_up_le_mono. lia. }
  destruct (locate_free_ok s _ B o Hrel Ho) as [(p & o' & El & Hp & Hoo')|[El Hnone]];
    rewrite El; cbn [res_bind].
  - destruct (prepare_used_ok s _ B p o o' Hrel Hco Hp ltac:(lia)) as (s' & B' & Ep & G & R & C & U').
    pose proof (lists_ok_dom _ _ Hwf _ _ Hp) as Hpr.
    destruct (page_ptr_roundtrip _ _ _ Hg Hpr) as (Eptr & _ & Hnz).
    rewrite Ep. do 2 eexists. split; [done|]. left. exists p.
    rewrite Eptr in *. split; [done|]. split; [done|]. split.
    { apply eq_None_not_Some. intros [i Hi%lookup_used]. congruence. }
    split; [|done]. exists B'. by rewrite (proj2 G).
  - do 2 eexists. split; [done|]. right. split; [done|]. split; [done|].
    intros p Hp0 Ha Hend.
    destruct (decide (Forall (fun q => Exists (fun pb => pb.2.(bfree) = true /\ pb.1 <= q < pb.1 + 2 ^ bord pb.2)
        (map_to_list B)) (seqZ p (2 ^ o)))) as [Hall|Hnot].
    + exfalso. destruct (coalesced_no_run _ B p o Hwf Hco Hp0 Ha ltac:(lia)) as (h & b & Hb & Hf & Hob).
      * intros q Hq. rewrite Forall_forall in Hall.
        specialize (Hall q ltac:(apply elem_of_seqZ; lia)).
        apply Exists_exists in Hall as ([h b] & Hin & Hf & Hr). apply elem_of_map_to_list in Hin.
        by exists h, b.
      * specialize (Hnone h b Hb Hf). lia.
    + apply not_Forall_Exists in Hnot; [|apply _]. apply Exists_exists in Hnot as (q & Hq & Hnq).
      apply elem_of_seqZ in Hq. destruct (wf_cover _ _ Hwf q ltac:(lia)) as (h & b & Hb & Hin).
      exists q, h, (bord b). split; [lia|]. split; [|done]. apply lookup_used.
      destruct b as [ob [|]]; [exfalso|done]. apply Hnq. apply Exists_exists.
      exists (h, mk_blk ob true). split; [by apply elem_of_map_to_list|done].
Qed.


Lemma blocks_disjoint s U p o :
  buddy_ok s U -> U !! p = Some o ->
  0 <= o <= MAX_ORDER /\ (2 ^ o | p) /\ 0 <= p /\ p + 2 ^ o <= max_pfn s + 1 /\
  forall p' o', U !! p' = Some o' -> p <> p' -> p + 2 ^ o <= p' \/ p' + 2 ^ o' <= p.
Proof.
  intros (B & [_ Hwf _ _] & _ & <-) Hp%lookup_used.
  pose proof (wf_ord _ _ Hwf _ _ Hp) as Ho. pose proof (wf_align _ _ Hwf _ _ Hp).
  pose proof (wf_range _ _ Hwf _ _ Hp). cbn [bord] in *. do 4 (split; [lia || done|]).
  intros p' o' Hp'%lookup_used Hne. pose proof (wf_ord _ _ Hwf _ _ Hp') as Ho'. cbn [bord] in Ho'.
  pose proof (pow2_pos o ltac:(lia)). pose proof (pow2_pos o' ltac:(lia)).
  destruct (decide (p + 2 ^ o <= p')) as [|Hn1]; [by left|].
  destruct (decide (p' + 2 ^ o' <= p)) as [|Hn2]; [by right|]. exfalso. apply Hne.
  apply (wf_disj _ _ Hwf (Z.max p p')); eexists; (split; [done|cbn [bord]; lia]).
Qed.
