(* ===== verification/BuddyTheorems.v ===== *)
(** * BuddyTheorems: what the page allocator guarantees

    The statements about mm/buddy.c that the rest of the kernel relies on, their
    witnesses on a small machine, and the limits of the code: the largest request
    and the largest memory it handles. *)

From S2P Require Import Prelude Bits ListHead Buddy BuddyBlocks BuddyProof.

(** A machine with 20 pages of memory at the kernel's load address, whose
    descriptors hold garbage. *)
Definition small_mem (_ : Z) : page_t := mk_page 7 9.

(** [buddy_create] on a region that holds its tables and at least one page:
    it returns normally (no assertion fails, nothing is undefined), the system
    it builds satisfies the allocator's invariant with no block in use, whatever
    the memory held before, its pages start at the first page boundary after the
    tables, and all of them lie inside the region. *)
Theorem buddy_create_ok mem0 mem size :
  0 < mem -> sizeof_buddy_system_t <= size ->
  first_page mem size + PAGE_SIZE <= mem + size -> mem + size + PAGE_SIZE <= 2 ^ 64 ->
  mem + size - first_page mem size < PAGE_SIZE * 2 ^ (MAX_ORDER + 1) ->
  exists s, buddy_create mem0 mem size = Ok s /\ buddy_ok s ∅ /\
    page_start s = first_page mem size /\
    max_pfn s + 1 = (mem + size - first_page mem size) / PAGE_SIZE /\
    page_start s + PAGE_SIZE * (max_pfn s + 1) <= mem + size.
Proof. apply create_ok. Qed.

Lemma buddy_create_ok_witness :
  exists s, buddy_create small_mem 0x80000000 (20 * PAGE_SIZE) = Ok s /\ buddy_ok s ∅ /\
            page_start s = 0x80002000 /\ max_pfn s + 1 = 18.
Proof.
  destruct (buddy_create_ok small_mem 0x80000000 (20 * PAGE_SIZE)) as (s & E & Hok & Hs & Hm & _);
    [done..|]. exists s. do 2 (split; [done|]). split; [exact Hs|exact Hm].
Defined.

(** The state of the small machine after [buddy_create]. *)
Lemma small_machine : exists s, buddy_create small_mem 0x80000000 (20 * PAGE_SIZE) = Ok s /\
  buddy_ok s ∅ /\ max_pfn s = 17.
Proof.
  destruct (create_ok small_mem 0x80000000 (20 * PAGE_SIZE)) as (s & E & Hok & _ & Hm & _);
    [done..|]. exists s. do 2 (split; [done|]).
  change ((0x80000000 + 20 * PAGE_SIZE - first_page 0x80000000 (20 * PAGE_SIZE)) / PAGE_SIZE)
    with 18 in Hm. lia.
Qed.

(** C1. Allocation: from a consistent state, [buddy_alloc_page] for 1 to
    [2^MAX_ORDER] pages returns normally.  Either it returns the address of a
    fresh block of the least sufficient order and the new state is consistent
    with exactly that block added to the allocated ones; or it returns NULL with
    the state unchanged, and then every aligned run of that many frames already
    intersects an allocated block, so the request could not have been served. *)
Theorem buddy_alloc_page_ok s U cnt :
  buddy_ok s U -> 0 < cnt <= 2 ^ MAX_ORDER ->
  let o := Z.log2_up cnt in
  exists s' ptr, buddy_alloc_page s cnt = Ok (s', ptr) /\
    ((exists p, ptr = page_start s + PAGE_SIZE * p /\ ptr <> 0 /\ U !! p = None /\
                buddy_ok s' (<[p := o]> U) /\ same_geom s s') \/
     (ptr = 0 /\ s' = s /\
      forall p, 0 <= p -> (2 ^ o | p) -> p + 2 ^ o <= max_pfn s + 1 ->
        exists q p' o', p <= q < p + 2 ^ o /\ U !! p' = Some o' /\ p' <= q < p' + 2 ^ o')).
Proof. apply alloc_page_ok. Qed.

Lemma buddy_alloc_page_ok_witness :
  exists s s' ptr, buddy_ok s ∅ /\ buddy_alloc_page s 3 = Ok (s', ptr).
Proof.
  destruct small_machine as (s & _ & Hok & _).
  destruct (buddy_alloc_page_ok s ∅ 3 Hok) as (s' & ptr & E & _); [done|].
  by exists s, s', ptr.
Defined.

(** C2. Freeing: for the address of an allocated block, [buddy_free_page]
    returns normally and the new state is consistent, with exactly that block
    removed from the allocated ones (and fully coalesced again, which is part of
    [buddy_ok]).  The system must have fewer than [2^(MAX_ORDER+1)] pages. *)
Theorem buddy_free_page_ok s U p o :
  buddy_ok s U -> max_pfn s + 1 < 2 ^ (MAX_ORDER + 1) -> U !! p = Some o ->
  exists s', buddy_free_page s (page_to_ptr s p) = Ok s' /\ buddy_ok s' (delete p U) /\
             same_geom s s'.
Proof. apply free_page_ok. Qed.

(** An allocated page on the small machine. *)
Lemma small_machine_alloc : exists s p, buddy_ok s {[p := 0]} /\ max_pfn s = 17.
Proof.
  destruct small_machine as (s & _ & Hok & Hm).
  destruct (alloc_page_ok s ∅ 1 Hok) as (s' & ptr & Ea & Hor); [done|].
  destruct Hor as [(p & _ & _ & _ & Hok' & G)|(_ & _ & Hn)].
  - exists s', p. split; [exact Hok'|]. by rewrite (proj2 G).
  - exfalso. destruct (Hn 0) as (q & p' & o' & _ & Hu & _);
      [done|apply Z.divide_0_r|by rewrite Hm|]. by rewrite lookup_empty in Hu.
Qed.

Lemma buddy_free_page_ok_witness :
  exists s p s', buddy_free_page s (page_to_ptr s p) = Ok s' /\ buddy_ok s' ∅.
Proof.
  destruct small_machine_alloc as (s & p & Hok & Hm).
  destruct (buddy_free_page_ok s {[p := 0]} p 0 Hok) as (s' & E & Hok' & _);
    [rewrite Hm; done|apply lookup_singleton_eq|].
  exists s, p, s'. split; [done|]. by rewrite delete_singleton_eq in Hok'.
Defined.

(** In a consistent state the allocated blocks are naturally aligned, inside
    the managed frames, and pairwise disjoint. *)
Theorem buddy_blocks_disjoint s U p o :
  buddy_ok s U -> U !! p = Some o ->
  0 <= o <= MAX_ORDER /\ (2 ^ o | p) /\ 0 <= p /\ p + 2 ^ o <= max_pfn s + 1 /\
  forall p' o', U !! p' = Some o' -> p <> p' -> p + 2 ^ o <= p' \/ p' + 2 ^ o' <= p.
Proof. apply blocks_disjoint. Qed.

Lemma buddy_blocks_disjoint_witness :
  exists s p, buddy_ok s {[p := 0]} /\ 0 <= p /\ p + 1 <= max_pfn s + 1.
Proof.
  destruct small_machine_alloc as (s & p & Hok & _).
  destruct (buddy_blocks_disjoint s {[p := 0]} p 0 Hok) as (_ & _ & H1 & H2 & _);
    [apply lookup_singleton_eq|]. by exists s, p.
Defined.

(** ** Limits *)

(** A request for more than [2^MAX_ORDER] pages is not refused: the order it
    needs indexes [page_buddy] past its end before any test is made. *)
Theorem buddy_alloc_page_too_large s cnt :
  2 ^ MAX_ORDER < cnt <= 2 ^ 63 -> buddy_alloc_page s cnt = Undef.
Proof.
  intros Hc. assert (0 < 2 ^ MAX_ORDER) by done.
  destruct (alloc_order cnt ltac:(lia)) as [E1 E2].
  unfold buddy_alloc_page. rewrite (proj2 (Z.eqb_neq cnt 0)) by lia. cbn [negb c_assert res_bind].
  rewrite E1. cbn [res_bind]. rewrite E2.
  assert (Ho : MAX_ORDER < Z.log2_up cnt).
  { apply Z.log2_up_lt_pow2; lia. }
  unfold buddy_locate_free, page_buddy.
  rewrite (proj2 (Z.leb_le 0 _)) by (unfold MAX_ORDER in *; lia).
  rewrite (proj2 (Z.leb_gt _ MAX_ORDER)) by lia. done.
Qed.

(** A state with two order-20 buddies, the first in use. *)
Definition top_state : buddy_system_t :=
  mk_buddy (__list_add (FPage (2 ^ 20)) (FHead 20) (FHead 20)
              (init_list_head (FHead 20) (mk_lheap ∅ ∅)))
           {[20 := 1]} (2 ^ 20) 0x80001000 (2 ^ 21 - 1)
           {[0 := mk_page 0 20; 2 ^ 20 := mk_page 1 20]}.

Lemma buddy_alloc_page_too_large_witness :
  buddy_alloc_page top_state (2 ^ 20 + 1) = Undef.
Proof. apply (buddy_alloc_page_too_large top_state (2 ^ 20 + 1)). done. Defined.

Lemma add_page_order_oob s p pg :
  map_ s !! p = Some pg -> MAX_ORDER < s32 (order pg) -> buddy_add_page s p = Undef.
Proof.
  intros Hp Ho. unfold buddy_add_page, set_flags, get_page. rewrite Hp. buddy_cbn.
  unfold page_buddy. rewrite (proj2 (Z.leb_gt _ MAX_ORDER)) by lia. by rewrite andb_false_r.
Qed.

Lemma del_page_map s p o l1 l2 c f :
  map_ s !! p = Some (mk_page f o) -> 0 <= o <= MAX_ORDER ->
  dlist (links s) (FHead o) (l1 ++ FPage p :: l2) -> count s !! o = Some c ->
  exists s1, buddy_del_page s p = Ok s1 /\ map_ s1 = <[p := mk_page 0 o]> (map_ s).
Proof.
  intros Hp Ho Hd Hc. destruct (ord_range o Ho) as (Es & _ & Esh & Eb).
  destruct (list_del_spec _ _ _ _ _ Hd) as (l' & El & _ & _).
  unfold buddy_del_page, set_flags, get_page, get_count. rewrite Hp. buddy_cbn.
  rewrite El. buddy_cbn. rewrite Hp. buddy_cbn. cbn [order]. rewrite Es, Eb. buddy_cbn.
  rewrite Esh. buddy_cbn. destruct (list_empty (FHead o) l'); buddy_cbn; rewrite Hc; buddy_cbn; by eexists.
Qed.

(** The loop bound [order <= MAX_ORDER] of [page_merge] lets two free buddies
    of order [MAX_ORDER] merge into a block of order [MAX_ORDER + 1], which
    [buddy_add_page] then stores past the end of [page_buddy]: freeing the first
    of two such buddies when the second is free is undefined. *)
Theorem buddy_free_page_top_order s l1 l2 c :
  map_ s !! 0 = Some (mk_page 0 MAX_ORDER) ->
  map_ s !! (2 ^ MAX_ORDER) = Some (mk_page 1 MAX_ORDER) ->
  2 ^ MAX_ORDER <= max_pfn s -> 0 < page_start s < 2 ^ 64 -> page_start s mod PAGE_SIZE = 0 ->
  dlist (links s) (FHead MAX_ORDER) (l1 ++ FPage (2 ^ MAX_ORDER) :: l2) ->
  count s !! MAX_ORDER = Some c ->
  buddy_free_page s (page_to_ptr s 0) = Undef.
Proof.
  intros H0 H1 Hmax Hps Hal Hd Hc. unfold buddy_free_page, page_to_ptr.
  rewrite Z.mul_0_r, Z.add_0_r, u64_small by lia.
  rewrite (proj2 (Z.eqb_neq _ 0)) by lia. cbn [negb c_assert res_bind].
  unfold page_from_ptr. rewrite Hal, Z.sub_diag. cbn [Z.eqb c_assert res_bind].
  change (0 / PAGE_SIZE) with 0. unfold page_free, get_page. rewrite H0. cbn [deref res_bind u32_flags].
  cbn [Z.testbit]. unfold page_merge, get_page. rewrite H0. cbn [deref res_bind order].
  change (Z.to_nat (MAX_ORDER + 1 - s32 MAX_ORDER)) with 1%nat.
  destruct (del_page_map s (2 ^ MAX_ORDER) MAX_ORDER l1 l2 c 1 H1 ltac:(done) Hd Hc) as (s1 & E1 & M1).
  cbn [page_merge_loop]. change (MAX_ORDER + 1 - Z.of_nat 1) with MAX_ORDER.
  change (shl1 MAX_ORDER) with (Ok (2 ^ MAX_ORDER)). cbn [res_bind].
  change (Z.lxor 0 (2 ^ MAX_ORDER)) with (2 ^ MAX_ORDER). unfold pfn_valid.
  rewrite (proj2 (Z.leb_le _ _) Hmax). cbn [negb].
  unfold page_free, get_page. rewrite H1. cbn [deref res_bind order u32_flags].
  change (MAX_ORDER =? u32 MAX_ORDER) with true. cbn [negb Z.testbit]. rewrite E1. cbn [res_bind].
  change (Z.lor (2 ^ MAX_ORDER) 0) with (2 ^ MAX_ORDER). change (Z.land (2 ^ MAX_ORDER) 0) with 0.
  change (Z.odd 1) with true. change (Z.odd 0) with false. cbn [negb].
  unfold set_order, get_page. rewrite M1, lookup_insert_eq. buddy_cbn.
  rewrite M1, !lookup_insert_ne, H0 by done. buddy_cbn.
  eapply add_page_order_oob; [apply lookup_insert_eq|done].
Qed.

Lemma buddy_free_page_top_order_witness :
  buddy_free_page top_state (page_to_ptr top_state 0) = Undef.
Proof.
  apply (buddy_free_page_top_order top_state [] [] 1); [done..| |done].
  apply (dlist_link _ (FHead 20) [] []); [apply dlist_init|set_solver].
Defined.

(** The "Double free!" test reads the flag of the freed page only: once the
    block has been merged into its lower buddy the flag is clear, so freeing it a
    second time is not reported but shifts by the invalid order [-1]. *)
Theorem buddy_double_free_undetected :
  (let* s := buddy_create small_mem 0x80000000 (20 * PAGE_SIZE) in
   let* '(s, p) := buddy_alloc_page s 1 in
   let* '(s, q) := buddy_alloc_page s 1 in
   let* s := buddy_free_page s p in
   let* s := buddy_free_page s q in
   buddy_free_page s q) = Undef.
Proof. vm_compute. reflexivity. Qed.
