(* ===== verification/PageAlloc.v ===== *)
(** * PageAlloc: what a page allocator promises its clients

    mm/mem_pool.c and mm/kalloc.c use the buddy system only through
    [buddy_alloc_page] and [buddy_free_page].  [PageAllocator] states what they
    rely on, in terms of the map from the address of each page run in use to its
    number of pages and of the memory region [R] the pages come from;
    [buddy_allocator] shows that mm/buddy.c provides it. *)

From S2P Require Import Prelude Bits ListHead Buddy BuddyBlocks BuddyProof.

Class PageAllocator (T : Type) := {
  alloc_pages : T -> Z -> res (T * Z);
  free_pages : T -> Z -> res T;
  pages_inv : Z * Z -> T -> gmap Z Z -> Prop;
  alloc_pages_ok R s A cnt :
    pages_inv R s A -> 0 < cnt <= 2 ^ MAX_ORDER ->
    exists s' ptr, alloc_pages s cnt = Ok (s', ptr) /\
      ((ptr = 0 /\ s' = s) \/
       exists n, cnt <= n /\ A !! ptr = None /\ pages_inv R s' (<[ptr := n]> A));
  free_pages_ok R s A ptr n :
    pages_inv R s A -> A !! ptr = Some n ->
    exists s', free_pages s ptr = Ok s' /\ pages_inv R s' (delete ptr A);
  pages_range R s A ptr n :
    pages_inv R s A -> A !! ptr = Some n ->
    0 < R.1 <= ptr /\ (PAGE_SIZE | ptr) /\ 0 < n /\ ptr + PAGE_SIZE * n <= R.2 <= 2 ^ 64;
  pages_disjoint R s A ptr n ptr' n' :
    pages_inv R s A -> A !! ptr = Some n -> A !! ptr' = Some n' -> ptr <> ptr' ->
    ptr + PAGE_SIZE * n <= ptr' \/ ptr' + PAGE_SIZE * n' <= ptr;
}.

(** ** The buddy system as a page allocator *)

Definition page_addr (start p : Z) : Z := start + PAGE_SIZE * p.

#[export] Instance page_addr_inj start : Inj (=) (=) (page_addr start).
Proof. intros p q. unfold page_addr, PAGE_SIZE. lia. Qed.

Definition addr_map (start : Z) (U : gmap Z Z) : gmap Z Z :=
  kmap (page_addr start) ((fun o => 2 ^ o) <$> U).

Lemma addr_map_Some start U ptr n :
  addr_map start U !! ptr = Some n <->
  exists p o, U !! p = Some o /\ ptr = page_addr start p /\ n = 2 ^ o.
Proof.
  unfold addr_map. rewrite (lookup_kmap_Some (page_addr start)). setoid_rewrite lookup_fmap_Some. naive_solver.
Qed.

Lemma addr_map_insert start U p o :
  addr_map start (<[p := o]> U) = <[page_addr start p := 2 ^ o]> (addr_map start U).
Proof. unfold addr_map. by rewrite fmap_insert, (kmap_insert (page_addr start)). Qed.

Lemma addr_map_delete start U p :
  addr_map start (delete p U) = delete (page_addr start p) (addr_map start U).
Proof. unfold addr_map. by rewrite fmap_delete, (kmap_delete (page_addr start)). Qed.

Definition buddy_region (s : buddy_system_t) : Z * Z :=
  (page_start s, page_start s + PAGE_SIZE * (max_pfn s + 1)).

Definition buddy_inv (R : Z * Z) (s : buddy_system_t) (A : gmap Z Z) : Prop :=
  exists U, buddy_ok s U /\ max_pfn s + 1 < 2 ^ (MAX_ORDER + 1) /\ R = buddy_region s /\
            A = addr_map (page_start s) U.

Lemma buddy_ok_geom s U : buddy_ok s U -> geom (max_pfn s + 1) s.
Proof. by intros (B & [Hg _ _ _] & _ & _). Qed.

Lemma buddy_inv_alloc R s A cnt :
  buddy_inv R s A -> 0 < cnt <= 2 ^ MAX_ORDER ->
  exists s' ptr, buddy_alloc_page s cnt = Ok (s', ptr) /\
    ((ptr = 0 /\ s' = s) \/
     exists n, cnt <= n /\ A !! ptr = None /\ buddy_inv R s' (<[ptr := n]> A)).
Proof.
  intros (U & Hok & Hmax & -> & ->) Hc.
  destruct (alloc_page_ok s U cnt Hok Hc) as (s' & ptr & E & Hor). exists s', ptr. split; [done|].
  destruct Hor as [(p & Hptr & _ & Hn & Hok' & [Gs Gm])|(-> & -> & _)]; [right|by left].
  assert (Hp : addr_map (page_start s) U !! ptr = None).
  { apply eq_None_not_Some. intros [n Hs]. apply addr_map_Some in Hs as (q & o & Hq & Hptr' & _).
    rewrite Hptr in Hptr'. apply page_addr_inj in Hptr' as ->. by rewrite Hn in Hq. }
  exists (2 ^ Z.log2_up cnt). split_and!; [|done|].
  - destruct (decide (cnt = 1)) as [->|]; [done|]. apply Z.log2_up_spec. lia.
  - eexists. unfold buddy_region. rewrite Gs, Gm. split_and!; [exact Hok'|done|done|]. by rewrite addr_map_insert, Hptr.
Qed.

Lemma buddy_inv_range R s A ptr n :
  buddy_inv R s A -> A !! ptr = Some n ->
  0 < R.1 <= ptr /\ (PAGE_SIZE | ptr) /\ 0 < n /\ ptr + PAGE_SIZE * n <= R.2 <= 2 ^ 64.
Proof.
  intros (U & Hok & Hmax & -> & ->) Hp. apply addr_map_Some in Hp as (p & o & Hp & -> & ->).
  pose proof (blocks_disjoint _ _ _ _ Hok Hp) as (Ho & _ & Hp0 & Hr & _).
  pose proof (buddy_ok_geom _ _ Hok) as (_ & _ & Hal & Hs0 & Hend). pose proof (pow2_pos o ltac:(lia)).
  unfold page_addr, buddy_region, PAGE_SIZE in *. cbn [fst snd] in *. split_and!; [lia..| |lia|lia|lia].
  apply Z.divide_add_r; [by apply Z.mod_divide|apply Z.divide_factor_l].
Qed.

Lemma buddy_inv_free R s A ptr n :
  buddy_inv R s A -> A !! ptr = Some n ->
  exists s', buddy_free_page s ptr = Ok s' /\ buddy_inv R s' (delete ptr A).
Proof.
  intros Hinv Hp. pose proof (buddy_inv_range _ _ _ _ _ Hinv Hp) as (Hpos & _ & Hn & Hend).
  destruct Hinv as (U & Hok & Hmax & -> & ->). apply addr_map_Some in Hp as (p & o & Hp & -> & ->).
  destruct (free_page_ok s U p o Hok Hmax Hp) as (s' & E & Hok' & [Gs Gm]). exists s'.
  unfold page_to_ptr in E. rewrite u64_small in E by (unfold page_addr, buddy_region, PAGE_SIZE in *; cbn [fst snd] in *; lia).
  split; [done|]. exists (delete p U). unfold buddy_region. rewrite Gs, Gm. split_and!; [done..|]. by rewrite addr_map_delete.
Qed.

Lemma buddy_inv_disjoint R s A ptr n ptr' n' :
  buddy_inv R s A -> A !! ptr = Some n -> A !! ptr' = Some n' -> ptr <> ptr' ->
  ptr + PAGE_SIZE * n <= ptr' \/ ptr' + PAGE_SIZE * n' <= ptr.
Proof.
  intros (U & Hok & Hmax & -> & ->) Hp Hp' Hne.
  apply addr_map_Some in Hp as (p & o & Hp & -> & ->), Hp' as (p' & o' & Hp' & -> & ->).
  pose proof (blocks_disjoint _ _ _ _ Hok Hp) as (_ & _ & _ & _ & Hd).
  assert (p <> p') by congruence. specialize (Hd p' o' Hp' ltac:(done)). unfold page_addr, PAGE_SIZE in *. lia.
Qed.

#[export] Instance buddy_allocator : PageAllocator buddy_system_t := {
  alloc_pages := buddy_alloc_page;
  free_pages := buddy_free_page;
  pages_inv := buddy_inv;
  alloc_pages_ok := buddy_inv_alloc;
  free_pages_ok := buddy_inv_free;
  pages_range := buddy_inv_range;
  pages_disjoint := buddy_inv_disjoint;
}.
