(* ===== verification/MemPool.v ===== *)
(** * MemPool: the small-block allocator of mm/mem_pool.c

    A pool [(i, j)] serves one block size.  Pages taken from the page allocator
    start with a header; the rest is cut into blocks whose first bytes hold the
    list node that links them into the pool's list of free blocks.  List nodes
    are the two heads of each pool and the nodes at addresses, which are the
    headers' and the free blocks'.  The page allocator is any [PageAllocator]. *)

From S2P Require Import Prelude Bits ListHead Buddy BuddyBlocks BuddyProof PageAlloc.

(** ** include/mm/mem_pool.h *)

Definition MEM_POOL_PAGE_SIZE_LOG2 : Z := 12.
Definition MEM_POOL_MIN_SIZE_LOG2 : Z := 4.
Definition MEM_POOL_MIN_SIZE : Z := 2 ^ MEM_POOL_MIN_SIZE_LOG2.
Definition MEM_POOL_ALIGN_SIZE_LOG2 : Z := 4.
Definition MEM_POOL_ALIGN_SIZE : Z := 2 * 8.
Definition MEM_POOL_S_INDEX_COUNT_LOG2 : Z := 2.
Definition MEM_POOL_S_INDEX_COUNT : Z := 2 ^ MEM_POOL_S_INDEX_COUNT_LOG2.
Definition MEM_POOL_F_INDEX_COUNT : Z := MEM_POOL_PAGE_SIZE_LOG2 - MEM_POOL_MIN_SIZE_LOG2.
Definition MEM_POOL_MAX_SIZE : Z :=
  2 ^ MEM_POOL_PAGE_SIZE_LOG2 -
  2 ^ (MEM_POOL_PAGE_SIZE_LOG2 - MEM_POOL_S_INDEX_COUNT_LOG2 - 1).

(** Two pointers for the list node, the pool and the count. *)
Definition sizeof_mem_pool_header_t : Z := 32.

Inductive mloc :=
| MPage (i j : Z)
| MFree (i j : Z)
| MAddr (a : Z).

#[export] Instance mloc_eq_dec : EqDecision mloc.
Proof. solve_decision. Defined.

#[export] Instance mloc_countable : Countable mloc.
Proof.
  refine (inj_countable'
    (fun l => match l with
              | MPage i j => inl (i, j)
              | MFree i j => inr (inl (i, j))
              | MAddr a => inr (inr a)
              end)
    (fun x => match x with
              | inl (i, j) => MPage i j
              | inr (inl (i, j)) => MFree i j
              | inr (inr a) => MAddr a
              end) _).
  by intros [].
Defined.

#[export] Instance MAddr_inj : Inj (=) (=) MAddr.
Proof. by intros ?? [= ->]. Qed.

Record mem_pool_header_t := mk_header {
  h_pool : option (Z * Z);
  free_count : Z;
}.

Record mem_pool_control_t (T : Type) := mk_control {
  system : T;
  pool_size : gmap (Z * Z) Z;
  mlinks : lheap mloc;
  headers : gmap Z mem_pool_header_t;
}.
Arguments mk_control {T} _ _ _ _.
Arguments system {T} _.
Arguments pool_size {T} _.
Arguments mlinks {T} _.
Arguments headers {T} _.

(** ** mm/mem_pool.c *)

Section ops.
Context {T : Type} `{PageAllocator T}.
Implicit Types c : mem_pool_control_t T.

Definition with_links (l : lheap mloc) c : mem_pool_control_t T :=
  mk_control (system c) (pool_size c) l (headers c).

Definition get_header c (a : Z) : res mem_pool_header_t := deref (headers c !! a).

Definition set_header c (a : Z) (h : mem_pool_header_t) : mem_pool_control_t T :=
  mk_control (system c) (pool_size c) (mlinks c) (<[a := h]> (headers c)).

(** [&control->pool[i][j]], defined inside the array. *)
Definition pool_at (i j : Z) : res (Z * Z) :=
  let* _ := defined_if ((0 <=? i) && (i <? MEM_POOL_F_INDEX_COUNT) &&
                        (0 <=? j) && (j <? MEM_POOL_S_INDEX_COUNT)) in
  Ok (i, j).

(** The loop of [mem_pool_alloc_page]: [n] blocks from index [k] on. *)
Fixpoint add_blocks (n : nat) (k block_start size : Z) (pool : Z * Z) (l : lheap mloc)
    : res (lheap mloc) :=
  match n with
  | O => Ok l
  | S n =>
      let* l := list_add_tail (MAddr (block_start + size * k)) (MFree pool.1 pool.2) l in
      add_blocks n (k + 1) block_start size pool l
  end.

Definition mem_pool_alloc_page (pool : Z * Z) c : res (mem_pool_control_t T * Z) :=
  let* '(s, ptr) := alloc_pages (system c) 1 in
  let c := mk_control s (pool_size c) (mlinks c) (headers c) in
  if ptr =? 0 then Ok (c, -1)
  else
    let c := with_links (init_list_head (MAddr ptr) (mlinks c)) c in
    let* size := deref (pool_size c !! pool) in
    let* _ := defined_if (negb (size =? 0)) in
    let count := (PAGE_SIZE - sizeof_mem_pool_header_t) / size in
    let c := set_header c ptr (mk_header (Some pool) count) in
    let block_start := ptr + sizeof_mem_pool_header_t in
    let* l := add_blocks (Z.to_nat count) 0 block_start size pool (mlinks c) in
    Ok (with_links l c, 0).

Definition mem_pool_free_page (header : Z) c : res (mem_pool_control_t T) :=
  let* _ := c_assert (negb (header =? 0)) in
  let* h := get_header c header in
  if negb (free_count h =? 0) then Ok c
  else
    let* l := list_del (MAddr header) (mlinks c) in
    let* s := free_pages (system c) header in
    Ok (mk_control s (pool_size c) l (headers c)).

(** The inner loop of [mem_pool_create], over [j]. *)
Fixpoint create_row (n : nat) (i j size inc_size : Z) c : res (mem_pool_control_t T) :=
  match n with
  | O => Ok c
  | S n =>
      let l := init_list_head (MFree i j) (init_list_head (MPage i j) (mlinks c)) in
      let sz := u64 (size + inc_size * j) in
      let c := mk_control (system c) (<[(i, j) := sz]> (pool_size c)) l (headers c) in
      let* _ := c_assert (Z.land sz (MEM_POOL_ALIGN_SIZE - 1) =? 0) in
      create_row n i (j + 1) size inc_size c
  end.

(** The outer loop, over [i]. *)
Fixpoint create_rows (n : nat) (i : Z) c : res (mem_pool_control_t T) :=
  match n with
  | O => Ok c
  | S n =>
      let size_log2 := i + MEM_POOL_MIN_SIZE_LOG2 in
      let shift := Z.min (size_log2 - MEM_POOL_ALIGN_SIZE_LOG2) MEM_POOL_S_INDEX_COUNT_LOG2 in
      let* s_index_count := shl1 shift in
      let* size := shl1 size_log2 in
      let* inc_size := shl1 (size_log2 - shift) in
      let* c := create_row (Z.to_nat s_index_count) i 0 size inc_size c in
      create_rows n (i + 1) c
  end.

Definition mem_pool_create c (s : T) : res (mem_pool_control_t T) :=
  let c := mk_control s (pool_size c) (mlinks c) (headers c) in
  create_rows (Z.to_nat MEM_POOL_F_INDEX_COUNT) 0 c.

(** The address of a node that is a block, not the head of a pool's list. *)
Definition block_of (l : mloc) : res Z :=
  match l with MAddr a => Ok a | _ => Undef end.

Definition mem_pool_locate_free c (size : Z) : res (mem_pool_control_t T * Z) :=
  let* _ := c_assert (negb (size =? 0)) in
  let size_log2 := buddy_fls_sizet size in
  let shift := Z.min (size_log2 - MEM_POOL_ALIGN_SIZE_LOG2) MEM_POOL_S_INDEX_COUNT_LOG2 in
  let f_index := size_log2 - MEM_POOL_MIN_SIZE_LOG2 in
  let* mask := shl1 shift in
  let s_index := Z.land (Z.shiftr size (size_log2 - shift)) (u64 (mask - 1)) in
  let* pool := pool_at f_index s_index in
  let head := MFree pool.1 pool.2 in
  let* '(c, ret) :=
    if list_empty head (mlinks c) then mem_pool_alloc_page pool c else Ok (c, 0) in
  if negb (ret =? 0) then Ok (c, 0)
  else
    let* block := list_last_entry head (mlinks c) in
    let* block := block_of block in
    Ok (c, block).

Definition header_from_block (block : Z) : res Z :=
  let* _ := c_assert (negb (Z.land block (PAGE_SIZE - 1) =? 0)) in
  align_down block PAGE_SIZE.

Definition mem_pool_add_block (block : Z) c : res (mem_pool_control_t T) :=
  let* _ := c_assert (negb (block =? 0)) in
  let* header := header_from_block block in
  let* h := get_header c header in
  match h_pool h with
  | None => Panic
  | Some pool =>
      let* l := list_add_tail (MAddr block) (MFree pool.1 pool.2) (mlinks c) in
      let count := u64 (free_count h + 1) in
      let c := set_header (with_links l c) header (mk_header (h_pool h) count) in
      let* _ := c_assert (count <? PAGE_SIZE / MEM_POOL_ALIGN_SIZE) in
      Ok c
  end.

Definition mem_pool_del_block (block : Z) c : res (mem_pool_control_t T) :=
  let* _ := c_assert (negb (block =? 0)) in
  let* l := list_del (MAddr block) (mlinks c) in
  let* header := header_from_block block in
  let* h := get_header c header in
  let count := u64 (free_count h - 1) in
  let c := set_header (with_links l c) header (mk_header (h_pool h) count) in
  let* _ := c_assert (count <? PAGE_SIZE / MEM_POOL_ALIGN_SIZE) in
  Ok c.

Definition mem_pool_prepare_used c (block : Z) : res (mem_pool_control_t T * Z) :=
  let* _ := c_assert (negb (block =? 0)) in
  let* c := mem_pool_del_block block c in
  Ok (c, block).

Definition mem_pool_recycle c (block : Z) : res (mem_pool_control_t T) :=
  let* _ := c_assert (negb (block =? 0)) in
  let* c := mem_pool_add_block block c in
  let* header := header_from_block block in
  let* h := get_header c header in
  if free_count h =? 0 then mem_pool_free_page header c else Ok c.

Definition adjust_request_size (size : Z) : res Z :=
  let size := if size <? MEM_POOL_MIN_SIZE then MEM_POOL_MIN_SIZE else size in
  let size_log2 := buddy_fls_sizet size in
  let shift := Z.min (size_log2 - MEM_POOL_ALIGN_SIZE_LOG2) MEM_POOL_S_INDEX_COUNT_LOG2 in
  let* align := shl1 (size_log2 - shift) in
  align_up size align.

Definition mem_pool_alloc c (size : Z) : res (mem_pool_control_t T * Z) :=
  if (size =? 0) || (MEM_POOL_MAX_SIZE <? size) then Ok (c, 0)
  else
    let* adjust := adjust_request_size size in
    let* '(c, block) := mem_pool_locate_free c adjust in
    if block =? 0 then Ok (c, 0)
    else
      let* _ := c_assert (Z.land block (MEM_POOL_ALIGN_SIZE - 1) =? 0) in
      mem_pool_prepare_used c block.

Definition mem_pool_free c (ptr : Z) : res (mem_pool_control_t T) :=
  let* _ := c_assert (negb (ptr =? 0)) in
  if ptr =? 0 then Ok c else mem_pool_recycle c ptr.
End ops.
