(* ===== verification/MemPoolProof.v ===== *)
(** * MemPoolProof: the invariant of the small-block allocator

    The ghost state of a control block is the page map [P], which gives the pool
    of each page the pools own, and the set [used] of blocks handed out.
    [pool_ok] relates them to the headers, the free lists and the page
    allocator; the lemmas below show that every operation of mm/mem_pool.c
    preserves it. *)

From S2P Require Import Prelude Bits ListHead Buddy BuddyBlocks BuddyProof PageAlloc MemPool.

Local Coercion Z.of_nat : nat >-> Z.

(** ** Size classes *)

Definition row_shift (i : Z) : Z :=
  Z.min (i + MEM_POOL_MIN_SIZE_LOG2 - MEM_POOL_ALIGN_SIZE_LOG2) MEM_POOL_S_INDEX_COUNT_LOG2.

Definition class_size (pl : Z * Z) : Z :=
  2 ^ (pl.1 + MEM_POOL_MIN_SIZE_LOG2) + 2 ^ (pl.1 + MEM_POOL_MIN_SIZE_LOG2 - row_shift pl.1) * pl.2.

Definition all_pools : list (Z * Z) :=
  i ← seqZ 0 MEM_POOL_F_INDEX_COUNT; j ← seqZ 0 (2 ^ row_shift i); [(i, j)].

(** The pool that serves a request, as the code computes it. *)
Definition pool_for (a : Z) : res (Z * Z) :=
  let size_log2 := buddy_fls_sizet a in
  let shift := Z.min (size_log2 - MEM_POOL_ALIGN_SIZE_LOG2) MEM_POOL_S_INDEX_COUNT_LOG2 in
  let* mask := shl1 shift in
  pool_at (size_log2 - MEM_POOL_MIN_SIZE_LOG2)
          (Z.land (Z.shiftr a (size_log2 - shift)) (u64 (mask - 1))).

Definition pool_of_request (size : Z) : res (Z * Z) :=
  let* a := adjust_request_size size in
  pool_for a.

(** The best fit among the classes: no class that holds the request is smaller. *)
Definition request_check (size : Z) : bool :=
  match adjust_request_size size, pool_of_request size with
  | Ok a, Ok pl =>
      bool_decide (pl ∈ all_pools) && (class_size pl =? a) && (size <=? a) && negb (a =? 0) &&
      forallb (fun pl' => (class_size pl' <? size) || (a <=? class_size pl')) all_pools
  | _, _ => false
  end.

Lemma request_checks : forallb request_check (seqZ 1 MEM_POOL_MAX_SIZE) = true.
Proof. vm_compute. reflexivity. Qed.

Lemma request_pool size :
  0 < size <= MEM_POOL_MAX_SIZE ->
  exists pl, adjust_request_size size = Ok (class_size pl) /\ pool_for (class_size pl) = Ok pl /\
    pl ∈ all_pools /\ size <= class_size pl /\
    forall pl', pl' ∈ all_pools -> size <= class_size pl' -> class_size pl <= class_size pl'.
Proof.
  intros Hs. pose proof request_checks as Hc.
  rewrite List.forallb_forall in Hc. specialize (Hc size). rewrite <- list_elem_of_In in Hc.
  rewrite elem_of_seqZ in Hc. specialize (Hc ltac:(lia)). unfold request_check in Hc.
  unfold pool_of_request in Hc. destruct (adjust_request_size size) as [a| |]; [|done..].
  cbn [res_bind] in Hc. destruct (pool_for a) as [pl| |] eqn:Epl; [|done..].
  rewrite !andb_true_iff, Z.eqb_eq, Z.leb_le, bool_decide_eq_true in Hc.
  destruct Hc as ((((Hin & <-) & Hle) & _) & Hbest). exists pl. split_and!; try done.
  intros pl' Hin' Hle'. rewrite List.forallb_forall in Hbest. specialize (Hbest pl').
  rewrite <- list_elem_of_In in Hbest. specialize (Hbest Hin').
  rewrite orb_true_iff, Z.ltb_lt, Z.leb_le in Hbest. lia.
Qed.

Definition class_check (pl : Z * Z) : bool :=
  (0 <=? pl.1) && (pl.1 <? MEM_POOL_F_INDEX_COUNT) && (0 <=? pl.2) && (pl.2 <? MEM_POOL_S_INDEX_COUNT) &&
  (MEM_POOL_MIN_SIZE <=? class_size pl) && (class_size pl <=? MEM_POOL_MAX_SIZE) &&
  (class_size pl mod 16 =? 0).

Lemma class_checks : forallb class_check all_pools = true.
Proof. vm_compute. reflexivity. Qed.

Lemma class_range pl :
  pl ∈ all_pools ->
  pool_at pl.1 pl.2 = Ok pl /\ 16 <= class_size pl <= MEM_POOL_MAX_SIZE /\ (16 | class_size pl).
Proof.
  intros Hin. pose proof class_checks as Hc. rewrite List.forallb_forall in Hc.
  specialize (Hc pl). rewrite <- list_elem_of_In in Hc. specialize (Hc Hin). unfold class_check in Hc.
  rewrite !andb_true_iff in Hc. destruct Hc as ((((((H1 & H2) & H3) & H4) & H5) & H6) & H7).
  unfold pool_at. rewrite H1, H2, H3, H4. split; [by destruct pl|].
  rewrite Z.leb_le in H5, H6. rewrite Z.eqb_eq in H7. split; [done|]. by apply Z.mod_divide.
Qed.

(** ** Blocks of a page *)

Definition nblocks (sz : Z) : Z := (PAGE_SIZE - sizeof_mem_pool_header_t) / sz.
Definition blk_at (a sz k : Z) : Z := a + sizeof_mem_pool_header_t + sz * k.
Definition block_list (a sz : Z) : list Z := blk_at a sz <$> seqZ 0 (nblocks sz).
Definition blocks_of (a : Z) (pl : Z * Z) : gset Z := list_to_set (block_list a (class_size pl)).

Lemma elem_of_block_list a sz x :
  x ∈ block_list a sz <-> exists k, 0 <= k < nblocks sz /\ x = blk_at a sz k.
Proof. unfold block_list. rewrite list_elem_of_fmap. setoid_rewrite elem_of_seqZ. naive_solver lia. Qed.

Lemma elem_of_blocks_of a pl x :
  x ∈ blocks_of a pl <-> exists k, 0 <= k < nblocks (class_size pl) /\ x = blk_at a (class_size pl) k.
Proof. unfold blocks_of. by rewrite elem_of_list_to_set, elem_of_block_list. Qed.

Lemma NoDup_block_list a sz : 0 < sz -> NoDup (block_list a sz).
Proof.
  intros Hs. apply NoDup_fmap_2_strong; [|apply NoDup_seqZ].
  intros k k' _ _. unfold blk_at. nia.
Qed.

Lemma nblocks_range sz : 16 <= sz <= MEM_POOL_MAX_SIZE -> 1 <= nblocks sz < 256.
Proof.
  unfold nblocks, PAGE_SIZE, sizeof_mem_pool_header_t. change MEM_POOL_MAX_SIZE with 3584.
  intros Hs. split; [apply Z.div_le_lower_bound; lia|]. apply Z.div_lt_upper_bound; lia.
Qed.

Lemma blk_bounds a sz k :
  0 < sz -> 0 <= k < nblocks sz -> a + 32 <= blk_at a sz k /\ blk_at a sz k + sz <= a + PAGE_SIZE.
Proof.
  unfold nblocks, blk_at, PAGE_SIZE, sizeof_mem_pool_header_t. intros Hs Hk.
  pose proof (Z.mul_div_le (4096 - 32) sz Hs). nia.
Qed.

(** A block determines its page. *)
Lemma block_page a pl x :
  (PAGE_SIZE | a) -> pl ∈ all_pools -> x ∈ blocks_of a pl ->
  a = x / PAGE_SIZE * PAGE_SIZE /\ x mod PAGE_SIZE <> 0 /\ (16 | x).
Proof.
  intros [q ->] Hpl Hx. apply elem_of_blocks_of in Hx as (k & Hk & ->).
  pose proof (class_range _ Hpl) as (_ & Hs & [r Hr]).
  destruct (blk_bounds (q * PAGE_SIZE) (class_size pl) k ltac:(lia) Hk) as [H1 H2].
  assert (Ed : blk_at (q * PAGE_SIZE) (class_size pl) k / PAGE_SIZE = q).
  { symmetry. apply Z.div_unique with (r := blk_at (q * PAGE_SIZE) (class_size pl) k - q * PAGE_SIZE);
      unfold PAGE_SIZE in *; lia. }
  rewrite Ed. split_and!; [done| |].
  - rewrite Z.mod_eq by done. rewrite Ed. unfold PAGE_SIZE in *. lia.
  - unfold blk_at, PAGE_SIZE, sizeof_mem_pool_header_t. rewrite Hr.
    exists (q * 256 + 2 + r * k). lia.
Qed.

Lemma size_blocks_of a pl : pl ∈ all_pools -> size (blocks_of a pl) = Z.to_nat (nblocks (class_size pl)).
Proof.
  intros Hpl. pose proof (class_range _ Hpl) as (_ & Hs & _).
  unfold blocks_of. rewrite size_list_to_set by (apply NoDup_block_list; lia).
  unfold block_list. by rewrite length_fmap, length_seqZ.
Qed.

(** ** The invariant *)

Section inv.
Context {T : Type} `{PageAllocator T} {R : Z * Z}.
Implicit Types (c : mem_pool_control_t T) (A : gmap Z Z) (P : gmap Z (Z * Z)) (used : gset Z).

(** [x] is a free block of pool [pl]. *)
Definition free_in P used (pl : Z * Z) (x : Z) : Prop :=
  (x ∉ used) /\ exists a, P !! a = Some pl /\ x ∈ blocks_of a pl.

Definition free_list c (pl : Z * Z) (xs : list Z) : Prop :=
  dlist (mlinks c) (MFree pl.1 pl.2) (MAddr <$> xs).

Definition header_of (a : Z) (pl : Z * Z) used : mem_pool_header_t :=
  mk_header (Some pl) (size (blocks_of a pl ∖ used)).

Record pool_ok c A P used : Prop := {
  po_sys : pages_inv R (system c) A;
  po_size pl : pl ∈ all_pools -> pool_size c !! pl = Some (class_size pl);
  po_pages a pl : P !! a = Some pl -> pl ∈ all_pools /\ is_Some (A !! a);
  po_hdr a pl : P !! a = Some pl -> headers c !! a = Some (header_of a pl used);
  po_free pl : pl ∈ all_pools -> exists xs, free_list c pl xs /\ forall x, x ∈ xs <-> free_in P used pl x;
  po_used x : x ∈ used -> exists a pl, P !! a = Some pl /\ x ∈ blocks_of a pl;
}.

Lemma po_page_range c A P used a pl :
  pool_ok c A P used -> P !! a = Some pl ->
  pl ∈ all_pools /\ 0 < R.1 <= a /\ (PAGE_SIZE | a) /\ a + PAGE_SIZE <= R.2 <= 2 ^ 64.
Proof.
  intros Hok Ha. destruct (po_pages _ _ _ _ Hok _ _ Ha) as [Hpl [n Hn]].
  pose proof (pages_range _ _ _ _ _ (po_sys _ _ _ _ Hok) Hn) as (? & ? & ? & ?).
  unfold PAGE_SIZE in *. split_and!; try done; lia.
Qed.

(** A block belongs to one page, hence to one pool. *)
Lemma po_block_unique c A P used a pl a' pl' x :
  pool_ok c A P used -> P !! a = Some pl -> P !! a' = Some pl' ->
  x ∈ blocks_of a pl -> x ∈ blocks_of a' pl' -> a = a' /\ pl = pl'.
Proof.
  intros Hok Ha Ha' Hx Hx'.
  pose proof (po_page_range _ _ _ _ _ _ Hok Ha) as (Hpl & _ & Hd & _).
  pose proof (po_page_range _ _ _ _ _ _ Hok Ha') as (Hpl' & _ & Hd' & _).
  destruct (block_page _ _ _ Hd Hpl Hx) as [E _]. destruct (block_page _ _ _ Hd' Hpl' Hx') as [E' _].
  assert (a = a') as -> by congruence. split; congruence.
Qed.

(** What the code computes from a block's address. *)
Lemma po_block c A P used a pl x :
  pool_ok c A P used -> P !! a = Some pl -> x ∈ blocks_of a pl ->
  header_from_block x = Ok a /\ x <> 0 /\ (16 | x) /\ x mod PAGE_SIZE <> 0 /\
  a + 32 <= x /\ x + class_size pl <= a + PAGE_SIZE.
Proof.
  intros Hok Ha Hx. pose proof (po_page_range _ _ _ _ _ _ Hok Ha) as (Hpl & H0 & Hd & He).
  destruct (block_page _ _ _ Hd Hpl Hx) as (E & Hm & H16).
  pose proof (class_range _ Hpl) as (_ & Hs & _).
  apply elem_of_blocks_of in Hx as (k & Hk & ->).
  destruct (blk_bounds a (class_size pl) k ltac:(lia) Hk) as [H1 H2].
  split_and!; try done; [|lia].
  unfold header_from_block. change (PAGE_SIZE - 1) with (Z.ones 12).
  rewrite Z.land_ones by lia. change (2 ^ 12) with PAGE_SIZE.
  rewrite (proj2 (Z.eqb_neq _ 0) Hm). cbn [negb c_assert res_bind].
  change PAGE_SIZE with (2 ^ 12) at 1. rewrite align_down_spec by (unfold PAGE_SIZE in *; lia).
  f_equal. change (2 ^ 12) with PAGE_SIZE. by rewrite <- E.
Qed.

Lemma free_in_disjoint c A P used pl pl' x :
  pool_ok c A P used -> free_in P used pl x -> free_in P used pl' x -> pl = pl'.
Proof.
  intros Hok (_ & a & Ha & Hx) (_ & a' & Ha' & Hx').
  by destruct (po_block_unique _ _ _ _ _ _ _ _ _ Hok Ha Ha' Hx Hx').
Qed.

Lemma MFree_pool_ne (pl pl' : Z * Z) : pl <> pl' -> MFree pl.1 pl.2 <> MFree pl'.1 pl'.2.
Proof. intros Hne [= E1 E2]. apply Hne. by destruct pl, pl'; cbn in *; subst. Qed.

Lemma MFree_not_addr (pl : Z * Z) (xs : list Z) : MFree pl.1 pl.2 ∉ MAddr <$> xs.
Proof. intros (? & ? & _)%list_elem_of_fmap. done. Qed.

Lemma elem_of_addrs x (xs : list Z) : MAddr x ∈ MAddr <$> xs <-> x ∈ xs.
Proof. apply list_elem_of_fmap_inj, _. Qed.

(** The free list of another pool survives a change to the links of one pool. *)
Lemma free_list_frame c c' pl pl' (xs ns : list Z) :
  same_outside (MFree pl.1 pl.2 :: (MAddr <$> ns)) (mlinks c) (mlinks c') ->
  pl <> pl' -> (forall x, x ∈ xs -> x ∉ ns) -> free_list c pl' xs -> free_list c' pl' xs.
Proof.
  intros Ho Hne Hdis. apply dlist_frame with (ns := MFree pl.1 pl.2 :: (MAddr <$> ns)); [done|].
  intros l Hl Hl'. apply elem_of_cons in Hl as [->|Hl], Hl' as [Hl'|Hl'].
  - by apply (MFree_pool_ne pl pl').
  - by apply MFree_not_addr in Hl'.
  - subst l. by apply MFree_not_addr in Hl.
  - apply list_elem_of_fmap in Hl as (x & -> & Hx). apply elem_of_addrs in Hl'. by apply (Hdis x).
Qed.

(** ** Growing a pool *)

Lemma add_blocks_spec (n : nat) (k start sz : Z) (pl : Z * Z) l (xs : list Z) :
  let ys := (fun k => start + sz * k) <$> seqZ k n in
  dlist l (MFree pl.1 pl.2) (MAddr <$> xs) -> NoDup (xs ++ ys) ->
  exists l', add_blocks n k start sz pl l = Ok l' /\
    dlist l' (MFree pl.1 pl.2) (MAddr <$> xs ++ ys) /\
    same_outside (MFree pl.1 pl.2 :: (MAddr <$> xs ++ ys)) l l'.
Proof.
  cbn zeta. revert k l xs. induction n as [|n IH]; intros k l xs Hd Hnd.
  { exists l. cbn. rewrite app_nil_r. eauto using same_outside_refl. }
  rewrite seqZ_cons in Hnd |- * by lia.
  replace (Z.succ k) with (k + 1) in * by lia. replace (Z.pred (S n)) with (Z.of_nat n) in * by lia.
  cbn [fmap list_fmap] in *. set (x := start + sz * k) in *. rewrite (cons_middle x xs), app_assoc in Hnd |- *.
  destruct (list_add_tail_spec _ _ _ (MAddr x) Hd) as (l1 & E1 & Hd1 & Ho1).
  { intros [|Hx]%elem_of_cons; [done|]. apply elem_of_addrs in Hx.
    rewrite <- app_assoc, NoDup_app in Hnd. destruct Hnd as (_ & Hn & _). apply (Hn x Hx). set_solver. }
  change [MAddr x] with (MAddr <$> [x]) in Hd1. rewrite <- fmap_app in Hd1.
  destruct (IH (k + 1) l1 (xs ++ [x]) Hd1 Hnd) as (l2 & E2 & Hd2 & Ho2).
  exists l2. cbn [add_blocks]. fold x. rewrite E1. cbn [res_bind]. split_and!; [done..|].
  eapply same_outside_trans, Ho2. eapply same_outside_weaken, Ho1. rewrite !fmap_app. set_solver.
Qed.

(** A page the allocator has just handed out holds no block of a pool page. *)
Lemma fresh_page_blocks c A P used ptr pl x a pl' :
  pool_ok c A P used -> A !! ptr = None -> (PAGE_SIZE | ptr) -> pl ∈ all_pools ->
  x ∈ blocks_of ptr pl -> P !! a = Some pl' -> x ∉ blocks_of a pl'.
Proof.
  intros Hok Hn Hd Hpl Hx Ha Hx'.
  destruct (po_pages _ _ _ _ Hok _ _ Ha) as [_ [m Hm]].
  pose proof (po_page_range _ _ _ _ _ _ Hok Ha) as (Hpl' & _ & Hd' & _).
  destruct (block_page _ _ _ Hd Hpl Hx) as [E _]. destruct (block_page _ _ _ Hd' Hpl' Hx') as [E' _].
  assert (ptr = a) by congruence. congruence.
Qed.

Lemma free_in_grow c A P used ptr pl pl' x :
  pool_ok c A P used -> A !! ptr = None -> (PAGE_SIZE | ptr) -> pl ∈ all_pools ->
  free_in (<[ptr := pl]> P) used pl' x <->
  free_in P used pl' x \/ (pl' = pl /\ x ∈ blocks_of ptr pl).
Proof.
  intros Hok Hn Hd Hpl.
  assert (HPn : P !! ptr = None).
  { apply eq_None_not_Some. intros [q Hq]. destruct (po_pages _ _ _ _ Hok _ _ Hq) as [_ [? ?]]. congruence. }
  split.
  - intros (Hu & a & Ha & Hx). apply lookup_insert_Some in Ha as [[<- <-]|[_ Ha]]; [by right|].
    left. by split; [|exists a].
  - intros [(Hu & a & Ha & Hx)|[-> Hx]].
    + split; [done|]. exists a. rewrite lookup_insert_ne by congruence. done.
    + split; [|exists ptr; by rewrite lookup_insert_eq].
      intros Hu. destruct (po_used _ _ _ _ Hok _ Hu) as (a & q & Ha & Hx').
      by apply (fresh_page_blocks _ _ _ _ _ _ _ _ _ Hok Hn Hd Hpl Hx Ha).
Qed.

Lemma used_fresh_page c A P used ptr pl :
  pool_ok c A P used -> A !! ptr = None -> (PAGE_SIZE | ptr) -> pl ∈ all_pools ->
  blocks_of ptr pl ∖ used = blocks_of ptr pl.
Proof.
  intros Hok Hn Hd Hpl. apply leibniz_equiv. intros x. rewrite elem_of_difference.
  split; [tauto|]. intros Hx. split; [done|]. intros Hu.
  destruct (po_used _ _ _ _ Hok _ Hu) as (a & q & Ha & Hx').
  by apply (fresh_page_blocks _ _ _ _ _ _ _ _ _ Hok Hn Hd Hpl Hx Ha).
Qed.

(** A list node at a page boundary is in no free list. *)
Lemma free_list_init c pl xs ptr :
  (forall x, x ∈ xs -> x <> ptr) -> free_list c pl xs ->
  dlist (init_list_head (MAddr ptr) (mlinks c)) (MFree pl.1 pl.2) (MAddr <$> xs).
Proof.
  intros Hx. apply dlist_frame with (ns := [MAddr ptr]); [apply init_same_outside|].
  intros l Hl Hl'. apply list_elem_of_singleton in Hl' as ->.
  apply elem_of_cons in Hl as [|Hl]; [done|]. apply elem_of_addrs in Hl. by apply (Hx ptr).
Qed.

(** The page [ptr] as the code prepares it, and the new state of pool [pl]. *)
Lemma pool_ok_grow c A P used ptr n pl s l' xs :
  pool_ok c A P used -> pl ∈ all_pools -> A !! ptr = None -> (PAGE_SIZE | ptr) ->
  pages_inv R s (<[ptr := n]> A) -> (forall x, x ∈ xs <-> free_in P used pl x) ->
  dlist l' (MFree pl.1 pl.2) (MAddr <$> xs ++ block_list ptr (class_size pl)) ->
  same_outside (MFree pl.1 pl.2 :: (MAddr <$> xs ++ block_list ptr (class_size pl)))
    (init_list_head (MAddr ptr) (mlinks c)) l' ->
  pool_ok (mk_control s (pool_size c) l' (<[ptr := mk_header (Some pl) (nblocks (class_size pl))]> (headers c)))
    (<[ptr := n]> A) (<[ptr := pl]> P) used.
Proof.
  intros Hok Hpl Hn Hd Hinv Hfree Hd' Ho'.
  pose proof (class_range _ Hpl) as (_ & Hs & _). pose proof (nblocks_range _ Hs) as Hnb.
  pose proof (fun pl' x => free_in_grow c A P used ptr pl pl' x Hok Hn Hd Hpl) as Hgrow.
  assert (Hsep : forall q x a, P !! a = Some q -> x ∈ blocks_of a q -> x ∉ block_list ptr (class_size pl)).
  { intros q x a Ha Hx Hx'. eapply (fresh_page_blocks _ _ _ _ ptr pl x _ _ Hok Hn Hd Hpl); [|done..].
    by apply elem_of_list_to_set. }
  split; cbn [system pool_size headers mlinks].
  - done.
  - apply Hok.
  - intros a q [[<- <-]|[Hne Ha]]%lookup_insert_Some.
    + rewrite lookup_insert_eq. eauto.
    + rewrite lookup_insert_ne by done. by apply Hok.
  - intros a q [[<- <-]|[Hne Ha]]%lookup_insert_Some.
    + rewrite lookup_insert_eq. unfold header_of.
      rewrite (used_fresh_page _ _ _ _ _ _ Hok Hn Hd Hpl), size_blocks_of by done.
      by rewrite Z2Nat.id by lia.
    + rewrite lookup_insert_ne by done. by apply Hok.
  - intros q Hq. destruct (decide (q = pl)) as [->|Hne].
    + exists (xs ++ block_list ptr (class_size pl)). split; [done|]. intros x.
      rewrite elem_of_app, Hfree, Hgrow. unfold blocks_of. rewrite elem_of_list_to_set. tauto.
    + destruct (po_free _ _ _ _ Hok _ Hq) as (ys & Hys & Hfy). exists ys. split.
      * apply (free_list_frame (with_links (init_list_head (MAddr ptr) (mlinks c)) c) _ pl _ _
          (xs ++ block_list ptr (class_size pl))); [done|done| |].
        -- intros x Hx%Hfy Hx'. apply elem_of_app in Hx' as [Hx'|Hx'].
           ++ apply Hne. eapply free_in_disjoint; [done..|by apply Hfree].
           ++ destruct Hx as (_ & a & Ha & Hx). by apply (Hsep q x a).
        -- apply free_list_init; [|done]. intros x (_ & a & Ha & Hx)%Hfy ->.
           apply Z.mod_divide in Hd; [|done].
           by destruct (po_block _ _ _ _ _ _ _ Hok Ha Hx) as (_ & _ & _ & Hm & _).
      * intros x. rewrite Hfy, Hgrow. naive_solver.
  - intros x Hx. destruct (po_used _ _ _ _ Hok _ Hx) as (a & q & Ha & Hx').
    destruct (po_pages _ _ _ _ Hok _ _ Ha) as [_ [m Hm]].
    exists a, q. rewrite lookup_insert_ne by congruence. done.
Qed.

Lemma mem_pool_alloc_page_ok c A P used pl :
  pool_ok c A P used -> pl ∈ all_pools ->
  exists c' ret, mem_pool_alloc_page pl c = Ok (c', ret) /\
    ((ret = -1 /\ c' = c) \/
     (ret = 0 /\ exists ptr n x, A !! ptr = None /\ free_in (<[ptr := pl]> P) used pl x /\
        pool_ok c' (<[ptr := n]> A) (<[ptr := pl]> P) used)).
Proof.
  intros Hok Hpl. unfold mem_pool_alloc_page.
  destruct (alloc_pages_ok _ _ _ 1 (po_sys _ _ _ _ Hok)) as (s & ptr & E & Hor); [done|].
  rewrite E. cbn [res_bind]. destruct Hor as [(-> & ->)|(n & _ & Hn & Hinv)].
  { exists c, (-1). split; [by destruct c|by left]. }
  destruct (pages_range _ _ _ _ _ Hinv (lookup_insert_eq _ _ _)) as (Hp0 & Hd & _ & _).
  rewrite (proj2 (Z.eqb_neq ptr 0)) by lia. cbn [with_links pool_size mlinks].
  rewrite (po_size _ _ _ _ Hok _ Hpl). cbn [deref res_bind].
  pose proof (class_range _ Hpl) as (_ & Hs & _). pose proof (nblocks_range _ Hs) as Hnb.
  rewrite (proj2 (Z.eqb_neq (class_size pl) 0)) by lia. cbn [negb defined_if res_bind].
  unfold set_header. cbn [mlinks with_links system pool_size headers].
  destruct (po_free _ _ _ _ Hok _ Hpl) as (xs & Hxs & Hfree). fold (nblocks (class_size pl)).
  pose proof (add_blocks_spec (Z.to_nat (nblocks (class_size pl))) 0 (ptr + sizeof_mem_pool_header_t)
    (class_size pl) pl (init_list_head (MAddr ptr) (mlinks c)) xs) as Hadd.
  rewrite Z2Nat.id in Hadd by lia.
  change ((λ k : Z, ptr + sizeof_mem_pool_header_t + class_size pl * k) <$> seqZ 0 (nblocks (class_size pl)))
    with (block_list ptr (class_size pl)) in Hadd.
  destruct Hadd as (l' & E' & Hd' & Ho').
  { apply free_list_init; [|done]. intros x (_ & a & Ha & Hx)%Hfree ->. apply Z.mod_divide in Hd; [|done].
    by destruct (po_block _ _ _ _ _ _ _ Hok Ha Hx) as (_ & _ & _ & Hm & _). }
  { apply NoDup_app. split_and!.
    - apply dlist_NoDup, NoDup_cons in Hxs as [_ Hnd]. by apply NoDup_fmap_1 in Hnd.
    - intros x (_ & a & Ha & Hx)%Hfree Hx'.
      eapply (fresh_page_blocks _ _ _ _ ptr pl x _ _ Hok Hn Hd Hpl); [|done..]. by apply elem_of_list_to_set.
    - apply NoDup_block_list. lia. }
  rewrite E'. cbn [res_bind with_links system pool_size headers]. eexists _, 0. split; [done|]. right. split; [done|].
  exists ptr, n, (blk_at ptr (class_size pl) 0). split; [done|]. split.
  - apply (free_in_grow c A); [done..|]. right. split; [done|]. apply elem_of_blocks_of. exists 0. split; [lia|done].
  - by eapply (pool_ok_grow c A P used ptr n pl s l' xs).
Qed.

(** ** Moving a block between the free list and the used set *)

(** Changing the use of block [x] of page [a]: the headers of the other pages and
    the lists of the other pools are not concerned. *)
Lemma pool_ok_change c A P used used' a pl x zs xs l' :
  pool_ok c A P used -> (forall y, y ∈ zs <-> free_in P used pl y) -> P !! a = Some pl -> x ∈ blocks_of a pl ->
  (forall y, y <> x -> y ∈ used' <-> y ∈ used) ->
  dlist l' (MFree pl.1 pl.2) (MAddr <$> xs) ->
  (forall y, y ∈ xs <-> free_in P used' pl y) ->
  same_outside (MFree pl.1 pl.2 :: (MAddr <$> x :: zs)) (mlinks c) l' ->
  pool_ok (set_header (with_links l' c) a (header_of a pl used')) A P used'.
Proof.
  intros Hok Hfz Ha Hx Hu Hd Hxs Ho.
  assert (Hother : forall a' q y, P !! a' = Some q -> y ∈ blocks_of a' q -> a' <> a -> y <> x).
  { intros a' q y Ha' Hy Hne ->. by destruct (po_block_unique _ _ _ _ _ _ _ _ _ Hok Ha Ha' Hx Hy). }
  split; cbn [set_header with_links system pool_size headers mlinks].
  - apply Hok.
  - apply Hok.
  - apply Hok.
  - intros a' q Ha'. destruct (decide (a' = a)) as [->|Hne].
    + rewrite Ha in Ha'. injection Ha' as <-. by rewrite lookup_insert_eq.
    + rewrite lookup_insert_ne by done. rewrite (po_hdr _ _ _ _ Hok _ _ Ha').
      unfold header_of. do 4 f_equal. apply leibniz_equiv. intros y. rewrite !elem_of_difference.
      split; intros [Hy Hn]; (split; [done|]); by rewrite (Hu y (Hother _ _ _ Ha' Hy Hne)) in *.
  - intros q Hq. destruct (decide (q = pl)) as [->|Hne]; [by exists xs|].
    destruct (po_free _ _ _ _ Hok _ Hq) as (ys & Hys & Hfy).
    assert (Hyx : forall y, free_in P used q y -> y <> x).
    { intros y (_ & a' & Ha' & Hy) ->. by destruct (po_block_unique _ _ _ _ _ _ _ _ _ Hok Ha Ha' Hx Hy). }
    exists ys. split.
    + apply (free_list_frame c _ pl _ _ (x :: zs)); [done|done| |done].
      intros y Hy%Hfy Hy'. apply elem_of_cons in Hy' as [->|Hy']; [by apply (Hyx x)|].
      apply Hne. eapply free_in_disjoint; [done..|by apply Hfz].
    + intros y. rewrite Hfy. split; intros Hf; pose proof Hf as (Hn & a' & Ha' & Hy); (split; [|by exists a']).
      * rewrite Hu; [done|]. by apply Hyx.
      * rewrite <- Hu; [done|]. eapply Hother; [done..|]. intros ->. congruence.
  - intros y Hy. destruct (decide (y = x)) as [->|Hne]; [by exists a, pl|].
    apply Hok. by apply Hu.
Qed.

Lemma size_take_one (X U : gset Z) x :
  x ∈ X -> x ∉ U -> Z.of_nat (size (X ∖ ({[x]} ∪ U))) = size (X ∖ U) - 1 /\ 0 < Z.of_nat (size (X ∖ U)).
Proof.
  intros Hx HU. assert (Hs : {[x]} ⊆ X ∖ U) by set_solver.
  replace (X ∖ ({[x]} ∪ U)) with (X ∖ U ∖ {[x]}) by set_solver.
  rewrite size_difference, size_singleton by done.
  apply subseteq_size in Hs. rewrite size_singleton in Hs. lia.
Qed.

Lemma header_count_bound c A P used a pl :
  pool_ok c A P used -> P !! a = Some pl -> 0 <= Z.of_nat (size (blocks_of a pl ∖ used)) < 256.
Proof.
  intros Hok Ha. destruct (po_pages _ _ _ _ Hok _ _ Ha) as [Hpl _].
  pose proof (class_range _ Hpl) as (_ & Hs & _). pose proof (nblocks_range _ Hs).
  assert (blocks_of a pl ∖ used ⊆ blocks_of a pl) as Hsub by set_solver.
  apply subseteq_size in Hsub. rewrite size_blocks_of in Hsub by done. lia.
Qed.

Lemma mem_pool_del_block_ok c A P used pl x :
  pool_ok c A P used -> free_in P used pl x ->
  exists c', mem_pool_del_block x c = Ok c' /\ pool_ok c' A P ({[x]} ∪ used).
Proof.
  intros Hok Hf. pose proof Hf as (Hu & a & Ha & Hx).
  destruct (po_pages _ _ _ _ Hok _ _ Ha) as [Hpl _].
  destruct (po_free _ _ _ _ Hok _ Hpl) as (xs & Hxs & Hfree).
  apply Hfree in Hf. apply list_elem_of_split in Hf as (l1 & l2 & ->).
  unfold free_list in Hxs. rewrite fmap_app, fmap_cons in Hxs.
  destruct (list_del_spec _ _ _ _ _ Hxs) as (l' & El & Hd & Ho).
  destruct (po_block _ _ _ _ _ _ _ Hok Ha Hx) as (Eh & Hx0 & _).
  unfold mem_pool_del_block. rewrite (proj2 (Z.eqb_neq x 0) Hx0). cbn [negb c_assert res_bind].
  rewrite El. cbn [res_bind]. rewrite Eh. cbn [res_bind]. unfold get_header.
  rewrite (po_hdr _ _ _ _ Hok _ _ Ha). cbn [deref res_bind header_of free_count h_pool].
  destruct (size_take_one (blocks_of a pl) used x Hx Hu) as [Es Hpos].
  pose proof (header_count_bound _ _ _ _ _ _ Hok Ha).
  rewrite <- Es, u64_small by lia. rewrite (proj2 (Z.ltb_lt _ _)) by (change (PAGE_SIZE / _) with 256; lia).
  cbn [c_assert res_bind]. eexists. split; [done|].
  assert (Hnx : NoDup (l1 ++ x :: l2)).
  { apply dlist_NoDup, NoDup_cons in Hxs as [_ Hnd]. rewrite <- fmap_cons, <- fmap_app in Hnd.
    by apply NoDup_fmap_1 in Hnd. }
  rewrite <- (Permutation_middle l1 l2 x), NoDup_cons in Hnx. destruct Hnx as [Hnx _].
  apply (pool_ok_change c A P used _ a pl x (l1 ++ x :: l2) (l1 ++ l2)); [done..| | | |].
  - intros y Hy. rewrite elem_of_union, elem_of_singleton. tauto.
  - by rewrite fmap_app.
  - intros y. rewrite elem_of_app. unfold free_in. rewrite elem_of_union, elem_of_singleton.
    specialize (Hfree y). unfold free_in in Hfree. rewrite elem_of_app, elem_of_cons in Hfree.
    destruct (decide (y = x)) as [->|]; [|tauto]. rewrite elem_of_app in Hnx. tauto.
  - eapply same_outside_weaken, Ho. rewrite fmap_cons, fmap_app, fmap_cons. intros y. rewrite !elem_of_cons, !elem_of_app, !elem_of_cons. tauto.
Qed.

Lemma mem_pool_add_block_ok c A P used x :
  pool_ok c A P used -> x ∈ used ->
  exists c' a pl, mem_pool_add_block x c = Ok c' /\ pool_ok c' A P (used ∖ {[x]}) /\
    P !! a = Some pl /\ header_from_block x = Ok a /\
    exists h, headers c' !! a = Some h /\ 0 < free_count h.
Proof.
  intros Hok Hu. destruct (po_used _ _ _ _ Hok _ Hu) as (a & pl & Ha & Hx).
  destruct (po_pages _ _ _ _ Hok _ _ Ha) as [Hpl _].
  destruct (po_free _ _ _ _ Hok _ Hpl) as (xs & Hxs & Hfree).
  assert (Hnx : x ∉ xs) by (intros [? _]%Hfree; done).
  destruct (list_add_tail_spec _ _ _ (MAddr x) Hxs) as (l' & El & Hd & Ho).
  { intros [|Hx']%elem_of_cons; [done|]. by apply elem_of_addrs in Hx'. }
  destruct (po_block _ _ _ _ _ _ _ Hok Ha Hx) as (Eh & Hx0 & _).
  unfold mem_pool_add_block. rewrite (proj2 (Z.eqb_neq x 0) Hx0). cbn [negb c_assert res_bind].
  rewrite Eh. cbn [res_bind]. unfold get_header.
  rewrite (po_hdr _ _ _ _ Hok _ _ Ha). cbn [deref res_bind header_of free_count h_pool].
  rewrite El. cbn [res_bind].
  destruct (size_take_one (blocks_of a pl) (used ∖ {[x]}) x Hx) as [Es Hpos];
    [rewrite elem_of_difference, elem_of_singleton; tauto|].
  rewrite <- union_difference_singleton_L in Es by done.
  assert (Hok' : pool_ok (set_header (with_links l' c) a (header_of a pl (used ∖ {[x]}))) A P (used ∖ {[x]})).
  { apply (pool_ok_change c A P used _ a pl x xs (xs ++ [x])); [done..| | | |].
    - intros y Hy. rewrite elem_of_difference, elem_of_singleton. tauto.
    - by rewrite fmap_app.
    - intros y. rewrite elem_of_app, list_elem_of_singleton, Hfree. unfold free_in.
      rewrite elem_of_difference, elem_of_singleton. destruct (decide (y = x)) as [->|]; [|tauto].
      split; [|tauto]. intros _. split; [tauto|by exists a].
    - eapply same_outside_weaken, Ho. rewrite fmap_cons. intros y. rewrite !elem_of_cons. tauto. }
  pose proof (header_count_bound _ _ _ _ _ _ Hok' Ha).
  rewrite Es, Z.sub_add, u64_small by lia.
  rewrite (proj2 (Z.ltb_lt _ _)) by (change (PAGE_SIZE / _) with 256; lia).
  cbn [c_assert res_bind]. eexists _, a, pl. split_and!; [done..|].
  cbn. rewrite lookup_insert_eq. by eexists.
Qed.

(** ** The operations of mem_pool.c *)

Lemma locate_free_unfold c a :
  mem_pool_locate_free c a =
  let* _ := c_assert (negb (a =? 0)) in
  let* pool := pool_for a in
  let head := MFree pool.1 pool.2 in
  let* '(c, ret) :=
    if list_empty head (mlinks c) then mem_pool_alloc_page pool c else Ok (c, 0) in
  if negb (ret =? 0) then Ok (c, 0)
  else
    let* block := list_last_entry head (mlinks c) in
    let* block := block_of block in
    Ok (c, block).
Proof. unfold mem_pool_locate_free, pool_for. by rewrite res_bind_assoc. Qed.

(** The last entry of a free list that is not empty. *)
Lemma last_entry_free c A P used pl :
  pool_ok c A P used -> pl ∈ all_pools -> (exists x, free_in P used pl x) ->
  exists x, list_last_entry (MFree pl.1 pl.2) (mlinks c) = Ok (MAddr x) /\ free_in P used pl x.
Proof.
  intros Hok Hpl [y Hy]. destruct (po_free _ _ _ _ Hok _ Hpl) as (xs & Hxs & Hfree).
  apply Hfree in Hy. destruct xs as [|x xs _] using rev_ind; [by apply elem_of_nil in Hy|].
  exists x. split; [|apply Hfree, elem_of_app; right; by apply list_elem_of_singleton].
  unfold list_last_entry, get_prev. rewrite (dlist_last _ _ _ Hxs).
  rewrite fmap_app. cbn [fmap list_fmap]. by rewrite last_of_snoc.
Qed.

(** Pages of other owners are left alone. *)
Definition grows A P A' P' : Prop :=
  (A' = A /\ P' = P) \/
  exists ptr n pl, A !! ptr = None /\ A' = <[ptr := n]> A /\ P' = <[ptr := pl]> P.

Lemma pool_locate_free_ok c A P used pl :
  pool_ok c A P used -> pl ∈ all_pools -> pool_for (class_size pl) = Ok pl ->
  exists c' x, mem_pool_locate_free c (class_size pl) = Ok (c', x) /\
    ((x = 0 /\ c' = c) \/
     exists A' P', grows A P A' P' /\ pool_ok c' A' P' used /\ free_in P' used pl x).
Proof.
  intros Hok Hpl Epl. rewrite locate_free_unfold. pose proof (class_range _ Hpl) as (_ & Hs & _).
  rewrite (proj2 (Z.eqb_neq _ 0)) by lia. cbn [negb c_assert res_bind]. rewrite Epl. cbn [res_bind].
  destruct (po_free _ _ _ _ Hok _ Hpl) as (xs & Hxs & Hfree).
  rewrite (list_empty_spec _ _ _ Hxs). destruct (decide (MAddr <$> xs = [])) as [E|Hne].
  - rewrite bool_decide_true by done.
    destruct (mem_pool_alloc_page_ok c A P used pl Hok Hpl) as (c' & ret & Ec & Hor). rewrite Ec. cbn [res_bind].
    destruct Hor as [[-> ->]|[-> (ptr & n & x & Hn & Hf & Hok')]]; cbn [Z.eqb negb].
    + exists c, 0. split; [done|by left].
    + destruct (last_entry_free _ _ _ _ _ Hok' Hpl (ex_intro _ x Hf)) as (y & Ey & Hy).
      rewrite Ey. cbn [res_bind block_of]. exists c', y. split; [done|]. right.
      eexists _, _. split_and!; [|done..]. right. by exists ptr, n, pl.
  - rewrite bool_decide_false by done. cbn [res_bind Z.eqb negb].
    destruct (last_entry_free _ _ _ _ _ Hok Hpl) as (y & Ey & Hy).
    { destruct xs as [|x xs]; [done|]. exists x. apply Hfree. by left. }
    rewrite Ey. cbn [res_bind block_of]. exists c, y. split; [done|]. right.
    exists A, P. split_and!; [by left|done..].
Qed.

(** The class a request is served from: the smallest block size that holds it. *)
Definition best_class (size n : Z) : Prop :=
  size <= n /\ exists pl, pl ∈ all_pools /\ n = class_size pl /\
  forall pl', pl' ∈ all_pools -> size <= class_size pl' -> n <= class_size pl'.

Lemma pool_alloc_ok c A P used size :
  pool_ok c A P used -> 0 < size <= MEM_POOL_MAX_SIZE ->
  exists c' x, mem_pool_alloc c size = Ok (c', x) /\
    ((x = 0 /\ c' = c) \/
     exists A' P' pl, grows A P A' P' /\ pool_ok c' A' P' ({[x]} ∪ used) /\
       best_class size (class_size pl) /\ free_in P' used pl x).
Proof.
  intros Hok Hsz. unfold mem_pool_alloc.
  rewrite (proj2 (Z.eqb_neq size 0)), (proj2 (Z.ltb_ge _ _)) by lia. cbn [orb].
  destruct (request_pool size Hsz) as (pl & Ea & Epl & Hpl & Hle & Hbest). rewrite Ea. cbn [res_bind].
  destruct (pool_locate_free_ok c A P used pl Hok Hpl Epl) as (c' & x & E & Hor). rewrite E. cbn [res_bind].
  destruct Hor as [[-> ->]|(A' & P' & Hg & Hok' & Hf)]; [exists c, 0; split; [done|by left]|].
  pose proof Hf as (_ & a & Ha & Hx).
  destruct (po_block _ _ _ _ _ _ _ Hok' Ha Hx) as (_ & Hx0 & [q H16] & _).
  rewrite (proj2 (Z.eqb_neq x 0) Hx0). change (MEM_POOL_ALIGN_SIZE - 1) with (Z.ones 4).
  rewrite Z.land_ones by lia. change (2 ^ 4) with 16. rewrite H16, Z_mod_mult, <- H16. cbn [Z.eqb c_assert res_bind].
  unfold mem_pool_prepare_used. rewrite (proj2 (Z.eqb_neq x 0) Hx0). cbn [negb c_assert res_bind].
  destruct (mem_pool_del_block_ok c' A' P' used pl x Hok' Hf) as (c2 & E2 & Hok2). rewrite E2. cbn [res_bind].
  exists c2, x. split; [done|]. right. exists A', P', pl. split_and!; [done..| |done].
  split; [done|]. by exists pl.
Qed.

(** A freed block goes back to its pool; its page is never given back, since its
    count of free blocks has just become positive. *)
Lemma pool_free_ok c A P used x :
  pool_ok c A P used -> x ∈ used ->
  exists c', mem_pool_free c x = Ok c' /\ pool_ok c' A P (used ∖ {[x]}).
Proof.
  intros Hok Hu. destruct (mem_pool_add_block_ok c A P used x Hok Hu) as (c' & a & pl & E & Hok' & Ha & Eh & h & Hh & Hpos).
  destruct (po_used _ _ _ _ Hok _ Hu) as (a' & pl' & Ha' & Hx).
  destruct (po_block _ _ _ _ _ _ _ Hok Ha' Hx) as (_ & Hx0 & _).
  unfold mem_pool_free, mem_pool_recycle. rewrite (proj2 (Z.eqb_neq x 0) Hx0). cbn [negb c_assert res_bind].
  rewrite E. cbn [res_bind]. rewrite Eh. cbn [res_bind]. unfold get_header. rewrite Hh. cbn [deref res_bind].
  rewrite (proj2 (Z.eqb_neq _ 0)) by lia. by exists c'.
Qed.

(** ** mem_pool_create *)

Definition ready c (pl : Z * Z) : Prop :=
  pool_size c !! pl = Some (class_size pl) /\ free_list c pl [].

Lemma elem_of_all_pools i j :
  (i, j) ∈ all_pools <-> 0 <= i < MEM_POOL_F_INDEX_COUNT /\ 0 <= j < 2 ^ row_shift i.
Proof.
  unfold all_pools. rewrite list_elem_of_bind. setoid_rewrite list_elem_of_bind.
  setoid_rewrite elem_of_seqZ. setoid_rewrite list_elem_of_singleton. split.
  - intros (i' & (j' & [= <- <-] & Hj) & Hi). lia.
  - intros [Hi Hj]. exists i. split; [exists j; split; [done|]|]; lia.
Qed.

Lemma create_row_ok (n : nat) i j c :
  0 <= j -> (forall j', 0 <= j' < j + n -> (i, j') ∈ all_pools) ->
  exists c', create_row n i j (2 ^ (i + 4)) (2 ^ (i + 4 - row_shift i)) c = Ok c' /\
    system c' = system c /\ (forall pl, ready c pl -> ready c' pl) /\
    (forall j', j <= j' < j + n -> ready c' (i, j')).
Proof.
  revert j c. induction n as [|n IH]; intros j c Hj Hin.
  { exists c. split_and!; [done..|]. intros. lia. }
  cbn [create_row].
  pose proof (class_range (i, j) (Hin j ltac:(lia))) as (_ & Hs & [q Hq]).
  change (2 ^ (i + 4) + 2 ^ (i + 4 - row_shift i) * j) with (class_size (i, j)).
  rewrite u64_small by (change MEM_POOL_MAX_SIZE with 3584 in Hs; lia).
  change (MEM_POOL_ALIGN_SIZE - 1) with (Z.ones 4). rewrite Z.land_ones by lia. change (2 ^ 4) with 16.
  rewrite Hq, Z_mod_mult, <- Hq. cbn [Z.eqb c_assert res_bind].
  set (c1 := mk_control _ _ _ _).
  destruct (IH (j + 1) c1) as (c' & E & Hsys & Hkeep & Hnew); [lia|intros; apply Hin; lia|].
  assert (Hnow : ready c1 (i, j)).
  { split; [apply lookup_insert_eq|]. apply dlist_init. }
  assert (Hold : forall pl, ready c pl -> ready c1 pl).
  { intros pl [H1 H2]. destruct (decide (pl = (i, j))) as [->|Hne]; [done|]. split.
    - cbn. by rewrite lookup_insert_ne.
    - unfold free_list in *. cbn in H2 |- *.
      eapply dlist_frame; [apply init_same_outside| |eapply dlist_frame; [apply init_same_outside| |exact H2]].
      + intros l Hl%list_elem_of_singleton Hl'%list_elem_of_singleton. subst.
        by apply (MFree_pool_ne pl (i, j)) in Hl'.
      + intros l Hl%list_elem_of_singleton Hl'%list_elem_of_singleton. by subst. }
  exists c'. split_and!; [done..| |].
  - intros pl Hpl. by apply Hkeep, Hold.
  - intros j' Hj'. destruct (decide (j' = j)) as [->|]; [by apply Hkeep|]. apply Hnew. lia.
Qed.

Lemma create_rows_ok (n : nat) i c :
  0 <= i -> i + n <= MEM_POOL_F_INDEX_COUNT ->
  exists c', create_rows n i c = Ok c' /\ system c' = system c /\
    (forall pl, ready c pl -> ready c' pl) /\
    (forall pl, pl ∈ all_pools -> i <= pl.1 < i + n -> ready c' pl).
Proof.
  revert i c. induction n as [|n IH]; intros i c Hi Hn.
  { exists c. split_and!; [done..|]. intros. lia. }
  cbn [create_rows]. change (Z.min _ _) with (row_shift i).
  change MEM_POOL_F_INDEX_COUNT with 8 in *. change MEM_POOL_MIN_SIZE_LOG2 with 4.
  assert (Hsh : 0 <= row_shift i <= 2 /\ row_shift i <= i).
  { unfold row_shift, MEM_POOL_MIN_SIZE_LOG2, MEM_POOL_ALIGN_SIZE_LOG2, MEM_POOL_S_INDEX_COUNT_LOG2. lia. }
  rewrite !shl1_ok by lia. cbn [res_bind]. pose proof (Z.pow_pos_nonneg 2 (row_shift i)).
  destruct (create_row_ok (Z.to_nat (2 ^ row_shift i)) i 0 c) as (c1 & E1 & Hs1 & Hk1 & Hn1);
    [done|intros; apply elem_of_all_pools; change MEM_POOL_F_INDEX_COUNT with 8; lia|].
  rewrite E1. cbn [res_bind].
  destruct (IH (i + 1) c1 ltac:(lia) ltac:(lia)) as (c' & E & Hs & Hk & Hr).
  exists c'. split_and!; [done|congruence|auto|].
  intros [i' j'] Hin Hi'. cbn in Hi'. destruct (decide (i' = i)) as [->|].
  - apply Hk, Hn1. apply elem_of_all_pools in Hin as [_ ?]. lia.
  - apply Hr; [done|]. cbn. lia.
Qed.

Lemma pool_create_ok c s A :
  pages_inv R s A -> exists c', mem_pool_create c s = Ok c' /\ pool_ok c' A ∅ ∅.
Proof.
  intros Hinv. unfold mem_pool_create.
  destruct (create_rows_ok (Z.to_nat MEM_POOL_F_INDEX_COUNT) 0
              (mk_control s (pool_size c) (mlinks c) (headers c))) as (c' & E & Hs & _ & Hr); [done..|].
  exists c'. split; [exact E|]. clear E.
  assert (Hrd : forall pl, pl ∈ all_pools -> ready c' pl).
  { intros [i j] Hin. apply Hr; [done|]. apply elem_of_all_pools in Hin as [? _]. done. }
  split.
  - by rewrite Hs.
  - intros pl Hpl. by apply Hrd.
  - intros a pl Ha. rewrite lookup_empty in Ha. discriminate.
  - intros a pl Ha. rewrite lookup_empty in Ha. discriminate.
  - intros pl Hpl. exists []. split; [by apply Hrd|]. intros x. split; [by intros ?%elem_of_nil|].
    intros (_ & a & Ha & _). rewrite lookup_empty in Ha. discriminate.
  - intros x Hx. by apply elem_of_empty in Hx.
Qed.
End inv.
Arguments pool_ok {T _} R c A P used.
