(* ===== verification/Kalloc.v ===== *)
(** * Kalloc: malloc, calloc, realloc, free of mm/kalloc.c and strdup

    The file's two globals point at one buddy system, which [control->system]
    shares: the state is the pool control block, whose [system] field is that
    object, and the bytes of memory.  The list nodes and headers the allocator
    keeps inside pages are held in the typed maps of the control block and the
    callers' bytes in [kbytes]; [heap_ok] includes that the two never overlap. *)

From S2P Require Import Prelude Bits ListHead CMem Buddy BuddyBlocks BuddyProof PageAlloc MemPool MemPoolProof.

Definition PAGE_SHIFT : Z := 12.

Record kmem (T : Type) := mk_kmem {
  control : mem_pool_control_t T;
  kbytes : cmem;
}.
Arguments mk_kmem {T} _ _.
Arguments control {T} _.
Arguments kbytes {T} _.

Section ops.
Context {T : Type} `{PageAllocator T}.
Implicit Types k : kmem T.

Definition with_control k (c : mem_pool_control_t T) : kmem T := mk_kmem c (kbytes k).

Definition alloc_page k (count : Z) : res (kmem T * Z) :=
  let c := control k in
  let* '(s, ptr) := alloc_pages (system c) count in
  Ok (with_control k (mk_control s (pool_size c) (mlinks c) (headers c)), ptr).

Definition free_page k (ptr : Z) : res (kmem T) :=
  let c := control k in
  let* s := free_pages (system c) ptr in
  Ok (with_control k (mk_control s (pool_size c) (mlinks c) (headers c))).

Definition malloc k (size : Z) : res (kmem T * Z) :=
  if MEM_POOL_MAX_SIZE <? size then
    let* a := align_up size PAGE_SIZE in
    alloc_page k (Z.shiftr a PAGE_SHIFT)
  else
    let* '(c, ptr) := mem_pool_alloc (control k) size in
    Ok (with_control k c, ptr).

Definition calloc k (nmemb size : Z) : res (kmem T * Z) :=
  let n := u64 (nmemb * size) in
  let* '(k, ptr) := malloc k n in
  if negb (ptr =? 0) then
    let* m := memset (kbytes k) ptr 0 n in
    Ok (mk_kmem (control k) m, ptr)
  else Ok (k, ptr).

Definition free k (ptr : Z) : res (kmem T) :=
  if Z.land ptr (PAGE_SIZE - 1) =? 0 then free_page k ptr
  else
    let* c := mem_pool_free (control k) ptr in
    Ok (with_control k c).

Definition realloc k (old size : Z) : res (kmem T * Z) :=
  let* '(k, new) := malloc k size in
  if negb (new =? 0) then
    let* m := memcpy (kbytes k) new old size in
    let* k := free (mk_kmem (control k) m) old in
    Ok (k, new)
  else Ok (k, new).

Definition strdup k (s : Z) : res (kmem T * Z) :=
  if s =? 0 then Ok (k, 0)
  else
    let* n := strlen (kbytes k) s in
    let* '(k, p) := malloc k (n + 1) in
    if negb (p =? 0) then
      let* m := strcpy (kbytes k) p s in
      Ok (mk_kmem (control k) m, p)
    else Ok (k, 0).
End ops.

(** The boot-time set-up: memory from the end of the kernel image to [PHYSTOP]. *)
Definition do_mem_init (mem0 : Z -> page_t) (k : kmem buddy_system_t) (__end PHYSTOP : Z)
    : res (kmem buddy_system_t) :=
  let* s := buddy_create mem0 __end (u64 (PHYSTOP - __end)) in
  let* c := mem_pool_create (control k) s in
  Ok (with_control k c).
