(* ===== verification/KallocProof.v ===== *)
(** * KallocProof: the kernel heap as a map of live allocations

    [heap_ok R k Hp] says that the heap is consistent and that [Hp] maps the
    address of each live allocation to its usable size.  The lemmas say how each
    function of mm/kalloc.c changes [Hp], and that live allocations lie in the
    memory region [R] and never overlap. *)

From S2P Require Import Prelude Bits ListHead CMem Buddy BuddyBlocks BuddyProof PageAlloc MemPool MemPoolProof Kalloc.

Local Coercion Z.of_nat : nat >-> Z.

Section heap.
Context {T : Type} `{PageAllocator T} (R : Z * Z).
Implicit Types (k : kmem T) (A Hp : gmap Z Z) (P : gmap Z (Z * Z)) (used : gset Z).

(** A block of a pool, and a run of whole pages. *)
Definition small P used (p n : Z) : Prop :=
  p ∈ used /\ exists a pl, P !! a = Some pl /\ p ∈ blocks_of a pl /\ n = class_size pl.

Definition large A P (p n : Z) : Prop :=
  P !! p = None /\ exists m, A !! p = Some m /\ n = PAGE_SIZE * m.

Definition live A P used Hp : Prop :=
  forall p n, Hp !! p = Some n <-> small P used p n \/ large A P p n.

Definition heap_ok k Hp : Prop :=
  exists A P used, pool_ok R (control k) A P used /\ live A P used Hp /\
    mapped (kbytes k) R.1 (R.2 - R.1).

(** The run of pages an allocation lies in. *)
Lemma live_container k A P used Hp p n :
  pool_ok R (control k) A P used -> live A P used Hp -> Hp !! p = Some n ->
  0 < n /\ exists a m, A !! a = Some m /\ a <= p /\ p + n <= a + PAGE_SIZE * m.
Proof.
  intros Hok Hl Hp'. apply Hl in Hp' as [(_ & a & pl & Ha & Hx & ->)|(_ & m & Hm & ->)].
  - destruct (po_pages _ _ _ _ Hok _ _ Ha) as [Hpl [m Hm]].
    pose proof (pages_range _ _ _ _ _ (po_sys _ _ _ _ Hok) Hm) as (_ & _ & Hm0 & _).
    pose proof (class_range _ Hpl) as (_ & Hs & _).
    destruct (po_block _ _ _ _ _ _ _ Hok Ha Hx) as (_ & _ & _ & _ & H1 & H2).
    split; [lia|]. exists a, m. unfold PAGE_SIZE in *. split_and!; [done|lia..].
  - pose proof (pages_range _ _ _ _ _ (po_sys _ _ _ _ Hok) Hm) as (_ & _ & Hm0 & _).
    unfold PAGE_SIZE. split; [lia|]. exists p, m. split_and!; [done|lia..].
Qed.

Lemma heap_region k Hp p n :
  heap_ok k Hp -> Hp !! p = Some n -> 0 < n /\ 0 < R.1 <= p /\ p + n <= R.2 <= 2 ^ 64.
Proof.
  intros (A & P & used & Hok & Hl & _) Hn.
  destruct (live_container _ _ _ _ _ _ _ Hok Hl Hn) as (Hn0 & a & m & Ha & H1 & H2).
  pose proof (pages_range _ _ _ _ _ (po_sys _ _ _ _ Hok) Ha) as (? & _ & _ & ?). lia.
Qed.

(** Two blocks of one page. *)
Lemma blocks_apart a pl x y :
  pl ∈ all_pools -> x ∈ blocks_of a pl -> y ∈ blocks_of a pl -> x <> y ->
  x + class_size pl <= y \/ y + class_size pl <= x.
Proof.
  intros Hpl (i & Hi & ->)%elem_of_blocks_of (j & Hj & ->)%elem_of_blocks_of Hne.
  pose proof (class_range _ Hpl) as (_ & Hs & _). unfold blk_at in *.
  destruct (Z.lt_trichotomy i j) as [?|[->|?]]; [left; nia|done|right; nia].
Qed.

Lemma heap_disjoint k Hp p n p' n' :
  heap_ok k Hp -> Hp !! p = Some n -> Hp !! p' = Some n' -> p <> p' -> p + n <= p' \/ p' + n' <= p.
Proof.
  intros (A & P & used & Hok & Hl & _) Hn Hn' Hne.
  destruct (live_container _ _ _ _ _ _ _ Hok Hl Hn) as (Hn0 & a & m & Ha & H1 & H2).
  destruct (live_container _ _ _ _ _ _ _ Hok Hl Hn') as (Hn0' & a' & m' & Ha' & H1' & H2').
  destruct (decide (a = a')) as [<-|Hna];
    [|pose proof (pages_disjoint _ _ _ _ _ _ _ (po_sys _ _ _ _ Hok) Ha Ha' Hna); lia].
  assert (Hrun : forall q m', A !! q = Some m' -> a <= q < a + PAGE_SIZE * m -> q = a).
  { intros q mq Hq Hqa. destruct (decide (q = a)) as [|Hqne]; [done|].
    pose proof (pages_range _ _ _ _ _ (po_sys _ _ _ _ Hok) Hq) as (_ & _ & ? & _).
    pose proof (pages_disjoint _ _ _ _ _ _ _ (po_sys _ _ _ _ Hok) Hq Ha Hqne). unfold PAGE_SIZE in *. lia. }
  rewrite Ha in Ha'. injection Ha' as <-.
  assert (Hsm : forall q r, small P used q r -> a <= q -> q + r <= a + PAGE_SIZE * m -> 0 < r ->
            exists pl, P !! a = Some pl /\ q ∈ blocks_of a pl /\ r = class_size pl).
  { intros q r (_ & b & pl & Hb & Hq & ->) Hq1 Hq2 Hr. exists pl.
    destruct (po_block _ _ _ _ _ _ _ Hok Hb Hq) as (_ & _ & _ & _ & B1 & B2).
    destruct (po_pages _ _ _ _ Hok _ _ Hb) as [_ [mb Hmb]].
    pose proof (pages_range _ _ _ _ _ (po_sys _ _ _ _ Hok) Hmb) as (_ & _ & Hmb0 & _).
    destruct (decide (b = a)) as [->|Hba]; [done|].
    pose proof (pages_disjoint _ _ _ _ _ _ _ (po_sys _ _ _ _ Hok) Hmb Ha Hba). unfold PAGE_SIZE in *. lia. }
  apply Hl in Hn as [Hn|(Pn & q & Hq & ->)], Hn' as [Hn'|(Pn' & q' & Hq' & ->)].
  - destruct (Hsm _ _ Hn) as (pl & E & Hx & ->); [lia..|].
    destruct (Hsm _ _ Hn') as (pl' & E' & Hx' & ->); [lia..|]. rewrite E in E'. injection E' as <-.
    apply (blocks_apart a); [|done..]. by destruct (po_pages _ _ _ _ Hok _ _ E).
  - destruct (Hsm _ _ Hn) as (pl & E & Hx & ->); [lia..|].
    rewrite (Hrun _ _ Hq') in Pn' by lia. congruence.
  - destruct (Hsm _ _ Hn') as (pl & E & Hx & ->); [lia..|].
    rewrite (Hrun _ _ Hq) in Pn by lia. congruence.
  - exfalso. apply Hne. rewrite (Hrun _ _ Hq), (Hrun _ _ Hq') by lia. done.
Qed.

(** ** malloc *)

Lemma live_grow c c' A P used used' Hp A' P' :
  pool_ok R c A P used -> pool_ok R c' A' P' used' -> live A P used Hp -> grows A P A' P' ->
  live A' P' used Hp.
Proof.
  intros Hok Hok' Hl [[-> ->]|(ptr & m & pl & Hn & -> & ->)]; [done|].
  assert (HPn : P !! ptr = None).
  { apply eq_None_not_Some. intros [q Hq]. destruct (po_pages _ _ _ _ Hok _ _ Hq) as [_ [? ?]]. congruence. }
  intros p n. specialize (Hl p n). rewrite Hl. unfold small, large. split.
  - intros [(Hu & a & q & Ha & Hx & ->)|(HP & q & Hq & ->)].
    + left. split; [done|]. exists a, q. by rewrite lookup_insert_ne by congruence.
    + right. rewrite !lookup_insert_ne by congruence. split; [done|]. by exists q.
  - intros [(Hu & a & q & Ha & Hx & ->)|(HP & q & Hq & ->)].
    + left. split; [done|]. destruct (po_used _ _ _ _ Hok _ Hu) as (a' & q' & Ha' & Hx').
      assert (Ha2 : <[ptr := pl]> P !! a' = Some q') by (rewrite lookup_insert_ne by congruence; done).
      destruct (po_block_unique _ _ _ _ _ _ _ _ _ Hok' Ha Ha2 Hx Hx') as [-> ->]. by exists a', q'.
    + right. destruct (decide (p = ptr)) as [->|Hne]; [by rewrite lookup_insert_eq in HP|].
      rewrite !lookup_insert_ne in * by done. split; [done|]. by exists q.
Qed.

(** A block handed out becomes live; nothing else changes. *)
Lemma live_use c A P used Hp a pl x :
  pool_ok R c A P ({[x]} ∪ used) -> live A P used Hp -> x ∉ used ->
  P !! a = Some pl -> x ∈ blocks_of a pl ->
  Hp !! x = None /\ live A P ({[x]} ∪ used) (<[x := class_size pl]> Hp).
Proof.
  intros Hok Hl Hu Ha Hx. destruct (po_block _ _ _ _ _ _ _ Hok Ha Hx) as (_ & _ & _ & Hmod & _).
  assert (HAx : A !! x = None).
  { apply eq_None_not_Some. intros [m Hm].
    pose proof (pages_range _ _ _ _ _ (po_sys _ _ _ _ Hok) Hm) as (_ & Hd & _).
    apply Hmod. by apply Z.mod_divide. }
  split.
  - apply eq_None_not_Some. intros [n Hn]. apply Hl in Hn as [(? & _)|(_ & m & Hm & _)]; congruence.
  - intros p n. rewrite lookup_insert_Some. specialize (Hl p n). rewrite Hl. unfold small, large.
    setoid_rewrite elem_of_union. setoid_rewrite elem_of_singleton. split.
    + intros [[-> <-]|[Hne [(Hpu & Hs)|Hlg]]]; [left|left|by right].
      * split; [by left|]. by exists a, pl.
      * split; [by right|done].
    + intros [([->|Hpu] & b & q & Hb & Hbx & ->)|(HP & m & Hm & ->)].
      * left. by destruct (po_block_unique _ _ _ _ _ _ _ _ _ Hok Ha Hb Hx Hbx) as [-> ->].
      * right. split; [congruence|]. left. split; [done|]. by exists b, q.
      * right. split; [congruence|]. right. split; [done|]. by exists m.
Qed.

(** A change of the page allocator's state that keeps the pools' pages. *)
Lemma pool_ok_sys c A A' P used s :
  pool_ok R c A P used -> pages_inv R s A' ->
  (forall a m, A !! a = Some m -> is_Some (P !! a) -> is_Some (A' !! a)) ->
  pool_ok R (mk_control s (pool_size c) (mlinks c) (headers c)) A' P used.
Proof.
  intros [Hi Hs Hp Hh Hf Hu] Hinv Hkeep. split; [done|done| |done..].
  intros a pl Ha. destruct (Hp a pl Ha) as [? [m Hm]]. eauto.
Qed.

(** The number of pages of a large request. *)
Lemma page_count size :
  0 < size <= 2 ^ (MAX_ORDER + 12) ->
  exists n, align_up size PAGE_SIZE = Ok (PAGE_SIZE * n) /\
    Z.shiftr (PAGE_SIZE * n) PAGE_SHIFT = n /\ 0 < n <= 2 ^ MAX_ORDER /\ size <= PAGE_SIZE * n.
Proof.
  intros Hs. change (2 ^ (MAX_ORDER + 12)) with 4294967296 in Hs. change (2 ^ MAX_ORDER) with 1048576.
  exists (up_to size PAGE_SIZE / PAGE_SIZE). change PAGE_SIZE with (2 ^ 12).
  rewrite align_up_spec by lia. change (2 ^ 12) with 4096.
  pose proof (up_to_spec size 4096 ltac:(lia)) as [Hu [q Hq]]. rewrite Hq, Z.div_mul by lia.
  split_and!; [f_equal; lia| |lia|lia|lia].
  unfold PAGE_SHIFT. rewrite Z.shiftr_div_pow2 by lia. change (2 ^ 12) with 4096.
  rewrite Z.mul_comm, Z.div_mul by lia. done.
Qed.

(** A run of whole pages. *)
Lemma kalloc_page_ok k Hp cnt :
  heap_ok k Hp -> 0 < cnt <= 2 ^ MAX_ORDER ->
  exists k' p, alloc_page k cnt = Ok (k', p) /\ kbytes k' = kbytes k /\
    ((p = 0 /\ k' = k) \/
     exists n, PAGE_SIZE * cnt <= n /\ Hp !! p = None /\ (PAGE_SIZE | p) /\ heap_ok k' (<[p := n]> Hp)).
Proof.
  intros (A & P & used & Hok & Hl & Hm) Hc.
  unfold alloc_page. destruct (alloc_pages_ok _ _ _ cnt (po_sys _ _ _ _ Hok) Hc) as (s & p & E & Hor).
  rewrite E. cbn [res_bind]. eexists _, p. split_and!; [done|done|].
  destruct Hor as [[-> ->]|(n & Hn & HA & Hinv)]; [left; split; [done|]; by destruct k as [[]]|right].
  assert (HP : P !! p = None).
  { apply eq_None_not_Some. intros [q Hq]. destruct (po_pages _ _ _ _ Hok _ _ Hq) as [_ [? ?]]. congruence. }
  assert (Hok' : pool_ok R (mk_control s (pool_size (control k)) (mlinks (control k)) (headers (control k)))
                   (<[p := n]> A) P used).
  { apply (pool_ok_sys _ A); [done..|]. intros a m Hma _. rewrite lookup_insert_ne by congruence. eauto. }
  pose proof (pages_range _ _ _ _ _ Hinv (lookup_insert_eq _ _ _)) as (_ & Hd & _).
  assert (Hnot : ~ exists r, small P used p r).
  { intros (r & _ & a & q & Ha & Hx & _).
    destruct (po_block _ _ _ _ _ _ _ Hok Ha Hx) as (_ & _ & _ & Hmod & _). apply Hmod. by apply Z.mod_divide. }
  exists (PAGE_SIZE * n). split_and!; [unfold PAGE_SIZE in *; lia| |done|].
  - apply eq_None_not_Some. intros [r Hr]. apply Hl in Hr as [Hr|(_ & m & Hr & _)]; [eauto|congruence].
  - eexists _, P, used. split_and!; [exact Hok'| |done]. intros q r. rewrite lookup_insert_Some.
    specialize (Hl q r). rewrite Hl. unfold large. setoid_rewrite lookup_insert_Some. naive_solver.
Qed.

Lemma kmalloc_ok k Hp size :
  heap_ok k Hp -> 0 < size <= 2 ^ (MAX_ORDER + 12) ->
  exists k' p, malloc k size = Ok (k', p) /\ kbytes k' = kbytes k /\
    ((p = 0 /\ k' = k) \/
     exists n, size <= n /\ Hp !! p = None /\ heap_ok k' (<[p := n]> Hp)).
Proof.
  intros Hh Hs. unfold malloc.
  destruct (Z.ltb_spec MEM_POOL_MAX_SIZE size) as [Hbig|Hsm].
  - destruct (page_count size Hs) as (cnt & Ea & Esh & Hc & Hle). rewrite Ea. cbn [res_bind]. rewrite Esh.
    destruct (kalloc_page_ok k Hp cnt Hh Hc) as (k' & p & E & Eb & Hor). exists k', p. split_and!; [done|done|].
    destruct Hor as [?|(n & Hn & HH & _ & Hk)]; [by left|right]. exists n. split_and!; [lia|done|done].
  - destruct Hh as (A & P & used & Hok & Hl & Hm).
    destruct (pool_alloc_ok (control k) A P used size Hok) as (c' & p & E & Hor); [lia|].
    rewrite E. cbn [res_bind]. eexists _, p. split_and!; [done|done|].
    destruct Hor as [[-> ->]|(A' & P' & pl & Hg & Hok' & [Hle _] & (Hu & a & Ha & Hx))]; [left; by destruct k|right].
    exists (class_size pl). split; [done|].
    pose proof (live_grow _ _ _ _ _ _ _ _ _ Hok Hok' Hl Hg) as Hl'.
    destruct (live_use _ _ _ _ _ _ _ _ Hok' Hl' Hu Ha Hx) as [Hn Hl2]. split; [done|].
    by exists A', P', ({[p]} ∪ used).
Qed.

(** ** free *)

Lemma kfree_ok k Hp p n :
  heap_ok k Hp -> Hp !! p = Some n ->
  exists k', free k p = Ok k' /\ kbytes k' = kbytes k /\ heap_ok k' (delete p Hp).
Proof.
  intros (A & P & used & Hok & Hl & Hm) Hn. unfold free. change (PAGE_SIZE - 1) with (Z.ones 12).
  rewrite Z.land_ones by lia. change (2 ^ 12) with PAGE_SIZE.
  apply Hl in Hn as [(Hu & a & pl & Ha & Hx & ->)|(HP & m & Hmm & ->)].
  - destruct (po_block _ _ _ _ _ _ _ Hok Ha Hx) as (_ & _ & _ & Hmod & _).
    rewrite (proj2 (Z.eqb_neq _ 0) Hmod).
    destruct (pool_free_ok _ _ _ _ _ Hok Hu) as (c' & E & Hok'). rewrite E. cbn [res_bind].
    eexists. split_and!; [done|done|]. exists A, P, (used ∖ {[p]}). split_and!; [done| |done].
    assert (HAx : A !! p = None).
    { apply eq_None_not_Some. intros [q Hq].
      pose proof (pages_range _ _ _ _ _ (po_sys _ _ _ _ Hok) Hq) as (_ & Hd & _).
      apply Hmod. by apply Z.mod_divide. }
    intros q r. rewrite lookup_delete_Some. specialize (Hl q r). rewrite Hl. unfold small, large.
    setoid_rewrite elem_of_difference. setoid_rewrite elem_of_singleton.
    split; [naive_solver|]. intros [((? & ?) & ?)|(? & ? & ? & ?)]; naive_solver.
  - pose proof (pages_range _ _ _ _ _ (po_sys _ _ _ _ Hok) Hmm) as (_ & Hd & _).
    apply Z.mod_divide in Hd; [|done]. rewrite Hd. cbn [Z.eqb]. unfold free_page.
    destruct (free_pages_ok _ _ _ _ _ (po_sys _ _ _ _ Hok) Hmm) as (s & E & Hinv). rewrite E. cbn [res_bind].
    eexists. split_and!; [done|done|]. exists (delete p A), P, used. split_and!; [| |done].
    + apply (pool_ok_sys _ A); [done..|]. intros a q Ha [pl Hpl]. rewrite lookup_delete_ne by congruence. eauto.
    + intros q r. rewrite lookup_delete_Some. specialize (Hl q r). rewrite Hl. unfold large.
      setoid_rewrite lookup_delete_Some. split; [naive_solver|].
      intros [Hsm|(? & x & [? ?] & ?)]; [|naive_solver]. split; [|by left]. intros ->.
      destruct Hsm as (_ & a & pl & Ha & Hx & _).
      by destruct (po_block _ _ _ _ _ _ _ Hok Ha Hx) as (_ & _ & _ & Hmod & _).
Qed.

(** ** calloc, realloc, strdup *)

Lemma heap_ok_write k Hp p bs :
  heap_ok k Hp -> heap_ok (mk_kmem (control k) (write_bytes (kbytes k) p bs)) Hp.
Proof.
  intros (A & P & used & Hok & Hl & Hm). exists A, P, used. split_and!; [done..|].
  by apply mapped_write.
Qed.

Lemma heap_mapped k Hp p n : heap_ok k Hp -> Hp !! p = Some n -> mapped (kbytes k) p n.
Proof.
  intros Hok Hn. pose proof (heap_region _ _ _ _ Hok Hn) as (_ & ? & ? & _).
  destruct Hok as (_ & _ & _ & _ & _ & Hm). apply (mapped_sub _ _ _ _ _ Hm); lia.
Qed.

Lemma kcalloc_ok k Hp nmemb size :
  heap_ok k Hp -> 0 < nmemb * size < 2 ^ 31 ->
  exists k' p, calloc k nmemb size = Ok (k', p) /\
    ((p = 0 /\ k' = k) \/
     exists n, nmemb * size <= n /\ Hp !! p = None /\ heap_ok k' (<[p := n]> Hp) /\
       kbytes k' = write_bytes (kbytes k) p (replicate (Z.to_nat (nmemb * size)) 0)).
Proof.
  intros Hok Hs. unfold calloc. rewrite u64_small by lia.
  destruct (kmalloc_ok k Hp (nmemb * size) Hok) as (k' & p & E & Eb & Hor);
    [change (2 ^ (MAX_ORDER + 12)) with (2 ^ 32); lia|].
  rewrite E. cbn [res_bind]. destruct Hor as [[-> ->]|(n & Hle & Hn & Hok')].
  { exists k, 0. split; [done|by left]. }
  pose proof (heap_region _ _ _ _ Hok' (lookup_insert_eq _ _ _)) as (_ & Hp0 & _).
  rewrite (proj2 (Z.eqb_neq p 0)) by lia. cbn [negb].
  rewrite memset_spec by (lia || apply (mapped_sub _ _ _ _ _ (heap_mapped _ _ _ _ Hok' (lookup_insert_eq _ _ _))); lia).
  cbn [res_bind]. rewrite <- Eb. eexists _, p. split; [done|]. right. exists n. split_and!; [done|done| |done].
  by apply heap_ok_write.
Qed.

Lemma krealloc_ok k Hp old n_old bs :
  heap_ok k Hp -> Hp !! old = Some n_old -> bytes_at (kbytes k) old bs -> Forall is_byte bs ->
  0 < Z.of_nat (length bs) < 2 ^ 32 ->
  exists k' p, realloc k old (length bs) = Ok (k', p) /\
    ((p = 0 /\ k' = k) \/
     exists n, length bs <= n /\ p <> old /\ heap_ok k' (<[p := n]> (delete old Hp)) /\
       kbytes k' = write_bytes (kbytes k) p bs).
Proof.
  intros Hok Hold Hbs Hf Hs. unfold realloc.
  destruct (kmalloc_ok k Hp (length bs) Hok) as (k1 & p & E & Eb & Hor);
    [change (2 ^ (MAX_ORDER + 12)) with (2 ^ 32); lia|].
  rewrite E. cbn [res_bind]. destruct Hor as [[-> ->]|(n & Hle & Hn & Hok1)].
  { exists k, 0. split; [done|by left]. }
  pose proof (heap_region _ _ _ _ Hok1 (lookup_insert_eq _ _ _)) as (_ & Hp0 & _).
  rewrite (proj2 (Z.eqb_neq p 0)) by lia. cbn [negb]. unfold memcpy.
  rewrite memmove_spec; [|lia|done|by rewrite Eb|
    apply (mapped_sub _ _ _ _ _ (heap_mapped _ _ _ _ Hok1 (lookup_insert_eq _ _ _))); lia].
  cbn [res_bind]. assert (Hne : p <> old) by congruence.
  apply (heap_ok_write _ _ p bs) in Hok1.
  destruct (kfree_ok _ _ old n_old Hok1) as (k2 & E2 & Eb2 & Hok2); [by rewrite lookup_insert_ne|].
  rewrite E2. cbn [res_bind]. exists k2, p. split; [done|]. right. exists n. split_and!; [done|done| |].
  - by rewrite <- delete_insert_ne.
  - rewrite Eb2. cbn. by rewrite Eb.
Qed.

Lemma kstrdup_ok k Hp s str b nb :
  heap_ok k Hp -> cstr (kbytes k) s str -> Hp !! b = Some nb -> b <= s -> s + length str + 1 <= b + nb ->
  Z.of_nat (length str) < 2 ^ 31 - 1 ->
  exists k' p, strdup k s = Ok (k', p) /\
    ((p = 0 /\ k' = k) \/
     exists n, length str + 1 <= n /\ Hp !! p = None /\ heap_ok k' (<[p := n]> Hp) /\
       kbytes k' = write_bytes (kbytes k) p (str ++ [0]) /\ cstr (kbytes k') p str).
Proof.
  intros Hok Hs Hb Hbs Hbe Hl. unfold strdup.
  pose proof (heap_region _ _ _ _ Hok Hb) as (_ & Hb0 & _).
  rewrite (proj2 (Z.eqb_neq s 0)) by lia. rewrite (strlen_spec _ _ str) by (done || lia). cbn [res_bind].
  destruct (kmalloc_ok k Hp (length str + 1) Hok) as (k1 & p & E & Eb & Hor);
    [change (2 ^ (MAX_ORDER + 12)) with (2 ^ 32); lia|].
  rewrite E. cbn [res_bind]. destruct Hor as [[-> ->]|(n & Hle & Hn & Hok1)].
  { exists k, 0. split; [done|by left]. }
  pose proof (heap_region _ _ _ _ Hok1 (lookup_insert_eq _ _ _)) as (_ & Hp0 & _).
  rewrite (proj2 (Z.eqb_neq p 0)) by lia. cbn [negb].
  assert (Hdis : p + n <= b \/ b + nb <= p).
  { eapply heap_disjoint; [done|apply lookup_insert_eq|by rewrite lookup_insert_ne by congruence|congruence]. }
  rewrite Eb, (strcpy_spec _ _ _ str); [|done| |unfold apart; lia].
  - cbn [res_bind]. eexists _, p. split; [done|]. right. exists n. split_and!; [lia|done| |done|].
    + rewrite <- Eb. by apply heap_ok_write.
    + split; [apply bytes_at_write|apply Hs].
  - rewrite <- Eb. apply (mapped_sub _ _ _ _ _ (heap_mapped _ _ _ _ Hok1 (lookup_insert_eq _ _ _))); lia.
Qed.
End heap.

(** ** The initial heap *)

Lemma first_page_ge mem size : sizeof_buddy_system_t <= size -> mem <= first_page mem size.
Proof.
  intros Hs. unfold first_page. change sizeof_buddy_system_t with 528 in *. change sizeof_page_t with 24.
  change PAGE_SIZE with 4096. assert (0 <= (size - 528) / 4096) by (apply Z.div_pos; lia).
  set (x := (size - 528) / 4096 * 24).
  pose proof (up_to_spec x 4096 ltac:(lia)) as [? _].
  pose proof (up_to_spec (mem + 528 + up_to x 4096) 4096 ltac:(lia)) as [? _]. lia.
Qed.

Lemma kmem_init_ok mem0 k e stop :
  0 < e -> sizeof_buddy_system_t <= stop - e -> first_page e (stop - e) + PAGE_SIZE <= stop ->
  stop + PAGE_SIZE <= 2 ^ 64 -> stop - first_page e (stop - e) < PAGE_SIZE * 2 ^ (MAX_ORDER + 1) ->
  mapped (kbytes k) e (stop - e) ->
  exists k' hi, do_mem_init mem0 k e stop = Ok k' /\ hi <= stop /\
    heap_ok (first_page e (stop - e), hi) k' ∅.
Proof.
  intros He Hs Hf Hend Hmax Hm. unfold do_mem_init.
  pose proof (first_page_ge e (stop - e) Hs) as Hfe.
  assert (0 < PAGE_SIZE) by done. assert (0 <= sizeof_buddy_system_t) by done.
  rewrite u64_small by lia.
  destruct (create_ok mem0 e (stop - e)) as (s & E & Hok & Es & Em & Hfit);
    [lia|lia|lia|lia| |]. { replace (e + (stop - e)) with stop by lia. lia. }
  replace (e + (stop - e)) with stop in * by lia.
  assert (Hinv : pages_inv (buddy_region s) s ∅).
  { exists ∅. split_and!; [done| |done|].
    - rewrite Em. apply Z.div_lt_upper_bound; lia.
    - unfold addr_map. by rewrite fmap_empty, kmap_empty. }
  rewrite E. clear E. cbn [res_bind]. rewrite <- Es in *.
  destruct (pool_create_ok (R := buddy_region s) (control k) s ∅ Hinv) as (c & Ec & Hpool).
  rewrite Ec. clear Ec. cbn [res_bind]. exists (with_control k c), (buddy_region s).2. split_and!; [done| |].
  - unfold buddy_region. cbn. lia.
  - exists ∅, ∅, ∅. split_and!; [done| |].
    + intros p n. unfold small, large. rewrite lookup_empty.
      split; [done|]. intros [(? & _)|(_ & m & Hq & _)]; [set_solver|discriminate].
    + cbn [fst snd with_control kbytes]. apply (mapped_sub _ _ _ _ _ Hm); unfold buddy_region; cbn; lia.
Qed.
