(* ===== verification/KallocTheorems.v ===== *)
(** * KallocTheorems: the guarantees of the kernel heap

    Statements about mm/mem_pool.c, mm/kalloc.c and [strdup], with witnesses on a
    machine of 20 pages. *)

From S2P Require Import Prelude Bits ListHead CMem Buddy BuddyBlocks BuddyProof PageAlloc MemPool MemPoolProof Kalloc KallocProof.

Local Coercion Z.of_nat : nat >-> Z.

(** ** The small machine *)

Definition raw_page (_ : Z) : page_t := mk_page 7 9.

Definition ram : cmem := gset_to_gmap 0 (list_to_set (seqZ 0x80000000 (20 * PAGE_SIZE))).

Definition raw_control : mem_pool_control_t buddy_system_t :=
  mk_control (mk_buddy (mk_lheap ∅ ∅) ∅ 0 0 0 ∅) ∅ (mk_lheap ∅ ∅) ∅.

Definition raw_mem : kmem buddy_system_t := mk_kmem raw_control ram.

Lemma ram_lookup a : 0x80000000 <= a < 0x80000000 + 20 * PAGE_SIZE -> ram !! a = Some 0.
Proof.
  intros Ha. unfold ram. rewrite lookup_gset_to_gmap_Some. split; [|done].
  by apply elem_of_list_to_set, elem_of_seqZ.
Qed.

Definition ram_end : Z := 0x80000000 + 20 * PAGE_SIZE.

Lemma booted : exists k hi, do_mem_init raw_page raw_mem 0x80000000 ram_end = Ok k /\ hi <= ram_end /\
  heap_ok (0x80002000, hi) k ∅.
Proof.
  apply (kmem_init_ok raw_page raw_mem 0x80000000 ram_end); [done..|].
  intros a Ha. cbn. rewrite ram_lookup; [eauto|exact Ha].
Qed.

(** [do_mem_init] returns normally on any memory that holds the allocator's
    tables and at least one page, and leaves a consistent heap in which nothing
    is allocated, whose memory starts at the first page boundary after the
    tables and ends inside the given region. *)
Theorem do_mem_init_ok mem0 k e stop :
  0 < e -> sizeof_buddy_system_t <= stop - e -> first_page e (stop - e) + PAGE_SIZE <= stop ->
  stop + PAGE_SIZE <= 2 ^ 64 -> stop - first_page e (stop - e) < PAGE_SIZE * 2 ^ (MAX_ORDER + 1) ->
  mapped (kbytes k) e (stop - e) ->
  exists k' hi, do_mem_init mem0 k e stop = Ok k' /\ hi <= stop /\
    heap_ok (first_page e (stop - e), hi) k' ∅.
Proof. apply kmem_init_ok. Qed.

Lemma do_mem_init_ok_witness : exists k hi, do_mem_init raw_page raw_mem 0x80000000 ram_end = Ok k /\
  heap_ok (0x80002000, hi) k ∅.
Proof.
  destruct (do_mem_init_ok raw_page raw_mem 0x80000000 ram_end) as (k & hi & E & _ & Hok); [done..| |].
  - intros a Ha. cbn. rewrite ram_lookup; [eauto|exact Ha].
  - exists k, hi. split; [exact E|exact Hok].
Defined.

(** Size classes: for a request of 1 to [MEM_POOL_MAX_SIZE] bytes,
    [mem_pool_alloc] on a consistent pool returns normally, either NULL with the
    pool unchanged (only when the page allocator refuses a page) or a block that
    was free and now is not, 16-byte aligned, inside its page behind the header,
    whose size is the smallest block size that holds the request. *)
Theorem mem_pool_alloc_ok {T} `{PageAllocator T} R (c : mem_pool_control_t T) A P used size :
  pool_ok R c A P used -> 0 < size <= MEM_POOL_MAX_SIZE ->
  exists c' x, mem_pool_alloc c size = Ok (c', x) /\
    ((x = 0 /\ c' = c) \/
     exists A' P' a pl, grows A P A' P' /\ pool_ok R c' A' P' ({[x]} ∪ used) /\ (x ∉ used) /\
       P' !! a = Some pl /\ best_class size (class_size pl) /\ (16 | x) /\ (PAGE_SIZE | a) /\
       a + sizeof_mem_pool_header_t <= x /\ x + class_size pl <= a + PAGE_SIZE).
Proof.
  intros Hok Hs. destruct (pool_alloc_ok c A P used size Hok Hs) as (c' & x & E & Hor).
  exists c', x. split; [done|]. destruct Hor as [|(A' & P' & pl & Hg & Hok' & Hb & (Hu & a & Ha & Hx))]; [by left|right].
  exists A', P', a, pl. destruct (po_block _ _ _ _ _ _ _ Hok' Ha Hx) as (_ & _ & H16 & _ & H1 & H2).
  destruct (po_page_range _ _ _ _ _ _ Hok' Ha) as (_ & _ & Hd & _). done.
Qed.

Lemma mem_pool_alloc_ok_witness :
  exists k R A P used c' x, pool_ok R (control k) A P used /\
    mem_pool_alloc (T := buddy_system_t) (control k) 100 = Ok (c', x).
Proof.
  destruct booted as (k & hi & _ & _ & (A & P & used & Hok & _)).
  destruct (mem_pool_alloc_ok _ (control k) A P used 100 Hok) as (c' & x & E & _); [done|].
  exists k. eexists _, A, P, used, c', x. exact (conj Hok E).
Defined.

(** C3. [malloc] on a consistent heap returns normally for every size up to the
    largest the page allocator handles: either NULL with nothing changed, or the
    address of a fresh allocation of at least the size asked for, recorded as
    live, with no byte of memory changed. *)
Theorem malloc_ok {T} `{PageAllocator T} R (k : kmem T) Hp size :
  heap_ok R k Hp -> 0 < size <= 2 ^ (MAX_ORDER + 12) ->
  exists k' p, malloc k size = Ok (k', p) /\ kbytes k' = kbytes k /\
    ((p = 0 /\ k' = k) \/
     exists n, size <= n /\ Hp !! p = None /\ heap_ok R k' (<[p := n]> Hp)).
Proof. apply kmalloc_ok. Qed.

Lemma malloc_ok_witness :
  exists k hi k' p, heap_ok (0x80002000, hi) k ∅ /\ malloc (T := buddy_system_t) k 100 = Ok (k', p).
Proof.
  destruct booted as (k & hi & _ & _ & Hok).
  destruct (malloc_ok _ k ∅ 100 Hok) as (k' & p & E & _); [done|]. exists k, hi, k', p. exact (conj Hok E).
Defined.

(** In a consistent heap the live allocations lie inside the heap's memory
    and are pairwise disjoint, whether they are blocks of pools or runs of
    pages. *)
Theorem heap_allocations_disjoint {T} `{PageAllocator T} R (k : kmem T) Hp p n :
  heap_ok R k Hp -> Hp !! p = Some n ->
  0 < n /\ 0 < R.1 <= p /\ p + n <= R.2 <= 2 ^ 64 /\
  forall p' n', Hp !! p' = Some n' -> p <> p' -> p + n <= p' \/ p' + n' <= p.
Proof.
  intros Hok Hn. pose proof (heap_region _ _ _ _ _ Hok Hn) as (? & ? & ?). split_and!; try lia.
  intros p' n' Hn'. by eapply heap_disjoint.
Qed.

(** The page allocator of the small machine does serve a request. *)
Lemma booted_malloc_serves m :
  match (let* k := do_mem_init raw_page (mk_kmem raw_control m) 0x80000000 ram_end in malloc k 100) with
  | Ok (_, p) => p <> 0
  | _ => False
  end.
Proof. vm_compute. discriminate. Qed.

Lemma small_alloc :
  exists (k : kmem buddy_system_t) hi p n, heap_ok (0x80002000, hi) k {[p := n]} /\ 100 <= n /\ hi <= ram_end.
Proof.
  destruct booted as (k & hi & E & Hhi & Hok). pose proof (booted_malloc_serves ram) as Hs.
  fold raw_mem in Hs. rewrite E in Hs. clear E. cbn [res_bind] in Hs.
  destruct (kmalloc_ok _ k ∅ 100 Hok) as (k' & p & E & _ & Hor); [split; [reflexivity|discriminate]|].
  rewrite E in Hs. clear E. destruct Hor as [[-> _]|(n & Hn & _ & Hok')]; [by destruct Hs|].
  exists k', hi, p, n. rewrite insert_empty in Hok'. exact (conj Hok' (conj Hn Hhi)).
Qed.

Lemma heap_allocations_disjoint_witness :
  exists (k : kmem buddy_system_t) R p n, heap_ok R k {[p := n]} /\ 0 < R.1 <= p.
Proof.
  destruct small_alloc as (k & hi & p & n & Hok & _).
  destruct (heap_allocations_disjoint _ k _ p n Hok (lookup_singleton_eq _ _)) as (_ & H & _).
  exists k, (0x80002000, hi), p, n. exact (conj Hok H).
Defined.

(** C4. [free] on the address of a live allocation returns normally and leaves a
    consistent heap with exactly that allocation removed, whatever allocator it
    came from. *)
Theorem free_ok {T} `{PageAllocator T} R (k : kmem T) Hp p n :
  heap_ok R k Hp -> Hp !! p = Some n ->
  exists k', free k p = Ok k' /\ kbytes k' = kbytes k /\ heap_ok R k' (delete p Hp).
Proof. apply kfree_ok. Qed.

Lemma free_ok_witness :
  exists (k k' : kmem buddy_system_t) R p, free k p = Ok k' /\ heap_ok R k' ∅.
Proof.
  destruct small_alloc as (k & hi & p & n & Hok & _).
  destruct (free_ok _ k _ p n Hok (lookup_singleton_eq _ _)) as (k' & E & _ & Hok').
  rewrite delete_singleton_eq in Hok'. exists k, k', (0x80002000, hi), p. exact (conj E Hok').
Defined.

(** [calloc] of fewer than 2^31 bytes returns NULL with nothing changed or a
    fresh allocation of at least [nmemb * size] bytes, the first [nmemb * size]
    of which are zero, and changes no other byte of memory. *)
Theorem calloc_ok {T} `{PageAllocator T} R (k : kmem T) Hp nmemb size :
  heap_ok R k Hp -> 0 < nmemb * size < 2 ^ 31 ->
  exists k' p, calloc k nmemb size = Ok (k', p) /\
    ((p = 0 /\ k' = k) \/
     exists n, nmemb * size <= n /\ Hp !! p = None /\ heap_ok R k' (<[p := n]> Hp) /\
       bytes_at (kbytes k') p (replicate (Z.to_nat (nmemb * size)) 0) /\
       forall a, ~ (p <= a < p + nmemb * size) -> kbytes k' !! a = kbytes k !! a).
Proof.
  intros Hok Hs. destruct (kcalloc_ok _ k Hp nmemb size Hok Hs) as (k' & p & E & Hor).
  exists k', p. split; [exact E|]. destruct Hor as [|(n & Hle & Hn & Hok' & Eb)]; [by left|right].
  exists n. rewrite Eb. split_and!; try done; [apply bytes_at_write|].
  intros a Ha. apply lookup_write_bytes_out. rewrite length_replicate. lia.
Qed.

Lemma calloc_ok_witness :
  exists (k k' : kmem buddy_system_t) R p, heap_ok R k ∅ /\ calloc k 3 40 = Ok (k', p).
Proof.
  destruct booted as (k & hi & E0 & _ & Hok). clear E0.
  destruct (calloc_ok _ k ∅ 3 40 Hok) as (k' & p & E & _); [done|].
  exists k, k', (0x80002000, hi), p. exact (conj Hok E).
Defined.

(** [realloc] copies as many bytes as the new size says from the old
    address, however small the old allocation is, releases the old allocation
    and returns a fresh one that holds the copy; or it returns NULL with nothing
    changed. *)
Theorem realloc_ok {T} `{PageAllocator T} R (k : kmem T) Hp old n_old bs :
  heap_ok R k Hp -> Hp !! old = Some n_old -> bytes_at (kbytes k) old bs -> Forall is_byte bs ->
  0 < Z.of_nat (length bs) < 2 ^ 32 ->
  exists k' p, realloc k old (length bs) = Ok (k', p) /\
    ((p = 0 /\ k' = k) \/
     exists n, length bs <= n /\ p <> old /\ heap_ok R k' (<[p := n]> (delete old Hp)) /\
       kbytes k' = write_bytes (kbytes k) p bs).
Proof. apply krealloc_ok. Qed.

(** A consistent heap over memory of our choice. *)
Lemma small_alloc_bytes :
  exists (k : kmem buddy_system_t) hi p n, heap_ok (0x80002000, hi) k {[p := n]} /\ 100 <= n /\
    bytes_at (kbytes k) p [104; 105; 0].
Proof.
  destruct small_alloc as (k & hi & p & n & Hok & Hn & _).
  exists (mk_kmem (control k) (write_bytes (kbytes k) p [104; 105; 0])), hi, p, n.
  split_and!; [by apply heap_ok_write|done|apply bytes_at_write].
Qed.

Lemma realloc_ok_witness :
  exists (k k' : kmem buddy_system_t) old p, realloc k old 3 = Ok (k', p).
Proof.
  destruct small_alloc_bytes as (k & hi & old & n & Hok & _ & Hb).
  destruct (realloc_ok _ k _ old n [104; 105; 0] Hok (lookup_singleton_eq _ _) Hb) as (k' & p & E & _);
    [repeat constructor; done|done|].
  exists k, k', old, p. exact E.
Defined.

(** [strdup] of a C string held in a live allocation returns NULL with
    nothing changed or a fresh allocation that holds an equal C string; the
    original is untouched. *)
Theorem strdup_ok {T} `{PageAllocator T} R (k : kmem T) Hp s str b nb :
  heap_ok R k Hp -> cstr (kbytes k) s str -> Hp !! b = Some nb -> b <= s -> s + length str + 1 <= b + nb ->
  Z.of_nat (length str) < 2 ^ 31 - 1 ->
  exists k' p, strdup k s = Ok (k', p) /\
    ((p = 0 /\ k' = k) \/
     exists n, Hp !! p = None /\ heap_ok R k' (<[p := n]> Hp) /\
       cstr (kbytes k') p str /\ cstr (kbytes k') s str).
Proof.
  intros Hok Hs Hb H1 H2 Hl. destruct (kstrdup_ok _ k Hp s str b nb Hok Hs Hb H1 H2 Hl) as (k' & p & E & Hor).
  exists k', p. split; [exact E|]. destruct Hor as [|(n & Hln & Hn & Hok' & Eb & Hc)]; [by left|right].
  exists n. split_and!; [done..|]. assert (Hne : p <> b) by congruence.
  assert (Hdis : p + n <= b \/ b + nb <= p).
  { eapply (heap_disjoint _ k'); [exact Hok'|apply lookup_insert_eq|by rewrite lookup_insert_ne|done]. }
  split; [|apply Hs]. rewrite Eb. apply bytes_at_frame; [|apply Hs]. rewrite !length_app. cbn [length].
  lia.
Qed.

Lemma strdup_ok_witness :
  exists (k k' : kmem buddy_system_t) s p, cstr (kbytes k) s [104; 105] /\ strdup k s = Ok (k', p).
Proof.
  destruct small_alloc_bytes as (k & hi & s & n & Hok & Hn & Hb).
  assert (Hc : cstr (kbytes k) s [104; 105]) by (split; [done|repeat constructor; done]).
  destruct (strdup_ok _ k _ s [104; 105] s n Hok Hc (lookup_singleton_eq _ _)) as (k' & p & E & _);
    [cbn; lia..|].
  exists k, k', s, p. exact (conj Hc E).
Defined.
