(* ===== verification/Alloc.v ===== *)
(** * Alloc: what the kernel heap promises to the data structures built on it

    lib/radix.c, lib/hmap.c and the kernel's object tables obtain their nodes from
    [calloc] and [malloc] and give them back with [free].  [KernelAlloc] states
    what they rely on: an address that is returned is not NULL and not in use.
    [kalloc_alloc] shows that mm/kalloc.c provides it. *)

From S2P Require Import Prelude Bits ListHead CMem Buddy BuddyBlocks BuddyProof PageAlloc MemPool MemPoolProof Kalloc KallocProof.

Class KernelAlloc (S : Type) := {
  al_malloc : S -> Z -> res (S * Z);
  al_calloc : S -> Z -> res (S * Z);
  al_free : S -> Z -> res S;
  (** the state is consistent and these are the addresses in use *)
  al_inv : S -> gset Z -> Prop;
  al_malloc_ok s X n :
    al_inv s X -> 0 < n < 2 ^ 31 ->
    exists s' p, al_malloc s n = Ok (s', p) /\
      ((p = 0 /\ s' = s) \/ (p <> 0 /\ (p ∉ X) /\ al_inv s' ({[p]} ∪ X)));
  al_calloc_ok s X n :
    al_inv s X -> 0 < n < 2 ^ 31 ->
    exists s' p, al_calloc s n = Ok (s', p) /\
      ((p = 0 /\ s' = s) \/ (p <> 0 /\ (p ∉ X) /\ al_inv s' ({[p]} ∪ X)));
  al_free_ok s X p :
    al_inv s X -> p ∈ X -> exists s', al_free s p = Ok s' /\ al_inv s' (X ∖ {[p]});
}.

(** There is no memory for [n] bytes: an allocation fails and leaves the heap as it is. *)
Definition no_memory {S} `{KernelAlloc S} (s : S) (n : Z) : Prop := al_malloc s n = Ok (s, 0).

(** ** The kernel heap *)

Section kalloc.
Context {T : Type} `{PageAllocator T}.

Definition kalloc_inv (k : kmem T) (X : gset Z) : Prop :=
  exists R Hp, heap_ok R k Hp /\ dom Hp = X.

Lemma kalloc_fresh R (k' : kmem T) Hp p n :
  heap_ok R k' (<[p := n]> Hp) -> Hp !! p = None ->
  p <> 0 /\ (p ∉ dom Hp) /\ kalloc_inv k' ({[p]} ∪ dom Hp).
Proof.
  intros Hok Hn. pose proof (heap_region _ _ _ _ _ Hok (lookup_insert_eq _ _ _)) as (_ & ? & _).
  split_and!; [lia|by apply not_elem_of_dom|]. exists R, (<[p := n]> Hp). split; [done|]. by rewrite dom_insert_L.
Qed.

Lemma kalloc_malloc_ok (k : kmem T) X n :
  kalloc_inv k X -> 0 < n < 2 ^ 31 ->
  exists k' p, malloc k n = Ok (k', p) /\
    ((p = 0 /\ k' = k) \/ (p <> 0 /\ (p ∉ X) /\ kalloc_inv k' ({[p]} ∪ X))).
Proof.
  intros (R & Hp & Hok & <-) Hn.
  destruct (kmalloc_ok R k Hp n Hok) as (k' & p & E & _ & Hor);
    [change (2 ^ (MAX_ORDER + 12)) with (2 ^ 32); lia|].
  exists k', p. split; [exact E|]. destruct Hor as [|(m & _ & Hnone & Hok')]; [by left|right].
  by eapply kalloc_fresh.
Qed.

Lemma kalloc_calloc_ok (k : kmem T) X n :
  kalloc_inv k X -> 0 < n < 2 ^ 31 ->
  exists k' p, calloc k 1 n = Ok (k', p) /\
    ((p = 0 /\ k' = k) \/ (p <> 0 /\ (p ∉ X) /\ kalloc_inv k' ({[p]} ∪ X))).
Proof.
  intros (R & Hp & Hok & <-) Hn.
  destruct (kcalloc_ok R k Hp 1 n Hok) as (k' & p & E & Hor); [lia|].
  exists k', p. split; [exact E|]. destruct Hor as [|(m & _ & Hnone & Hok' & _)]; [by left|right].
  by eapply kalloc_fresh.
Qed.

Lemma kalloc_free_ok (k : kmem T) X p :
  kalloc_inv k X -> p ∈ X -> exists k', free k p = Ok k' /\ kalloc_inv k' (X ∖ {[p]}).
Proof.
  intros (R & Hp & Hok & <-) [n Hn]%elem_of_dom.
  destruct (kfree_ok R k Hp p n Hok Hn) as (k' & E & _ & Hok').
  exists k'. split; [exact E|]. exists R, (delete p Hp). split; [done|]. by rewrite dom_delete_L.
Qed.

#[export] Instance kalloc_alloc : KernelAlloc (kmem T) := {
  al_malloc := malloc;
  al_calloc := fun k n => calloc k 1 n;
  al_free := free;
  al_inv := kalloc_inv;
  al_malloc_ok := kalloc_malloc_ok;
  al_calloc_ok := kalloc_calloc_ok;
  al_free_ok := kalloc_free_ok;
}.
End kalloc.

(** ** Pages and blocks with their addresses

    The page tables and address spaces of arch/vm.c and core/vmspace.c rely on more: the
    allocations do not overlap, pages are aligned, and all of it lies in the 56-bit physical
    address space of Sv39.  [kh_inv] maps the address of each allocation to its size. *)
Class KernelHeap (K : Type) := {
  kh_alloc_page : K -> Z -> res (K * Z);
  kh_malloc : K -> Z -> res (K * Z);
  kh_calloc : K -> Z -> res (K * Z);
  kh_free : K -> Z -> res K;
  kh_inv : K -> gmap Z Z -> Prop;
  kh_alloc_page_ok k Hp cnt :
    kh_inv k Hp -> 0 < cnt <= 2 ^ MAX_ORDER ->
    exists k' p, kh_alloc_page k cnt = Ok (k', p) /\
      ((p = 0 /\ k' = k) \/
       exists n, PAGE_SIZE * cnt <= n /\ Hp !! p = None /\ (PAGE_SIZE | p) /\ kh_inv k' (<[p := n]> Hp));
  kh_malloc_ok k Hp size :
    kh_inv k Hp -> 0 < size <= 2 ^ (MAX_ORDER + 12) ->
    exists k' p, kh_malloc k size = Ok (k', p) /\
      ((p = 0 /\ k' = k) \/ exists n, size <= n /\ Hp !! p = None /\ kh_inv k' (<[p := n]> Hp));
  kh_calloc_ok k Hp size :
    kh_inv k Hp -> 0 < size < 2 ^ 31 ->
    exists k' p, kh_calloc k size = Ok (k', p) /\
      ((p = 0 /\ k' = k) \/ exists n, size <= n /\ Hp !! p = None /\ kh_inv k' (<[p := n]> Hp));
  kh_free_ok k Hp p n :
    kh_inv k Hp -> Hp !! p = Some n -> exists k', kh_free k p = Ok k' /\ kh_inv k' (delete p Hp);
  kh_region k Hp p n : kh_inv k Hp -> Hp !! p = Some n -> 0 < n /\ 0 < p /\ p + n <= 2 ^ 56;
  kh_disjoint k Hp p n p' n' :
    kh_inv k Hp -> Hp !! p = Some n -> Hp !! p' = Some n' -> p <> p' -> p + n <= p' \/ p' + n' <= p;
}.

(** There is no page left: an allocation fails and leaves the heap as it is. *)
Definition no_page {K} `{KernelHeap K} (k : K) : Prop := kh_alloc_page k 1 = Ok (k, 0).

(** There is no block of [n] bytes left. *)
Definition no_block {K} `{KernelHeap K} (k : K) (n : Z) : Prop := kh_malloc k n = Ok (k, 0).

Section kernel_heap.
Context {T : Type} `{PageAllocator T}.

Definition kheap_inv (k : kmem T) (Hp : gmap Z Z) : Prop := exists R, heap_ok R k Hp /\ R.2 <= 2 ^ 56.

#[export, program] Instance kalloc_heap : KernelHeap (kmem T) := {
  kh_alloc_page := alloc_page;
  kh_malloc := malloc;
  kh_calloc := fun k n => calloc k 1 n;
  kh_free := free;
  kh_inv := kheap_inv;
}.
Next Obligation.
  intros k Hp cnt [R [Hok HR]] Hc. destruct (kalloc_page_ok R k Hp cnt Hok Hc) as (k' & p & E & _ & Hor).
  exists k', p. split; [done|]. destruct Hor as [?|(n & ? & ? & ? & ?)]; [by left|right]. exists n. split_and!; try done. by exists R.
Qed.
Next Obligation.
  intros k Hp size [R [Hok HR]] Hs. destruct (kmalloc_ok R k Hp size Hok Hs) as (k' & p & E & _ & Hor).
  exists k', p. split; [done|]. destruct Hor as [?|(n & ? & ? & ?)]; [by left|right]. exists n. split_and!; try done. by exists R.
Qed.
Next Obligation.
  intros k Hp size [R [Hok HR]] Hs. destruct (kcalloc_ok R k Hp 1 size Hok) as (k' & p & E & Hor); [lia|].
  exists k', p. split; [done|]. destruct Hor as [?|(n & ? & ? & ? & _)]; [by left|right]. exists n. split_and!; [lia|done|by exists R].
Qed.
Next Obligation.
  intros k Hp p n [R [Hok HR]] Hn. destruct (kfree_ok R k Hp p n Hok Hn) as (k' & E & _ & Hok'). exists k'. split; [done|]. by exists R.
Qed.
Next Obligation.
  intros k Hp p n [R [Hok HR]] Hn. destruct (heap_region _ _ _ _ _ Hok Hn) as (? & ? & ?). lia.
Qed.
Next Obligation. intros k Hp p n p' n' [R [Hok HR]]. by apply (heap_disjoint R k). Qed.
End kernel_heap.

(** ** An allocator that never fails, to run the models on examples *)

Definition bump_inv (s : Z) (X : gset Z) : Prop := 0 < s /\ forall p, p ∈ X -> p < s.

Lemma bump_alloc_ok s X (n : Z) :
  bump_inv s X -> 0 < n < 2 ^ 31 ->
  exists s' p, Ok (s + 1, s) = Ok (s', p) /\
    ((p = 0 /\ s' = s) \/ (p <> 0 /\ (p ∉ X) /\ bump_inv s' ({[p]} ∪ X))).
Proof.
  intros [Hs HX] _. exists (s + 1), s. split; [done|]. right. split_and!; [lia| |].
  - intros Hin. specialize (HX _ Hin). lia.
  - split; [lia|]. intros p [->%elem_of_singleton|Hp]%elem_of_union; [lia|]. specialize (HX _ Hp). lia.
Qed.

Lemma bump_free_ok s X p :
  bump_inv s X -> p ∈ X -> exists s', Ok s = Ok s' /\ bump_inv s' (X ∖ {[p]}).
Proof.
  intros [Hs HX] Hp. exists s. split; [done|]. split; [done|]. intros q [Hq _]%elem_of_difference. by apply HX.
Qed.

Definition bump_alloc : KernelAlloc Z := {|
  al_malloc := fun s _ => Ok (s + 1, s);
  al_calloc := fun s _ => Ok (s + 1, s);
  al_free := fun s _ => Ok s;
  al_inv := bump_inv;
  al_malloc_ok := bump_alloc_ok;
  al_calloc_ok := bump_alloc_ok;
  al_free_ok := bump_free_ok;
|}.

(** Pages one after the other; [s] is the number of the next page. *)
Definition bump_pages_inv (s : Z) (Hp : gmap Z Z) : Prop :=
  0 < s <= 2 ^ 40 /\
  (forall p n, Hp !! p = Some n -> 0 < n /\ 0 < p /\ p + n <= PAGE_SIZE * s) /\
  (forall p n p' n', Hp !! p = Some n -> Hp !! p' = Some n' -> p <> p' -> p + n <= p' \/ p' + n' <= p).

Definition bump_page (s cnt : Z) : res (Z * Z) :=
  if s + cnt <=? 2 ^ 40 then Ok (s + cnt, PAGE_SIZE * s) else Ok (s, 0).

Lemma bump_page_ok s Hp cnt :
  bump_pages_inv s Hp -> 0 < cnt ->
  exists s' p, bump_page s cnt = Ok (s', p) /\
    ((p = 0 /\ s' = s) \/
     exists n, PAGE_SIZE * cnt <= n /\ Hp !! p = None /\ (PAGE_SIZE | p) /\ bump_pages_inv s' (<[p := n]> Hp)).
Proof.
  intros (Hs & Hr & Hd) Hc. unfold bump_page. destruct (Z.leb_spec (s + cnt) (2 ^ 40)); [|by exists s, 0; split; [done|left]].
  exists (s + cnt), (PAGE_SIZE * s). split; [done|right]. exists (PAGE_SIZE * cnt).
  assert (Hn : Hp !! (PAGE_SIZE * s) = None).
  { destruct (Hp !! (PAGE_SIZE * s)) eqn:E; [|done]. apply Hr in E. lia. }
  split_and!; [done|done|by exists s; lia|]. unfold bump_pages_inv, PAGE_SIZE in *. split_and!; [lia|lia| |].
  - intros p n. rewrite lookup_insert_Some. intros [[<- <-]|[_ E]]; [lia|]. apply Hr in E. lia.
  - intros p n p' n'. rewrite !lookup_insert_Some. intros [[<- <-]|[_ E]] [[<- <-]|[_ E']] Hne; try lia.
    + apply Hr in E'. lia.
    + apply Hr in E. lia.
    + by eapply Hd.
Qed.

Lemma bump_block_ok s Hp size :
  bump_pages_inv s Hp -> 0 < size ->
  exists s' p, bump_page s (size / PAGE_SIZE + 1) = Ok (s', p) /\
    ((p = 0 /\ s' = s) \/ exists n, size <= n /\ Hp !! p = None /\ bump_pages_inv s' (<[p := n]> Hp)).
Proof.
  intros Hi Hs. assert (0 <= size / PAGE_SIZE) by (apply Z.div_pos; unfold PAGE_SIZE; lia).
  destruct (bump_page_ok s Hp (size / PAGE_SIZE + 1) Hi ltac:(lia)) as (s' & p & E & Hor). exists s', p. split; [done|].
  destruct Hor as [?|(n & Hn & ? & _ & ?)]; [by left|right]. exists n. split_and!; [|done|done].
  pose proof (Z.div_mod size PAGE_SIZE). pose proof (Z.mod_pos_bound size PAGE_SIZE). unfold PAGE_SIZE in *. lia.
Qed.

#[program] Definition bump_heap : KernelHeap Z := {|
  kh_alloc_page := bump_page;
  kh_malloc := fun s size => bump_page s (size / PAGE_SIZE + 1);
  kh_calloc := fun s size => bump_page s (size / PAGE_SIZE + 1);
  kh_free := fun s _ => Ok s;
  kh_inv := bump_pages_inv;
|}.
Next Obligation. intros s Hp cnt Hi Hc. apply bump_page_ok; [done|lia]. Qed.
Next Obligation. intros s Hp size Hi Hs. apply bump_block_ok; [done|lia]. Qed.
Next Obligation. intros s Hp size Hi Hs. apply bump_block_ok; [done|lia]. Qed.
Next Obligation.
  intros s Hp p n (Hs & Hr & Hd) E. exists s. split; [done|]. split_and!; try lia.
  - intros p' n' E'. apply lookup_delete_Some in E' as [_ E']. eauto.
  - intros p1 n1 p2 n2 E1 E2. apply lookup_delete_Some in E1 as [_ E1], E2 as [_ E2]. eauto.
Qed.
Next Obligation. intros s Hp p n (Hs & Hr & _) E. apply Hr in E. unfold PAGE_SIZE in *. lia. Qed.
Next Obligation. intros s Hp p n p' n' (_ & _ & Hd). apply Hd. Qed.
