(* ===== verification/Hlist.v ===== *)
(** * Hlist: the hash-chain lists of include/list.h

    A list is headed by one pointer; a node keeps the address of the pointer that
    points to it ([pprev]).  That pointer is a cell: the [first] field of a head or
    the [next] field of a node.  [hlist h b xs] says that the chain at head [b]
    holds the nodes [xs]; the lemmas show what each operation does to it. *)

From S2P Require Import Prelude.

(** Heads are named by [B], nodes by [L]. *)
Inductive hcell (B L : Type) :=
| CFirst (b : B)
| CNext (n : L).
Arguments CFirst {B L} b.
Arguments CNext {B L} n.

#[export] Instance hcell_eq_dec {B L} `{EqDecision B, EqDecision L} : EqDecision (hcell B L).
Proof. solve_decision. Defined.

#[export] Instance hcell_countable {B L} `{Countable B, Countable L} : Countable (hcell B L).
Proof.
  refine (inj_countable' (fun c => match c with CFirst b => inl b | CNext n => inr n end)
                         (fun x => match x with inl b => CFirst b | inr n => CNext n end) _).
  by intros [].
Defined.

(** The pointers held by the cells and the [pprev] fields; absent is NULL. *)
Record hheap (B L : Type) `{Countable B, Countable L} := mk_hheap {
  hptr : gmap (hcell B L) L;
  pprev : gmap L (hcell B L);
}.
Arguments mk_hheap {B L _ _ _ _} _ _.
Arguments hptr {B L _ _ _ _} _.
Arguments pprev {B L _ _ _ _} _.

Section ops.
Context {B L : Type} `{Countable B, Countable L}.
Implicit Types (h : hheap B L) (b : B) (n : L) (c : hcell B L).

(** [*c = v] and [n->pprev = v], where [v] may be NULL. *)
Definition set_ptr c (v : option L) h : hheap B L :=
  mk_hheap (match v with Some x => <[c := x]> (hptr h) | None => delete c (hptr h) end) (pprev h).
Definition set_pprev n (v : option (hcell B L)) h : hheap B L :=
  mk_hheap (hptr h) (match v with Some c => <[n := c]> (pprev h) | None => delete n (pprev h) end).

Definition init_hlist_head b h : hheap B L := set_ptr (CFirst b) None h.

Definition init_hlist_node n h : hheap B L := set_pprev n None (set_ptr (CNext n) None h).

Definition hlist_unhashed n h : bool := bool_decide (pprev h !! n = None).

Definition hlist_empty b h : bool := bool_decide (hptr h !! CFirst b = None).

Definition __hlist_del n h : res (hheap B L) :=
  let next := hptr h !! CNext n in
  let* pp := deref (pprev h !! n) in
  let h := set_ptr pp next h in
  Ok (match next with Some x => set_pprev x (Some pp) h | None => h end).

Definition hlist_del n h : res (hheap B L) :=
  let* h := __hlist_del n h in
  Ok (set_pprev n None (set_ptr (CNext n) None h)).

Definition hlist_del_init n h : res (hheap B L) :=
  if hlist_unhashed n h then Ok h
  else let* h := __hlist_del n h in Ok (init_hlist_node n h).

Definition hlist_add_head n b h : hheap B L :=
  let first := hptr h !! CFirst b in
  let h := set_ptr (CNext n) first h in
  let h := match first with Some x => set_pprev x (Some (CNext n)) h | None => h end in
  set_pprev n (Some (CFirst b)) (set_ptr (CFirst b) (Some n) h).

Definition hlist_add_before n (next : L) h : res (hheap B L) :=
  let* pp := deref (pprev h !! next) in
  let h := set_pprev n (Some pp) h in
  let h := set_ptr (CNext n) (Some next) h in
  let h := set_pprev next (Some (CNext n)) h in
  Ok (set_ptr pp (Some n) h).

Definition hlist_add_behind n (prev : L) h : hheap B L :=
  let h := set_ptr (CNext n) (hptr h !! CNext prev) h in
  let h := set_ptr (CNext prev) (Some n) h in
  let h := set_pprev n (Some (CNext prev)) h in
  match hptr h !! CNext n with
  | Some x => set_pprev x (Some (CNext n)) h
  | None => h
  end.

Definition hlist_add_fake n h : hheap B L := set_pprev n (Some (CNext n)) h.

Definition hlist_fake n h : bool := bool_decide (pprev h !! n = Some (CNext n)).

Definition hlist_is_singular_node n b h : bool :=
  bool_decide (hptr h !! CNext n = None) && bool_decide (pprev h !! n = Some (CFirst b)).

Definition hlist_move_list (old new : B) h : hheap B L :=
  let h := set_ptr (CFirst new) (hptr h !! CFirst old) h in
  let h := match hptr h !! CFirst new with
           | Some x => set_pprev x (Some (CFirst new)) h
           | None => h
           end in
  set_ptr (CFirst old) None h.

(** [hlist_for_each]: the nodes visited. *)
Fixpoint hlist_walk (fuel : nat) (pos : option L) h : res (list L) :=
  match pos with
  | None => Ok []
  | Some n =>
      match fuel with
      | O => Undef
      | S fuel => let* rest := hlist_walk fuel (hptr h !! CNext n) h in Ok (n :: rest)
      end
  end.

Definition hlist_for_each (fuel : nat) b h : res (list L) := hlist_walk fuel (hptr h !! CFirst b) h.
End ops.

Section spec.
Context {B L : Type} `{Countable B, Countable L}.
Implicit Types (h : hheap B L) (b : B) (n x : L) (c : hcell B L) (xs ys : list L).

Fixpoint hchain h c xs : Prop :=
  match xs with
  | [] => hptr h !! c = None
  | x :: xs => hptr h !! c = Some x /\ pprev h !! x = Some c /\ hchain h (CNext x) xs
  end.

Definition hlist h b xs : Prop := hchain h (CFirst b) xs /\ NoDup xs.

Lemma hchain_frame h h' c xs :
  hptr h' !! c = hptr h !! c ->
  (forall x, x ∈ xs -> hptr h' !! CNext x = hptr h !! CNext x /\ pprev h' !! x = pprev h !! x) ->
  hchain h c xs -> hchain h' c xs.
Proof.
  revert c. induction xs as [|x xs IH]; intros c Hc Hx; cbn; [by rewrite Hc|].
  destruct (Hx x ltac:(set_solver)) as [E1 E2]. rewrite Hc, E2. intros (? & ? & ?). split_and!; [done..|].
  apply IH; [done|set_solver|done].
Qed.

(** Heads other than [bs] and nodes other than [ns] are as before. *)
Definition hsame (bs : list B) (ns : list L) h h' : Prop :=
  (forall b, b ∉ bs -> hptr h' !! CFirst b = hptr h !! CFirst b) /\
  (forall n, n ∉ ns -> hptr h' !! CNext n = hptr h !! CNext n /\ pprev h' !! n = pprev h !! n).

Lemma hlist_frame h h' bs ns b xs :
  hsame bs ns h h' -> b ∉ bs -> xs ## ns -> hlist h b xs -> hlist h' b xs.
Proof.
  intros [Hb Hn] Hbn Hd [Hc Hnd]. split; [|done]. eapply hchain_frame, Hc; [by apply Hb|].
  intros x Hx. apply Hn. set_solver.
Qed.

Lemma hlist_init h b : hlist (init_hlist_head b h) b [].
Proof. split; [apply lookup_delete_eq|constructor]. Qed.

Lemma hlist_init_same h b : hsame [b] [] h (init_hlist_head b h).
Proof.
  split; intros x Hx; cbn; rewrite lookup_delete_ne; try done. intros [= ->]. set_solver.
Qed.

Lemma hlist_add_head_spec h b xs n :
  hlist h b xs -> n ∉ xs ->
  hlist (hlist_add_head n b h) b (n :: xs) /\ hsame [b] (n :: xs) h (hlist_add_head n b h).
Proof.
  intros [Hc Hnd] Hn. unfold hlist_add_head. destruct xs as [|x xs]; cbn in Hc.
  - rewrite Hc. split; [split; [|apply NoDup_singleton]|split].
    + cbn. rewrite lookup_insert_eq. split_and!; [done|apply lookup_insert_eq|].
      rewrite lookup_insert_ne by done. apply lookup_delete_eq.
    + intros b' Hb. cbn. rewrite lookup_insert_ne, lookup_delete_ne; [done|done|set_solver].
    + intros m Hm. cbn. rewrite !lookup_insert_ne, lookup_delete_ne; set_solver.
  - destruct Hc as (H1 & H2 & H3). rewrite H1. rewrite NoDup_cons in Hnd. destruct Hnd as [Hx Hnd].
    split; [split; [|by rewrite !NoDup_cons; set_solver]|split].
    + cbn. rewrite lookup_insert_eq. split_and!; [done|apply lookup_insert_eq| | |].
      * rewrite lookup_insert_ne by done. apply lookup_insert_eq.
      * rewrite lookup_insert_ne by set_solver. apply lookup_insert_eq.
      * eapply hchain_frame, H3; cbn; [by rewrite !lookup_insert_ne by set_solver|].
        intros y Hy. rewrite !lookup_insert_ne by set_solver. done.
    + intros b' Hb. cbn. rewrite !lookup_insert_ne by set_solver. done.
    + intros m Hm. cbn. rewrite !lookup_insert_ne by set_solver. done.
Qed.

(** The cell that points to the node after the prefix [l1]. *)
Definition last_cell c (l1 : list L) : hcell B L := match last l1 with Some y => CNext y | None => c end.

Lemma last_cell_cons c y l1 : last_cell c (y :: l1) = last_cell (CNext y) l1.
Proof. unfold last_cell. rewrite last_cons. by destruct (last l1). Qed.

Lemma hchain_app h c l1 ys :
  hchain h c (l1 ++ ys) -> hchain h (last_cell c l1) ys.
Proof.
  revert c. induction l1 as [|y l1 IH]; intros c Hc; [done|]. rewrite last_cell_cons. apply IH. apply Hc.
Qed.

Lemma hchain_app_intro h h' c l1 ys zs :
  NoDup (l1 ++ ys) -> hchain h c (l1 ++ ys) ->
  (l1 <> [] -> hptr h' !! c = hptr h !! c) ->
  (forall y, y ∈ l1 -> pprev h' !! y = pprev h !! y /\
                       (last_cell c l1 <> CNext y -> hptr h' !! CNext y = hptr h !! CNext y)) ->
  hchain h' (last_cell c l1) zs -> hchain h' c (l1 ++ zs).
Proof.
  revert c. induction l1 as [|y l1 IH]; intros c Hnd Hc H1 H2 Hz; [done|]. rewrite last_cell_cons in *.
  cbn [app hchain] in *. destruct Hc as (Ha & Hb & Hc). rewrite NoDup_cons in Hnd. destruct Hnd as [Hy Hnd].
  destruct (H2 y ltac:(set_solver)) as [E1 E2]. split_and!; [by rewrite H1|by rewrite E1|].
  apply IH; [done|done| |intros z Hz'; apply H2; set_solver|done].
  intros Hne. apply E2. unfold last_cell. destruct l1 as [|w l1 _] using rev_ind; [done|].
  rewrite last_snoc. intros [= ->]. set_solver.
Qed.

Lemma hlist_del_spec h b l1 n l2 :
  hlist h b (l1 ++ n :: l2) ->
  exists h', hlist_del n h = Ok h' /\ hlist h' b (l1 ++ l2) /\ hsame [b] (l1 ++ n :: l2) h h'.
Proof.
  intros [Hc Hnd]. pose proof (hchain_app _ _ _ _ Hc) as (Ha & Hb & Hr).
  set (pp := last_cell (CFirst b) l1) in *. unfold hlist_del, __hlist_del. rewrite Hb. cbn [deref res_bind].
  assert (Hpp : pp <> CNext n /\ ((exists y, pp = CNext y /\ y ∈ l1) \/ pp = CFirst b)).
  { subst pp. unfold last_cell. destruct l1 as [|w l1 _] using rev_ind; [by split; [|right]|]. rewrite last_snoc.
    rewrite <- app_assoc in Hnd. split; [intros [= ->]|left; exists w; set_solver].
    apply NoDup_app in Hnd as (_ & _ & Hnd). cbn in Hnd. rewrite !NoDup_cons in Hnd. set_solver. }
  destruct Hpp as [Hpn Hpc]. eexists. split; [done|].
  assert (Hnn : (n ∉ l1) /\ (n ∉ l2) /\ NoDup (l1 ++ l2)).
  { pose proof Hnd as Hnd'. rewrite <- (Permutation_middle l1 l2 n), NoDup_cons in Hnd'. set_solver. }
  destruct Hnn as (Hn1 & Hn2 & Hnd12). set (h' := set_pprev n None _).
  assert (Hkeep_p : forall y, y <> n -> head l2 <> Some y -> pprev h' !! y = pprev h !! y).
  { intros y Hy Hh. subst h'. destruct l2 as [|z l2]; cbn in Hr.
    - rewrite Hr. cbn. by rewrite lookup_delete_ne.
    - destruct Hr as (-> & _ & _). cbn. rewrite lookup_delete_ne by done. apply lookup_insert_ne. intros ->. by apply Hh. }
  assert (Hkeep : forall c, c <> CNext n -> c <> pp -> hptr h' !! c = hptr h !! c).
  { intros c Hcn Hcp. subst h'. destruct (hptr h !! CNext n); cbn;
      rewrite lookup_delete_ne by done; by (rewrite lookup_insert_ne || rewrite lookup_delete_ne). }
  assert (Hp' : hptr h' !! pp = hptr h !! CNext n).
  { subst h'. destruct (hptr h !! CNext n) eqn:E; cbn; rewrite lookup_delete_ne by done;
      [apply lookup_insert_eq|apply lookup_delete_eq]. }
  assert (Hdis12 : forall y, y ∈ l1 -> y ∉ l2) by (rewrite NoDup_app in Hnd12; set_solver).
  split; [split; [|done]|split].
  - apply (hchain_app_intro h h' _ l1 (n :: l2)); [done|done| | |].
    + intros Hne. apply Hkeep; [done|]. subst pp. unfold last_cell. destruct l1 as [|w l1 _] using rev_ind; [done|].
      by rewrite last_snoc.
    + intros y Hy. split.
      * apply Hkeep_p; [set_solver|]. intros Hh. apply (Hdis12 y Hy). destruct l2; [done|]. cbn in Hh. set_solver.
      * intros Hne. apply Hkeep; [intros [= ->]; set_solver|done].
    + fold pp. destruct l2 as [|z l2]; [change (hptr h' !! pp = None); by rewrite Hp'|].
      destruct Hr as (Hz1 & Hz2 & Hz3). split_and!; [by rewrite Hp'| |].
      * subst h'. rewrite Hz1. cbn. rewrite lookup_delete_ne by set_solver. apply lookup_insert_eq.
      * rewrite !NoDup_cons in Hnd12 || idtac. eapply hchain_frame, Hz3.
        -- apply Hkeep; [intros [= ->]; set_solver|]. destruct Hpc as [(y & -> & Hy)| ->]; [|done].
           intros [= ->]. by apply (Hdis12 y); [|left].
        -- intros y Hy. assert (y ∉ l1) by (intros Hy1; by apply (Hdis12 y Hy1); right). split.
           ++ apply Hkeep; [intros [= ->]; set_solver|].
              destruct Hpc as [(w & -> & Hw)| ->]; [|done]. intros [= ->]. done.
           ++ apply Hkeep_p; [set_solver|]. cbn. intros [= ->]. apply NoDup_app in Hnd12 as (_ & _ & Hz).
              rewrite NoDup_cons in Hz. tauto.
  - intros b' Hb'. apply Hkeep; [done|]. destruct Hpc as [(y & -> & Hy)| ->]; [done|]. intros [= ->]. set_solver.
  - intros m Hm. split.
    + apply Hkeep; [intros [= ->]; set_solver|]. destruct Hpc as [(y & -> & Hy)| ->]; [|done].
      intros [= ->]. set_solver.
    + apply Hkeep_p; [set_solver|]. intros Hh. destruct l2; [done|]. cbn in Hh. set_solver.
Qed.

Lemma hlist_walk_spec fuel h c xs :
  hchain h c xs -> (length xs <= fuel)%nat -> hlist_walk fuel (hptr h !! c) h = Ok xs.
Proof.
  revert c xs. induction fuel as [|fuel IH]; intros c xs Hc Hf; destruct xs as [|x xs]; cbn in Hf; try lia;
    cbn in Hc; [by rewrite Hc..|]. destruct Hc as (Ha & _ & Hc). rewrite Ha. cbn [hlist_walk].
  rewrite (IH (CNext x) xs Hc) by lia. done.
Qed.

Lemma hlist_for_each_spec fuel h b xs :
  hlist h b xs -> (length xs <= fuel)%nat -> hlist_for_each fuel b h = Ok xs.
Proof. intros [Hc _]. by apply hlist_walk_spec. Qed.
End spec.
