(* ===== verification/LSortProof.v ===== *)
(** * LSortProof: lib/lsort.c is a stable sort

    The heap code refines a sort on lists of entries ([alist] below), which is
    shown to be a stable sort for every comparison callback that is a total
    preorder. *)

From stdpp Require Import sorting.
From S2P Require Import Prelude ListHead LSort.

(** ** NULL-terminated chains *)

Section chain.
Context {L : Type} `{Countable L}.
Implicit Types (f g : gmap L L) (o : option L) (xs ys : list L).

(** [o] points to the entries [xs], linked through [f] and ended by NULL. *)
Fixpoint nchain f o xs : Prop :=
  match xs with
  | [] => o = None
  | x :: xs => o = Some x /\ nchain f (f !! x) xs
  end.

Lemma nchain_frame f g o xs :
  (forall y, y ∈ xs -> g !! y = f !! y) -> nchain f o xs -> nchain g o xs.
Proof.
  revert o. induction xs as [|x xs IH]; intros o Hy; [done|]. intros [-> Hc]. split; [done|].
  rewrite Hy by set_solver. apply IH; [set_solver|done].
Qed.

Lemma nchain_head f o xs : nchain f o xs -> o = head xs.
Proof. destruct xs; cbn; [done|]. by intros [? _]. Qed.

(** Closing a chain into a circle through [t]. *)
Lemma nchain_path f t xs z :
  NoDup (t :: xs) -> nchain f (f !! t) xs -> path (<[last_of t xs := z]> f) t xs z.
Proof.
  revert t. induction xs as [|x xs IH]; intros t Hnd Hc.
  - cbn. by rewrite lookup_insert_eq.
  - rewrite last_of_cons. destruct Hc as [Ht Hc]. rewrite NoDup_cons in Hnd. destruct Hnd as [Hn Hnd].
    split; [|by apply IH]. pose proof (last_of_elem x xs). rewrite lookup_insert_ne by set_solver. done.
Qed.

(** The entries [xs] after [t] all point back to their predecessor. *)
Fixpoint blinked f (t : L) xs : Prop :=
  match xs with
  | [] => True
  | x :: xs => f !! x = Some t /\ blinked f x xs
  end.

Lemma blinked_frame f g t xs :
  (forall y, y ∈ xs -> g !! y = f !! y) -> blinked f t xs -> blinked g t xs.
Proof.
  revert t. induction xs as [|x xs IH]; intros t Hy; [done|]. intros [Hx Hb].
  split; [by rewrite Hy by set_solver|]. apply IH; [set_solver|done].
Qed.

Lemma blinked_app f t xs ys :
  blinked f t (xs ++ ys) <-> blinked f t xs /\ blinked f (last_of t xs) ys.
Proof.
  revert t. induction xs as [|x xs IH]; intros t; [cbn; tauto|].
  cbn [app blinked]. rewrite IH, last_of_cons. tauto.
Qed.

Lemma blinked_path f a t xs :
  blinked f t xs -> f !! a = Some (last_of t xs) -> path f a (reverse xs) t.
Proof.
  revert a. induction xs as [|x xs IH] using rev_ind; intros a Hb Ha; [done|].
  apply blinked_app in Hb as [Hb [Hx _]]. rewrite last_of_snoc in Ha.
  rewrite reverse_app. split; [done|]. by apply IH.
Qed.

Lemma last_of_app (t : L) xs ys : last_of t (xs ++ ys) = last_of (last_of t xs) ys.
Proof.
  revert t. induction xs as [|x xs IH]; intros t; [done|]. cbn [app]. by rewrite !last_of_cons, IH.
Qed.
End chain.

(** ** The heap operations on chains *)

Section refine.
Context {L : Type} `{Countable L} (cmp : L -> L -> Z).
Implicit Types (h : lheap L) (xs ys : list L).

Definition le (x y : L) : Prop := cmp x y <= 0.
#[local] Instance le_dec x y : Decision (le x y) := decide (cmp x y <= 0).

Abbreviation mrg := (list_merge le).

Lemma mrg_nil_r xs : mrg xs [] = xs.
Proof. by destruct xs. Qed.

Lemma mrg_cons x y xs ys :
  mrg (x :: xs) (y :: ys) = if cmp x y <=? 0 then x :: mrg xs (y :: ys) else y :: mrg (x :: xs) ys.
Proof.
  cbn. unfold le. destruct (decide (cmp x y <= 0)) as [Hd|Hd], (Z.leb_spec (cmp x y) 0); done || lia.
Qed.

(** Only the [next] fields of [ns] change. *)
Definition next_outside (ns : list L) h h' : Prop :=
  lprev h' = lprev h /\ forall z, z ∉ ns -> lnext h' !! z = lnext h !! z.

Lemma set_next_opt_lookup p v h : lnext (set_next_opt p v h) !! p = v.
Proof. destruct v; cbn; [apply lookup_insert_eq|apply lookup_delete_eq]. Qed.

Lemma set_next_opt_ne p v h z : z <> p -> lnext (set_next_opt p v h) !! z = lnext h !! z.
Proof. intros. destruct v; cbn; [by apply lookup_insert_ne|by apply lookup_delete_ne]. Qed.

Lemma next_outside_trans ns h1 h2 h3 :
  next_outside ns h1 h2 -> next_outside ns h2 h3 -> next_outside ns h1 h3.
Proof. intros [? H1] [? H2]. split; [congruence|]. intros z Hz. by rewrite H2, H1. Qed.

Lemma next_outside_weaken ns ns' h h' : ns ⊆ ns' -> next_outside ns h h' -> next_outside ns' h h'.
Proof. intros Hs [? H1]. split; [done|]. intros z Hz. apply H1. set_solver. Qed.

Lemma next_outside_set p v h ns : p ∈ ns -> next_outside ns h (set_next_opt p v h).
Proof. intros Hp. split; [done|]. intros z Hz. apply set_next_opt_ne. set_solver. Qed.

(** The loop behind a node [t]. *)
Lemma merge_loop_tail fuel t a b xs ys h hn :
  nchain (lnext h) a xs -> nchain (lnext h) b ys -> NoDup (t :: xs ++ ys) ->
  (length xs + length ys <= fuel)%nat ->
  exists h', merge_loop cmp fuel (Some t) a b (h, hn) = Ok (h', hn) /\
    nchain (lnext h') (lnext h' !! t) (mrg xs ys) /\ next_outside (t :: xs ++ ys) h h'.
Proof.
  revert t a b xs ys h. induction fuel as [|fuel IH]; intros t a b xs ys h Ha Hb Hnd Hf.
  { destruct xs, ys; cbn in Hf; try lia. cbn in Ha, Hb. subst. cbn.
    eexists. split; [done|]. split; [apply lookup_delete_eq|]. apply next_outside_set. set_solver. }
  rewrite NoDup_cons, NoDup_app in Hnd. destruct Hnd as (Ht & Hndx & Hdis & Hndy).
  destruct xs as [|x xs], ys as [|y ys].
  - cbn in Ha, Hb. subst. cbn. eexists. split; [done|].
    split; [apply lookup_delete_eq|]. apply next_outside_set. set_solver.
  - cbn in Ha. destruct Hb as [-> Hb]. subst a. cbn [merge_loop set_tail fst snd].
    eexists. split; [done|]. split; [|apply next_outside_set; set_solver].
    rewrite set_next_opt_lookup. split; [done|]. rewrite set_next_opt_ne by set_solver.
    eapply nchain_frame, Hb. intros z Hz. apply set_next_opt_ne. set_solver.
  - cbn in Hb. destruct Ha as [-> Ha]. subst b. cbn [merge_loop set_tail fst snd].
    eexists. split; [done|]. rewrite mrg_nil_r. split; [|apply next_outside_set; set_solver].
    rewrite set_next_opt_lookup. split; [done|]. rewrite set_next_opt_ne by set_solver.
    eapply nchain_frame, Ha. intros z Hz. apply set_next_opt_ne. set_solver.
  - destruct Ha as [-> Ha], Hb as [-> Hb]. rewrite mrg_cons. cbn [merge_loop set_tail fst snd].
    rewrite !NoDup_cons in *. cbn [length] in Hf.
    assert (Hkeep : forall v o zs, t ∉ zs -> nchain (lnext h) o zs -> nchain (lnext (set_next_opt t v h)) o zs).
    { intros v o zs Hz. apply nchain_frame. intros z' Hz'. apply set_next_opt_ne. set_solver. }
    destruct (cmp x y <=? 0).
    + destruct (IH x (lnext (set_next_opt t (Some x) h) !! x) (Some y) xs (y :: ys) (set_next_opt t (Some x) h))
        as (h' & E & Hc & Ho).
      * rewrite set_next_opt_ne by set_solver. apply Hkeep; [set_solver|done].
      * apply Hkeep; [set_solver|done].
      * rewrite NoDup_cons, NoDup_app, NoDup_cons. set_solver.
      * cbn. lia.
      * exists h'. split; [done|]. split.
        -- split; [|done]. rewrite (proj2 Ho) by set_solver. apply set_next_opt_lookup.
        -- eapply next_outside_trans; [apply (next_outside_set t (Some x)); set_solver|].
           eapply next_outside_weaken, Ho. set_solver.
    + destruct (IH y (Some x) (lnext (set_next_opt t (Some y) h) !! y) (x :: xs) ys (set_next_opt t (Some y) h))
        as (h' & E & Hc & Ho).
      * apply Hkeep; [set_solver|done].
      * rewrite set_next_opt_ne by set_solver. apply Hkeep; [set_solver|done].
      * rewrite NoDup_cons, NoDup_app, NoDup_cons. set_solver.
      * cbn. lia.
      * exists h'. split; [done|]. split.
        -- split; [|done]. rewrite (proj2 Ho) by set_solver. apply set_next_opt_lookup.
        -- eapply next_outside_trans; [apply (next_outside_set t (Some y)); set_solver|].
           eapply next_outside_weaken, Ho. set_solver.
Qed.

Lemma merge_spec fuel a b xs ys h :
  nchain (lnext h) a xs -> nchain (lnext h) b ys -> NoDup (xs ++ ys) ->
  (length xs + length ys <= fuel)%nat ->
  exists h' r, merge cmp fuel a b h = Ok (h', r) /\
    nchain (lnext h') r (mrg xs ys) /\ next_outside (xs ++ ys) h h'.
Proof.
  intros Ha Hb Hnd Hf. unfold merge. destruct xs as [|x xs], ys as [|y ys].
  - cbn in Ha, Hb. subst. destruct fuel; by eexists h, None.
  - cbn in Ha. destruct Hb as [-> Hb]. subst a. exists h, (Some y). by destruct fuel.
  - cbn in Hb. destruct Ha as [-> Ha]. subst b. exists h, (Some x). rewrite mrg_nil_r. by destruct fuel.
  - destruct Ha as [-> Ha], Hb as [-> Hb]. destruct fuel as [|fuel]; [cbn in Hf; lia|].
    rewrite mrg_cons. cbn [merge_loop set_tail fst snd length] in *.
    cbn [app] in Hnd. rewrite <- (Permutation_middle xs ys y), !NoDup_cons, NoDup_app in Hnd.
    destruct (cmp x y <=? 0).
    + destruct (merge_loop_tail fuel x (lnext h !! x) (Some y) xs (y :: ys) h (Some x)) as (h' & E & Hc & Ho);
        [done|done|rewrite NoDup_cons, NoDup_app, NoDup_cons; set_solver|cbn; lia|].
      exists h', (Some x). split; [done|]. split; [done|]. eapply next_outside_weaken, Ho. set_solver.
    + destruct (merge_loop_tail fuel y (Some x) (lnext h !! y) (x :: xs) ys h (Some y)) as (h' & E & Hc & Ho);
        [done|done|rewrite NoDup_cons, NoDup_app, NoDup_cons; set_solver|cbn; lia|].
      exists h', (Some y). split; [done|]. split; [done|]. eapply next_outside_weaken, Ho. set_solver.
Qed.

(** ** Restoring the back links *)

Lemma restore_loop_spec fuel t a b xs ys h :
  nchain (lnext h) a xs -> nchain (lnext h) b ys -> NoDup (t :: xs ++ ys) -> xs ++ ys <> [] ->
  (length xs + length ys <= fuel)%nat ->
  exists h' m1 m2, restore_loop cmp fuel t a b h = Ok (h', last_of t m1) /\
    mrg xs ys = m1 ++ m2 /\ m2 <> [] /\ nchain (lnext h') (lnext h' !! t) (m1 ++ m2) /\
    blinked (lprev h') t m1 /\ (forall z, z ∉ m1 -> lprev h' !! z = lprev h !! z) /\
    (forall z, z ∉ t :: xs ++ ys -> lnext h' !! z = lnext h !! z).
Proof.
  revert t a b xs ys h. induction fuel as [|fuel IH]; intros t a b xs ys h Ha Hb Hnd Hne Hf.
  { destruct xs, ys; cbn in Hf; done || lia. }
  rewrite NoDup_cons, NoDup_app in Hnd. destruct Hnd as (Ht & Hndx & Hdis & Hndy).
  assert (Hend : forall z zs (v := Some z), t ∉ z :: zs -> nchain (lnext h) v (z :: zs) ->
            nchain (lnext (set_next_opt t v h)) (lnext (set_next_opt t v h) !! t) (z :: zs)).
  { intros z zs v Hz Hc. rewrite set_next_opt_lookup. eapply nchain_frame, Hc.
    intros z' Hz'. apply set_next_opt_ne. set_solver. }
  destruct xs as [|x xs], ys as [|y ys]; [done| | |].
  - cbn in Ha. pose proof Hb as [-> _]. subst a. cbn [restore_loop].
    exists (set_next_opt t (Some y) h), [], (y :: ys). split_and!; try done; [by apply Hend|].
    intros z Hz. apply set_next_opt_ne. set_solver.
  - cbn in Hb. pose proof Ha as [-> _]. subst b. cbn [restore_loop].
    exists (set_next_opt t (Some x) h), [], (x :: xs). rewrite mrg_nil_r. rewrite app_nil_r in Ht.
    split_and!; try done; [by apply Hend|]. intros z Hz. apply set_next_opt_ne. set_solver.
  - destruct Ha as [-> Ha], Hb as [-> Hb]. rewrite mrg_cons. cbn [restore_loop].
    rewrite !NoDup_cons in *. cbn [length] in Hf.
    assert (Hstep : forall v p q xs' ys', (v = x \/ v = y) -> t ∉ xs' ++ ys' -> NoDup (v :: xs' ++ ys') ->
      xs' ++ ys' <> [] -> nchain (lnext h) p xs' -> nchain (lnext h) q ys' ->
      (length xs' + length ys' <= fuel)%nat -> v :: xs' ++ ys' ⊆ x :: xs ++ y :: ys ->
      exists h' m1 m2, restore_loop cmp fuel v p q (set_prev v t (set_next t v h)) = Ok (h', last_of t m1) /\
        v :: mrg xs' ys' = m1 ++ m2 /\ m2 <> [] /\ nchain (lnext h') (lnext h' !! t) (m1 ++ m2) /\
        blinked (lprev h') t m1 /\ (forall z, z ∉ m1 -> lprev h' !! z = lprev h !! z) /\
        (forall z, z ∉ t :: x :: xs ++ y :: ys -> lnext h' !! z = lnext h !! z)).
    { intros v p q xs' ys' Hv Htn Hnv Hne' Hp Hq Hl Hsub.
      assert (Hkeep : forall o zs, t ∉ zs -> nchain (lnext h) o zs ->
                nchain (lnext (set_prev v t (set_next t v h))) o zs).
      { intros o zs Hz. apply nchain_frame. intros z' Hz'. apply lookup_insert_ne. set_solver. }
      destruct (IH v p q xs' ys' (set_prev v t (set_next t v h))) as (h' & m1 & m2 & E & Em & Hm2 & Hc & Hbl & Hpo & Hno);
        [apply Hkeep; [set_solver|done]|apply Hkeep; [set_solver|done]|done..|].
      assert (Hvt : v <> t) by (destruct Hv; subst; set_solver).
      assert (Hvm : v ∉ m1).
      { intros Hvm. assert (v ∈ mrg xs' ys') as Hin by (rewrite Em; set_solver).
        rewrite (merge_Permutation le) in Hin. rewrite NoDup_cons in Hnv. tauto. }
      exists h', (v :: m1), m2. rewrite last_of_cons. cbn [app]. split_and!; [done|by rewrite Em|done| | | |].
      - split; [|done]. rewrite Hno; [apply lookup_insert_eq|]. intros [?|?]%elem_of_cons; [done|set_solver].
      - split; [|done]. rewrite Hpo by done. apply lookup_insert_eq.
      - intros z Hz. rewrite Hpo by set_solver. apply lookup_insert_ne. set_solver.
      - intros z Hz. rewrite Hno by set_solver. apply lookup_insert_ne. set_solver. }
    destruct (cmp x y <=? 0).
    + apply (Hstep x _ _ xs (y :: ys)); [by left|set_solver| |by destruct xs| |by split|cbn; lia|done].
      * rewrite NoDup_cons, NoDup_app, NoDup_cons. set_solver.
      * cbn [set_prev set_next lnext]. rewrite lookup_insert_ne by set_solver. done.
    + apply (Hstep y _ _ (x :: xs) ys); [by right|set_solver| |done|by split| |cbn; lia|set_solver].
      * rewrite NoDup_cons, NoDup_app, NoDup_cons. set_solver.
      * cbn [set_prev set_next lnext]. rewrite lookup_insert_ne by set_solver. done.
Qed.

Lemma restore_prev_spec fuel t xs h :
  nchain (lnext h) (lnext h !! t) xs -> xs <> [] -> NoDup (t :: xs) -> (length xs <= fuel)%nat ->
  exists h', restore_prev fuel t h = Ok (h', last_of t xs) /\ lnext h' = lnext h /\
    blinked (lprev h') t xs /\ forall z, z ∉ xs -> lprev h' !! z = lprev h !! z.
Proof.
  revert t xs h. induction fuel as [|fuel IH]; intros t xs h Hc Hne Hnd Hf; destruct xs as [|x xs]; try done;
    [cbn in Hf; lia|].
  destruct Hc as [Ht Hc]. cbn [restore_prev]. unfold get_next. rewrite Ht. cbn [deref res_bind].
  cbn [set_prev lnext]. rewrite (nchain_head _ _ _ Hc). destruct xs as [|y xs]; cbn [head].
  - eexists. split_and!; [done|done|split; [apply lookup_insert_eq|done]|].
    intros z Hz. apply lookup_insert_ne. set_solver.
  - rewrite NoDup_cons in Hnd. destruct Hnd as [Hn Hnd].
    destruct (IH x (y :: xs) (set_prev x t h)) as (h' & E & En & Hb & Ho);
      [done|done|done|cbn in *; lia|].
    rewrite last_of_cons.
    exists h'. split_and!; [exact E|done| |].
    + split; [|done]. rewrite NoDup_cons in Hnd. rewrite Ho by tauto. apply lookup_insert_eq.
    + intros z Hz. rewrite Ho by set_solver. apply lookup_insert_ne. set_solver.
Qed.

Lemma restore_back_links_spec fuel hd a b xs ys h :
  nchain (lnext h) a xs -> nchain (lnext h) b ys -> NoDup (hd :: xs ++ ys) -> xs ++ ys <> [] ->
  (length xs + length ys <= fuel)%nat ->
  exists h', merge_and_restore_back_links cmp fuel hd a b h = Ok h' /\ dlist h' hd (mrg xs ys) /\
    forall z, z ∉ hd :: xs ++ ys -> lnext h' !! z = lnext h !! z /\ lprev h' !! z = lprev h !! z.
Proof.
  intros Ha Hb Hnd Hne Hf. unfold merge_and_restore_back_links.
  destruct (restore_loop_spec fuel hd a b xs ys h Ha Hb Hnd Hne Hf)
    as (h1 & m1 & m2 & E1 & Em & Hm2 & Hc & Hb1 & Hp1 & Hn1). rewrite E1. cbn [res_bind].
  assert (Hperm : m1 ++ m2 ≡ₚ xs ++ ys) by (rewrite <- Em; apply (merge_Permutation le)).
  assert (Hndm : NoDup (hd :: m1 ++ m2)) by (by rewrite Hperm).
  assert (Hlen : (length m2 <= fuel)%nat).
  { apply Permutation_length in Hperm. rewrite !length_app in Hperm. lia. }
  assert (Hc2 : nchain (lnext h1) (lnext h1 !! last_of hd m1) m2).
  { clear - Hc. revert hd Hc. induction m1 as [|x m1 IH]; intros hd Hc; [done|].
    rewrite last_of_cons. apply IH. apply Hc. }
  destruct (restore_prev_spec fuel (last_of hd m1) m2 h1 Hc2 Hm2) as (h2 & E2 & En & Hb2 & Hp2); [|done|].
  { apply NoDup_cons. rewrite app_comm_cons, NoDup_app in Hndm. destruct Hndm as (_ & Hd & ?).
    split; [|done]. intros Hin. apply (Hd _ (last_of_elem hd m1) Hin). }
  rewrite E2. cbn [res_bind]. eexists. split; [done|].
  rewrite NoDup_cons, NoDup_app in Hndm. destruct Hndm as (Hhd & _ & Hdis & _).
  rewrite Em, <- last_of_app. split; [split; [|split]|].
  - by rewrite Hperm.
  - cbn [lnext set_prev set_next]. rewrite En. apply nchain_path; [by rewrite Hperm|done].
  - cbn [lprev set_prev set_next]. apply blinked_path; [|apply lookup_insert_eq].
    apply (blinked_frame (lprev h2)). { intros y Hy. apply lookup_insert_ne. set_solver. }
    apply blinked_app. split; [|done]. eapply blinked_frame, Hb1. intros y Hy. apply Hp2. set_solver.
  - intros z Hz. cbn. rewrite En.
    assert (Hz' : z ∉ hd :: m1 ++ m2) by (by rewrite elem_of_cons, Hperm, <- elem_of_cons).
    pose proof (last_of_elem hd (m1 ++ m2)). rewrite !lookup_insert_ne by set_solver.
    rewrite Hn1 by done. rewrite Hp2, Hp1 by set_solver. done.
Qed.

(** ** Distributing the entries over the parts *)

Definition parts_rel h (part : list (option L)) (P : list (list L)) : Prop :=
  Forall2 (nchain (lnext h)) part P.

Lemma parts_rel_frame h h' part P ns :
  next_outside ns h h' -> (forall z, z ∈ concat P -> z ∉ ns) -> parts_rel h part P -> parts_rel h' part P.
Proof.
  intros [_ Ho] Hd Hr. induction Hr as [|o p part P Hc Hr IH]; [constructor|].
  constructor; [|apply IH; cbn in Hd; set_solver].
  eapply nchain_frame, Hc. intros y Hy. apply Ho, Hd. cbn. set_solver.
Qed.

(** What a carry through the parts [Q] makes of [c]. *)
Definition carried (Q : list (list L)) (c : list L) : list L := foldl (fun c q => mrg q c) c Q.

Lemma carried_perm Q c : carried Q c ≡ₚ concat Q ++ c.
Proof.
  revert c. induction Q as [|q Q IH]; intros c; [done|]. cbn [carried foldl concat].
  change (foldl (fun c q => mrg q c) ?x Q) with (carried Q x). rewrite IH, (merge_Permutation le).
  by rewrite app_assoc, (Permutation_app_comm (concat Q) q).
Qed.

Lemma carry_spec fuel Q P2 part lev cur c h :
  Forall (fun q => q <> []) Q -> parts_rel h part (Q ++ [] :: P2) -> nchain (lnext h) cur c ->
  NoDup (concat Q ++ concat P2 ++ c) -> (length (concat Q ++ c) <= fuel)%nat ->
  exists part' cur' h', carry cmp fuel part lev cur h = Ok (part', (lev + length Q)%nat, cur', h') /\
    parts_rel h' part' (replicate (length Q) [] ++ [] :: P2) /\ nchain (lnext h') cur' (carried Q c) /\
    next_outside (concat Q ++ c) h h'.
Proof.
  intros HQ. revert part lev cur c h. induction HQ as [|q Q Hq HQ IH]; intros part lev cur c h Hr Hc Hnd Hf.
  - cbn [app] in Hr. pose proof Hr as Hr'. apply Forall2_cons_inv_r in Hr as (o & part' & Ho & _ & ->).
    cbn in Ho. subst o. exists (None :: part'), cur, h. cbn [carry length]. rewrite Nat.add_0_r. by split_and!.
  - cbn [app] in Hr. apply Forall2_cons_inv_r in Hr as (o & part' & Ho & Hr & ->).
    destruct q as [|x q]; [done|]. pose proof Ho as [-> _].
    cbn [concat] in Hnd, Hf. rewrite <- app_assoc in Hnd. rewrite length_app, length_app in Hf.
    assert (Hq1 : NoDup ((x :: q) ++ c) /\ (forall z, z ∈ concat Q ++ concat P2 -> z ∉ (x :: q) ++ c)).
    { rewrite !NoDup_app in *. set_solver. }
    destruct Hq1 as [Hq1 Hq2].
    destruct (merge_spec fuel (Some x) cur (x :: q) c h Ho Hc Hq1 ltac:(lia)) as (h1 & cur1 & E1 & Hc1 & Ho1).
    cbn [carry]. rewrite E1. cbn [res_bind].
    destruct (IH part' (S lev) cur1 (mrg (x :: q) c) h1) as (part2 & cur2 & h2 & E2 & Hr2 & Hc2 & Ho2).
    + apply (parts_rel_frame h h1 _ _ ((x :: q) ++ c)); [done| |done].
      intros z. rewrite concat_app. cbn [concat app]. apply Hq2.
    + done.
    + rewrite !NoDup_app in *. setoid_rewrite (merge_Permutation le). rewrite !NoDup_app. set_solver.
    + rewrite length_app, (merge_Permutation le), length_app. lia.
    + rewrite E2. cbn [res_bind]. exists (None :: part2), cur2, h2. cbn [length replicate app].
      split_and!; [by rewrite Nat.add_succ_r|by constructor|done|].
      apply (next_outside_trans _ _ h1); (eapply next_outside_weaken; [|done]); [set_solver|].
      intros z. cbn [concat]. rewrite !elem_of_app, (merge_Permutation le), elem_of_app. tauto.
Qed.

(** The entries of the parts, oldest first. *)
Definition flat (P : list (list L)) : list L := concat (reverse P).

Lemma flat_app P Q : flat (P ++ Q) = flat Q ++ flat P.
Proof. unfold flat. by rewrite reverse_app, concat_app. Qed.

Lemma flat_cons p P : flat (p :: P) = flat P ++ p.
Proof. change (p :: P) with ([p] ++ P). rewrite flat_app. unfold flat at 2. cbn. by rewrite app_nil_r. Qed.

Lemma flat_replicate n : flat (replicate n []) = [].
Proof. induction n as [|n IH]; [done|]. cbn [replicate]. by rewrite flat_cons, IH. Qed.

Lemma flat_perm P : flat P ≡ₚ concat P.
Proof.
  induction P as [|p P IH]; [done|]. rewrite flat_cons, IH. cbn. by rewrite Permutation_app_comm.
Qed.

(** ** The sort on lists *)

Definition eqv (z y : L) : Prop := le z y /\ le y z.
#[local] Instance eqv_dec z y : Decision (eqv z y) := _.

Context (cmp_total : forall x y, le x y \/ le y x) (cmp_trans : forall x y z, le x y -> le y z -> le x z).

Lemma filter_none z xs : (forall w, w ∈ xs -> ~ eqv z w) -> filter (eqv z) xs = [].
Proof.
  induction xs as [|x xs IH]; intros Hn; [done|]. rewrite filter_cons_False by (apply Hn; left).
  apply IH. intros w Hw. apply Hn. by right.
Qed.

Lemma filter_mrg z xs ys :
  StronglySorted le xs -> StronglySorted le ys ->
  filter (eqv z) (mrg xs ys) = filter (eqv z) xs ++ filter (eqv z) ys.
Proof.
  intros Hx. revert ys. induction Hx as [|x xs Hx IHx Hfx]; intros ys Hy; [by destruct ys|].
  induction Hy as [|y ys Hy IHy Hfy]; [by rewrite mrg_nil_r, app_nil_r|].
  rewrite mrg_cons. destruct (Z.leb_spec (cmp x y) 0) as [Hle|Hgt].
  - rewrite !(filter_cons _ x), IHx by (by constructor). by destruct (decide (eqv z x)).
  - rewrite (filter_cons _ y (mrg _ _)), IHy, (filter_cons _ y ys).
    destruct (decide (eqv z y)) as [[Hzy _]|]; [|done].
    replace (filter (eqv z) (x :: xs)) with ([] : list L); [done|]. symmetry.
    apply filter_none. (* no entry of [x :: xs] is equivalent to [z] *)
    intros w Hw [_ Hwz]. assert (Hxw : le x w).
    { apply elem_of_cons in Hw as [->|Hw]; [by destruct (cmp_total x x)|].
      rewrite Forall_forall in Hfx. by apply Hfx. }
    assert (le x y) by eauto. unfold le in *. lia.
Qed.

Lemma mrg_sorted xs ys :
  StronglySorted le xs -> StronglySorted le ys -> StronglySorted le (mrg xs ys).
Proof.
  intros Hx Hy. assert (Total le) by (intros ??; apply cmp_total).
  assert (Transitive le) by (intros ???; apply cmp_trans).
  apply Sorted_StronglySorted; [done|]. apply (Sorted_list_merge le); by apply StronglySorted_Sorted.
Qed.

Lemma carried_sorted Q c :
  Forall (StronglySorted le) Q -> StronglySorted le c -> StronglySorted le (carried Q c).
Proof.
  intros HQ. revert c. induction HQ as [|q Q Hq HQ IH]; intros c Hc; [done|]. cbn.
  apply IH. by apply mrg_sorted.
Qed.

Lemma filter_carried z Q c :
  Forall (StronglySorted le) Q -> StronglySorted le c ->
  filter (eqv z) (carried Q c) = filter (eqv z) (flat Q) ++ filter (eqv z) c.
Proof.
  intros HQ. revert c. induction HQ as [|q Q Hq HQ IH]; intros c Hc; [done|]. cbn [carried foldl].
  change (foldl (fun c q => mrg q c) ?x Q) with (carried Q x).
  rewrite IH, filter_mrg, flat_cons, filter_app, app_assoc by (done || by apply mrg_sorted). done.
Qed.

(** The entries [ys] are those of [xs], and equivalent ones are in the same order. *)
Definition same_order (xs ys : list L) : Prop :=
  ys ≡ₚ xs /\ forall z, filter (eqv z) ys = filter (eqv z) xs.

Record dinv (pre : list L) (P : list (list L)) (maxlev : nat) : Prop := {
  di_len : length P = ARRAY_SIZE_part;
  di_top : P !! 20%nat = Some [];
  di_max : (maxlev < 20)%nat;
  di_sorted : Forall (StronglySorted le) P;
  di_order : same_order pre (flat P);
  di_above i p : (maxlev < i)%nat -> P !! i = Some p -> p = [];
  di_last : match pre with [] => maxlev = O | _ => exists x p, P !! maxlev = Some (x :: p) end;
}.

Lemma dinv_init : dinv [] (replicate ARRAY_SIZE_part []) 0.
Proof.
  split; try done; [lia|repeat constructor|].
  intros i p _ Hp. by apply lookup_replicate in Hp as [-> _].
Qed.

(** The first free part. *)
Lemma first_empty (P : list (list L)) i :
  P !! i = Some [] -> exists Q P2, P = Q ++ [] :: P2 /\ Forall (fun q => q <> []) Q /\ (length Q <= i)%nat.
Proof.
  revert i. induction P as [|p P IH]; intros i Hi; [done|]. destruct p as [|x p].
  - exists [], P. split_and!; [done|constructor|cbn; lia].
  - destruct i as [|i]; [done|]. destruct (IH i Hi) as (Q & P2 & -> & HQ & Hl).
    exists ((x :: p) :: Q), P2. split_and!; [done|by constructor|cbn; lia].
Qed.

Definition adjust (lev maxlev : nat) : nat * nat :=
  if (maxlev <? lev)%nat
  then let lev := if (ARRAY_SIZE_part - 1 <=? lev)%nat then (lev - 1)%nat else lev in (lev, lev)
  else (lev, maxlev).

Lemma carried_cons Q x : exists y p, carried Q [x] = y :: p.
Proof.
  destruct (carried Q [x]) as [|y p] eqn:E; [|eauto]. pose proof (carried_perm Q [x]) as Hp.
  rewrite E in Hp. apply Permutation_nil_l in Hp. by destruct (concat Q).
Qed.

(** Where a carry through [Q] ends: at the level after [Q], or below it when all
    the levels are taken. *)
Lemma carry_level pre Q P2 maxlev :
  dinv pre (Q ++ [] :: P2) maxlev -> Forall (fun q => q <> []) Q ->
  let '(lev, maxlev') := adjust (length Q) maxlev in
  ((lev = length Q /\ (length Q < 20)%nat /\ maxlev' = Nat.max maxlev lev) \/
   (lev = 19%nat /\ maxlev' = 19%nat /\ length Q = 20%nat /\ P2 = [])).
Proof.
  intros [Hlen Htop Hmax _ _ Habove _] HQ. rewrite length_app in Hlen. cbn in Hlen. unfold ARRAY_SIZE_part in Hlen.
  unfold adjust, ARRAY_SIZE_part. destruct (Nat.ltb_spec maxlev (length Q)); cbn [Nat.sub].
  - destruct (Nat.leb_spec 20 (length Q)).
    + right. assert (length P2 = 0)%nat as Hl by lia. apply length_zero_iff_nil in Hl. split_and!; [lia..|done].
    + left. split_and!; lia.
  - left. split_and!; lia.
Qed.

Lemma insert_carried (Q P2 : list (list L)) (lev : nat) (C : list L) :
  (lev = length Q \/ (S lev = length Q /\ P2 = [])) ->
  exists k, <[lev := C]> (replicate (length Q) [] ++ [] :: P2) = replicate lev [] ++ C :: replicate k [] ++ P2.
Proof.
  intros [->|[Hl ->]].
  - exists 0%nat. rewrite insert_app_r_alt by (rewrite length_replicate; lia).
    by rewrite length_replicate, Nat.sub_diag.
  - exists 1%nat. rewrite <- Hl. rewrite (replicate_S_end lev), <- app_assoc.
    rewrite insert_app_r_alt by (rewrite length_replicate; lia). by rewrite length_replicate, Nat.sub_diag.
Qed.

Lemma flat_carried (Q P2 : list (list L)) (lev k : nat) (C : list L) :
  flat (replicate lev [] ++ C :: replicate k [] ++ P2) = flat P2 ++ C /\
  flat (Q ++ [] :: P2) = flat P2 ++ flat Q.
Proof.
  rewrite !flat_app, !flat_cons, flat_app, !flat_replicate, !app_nil_r. done.
Qed.

Lemma dinv_step pre P maxlev x :
  dinv pre P maxlev ->
  exists Q P2, P = Q ++ [] :: P2 /\ Forall (fun q => q <> []) Q /\
    let '(lev, maxlev') := adjust (length Q) maxlev in
    dinv (pre ++ [x]) (<[lev := carried Q [x]]> (replicate (length Q) [] ++ [] :: P2)) maxlev'.
Proof.
  intros Hd. destruct (first_empty P 20 (di_top _ _ _ Hd)) as (Q & P2 & -> & HQ & HlQ).
  exists Q, P2. split_and!; [done..|]. pose proof (carry_level _ _ _ _ Hd HQ) as Hlev.
  destruct (adjust (length Q) maxlev) as [lev maxlev'].
  destruct (carried_cons Q x) as (y & p & EC). set (C := carried Q [x]) in *.
  destruct (insert_carried Q P2 lev C) as [k EP]; [destruct Hlev as [(-> & _)|(-> & _ & -> & ->)]; auto|].
  destruct Hd as [Hlen Htop Hmax Hs Ho Habove Hlast]. rewrite Forall_app, Forall_cons in Hs. destruct Hs as (HsQ & _ & HsP).
  assert (HsC : StronglySorted le C) by (apply carried_sorted; [done|repeat constructor]).
  rewrite length_app in Hlen. cbn [length] in Hlen.
  split.
  - by rewrite length_insert, length_app, length_replicate.
  - rewrite list_lookup_insert_ne by (destruct Hlev as [?|?]; lia).
    destruct (decide (length Q = 20)%nat) as [El|Hne].
    + rewrite lookup_app_r by (rewrite length_replicate; lia). by rewrite length_replicate, El.
    + rewrite lookup_app_r in Htop by lia. rewrite lookup_app_r, length_replicate by (rewrite length_replicate; lia). done.
  - destruct Hlev as [(? & ? & ->)|(_ & -> & _)]; lia.
  - rewrite EP, !Forall_app, Forall_cons, Forall_app. split_and!; try done; apply Forall_replicate; constructor.
  - rewrite EP. destruct (flat_carried Q P2 lev k C) as [-> Eflat]. destruct Ho as [Hperm Hfilt].
    rewrite Eflat in Hperm, Hfilt. split.
    + rewrite <- Hperm. unfold C. rewrite (carried_perm Q [x]), <- (flat_perm Q). by rewrite app_assoc.
    + intros z. rewrite !filter_app. unfold C. rewrite filter_carried by first [done | repeat constructor].
      rewrite <- Hfilt, filter_app. by rewrite app_assoc.
  - intros i q Hi Hq. rewrite EP in Hq.
    assert (Hlm : (lev <= maxlev')%nat) by (destruct Hlev as [?|?]; lia).
    rewrite lookup_app_r in Hq by (rewrite length_replicate; lia). rewrite length_replicate in Hq.
    destruct (i - lev)%nat as [|j] eqn:Ej; [lia|]. cbn in Hq.
    apply lookup_app_Some in Hq as [Hq|[Hj Hq]]; [by apply lookup_replicate in Hq as [-> _]|].
    rewrite length_replicate in Hj, Hq. destruct Hlev as [(-> & ? & ->)|(_ & _ & _ & ->)]; [|done].
    assert (k = 0)%nat as ->.
    { apply (f_equal length) in EP. rewrite length_insert, !length_app, !length_replicate in EP. cbn in EP.
      rewrite length_app, length_replicate in EP. lia. }
    apply (Habove i); [lia|]. rewrite lookup_app_r by lia. rewrite Ej. cbn. by rewrite Nat.sub_0_r in Hq.
  - destruct (pre ++ [x]) as [|z l] eqn:Epre; [by destruct pre|]. rewrite EP.
    assert (Hlm : maxlev' = lev \/ (maxlev' = maxlev /\ lev = length Q /\ (lev < maxlev)%nat)) by (destruct Hlev as [?|?]; lia).
    destruct Hlm as [->|(-> & -> & Hlt)].
    + exists y, p. rewrite lookup_app_r by (rewrite length_replicate; lia).
      rewrite length_replicate, Nat.sub_diag. cbn. by rewrite EC.
    + destruct pre as [|w pre]; [lia|]. destruct Hlast as (w' & p' & Hlast).
      exists w', p'. rewrite <- EP. rewrite list_lookup_insert_ne by lia.
      rewrite lookup_app_r in Hlast by lia. rewrite lookup_app_r by (rewrite length_replicate; lia).
      by rewrite length_replicate.
Qed.

(** ** The whole sort *)

Lemma parts_rel_insert h part P i o c :
  parts_rel h part P -> nchain (lnext h) o c -> parts_rel h (<[i := o]> part) (<[i := c]> P).
Proof. intros Hr Hc. by apply Forall2_insert. Qed.

Lemma dinv_perm pre P maxlev : dinv pre P maxlev -> concat P ≡ₚ pre.
Proof. intros Hd. rewrite <- flat_perm. apply (di_order _ _ _ Hd). Qed.

Lemma distribute_spec fuel n o xs part P maxlev pre h :
  nchain (lnext h) o xs -> parts_rel h part P -> dinv pre P maxlev -> NoDup (pre ++ xs) ->
  (length (pre ++ xs) <= fuel)%nat -> (length xs <= n)%nat ->
  exists part' P' maxlev' h', distribute cmp fuel n o part maxlev h = Ok (part', maxlev', h') /\
    parts_rel h' part' P' /\ dinv (pre ++ xs) P' maxlev' /\ next_outside (pre ++ xs) h h'.
Proof.
  revert o xs part P maxlev pre h.
  induction n as [|n IH]; intros o xs part P maxlev pre h Hc Hr Hd Hnd Hf Hn.
  { destruct xs; [|cbn in Hn; lia]. cbn in Hc. subst o. rewrite app_nil_r. by exists part, P, maxlev, h. }
  destruct xs as [|x xs]; [cbn in Hc; subst o; rewrite app_nil_r; by exists part, P, maxlev, h|].
  destruct Hc as [-> Hc]. cbn [distribute].
  destruct (dinv_step pre P maxlev x Hd) as (Q & P2 & -> & HQ & Hd').
  pose proof (dinv_perm _ _ _ Hd) as Hperm. rewrite concat_app in Hperm. cbn [concat app] in Hperm.
  rewrite (cons_middle x pre xs), app_assoc in *. rewrite NoDup_app in Hnd. destruct Hnd as (Hnd1 & Hdis & Hnd2).
  assert (Hx : x ∉ pre).
  { rewrite NoDup_app in Hnd1. destruct Hnd1 as (_ & Hdx & _). intros Hx. apply (Hdx x Hx). left. }
  assert (Hcy : forall y, y ∈ xs -> y ∉ pre ++ [x]) by (intros y Hy Hy'; by apply (Hdis y)).
  set (h1 := set_next_opt x None h).
  destruct (carry_spec fuel Q P2 part 0 (Some x) [x] h1) as (part' & cur & h2 & E2 & Hr2 & Hc2 & Ho2).
  - done.
  - apply (parts_rel_frame h _ _ _ [x]); [apply next_outside_set; left| |done].
    intros z. rewrite concat_app. cbn [concat app]. rewrite Hperm.
    intros Hz ->%list_elem_of_singleton. done.
  - split; [done|]. apply set_next_opt_lookup.
  - by rewrite app_assoc, Hperm.
  - apply Permutation_length in Hperm. rewrite !length_app in *. cbn in *. lia.
  - rewrite E2. cbn [res_bind Nat.add]. fold (adjust (length Q) maxlev).
    destruct (adjust (length Q) maxlev) as [lev maxlev'] eqn:Ead.
    assert (Hns : next_outside (pre ++ [x]) h h2).
    { apply (next_outside_trans _ _ h1); [apply next_outside_set, elem_of_app; right; left|].
      eapply next_outside_weaken, Ho2. intros z. rewrite !elem_of_app, <- Hperm, elem_of_app. tauto. }
    destruct (IH (lnext h !! x) xs (<[lev := cur]> part') (<[lev := carried Q [x]]> (replicate (length Q) [] ++ [] :: P2))
                maxlev' (pre ++ [x]) h2) as (part3 & P3 & ml3 & h3 & E3 & Hr3 & Hd3 & Ho3).
    + eapply nchain_frame, Hc. intros y Hy. apply Hns. by apply Hcy.
    + by apply parts_rel_insert.
    + done.
    + by rewrite NoDup_app.
    + done.
    + cbn in Hn. lia.
    + exists part3, P3, ml3, h3. split_and!; [done..|].
      apply (next_outside_trans _ _ h2); [|done]. eapply next_outside_weaken, Hns. intros z. rewrite !elem_of_app. tauto.
Qed.

Lemma collect_spec fuel part P o acc h :
  parts_rel h part P -> nchain (lnext h) o acc -> NoDup (concat P ++ acc) ->
  (length (concat P ++ acc) <= fuel)%nat ->
  exists o' h', collect cmp fuel part o h = Ok (o', h') /\ nchain (lnext h') o' (carried P acc) /\
    next_outside (concat P ++ acc) h h'.
Proof.
  revert P o acc h. induction part as [|q part IH]; intros P o acc h Hr Hc Hnd Hf.
  { inversion Hr; subst. by exists o, h. }
  apply Forall2_cons_inv_l in Hr as (p & P' & Hp & Hr & ->). cbn [concat] in *.
  rewrite <- app_assoc in Hnd, Hf. rewrite !length_app in Hf.
  destruct q as [x|]; cbn [collect].
  - assert (Hq : NoDup (p ++ acc) /\ (forall z, z ∈ concat P' -> z ∉ p ++ acc)).
    { rewrite !NoDup_app in *. set_solver. }
    destruct Hq as [Hq1 Hq2].
    destruct (merge_spec fuel (Some x) o p acc h Hp Hc Hq1 ltac:(lia)) as (h1 & r & E1 & Hc1 & Ho1).
    rewrite E1. cbn [res_bind].
    destruct (IH P' r (mrg p acc) h1 (parts_rel_frame h h1 _ _ _ Ho1 Hq2 Hr) Hc1) as (o2 & h2 & E2 & Hc2 & Ho2).
    + rewrite (merge_Permutation le), Permutation_app_comm, <- app_assoc, (Permutation_app_comm acc). done.
    + rewrite length_app, (merge_Permutation le), length_app. lia.
    + exists o2, h2. split_and!; [done..|].
      apply (next_outside_trans _ _ h1); (eapply next_outside_weaken; [|done]); [set_solver|].
      intros z. rewrite !elem_of_app, (merge_Permutation le), elem_of_app. tauto.
  - assert (p = []) as -> by (destruct p; [done|by destruct Hp]).
    cbn [app] in *. destruct (IH P' o acc h Hr Hc Hnd) as (o2 & h2 & E2 & Hc2 & Ho2);
      [rewrite length_app; cbn in Hf; lia|]. exists o2, h2. split_and!; [done| |done].
    cbn [carried foldl]. by destruct acc.
Qed.

(** The parts up to [maxlev] hold everything. *)
Lemma parts_split pre P maxlev :
  dinv pre P maxlev -> pre <> [] ->
  exists x p, P !! maxlev = Some (x :: p) /\ flat P = (x :: p) ++ flat (take maxlev P).
Proof.
  intros Hd Hne. pose proof (di_last _ _ _ Hd) as Hl. destruct pre; [done|]. destruct Hl as (x & p & Hl).
  exists x, p. split; [done|]. rewrite <- (take_drop_middle P maxlev (x :: p)) at 1 by done.
  rewrite flat_app, flat_cons.
  assert (Habove : Forall (fun q => q = []) (drop (S maxlev) P)).
  { apply Forall_lookup. intros i q Hq. rewrite lookup_drop in Hq. eapply (di_above _ _ _ Hd); [|done]. lia. }
  assert (flat (drop (S maxlev) P) = []) as ->; [|done].
  induction Habove as [|q qs -> _ IH]; [done|]. by rewrite flat_cons, IH.
Qed.

Lemma path_nchain f (t z : L) xs :
  path f t xs z -> NoDup (t :: xs) -> xs <> [] ->
  nchain (delete (last_of t xs) f) (delete (last_of t xs) f !! t) xs.
Proof.
  revert t. induction xs as [|x xs IH]; intros t Hpath Hnd Hne; [done|].
  rewrite last_of_cons. destruct Hpath as [Hx Hpath]. rewrite NoDup_cons in Hnd. destruct Hnd as [Hn Hnd].
  pose proof (last_of_elem x xs). split; [rewrite lookup_delete_ne by set_solver; done|].
  destruct xs as [|y xs]; [apply lookup_delete_eq|]. by apply IH.
Qed.

Lemma same_order_trans xs ys zs : same_order xs ys -> same_order ys zs -> same_order xs zs.
Proof. intros [H1 H2] [H3 H4]. split; [by rewrite H3|]. intros z. by rewrite H4. Qed.

(** Merging the parts from the top is the last step of the sort on lists. *)
Lemma final_merge pre P maxlev top :
  dinv pre P maxlev -> flat P = top ++ flat (take maxlev P) -> StronglySorted le top ->
  same_order pre (mrg top (carried (take maxlev P) [])) /\
  StronglySorted le (mrg top (carried (take maxlev P) [])).
Proof.
  intros Hd Ef Hst. assert (HsT : Forall (StronglySorted le) (take maxlev P)) by (apply Forall_take, (di_sorted _ _ _ Hd)).
  assert (HsC : StronglySorted le (carried (take maxlev P) [])) by (apply carried_sorted; [done|constructor]).
  split; [|by apply mrg_sorted]. eapply same_order_trans; [apply (di_order _ _ _ Hd)|]. rewrite Ef. split.
  - rewrite (merge_Permutation le), carried_perm, app_nil_r. by rewrite flat_perm.
  - intros z. rewrite filter_mrg, filter_carried by first [done | constructor].
    by rewrite filter_nil, app_nil_r, filter_app.
Qed.

Lemma lsort_spec fuel hd xs h :
  dlist h hd xs -> (length xs <= fuel)%nat ->
  exists h' ys, lsort cmp fuel hd h = Ok h' /\ dlist h' hd ys /\ same_order xs ys /\
    StronglySorted le ys /\ same_outside (hd :: xs) h h'.
Proof.
  intros Hdl Hf. unfold lsort. rewrite (list_empty_spec _ _ _ Hdl).
  destruct (decide (xs = [])) as [->|Hne].
  { rewrite bool_decide_true by done. exists h, []. split_and!; [done..|constructor|done]. }
  rewrite bool_decide_false by done. unfold get_prev. rewrite (dlist_last _ _ _ Hdl). cbn [deref res_bind].
  pose proof Hdl as (Hnd & Hpath & _). set (h1 := set_next_opt (last_of hd xs) None h).
  assert (Hlx : last_of hd xs ∈ xs).
  { destruct xs as [|x xs]; [done|]. rewrite last_of_cons. apply last_of_elem. }
  pose proof (path_nchain _ _ _ _ Hpath Hnd Hne) as Hch. rewrite NoDup_cons in Hnd. destruct Hnd as [Hhd Hnd].
  destruct (distribute_spec fuel fuel (lnext h1 !! hd) xs (replicate ARRAY_SIZE_part None)
    (replicate ARRAY_SIZE_part []) 0 [] h1) as (part & P & maxlev & h2 & E2 & Hr2 & Hd2 & Ho2);
    [done|repeat constructor|apply dinv_init|done|done|done|].
  rewrite E2. cbn [res_bind app] in *. pose proof (dinv_perm _ _ _ Hd2) as Hperm.
  destruct (parts_split _ _ _ Hd2 Hne) as (x & p & Htop & Eflat).
  assert (Hsplit : concat (take maxlev P) ++ x :: p ≡ₚ xs).
  { rewrite <- Hperm, <- (flat_perm P), Eflat, <- (flat_perm (take _ _)). apply Permutation_app_comm. }
  assert (Hnds : NoDup (concat (take maxlev P) ++ x :: p)) by (by rewrite Hsplit).
  pose proof (Permutation_length Hsplit) as Hlen. rewrite length_app in Hlen.
  pose proof Hnds as (HndT & HdisT & _)%NoDup_app.
  destruct (collect_spec fuel (take maxlev part) (take maxlev P) None [] h2) as (o & h3 & E3 & Hc3 & Ho3);
    [by apply Forall2_take|done|by rewrite app_nil_r|rewrite app_nil_r; lia|].
  rewrite E3. cbn [res_bind]. rewrite app_nil_r in Ho3.
  destruct (Forall2_lookup_r _ _ _ _ _ Hr2 Htop) as (top & Etop & Hctop). rewrite Etop. cbn [deref res_bind].
  pose proof (carried_perm (take maxlev P) []) as Hcp. rewrite app_nil_r in Hcp.
  destruct (restore_back_links_spec fuel hd top o (x :: p) (carried (take maxlev P) []) h3) as (h4 & E4 & Hdl4 & Ho4).
  - eapply nchain_frame, Hctop. intros y Hy. apply Ho3. intros Hy'. by apply (HdisT y).
  - done.
  - rewrite Hcp, (Permutation_app_comm (x :: p)), Hsplit. by apply NoDup_cons.
  - done.
  - rewrite (Permutation_length Hcp). lia.
  - destruct (final_merge _ _ _ _ Hd2 Eflat) as [Hord Hsort].
    { eapply (Forall_lookup_1 (StronglySorted le)); [apply (di_sorted _ _ _ Hd2)|done]. }
    eexists h4, _. split_and!; [done..|]. intros y Hy. rewrite elem_of_cons in Hy.
    destruct (Ho4 y) as [En Ep].
    { rewrite elem_of_cons, Hcp, (Permutation_app_comm (x :: p)), Hsplit. done. }
    assert (Hyx : y ∉ xs) by tauto. destruct Ho2 as [Ep2 En2], Ho3 as [Ep3 En3].
    rewrite En, Ep, Ep3, Ep2, En3, En2 by (done || (intros Hin; apply Hyx; rewrite <- Hsplit; apply elem_of_app; by left)).
    subst h1. cbn. rewrite lookup_delete_ne by congruence. done.
Qed.
End refine.

(** ** The guarantee of lib/lsort.c *)

(** C5. For a callback that compares by a total preorder, [lsort] returns
    normally; afterwards the list at [head] is a proper circular list again, holds
    the same entries in sorted order, entries that compare equal are in the order
    they had before, and no node outside the list has changed.  As many loop
    iterations as there are entries are enough. *)
Theorem lsort_stable {L} `{Countable L} (cmp : L -> L -> Z) fuel hd xs (h : lheap L) :
  (forall x y, cmp x y <= 0 \/ cmp y x <= 0) ->
  (forall x y z, cmp x y <= 0 -> cmp y z <= 0 -> cmp x z <= 0) ->
  dlist h hd xs -> (length xs <= fuel)%nat ->
  exists h' ys, lsort cmp fuel hd h = Ok h' /\ dlist h' hd ys /\ ys ≡ₚ xs /\
    StronglySorted (fun x y => cmp x y <= 0) ys /\
    (forall z, filter (fun y => cmp z y <= 0 /\ cmp y z <= 0) ys =
               filter (fun y => cmp z y <= 0 /\ cmp y z <= 0) xs) /\
    same_outside (hd :: xs) h h'.
Proof.
  intros Ht Htr Hd Hf. destruct (lsort_spec cmp Ht Htr fuel hd xs h Hd Hf) as (h' & ys & E & Hd' & [Hp Ho] & Hs & Hso).
  exists h', ys. split_and!; [done..|exact Ho|done].
Qed.

(** Four entries, two of which compare equal to a third. *)
Definition tens (x y : Z) : Z := x / 10 - y / 10.

Definition four : lheap Z :=
  __list_add 11 35 0 (__list_add 35 12 0 (__list_add 12 31 0 (__list_add 31 0 0
    (init_list_head 0 (mk_lheap ∅ ∅))))).

Lemma lsort_stable_witness :
  exists h', lsort tens 4 0 four = Ok h' /\ dlist h' 0 [12; 11; 31; 35].
Proof.
  destruct (lsort_stable tens 4 0 [31; 12; 35; 11] four) as (h' & ys & E & Hd & _).
  - unfold tens. lia.
  - unfold tens. lia.
  - split; [apply (bool_decide_unpack _); vm_compute; exact I|]. vm_compute. by repeat split.
  - cbn. lia.
  - exists h'. split; [exact E|]. vm_compute in E. injection E as <-.
    split; [apply (bool_decide_unpack _); vm_compute; exact I|]. vm_compute. by repeat split.
Defined.
