(* ===== verification/Radix.v ===== *)
(** * Radix: the radix tree of lib/radix.c

    A tree of eight levels of 512-entry nodes maps 64-bit keys to pointers.  Nodes
    live at addresses; an entry that was never written is NULL, since nodes come
    from [calloc].  The abstract view is the partial map from keys to values that
    are not NULL: [radix_set] updates it at one key and [radix_get] reads it,
    whatever nodes they have to create on the way. *)

From S2P Require Import Prelude Alloc.

Definition RADIX_NODE_BITS : Z := 9.
Definition RADIX_NODE_SIZE : Z := 2 ^ RADIX_NODE_BITS.
Definition RADIX_NODE_MASK : Z := RADIX_NODE_SIZE - 1.
Definition RADIX_MAX_BITS : Z := 64.
Definition RADIX_LEVELS : Z := (RADIX_MAX_BITS + RADIX_NODE_BITS - 1) / RADIX_NODE_BITS.

(** The entries of a node, child addresses or values. *)
Abbreviation radix_node := (gmap Z Z).

Record radix := mk_radix {
  root : Z;
  value_deleter : bool;
}.

Section ops.
Context {S : Type} `{KernelAlloc S}.

(** The allocator's state, the nodes and the [struct radix]. *)
Record rstate := mk_rstate {
  heap : S;
  nodes : gmap Z radix_node;
  tree : radix;
}.

Definition entry (n : radix_node) (k : Z) : Z := default 0 (n !! k).

Definition get_node (st : rstate) (p : Z) : res radix_node := deref (nodes st !! p).

Definition with_tree (st : rstate) (r : radix) : rstate := mk_rstate (heap st) (nodes st) r.

(** Two pointers of 8 bytes; 512 pointers. *)
Definition sizeof_radix : Z := 16.
Definition sizeof_radix_node : Z := 8 * RADIX_NODE_SIZE.

Definition new_radix (s : S) (ns : gmap Z radix_node) : res (option rstate * S) :=
  let* '(s, p) := al_calloc s sizeof_radix in
  if p =? 0 then Ok (None, s) else Ok (Some (mk_rstate s ns (mk_radix 0 false)), s).

Definition init_radix_w_deleter (st : rstate) (d : bool) : rstate :=
  with_tree st (mk_radix (root (tree st)) d).

(** [calloc] gives a node whose entries are all NULL. *)
Definition new_radix_node (st : rstate) : res (rstate * Z) :=
  let* '(s, p) := al_calloc (heap st) sizeof_radix_node in
  if p =? 0 then Ok (mk_rstate s (nodes st) (tree st), 0)
  else Ok (mk_rstate s (<[p := ∅]> (nodes st)) (tree st), p).

(** The index of each level, lowest first. *)
Fixpoint radix_indices (n : nat) (key : Z) : list Z :=
  match n with
  | O => []
  | Datatypes.S n => Z.land key RADIX_NODE_MASK :: radix_indices n (Z.shiftr key RADIX_NODE_BITS)
  end.

(** The intermediate levels of [radix_set], along the indices [ks]; [None] when
    a node cannot be allocated. *)
Fixpoint set_descend (st : rstate) (node : Z) (ks : list Z) : res (rstate * option Z) :=
  match ks with
  | [] => Ok (st, Some node)
  | k :: ks =>
      let* n := get_node st node in
      if entry n k =? 0 then
        let* '(st, new) := new_radix_node st in
        if new =? 0 then Ok (st, None)
        else
          let* n := get_node st node in
          let st := mk_rstate (heap st) (<[node := <[k := new]> n]> (nodes st)) (tree st) in
          set_descend st new ks
      else set_descend st (entry n k) ks
  end.

Definition radix_set (st : rstate) (key value : Z) : res (rstate * bool) :=
  let* '(st, ok) :=
    if root (tree st) =? 0 then
      let* '(st, new) := new_radix_node st in
      if new =? 0 then Ok (st, false)
      else Ok (with_tree st (mk_radix new (value_deleter (tree st))), true)
    else Ok (st, true) in
  if negb ok then Ok (st, false)
  else
    match radix_indices (Z.to_nat RADIX_LEVELS) key with
    | [] => Undef
    | k :: upper =>
        let* '(st, leaf) := set_descend st (root (tree st)) (reverse upper) in
        match leaf with
        | None => Ok (st, false)
        | Some node =>
            let* n := get_node st node in
            Ok (mk_rstate (heap st) (<[node := <[k := value]> n]> (nodes st)) (tree st), true)
        end
    end.

(** The intermediate levels of [radix_get]. *)
Fixpoint get_descend (st : rstate) (node : Z) (ks : list Z) : res (option Z) :=
  match ks with
  | [] => Ok (Some node)
  | k :: ks =>
      let* n := get_node st node in
      if entry n k =? 0 then Ok None else get_descend st (entry n k) ks
  end.

Definition radix_get (st : rstate) (key : Z) : res Z :=
  if root (tree st) =? 0 then Ok 0
  else
    match radix_indices (Z.to_nat RADIX_LEVELS) key with
    | [] => Undef
    | k :: upper =>
        let* leaf := get_descend st (root (tree st)) (reverse upper) in
        match leaf with
        | None => Ok 0
        | Some node => let* n := get_node st node in Ok (entry n k)
        end
    end.

Definition radix_clear (st : rstate) (key : Z) : res (rstate * bool) := radix_set st key 0.

(** The values passed to the deleter, in order.  [depth] is the number of levels
    below the node, [RADIX_LEVELS - 1 - node_level].  The nodes themselves are not
    freed. *)
Fixpoint radix_free_node (depth : nat) (st : rstate) (node : Z) : res (list Z) :=
  if node =? 0 then Ok []
  else
    let* n := get_node st node in
    match depth with
    | O =>
        if value_deleter (tree st)
        then Ok (filter (fun v => v <> 0) (entry n <$> seqZ 0 RADIX_NODE_SIZE))
        else Ok []
    | Datatypes.S depth =>
        foldr (fun i acc =>
                 let* l := if entry n i =? 0 then Ok [] else radix_free_node depth st (entry n i) in
                 let* r := acc in Ok (l ++ r))
              (Ok []) (seqZ 0 RADIX_NODE_SIZE)
    end.

Definition radix_free (st : rstate) : res (bool * list Z) :=
  if root (tree st) =? 0 then Ok (false, [])
  else
    let* l := radix_free_node (Z.to_nat (RADIX_LEVELS - 1)) st (root (tree st)) in
    Ok (true, l).
End ops.
Arguments rstate : clear implicits.

(** ** Keys and paths *)

Lemma radix_indices_inj n a b :
  0 <= a < 2 ^ (9 * Z.of_nat n) -> 0 <= b < 2 ^ (9 * Z.of_nat n) ->
  radix_indices n a = radix_indices n b -> a = b.
Proof.
  revert a b. induction n as [|n IH]; intros a b Ha Hb E; [cbn in *; lia|].
  cbn [radix_indices] in E. injection E as E1 E2.
  change RADIX_NODE_MASK with (Z.ones 9) in E1. rewrite !Z.land_ones in E1 by lia.
  change RADIX_NODE_BITS with 9 in E2.
  assert (Ep : 2 ^ (9 * Z.of_nat (S n)) = 2 ^ 9 * 2 ^ (9 * Z.of_nat n)).
  { rewrite <- Z.pow_add_r by lia. f_equal. lia. }
  apply IH in E2; rewrite ?Z.shiftr_div_pow2 in * by lia.
  - rewrite (Z.div_mod a (2 ^ 9)), (Z.div_mod b (2 ^ 9)) by lia. congruence.
  - split; [apply Z.div_pos; lia|]. apply Z.div_lt_upper_bound; lia.
  - split; [apply Z.div_pos; lia|]. apply Z.div_lt_upper_bound; lia.
Qed.

Lemma radix_indices_length n a : length (radix_indices n a) = n.
Proof. revert a. induction n as [|n IH]; intros a; cbn; [done|]. by rewrite IH. Qed.

Definition is_key (key : Z) : Prop := 0 <= key < 2 ^ RADIX_MAX_BITS.

(** The path to the leaf, from the root, and the index in the leaf. *)
Definition key_path (key : Z) : list Z * Z :=
  match radix_indices (Z.to_nat RADIX_LEVELS) key with
  | [] => ([], 0)
  | k :: upper => (reverse upper, k)
  end.

Lemma key_path_inj a b : is_key a -> is_key b -> key_path a = key_path b -> a = b.
Proof.
  unfold is_key, key_path, RADIX_MAX_BITS. intros Ha Hb E.
  assert (2 ^ 64 <= 2 ^ (9 * Z.of_nat 8)) by (vm_compute; discriminate).
  apply (radix_indices_inj 8); [lia..|].
  change (Z.to_nat RADIX_LEVELS) with 8%nat in E.
  pose proof (radix_indices_length 8 a). pose proof (radix_indices_length 8 b).
  destruct (radix_indices 8 a), (radix_indices 8 b); [done..|].
  injection E as E1 ->. apply (f_equal reverse) in E1. rewrite !reverse_involutive in E1.
  by subst.
Qed.

Lemma key_path_length key : length (key_path key).1 = 7%nat.
Proof.
  unfold key_path. change (Z.to_nat RADIX_LEVELS) with 8%nat.
  pose proof (radix_indices_length 8 key) as Hl. destruct (radix_indices 8 key); [done|].
  cbn [fst length] in *. rewrite length_reverse. lia.
Qed.

(** ** The invariant

    [pos] gives the path of each node from the root: no node is reached along two
    paths. *)

Section inv.
Context {S : Type} `{KernelAlloc S}.
Implicit Types (st : rstate S) (pos : gmap Z (list Z)).

Record radix_wf st pos : Prop := {
  rw_heap : exists X, al_inv (heap st) X /\ forall p, is_Some (pos !! p) -> p ∈ X;
  rw_root : root (tree st) <> 0 -> pos !! root (tree st) = Some [];
  rw_node p l : pos !! p = Some l -> is_Some (nodes st !! p) /\ p <> 0 /\ (length l <= 7)%nat;
  rw_child p l n k : pos !! p = Some l -> nodes st !! p = Some n -> (length l < 7)%nat ->
    entry n k <> 0 -> pos !! entry n k = Some (l ++ [k]);
}.

Definition radix_ok st : Prop := exists pos, radix_wf st pos.

(** The node at the end of a path. *)
Lemma get_descend_pos st pos p l ks :
  radix_wf st pos -> pos !! p = Some l -> (length l + length ks <= 7)%nat ->
  exists o, get_descend st p ks = Ok o /\
    match o with Some q => pos !! q = Some (l ++ ks) | None => True end.
Proof.
  intros Hw. revert p l. induction ks as [|k ks IH]; intros p l Hp Hl; cbn [get_descend length] in *.
  { exists (Some p). by rewrite app_nil_r. }
  destruct (rw_node _ _ Hw _ _ Hp) as ([n Hn] & _ & _). unfold get_node. rewrite Hn. cbn [deref res_bind].
  destruct (Z.eqb_spec (entry n k) 0) as [E|Hne]; [by exists None|].
  pose proof (rw_child _ _ Hw _ _ _ _ Hp Hn ltac:(lia) Hne) as Hc.
  destruct (IH _ _ Hc) as (o & Eo & Ho); [rewrite length_app; cbn; lia|]. exists o. split; [done|].
  by rewrite <- app_assoc in Ho.
Qed.

Lemma radix_get_total st key : radix_ok st -> exists v, radix_get st key = Ok v.
Proof.
  intros [pos Hw]. unfold radix_get. destruct (Z.eqb_spec (root (tree st)) 0) as [E|Hne]; [by exists 0|].
  pose proof (key_path_length key) as Hl. unfold key_path in Hl. change (Z.to_nat RADIX_LEVELS) with 8%nat in *.
  destruct (radix_indices 8 key) as [|k upper]; [done|]. cbn [fst] in Hl.
  destruct (get_descend_pos st pos _ [] (reverse upper) Hw (rw_root _ _ Hw Hne)) as (o & Eo & Ho); [cbn; lia|].
  rewrite Eo. cbn [res_bind]. destruct o as [q|]; [|by exists 0].
  destruct (rw_node _ _ Hw _ _ Ho) as ([n Hn] & _). unfold get_node. rewrite Hn. by eexists.
Qed.

(** The entry at index [k] of the leaf along [ks], NULL when there is none. *)
Definition leafval st (p : Z) (ks : list Z) (k : Z) : res Z :=
  let* o := get_descend st p ks in
  match o with
  | None => Ok 0
  | Some q => let* n := get_node st q in Ok (entry n k)
  end.

Lemma radix_get_leafval st key :
  root (tree st) <> 0 -> radix_get st key = leafval st (root (tree st)) (key_path key).1 (key_path key).2.
Proof.
  intros Hr. unfold radix_get, leafval, key_path. rewrite (proj2 (Z.eqb_neq _ 0) Hr).
  change (Z.to_nat RADIX_LEVELS) with 8%nat. by destruct (radix_indices 8 key) eqn:E.
Qed.

Lemma leafval_cons st p k0 ks k n :
  nodes st !! p = Some n ->
  leafval st p (k0 :: ks) k = if entry n k0 =? 0 then Ok 0 else leafval st (entry n k0) ks k.
Proof.
  intros Hn. unfold leafval. cbn [get_descend]. unfold get_node at 1. rewrite Hn. cbn [deref res_bind].
  by destruct (entry n k0 =? 0).
Qed.

(** An empty node holds no value. *)
Lemma leafval_empty st p ks k : nodes st !! p = Some ∅ -> leafval st p ks k = Ok 0.
Proof.
  intros Hn. destruct ks as [|k0 ks].
  - unfold leafval. cbn. unfold get_node. by rewrite Hn.
  - by rewrite (leafval_cons _ _ _ _ _ _ Hn).
Qed.

(** What the creation of empty nodes preserves: every entry and every value. *)
Record extends st pos st' pos' : Prop := {
  ex_pos : pos ⊆ pos';
  ex_tree : tree st' = tree st;
  ex_entry p n k : is_Some (pos !! p) -> nodes st !! p = Some n -> entry n k <> 0 ->
    exists n', nodes st' !! p = Some n' /\ entry n' k = entry n k;
  ex_val p l ks k : pos !! p = Some l -> (length l + length ks = 7)%nat ->
    leafval st' p ks k = leafval st p ks k;
}.

Lemma extends_refl st pos : extends st pos st pos.
Proof. split; eauto. Qed.

Lemma extends_trans st1 pos1 st2 pos2 st3 pos3 :
  extends st1 pos1 st2 pos2 -> extends st2 pos2 st3 pos3 -> extends st1 pos1 st3 pos3.
Proof.
  intros [P1 T1 E1 V1] [P2 T2 E2 V2]. split; [by etrans|congruence| |].
  - intros p n k [l Hp] Hn Hk. destruct (E1 p n k (ex_intro _ l Hp) Hn Hk) as (n' & Hn' & Ek).
    destruct (E2 p n' k) as (n2 & Hn2 & Ek2); [exists l; by eapply lookup_weaken|done|congruence|].
    exists n2. split; [done|congruence].
  - intros p l ks k Hp Hl. rewrite (V2 p l) by (done || by eapply lookup_weaken). by apply (V1 p l).
Qed.

(** [new_radix_node] returns NULL unchanged or a fresh empty node. *)
Lemma new_radix_node_ok st pos :
  radix_wf st pos ->
  exists st' p, new_radix_node st = Ok (st', p) /\
    ((p = 0 /\ st' = st) \/
     (p <> 0 /\ pos !! p = None /\ nodes st' = <[p := ∅]> (nodes st) /\ tree st' = tree st /\
      exists X, al_inv (heap st') X /\ p ∈ X /\ forall q, is_Some (pos !! q) -> q ∈ X)).
Proof.
  intros Hw. destruct (rw_heap _ _ Hw) as (X & HX & Hpos). unfold new_radix_node.
  destruct (al_calloc_ok (heap st) X sizeof_radix_node HX) as (s' & p & E & Hor); [done|].
  rewrite E. cbn [res_bind]. destruct Hor as [[-> ->]|(Hp & HpX & HX')].
  { exists st, 0. split; [by destruct st|by left]. }
  rewrite (proj2 (Z.eqb_neq p 0) Hp). eexists _, p. split; [done|]. right. cbn.
  split_and!; [done| |done|done|].
  - apply eq_None_not_Some. intros Hs. by apply HpX, Hpos.
  - exists ({[p]} ∪ X). split_and!; [done|set_solver|]. intros q Hq. apply elem_of_union_r. by apply Hpos.
Qed.

(** Hanging a fresh empty node [c] at entry [k] of node [p]. *)
Lemma add_child st pos s' X p l n k c :
  radix_wf st pos -> pos !! p = Some l -> nodes st !! p = Some n -> (length l < 7)%nat ->
  entry n k = 0 -> c <> 0 -> pos !! c = None -> al_inv s' X -> c ∈ X ->
  (forall q, is_Some (pos !! q) -> q ∈ X) ->
  let st' := mk_rstate s' (<[p := <[k := c]> n]> (<[c := ∅]> (nodes st))) (tree st) in
  let pos' := <[c := l ++ [k]]> pos in
  radix_wf st' pos' /\ extends st pos st' pos'.
Proof.
  intros Hw Hp Hn Hl Hk Hc Hcn HX HcX HposX st' pos'. assert (Hcp : c <> p) by congruence.
  assert (Enew : entry (<[k := c]> n) k = c) by (unfold entry; by rewrite lookup_insert_eq).
  assert (Eold : forall j, j <> k -> entry (<[k := c]> n) j = entry n j)
    by (intros; unfold entry; by rewrite lookup_insert_ne).
  assert (Hother : forall q, q <> p -> q <> c -> nodes st' !! q = nodes st !! q)
    by (intros; subst st'; cbn; by rewrite !lookup_insert_ne).
  assert (Hpn : nodes st' !! p = Some (<[k := c]> n)) by (subst st'; cbn; by rewrite lookup_insert_eq).
  assert (Hcn' : nodes st' !! c = Some ∅) by (subst st'; cbn; by rewrite lookup_insert_ne, lookup_insert_eq).
  assert (Hsub : pos ⊆ pos') by (by apply insert_subseteq). split; split.
  - exists X. split; [done|]. intros q [l' Hq]. subst pos'.
    apply lookup_insert_Some in Hq as [[<- _]|[_ Hq]]; [done|]. apply HposX. eauto.
  - intros Hr. eapply lookup_weaken, Hsub. apply (rw_root _ _ Hw Hr).
  - intros q l' Hq. apply lookup_insert_Some in Hq as [[<- <-]|[Hne Hq]].
    + split_and!; [by eexists|done|]. rewrite length_app. cbn. lia.
    + destruct (rw_node _ _ Hw _ _ Hq) as (Hs & ? & ?). split_and!; [|done..].
      destruct (decide (q = p)) as [->|]; [by eexists|]. by rewrite Hother.
  - intros q l' m j Hq Hm Hl' Hj. apply lookup_insert_Some in Hq as [[<- <-]|[Hne Hq]].
    { rewrite Hcn' in Hm. injection Hm as <-. done. }
    destruct (decide (q = p)) as [->|Hqp].
    + rewrite Hpn in Hm. injection Hm as <-. rewrite Hp in Hq. injection Hq as <-.
      destruct (decide (j = k)) as [->|Hjk]; [rewrite Enew; apply lookup_insert_eq|].
      rewrite Eold in Hj |- * by done. eapply lookup_weaken, Hsub. by apply (rw_child _ _ Hw p l n j).
    + rewrite Hother in Hm by done. eapply lookup_weaken, Hsub. by apply (rw_child _ _ Hw q l' m j).
  - done.
  - done.
  - intros q m j [l' Hq] Hm Hj. destruct (decide (q = p)) as [->|Hqp]; [|rewrite Hother by congruence; eauto].
    rewrite Hn in Hm. injection Hm as <-. eexists. split; [done|]. apply Eold. congruence.
  - intros q l' ks j Hq Hlen. revert q l' Hq Hlen. induction ks as [|k0 ks IH]; intros q l' Hq Hlen.
    + assert (q <> p). { intros ->. rewrite Hp in Hq. injection Hq as <-. cbn in Hlen. lia. }
      unfold leafval. cbn [get_descend res_bind]. unfold get_node. by rewrite Hother by congruence.
    + destruct (rw_node _ _ Hw _ _ Hq) as ([m Hm] & _). cbn [length] in Hlen. rewrite (leafval_cons st q k0 ks j m Hm).
      assert (Hrec : entry m k0 <> 0 -> leafval st' (entry m k0) ks j = leafval st (entry m k0) ks j).
      { intros Hk0. pose proof (rw_child _ _ Hw q l' m k0 Hq Hm ltac:(lia) Hk0) as Hch.
        apply (IH _ _ Hch). rewrite length_app. cbn. lia. }
      destruct (decide (q = p)) as [->|Hqp].
      * rewrite Hn in Hm. injection Hm as <-. rewrite (leafval_cons st' p k0 ks j _ Hpn).
        destruct (decide (k0 = k)) as [->|Hk0].
        -- rewrite Enew, Hk, (proj2 (Z.eqb_neq c 0) Hc). by apply leafval_empty.
        -- rewrite Eold by done. destruct (Z.eqb_spec (entry n k0) 0); auto.
      * rewrite (leafval_cons st' q k0 ks j m) by (rewrite Hother; congruence).
        destruct (Z.eqb_spec (entry m k0) 0); auto.
Qed.

Lemma set_descend_ok st pos p l ks :
  radix_wf st pos -> pos !! p = Some l -> (length l + length ks <= 7)%nat ->
  exists st' o pos', set_descend st p ks = Ok (st', o) /\ radix_wf st' pos' /\
    extends st pos st' pos' /\
    match o with Some q => pos' !! q = Some (l ++ ks) /\ get_descend st' p ks = Ok (Some q) | None => True end.
Proof.
  revert st pos p l. induction ks as [|k ks IH]; intros st pos p l Hw Hp Hl; cbn [set_descend length] in *.
  { exists st, (Some p), pos. rewrite app_nil_r. split_and!; eauto using extends_refl. }
  destruct (rw_node _ _ Hw _ _ Hp) as ([n Hn] & _ & _). unfold get_node at 1. rewrite Hn. cbn [deref res_bind].
  (* descending into a child that exists *)
  assert (Hgo : forall st1 pos1 n1, radix_wf st1 pos1 -> extends st pos st1 pos1 ->
    nodes st1 !! p = Some n1 -> entry n1 k <> 0 -> pos1 !! p = Some l ->
    exists st' o pos', set_descend st1 (entry n1 k) ks = Ok (st', o) /\ radix_wf st' pos' /\
      extends st pos st' pos' /\
      match o with Some q => pos' !! q = Some (l ++ k :: ks) /\ get_descend st' p (k :: ks) = Ok (Some q) | None => True end).
  { intros st1 pos1 n1 Hw1 Hx1 Hn1 Hk1 Hp1.
    pose proof (rw_child _ _ Hw1 p l n1 k Hp1 Hn1 ltac:(lia) Hk1) as Hc.
    destruct (IH st1 pos1 _ _ Hw1 Hc) as (st' & o & pos' & E & Hw' & Hx & Ho); [rewrite length_app; cbn; lia|].
    exists st', o, pos'. split_and!; [done..|by eapply extends_trans|]. destruct o as [q|]; [|done].
    destruct Ho as [Hq Hg]. rewrite <- app_assoc in Hq. split; [done|].
    destruct (ex_entry _ _ _ _ Hx p n1 k ltac:(eauto) Hn1 Hk1) as (n' & Hn' & Ek).
    cbn [get_descend]. unfold get_node. rewrite Hn'. cbn [deref res_bind]. rewrite Ek.
    by rewrite (proj2 (Z.eqb_neq _ 0) Hk1). }
  destruct (Z.eqb_spec (entry n k) 0) as [Hk|Hk]; [|by apply (Hgo st pos); eauto using extends_refl].
  destruct (new_radix_node_ok st pos Hw) as (st1 & c & E1 & Hor). rewrite E1. cbn [res_bind].
  destruct Hor as [[-> ->]|(Hc & Hcn & En1 & Et1 & X & HX & HcX & HposX)].
  { exists st, None, pos. split_and!; eauto using extends_refl. }
  rewrite (proj2 (Z.eqb_neq c 0) Hc). unfold get_node at 1. rewrite En1, lookup_insert_ne by congruence.
  rewrite Hn. cbn [deref res_bind]. rewrite Et1.
  destruct (add_child st pos (heap st1) X p l n k c) as [Hw2 Hx2]; try done; [lia|].
  assert (Ec : entry (<[k := c]> n) k = c) by (unfold entry; by rewrite lookup_insert_eq).
  pose proof (fun Hp1 => Hgo _ _ (<[k := c]> n) Hw2 Hx2 (lookup_insert_eq _ _ _) ltac:(congruence) Hp1) as Hres.
  rewrite Ec in Hres. apply Hres. by rewrite lookup_insert_ne by congruence.
Qed.

(** Making the root. *)
Lemma add_root st pos s' X c :
  radix_wf st pos -> root (tree st) = 0 -> c <> 0 -> al_inv s' X -> c ∈ X ->
  let st' := mk_rstate s' (<[c := ∅]> (nodes st)) (mk_radix c (value_deleter (tree st))) in
  radix_wf st' {[c := []]} /\ forall key, radix_get st' key = radix_get st key.
Proof.
  intros Hw Hr Hc HX HcX st'. split; [split|].
  - exists X. split; [done|]. intros p [l Hp]. by apply lookup_singleton_Some in Hp as [<- _].
  - intros _. apply lookup_singleton_eq.
  - intros p l Hp. apply lookup_singleton_Some in Hp as [<- <-]. cbn. rewrite lookup_insert_eq. split_and!; [eauto|done|lia].
  - intros p l n k Hp Hn _ Hk. apply lookup_singleton_Some in Hp as [<- <-]. cbn in Hn.
    rewrite lookup_insert_eq in Hn. injection Hn as <-. done.
  - intros key. rewrite radix_get_leafval by done. rewrite leafval_empty by (cbn; apply lookup_insert_eq).
    unfold radix_get. by rewrite Hr.
Qed.

(** Storing [v] at entry [k] of the leaf [q]. *)
Lemma set_leaf st pos q rs n k v :
  radix_wf st pos -> pos !! q = Some rs -> length rs = 7%nat -> nodes st !! q = Some n ->
  let st' := mk_rstate (heap st) (<[q := <[k := v]> n]> (nodes st)) (tree st) in
  radix_wf st' pos /\
  (forall p l ks, pos !! p = Some l -> (length l + length ks = 7)%nat ->
     get_descend st' p ks = get_descend st p ks) /\
  (forall p l ks j, pos !! p = Some l -> (length l + length ks = 7)%nat -> (l ++ ks, j) <> (rs, k) ->
     leafval st' p ks j = leafval st p ks j).
Proof.
  intros Hw Hq Hrs Hn st'.
  assert (Hother : forall p, p <> q -> nodes st' !! p = nodes st !! p) by (intros; subst st'; cbn; by rewrite lookup_insert_ne).
  assert (Hdesc : forall p l ks, pos !! p = Some l -> (length l + length ks = 7)%nat ->
     get_descend st' p ks = get_descend st p ks).
  { intros p l ks. revert p l. induction ks as [|k0 ks IH]; intros p l Hp Hl; [done|]. cbn [get_descend length] in *.
    assert (Hpq : p <> q) by (intros ->; rewrite Hq in Hp; injection Hp as <-; lia).
    destruct (rw_node _ _ Hw _ _ Hp) as ([m Hm] & _). unfold get_node. rewrite Hother, Hm by done. cbn [deref res_bind].
    destruct (Z.eqb_spec (entry m k0) 0) as [|Hne]; [done|].
    apply (IH _ (l ++ [k0])); [apply (rw_child _ _ Hw p l m k0); done || lia|rewrite length_app; cbn; lia]. }
  split_and!; [split|done|].
  - apply (rw_heap _ _ Hw).
  - apply (rw_root _ _ Hw).
  - intros p l Hp. destruct (rw_node _ _ Hw _ _ Hp) as (Hs & ? & ?). split_and!; [|done..].
    destruct (decide (p = q)) as [->|]; [subst st'; cbn; rewrite lookup_insert_eq; eauto|by rewrite Hother].
  - intros p l m j Hp Hm Hl Hj. assert (p <> q) by (intros ->; rewrite Hq in Hp; injection Hp as <-; lia).
    rewrite Hother in Hm by done. by apply (rw_child _ _ Hw p l m j).
  - intros p l ks j Hp Hl Hne. unfold leafval. rewrite (Hdesc p l) by done.
    destruct (get_descend_pos st pos p l ks Hw Hp ltac:(lia)) as (o & Eo & Ho). rewrite Eo. cbn [res_bind].
    destruct o as [r|]; [|done]. unfold get_node. destruct (decide (r = q)) as [->|]; [|by rewrite Hother].
    rewrite Hq in Ho. injection Ho as ->. rewrite Hn. subst st'. cbn. rewrite lookup_insert_eq. cbn.
    unfold entry. rewrite lookup_insert_ne; [done|]. intros ->. by apply Hne.
Qed.

Lemma set_at_leaf st pos key v :
  radix_wf st pos -> root (tree st) <> 0 -> is_key key ->
  exists st' b, (let* '(st, leaf) := set_descend st (root (tree st)) (key_path key).1 in
      match leaf with
      | None => Ok (st, false)
      | Some node => let* n := get_node st node in
          Ok (mk_rstate (heap st) (<[node := <[(key_path key).2 := v]> n]> (nodes st)) (tree st), true)
      end) = Ok (st', b) /\ radix_ok st' /\
    (b = true -> radix_get st' key = Ok v) /\
    (forall key', is_key key' -> b = false \/ key' <> key -> radix_get st' key' = radix_get st key').
Proof.
  intros Hw Hr Hkey. pose proof (key_path_length key) as Hlen.
  destruct (set_descend_ok st pos _ [] (key_path key).1 Hw (rw_root _ _ Hw Hr)) as (st1 & o & pos1 & E & Hw1 & Hx & Ho); [cbn; lia|].
  rewrite E. cbn [res_bind]. pose proof (ex_tree _ _ _ _ Hx) as Et.
  assert (Hsame : forall key', is_key key' -> radix_get st1 key' = radix_get st key').
  { intros key' _. rewrite !radix_get_leafval, Et by congruence. apply (ex_val _ _ _ _ Hx _ []); [by apply (rw_root _ _ Hw)|].
    cbn. by rewrite key_path_length. }
  destruct o as [q|]; [|exists st1, false; split_and!; [done|by exists pos1|done|auto]].
  destruct Ho as [Hq Hg]. cbn [app] in Hq. destruct (rw_node _ _ Hw1 _ _ Hq) as ([n Hn] & _).
  unfold get_node at 1. rewrite Hn. cbn [deref res_bind].
  destruct (set_leaf st1 pos1 q _ n (key_path key).2 v Hw1 Hq Hlen Hn) as (Hw2 & Hd2 & Hv2).
  assert (Hr1 : pos1 !! root (tree st1) = Some []) by (apply (rw_root _ _ Hw1); congruence).
  eexists _, true. split; [done|]. split_and!; [by exists pos1| |].
  - intros _. rewrite radix_get_leafval by (cbn; congruence). unfold leafval. cbn [tree].
    rewrite (Hd2 _ [] _ Hr1) by (cbn; lia). rewrite Et, Hg. cbn [res_bind]. unfold get_node. cbn.
    rewrite lookup_insert_eq. cbn. unfold entry. by rewrite lookup_insert_eq.
  - intros key' Hk' [?|Hne]; [done|]. rewrite <- Hsame by done. rewrite !radix_get_leafval by (cbn; congruence). cbn [tree].
    apply (Hv2 _ []); [done|cbn; by rewrite key_path_length|]. cbn [app]. intros Ep. apply Hne.
    apply key_path_inj; [done..|]. rewrite (surjective_pairing (key_path key')), Ep. by destruct (key_path key).
Qed.

Lemma radix_set_spec st key v :
  radix_ok st -> is_key key ->
  exists st' b, radix_set st key v = Ok (st', b) /\ radix_ok st' /\
    (b = true -> radix_get st' key = Ok v) /\
    (forall key', is_key key' -> b = false \/ key' <> key -> radix_get st' key' = radix_get st key').
Proof.
  intros [pos Hw] Hkey. unfold radix_set.
  assert (Hpath : radix_indices (Z.to_nat RADIX_LEVELS) key = (key_path key).2 :: reverse (key_path key).1).
  { unfold key_path. change (Z.to_nat RADIX_LEVELS) with 8%nat. pose proof (radix_indices_length 8 key).
    destruct (radix_indices 8 key); [done|]. cbn [fst snd]. by rewrite reverse_involutive. }
  destruct (Z.eqb_spec (root (tree st)) 0) as [Hr|Hr].
  - destruct (new_radix_node_ok st pos Hw) as (st1 & c & E1 & Hor). rewrite E1. cbn [res_bind].
    destruct Hor as [[-> ->]|(Hc & Hcn & En1 & Et1 & X & HX & HcX & _)].
    { cbn [Z.eqb res_bind negb]. exists st, false. split_and!; [done|by exists pos|done|auto]. }
    rewrite (proj2 (Z.eqb_neq c 0) Hc). cbn [res_bind negb]. rewrite Hpath. cbv beta iota. rewrite reverse_involutive.
    unfold with_tree. rewrite En1, Et1.
    destruct (add_root st pos (heap st1) X c Hw Hr Hc HX HcX) as [Hw2 Hg2].
    destruct (set_at_leaf _ _ key v Hw2 Hc Hkey) as (st' & b & E & Hok & Hb & Hf).
    exists st', b. split_and!; [exact E|done|done|]. intros key' Hk' Hor. rewrite <- Hg2. by apply Hf.
  - cbn [res_bind negb]. rewrite Hpath. cbv beta iota. rewrite reverse_involutive. by apply (set_at_leaf _ pos).
Qed.
End inv.

(** ** The guarantees of lib/radix.c *)

(** C6. [radix_set] on a well-formed tree returns normally and leaves a
    well-formed tree.  When it reports success the tree maps the key to the value,
    and no other key has changed; when it reports failure (a node could not be
    allocated) no key has changed at all. *)
Theorem radix_set_get {S} `{KernelAlloc S} (st : rstate S) key v :
  radix_ok st -> is_key key ->
  exists st' b, radix_set st key v = Ok (st', b) /\ radix_ok st' /\
    (b = true -> radix_get st' key = Ok v) /\
    (forall key', is_key key' -> b = false \/ key' <> key -> radix_get st' key' = radix_get st key').
Proof. apply radix_set_spec. Qed.

(** An empty tree over the allocator that never fails. *)
Definition empty_tree : rstate Z := mk_rstate 1 ∅ (mk_radix 0 true).

Lemma empty_tree_ok : @radix_ok Z bump_alloc empty_tree.
Proof.
  exists ∅. split; [|by intros Hr|by intros ??|by intros ????].
  exists ∅. split; [split; [done|by intros p ?%elem_of_empty]|by intros p [? ?]].
Qed.

Lemma radix_set_get_witness :
  exists st', @radix_set Z bump_alloc empty_tree 0x123456789abcdef0 7 = Ok (st', true) /\
    radix_get st' 0x123456789abcdef0 = Ok 7 /\ radix_get st' 0x123456789abcdef1 = Ok 0.
Proof.
  destruct (@radix_set_get Z bump_alloc empty_tree 0x123456789abcdef0 7 empty_tree_ok) as (st' & b & E & Hok & Hb & Hn);
    [done|]. clear Hok. exists st'. assert (b = true) as ->.
  { apply (f_equal (fun r => match r with Ok (_, b) => b | _ => false end)) in E. vm_compute in E. exact (eq_sym E). }
  split; [exact E|]. clear E. split; [exact (Hb eq_refl)|].
  rewrite Hn; [reflexivity|split; [discriminate|reflexivity]|right; discriminate].
Defined.
