(* ===== verification/Hmap.v ===== *)
(** * Hmap: the string-keyed hash map of lib/hmap.c and include/shash.h

    Entries are chained per bucket ([Hlist]) and also threaded on one list in
    insertion order ([ListHead]).  An entry's key is the address of its own copy
    of the string together with the string's bytes; [strdup] may fail, and then
    the key is NULL.  [strcmp] is the function of [CMem], which on strings is
    [lex_diff schar].  The spin lock only masks interrupts and is left out. *)

From S2P Require Import Prelude Bits ListHead CMem Hlist Alloc LSort.

(** ** include/shash.h *)

Fixpoint shash_loop (v : Z) (s : list Z) : Z :=
  match s with
  | [] => v
  | c :: s => shash_loop (u32 (u32 (Z.shiftl v 5) + v + schar c)) s
  end.

(** A NULL string hashes to the initial value. *)
Definition shash (s : option (list Z)) : Z :=
  match s with None => 5381 | Some s => shash_loop 5381 s end.

(** ** lib/hmap.c *)

Record hmap_entry_t := mk_entry {
  key : option (Z * list Z);
  value : Z;
}.

Definition key_bytes (e : hmap_entry_t) : option (list Z) := snd <$> key e.

Record hmap_t := mk_hmap {
  hash : Z;
  msize : Z;
  n : Z;
}.

Definition sizeof_hmap_t : Z := 32.
Definition sizeof_hlist_head : Z := 8.
Definition sizeof_hmap_entry_t : Z := 48.

Section ops.
Context {S : Type} `{KernelAlloc S}.

(** The heap, the chains (a head is an index of a bucket array, a node an entry),
    the entry list ([None] is [&m->list], [Some e] the node of entry [e]), the
    entries, the map's own address and its fields. *)
Record hstate := mk_hstate {
  heap : S;
  chains : hheap (Z * Z) Z;
  links : lheap (option Z);
  entries : gmap Z hmap_entry_t;
  maddr : Z;
  hm : hmap_t;
}.
Implicit Types st : hstate.

Definition with_heap st s : hstate := mk_hstate s (chains st) (links st) (entries st) (maddr st) (hm st).
Definition with_chains st c : hstate := mk_hstate (heap st) c (links st) (entries st) (maddr st) (hm st).
Definition with_links st l : hstate := mk_hstate (heap st) (chains st) l (entries st) (maddr st) (hm st).
Definition with_entries st e : hstate := mk_hstate (heap st) (chains st) (links st) e (maddr st) (hm st).
Definition with_hm st m : hstate := mk_hstate (heap st) (chains st) (links st) (entries st) (maddr st) m.

Definition get_entry st (e : Z) : res hmap_entry_t := deref (entries st !! e).

(** [shash(key) & (m->size - 1)] *)
Definition bucket_of (m : hmap_t) (k : option (list Z)) : Z := Z.land (shash k) (u32 (msize m - 1)).

(** The rounding that [hmap_alloc] and [hmap_resize] share. *)
Definition round_size (size : Z) : res Z :=
  let size := if size <? 16 then 16 else size in
  if negb (Z.land size (u32 (size - 1)) =? 0) then
    let* r := __roundup_pow_of_two size in Ok (u32 r)
  else Ok size.

(** [for (i = 0; i < size; i++) init_hlist_head(&hash[i]);] *)
Definition init_heads (arr size : Z) (c : hheap (Z * Z) Z) : hheap (Z * Z) Z :=
  foldl (fun c i => init_hlist_head (arr, i) c) c (seqZ 0 size).

Definition hmap_alloc (s : S) (c : hheap (Z * Z) Z) (l : lheap (option Z)) (size : Z)
    : res (S * option hstate) :=
  let* size := round_size size in
  let* '(s, m) := al_malloc s sizeof_hmap_t in
  if m =? 0 then Ok (s, None)
  else
    let* '(s, arr) := al_malloc s (sizeof_hlist_head * size) in
    if arr =? 0 then let* s := al_free s m in Ok (s, None)
    else
      Ok (s, Some (mk_hstate s (init_heads arr size c) (init_list_head None l) ∅ m (mk_hmap arr size 0))).

(** The first entry of the chain whose key equals [k], as the loops of
    [hmap_add], [hmap_remove] and [hmap_search] find it. *)
Fixpoint find_entry (fuel : nat) st (pos : option Z) (k : list Z) : res (option Z) :=
  match pos with
  | None => Ok None
  | Some e =>
      match fuel with
      | O => Undef
      | Datatypes.S fuel =>
          let* en := get_entry st e in
          let* ek := deref (key_bytes en) in
          if lex_diff schar ek k =? 0 then Ok (Some e)
          else find_entry fuel st (hptr (chains st) !! CNext e) k
      end
  end.

Definition find st (k : list Z) : res (option Z) :=
  find_entry (size (entries st)) st (hptr (chains st) !! CFirst (hash (hm st), bucket_of (hm st) (Some k))) k.

Definition hmap_search st (k : list Z) : res Z :=
  let* r := find st k in
  match r with
  | None => Ok 0
  | Some e => let* en := get_entry st e in Ok (value en)
  end.

(** The entries in list order. *)
Definition entry_list st : res (list (option Z)) :=
  list_for_each (Datatypes.S (size (entries st))) None (links st).

Definition node_entry (l : option Z) : res Z := deref l.

Fixpoint del_all (es : list (option Z)) (c : hheap (Z * Z) Z) : res (hheap (Z * Z) Z) :=
  match es with
  | [] => Ok c
  | e :: es => let* e := node_entry e in let* c := hlist_del e c in del_all es c
  end.

Fixpoint add_all (es : list (option Z)) st : res hstate :=
  match es with
  | [] => Ok st
  | e :: es =>
      let* e := node_entry e in
      let* en := get_entry st e in
      let b := bucket_of (hm st) (key_bytes en) in
      let* _ := defined_if (b <? msize (hm st)) in
      add_all es (with_chains st (hlist_add_head e (hash (hm st), b) (chains st)))
  end.

Definition hmap_resize st (size : Z) : res hstate :=
  let* size := round_size (u32 size) in
  let* '(s, arr) := al_malloc (heap st) (sizeof_hlist_head * size) in
  let st := with_heap st s in
  if arr =? 0 then Ok st
  else
    let st := with_chains st (init_heads arr size (chains st)) in
    let* es := entry_list st in
    let* c := del_all es (chains st) in
    let* s := al_free (heap st) (hash (hm st)) in
    let st := mk_hstate s c (links st) (entries st) (maddr st) (mk_hmap arr size (n (hm st))) in
    let* es := entry_list st in
    add_all es st.

(** [strdup], at the level of the string's bytes. *)
Definition strdup (s : S) (k : list Z) : res (S * option (Z * list Z)) :=
  let* '(s, p) := al_malloc s (Z.of_nat (length k) + 1) in
  if p =? 0 then Ok (s, None) else Ok (s, Some (p, k)).

Definition hmap_add st (k : list Z) (v : Z) : res hstate :=
  let* r := find st k in
  match r with
  | Some e =>
      let* en := get_entry st e in
      Ok (with_entries st (<[e := mk_entry (key en) v]> (entries st)))
  | None =>
      let* st := if Z.shiftr (msize (hm st)) 1 <? n (hm st) then hmap_resize st (Z.shiftl (msize (hm st)) 1)
                 else Ok st in
      let* '(s, pos) := al_malloc (heap st) sizeof_hmap_entry_t in
      let st := with_heap st s in
      if pos =? 0 then Ok st
      else
        let* '(s, kp) := strdup (heap st) k in
        let st := with_heap st s in
        let c := init_hlist_node pos (chains st) in
        let b := bucket_of (hm st) (snd <$> kp) in
        let c := hlist_add_head pos (hash (hm st), b) c in
        let l := init_list_head (Some pos) (links st) in
        let* l := list_add_tail (Some pos) None l in
        let m := mk_hmap (hash (hm st)) (msize (hm st)) (u32 (n (hm st) + 1)) in
        Ok (mk_hstate (heap st) c l (<[pos := mk_entry kp v]> (entries st)) (maddr st) m)
  end.

(** Unlinking an entry and releasing its key and itself. *)
Definition drop_entry st (e : Z) : res hstate :=
  let* c := hlist_del e (chains st) in
  let* l := list_del (Some e) (links st) in
  let m := mk_hmap (hash (hm st)) (msize (hm st)) (u32 (n (hm st) - 1)) in
  let* en := get_entry st e in
  let* s := al_free (heap st) (default 0 (fst <$> key en)) in
  let* s := al_free s e in
  Ok (mk_hstate s c l (delete e (entries st)) (maddr st) m).

Definition hmap_remove st (k : list Z) : res hstate :=
  let* st := if (16 <? msize (hm st)) && (n (hm st) <? Z.shiftr (msize (hm st)) 1)
             then hmap_resize st (Z.shiftr (msize (hm st)) 1)
             else Ok st in
  let* r := find st k in
  match r with
  | None => Ok st
  | Some e => drop_entry st e
  end.

(** [hmap_clear]: the next node is read before the current entry goes.  It
    returns the entries handed to the callback. *)
Fixpoint clear_loop (fuel : nat) st (pos : option Z) : res (hstate * list hmap_entry_t) :=
  match pos with
  | None => Ok (st, [])
  | Some e =>
      match fuel with
      | O => Undef
      | Datatypes.S fuel =>
          let* nx := get_next (Some e) (links st) in
          let* en := get_entry st e in
          let* st := drop_entry st e in
          let* '(st, l) := clear_loop fuel st nx in
          Ok (st, en :: l)
      end
  end.

Definition hmap_clear st : res (hstate * list hmap_entry_t) :=
  let* first := get_next None (links st) in
  clear_loop (size (entries st)) st first.

Definition hmap_free st : res (S * list hmap_entry_t) :=
  let* '(st, l) := hmap_clear st in
  let* s := al_free (heap st) (hash (hm st)) in
  let* s := al_free s (maddr st) in
  Ok (s, l).

(** [strcmp] on the keys; a list node that is not an entry, or a NULL key, cannot
    be compared. *)
Definition hmap_compare st (a b : option Z) : Z :=
  match a ≫= fun e => entries st !! e ≫= key_bytes, b ≫= fun e => entries st !! e ≫= key_bytes with
  | Some ka, Some kb => lex_diff schar ka kb
  | _, _ => 0
  end.

Definition hmap_sort st : res hstate :=
  let* l := lsort (hmap_compare st) (size (entries st)) None (links st) in
  Ok (with_links st l).
End ops.
Arguments hstate : clear implicits.
