(* ===== verification/HmapProof.v ===== *)
(** * HmapProof: lib/hmap.c implements a finite map

    [hmap_ok st M] relates a hash map to the finite map [M] from strings to
    values it stands for. *)

From S2P Require Import Prelude Bits ListHead CMem Hlist Alloc LSort Hmap.

Local Coercion Z.of_nat : nat >-> Z.

Definition is_str (k : list Z) : Prop := Forall (fun b => 0 < b < 256) k /\ Z.of_nat (length k) < 2 ^ 31 - 1.

Lemma str_eq a b : is_str a -> is_str b -> (lex_diff schar a b =? 0) = bool_decide (a = b).
Proof.
  intros [Ha _] [Hb _].
  destruct (Z.eqb_spec (lex_diff schar a b) 0) as [E|E]; symmetry.
  - apply bool_decide_eq_true. rewrite lex_diff_zero in E; [done| |done|done].
    intros x y Hx Hy. by apply schar_inj.
  - apply bool_decide_eq_false. intros ->. apply E. apply lex_diff_zero; [|done..].
    intros x y Hx Hy. by apply schar_inj.
Qed.

Section proof.
Context {S : Type} `{KernelAlloc S}.
Implicit Types (st : hstate S) (M : gmap (list Z) Z) (es : list Z).

(** Entry [e] holds the key [k], copied to address [a], and the value [v]. *)
Definition entry_is st (e a : Z) (k : list Z) (v : Z) : Prop :=
  entries st !! e = Some (mk_entry (Some (a, k)) v).

(** The addresses the map owns: those of the entries and of their keys. *)
Definition keys_of (en : gmap Z hmap_entry_t) es : list Z :=
  omap (fun e => en !! e ≫= fun x => fst <$> key x) es.

Definition in_bucket (m : hmap_t) (en : gmap Z hmap_entry_t) (i e : Z) : Prop :=
  exists x, en !! e = Some x /\ bucket_of m (key_bytes x) = i.

(** The bucket array [arr] chains exactly the entries [es]. *)
Definition buckets_ok (c : hheap (Z * Z) Z) (m : hmap_t) (en : gmap Z hmap_entry_t) es : Prop :=
  forall i, 0 <= i < msize m ->
    exists xs, hlist c (hash m, i) xs /\ forall e, e ∈ xs <-> e ∈ es /\ in_bucket m en i e.

Record entries_ok (en : gmap Z hmap_entry_t) es M : Prop := {
  eo_dom e : e ∈ es <-> is_Some (en !! e);
  eo_key e x : en !! e = Some x -> exists a k, key x = Some (a, k) /\ is_str k /\ M !! k = Some (value x);
  eo_map k v : M !! k = Some v -> exists e a, en !! e = Some (mk_entry (Some (a, k)) v);
  eo_inj e e' x x' : en !! e = Some x -> en !! e' = Some x' -> key_bytes x = key_bytes x' -> e = e';
}.

Record hmap_rel st es M : Prop := {
  hr_size : exists j, 4 <= j <= 27 /\ msize (hm st) = 2 ^ j;
  hr_list : dlist (links st) None (Some <$> es);
  hr_ents : entries_ok (entries st) es M;
  hr_buckets : buckets_ok (chains st) (hm st) (entries st) es;
  hr_n : n (hm st) = length es /\ length es < 2 ^ 32;
  hr_heap : exists X, al_inv (heap st) X /\ NoDup (hash (hm st) :: maddr st :: es ++ keys_of (entries st) es) /\
    forall p, p ∈ hash (hm st) :: maddr st :: es ++ keys_of (entries st) es -> p ∈ X;
}.

Definition hmap_ok st M : Prop := exists es, hmap_rel st es M.

Lemma hr_es_nodup st es M : hmap_rel st es M -> NoDup es.
Proof.
  intros Hr. pose proof (hr_list _ _ _ Hr) as Hd%dlist_NoDup. rewrite NoDup_cons in Hd.
  destruct Hd as [_ Hd]. by apply NoDup_fmap_1 in Hd.
Qed.

Lemma entries_size en es M : entries_ok en es M -> NoDup es -> size en = length es.
Proof.
  intros He Hnd. rewrite <- size_dom. rewrite <- (size_list_to_set (C := gset Z) es) by done. f_equal.
  apply leibniz_equiv. intros e. rewrite elem_of_dom, elem_of_list_to_set. symmetry. apply He.
Qed.

Lemma shash_loop_range v s : 0 <= v < 2 ^ 32 -> 0 <= shash_loop v s < 2 ^ 32.
Proof. revert v. induction s as [|c s IH]; intros v Hv; [done|]. cbn. apply IH, wrap_range. lia. Qed.

Lemma bucket_range m k j : 4 <= j <= 27 -> msize m = 2 ^ j -> 0 <= bucket_of m k < msize m.
Proof.
  intros Hj Em. unfold bucket_of. rewrite Em.
  assert (0 < 2 ^ j <= 2 ^ 27) by (split; [apply Z.pow_pos_nonneg|apply Z.pow_le_mono_r]; lia).
  rewrite u32_small by lia. replace (2 ^ j - 1) with (Z.ones j) by (rewrite Z.ones_equiv; lia).
  rewrite Z.land_ones by lia. apply Z.mod_pos_bound. lia.
Qed.

(** ** Searching a chain *)

Lemma find_entry_spec fuel st c xs es M k :
  entries_ok (entries st) es M -> hchain (chains st) c xs -> (forall e, e ∈ xs -> e ∈ es) -> is_str k ->
  (length xs <= fuel)%nat ->
  exists o, find_entry fuel st (hptr (chains st) !! c) k = Ok o /\
    match o with
    | Some e => e ∈ xs /\ exists a v, entry_is st e a k v
    | None => forall e x, e ∈ xs -> entries st !! e = Some x -> key_bytes x <> Some k
    end.
Proof.
  intros He. revert c xs. induction fuel as [|fuel IH]; intros c xs Hc Hin Hk Hf; destruct xs as [|e xs]; cbn in Hf; try lia.
  - cbn in Hc. rewrite Hc. exists None. split; [done|]. set_solver.
  - cbn in Hc. rewrite Hc. exists None. split; [done|]. set_solver.
  - destruct Hc as (Hp & _ & Hc). rewrite Hp. cbn [find_entry].
    destruct (proj1 (eo_dom _ _ _ He e) (Hin e ltac:(set_solver))) as [x Hx].
    destruct (eo_key _ _ _ He _ _ Hx) as (a & ek & Ek & Hstr & _).
    unfold get_entry. rewrite Hx. cbn [deref res_bind]. unfold key_bytes. rewrite Ek. cbn [fmap option_fmap option_map snd deref res_bind].
    rewrite str_eq by done. destruct (decide (ek = k)) as [->|Hne].
    + rewrite bool_decide_true by done. exists (Some e). split; [done|]. split; [set_solver|].
      exists a, (value x). unfold entry_is. rewrite Hx. destruct x; cbn in Ek; by subst.
    + rewrite bool_decide_false by done.
      destruct (IH (CNext e) xs Hc ltac:(set_solver) Hk ltac:(lia)) as (o & Eo & Ho). exists o. split; [done|].
      destruct o as [e'|]; [destruct Ho; split; [set_solver|done]|].
      intros e' x' [->|Hin']%elem_of_cons Hx'; [|by eapply Ho].
      rewrite Hx in Hx'. injection Hx' as <-. unfold key_bytes. rewrite Ek. cbn. congruence.
Qed.

Lemma find_spec st es M k :
  hmap_rel st es M -> is_str k ->
  exists o, find st k = Ok o /\
    match o with
    | Some e => e ∈ es /\ exists a v, entry_is st e a k v /\ M !! k = Some v
    | None => M !! k = None
    end.
Proof.
  intros Hr Hk. destruct (hr_size _ _ _ Hr) as (j & Hj & Em). pose proof (hr_ents _ _ _ Hr) as He.
  pose proof (hr_es_nodup _ _ _ Hr) as Hnd.
  set (i := bucket_of (hm st) (Some k)). pose proof (bucket_range (hm st) (Some k) j Hj Em) as Hi. fold i in Hi.
  destruct (hr_buckets _ _ _ Hr i Hi) as (xs & [Hc Hndx] & Hxs).
  assert (Hlen : (length xs <= size (entries st))%nat).
  { rewrite (entries_size _ _ _ He Hnd). apply submseteq_length. apply NoDup_submseteq; [done|].
    intros e Hin. by apply Hxs. }
  destruct (find_entry_spec (size (entries st)) st (CFirst (hash (hm st), i)) xs es M k He Hc) as (o & Eo & Ho);
    [intros e Hin; by apply Hxs|done|done|].
  exists o. split; [done|]. destruct o as [e|].
  - destruct Ho as (Hin & a & v & Hen). split; [by apply Hxs|]. exists a, v. split; [done|].
    destruct (eo_key _ _ _ He _ _ Hen) as (a' & k' & [= <- <-] & _ & ?). done.
  - apply eq_None_not_Some. intros [v Hv]. destruct (eo_map _ _ _ He _ _ Hv) as (e & a & Hen).
    eapply Ho; [|exact Hen|done]. apply Hxs. split; [apply He; eauto|]. eexists. split; [exact Hen|done].
Qed.

Lemma hmap_search_spec st M k :
  hmap_ok st M -> is_str k -> hmap_search st k = Ok (default 0 (M !! k)).
Proof.
  intros [es Hr] Hk. unfold hmap_search. destruct (find_spec st es M k Hr Hk) as (o & Eo & Ho). rewrite Eo.
  cbn [res_bind]. destruct o as [e|].
  - destruct Ho as (_ & a & v & Hen & Hv). unfold get_entry. rewrite Hen. cbn. by rewrite Hv.
  - by rewrite Ho.
Qed.

(** ** Adding to and removing from the buckets *)

Lemma in_bucket_unique m en i i' e : in_bucket m en i e -> in_bucket m en i' e -> i = i'.
Proof. intros (x & Hx & <-) (x' & Hx' & <-). congruence. Qed.

Lemma buckets_add c m en es e x :
  buckets_ok c m en es -> en !! e = Some x -> e ∉ es -> 0 <= bucket_of m (key_bytes x) < msize m ->
  buckets_ok (hlist_add_head e (hash m, bucket_of m (key_bytes x)) c) m en (e :: es).
Proof.
  intros Hb Hx He Hr i Hi. set (b := bucket_of m (key_bytes x)) in *.
  destruct (Hb b Hr) as (xs & Hxs & Hin). assert (Hex : e ∉ xs) by (intros [? _]%Hin; done).
  destruct (hlist_add_head_spec c (hash m, b) xs e Hxs Hex) as [Hnew Hsame].
  destruct (decide (i = b)) as [->|Hne].
  - exists (e :: xs). split; [done|]. intros y. rewrite !elem_of_cons, Hin.
    split; [intros [->|[? ?]]; [split; [by left|by exists x]|split; [by right|done]]|].
    intros [[->|?] ?]; [by left|by right].
  - destruct (Hb i Hi) as (ys & Hys & Hiny). exists ys. split.
    + eapply hlist_frame; [exact Hsame|intros [= ->]%list_elem_of_singleton; done| |done].
      intros y Hy Hy'. apply elem_of_cons in Hy' as [->|Hy']; [by apply Hiny in Hy as [? _]|].
      apply Hne. apply Hiny in Hy as [_ Hy]. apply Hin in Hy' as [_ Hy']. by eapply in_bucket_unique.
    + intros y. rewrite Hiny, elem_of_cons. split; [tauto|]. intros [[->|?] Hy]; [|done].
      exfalso. apply Hne. eapply in_bucket_unique; [exact Hy|]. by exists x.
Qed.

(** Nothing of the array [arr] is used yet: all its chains are empty. *)
Definition fresh_array (c : hheap (Z * Z) Z) (arr size : Z) : Prop :=
  forall i, 0 <= i < size -> hlist c (arr, i) [].

Lemma buckets_del c m en es e x :
  buckets_ok c m en es -> en !! e = Some x -> e ∈ es -> 0 <= bucket_of m (key_bytes x) < msize m ->
  exists c', hlist_del e c = Ok c' /\
    (forall es', (forall y, y ∈ es' <-> y ∈ es /\ y <> e) -> buckets_ok c' m en es') /\
    (forall arr size, arr <> hash m -> fresh_array c arr size -> fresh_array c' arr size).
Proof.
  intros Hb Hx He Hr. set (b := bucket_of m (key_bytes x)) in *.
  destruct (Hb b Hr) as (xs & Hxs & Hin).
  assert (e ∈ xs) as (l1 & l2 & ->)%list_elem_of_split by (apply Hin; split; [done|by exists x]).
  destruct (hlist_del_spec c (hash m, b) l1 e l2 Hxs) as (c' & E & Hnew & Hsame).
  exists c'. split; [done|]. split.
  - intros es' Hes' i Hi. destruct (decide (i = b)) as [->|Hne].
    + exists (l1 ++ l2). split; [done|]. intros y. rewrite Hes'. specialize (Hin y).
      assert (e ∉ l1 ++ l2).
      { destruct Hxs as [_ Hnd]. rewrite <- (Permutation_middle l1 l2 e), NoDup_cons in Hnd. tauto. }
      rewrite elem_of_app, elem_of_cons in Hin. rewrite elem_of_app in *.
      destruct (decide (y = e)) as [->|]; tauto.
    + destruct (Hb i Hi) as (ys & Hys & Hiny). exists ys. split.
      * eapply hlist_frame; [exact Hsame|intros [= ->]%list_elem_of_singleton; done| |done].
        intros y Hy Hy'. apply Hne. apply Hiny in Hy as [_ Hy]. apply Hin in Hy' as [_ Hy']. by eapply in_bucket_unique.
      * intros y. rewrite Hiny, Hes'. split; [|tauto]. intros [? Hy]. split; [|done]. split; [done|]. intros ->.
        apply Hne. eapply in_bucket_unique; [exact Hy|]. by exists x.
  - intros arr sz Ha Hf i Hi. eapply hlist_frame; [exact Hsame| | |by apply Hf].
    + intros [= -> _]%list_elem_of_singleton. done.
    + by intros y ?%elem_of_nil.
Qed.

(** ** Resizing *)

Lemma round_size_pow2 j : 4 <= j <= 27 -> round_size (2 ^ j) = Ok (2 ^ j).
Proof.
  intros Hj. assert (2 ^ 4 <= 2 ^ j <= 2 ^ 27) by (split; apply Z.pow_le_mono_r; lia).
  unfold round_size. rewrite (proj2 (Z.ltb_ge _ _)) by lia. rewrite u32_small by lia.
  rewrite land_pow2_pred by lia. done.
Qed.

Lemma init_heads_app (arr : Z) (l : list Z) (c : hheap (Z * Z) Z) :
  (forall i, i ∈ l -> hlist (foldl (fun c i => init_hlist_head (arr, i) c) c l) (arr, i) []) /\
  hsame ((fun i => (arr, i)) <$> l) [] c (foldl (fun c i => init_hlist_head (arr, i) c) c l).
Proof.
  revert c. induction l as [|i l IH] using rev_ind; intros c; [split; [set_solver|by split]|].
  rewrite foldl_app. cbn [foldl]. destruct (IH c) as [Hl [Hs1 Hs2]].
  pose proof (hlist_init_same (foldl (fun c i => init_hlist_head (arr, i) c) c l) (arr, i)) as [Ht1 Ht2]. split.
  - intros i' Hi'. destruct (decide (i' = i)) as [->|Hne]; [apply hlist_init|].
    eapply hlist_frame; [exact (conj Ht1 Ht2)|intros [= ->]%list_elem_of_singleton; done|by intros ? ?%elem_of_nil|].
    apply Hl. set_solver.
  - split; [intros b Hb|intros m Hm; destruct (Ht2 m Hm), (Hs2 m Hm); split; congruence].
    rewrite fmap_app in Hb. rewrite Ht1 by set_solver. apply Hs1. set_solver.
Qed.

Lemma init_heads_spec arr sz c :
  fresh_array (init_heads arr sz c) arr sz /\ hsame ((fun i => (arr, i)) <$> seqZ 0 sz) [] c (init_heads arr sz c).
Proof.
  destruct (init_heads_app arr (seqZ 0 sz) c) as [H1 H2]. split; [|done].
  intros i Hi. apply H1. apply elem_of_seqZ. lia.
Qed.

Lemma buckets_frame_array c c' m en es (arr : Z) (l : list Z) :
  hsame ((fun i => (arr, i)) <$> l) [] c c' -> arr <> hash m -> buckets_ok c m en es -> buckets_ok c' m en es.
Proof.
  intros Hs Ha Hb i Hi. destruct (Hb i Hi) as (xs & Hxs & Hin). exists xs. split; [|done].
  eapply hlist_frame; [done| |by intros ? _ ?%elem_of_nil|done].
  intros (k & [= E _] & _)%list_elem_of_fmap. congruence.
Qed.

Lemma del_all_spec es c m en arr sz j :
  4 <= j <= 27 -> msize m = 2 ^ j ->
  buckets_ok c m en es -> NoDup es -> (forall e, e ∈ es -> is_Some (en !! e)) -> arr <> hash m ->
  fresh_array c arr sz ->
  exists c', del_all (Some <$> es) c = Ok c' /\ fresh_array c' arr sz.
Proof.
  intros Hj Em. revert c. induction es as [|e es IH]; intros c Hb Hnd Hen Ha Hf; [by exists c|].
  cbn [fmap list_fmap del_all node_entry deref res_bind]. rewrite NoDup_cons in Hnd. destruct Hnd as [Hn Hnd].
  destruct (Hen e ltac:(left)) as [x Hx].
  destruct (buckets_del c m en (e :: es) e x Hb Hx ltac:(left) (bucket_range _ _ _ Hj Em)) as (c1 & E1 & Hb1 & Hf1).
  rewrite E1. cbn [res_bind]. apply IH; [|done|intros; apply Hen; by right|done|by apply Hf1].
  apply Hb1. intros y. rewrite elem_of_cons. split; [|naive_solver]. intros Hy. split; [by right|]. intros ->. done.
Qed.

Lemma add_all_spec es st done_ j :
  4 <= j <= 27 -> msize (hm st) = 2 ^ j ->
  buckets_ok (chains st) (hm st) (entries st) done_ -> NoDup (es ++ done_) ->
  (forall e, e ∈ es -> is_Some (entries st !! e)) ->
  exists c', add_all (Some <$> es) st = Ok (with_chains st c') /\
    buckets_ok c' (hm st) (entries st) (reverse es ++ done_).
Proof.
  intros Hj Em. revert st Em done_. induction es as [|e es IH]; intros st Em done_ Hb Hnd Hen.
  { exists (chains st). split; [by destruct st|done]. }
  cbn [fmap list_fmap add_all node_entry deref res_bind]. destruct (Hen e ltac:(left)) as [x Hx].
  unfold get_entry. rewrite Hx. cbn [deref res_bind].
  pose proof (bucket_range (hm st) (key_bytes x) j Hj Em) as Hr.
  rewrite (proj2 (Z.ltb_lt _ _)) by lia. cbn [defined_if res_bind].
  cbn [app] in Hnd. rewrite NoDup_cons in Hnd. destruct Hnd as [Hn Hnd].
  set (st1 := with_chains st _).
  destruct (IH st1 Em (e :: done_)) as (c' & E & Hb').
  - apply buckets_add; [done|done|set_solver|done].
  - rewrite <- (Permutation_middle es done_ e). by apply NoDup_cons.
  - intros y Hy. apply Hen. by right.
  - exists c'. split; [by rewrite E|]. rewrite reverse_cons, <- app_assoc. done.
Qed.

Lemma entry_list_spec st es M : hmap_rel st es M -> entry_list st = Ok (Some <$> es).
Proof.
  intros Hr. apply list_for_each_spec; [apply Hr|].
  rewrite length_fmap, (entries_size _ _ _ (hr_ents _ _ _ Hr) (hr_es_nodup _ _ _ Hr)). lia.
Qed.

Lemma hmap_resize_spec st es M j :
  hmap_rel st es M -> 4 <= j <= 27 ->
  exists st', hmap_resize st (2 ^ j) = Ok st' /\ hmap_rel st' es M.
Proof.
  intros Hr Hj. pose proof Hr as [(j0 & Hj0 & Em) Hl He Hb Hn (X & HX & HndX & HinX)].
  assert (2 ^ 4 <= 2 ^ j <= 2 ^ 27) by (split; apply Z.pow_le_mono_r; lia).
  pose proof (hr_es_nodup _ _ _ Hr) as Hnd.
  unfold hmap_resize. rewrite u32_small, round_size_pow2 by lia. cbn [res_bind].
  destruct (al_malloc_ok (heap st) X (sizeof_hlist_head * 2 ^ j) HX) as (s & arr & E & Hor);
    [unfold sizeof_hlist_head; lia|].
  rewrite E. cbn [res_bind]. destruct Hor as [[-> ->]|(Ha0 & HaX & HX')].
  { cbn [Z.eqb]. exists st. split; [by destruct st|done]. }
  rewrite (proj2 (Z.eqb_neq arr 0) Ha0).
  assert (Harr : arr ∉ hash (hm st) :: maddr st :: es ++ keys_of (entries st) es) by (intros Hin; by apply HaX, HinX).
  assert (Hah : arr <> hash (hm st)) by (intros ->; apply Harr; left).
  destruct (init_heads_spec arr (2 ^ j) (chains st)) as [Hfresh Hsame].
  change (chains (with_heap st s)) with (chains st).
  rewrite (entry_list_spec (with_chains (with_heap st s) (init_heads arr (2 ^ j) (chains st))) es M).
  2: { destruct Hr. split; cbn; [done..| |done|].
       - by eapply buckets_frame_array.
       - exists ({[arr]} ∪ X). split_and!; [done..|]. intros p Hp. apply elem_of_union_r. by apply HinX. }
  cbn [res_bind with_chains with_heap chains heap].
  destruct (del_all_spec es (init_heads arr (2 ^ j) (chains st)) (hm st) (entries st) arr (2 ^ j) j0) as (c1 & E1 & Hf1);
    [done|done|by eapply buckets_frame_array|done|intros e ?; by apply He|done|done|].
  rewrite E1. cbn [res_bind].
  destruct (al_free_ok s ({[arr]} ∪ X) (hash (hm st)) HX') as (s2 & E2 & HX2).
  { apply elem_of_union_r, HinX. left. }
  cbn [hm links entries maddr heap with_chains with_heap] in *. rewrite E2. cbn [res_bind].
  set (st2 := mk_hstate s2 c1 (links st) (entries st) (maddr st) (mk_hmap arr (2 ^ j) (n (hm st)))).
  unfold entry_list. cbn [st2 entries links]. rewrite (list_for_each_spec _ _ (Some <$> es)); [|done|].
  2: { rewrite length_fmap, (entries_size _ _ _ He Hnd). lia. }
  cbn [res_bind]. destruct (add_all_spec es st2 [] j) as (c3 & E3 & Hb3);
    [done|done| |by rewrite app_nil_r|intros e ?; by apply He|].
  { intros i Hi. exists []. split; [by apply Hf1|]. set_solver. }
  rewrite E3. eexists. split; [done|]. split; cbn; [by exists j|done|done| |done|].
  - intros i Hi. destruct (Hb3 i Hi) as (xs & Hxs & Hin). exists xs. split; [done|]. intros e.
    rewrite Hin, app_nil_r, elem_of_reverse. done.
  - exists (({[arr]} ∪ X) ∖ {[hash (hm st)]}). rewrite !NoDup_cons in HndX. destruct HndX as (Hh & Hm & Hnd2).
    rewrite elem_of_cons in Hh. split_and!; [done| |].
    + rewrite !NoDup_cons. split_and!; [set_solver|done|done].
    + intros p Hp. apply elem_of_difference. rewrite elem_of_union, !elem_of_singleton.
      apply elem_of_cons in Hp as [->|Hp]; [split; [by left|done]|]. split; [right; apply HinX; by right|].
      intros ->. rewrite elem_of_cons in Hp. tauto.
Qed.

(** ** Adding *)

Lemma keys_of_frame en en' es : (forall e, e ∈ es -> en' !! e = en !! e) -> keys_of en' es = keys_of en es.
Proof.
  induction es as [|e es IH]; intros Hf; [done|]. cbn. rewrite Hf by left.
  fold (keys_of en' es) (keys_of en es). rewrite IH; [done|]. intros. apply Hf. by right.
Qed.

Lemma keys_of_app en es es' : keys_of en (es ++ es') = keys_of en es ++ keys_of en es'.
Proof. apply omap_app. Qed.

(** Replacing the value of an entry. *)
Lemma hmap_set_value st es M e a k v0 v :
  hmap_rel st es M -> entry_is st e a k v0 ->
  hmap_rel (with_entries st (<[e := mk_entry (Some (a, k)) v]> (entries st))) es (<[k := v]> M).
Proof.
  intros [Hs Hl He Hb Hn Hh] Hen. unfold entry_is in Hen.
  assert (Hkb : forall y x, <[e := mk_entry (Some (a, k)) v]> (entries st) !! y = Some x ->
            exists x0, entries st !! y = Some x0 /\ key x0 = key x /\ (y <> e -> x0 = x)).
  { intros y x [[<- <-]|[Hne Hy]]%lookup_insert_Some; [by exists (mk_entry (Some (a, k)) v0)|by exists x]. }
  destruct (eo_key _ _ _ He _ _ Hen) as (a0 & k0 & [= <- <-] & Hstr & HM). cbn [value] in HM.
  split; cbn [with_entries hm links entries chains heap maddr]; [done|done| | |done|].
  - split.
    + intros y. rewrite (eo_dom _ _ _ He). rewrite lookup_insert_is_Some. split; [|naive_solver].
      intros. destruct (decide (e = y)); [by left|by right].
    + intros y x Hy. apply lookup_insert_Some in Hy as [[<- <-]|[Hne Hy]].
      * exists a, k. split_and!; [done..|]. apply lookup_insert_eq.
      * destruct (eo_key _ _ _ He _ _ Hy) as (a' & k' & Ek & Hstr' & HM'). exists a', k'. split_and!; [done..|].
        rewrite lookup_insert_ne; [done|]. intros ->. apply Hne.
        apply (eo_inj _ _ _ He _ _ _ _ Hen Hy). unfold key_bytes. by rewrite Ek.
    + intros k' v' Hk'. apply lookup_insert_Some in Hk' as [[<- <-]|[Hne Hk']].
      * exists e, a. apply lookup_insert_eq.
      * destruct (eo_map _ _ _ He _ _ Hk') as (e' & a' & He'). exists e', a'. rewrite lookup_insert_ne; [done|].
        intros ->. rewrite Hen in He'. by injection He'.
    + intros y y' x x' Hy Hy' Ek. apply Hkb in Hy as (x0 & Hy & Ex & _), Hy' as (x0' & Hy' & Ex' & _).
      apply (eo_inj _ _ _ He _ _ _ _ Hy Hy'). unfold key_bytes in *. by rewrite Ex, Ex'.
  - intros i Hi. destruct (Hb i Hi) as (xs & Hxs & Hin). exists xs. split; [done|]. intros y. rewrite Hin.
    apply and_iff_compat_l. split.
    + intros (x & Hx & Hbx). destruct (decide (y = e)) as [->|Hne].
      * exists (mk_entry (Some (a, k)) v). rewrite lookup_insert_eq. split; [done|].
        rewrite Hen in Hx. injection Hx as <-. done.
      * exists x. by rewrite lookup_insert_ne.
    + intros (x & Hx & Hbx). destruct (Hkb _ _ Hx) as (x0 & Hx0 & Ek & _). exists x0. split; [done|].
      unfold key_bytes in *. by rewrite Ek.
  - assert (Eks : keys_of (<[e := mk_entry (Some (a, k)) v]> (entries st)) es = keys_of (entries st) es); [|by rewrite Eks].
    unfold keys_of. apply list_omap_ext. apply Forall_Forall2_diag, Forall_forall. intros y _.
    destruct (decide (y = e)) as [->|]; [by rewrite lookup_insert_eq, Hen|by rewrite lookup_insert_ne].
Qed.

(** A new entry. *)
Lemma hmap_insert st es M s X pos a k v :
  hmap_rel st es M -> M !! k = None -> is_str k ->
  al_inv s X -> pos ∈ X -> a ∈ X -> pos <> a ->
  (pos ∉ hash (hm st) :: maddr st :: es ++ keys_of (entries st) es) ->
  (a ∉ hash (hm st) :: maddr st :: es ++ keys_of (entries st) es) ->
  (forall p, p ∈ hash (hm st) :: maddr st :: es ++ keys_of (entries st) es -> p ∈ X) ->
  length es + 1 < 2 ^ 32 ->
  exists l, list_add_tail (Some pos) None (init_list_head (Some pos) (links st)) = Ok l /\
  hmap_rel (mk_hstate s (hlist_add_head pos (hash (hm st), bucket_of (hm st) (Some k)) (init_hlist_node pos (chains st)))
      l (<[pos := mk_entry (Some (a, k)) v]> (entries st)) (maddr st)
      (mk_hmap (hash (hm st)) (msize (hm st)) (u32 (n (hm st) + 1))))
    (es ++ [pos]) (<[k := v]> M).
Proof.
  intros Hr HMk Hk HX HpX HaX Hpa Hpn Han HXin Hlen.
  pose proof Hr as [(j & Hj & Em) Hl He Hb [Hn _] (_ & _ & HndX & _)].
  assert (Hpes : pos ∉ es) by (intros ?; apply Hpn; set_solver).
  assert (Hpen : entries st !! pos = None) by (apply eq_None_not_Some; by rewrite <- (eo_dom _ _ _ He)).
  set (x := mk_entry (Some (a, k)) v).
  destruct (list_add_tail_spec (init_list_head (Some pos) (links st)) None (Some <$> es) (Some pos)) as (l & El & Hdl & _).
  { eapply dlist_frame; [apply init_same_outside| |done]. intros y Hy ->%list_elem_of_singleton.
    apply elem_of_cons in Hy as [?|Hy]; [done|]. by rewrite list_elem_of_fmap_inj in Hy by apply _. }
  { intros [?|Hy]%elem_of_cons; [done|]. by rewrite list_elem_of_fmap_inj in Hy by apply _. }
  exists l. split; [done|].
  split; cbn [with_entries hm links entries chains heap maddr msize hash n].
  - by exists j.
  - by rewrite fmap_app.
  - split.
    + intros y. rewrite elem_of_app, list_elem_of_singleton, lookup_insert_is_Some, (eo_dom _ _ _ He).
      destruct (decide (pos = y)) as [->|]; naive_solver.
    + intros y z Hy. apply lookup_insert_Some in Hy as [[<- <-]|[Hne Hy]].
      * exists a, k. split_and!; [done..|]. apply lookup_insert_eq.
      * destruct (eo_key _ _ _ He _ _ Hy) as (a' & k' & Ek & Hs' & HM'). exists a', k'. split_and!; [done..|].
        rewrite lookup_insert_ne; [done|]. intros ->. congruence.
    + intros k' v' Hk'. apply lookup_insert_Some in Hk' as [[<- <-]|[Hne Hk']].
      * exists pos, a. apply lookup_insert_eq.
      * destruct (eo_map _ _ _ He _ _ Hk') as (e' & a' & He'). exists e', a'. rewrite lookup_insert_ne; [done|congruence].
    + assert (Hnew : forall y z, entries st !! y = Some z -> key_bytes z <> Some k).
      { intros y z Hy. destruct (eo_key _ _ _ He _ _ Hy) as (a' & k' & Ek & _ & HM'). unfold key_bytes. rewrite Ek.
        cbn. intros [= ->]. congruence. }
      intros y y' z z' Hy Hy' Ek. apply lookup_insert_Some in Hy as [[<- <-]|[Hne Hy]], Hy' as [[<- <-]|[Hne' Hy']];
        [done|by apply Hnew in Hy'|by apply Hnew in Hy|by apply (eo_inj _ _ _ He _ _ _ _ Hy Hy')].
  - assert (Hb0 : buckets_ok (init_hlist_node pos (chains st)) (mk_hmap (hash (hm st)) (msize (hm st)) (u32 (n (hm st) + 1)))
                    (<[pos := x]> (entries st)) es).
    { intros i Hi. destruct (Hb i Hi) as (xs & Hxs & Hin). exists xs. split.
      - eapply (hlist_frame _ _ [] [pos]); [|set_solver| |done].
        + split; intros y Hy; cbn; rewrite !lookup_delete_ne; set_solver.
        + intros y Hy ->%list_elem_of_singleton. by apply Hin in Hy as [? _].
      - intros y. rewrite Hin. split; intros [Hy (z & Hz & Hbz)]; (split; [done|]); exists z;
          (rewrite lookup_insert_ne in * by congruence); done. }
    pose proof (buckets_add _ _ _ _ pos x Hb0 (lookup_insert_eq _ _ _) Hpes (bucket_range _ _ j Hj Em)) as Hb1.
    intros i Hi. destruct (Hb1 i Hi) as (xs & Hxs & Hin). exists xs. split; [done|]. intros y. rewrite Hin.
    rewrite elem_of_cons, elem_of_app, list_elem_of_singleton. tauto.
  - rewrite length_app. cbn [length]. rewrite Hn, u32_small by lia. split; lia.
  - assert (Eks : keys_of (<[pos := x]> (entries st)) (es ++ [pos]) = keys_of (entries st) es ++ [a]).
    { rewrite keys_of_app. f_equal; [|cbn; by rewrite lookup_insert_eq].
      apply keys_of_frame. intros y Hy. apply lookup_insert_ne. congruence. }
    rewrite Eks. exists X. split; [done|].
    assert (Hperm : hash (hm st) :: maddr st :: (es ++ [pos]) ++ keys_of (entries st) es ++ [a] ≡ₚ
                    pos :: a :: hash (hm st) :: maddr st :: es ++ keys_of (entries st) es) by solve_Permutation.
    rewrite Hperm. split.
    + rewrite (NoDup_cons pos), (NoDup_cons a). split_and!; [|done|done]. rewrite elem_of_cons. tauto.
    + intros p. rewrite Hperm. intros Hp.
      apply elem_of_cons in Hp as [->|Hp]; [done|]. apply elem_of_cons in Hp as [->|Hp]; [done|]. by apply HXin.
Qed.

Lemma list_add_pos st es pos :
  dlist (links st) None (Some <$> es) -> pos ∉ es ->
  exists l, list_add_tail (Some pos) None (init_list_head (Some pos) (links st)) = Ok l /\
    dlist l None (Some <$> es ++ [pos]).
Proof.
  intros Hl Hp.
  destruct (list_add_tail_spec (init_list_head (Some pos) (links st)) None (Some <$> es) (Some pos)) as (l & El & Hdl & _).
  - eapply dlist_frame; [apply init_same_outside| |done]. intros y Hy ->%list_elem_of_singleton.
    apply elem_of_cons in Hy as [?|Hy]; [done|]. by rewrite list_elem_of_fmap_inj in Hy by apply _.
  - intros [?|Hy]%elem_of_cons; [done|]. by rewrite list_elem_of_fmap_inj in Hy by apply _.
  - exists l. by rewrite fmap_app.
Qed.

(** ** The number of entries *)

Lemma entries_length en es M : entries_ok en es M -> NoDup es -> (length es <= size M)%nat.
Proof.
  intros He Hnd. set (f e := default [] (en !! e ≫= key_bytes)).
  assert (Hf : forall e, e ∈ es -> exists x k, en !! e = Some x /\ key_bytes x = Some k /\ f e = k /\ k ∈ dom M).
  { intros e [x Hx]%(eo_dom _ _ _ He). destruct (eo_key _ _ _ He _ _ Hx) as (a & k & Ek & _ & HM).
    exists x, k. unfold f. rewrite Hx. cbn. unfold key_bytes. rewrite Ek. split_and!; [done..|].
    apply elem_of_dom. eauto. }
  rewrite <- (length_fmap f es), <- size_dom, <- (size_list_to_set (C := gset (list Z)) (f <$> es)).
  - apply subseteq_size. intros k (e & -> & He')%elem_of_list_to_set%list_elem_of_fmap.
    by destruct (Hf e He') as (x & k & _ & _ & -> & ?).
  - apply NoDup_fmap_2_strong; [|done]. intros e e' He1 He2 Ef.
    destruct (Hf e He1) as (x & k & Hx & Ek & Hk & _), (Hf e' He2) as (x' & k' & Hx' & Ek' & Hk' & _).
    apply (eo_inj _ _ _ He _ _ _ _ Hx Hx'). congruence.
Qed.

Definition null_key st (v : Z) : Prop := exists e, entries st !! e = Some (mk_entry None v).

(** The load of the table before an entry is added. *)
Lemma grow_spec st es M :
  hmap_rel st es M -> Z.of_nat (size M) <= 2 ^ 26 ->
  exists st', (if Z.shiftr (msize (hm st)) 1 <? n (hm st) then hmap_resize st (Z.shiftl (msize (hm st)) 1)
               else Ok st) = Ok st' /\ hmap_rel st' es M.
Proof.
  intros Hr HM. destruct (hr_size _ _ _ Hr) as (j & Hj & Em). destruct (hr_n _ _ _ Hr) as [En _].
  pose proof (entries_length _ _ _ (hr_ents _ _ _ Hr) (hr_es_nodup _ _ _ Hr)).
  destruct (Z.ltb_spec (Z.shiftr (msize (hm st)) 1) (n (hm st))) as [Hlt|_]; [|by exists st].
  rewrite Em in *. rewrite Z.shiftl_mul_pow2 by lia. rewrite Z.shiftr_div_pow2 in Hlt by lia.
  replace (2 ^ j * 2 ^ 1) with (2 ^ (j + 1)) by (rewrite Z.pow_add_r by lia; done).
  apply hmap_resize_spec; [done|]. destruct (decide (j = 27)) as [->|]; [|lia].
  change (2 ^ 27 / 2 ^ 1) with (2 ^ 26) in Hlt. lia.
Qed.

Lemma hmap_add_spec st M k v :
  hmap_ok st M -> is_str k -> Z.of_nat (size M) <= 2 ^ 26 ->
  exists st', hmap_add st k v = Ok st' /\
    (hmap_ok st' (<[k := v]> M) \/
     (hmap_ok st' M /\ M !! k = None /\ no_memory (heap st') sizeof_hmap_entry_t) \/
     (null_key st' v /\ M !! k = None /\ no_memory (heap st') (Z.of_nat (length k) + 1))).
Proof.
  intros [es Hr] Hk HM. unfold hmap_add. destruct (find_spec st es M k Hr Hk) as (o & Eo & Ho). rewrite Eo.
  cbn [res_bind]. destruct o as [e|].
  - destruct Ho as (_ & a & v0 & Hen & _). unfold get_entry. rewrite Hen. cbn [deref res_bind key].
    eexists. split; [done|]. left. exists es. by eapply hmap_set_value.
  - destruct (grow_spec st es M Hr HM) as (st1 & E1 & Hr1). rewrite E1. cbn [res_bind].
    pose proof (hr_heap _ _ _ Hr1) as (X & HX & HndX & HinX).
    pose proof (entries_length _ _ _ (hr_ents _ _ _ Hr1) (hr_es_nodup _ _ _ Hr1)) as Hlen.
    destruct (al_malloc_ok (heap st1) X sizeof_hmap_entry_t HX) as (s2 & pos & E2 & Hor2); [done|].
    rewrite E2. cbn [res_bind]. destruct Hor2 as [[-> ->]|(Hp0 & HpX & HX2)].
    { cbn [Z.eqb]. eexists. split; [done|]. right. left. split; [exists es; by destruct st1|]. split; [done|exact E2]. }
    rewrite (proj2 (Z.eqb_neq pos 0) Hp0). unfold strdup. cbn [with_heap heap].
    destruct (al_malloc_ok s2 ({[pos]} ∪ X) (Z.of_nat (length k) + 1) HX2) as (s3 & a & E3 & Hor3).
    { destruct Hk. lia. }
    rewrite E3. cbn [res_bind].
    assert (Hpn : pos ∉ hash (hm st1) :: maddr st1 :: es ++ keys_of (entries st1) es) by (intros Hin; by apply HpX, HinX).
    assert (Hpes : pos ∉ es) by (intros ?; apply Hpn; rewrite !elem_of_cons, elem_of_app; tauto).
    destruct Hor3 as [[-> ->]|(Ha0 & HaX & HX3)].
    + cbn [Z.eqb res_bind fmap option_fmap option_map with_heap heap links chains hm entries maddr].
      destruct (list_add_pos st1 es pos (hr_list _ _ _ Hr1) Hpes) as (l & El & _). rewrite El. cbn [res_bind].
      eexists. split; [done|]. right. right. split; [exists pos; apply lookup_insert_eq|]. split; [done|exact E3].
    + rewrite (proj2 (Z.eqb_neq a 0) Ha0). cbn [res_bind fmap option_fmap option_map snd with_heap heap links chains hm entries maddr].
      destruct (hmap_insert st1 es M s3 ({[a]} ∪ ({[pos]} ∪ X)) pos a k v) as (l & El & Hr'); try done.
      * set_solver.
      * set_solver.
      * intros ->. apply HaX. set_solver.
      * intros Hin. apply HaX, elem_of_union_r. by apply HinX.
      * intros p Hp. apply elem_of_union_r, elem_of_union_r. by apply HinX.
      * lia.
      * rewrite El. cbn [res_bind]. eexists. split; [done|]. left. by exists (es ++ [pos]).
Qed.

(** ** Removing *)

Lemma drop_entry_spec st es1 e es2 M a k v :
  hmap_rel st (es1 ++ e :: es2) M -> entry_is st e a k v ->
  exists st', drop_entry st e = Ok st' /\ hmap_rel st' (es1 ++ es2) (delete k M).
Proof.
  intros Hr Hen. pose proof Hr as [(j & Hj & Em) Hl He Hb [Hn Hn32] (X & HX & HndX & HinX)].
  pose proof (hr_es_nodup _ _ _ Hr) as Hnd. unfold entry_is in Hen. unfold drop_entry.
  destruct (buckets_del _ _ _ _ e _ Hb Hen ltac:(set_solver) (bucket_range _ _ _ Hj Em)) as (c & Ec & Hbc & _).
  rewrite Ec. cbn [res_bind]. rewrite fmap_app, fmap_cons in Hl.
  destruct (list_del_spec _ _ _ _ _ Hl) as (l & El & Hdl & _). rewrite El. cbn [res_bind].
  unfold get_entry. rewrite Hen. cbn [deref res_bind key fmap option_fmap option_map fst from_option id].
  assert (Hne : e ∉ es1 ++ es2).
  { rewrite <- (Permutation_middle es1 es2 e), NoDup_cons in Hnd. tauto. }
  assert (Eks : keys_of (entries st) (es1 ++ e :: es2) ≡ₚ a :: keys_of (delete e (entries st)) (es1 ++ es2)).
  { rewrite (keys_of_frame (entries st) (delete e (entries st)))
      by (intros y Hy; apply lookup_delete_ne; intros ->; done).
    rewrite !keys_of_app. cbn. rewrite Hen. cbn. fold (keys_of (entries st) es2).
    by rewrite Permutation_middle. }
  assert (Hperm : hash (hm st) :: maddr st :: (es1 ++ e :: es2) ++ keys_of (entries st) (es1 ++ e :: es2) ≡ₚ
                  a :: e :: hash (hm st) :: maddr st :: (es1 ++ es2) ++ keys_of (delete e (entries st)) (es1 ++ es2)).
  { rewrite Eks. solve_Permutation. }
  setoid_rewrite Hperm in HinX. rewrite Hperm in HndX. rewrite (NoDup_cons a), (NoDup_cons e) in HndX.
  destruct HndX as (Hna & Hnee & HndX). rewrite elem_of_cons in Hna.
  destruct (al_free_ok (heap st) X a HX (HinX a ltac:(left))) as (s1 & E1 & HX1).
  rewrite E1. cbn [res_bind].
  destruct (al_free_ok s1 (X ∖ {[a]}) e HX1) as (s2 & E2 & HX2).
  { apply elem_of_difference. split; [apply HinX; right; left|]. rewrite elem_of_singleton. intros ->. tauto. }
  rewrite E2. cbn [res_bind]. eexists. split; [done|].
  destruct (eo_key _ _ _ He _ _ Hen) as (a0 & k0 & [= <- <-] & Hstr & HM).
  split; cbn [hm links entries chains heap maddr msize hash n].
  - by exists j.
  - by rewrite fmap_app.
  - split.
    + intros y. rewrite lookup_delete_is_Some, <- (eo_dom _ _ _ He), !elem_of_app, elem_of_cons.
      rewrite elem_of_app in Hne. destruct (decide (e = y)) as [->|]; [tauto|]. naive_solver.
    + intros y x Hy. apply lookup_delete_Some in Hy as [Hey Hy].
      destruct (eo_key _ _ _ He _ _ Hy) as (a' & k' & Ek & Hs' & HM'). exists a', k'. split_and!; [done..|].
      rewrite lookup_delete_ne; [done|]. intros ->. apply Hey.
      apply (eo_inj _ _ _ He _ _ _ _ Hen Hy). unfold key_bytes. by rewrite Ek.
    + intros k' v' Hk'. apply lookup_delete_Some in Hk' as [Hkk Hk'].
      destruct (eo_map _ _ _ He _ _ Hk') as (e' & a' & He'). exists e', a'. rewrite lookup_delete_ne; [done|congruence].
    + intros y y' x x' [_ Hy]%lookup_delete_Some [_ Hy']%lookup_delete_Some. by apply (eo_inj _ _ _ He).
  - intros i Hi. destruct (Hbc (es1 ++ es2)) with (i := i) as (xs & Hxs & Hin); [|done|].
    { intros y. rewrite !elem_of_app, elem_of_cons. rewrite elem_of_app in Hne.
      destruct (decide (y = e)) as [->|]; tauto. }
    exists xs. split; [done|]. intros y. rewrite Hin. split; intros [Hy (z & Hz & Hbz)]; (split; [done|]); exists z;
      (rewrite lookup_delete_ne in * by (intros ->; done)); done.
  - rewrite length_app in *. cbn [length] in *. rewrite Hn, u32_small by lia. split; lia.
  - exists (X ∖ {[a]} ∖ {[e]}). split_and!; [done|done|]. intros p Hp.
    rewrite !elem_of_difference, !elem_of_singleton. split_and!.
    + apply HinX. by do 2 right.
    + intros ->. tauto.
    + intros ->. done.
Qed.

Lemma shrink_spec st es M :
  hmap_rel st es M ->
  exists st', (if (16 <? msize (hm st)) && (n (hm st) <? Z.shiftr (msize (hm st)) 1)
               then hmap_resize st (Z.shiftr (msize (hm st)) 1) else Ok st) = Ok st' /\ hmap_rel st' es M.
Proof.
  intros Hr. destruct (hr_size _ _ _ Hr) as (j & Hj & Em).
  destruct (Z.ltb_spec 16 (msize (hm st))) as [Hgt|_]; [|by exists st].
  destruct (n (hm st) <? _); cbn [andb]; [|by exists st].
  rewrite Em in *. rewrite Z.shiftr_div_pow2 by lia.
  assert (Hj4 : 4 < j) by (apply (Z.pow_lt_mono_r_iff 2); lia).
  replace (2 ^ j / 2 ^ 1) with (2 ^ (j - 1)) by (rewrite <- Z.pow_sub_r by lia; done).
  apply hmap_resize_spec; [done|lia].
Qed.

Lemma hmap_remove_spec st M k :
  hmap_ok st M -> is_str k -> exists st', hmap_remove st k = Ok st' /\ hmap_ok st' (delete k M).
Proof.
  intros [es Hr] Hk. unfold hmap_remove. destruct (shrink_spec st es M Hr) as (st1 & E1 & Hr1). rewrite E1.
  cbn [res_bind]. destruct (find_spec st1 es M k Hr1 Hk) as (o & Eo & Ho). rewrite Eo. cbn [res_bind].
  destruct o as [e|].
  - destruct Ho as (Hin & a & v & Hen & _). apply list_elem_of_split in Hin as (es1 & es2 & ->).
    destruct (drop_entry_spec st1 es1 e es2 M a k v Hr1 Hen) as (st' & E & Hr'). exists st'. split; [done|]. by exists (es1 ++ es2).
  - exists st1. split; [done|]. exists es. by rewrite delete_id.
Qed.

(** ** Creating and clearing *)

Lemma hmap_alloc_spec s X c l j :
  al_inv s X -> 4 <= j <= 27 ->
  exists s' o, hmap_alloc s c l (2 ^ j) = Ok (s', o) /\
    match o with Some st => hmap_ok st ∅ | None => exists X', al_inv s' X' end.
Proof.
  intros HX Hj. assert (2 ^ 4 <= 2 ^ j <= 2 ^ 27) by (split; apply Z.pow_le_mono_r; lia).
  unfold hmap_alloc. rewrite round_size_pow2 by done. cbn [res_bind].
  destruct (al_malloc_ok s X sizeof_hmap_t HX) as (s1 & m & E1 & Hor1); [done|]. rewrite E1. cbn [res_bind].
  destruct Hor1 as [[-> ->]|(Hm0 & HmX & HX1)]; [cbn; by exists s, None; eauto|].
  rewrite (proj2 (Z.eqb_neq m 0) Hm0).
  destruct (al_malloc_ok s1 ({[m]} ∪ X) (sizeof_hlist_head * 2 ^ j) HX1) as (s2 & arr & E2 & Hor2);
    [unfold sizeof_hlist_head; lia|]. rewrite E2. cbn [res_bind].
  destruct Hor2 as [[-> ->]|(Ha0 & HaX & HX2)].
  { destruct (al_free_ok s1 ({[m]} ∪ X) m HX1) as (s3 & E3 & HX3); [set_solver|]. cbn [Z.eqb]. rewrite E3.
    exists s3, None. by eauto. }
  rewrite (proj2 (Z.eqb_neq arr 0) Ha0). eexists _, (Some _). split; [done|]. exists [].
  split; cbn [hm links entries chains heap maddr msize hash n].
  - by exists j.
  - apply dlist_init.
  - split; try done. intros e. split; [by intros ?%elem_of_nil|by intros [? ?]].
  - intros i Hi. exists []. split; [by apply init_heads_spec|]. set_solver.
  - done.
  - exists ({[arr]} ∪ ({[m]} ∪ X)). split_and!; [done| |]; cbn.
    + rewrite !NoDup_cons. split_and!; [set_solver|set_solver|constructor].
    + set_solver.
Qed.
End proof.

(** ** The guarantee of lib/hmap.c *)

(** C7. A hash map that stands for the finite map [M] behaves as [M] does, for
    every string key, through all resizings: [hmap_search] returns the value of the
    key or NULL, [hmap_remove] removes the key, and [hmap_add] binds the key to the
    value.  A new key is not bound in two cases only: an allocation of an entry
    fails in the heap that is left (the map is unchanged), or one of the copy of the
    key does (the entry is added all the same, with a NULL key). *)
Theorem hmap_refines_map {S} `{KernelAlloc S} (st : hstate S) M k v :
  hmap_ok st M -> is_str k -> Z.of_nat (size M) <= 2 ^ 26 ->
  hmap_search st k = Ok (default 0 (M !! k)) /\
  (exists st', hmap_remove st k = Ok st' /\ hmap_ok st' (delete k M)) /\
  (exists st', hmap_add st k v = Ok st' /\
     (hmap_ok st' (<[k := v]> M) \/
      (hmap_ok st' M /\ M !! k = None /\ no_memory (heap st') sizeof_hmap_entry_t) \/
      (null_key st' v /\ M !! k = None /\ no_memory (heap st') (Z.of_nat (length k) + 1)))).
Proof.
  intros Hok Hk HM. split_and!; [by apply hmap_search_spec|by apply hmap_remove_spec|by apply hmap_add_spec].
Qed.

(** An empty map over the allocator that never fails. *)
Definition empty_map : option (hstate Z) :=
  match @hmap_alloc Z bump_alloc 1 (mk_hheap ∅ ∅) (mk_lheap ∅ ∅) 16 with Ok (_, o) => o | _ => None end.

Lemma empty_map_ok : exists st, empty_map = Some st /\ @hmap_ok Z bump_alloc st ∅.
Proof.
  destruct (@hmap_alloc_spec Z bump_alloc 1 ∅ (mk_hheap ∅ ∅) (mk_lheap ∅ ∅) 4) as (s & o & E & Ho); [|done|].
  { split; [done|]. set_solver. }
  assert (Eo : empty_map = o) by (unfold empty_map; change 16 with (2 ^ 4); by rewrite E).
  destruct o as [st|]; [by exists st|]. clear E. vm_compute in Eo. discriminate.
Qed.

Lemma bump_never_fails s n : ~ @no_memory Z bump_alloc s n.
Proof. unfold no_memory. cbn. intros [= H1 H2]. lia. Qed.

Lemma hmap_refines_map_witness :
  exists st st', empty_map = Some st /\ hmap_search st [104; 105] = Ok 0 /\
    @hmap_add Z bump_alloc st [104; 105] 7 = Ok st' /\ @hmap_ok Z bump_alloc st' {[ [104; 105] := 7 ]} /\ hmap_search st' [104; 105] = Ok 7.
Proof.
  destruct empty_map_ok as (st & E & Hok). assert (Hstr : is_str [104; 105]) by (split; [repeat constructor; done|done]).
  destruct (@hmap_refines_map Z bump_alloc st ∅ [104; 105] 7 Hok Hstr ltac:(done)) as (Hs & _ & st' & Ha & Hor).
  assert (Hok' : @hmap_ok Z bump_alloc st' {[ [104; 105] := 7 ]}) by (destruct Hor as [H|[(_ & _ & H)|(_ & _ & H)]]; [exact H|by apply bump_never_fails in H|by apply bump_never_fails in H]).
  destruct (@hmap_refines_map Z bump_alloc st' {[ [104; 105] := 7 ]} [104; 105] 7 Hok' Hstr ltac:(rewrite map_size_singleton; lia)) as (Hs' & _). rewrite lookup_singleton_eq in Hs'.
  exists st, st'. exact (conj E (conj Hs (conj Ha (conj Hok' Hs')))).
Defined.
