(* ===== verification/Vfs.v ===== *)
(** * Vfs: the virtual file system switch (fs/vfs.c, include/vfs/vfs.h)

    Mounted filesystems, the cache of vnodes with their reference counts, the
    table of open files, and every system-call level operation on them.

    - A [struct vfs_node_t] is a [vnode] and a [struct vfs_mount_t] a [vmount];
      both live in finite maps from their address.  An address that is not in the
      map is dangling: reading it is [Bad].  The intrusive lists [mnt_list] and
      [node_list[h]] are lists of addresses (ListHead shows that the [list_head]
      operations implement lists).
    - A C string is the list of its bytes, without the final NUL.
    - [calloc] and [free] are those of a [KernelAlloc].
    - A filesystem is its table of callbacks, [filesystem_t], as in the source.
      A callback may change its own state, the attributes of the nodes it is
      passed and, for those that get the mount, its flags and private data.
    - The code runs one call at a time.  A single [mutex_lock] then never blocks
      and is left out; where two or three node locks are held together,
      [mutex_lock_all] says that the same lock is not taken twice. *)

From S2P Require Import Prelude CMem Alloc.

(** ** Constants of include/vfs/vfs.h *)

Definition VFS_MAX_PATH : Z := 1024.
Definition VFS_MAX_NAME : Z := 256.
Definition VFS_MAX_FD : Z := 256.
Definition VFS_NODE_HASH_SIZE : Z := 256.

Definition O_RDONLY : Z := 2 ^ 0.
Definition O_WRONLY : Z := 2 ^ 1.
Definition O_ACCMODE : Z := Z.lor O_RDONLY O_WRONLY.
Definition O_CREAT : Z := 2 ^ 8.
Definition O_EXCL : Z := 2 ^ 9.
Definition O_TRUNC : Z := 2 ^ 11.

Definition S_IXOTH : Z := 2 ^ 0.
Definition S_IWOTH : Z := 2 ^ 1.
Definition S_IROTH : Z := 2 ^ 2.
Definition S_IRWXO : Z := Z.lor (Z.lor S_IROTH S_IWOTH) S_IXOTH.
Definition S_IXGRP : Z := 2 ^ 3.
Definition S_IWGRP : Z := 2 ^ 4.
Definition S_IRGRP : Z := 2 ^ 5.
Definition S_IRWXG : Z := Z.lor (Z.lor S_IRGRP S_IWGRP) S_IXGRP.
Definition S_IXUSR : Z := 2 ^ 6.
Definition S_IWUSR : Z := 2 ^ 7.
Definition S_IRUSR : Z := 2 ^ 8.
Definition S_IRWXU : Z := Z.lor (Z.lor S_IRUSR S_IWUSR) S_IXUSR.
Definition S_IRWX : Z := Z.lor (Z.lor S_IRWXU S_IRWXG) S_IRWXO.
Definition S_IR : Z := Z.lor (Z.lor S_IRUSR S_IRGRP) S_IROTH.
Definition S_IW : Z := Z.lor (Z.lor S_IWUSR S_IWGRP) S_IWOTH.
Definition S_IX : Z := Z.lor (Z.lor S_IXUSR S_IXGRP) S_IXOTH.

Definition S_IFDIR : Z := 2 ^ 16.
Definition S_IFCHR : Z := 2 ^ 17.
Definition S_IFBLK : Z := 2 ^ 18.
Definition S_IFREG : Z := 2 ^ 19.
Definition S_IFLNK : Z := 2 ^ 20.
Definition S_IFIFO : Z := 2 ^ 21.
Definition S_IFSOCK : Z := 2 ^ 22.
Definition S_IFMT : Z :=
  Z.lor S_IFDIR (Z.lor S_IFCHR (Z.lor S_IFBLK (Z.lor S_IFREG (Z.lor S_IFLNK (Z.lor S_IFIFO S_IFSOCK))))).

Definition R_OK : Z := 2 ^ 2.
Definition W_OK : Z := 2 ^ 1.
Definition X_OK : Z := 2 ^ 0.

Definition VFS_SEEK_SET : Z := 0.
Definition VFS_SEEK_CUR : Z := 1.
Definition VFS_SEEK_END : Z := 2.

Definition MOUNT_RO : Z := 1.
Definition MOUNT_MASK : Z := 1.

(** [sizeof(struct vfs_node_t)] and [sizeof(struct vfs_mount_t)] on rv64. *)
Definition sizeof_vfs_node : Z := 1136.
Definition sizeof_vfs_mount : Z := 1112.

Definition not32 (x : Z) : Z := Z.lxor x (Z.ones 32).

(** A C condition [x & y]. *)
Definition has (x y : Z) : bool := negb (Z.land x y =? 0).

(** ** Data *)

Inductive vfs_node_flag_t := VNF_NONE | VNF_ROOT.
Inductive vfs_node_type_t :=
  VNT_UNK | VNT_DIR | VNT_CHR | VNT_BLK | VNT_REG | VNT_LNK | VNT_FIFO | VNT_SOCK.
Inductive vfs_dirent_type_t :=
  VDT_UNK | VDT_DIR | VDT_CHR | VDT_BLK | VDT_REG | VDT_LNK | VDT_FIFO | VDT_SOCK.

#[export] Instance vfs_node_flag_eq_dec : EqDecision vfs_node_flag_t.
Proof. solve_decision. Defined.
#[export] Instance vfs_node_type_eq_dec : EqDecision vfs_node_type_t.
Proof. solve_decision. Defined.

(** The part of a node a filesystem fills in and updates. *)
Record vattr := mkAttr {
  v_type : vfs_node_type_t;
  v_mode : Z;
  v_size : Z;
  v_ctime : Z;
  v_atime : Z;
  v_mtime : Z;
  v_data : Z;
}.

(** What [calloc] leaves in it. *)
Definition attr0 : vattr := mkAttr VNT_UNK 0 0 0 0 0 0.

Record vnode := mkNode {
  v_mount : Z;
  v_refcnt : Z;
  v_path : list Z;
  v_flags : vfs_node_flag_t;
  v_attr : vattr;
}.

Record minfo := mkMInfo {
  m_dev : Z;
  m_path : list Z;
  m_flags : Z;
  m_refcnt : Z;
  m_root : Z;
  m_covered : Z;
  m_data : Z;
}.

Record vfs_file_t := mkFile { f_node : Z; f_offset : Z; f_flags : Z }.
Definition no_file : vfs_file_t := mkFile 0 0 0.

Record vfs_dirent_t := mkDirent {
  d_off : Z;
  d_reclen : Z;
  d_type : vfs_dirent_type_t;
  d_name : list Z;
}.

Record vfs_stat_t := mkStat {
  st_ino : Z;
  st_size : Z;
  st_mode : Z;
  st_dev : Z;
  st_uid : Z;
  st_gid : Z;
  st_ctime : Z;
  st_atime : Z;
  st_mtime : Z;
}.

(** ** Filesystem callbacks

    An [op1] is passed one node, with the mount it belongs to; [op2] and [op3]
    are passed two and three nodes of one mount.  They return their result and
    the new attributes of those nodes. *)

Definition op1 (D A : Type) := minfo -> vnode -> D -> res (A * vattr * D).
Definition op2 (D A : Type) := minfo -> vnode -> vnode -> D -> res (A * vattr * vattr * D).
Definition op3 (D A : Type) :=
  minfo -> vnode -> vnode -> vnode -> D -> res (A * vattr * vattr * vattr * D).

Record filesystem_t (D : Type) := mkFs {
  (** error, flags and private data of the mount, attributes of the root *)
  fs_mount : option (list Z) -> minfo -> vnode -> D -> res (Z * Z * Z * vattr * D);
  fs_unmount : minfo -> D -> res (Z * Z * D);
  fs_msync : minfo -> D -> res (Z * Z * D);
  fs_vget : op1 D Z;
  fs_vput : op1 D Z;
  fs_read : Z -> Z -> op1 D (list Z * Z);
  fs_write : Z -> list Z -> Z -> op1 D Z;
  fs_truncate : Z -> op1 D Z;
  fs_sync : op1 D Z;
  fs_readdir : Z -> op1 D (Z * vfs_dirent_t);
  fs_lookup : list Z -> op2 D Z;
  fs_create : list Z -> Z -> op1 D Z;
  fs_remove : list Z -> op2 D Z;
  fs_rename : list Z -> list Z -> op3 D Z;
  fs_mkdir : list Z -> Z -> op1 D Z;
  fs_rmdir : list Z -> op2 D Z;
  fs_chmod : Z -> op1 D Z;
}.
Arguments fs_mount {D} _ _ _ _ _.
Arguments fs_unmount {D} _ _ _.
Arguments fs_msync {D} _ _ _.
Arguments fs_vget {D} _ _ _ _.
Arguments fs_vput {D} _ _ _ _.
Arguments fs_read {D} _ _ _ _ _ _.
Arguments fs_write {D} _ _ _ _ _ _ _.
Arguments fs_truncate {D} _ _ _ _ _.
Arguments fs_sync {D} _ _ _ _.
Arguments fs_readdir {D} _ _ _ _ _.
Arguments fs_lookup {D} _ _ _ _ _ _.
Arguments fs_create {D} _ _ _ _ _ _.
Arguments fs_remove {D} _ _ _ _ _ _.
Arguments fs_rename {D} _ _ _ _ _ _ _ _.
Arguments fs_mkdir {D} _ _ _ _ _ _.
Arguments fs_rmdir {D} _ _ _ _ _ _.
Arguments fs_chmod {D} _ _ _ _ _.

(** What the switch needs of the rest of the kernel: the devices, and the
    filesystem classes, whose objects [new_class_object] creates. *)
Record vfs_env (D : Type) := mkEnv {
  search_block : D -> list Z -> Z;
  block_sync : Z -> D -> res D;
  new_filesystem : Z -> option (filesystem_t D);
}.
Arguments search_block {D} _ _ _.
Arguments block_sync {D} _ _ _.
Arguments new_filesystem {D} _ _.

Record vmount (D : Type) := mkMount { m_fs : filesystem_t D; m_info : minfo }.
Arguments mkMount {D} _ _.
Arguments m_fs {D} _.
Arguments m_info {D} _.

Record vfs (S D : Type) := mkVfs {
  vs_alloc : S;
  vs_fsd : D;
  nodes : gmap Z vnode;
  mounts : gmap Z (vmount D);
  mnt_list : list Z;
  fd_file : list vfs_file_t;
  node_list : list (list Z);
  fs_map : gmap (list Z) Z;
}.
Arguments mkVfs {S D} _ _ _ _ _ _ _ _.
Arguments vs_alloc {S D} _.
Arguments vs_fsd {S D} _.
Arguments nodes {S D} _.
Arguments mounts {S D} _.
Arguments mnt_list {S D} _.
Arguments fd_file {S D} _.
Arguments node_list {S D} _.
Arguments fs_map {S D} _.

(** ** The monad of the operations

    An operation returns a value and a new state, or stops.  [Halted]: it panics
    or waits for a lock it holds itself.  [Uninit]: it uses a local variable that
    was not assigned.  [Bad]: it dereferences a pointer that is NULL or freed, or
    leaves the bounds of an array. *)
Inductive stop := Halted | Uninit | Bad.

Definition VM (S D A : Type) : Type := vfs S D -> (A * vfs S D) + stop.

Section monad.
Context {S D : Type}.

Definition vret {A} (a : A) : VM S D A := fun s => inl (a, s).
Definition vbind {A B} (m : VM S D A) (k : A -> VM S D B) : VM S D B :=
  fun s => match m s with inl (a, s') => k a s' | inr e => inr e end.
Definition vstop {A} (e : stop) : VM S D A := fun _ => inr e.
Definition vget : VM S D (vfs S D) := fun s => inl (s, s).
Definition vput (s : vfs S D) : VM S D unit := fun _ => inl (tt, s).
Definition vmod (f : vfs S D -> vfs S D) : VM S D unit := fun s => inl (tt, f s).
Definition vlift {A} (r : res A) : VM S D A :=
  match r with Ok a => vret a | Panic => vstop Halted | Undef => vstop Bad end.
End monad.

Notation "'let!' x := m 'in' k" := (vbind m (fun x => k))
  (at level 10, x name, m at level 100, k at level 200,
   format "'[v' 'let!'  x  :=  m  'in' '/' k ']'") : c_scope.
Notation "'let!' ' p := m 'in' k" := (vbind m (fun x => match x with p => k end))
  (at level 10, p pattern, m at level 100, k at level 200) : c_scope.
Notation "m ;; k" := (vbind m (fun _ => k))
  (at level 100, k at level 200, right associativity) : c_scope.

(** ** State access *)

Section access.
Context {S D : Type} `{KernelAlloc S}.
Implicit Types s : vfs S D.

Definition set_alloc s (a : S) : vfs S D :=
  mkVfs a (vs_fsd s) (nodes s) (mounts s) (mnt_list s) (fd_file s) (node_list s) (fs_map s).
Definition set_fsd s (d : D) : vfs S D :=
  mkVfs (vs_alloc s) d (nodes s) (mounts s) (mnt_list s) (fd_file s) (node_list s) (fs_map s).
Definition set_nodes s x : vfs S D :=
  mkVfs (vs_alloc s) (vs_fsd s) x (mounts s) (mnt_list s) (fd_file s) (node_list s) (fs_map s).
Definition set_mounts s x : vfs S D :=
  mkVfs (vs_alloc s) (vs_fsd s) (nodes s) x (mnt_list s) (fd_file s) (node_list s) (fs_map s).
Definition set_mnt_list s x : vfs S D :=
  mkVfs (vs_alloc s) (vs_fsd s) (nodes s) (mounts s) x (fd_file s) (node_list s) (fs_map s).
Definition set_fd_file s x : vfs S D :=
  mkVfs (vs_alloc s) (vs_fsd s) (nodes s) (mounts s) (mnt_list s) x (node_list s) (fs_map s).
Definition set_node_list s x : vfs S D :=
  mkVfs (vs_alloc s) (vs_fsd s) (nodes s) (mounts s) (mnt_list s) (fd_file s) x (fs_map s).

Definition get_node (n : Z) : VM S D vnode :=
  fun s => match nodes s !! n with Some nd => inl (nd, s) | None => inr Bad end.
Definition put_node (n : Z) (nd : vnode) : VM S D unit :=
  vmod (fun s => set_nodes s (<[n := nd]> (nodes s))).
Definition get_mount (m : Z) : VM S D (vmount D) :=
  fun s => match mounts s !! m with Some mt => inl (mt, s) | None => inr Bad end.
Definition put_mount (m : Z) (mt : vmount D) : VM S D unit :=
  vmod (fun s => set_mounts s (<[m := mt]> (mounts s))).
Definition get_file (fd : Z) : VM S D vfs_file_t :=
  fun s => match fd_file s !! Z.to_nat fd with Some f => inl (f, s) | None => inr Bad end.
Definition put_file (fd : Z) (f : vfs_file_t) : VM S D unit :=
  vmod (fun s => set_fd_file s (<[Z.to_nat fd := f]> (fd_file s))).
Definition get_bucket (h : Z) : VM S D (list Z) :=
  fun s => match node_list s !! Z.to_nat h with Some l => inl (l, s) | None => inr Bad end.
Definition put_bucket (h : Z) (l : list Z) : VM S D unit :=
  vmod (fun s => set_node_list s (<[Z.to_nat h := l]> (node_list s))).

(** [list_del] on an element of a list. *)
Definition remove_ptr (p : Z) (l : list Z) : list Z := filter (fun q => q <> p) l.

Definition set_refcnt (nd : vnode) (r : Z) : vnode :=
  mkNode (v_mount nd) r (v_path nd) (v_flags nd) (v_attr nd).
Definition set_attr (nd : vnode) (a : vattr) : vnode :=
  mkNode (v_mount nd) (v_refcnt nd) (v_path nd) (v_flags nd) a.

Definition set_mrefcnt (mi : minfo) (r : Z) : minfo :=
  mkMInfo (m_dev mi) (m_path mi) (m_flags mi) r (m_root mi) (m_covered mi) (m_data mi).
Definition set_mroot (mi : minfo) (r : Z) : minfo :=
  mkMInfo (m_dev mi) (m_path mi) (m_flags mi) (m_refcnt mi) r (m_covered mi) (m_data mi).
Definition set_mcovered (mi : minfo) (r : Z) : minfo :=
  mkMInfo (m_dev mi) (m_path mi) (m_flags mi) (m_refcnt mi) (m_root mi) r (m_data mi).
Definition set_mdata (mi : minfo) (fl d : Z) : minfo :=
  mkMInfo (m_dev mi) (m_path mi) fl (m_refcnt mi) (m_root mi) (m_covered mi) d.

Definition vcalloc (n : Z) : VM S D Z :=
  let! s := vget in
  let! '(a, p) := vlift (al_calloc (vs_alloc s) n) in
  vput (set_alloc s a);;
  vret p.

(** [free(p)] of a node and of a mount. *)
Definition vfree (p : Z) : VM S D unit :=
  let! s := vget in
  let! a := vlift (al_free (vs_alloc s) p) in
  vput (set_alloc s a).
Definition free_node (n : Z) : VM S D unit :=
  vfree n;; vmod (fun s => set_nodes s (delete n (nodes s))).
Definition free_mount (m : Z) : VM S D unit :=
  vfree m;; vmod (fun s => set_mounts s (delete m (mounts s))).

(** [m->m_fs->op(.., n, ..)]: the callback runs on the node and its new
    attributes are stored. *)
Definition call1 {A} (mt : vmount D) (op : filesystem_t D -> op1 D A) (n : Z) : VM S D A :=
  let! nd := get_node n in
  let! s := vget in
  let! '(r, a, d) := vlift (op (m_fs mt) (m_info mt) nd (vs_fsd s)) in
  vput (set_fsd s d);;
  put_node n (set_attr nd a);;
  vret r.

Definition call2 {A} (mt : vmount D) (op : filesystem_t D -> op2 D A) (n1 n2 : Z) : VM S D A :=
  let! nd1 := get_node n1 in
  let! nd2 := get_node n2 in
  let! s := vget in
  let! '(r, a1, a2, d) := vlift (op (m_fs mt) (m_info mt) nd1 nd2 (vs_fsd s)) in
  vput (set_fsd s d);;
  put_node n1 (set_attr nd1 a1);;
  put_node n2 (set_attr nd2 a2);;
  vret r.

(** When two of the nodes are the same, the attributes of the last one stay. *)
Definition call3 {A} (mt : vmount D) (op : filesystem_t D -> op3 D A) (n1 n2 n3 : Z) : VM S D A :=
  let! nd1 := get_node n1 in
  let! nd2 := get_node n2 in
  let! nd3 := get_node n3 in
  let! s := vget in
  let! '(r, a1, a2, a3, d) := vlift (op (m_fs mt) (m_info mt) nd1 nd2 nd3 (vs_fsd s)) in
  vput (set_fsd s d);;
  put_node n1 (set_attr nd1 a1);;
  put_node n2 (set_attr nd2 a2);;
  put_node n3 (set_attr nd3 a3);;
  vret r.

(** [m->m_fs->unmount(m)] and [m->m_fs->msync(m)]. *)
Definition callm (m : Z) (op : filesystem_t D -> minfo -> D -> res (Z * Z * D)) : VM S D Z :=
  let! mt := get_mount m in
  let! s := vget in
  let! '(r, x, d) := vlift (op (m_fs mt) (m_info mt) (vs_fsd s)) in
  vput (set_fsd s d);;
  put_mount m (mkMount (m_fs mt) (set_mdata (m_info mt) (m_flags (m_info mt)) x));;
  vret r.

(** [mutex_lock] on the [v_lock] of each of these nodes in turn: taking a lock
    that is already held never returns. *)
Definition mutex_lock_all (ns : list Z) : VM S D unit :=
  if bool_decide (NoDup ns) then vret tt else vstop Halted.
End access.

(** ** Strings *)

Definition SLASH : Z := 47.

(** [*p]. *)
Definition chr (p : list Z) : Z := hd 0 p.

(** [!strncmp(a, b, n)] and [!strcmp(a, b)]. *)
Definition strncmp_eq (a b : list Z) (n : Z) : bool :=
  bool_decide (take (Z.to_nat n) a = take (Z.to_nat n) b).
Definition strcmp_eq (a b : list Z) : bool := bool_decide (a = b).

(** [strlcpy(dst, src, size) >= size]: the copy was cut. *)
Definition strlcpy_cut (src : list Z) (size : Z) : bool := size <=? Z.of_nat (length src).

(** [strrchr(s, '/')], as an offset in [s]. *)
Fixpoint strrchr_slash (l : list Z) : option nat :=
  match l with
  | [] => None
  | c :: l =>
      match strrchr_slash l with
      | Some i => Some (S i)
      | None => if c =? SLASH then Some 0%nat else None
      end
  end.

(** [while ( *p == '/') p++;] *)
Fixpoint skip_slashes (p : list Z) : list Z :=
  match p with
  | c :: p' => if c =? SLASH then skip_slashes p' else p
  | [] => []
  end.

(** ** Mount points, file descriptors *)

(** The loop of [count_match]; [last] is [path[-1]]. *)
Fixpoint count_match_loop (path mount_root : list Z) (last len : Z) : list Z * list Z * Z * Z :=
  match path, mount_root with
  | a :: path', b :: mount_root' =>
      if negb (a =? b) then (path, mount_root, last, len)
      else count_match_loop path' mount_root' a (len + 1)
  | _, _ => (path, mount_root, last, len)
  end.

Definition count_match (path mount_root : list Z) : Z :=
  let '(path, mount_root, last, len) := count_match_loop path mount_root 0 0 in
  if negb (chr mount_root =? 0) then 0
  else if (len =? 1) && (last =? SLASH) then 1
  else if (chr path =? 0) || (chr path =? SLASH) then len
  else 0.

Section nodes.
Context {S D : Type} `{KernelAlloc S}.

Fixpoint findroot_loop (path : list Z) (l : list Z) (m max_len : Z) : VM S D (Z * Z) :=
  match l with
  | [] => vret (m, max_len)
  | pos :: l =>
      let! mt := get_mount pos in
      let len := count_match path (m_path (m_info mt)) in
      if max_len <? len then findroot_loop path l pos len
      else findroot_loop path l m max_len
  end.

(** [Some (m, root)] for a return of 0, [None] for -1. *)
Definition vfs_findroot (path : list Z) : VM S D (option (Z * list Z)) :=
  let! s := vget in
  let! '(m, max_len) := findroot_loop path (mnt_list s) 0 0 in
  if m =? 0 then vret None
  else vret (Some (m, skip_slashes (drop (Z.to_nat max_len) path))).

Fixpoint fd_alloc_loop (files : list vfs_file_t) (i : Z) : Z :=
  match files with
  | [] => -1
  | f :: files => if f_node f =? 0 then i else fd_alloc_loop files (i + 1)
  end.

Definition vfs_fd_alloc : VM S D Z :=
  let! s := vget in
  vret (fd_alloc_loop (drop 3 (fd_file s)) 3).

Definition vfs_fd_free (fd : Z) : VM S D unit :=
  if (3 <=? fd) && (fd <? VFS_MAX_FD) then
    let! f := get_file fd in
    if negb (f_node f =? 0) then put_file fd no_file else vret tt
  else vret tt.

(** [Some fd] for [&fd_file[fd]]. *)
Definition vfs_fd_to_file (fd : Z) : option Z :=
  if (0 <=? fd) && (fd <? VFS_MAX_FD) then Some fd else None.

(** ** The vnode cache *)

Fixpoint hash_loop (path : list Z) (val : Z) : Z :=
  match path with
  | [] => val
  | c :: path => hash_loop path (u32 (u32 (u32 (Z.shiftl val 5) + val) + schar c))
  end.

Definition vfs_node_hash (m : Z) (path : list Z) : Z :=
  Z.land (Z.lxor (hash_loop path 0) (u32 m)) (VFS_NODE_HASH_SIZE - 1).

Definition mount_refcnt_add (m v : Z) : VM S D unit :=
  let! mt := get_mount m in
  put_mount m (mkMount (m_fs mt) (set_mrefcnt (m_info mt) (s32 (m_refcnt (m_info mt) + v)))).

(** 0 is NULL. *)
Definition vfs_node_get (m : Z) (path : list Z) : VM S D Z :=
  let hash := vfs_node_hash m path in
  let! n := vcalloc sizeof_vfs_node in
  if n =? 0 then vret 0
  else
    put_node n (mkNode m 1 path VNF_NONE attr0);;
    if strlcpy_cut path VFS_MAX_PATH then free_node n;; vret 0
    else
      let! mt := get_mount m in
      let! err := call1 mt fs_vget n in
      if negb (err =? 0) then free_node n;; vret 0
      else
        mount_refcnt_add m 1;;
        let! l := get_bucket hash in
        put_bucket hash (n :: l);;
        vret n.

Fixpoint lookup_loop (m : Z) (path : list Z) (l : list Z) : VM S D Z :=
  match l with
  | [] => vret 0
  | n :: l =>
      let! nd := get_node n in
      if (v_mount nd =? m) && strncmp_eq (v_path nd) path VFS_MAX_PATH then vret n
      else lookup_loop m path l
  end.

Definition vfs_node_ref (n : Z) : VM S D unit :=
  let! nd := get_node n in
  put_node n (set_refcnt nd (s32 (v_refcnt nd + 1))).

Definition vfs_node_lookup (m : Z) (path : list Z) : VM S D Z :=
  let! l := get_bucket (vfs_node_hash m path) in
  let! n := lookup_loop m path l in
  if n =? 0 then vret 0
  else vfs_node_ref n;; vret n.

Definition vfs_node_put (n : Z) : VM S D unit :=
  let! nd := get_node n in
  let r := s32 (v_refcnt nd - 1) in
  put_node n (set_refcnt nd r);;
  if negb (r =? 0) then vret tt
  else
    let hash := vfs_node_hash (v_mount nd) (v_path nd) in
    let! l := get_bucket hash in
    put_bucket hash (remove_ptr n l);;
    let! mt := get_mount (v_mount nd) in
    call1 mt fs_vput n;;
    mount_refcnt_add (v_mount nd) (-1);;
    free_node n.

(** The mode bits of the type of a node; the [default] case of the switch is
    [None]. *)
Definition type_bits (t : vfs_node_type_t) : option Z :=
  match t with
  | VNT_REG => Some S_IFREG
  | VNT_DIR => Some S_IFDIR
  | VNT_BLK => Some S_IFBLK
  | VNT_CHR => Some S_IFCHR
  | VNT_LNK => Some S_IFLNK
  | VNT_SOCK => Some S_IFSOCK
  | VNT_FIFO => Some S_IFIFO
  | VNT_UNK => None
  end.

(** The result and the contents of [*st]. *)
Definition vfs_node_stat (n : Z) : VM S D (Z * vfs_stat_t) :=
  let! nd := get_node n in
  let a := v_attr nd in
  let mode := Z.land (v_mode a) S_IRWX in
  match type_bits (v_type a) with
  | None => vret (-1, mkStat n (v_size a) 0 0 0 0 (v_ctime a) (v_atime a) (v_mtime a))
  | Some t =>
      let dev := if bool_decide (v_type a = VNT_CHR) || bool_decide (v_type a = VNT_BLK)
                 then v_data a else 0 in
      vret (0, mkStat n (v_size a) (Z.lor mode t) dev 0 0 (v_ctime a) (v_atime a) (v_mtime a))
  end.

Definition vfs_node_access (n mode : Z) : VM S D Z :=
  let! nd := get_node n in
  let m := v_mode (v_attr nd) in
  if has mode R_OK && negb (has m S_IR) then vret (-1)
  else
    let! denied :=
      if has mode W_OK then
        let! mt := get_mount (v_mount nd) in
        vret (has (m_flags (m_info mt)) MOUNT_RO || negb (has m S_IW))
      else vret false in
    if denied then vret (-1)
    else if has mode X_OK && negb (has m S_IX) then vret (-1)
    else vret 0.

(** The loop of [vfs_node_release]: one turn for each ['/'] of [path]. *)
Fixpoint release_loop (fuel : nat) (m : Z) (path : list Z) : VM S D unit :=
  match fuel with
  | O => vstop Bad
  | Datatypes.S fuel =>
      match strrchr_slash path with
      | None => vret tt
      | Some i =>
          let path := take i path in
          if chr path =? 0 then vret tt
          else
            let! n := vfs_node_lookup m path in
            if n =? 0 then release_loop fuel m path
            else
              vfs_node_put n;;
              vfs_node_put n;;
              release_loop fuel m path
      end
  end.

Definition vfs_node_release (n : Z) : VM S D unit :=
  if n =? 0 then vret tt
  else
    let! nd := get_node n in
    let m := v_mount nd in
    let! mt := get_mount m in
    if m_root (m_info mt) =? n then vfs_node_put n
    else if strlcpy_cut (v_path nd) VFS_MAX_PATH then vret tt
    else
      vfs_node_put n;;
      release_loop (Datatypes.S (length (v_path nd))) m (v_path nd);;
      let! mt := get_mount m in
      vfs_node_put (m_root (m_info mt)).

(** [node[i] = c]: a write inside [char node[VFS_MAX_PATH]], at its end. *)
Definition node_push (node : list Z) (c : Z) : VM S D (list Z) :=
  if Z.of_nat (length node) <? VFS_MAX_PATH then vret (node ++ [c]) else vstop Bad.

(** [while ( *p != 0 && *p != '/') node[i++] = *p++;] *)
Fixpoint copy_component (p node : list Z) : VM S D (list Z * list Z) :=
  match p with
  | [] => vret ([], node)
  | c :: p' =>
      if c =? SLASH then vret (p, node)
      else let! node := node_push node c in copy_component p' node
  end.

(** The walk of [vfs_node_acquire]: [p] is what is left of the path, [node] the
    path so far, [dn] its node.  The result is the return value and what was
    stored in [*np], if anything was. *)
Fixpoint acquire_loop (fuel : nat) (m : Z) (p node : list Z) (dn : Z) : VM S D (Z * option Z) :=
  match fuel with
  | O => vstop Bad
  | Datatypes.S fuel =>
      let p := skip_slashes p in
      if chr p =? 0 then vret (0, Some dn)
      else
        let! node := node_push node SLASH in
        let j := length node in
        let! '(p, node) := copy_component p node in
        let! _ := node_push node 0 in
        let! n := vfs_node_lookup m node in
        if negb (n =? 0) then acquire_loop fuel m p node n
        else
          let! n := vfs_node_get m node in
          if n =? 0 then vfs_node_put dn;; vret (-1, None)
          else
            mutex_lock_all [n; dn];;
            let! dnd := get_node dn in
            let! mt := get_mount (v_mount dnd) in
            let! err := call2 mt (fun fs => fs_lookup fs (drop j node)) dn n in
            let! nd := get_node n in
            if negb (err =? 0) || ((chr p =? SLASH) && negb (bool_decide (v_type (v_attr nd) = VNT_DIR)))
            then vfs_node_release n;; vret (err, None)
            else acquire_loop fuel m p node n
  end.

Definition vfs_node_acquire (path : list Z) : VM S D (Z * option Z) :=
  let! r := vfs_findroot path in
  match r with
  | None => vret (-1, None)
  | Some (m, p) =>
      let! mt := get_mount m in
      let dn := m_root (m_info mt) in
      if dn =? 0 then vret (-1, None)
      else
        vfs_node_ref dn;;
        acquire_loop (Datatypes.S (length p)) m p [] dn
  end.

(** The use of the [struct vfs_node_t *] a call of [vfs_node_acquire] was to set. *)
Definition assigned (np : option Z) : VM S D Z :=
  match np with Some n => vret n | None => vstop Uninit end.
End nodes.
