(* ===== verification/VfsOps.v ===== *)
(** * VfsOps: mounting, and the operations on paths and file descriptors (fs/vfs.c)

    Every function of fs/vfs.c above the vnode cache of Vfs.v.  A pointer argument
    the code compares with NULL is an [option]; a buffer the caller passes in is
    returned with the result. *)

From S2P Require Import Prelude CMem Alloc Vfs.

Section ops.
Context {S D : Type} `{KernelAlloc S} (env : vfs_env D).
Abbreviation VM := (VM S D).

(** ** Filesystem classes *)

(** [hmap_search] gives the class of that name, [new_class_object] an object of it. *)
Definition search_filesystem (name : option (list Z)) : VM (option (filesystem_t D)) :=
  match name with
  | None => vret None
  | Some name =>
      let! s := vget in
      match fs_map s !! name with
      | None => vret None
      | Some index => vret (new_filesystem env index)
      end
  end.

(** ** Mounting *)

(** The first element of [l] that satisfies [f], or NULL. *)
Fixpoint find_entry (f : Z -> VM bool) (l : list Z) : VM Z :=
  match l with
  | [] => vret 0
  | x :: l => let! b := f x in if b then vret x else find_entry f l
  end.

(** [tm->m_covered && tm->m_covered->v_mount == m] *)
Definition covers_mount (m tm : Z) : VM bool :=
  let! mt := get_mount tm in
  let c := m_covered (m_info mt) in
  if c =? 0 then vret false
  else let! nd := get_node c in vret (v_mount nd =? m).

(** The open files of [m] are forgotten. *)
Fixpoint close_files (m : Z) (files : list vfs_file_t) : VM (list vfs_file_t) :=
  match files with
  | [] => vret []
  | f :: files =>
      let! f' :=
        if f_node f =? 0 then vret f
        else let! nd := get_node (f_node f) in
             vret (if v_mount nd =? m then no_file else f) in
      let! files' := close_files m files in
      vret (f' :: files')
  end.

(** [node_list[i]] loses the nodes of [m], first to last. *)
Fixpoint drop_nodes (fuel : nat) (m i : Z) : VM unit :=
  match fuel with
  | O => vstop Bad
  | Datatypes.S fuel =>
      let! l := get_bucket i in
      let! n := find_entry (fun n => let! nd := get_node n in vret (v_mount nd =? m)) l in
      if n =? 0 then vret tt
      else
        put_bucket i (remove_ptr n l);;
        let! mt := get_mount m in
        call1 mt fs_vput n;;
        free_node n;;
        drop_nodes fuel m i
  end.

Fixpoint for_each (f : Z -> VM unit) (l : list Z) : VM unit :=
  match l with
  | [] => vret tt
  | x :: l => f x;; for_each f l
  end.

Fixpoint vfs_force_unmount (fuel : nat) (m : Z) : VM unit :=
  match fuel with
  | O => vstop Halted
  | Datatypes.S fuel =>
      (fix above (k : nat) : VM unit :=
         match k with
         | O => vstop Halted
         | Datatypes.S k =>
             let! s := vget in
             let! tm := find_entry (covers_mount m) (mnt_list s) in
             if tm =? 0 then vret tt
             else vfs_force_unmount fuel tm;; above k
         end) fuel;;
      vmod (fun s => set_mnt_list s (remove_ptr m (mnt_list s)));;
      let! s := vget in
      let! files := close_files m (fd_file s) in
      vmod (fun s => set_fd_file s files);;
      let! s := vget in
      for_each (fun i => drop_nodes (Datatypes.S (size (nodes s))) m i) (seqZ 0 VFS_NODE_HASH_SIZE);;
      let! _ := callm m fs_unmount in
      let! mt := get_mount m in
      vfs_node_release (m_covered (m_info mt));;
      free_mount m
  end.

(** [if (m->m_covered) vfs_node_release(m->m_covered); free(m);] *)
Definition release_mount (m : Z) : VM unit :=
  let! mt := get_mount m in
  let c := m_covered (m_info mt) in
  (if c =? 0 then vret tt else vfs_node_release c);;
  free_mount m.

(** The node [m] is to cover: [Some 0] for the root of the name space, [None]
    when the directory cannot be used. *)
Definition mount_covered (dir : list Z) : VM (option Z) :=
  if bool_decide (dir = [SLASH]) then vret (Some 0)
  else
    let! '(err, np) := vfs_node_acquire dir in
    if negb (err =? 0) then vret None
    else
      let! c := assigned np in
      let! nd := get_node c in
      if negb (bool_decide (v_type (v_attr nd) = VNT_DIR)) then vfs_node_release c;; vret None
      else vret (Some c).

(** [m->m_fs->mount(m, dev)] *)
Definition call_mount (m : Z) (dev : option (list Z)) : VM Z :=
  let! mt := get_mount m in
  let! nd := get_node (m_root (m_info mt)) in
  let! s := vget in
  let! '(err, fl, x, a, d) := vlift (fs_mount (m_fs mt) dev (m_info mt) nd (vs_fsd s)) in
  vput (set_fsd s d);;
  put_mount m (mkMount (m_fs mt) (set_mdata (m_info mt) fl x));;
  put_node (m_root (m_info mt)) (set_attr nd a);;
  vret err.

Definition mark_read_only (n : Z) : VM unit :=
  let! nd := get_node n in
  let a := v_attr nd in
  put_node n (set_attr nd (mkAttr (v_type a) (Z.land (v_mode a) (not32 S_IW)) (v_size a)
                             (v_ctime a) (v_atime a) (v_mtime a) (v_data a))).

(** [!strcmp(tm->m_path, dir) || (dev != NULL && tm->m_dev == bdev)] *)
Definition mount_clash (dir : list Z) (dev : option (list Z)) (bdev tm : Z) : VM bool :=
  let! mt := get_mount tm in
  vret (strcmp_eq (m_path (m_info mt)) dir ||
        (match dev with Some _ => true | None => false end && (m_dev (m_info mt) =? bdev))).

Definition vfs_mount (dev dir fsname : option (list Z)) (flags : Z) : VM Z :=
  match dir with
  | None | Some [] => vret (-1)
  | Some dir =>
      let! fs := search_filesystem fsname in
      match fs with
      | None => vret (-1)
      | Some fs =>
          let! s := vget in
          let bdev := match dev with Some dev => search_block env (vs_fsd s) dev | None => 0 end in
          if (match dev with Some _ => true | None => false end) && (bdev =? 0) then vret (-1)
          else
            let! m := vcalloc sizeof_vfs_mount in
            if m =? 0 then vret (-1)
            else
              put_mount m (mkMount fs (mkMInfo bdev dir (Z.land flags MOUNT_MASK) 0 0 0 0));;
              if strlcpy_cut dir VFS_MAX_PATH then free_mount m;; vret (-1)
              else
                let! cov := mount_covered dir in
                match cov with
                | None => free_mount m;; vret (-1)
                | Some c =>
                    let! mt := get_mount m in
                    put_mount m (mkMount (m_fs mt) (set_mcovered (m_info mt) c));;
                    let! n := vfs_node_get m [SLASH] in
                    if n =? 0 then release_mount m;; vret (-1)
                    else
                      let! nd := get_node n in
                      let a := v_attr nd in
                      put_node n (mkNode (v_mount nd) (v_refcnt nd) (v_path nd) VNF_ROOT
                        (mkAttr VNT_DIR (Z.lor S_IFDIR S_IRWX) (v_size a) (v_ctime a) (v_atime a)
                           (v_mtime a) (v_data a)));;
                      let! mt := get_mount m in
                      put_mount m (mkMount (m_fs mt) (set_mroot (m_info mt) n));;
                      let! err := call_mount m dev in
                      if negb (err =? 0) then
                        vfs_node_release n;; release_mount m;; vret err
                      else
                        let! mt := get_mount m in
                        (if has (m_flags (m_info mt)) MOUNT_RO then mark_read_only n else vret tt);;
                        let! s := vget in
                        let! tm := find_entry (mount_clash dir dev bdev) (mnt_list s) in
                        if negb (tm =? 0) then
                          let! _ := callm m fs_unmount in
                          vfs_node_release n;; release_mount m;; vret (-1)
                        else
                          vmod (fun s => set_mnt_list s (m :: mnt_list s));;
                          vret 0
                end
      end
  end.

Definition vfs_unmount (path : list Z) : VM Z :=
  let! s := vget in
  let! m := find_entry (fun m => let! mt := get_mount m in
                                 vret (strcmp_eq path (m_path (m_info mt)))) (mnt_list s) in
  if m =? 0 then vret (-1)
  else
    let! mt := get_mount m in
    if 1 <? m_refcnt (m_info mt) then vret (-1)
    else
      vmod (fun s => set_mnt_list s (remove_ptr m (mnt_list s)));;
      let! err := callm m fs_msync in
      let! _ := callm m fs_unmount in
      vfs_node_release (m_root (m_info mt));;
      (if m_covered (m_info mt) =? 0 then vret tt else vfs_node_release (m_covered (m_info mt)));;
      (if m_dev (m_info mt) =? 0 then vret tt
       else let! s := vget in
            let! d := vlift (block_sync env (m_dev (m_info mt)) (vs_fsd s)) in
            vput (set_fsd s d));;
      free_mount m;;
      vret err.

Definition vfs_sync : VM Z :=
  let! s := vget in
  for_each (fun m => let! _ := callm m fs_msync in vret tt) (mnt_list s);;
  vret 0.

Fixpoint mount_get_loop (l : list Z) (index : Z) : Z :=
  match l with
  | [] => 0
  | m :: l => if index =? 0 then m else mount_get_loop l (index - 1)
  end.

Definition vfs_mount_get (index : Z) : VM Z :=
  if index <? 0 then vret 0
  else let! s := vget in vret (mount_get_loop (mnt_list s) index).

Definition vfs_mount_count : VM Z :=
  let! s := vget in vret (Z.of_nat (length (mnt_list s))).

(** ** Paths *)

(** The return value and, when it is 0, the directory and the last name. *)
Definition vfs_lookup_dir (path : list Z) : VM (Z * option (Z * list Z)) :=
  if strlcpy_cut path VFS_MAX_PATH then vret (-1, None)
  else
    match strrchr_slash path with
    | None => vret (-1, None)
    | Some i =>
        if chr path =? 0 then vret (-1, None)
        else
          let dir := if (i =? 0)%nat then [SLASH] else take i path in
          let! '(err, np) := vfs_node_acquire dir in
          if negb (err =? 0) then vret (err, None)
          else
            let! n := assigned np in
            let! nd := get_node n in
            if negb (bool_decide (v_type (v_attr nd) = VNT_DIR)) then
              vfs_node_release n;; vret (-1, None)
            else vret (0, Some (n, drop (i + 1) path))
    end.

(** [n->v_mount->m_fs->op(n, ..)] *)
Definition node_call {A} (op : filesystem_t D -> op1 D A) (n : Z) : VM A :=
  let! nd := get_node n in
  let! mt := get_mount (v_mount nd) in
  call1 mt op n.

Definition is_dir (n : Z) : VM bool :=
  let! nd := get_node n in vret (bool_decide (v_type (v_attr nd) = VNT_DIR)).
Definition is_reg (n : Z) : VM bool :=
  let! nd := get_node n in vret (bool_decide (v_type (v_attr nd) = VNT_REG)).

(** [O_CREAT]: the node at [path], created if it is not there, and the flags that
    are left; [inl err] for the early returns. *)
Definition open_create (path : list Z) (flags mode : Z) : VM (Z + Z * Z) :=
  let! '(err, np) := vfs_node_acquire path in
  if negb (err =? 0) then
    let! '(err, dn) := vfs_lookup_dir path in
    match dn with
    | None => vret (inl err)
    | Some (dn, filename) =>
        let! err := vfs_node_access dn W_OK in
        if negb (err =? 0) then vfs_node_release dn;; vret (inl err)
        else
          let mode := Z.lor (Z.land mode (not32 S_IFMT)) S_IFREG in
          let! err := node_call (fun fs => fs_create fs filename mode) dn in
          let! err := if err =? 0 then node_call fs_sync dn else vret err in
          vfs_node_release dn;;
          if negb (err =? 0) then vret (inl err)
          else
            let! '(err, np) := vfs_node_acquire path in
            if negb (err =? 0) then vret (inl err)
            else let! n := assigned np in vret (inr (n, Z.land flags (not32 O_TRUNC)))
    end
  else
    let! n := assigned np in
    if has flags O_EXCL then vfs_node_release n;; vret (inl (-1))
    else vret (inr (n, Z.land flags (not32 O_CREAT))).

Definition open_existing (path : list Z) (flags : Z) : VM (Z + Z * Z) :=
  let! '(err, np) := vfs_node_acquire path in
  if negb (err =? 0) then vret (inl err)
  else
    let! n := assigned np in
    if has flags O_WRONLY || has flags O_TRUNC then
      let! err := vfs_node_access n W_OK in
      if negb (err =? 0) then vfs_node_release n;; vret (inl err)
      else
        let! dir := is_dir n in
        if dir then vfs_node_release n;; vret (inl (-1)) else vret (inr (n, flags))
    else vret (inr (n, flags)).

(** The [O_TRUNC] part: 0, or the error after which [n] was released. *)
Definition open_truncate (n flags : Z) : VM Z :=
  if has flags O_TRUNC then
    let! dir := is_dir n in
    if negb (has flags O_WRONLY) || dir then vfs_node_release n;; vret (-1)
    else
      let! err := node_call (fun fs => fs_truncate fs 0) n in
      if negb (err =? 0) then vfs_node_release n;; vret err else vret 0
  else vret 0.

Definition vfs_open (path : option (list Z)) (flags mode : Z) : VM Z :=
  match path with
  | None => vret (-1)
  | Some path =>
      if negb (has flags O_ACCMODE) then vret (-1)
      else
        let! r := if has flags O_CREAT then open_create path flags mode
                  else open_existing path flags in
        match r with
        | inl err => vret err
        | inr (n, flags) =>
            let! err := open_truncate n flags in
            if negb (err =? 0) then vret err
            else
              let! fd := vfs_fd_alloc in
              if fd <? 0 then vfs_node_release n;; vret (-1)
              else put_file fd (mkFile n 0 flags);; vret fd
        end
  end.

(** ** Open files *)

(** The file of [fd] when it is open: [None] for the two early returns. *)
Definition open_file (fd : Z) : VM (option vfs_file_t) :=
  match vfs_fd_to_file fd with
  | None => vret None
  | Some fd =>
      let! f := get_file fd in
      vret (if f_node f =? 0 then None else Some f)
  end.

Definition vfs_close (fd : Z) : VM Z :=
  let! o := open_file fd in
  match o with
  | None => vret (-1)
  | Some f =>
      let! err := node_call fs_sync (f_node f) in
      if negb (err =? 0) then vret err
      else
        vfs_node_release (f_node f);;
        vfs_fd_free fd;;
        vret 0
  end.

Definition set_offset (fd : Z) (f : vfs_file_t) (off : Z) : VM unit :=
  put_file fd (mkFile (f_node f) off (f_flags f)).

(** The bytes stored in [buf] and the return value; [buf] says that the pointer
    is not NULL. *)
Definition vfs_read (fd : Z) (buf : bool) (len : Z) : VM (list Z * Z) :=
  if negb buf || (len =? 0) then vret ([], 0)
  else
    let! o := open_file fd in
    match o with
    | None => vret ([], 0)
    | Some f =>
        let! reg := is_reg (f_node f) in
        if negb reg then vret ([], 0)
        else if negb (has (f_flags f) O_RDONLY) then vret ([], 0)
        else
          let! '(bytes, ret) := node_call (fun fs => fs_read fs (f_offset f) len) (f_node f) in
          set_offset fd f (s64 (f_offset f + ret));;
          vret (bytes, ret)
    end.

(** [buf] is what the pointer of that name points to. *)
Definition vfs_write (fd : Z) (buf : option (list Z)) (len : Z) : VM Z :=
  match buf with
  | None => vret 0
  | Some buf =>
      if len =? 0 then vret 0
      else
        let! o := open_file fd in
        match o with
        | None => vret 0
        | Some f =>
            let! reg := is_reg (f_node f) in
            if negb reg then vret 0
            else if negb (has (f_flags f) O_WRONLY) then vret 0
            else
              let! ret := node_call (fun fs => fs_write fs (f_offset f) buf len) (f_node f) in
              set_offset fd f (s64 (f_offset f + ret));;
              vret ret
        end
  end.

(** [a + b] on [s64_t]; overflow is undefined. *)
Definition sadd64 (a b : Z) : VM Z :=
  if (- 2 ^ 63 <=? a + b) && (a + b <? 2 ^ 63) then vret (a + b) else vstop Bad.

(** The position asked for; [None] for an unknown [whence]. *)
Definition seek_target (off offset size whence : Z) : VM (option Z) :=
  if whence =? VFS_SEEK_SET then
    vret (Some (if off <? 0 then 0 else if size <? off then size else off))
  else if whence =? VFS_SEEK_CUR then
    let! pos := sadd64 offset off in
    vret (Some (if size <? pos then size else if pos <? 0 then 0 else pos))
  else if whence =? VFS_SEEK_END then
    if 0 <? off then vret (Some size)
    else let! pos := sadd64 size off in vret (Some (if pos <? 0 then 0 else pos))
  else vret None.

Definition vfs_lseek (fd off whence : Z) : VM Z :=
  let! o := open_file fd in
  match o with
  | None => vret 0
  | Some f =>
      let! nd := get_node (f_node f) in
      let size := v_size (v_attr nd) in
      let! t := seek_target off (f_offset f) size whence in
      match t with
      | None => vret (f_offset f)
      | Some off =>
          if off <=? size then set_offset fd f off;; vret off
          else vret (f_offset f)
      end
  end.

Definition vfs_fsync (fd : Z) : VM Z :=
  let! o := open_file fd in
  match o with
  | None => vret (-1)
  | Some f =>
      if negb (has (f_flags f) O_WRONLY) then vret (-1)
      else node_call fs_sync (f_node f)
  end.

Definition vfs_fchmod (fd mode : Z) : VM Z :=
  let! o := open_file fd in
  match o with
  | None => vret (-1)
  | Some f => node_call (fun fs => fs_chmod fs (Z.land mode S_IRWX)) (f_node f)
  end.

(** [None] in the second component: [*st] is not written. *)
Definition vfs_fstat (fd : Z) (st : bool) : VM (Z * option vfs_stat_t) :=
  if negb st then vret (-1, None)
  else
    let! o := open_file fd in
    match o with
    | None => vret (-1, None)
    | Some f => let! '(err, st) := vfs_node_stat (f_node f) in vret (err, Some st)
    end.

(** ** Directories *)

Definition vfs_opendir (name : option (list Z)) : VM Z :=
  match name with
  | None => vret (-1)
  | Some name =>
      let! fd := vfs_open (Some name) O_RDONLY 0 in
      if fd <? 0 then vret fd
      else
        let! o := open_file fd in
        match o with
        | None => vret (-1)
        | Some f =>
            let! dir := is_dir (f_node f) in
            if negb dir then let! _ := vfs_close fd in vret (-1) else vret fd
        end
  end.

Definition vfs_closedir (fd : Z) : VM Z :=
  let! o := open_file fd in
  match o with
  | None => vret (-1)
  | Some f =>
      let! dir := is_dir (f_node f) in
      if negb dir then vret (-1) else vfs_close fd
  end.

(** [Some d] when [*dir] was filled in. *)
Definition vfs_readdir (fd : Z) (dir : bool) : VM (Z * option vfs_dirent_t) :=
  if negb dir then vret (-1, None)
  else
    let! o := open_file fd in
    match o with
    | None => vret (-1, None)
    | Some f =>
        let! dir := is_dir (f_node f) in
        if negb dir then vret (-1, None)
        else
          let! '(err, d) := node_call (fun fs => fs_readdir fs (f_offset f)) (f_node f) in
          (if err =? 0 then set_offset fd f (s64 (f_offset f + d_reclen d)) else vret tt);;
          vret (err, Some d)
    end.

Definition vfs_rewinddir (fd : Z) : VM Z :=
  let! o := open_file fd in
  match o with
  | None => vret (-1)
  | Some f =>
      let! dir := is_dir (f_node f) in
      if negb dir then vret (-1) else set_offset fd f 0;; vret 0
  end.

Definition vfs_mkdir (path : option (list Z)) (mode : Z) : VM Z :=
  match path with
  | None => vret (-1)
  | Some path =>
      let! '(err, np) := vfs_node_acquire path in
      if err =? 0 then let! n := assigned np in vfs_node_release n;; vret (-1)
      else
        let! '(err, dn) := vfs_lookup_dir path in
        match dn with
        | None => vret err
        | Some (dn, name) =>
            let! err := vfs_node_access dn W_OK in
            if negb (err =? 0) then vfs_node_release dn;; vret err
            else
              let mode := Z.lor (Z.land mode (not32 S_IFMT)) S_IFDIR in
              let! err := node_call (fun fs => fs_mkdir fs name mode) dn in
              let! err := if err =? 0 then node_call fs_sync dn else vret err in
              vfs_node_release dn;;
              vret err
        end
  end.

(** The loop over the entries of a directory: whether there is one other than
    ["."] and [".."].  A directory that never ends keeps it going. *)
Fixpoint check_empty_loop (fuel : nat) (fd : Z) : VM bool :=
  match fuel with
  | O => vstop Halted
  | Datatypes.S fuel =>
      let! '(err, d) := vfs_readdir fd true in
      if negb (err =? 0) then vret true
      else
        match d with
        | None => vstop Uninit
        | Some d =>
            if negb (strcmp_eq (d_name d) [46]) && negb (strcmp_eq (d_name d) [46; 46])
            then vret false
            else check_empty_loop fuel fd
        end
  end.

Definition vfs_check_dir_empty (fuel : nat) (path : list Z) : VM Z :=
  let! fd := vfs_opendir (Some path) in
  if fd <? 0 then vret fd
  else
    let! empty := check_empty_loop fuel fd in
    let! _ := vfs_closedir fd in
    vret (if empty then 0 else -1).

(** [(n->v_flags == VNF_ROOT) || (atomic_get(&n->v_refcnt) >= 2)] *)
Definition node_busy (n : Z) : VM bool :=
  let! nd := get_node n in
  vret (bool_decide (v_flags nd = VNF_ROOT) || (2 <=? v_refcnt nd)).

(** [e1; if (err) goto fail; e2] *)
Definition and_then (m k : VM Z) : VM Z :=
  let! err := m in if negb (err =? 0) then vret err else k.

Definition dir_call (op : filesystem_t D -> op2 D Z) (dn n : Z) : VM Z :=
  let! nd := get_node dn in
  let! mt := get_mount (v_mount nd) in
  call2 mt op dn n.

Definition vfs_rmdir (fuel : nat) (path : option (list Z)) : VM Z :=
  match path with
  | None => vret (-1)
  | Some path =>
      let! err := vfs_check_dir_empty fuel path in
      if negb (err =? 0) then vret err
      else
        let! '(err, np) := vfs_node_acquire path in
        if negb (err =? 0) then vret err
        else
          let! n := assigned np in
          let! busy := node_busy n in
          if busy then vfs_node_release n;; vret (-1)
          else
            let! err := vfs_node_access n W_OK in
            if negb (err =? 0) then vfs_node_release n;; vret err
            else
              let! '(err, dn) := vfs_lookup_dir path in
              match dn with
              | None => vfs_node_release n;; vret err
              | Some (dn, name) =>
                  mutex_lock_all [dn; n];;
                  let! err := and_then (dir_call (fun fs => fs_rmdir fs name) dn n)
                                (and_then (node_call fs_sync n) (node_call fs_sync dn)) in
                  vfs_node_release n;;
                  vfs_node_release dn;;
                  vret err
              end
  end.

(** The part of [vfs_rename] between [fail1] and [fail3], with [sn] held. *)
Definition rename_to (n1 sn : Z) (sname dst : list Z) : VM Z :=
  let! '(err, np) := vfs_node_acquire dst in
  if err =? 0 then let! n2 := assigned np in vfs_node_release n2;; vret (-1)
  else
    let! '(err, dn) := vfs_lookup_dir dst in
    match dn with
    | None => vret err
    | Some (dn, dname) =>
        let! snd := get_node sn in
        let! dnd := get_node dn in
        let! err :=
          if negb (v_mount snd =? v_mount dnd) then vret (-1)
          else
            mutex_lock_all (n1 :: sn :: if dn =? sn then [] else [dn]);;
            let! mt := get_mount (v_mount snd) in
            and_then (call3 mt (fun fs => fs_rename fs sname dname) sn n1 dn)
              (and_then (node_call fs_sync sn)
                 (if dn =? sn then vret 0 else node_call fs_sync dn)) in
        vfs_node_release dn;;
        vret err
    end.

Definition vfs_rename (src dst : list Z) : VM Z :=
  let len := length src in
  if strncmp_eq src dst VFS_MAX_PATH then vret (-1)
  else if strcmp_eq src [SLASH] then vret (-1)
  else if (len <? length dst)%nat && strncmp_eq src dst (Z.of_nat len) && (chr (drop len dst) =? SLASH)
  then vret (-1)
  else
    let! '(err, np) := vfs_node_acquire src in
    if negb (err =? 0) then vret err
    else
      let! n1 := assigned np in
      let! err := vfs_node_access n1 W_OK in
      let! err :=
        if negb (err =? 0) then vret err
        else
          let! nd := get_node n1 in
          if 2 <=? v_refcnt nd then vret (-1)
          else
            let! '(err, sn) := vfs_lookup_dir src in
            match sn with
            | None => vret err
            | Some (sn, sname) =>
                let! err := rename_to n1 sn sname dst in
                vfs_node_release sn;;
                vret err
            end in
      vfs_node_release n1;;
      vret err.

Definition vfs_unlink (path : option (list Z)) : VM Z :=
  match path with
  | None => vret (-1)
  | Some path =>
      let! '(err, np) := vfs_node_acquire path in
      if negb (err =? 0) then vret err
      else
        let! n := assigned np in
        let! dir := is_dir n in
        if dir then vfs_node_release n;; vret (-1)
        else
          let! busy := node_busy n in
          if busy then vfs_node_release n;; vret (-1)
          else
            let! err := vfs_node_access n W_OK in
            if negb (err =? 0) then vfs_node_release n;; vret err
            else
              let! '(err, dn) := vfs_lookup_dir path in
              match dn with
              | None => vfs_node_release n;; vret err
              | Some (dn, name) =>
                  let! err :=
                    and_then (node_call (fun fs => fs_truncate fs 0) n)
                      (and_then (node_call fs_sync n)
                         (mutex_lock_all [n; dn];;
                          and_then (dir_call (fun fs => fs_remove fs name) dn n)
                            (node_call fs_sync dn))) in
                  vfs_node_release dn;;
                  vfs_node_release n;;
                  vret err
              end
  end.

(** ** Attributes *)

(** [vfs_node_acquire] with its early return, the body, and the release of the
    node that [vfs_access], [vfs_chmod] and [vfs_stat] share. *)
Definition with_node {A} (path : list Z) (fail : Z -> A) (body : Z -> VM A) : VM A :=
  let! '(err, np) := vfs_node_acquire path in
  if negb (err =? 0) then vret (fail err)
  else
    let! n := assigned np in
    let! r := body n in
    vfs_node_release n;;
    vret r.

Definition vfs_access (path : option (list Z)) (mode : Z) : VM Z :=
  match path with
  | None => vret (-1)
  | Some path => with_node path id (fun n => vfs_node_access n mode)
  end.

Definition vfs_chmod (path : option (list Z)) (mode : Z) : VM Z :=
  match path with
  | None => vret (-1)
  | Some path =>
      with_node path id (fun n =>
        and_then (node_call (fun fs => fs_chmod fs (Z.land mode S_IRWX)) n) (node_call fs_sync n))
  end.

Definition vfs_stat (path : option (list Z)) (st : bool) : VM (Z * option vfs_stat_t) :=
  match path with
  | None => vret (-1, None)
  | Some path =>
      if negb st then vret (-1, None)
      else with_node path (fun err => (err, None)) (fun n =>
             let! '(err, st) := vfs_node_stat n in vret (err, Some st))
  end.
End ops.

(** ** Initialisation *)

(** The tree of classes the class system built (core/class/class.c). *)
Inductive class_tree := Class (type : Z) (name : list Z) (children : list class_tree).
Definition class_type (c : class_tree) : Z := let '(Class t _ _) := c in t.
Definition class_name (c : class_tree) : list Z := let '(Class _ n _) := c in n.
Definition class_child (c : class_tree) : list class_tree := let '(Class _ _ l) := c in l.

(** [register_filesystem]: the names of the subclasses, one level after the other. *)
Fixpoint register_filesystem (c : class_tree) (map : gmap (list Z) Z) : gmap (list Z) Z :=
  match c with
  | Class _ _ child =>
      let map := fold_left (fun map info => <[class_name info := class_type info]> map) child map in
      fold_left (fun map info => register_filesystem info map) child map
  end.

Definition do_vfs_init {S D} (filesystems : class_tree) (s : vfs S D) : vfs S D :=
  mkVfs (vs_alloc s) (vs_fsd s) (nodes s) (mounts s) []
    (replicate (Z.to_nat VFS_MAX_FD) no_file)
    (replicate (Z.to_nat VFS_NODE_HASH_SIZE) [])
    (register_filesystem filesystems ∅).
