(* ===== verification/VfsPath.v ===== *)
(** * VfsPath: the paths of the vnode cache

    The strings fs/vfs.c builds are ["/a/b/c"]: a list of components, each after a
    slash.  Lemmas on the string functions of the walk and of [count_match]. *)

From S2P Require Import Prelude CMem Alloc Vfs.

(** A component of a path, and the path of a list of components. *)
Definition is_comp (c : list Z) : Prop := c <> [] /\ Forall (fun b => b <> SLASH /\ b <> 0) c.
Definition path_of (cs : list (list Z)) : list Z := concat (map (cons SLASH) cs).

(** The path a node has: the root of a mount is ["/"]. *)
Definition npath (cs : list (list Z)) : list Z := match cs with [] => [SLASH] | _ => path_of cs end.

(** A path of C characters that are not NUL. *)
Definition is_path (p : list Z) : Prop := Forall (fun b => b <> 0) p.

Lemma path_of_app cs ds : path_of (cs ++ ds) = path_of cs ++ path_of ds.
Proof. unfold path_of. by rewrite map_app, concat_app. Qed.

Lemma path_of_snoc cs c : path_of (cs ++ [c]) = path_of cs ++ SLASH :: c.
Proof. rewrite path_of_app. unfold path_of at 2. cbn. by rewrite app_nil_r. Qed.

Lemma npath_snoc cs c : npath (cs ++ [c]) = path_of (cs ++ [c]).
Proof. by destruct cs. Qed.

Lemma path_of_nil cs : path_of cs = [] -> cs = [].
Proof. by destruct cs. Qed.

Lemma path_of_chr cs : cs <> [] -> chr (path_of cs) = SLASH.
Proof. by destruct cs. Qed.

Lemma strrchr_slash_none c : Forall (fun b => b <> SLASH) c -> strrchr_slash c = None.
Proof.
  induction 1 as [|b c Hb Hc IH]; [done|]. cbn. rewrite IH.
  by rewrite (proj2 (Z.eqb_neq b SLASH) Hb).
Qed.

Lemma strrchr_slash_app l c :
  Forall (fun b => b <> SLASH) c -> strrchr_slash (l ++ SLASH :: c) = Some (length l).
Proof.
  intros Hc. induction l as [|b l IH]; cbn.
  - by rewrite strrchr_slash_none.
  - by rewrite IH.
Qed.

Lemma strrchr_slash_inv l i :
  strrchr_slash l = Some i -> exists c, l = take i l ++ SLASH :: c /\ Forall (fun b => b <> SLASH) c.
Proof.
  revert i. induction l as [|b l IH]; [done|]. intros i. cbn.
  destruct (strrchr_slash l) as [j|] eqn:E; intros Hi.
  - injection Hi as <-. destruct (IH j eq_refl) as (c & Hc & HF). exists c. cbn. by rewrite <- Hc.
  - destruct (Z.eqb_spec b SLASH) as [->|]; [|done]. injection Hi as <-. exists l. split; [done|].
    clear IH. induction l as [|d l IH]; [by constructor|]. cbn in E.
    destruct (strrchr_slash l) as [|] eqn:E'; [done|].
    destruct (Z.eqb_spec d SLASH); [done|]. by constructor; [|apply IH].
Qed.

Lemma is_comp_noslash c : is_comp c -> Forall (fun b => b <> SLASH) c.
Proof. intros [_ H]. eapply Forall_impl; [done|]. by intros b [? _]. Qed.

Lemma strrchr_path_of cs c :
  is_comp c -> strrchr_slash (path_of (cs ++ [c])) = Some (length (path_of cs)).
Proof. intros Hc. rewrite path_of_snoc. by apply strrchr_slash_app, is_comp_noslash. Qed.

Lemma take_path_of cs c : take (length (path_of cs)) (path_of (cs ++ [c])) = path_of cs.
Proof. rewrite path_of_snoc. by rewrite take_app_length. Qed.

Lemma path_of_inj cs ds :
  Forall is_comp cs -> Forall is_comp ds -> path_of cs = path_of ds -> cs = ds.
Proof.
  intros Hcs. revert ds. induction cs as [|c cs IH] using rev_ind; intros ds Hds E.
  - symmetry. apply path_of_nil. by symmetry.
  - apply Forall_app in Hcs as [Hcs Hc]. rewrite Forall_singleton in Hc.
    destruct ds as [|d ds _] using rev_ind.
    { rewrite path_of_snoc in E. by destruct (path_of cs). }
    apply Forall_app in Hds as [Hds Hd]. rewrite Forall_singleton in Hd.
    pose proof (strrchr_path_of cs c Hc) as E1. rewrite E in E1.
    rewrite strrchr_path_of in E1 by done. injection E1 as El.
    rewrite !path_of_snoc in E. apply app_inj_1 in E as [E [= ->]]; [|done].
    f_equal. by apply IH.
Qed.

Lemma npath_inj cs ds :
  Forall is_comp cs -> Forall is_comp ds -> npath cs = npath ds -> cs = ds.
Proof.
  intros Hcs Hds. destruct cs as [|c cs], ds as [|d ds]; [done| | |by apply path_of_inj].
  - inversion Hds as [|? ? [Hd _] _]; subst. unfold npath, path_of. cbn. by destruct d.
  - inversion Hcs as [|? ? [Hd _] _]; subst. unfold npath, path_of. cbn. by destruct c.
Qed.

(** ** The walk *)

Lemma skip_slashes_length p : (length (skip_slashes p) <= length p)%nat.
Proof. induction p as [|b p IH]; [done|]. cbn. destruct (b =? SLASH); cbn; lia. Qed.

Lemma skip_slashes_path p : is_path p -> is_path (skip_slashes p).
Proof.
  induction 1 as [|b p Hb Hp IH]; [by constructor|]. cbn. destruct (b =? SLASH); [done|]. by constructor.
Qed.

Lemma skip_slashes_chr p : chr (skip_slashes p) <> SLASH.
Proof. induction p as [|b p IH]; [done|]. cbn. by destruct (Z.eqb_spec b SLASH). Qed.

Lemma is_path_drop i p : is_path p -> is_path (drop i p).
Proof. intros H. by apply Forall_drop. Qed.
Lemma is_path_take i p : is_path p -> is_path (take i p).
Proof. intros H. by apply Forall_take. Qed.

Lemma chr_zero p : is_path p -> chr p = 0 -> p = [].
Proof. by destruct 1. Qed.

(** The characters before the next slash, and the rest. *)
Fixpoint span_comp (p : list Z) : list Z * list Z :=
  match p with
  | [] => ([], [])
  | b :: p' => if b =? SLASH then ([], p) else let '(c, r) := span_comp p' in (b :: c, r)
  end.

Lemma span_comp_spec p :
  is_path p -> let '(c, r) := span_comp p in
  p = c ++ r /\ Forall (fun b => b <> SLASH /\ b <> 0) c /\ (r = [] \/ chr r = SLASH) /\ is_path r.
Proof.
  induction 1 as [|b p Hb Hp IH]; cbn.
  { split_and!; [done|done|by left|by constructor]. }
  destruct (Z.eqb_spec b SLASH) as [->|Hs].
  - split_and!; [done|done|by right|]. by constructor.
  - destruct (span_comp p) as [c r]. destruct IH as (-> & Hc & Hr & Hr').
    by split_and!; auto.
Qed.

Lemma span_comp_is_comp p c r :
  is_path p -> chr p <> 0 -> chr p <> SLASH -> span_comp p = (c, r) -> is_comp c.
Proof.
  intros Hp H0 Hs E. pose proof (span_comp_spec p Hp) as Hsp. rewrite E in Hsp.
  destruct Hsp as (Ep & Hc & Hr & _). split; [|done]. intros ->. cbn in Ep. subst r.
  destruct Hr as [->|Hr]; [by apply H0|done].
Qed.

(** ** [count_match] *)

(** [root] is a prefix of [path] that ends at a component boundary. *)
Definition mount_prefix (root path : list Z) : Prop :=
  exists rest, path = root ++ rest /\ root <> [] /\
    (root = [SLASH] \/ rest = [] \/ chr rest = SLASH).

Lemma count_match_loop_spec path root c0 len :
  exists pre p r, path = pre ++ p /\ root = pre ++ r /\
    count_match_loop path root c0 len =
      (p, r, default c0 (last pre), len + Z.of_nat (length pre)) /\
    (p = [] \/ r = [] \/ chr p <> chr r).
Proof.
  revert root c0 len. induction path as [|a path IH]; intros root c0 len.
  { exists [], [], root. cbn. rewrite Z.add_0_r. by split_and!; auto. }
  destruct root as [|b root].
  { exists [], (a :: path), []. cbn. rewrite Z.add_0_r. by split_and!; auto. }
  cbn. destruct (Z.eqb_spec a b) as [<-|Hab]; cbn.
  - destruct (IH root a (len + 1)) as (pre & p & r & -> & -> & E & Hor).
    exists (a :: pre), p, r. split_and!; [done|done| |done]. rewrite E. f_equal; [f_equal|cbn; lia].
    destruct pre as [|b pre]; [done|]. rewrite !last_cons.
    by destruct (last pre).
  - exists [], (a :: path), (b :: root). cbn. rewrite Z.add_0_r. by split_and!; auto.
Qed.

Lemma count_match_spec path root :
  is_path path -> is_path root ->
  (mount_prefix root path /\ count_match path root = Z.of_nat (length root)) \/
  (~ mount_prefix root path /\ count_match path root = 0).
Proof.
  intros Hp Hr. unfold count_match.
  destruct (count_match_loop_spec path root 0 0) as (pre & p & r & -> & -> & -> & Hor).
  apply Forall_app in Hp as [_ Hp]. apply Forall_app in Hr as [_ Hr]. cbn [fst snd].
  destruct (Z.eqb_spec (chr r) 0) as [Hr0|Hr0]; cbn [negb].
  2:{ right. split; [|done]. intros (rest & E & _). rewrite <- app_assoc in E. apply app_inv_head in E.
      subst p. destruct Hor as [Hor|[->|Hor]]; [|done|by destruct r].
      destruct r; [done|]. discriminate. }
  apply chr_zero in Hr0; [subst r|done]. rewrite app_nil_r in *. rewrite Z.add_0_l.
  destruct ((Z.of_nat (length pre) =? 1) && (default 0 (last pre) =? SLASH)) eqn:E1.
  { apply andb_true_iff in E1 as [El Es]. apply Z.eqb_eq in El, Es.
    destruct pre as [|a [|? ?]]; cbn in El; try lia. cbn in Es. subst a. left. split; [|done].
    exists p. by auto. }
  destruct ((chr p =? 0) || (chr p =? SLASH)) eqn:E2.
  - apply orb_true_iff in E2. rewrite !Z.eqb_eq in E2. destruct pre as [|a pre]; [right|left].
    + split; [|done]. by intros (? & _ & ? & _).
    + split; [|done]. exists p. split_and!; [done..|]. right. destruct E2; [|by right].
      left. by apply chr_zero.
  - right. split; [|done]. apply orb_false_iff in E2 as [E2 E3]. apply Z.eqb_neq in E2, E3.
    intros (rest & E & Hne & Hcase). apply app_inv_head in E. subst rest.
    destruct Hcase as [->|[->|?]]; [by cbn in E1|by apply E2|done].
Qed.
