(* ===== verification/VfsCache.v ===== *)
(** * VfsCache: the vnode cache keeps exact reference counts

    The state of the cache is described by a multiset of pins, one for each
    reference that the rest of the switch holds on a node, named by the mount and
    the path of the node.  [cache_ok P s] says that every node in memory is named by
    a pin of [P], that its [v_refcnt] is the number of its pins, that it is on
    exactly the hash list of its name, and that no two nodes have the same name.
    The operations of the cache are specified by what they do to [P]. *)

From stdpp Require Import gmultiset.
From S2P Require Import Prelude CMem Alloc Vfs VfsPath.

(** ** A program logic

    [wp E m Q s]: run from [s], [m] returns a value and a state that satisfy [Q],
    or stops for a reason [E] allows. *)

Definition wp {S D A : Type} (E : stop -> Prop) (m : VM S D A) (Q : A -> vfs S D -> Prop) (s : vfs S D) : Prop :=
  match m s with inl (a, s') => Q a s' | inr e => E e end.

(** The code always returns. *)
Definition never : stop -> Prop := fun _ => False.

Section wp.
Context {S D : Type}.
Implicit Types s : vfs S D.

Lemma wp_bind {A B} E (m : VM S D A) (k : A -> VM S D B) Q s :
  wp E m (fun a => wp E (k a) Q) s -> wp E (vbind m k) Q s.
Proof. unfold wp, vbind. by destruct (m s) as [[a s']|e]. Qed.

Lemma wp_mono {A} E (E' : stop -> Prop) (m : VM S D A) (Q Q' : A -> vfs S D -> Prop) s :
  wp E m Q s -> (forall e, E e -> E' e) -> (forall a s', Q a s' -> Q' a s') -> wp E' m Q' s.
Proof. unfold wp. destruct (m s) as [[a s']|e]; auto. Qed.

(** Sequencing with a specification of the first part that always returns. *)
Lemma wp_then {A B} E (m : VM S D A) (k : A -> VM S D B) Q Q' s :
  wp never m Q' s -> (forall a s', Q' a s' -> wp E (k a) Q s') -> wp E (vbind m k) Q s.
Proof. intros Hm Hk. apply wp_bind. eapply wp_mono; [done|by intros ? []|done]. Qed.

Lemma wp_seq {A B} E (m : VM S D A) (k : A -> VM S D B) Q Q' s :
  wp E m Q' s -> (forall a s', Q' a s' -> wp E (k a) Q s') -> wp E (vbind m k) Q s.
Proof. intros Hm Hk. apply wp_bind. eapply wp_mono; [done|done|done]. Qed.

Lemma wp_ret {A} E (a : A) (Q : A -> vfs S D -> Prop) s : Q a s -> wp E (vret a) Q s.
Proof. done. Qed.

Lemma wp_never_inv {A} (m : VM S D A) Q s :
  wp never m Q s -> exists a s', m s = inl (a, s') /\ Q a s'.
Proof. unfold wp. destruct (m s) as [[a s']|e]; [by eauto|by intros []]. Qed.

Lemma wp_put_node E n nd (Q : unit -> vfs S D -> Prop) s :
  Q tt (set_nodes s (<[n := nd]> (nodes s))) -> wp E (put_node n nd) Q s.
Proof. done. Qed.

Lemma wp_get_node {B} E n nd (k : vnode -> VM S D B) Q s :
  nodes s !! n = Some nd -> wp E (k nd) Q s -> wp E (vbind (get_node n) k) Q s.
Proof. intros Hn. unfold wp, vbind, get_node. by rewrite Hn. Qed.

Lemma wp_get_mount {B} E m mt (k : vmount D -> VM S D B) Q s :
  mounts s !! m = Some mt -> wp E (k mt) Q s -> wp E (vbind (get_mount m) k) Q s.
Proof. intros Hn. unfold wp, vbind, get_mount. by rewrite Hn. Qed.

Lemma wp_get_bucket {B} E h l (k : list Z -> VM S D B) Q s :
  node_list s !! Z.to_nat h = Some l -> wp E (k l) Q s -> wp E (vbind (get_bucket h) k) Q s.
Proof. intros Hn. unfold wp, vbind, get_bucket. by rewrite Hn. Qed.

Lemma wp_get_file {B} E fd f (k : vfs_file_t -> VM S D B) Q s :
  fd_file s !! Z.to_nat fd = Some f -> wp E (k f) Q s -> wp E (vbind (get_file fd) k) Q s.
Proof. intros Hn. unfold wp, vbind, get_file. by rewrite Hn. Qed.

(** The steps that always succeed are run. *)
Lemma wp_vget {B} E (k : vfs S D -> VM S D B) Q s : wp E (k s) Q s -> wp E (vbind vget k) Q s.
Proof. done. Qed.
Lemma wp_set_node {B} E n nd (k : unit -> VM S D B) Q s :
  wp E (k tt) Q (set_nodes s (<[n := nd]> (nodes s))) -> wp E (vbind (put_node n nd) k) Q s.
Proof. done. Qed.
Lemma wp_set_mount {B} E m mt (k : unit -> VM S D B) Q s :
  wp E (k tt) Q (set_mounts s (<[m := mt]> (mounts s))) -> wp E (vbind (put_mount m mt) k) Q s.
Proof. done. Qed.
Lemma wp_set_bucket {B} E h l (k : unit -> VM S D B) Q s :
  wp E (k tt) Q (set_node_list s (<[Z.to_nat h := l]> (node_list s))) -> wp E (vbind (put_bucket h l) k) Q s.
Proof. done. Qed.
Lemma wp_set_file {B} E fd f (k : unit -> VM S D B) Q s :
  wp E (k tt) Q (set_fd_file s (<[Z.to_nat fd := f]> (fd_file s))) -> wp E (vbind (put_file fd f) k) Q s.
Proof. done. Qed.
Lemma wp_vmod {B} E f (k : unit -> VM S D B) Q s : wp E (k tt) Q (f s) -> wp E (vbind (vmod f) k) Q s.
Proof. done. Qed.
Lemma wp_vput {B} E s1 (k : unit -> VM S D B) Q s : wp E (k tt) Q s1 -> wp E (vbind (vput s1) k) Q s.
Proof. done. Qed.
Lemma wp_vret {A B} E (a : A) (k : A -> VM S D B) Q s : wp E (k a) Q s -> wp E (vbind (vret a) k) Q s.
Proof. done. Qed.
Lemma wp_assoc {A B C} E (m : VM S D A) (k : A -> VM S D B) (k' : B -> VM S D C) Q s :
  wp E (vbind m (fun a => vbind (k a) k')) Q s -> wp E (vbind (vbind m k) k') Q s.
Proof. unfold wp, vbind. by destruct (m s) as [[a s']|e]. Qed.

Lemma wp_assoc_rev {A B C} E (m : VM S D A) (k : A -> VM S D B) (k' : B -> VM S D C) Q s :
  wp E (vbind (vbind m k) k') Q s -> wp E (vbind m (fun a => vbind (k a) k')) Q s.
Proof. unfold wp, vbind. by destruct (m s) as [[a s']|e]. Qed.

Context `{KernelAlloc S}.

Lemma wp_vcalloc {B} E n a p (k : Z -> VM S D B) Q s :
  al_calloc (vs_alloc s) n = Ok (a, p) -> wp E (k p) Q (set_alloc s a) -> wp E (vbind (vcalloc n) k) Q s.
Proof. intros Ha. unfold wp, vcalloc, vbind, vget. by rewrite Ha. Qed.

Lemma wp_free_node {B} E n a (k : unit -> VM S D B) Q s :
  al_free (vs_alloc s) n = Ok a -> wp E (k tt) Q (set_nodes (set_alloc s a) (delete n (nodes s))) ->
  wp E (vbind (free_node n) k) Q s.
Proof. intros Ha. unfold wp, free_node, vfree, vbind, vget. by rewrite Ha. Qed.

Lemma wp_free_mount {B} E m a (k : unit -> VM S D B) Q s :
  al_free (vs_alloc s) m = Ok a -> wp E (k tt) Q (set_mounts (set_alloc s a) (delete m (mounts s))) ->
  wp E (vbind (free_mount m) k) Q s.
Proof. intros Ha. unfold wp, free_mount, vfree, vbind, vget. by rewrite Ha. Qed.

Lemma wp_call1 {A B} E mt (op : filesystem_t D -> op1 D A) n nd r a d (k : A -> VM S D B) Q s :
  nodes s !! n = Some nd -> op (m_fs mt) (m_info mt) nd (vs_fsd s) = Ok (r, a, d) ->
  wp E (k r) Q (set_nodes (set_fsd s d) (<[n := set_attr nd a]> (nodes s))) ->
  wp E (vbind (call1 mt op n) k) Q s.
Proof. intros Hn Hop. unfold wp, call1, vbind, get_node, vget. rewrite Hn, Hop. done. Qed.

Lemma wp_mount_refcnt_add {B} E m mt v (k : unit -> VM S D B) Q s :
  mounts s !! m = Some mt ->
  wp E (k tt) Q (set_mounts s (<[m := mkMount (m_fs mt) (set_mrefcnt (m_info mt) (s32 (m_refcnt (m_info mt) + v)))]> (mounts s))) ->
  wp E (vbind (mount_refcnt_add m v) k) Q s.
Proof. intros Hm. unfold wp, mount_refcnt_add, vbind, get_mount. by rewrite Hm. Qed.

(** A last statement is a statement with nothing after it. *)
Lemma wp_last {A} E (m : VM S D A) Q s : wp E (vbind m vret) Q s -> wp E m Q s.
Proof. unfold wp, vbind. destruct (m s) as [[a s']|e]; done. Qed.
End wp.

(** ** What a filesystem promises

    [I] is the invariant of the state of the filesystems.  The callbacks return and
    keep it, and leave a file size that an [s64_t] holds. *)

Definition attr_ok (a : vattr) : Prop := 0 <= v_size a < 2 ^ 63.

Definition op1_ok {D A : Type} (I : D -> Prop) (op : op1 D A) : Prop :=
  forall mi nd d, attr_ok (v_attr nd) -> I d ->
    exists r a d', op mi nd d = Ok (r, a, d') /\ attr_ok a /\ I d'.

Definition op2_ok {D A : Type} (I : D -> Prop) (op : op2 D A) : Prop :=
  forall mi nd1 nd2 d, attr_ok (v_attr nd1) -> attr_ok (v_attr nd2) -> I d ->
    exists r a1 a2 d', op mi nd1 nd2 d = Ok (r, a1, a2, d') /\ attr_ok a1 /\ attr_ok a2 /\ I d'.

Definition op3_ok {D A : Type} (I : D -> Prop) (op : op3 D A) : Prop :=
  forall mi nd1 nd2 nd3 d,
    attr_ok (v_attr nd1) -> attr_ok (v_attr nd2) -> attr_ok (v_attr nd3) -> I d ->
    exists r a1 a2 a3 d', op mi nd1 nd2 nd3 d = Ok (r, a1, a2, a3, d') /\
      attr_ok a1 /\ attr_ok a2 /\ attr_ok a3 /\ I d'.

Record fs_ok {D : Type} (I : D -> Prop) (fs : filesystem_t D) : Prop := {
  ok_mount dev mi nd d : attr_ok (v_attr nd) -> I d -> (dev <> None -> m_dev mi <> 0) ->
    exists r fl x a d', fs_mount fs dev mi nd d = Ok (r, fl, x, a, d') /\ attr_ok a /\ I d';
  ok_unmount mi d : I d -> exists r x d', fs_unmount fs mi d = Ok (r, x, d') /\ I d';
  ok_msync mi d : I d -> exists r x d', fs_msync fs mi d = Ok (r, x, d') /\ I d';
  ok_vget : op1_ok I (fs_vget fs);
  ok_vput : op1_ok I (fs_vput fs);
  ok_read off len : op1_ok I (fs_read fs off len);
  ok_write off buf len : op1_ok I (fs_write fs off buf len);
  ok_truncate off : op1_ok I (fs_truncate fs off);
  ok_sync : op1_ok I (fs_sync fs);
  ok_readdir off : op1_ok I (fs_readdir fs off);
  ok_lookup name : op2_ok I (fs_lookup fs name);
  ok_create name mode : op1_ok I (fs_create fs name mode);
  ok_remove name : op2_ok I (fs_remove fs name);
  ok_rename sname dname : op3_ok I (fs_rename fs sname dname);
  ok_mkdir name mode : op1_ok I (fs_mkdir fs name mode);
  ok_rmdir name : op2_ok I (fs_rmdir fs name);
  ok_chmod mode : op1_ok I (fs_chmod fs mode);
}.

(** ** The invariant of the cache *)

Definition key : Type := Z * list Z.
Definition key_of (nd : vnode) : key := (v_mount nd, v_path nd).
Definition hash_of (nd : vnode) : nat := Z.to_nat (vfs_node_hash (v_mount nd) (v_path nd)).

(** The nodes of mount [m]. *)
Definition mount_nodes (m : Z) (ns : gmap Z vnode) : Z :=
  Z.of_nat (size (filter (fun p => v_mount p.2 = m) ns)).

(** The path of a node: that of a list of components, short enough for [v_path]. *)
Definition node_path (p : list Z) : Prop :=
  (exists cs, Forall is_comp cs /\ p = npath cs) /\ Z.of_nat (length p) < VFS_MAX_PATH.

Record node_ok {D : Type} (ms : gmap Z (vmount D)) (P : gmultiset key) (nd : vnode) : Prop := {
  nk_refcnt : v_refcnt nd = Z.of_nat (multiplicity (key_of nd) P);
  nk_pinned : key_of nd ∈ P;
  nk_mount : is_Some (ms !! v_mount nd);
  nk_path : node_path (v_path nd);
  nk_attr : attr_ok (v_attr nd);
}.

(** [X]: the addresses in use by other parts of the kernel. *)
Record cache_ok {S D : Type} `{KernelAlloc S} (X : gset Z) (I : D -> Prop) (P : gmultiset key) (s : vfs S D) : Prop := {
  ck_alloc : al_inv (vs_alloc s) (X ∪ (dom (nodes s) ∪ dom (mounts s)));
  ck_disj : dom (nodes s) ## dom (mounts s) /\ X ## dom (nodes s) ∪ dom (mounts s);
  ck_null : nodes s !! 0 = None /\ mounts s !! 0 = None;
  ck_fsd : I (vs_fsd s);
  ck_fs m mt : mounts s !! m = Some mt -> fs_ok I (m_fs mt);
  ck_node n nd : nodes s !! n = Some nd -> node_ok (mounts s) P nd;
  ck_inj n1 n2 nd1 nd2 : nodes s !! n1 = Some nd1 -> nodes s !! n2 = Some nd2 ->
    key_of nd1 = key_of nd2 -> n1 = n2;
  ck_pin k : k ∈ P -> exists n nd, nodes s !! n = Some nd /\ key_of nd = k;
  ck_buckets : length (node_list s) = Z.to_nat VFS_NODE_HASH_SIZE;
  ck_hash h l : node_list s !! h = Some l ->
    NoDup l /\ forall n, n ∈ l <-> exists nd, nodes s !! n = Some nd /\ hash_of nd = h;
  ck_count m mt : mounts s !! m = Some mt -> m_refcnt (m_info mt) = s32 (mount_nodes m (nodes s));
  ck_size : Z.of_nat (size P) < 2 ^ 31;
}.

(** ** What an operation leaves alone

    Everything but the reference counts, the attributes of nodes and the flags and
    private data of mounts stays, for the nodes named in [K]. *)

Definition same_mount {D : Type} (mt mt' : vmount D) : Prop :=
  m_fs mt' = m_fs mt /\ m_dev (m_info mt') = m_dev (m_info mt) /\
  m_path (m_info mt') = m_path (m_info mt) /\
  m_root (m_info mt') = m_root (m_info mt) /\ m_covered (m_info mt') = m_covered (m_info mt).

Definition same_node (nd nd' : vnode) : Prop :=
  v_mount nd' = v_mount nd /\ v_path nd' = v_path nd /\ v_flags nd' = v_flags nd.

Record evolves {S D : Type} (K : gmultiset key) (s s' : vfs S D) : Prop := {
  ev_mnt_list : mnt_list s' = mnt_list s;
  ev_fd_file : fd_file s' = fd_file s;
  ev_fs_map : fs_map s' = fs_map s;
  ev_dom : dom (mounts s') = dom (mounts s);
  ev_mount m mt : mounts s !! m = Some mt -> exists mt', mounts s' !! m = Some mt' /\ same_mount mt mt';
  ev_node n nd : nodes s !! n = Some nd -> key_of nd ∈ K ->
    exists nd', nodes s' !! n = Some nd' /\ same_node nd nd';
}.

Lemma same_mount_refl {D : Type} (mt : vmount D) : same_mount mt mt.
Proof. by split_and!. Qed.
Lemma same_mount_trans {D : Type} (a b c : vmount D) : same_mount a b -> same_mount b c -> same_mount a c.
Proof. unfold same_mount. intros (? & ? & ? & ? & ?) (? & ? & ? & ? & ?). split_and!; congruence. Qed.
Lemma same_node_refl nd : same_node nd nd.
Proof. by split_and!. Qed.
Lemma same_node_trans a b c : same_node a b -> same_node b c -> same_node a c.
Proof. unfold same_node. intros (? & ? & ?) (? & ? & ?). split_and!; congruence. Qed.
Lemma same_node_key nd nd' : same_node nd nd' -> key_of nd' = key_of nd.
Proof. unfold key_of. by intros (-> & -> & _). Qed.

Lemma evolves_refl {S D : Type} K (s : vfs S D) : evolves K s s.
Proof. split; try done; eauto using same_mount_refl, same_node_refl. Qed.

Lemma evolves_trans {S D : Type} K1 K2 K (s1 s2 s3 : vfs S D) :
  evolves K1 s1 s2 -> evolves K2 s2 s3 -> (forall k, k ∈ K -> k ∈ K1 /\ k ∈ K2) -> evolves K s1 s3.
Proof.
  intros [] [] HK. split; try congruence.
  - intros m mt Hm. destruct (ev_mount0 _ _ Hm) as (mt' & Hm' & ?).
    destruct (ev_mount1 _ _ Hm') as (mt'' & ? & ?). eauto using same_mount_trans.
  - intros n nd Hn Hk. destruct (HK _ Hk) as [Hk1 Hk2].
    destruct (ev_node0 _ _ Hn Hk1) as (nd' & Hn' & Hs).
    destruct (ev_node1 _ _ Hn') as (nd'' & ? & ?); [by rewrite (same_node_key _ _ Hs)|].
    eauto using same_node_trans.
Qed.

Lemma evolves_sub {S D : Type} K K' (s s' : vfs S D) : evolves K s s' -> (forall k, k ∈ K' -> k ∈ K) -> evolves K' s s'.
Proof. intros [] HK. split; try done. intros n nd Hn Hk. by apply ev_node0, HK. Qed.

(** ** Counting *)

Lemma mount_nodes_insert_new m n nd ns :
  ns !! n = None -> mount_nodes m (<[n := nd]> ns) = mount_nodes m ns + (if decide (v_mount nd = m) then 1 else 0).
Proof.
  intros Hn. unfold mount_nodes. destruct (decide (v_mount nd = m)) as [E|E].
  - rewrite map_filter_insert_True by done. rewrite map_size_insert_None; [lia|].
    rewrite map_lookup_filter_None. by left.
  - rewrite map_filter_insert_False by done. rewrite delete_id by done. lia.
Qed.

Lemma mount_nodes_delete m n nd ns :
  ns !! n = Some nd -> mount_nodes m (delete n ns) = mount_nodes m ns - (if decide (v_mount nd = m) then 1 else 0).
Proof.
  intros Hn. pose proof (mount_nodes_insert_new m n nd (delete n ns) (lookup_delete_eq _ _)) as E.
  rewrite insert_delete_id in E by done. lia.
Qed.

Lemma mount_nodes_insert m n nd nd' ns :
  ns !! n = Some nd -> v_mount nd' = v_mount nd -> mount_nodes m (<[n := nd']> ns) = mount_nodes m ns.
Proof.
  intros Hn E. rewrite <- insert_delete_eq, mount_nodes_insert_new by apply lookup_delete_eq.
  rewrite (mount_nodes_delete m n nd) by done. rewrite E. lia.
Qed.

Lemma s32_add a b : s32 (s32 a + b) = s32 (a + b).
Proof.
  unfold s32, swrap. f_equal.
  replace ((a + 2 ^ (32 - 1)) mod 2 ^ 32 - 2 ^ (32 - 1) + b + 2 ^ (32 - 1))
    with ((a + 2 ^ (32 - 1)) mod 2 ^ 32 + b) by lia.
  rewrite Zplus_mod_idemp_l. f_equal. lia.
Qed.

Lemma multiplicity_le_size (k : key) (P : gmultiset key) : (multiplicity k P <= size P)%nat.
Proof.
  destruct (decide (k ∈ P)) as [Hk|Hk].
  - induction P as [|x P IH] using gmultiset_ind; [by apply gmultiset_elem_of_empty in Hk|].
    rewrite multiplicity_disj_union, gmultiset_size_disj_union, gmultiset_size_singleton, multiplicity_singleton.
    destruct (decide (k ∈ P)) as [HP|HP]; [specialize (IH HP); case_decide; lia|].
    rewrite not_elem_of_multiplicity in HP. case_decide; lia.
  - rewrite not_elem_of_multiplicity in Hk. lia.
Qed.

Lemma vfs_node_hash_range m path : 0 <= vfs_node_hash m path < VFS_NODE_HASH_SIZE.
Proof.
  unfold vfs_node_hash, VFS_NODE_HASH_SIZE. change (256 - 1) with (Z.ones 8).
  rewrite Z.land_ones by lia. apply Z.mod_pos_bound. lia.
Qed.

Lemma remove_ptr_elem p q l : q ∈ remove_ptr p l <-> q <> p /\ q ∈ l.
Proof. unfold remove_ptr. by rewrite list_elem_of_filter. Qed.

Lemma remove_ptr_NoDup p l : NoDup l -> NoDup (remove_ptr p l).
Proof. apply NoDup_filter. Qed.

Section cache.
Context {S D : Type} `{KernelAlloc S} (X : gset Z) (I : D -> Prop).
Implicit Types (s : vfs S D) (P : gmultiset key).
Abbreviation cache_ok := (cache_ok X I).

Lemma cache_refcnt P s n nd :
  cache_ok P s -> nodes s !! n = Some nd -> 0 < v_refcnt nd < 2 ^ 31.
Proof.
  intros Hc Hn. pose proof (ck_node _ _ _ _ Hc _ _ Hn) as [Hr Hp _ _ _].
  rewrite elem_of_multiplicity in Hp. pose proof (multiplicity_le_size (key_of nd) P).
  pose proof (ck_size _ _ _ _ Hc). lia.
Qed.

Lemma cache_bucket P s m path :
  cache_ok P s -> exists l, node_list s !! Z.to_nat (vfs_node_hash m path) = Some l.
Proof.
  intros Hc. apply lookup_lt_is_Some. rewrite (ck_buckets _ _ _ _ Hc).
  pose proof (vfs_node_hash_range m path). lia.
Qed.

Lemma evolves_set_node K s n nd nd' :
  nodes s !! n = Some nd -> same_node nd nd' -> evolves K s (set_nodes s (<[n := nd']> (nodes s))).
Proof.
  intros Hn Hs. split; cbn; try done; [by eauto using same_mount_refl|].
  intros n' nd0 Hn' _. destruct (decide (n' = n)) as [->|Hne].
  - rewrite lookup_insert_eq. replace nd0 with nd by congruence. eauto.
  - rewrite lookup_insert_ne by done. eauto using same_node_refl.
Qed.

(** A node gets another count or other attributes. *)
Lemma cache_set_node_key P P' s n nd nd' :
  cache_ok P s -> nodes s !! n = Some nd -> v_mount nd' = v_mount nd -> v_path nd' = v_path nd ->
  attr_ok (v_attr nd') ->
  v_refcnt nd' = Z.of_nat (multiplicity (key_of nd) P') -> key_of nd ∈ P' ->
  (forall k, k <> key_of nd -> multiplicity k P' = multiplicity k P) -> Z.of_nat (size P') < 2 ^ 31 ->
  cache_ok P' (set_nodes s (<[n := nd']> (nodes s))).
Proof.
  intros Hc Hn Em Ep Ha Hr Hk Hm Hsz. assert (Ek : key_of nd' = key_of nd) by (unfold key_of; congruence).
  assert (Hdom : dom (<[n := nd']> (nodes s)) = dom (nodes s)).
  { rewrite dom_insert_L. apply elem_of_dom_2 in Hn. set_solver. }
  assert (Hlook : forall n' nd1, <[n := nd']> (nodes s) !! n' = Some nd1 ->
            exists nd0, nodes s !! n' = Some nd0 /\ key_of nd1 = key_of nd0 /\ hash_of nd1 = hash_of nd0).
  { intros n' nd1 [[-> ->]|[Hne Hn']]%lookup_insert_Some; [|by eauto]. exists nd. split_and!; [done..|].
    unfold hash_of. by rewrite Em, Ep. }
  destruct Hc. split; cbn; rewrite ?Hdom; try done.
  - split; [|by apply ck_null0]. rewrite lookup_insert_ne; [by apply ck_null0|].
    intros ->. by destruct ck_null0 as [? _]; congruence.
  - intros n' nd1 [[-> ->]|[Hne Hn']]%lookup_insert_Some.
    + destruct (ck_node0 _ _ Hn). split; [by rewrite Ek|by rewrite Ek|by rewrite Em|by rewrite Ep|done].
    + assert (key_of nd1 <> key_of nd) as Hkne by (intros E; by apply Hne, (ck_inj0 _ _ _ _ Hn Hn')).
      destruct (ck_node0 _ _ Hn') as [Hr1 Hp1 ? ? ?]. split; try done; [by rewrite Hm|].
      rewrite elem_of_multiplicity. rewrite Hm by done. by rewrite elem_of_multiplicity in Hp1.
  - intros n1 n2 nd1 nd2 H1 H2 E. apply Hlook in H1 as (? & H1 & E1 & _). apply Hlook in H2 as (? & H2 & E2 & _).
    eapply ck_inj0; [done..|]. congruence.
  - intros k Hk'. destruct (decide (k = key_of nd)) as [->|Hne].
    { exists n, nd'. by rewrite lookup_insert_eq. }
    destruct (ck_pin0 k) as (n1 & nd1 & Hn1 & E1).
    { rewrite elem_of_multiplicity. rewrite <- Hm by done. by rewrite elem_of_multiplicity in Hk'. }
    exists n1, nd1. rewrite lookup_insert_ne; [done|]. intros ->. congruence.
  - intros h l Hl. destruct (ck_hash0 h l Hl) as [Hnd Hl']. split; [done|]. intros n'. rewrite Hl'. split.
    + intros (nd1 & Hn1 & Eh). destruct (decide (n' = n)) as [->|Hne].
      * exists nd'. rewrite lookup_insert_eq. split; [done|]. replace nd1 with nd in Eh by congruence.
        rewrite <- Eh. unfold hash_of. by rewrite Em, Ep.
      * exists nd1. by rewrite lookup_insert_ne.
    + intros (nd1 & Hn1 & Eh). apply Hlook in Hn1 as (nd0 & Hn0 & _ & E0). exists nd0. by rewrite <- E0.
  - intros m mt Hmt. rewrite (mount_nodes_insert m n nd); auto.
Qed.

Lemma cache_set_node P P' s n nd nd' :
  cache_ok P s -> nodes s !! n = Some nd -> same_node nd nd' -> attr_ok (v_attr nd') ->
  v_refcnt nd' = Z.of_nat (multiplicity (key_of nd) P') -> key_of nd ∈ P' ->
  (forall k, k <> key_of nd -> multiplicity k P' = multiplicity k P) -> Z.of_nat (size P') < 2 ^ 31 ->
  cache_ok P' (set_nodes s (<[n := nd']> (nodes s))).
Proof. intros Hc Hn (Em & Ep & _). by apply cache_set_node_key. Qed.

(** A mount changes, but for its filesystem and its count. *)
Lemma cache_set_mount P s m mt mt' :
  cache_ok P s -> mounts s !! m = Some mt -> m_fs mt' = m_fs mt -> m_refcnt (m_info mt') = m_refcnt (m_info mt) ->
  cache_ok P (set_mounts s (<[m := mt']> (mounts s))).
Proof.
  intros Hc Hm Ef Er. assert (Hdom : dom (<[m := mt']> (mounts s)) = dom (mounts s)).
  { rewrite dom_insert_L. apply elem_of_dom_2 in Hm. set_solver. }
  destruct Hc. split; cbn; rewrite ?Hdom; try done.
  - split; [apply ck_null0|]. rewrite lookup_insert_ne; [apply ck_null0|]. intros ->. destruct ck_null0. congruence.
  - intros m' mt1 [[-> ->]|[_ Hm']]%lookup_insert_Some; [rewrite Ef|]; by eapply ck_fs0.
  - intros n nd Hn. destruct (ck_node0 _ _ Hn). split; try done. rewrite <- elem_of_dom, Hdom. by apply elem_of_dom.
  - intros m' mt1 [[-> ->]|[_ Hm']]%lookup_insert_Some; [rewrite Er|]; by eapply ck_count0.
Qed.

Lemma evolves_set_mount K s m mt mt' :
  mounts s !! m = Some mt -> same_mount mt mt' -> evolves K s (set_mounts s (<[m := mt']> (mounts s))).
Proof.
  intros Hm Hs. split; cbn; try done.
  - rewrite dom_insert_L. apply elem_of_dom_2 in Hm. set_solver.
  - intros m' mt1 Hm'. destruct (decide (m' = m)) as [->|].
    + rewrite lookup_insert_eq. replace mt1 with mt by congruence. by eauto.
    + rewrite lookup_insert_ne by done. eauto using same_mount_refl.
  - eauto using same_node_refl.
Qed.

(** The filesystems change their state. *)
Lemma cache_set_fsd P s d : cache_ok P s -> I d -> cache_ok P (set_fsd s d).
Proof. intros [] Hd. split; try done. Qed.

Lemma evolves_set_fsd K s d : evolves K s (set_fsd s d).
Proof. split; cbn; try done; eauto using same_mount_refl, same_node_refl. Qed.

(** ** Callbacks *)

(** The nodes of [s] are in [s'] with the same names and counts. *)
Definition kept s s' : Prop :=
  forall n nd, nodes s !! n = Some nd ->
    exists nd', nodes s' !! n = Some nd' /\ same_node nd nd' /\ v_refcnt nd' = v_refcnt nd.

Lemma kept_trans s1 s2 s3 : kept s1 s2 -> kept s2 s3 -> kept s1 s3.
Proof.
  intros H1 H2 n nd Hn. destruct (H1 _ _ Hn) as (nd' & Hn' & ? & ?).
  destruct (H2 _ _ Hn') as (nd'' & ? & ? & ?). exists nd''. split_and!; [done|by eapply same_node_trans|congruence].
Qed.

(** The new attributes of a node that was read in state [s0]. *)
Lemma put_attr_spec P s0 s n nd a :
  cache_ok P s -> kept s0 s -> nodes s0 !! n = Some nd -> attr_ok a ->
  wp never (put_node n (set_attr nd a)) (fun _ s' => cache_ok P s' /\ evolves P s s' /\ kept s0 s') s.
Proof.
  intros Hc Hk Hn Ha. destruct (Hk _ _ Hn) as (nd' & Hn' & Hs & Hr).
  assert (Hs' : same_node nd' (set_attr nd a)) by (destruct Hs as (? & ? & ?); by split_and!).
  pose proof (ck_node _ _ _ _ Hc _ _ Hn') as Hnd. cbn. split_and!.
  - eapply cache_set_node; cbn; try done; [|by destruct Hnd|by apply ck_size in Hc].
    rewrite <- Hr. by destruct Hnd.
  - by eapply evolves_set_node.
  - intros n1 nd1 Hn1. destruct (Hk _ _ Hn1) as (nd1' & Hn1' & Hs1 & Hr1). cbn.
    destruct (decide (n1 = n)) as [->|Hne].
    + rewrite lookup_insert_eq. replace nd1 with nd by congruence. eexists. by split_and!.
    + rewrite lookup_insert_ne by done. by eauto.
Qed.

Lemma set_fsd_kept P s d : cache_ok P s -> I d ->
  cache_ok P (set_fsd s d) /\ evolves P s (set_fsd s d) /\ kept s (set_fsd s d).
Proof.
  intros Hc Hd. split_and!; [by apply cache_set_fsd|apply evolves_set_fsd|].
  intros n nd Hn. exists nd. by split_and!.
Qed.

Lemma evolves_trans' P s1 s2 s3 : evolves P s1 s2 -> evolves P s2 s3 -> evolves P s1 s3.
Proof. intros H1 H2. by eapply evolves_trans; [exact H1|exact H2|]. Qed.

Lemma call1_spec {A} P s m mt n nd (op : filesystem_t D -> op1 D A) :
  cache_ok P s -> mounts s !! m = Some mt -> nodes s !! n = Some nd -> op1_ok I (op (m_fs mt)) ->
  wp never (call1 mt op n) (fun _ s' => cache_ok P s' /\ evolves P s s' /\ kept s s') s.
Proof.
  intros Hc Hm Hn Hop. pose proof (ck_node _ _ _ _ Hc _ _ Hn) as Hnd.
  destruct (Hop (m_info mt) nd (vs_fsd s)) as (r & a & d & E & Ha & Hd); [by destruct Hnd|by apply ck_fsd in Hc|].
  destruct (set_fsd_kept P s d Hc Hd) as (Hc1 & He1 & Hk1).
  unfold call1. eapply wp_get_node; [done|]. unfold vbind at 1. unfold wp, vget. fold (@wp S D A). rewrite E. cbn [vlift].
  change (wp never (vbind (put_node n (set_attr nd a)) (fun _ => vret r))
    (fun _ s' => cache_ok P s' /\ evolves P s s' /\ kept s s') (set_fsd s d)).
  eapply wp_then; [by eapply put_attr_spec|]. intros _ s2 (Hc2 & He2 & Hk2). apply wp_ret.
  split_and!; [done|by eapply evolves_trans'|done].
Qed.

Lemma call2_spec {A} P s m mt n1 n2 nd1 nd2 (op : filesystem_t D -> op2 D A) :
  cache_ok P s -> mounts s !! m = Some mt -> nodes s !! n1 = Some nd1 -> nodes s !! n2 = Some nd2 ->
  op2_ok I (op (m_fs mt)) ->
  wp never (call2 mt op n1 n2) (fun _ s' => cache_ok P s' /\ evolves P s s' /\ kept s s') s.
Proof.
  intros Hc Hm Hn1 Hn2 Hop.
  pose proof (ck_node _ _ _ _ Hc _ _ Hn1) as Hnd1. pose proof (ck_node _ _ _ _ Hc _ _ Hn2) as Hnd2.
  destruct (Hop (m_info mt) nd1 nd2 (vs_fsd s)) as (r & a1 & a2 & d & E & Ha1 & Ha2 & Hd);
    [by destruct Hnd1|by destruct Hnd2|by apply ck_fsd in Hc|].
  destruct (set_fsd_kept P s d Hc Hd) as (Hc1 & He1 & Hk1).
  unfold call2. eapply wp_get_node; [done|]. eapply wp_get_node; [done|].
  unfold vbind at 1. unfold wp, vget. rewrite E. cbn [vlift].
  change (wp never (vbind (put_node n1 (set_attr nd1 a1)) (fun _ => vbind (put_node n2 (set_attr nd2 a2)) (fun _ => vret r)))
    (fun _ s' => cache_ok P s' /\ evolves P s s' /\ kept s s') (set_fsd s d)).
  eapply wp_then; [by eapply put_attr_spec|]. intros _ s2 (Hc2 & He2 & Hk2).
  eapply wp_then; [by eapply put_attr_spec|]. intros _ s3 (Hc3 & He3 & Hk3). apply wp_ret.
  split_and!; [done|by eauto using evolves_trans'|done].
Qed.

Lemma call3_spec {A} P s m mt n1 n2 n3 nd1 nd2 nd3 (op : filesystem_t D -> op3 D A) :
  cache_ok P s -> mounts s !! m = Some mt -> nodes s !! n1 = Some nd1 -> nodes s !! n2 = Some nd2 ->
  nodes s !! n3 = Some nd3 -> op3_ok I (op (m_fs mt)) ->
  wp never (call3 mt op n1 n2 n3) (fun _ s' => cache_ok P s' /\ evolves P s s' /\ kept s s') s.
Proof.
  intros Hc Hm Hn1 Hn2 Hn3 Hop.
  pose proof (ck_node _ _ _ _ Hc _ _ Hn1) as Hnd1. pose proof (ck_node _ _ _ _ Hc _ _ Hn2) as Hnd2.
  pose proof (ck_node _ _ _ _ Hc _ _ Hn3) as Hnd3.
  destruct (Hop (m_info mt) nd1 nd2 nd3 (vs_fsd s)) as (r & a1 & a2 & a3 & d & E & Ha1 & Ha2 & Ha3 & Hd);
    [by destruct Hnd1|by destruct Hnd2|by destruct Hnd3|by apply ck_fsd in Hc|].
  destruct (set_fsd_kept P s d Hc Hd) as (Hc1 & He1 & Hk1).
  unfold call3. do 3 (eapply wp_get_node; [done|]).
  unfold vbind at 1. unfold wp, vget. rewrite E. cbn [vlift].
  change (wp never (vbind (put_node n1 (set_attr nd1 a1)) (fun _ => vbind (put_node n2 (set_attr nd2 a2)) (fun _ =>
      vbind (put_node n3 (set_attr nd3 a3)) (fun _ => vret r))))
    (fun _ s' => cache_ok P s' /\ evolves P s s' /\ kept s s') (set_fsd s d)).
  eapply wp_then; [by eapply put_attr_spec|]. intros _ s2 (Hc2 & He2 & Hk2).
  eapply wp_then; [by eapply put_attr_spec|]. intros _ s3 (Hc3 & He3 & Hk3).
  eapply wp_then; [by eapply put_attr_spec|]. intros _ s4 (Hc4 & He4 & Hk4). apply wp_ret.
  split_and!; [done|by eauto using evolves_trans'|done].
Qed.

(** ** References to a node in memory *)

Lemma vfs_node_ref_spec P s n nd :
  cache_ok P s -> nodes s !! n = Some nd -> Z.of_nat (size P) + 1 < 2 ^ 31 ->
  wp never (vfs_node_ref n) (fun _ s' => cache_ok ({[+ key_of nd +]} ⊎ P) s' /\ evolves P s s') s.
Proof.
  intros Hc Hn Hsz. unfold vfs_node_ref. eapply wp_get_node; [done|]. apply wp_put_node.
  pose proof (ck_node _ _ _ _ Hc _ _ Hn) as [Hr Hp _ _ Ha].
  pose proof (multiplicity_le_size (key_of nd) P).
  split; [|by eapply evolves_set_node].
  eapply cache_set_node; [done|done|done|done|..]; cbn [v_refcnt set_refcnt].
  - rewrite s32_small by lia. rewrite multiplicity_disj_union, multiplicity_singleton_eq. lia.
  - multiset_solver.
  - intros k Hk. rewrite multiplicity_disj_union, multiplicity_singleton_ne; [done|done].
  - rewrite gmultiset_size_disj_union, gmultiset_size_singleton. lia.
Qed.

Lemma strncmp_eq_short a b :
  Z.of_nat (length a) < VFS_MAX_PATH -> Z.of_nat (length b) < VFS_MAX_PATH ->
  strncmp_eq a b VFS_MAX_PATH = bool_decide (a = b).
Proof.
  intros Ha Hb. unfold strncmp_eq. rewrite !take_ge by lia. done.
Qed.

Lemma lookup_loop_spec P s m path l :
  cache_ok P s -> Z.of_nat (length path) < VFS_MAX_PATH ->
  (forall n, n ∈ l -> exists nd, nodes s !! n = Some nd) ->
  exists n, lookup_loop m path l s = inl (n, s) /\
    ((n = 0 /\ forall n' nd', n' ∈ l -> nodes s !! n' = Some nd' -> key_of nd' <> (m, path)) \/
     exists nd, n ∈ l /\ nodes s !! n = Some nd /\ key_of nd = (m, path)).
Proof.
  intros Hc Hp. induction l as [|n l IH]; intros Hl.
  { exists 0. split; [done|]. left. split; [done|]. by intros ? ? ?%elem_of_nil. }
  destruct (Hl n) as (nd & Hn); [left|]. cbn. unfold vbind, get_node. rewrite Hn.
  pose proof (nk_path _ _ _ (ck_node _ _ _ _ Hc _ _ Hn)) as [_ Hlen].
  rewrite strncmp_eq_short by done.
  destruct ((v_mount nd =? m) && bool_decide (v_path nd = path)) eqn:E.
  - apply andb_true_iff in E as [Em Ep]. apply Z.eqb_eq in Em. apply bool_decide_eq_true in Ep.
    exists n. split; [done|]. right. exists nd. split_and!; [left|done|]. unfold key_of. by subst.
  - destruct IH as (n' & -> & Hor); [by intros n' Hn'; apply Hl; right|]. exists n'. split; [done|].
    destruct Hor as [[-> Hor]|(nd' & Hin & ? & ?)]; [left|right; exists nd'; split_and!; [by right|done..]].
    split; [done|]. intros n' nd' [->|Hin]%elem_of_cons Hn'; [|by eapply Hor].
    replace nd' with nd by congruence. intros [= Em Ep]. subst. by rewrite Z.eqb_refl, bool_decide_eq_true_2 in E.
Qed.

Lemma vfs_node_lookup_spec P s m path :
  cache_ok P s -> Z.of_nat (length path) < VFS_MAX_PATH -> Z.of_nat (size P) + 1 < 2 ^ 31 ->
  wp never (vfs_node_lookup m path) (fun n s' =>
    (n = 0 /\ s' = s /\ (m, path) ∉ P) \/
    (n <> 0 /\ (m, path) ∈ P /\ (exists nd, nodes s' !! n = Some nd /\ key_of nd = (m, path)) /\
     cache_ok ({[+ (m, path) +]} ⊎ P) s' /\ evolves P s s')) s.
Proof.
  intros Hc Hp Hsz. unfold vfs_node_lookup. destruct (cache_bucket P s m path Hc) as [l Hl].
  eapply wp_get_bucket; [done|]. destruct (ck_hash _ _ _ _ Hc _ _ Hl) as [_ Hin].
  destruct (lookup_loop_spec P s m path l Hc Hp) as (n & E & Hor).
  { intros n Hn. apply Hin in Hn as (nd & ? & _). by exists nd. }
  apply wp_bind. unfold wp at 1. rewrite E. destruct Hor as [[-> Hno]|(nd & _ & Hn & Ek)].
  - apply wp_ret. left. split_and!; [done|done|]. intros (n & nd & Hn & Ek)%(ck_pin _ _ _ _ Hc).
    eapply (Hno n nd); [|done|done]. apply Hin. exists nd. split; [done|].
    unfold hash_of. unfold key_of in Ek. by injection Ek as -> ->.
  - assert (n <> 0) as H0. { intros ->. pose proof (ck_null _ _ _ _ Hc) as [? _]. congruence. }
    rewrite (proj2 (Z.eqb_neq n 0) H0).
    eapply wp_then; [by eapply vfs_node_ref_spec|]. intros _ s' [Hc' He]. apply wp_ret. right.
    pose proof (ck_node _ _ _ _ Hc _ _ Hn) as [_ Hpin _ _ _]. rewrite Ek in *.
    split_and!; [done|done| |done|done].
    destruct (ev_node _ _ _ He n nd Hn) as (nd' & Hn' & Hs); [by rewrite Ek|].
    exists nd'. split; [done|]. by rewrite (same_node_key _ _ Hs).
Qed.

(** ** Nodes that come and go *)

Lemma hash_of_key nd nd' : key_of nd = key_of nd' -> hash_of nd = hash_of nd'.
Proof. unfold key_of, hash_of. by intros [= -> ->]. Qed.

Lemma cache_set_alloc P s a :
  cache_ok P s -> al_inv a (X ∪ (dom (nodes s) ∪ dom (mounts s))) -> cache_ok P (set_alloc s a).
Proof. intros [] Ha. by split. Qed.

Lemma evolves_set_alloc K s a : evolves K s (set_alloc s a).
Proof. split; cbn; try done; eauto using same_mount_refl, same_node_refl. Qed.

(** The state with the node [n] added to, or removed from, mount [m] and bucket [h]. *)
Definition with_node_at s a d (ns : gmap Z vnode) (m v : Z) (h : nat) (l : list Z) : vfs S D :=
  mkVfs a d ns
    (alter (fun mt => mkMount (m_fs mt) (set_mrefcnt (m_info mt) (s32 (m_refcnt (m_info mt) + v)))) m (mounts s))
    (mnt_list s) (fd_file s) (<[h := l]> (node_list s)) (fs_map s).

Lemma with_node_mounts s a d ns m v h l m' mt' :
  mounts (with_node_at s a d ns m v h l) !! m' = Some mt' ->
  exists mt, mounts s !! m' = Some mt /\ same_mount mt mt' /\
    m_refcnt (m_info mt') = if decide (m = m') then s32 (m_refcnt (m_info mt) + v) else m_refcnt (m_info mt).
Proof.
  cbn. destruct (decide (m = m')) as [->|Hne].
  - rewrite lookup_alter_eq. destruct (mounts s !! m') as [mt|]; [|done]. intros [= <-]. exists mt. by split_and!.
  - rewrite lookup_alter_ne by done. intros ->. exists mt'. by split_and!.
Qed.

Lemma cache_add_node P s a d n nd mt h l :
  cache_ok P s -> I d ->
  nodes s !! n = None -> mounts s !! n = None -> n <> 0 -> n ∉ X ->
  al_inv a ({[n]} ∪ (X ∪ (dom (nodes s) ∪ dom (mounts s)))) ->
  key_of nd ∉ P -> v_refcnt nd = 1 -> node_path (v_path nd) -> attr_ok (v_attr nd) ->
  mounts s !! v_mount nd = Some mt -> h = hash_of nd -> node_list s !! h = Some l ->
  Z.of_nat (size P) + 1 < 2 ^ 31 ->
  cache_ok ({[+ key_of nd +]} ⊎ P) (with_node_at s a d (<[n := nd]> (nodes s)) (v_mount nd) 1 h (n :: l)).
Proof.
  intros Hc Hd Hn Hnm Hn0 HnX Ha Hk Hr Hp Hat Hmt -> Hl Hsz.
  pose proof (fun m' mt' => with_node_mounts s a d (<[n := nd]> (nodes s)) (v_mount nd) 1 (hash_of nd) (n :: l) m' mt') as Hms.
  assert (Hdm : forall m, is_Some (mounts s !! m) -> is_Some (mounts (with_node_at s a d (<[n := nd]> (nodes s)) (v_mount nd) 1 (hash_of nd) (n :: l)) !! m)).
  { intros m Hm. cbn. by rewrite lookup_alter_is_Some. }
  destruct Hc. split; cbn [nodes mounts vs_alloc vs_fsd node_list with_node_at] in *; rewrite ?dom_insert_L, ?dom_alter_L.
  - by replace (X ∪ ({[n]} ∪ dom (nodes s) ∪ dom (mounts s))) with ({[n]} ∪ (X ∪ (dom (nodes s) ∪ dom (mounts s)))) by set_solver.
  - apply not_elem_of_dom in Hn, Hnm. set_solver.
  - split; [by rewrite lookup_insert_ne; [apply ck_null0|]|]. destruct ck_null0. by rewrite lookup_alter_None.
  - done.
  - intros m' mt' (mt0 & Hm0 & (-> & _) & _)%Hms. by eapply ck_fs0.
  - intros n' nd' [[-> ->]|[Hne Hn']]%lookup_insert_Some.
    + split; try done; [|multiset_solver|by apply Hdm].
      rewrite multiplicity_disj_union, multiplicity_singleton_eq. rewrite not_elem_of_multiplicity in Hk. lia.
    + destruct (ck_node0 _ _ Hn') as [Hr' Hp' ? ? ?].
      split; try done; [|multiset_solver|by apply Hdm].
      rewrite multiplicity_disj_union, multiplicity_singleton_ne; [done|]. intros E. by rewrite E in Hp'.
  - intros n1 n2 nd1 nd2 [[<- <-]|[? H1]]%lookup_insert_Some [[<- <-]|[? H2]]%lookup_insert_Some E; [done| | |by eauto].
    + destruct (ck_node0 _ _ H2). congruence.
    + destruct (ck_node0 _ _ H1). congruence.
  - intros k. rewrite gmultiset_elem_of_disj_union, gmultiset_elem_of_singleton. intros [->|Hk'].
    + exists n, nd. by rewrite lookup_insert_eq.
    + destruct (ck_pin0 k Hk') as (n' & nd' & Hn' & E). exists n', nd'. rewrite lookup_insert_ne; [done|congruence].
  - by rewrite length_insert.
  - intros h' l' Hl'. apply list_lookup_insert_Some in Hl' as [(<- & <- & _)|(Hne & Hl')].
    + destruct (ck_hash0 _ _ Hl) as [Hnd Hin]. split.
      { apply NoDup_cons. split; [|done]. rewrite Hin. intros (? & ? & _). congruence. }
      intros n'. rewrite elem_of_cons, Hin. split.
      * intros [->|(nd' & Hn' & E)]; [exists nd; by rewrite lookup_insert_eq|].
        exists nd'. rewrite lookup_insert_ne; [done|congruence].
      * intros (nd' & [[-> ->]|[? Hn']]%lookup_insert_Some & E); [by left|right; by exists nd'].
    + destruct (ck_hash0 _ _ Hl') as [Hnd Hin]. split; [done|]. intros n'. rewrite Hin. split.
      * intros (nd' & Hn' & E). exists nd'. rewrite lookup_insert_ne; [done|congruence].
      * intros (nd' & [[-> ->]|[? Hn']]%lookup_insert_Some & E); [by subst|by exists nd'].
  - intros m' mt' (mt0 & Hm0 & _ & ->)%Hms. rewrite mount_nodes_insert_new by done.
    rewrite (ck_count0 _ _ Hm0). case_decide; [by rewrite s32_add|by rewrite Z.add_0_r].
  - rewrite gmultiset_size_disj_union, gmultiset_size_singleton. lia.
Qed.

Lemma cache_del_node P s a d n nd h l :
  cache_ok ({[+ key_of nd +]} ⊎ P) s -> I d -> nodes s !! n = Some nd ->
  al_inv a ((X ∪ (dom (nodes s) ∪ dom (mounts s))) ∖ {[n]}) ->
  key_of nd ∉ P -> h = hash_of nd -> node_list s !! h = Some l ->
  cache_ok P (with_node_at s a d (delete n (nodes s)) (v_mount nd) (-1) h (remove_ptr n l)).
Proof.
  intros Hc Hd Hn Ha Hk -> Hl.
  pose proof (fun m' mt' => with_node_mounts s a d (delete n (nodes s)) (v_mount nd) (-1) (hash_of nd) (remove_ptr n l) m' mt') as Hms.
  assert (Hdm : forall m, is_Some (mounts s !! m) -> is_Some (mounts (with_node_at s a d (delete n (nodes s)) (v_mount nd) (-1) (hash_of nd) (remove_ptr n l)) !! m)).
  { intros m Hm. cbn. by rewrite lookup_alter_is_Some. }
  assert (Hother : forall n' nd', nodes s !! n' = Some nd' -> n' <> n -> key_of nd' <> key_of nd).
  { intros n' nd' Hn' Hne E. apply Hne. by eapply (ck_inj _ _ _ _ Hc). }
  destruct Hc. split; cbn [nodes mounts vs_alloc vs_fsd node_list with_node_at] in *; rewrite ?dom_delete_L, ?dom_alter_L.
  - apply elem_of_dom_2 in Hn. replace (X ∪ (dom (nodes s) ∖ {[n]} ∪ dom (mounts s))) with ((X ∪ (dom (nodes s) ∪ dom (mounts s))) ∖ {[n]}); [done|].
    set_solver.
  - set_solver.
  - split; [by rewrite lookup_delete_None; right; apply ck_null0|]. destruct ck_null0. by rewrite lookup_alter_None.
  - done.
  - intros m' mt' (mt0 & Hm0 & (-> & _) & _)%Hms. by eapply ck_fs0.
  - intros n' nd' [Hne Hn']%lookup_delete_Some. pose proof (Hother _ _ Hn' (not_eq_sym Hne)) as Hkn.
    destruct (ck_node0 _ _ Hn') as [Hr' Hp' ? ? ?].
    split; try done; [|multiset_solver|by apply Hdm].
    by rewrite multiplicity_disj_union, multiplicity_singleton_ne in Hr'.
  - intros n1 n2 nd1 nd2 [? H1]%lookup_delete_Some [? H2]%lookup_delete_Some E. by eauto.
  - intros k Hk'. destruct (ck_pin0 k) as (n' & nd' & Hn' & E); [multiset_solver|]. exists n', nd'.
    rewrite lookup_delete_ne; [done|]. intros ->. congruence.
  - by rewrite length_insert.
  - intros h' l' Hl'. apply list_lookup_insert_Some in Hl' as [(<- & <- & _)|(Hne & Hl')].
    + destruct (ck_hash0 _ _ Hl) as [Hnd Hin]. split; [by apply remove_ptr_NoDup|].
      intros n'. rewrite remove_ptr_elem, Hin. split.
      * intros [? (nd' & Hn' & E)]. exists nd'. by rewrite lookup_delete_ne.
      * intros (nd' & [? Hn']%lookup_delete_Some & E). split; [done|by exists nd'].
    + destruct (ck_hash0 _ _ Hl') as [Hnd Hin]. split; [done|]. intros n'. rewrite Hin. split.
      * intros (nd' & Hn' & E). exists nd'. rewrite lookup_delete_ne; [done|congruence].
      * intros (nd' & [? Hn']%lookup_delete_Some & E). by exists nd'.
  - intros m' mt' (mt0 & Hm0 & _ & ->)%Hms. rewrite (mount_nodes_delete m' n nd) by done.
    rewrite (ck_count0 _ _ Hm0). case_decide; [by rewrite s32_add|by rewrite Z.sub_0_r].
  - rewrite gmultiset_size_disj_union, gmultiset_size_singleton in ck_size0. lia.
Qed.

Lemma evolves_with_node K s a d ns m v h l :
  (forall n nd, nodes s !! n = Some nd -> key_of nd ∈ K -> ns !! n = Some nd) ->
  evolves K s (with_node_at s a d ns m v h l).
Proof.
  intros Hns. split; cbn; try done; [by rewrite dom_alter_L| |eauto using same_node_refl].
  intros m' mt Hmt. destruct (decide (m = m')) as [->|Hne].
  - rewrite lookup_alter_eq, Hmt. eexists. by split_and!.
  - rewrite lookup_alter_ne by done. eauto using same_mount_refl.
Qed.

Lemma insert_alter_eq {A} (f : A -> A) (ms : gmap Z A) m x :
  ms !! m = Some x -> <[m := f x]> ms = alter f m ms.
Proof. intros Hm. apply map_eq. intros i.
  destruct (decide (i = m)) as [->|]; [by rewrite lookup_insert_eq, lookup_alter_eq, Hm|].
  by rewrite lookup_insert_ne, lookup_alter_ne. Qed.

Lemma vfs_node_get_spec P s m mt path :
  cache_ok P s -> mounts s !! m = Some mt -> node_path path -> (m, path) ∉ P ->
  Z.of_nat (size P) + 1 < 2 ^ 31 ->
  wp never (vfs_node_get m path) (fun n s' =>
    (n = 0 /\ cache_ok P s' /\ evolves P s s') \/
    (n <> 0 /\ nodes s !! n = None /\
     (exists nd, nodes s' !! n = Some nd /\ key_of nd = (m, path)) /\
     cache_ok ({[+ (m, path) +]} ⊎ P) s' /\ evolves P s s')) s.
Proof.
  intros Hc Hm Hp Hk Hsz. pose proof Hp as [_ Hlen]. unfold vfs_node_get.
  destruct (al_calloc_ok (vs_alloc s) _ sizeof_vfs_node (ck_alloc _ _ _ _ Hc)) as (a1 & n & E1 & Hor);
    [by unfold sizeof_vfs_node|].
  eapply wp_vcalloc; [exact E1|]. destruct Hor as [[-> ->]|(Hn0 & HnX & Ha1)].
  { apply wp_ret. left. split_and!; [done|by apply cache_set_alloc; [|apply Hc]|apply evolves_set_alloc]. }
  rewrite (proj2 (Z.eqb_neq n 0) Hn0). apply wp_set_node.
  unfold strlcpy_cut. rewrite (proj2 (Z.leb_gt _ _)) by lia.
  assert (nodes s !! n = None /\ mounts s !! n = None /\ n ∉ X) as (Hnn & Hnm & HnX').
  { rewrite !not_elem_of_union in HnX. destruct HnX as (? & ? & ?). by rewrite <- !not_elem_of_dom. }
  eapply wp_get_mount; [exact Hm|]. set (nd0 := mkNode m 1 path VNF_NONE attr0).
  destruct (ok_vget _ _ (ck_fs _ _ _ _ Hc _ _ Hm) (m_info mt) nd0 (vs_fsd s))
    as (err & at1 & d & E2 & Hat & Hd); [done|by apply ck_fsd in Hc|].
  eapply wp_call1; [apply lookup_insert_eq|exact E2|].
  destruct (Z.eqb_spec err 0) as [_|_]; cbn [negb].
  - eapply wp_mount_refcnt_add; [exact Hm|]. destruct (cache_bucket P s m path Hc) as [l Hl].
    eapply wp_get_bucket; [exact Hl|]. apply wp_set_bucket, wp_ret. right.
    unfold set_nodes, set_fsd, set_alloc, set_mounts, set_node_list.
    cbn [nodes mounts vs_alloc vs_fsd node_list mnt_list fd_file fs_map].
    rewrite insert_insert_eq, (insert_alter_eq (fun mt => mkMount (m_fs mt) (set_mrefcnt (m_info mt) (s32 (m_refcnt (m_info mt) + 1))))) by done.
    set (nd := set_attr nd0 at1). change path with (v_path nd) at 1. change m with (v_mount nd) at 1.
    split_and!; [done|done|exists nd; by rewrite lookup_insert_eq| |].
    + by apply (cache_add_node P s a1 d n nd mt (hash_of nd) l).
    + apply (evolves_with_node P s). intros n' nd' Hn' _. rewrite lookup_insert_ne; [done|congruence].
  - destruct (al_free_ok a1 _ n Ha1) as (a2 & E3 & Ha2); [set_solver|].
    eapply wp_free_node; [exact E3|]. apply wp_ret. left.
    unfold set_nodes, set_fsd, set_alloc. cbn [nodes mounts vs_alloc vs_fsd node_list mnt_list fd_file fs_map].
    rewrite insert_insert_eq, delete_insert_id by done. split_and!; [done| |].
    + apply (cache_set_alloc P (set_fsd s d)); [by apply cache_set_fsd|]. cbn.
      replace (X ∪ (dom (nodes s) ∪ dom (mounts s))) with (({[n]} ∪ (X ∪ (dom (nodes s) ∪ dom (mounts s)))) ∖ {[n]}); [done|set_solver].
    + eapply evolves_trans'; [apply (evolves_set_fsd P s d)|apply (evolves_set_alloc P (set_fsd s d) a2)].
Qed.

(** One pin on the node goes; with the last one, the node. *)
Lemma vfs_node_put_spec P s n nd :
  cache_ok ({[+ key_of nd +]} ⊎ P) s -> nodes s !! n = Some nd ->
  wp never (vfs_node_put n) (fun _ s' => cache_ok P s' /\ evolves P s s') s.
Proof.
  intros Hc Hn. unfold vfs_node_put. eapply wp_get_node; [done|].
  pose proof (cache_refcnt _ _ _ _ Hc Hn) as Hr0. rewrite s32_small by lia.
  pose proof (ck_node _ _ _ _ Hc _ _ Hn) as [Hr _ [mt Hmt] Hp Ha].
  rewrite multiplicity_disj_union, multiplicity_singleton_eq in Hr.
  apply wp_set_node. destruct (decide (key_of nd ∈ P)) as [Hin|Hout].
  - rewrite elem_of_multiplicity in Hin. rewrite (proj2 (Z.eqb_neq _ 0)) by lia. apply wp_ret.
    split; [|by eapply evolves_set_node].
    eapply cache_set_node; [done|done|done|done|..]; cbn [v_refcnt set_refcnt].
    + lia.
    + by rewrite elem_of_multiplicity.
    + intros k Hk. rewrite multiplicity_disj_union, multiplicity_singleton_ne; [done|done].
    + apply ck_size in Hc. rewrite gmultiset_size_disj_union, gmultiset_size_singleton in Hc. lia.
  - pose proof Hout as Hm0. rewrite not_elem_of_multiplicity in Hm0.
    replace (v_refcnt nd - 1) with 0 by lia. cbn [Z.eqb negb].
    destruct (cache_bucket _ s (v_mount nd) (v_path nd) Hc) as [l Hl].
    eapply wp_get_bucket; [exact Hl|]. apply wp_set_bucket. eapply wp_get_mount; [exact Hmt|].
    destruct (ok_vput _ _ (ck_fs _ _ _ _ Hc _ _ Hmt) (m_info mt) (set_refcnt nd 0) (vs_fsd s))
      as (err & at1 & d & E2 & Hat & Hd); [done|by apply ck_fsd in Hc|].
    eapply wp_call1; [apply lookup_insert_eq|exact E2|]. eapply wp_mount_refcnt_add; [exact Hmt|].
    destruct (al_free_ok (vs_alloc s) _ n (ck_alloc _ _ _ _ Hc)) as (a2 & E3 & Ha2).
    { apply elem_of_dom_2 in Hn. set_solver. }
    apply wp_last. eapply wp_free_node; [exact E3|]. apply wp_ret.
    unfold set_nodes, set_fsd, set_alloc, set_mounts, set_node_list.
    cbn [nodes mounts vs_alloc vs_fsd node_list mnt_list fd_file fs_map].
    rewrite insert_insert_eq, delete_insert_eq, (insert_alter_eq (fun mt => mkMount (m_fs mt) (set_mrefcnt (m_info mt) (s32 (m_refcnt (m_info mt) + -1))))) by done.
    split; [by apply (cache_del_node P s a2 d n nd (hash_of nd) l)|].
    apply (evolves_with_node P s). intros n' nd' Hn' Hk'. rewrite lookup_delete_ne; [done|]. intros <-.
    by replace nd' with nd in Hk' by congruence.
Qed.
End cache.
