(* ===== verification/VfsWalk.v ===== *)
(** * VfsWalk: taking and giving back the nodes of a path

    [vfs_node_acquire] pins the node of a path and all its ancestors up to the root
    of the mount; [vfs_node_release] removes exactly these pins.  The pins of a node
    with components [cs] on mount [m] are [chain m cs]. *)

From stdpp Require Import gmultiset.
From S2P Require Import Prelude CMem Alloc Vfs VfsPath VfsCache.

(** ** The pins of a path *)

Fixpoint ranc (m : Z) (rcs : list (list Z)) : gmultiset key :=
  match rcs with
  | [] => ∅
  | c :: r => {[+ (m, path_of (rev (c :: r))) +]} ⊎ ranc m r
  end.
Definition anc (m : Z) (cs : list (list Z)) : gmultiset key := ranc m (rev cs).
Definition chain (m : Z) (cs : list (list Z)) : gmultiset key := {[+ (m, [SLASH]) +]} ⊎ anc m cs.

Lemma anc_nil m : anc m [] = ∅.
Proof. done. Qed.

Lemma anc_snoc m cs c : anc m (cs ++ [c]) = {[+ (m, path_of (cs ++ [c])) +]} ⊎ anc m cs.
Proof.
  unfold anc. rewrite rev_app_distr. cbn [rev app ranc]. by rewrite rev_involutive.
Qed.

Lemma chain_snoc m cs c : chain m (cs ++ [c]) = {[+ (m, npath (cs ++ [c])) +]} ⊎ chain m cs.
Proof. unfold chain. rewrite anc_snoc, npath_snoc. multiset_solver. Qed.

Lemma chain_nil m : chain m [] = {[+ (m, npath []) +]}.
Proof. unfold chain. rewrite anc_nil. multiset_solver. Qed.

Lemma chain_self m cs : (m, npath cs) ∈ chain m cs.
Proof.
  destruct cs as [|c cs _] using rev_ind; [rewrite chain_nil|rewrite chain_snoc]; multiset_solver.
Qed.

Lemma chain_root m cs : (m, [SLASH]) ∈ chain m cs.
Proof. unfold chain. multiset_solver. Qed.

Lemma size_anc m cs : size (anc m cs) = length cs.
Proof.
  induction cs as [|c cs IH] using rev_ind; [done|].
  rewrite anc_snoc, gmultiset_size_disj_union, gmultiset_size_singleton, IH, length_app. cbn. lia.
Qed.

Lemma size_chain m cs : size (chain m cs) = Datatypes.S (length cs).
Proof. unfold chain. by rewrite gmultiset_size_disj_union, gmultiset_size_singleton, size_anc. Qed.

Lemma length_path_of cs : (length cs <= length (path_of cs))%nat.
Proof.
  induction cs as [|c cs IH]; [done|]. unfold path_of in *. cbn. rewrite length_app. lia.
Qed.

(** The components of a path. *)
Fixpoint comps (p cur : list Z) : list (list Z) :=
  match p with
  | [] => match cur with [] => [] | _ => [cur] end
  | b :: p =>
      if b =? SLASH then match cur with [] => comps p [] | _ => cur :: comps p [] end
      else comps p (cur ++ [b])
  end.

Lemma comps_skip p : comps (skip_slashes p) [] = comps p [].
Proof. induction p as [|b p IH]; [done|]. cbn. destruct (b =? SLASH) eqn:E; [done|]. cbn. by rewrite E. Qed.

Lemma comps_span c r cur :
  Forall (fun b => b <> SLASH) c -> cur ++ c <> [] -> (r = [] \/ chr r = SLASH) ->
  comps (c ++ r) cur = (cur ++ c) :: comps r [].
Proof.
  intros Hc. revert cur. induction Hc as [|b c Hb Hc IH]; intros cur Hne Hr.
  - rewrite app_nil_r in *. cbn. destruct r as [|b r]; cbn.
    + by destruct cur.
    + destruct Hr as [|Hr]; [done|]. cbn in Hr. subst b. cbn. by destruct cur.
  - cbn. rewrite (proj2 (Z.eqb_neq b SLASH) Hb). rewrite IH; [by rewrite <- app_assoc| |done].
    by rewrite <- app_assoc.
Qed.

Lemma comps_ok p cur :
  is_path p -> Forall (fun b => b <> SLASH /\ b <> 0) cur -> Forall is_comp (comps p cur).
Proof.
  intros Hp. revert cur. induction Hp as [|b p Hb Hp IH]; intros cur Hcur; cbn.
  - destruct cur; [by constructor|]. by apply Forall_singleton.
  - destruct (Z.eqb_spec b SLASH); [|apply IH, Forall_app; by auto].
    destruct cur; [by apply IH|]. constructor; [done|by apply IH].
Qed.

(** The mount [m] is complete: its root is in memory. *)
Definition rooted {S D : Type} (m : Z) (s : vfs S D) : Prop :=
  exists mt nd, mounts s !! m = Some mt /\ nodes s !! m_root (m_info mt) = Some nd /\ key_of nd = (m, [SLASH]).

Lemma rooted_evolves {S D : Type} K m (s s' : vfs S D) :
  rooted m s -> evolves K s s' -> (m, [SLASH]) ∈ K -> rooted m s'.
Proof.
  intros (mt & nd & Hm & Hn & Hk) He HK.
  destruct (ev_mount _ _ _ He _ _ Hm) as (mt' & Hm' & (_ & _ & _ & Er & _)).
  destruct (ev_node _ _ _ He _ _ Hn) as (nd' & Hn' & Hs); [by rewrite Hk|].
  exists mt', nd'. rewrite Er. split_and!; [done..|]. by rewrite (same_node_key _ _ Hs).
Qed.

Section walk.
Context {S D : Type} `{KernelAlloc S} (X : gset Z) (I : D -> Prop).
Implicit Types (s : vfs S D) (P : gmultiset key).
Abbreviation cache_ok := (cache_ok X I).

Lemma evolves_mono K K' s s' : evolves K s s' -> K' ⊆ K -> evolves K' s s'.
Proof. intros He HK. eapply evolves_sub; [done|]. intros k Hk. by eapply gmultiset_elem_of_subseteq. Qed.

(** Two operations in a row, for the pins that both leave alone. *)
Lemma evolves_then K1 K2 K s1 s2 s3 :
  evolves K1 s1 s2 -> evolves K2 s2 s3 -> K ⊆ K1 -> K ⊆ K2 -> evolves K s1 s3.
Proof.
  intros H1 H2 Hs1 Hs2. eapply evolves_trans; [done|done|].
  intros k Hk. split; by eapply gmultiset_elem_of_subseteq.
Qed.

Lemma cache_perm P P' s : cache_ok P s -> P = P' -> cache_ok P' s.
Proof. by intros ? <-. Qed.

Lemma in_l (k : key) (A B : gmultiset key) : k ∈ A -> k ∈ A ⊎ B.
Proof. rewrite gmultiset_elem_of_disj_union. by left. Qed.
Lemma in_r (k : key) (A B : gmultiset key) : k ∈ B -> k ∈ A ⊎ B.
Proof. rewrite gmultiset_elem_of_disj_union. by right. Qed.
Lemma sub_r (A B : gmultiset key) : B ⊆ A ⊎ B.
Proof. apply gmultiset_disj_union_subseteq_r. Qed.

(** ** [vfs_node_release] *)

Lemma release_loop_spec m cs : forall c fuel P s,
  (length cs < fuel)%nat -> Forall is_comp (cs ++ [c]) ->
  Z.of_nat (length (path_of (cs ++ [c]))) < VFS_MAX_PATH ->
  cache_ok (anc m cs ⊎ P) s -> Z.of_nat (size (anc m cs ⊎ P)) + 1 < 2 ^ 31 ->
  wp never (release_loop fuel m (path_of (cs ++ [c]))) (fun _ s' => cache_ok P s' /\ evolves P s s') s.
Proof.
  induction cs as [|c' cs IH] using rev_ind; intros c fuel P s Hf HF Hlen Hc Hsz;
    (destruct fuel as [|fuel]; [lia|]); cbn [release_loop];
    pose proof HF as HF0; apply Forall_app in HF0 as [HFcs HFc]; rewrite Forall_singleton in HFc;
    rewrite strrchr_path_of by done; rewrite take_path_of.
  - apply wp_ret. split; [|apply evolves_refl]. eapply cache_perm; [done|]. rewrite anc_nil. multiset_solver.
  - rewrite path_of_chr by by destruct cs. cbn [SLASH Z.eqb].
    assert (Hlen' : Z.of_nat (length (path_of (cs ++ [c']))) < VFS_MAX_PATH).
    { rewrite path_of_snoc, length_app in Hlen. lia. }
    rewrite anc_snoc in Hc, Hsz. set (k := (m, path_of (cs ++ [c']))) in *.
    eapply wp_then; [by apply (vfs_node_lookup_spec X I _ s m (path_of (cs ++ [c'])) Hc)|].
    intros n s1 [(_ & _ & Hno)|(Hn0 & _ & (nd & Hn & Hk) & Hc1 & He1)]; [exfalso; multiset_solver|].
    rewrite (proj2 (Z.eqb_neq n 0) Hn0). fold k in Hc1, Hk.
    eapply wp_then; [eapply (vfs_node_put_spec X I (({[+ k +]} ⊎ anc m cs) ⊎ P)); [by rewrite Hk|done]|].
    intros _ s2 [Hc2 He2]. destruct (ev_node _ _ _ He2 _ _ Hn) as (nd' & Hn' & Hs); [rewrite Hk; multiset_solver|].
    pose proof (same_node_key _ _ Hs) as Hk'. rewrite Hk in Hk'.
    eapply wp_then; [eapply (vfs_node_put_spec X I (anc m cs ⊎ P)); [|done]|].
    { rewrite Hk'. eapply cache_perm; [exact Hc2|]. multiset_solver. }
    intros _ s3 [Hc3 He3]. eapply wp_mono; [apply (IH c' fuel P s3); [|done|done|done|]|done|].
    + rewrite length_app in Hf. cbn in Hf. lia.
    + rewrite !gmultiset_size_disj_union in *. lia.
    + intros _ s4 [Hc4 He4]. split; [done|].
      eapply evolves_then; [exact He1| |multiset_solver|reflexivity].
      eapply evolves_then; [exact He2| |multiset_solver|reflexivity].
      eapply evolves_then; [exact He3|exact He4|multiset_solver|reflexivity].
Qed.

Lemma vfs_node_release_spec P s n nd m cs :
  cache_ok (chain m cs ⊎ P) s -> rooted m s -> nodes s !! n = Some nd ->
  key_of nd = (m, npath cs) -> Forall is_comp cs -> Z.of_nat (size (chain m cs ⊎ P)) + 1 < 2 ^ 31 ->
  wp never (vfs_node_release n) (fun _ s' => cache_ok P s' /\ evolves P s s') s.
Proof.
  intros Hc Hroot Hn Hk HF Hsz. unfold vfs_node_release.
  assert (n <> 0) as Hn0. { intros ->. pose proof (ck_null _ _ _ _ Hc) as [? _]. congruence. }
  rewrite (proj2 (Z.eqb_neq n 0) Hn0). eapply wp_get_node; [done|].
  pose proof (nk_path _ _ _ (ck_node _ _ _ _ Hc _ _ Hn)) as [_ Hlen].
  destruct Hroot as (mt & rd & Hm & Hrn & Hrk). pose proof Hk as [= Em Ep]. rewrite Em.
  eapply wp_get_mount; [done|]. destruct (Z.eqb_spec (m_root (m_info mt)) n) as [Er|Hne].
  - assert (cs = []) as ->.
    { rewrite Er in Hrn. replace rd with nd in Hrk by congruence. rewrite Hk in Hrk.
      injection Hrk as Hrk. by apply (npath_inj cs []). }
    eapply vfs_node_put_spec; [|done]. rewrite Hk. by rewrite chain_nil in Hc.
  - unfold strlcpy_cut. rewrite (proj2 (Z.leb_gt _ _)) by lia.
    destruct cs as [|c cs _] using rev_ind.
    { exfalso. apply Hne. eapply (ck_inj _ _ _ _ Hc); [done..|]. by rewrite Hrk, Hk. }
    rewrite npath_snoc in Ep. rewrite chain_snoc in Hc, Hsz. set (k := (m, npath (cs ++ [c]))) in *.
    eapply wp_then; [eapply (vfs_node_put_spec X I (chain m cs ⊎ P)); [|done]|].
    { rewrite Hk. eapply cache_perm; [exact Hc|]. multiset_solver. }
    intros _ s1 [Hc1 He1]. rewrite Ep.
    eapply wp_then; [apply (release_loop_spec m cs c _ ({[+ (m, [SLASH]) +]} ⊎ P))|].
    + pose proof (length_path_of (cs ++ [c])) as Hl. rewrite length_app in Hl. cbn in Hl. lia.
    + done.
    + by rewrite <- Ep.
    + eapply cache_perm; [exact Hc1|]. unfold chain. multiset_solver.
    + unfold chain in Hsz. rewrite !gmultiset_size_disj_union in *. lia.
    + intros _ s2 [Hc2 He2].
      assert (He : evolves ({[+ (m, [SLASH]) +]} ⊎ P) s s2).
      { eapply evolves_then; [exact He1|exact He2|unfold chain; multiset_solver|reflexivity]. }
      destruct (ev_mount _ _ _ He _ _ Hm) as (mt' & Hm' & (_ & _ & _ & Er & _)).
      destruct (ev_node _ _ _ He _ _ Hrn) as (rd' & Hrn' & Hs); [rewrite Hrk; multiset_solver|].
      eapply wp_get_mount; [done|]. rewrite Er. apply wp_last.
      eapply wp_then; [eapply (vfs_node_put_spec X I P); [|done]|].
      { rewrite (same_node_key _ _ Hs), Hrk. done. }
      intros [] s3 [Hc3 He3]. apply wp_ret. split; [done|].
      eapply evolves_then; [exact He|exact He3|multiset_solver|reflexivity].
Qed.

(** ** [vfs_node_acquire] *)

(** What a walk may end with, from pins [P]: the node asked for, with its chain of
    pins; or an error, with the pins of [P].  When there is no memory for a node, the
    pins on the ancestors of its directory stay. *)
Definition acquired (P : gmultiset key) (m : Z) (cs : list (list Z)) (r : Z * option Z) s' : Prop :=
  match r with
  | (err, Some n) =>
      err = 0 /\ cache_ok (chain m cs ⊎ P) s' /\
      (exists nd, nodes s' !! n = Some nd /\ key_of nd = (m, npath cs))
  | (err, None) =>
      cache_ok P s' \/ (err = -1 /\ exists ds, (length ds < 1024)%nat /\ cache_ok (chain m ds ⊎ P) s')
  end.

Lemma node_push_ok node c s :
  Z.of_nat (length node) < VFS_MAX_PATH -> node_push node c s = inl (node ++ [c], s).
Proof. intros Hl. unfold node_push. by rewrite (proj2 (Z.ltb_lt _ _) Hl). Qed.

Lemma copy_component_ok p c r node s :
  is_path p -> span_comp p = (c, r) -> Z.of_nat (length node + length c) <= VFS_MAX_PATH ->
  copy_component p node s = inl ((r, node ++ c), s).
Proof.
  intros Hp. revert c node. induction Hp as [|b p Hb Hp IH]; intros c node; cbn.
  { intros [= <- <-] _. by rewrite app_nil_r. }
  destruct (b =? SLASH) eqn:Eb; [intros [= <- <-] _; by rewrite app_nil_r|].
  destruct (span_comp p) as [c0 r0] eqn:E. intros [= <- <-] Hl. cbn in Hl. unfold vbind.
  rewrite node_push_ok by lia. rewrite (IH c0); [by rewrite <- app_assoc|done|].
  rewrite length_app. cbn. lia.
Qed.

(** The room the rest of the path needs in [node]. *)
Definition walk_room (p : list Z) : nat :=
  length p + (match p with [] => 0 | b :: _ => if (b =? SLASH)%Z then 0 else 1 end).

Lemma walk_room_step p c r :
  is_path p -> span_comp (skip_slashes p) = (c, r) -> chr (skip_slashes p) <> 0 ->
  (1 + length c + walk_room r <= walk_room p)%nat /\ (length r < length p)%nat.
Proof.
  intros Hp E H0. pose proof (skip_slashes_path p Hp) as Hp'. pose proof (span_comp_spec _ Hp') as Hs.
  rewrite E in Hs. destruct Hs as (Ep & _ & Hr & _).
  assert (is_comp c) as [Hc _] by (eapply span_comp_is_comp; [exact Hp'|done|apply skip_slashes_chr|done]).
  assert (length (skip_slashes p) + (match p with [] => 0 | b :: _ => if (b =? SLASH)%Z then 1 else 0 end) <= length p)%nat.
  { destruct p as [|b p]; cbn; [lia|]. destruct (b =? SLASH); cbn; pose proof (skip_slashes_length p); lia. }
  assert (walk_room r = length r) as ->.
  { unfold walk_room. destruct r as [|b r]; [done|]. destruct Hr as [|Hr]; [done|]. cbn in Hr. subst b. cbn. lia. }
  rewrite Ep, length_app in H1. unfold walk_room. destruct c as [|b0 c]; [done|]. cbn in H1 |- *.
  destruct p as [|b p]; cbn in H1 |- *; [lia|]. destruct (b =? SLASH); lia.
Qed.

Lemma acquire_loop_spec m fuel : forall p cs dn dnd P s,
  (length p < fuel)%nat -> is_path p -> Forall is_comp cs ->
  Z.of_nat (length (path_of cs) + walk_room p) < VFS_MAX_PATH ->
  cache_ok (chain m cs ⊎ P) s -> rooted m s -> nodes s !! dn = Some dnd -> key_of dnd = (m, npath cs) ->
  Z.of_nat (size P) + 2048 < 2 ^ 31 ->
  wp never (acquire_loop fuel m p (path_of cs) dn)
    (fun r s' => acquired P m (cs ++ comps p []) r s' /\ evolves P s s') s.
Proof.
  induction fuel as [|fuel IH]; intros p cs dn dnd P s Hf Hp HF Hroom Hc Hroot Hdn Hdk Hsz; [lia|].
  cbn [acquire_loop]. rewrite <- (comps_skip p). pose proof (skip_slashes_path p Hp) as Hp'.
  destruct (Z.eqb_spec (chr (skip_slashes p)) 0) as [E0|H0].
  { rewrite (chr_zero _ Hp' E0). cbn [comps]. rewrite app_nil_r. apply wp_ret.
    split; [|apply evolves_refl]. split_and!; [done|done|by exists dnd]. }
  destruct (span_comp (skip_slashes p)) as [c r] eqn:Esp.
  destruct (walk_room_step p c r Hp Esp H0) as [Hstep Hlr].
  pose proof (span_comp_spec _ Hp') as Hspec. rewrite Esp in Hspec. destruct Hspec as (Ep & Hc0 & Hr & Hpr).
  assert (Hcomp : is_comp c) by (eapply span_comp_is_comp; [exact Hp'|done|apply skip_slashes_chr|done]).
  assert (Ecomps : cs ++ comps (skip_slashes p) [] = (cs ++ [c]) ++ comps r []).
  { rewrite Ep, comps_span; [by rewrite <- app_assoc|by apply is_comp_noslash|by destruct Hcomp|done]. }
  rewrite Ecomps. assert (HF' : Forall is_comp (cs ++ [c])) by (apply Forall_app; split; [done|by constructor]).
  assert (Hroom' : Z.of_nat (length (path_of (cs ++ [c])) + walk_room r) < VFS_MAX_PATH).
  { rewrite path_of_snoc, length_app. cbn [length]. lia. }
  assert (Hlen : Z.of_nat (length (path_of (cs ++ [c]))) < VFS_MAX_PATH) by lia.
  pose proof (length_path_of (cs ++ [c])) as Hlcs. rewrite length_app in Hlcs. cbn [length] in Hlcs.
  apply wp_bind. unfold wp at 1. rewrite node_push_ok by lia.
  apply wp_bind. unfold wp at 1. rewrite (copy_component_ok _ c r); [|done|done|rewrite length_app; cbn; lia].
  rewrite <- app_assoc. cbn [app]. rewrite <- path_of_snoc.
  apply wp_bind. unfold wp at 1. rewrite node_push_ok by done.
  assert (Hs1 : Z.of_nat (size (chain m cs ⊎ P)) + 1 < 2 ^ 31).
  { rewrite gmultiset_size_disj_union, size_chain. unfold VFS_MAX_PATH in Hlen. lia. }
  assert (Echain : {[+ (m, path_of (cs ++ [c])) +]} ⊎ (chain m cs ⊎ P) = chain m (cs ++ [c]) ⊎ P).
  { by rewrite chain_snoc, npath_snoc, (assoc_L (⊎)). }
  eapply wp_then; [by apply (vfs_node_lookup_spec X I _ s m (path_of (cs ++ [c])) Hc)|].
  intros n s1 [(-> & -> & Hno)|(Hn0 & _ & (nd & Hn & Hk) & Hc1 & He1)].
  2:{ rewrite (proj2 (Z.eqb_neq n 0) Hn0). cbn [negb]. rewrite Echain in Hc1.
      eapply wp_mono; [eapply (IH r (cs ++ [c]) n nd P s1); try done; [lia| |by rewrite npath_snoc]|done|].
      - eapply rooted_evolves; [done|done|]. apply in_l, chain_root.
      - intros a s2 (Ha & He2). split; [done|].
        eapply evolves_then; [exact He1|exact He2|apply sub_r|reflexivity]. }
  cbn [Z.eqb negb]. destruct Hroot as (mt & rd & Hm & Hrn & Hrk).
  eapply wp_then; [eapply (vfs_node_get_spec X I _ s m mt (path_of (cs ++ [c])) Hc); [done| |done|done]|].
  { split; [|done]. exists (cs ++ [c]). by rewrite npath_snoc. }
  intros n s1 [(-> & Hc1 & He1)|(Hn0 & Hfresh & (nd & Hn & Hk) & Hc1 & He1)].
  { (* no memory *)
    cbn [Z.eqb]. destruct (ev_node _ _ _ He1 _ _ Hdn) as (dnd1 & Hdn1 & Hs).
    { rewrite Hdk. apply in_l, chain_self. }
    pose proof (same_node_key _ _ Hs) as Hdk1. rewrite Hdk in Hdk1.
    assert (exists L, chain m cs ⊎ P = {[+ (m, npath cs) +]} ⊎ (L ⊎ P) /\
              (L = ∅ \/ exists ds, (length ds < 1024)%nat /\ L = chain m ds)) as (L & EL & HL).
    { destruct cs as [|c' cs _] using rev_ind.
      - exists ∅. rewrite chain_nil. split; [by rewrite (left_id_L ∅ (⊎))|by left].
      - exists (chain m cs). rewrite chain_snoc. split; [by rewrite (assoc_L (⊎))|]. right. exists cs. split; [|done].
        rewrite length_app in Hlcs. unfold VFS_MAX_PATH in Hlen. cbn in Hlcs. lia. }
    eapply wp_then; [eapply (vfs_node_put_spec X I (L ⊎ P) s1 dn dnd1); [rewrite Hdk1; eapply cache_perm; [exact Hc1|exact EL]|done]|].
    intros _ s2 [Hc2 He2]. apply wp_ret. split.
    - destruct HL as [->|(ds & Hds & ->)]; [left; eapply cache_perm; [done|by rewrite (left_id_L ∅ (⊎))]|right; by eauto].
    - eapply evolves_then; [exact He1|exact He2|apply sub_r|apply sub_r]. }
  rewrite (proj2 (Z.eqb_neq n 0) Hn0). rewrite Echain in Hc1.
  destruct (ev_node _ _ _ He1 _ _ Hdn) as (dnd1 & Hdn1 & Hs).
  { rewrite Hdk. apply in_l, chain_self. }
  pose proof (same_node_key _ _ Hs) as Hdk1. rewrite Hdk in Hdk1.
  assert (Hr1 : rooted m s1).
  { eapply rooted_evolves; [by exists mt, rd|exact He1|]. apply in_l, chain_root. }
  apply wp_bind. unfold mutex_lock_all.
  rewrite bool_decide_eq_true_2; [|apply NoDup_cons; split; [|apply NoDup_singleton]; intros ->%list_elem_of_singleton; congruence].
  apply wp_ret. eapply wp_get_node; [exact Hdn1|].
  destruct (nk_mount _ _ _ (ck_node _ _ _ _ Hc1 _ _ Hdn1)) as [mt1 Hm1]. eapply wp_get_mount; [exact Hm1|].
  eapply wp_then.
  { eapply (call2_spec X I _ s1 _ mt1 dn n); [done..|]. apply ok_lookup. by eapply ck_fs. }
  intros err s2 (Hc2 & He2 & _).
  assert (Hsub : chain m (cs ++ [c]) ⊎ P ⊆ chain m (cs ++ [c]) ⊎ P) by done.
  destruct (ev_node _ _ _ He2 _ _ Hn) as (nd2 & Hn2 & Hs2).
  { rewrite Hk, <- (npath_snoc cs c). apply in_l, chain_self. }
  pose proof (same_node_key _ _ Hs2) as Hk2. rewrite Hk in Hk2.
  assert (Hr2 : rooted m s2).
  { eapply rooted_evolves; [exact Hr1|exact He2|]. apply in_l, chain_root. }
  assert (He12 : evolves P s s2).
  { eapply evolves_then; [exact He1|exact He2|apply sub_r|apply sub_r]. }
  eapply wp_get_node; [exact Hn2|].
  destruct (negb (err =? 0) || ((chr r =? SLASH) && negb (bool_decide (v_type (v_attr nd2) = VNT_DIR)))).
  - eapply wp_then; [eapply (vfs_node_release_spec P s2 n nd2 m (cs ++ [c])); try done; [by rewrite npath_snoc|]|].
    { rewrite gmultiset_size_disj_union, size_chain, length_app. cbn [length]. unfold VFS_MAX_PATH in Hlen. lia. }
    intros _ s3 [Hc3 He3]. apply wp_ret. split; [by left|].
    eapply evolves_then; [exact He12|exact He3|reflexivity|reflexivity].
  - eapply wp_mono; [eapply (IH r (cs ++ [c]) n nd2 P s2); try done; [lia|by rewrite npath_snoc]|done|].
    intros a s3 (Ha & He3). split; [done|].
    eapply evolves_then; [exact He12|exact He3|reflexivity|reflexivity].
Qed.

(** ** The mount of a path *)

Definition mount_path s (m : Z) (root : list Z) : Prop :=
  exists mt, mounts s !! m = Some mt /\ m_path (m_info mt) = root /\ is_path root.

Lemma findroot_loop_spec path s l : forall m0 len0,
  is_path path -> 0 <= len0 -> (forall m, m ∈ l -> exists root, mount_path s m root) ->
  exists m len, findroot_loop path l m0 len0 s = inl ((m, len), s) /\ len0 <= len /\
    ((m = m0 /\ len = len0) \/
     (m ∈ l /\ exists root, mount_path s m root /\ mount_prefix root path /\ len = Z.of_nat (length root))) /\
    (forall m' root', m' ∈ l -> mount_path s m' root' -> mount_prefix root' path -> Z.of_nat (length root') <= len).
Proof.
  induction l as [|m l IH]; intros m0 len0 Hp H0 Hl.
  { exists m0, len0. split_and!; [done|lia|by left|]. by intros ? ? ?%elem_of_nil. }
  destruct (Hl m) as (root & mt & Hm & Er & Hroot); [left|].
  cbn [findroot_loop]. unfold vbind, get_mount. rewrite Hm, Er.
  assert (Hl' : forall m, m ∈ l -> exists root, mount_path s m root) by (intros; apply Hl; by right).
  assert (Hme : mount_path s m root) by by exists mt.
  assert (Huniq : forall root', mount_path s m root' -> root' = root).
  { intros root' (mt' & Hm' & <- & _). by replace mt' with mt by congruence. }
  destruct (count_match_spec path root Hp Hroot) as [[Hpre ->]|[Hpre ->]].
  - destruct (Z.ltb_spec len0 (Z.of_nat (length root))) as [Hlt|Hge].
    + destruct (IH m (Z.of_nat (length root))) as (m1 & len1 & -> & Hle & Hor & Hmax); [done|lia|done|].
      exists m1, len1. split_and!; [done|lia| |].
      * right. destruct Hor as [[-> ->]|[? ?]]; [split; [left|by exists root]|split; [by right|done]].
      * intros m' root' [->|Hin]%elem_of_cons Hm' Hpr; [by rewrite (Huniq _ Hm')|by eapply Hmax].
    + destruct (IH m0 len0) as (m1 & len1 & -> & Hle & Hor & Hmax); [done|lia|done|].
      exists m1, len1. split_and!; [done|lia| |].
      * destruct Hor as [?|[? ?]]; [by left|right; split; [by right|done]].
      * intros m' root' [->|Hin]%elem_of_cons Hm' Hpr; [rewrite (Huniq _ Hm'); lia|by eapply Hmax].
  - destruct (Z.ltb_spec len0 0); [lia|].
    destruct (IH m0 len0) as (m1 & len1 & -> & Hle & Hor & Hmax); [done|lia|done|].
    exists m1, len1. split_and!; [done|lia| |].
    + destruct Hor as [?|[? ?]]; [by left|right; split; [by right|done]].
    + intros m' root' [->|Hin]%elem_of_cons Hm' Hpr; [by rewrite (Huniq _ Hm') in Hpr|by eapply Hmax].
Qed.

(** The mount [m] is the longest match for [path], [p] what follows it. *)
Definition resolves s (path : list Z) (m : Z) (p : list Z) : Prop :=
  exists root rest, m ∈ mnt_list s /\ mount_path s m root /\ mount_prefix root path /\
    path = root ++ rest /\ p = skip_slashes rest /\
    forall m' root', m' ∈ mnt_list s -> mount_path s m' root' -> mount_prefix root' path ->
      (length root' <= length root)%nat.

Lemma vfs_findroot_spec path s :
  is_path path -> 0 ∉ mnt_list s -> (forall m, m ∈ mnt_list s -> exists root, mount_path s m root) ->
  (exists m p, vfs_findroot path s = inl (Some (m, p), s) /\ resolves s path m p) \/
  (vfs_findroot path s = inl (None, s) /\
   forall m root, m ∈ mnt_list s -> mount_path s m root -> ~ mount_prefix root path).
Proof.
  intros Hp H0 Hl. unfold vfs_findroot. unfold vbind at 1, vget.
  destruct (findroot_loop_spec path s (mnt_list s) 0 0 Hp) as (m & len & E & Hle & Hor & Hmax); [lia|done|].
  unfold vbind. rewrite E. destruct Hor as [[-> ->]|(Hin & root & Hm & Hpre & ->)].
  - right. split; [done|]. intros m root Hin Hm Hpre. pose proof (Hmax _ _ Hin Hm Hpre).
    destruct Hpre as (rest & _ & Hne & _). by destruct root.
  - left. assert (m <> 0) as Hm0 by (by intros ->). rewrite (proj2 (Z.eqb_neq m 0) Hm0).
    exists m, (skip_slashes (drop (Z.to_nat (Z.of_nat (length root))) path)). split; [done|].
    pose proof Hpre as (rest & Ep & _). exists root, rest. rewrite Nat2Z.id.
    split_and!; [done..|by rewrite Ep, drop_app_length|].
    intros m' root' Hin' Hm' Hpre'. pose proof (Hmax _ _ Hin' Hm' Hpre'). lia.
Qed.

Lemma vfs_node_acquire_spec P s path :
  cache_ok P s -> 0 ∉ mnt_list s ->
  (forall m, m ∈ mnt_list s -> rooted m s /\ exists root, mount_path s m root) ->
  is_path path -> Z.of_nat (length path) < VFS_MAX_PATH -> Z.of_nat (size P) + 2050 < 2 ^ 31 ->
  wp never (vfs_node_acquire path) (fun r s' => evolves P s s' /\
    ((r = (-1, None) /\ s' = s) \/
     exists m p, resolves s path m p /\ is_path p /\ acquired P m (comps p []) r s')) s.
Proof.
  intros Hc H0 Hms Hp Hlen Hsz. unfold vfs_node_acquire. apply wp_bind. unfold wp at 1.
  destruct (vfs_findroot_spec path s Hp H0) as [(m & p & -> & Hres)|[-> Hno]]; [by intros m Hm; apply Hms| |].
  2:{ apply wp_ret. split; [apply evolves_refl|by left]. }
  pose proof Hres as (root & rest & Hin & (mt & Hm & Er & Hroot) & Hpre & Epath & Ep & _).
  destruct (Hms m Hin) as [(mt' & rd & Hm' & Hrn & Hrk) _]. replace mt' with mt in * by congruence. clear mt' Hm'.
  eapply wp_get_mount; [done|].
  assert (m_root (m_info mt) <> 0) as Hr0.
  { intros E. rewrite E in Hrn. pose proof (ck_null _ _ _ _ Hc) as [? _]. congruence. }
  rewrite (proj2 (Z.eqb_neq _ 0) Hr0).
  assert (Hpp : is_path p). { subst p. apply skip_slashes_path. rewrite Epath in Hp. by apply Forall_app in Hp as [_ ?]. }
  assert (Hroom : (walk_room p < 1024)%nat).
  { destruct Hpre as (_ & _ & Hne & _). apply (f_equal length) in Epath. rewrite length_app in Epath.
    pose proof (skip_slashes_length rest). rewrite <- Ep in *. unfold VFS_MAX_PATH in Hlen.
    destruct root; [done|]. cbn in Epath. unfold walk_room. destruct p as [|b p]; [cbn; lia|]. destruct (b =? SLASH); lia. }
  eapply wp_then; [by eapply (vfs_node_ref_spec X I P); [..|lia]|]. intros _ s1 [Hc1 He1].
  pose proof (nk_pinned _ _ _ (ck_node _ _ _ _ Hc _ _ Hrn)) as Hpin. rewrite Hrk in Hpin, Hc1.
  destruct (ev_node _ _ _ He1 _ _ Hrn) as (rd1 & Hrn1 & Hs1); [by rewrite Hrk|].
  eapply wp_mono; [eapply (acquire_loop_spec m _ p [] (m_root (m_info mt)) rd1 P s1)|done|].
  - lia.
  - done.
  - constructor.
  - unfold VFS_MAX_PATH. cbn [path_of length map concat]. lia.
  - rewrite chain_nil. done.
  - eapply rooted_evolves; [by exists mt, rd|exact He1|done].
  - done.
  - by rewrite (same_node_key _ _ Hs1).
  - lia.
  - intros r s2 [Ha He2]. split; [|right; by exists m, p].
    eapply evolves_then; [exact He1|exact He2|reflexivity|reflexivity].
Qed.
End walk.
