(* ===== verification/VfsInv.v ===== *)
(** * VfsInv: the invariant of the file system switch

    The pins of the vnode cache are accounted for: one on the root of every mount,
    the chain of every open file, the chain of every directory covered by a mount,
    and [L], the chains held by the operation that is running (and those that a walk
    without memory left behind).  [vfs_ok b L s] also says that [b] more pins
    fit in a 32-bit count. *)

From stdpp Require Import gmultiset.
From S2P Require Import Prelude CMem Alloc Vfs VfsOps VfsPath VfsCache VfsWalk.

(** ** The pins of a pointer *)

Lemma comps_path_of cs : Forall is_comp cs -> comps (path_of cs) [] = cs.
Proof.
  induction 1 as [|c cs Hc Hcs IH]; [done|]. unfold path_of in *. cbn.
  rewrite comps_span; [by rewrite IH|by apply is_comp_noslash|by destruct Hc|].
  destruct cs; [by left|by right].
Qed.

Lemma comps_npath cs : Forall is_comp cs -> comps (npath cs) [] = cs.
Proof. destruct cs; [done|]. by apply comps_path_of. Qed.

Definition pin_of (ns : gmap Z vnode) (p : Z) : gmultiset key :=
  match ns !! p with Some nd => chain (v_mount nd) (comps (v_path nd) []) | None => ∅ end.

Definition covered_of {D : Type} (ms : gmap Z (vmount D)) (m : Z) : Z :=
  match ms !! m with Some mt => m_covered (m_info mt) | None => 0 end.

Definition held_ptrs {S D : Type} (s : vfs S D) : list Z :=
  (f_node <$> fd_file s) ++ (covered_of (mounts s) <$> mnt_list s).

Definition roots (l : list Z) : gmultiset key := list_to_set_disj ((fun m => (m, [SLASH])) <$> l).

(** [⋃+] of the chains of a list of pointers. *)
Fixpoint pins_of (ns : gmap Z vnode) (l : list Z) : gmultiset key :=
  match l with [] => ∅ | p :: l => pin_of ns p ⊎ pins_of ns l end.

Definition pins {S D : Type} (s : vfs S D) (L : gmultiset key) : gmultiset key :=
  L ⊎ (roots (mnt_list s) ⊎ pins_of (nodes s) (held_ptrs s)).

Lemma pins_add {S D : Type} (s : vfs S D) A L : pins s (A ⊎ L) = A ⊎ pins s L.
Proof. unfold pins. by rewrite <- (assoc_L (⊎)). Qed.

Lemma pins_of_app ns l1 l2 : pins_of ns (l1 ++ l2) = pins_of ns l1 ⊎ pins_of ns l2.
Proof.
  induction l1 as [|p l1 IH]; cbn [app pins_of]; [by rewrite (left_id_L ∅ (⊎))|].
  by rewrite IH, (assoc_L (⊎)).
Qed.

Lemma pin_of_sub ns l p : p ∈ l -> pin_of ns p ⊆ pins_of ns l.
Proof.
  induction 1 as [|p q l Hp IH]; cbn [pins_of]; [apply gmultiset_disj_union_subseteq_l|].
  etrans; [exact IH|apply sub_r].
Qed.

Lemma roots_elem m l : (m, [SLASH]) ∈ roots l <-> m ∈ l.
Proof.
  unfold roots. rewrite elem_of_list_to_set_disj, list_elem_of_fmap. split; [|by eauto].
  by intros (? & [= ->] & ?).
Qed.

Lemma chain_mount m cs (k : key) : k ∈ chain m cs -> k.1 = m.
Proof.
  induction cs as [|c cs IH] using rev_ind; [rewrite chain_nil|rewrite chain_snoc].
  - intros Hk. rewrite gmultiset_elem_of_singleton in Hk. by subst.
  - rewrite gmultiset_elem_of_disj_union, gmultiset_elem_of_singleton. intros [->|Hk]; [done|by apply IH].
Qed.

(** [n] is the node with the components [cs] on mount [m]. *)
Definition node_at {S D : Type} (s : vfs S D) (n m : Z) (cs : list (list Z)) : Prop :=
  Forall is_comp cs /\ exists nd, nodes s !! n = Some nd /\ key_of nd = (m, npath cs).

Lemma node_at_pin {S D : Type} (s : vfs S D) n m cs : node_at s n m cs -> pin_of (nodes s) n = chain m cs.
Proof.
  intros (HF & nd & Hn & [= Em Ep]). unfold pin_of. rewrite Hn, Em, Ep. by rewrite comps_npath.
Qed.

Lemma node_at_evolves {S D : Type} K (s s' : vfs S D) n m cs :
  node_at s n m cs -> evolves K s s' -> (m, npath cs) ∈ K -> node_at s' n m cs.
Proof.
  intros (HF & nd & Hn & Hk) He HK. split; [done|].
  destruct (ev_node _ _ _ He _ _ Hn) as (nd' & Hn' & Hs); [by rewrite Hk|].
  exists nd'. split; [done|]. by rewrite (same_node_key _ _ Hs).
Qed.

Section inv.
Context {S D : Type} `{KernelAlloc S} (X : gset Z) (I : D -> Prop).
Implicit Types (s : vfs S D) (L : gmultiset key).
Abbreviation cache_ok := (cache_ok X I).

Record vfs_ok (b : Z) L s : Prop := {
  vo_cache : cache_ok (pins s L) s;
  vo_mnt : NoDup (mnt_list s);
  vo_in n nd : nodes s !! n = Some nd -> v_mount nd ∈ mnt_list s;
  vo_mounts m : m ∈ mnt_list s -> rooted m s /\ exists root, mount_path s m root;
  vo_held p : p ∈ held_ptrs s -> p = 0 \/ is_Some (nodes s !! p);
  vo_files : length (fd_file s) = Z.to_nat VFS_MAX_FD;
  vo_std i f : (i < 3)%nat -> fd_file s !! i = Some f -> f_node f = 0;
  vo_room : Z.of_nat (size (pins s L)) + b < 2 ^ 31;
}.

Lemma vo_null b L s : vfs_ok b L s -> 0 ∉ mnt_list s.
Proof.
  intros Hok Hin. destruct (vo_mounts _ _ _ Hok 0 Hin) as [_ (root & mt & Hm & _)].
  pose proof (ck_null _ _ _ _ (vo_cache _ _ _ Hok)) as [_ ?]. congruence.
Qed.

(** The pins are on nodes of mounts in the list. *)
Lemma pin_mount b L s k : vfs_ok b L s -> k ∈ pins s L -> k.1 ∈ mnt_list s.
Proof.
  intros Hok (n & nd & Hn & <-)%(ck_pin _ _ _ _ (vo_cache _ _ _ Hok)). by apply (vo_in _ _ _ Hok n nd).
Qed.

Lemma vfs_ok_weaken b b' L s : vfs_ok b L s -> b' <= b -> vfs_ok b' L s.
Proof. intros [] Hb. split; try done. lia. Qed.

(** Every node has components. *)
Lemma node_at_exists b L s n nd :
  vfs_ok b L s -> nodes s !! n = Some nd -> exists cs, node_at s n (v_mount nd) cs.
Proof.
  intros Hok Hn. destruct (nk_path _ _ _ (ck_node _ _ _ _ (vo_cache _ _ _ Hok) _ _ Hn)) as [(cs & HF & Ep) _].
  exists cs. split; [done|]. exists nd. split; [done|]. unfold key_of. by rewrite Ep.
Qed.

Lemma node_at_short P s n m cs : cache_ok P s -> node_at s n m cs -> (length cs < 1024)%nat.
Proof.
  intros Hc (HF & nd & Hn & [= _ Ep]). destruct (nk_path _ _ _ (ck_node _ _ _ _ Hc _ _ Hn)) as [_ Hlen].
  rewrite Ep in Hlen. unfold VFS_MAX_PATH in Hlen. destruct cs as [|c cs]; [cbn; lia|].
  pose proof (length_path_of (c :: cs)). cbn [npath] in Hlen. lia.
Qed.

(** The pointers the tables hold, in a state that evolved. *)
Lemma held_evolves K s s' :
  evolves K s s' -> (forall m, m ∈ mnt_list s -> is_Some (mounts s !! m)) -> held_ptrs s' = held_ptrs s.
Proof.
  intros He Hm. unfold held_ptrs. rewrite (ev_fd_file _ _ _ He), (ev_mnt_list _ _ _ He). f_equal.
  apply list_fmap_ext. intros i m Hi. apply list_elem_of_lookup_2, Hm in Hi as [mt Hmt].
  destruct (ev_mount _ _ _ He _ _ Hmt) as (mt' & Hmt' & (_ & _ & _ & _ & Ec)).
  unfold covered_of. by rewrite Hmt, Hmt', Ec.
Qed.

Lemma pin_of_evolves K b L s s' p :
  vfs_ok b L s -> evolves K s s' -> nodes s' !! 0 = None -> p ∈ held_ptrs s ->
  pins_of (nodes s) (held_ptrs s) ⊆ K ->
  pin_of (nodes s') p = pin_of (nodes s) p /\ (p = 0 \/ is_Some (nodes s' !! p)).
Proof.
  intros Hok He H0 Hp HK. destruct (vo_held _ _ _ Hok _ Hp) as [->|[nd Hn]].
  { split; [|by left]. unfold pin_of. pose proof (ck_null _ _ _ _ (vo_cache _ _ _ Hok)) as [-> _]. by rewrite H0. }
  destruct (node_at_exists _ _ _ _ _ Hok Hn) as [cs Hat].
  assert ((v_mount nd, npath cs) ∈ K) as HinK.
  { eapply gmultiset_elem_of_subseteq; [|exact HK]. eapply gmultiset_elem_of_subseteq; [|by apply pin_of_sub].
    rewrite (node_at_pin _ _ _ _ Hat). apply chain_self. }
  pose proof (node_at_evolves _ _ _ _ _ _ Hat He HinK) as Hat'.
  rewrite (node_at_pin _ _ _ _ Hat), (node_at_pin _ _ _ _ Hat'). split; [done|]. right.
  destruct Hat' as (_ & nd' & Hn' & _). by exists nd'.
Qed.

Lemma pins_of_ext ns ns' l : (forall p, p ∈ l -> pin_of ns' p = pin_of ns p) -> pins_of ns' l = pins_of ns l.
Proof.
  induction l as [|p l IH]; intros Hl; [done|]. cbn. rewrite IH, Hl; [done|left|intros; apply Hl; by right].
Qed.

Lemma mnt_list_mounts b L s m : vfs_ok b L s -> m ∈ mnt_list s -> is_Some (mounts s !! m).
Proof. intros Hok Hm. destruct (vo_mounts _ _ _ Hok m Hm) as [_ (root & mt & -> & _)]. by eexists. Qed.

Lemma pins_evolves K b L s s' L' :
  vfs_ok b L s -> evolves K s s' -> nodes s' !! 0 = None -> pins_of (nodes s) (held_ptrs s) ⊆ K ->
  pins s' L' = pins s L'.
Proof.
  intros Hok He H0 HK. unfold pins. rewrite (ev_mnt_list _ _ _ He).
  rewrite (held_evolves _ _ _ He) by (intros; by eapply mnt_list_mounts). do 2 f_equal.
  apply pins_of_ext. intros p Hp. by eapply pin_of_evolves.
Qed.

Lemma held_sub s L : pins_of (nodes s) (held_ptrs s) ⊆ pins s L.
Proof. unfold pins. etrans; [apply sub_r|apply sub_r]. Qed.

Lemma root_in_pins s L m : m ∈ mnt_list s -> (m, [SLASH]) ∈ pins s L.
Proof. intros Hm. apply in_r, in_l. by apply roots_elem. Qed.

Lemma base_sub s L : pins s ∅ ⊆ pins s L.
Proof. unfold pins. rewrite (left_id_L ∅ (⊎)). apply sub_r. Qed.

(** The invariant after an operation of the cache that leaves the pins of [L']. *)
Lemma vfs_ok_evolves K b b' L L' s s' :
  vfs_ok b L s -> cache_ok (pins s L') s' -> evolves K s s' -> pins s ∅ ⊆ K ->
  Z.of_nat (size (pins s L')) + b' < 2 ^ 31 -> (forall k, k ∈ L' -> k ∈ L \/ k.1 ∈ mnt_list s) ->
  vfs_ok b' L' s' /\ forall L'', pins s' L'' = pins s L''.
Proof.
  intros Hok Hc He HK Hsz HL'. pose proof (ck_null _ _ _ _ Hc) as [H0 _].
  assert (HK' : pins_of (nodes s) (held_ptrs s) ⊆ K) by (etrans; [apply (held_sub s ∅)|done]).
  assert (Hpins : forall L'', pins s' L'' = pins s L'') by (intros L''; by eapply pins_evolves).
  split; [|done]. split.
  - by rewrite Hpins.
  - rewrite (ev_mnt_list _ _ _ He). apply Hok.
  - intros n nd Hn. rewrite (ev_mnt_list _ _ _ He). change (v_mount nd) with (key_of nd).1.
    pose proof (nk_pinned _ _ _ (ck_node _ _ _ _ Hc _ _ Hn)) as Hin. unfold pins in Hin.
    rewrite gmultiset_elem_of_disj_union in Hin. destruct Hin as [Hin|Hin].
    + destruct (HL' _ Hin); [|done]. eapply pin_mount; [done|by apply in_l].
    + eapply pin_mount; [done|by apply in_r].
  - intros m. rewrite (ev_mnt_list _ _ _ He). intros Hm.
    destruct (vo_mounts _ _ _ Hok m Hm) as [Hr (root & mt & Hmt & Er & Hp)]. split.
    { eapply rooted_evolves; [done|done|]. eapply gmultiset_elem_of_subseteq; [|exact HK]. by apply root_in_pins. }
    destruct (ev_mount _ _ _ He _ _ Hmt) as (mt' & Hmt' & (_ & _ & Ep & _)). exists root, mt'.
    split_and!; [done|congruence|done].
  - intros p. rewrite (held_evolves _ _ _ He) by (intros; by eapply mnt_list_mounts). intros Hp.
    by eapply pin_of_evolves.
  - rewrite (ev_fd_file _ _ _ He). by apply Hok.
  - rewrite (ev_fd_file _ _ _ He). by apply Hok.
  - by rewrite Hpins.
Qed.

(** ** The operations of the cache, under the invariant *)

(** [L] unchanged. *)
Lemma vfs_ok_same b L s s' :
  vfs_ok b L s -> cache_ok (pins s L) s' -> evolves (pins s L) s s' -> vfs_ok b L s'.
Proof. intros Hok Hc He. eapply vfs_ok_evolves; [done..|apply base_sub|by apply Hok|by left]. Qed.

(** A node that is held stays where it is. *)
Lemma node_at_kept L s s' n m cs :
  node_at s n m cs -> evolves (pins s L) s s' -> chain m cs ⊆ L -> node_at s' n m cs.
Proof.
  intros Hat He HL. eapply node_at_evolves; [done|done|]. unfold pins. apply in_l.
  eapply gmultiset_elem_of_subseteq; [apply chain_self|done].
Qed.

(** What a walk returns: the node, held; or an error. *)
Definition acq_post (b : Z) L s (path : list Z) (r : Z * option Z) s' : Prop :=
  evolves (pins s L) s s' /\
  match r with
  | (err, Some n) => err = 0 /\ exists m p, resolves s path m p /\ node_at s' n m (comps p []) /\
                       vfs_ok (b - 1024) (chain m (comps p []) ⊎ L) s'
  | (err, None) => exists L', (L' = ∅ \/ err = -1 /\ exists m ds, L' = chain m ds) /\ vfs_ok (b - 1024) (L' ⊎ L) s'
  end.

Lemma size_chain_le m cs P b :
  (length cs < 1024)%nat -> Z.of_nat (size P) + b < 2 ^ 31 -> Z.of_nat (size (chain m cs ⊎ P)) + (b - 1024) < 2 ^ 31.
Proof. intros Hl Hb. rewrite gmultiset_size_disj_union, size_chain. lia. Qed.

Lemma acquire_ok b L s path :
  vfs_ok b L s -> is_path path -> Z.of_nat (length path) < VFS_MAX_PATH -> 2050 <= b ->
  wp never (vfs_node_acquire path) (acq_post b L s path) s.
Proof.
  intros Hok Hp Hlen Hb. pose proof (vo_room _ _ _ Hok) as Hroom.
  eapply wp_mono; [eapply (vfs_node_acquire_spec X I (pins s L))|done|];
    [apply Hok|by eapply vo_null|by eapply vo_mounts|done|done|lia|].
  intros [err np] s' [He Hor]. split; [done|].
  assert (Hadd : forall m cs, m ∈ mnt_list s -> (length cs < 1024)%nat -> cache_ok (chain m cs ⊎ pins s L) s' ->
            vfs_ok (b - 1024) (chain m cs ⊎ L) s').
  { intros m cs Hm Hl Hc. eapply vfs_ok_evolves; [done|by rewrite pins_add|done|apply base_sub| |].
    - rewrite pins_add. by apply size_chain_le.
    - intros k. rewrite gmultiset_elem_of_disj_union. intros [Hk|Hk]; [right|by left].
      by rewrite (chain_mount _ _ _ Hk). }
  destruct Hor as [[[= -> ->] ->]|(m & p & Hres & Hpp & Ha)].
  { exists ∅. split; [by left|]. rewrite (left_id_L ∅ (⊎)). eapply vfs_ok_weaken; [done|lia]. }
  assert (Hm : m ∈ mnt_list s) by by destruct Hres as (? & ? & ? & _).
  destruct np as [n|]; cbn in Ha.
  - destruct Ha as (-> & Hc & nd & Hn & Hk). split; [done|]. exists m, p. split; [done|].
    assert (Hat : node_at s' n m (comps p [])) by (split; [by apply comps_ok|by exists nd]). split; [done|].
    apply Hadd; [done|by eapply node_at_short|done].
  - destruct Ha as [Hc|(-> & ds & Hds & Hc)].
    + exists ∅. split; [by left|]. rewrite (left_id_L ∅ (⊎)). eapply vfs_ok_weaken; [by eapply vfs_ok_same|lia].
    + exists (chain m ds). split; [by eauto|by apply Hadd].
Qed.

Lemma release_ok b L s n m cs :
  vfs_ok b (chain m cs ⊎ L) s -> node_at s n m cs -> 1 <= b ->
  wp never (vfs_node_release n) (fun _ s' => vfs_ok b L s' /\ evolves (pins s L) s s') s.
Proof.
  intros Hok Hat Hb. pose proof Hat as (HF & nd & Hn & Hk). pose proof (vo_room _ _ _ Hok) as Hroom.
  rewrite pins_add in Hroom.
  eapply wp_mono; [eapply (vfs_node_release_spec X I (pins s L) s n nd m cs)|done|]; try done.
  - rewrite <- pins_add. apply Hok.
  - injection Hk as Em _. subst m. apply (vo_mounts _ _ _ Hok).
    by eapply (vo_in _ _ _ Hok).
  - lia.
  - intros _ s' [Hc He]. split; [|done]. eapply vfs_ok_evolves; [done|done|done|apply base_sub| |].
    + rewrite gmultiset_size_disj_union in Hroom. lia.
    + intros k Hin. left. by apply in_r.
Qed.

(** ** Callbacks *)

Lemma node_call_ok {A} b L s n nd (op : filesystem_t D -> op1 D A) :
  vfs_ok b L s -> nodes s !! n = Some nd -> (forall fs, fs_ok I fs -> op1_ok I (op fs)) ->
  wp never (node_call op n) (fun _ s' => vfs_ok b L s' /\ evolves (pins s L) s s' /\ kept s s') s.
Proof.
  intros Hok Hn Hop. unfold node_call. eapply wp_get_node; [done|].
  pose proof (vo_cache _ _ _ Hok) as Hc. destruct (nk_mount _ _ _ (ck_node _ _ _ _ Hc _ _ Hn)) as [mt Hm].
  eapply wp_get_mount; [done|]. eapply wp_mono; [eapply (call1_spec X I (pins s L)); try done|done|].
  - apply Hop. by eapply ck_fs.
  - intros r s' (Hc' & He & Hk). split_and!; [by eapply vfs_ok_same|done|done].
Qed.

Lemma dir_call_ok b L s n1 n2 nd1 nd2 (op : filesystem_t D -> op2 D Z) :
  vfs_ok b L s -> nodes s !! n1 = Some nd1 -> nodes s !! n2 = Some nd2 -> (forall fs, fs_ok I fs -> op2_ok I (op fs)) ->
  wp never (dir_call op n1 n2) (fun _ s' => vfs_ok b L s' /\ evolves (pins s L) s s' /\ kept s s') s.
Proof.
  intros Hok Hn1 Hn2 Hop. unfold dir_call. eapply wp_get_node; [done|].
  pose proof (vo_cache _ _ _ Hok) as Hc. destruct (nk_mount _ _ _ (ck_node _ _ _ _ Hc _ _ Hn1)) as [mt Hm].
  eapply wp_get_mount; [done|]. eapply wp_mono; [eapply (call2_spec X I (pins s L)); try done|done|].
  - apply Hop. by eapply ck_fs.
  - intros r s' (Hc' & He & Hk). split_and!; [by eapply vfs_ok_same|done|done].
Qed.

Lemma access_ok b L s n nd mode :
  vfs_ok b L s -> nodes s !! n = Some nd ->
  wp never (vfs_node_access n mode) (fun _ s' => s' = s) s.
Proof.
  intros Hok Hn. unfold vfs_node_access. eapply wp_get_node; [done|].
  pose proof (vo_cache _ _ _ Hok) as Hc. destruct (nk_mount _ _ _ (ck_node _ _ _ _ Hc _ _ Hn)) as [mt Hm].
  destruct (has mode R_OK && _); [by apply wp_ret|]. apply wp_bind.
  destruct (has mode W_OK); [eapply wp_get_mount; [done|]|]; apply wp_ret;
    [destruct (_ || _); [by apply wp_ret|]|]; destruct (_ && _); by apply wp_ret.
Qed.
End inv.
