(* ===== verification/VfsSafe.v ===== *)
(** * VfsSafe: the operations on paths and files keep the invariant

    Run from a state that satisfies the invariant, the operations of VfsOps.v return
    in a state that satisfies it, and all they took is given back.  The two ways for
    an operation on a path not to return are named by [not_bad]: it uses the node that
    a walk did not set, or waits for a lock it holds. *)

From stdpp Require Import gmultiset.
From S2P Require Import Prelude CMem Alloc Vfs VfsOps VfsPath VfsCache VfsWalk VfsInv.

Definition not_bad (e : stop) : Prop := e <> Bad.

(** A path of the caller, which fits the buffers of the walk. *)
Definition short_path (p : list Z) : Prop := is_path p /\ Z.of_nat (length p) < VFS_MAX_PATH.

Lemma short_path_take i p : short_path p -> short_path (take i p).
Proof.
  intros [Hp Hl]. split; [by apply is_path_take|]. rewrite length_take. lia.
Qed.

Lemma short_path_root : short_path [SLASH].
Proof. split; [|done]. by repeat constructor. Qed.

Section safe.
Context {S D : Type} `{KernelAlloc S} (X : gset Z) (I : D -> Prop).
Implicit Types (s : vfs S D) (L : gmultiset key).
Abbreviation vfs_ok := (vfs_ok X I).

Lemma wp_assigned {B} np (k : Z -> VM S D B) Q s :
  (forall n, np = Some n -> wp not_bad (k n) Q s) -> wp not_bad (vbind (assigned np) k) Q s.
Proof. intros Hk. destruct np as [n|]; [by apply Hk|]. by unfold wp, vbind, assigned. Qed.

Lemma pins_sub_l s A L : pins s L ⊆ pins s (A ⊎ L).
Proof. rewrite pins_add. apply sub_r. Qed.

(** ** A running operation

    It started in [s0], where [L0] was held by others; it holds [L] now. *)

Definition run (b : Z) s0 (L0 L : gmultiset key) s : Prop :=
  vfs_ok b (L ⊎ L0) s /\ evolves (pins s0 L0) s0 s /\ pins s L0 = pins s0 L0.

(** The nodes held through [L] stay. *)
Definition stable L s s' : Prop :=
  forall n m cs, node_at s n m cs -> chain m cs ⊆ L -> node_at s' n m cs.

Lemma run_start b L0 s : vfs_ok b L0 s -> run b s L0 ∅ s.
Proof. intros Hok. split_and!; [by rewrite (left_id_L ∅ (⊎))|apply evolves_refl|done]. Qed.

Lemma run_weaken b b' s0 L0 L s : run b s0 L0 L s -> b' <= b -> run b' s0 L0 L s.
Proof. intros (Hok & ? & ?) Hb. split_and!; [by eapply vfs_ok_weaken|done|done]. Qed.

Lemma run_step b b' K s0 L0 L L' s s' :
  run b s0 L0 L s -> vfs_ok b' (L' ⊎ L0) s' -> evolves K s s' -> pins s L0 ⊆ K -> run b' s0 L0 L' s'.
Proof.
  intros (Hok & He & Hp) Hok' He' HK. split_and!; [done| |].
  - eapply evolves_then; [exact He|exact He'|done|by rewrite <- Hp].
  - rewrite <- Hp. eapply (pins_evolves X I K); [exact Hok|done|apply (vo_cache _ _ _ _ _ Hok')|].
    etrans; [apply (held_sub s L0)|done].
Qed.

Lemma stable_pins L L0 s s' : evolves (pins s (L ⊎ L0)) s s' -> stable L s s'.
Proof.
  intros He n m cs Hat HL. eapply node_at_kept; [done|exact He|]. etrans; [exact HL|].
  apply gmultiset_disj_union_subseteq_l.
Qed.

Lemma run_perm b s0 L0 L L' s : run b s0 L0 L s -> L = L' -> run b s0 L0 L' s.
Proof. by intros ? <-. Qed.

(** Two operations of the code in a row. *)
Lemma run_acquire {B} E b s0 L0 L s path (k : Z * option Z -> VM S D B) Q :
  run b s0 L0 L s -> short_path path -> 2050 <= b ->
  (forall err s' L', run (b - 1024) s0 L0 (L' ⊎ L) s' -> stable L s s' -> wp E (k (err, None)) Q s') ->
  (forall n m p s', resolves s path m p -> node_at s' n m (comps p []) ->
     run (b - 1024) s0 L0 (chain m (comps p []) ⊎ L) s' -> stable L s s' -> wp E (k (0, Some n)) Q s') ->
  wp E (vbind (vfs_node_acquire path) k) Q s.
Proof.
  intros Hrun [Hp Hlen] Hb Hnone Hsome. pose proof Hrun as (Hok & _ & _).
  eapply wp_then; [by apply (acquire_ok X I b (L ⊎ L0) s path)|].
  intros [err [n|]] s' [He Hr].
  - destruct Hr as (-> & m & p & Hres & Hat & Hok'). eapply Hsome; [done|done| |by eapply stable_pins].
    eapply run_step; [done|by rewrite <- (assoc_L (⊎))|exact He|apply pins_sub_l].
  - destruct Hr as (L' & _ & Hok'). eapply (Hnone err s' L'); [|by eapply stable_pins].
    eapply run_step; [done|by rewrite <- (assoc_L (⊎))|exact He|apply pins_sub_l].
Qed.

Lemma run_release {B} E b s0 L0 L L1 s n m cs (k : unit -> VM S D B) Q :
  run b s0 L0 L s -> node_at s n m cs -> L = chain m cs ⊎ L1 -> 1 <= b ->
  (forall s', run b s0 L0 L1 s' -> stable L1 s s' -> wp E (k tt) Q s') ->
  wp E (vbind (vfs_node_release n) k) Q s.
Proof.
  intros Hrun Hat -> Hb Hk. pose proof Hrun as (Hok & _ & _). rewrite <- (assoc_L (⊎)) in Hok.
  eapply wp_then; [by eapply (release_ok X I b (L1 ⊎ L0) s n m cs)|].
  intros [] s' [Hok' He]. apply Hk; [|by eapply stable_pins].
  eapply run_step; [done|done|exact He|apply pins_sub_l].
Qed.

Lemma run_node_call {A B} E b s0 L0 L s n m cs (op : filesystem_t D -> op1 D A) (k : A -> VM S D B) Q :
  run b s0 L0 L s -> node_at s n m cs -> (forall fs, fs_ok I fs -> op1_ok I (op fs)) ->
  (forall r s', run b s0 L0 L s' -> kept s s' -> stable L s s' -> node_at s' n m cs -> wp E (k r) Q s') ->
  wp E (vbind (node_call op n) k) Q s.
Proof.
  intros Hrun (HF & nd & Hn & Hkey) Hop Hk. pose proof Hrun as (Hok & _ & _).
  eapply wp_then; [by eapply (node_call_ok X I b (L ⊎ L0) s n nd)|].
  intros r s' (Hok' & He & Hkept). eapply Hk; [|done|by eapply stable_pins|].
  - eapply run_step; [done|done|exact He|apply pins_sub_l].
  - destruct (Hkept _ _ Hn) as (nd' & Hn' & Hs & _). split; [done|]. exists nd'. split; [done|].
    by rewrite (same_node_key _ _ Hs).
Qed.

Lemma run_dir_call {B} E b s0 L0 L s n1 n2 m1 m2 cs1 cs2 (op : filesystem_t D -> op2 D Z) (k : Z -> VM S D B) Q :
  run b s0 L0 L s -> node_at s n1 m1 cs1 -> node_at s n2 m2 cs2 -> (forall fs, fs_ok I fs -> op2_ok I (op fs)) ->
  (forall r s', run b s0 L0 L s' -> stable L s s' -> wp E (k r) Q s') ->
  wp E (vbind (dir_call op n1 n2) k) Q s.
Proof.
  intros Hrun (_ & nd1 & Hn1 & _) (_ & nd2 & Hn2 & _) Hop Hk. pose proof Hrun as (Hok & _ & _).
  eapply wp_then; [by eapply (dir_call_ok X I b (L ⊎ L0) s n1 n2 nd1 nd2)|].
  intros r s' (Hok' & He & _). eapply Hk; [|by eapply stable_pins].
  eapply run_step; [done|done|exact He|apply pins_sub_l].
Qed.

Lemma run_access {B} E b s0 L0 L s n m cs mode (k : Z -> VM S D B) Q :
  run b s0 L0 L s -> node_at s n m cs -> (forall r, wp E (k r) Q s) ->
  wp E (vbind (vfs_node_access n mode) k) Q s.
Proof.
  intros (Hok & _ & _) (_ & nd & Hn & _) Hk.
  eapply wp_then; [by eapply (access_ok X I b _ s n nd)|]. by intros r s' ->.
Qed.

(** The end of an operation: what a walk without memory left is all it holds. *)
Definition finished (b : Z) s0 L0 s : Prop := exists L, run b s0 L0 L s.

(** ** Paths *)

Lemma run_lookup_dir {B} b s0 L0 L s path (k : Z * option (Z * list Z) -> VM S D B) Q :
  run b s0 L0 L s -> is_path path -> 2050 <= b ->
  (forall err s' L', err <> 0 -> run (b - 1024) s0 L0 (L' ⊎ L) s' -> stable L s s' -> wp not_bad (k (err, None)) Q s') ->
  (forall n name m cs s', node_at s' n m cs -> run (b - 1024) s0 L0 (chain m cs ⊎ L) s' -> stable L s s' ->
     wp not_bad (k (0, Some (n, name))) Q s') ->
  wp not_bad (vbind (vfs_lookup_dir path) k) Q s.
Proof.
  intros Hrun Hp Hb Hnone Hsome. unfold vfs_lookup_dir.
  assert (Hfail : wp not_bad (vbind (vret (-1, None)) k) Q s).
  { apply wp_vret, (Hnone _ _ ∅); [done| |by intros ?]. rewrite (left_id_L ∅ (⊎)). eapply run_weaken; [done|lia]. }
  destruct (strlcpy_cut path VFS_MAX_PATH) eqn:Ecut; [exact Hfail|].
  unfold strlcpy_cut in Ecut. apply Z.leb_gt in Ecut.
  destruct (strrchr_slash path) as [i|]; [|exact Hfail].
  destruct (chr path =? 0); [exact Hfail|]. apply wp_assoc.
  assert (Hdir : short_path (if (i =? 0)%nat then [SLASH] else take i path)).
  { destruct (i =? 0)%nat; [apply short_path_root|by apply short_path_take]. }
  eapply run_acquire; [done|done|done| |].
  - intros err s' L' Hrun' Hst. destruct (Z.eqb_spec err 0) as [->|Hne]; cbn [negb].
    + by apply wp_assoc, wp_assigned.
    + apply wp_vret. by eapply Hnone.
  - intros n m p s' _ Hat Hrun' Hst. cbn [Z.eqb negb]. apply wp_assoc, wp_assigned. intros n' [= <-].
    pose proof Hat as (_ & nd & Hn & _). apply wp_assoc. eapply wp_get_node; [done|].
    destruct (negb (bool_decide _)).
    + apply wp_assoc. eapply run_release; [done|done|done|lia|]. intros s2 Hrun2 Hst2. apply wp_vret.
      apply (Hnone _ _ ∅); [done|by rewrite (left_id_L ∅ (⊎))|].
      intros n1 m1 cs1 Hat1 Hsub. apply Hst2; [by apply Hst|done].
    + apply wp_vret. by eapply Hsome.
Qed.

Lemma finish {A} E b b' s0 L0 L s (a : A) : run b s0 L0 L s -> b' <= b -> wp E (vret a) (fun _ => finished b' s0 L0) s.
Proof. intros Hrun Hb. exists L. by eapply run_weaken. Qed.

Lemma release_finish {A} E b b' s0 L0 L L1 s n m cs (a : A) :
  run b s0 L0 L s -> node_at s n m cs -> L = chain m cs ⊎ L1 -> 1 <= b -> b' <= b ->
  wp E (vbind (vfs_node_release n) (fun _ => vret a)) (fun _ => finished b' s0 L0) s.
Proof.
  intros. eapply run_release; [done..|]. intros s' Hrun' _. by eapply finish.
Qed.

(** The sum of two chains and the rest, with another one first. *)
Lemma chain_swap (A B C : gmultiset key) : A ⊎ (B ⊎ C) = B ⊎ (A ⊎ C).
Proof. by rewrite !(assoc_L (⊎)), (comm_L (⊎) A B). Qed.

(** ** [vfs_access], [vfs_chmod], [vfs_stat] *)

Lemma with_node_ok {A} b L s path (fail : Z -> A) (body : Z -> VM S D A) :
  vfs_ok b L s -> short_path path -> 4096 <= b ->
  (forall n m cs s1, run (b - 1024) s L (chain m cs) s1 -> node_at s1 n m cs ->
     wp not_bad (body n) (fun _ s2 => run (b - 1024) s L (chain m cs) s2 /\ node_at s2 n m cs) s1) ->
  wp not_bad (with_node path fail body) (fun _ => finished (b - 4096) s L) s.
Proof.
  intros Hok Hp Hb Hbody. unfold with_node. apply run_start in Hok.
  eapply run_acquire; [done|done|lia| |].
  - intros err s' L' Hrun Hst. destruct (err =? 0); cbn [negb]; [by apply wp_assigned|].
    eapply finish; [done|lia].
  - intros n m p s' _ Hat Hrun Hst. cbn [Z.eqb negb]. apply wp_assigned. intros n' [= <-].
    rewrite (right_id_L ∅ (⊎)) in Hrun. eapply wp_seq; [by eapply Hbody|].
    intros r s2 [Hrun2 Hat2]. eapply (release_finish _ _ _ _ _ _ ∅); [done|done| |lia|lia].
    by rewrite (right_id_L ∅ (⊎)).
Qed.

Lemma and_then_ok {B} E (m1 m2 : VM S D Z) (k : Z -> VM S D B) Q s :
  wp E (vbind m1 (fun err => if negb (err =? 0) then k err else vbind m2 k)) Q s ->
  wp E (vbind (and_then m1 m2) k) Q s.
Proof.
  intros Hwp. unfold and_then. apply wp_assoc. unfold wp, vbind in *. destruct (m1 s) as [[err s']|e]; [|done].
  by destruct (negb (err =? 0)).
Qed.

Lemma vfs_access_ok b L s path mode :
  vfs_ok b L s -> short_path path -> 4096 <= b ->
  wp not_bad (vfs_access (Some path) mode) (fun _ => finished (b - 4096) s L) s.
Proof.
  intros Hok Hp Hb. apply with_node_ok; [done..|]. intros n m cs s1 Hrun Hat. apply wp_last.
  eapply run_access; [done|done|]. intros r. by apply wp_ret.
Qed.

Lemma vfs_chmod_ok b L s path mode :
  vfs_ok b L s -> short_path path -> 4096 <= b ->
  wp not_bad (vfs_chmod (Some path) mode) (fun _ => finished (b - 4096) s L) s.
Proof.
  intros Hok Hp Hb. apply with_node_ok; [done..|]. intros n m cs s1 Hrun Hat. apply wp_last, and_then_ok.
  eapply run_node_call; [done|done|by intros; apply ok_chmod|]. intros err s2 Hrun2 _ _ Hat2.
  destruct (negb _); [by apply wp_ret|].
  eapply run_node_call; [done|done|by intros; apply ok_sync|]. intros err' s3 Hrun3 _ _ Hat3. by apply wp_ret.
Qed.

Lemma node_stat_ok n nd s : nodes s !! n = Some nd -> exists r, vfs_node_stat n s = inl (r, s).
Proof.
  intros Hn. unfold vfs_node_stat, vbind, get_node. rewrite Hn. destruct (type_bits _); by eexists.
Qed.

Lemma vfs_stat_ok b L s path st :
  vfs_ok b L s -> short_path path -> 4096 <= b ->
  wp not_bad (vfs_stat (Some path) st) (fun _ => finished (b - 4096) s L) s.
Proof.
  intros Hok Hp Hb. unfold vfs_stat. destruct (negb st).
  { eapply finish; [by apply run_start|lia]. }
  apply with_node_ok; [done..|]. intros n m cs s1 Hrun Hat. pose proof Hat as (_ & nd & Hn & _).
  destruct (node_stat_ok n nd s1 Hn) as [[err st'] E]. unfold wp, vbind. rewrite E. by split.
Qed.

(** ** [vfs_mkdir], [vfs_unlink], [vfs_rename] *)

Lemma vfs_mkdir_ok b L s path mode :
  vfs_ok b L s -> short_path path -> 8192 <= b ->
  wp not_bad (vfs_mkdir (Some path) mode) (fun _ => finished (b - 8192) s L) s.
Proof.
  intros Hok [Hp Hl] Hb. apply run_start in Hok. unfold vfs_mkdir.
  eapply run_acquire; [done|done|lia| |].
  2:{ intros n m p s' _ Hat Hrun Hst. cbn [Z.eqb]. apply wp_assigned. intros n' [= <-].
      eapply release_finish; [done|done|done|lia|lia]. }
  intros err s' L' Hrun Hst. destruct (err =? 0); [by apply wp_assigned|].
  eapply run_lookup_dir; [done|done|lia| |].
  { intros err2 s2 L2 _ Hrun2 _. eapply finish; [done|lia]. }
  intros dn name m cs s2 Hat Hrun2 _. eapply run_access; [done|done|]. intros err2.
  destruct (negb _); [eapply release_finish; [done|done|done|lia|lia]|].
  eapply run_node_call; [done|done|by intros; apply ok_mkdir|]. intros err3 s3 Hrun3 _ _ Hat3.
  apply wp_bind. destruct (err3 =? 0).
  - apply wp_last. eapply run_node_call; [done|done|by intros; apply ok_sync|]. intros err4 s4 Hrun4 _ _ Hat4.
    apply wp_ret. eapply release_finish; [done|done|done|lia|lia].
  - apply wp_ret. eapply release_finish; [done|done|done|lia|lia].
Qed.

(** Two nodes held are given back. *)
Lemma release2_finish {A} E b b' s0 L0 L1 s n1 m1 cs1 n2 m2 cs2 (a : A) :
  run b s0 L0 (chain m1 cs1 ⊎ (chain m2 cs2 ⊎ L1)) s -> node_at s n1 m1 cs1 -> node_at s n2 m2 cs2 ->
  1 <= b -> b' <= b ->
  wp E (vbind (vfs_node_release n1) (fun _ => vbind (vfs_node_release n2) (fun _ => vret a)))
    (fun _ => finished b' s0 L0) s.
Proof.
  intros Hrun Hat1 Hat2 Hb Hb'. eapply run_release; [done|exact Hat1|done|done|].
  intros s' Hrun' Hst. eapply release_finish; [done| |done|done|done].
  apply Hst; [done|]. apply gmultiset_disj_union_subseteq_l.
Qed.

Lemma wp_mutex_lock {B} ns (k : unit -> VM S D B) Q s :
  wp not_bad (k tt) Q s -> wp not_bad (vbind (mutex_lock_all ns) k) Q s.
Proof. intros Hk. unfold mutex_lock_all. by destruct (bool_decide (NoDup ns)). Qed.

(** The node to remove is not busy, may be written, and its directory is held too. *)
Lemma remove_checks_ok b s0 L0 L1 s path n m cs (k : Z -> list Z -> VM S D Z) :
  run b s0 L0 (chain m cs ⊎ L1) s -> node_at s n m cs -> is_path path -> 4096 <= b ->
  (forall dn name m2 cs2 s', run (b - 1024) s0 L0 (chain m2 cs2 ⊎ (chain m cs ⊎ L1)) s' ->
     node_at s' n m cs -> node_at s' dn m2 cs2 ->
     wp not_bad (k dn name) (fun _ => finished (b - 4096) s0 L0) s') ->
  wp not_bad
    (let! busy := node_busy n in
     if busy then vfs_node_release n;; vret (-1)
     else
       let! err := vfs_node_access n W_OK in
       if negb (err =? 0) then vfs_node_release n;; vret err
       else
         let! '(err, dn) := vfs_lookup_dir path in
         match dn with
         | None => vfs_node_release n;; vret err
         | Some (dn, name) => k dn name
         end) (fun _ => finished (b - 4096) s0 L0) s.
Proof.
  intros Hrun Hat Hp Hb Hk. pose proof Hat as (_ & nd & Hn & _). unfold node_busy. apply wp_assoc.
  eapply wp_get_node; [done|]. apply wp_vret.
  destruct (_ || _); [eapply release_finish; [done|done|done|lia|lia]|].
  eapply run_access; [done|done|]. intros err. destruct (negb _); [eapply release_finish; [done|done|done|lia|lia]|].
  eapply run_lookup_dir; [done|done|lia| |].
  - intros err2 s2 L2 _ Hrun2 Hst. eapply release_finish; [done| |apply chain_swap|lia|lia].
    apply Hst; [done|]. apply gmultiset_disj_union_subseteq_l.
  - intros dn name m2 cs2 s2 Hat2 Hrun2 Hst. eapply Hk; [done| |done].
    apply Hst; [done|]. apply gmultiset_disj_union_subseteq_l.
Qed.

Lemma is_dir_ok {B} E n m cs (k : bool -> VM S D B) Q s :
  node_at s n m cs -> (forall r, wp E (k r) Q s) -> wp E (vbind (is_dir n) k) Q s.
Proof. intros (_ & nd & Hn & _) Hk. unfold is_dir. apply wp_assoc. eapply wp_get_node; [done|]. by apply wp_vret. Qed.

Lemma is_reg_ok {B} E n m cs (k : bool -> VM S D B) Q s :
  node_at s n m cs -> (forall r, wp E (k r) Q s) -> wp E (vbind (is_reg n) k) Q s.
Proof. intros (_ & nd & Hn & _) Hk. unfold is_reg. apply wp_assoc. eapply wp_get_node; [done|]. by apply wp_vret. Qed.

(** The node [n] is held along with its directory [dn]. *)
Lemma both_held L1 s s' n m cs dn m2 cs2 :
  stable (chain m2 cs2 ⊎ (chain m cs ⊎ L1)) s s' -> node_at s n m cs -> node_at s dn m2 cs2 ->
  node_at s' n m cs /\ node_at s' dn m2 cs2.
Proof.
  intros Hst Hat Hat2. split; apply Hst; try done.
  - etrans; [apply gmultiset_disj_union_subseteq_l|apply sub_r].
  - apply gmultiset_disj_union_subseteq_l.
Qed.

Lemma vfs_unlink_ok b L s path :
  vfs_ok b L s -> short_path path -> 8192 <= b ->
  wp not_bad (vfs_unlink (Some path)) (fun _ => finished (b - 8192) s L) s.
Proof.
  intros Hok Hp Hb. apply run_start in Hok. unfold vfs_unlink. pose proof Hp as [Hp' _].
  eapply run_acquire; [done|done|lia| |].
  { intros err s' L' Hrun Hst. destruct (err =? 0); cbn [negb]; [by apply wp_assigned|]. eapply finish; [done|lia]. }
  intros n m p s' _ Hat Hrun _. cbn [Z.eqb negb]. apply wp_assigned. intros n' [= <-].
  eapply is_dir_ok; [done|]. intros [|]; [eapply release_finish; [done|done|done|lia|lia]|].
  eapply wp_mono; [eapply remove_checks_ok; [done|done|done|lia|]|done|].
  2:{ intros _ s2 (L2 & Hrun2). exists L2. eapply run_weaken; [done|lia]. }
  intros dn name m2 cs2 s2 Hrun2 Hat2 Hatd. apply and_then_ok.
  assert (Hend : forall (err : Z) s3 b', run (b - 1024 - 1024) s L (chain m2 cs2 ⊎ (chain m (comps p []) ⊎ ∅)) s3 ->
    node_at s3 n m (comps p []) -> node_at s3 dn m2 cs2 -> b' <= b - 2048 ->
    wp not_bad (vbind (vfs_node_release dn) (fun _ => vbind (vfs_node_release n) (fun _ => vret err)))
      (fun _ => finished b' s L) s3).
  { intros err s3 b' Hrun3 Hn3 Hd3 Hb'. eapply release2_finish; [done|done|done|lia|lia]. }
  eapply run_node_call; [exact Hrun2|exact Hat2|by intros; apply ok_truncate|]. intros e1 s3 Hrun3 _ Hst3 _.
  destruct (both_held _ _ _ _ _ _ _ _ _ Hst3 Hat2 Hatd) as [Hn3 Hd3].
  destruct (negb _); [apply Hend; [done..|lia]|]. apply and_then_ok.
  eapply run_node_call; [exact Hrun3|exact Hn3|by intros; apply ok_sync|]. intros e2 s4 Hrun4 _ Hst4 _.
  destruct (both_held _ _ _ _ _ _ _ _ _ Hst4 Hn3 Hd3) as [Hn4 Hd4].
  destruct (negb _); [apply Hend; [done..|lia]|]. apply wp_assoc, wp_mutex_lock, and_then_ok.
  eapply run_dir_call; [exact Hrun4|exact Hd4|exact Hn4|by intros; apply ok_remove|]. intros e3 s5 Hrun5 Hst5.
  destruct (both_held _ _ _ _ _ _ _ _ _ Hst5 Hn4 Hd4) as [Hn5 Hd5].
  destruct (negb _); [apply Hend; [done..|lia]|].
  eapply run_node_call; [exact Hrun5|exact Hd5|by intros; apply ok_sync|]. intros e4 s6 Hrun6 _ Hst6 _.
  destruct (both_held _ _ _ _ _ _ _ _ _ Hst6 Hn5 Hd5) as [Hn6 Hd6]. apply Hend; [done..|lia].
Qed.

Lemma run_call3 {B} E b s0 L0 L s m mt n1 n2 n3 m1 m2 m3 cs1 cs2 cs3 (op : filesystem_t D -> op3 D Z) (k : Z -> VM S D B) Q :
  run b s0 L0 L s -> mounts s !! m = Some mt -> node_at s n1 m1 cs1 -> node_at s n2 m2 cs2 -> node_at s n3 m3 cs3 ->
  (forall fs, fs_ok I fs -> op3_ok I (op fs)) ->
  (forall r s', run b s0 L0 L s' -> stable L s s' -> wp E (k r) Q s') ->
  wp E (vbind (call3 mt op n1 n2 n3) k) Q s.
Proof.
  intros Hrun Hm (_ & nd1 & Hn1 & _) (_ & nd2 & Hn2 & _) (_ & nd3 & Hn3 & _) Hop Hk. pose proof Hrun as (Hok & _ & _).
  eapply wp_then; [eapply (call3_spec X I (pins s (L ⊎ L0)) s m mt n1 n2 n3 nd1 nd2 nd3); try done|].
  - apply Hok.
  - apply Hop. eapply ck_fs; [apply Hok|done].
  - intros r s' (Hc & He & _). eapply Hk; [|by eapply stable_pins].
    eapply run_step; [done|by eapply vfs_ok_same|exact He|apply pins_sub_l].
Qed.

(** The nodes [n1] and [sn] are held; [rename_to] leaves them so. *)
Lemma rename_to_ok b s0 L0 L1 s n1 sn m1 cs1 m2 cs2 sname dst :
  run b s0 L0 (chain m2 cs2 ⊎ (chain m1 cs1 ⊎ L1)) s -> node_at s n1 m1 cs1 -> node_at s sn m2 cs2 ->
  short_path dst -> 4100 <= b ->
  wp not_bad (rename_to n1 sn sname dst) (fun _ s' => exists L',
    run (b - 2048) s0 L0 (chain m2 cs2 ⊎ (chain m1 cs1 ⊎ L')) s' /\ node_at s' n1 m1 cs1 /\ node_at s' sn m2 cs2) s.
Proof.
  intros Hrun Hat1 Hat2 Hp Hb. pose proof Hp as [Hp' _]. unfold rename_to.
  set (L := chain m2 cs2 ⊎ (chain m1 cs1 ⊎ L1)) in *.
  assert (Hback : forall A, A ⊎ L = chain m2 cs2 ⊎ (chain m1 cs1 ⊎ (A ⊎ L1))).
  { intros A. unfold L. rewrite (chain_swap A). f_equal. apply chain_swap. }
  assert (Hret : forall (err : Z) b' A s', run b' s0 L0 (A ⊎ L) s' -> stable L s s' -> b - 2048 <= b' ->
    wp not_bad (vret err) (fun _ s' => exists L',
      run (b - 2048) s0 L0 (chain m2 cs2 ⊎ (chain m1 cs1 ⊎ L')) s' /\ node_at s' n1 m1 cs1 /\ node_at s' sn m2 cs2) s').
  { intros err b' A s' Hr Hst Hb'. exists (A ⊎ L1). destruct (both_held _ _ _ _ _ _ _ _ _ Hst Hat1 Hat2).
    split_and!; [|done|done]. eapply run_weaken; [by eapply run_perm|done]. }
  eapply run_acquire; [done|done|lia| |].
  2:{ intros n2 m p s' _ Hat Hrun2 Hst2. cbn [Z.eqb]. apply wp_assigned. intros n' [= <-].
      eapply run_release; [done|done|done|lia|]. intros s3 Hrun3 Hst3.
      eapply (Hret _ _ ∅); [by rewrite (left_id_L ∅ (⊎))| |lia].
      intros ? ? ? ? ?. apply Hst3; [by apply Hst2|done]. }
  intros err s2 L2 Hrun2 Hst2. destruct (err =? 0); [by apply wp_assigned|].
  eapply run_lookup_dir; [done|done|lia| |].
  { intros err2 s3 L3 _ Hrun3 Hst3. eapply (Hret _ _ (L3 ⊎ L2)); [by rewrite <- (assoc_L (⊎))| |lia].
    intros ? ? ? ? ?. apply Hst3; [by apply Hst2|]. etrans; [done|apply sub_r]. }
  intros dn dname m3 cs3 s3 Hat3 Hrun3 Hst3.
  assert (Hst : stable L s s3). { intros ? ? ? ? ?. apply Hst3; [by apply Hst2|]. etrans; [done|apply sub_r]. }
  destruct (both_held _ _ _ _ _ _ _ _ _ Hst Hat1 Hat2) as [Hn3 Hs3].
  pose proof Hs3 as (_ & snd & Hsn & _). pose proof Hat3 as (_ & dnd & Hdn & _).
  do 2 (eapply wp_get_node; [done|]).
  assert (Hend : forall (err : Z) s4, run (b - 1024 - 1024) s0 L0 (chain m3 cs3 ⊎ (L2 ⊎ L)) s4 ->
    stable (chain m3 cs3 ⊎ (L2 ⊎ L)) s3 s4 ->
    wp not_bad (vbind (vfs_node_release dn) (fun _ => vret err)) (fun _ s' => exists L',
      run (b - 2048) s0 L0 (chain m2 cs2 ⊎ (chain m1 cs1 ⊎ L')) s' /\ node_at s' n1 m1 cs1 /\ node_at s' sn m2 cs2) s4).
  { intros e s4 Hrun4 Hst4. eapply run_release; [done| |done|lia|].
    - apply Hst4; [done|apply gmultiset_disj_union_subseteq_l].
    - intros s5 Hrun5 Hst5. eapply (Hret _ _ L2); [done| |lia]. intros ? ? ? ? Hsub.
      apply Hst5; [apply Hst4; [by apply Hst|]|]; (etrans; [exact Hsub|]); [etrans; [apply sub_r|apply sub_r]|apply sub_r]. }
  destruct (negb _); [apply wp_vret, Hend; [done|by intros ?]|]. apply wp_assoc, wp_mutex_lock, wp_assoc.
  pose proof Hrun3 as (Hok3 & _ & _).
  destruct (nk_mount _ _ _ (ck_node _ _ _ _ (vo_cache _ _ _ _ _ Hok3) _ _ Hsn)) as [mt Hm].
  eapply wp_get_mount; [done|]. apply and_then_ok.
  eapply run_call3; [exact Hrun3|exact Hm|exact Hs3|exact Hn3|exact Hat3|by intros; apply ok_rename|].
  intros e1 s4 Hrun4 Hst4. destruct (negb _); [by apply Hend|]. apply and_then_ok.
  assert (Hs4 : node_at s4 sn m2 cs2).
  { apply Hst4; [done|]. etrans; [|apply sub_r]. etrans; [|apply sub_r]. apply gmultiset_disj_union_subseteq_l. }
  eapply run_node_call; [exact Hrun4|exact Hs4|by intros; apply ok_sync|]. intros e2 s5 Hrun5 _ Hst5 _.
  assert (Hst35 : stable (chain m3 cs3 ⊎ (L2 ⊎ L)) s3 s5) by (intros ? ? ? ? ?; apply Hst5; [by apply Hst4|done]).
  destruct (negb _); [by apply Hend|]. destruct (dn =? sn); [by apply wp_vret, Hend|].
  eapply run_node_call; [exact Hrun5| |by intros; apply ok_sync|].
  { apply Hst35; [exact Hat3|apply gmultiset_disj_union_subseteq_l]. }
  intros e3 s6 Hrun6 _ Hst6 _. apply Hend; [done|]. intros ? ? ? ? ?. apply Hst6; [by apply Hst35|done].
Qed.

Lemma vfs_rename_ok b L s src dst :
  vfs_ok b L s -> short_path src -> short_path dst -> 8192 <= b ->
  wp not_bad (vfs_rename src dst) (fun _ => finished (b - 8192) s L) s.
Proof.
  intros Hok Hsrc Hdst Hb. apply run_start in Hok. unfold vfs_rename. pose proof Hsrc as [Hp _].
  do 3 (destruct (_ : bool); [eapply finish; [done|lia]|]).
  eapply run_acquire; [done|done|lia| |].
  { intros err s' L' Hrun Hst. destruct (err =? 0); cbn [negb]; [by apply wp_assigned|]. eapply finish; [done|lia]. }
  intros n1 m p s1 _ Hat Hrun _. cbn [Z.eqb negb]. apply wp_assigned. intros n' [= <-].
  pose proof Hat as (_ & nd & Hn & _). eapply run_access; [done|done|]. intros err.
  destruct (negb _); [apply wp_vret; eapply release_finish; [done|done|done|lia|lia]|].
  apply wp_assoc. eapply wp_get_node; [done|].
  destruct (2 <=? _); [apply wp_vret; eapply release_finish; [done|done|done|lia|lia]|].
  apply wp_assoc. eapply run_lookup_dir; [done|done|lia| |].
  { intros err2 s2 L2 _ Hrun2 Hst. apply wp_vret. eapply release_finish; [done| |apply chain_swap|lia|lia].
    apply Hst; [done|]. apply gmultiset_disj_union_subseteq_l. }
  intros sn sname m2 cs2 s2 Hats Hrun2 Hst2. apply wp_assoc.
  eapply wp_seq; [eapply rename_to_ok; [exact Hrun2| |done|done|lia]|].
  { apply Hst2; [done|]. apply gmultiset_disj_union_subseteq_l. }
  intros err3 s3 (L3 & Hrun3 & Hn3 & Hs3). apply wp_assoc.
  eapply run_release; [exact Hrun3|exact Hs3|done|lia|]. intros s4 Hrun4 Hst4. apply wp_vret.
  eapply release_finish; [done| |done|lia|lia]. apply Hst4; [done|]. apply gmultiset_disj_union_subseteq_l.
Qed.
End safe.
