(* ===== verification/VfsFiles.v ===== *)
(** * VfsFiles: the table of open files

    An open file holds the chain of its node; opening and closing move the chain
    between the operation and the table.  The operations on a descriptor always
    return. *)

From stdpp Require Import gmultiset.
From S2P Require Import Prelude CMem Alloc Vfs VfsOps VfsPath VfsCache VfsWalk VfsInv VfsSafe.

Lemma pins_of_insert ns l i p q :
  l !! i = Some p -> pin_of ns p ⊎ pins_of ns (<[i := q]> l) = pin_of ns q ⊎ pins_of ns l.
Proof.
  revert i. induction l as [|a l IH]; intros [|i] Hi; try done; cbn in *.
  - injection Hi as ->. apply chain_swap.
  - rewrite chain_swap, IH by done. apply chain_swap.
Qed.

(** The first free descriptor. *)
Definition first_free (files : list vfs_file_t) (fd : Z) : Prop :=
  3 <= fd < VFS_MAX_FD /\ (exists f, files !! Z.to_nat fd = Some f /\ f_node f = 0) /\
  forall i f, 3 <= i < fd -> files !! Z.to_nat i = Some f -> f_node f <> 0.

Lemma fd_alloc_loop_spec files : forall k,
  (exists i f, (i < length files)%nat /\ files !! i = Some f /\ f_node f = 0 /\ fd_alloc_loop files k = k + Z.of_nat i /\
     forall j f', (j < i)%nat -> files !! j = Some f' -> f_node f' <> 0) \/
  (fd_alloc_loop files k = -1 /\ forall j f', files !! j = Some f' -> f_node f' <> 0).
Proof.
  induction files as [|f files IH]; intros k; cbn [fd_alloc_loop].
  { right. split; [done|]. by intros [|j] f'. }
  destruct (Z.eqb_spec (f_node f) 0) as [E|E].
  { left. exists 0%nat, f. split_and!; [cbn; lia|done|done|lia|]. intros; lia. }
  destruct (IH (k + 1)) as [(i & f0 & Hi & Hf & Hz & -> & Hbefore)|[-> Hall]].
  - left. exists (Datatypes.S i), f0. split_and!; [cbn; lia|done|done|lia|].
    intros [|j] f' Hj Hf'; [by injection Hf' as <-|]. eapply Hbefore; [|done]. lia.
  - right. split; [done|]. intros [|j] f' Hf'; [by injection Hf' as <-|by eapply Hall].
Qed.

Section files.
Context {S D : Type} `{KernelAlloc S} (X : gset Z) (I : D -> Prop).
Implicit Types (s : vfs S D) (L : gmultiset key).
Abbreviation cache_ok := (cache_ok X I).
Abbreviation vfs_ok := (vfs_ok X I).
Abbreviation run := (run X I).
Abbreviation finished := (finished X I).

Lemma fd_alloc_spec s :
  length (fd_file s) = Z.to_nat VFS_MAX_FD ->
  exists fd, vfs_fd_alloc s = inl (fd, s) /\
    (first_free (fd_file s) fd \/
     (fd = -1 /\ forall i f, (3 <= i)%nat -> fd_file s !! i = Some f -> f_node f <> 0)).
Proof.
  intros Hlen. unfold VFS_MAX_FD in Hlen. unfold vfs_fd_alloc, vbind, vget, vret.
  exists (fd_alloc_loop (drop 3 (fd_file s)) 3). split; [done|].
  destruct (fd_alloc_loop_spec (drop 3 (fd_file s)) 3) as [(i & f & Hi & Hf & Hz & -> & Hb)|[-> Hall]].
  - left. rewrite length_drop in Hi. rewrite lookup_drop in Hf. unfold first_free, VFS_MAX_FD. split_and!; [lia|lia| |].
    + exists f. replace (Z.to_nat (3 + Z.of_nat i)) with (3 + i)%nat by lia. done.
    + intros j f' Hj Hf'. apply (Hb (Z.to_nat j - 3)%nat); [lia|]. rewrite lookup_drop.
      by replace (3 + (Z.to_nat j - 3))%nat with (Z.to_nat j) by lia.
  - right. split; [done|]. intros i f Hi Hf. apply (Hall (i - 3)%nat). rewrite lookup_drop.
    by replace (3 + (i - 3))%nat with i by lia.
Qed.

(** The cache does not depend on the table. *)
Lemma cache_set_fd P s x : cache_ok P s -> cache_ok P (set_fd_file s x).
Proof. intros []. by split. Qed.

Lemma evolves_set_fd K s s' x : evolves K s s' -> evolves K (set_fd_file s x) (set_fd_file s' x).
Proof. intros []. by split. Qed.

(** An entry of the table changes, and the pins with it. *)
Lemma vfs_ok_put_file b L L' s i f f' :
  vfs_ok b L s -> (3 <= i)%nat -> fd_file s !! i = Some f ->
  (f_node f' = 0 \/ is_Some (nodes s !! f_node f')) ->
  pin_of (nodes s) (f_node f') ⊎ L' = pin_of (nodes s) (f_node f) ⊎ L ->
  vfs_ok b L' (set_fd_file s (<[i := f']> (fd_file s))).
Proof.
  intros Hok Hi Hf Hn HL.
  assert (Hh : held_ptrs (set_fd_file s (<[i := f']> (fd_file s))) = <[i := f_node f']> (held_ptrs s)).
  { unfold held_ptrs. cbn. rewrite list_fmap_insert, insert_app_l; [done|].
    rewrite length_fmap. by eapply lookup_lt_Some. }
  assert (Hp : held_ptrs s !! i = Some (f_node f)).
  { unfold held_ptrs. rewrite lookup_app_l; [by rewrite list_lookup_fmap, Hf|]. rewrite length_fmap. by eapply lookup_lt_Some. }
  assert (Hpins : pins (set_fd_file s (<[i := f']> (fd_file s))) L' = pins s L).
  { unfold pins. rewrite Hh. cbn [nodes mnt_list set_fd_file]. pose proof (pins_of_insert (nodes s) _ i _ (f_node f') Hp) as E.
    apply (inj (pin_of (nodes s) (f_node f) ⊎.)). rewrite (chain_swap _ L'), (chain_swap _ (roots _)), E.
    rewrite (assoc_L (⊎) (pin_of _ (f_node f)) L), <- HL, <- (assoc_L (⊎)). rewrite (chain_swap _ L'). f_equal. apply chain_swap. }
  destruct Hok. split; cbn [nodes mounts mnt_list fd_file set_fd_file]; try done.
  - rewrite Hpins. by apply cache_set_fd.
  - intros p. rewrite Hh. intros Hin. apply list_elem_of_lookup in Hin as [j Hj].
    apply list_lookup_insert_Some in Hj as [(_ & <- & _)|(_ & Hj)]; [done|].
    apply vo_held. by eapply list_elem_of_lookup_2.
  - by rewrite length_insert.
  - intros j g Hj Hg. rewrite list_lookup_insert_ne in Hg by lia. by eapply vo_std.
  - by rewrite Hpins.
Qed.

(** The open file of a descriptor. *)
Definition opened s (fd : Z) (f : vfs_file_t) (m : Z) (cs : list (list Z)) : Prop :=
  3 <= fd < VFS_MAX_FD /\ fd_file s !! Z.to_nat fd = Some f /\ node_at s (f_node f) m cs.

Lemma open_file_spec b L s fd :
  vfs_ok b L s ->
  (open_file fd s = inl (None, s) /\ forall f m cs, ~ opened s fd f m cs) \/
  exists f m cs, open_file fd s = inl (Some f, s) /\ opened s fd f m cs.
Proof.
  intros Hok. pose proof (vo_files _ _ _ _ _ Hok) as Hlen. unfold VFS_MAX_FD in Hlen.
  unfold open_file, vfs_fd_to_file, VFS_MAX_FD. destruct ((0 <=? fd) && (fd <? 256)) eqn:E.
  2:{ left. split; [done|]. intros f m cs [Hfd _]. unfold VFS_MAX_FD in Hfd. lia. }
  apply andb_true_iff in E as [E1 E2]. apply Z.leb_le in E1. apply Z.ltb_lt in E2.
  destruct (lookup_lt_is_Some_2 (fd_file s) (Z.to_nat fd)) as [f Hf]; [lia|].
  unfold vbind, get_file. rewrite Hf. unfold vret. destruct (Z.eqb_spec (f_node f) 0) as [E0|Hne].
  - left. split; [done|]. intros f' m cs (_ & Hf' & _ & nd & Hn & _). replace f' with f in Hn by congruence.
    rewrite E0 in Hn. pose proof (ck_null _ _ _ _ (vo_cache _ _ _ _ _ Hok)) as [? _]. congruence.
  - right. destruct (vo_held _ _ _ _ _ Hok (f_node f)) as [|[nd Hn]]; [|done|].
    { unfold held_ptrs. apply elem_of_app. left. apply list_elem_of_fmap. exists f. split; [done|].
      by eapply list_elem_of_lookup_2. }
    destruct (node_at_exists _ _ _ _ _ _ _ Hok Hn) as [cs Hat]. exists f, (v_mount nd), cs. split; [done|].
    unfold opened, VFS_MAX_FD. split_and!; try done.
    destruct (decide (3 <= fd)); [done|]. exfalso. apply Hne.
    eapply (vo_std _ _ _ _ _ Hok (Z.to_nat fd)); [lia|done].
Qed.

(** The chain of an open file. *)
Lemma opened_pin s fd f m cs : opened s fd f m cs -> pin_of (nodes s) (f_node f) = chain m cs.
Proof. intros (_ & _ & Hat). by apply node_at_pin. Qed.

(** A callback on the node of an open file. *)
Lemma file_call_ok {A B} E b L s fd f m cs (op : filesystem_t D -> op1 D A) (k : A -> VM S D B) Q :
  vfs_ok b L s -> opened s fd f m cs -> (forall fs, fs_ok I fs -> op1_ok I (op fs)) ->
  (forall r s', vfs_ok b L s' -> evolves (pins s L) s s' -> kept s s' -> opened s' fd f m cs -> wp E (k r) Q s') ->
  wp E (vbind (node_call op (f_node f)) k) Q s.
Proof.
  intros Hok (Hfd & Hf & HF & nd & Hn & Hk) Hop Hq.
  eapply wp_then; [by eapply (node_call_ok X I b L s (f_node f) nd)|].
  intros r s' (Hok' & He & Hkept). apply Hq; [done|done|done|].
  split; [done|]. split; [by rewrite (ev_fd_file _ _ _ He)|]. split; [done|].
  destruct (Hkept _ _ Hn) as (nd' & Hn' & Hs & _). exists nd'. split; [done|]. by rewrite (same_node_key _ _ Hs).
Qed.

Lemma set_offset_ok b L s fd f m cs off :
  vfs_ok b L s -> opened s fd f m cs ->
  vfs_ok b L (set_fd_file s (<[Z.to_nat fd := mkFile (f_node f) off (f_flags f)]> (fd_file s))).
Proof.
  intros Hok (Hfd & Hf & _ & nd & Hn & _). eapply vfs_ok_put_file; [done|lia|done|right; by exists nd|done].
Qed.

(** The other open files stay as they are. *)
Definition others_kept (fd : Z) s s' : Prop :=
  forall fd' f m cs, fd' <> fd -> opened s fd' f m cs -> opened s' fd' f m cs.

Lemma opened_held s fd f m cs : opened s fd f m cs -> (m, npath cs) ∈ pins_of (nodes s) (held_ptrs s).
Proof.
  intros Hop. eapply gmultiset_elem_of_subseteq; [apply (chain_self m cs)|].
  rewrite <- (opened_pin s fd f m cs Hop). apply pin_of_sub. destruct Hop as (_ & Hf & _).
  unfold held_ptrs. apply elem_of_app. left. apply list_elem_of_fmap. exists f. split; [done|].
  by eapply list_elem_of_lookup_2.
Qed.

Lemma opened_evolves K s s' fd f m cs :
  evolves K s s' -> pins_of (nodes s) (held_ptrs s) ⊆ K -> opened s fd f m cs -> opened s' fd f m cs.
Proof.
  intros He HK Hop. pose proof (opened_held _ _ _ _ _ Hop) as Hin. destruct Hop as (Hfd & Hf & Hat).
  split; [done|]. split; [by rewrite (ev_fd_file _ _ _ He)|].
  eapply node_at_evolves; [done|done|]. by eapply gmultiset_elem_of_subseteq.
Qed.

Lemma others_kept_evolves K fd s s' :
  evolves K s s' -> pins_of (nodes s) (held_ptrs s) ⊆ K -> others_kept fd s s'.
Proof. intros He HK fd' f m cs _. by eapply opened_evolves. Qed.

Lemma others_kept_put fd s x : 0 <= fd -> others_kept fd s (set_fd_file s (<[Z.to_nat fd := x]> (fd_file s))).
Proof.
  intros Hfd fd' f m cs Hne (Hr & Hf & Hat). split; [done|]. split; [|done]. cbn.
  rewrite list_lookup_insert_ne by lia. done.
Qed.

Lemma others_kept_trans fd s1 s2 s3 : others_kept fd s1 s2 -> others_kept fd s2 s3 -> others_kept fd s1 s3.
Proof. intros H1 H2 fd' f m cs Hne Hop. apply H2; [done|]. by apply H1. Qed.

(** The chain of the file goes, then its entry in the table. *)
Lemma close_release_ok b L s fd f m cs :
  vfs_ok b L s -> opened s fd f m cs -> 1 <= b ->
  wp never (vbind (vfs_node_release (f_node f)) (fun _ => vfs_fd_free fd)) (fun _ s' =>
    vfs_ok b L s' /\ fd_file s' = <[Z.to_nat fd := no_file]> (fd_file s) /\ others_kept fd s s' /\ mnt_list s' = mnt_list s) s.
Proof.
  intros Hok Hop Hb. pose proof Hop as (Hfd & Hf & Hat). unfold VFS_MAX_FD in Hfd.
  set (x := <[Z.to_nat fd := no_file]> (fd_file s)). set (s0 := set_fd_file s x).
  pose proof (opened_pin _ _ _ _ _ Hop) as Epin. pose proof Hat as (HF & nd & Hn & Hk).
  assert (Hok0 : vfs_ok b (chain m cs ⊎ L) s0).
  { eapply vfs_ok_put_file; [exact Hok|lia|exact Hf|by left|]. rewrite Epin. unfold pin_of. cbn [f_node no_file].
    rewrite (proj1 (ck_null _ _ _ _ (vo_cache _ _ _ _ _ Hok))). by rewrite (left_id_L ∅ (⊎)). }
  pose proof (vo_room _ _ _ _ _ Hok0) as Hroom. rewrite pins_add in Hroom.
  eapply wp_then; [eapply (vfs_node_release_spec X I (pins s0 L) s (f_node f) nd m cs); try done|].
  - rewrite <- pins_add. pose proof (cache_set_fd _ _ (fd_file s) (vo_cache _ _ _ _ _ Hok0)) as Hc. by destruct s.
  - injection Hk as Em _. subst m. apply (vo_mounts _ _ _ _ _ Hok).
    by eapply (vo_in _ _ _ _ _ Hok).
  - lia.
  - intros _ s2 [Hc2 He2]. unfold vfs_fd_free. unfold VFS_MAX_FD.
    rewrite (proj2 (Z.leb_le 3 fd)), (proj2 (Z.ltb_lt fd 256)) by lia. cbn [andb].
    eapply wp_get_file; [rewrite (ev_fd_file _ _ _ He2); exact Hf|].
    assert (f_node f <> 0) as Hf0.
    { intros E. rewrite E in Hn. pose proof (ck_null _ _ _ _ (vo_cache _ _ _ _ _ Hok)) as [? _]. congruence. }
    rewrite (proj2 (Z.eqb_neq _ 0) Hf0). cbn [negb]. apply wp_last, wp_set_file, wp_ret.
    rewrite (ev_fd_file _ _ _ He2). fold x.
    pose proof (evolves_set_fd _ _ _ x He2) as He0. fold s0 in He0. split_and!.
    + eapply (vfs_ok_evolves X I (pins s0 L) b b); [exact Hok0|by apply cache_set_fd|done|apply base_sub| |].
      * rewrite gmultiset_size_disj_union in Hroom. lia.
      * intros k Hin. left. by apply in_r.
    + done.
    + eapply others_kept_trans; [apply (others_kept_put fd s no_file); lia|].
      eapply others_kept_evolves; [exact He0|apply held_sub].
    + exact (ev_mnt_list _ _ _ He2).
Qed.

Lemma close_spec b L s fd :
  vfs_ok b L s -> 1 <= b ->
  wp never (vfs_close fd) (fun r s' => vfs_ok b L s' /\ mnt_list s' = mnt_list s /\
    (((forall f m cs, ~ opened s fd f m cs) /\ r = -1 /\ s' = s) \/
     exists f m cs, opened s fd f m cs /\ others_kept fd s s' /\
       ((r <> 0 /\ opened s' fd f m cs /\ fd_file s' = fd_file s) \/
        (r = 0 /\ fd_file s' = <[Z.to_nat fd := no_file]> (fd_file s))))) s.
Proof.
  intros Hok Hb. unfold vfs_close. apply wp_bind. unfold wp at 1.
  destruct (open_file_spec b L s fd Hok) as [[-> Hno]|(f & m & cs & -> & Hop)].
  { apply wp_ret. split_and!; [done|done|]. by left. }
  eapply file_call_ok; [done|done|by intros; apply ok_sync|]. intros err s1 Hok1 He1 _ Hop1.
  pose proof (others_kept_evolves _ fd _ _ He1 (held_sub s L)) as Hoth.
  destruct (Z.eqb_spec err 0) as [->|Hne]; cbn [negb].
  - apply (wp_assoc_rev never (vfs_node_release (f_node f)) (fun _ => vfs_fd_free fd) (fun _ => vret 0)).
    eapply wp_then; [by eapply close_release_ok|]. intros _ s2 (Hok2 & Hfd & Hoth2 & Hmnt). apply wp_ret.
    split_and!; [done|by rewrite Hmnt, (ev_mnt_list _ _ _ He1)|]. right. exists f, m, cs.
    split_and!; [done|by eapply others_kept_trans|]. right. split; [done|]. by rewrite Hfd, (ev_fd_file _ _ _ He1).
  - apply wp_ret. split_and!; [done|by rewrite (ev_mnt_list _ _ _ He1)|]. right. exists f, m, cs.
    split_and!; [done|done|]. left. split_and!; [done|done|by apply He1].
Qed.

(** ** [vfs_open] *)

Lemma mount_path_evolves K s s' m root :
  evolves K s s' -> mount_path s' m root <-> mount_path s m root.
Proof.
  intros He. split.
  - intros (mt' & Hm' & Ep & Hr). assert (m ∈ dom (mounts s)) as [mt Hm]%elem_of_dom.
    { rewrite <- (ev_dom _ _ _ He). by eapply elem_of_dom_2. }
    destruct (ev_mount _ _ _ He _ _ Hm) as (mt2 & Hm2 & (_ & _ & Ep2 & _)). exists mt. split_and!; [done| |done].
    replace mt2 with mt' in Ep2 by congruence. congruence.
  - intros (mt & Hm & Ep & Hr). destruct (ev_mount _ _ _ He _ _ Hm) as (mt2 & Hm2 & (_ & _ & Ep2 & _)).
    exists mt2. split_and!; [done|congruence|done].
Qed.

Lemma resolves_evolves K s s' path m p : evolves K s s' -> resolves s' path m p -> resolves s path m p.
Proof.
  intros He (root & rest & Hin & Hm & Hpre & E & Ep & Hmax). rewrite (ev_mnt_list _ _ _ He) in *.
  exists root, rest. rewrite (mount_path_evolves _ _ _ _ _ He) in Hm. split_and!; [done..|].
  intros m' root' Hin' Hm' Hpre'. eapply Hmax; [done| |done]. by rewrite (mount_path_evolves _ _ _ _ _ He).
Qed.

(** The access mode of the flags that are left. *)
Definition same_access (flags fl : Z) : Prop := Z.land fl O_ACCMODE = Z.land flags O_ACCMODE.

Lemma same_access_land flags x : Z.land (not32 x) O_ACCMODE = O_ACCMODE -> same_access flags (Z.land flags (not32 x)).
Proof. intros E. unfold same_access. by rewrite <- Z.land_assoc, E. Qed.

(** How the first part of [vfs_open] ends. *)
Definition open_post (b : Z) L s (path : list Z) (flags : Z) (r : Z + Z * Z) s' : Prop :=
  match r with
  | inl err => finished b s L s'
  | inr (n, fl) => exists m p L', resolves s path m p /\ node_at s' n m (comps p []) /\ same_access flags fl /\
                     run b s L (chain m (comps p []) ⊎ L') s'
  end.

Lemma run_finish b b' s0 L0 L s : run b s0 L0 L s -> b' <= b -> finished b' s0 L0 s.
Proof. intros Hr Hb. exists L. by eapply run_weaken. Qed.

(** A node taken by the last walk. *)
Lemma open_got b b' s0 L0 L s path flags fl n m p :
  run b s0 L0 (chain m (comps p []) ⊎ L) s -> node_at s n m (comps p []) -> resolves s0 path m p ->
  same_access flags fl -> b' <= b -> open_post b' L0 s0 path flags (inr (n, fl)) s.
Proof. intros Hr Hat Hres Hfl Hb. exists m, p, L. split_and!; [done..|]. by eapply run_weaken. Qed.

Lemma release_open {A} E b b' s0 L0 L s n m cs (a : A) path flags (f : A -> Z + Z * Z) err :
  run b s0 L0 (chain m cs ⊎ L) s -> node_at s n m cs -> f a = inl err -> 1 <= b -> b' <= b ->
  wp E (vbind (vfs_node_release n) (fun _ => vret (f a))) (open_post b' L0 s0 path flags) s.
Proof.
  intros Hr Hat Ef Hb Hb'. rewrite Ef. eapply run_release; [done|done|done|done|]. intros s' Hr' _.
  by eapply run_finish.
Qed.

Lemma open_existing_ok b L s path flags :
  vfs_ok b L s -> short_path path -> 8192 <= b ->
  wp not_bad (open_existing path flags) (open_post (b - 6144) L s path flags) s.
Proof.
  intros Hok Hp Hb. pose proof (run_start _ _ _ _ _ Hok) as Hrun. unfold open_existing.
  eapply run_acquire; [done|done|lia| |].
  { intros err s1 L1 Hr1 _. destruct (err =? 0); cbn [negb]; [by apply wp_assigned|]. eapply run_finish; [done|lia]. }
  intros n m p s1 Hres Hat Hr1 _. cbn [Z.eqb negb]. apply wp_assigned. intros n' [= <-].
  destruct (_ || _); [|eapply open_got; [done|done|done|done|lia]].
  eapply run_access; [done|done|]. intros err.
  destruct (negb _); [eapply (release_open _ _ _ _ _ _ _ _ _ _ err _ _ inl); [done|done|done|lia|lia]|].
  eapply is_dir_ok; [done|]. intros [|]; [|eapply open_got; [done|done|done|done|lia]].
  eapply (release_open _ _ _ _ _ _ _ _ _ _ (-1) _ _ inl); [done|done|done|lia|lia].
Qed.

Lemma open_create_ok b L s path flags mode :
  vfs_ok b L s -> short_path path -> 8192 <= b ->
  wp not_bad (open_create path flags mode) (open_post (b - 6144) L s path flags) s.
Proof.
  intros Hok Hp Hb. pose proof (run_start _ _ _ _ _ Hok) as Hrun. pose proof Hp as [Hp' _]. unfold open_create.
  eapply run_acquire; [done|done|lia| |].
  2:{ intros n m p s1 Hres Hat Hr1 _. cbn [Z.eqb negb]. apply wp_assigned. intros n' [= <-].
      destruct (has flags O_EXCL); [eapply (release_open _ _ _ _ _ _ _ _ _ _ (-1) _ _ inl); [done|done|done|lia|lia]|].
      eapply open_got; [done|done|done|by apply same_access_land|lia]. }
  intros err s1 L1 Hr1 _. destruct (err =? 0); cbn [negb]; [by apply wp_assigned|].
  eapply run_lookup_dir; [done|done|lia| |].
  { intros err2 s2 L2 _ Hr2 _. eapply run_finish; [done|lia]. }
  intros dn name m cs s2 Hat Hr2 _. eapply run_access; [done|done|]. intros err2.
  destruct (negb _); [eapply (release_open _ _ _ _ _ _ _ _ _ _ err2 _ _ inl); [done|done|done|lia|lia]|].
  eapply run_node_call; [done|done|by intros; apply ok_create|]. intros err3 s3 Hr3 _ _ Hat3.
  assert (Hend : forall err s4, run (b - 1024 - 1024) s L (chain m cs ⊎ (L1 ⊎ ∅)) s4 -> node_at s4 dn m cs ->
    wp not_bad
      (vfs_node_release dn;;
       if negb (err =? 0) then vret (inl err)
       else let! '(err, np) := vfs_node_acquire path in
            if negb (err =? 0) then vret (inl err)
            else let! n := assigned np in vret (inr (n, Z.land flags (not32 O_TRUNC))))
      (open_post (b - 6144) L s path flags) s4).
  { intros err4 s4 Hr4 Hat4. eapply run_release; [done|done|done|lia|]. intros s5 Hr5 _.
    destruct (negb _); [eapply run_finish; [done|lia]|]. eapply run_acquire; [done|done|lia| |].
    - intros err5 s6 L6 Hr6 _. destruct (err5 =? 0); cbn [negb]; [by apply wp_assigned|]. eapply run_finish; [done|lia].
    - intros n m' p s6 Hres Hat6 Hr6 _. cbn [Z.eqb negb]. apply wp_assigned. intros n' [= <-].
      eapply open_got; [done|done| |by apply same_access_land|lia]. destruct Hr5 as (_ & He5 & _).
      by eapply resolves_evolves. }
  destruct (err3 =? 0); [|by apply wp_vret, Hend].
  eapply run_node_call; [done|done|by intros; apply ok_sync|]. intros err4 s4 Hr4 _ _ Hat4. by apply Hend.
Qed.

Lemma open_truncate_ok b s0 L0 L s n fl m cs :
  run b s0 L0 (chain m cs ⊎ L) s -> node_at s n m cs -> 1 <= b ->
  wp not_bad (open_truncate n fl) (fun err s' =>
    (err <> 0 /\ finished b s0 L0 s') \/ (err = 0 /\ run b s0 L0 (chain m cs ⊎ L) s' /\ node_at s' n m cs)) s.
Proof.
  intros Hr Hat Hb. unfold open_truncate. destruct (has fl O_TRUNC); [|by right].
  eapply is_dir_ok; [done|]. intros dir. destruct (_ || _).
  { eapply run_release; [done|done|done|done|]. intros s1 Hr1 _. left. split; [done|]. eapply run_finish; [done|lia]. }
  eapply run_node_call; [done|done|by intros; apply ok_truncate|]. intros err s1 Hr1 _ _ Hat1.
  destruct (Z.eqb_spec err 0) as [->|Hne]; cbn [negb]; [by right|].
  eapply run_release; [done|done|done|done|]. intros s2 Hr2 _. left. split; [done|]. eapply run_finish; [done|lia].
Qed.

Lemma open_spec b L s path flags mode :
  vfs_ok b L s -> short_path path -> 8192 <= b ->
  wp not_bad (vfs_open (Some path) flags mode) (fun fd s' =>
    finished (b - 8192) s L s' \/
    (first_free (fd_file s) fd /\ others_kept fd s s' /\ mnt_list s' = mnt_list s /\
     exists f m p, resolves s path m p /\ opened s' fd f m (comps p []) /\
       fd_file s' = <[Z.to_nat fd := f]> (fd_file s) /\ f_offset f = 0 /\ same_access flags (f_flags f) /\
       exists L', vfs_ok (b - 8192) (L' ⊎ L) s')) s.
Proof.
  intros Hok Hp Hb. unfold vfs_open. destruct (negb _).
  { left. eapply run_finish; [by apply run_start|lia]. }
  eapply wp_seq; [destruct (has flags O_CREAT); [by apply open_create_ok|by apply open_existing_ok]|].
  intros [err|[n fl]] s1 Hpost; cbn [open_post] in Hpost.
  { apply wp_ret. left. destruct Hpost as (L1 & Hr1). eapply run_finish; [done|lia]. }
  destruct Hpost as (m & p & L1 & Hres & Hat & Hfl & Hr1).
  eapply wp_seq; [eapply open_truncate_ok; [done|done|lia]|].
  intros err s2 [[Hne (L2 & Hr2)]|(-> & Hr2 & Hat2)].
  { rewrite (proj2 (Z.eqb_neq err 0) Hne). apply wp_ret. left. eapply run_finish; [done|lia]. }
  cbn [Z.eqb negb]. pose proof Hr2 as (Hok2 & He2 & _). apply wp_bind. unfold wp at 1.
  destruct (fd_alloc_spec s2 (vo_files _ _ _ _ _ Hok2)) as (fd & -> & [Hfree|[-> _]]).
  2:{ cbn. eapply run_release; [done|done|done|lia|]. intros s3 Hr3 _. left. eapply run_finish; [done|lia]. }
  pose proof Hfree as ((Hfd & Hfd') & (f0 & Hf0 & E0) & _). rewrite (proj2 (Z.ltb_ge fd 0)) by lia.
  apply wp_set_file, wp_ret. right. pose proof Hat2 as (HF & nd & Hn & Hk).
  rewrite (ev_fd_file _ _ _ He2) in *. set (f := mkFile n 0 fl). split; [done|]. split_and!.
  - eapply others_kept_trans; [eapply others_kept_evolves; [exact He2|apply held_sub]|].
    rewrite <- (ev_fd_file _ _ _ He2). apply others_kept_put. lia.
  - exact (ev_mnt_list _ _ _ He2).
  - exists f, m, p. split_and!; [done| |done|done|done|].
    + split; [done|]. split; [|done]. cbn. rewrite list_lookup_insert_eq; [done|]. by eapply lookup_lt_Some.
    + exists L1. eapply vfs_ok_weaken; [|shelve]. rewrite <- (ev_fd_file _ _ _ He2).
      eapply vfs_ok_put_file; [exact Hok2|lia|by rewrite (ev_fd_file _ _ _ He2)|right; by exists nd|].
      change (f_node f) with n. rewrite (node_at_pin _ _ _ _ Hat2), E0. unfold pin_of at 1.
      rewrite (proj1 (ck_null _ _ _ _ (vo_cache _ _ _ _ _ Hok2))). by rewrite (left_id_L ∅ (⊎)), <- (assoc_L (⊎)).
      Unshelve. lia.
Qed.

(** ** Operations on a descriptor *)

(** The file of [fd], if it is open, then the rest. *)
Lemma with_open_file {B} E b L s fd (k : option vfs_file_t -> VM S D B) Q :
  vfs_ok b L s ->
  ((forall f m cs, ~ opened s fd f m cs) -> wp E (k None) Q s) ->
  (forall f m cs, opened s fd f m cs -> wp E (k (Some f)) Q s) ->
  wp E (vbind (open_file fd) k) Q s.
Proof.
  intros Hok Hn Hs. apply wp_bind. unfold wp at 1.
  destruct (open_file_spec b L s fd Hok) as [[-> Hno]|(f & m & cs & -> & Hop)]; eauto.
Qed.

(** The invariant holds again, and only the entry of [fd] may have changed. *)
Definition fd_post (b : Z) L (fd : Z) s s' : Prop :=
  vfs_ok b L s' /\ others_kept fd s s' /\ mnt_list s' = mnt_list s /\ length (fd_file s') = length (fd_file s).

Lemma fd_post_refl b L fd s : vfs_ok b L s -> fd_post b L fd s s.
Proof. intros Hok. split; [done|]. split; [by intros fd' f m cs|done]. Qed.

Lemma fd_post_evolves b L fd s s' : vfs_ok b L s' -> evolves (pins s L) s s' -> fd_post b L fd s s'.
Proof.
  intros Hok He. split_and!; [done|eapply others_kept_evolves; [done|apply held_sub]|by apply He|by rewrite (ev_fd_file _ _ _ He)].
Qed.

Lemma fd_post_offset b L fd s s' f m cs off :
  vfs_ok b L s' -> evolves (pins s L) s s' -> opened s' fd f m cs ->
  fd_post b L fd s (set_fd_file s' (<[Z.to_nat fd := mkFile (f_node f) off (f_flags f)]> (fd_file s'))).
Proof.
  intros Hok He Hop. destruct (fd_post_evolves b L fd s s' Hok He) as (_ & Hoth & Hmnt & Hlen). split_and!.
  - by eapply set_offset_ok.
  - eapply others_kept_trans; [exact Hoth|apply others_kept_put]. destruct Hop. lia.
  - done.
  - cbn. by rewrite length_insert.
Qed.

Lemma opened_offset s fd f m cs off :
  opened s fd f m cs ->
  opened (set_fd_file s (<[Z.to_nat fd := mkFile (f_node f) off (f_flags f)]> (fd_file s))) fd
    (mkFile (f_node f) off (f_flags f)) m cs.
Proof.
  intros (Hfd & Hf & Hat). split; [done|]. split; [|done]. cbn. rewrite list_lookup_insert_eq; [done|].
  by eapply lookup_lt_Some.
Qed.

(** The callback [op] on the node of the open file [f] returned [r]. *)
Definition file_result {A} s (f : vfs_file_t) (op : filesystem_t D -> op1 D A) (r : A) : Prop :=
  exists nd mt a d, nodes s !! f_node f = Some nd /\ mounts s !! v_mount nd = Some mt /\
    op (m_fs mt) (m_info mt) nd (vs_fsd s) = Ok (r, a, d).

Lemma file_call_result {A B} E b L s fd f m cs (op : filesystem_t D -> op1 D A) (k : A -> VM S D B) Q :
  vfs_ok b L s -> opened s fd f m cs -> (forall fs, fs_ok I fs -> op1_ok I (op fs)) ->
  (forall r s', file_result s f op r -> vfs_ok b L s' -> evolves (pins s L) s s' -> opened s' fd f m cs ->
     wp E (k r) Q s') ->
  wp E (vbind (node_call op (f_node f)) k) Q s.
Proof.
  intros Hok Hop Hops Hk. pose proof Hop as (_ & _ & HF & nd & Hn & Hkey). pose proof (vo_cache _ _ _ _ _ Hok) as Hc.
  pose proof (ck_node _ _ _ _ Hc _ _ Hn) as Hnd. destruct (nk_mount _ _ _ Hnd) as [mt Hm].
  destruct (Hops (m_fs mt) (ck_fs _ _ _ _ Hc _ _ Hm) (m_info mt) nd (vs_fsd s)) as (r & a & d & E1 & Ha & Hd);
    [apply Hnd|apply Hc|].
  assert (Hr : file_result s f op r) by by exists nd, mt, a, d.
  assert (Hcall : wp never (node_call op (f_node f)) (fun r' s' => r' = r) s).
  { unfold node_call. eapply wp_get_node; [done|]. eapply wp_get_mount; [done|]. apply wp_last.
    eapply wp_call1; [done|done|]. by apply wp_ret. }
  eapply (wp_then E _ k Q (fun r' s' => r' = r /\ vfs_ok b L s' /\ evolves (pins s L) s s' /\ opened s' fd f m cs)).
  { pose proof (file_call_ok never b L s fd f m cs op vret
      (fun r' s' => vfs_ok b L s' /\ evolves (pins s L) s s' /\ opened s' fd f m cs) Hok Hop Hops) as Hspec.
    unfold wp, vbind in *. destruct (node_call op (f_node f) s) as [[r' s']|e]; [|by apply Hcall].
    split; [done|]. by apply Hspec. }
  intros r' s' (-> & Hok' & He & Hop'). by apply Hk.
Qed.

Lemma read_spec b L s fd buf len :
  vfs_ok b L s ->
  wp never (vfs_read fd buf len) (fun r s' => fd_post b L fd s s' /\
    ((r = ([], 0) /\ s' = s) \/
     exists f m cs nd, opened s fd f m cs /\ nodes s !! f_node f = Some nd /\ v_type (v_attr nd) = VNT_REG /\
       has (f_flags f) O_RDONLY = true /\ len <> 0 /\
       file_result s f (fun fs => fs_read fs (f_offset f) len) r /\
       opened s' fd (mkFile (f_node f) (s64 (f_offset f + snd r)) (f_flags f)) m cs)) s.
Proof.
  intros Hok. unfold vfs_read. destruct (_ || _) eqn:E0; [split; [by apply fd_post_refl|by left]|].
  apply orb_false_iff in E0 as [_ E0]. apply Z.eqb_neq in E0.
  eapply with_open_file; [done|intros _; split; [by apply fd_post_refl|by left]|]. intros f m cs Hop.
  pose proof Hop as (_ & _ & _ & nd & Hn & _). unfold is_reg. apply wp_assoc. eapply wp_get_node; [done|]. apply wp_vret.
  destruct (bool_decide_reflect (v_type (v_attr nd) = VNT_REG)) as [Ht|]; cbn [negb]; [|split; [by apply fd_post_refl|by left]].
  destruct (has (f_flags f) O_RDONLY) eqn:Efl; cbn [negb]; [|split; [by apply fd_post_refl|by left]].
  eapply file_call_result; [done|done|by intros; apply ok_read|]. intros [bytes ret] s1 Hres Hok1 He1 Hop1.
  unfold set_offset. apply wp_set_file, wp_ret. split; [by eapply fd_post_offset|]. right.
  exists f, m, cs, nd. split_and!; [done..|]. by apply opened_offset.
Qed.

Lemma write_spec b L s fd buf len :
  vfs_ok b L s ->
  wp never (vfs_write fd (Some buf) len) (fun r s' => fd_post b L fd s s' /\
    ((r = 0 /\ s' = s) \/
     exists f m cs nd, opened s fd f m cs /\ nodes s !! f_node f = Some nd /\ v_type (v_attr nd) = VNT_REG /\
       has (f_flags f) O_WRONLY = true /\ len <> 0 /\
       file_result s f (fun fs => fs_write fs (f_offset f) buf len) r /\
       opened s' fd (mkFile (f_node f) (s64 (f_offset f + r)) (f_flags f)) m cs)) s.
Proof.
  intros Hok. unfold vfs_write. destruct (Z.eqb_spec len 0) as [|E0]; [split; [by apply fd_post_refl|by left]|].
  eapply with_open_file; [done|intros _; split; [by apply fd_post_refl|by left]|]. intros f m cs Hop.
  pose proof Hop as (_ & _ & _ & nd & Hn & _). unfold is_reg. apply wp_assoc. eapply wp_get_node; [done|]. apply wp_vret.
  destruct (bool_decide_reflect (v_type (v_attr nd) = VNT_REG)) as [Ht|]; cbn [negb]; [|split; [by apply fd_post_refl|by left]].
  destruct (has (f_flags f) O_WRONLY) eqn:Efl; cbn [negb]; [|split; [by apply fd_post_refl|by left]].
  eapply file_call_result; [done|done|by intros; apply ok_write|]. intros ret s1 Hres Hok1 He1 Hop1.
  unfold set_offset. apply wp_set_file, wp_ret. split; [by eapply fd_post_offset|]. right.
  exists f, m, cs, nd. split_and!; [done..|]. by apply opened_offset.
Qed.

(** The position [vfs_lseek] counts from. *)
Definition seek_base (offset size whence : Z) : Z :=
  if whence =? VFS_SEEK_SET then 0 else if whence =? VFS_SEEK_CUR then offset else size.

Lemma sadd64_ok s a c : - 2 ^ 63 <= a + c < 2 ^ 63 -> sadd64 a c s = inl (a + c, s).
Proof.
  intros Hr. unfold sadd64.
  by rewrite (proj2 (Z.leb_le (- 2 ^ 63) (a + c))), (proj2 (Z.ltb_lt (a + c) (2 ^ 63))) by lia.
Qed.

Lemma seek_target_spec s off offset size whence :
  0 <= size < 2 ^ 63 -> whence ∈ [VFS_SEEK_SET; VFS_SEEK_CUR; VFS_SEEK_END] ->
  - 2 ^ 63 <= off < 2 ^ 63 -> - 2 ^ 63 <= offset + off < 2 ^ 63 ->
  seek_target off offset size whence s =
    inl (Some (Z.min size (Z.max 0 (seek_base offset size whence + off))), s).
Proof.
  intros Hs Hw Hoff Hsum. rewrite !elem_of_cons, elem_of_nil in Hw.
  destruct Hw as [->|[->|[->|[]]]]; unfold seek_target, seek_base.
  - rewrite Z.eqb_refl. unfold vret. do 3 f_equal.
    destruct (Z.ltb_spec off 0); [lia|]. destruct (Z.ltb_spec size off); lia.
  - change (VFS_SEEK_CUR =? VFS_SEEK_SET) with false. change (VFS_SEEK_CUR =? VFS_SEEK_CUR) with true.
    unfold vbind, vret. rewrite sadd64_ok by lia. do 3 f_equal.
    destruct (Z.ltb_spec size (offset + off)); [lia|]. destruct (Z.ltb_spec (offset + off) 0); lia.
  - change (VFS_SEEK_END =? VFS_SEEK_SET) with false. change (VFS_SEEK_END =? VFS_SEEK_CUR) with false.
    change (VFS_SEEK_END =? VFS_SEEK_END) with true. unfold vbind, vret.
    destruct (Z.ltb_spec 0 off); [do 3 f_equal; lia|]. rewrite sadd64_ok by lia. do 3 f_equal.
    destruct (Z.ltb_spec (size + off) 0); lia.
Qed.

Lemma lseek_spec b L s fd f m cs nd off whence :
  vfs_ok b L s -> opened s fd f m cs -> nodes s !! f_node f = Some nd ->
  whence ∈ [VFS_SEEK_SET; VFS_SEEK_CUR; VFS_SEEK_END] ->
  - 2 ^ 63 <= off < 2 ^ 63 -> - 2 ^ 63 <= f_offset f + off < 2 ^ 63 ->
  wp never (vfs_lseek fd off whence) (fun r s' => fd_post b L fd s s' /\
    r = Z.min (v_size (v_attr nd)) (Z.max 0 (seek_base (f_offset f) (v_size (v_attr nd)) whence + off)) /\
    opened s' fd (mkFile (f_node f) r (f_flags f)) m cs) s.
Proof.
  intros Hok Hop Hn Hw Hoff Hsum. pose proof (nk_attr _ _ _ (ck_node _ _ _ _ (vo_cache _ _ _ _ _ Hok) _ _ Hn)) as Ha.
  unfold attr_ok in Ha. set (size := v_size (v_attr nd)) in *. unfold vfs_lseek.
  eapply with_open_file; [done|by intros Hno; apply Hno in Hop|]. intros f' m' cs' (_ & Hf' & _).
  assert (f' = f) as -> by (destruct Hop as (_ & Hf & _); congruence). eapply wp_get_node; [done|]. fold size.
  set (r := Z.min size (Z.max 0 (seek_base (f_offset f) size whence + off))).
  pose proof (seek_target_spec s off (f_offset f) size whence Ha Hw Hoff Hsum) as Ht. fold r in Ht.
  apply wp_bind. unfold wp at 1. rewrite Ht. rewrite (proj2 (Z.leb_le r size)) by lia.
  unfold set_offset. apply wp_set_file, wp_ret. split_and!; [|done|by apply opened_offset].
  eapply fd_post_offset; [done|apply evolves_refl|done].
Qed.
End files.
