(* ===== verification/VfsCalls.v ===== *)
(** * VfsCalls: every call of the switch keeps the invariant

    The operations on directories, mounting, and the sequences of calls a client can
    make. *)

From stdpp Require Import gmultiset.
From S2P Require Import Prelude CMem Alloc Vfs VfsOps VfsPath VfsCache VfsWalk VfsInv VfsSafe VfsFiles.

Section calls.
Context {S D : Type} `{KernelAlloc S} (X : gset Z) (I : D -> Prop).
Implicit Types (s : vfs S D) (L : gmultiset key).
Abbreviation cache_ok := (cache_ok X I).
Abbreviation vfs_ok := (vfs_ok X I).
Abbreviation run := (run X I).
Abbreviation finished := (finished X I).

(** The invariant, with what walks without memory left behind. *)
Definition still_ok (b : Z) L s : Prop := exists L', vfs_ok b (L' ⊎ L) s.

Lemma still_ok_same b b' L s : vfs_ok b L s -> b' <= b -> still_ok b' L s.
Proof. intros Hok Hb. exists ∅. rewrite (left_id_L ∅ (⊎)). by eapply vfs_ok_weaken. Qed.

Lemma still_ok_finished b b' s0 L s : finished b s0 L s -> b' <= b -> still_ok b' L s.
Proof. intros (L' & Hok & _) Hb. exists L'. by eapply vfs_ok_weaken. Qed.

Lemma still_ok_then b b' L L' s : still_ok b (L' ⊎ L) s -> b' <= b -> still_ok b' L s.
Proof. intros (L2 & Hok) Hb. exists (L2 ⊎ L'). rewrite <- (assoc_L (⊎)). by eapply vfs_ok_weaken. Qed.

(** ** Descriptors *)

Lemma fsync_ok b L s fd : vfs_ok b L s -> wp never (vfs_fsync fd) (fun _ s' => vfs_ok b L s') s.
Proof.
  intros Hok. eapply with_open_file; [done|by intros _|]. intros f m cs Hop.
  destruct (negb _); [done|]. apply wp_last.
  eapply file_call_ok; [done|done|by intros; apply ok_sync|]. by intros r s' Hok' _ _ _.
Qed.

Lemma fchmod_ok b L s fd mode : vfs_ok b L s -> wp never (vfs_fchmod fd mode) (fun _ s' => vfs_ok b L s') s.
Proof.
  intros Hok. eapply with_open_file; [done|by intros _|]. intros f m cs Hop. apply wp_last.
  eapply file_call_ok; [done|done|by intros; apply ok_chmod|]. by intros r s' Hok' _ _ _.
Qed.

Lemma fstat_ok b L s fd st : vfs_ok b L s -> wp never (vfs_fstat fd st) (fun _ s' => s' = s) s.
Proof.
  intros Hok. unfold vfs_fstat. destruct (negb st); [done|].
  eapply with_open_file; [done|by intros _|]. intros f m cs (_ & _ & _ & nd & Hn & _).
  destruct (node_stat_ok _ _ _ Hn) as [[err st'] E]. unfold wp, vbind. by rewrite E.
Qed.

Lemma readdir_ok b L s fd dir : vfs_ok b L s -> wp never (vfs_readdir fd dir) (fun r s' => vfs_ok b L s' /\ (r.1 = 0 -> r.2 <> None)) s.
Proof.
  intros Hok. unfold vfs_readdir. destruct (negb dir); [done|].
  eapply with_open_file; [done|by intros _|]. intros f m cs Hop.
  eapply is_dir_ok; [apply Hop|]. intros d. destruct (negb d); [done|].
  eapply file_call_ok; [done|done|by intros; apply ok_readdir|]. intros [err e] s' Hok' _ _ Hop'.
  destruct (err =? 0); [|done]. unfold set_offset. apply wp_set_file, wp_ret. split; [|done]. by eapply set_offset_ok.
Qed.

Lemma rewinddir_ok b L s fd : vfs_ok b L s -> wp never (vfs_rewinddir fd) (fun _ s' => vfs_ok b L s') s.
Proof.
  intros Hok. eapply with_open_file; [done|by intros _|]. intros f m cs Hop.
  eapply is_dir_ok; [apply Hop|]. intros d. destruct (negb d); [done|].
  unfold set_offset. apply wp_set_file, wp_ret. by eapply set_offset_ok.
Qed.

Lemma close_ok b L s fd : vfs_ok b L s -> 1 <= b -> wp never (vfs_close fd) (fun _ s' => vfs_ok b L s') s.
Proof. intros Hok Hb. eapply wp_mono; [by eapply close_spec|done|]. by intros r s' [Hok' _]. Qed.

Lemma closedir_ok b L s fd : vfs_ok b L s -> 1 <= b -> wp never (vfs_closedir fd) (fun _ s' => vfs_ok b L s') s.
Proof.
  intros Hok Hb. eapply with_open_file; [done|by intros _|]. intros f m cs Hop.
  eapply is_dir_ok; [apply Hop|]. intros d. destruct (negb d); [done|]. by apply close_ok.
Qed.

Lemma open_ok b L s path flags mode :
  vfs_ok b L s -> short_path path -> 8192 <= b ->
  wp not_bad (vfs_open (Some path) flags mode) (fun _ => still_ok (b - 8192) L) s.
Proof.
  intros Hok Hp Hb. eapply wp_mono; [by eapply open_spec|done|].
  intros fd s' [Hfin|(_ & _ & _ & f & m & p & _ & _ & _ & _ & _ & Hok')]; [|done]. by eapply still_ok_finished.
Qed.

Lemma opendir_ok b L s path :
  vfs_ok b L s -> short_path path -> 8193 <= b ->
  wp not_bad (vfs_opendir (Some path)) (fun _ => still_ok (b - 8192) L) s.
Proof.
  intros Hok Hp Hb. unfold vfs_opendir. eapply wp_seq; [eapply open_ok; [done|done|lia]|].
  intros fd s1 (L1 & Hok1). destruct (fd <? 0); [by exists L1|].
  eapply with_open_file; [done|intros _; by exists L1|]. intros f m cs Hop.
  eapply is_dir_ok; [apply Hop|]. intros d. destruct (negb d); [|by exists L1].
  eapply wp_then; [eapply close_ok; [done|lia]|]. intros ? s2 Hok2. by exists L1.
Qed.

Lemma check_empty_loop_ok fuel : forall b L s fd,
  vfs_ok b L s -> wp not_bad (check_empty_loop fuel fd) (fun _ s' => vfs_ok b L s') s.
Proof.
  induction fuel as [|fuel IH]; intros b L s fd Hok; [done|]. cbn [check_empty_loop].
  eapply wp_then; [by eapply readdir_ok|]. intros [err d] s1 [Hok1 Hd].
  destruct (Z.eqb_spec err 0) as [->|]; cbn [negb]; [|done]. destruct d as [d|]; [|by destruct Hd].
  destruct (_ && _); [done|by apply IH].
Qed.

Lemma check_dir_empty_ok fuel b L s path :
  vfs_ok b L s -> short_path path -> 8193 <= b ->
  wp not_bad (vfs_check_dir_empty fuel path) (fun _ => still_ok (b - 8192) L) s.
Proof.
  intros Hok Hp Hb. unfold vfs_check_dir_empty. eapply wp_seq; [by eapply opendir_ok|].
  intros fd s1 (L1 & Hok1). destruct (fd <? 0); [by exists L1|].
  eapply wp_seq; [by eapply check_empty_loop_ok|]. intros e s2 Hok2. cbn beta in Hok2.
  eapply wp_then; [eapply closedir_ok; [exact Hok2|lia]|]. intros ? s3 Hok3. by exists L1.
Qed.

(** The part of [vfs_rmdir] after the directory was found empty. *)
Lemma rmdir_node_ok b L s path :
  vfs_ok b L s -> short_path path -> 8192 <= b ->
  wp not_bad
    (let! '(err, np) := vfs_node_acquire path in
     if negb (err =? 0) then vret err
     else
       let! n := assigned np in
       let! busy := node_busy n in
       if busy then vfs_node_release n;; vret (-1)
       else
         let! err := vfs_node_access n W_OK in
         if negb (err =? 0) then vfs_node_release n;; vret err
         else
           let! '(err, dn) := vfs_lookup_dir path in
           match dn with
           | None => vfs_node_release n;; vret err
           | Some (dn, name) =>
               mutex_lock_all [dn; n];;
               let! err := and_then (dir_call (fun fs => fs_rmdir fs name) dn n)
                             (and_then (node_call fs_sync n) (node_call fs_sync dn)) in
               vfs_node_release n;;
               vfs_node_release dn;;
               vret err
           end) (fun _ => finished (b - 8192) s L) s.
Proof.
  intros Hok Hp Hb. apply run_start in Hok. pose proof Hp as [Hp' _].
  eapply run_acquire; [done|done|lia| |].
  { intros err s' L' Hrun Hst. destruct (err =? 0); cbn [negb]; [by apply wp_assigned|]. eapply finish; [done|lia]. }
  intros n m p s' _ Hat Hrun _. cbn [Z.eqb negb]. apply wp_assigned. intros n' [= <-].
  eapply wp_mono; [eapply remove_checks_ok; [done|done|done|lia|]|done|].
  2:{ intros _ s2 (L2 & Hrun2). exists L2. eapply run_weaken; [done|lia]. }
  intros dn name m2 cs2 s2 Hrun2 Hat2 Hatd. apply wp_mutex_lock, and_then_ok.
  assert (Hend : forall (err : Z) s3 b', run (b - 1024 - 1024) s L (chain m2 cs2 ⊎ (chain m (comps p []) ⊎ ∅)) s3 ->
    node_at s3 n m (comps p []) -> node_at s3 dn m2 cs2 -> b' <= b - 2048 ->
    wp not_bad (vbind (vfs_node_release n) (fun _ => vbind (vfs_node_release dn) (fun _ => vret err)))
      (fun _ => finished b' s L) s3).
  { intros err s3 b' Hrun3 Hn3 Hd3 Hb'. eapply release2_finish; [eapply run_perm; [exact Hrun3|apply chain_swap]|done|done|lia|lia]. }
  eapply run_dir_call; [exact Hrun2|exact Hatd|exact Hat2|by intros; apply ok_rmdir|]. intros e1 s3 Hrun3 Hst3.
  destruct (both_held _ _ _ _ _ _ _ _ _ Hst3 Hat2 Hatd) as [Hn3 Hd3].
  destruct (negb _); [apply Hend; [done..|lia]|]. apply and_then_ok.
  eapply run_node_call; [exact Hrun3|exact Hn3|by intros; apply ok_sync|]. intros e2 s4 Hrun4 _ Hst4 _.
  destruct (both_held _ _ _ _ _ _ _ _ _ Hst4 Hn3 Hd3) as [Hn4 Hd4].
  destruct (negb _); [apply Hend; [done..|lia]|].
  eapply run_node_call; [exact Hrun4|exact Hd4|by intros; apply ok_sync|]. intros e4 s6 Hrun6 _ Hst6 _.
  destruct (both_held _ _ _ _ _ _ _ _ _ Hst6 Hn4 Hd4) as [Hn6 Hd6]. apply Hend; [done..|lia].
Qed.

Lemma vfs_rmdir_ok fuel b L s path :
  vfs_ok b L s -> short_path path -> 16384 <= b ->
  wp not_bad (vfs_rmdir fuel (Some path)) (fun _ => still_ok (b - 16384) L) s.
Proof.
  intros Hok Hp Hb. unfold vfs_rmdir. eapply wp_seq; [eapply check_dir_empty_ok; [done|done|lia]|].
  intros err s1 (L1 & Hok1). destruct (negb _); [exists L1; eapply vfs_ok_weaken; [done|lia]|].
  eapply wp_mono; [eapply rmdir_node_ok; [exact Hok1|done|lia]|done|]. intros r s2 Hfin.
  eapply still_ok_then; [eapply still_ok_finished; [exact Hfin|reflexivity]|lia].
Qed.
End calls.
