(* ===== verification/VfsMount.v ===== *)
(** * VfsMount: mounting and unmounting keep the invariant

    While a mount [m] is being set up or taken down it has a root and a covered node
    but is not on [mnt_list].  [mounting] describes such a state by the list [l] it has
    with [m] on it. *)

From stdpp Require Import gmultiset.
From S2P Require Import Prelude CMem Alloc Vfs VfsOps VfsPath VfsCache VfsWalk VfsInv VfsSafe VfsFiles VfsCalls.

Lemma mount_nodes_zero m ns :
  (forall n nd, ns !! n = Some nd -> v_mount nd <> m) -> mount_nodes m ns = 0.
Proof.
  intros Hns. unfold mount_nodes. replace (filter _ ns) with (∅ : gmap Z vnode); [done|].
  symmetry. apply map_empty. intros n. apply map_lookup_filter_None. right. intros nd Hn. by eapply Hns.
Qed.

Lemma mount_nodes_one n1 n2 nd1 nd2 m ns :
  ns !! n1 = Some nd1 -> ns !! n2 = Some nd2 -> v_mount nd1 = m -> v_mount nd2 = m -> mount_nodes m ns <= 1 -> n1 = n2.
Proof.
  intros H1 H2 E1 E2 Hle. destruct (decide (n1 = n2)) as [|Hne]; [done|]. exfalso.
  pose proof (mount_nodes_delete m n1 nd1 ns H1) as Hd1.
  assert (H2' : delete n1 ns !! n2 = Some nd2) by by rewrite lookup_delete_ne.
  pose proof (mount_nodes_delete m n2 nd2 _ H2') as Hd2.
  rewrite !decide_True in * by done. unfold mount_nodes in *. lia.
Qed.

Section mnt.
Context {S D : Type} `{KernelAlloc S} (X : gset Z) (I : D -> Prop).
Implicit Types (s : vfs S D) (L : gmultiset key).
Abbreviation cache_ok := (cache_ok X I).
Abbreviation vfs_ok := (vfs_ok X I).
Abbreviation still_ok := (still_ok X I).

(** ** Frame *)

Lemma cache_set_mnt P s l : cache_ok P s <-> cache_ok P (set_mnt_list s l).
Proof. split; intros []; by split. Qed.

Lemma evolves_set_mnt K s s' l : evolves K s s' -> evolves K (set_mnt_list s l) (set_mnt_list s' l).
Proof. intros []. by split. Qed.

Lemma set_mnt_mnt s l l' : set_mnt_list (set_mnt_list s l) l' = set_mnt_list s l'.
Proof. done. Qed.

(** ** A mount structure comes and goes *)

Lemma cache_add_mount P s a m mt :
  cache_ok P s -> nodes s !! m = None -> mounts s !! m = None -> m <> 0 -> m ∉ X ->
  al_inv a ({[m]} ∪ (X ∪ (dom (nodes s) ∪ dom (mounts s)))) -> fs_ok I (m_fs mt) -> m_refcnt (m_info mt) = 0 ->
  cache_ok P (set_mounts (set_alloc s a) (<[m := mt]> (mounts s))).
Proof.
  intros Hc Hnn Hnm H0 HX Ha Hfs Hr. destruct Hc. split; cbn; rewrite ?dom_insert_L; try done.
  - by replace (X ∪ (dom (nodes s) ∪ ({[m]} ∪ dom (mounts s)))) with ({[m]} ∪ (X ∪ (dom (nodes s) ∪ dom (mounts s)))) by set_solver.
  - apply not_elem_of_dom in Hnn, Hnm. set_solver.
  - split; [by apply ck_null|]. rewrite lookup_insert_ne by done. by apply ck_null.
  - intros m' mt' [[-> ->]|[_ Hm']]%lookup_insert_Some; [done|by eapply ck_fs].
  - intros n nd Hn. destruct (ck_node _ _ Hn). split; try done. apply lookup_insert_is_Some.
    destruct (decide (m = v_mount nd)); auto.
  - intros m' mt' [[-> ->]|[_ Hm']]%lookup_insert_Some; [|by eapply ck_count]. rewrite Hr.
    rewrite mount_nodes_zero; [done|]. intros n nd Hn E.
    destruct (ck_node _ _ Hn) as [_ _ [mt0 Hm0] _ _]. rewrite E in Hm0. congruence.
Qed.

Lemma cache_del_mount P s a m mt :
  cache_ok P s -> mounts s !! m = Some mt -> (forall n nd, nodes s !! n = Some nd -> v_mount nd <> m) ->
  al_inv a ((X ∪ (dom (nodes s) ∪ dom (mounts s))) ∖ {[m]}) ->
  cache_ok P (set_mounts (set_alloc s a) (delete m (mounts s))).
Proof.
  intros Hc Hm Hn Ha. destruct Hc. split; cbn; rewrite ?dom_delete_L; try done.
  - apply elem_of_dom_2 in Hm.
    replace (X ∪ (dom (nodes s) ∪ dom (mounts s) ∖ {[m]})) with ((X ∪ (dom (nodes s) ∪ dom (mounts s))) ∖ {[m]}); [done|].
    set_solver.
  - set_solver.
  - split; [by apply ck_null|]. apply lookup_delete_None. right. by apply ck_null.
  - intros m' mt' [_ Hm']%lookup_delete_Some. by eapply ck_fs.
  - intros n nd Hn'. destruct (ck_node _ _ Hn'). split; try done. rewrite lookup_delete_ne; [done|].
    intros ->. by eapply Hn.
  - intros m' mt' [_ Hm']%lookup_delete_Some. by eapply ck_count.
Qed.

(** [mounts] and the allocator change in a way the tables do not see. *)
Lemma vfs_ok_mounts b L s a ms :
  vfs_ok b L s -> cache_ok (pins s L) (set_mounts (set_alloc s a) ms) ->
  (forall m, m ∈ mnt_list s -> ms !! m = mounts s !! m) ->
  vfs_ok b L (set_mounts (set_alloc s a) ms).
Proof.
  intros Hok Hc Hms. assert (Hh : held_ptrs (set_mounts (set_alloc s a) ms) = held_ptrs s).
  { unfold held_ptrs. cbn. f_equal. apply list_fmap_ext. intros i m Hi. unfold covered_of.
    rewrite Hms; [done|by eapply list_elem_of_lookup_2]. }
  assert (Hp : pins (set_mounts (set_alloc s a) ms) L = pins s L) by (unfold pins; by rewrite Hh).
  destruct Hok. split; cbn [mnt_list nodes mounts fd_file set_mounts set_alloc]; rewrite ?Hp, ?Hh; try done.
  intros m Hm. destruct (vo_mounts m Hm) as [(mt & nd & Hmt & Hn & Hk) (root & mt' & Hmt' & Er & Hr)]. split.
  - exists mt, nd. cbn. by rewrite (Hms _ Hm).
  - exists root, mt'. cbn. by rewrite (Hms _ Hm).
Qed.

Lemma free_mount_ok b L s m mt :
  vfs_ok b L s -> mounts s !! m = Some mt -> m ∉ mnt_list s ->
  wp never (free_mount m) (fun _ s' => vfs_ok b L s') s.
Proof.
  intros Hok Hm Hnot. pose proof (vo_cache _ _ _ _ _ Hok) as Hc.
  destruct (al_free_ok (vs_alloc s) _ m (ck_alloc _ _ _ _ Hc)) as (a & E & Ha).
  { apply elem_of_dom_2 in Hm. set_solver. }
  apply wp_last. eapply wp_free_mount; [exact E|]. apply wp_ret. apply (vfs_ok_mounts b L s a); [done| |].
  - eapply cache_del_mount; [done|done| |done]. intros n nd Hn Em. apply Hnot. rewrite <- Em. by eapply vo_in.
  - intros m' Hm'. apply lookup_delete_ne. by intros ->.
Qed.

(** [c] is NULL or a node that is held. *)
Definition held_or_null s (c : Z) : Prop := c = 0 \/ exists m cs, node_at s c m cs.

Lemma held_or_null_cache P s c : cache_ok P s -> c = 0 \/ is_Some (nodes s !! c) -> held_or_null s c.
Proof.
  intros Hc [->|[nd Hn]]; [by left|right]. destruct (nk_path _ _ _ (ck_node _ _ _ _ Hc _ _ Hn)) as [(cs & HF & Ep) _].
  exists (v_mount nd), cs. split; [done|]. exists nd. split; [done|]. unfold key_of. by rewrite Ep.
Qed.

Lemma release_mount_ok b L s m mt c :
  vfs_ok b (pin_of (nodes s) c ⊎ L) s -> mounts s !! m = Some mt -> m_covered (m_info mt) = c ->
  held_or_null s c -> m ∉ mnt_list s -> 1 <= b ->
  wp never (release_mount m) (fun _ s' => vfs_ok b L s') s.
Proof.
  intros Hok Hm Ec Hc Hnot Hb. unfold release_mount. eapply wp_get_mount; [done|]. rewrite Ec.
  destruct Hc as [->|(m' & cs & Hat)].
  - apply wp_vret. eapply free_mount_ok; [|done|done].
    unfold pin_of in Hok. rewrite (proj1 (ck_null _ _ _ _ (vo_cache _ _ _ _ _ Hok))) in Hok.
    by rewrite (left_id_L ∅ (⊎)) in Hok.
  - assert (c <> 0) as H0. { intros ->. destruct Hat as (_ & nd & Hn & _).
      pose proof (ck_null _ _ _ _ (vo_cache _ _ _ _ _ Hok)) as [? _]. congruence. }
    rewrite (proj2 (Z.eqb_neq c 0) H0). rewrite (node_at_pin _ _ _ _ Hat) in Hok.
    eapply wp_then; [by eapply release_ok|]. intros _ s' [Hok' He].
    destruct (ev_mount _ _ _ He _ _ Hm) as (mt' & Hm' & _).
    eapply free_mount_ok; [done|done|]. by rewrite (ev_mnt_list _ _ _ He).
Qed.

(** ** A mount that is not on the list *)

Definition mounting (b : Z) L s (l : list Z) (m n c : Z) : Prop :=
  l ≡ₚ m :: mnt_list s /\ vfs_ok b L (set_mnt_list s l) /\
  (exists mt, mounts s !! m = Some mt /\ m_root (m_info mt) = n /\ m_covered (m_info mt) = c) /\
  (forall k, k ∈ pins s (pin_of (nodes s) c ⊎ L) -> k.1 ∈ mnt_list s).

Lemma pins_of_perm ns l l' : l ≡ₚ l' -> pins_of ns l = pins_of ns l'.
Proof.
  induction 1 as [|p l l' _ IH|p q l|l1 l2 l3 _ IH1 _ IH2]; cbn [pins_of];
    [done|by rewrite IH|apply chain_swap|by rewrite IH1].
Qed.

Lemma roots_perm l l' : l ≡ₚ l' -> roots l = roots l'.
Proof. intros Hl. unfold roots. by rewrite Hl. Qed.

Lemma pins_mounting s l m c L :
  l ≡ₚ m :: mnt_list s -> covered_of (mounts s) m = c ->
  pins (set_mnt_list s l) L = {[+ (m, [SLASH]) +]} ⊎ pins s (pin_of (nodes s) c ⊎ L).
Proof.
  intros Hl Hc. unfold pins. cbn [mnt_list nodes set_mnt_list].
  rewrite (roots_perm l (m :: mnt_list s)) by done.
  rewrite (pins_of_perm (nodes s) (held_ptrs (set_mnt_list s l)) (c :: held_ptrs s)).
  2:{ unfold held_ptrs. cbn [fd_file mnt_list mounts set_mnt_list].
      rewrite (fmap_Permutation (covered_of (mounts s)) _ _ Hl). cbn. rewrite Hc. by rewrite Permutation_middle. }
  cbn [pins_of]. unfold roots at 1. rewrite fmap_cons, list_to_set_disj_cons. fold (roots (mnt_list s)).
  rewrite <- !(assoc_L (⊎)), chain_swap. f_equal. change (list_to_set_disj _) with (roots (mnt_list s)).
  by rewrite (chain_swap (roots _) (pin_of _ c)), (chain_swap L).
Qed.

Lemma mounting_facts b L s l m n c :
  mounting b L s l m n c -> (m ∉ mnt_list s) /\ covered_of (mounts s) m = c /\ m ∈ l /\ held_or_null s c /\
    exists nd, nodes s !! n = Some nd /\ key_of nd = (m, [SLASH]).
Proof.
  intros (Hl & Hok & (mt & Hm & En & Ec) & _).
  assert (Hin : m ∈ l) by (rewrite Hl; left).
  assert (Hcov : covered_of (mounts s) m = c) by (unfold covered_of; by rewrite Hm). split_and!; [|done|done| |].
  - pose proof (vo_mnt _ _ _ _ _ Hok) as Hnd. cbn in Hnd. rewrite Hl in Hnd. by apply NoDup_cons in Hnd as [? _].
  - destruct (vo_held _ _ _ _ _ Hok c) as [|[nd Hn]]; [|by left|].
    + unfold held_ptrs. apply elem_of_app. right. cbn. apply list_elem_of_fmap. by exists m.
    + right. destruct (node_at_exists _ _ _ _ _ _ _ Hok Hn) as [cs Hat]. by exists (v_mount nd), cs.
  - destruct (vo_mounts _ _ _ _ _ Hok m Hin) as [(mt' & nd & Hm' & Hn & Hk) _]. cbn in Hm', Hn.
    replace mt' with mt in Hn by congruence. rewrite En in Hn. by exists nd.
Qed.

(** Operations of the cache do not disturb it. *)
Lemma mounting_step b L s s' l m n c :
  mounting b L s l m n c -> cache_ok (pins (set_mnt_list s l) L) s' -> evolves (pins (set_mnt_list s l) L) s s' ->
  mounting b L s' l m n c.
Proof.
  intros Hmnt Hc He. pose proof (mounting_facts _ _ _ _ _ _ _ Hmnt) as (Hnot & Hcov & Hin & _ & _).
  destruct Hmnt as (Hl & Hok & (mt & Hm & En & Ec) & Hk).
  destruct (ev_mount _ _ _ He _ _ Hm) as (mt' & Hm' & (_ & _ & _ & Er & Ec')).
  assert (Hcov' : covered_of (mounts s') m = c) by (unfold covered_of; by rewrite Hm', Ec').
  assert (Hl' : l ≡ₚ m :: mnt_list s') by by rewrite (ev_mnt_list _ _ _ He).
  pose proof (evolves_set_mnt _ _ _ l He) as He'. pose proof (proj1 (cache_set_mnt _ _ l) Hc) as Hc'.
  assert (Hok' : vfs_ok b L (set_mnt_list s' l)) by by eapply vfs_ok_same.
  split_and!; [done|done|exists mt'; split_and!; [done|congruence|congruence]|].
  assert (Epins : pins (set_mnt_list s' l) L = pins (set_mnt_list s l) L).
  { eapply pins_evolves; [done|done|by apply Hc'|apply held_sub]. }
  rewrite (pins_mounting s' l m c L Hl' Hcov'), (pins_mounting s l m c L Hl Hcov) in Epins.
  apply (inj ({[+ (m, [SLASH]) +]} ⊎.)) in Epins. rewrite Epins, (ev_mnt_list _ _ _ He). done.
Qed.

(** The root of the mount is released. *)
Lemma mounting_release_root b L s l m n c :
  mounting b L s l m n c -> 1 <= b ->
  wp never (vfs_node_release n) (fun _ s' =>
    vfs_ok b (pin_of (nodes s') c ⊎ L) s' /\ held_or_null s' c /\ (m ∉ mnt_list s') /\
    mnt_list s' = mnt_list s /\
    exists mt, mounts s' !! m = Some mt /\ m_covered (m_info mt) = c) s.
Proof.
  intros Hmnt Hb. pose proof (mounting_facts _ _ _ _ _ _ _ Hmnt) as (Hnot & Hcov & Hin & Hheld & nd & Hn & Hk).
  destruct Hmnt as (Hl & Hok & (mt & Hm & En & Ec) & Hkeys).
  pose proof (vo_cache _ _ _ _ _ Hok) as Hc. pose proof (vo_room _ _ _ _ _ Hok) as Hroom.
  rewrite (pins_mounting s l m c L Hl Hcov) in Hc, Hroom. rewrite <- cache_set_mnt in Hc.
  set (P := pins s (pin_of (nodes s) c ⊎ L)) in *. unfold vfs_node_release.
  assert (n <> 0) as Hn0. { intros ->. pose proof (ck_null _ _ _ _ Hc) as [? _]. congruence. }
  rewrite (proj2 (Z.eqb_neq n 0) Hn0). eapply wp_get_node; [done|]. pose proof Hk as [= Em _]. rewrite Em.
  eapply wp_get_mount; [done|]. rewrite (proj2 (Z.eqb_eq _ _) En).
  eapply wp_mono; [eapply (vfs_node_put_spec X I P); [by rewrite Hk|done]|done|]. intros _ s' [Hc' He].
  destruct (ev_mount _ _ _ He _ _ Hm) as (mt' & Hm' & (_ & _ & _ & Er & Ec')).
  assert (Hperm : held_ptrs (set_mnt_list s l) ≡ₚ c :: held_ptrs s).
  { unfold held_ptrs. cbn [fd_file mnt_list mounts set_mnt_list].
    rewrite (fmap_Permutation (covered_of (mounts s)) _ _ Hl). cbn. rewrite Hcov. by rewrite Permutation_middle. }
  assert (HK : pins_of (nodes s) (held_ptrs (set_mnt_list s l)) ⊆ P).
  { rewrite (pins_of_perm _ _ _ Hperm). unfold P, pins. cbn [pins_of]. rewrite <- (assoc_L (⊎)).
    apply gmultiset_disj_union_mono; [done|]. etrans; [apply sub_r|apply sub_r]. }
  assert (Hpin : forall p, p ∈ c :: held_ptrs s -> pin_of (nodes s') p = pin_of (nodes s) p /\ (p = 0 \/ is_Some (nodes s' !! p))).
  { intros p Hp. rewrite <- Hperm in Hp. pose proof (evolves_set_mnt _ _ _ l He) as He'.
    eapply (pin_of_evolves X I P b L _ _ p Hok He'); [apply Hc'|done|done]. }
  assert (Hmts : forall m', m' ∈ mnt_list s -> m' ∈ l) by (intros m' Hin'; rewrite Hl; by right).
  assert (Hh : held_ptrs s' = held_ptrs s).
  { eapply held_evolves; [exact He|]. intros m' Hin'. by apply (mnt_list_mounts X I _ _ _ _ Hok), Hmts. }
  assert (EP : pins s' (pin_of (nodes s') c ⊎ L) = P).
  { unfold P, pins. rewrite Hh, (ev_mnt_list _ _ _ He), (proj1 (Hpin c (list_elem_of_here _ _))). do 2 f_equal.
    apply pins_of_ext. intros p Hp. apply Hpin. by right. }
  split_and!; [|eapply held_or_null_cache; [exact Hc'|apply Hpin; left]|by rewrite (ev_mnt_list _ _ _ He)|apply He|exists mt'; split; [done|congruence]].
  destruct Hok as [_ Hnd _ Hmounts Hheld' Hfiles Hstd _]. cbn [mnt_list fd_file set_mnt_list] in *. split.
  - by rewrite EP.
  - rewrite (ev_mnt_list _ _ _ He). rewrite Hl in Hnd. by apply NoDup_cons in Hnd as [_ ?].
  - intros n' nd' Hn'. rewrite (ev_mnt_list _ _ _ He). apply (Hkeys (key_of nd')).
    apply (nk_pinned _ _ _ (ck_node _ _ _ _ Hc' _ _ Hn')).
  - intros m'. rewrite (ev_mnt_list _ _ _ He). intros Hin'. destruct (Hmounts m' (Hmts _ Hin')) as [Hr (root & Hp)]. split.
    + change (rooted m' s) in Hr. eapply rooted_evolves; [exact Hr|exact He|]. by apply root_in_pins.
    + exists root. apply (mount_path_evolves _ _ _ _ _ He). exact Hp.
  - intros p. rewrite Hh. intros Hp. apply Hpin. by right.
  - rewrite (ev_fd_file _ _ _ He). done.
  - rewrite (ev_fd_file _ _ _ He). done.
  - rewrite EP. rewrite gmultiset_size_disj_union in Hroom. lia.
Qed.

(** ** Callbacks on the mount *)

Lemma call_mount_spec P s m mt nd dev :
  cache_ok P s -> mounts s !! m = Some mt -> nodes s !! m_root (m_info mt) = Some nd -> (dev <> None -> m_dev (m_info mt) <> 0) ->
  wp never (call_mount m dev) (fun _ s' => cache_ok P s' /\ evolves P s s') s.
Proof.
  intros Hc Hm Hn Hdev. unfold call_mount. eapply wp_get_mount; [done|]. eapply wp_get_node; [done|].
  pose proof (ck_node _ _ _ _ Hc _ _ Hn) as Hnd.
  destruct (ok_mount _ _ (ck_fs _ _ _ _ Hc _ _ Hm) dev (m_info mt) nd (vs_fsd s)) as (err & fl & x & a & d & E & Ha & Hd);
    [apply Hnd|apply Hc|done|].
  apply wp_vget. apply wp_bind. unfold wp at 1. rewrite E. cbn [vlift vret]. apply wp_vput, wp_set_mount, wp_set_node, wp_ret.
  set (mt' := mkMount (m_fs mt) (set_mdata (m_info mt) fl x)). set (s1 := set_fsd s d).
  set (s2 := set_mounts s1 (<[m := mt']> (mounts s1))).
  assert (Hc2 : cache_ok P s2) by (eapply cache_set_mount; [by apply cache_set_fsd|exact Hm|done|done]).
  split.
  - eapply cache_set_node; [exact Hc2|exact Hn|done|done|apply Hnd|apply Hnd|done|apply Hc].
  - eapply evolves_trans'; [apply (evolves_set_fsd P s d)|]. fold s1.
    eapply evolves_trans'; [eapply (evolves_set_mount P s1 m mt mt'); [exact Hm|by split_and!]|]. fold s2.
    by eapply (evolves_set_node P s2).
Qed.

Lemma callm_spec P s m mt (op : filesystem_t D -> minfo -> D -> res (Z * Z * D)) :
  cache_ok P s -> mounts s !! m = Some mt ->
  (forall fs mi d, fs_ok I fs -> I d -> exists r x d', op fs mi d = Ok (r, x, d') /\ I d') ->
  wp never (callm m op) (fun _ s' => cache_ok P s' /\ evolves P s s') s.
Proof.
  intros Hc Hm Hop. unfold callm. eapply wp_get_mount; [done|]. apply wp_vget.
  destruct (Hop (m_fs mt) (m_info mt) (vs_fsd s)) as (r & x & d & E & Hd); [by eapply ck_fs|apply Hc|].
  apply wp_bind. unfold wp at 1. rewrite E. cbn [vlift vret]. apply wp_vput, wp_set_mount, wp_ret.
  split.
  - eapply (cache_set_mount X I P (set_fsd s d)); [by apply cache_set_fsd|exact Hm|done|done].
  - eapply evolves_trans'; [apply (evolves_set_fsd P s d)|].
    eapply (evolves_set_mount P (set_fsd s d)); [exact Hm|by split_and!].
Qed.

Lemma mark_read_only_spec P s n nd :
  cache_ok P s -> nodes s !! n = Some nd -> wp never (mark_read_only n) (fun _ s' => cache_ok P s' /\ evolves P s s') s.
Proof.
  intros Hc Hn. unfold mark_read_only. eapply wp_get_node; [done|]. apply wp_put_node.
  pose proof (ck_node _ _ _ _ Hc _ _ Hn) as Hnd. split; [|by eapply evolves_set_node].
  eapply cache_set_node; [done|done|done|apply Hnd|apply Hnd|apply Hnd|done|apply Hc].
Qed.

Lemma find_mount_spec s (f : Z -> VM S D bool) l :
  (forall x, x ∈ l -> exists r, f x s = inl (r, s)) ->
  exists r, find_entry f l s = inl (r, s) /\ (r = 0 \/ r ∈ l).
Proof.
  induction l as [|x l IH]; intros Hf; cbn [find_entry]; [exists 0; by auto|].
  destruct (Hf x) as [r E]; [left|]. unfold vbind. rewrite E. destruct r.
  - exists x. split; [done|]. right. left.
  - destruct IH as (r & -> & Hr); [by intros; apply Hf; right|]. exists r. split; [done|].
    destruct Hr; [by left|right; by right].
Qed.

(** ** Setting up the root *)

Lemma pin_of_insert ns n nd nd' p :
  ns !! n = Some nd -> v_mount nd' = v_mount nd -> v_path nd' = v_path nd ->
  pin_of (<[n := nd']> ns) p = pin_of ns p.
Proof.
  intros Hn Em Ep. unfold pin_of. destruct (decide (p = n)) as [->|Hne].
  - by rewrite lookup_insert_eq, Hn, Em, Ep.
  - by rewrite lookup_insert_ne.
Qed.

(** The state [s2] has the mount without a root, in [s3] the node [n] was made for it. *)
Lemma mounting_start b L s2 s3 m mt c n nd nd' mt' :
  vfs_ok b (pin_of (nodes s2) c ⊎ L) s2 -> held_or_null s2 c -> m ∉ mnt_list s2 -> 1 <= b ->
  cache_ok ({[+ (m, [SLASH]) +]} ⊎ pins s2 (pin_of (nodes s2) c ⊎ L)) s3 ->
  evolves (pins s2 (pin_of (nodes s2) c ⊎ L)) s2 s3 ->
  nodes s3 !! n = Some nd -> key_of nd = (m, [SLASH]) -> mounts s3 !! m = Some mt ->
  v_mount nd' = v_mount nd -> v_path nd' = v_path nd -> v_refcnt nd' = v_refcnt nd -> attr_ok (v_attr nd') ->
  m_fs mt' = m_fs mt -> m_refcnt (m_info mt') = m_refcnt (m_info mt) -> m_root (m_info mt') = n ->
  m_covered (m_info mt') = c -> is_path (m_path (m_info mt')) ->
  mounting (b - 1) L (set_mounts (set_nodes s3 (<[n := nd']> (nodes s3))) (<[m := mt']> (mounts s3)))
    (m :: mnt_list s3) m n c.
Proof.
  intros Hok2 Hheld Hnot Hb Hc3 He Hn Hk Hm Em Ep Er Ha Ef Erf Eroot Ecov Hpath.
  set (P := pins s2 (pin_of (nodes s2) c ⊎ L)) in *.
  set (s4 := set_mounts (set_nodes s3 (<[n := nd']> (nodes s3))) (<[m := mt']> (mounts s3))).
  pose proof (ck_node _ _ _ _ Hc3 _ _ Hn) as Hnd.
  assert (Hc4 : cache_ok ({[+ (m, [SLASH]) +]} ⊎ P) s4).
  { eapply (cache_set_mount X I _ (set_nodes s3 (<[n := nd']> (nodes s3))) m mt mt'); [|exact Hm|done|done].
    eapply cache_set_node_key; [exact Hc3|exact Hn|done|done|done| |apply Hnd|done|apply Hc3].
    rewrite Er. apply Hnd. }
  assert (Hmne : forall m', m' ∈ mnt_list s2 -> m' <> m) by (by intros m' Hin ->).
  assert (Hh : held_ptrs s4 = held_ptrs s2).
  { rewrite <- (held_evolves _ _ _ He) by (intros; by eapply mnt_list_mounts). unfold held_ptrs. cbn. f_equal.
    apply list_fmap_ext. intros i m' Hi. unfold covered_of. rewrite lookup_insert_ne; [done|].
    apply not_eq_sym, Hmne. rewrite <- (ev_mnt_list _ _ _ He). by eapply list_elem_of_lookup_2. }
  assert (Hpin : forall p, p ∈ c :: held_ptrs s2 -> pin_of (nodes s4) p = pin_of (nodes s2) p /\ (p = 0 \/ is_Some (nodes s4 !! p))).
  { intros p Hp. cbn [nodes s4 set_mounts set_nodes]. rewrite (pin_of_insert _ n nd) by done.
    rewrite lookup_insert_is_Some.
    assert (pin_of (nodes s3) p = pin_of (nodes s2) p /\ (p = 0 \/ is_Some (nodes s3 !! p))) as [-> Hp3].
    { apply elem_of_cons in Hp as [->|Hp]; [|eapply pin_of_evolves; [done|done|apply Hc3|done|apply held_sub]].
      destruct Hheld as [->|(m' & cs & Hat)].
      - unfold pin_of. rewrite (proj1 (ck_null _ _ _ _ Hc3)), (proj1 (ck_null _ _ _ _ (vo_cache _ _ _ _ _ Hok2))). by auto.
      - pose proof (node_at_kept _ _ _ _ _ _ Hat He) as Hat'. rewrite (node_at_pin _ _ _ _ Hat) in Hat'.
        specialize (Hat' (gmultiset_disj_union_subseteq_l _ _)).
        rewrite (node_at_pin _ _ _ _ Hat), (node_at_pin _ _ _ _ Hat'). split; [done|]. right.
        destruct Hat' as (_ & nd0 & Hn0 & _). by exists nd0. }
    split; [done|]. destruct Hp3; [by left|right]. destruct (decide (n = p)); [by left|by right]. }
  assert (EP : pins s4 (pin_of (nodes s4) c ⊎ L) = P).
  { unfold P, pins. rewrite Hh, (proj1 (Hpin c (list_elem_of_here _ _))).
    cbn [mnt_list s4 set_mounts set_nodes]. rewrite (ev_mnt_list _ _ _ He). do 2 f_equal. apply pins_of_ext. intros p Hp. apply Hpin. by right. }
  assert (Hcov : covered_of (mounts s4) m = c) by (unfold covered_of; cbn; by rewrite lookup_insert_eq).
  assert (Hkeys : forall k, k ∈ P -> k.1 ∈ mnt_list s2) by (intros k Hin; by eapply pin_mount).
  pose proof (ev_mnt_list _ _ _ He) as Eml.
  split_and!; [done| |exists mt'; cbn; by rewrite lookup_insert_eq|rewrite EP; cbn; by rewrite Eml].
  assert (EP' : pins (set_mnt_list s4 (m :: mnt_list s3)) L = {[+ (m, [SLASH]) +]} ⊎ P).
  { rewrite (pins_mounting s4 _ m c L) by done. by rewrite EP. }
  split.
  - rewrite EP'. by rewrite <- cache_set_mnt.
  - cbn. apply NoDup_cons. rewrite Eml. split; [done|apply Hok2].
  - intros n' nd1 Hn'. cbn [mnt_list set_mnt_list]. rewrite Eml. pose proof (nk_pinned _ _ _ (ck_node _ _ _ _ Hc4 _ _ Hn')) as Hin.
    rewrite gmultiset_elem_of_disj_union, gmultiset_elem_of_singleton in Hin.
    destruct Hin as [E|Hin]; [injection E as -> _; left|right; by apply (Hkeys (key_of nd1))].
  - intros m' Hin. cbn in Hin. apply elem_of_cons in Hin as [->|Hin].
    + split; [|exists (m_path (m_info mt')), mt'; cbn; by rewrite lookup_insert_eq].
      exists mt', nd'. cbn. rewrite lookup_insert_eq, Eroot, lookup_insert_eq. split_and!; [done|done|].
      unfold key_of. by rewrite Em, Ep.
    + rewrite Eml in Hin. pose proof (Hmne _ Hin) as Hne. destruct (vo_mounts _ _ _ _ _ Hok2 m' Hin) as [Hr (root & Hmp)].
      pose proof (rooted_evolves _ _ _ _ Hr He (root_in_pins _ _ _ Hin)) as Hr3. clear Hr.
      apply (mount_path_evolves _ _ _ _ _ He) in Hmp. destruct Hr3 as (mt1 & rd & Hm1 & Hrn & Hrk). split.
      * exists mt1, rd. cbn. rewrite lookup_insert_ne by done. rewrite lookup_insert_ne; [done|].
        intros E. rewrite <- E in Hrn. congruence.
      * destruct Hmp as (mt2 & Hm2 & ? & ?). exists root, mt2. cbn. by rewrite lookup_insert_ne.
  - intros p Hin. apply Hpin. unfold held_ptrs in Hin. cbn in Hin. rewrite <- Hh. unfold held_ptrs. cbn [fd_file mnt_list mounts s4 set_mounts set_nodes].
    apply elem_of_app in Hin as [Hin|Hin]; [right; apply elem_of_app; by left|].
    apply elem_of_cons in Hin as [->|Hin]; [|right; apply elem_of_app; by right].
    cbn in Hcov. rewrite Hcov. left.
  - cbn. rewrite (ev_fd_file _ _ _ He). apply Hok2.
  - cbn. rewrite (ev_fd_file _ _ _ He). apply Hok2.
  - rewrite EP'. pose proof (vo_room _ _ _ _ _ Hok2) as Hroom. fold P in Hroom.
    rewrite gmultiset_size_disj_union, gmultiset_size_singleton. lia.
Qed.

(** ** [vfs_mount] *)

Lemma pin_of_null s L b : vfs_ok b L s -> pin_of (nodes s) 0 = ∅.
Proof. intros Hok. unfold pin_of. by rewrite (proj1 (ck_null _ _ _ _ (vo_cache _ _ _ _ _ Hok))). Qed.

Lemma mount_covered_ok b L s dir :
  vfs_ok b L s -> short_path dir -> 4096 <= b ->
  wp not_bad (mount_covered dir) (fun r s' => evolves (pins s L) s s' /\
    match r with
    | None => still_ok (b - 2048) L s'
    | Some c => held_or_null s' c /\ vfs_ok (b - 2048) (pin_of (nodes s') c ⊎ L) s'
    end) s.
Proof.
  intros Hok Hp Hb. unfold mount_covered. destruct (bool_decide (dir = [SLASH])).
  { apply wp_ret. split; [apply evolves_refl|]. split; [by left|]. rewrite (pin_of_null _ _ _ Hok), (left_id_L ∅ (⊎)).
    eapply vfs_ok_weaken; [done|lia]. }
  pose proof (run_start _ _ _ _ _ Hok) as Hrun.
  eapply run_acquire; [done|done|lia| |].
  - intros err s1 L1 Hr1 _. destruct (err =? 0); cbn [negb]; [by apply wp_assigned|]. apply wp_ret.
    split; [apply Hr1|]. eapply still_ok_finished; [exists (L1 ⊎ ∅); exact Hr1|lia].
  - intros n m p s1 _ Hat Hr1 _. cbn [Z.eqb negb]. apply wp_assigned. intros n' [= <-].
    pose proof Hat as (_ & nd & Hn & _). eapply wp_get_node; [done|]. destruct (negb _).
    + eapply run_release; [done|done|done|lia|]. intros s2 Hr2 _. apply wp_ret. split; [apply Hr2|].
      eapply still_ok_finished; [exists ∅; exact Hr2|lia].
    + apply wp_ret. split; [apply Hr1|]. split; [right; by exists m, (comps p [])|].
      rewrite (node_at_pin _ _ _ _ Hat). destruct Hr1 as (Hok1 & _). rewrite (right_id_L ∅ (⊎)) in Hok1.
      eapply vfs_ok_weaken; [exact Hok1|lia].
Qed.

(** The mount is taken back. *)
Lemma mounting_undo {A} E b b' L s l m n c (r : A) :
  mounting b L s l m n c -> 1 <= b -> b' <= b ->
  wp E (vbind (vfs_node_release n) (fun _ => vbind (release_mount m) (fun _ => vret r))) (fun _ => still_ok b' L) s.
Proof.
  intros Hmnt Hb Hb'. eapply wp_then; [by eapply mounting_release_root|].
  intros _ s1 (Hok1 & Hheld & Hnot & _ & mt & Hm & Ec). eapply wp_then; [by eapply release_mount_ok|].
  intros ? s2 Hok2. apply wp_ret. exact (still_ok_same X I _ _ _ _ Hok2 Hb').
Qed.

(** The last part of [vfs_mount]: the filesystem mounts, and the list is searched. *)
Lemma mount_finish_ok b L s m n c dev dir bdev :
  mounting b L s (m :: mnt_list s) m n c -> 1 <= b ->
  (forall mt, mounts s !! m = Some mt -> dev <> None -> m_dev (m_info mt) <> 0) ->
  wp not_bad
    (let! err := call_mount m dev in
     if negb (err =? 0) then vfs_node_release n;; release_mount m;; vret err
     else
       let! mt := get_mount m in
       (if has (m_flags (m_info mt)) MOUNT_RO then mark_read_only n else vret tt);;
       let! s := vget in
       let! tm := find_entry (mount_clash dir dev bdev) (mnt_list s) in
       if negb (tm =? 0) then
         let! _ := callm m fs_unmount in
         vfs_node_release n;; release_mount m;; vret (-1)
       else
         vmod (fun s => set_mnt_list s (m :: mnt_list s));;
         vret 0) (fun _ => still_ok b L) s.
Proof.
  intros Hmnt Hb Hdev. pose proof Hmnt as (_ & Hok & (mt & Hm & En & _) & _).
  pose proof (mounting_facts _ _ _ _ _ _ _ Hmnt) as (Hnot & _ & _ & _ & nd & Hn & Hk).
  pose proof (proj2 (cache_set_mnt _ _ _) (vo_cache _ _ _ _ _ Hok)) as Hc.
  eapply wp_then; [eapply call_mount_spec; [exact Hc|exact Hm|by rewrite En|by apply Hdev]|]. intros err s1 [Hc1 He1].
  pose proof (mounting_step _ _ _ _ _ _ _ _ Hmnt Hc1 He1) as Hmnt1. pose proof (ev_mnt_list _ _ _ He1) as El1.
  rewrite <- El1 in Hmnt1. destruct (negb (err =? 0)); [by eapply mounting_undo|].
  pose proof Hmnt1 as (_ & Hok1 & (mt1 & Hm1 & En1 & _) & _). eapply wp_get_mount; [done|].
  assert (Hmark : wp never (if has (m_flags (m_info mt1)) MOUNT_RO then mark_read_only n else vret tt)
            (fun _ s2 => mounting b L s2 (m :: mnt_list s2) m n c) s1).
  { destruct (has _ _); [|by apply wp_ret]. pose proof (mounting_facts _ _ _ _ _ _ _ Hmnt1) as (_ & _ & _ & _ & nd1 & Hn1 & _).
    eapply wp_mono; [eapply mark_read_only_spec; [exact (proj2 (cache_set_mnt _ _ _) (vo_cache _ _ _ _ _ Hok1))|exact Hn1]|done|].
    intros _ s2 [Hc2 He2]. rewrite (ev_mnt_list _ _ _ He2). by eapply mounting_step. }
  eapply wp_then; [exact Hmark|]. intros ? s2 Hmnt2. cbn beta in Hmnt2. apply wp_vget. pose proof Hmnt2 as (_ & Hok2 & (mt2 & Hm2 & _) & _).
  destruct (find_mount_spec s2 (mount_clash dir dev bdev) (mnt_list s2)) as (tm & E & _).
  { intros x Hx. unfold mount_clash, vbind, get_mount.
    destruct (mnt_list_mounts X I _ _ _ x Hok2) as [mtx Hx']; [by right|]. cbn in Hx'. rewrite Hx'. by eexists. }
  apply wp_bind. unfold wp at 1. rewrite E. destruct (negb (tm =? 0)).
  - eapply wp_then.
    { eapply callm_spec; [exact (proj2 (cache_set_mnt _ _ _) (vo_cache _ _ _ _ _ Hok2))|exact Hm2|].
      intros fs mi d Hfs Hd. by apply ok_unmount. }
    intros r s3 [Hc3 He3]. eapply mounting_undo; [by eapply mounting_step|done|done].
  - apply wp_vmod, wp_ret. eapply still_ok_same; [exact Hok2|done].
Qed.

(** The environment only hands out filesystems that keep their promises. *)
Definition env_ok (env : vfs_env D) : Prop :=
  (forall i fs, new_filesystem env i = Some fs -> fs_ok I fs) /\
  (forall dev d, I d -> exists d', block_sync env dev d = Ok d' /\ I d').

(** The root node of the new mount, and the rest. *)
Lemma mount_root_ok b L s m mt c dev dir bdev :
  vfs_ok b (pin_of (nodes s) c ⊎ L) s -> held_or_null s c -> m ∉ mnt_list s -> 2 <= b ->
  mounts s !! m = Some mt -> m_covered (m_info mt) = c -> is_path (m_path (m_info mt)) -> (dev <> None -> m_dev (m_info mt) <> 0) ->
  wp not_bad
    (let! n := vfs_node_get m [SLASH] in
     if n =? 0 then release_mount m;; vret (-1)
     else
       let! nd := get_node n in
       let a := v_attr nd in
       put_node n (mkNode (v_mount nd) (v_refcnt nd) (v_path nd) VNF_ROOT
         (mkAttr VNT_DIR (Z.lor S_IFDIR S_IRWX) (v_size a) (v_ctime a) (v_atime a) (v_mtime a) (v_data a)));;
       let! mt := get_mount m in
       put_mount m (mkMount (m_fs mt) (set_mroot (m_info mt) n));;
       let! err := call_mount m dev in
       if negb (err =? 0) then vfs_node_release n;; release_mount m;; vret err
       else
         let! mt := get_mount m in
         (if has (m_flags (m_info mt)) MOUNT_RO then mark_read_only n else vret tt);;
         let! s := vget in
         let! tm := find_entry (mount_clash dir dev bdev) (mnt_list s) in
         if negb (tm =? 0) then
           let! _ := callm m fs_unmount in
           vfs_node_release n;; release_mount m;; vret (-1)
         else
           vmod (fun s => set_mnt_list s (m :: mnt_list s));;
           vret 0) (fun _ => still_ok (b - 1) L) s.
Proof.
  intros Hok Hheld Hnot Hb Hm Ec Hpath Hdev. pose proof (vo_cache _ _ _ _ _ Hok) as Hc. pose proof (vo_room _ _ _ _ _ Hok) as Hroom.
  eapply wp_then; [eapply (vfs_node_get_spec X I _ s m mt [SLASH] Hc Hm)|].
  - split; [|done]. exists []. split; [constructor|done].
  - intros Hin. apply Hnot. by apply (pin_mount X I _ _ _ _ Hok) in Hin.
  - lia.
  - intros n s1 [(-> & Hc1 & He1)|(Hn0 & _ & (nd & Hn & Hk) & Hc1 & He1)].
    + cbn [Z.eqb]. assert (Hok1 : vfs_ok b (pin_of (nodes s) c ⊎ L) s1) by by eapply vfs_ok_same.
      destruct (ev_mount _ _ _ He1 _ _ Hm) as (mt1 & Hm1 & (_ & _ & _ & _ & Ec1)).
      assert (held_or_null s1 c /\ pin_of (nodes s1) c = pin_of (nodes s) c) as [Hheld1 Epin].
      { destruct Hheld as [->|(m' & cs & Hat)].
        - split; [by left|]. by rewrite (pin_of_null _ _ _ Hok), (pin_of_null _ _ _ Hok1).
        - assert (Hat1 : node_at s1 c m' cs).
          { eapply node_at_kept; [done|exact He1|]. rewrite (node_at_pin _ _ _ _ Hat). apply gmultiset_disj_union_subseteq_l. }
          split; [right; by exists m', cs|]. by rewrite (node_at_pin _ _ _ _ Hat), (node_at_pin _ _ _ _ Hat1). }
      rewrite <- Epin in Hok1. eapply wp_then; [eapply release_mount_ok; [exact Hok1|exact Hm1|congruence|done| |lia]|].
      * by rewrite (ev_mnt_list _ _ _ He1).
      * intros ? s2 Hok2. apply wp_ret. eapply (still_ok_same X I); [exact Hok2|lia].
    + rewrite (proj2 (Z.eqb_neq n 0) Hn0). eapply wp_get_node; [done|]. apply wp_set_node.
      destruct (ev_mount _ _ _ He1 _ _ Hm) as (mt1 & Hm1 & (_ & Ed1 & Ep1 & _ & Ec1)).
      eapply wp_get_mount; [exact Hm1|]. apply wp_set_mount.
      pose proof (nk_attr _ _ _ (ck_node _ _ _ _ Hc1 _ _ Hn)) as Ha.
      set (nd' := mkNode _ _ _ _ _). set (mt' := mkMount _ _).
      eapply (mount_finish_ok (b - 1) L); [|lia|intros mt2; cbn; rewrite lookup_insert_eq; intros [= <-]; cbn; rewrite Ed1; exact Hdev].
      apply (mounting_start b L s s1 m mt1 c n nd nd' mt'); try done; [lia|cbn; congruence|].
      cbn. by rewrite Ep1.
Qed.

Lemma vfs_mount_ok b L s (env : vfs_env D) dev dir fsname flags :
  env_ok env -> vfs_ok b L s -> is_path dir -> 4096 <= b ->
  wp not_bad (vfs_mount env dev (Some dir) fsname flags) (fun _ => still_ok (b - 4096) L) s.
Proof.
  intros [Henv _] Hok Hp Hb.
  assert (Hfail : forall r : Z, wp not_bad (vret r) (fun _ => still_ok (b - 4096) L) s).
  { intros r. apply wp_ret. eapply still_ok_same; [exact Hok|lia]. }
  unfold vfs_mount. destruct dir as [|ch dir0]; [apply Hfail|]. set (dir := ch :: dir0) in *.
  unfold search_filesystem. destruct fsname as [name|]; [|apply wp_vret, Hfail]. apply wp_assoc, wp_vget.
  destruct (fs_map s !! name) as [i|]; [|apply wp_vret, Hfail]. apply wp_vret.
  destruct (new_filesystem env i) as [fs|] eqn:Efs; [|apply Hfail]. apply wp_vget.
  set (bdev := match dev with Some _ => _ | None => 0 end). destruct (_ && _) eqn:Ebdev; [apply Hfail|].
  assert (Hbdev : dev <> None -> bdev <> 0) by (destruct dev; [intros _ E0; rewrite E0 in Ebdev; done|done]).
  pose proof (vo_cache _ _ _ _ _ Hok) as Hc.
  destruct (al_calloc_ok (vs_alloc s) _ sizeof_vfs_mount (ck_alloc _ _ _ _ Hc)) as (a & m & E & Hor);
    [by unfold sizeof_vfs_mount|].
  eapply wp_vcalloc; [exact E|]. destruct Hor as [[-> ->]|(Hm0 & HmX & Ha)].
  { apply wp_ret. eapply still_ok_same; [|instantiate (1 := b); lia].
    destruct s; exact Hok. }
  rewrite (proj2 (Z.eqb_neq m 0) Hm0). apply wp_set_mount. set (mt := mkMount fs _).
  assert (nodes s !! m = None /\ mounts s !! m = None /\ m ∉ X) as (Hnn & Hnm & HmX').
  { rewrite !not_elem_of_union in HmX. destruct HmX as (? & ? & ?). by rewrite <- !not_elem_of_dom. }
  assert (Hnot : m ∉ mnt_list s).
  { intros Hin. destruct (mnt_list_mounts X I _ _ _ _ Hok Hin) as [? ?]. congruence. }
  set (s1 := set_mounts _ _).
  assert (Hok1 : vfs_ok b L s1).
  { apply (vfs_ok_mounts b L s a (<[m := mt]> (mounts s))); [done| |].
    - by apply cache_add_mount; [..|by eapply Henv|].
    - intros m' Hm'. apply lookup_insert_ne. by intros ->. }
  assert (Hm1 : mounts s1 !! m = Some mt) by apply lookup_insert_eq.
  destruct (strlcpy_cut dir VFS_MAX_PATH) eqn:Ecut.
  { eapply wp_then; [by eapply free_mount_ok|]. intros ? s2 Hok2. apply wp_ret. eapply (still_ok_same X I); [exact Hok2|lia]. }
  unfold strlcpy_cut in Ecut. apply Z.leb_gt in Ecut.
  eapply wp_seq; [by eapply (mount_covered_ok b L)|]. intros cov s2 [He2 Hcov].
  destruct (ev_mount _ _ _ He2 _ _ Hm1) as (mt2 & Hm2 & (_ & Ed2 & Ep2 & _)).
  assert (Hnot2 : m ∉ mnt_list s2) by by rewrite (ev_mnt_list _ _ _ He2).
  destruct cov as [c|].
  - destruct Hcov as [Hheld Hok2]. eapply wp_get_mount; [exact Hm2|]. apply wp_set_mount.
    set (mt3 := mkMount (m_fs mt2) (set_mcovered (m_info mt2) c)). set (s3 := set_mounts s2 _).
    eapply wp_mono; [eapply (mount_root_ok (b - 2048) L s3 m mt3 c)|done|].
    + assert (Es3 : s3 = set_mounts (set_alloc s2 (vs_alloc s2)) (<[m := mt3]> (mounts s2))) by by destruct s2.
      rewrite Es3. apply (vfs_ok_mounts (b - 2048) (pin_of (nodes s2) c ⊎ L) s2 (vs_alloc s2)); [done| |].
      * pose proof (cache_set_mount X I _ s2 m mt2 mt3 (vo_cache _ _ _ _ _ Hok2) Hm2 eq_refl eq_refl) as Hc3. by destruct s2.
      * intros m' Hm'. apply lookup_insert_ne. by intros ->.
    + done.
    + done.
    + lia.
    + apply lookup_insert_eq.
    + done.
    + cbn. by rewrite Ep2.
    + cbn. rewrite Ed2. exact Hbdev.
    + intros r s4 (L4 & Hok4). exists L4. eapply vfs_ok_weaken; [exact Hok4|lia].
  - destruct Hcov as (L2 & Hok2). eapply wp_then; [by eapply free_mount_ok|]. intros ? s3 Hok3. apply wp_ret.
    exists L2. eapply vfs_ok_weaken; [exact Hok3|lia].
Qed.

(** ** [vfs_unmount] *)

(** No file is open on the mount and nothing is mounted on it: its root is the only
    node of it in memory, and the mount is the only one that refers to it. *)
Definition unmountable s (m : Z) : Prop :=
  exists mt nd, mounts s !! m = Some mt /\ nodes s !! m_root (m_info mt) = Some nd /\ v_refcnt nd = 1 /\
    mount_nodes m (nodes s) < 2 ^ 31.

Lemma unmount_mounting b L s m mt :
  vfs_ok b L s -> m ∈ mnt_list s -> mounts s !! m = Some mt -> m_refcnt (m_info mt) <= 1 -> unmountable s m ->
  mounting b L (set_mnt_list s (remove_ptr m (mnt_list s))) (mnt_list s) m (m_root (m_info mt)) (m_covered (m_info mt)).
Proof.
  intros Hok Hin Hm Hcnt (mt' & nd & Hm' & Hn & Hr & Hsz). replace mt' with mt in * by congruence. clear mt' Hm'.
  pose proof (vo_cache _ _ _ _ _ Hok) as Hc. pose proof (vo_mnt _ _ _ _ _ Hok) as Hnd.
  destruct (vo_mounts _ _ _ _ _ Hok m Hin) as [(mt' & nd' & Hm' & Hn' & Hk) _].
  replace mt' with mt in * by congruence. replace nd' with nd in * by congruence. clear mt' Hm' nd' Hn'.
  rewrite (ck_count _ _ _ _ Hc _ _ Hm), s32_small in Hcnt by (unfold mount_nodes in *; lia).
  assert (Hl : mnt_list s ≡ₚ m :: remove_ptr m (mnt_list s)).
  { apply NoDup_Permutation; [done|apply NoDup_cons; split; [|by apply remove_ptr_NoDup]|].
    - rewrite remove_ptr_elem. by intros [? _].
    - intros x. rewrite elem_of_cons, remove_ptr_elem. destruct (decide (x = m)) as [->|]; [by split; auto|].
      split; [by auto|]. by intros [?|[_ ?]]. }
  set (s0 := set_mnt_list s (remove_ptr m (mnt_list s))).
  assert (Es : set_mnt_list s0 (mnt_list s) = s) by by destruct s.
  split_and!; [done|by rewrite Es|by exists mt|]. intros k Hkin.
  assert (Hcov : covered_of (mounts s0) m = m_covered (m_info mt)) by (unfold covered_of; cbn; by rewrite Hm).
  pose proof (pins_mounting s0 (mnt_list s) m _ L Hl Hcov) as Epins. rewrite Es in Epins.
  assert (Hk1 : k ∈ pins s L) by (rewrite Epins; by apply in_r).
  cbn. apply remove_ptr_elem. split; [|by eapply pin_mount].
  intros Ek. destruct (ck_pin _ _ _ _ Hc k Hk1) as (n1 & nd1 & Hn1 & Ek1).
  assert (v_mount nd1 = m) as Em1 by (rewrite <- Ek1 in Ek; exact Ek).
  assert (v_mount nd = m) as Em by by injection Hk.
  pose proof (mount_nodes_one _ _ _ _ m _ Hn1 Hn Em1 Em Hcnt) as En. rewrite En in Hn1.
  assert (nd1 = nd) as -> by congruence.
  pose proof (nk_refcnt _ _ _ (ck_node _ _ _ _ Hc _ _ Hn)) as Hrc. rewrite Hr, Hk, Epins in Hrc.
  rewrite Hk in Ek1. subst k.
  rewrite multiplicity_disj_union, multiplicity_singleton_eq in Hrc.
  match type of Hrc with _ = Z.of_nat (1 + ?x) => assert (x = 0%nat) as E0 by lia end.
  exact (proj2 (not_elem_of_multiplicity _ _) E0 Hkin).
Qed.

Lemma find_entry_path s path l :
  (forall m, m ∈ l -> is_Some (mounts s !! m)) ->
  exists m, find_entry (fun m => let! mt := get_mount m in vret (strcmp_eq path (m_path (m_info mt)))) l s = inl (m, s) /\
    (m = 0 \/ (m ∈ l /\ exists mt, mounts s !! m = Some mt /\ m_path (m_info mt) = path)).
Proof.
  induction l as [|x l IH]; intros Hl; cbn [find_entry]; [exists 0; by auto|].
  destruct (Hl x) as [mt Hx]; [left|]. unfold vbind, get_mount. rewrite Hx. unfold vret, strcmp_eq.
  destruct (bool_decide_reflect (path = m_path (m_info mt))) as [->|].
  - exists x. split; [done|]. right. split; [left|by exists mt].
  - destruct IH as (m & E & Hm); [by intros; apply Hl; right|]. exists m. split; [exact E|].
    destruct Hm as [|[? ?]]; [by left|right; split; [by right|done]].
Qed.

Lemma vfs_unmount_ok b L s (env : vfs_env D) path :
  env_ok env -> vfs_ok b L s -> 1 <= b ->
  (forall m mt, m ∈ mnt_list s -> mounts s !! m = Some mt -> m_path (m_info mt) = path -> unmountable s m) ->
  wp never (vfs_unmount env path) (fun _ s' => vfs_ok b L s') s.
Proof.
  intros [_ Henv] Hok Hb Hum. unfold vfs_unmount. apply wp_vget.
  destruct (find_entry_path s path (mnt_list s)) as (m & E & Hm).
  { intros m Hin. by eapply mnt_list_mounts. }
  apply wp_bind. unfold wp at 1. rewrite E. destruct Hm as [->|(Hin & mt & Hmt & Ep)]; [by apply wp_ret|].
  assert (m <> 0) as Hm0 by (intros ->; by apply (vo_null X I _ _ _ Hok)). rewrite (proj2 (Z.eqb_neq m 0) Hm0).
  eapply wp_get_mount; [done|]. destruct (Z.ltb_spec 1 (m_refcnt (m_info mt))) as [|Hcnt]; [by apply wp_ret|].
  pose proof (unmount_mounting b L s m mt Hok Hin Hmt Hcnt (Hum m mt Hin Hmt Ep)) as Hmnt.
  set (n := m_root (m_info mt)) in *. set (c := m_covered (m_info mt)) in *. set (l := mnt_list s) in *.
  apply wp_vmod. set (s0 := set_mnt_list s (remove_ptr m l)).
  assert (Hcall : forall op s1, (forall fs mi d, fs_ok I fs -> I d -> exists r x d', op fs mi d = Ok (r, x, d') /\ I d') ->
    mounting b L s1 l m n c -> wp never (callm m op) (fun _ s2 => mounting b L s2 l m n c) s1).
  { intros op s1 Hop Hm1. pose proof Hm1 as (_ & Hok1 & (mt1 & Hmt1 & _) & _).
    eapply wp_mono; [eapply callm_spec; [exact (proj2 (cache_set_mnt _ _ _) (vo_cache _ _ _ _ _ Hok1))|exact Hmt1|exact Hop]|done|].
    intros r s2 [Hc2 He2]. by eapply mounting_step. }
  eapply wp_then; [eapply Hcall; [|exact Hmnt]; intros; by apply ok_msync|]. intros err s1 Hmnt1. cbn beta in Hmnt1.
  eapply wp_then; [eapply Hcall; [|exact Hmnt1]; intros; by apply ok_unmount|]. intros r s2 Hmnt2. cbn beta in Hmnt2.
  eapply wp_then; [by eapply mounting_release_root|]. intros _ s3 (Hok3 & Hheld & Hnot & _ & mt3 & Hmt3 & Ec).
  eapply (wp_then _ _ _ _ (fun _ s4 => vfs_ok b L s4 /\ (m ∉ mnt_list s4) /\ exists mt4, mounts s4 !! m = Some mt4)).
  { destruct Hheld as [E0|(m' & cs & Hat)].
    - rewrite E0 in Hok3 |- *. apply wp_ret. rewrite (pin_of_null _ _ _ Hok3), (left_id_L ∅ (⊎)) in Hok3. by eauto.
    - assert (c <> 0) as H0. { intros E0. rewrite E0 in Hat. destruct Hat as (_ & nd & Hn & _).
        pose proof (ck_null _ _ _ _ (vo_cache _ _ _ _ _ Hok3)) as [? _]. congruence. }
      rewrite (proj2 (Z.eqb_neq c 0) H0). rewrite (node_at_pin _ _ _ _ Hat) in Hok3.
      eapply wp_mono; [by eapply release_ok|done|]. intros _ s4 [Hok4 He4].
      destruct (ev_mount _ _ _ He4 _ _ Hmt3) as (mt4 & Hmt4 & _).
      split_and!; [done|by rewrite (ev_mnt_list _ _ _ He4)|by exists mt4]. }
  intros _ s4 (Hok4 & Hnot4 & mt4 & Hmt4).
  eapply (wp_then _ _ _ _ (fun _ s5 => vfs_ok b L s5 /\ (m ∉ mnt_list s5) /\ exists mt5, mounts s5 !! m = Some mt5)).
  { destruct (m_dev (m_info mt) =? 0); [by apply wp_ret; eauto|]. apply wp_vget.
    destruct (Henv (m_dev (m_info mt)) (vs_fsd s4)) as (d & Ed & Hd); [apply Hok4|]. apply wp_bind. unfold wp at 1.
    rewrite Ed. cbn [vlift vret]. apply wp_last, wp_vput, wp_ret. split_and!; [|done|by exists mt4].
    eapply vfs_ok_same; [exact Hok4|apply cache_set_fsd; [apply Hok4|done]|apply evolves_set_fsd]. }
  intros _ s5 (Hok5 & Hnot5 & mt5 & Hmt5). eapply wp_then; [by eapply free_mount_ok|]. intros ? s6 Hok6. by apply wp_ret.
Qed.
End mnt.
