(* ===== verification/VfsTheorems.v ===== *)
(** * VfsTheorems: the guarantees of fs/vfs.c *)

From stdpp Require Import gmultiset.
From S2P Require Import Prelude CMem Alloc Vfs VfsOps VfsPath VfsCache VfsWalk VfsInv VfsSafe VfsFiles VfsCalls VfsMount.

(** ** The sum of the reference counts *)

Definition refs (ns : gmap Z vnode) : Z := map_fold (fun _ nd acc => v_refcnt nd + acc) 0 ns.

Lemma refs_insert n nd ns : ns !! n = None -> refs (<[n := nd]> ns) = v_refcnt nd + refs ns.
Proof. intros Hn. unfold refs. rewrite map_fold_insert_L; [done| |done]. intros. lia. Qed.

Lemma filter_size (k : key) (P : gmultiset key) :
  Z.of_nat (size P) = Z.of_nat (multiplicity k P) + Z.of_nat (size (filter (fun k' => k' <> k) P)).
Proof.
  assert (P = (multiplicity k P *: {[+ k +]}) ⊎ filter (fun k' => k' <> k) P) as E.
  { apply gmultiset_eq. intros k'. rewrite multiplicity_disj_union, multiplicity_scalar_mul, multiplicity_singleton, multiplicity_filter.
    destruct (decide (k' = k)) as [->|Hne]; [rewrite decide_False by (by intros []); lia|rewrite decide_True by done; lia]. }
  rewrite E at 1. rewrite gmultiset_size_disj_union, gmultiset_size_scalar_mul, gmultiset_size_singleton. lia.
Qed.

Lemma refs_size_gen ns : forall P : gmultiset key,
  (forall n nd, ns !! n = Some nd -> v_refcnt nd = Z.of_nat (multiplicity (key_of nd) P)) ->
  (forall n1 n2 nd1 nd2, ns !! n1 = Some nd1 -> ns !! n2 = Some nd2 -> key_of nd1 = key_of nd2 -> n1 = n2) ->
  (forall k, k ∈ P -> exists n nd, ns !! n = Some nd /\ key_of nd = k) ->
  refs ns = Z.of_nat (size P).
Proof.
  induction ns as [|n nd ns Hn IH] using map_ind; intros P Hr Hinj Hex.
  - destruct (gmultiset_choose_or_empty P) as [[k Hk]| ->]; [|done].
    destruct (Hex k Hk) as (? & ? & ?%lookup_empty_Some & _). done.
  - rewrite refs_insert by done. rewrite (filter_size (key_of nd) P). rewrite (Hr n nd) by apply lookup_insert_eq. f_equal.
    assert (Hlook : forall n' nd', ns !! n' = Some nd' -> <[n := nd]> ns !! n' = Some nd' /\ key_of nd' <> key_of nd).
    { intros n' nd' Hn'. assert (n' <> n) by congruence. rewrite lookup_insert_ne by done. split; [done|].
      intros E. assert (n' = n); [|done]. eapply Hinj; [by rewrite lookup_insert_ne|apply lookup_insert_eq|done]. }
    apply IH.
    + intros n' nd' Hn'. destruct (Hlook _ _ Hn') as [Hn'' Hk]. rewrite (Hr _ _ Hn''), multiplicity_filter, decide_True; done.
    + intros n1 n2 nd1 nd2 H1 H2. apply Hinj; [by apply Hlook|by apply Hlook].
    + intros k [Hk Hin]%gmultiset_elem_of_filter. destruct (Hex k Hin) as (n' & nd' & Hn' & E). exists n', nd'. split; [|done].
      apply lookup_insert_Some in Hn' as [[-> ->]|[_ ?]]; [congruence|done].
Qed.

Section theorems.
Context {S D : Type} `{KernelAlloc S} (X : gset Z) (I : D -> Prop).
Implicit Types (s : vfs S D) (L : gmultiset key).

Lemma refs_size P s : cache_ok X I P s -> refs (nodes s) = Z.of_nat (size P).
Proof.
  intros Hc. apply refs_size_gen.
  - intros n nd Hn. by eapply ck_node.
  - apply Hc.
  - apply Hc.
Qed.

(** ** The invariant of the switch

    Every vnode in memory is referred to by the root of a mount, an open file, a
    covered directory, or by a walk that ran out of memory; its count is the number
    of these references. *)
Definition vfs_inv s : Prop := exists L, vfs_ok X I 0 L s.

Lemma vfs_inv_room s b : vfs_inv s -> refs (nodes s) + b < 2 ^ 31 -> exists L, vfs_ok X I b L s.
Proof.
  intros (L & Hok) Hb. exists L. rewrite (refs_size _ _ (vo_cache _ _ _ _ _ Hok)) in Hb. destruct Hok. by split.
Qed.

Lemma still_ok_inv b L s : still_ok X I b L s -> 0 <= b -> vfs_inv s.
Proof. intros (L' & Hok) Hb. exists (L' ⊎ L). by eapply vfs_ok_weaken. Qed.

Lemma do_vfs_init_inv tree s :
  al_inv (vs_alloc s) X -> I (vs_fsd s) -> nodes s = ∅ -> mounts s = ∅ -> vfs_inv (do_vfs_init tree s).
Proof.
  intros Ha Hi En Em. exists ∅.
  assert (Hh : forall p, p ∈ held_ptrs (do_vfs_init tree s) -> p = 0).
  { intros p Hp. unfold held_ptrs, do_vfs_init in Hp. cbn [fd_file mnt_list fmap list_fmap app] in Hp.
    rewrite app_nil_r in Hp. apply list_elem_of_fmap in Hp as (f & -> & Hf). by apply elem_of_replicate in Hf as [-> _]. }
  assert (Hp : pins (do_vfs_init tree s) ∅ = ∅).
  { unfold pins. cbn [mnt_list do_vfs_init]. change (roots []) with (∅ : gmultiset key).
    rewrite !(left_id_L ∅ (⊎)). cbn [nodes do_vfs_init].
    induction (held_ptrs (do_vfs_init tree s)) as [|p l IH]; [done|]. cbn [pins_of]. rewrite IH by (intros; apply Hh; by right).
    unfold pin_of. rewrite En, lookup_empty. done. }
  split; cbn [mnt_list fd_file do_vfs_init].
  - rewrite Hp. split; cbn [nodes mounts vs_alloc vs_fsd node_list do_vfs_init]; rewrite ?En, ?Em; try done.
    + replace (X ∪ (dom (∅ : gmap Z vnode) ∪ dom (∅ : gmap Z (vmount D)))) with X by set_solver. done.
    + set_solver.
    + intros h l [-> _]%lookup_replicate. split; [constructor|]. intros n. split; [by intros ?%elem_of_nil|].
      intros (nd & Hn & _). done.
  - constructor.
  - intros n nd. cbn. by rewrite En.
  - by intros m ?%elem_of_nil.
  - intros p Hin. left. by apply Hh.
  - by rewrite length_replicate.
  - intros i f _ [-> _]%lookup_replicate. done.
  - rewrite Hp. done.
Qed.

(** ** Sequences of calls *)

Inductive vfs_call :=
| COpen (path : list Z) (flags mode : Z)
| CClose (fd : Z)
| CRead (fd : Z) (buf : bool) (len : Z)
| CWrite (fd : Z) (buf : list Z) (len : Z)
| CLseek (fd off whence : Z)
| CFsync (fd : Z)
| CFchmod (fd mode : Z)
| CFstat (fd : Z)
| COpendir (path : list Z)
| CClosedir (fd : Z)
| CReaddir (fd : Z)
| CRewinddir (fd : Z)
| CMkdir (path : list Z) (mode : Z)
| CRmdir (fuel : nat) (path : list Z)
| CRename (src dst : list Z)
| CUnlink (path : list Z)
| CAccess (path : list Z) (mode : Z)
| CChmod (path : list Z) (mode : Z)
| CStat (path : list Z)
| CMount (dev : option (list Z)) (dir : list Z) (fsname : option (list Z)) (flags : Z)
| CUnmount (path : list Z)
| CSync.

(** The result of the call does not matter here. *)
Definition run_call (env : vfs_env D) (c : vfs_call) : VM S D unit :=
  match c with
  | COpen path flags mode => let! _ := vfs_open (Some path) flags mode in vret tt
  | CClose fd => let! _ := vfs_close fd in vret tt
  | CRead fd buf len => let! _ := vfs_read fd buf len in vret tt
  | CWrite fd buf len => let! _ := vfs_write fd (Some buf) len in vret tt
  | CLseek fd off whence => let! _ := vfs_lseek fd off whence in vret tt
  | CFsync fd => let! _ := vfs_fsync fd in vret tt
  | CFchmod fd mode => let! _ := vfs_fchmod fd mode in vret tt
  | CFstat fd => let! _ := vfs_fstat fd true in vret tt
  | COpendir path => let! _ := vfs_opendir (Some path) in vret tt
  | CClosedir fd => let! _ := vfs_closedir fd in vret tt
  | CReaddir fd => let! _ := vfs_readdir fd true in vret tt
  | CRewinddir fd => let! _ := vfs_rewinddir fd in vret tt
  | CMkdir path mode => let! _ := vfs_mkdir (Some path) mode in vret tt
  | CRmdir fuel path => let! _ := vfs_rmdir fuel (Some path) in vret tt
  | CRename src dst => let! _ := vfs_rename src dst in vret tt
  | CUnlink path => let! _ := vfs_unlink (Some path) in vret tt
  | CAccess path mode => let! _ := vfs_access (Some path) mode in vret tt
  | CChmod path mode => let! _ := vfs_chmod (Some path) mode in vret tt
  | CStat path => let! _ := vfs_stat (Some path) true in vret tt
  | CMount dev dir fsname flags => let! _ := vfs_mount env dev (Some dir) fsname flags in vret tt
  | CUnmount path => let! _ := vfs_unmount env path in vret tt
  | CSync => let! _ := vfs_sync in vret tt
  end.

(** What a client has to respect: paths that fit the buffers of the walk, a seek that
    does not overflow, and no unmounting while the root of the mount is in use. *)
Definition call_pre s (c : vfs_call) : Prop :=
  match c with
  | COpen p _ _ | COpendir p | CMkdir p _ | CRmdir _ p | CUnlink p | CAccess p _ | CChmod p _ | CStat p => short_path p
  | CRename src dst => short_path src /\ short_path dst
  | CMount _ dir _ _ => is_path dir
  | CLseek fd off whence =>
      - 2 ^ 63 <= off < 2 ^ 63 /\
      forall f, fd_file s !! Z.to_nat fd = Some f -> - 2 ^ 63 <= f_offset f + off < 2 ^ 63
  | CUnmount p =>
      forall m mt, m ∈ mnt_list s -> mounts s !! m = Some mt -> m_path (m_info mt) = p -> unmountable s m
  | _ => True
  end.

(** The calls on descriptors, which always return. *)
Definition on_fd (c : vfs_call) : bool :=
  match c with
  | CClose _ | CRead _ _ _ | CWrite _ _ _ | CLseek _ _ _ | CFsync _ | CFchmod _ _ | CFstat _ | CClosedir _
  | CReaddir _ | CRewinddir _ | CUnmount _ | CSync => true
  | _ => false
  end.

Definition stops (c : vfs_call) : stop -> Prop := if on_fd c then never else not_bad.

Lemma wp_drop {A} E (m : VM S D A) (Q : vfs S D -> Prop) s :
  wp E m (fun _ => Q) s -> wp E (let! _ := m in vret tt) (fun _ => Q) s.
Proof. intros Hm. apply wp_bind. eapply wp_mono; [exact Hm|done|done]. Qed.

Lemma sync_ok b L s l :
  vfs_ok X I b L s -> (forall m, m ∈ l -> m ∈ mnt_list s) ->
  wp never (for_each (fun m => let! _ := callm m fs_msync in vret tt) l) (fun _ s' => vfs_ok X I b L s') s.
Proof.
  revert s. induction l as [|m l IH]; intros s Hok Hl; cbn [for_each]; [done|].
  destruct (mnt_list_mounts X I _ _ _ m Hok) as [mt Hm]; [apply Hl; left|].
  apply wp_assoc. eapply wp_then.
  { eapply (callm_spec X I (pins s L)); [apply Hok|exact Hm|]. intros fs mi d Hfs Hd. by apply ok_msync. }
  intros r s1 [Hc He]. apply wp_vret. eapply IH; [by eapply vfs_ok_same|].
  intros m' Hin. rewrite (ev_mnt_list _ _ _ He). apply Hl. by right.
Qed.

Lemma lseek_ok b L s fd off whence :
  vfs_ok X I b L s -> call_pre s (CLseek fd off whence) ->
  wp never (vfs_lseek fd off whence) (fun _ s' => vfs_ok X I b L s') s.
Proof.
  intros Hok [Hoff Hsum]. destruct (decide (whence ∈ [VFS_SEEK_SET; VFS_SEEK_CUR; VFS_SEEK_END])) as [Hw|Hw].
  - unfold vfs_lseek. pose proof (open_file_spec X I b L s fd Hok) as [[E _]|(f & m & cs & E & Hop)].
    + apply wp_bind. unfold wp at 1. by rewrite E.
    + pose proof Hop as (_ & Hf & _ & nd & Hn & _).
      pose proof (lseek_spec X I b L s fd f m cs nd off whence Hok Hop Hn Hw Hoff (Hsum f Hf)) as Hspec.
      eapply wp_mono; [exact Hspec|done|]. by intros r s' [[Hok' _] _].
  - unfold vfs_lseek. eapply with_open_file; [exact Hok|by intros _|]. intros f m cs (_ & _ & _ & nd & Hn & _).
    eapply wp_get_node; [exact Hn|]. rewrite !elem_of_cons, elem_of_nil in Hw. unfold seek_target.
    rewrite !(proj2 (Z.eqb_neq whence _)) by tauto. by apply wp_vret.
Qed.

Lemma call_ok env c s :
  env_ok I env -> vfs_inv s -> call_pre s c -> refs (nodes s) + 16384 < 2 ^ 31 ->
  wp (stops c) (run_call env c) (fun _ => vfs_inv) s.
Proof.
  intros Henv Hinv Hpre Hroom. destruct (vfs_inv_room s 16384 Hinv Hroom) as [L Hok].
  assert (Hsame : forall s', vfs_ok X I 16384 L s' -> vfs_inv s').
  { intros s' Hok'. exists L. by eapply vfs_ok_weaken. }
  assert (Hfin : forall b s', finished X I b s L s' -> 0 <= b -> vfs_inv s').
  { intros b s' Hf Hb. by eapply still_ok_inv; [eapply still_ok_finished|]. }
  destruct c; cbn [run_call stops on_fd call_pre] in *; apply wp_drop.
  - eapply wp_mono; [eapply open_ok; [done|done|lia]|done|]. intros r s' Hs. eapply still_ok_inv; [exact Hs|lia].
  - eapply wp_mono; [eapply close_ok; [done|lia]|done|]. intros r s' Hs. exact (Hsame _ Hs).
  - eapply wp_mono; [by eapply read_spec|done|]. intros r s' [[Hs _] _]. exact (Hsame _ Hs).
  - eapply wp_mono; [by eapply write_spec|done|]. intros r s' [[Hs _] _]. exact (Hsame _ Hs).
  - eapply wp_mono; [by eapply lseek_ok|done|]. intros r s' Hs. exact (Hsame _ Hs).
  - eapply wp_mono; [by eapply fsync_ok|done|]. intros r s' Hs. exact (Hsame _ Hs).
  - eapply wp_mono; [by eapply fchmod_ok|done|]. intros r s' Hs. exact (Hsame _ Hs).
  - eapply wp_mono; [by eapply fstat_ok|done|]. intros r s' ->. by apply Hsame.
  - eapply wp_mono; [eapply opendir_ok; [done|done|lia]|done|]. intros r s' Hs. eapply still_ok_inv; [exact Hs|lia].
  - eapply wp_mono; [eapply closedir_ok; [done|lia]|done|]. intros r s' Hs. exact (Hsame _ Hs).
  - eapply wp_mono; [by eapply readdir_ok|done|]. intros r s' [Hs _]. by apply Hsame.
  - eapply wp_mono; [by eapply rewinddir_ok|done|]. intros r s' Hs. exact (Hsame _ Hs).
  - eapply wp_mono; [eapply vfs_mkdir_ok; [done|done|lia]|done|]. intros r s' Hs. eapply Hfin; [exact Hs|lia].
  - eapply wp_mono; [eapply vfs_rmdir_ok; [done|done|lia]|done|]. intros r s' Hs. eapply still_ok_inv; [exact Hs|lia].
  - destruct Hpre. eapply wp_mono; [eapply vfs_rename_ok; [done|done|done|lia]|done|]. intros r s' Hs. eapply Hfin; [exact Hs|lia].
  - eapply wp_mono; [eapply vfs_unlink_ok; [done|done|lia]|done|]. intros r s' Hs. eapply Hfin; [exact Hs|lia].
  - eapply wp_mono; [eapply vfs_access_ok; [done|done|lia]|done|]. intros r s' Hs. eapply Hfin; [exact Hs|lia].
  - eapply wp_mono; [eapply vfs_chmod_ok; [done|done|lia]|done|]. intros r s' Hs. eapply Hfin; [exact Hs|lia].
  - eapply wp_mono; [eapply vfs_stat_ok; [done|done|lia]|done|]. intros r s' Hs. eapply Hfin; [exact Hs|lia].
  - eapply wp_mono; [eapply vfs_mount_ok; [done|done|done|lia]|done|]. intros r s' Hs. eapply still_ok_inv; [exact Hs|lia].
  - eapply wp_mono; [eapply vfs_unmount_ok; [done|done|lia|done]|done|]. intros r s' Hs. exact (Hsame _ Hs).
  - unfold vfs_sync. apply wp_vget. eapply wp_then; [by eapply sync_ok|]. intros ? s' Hs. apply wp_ret. exact (Hsame _ Hs).
Qed.

(** The states a sequence of calls can lead to, from an empty switch. *)
Inductive reachable (env : vfs_env D) : vfs S D -> Prop :=
| reach_init tree s :
    al_inv (vs_alloc s) X -> I (vs_fsd s) -> nodes s = ∅ -> mounts s = ∅ -> reachable env (do_vfs_init tree s)
| reach_call s c s' :
    reachable env s -> call_pre s c -> refs (nodes s) + 16384 < 2 ^ 31 ->
    run_call env c s = inl (tt, s') -> reachable env s'.

Lemma reachable_inv env s : env_ok I env -> reachable env s -> vfs_inv s.
Proof.
  intros Henv. induction 1 as [tree s Ha Hi En Em|s c s' Hr IH Hpre Hroom E]; [by apply do_vfs_init_inv|].
  pose proof (call_ok env c s Henv IH Hpre Hroom) as Hwp. unfold wp in Hwp. by rewrite E in Hwp.
Qed.
End theorems.

(** ** A small filesystem, to run the model

    Names that start with ['d'] are directories, those that start with ['n'] do not
    exist, all others are regular files of ten bytes. *)
Module Demo.

Definition keep {A} (r : A) : op1 unit A := fun _ nd d => Ok (r, v_attr nd, d).
Definition keep2 {A} (r : A) : op2 unit A := fun _ nd1 nd2 d => Ok (r, v_attr nd1, v_attr nd2, d).
Definition lookup_attr (name : list Z) : Z * vattr :=
  match name with
  | 100 :: _ => (0, mkAttr VNT_DIR S_IRWX 0 0 0 0 0)
  | 110 :: _ => (-1, attr0)
  | _ => (0, mkAttr VNT_REG S_IR 10 0 0 0 0)
  end.

Definition fs : filesystem_t unit := {|
  fs_mount := fun _ mi nd d => Ok (0, m_flags mi, 0, v_attr nd, d);
  fs_unmount := fun _ d => Ok (0, 0, d);
  fs_msync := fun _ d => Ok (0, 0, d);
  fs_vget := keep 0;
  fs_vput := keep 0;
  fs_read := fun off len => keep (repeat 7 (Z.to_nat (Z.min len (10 - off))), Z.min len (10 - off));
  fs_write := fun off buf len => keep len;
  fs_truncate := fun _ => keep 0;
  fs_sync := keep 0;
  fs_readdir := fun _ => keep (-1, mkDirent 0 0 VDT_UNK []);
  fs_lookup := fun name _ nd1 nd2 d =>
    let '(err, a) := lookup_attr name in Ok (err, v_attr nd1, a, d);
  fs_create := fun _ _ => keep 0;
  fs_remove := fun _ => keep2 0;
  fs_rename := fun _ _ _ nd1 nd2 nd3 d => Ok (0, v_attr nd1, v_attr nd2, v_attr nd3, d);
  fs_mkdir := fun _ _ => keep 0;
  fs_rmdir := fun _ => keep2 0;
  fs_chmod := fun _ => keep 0;
|}.

Definition env : vfs_env unit := mkEnv unit (fun _ _ => 0) (fun _ d => Ok d)
  (fun i => if i =? 1 then Some fs else None).

Definition any : unit -> Prop := fun _ => True.

Lemma keep_ok {A} (r : A) : op1_ok any (keep r).
Proof. intros mi nd d Ha _. eexists _, _, _. by split_and!. Qed.
Lemma keep2_ok {A} (r : A) : op2_ok any (keep2 r).
Proof. intros mi nd1 nd2 d H1 H2 _. eexists _, _, _, _. by split_and!. Qed.

Lemma lookup_attr_ok name : attr_ok (lookup_attr name).2.
Proof.
  destruct name as [|c name]; [done|]. unfold lookup_attr.
  destruct (decide (c = 100)) as [->|]; [done|]. destruct (decide (c = 110)) as [->|]; [done|].
  repeat (match goal with |- context [match ?x with _ => _ end] => is_var x; destruct x; try done end).
Qed.

Lemma fs_is_ok : fs_ok any fs.
Proof.
  split; cbn; auto using keep_ok, keep2_ok.
  - intros dev mi nd d Ha _. eexists _, _, _, _, _. by split_and!.
  - intros mi d _. eexists _, _, _. by split.
  - intros mi d _. eexists _, _, _. by split.
  - intros name mi nd1 nd2 d H1 H2 _. pose proof (lookup_attr_ok name). destruct (lookup_attr name) as [err a].
    eexists _, _, _, _. by split_and!.
  - intros sname dname mi nd1 nd2 nd3 d H1 H2 H3 _. eexists _, _, _, _, _. by split_and!.
Qed.

Lemma env_is_ok : env_ok any env.
Proof.
  split; [|intros dev d _; by exists d]. intros i f. unfold env. cbn. destruct (i =? 1); [|done]. intros [= <-]. apply fs_is_ok.
Qed.

#[local] Instance alloc : KernelAlloc Z := bump_alloc.

(** The name ["cpio"], the root directory, ["/dir"] and ["/file"]. *)
Definition cpio : list Z := [99; 112; 105; 111].
Definition dir : list Z := [47; 100; 105; 114].
Definition file : list Z := [47; 102; 105; 108; 101].
Definition tree : class_tree := Class 0 [] [Class 1 cpio []].

Definition empty : vfs Z unit := do_vfs_init tree (mkVfs 1 tt ∅ ∅ [] [] [] ∅).

Definition after (m : VM Z unit Z) (s : vfs Z unit) : vfs Z unit :=
  match m s with inl (_, s') => s' | inr _ => s end.

(** A filesystem is mounted at the root, and ["/file"] is open. *)
Definition mounted : vfs Z unit := after (vfs_mount env None (Some [47]) (Some cpio) 0) empty.
Definition opened_file : vfs Z unit := after (vfs_open (Some file) O_RDONLY 0) mounted.

Lemma empty_inv : vfs_inv ∅ any empty.
Proof. apply do_vfs_init_inv; [|done|done|done]. split; [done|]. intros p Hp. set_solver. Qed.

Lemma mounted_run : run_call env (CMount None [47] (Some cpio) 0) empty = inl (tt, mounted).
Proof. vm_compute. reflexivity. Qed.

Lemma opened_run : run_call env (COpen file O_RDONLY 0) mounted = inl (tt, opened_file).
Proof. vm_compute. reflexivity. Qed.

Lemma root_path : is_path [47].
Proof. by repeat constructor. Qed.
Lemma file_path : short_path file.
Proof. split; [|done]. by repeat constructor. Qed.

Lemma empty_refs : refs (nodes empty) = 0.
Proof. reflexivity. Qed.
Lemma mounted_refs : refs (nodes mounted) = 1.
Proof. vm_compute. reflexivity. Qed.
Lemma opened_refs : refs (nodes opened_file) = 3.
Proof. vm_compute. reflexivity. Qed.

Lemma empty_reachable : reachable ∅ any env empty.
Proof. apply reach_init; [|done|done|done]. split; [done|]. intros p Hp. set_solver. Qed.

Lemma mounted_reachable : reachable ∅ any env mounted.
Proof.
  eapply reach_call; [apply empty_reachable| | |apply mounted_run]; [exact root_path|by rewrite empty_refs].
Qed.

Lemma opened_reachable : reachable ∅ any env opened_file.
Proof.
  eapply reach_call; [apply mounted_reachable| | |apply opened_run]; [exact file_path|by rewrite mounted_refs].
Qed.
End Demo.

(** ** The guarantees *)

Section guarantees.
Context {S D : Type} `{KernelAlloc S}.
Implicit Types s : vfs S D.

Lemma same_pins_same_refcnt X (I : D -> Prop) P s s' n nd :
  cache_ok X I P s -> cache_ok X I P s' -> evolves P s s' -> nodes s !! n = Some nd ->
  exists nd', nodes s' !! n = Some nd' /\ same_node nd nd' /\ v_refcnt nd' = v_refcnt nd.
Proof.
  intros Hc Hc' He Hn. pose proof (ck_node _ _ _ _ Hc _ _ Hn) as Hnd.
  destruct (ev_node _ _ _ He _ _ Hn (nk_pinned _ _ _ Hnd)) as (nd' & Hn' & Hs). exists nd'. split_and!; [done|done|].
  rewrite (nk_refcnt _ _ _ (ck_node _ _ _ _ Hc' _ _ Hn')), (nk_refcnt _ _ _ Hnd). by rewrite (same_node_key _ _ Hs).
Qed.

Lemma same_pins_same_nodes X (I : D -> Prop) P s s' n :
  cache_ok X I P s -> cache_ok X I P s' -> evolves P s s' -> is_Some (nodes s' !! n) -> is_Some (nodes s !! n).
Proof.
  intros Hc Hc' He [nd' Hn']. pose proof (nk_pinned _ _ _ (ck_node _ _ _ _ Hc' _ _ Hn')) as Hin.
  destruct (ck_pin _ _ _ _ Hc _ Hin) as (n0 & nd0 & Hn0 & Hk0).
  destruct (ev_node _ _ _ He _ _ Hn0) as (nd1 & Hn1 & Hs); [by rewrite Hk0|].
  assert (n = n0) as ->; [|by eexists]. eapply (ck_inj _ _ _ _ Hc'); [done|done|].
  by rewrite (same_node_key _ _ Hs), Hk0.
Qed.



(** [vfs_findroot] finds the mount with the longest path that is a prefix of the
    given path at a component boundary, and returns what follows it without leading
    slashes; it fails exactly when no mount matches. *)
Theorem vfs_findroot_longest path s :
  is_path path -> 0 ∉ mnt_list s -> (forall m, m ∈ mnt_list s -> exists root, mount_path s m root) ->
  (exists m root rest, vfs_findroot path s = inl (Some (m, skip_slashes rest), s) /\
     m ∈ mnt_list s /\ mount_path s m root /\ path = root ++ rest /\ mount_prefix root path /\
     forall m' root', m' ∈ mnt_list s -> mount_path s m' root' -> mount_prefix root' path ->
       (length root' <= length root)%nat) \/
  (vfs_findroot path s = inl (None, s) /\
   forall m root, m ∈ mnt_list s -> mount_path s m root -> ~ mount_prefix root path).
Proof.
  intros Hp H0 Hm. destruct (vfs_findroot_spec path s Hp H0 Hm) as [(m & p & E & root & rest & ? & ? & ? & ? & -> & ?)|]; [left|by right].
  by exists m, root, rest.
Qed.

(** C10. Taking a node by its path and releasing it again is balanced: a walk that
    returns a node returns the one whose mount and components the path names, the
    release of that node always returns, and afterwards the nodes in memory and all
    their reference counts are what they were. *)
Theorem acquire_release_balanced X (I : D -> Prop) L s path n s1 :
  vfs_ok X I 4096 L s -> short_path path -> vfs_node_acquire path s = inl ((0, Some n), s1) ->
  (exists m p, resolves s path m p /\ node_at s1 n m (comps p [])) /\
  exists s2, vfs_node_release n s1 = inl (tt, s2) /\
    (forall n' nd, nodes s !! n' = Some nd ->
       exists nd', nodes s2 !! n' = Some nd' /\ same_node nd nd' /\ v_refcnt nd' = v_refcnt nd) /\
    (forall n', is_Some (nodes s2 !! n') -> is_Some (nodes s !! n')).
Proof.
  intros Hok [Hp Hl] E. pose proof (acquire_ok X I 4096 L s path Hok Hp Hl (ltac:(lia))) as Hwp.
  unfold wp in Hwp. rewrite E in Hwp. destruct Hwp as [He (_ & m & p & Hres & Hat & Hok1)].
  split; [by exists m, p|].
  destruct (wp_never_inv _ _ _ (release_ok X I _ L s1 n m (comps p []) Hok1 Hat (ltac:(lia)))) as ([] & s2 & E2 & Hok2 & He2).
  exists s2. split; [done|].
  assert (Epins : pins s1 L = pins s L).
  { eapply (pins_evolves X I); [exact Hok|exact He|apply (vo_cache _ _ _ _ _ Hok1)|apply held_sub]. }
  assert (Epins2 : pins s2 L = pins s L).
  { rewrite <- Epins. eapply (pins_evolves X I); [exact Hok1|exact He2|apply (vo_cache _ _ _ _ _ Hok2)|apply held_sub]. }
  rewrite Epins in He2. pose proof (vo_cache _ _ _ _ _ Hok2) as Hc2. rewrite Epins2 in Hc2.
  assert (He12 : evolves (pins s L) s s2) by by eapply evolves_trans'.
  split; [intros n' nd; by apply (same_pins_same_refcnt X I (pins s L)); [apply Hok|..]|].
  intros n'. by apply (same_pins_same_nodes X I (pins s L)); [apply Hok|..].
Qed.

(** [vfs_open] returns the lowest free descriptor above the three reserved ones.
    It then holds the node that the path names, with offset 0 and the access mode that
    was asked for, and the other open files are as before.  When it does not, no
    descriptor is used. *)
Theorem vfs_open_lowest_fd X (I : D -> Prop) L s path flags mode fd s' :
  vfs_ok X I 8192 L s -> short_path path -> vfs_open (Some path) flags mode s = inl (fd, s') ->
  (fd_file s' = fd_file s /\ vfs_inv X I s') \/
  (first_free (fd_file s) fd /\ others_kept fd s s' /\ vfs_inv X I s' /\
   exists f m p, fd_file s' = <[Z.to_nat fd := f]> (fd_file s) /\ resolves s path m p /\
     opened s' fd f m (comps p []) /\ f_offset f = 0 /\ Z.land (f_flags f) O_ACCMODE = Z.land flags O_ACCMODE).
Proof.
  intros Hok Hp E. pose proof (open_spec X I 8192 L s path flags mode Hok Hp (ltac:(lia))) as Hwp.
  unfold wp in Hwp. rewrite E in Hwp. destruct Hwp as [(L' & Hok' & He & _)|(Hfree & Hoth & _ & f & m & p & Hres & Hop & Hfd & Hoff & Hfl & L' & Hok')].
  - left. split; [apply He|]. by exists (L' ⊎ L).
  - right. split_and!; [apply Hfree..|done| |].
    + by exists (L' ⊎ L).
    + by exists f, m, p.
Qed.

(** [vfs_close] always returns.  On a descriptor that is not open it returns -1 and
    changes nothing.  Otherwise the filesystem writes the node back: on its error the
    file stays open; else the descriptor is free again, and the other open files
    are as before. *)
Theorem vfs_close_frees X (I : D -> Prop) L s fd :
  vfs_ok X I 1 L s ->
  exists r s', vfs_close fd s = inl (r, s') /\ vfs_inv X I s' /\
    (((forall f m cs, ~ opened s fd f m cs) /\ r = -1 /\ s' = s) \/
     (exists f m cs, opened s fd f m cs /\ others_kept fd s s' /\
        ((r <> 0 /\ opened s' fd f m cs /\ fd_file s' = fd_file s) \/
         (r = 0 /\ fd_file s' = <[Z.to_nat fd := no_file]> (fd_file s))))).
Proof.
  intros Hok. destruct (wp_never_inv _ _ _ (close_spec X I 1 L s fd Hok (ltac:(lia)))) as (r & s' & E & Hok' & _ & Hcase).
  exists r, s'. split_and!; [done| |done]. exists L. by eapply vfs_ok_weaken.
Qed.

(** [vfs_read] always returns.  It reads only from a regular file that was
    opened for reading, at the offset of the descriptor, and moves the offset by what
    the filesystem returned; in all other cases it returns 0 and changes nothing. *)
Theorem vfs_read_at_offset X (I : D -> Prop) L s fd buf len :
  vfs_ok X I 1 L s ->
  exists r s', vfs_read fd buf len s = inl (r, s') /\ vfs_inv X I s' /\ others_kept fd s s' /\
    ((r = ([], 0) /\ s' = s) \/
     exists f m cs nd, opened s fd f m cs /\ nodes s !! f_node f = Some nd /\ v_type (v_attr nd) = VNT_REG /\
       has (f_flags f) O_RDONLY = true /\ len <> 0 /\
       file_result s f (fun fs => fs_read fs (f_offset f) len) r /\
       opened s' fd (mkFile (f_node f) (s64 (f_offset f + snd r)) (f_flags f)) m cs).
Proof.
  intros Hok. destruct (wp_never_inv _ _ _ (read_spec X I 1 L s fd buf len Hok)) as (r & s' & E & (Hok' & Hoth & _) & Hcase).
  exists r, s'. split_and!; [done| |done|done]. exists L. by eapply vfs_ok_weaken.
Qed.

(** [vfs_lseek] puts the offset at the position asked for, counted from the start,
    the current offset or the end of the file, limited to the range from 0 to the size of
    the file, and returns it; as long as the addition it does on [s64_t] does not overflow. *)
Theorem vfs_lseek_clamps X (I : D -> Prop) L s fd f m cs nd off whence :
  vfs_ok X I 1 L s -> opened s fd f m cs -> nodes s !! f_node f = Some nd ->
  whence ∈ [VFS_SEEK_SET; VFS_SEEK_CUR; VFS_SEEK_END] ->
  - 2 ^ 63 <= off < 2 ^ 63 -> - 2 ^ 63 <= f_offset f + off < 2 ^ 63 ->
  exists r s', vfs_lseek fd off whence s = inl (r, s') /\ 0 <= r <= v_size (v_attr nd) /\
    r = Z.min (v_size (v_attr nd)) (Z.max 0 (seek_base (f_offset f) (v_size (v_attr nd)) whence + off)) /\
    opened s' fd (mkFile (f_node f) r (f_flags f)) m cs /\ vfs_inv X I s'.
Proof.
  intros Hok Hop Hn Hw Hoff Hsum.
  pose proof (nk_attr _ _ _ (ck_node _ _ _ _ (vo_cache _ _ _ _ _ Hok) _ _ Hn)) as Ha. unfold attr_ok in Ha.
  destruct (wp_never_inv _ _ _ (lseek_spec X I 1 L s fd f m cs nd off whence Hok Hop Hn Hw Hoff Hsum))
    as (r & s' & E & (Hok' & _) & Hr & Hop').
  exists r, s'. split_and!; [done|lia|lia|done|done|]. exists L. by eapply vfs_ok_weaken.
Qed.
End guarantees.

(** ** Witnesses *)

Lemma demo_ok b : b + 3 < 2 ^ 31 -> exists L, @vfs_ok Z unit Demo.alloc ∅ Demo.any b L Demo.opened_file.
Proof.
  intros Hb. apply vfs_inv_room; [eapply reachable_inv; [exact Demo.env_is_ok|exact Demo.opened_reachable]|].
  rewrite Demo.opened_refs. lia.
Qed.

Lemma demo_mounted_ok b : b + 1 < 2 ^ 31 -> exists L, @vfs_ok Z unit Demo.alloc ∅ Demo.any b L Demo.mounted.
Proof.
  intros Hb. apply vfs_inv_room; [eapply reachable_inv; [exact Demo.env_is_ok|exact Demo.mounted_reachable]|].
  rewrite Demo.mounted_refs. lia.
Qed.

Lemma demo_opened : opened Demo.opened_file 3 (mkFile 3 0 1) 1 [[102; 105; 108; 101]].
Proof.
  split; [done|]. split; [vm_compute; reflexivity|]. split; [by repeat constructor|].
  eexists. split; vm_compute; reflexivity.
Qed.



Lemma demo_mount_path : forall m, m ∈ mnt_list Demo.mounted -> exists root, mount_path Demo.mounted m root.
Proof.
  intros m Hm. vm_compute in Hm. apply list_elem_of_singleton in Hm as ->. exists [47].
  eexists. split_and!; [vm_compute; reflexivity|reflexivity|exact Demo.root_path].
Qed.

Lemma vfs_findroot_longest_witness :
  exists m root rest, vfs_findroot Demo.file Demo.mounted = inl (Some (m, skip_slashes rest), Demo.mounted) /\
    m ∈ mnt_list Demo.mounted /\ Demo.file = root ++ rest.
Proof.
  destruct (vfs_findroot_longest Demo.file Demo.mounted (proj1 Demo.file_path)) as [(m & root & rest & ? & ? & _ & ? & _)|[E _]].
  - vm_compute. intros H. inversion H as [|? ? ? H1]; inversion H1.
  - exact demo_mount_path.
  - by exists m, root, rest.
  - vm_compute in E. discriminate.
Defined.

Lemma acquire_release_balanced_witness :
  exists n s1 s2, @vfs_node_acquire Z unit Demo.alloc Demo.file Demo.mounted = inl ((0, Some n), s1) /\
    @vfs_node_release Z unit Demo.alloc n s1 = inl (tt, s2).
Proof.
  destruct (demo_mounted_ok 4096) as [L Hok]; [lia|].
  destruct (@vfs_node_acquire Z unit Demo.alloc Demo.file Demo.mounted) as [[[err [n|]] s1]|e] eqn:E;
    [|vm_compute in E; discriminate|vm_compute in E; discriminate].
  assert (err = 0) as -> by (vm_compute in E; congruence).
  destruct (@acquire_release_balanced Z unit Demo.alloc ∅ Demo.any L Demo.mounted Demo.file n s1 Hok Demo.file_path E) as (_ & s2 & E2 & _).
  by exists n, s1, s2.
Defined.

Lemma vfs_open_lowest_fd_witness :
  exists fd s', @vfs_open Z unit Demo.alloc (Some Demo.file) O_RDONLY 0 Demo.mounted = inl (fd, s') /\
    (fd_file s' = fd_file Demo.mounted \/ first_free (fd_file Demo.mounted) fd).
Proof.
  destruct (demo_mounted_ok 8192) as [L Hok]; [lia|].
  destruct (@vfs_open Z unit Demo.alloc (Some Demo.file) O_RDONLY 0 Demo.mounted) as [[fd s']|e] eqn:E;
    [|vm_compute in E; discriminate].
  exists fd, s'. split; [done|].
  destruct (@vfs_open_lowest_fd Z unit Demo.alloc ∅ Demo.any L Demo.mounted Demo.file O_RDONLY 0 fd s' Hok Demo.file_path E)
    as [[? _]|[? _]]; auto.
Defined.

Lemma vfs_close_frees_witness :
  exists r s', @vfs_close Z unit Demo.alloc 3 Demo.opened_file = inl (r, s') /\ vfs_inv (H := Demo.alloc) ∅ Demo.any s'.
Proof.
  destruct (demo_ok 1) as [L Hok]; [lia|].
  destruct (@vfs_close_frees Z unit Demo.alloc ∅ Demo.any L Demo.opened_file 3 Hok) as (r & s' & ? & ? & _). by exists r, s'.
Defined.

Lemma vfs_read_at_offset_witness :
  exists r s', @vfs_read Z unit 3 true 4 Demo.opened_file = inl (r, s') /\
    others_kept 3 Demo.opened_file s'.
Proof.
  destruct (demo_ok 1) as [L Hok]; [lia|].
  destruct (@vfs_read_at_offset Z unit Demo.alloc ∅ Demo.any L Demo.opened_file 3 true 4 Hok) as (r & s' & ? & _ & ? & _). by exists r, s'.
Defined.

Lemma vfs_lseek_clamps_witness :
  exists r s', @vfs_lseek Z unit 3 99 VFS_SEEK_SET Demo.opened_file = inl (r, s') /\ r = 10.
Proof.
  destruct (demo_ok 1) as [L Hok]; [lia|]. pose proof demo_opened as Hop.
  destruct (nodes Demo.opened_file !! 3) as [nd|] eqn:En; [|vm_compute in En; discriminate].
  assert (Hsz : v_size (v_attr nd) = 10) by (vm_compute in En; injection En as <-; reflexivity).
  destruct (@vfs_lseek_clamps Z unit Demo.alloc ∅ Demo.any L Demo.opened_file 3 (mkFile 3 0 1) 1 [[102; 105; 108; 101]] nd 99 VFS_SEEK_SET Hok Hop En)
    as (r & s' & E & _ & Hr & _); [left|lia|cbn; lia|].
  exists r, s'. split; [done|]. rewrite Hr, Hsz. reflexivity.
Defined.

(** ** What the code does not check *)

Module Gaps.
Import Demo.

#[local] Existing Instance Demo.alloc.

Definition outcome {A} (r : (A * vfs Z unit) + stop) : A + stop :=
  match r with inl (a, _) => inl a | inr e => inr e end.

(** ["/file/x"], ["/dir/"] and ["/dir"]. *)
Definition file_x : list Z := file ++ [47; 120].

(** A walk through a regular file returns 0 and leaves [*np] unset; [vfs_open] then uses
    the unset pointer. *)
Lemma walk_through_file_unset : outcome (vfs_node_acquire file_x mounted) = inl (0, None).
Proof. vm_compute. reflexivity. Qed.
Lemma open_through_file_unset : outcome (vfs_open (Some file_x) O_RDONLY 0 mounted) = inr Uninit.
Proof. vm_compute. reflexivity. Qed.

(** A mount is taken down while its root directory is open: the descriptor keeps a
    node whose mount is freed, and closing it follows the dangling pointer. *)
Definition unmount_open_root : VM Z unit Z :=
  let! _ := vfs_mount env None (Some dir) (Some cpio) 0 in
  let! fd := vfs_opendir (Some dir) in
  let! r := vfs_unmount env dir in
  if r =? 0 then vfs_close fd else vret r.
Lemma unmount_open_root_dangles : outcome (unmount_open_root mounted) = inr Bad.
Proof. vm_compute. reflexivity. Qed.

(** [O_CREAT] on a file that exists skips the check that it may be written. *)
Lemma open_write_refused : outcome (vfs_open (Some file) O_WRONLY 0 mounted) = inl (-1).
Proof. vm_compute. reflexivity. Qed.
Lemma open_creat_write_allowed : outcome (vfs_open (Some file) (Z.lor O_WRONLY O_CREAT) 0 mounted) = inl 3.
Proof. vm_compute. reflexivity. Qed.

(** A trailing slash makes the directory its own parent: [vfs_rmdir] takes its lock
    twice. *)
Lemma rmdir_trailing_slash_blocks : outcome (vfs_rmdir 5 (Some (dir ++ [47])) mounted) = inr Halted.
Proof. vm_compute. reflexivity. Qed.

(** A path longer than the buffer of the walk is written past its end. *)
Lemma long_path_overflows : outcome (vfs_node_acquire (47 :: repeat 97 1100) mounted) = inr Bad.
Proof. vm_compute. reflexivity. Qed.

(** Seeking forward from a positive offset can overflow. *)
Definition seek_twice : VM Z unit Z :=
  let! _ := vfs_lseek 3 10 VFS_SEEK_SET in vfs_lseek 3 (2 ^ 63 - 1) VFS_SEEK_CUR.
Lemma seek_overflows : outcome (seek_twice opened_file) = inr Bad.
Proof. vm_compute. reflexivity. Qed.
End Gaps.
