(* ===== verification/Jhash.v ===== *)
(** * Jhash: the Jenkins hash of include/jhash.h

    The hash that distributes futexes over their buckets.  Words are 32-bit values;
    a key of bytes is read little-endian, as on the target. *)

From S2P Require Import Prelude.

(** ** include/jhash.h *)

(** [word << (shift & 31) | word >> (-shift & 31)] *)
Definition rol32 (word shift : Z) : Z :=
  Z.lor (u32 (Z.shiftl word (Z.land shift 31))) (Z.shiftr word (Z.land (- shift) 31)).

Definition JHASH_INITVAL : Z := 0xdeadbeef.

(** The three words of the state. *)
Abbreviation abc := (Z * Z * Z)%type.

(** [x -= z; x ^= rol32(z, n); z += y], the line that [__jhash_mix] repeats. *)
Definition mix_step (n x y z : Z) : Z * Z :=
  (Z.lxor (u32 (x - z)) (rol32 z n), u32 (z + y)).

Definition __jhash_mix (s : abc) : abc :=
  let '(a, b, c) := s in
  let '(a, c) := mix_step 4 a b c in
  let '(b, a) := mix_step 6 b c a in
  let '(c, b) := mix_step 8 c a b in
  let '(a, c) := mix_step 16 a b c in
  let '(b, a) := mix_step 19 b c a in
  let '(c, b) := mix_step 4 c a b in
  (a, b, c).

(** [x ^= y; x -= rol32(y, n)] *)
Definition final_step (n x y : Z) : Z := u32 (Z.lxor x y - rol32 y n).

Definition __jhash_final (s : abc) : abc :=
  let '(a, b, c) := s in
  let c := final_step 14 c b in
  let a := final_step 11 a c in
  let b := final_step 25 b a in
  let c := final_step 16 c b in
  let a := final_step 4 a c in
  let b := final_step 14 b a in
  let c := final_step 24 c b in
  (a, b, c).

(** [a += x; b += y; c += z; __jhash_mix(a, b, c)], the body of the loops. *)
Definition mix_words (x y z : Z) (s : abc) : abc :=
  let '(a, b, c) := s in __jhash_mix (u32 (a + x), u32 (b + y), u32 (c + z)).

(** The word at the head of a key of bytes; a read past the end is undefined. *)
Definition __get_unaligned_cpu32 (k : list Z) : res Z :=
  match k with
  | k0 :: k1 :: k2 :: k3 :: _ => Ok (k0 + Z.shiftl k1 8 + Z.shiftl k2 16 + Z.shiftl k3 24)
  | _ => Undef
  end.

(** [switch (length)] of [jhash]: the bytes of the last block, highest first. *)
Definition jhash_tail (k : list Z) (s : abc) : res abc :=
  let at_ i := deref (k !! i) in
  let n := length k in
  let add (i : nat) (sh : Z) (x : Z) := if (i <? n)%nat then let* y := at_ i in Ok (u32 (x + u32 (Z.shiftl y sh))) else Ok x in
  let '(a, b, c) := s in
  let* c := add 11%nat 24 c in
  let* c := add 10%nat 16 c in
  let* c := add 9%nat 8 c in
  let* c := add 8%nat 0 c in
  let* b := add 7%nat 24 b in
  let* b := add 6%nat 16 b in
  let* b := add 5%nat 8 b in
  let* b := add 4%nat 0 b in
  let* a := add 3%nat 24 a in
  let* a := add 2%nat 16 a in
  let* a := add 1%nat 8 a in
  let* a := add 0%nat 0 a in
  Ok (a, b, c).

(** [while (length > 12)]: [fuel] bounds the blocks; the number of bytes is enough. *)
Fixpoint jhash_loop (fuel : nat) (k : list Z) (s : abc) : res (list Z * abc) :=
  if (length k <=? 12)%nat then Ok (k, s)
  else
    match fuel with
    | O => Undef
    | S fuel =>
        let* x := __get_unaligned_cpu32 k in
        let* y := __get_unaligned_cpu32 (drop 4 k) in
        let* z := __get_unaligned_cpu32 (drop 8 k) in
        jhash_loop fuel (drop 12 k) (mix_words x y z s)
    end.

Definition jhash (key : list Z) (initval : Z) : res Z :=
  let i := u32 (JHASH_INITVAL + u32 (Z.of_nat (length key)) + initval) in
  let* '(k, s) := jhash_loop (length key) key (i, i, i) in
  let* s := if (length k =? 0)%nat then Ok s else let* s := jhash_tail k s in Ok (__jhash_final s) in
  Ok s.2.

(** [while (length > 3)] *)
Fixpoint jhash2_loop (k : list Z) (s : abc) : list Z * abc :=
  match k with
  | x :: y :: z :: ((_ :: _) as k') =>
      jhash2_loop k' (mix_words x y z s)
  | _ => (k, s)
  end.

(** [switch (length)] of [jhash2]. *)
Definition jhash2_tail (k : list Z) (s : abc) : abc :=
  let '(a, b, c) := s in
  match k with
  | [] => s
  | [x] => __jhash_final (u32 (a + x), b, c)
  | [x; y] => __jhash_final (u32 (a + x), u32 (b + y), c)
  | x :: y :: z :: _ => __jhash_final (u32 (a + x), u32 (b + y), u32 (c + z))
  end.

Definition jhash2 (k : list Z) (initval : Z) : Z :=
  let i := u32 (JHASH_INITVAL + u32 (Z.shiftl (Z.of_nat (length k)) 2) + initval) in
  let '(k, s) := jhash2_loop k (i, i, i) in
  (jhash2_tail k s).2.

Definition __jhash_nwords (a b c initval : Z) : Z :=
  (__jhash_final (u32 (a + initval), u32 (b + initval), u32 (c + initval))).2.

Definition jhash_3words (a b c initval : Z) : Z := __jhash_nwords a b c (u32 (initval + JHASH_INITVAL + 12)).
Definition jhash_2words (a b initval : Z) : Z := __jhash_nwords a b 0 (u32 (initval + JHASH_INITVAL + 8)).
Definition jhash_1word (a initval : Z) : Z := __jhash_nwords a 0 0 (u32 (initval + JHASH_INITVAL + 4)).

#[global] Arguments __jhash_mix : simpl never.
#[global] Arguments __jhash_final : simpl never.
#[global] Arguments mix_words : simpl never.

(** ** Bytes and words *)

Abbreviation is_word x := (0 <= x < 2 ^ 32).
Abbreviation is_byte x := (0 <= x < 2 ^ 8).

Definition word_bytes (w : Z) : list Z :=
  [w mod 2 ^ 8; (w / 2 ^ 8) mod 2 ^ 8; (w / 2 ^ 16) mod 2 ^ 8; w / 2 ^ 24].

Definition words_bytes (k : list Z) : list Z := mjoin (word_bytes <$> k).

Lemma word_bytes_sum w :
  w mod 2 ^ 8 + (w / 2 ^ 8) mod 2 ^ 8 * 2 ^ 8 + (w / 2 ^ 16) mod 2 ^ 8 * 2 ^ 16 + w / 2 ^ 24 * 2 ^ 24 = w.
Proof. Z.div_mod_to_equations. lia. Qed.

Lemma get_word_bytes w k : __get_unaligned_cpu32 (word_bytes w ++ k) = Ok w.
Proof. cbn. f_equal. rewrite !Z.shiftl_mul_pow2 by lia. apply word_bytes_sum. Qed.

Lemma words_bytes_cons w k : words_bytes (w :: k) = word_bytes w ++ words_bytes k.
Proof. done. Qed.

Lemma words_bytes_length k : length (words_bytes k) = (4 * length k)%nat.
Proof. induction k as [|w k IH]; [done|]. rewrite words_bytes_cons, length_app, IH. cbn. lia. Qed.

Lemma u32_idem_l x y : u32 (u32 x + y) = u32 (x + y).
Proof. unfold u32, wrap. by rewrite Zplus_mod_idemp_l. Qed.

Lemma u32_idem_r x y : u32 (x + u32 y) = u32 (x + y).
Proof. unfold u32, wrap. by rewrite Zplus_mod_idemp_r. Qed.

Lemma u32_add4 a p q r t : u32 (u32 (u32 (u32 (a + u32 p) + u32 q) + u32 r) + u32 t) = u32 (a + p + q + r + t).
Proof.
  rewrite (u32_idem_r a p), (u32_idem_l (a + p) (u32 q)), (u32_idem_r (a + p) q),
    (u32_idem_l (a + p + q) (u32 r)), (u32_idem_r (a + p + q) r), (u32_idem_l (a + p + q + r) (u32 t)).
  apply u32_idem_r.
Qed.

(** Adding the bytes of a word one by one, highest first, adds the word. *)
Lemma add_word_bytes a w :
  u32 (u32 (u32 (u32 (a + u32 (Z.shiftl (w / 2 ^ 24) 24)) + u32 (Z.shiftl ((w / 2 ^ 16) mod 2 ^ 8) 16)) +
     u32 (Z.shiftl ((w / 2 ^ 8) mod 2 ^ 8) 8)) + u32 (Z.shiftl (w mod 2 ^ 8) 0)) = u32 (a + w).
Proof.
  rewrite u32_add4, !Z.shiftl_mul_pow2 by lia. f_equal.
  pose proof (word_bytes_sum w). lia.
Qed.

(** ** The two hashes agree *)

Lemma jhash_loop_words fuel k s :
  (length k <= fuel)%nat ->
  jhash_loop fuel (words_bytes k) s = Ok (words_bytes (jhash2_loop k s).1, (jhash2_loop k s).2).
Proof.
  revert k s. induction fuel as [|fuel IH]; intros k s Hf.
  - destruct k; [done|cbn in Hf; lia].
  - cbn [jhash_loop]. rewrite words_bytes_length. destruct (Nat.leb_spec (4 * length k) 12) as [Hl|Hl].
    + destruct k as [|x [|y [|z [|w k]]]]; cbn in Hl; try lia; done.
    + destruct k as [|x [|y [|z [|w k]]]]; cbn in Hl; try lia.
      rewrite !(words_bytes_cons x), get_word_bytes. cbn [res_bind].
      change (drop 4 (word_bytes x ++ words_bytes (y :: z :: w :: k))) with (words_bytes (y :: z :: w :: k)).
      change (drop 8 (word_bytes x ++ words_bytes (y :: z :: w :: k))) with (words_bytes (z :: w :: k)).
      change (drop 12 (word_bytes x ++ words_bytes (y :: z :: w :: k))) with (words_bytes (w :: k)).
      rewrite !(words_bytes_cons y), !(words_bytes_cons z), !get_word_bytes. cbn [res_bind].
      rewrite IH by (cbn in *; lia). done.
Qed.

Lemma jhash2_loop_short k s : (length (jhash2_loop k s).1 <= 3)%nat.
Proof.
  remember (length k) as n eqn:E. revert k s E. induction n as [n IH] using lt_wf_ind; intros k s E.
  destruct k as [|x [|y [|z [|w k]]]]; [cbn; lia..|].
  change (jhash2_loop (x :: y :: z :: w :: k) s) with (jhash2_loop (w :: k) (mix_words x y z s)).
  eapply IH; [|done]. rewrite E. cbn. lia.
Qed.

Lemma jhash_tail_words k s :
  (length k <= 3)%nat -> jhash_tail (words_bytes k) s =
    let '(a, b, c) := s in
    Ok (match k !! 0%nat with Some x => u32 (a + x) | None => a end,
        match k !! 1%nat with Some y => u32 (b + y) | None => b end,
        match k !! 2%nat with Some z => u32 (c + z) | None => c end).
Proof.
  intros Hl. destruct s as [[a b] c]. destruct k as [|x [|y [|z [|w k]]]]; cbn in Hl; try lia;
    cbn -[u32 Z.shiftl Z.pow Z.div Z.modulo]; rewrite ?add_word_bytes; done.
Qed.

(** C11. Hashing an array of words with [jhash2] gives the same value as hashing its bytes with
    [jhash], for keys of every length. *)
Theorem jhash2_is_jhash k initval : jhash (words_bytes k) initval = Ok (jhash2 k initval).
Proof.
  unfold jhash, jhash2. rewrite words_bytes_length.
  replace (u32 (Z.of_nat (4 * length k))) with (u32 (Z.shiftl (Z.of_nat (length k)) 2))
    by (rewrite Z.shiftl_mul_pow2 by lia; f_equal; lia).
  set (i := u32 _). rewrite jhash_loop_words by lia. cbn [res_bind].
  pose proof (jhash2_loop_short k (i, i, i)) as Hs.
  destruct (jhash2_loop k (i, i, i)) as [r [[a b] c]]; cbn [fst snd] in *.
  rewrite words_bytes_length, jhash_tail_words by done.
  destruct r as [|x [|y [|z [|w r]]]]; cbn in Hs; try lia; done.
Qed.


(** ** The mixing function is a permutation of the states *)

Definition is_state (s : abc) : Prop := let '(a, b, c) := s in is_word a /\ is_word b /\ is_word c.

(** [mix_step] undone: [z] is known again from [z + y], then [x]. *)
Definition unmix_step (n x' y z' : Z) : Z * Z :=
  let z := u32 (z' - y) in (u32 (Z.lxor x' (rol32 z n) + z), z).

Definition jhash_unmix (s : abc) : abc :=
  let '(a, b, c) := s in
  let '(c, b) := unmix_step 4 c a b in
  let '(b, a) := unmix_step 19 b c a in
  let '(a, c) := unmix_step 16 a b c in
  let '(c, b) := unmix_step 8 c a b in
  let '(b, a) := unmix_step 6 b c a in
  let '(a, c) := unmix_step 4 a b c in
  (a, b, c).

Lemma u32_word x : is_word (u32 x).
Proof. by apply wrap_range. Qed.

Lemma word_log2 x : 0 <= x -> is_word x <-> Z.log2 x < 32.
Proof.
  intros Hx. destruct (Z.eq_dec x 0) as [->|Hn]; [cbn; lia|].
  rewrite (Z.log2_lt_pow2 x 32) by lia. lia.
Qed.

Lemma lor_word x y : is_word x -> is_word y -> is_word (Z.lor x y).
Proof.
  intros Hx Hy. pose proof Hx as [? _]. pose proof Hy as [? _].
  apply word_log2 in Hx, Hy; [|done..]. apply word_log2; [by apply Z.lor_nonneg|].
  rewrite Z.log2_lor by done. lia.
Qed.

Lemma lxor_word x y : is_word x -> is_word y -> is_word (Z.lxor x y).
Proof.
  intros Hx Hy. pose proof Hx as [? _]. pose proof Hy as [? _].
  apply word_log2 in Hx, Hy; [|done..]. apply word_log2; [by apply Z.lxor_nonneg|].
  pose proof (Z.log2_lxor x y). lia.
Qed.

Lemma rol32_word x n : is_word x -> is_word (rol32 x n).
Proof.
  intros Hx. apply lor_word; [apply u32_word|].
  assert (0 <= Z.land (- n) 31) by (apply Z.land_nonneg; right; lia).
  rewrite Z.shiftr_div_pow2 by done. pose proof (Z.pow_pos_nonneg 2 (Z.land (- n) 31) ltac:(lia) ltac:(done)).
  split; [apply Z.div_pos; lia|]. apply Z.div_lt_upper_bound; nia.
Qed.

Lemma u32_sub_add x y : is_word x -> u32 (u32 (x - y) + y) = x.
Proof. intros Hx. rewrite u32_idem_l, Z.sub_add. by apply u32_small. Qed.

Lemma u32_add_sub x y : is_word x -> u32 (u32 (x + y) - y) = x.
Proof. intros Hx. unfold Z.sub. rewrite u32_idem_l. replace (x + y + - y) with x by lia. by apply u32_small. Qed.

Lemma lxor_cancel x y : Z.lxor (Z.lxor x y) y = x.
Proof. by rewrite Z.lxor_assoc, Z.lxor_nilpotent, Z.lxor_0_r. Qed.

Lemma unmix_mix_step n x y z : is_word x -> is_word z ->
  let '(x', z') := mix_step n x y z in unmix_step n x' y z' = (x, z).
Proof.
  intros Hx Hz. unfold mix_step, unmix_step. rewrite (u32_add_sub z y Hz), lxor_cancel. by rewrite u32_sub_add.
Qed.

Lemma mix_unmix_step n x' y z' : is_word x' -> is_word z' ->
  let '(x, z) := unmix_step n x' y z' in mix_step n x y z = (x', z').
Proof.
  intros Hx Hz. unfold mix_step, unmix_step. set (z := u32 (z' - y)).
  assert (Hw : is_word (Z.lxor x' (rol32 z n))) by (apply lxor_word; [done|apply rol32_word, u32_word]).
  rewrite (u32_add_sub _ z Hw), lxor_cancel. unfold z. by rewrite u32_sub_add.
Qed.

Lemma mix_step_word n x y z : is_word z ->
  is_word (mix_step n x y z).1 /\ is_word (mix_step n x y z).2.
Proof. intros Hz. split; [apply lxor_word; [apply u32_word|by apply rol32_word]|apply u32_word]. Qed.

Lemma unmix_step_word n x y z : is_word (unmix_step n x y z).1 /\ is_word (unmix_step n x y z).2.
Proof. split; apply u32_word. Qed.

#[global] Arguments mix_step : simpl never.
#[global] Arguments unmix_step : simpl never.

(** One line of the mixing function undone, in the middle of a composition. *)
Ltac unmix_line :=
  match goal with
  | |- context [mix_step ?n ?x ?y ?z] =>
      lazymatch goal with
      | Hx : is_word x, Hz : is_word z |- _ =>
          let U := fresh "U" in
          pose proof (unmix_mix_step n x y z Hx Hz) as U;
          pose proof (mix_step_word n x y z Hz) as [? ?];
          destruct (mix_step n x y z) as [? ?]; cbn [fst snd] in *
      end
  end.
Ltac remix_line :=
  match goal with
  | |- context [unmix_step ?n ?x ?y ?z] =>
      lazymatch goal with
      | Hx : is_word x, Hz : is_word z |- _ =>
          let U := fresh "U" in
          pose proof (mix_unmix_step n x y z Hx Hz) as U;
          pose proof (unmix_step_word n x y z) as [? ?];
          destruct (unmix_step n x y z) as [? ?]; cbn [fst snd] in *
      end
  end.

(** [__jhash_mix] mixes its three words reversibly: [jhash_unmix] is its inverse on both
    sides, so no two states are mixed into the same one. *)
Theorem jhash_mix_reversible s :
  is_state s -> jhash_unmix (__jhash_mix s) = s /\ __jhash_mix (jhash_unmix s) = s.
Proof.
  destruct s as [[a b] c]. intros (Ha & Hb & Hc). unfold __jhash_mix, jhash_unmix. split.
  - do 6 unmix_line. by rewrite U4, U3, U2, U1, U0, U.
  - do 6 remix_line. by rewrite U4, U3, U2, U1, U0, U.
Qed.

Lemma jhash_mix_reversible_witness : jhash_unmix (__jhash_mix (1, 2, 3)) = (1, 2, 3).
Proof. apply (jhash_mix_reversible (1, 2, 3)). cbn. lia. Defined.
