(* ===== verification/Sched.v ===== *)
(** * Sched: threads, the scheduler and what blocks on it

    core/sched.c, core/thread.c, core/mutex.c, core/semaphore.c, core/waitqueue.c,
    core/futex.c, the migrating IPC of core/ipc and the sleep of core/sys/time.c.

    - There is one processor and the kernel is not preempted ("Not support kernel
      preemption", init/main.c): kernel code runs until it returns to user mode or
      calls [schedule] or [schedule_to].  Spin locks only keep interrupts and
      preemption off and are left out.
    - A thread that is switched out keeps its place in the kernel.  [kcont] names the
      places; a function that switches takes the place of its caller as an argument, and
      [continue_] runs the code that follows when the thread is switched to again.
    - The queues are the [list_head]s and [hlist]s of the source, in pointer heaps. *)

From S2P Require Import Prelude ListHead Hlist Jhash.

Inductive task_status_t :=
| TASK_STATUS_RUNNING
| TASK_STATUS_READY
| TASK_STATUS_SUSPEND
| TASK_STATUS_EXIT.

#[export] Instance task_status_eq_dec : EqDecision task_status_t.
Proof. solve_decision. Defined.

(** Where the kernel code of a thread goes on.  [KRun]: it runs.  [KNew]: it was never
    switched to.  [KReturn]: [schedule] returns to a caller that leaves the kernel or
    calls it again.  [KMutex], [KSem]: the loops of [mutex_lock] and [semaphore_down].
    [KFutex]: [futex_wait_queue_me].  [KSleep]: [sys_nanosleep].  [KCall], [KServe]:
    [schedule_to] returns to [sys_ipc_call] and to [sys_ipc_return].  [KDead]:
    [thread_destroy]. *)
Inductive kcont :=
| KRun
| KNew
| KReturn
| KMutex (m : Z)
| KSem (m : Z)
| KFutex
| KSleep
| KCall
| KServe
| KDead.

#[export] Instance kcont_eq_dec : EqDecision kcont.
Proof. solve_decision. Defined.

(** The [list_head]s: [ready], the nodes of a thread, the wait list of a mutex or
    semaphore, the local [wake_list] of [sys_futex_wake], wait queues. *)
Inductive kloc :=
| LReady
| LReadyNode (t : Z)
| LMlist (t : Z)
| LWakeNode (t : Z)
| LWakeHead
| LMwait (m : Z)
| LWaitHead (w : Z)
| LWaitEntry (e : Z).

#[export] Instance kloc_eq_dec : EqDecision kloc.
Proof. solve_decision. Defined.
#[export] Instance kloc_countable : Countable kloc.
Proof.
  refine (inj_countable'
    (fun l => match l with
              | LReady => (0, 0) | LReadyNode t => (1, t) | LMlist t => (2, t) | LWakeNode t => (3, t)
              | LWakeHead => (4, 0) | LMwait m => (5, m) | LWaitHead w => (6, w) | LWaitEntry e => (7, e)
              end)
    (fun p => match p with
              | (0, _) => LReady | (1, t) => LReadyNode t | (2, t) => LMlist t | (3, t) => LWakeNode t
              | (4, _) => LWakeHead | (5, m) => LMwait m | (6, w) => LWaitHead w | (_, e) => LWaitEntry e
              end) _).
  by intros [].
Defined.

Record thread_t := mkThread {
  status : task_status_t;
  flags : Z;              (* thread_info.flags *)
  vmspace : Z;
  active_conn : Z;
  cont : kcont;
}.

Record ipc_connection_t := mkConn { source : Z; target : Z }.

(** [struct futex_q], on the stack of the waiting thread. *)
Record futex_q := mkFutexQ {
  q_task : Z;
  q_locked : bool;        (* lock_ptr is not NULL *)
  q_key : Z * Z;          (* vmspace, address *)
  q_bitset : Z;
}.

Record kernel := mkKernel {
  threads : gmap Z thread_t;
  links : lheap kloc;
  current : Z;
  atomic : gmap Z Z;               (* counters of mutexes and semaphores *)
  conns : gmap Z ipc_connection_t;
  hashsize : Z;
  waiters : gmap Z Z;              (* of each futex bucket *)
  chains : hheap Z Z;              (* of each futex bucket; nodes are the waiting threads' *)
  futex_qs : gmap Z futex_q;       (* by thread *)
  wq_priv : gmap Z Z;              (* wait_queue_entry.priv *)
}.

(** ** State access *)

Definition set_threads k x :=
  mkKernel x (links k) (current k) (atomic k) (conns k) (hashsize k) (waiters k) (chains k) (futex_qs k) (wq_priv k).
Definition set_links k x :=
  mkKernel (threads k) x (current k) (atomic k) (conns k) (hashsize k) (waiters k) (chains k) (futex_qs k) (wq_priv k).
Definition set_current k x :=
  mkKernel (threads k) (links k) x (atomic k) (conns k) (hashsize k) (waiters k) (chains k) (futex_qs k) (wq_priv k).
Definition set_atomic k x :=
  mkKernel (threads k) (links k) (current k) x (conns k) (hashsize k) (waiters k) (chains k) (futex_qs k) (wq_priv k).
Definition set_conns k x :=
  mkKernel (threads k) (links k) (current k) (atomic k) x (hashsize k) (waiters k) (chains k) (futex_qs k) (wq_priv k).
Definition set_futex k w c q :=
  mkKernel (threads k) (links k) (current k) (atomic k) (conns k) (hashsize k) w c q (wq_priv k).
Definition set_wq_priv k x :=
  mkKernel (threads k) (links k) (current k) (atomic k) (conns k) (hashsize k) (waiters k) (chains k) (futex_qs k) x.

Definition get_thread k (t : Z) : res thread_t := deref (threads k !! t).
Definition put_thread k (t : Z) (th : thread_t) : kernel := set_threads k (<[t := th]> (threads k)).

Definition with_status (th : thread_t) s := mkThread s (flags th) (vmspace th) (active_conn th) (cont th).
Definition with_flags (th : thread_t) f := mkThread (status th) f (vmspace th) (active_conn th) (cont th).
Definition with_conn (th : thread_t) c := mkThread (status th) (flags th) (vmspace th) c (cont th).
Definition with_cont (th : thread_t) c := mkThread (status th) (flags th) (vmspace th) (active_conn th) c.

(** [thread->field = ..] *)
Definition upd_thread k (t : Z) (f : thread_t -> thread_t) : res kernel :=
  let* th := get_thread k t in Ok (put_thread k t (f th)).

(** A [list_head] operation. *)
Definition on_links k (op : lheap kloc -> res (lheap kloc)) : res kernel :=
  let* l := op (links k) in Ok (set_links k l).

(** ** core/sched.c *)

Definition scheduler_next_ready_task k : res Z :=
  if list_empty LReady (links k) then Panic
  else
    let* n := get_next LReady (links k) in
    match n with LReadyNode t => Ok t | _ => Undef end.

Definition scheduler_enqueue_task (t : Z) k : res kernel :=
  on_links k (list_add_tail (LReadyNode t) LReady).

Definition scheduler_dequeue_task (t : Z) k : res kernel :=
  on_links k (list_del_init (LReadyNode t)).

Definition NEED_RESCHED : Z := 1.

Definition thread_need_sched (t : Z) k : res kernel :=
  upd_thread k t (fun th => with_flags th (Z.lor (flags th) NEED_RESCHED)).

Definition thread_clear_sched_flag (t : Z) k : res kernel :=
  upd_thread k t (fun th => with_flags th (Z.land (flags th) (not64 NEED_RESCHED))).

(** [switch_to]: the old thread will go on at [c]. *)
Definition switch_to (old next : Z) (c : kcont) k : res kernel :=
  let* k := upd_thread k old (fun th => with_cont th c) in
  let* _ := get_thread k next in
  Ok k.

(** [delete(old)] frees the thread. *)
Definition delete_thread (t : Z) k : kernel := set_threads k (delete t (threads k)).

(** Whether the thread continues after the [switch_to] of [schedule]. *)
Definition in_schedule (c : kcont) : bool :=
  match c with KNew | KCall | KServe => false | _ => true end.

(** What follows the switch in [schedule], when the new thread had called it. *)
Definition after_switch (old : Z) k : res kernel :=
  let* th := get_thread k (current k) in
  if in_schedule (cont th) then
    let* o := get_thread k old in
    if bool_decide (status o = TASK_STATUS_EXIT) then Ok (delete_thread old k) else Ok k
  else Ok k.

Definition schedule (c : kcont) k : res kernel :=
  let old := current k in
  let* k := thread_clear_sched_flag old k in
  let* th := get_thread k old in
  let* k :=
    if bool_decide (status th = TASK_STATUS_SUSPEND) || bool_decide (status th = TASK_STATUS_EXIT)
    then Ok (set_links k (init_list_head (LReadyNode old) (links k)))
    else scheduler_enqueue_task old k in
  let* next := scheduler_next_ready_task k in
  let* k := scheduler_dequeue_task next k in
  let k := set_current k next in
  let* k := upd_thread k next (fun th => with_status th TASK_STATUS_RUNNING) in
  let* k := switch_to old next c k in
  after_switch old k.

(** [switch_to] stores the place of the old thread last, so that a thread that is
    switched to itself goes on at [c]. *)
Definition schedule_to (t : Z) (c : kcont) k : res kernel :=
  let old := current k in
  let* k := upd_thread k old (fun th => with_status th TASK_STATUS_SUSPEND) in
  let k := set_links k (init_list_head (LReadyNode old) (links k)) in
  let k := set_current k t in
  let* k := upd_thread k t (fun th => with_status th TASK_STATUS_RUNNING) in
  let* k := switch_to old t c k in
  after_switch old k.

(** [sched_timer_function]: the tick. *)
Definition sched_timer_function k : res kernel := thread_need_sched (current k) k.

(** ** core/thread.c *)

Definition thread_resume (t : Z) k : res kernel :=
  if t =? 0 then Ok k
  else
    let* th := get_thread k t in
    if bool_decide (status th = TASK_STATUS_SUSPEND) then
      scheduler_enqueue_task t (put_thread k t (with_status th TASK_STATUS_READY))
    else Ok k.

Definition thread_suspend (t : Z) (c : kcont) k : res kernel :=
  if t =? 0 then Ok k
  else
    let* th := get_thread k t in
    match status th with
    | TASK_STATUS_READY =>
        scheduler_dequeue_task t (put_thread k t (with_status th TASK_STATUS_SUSPEND))
    | TASK_STATUS_RUNNING =>
        schedule c (put_thread k t (with_status th TASK_STATUS_SUSPEND))
    | _ => Ok k
    end.

Definition thread_destroy (t : Z) k : res kernel :=
  if t =? 0 then Panic
  else
    let* k := upd_thread k t (fun th => with_status th TASK_STATUS_EXIT) in
    schedule KDead k.

Definition sys_thread_exit k : res kernel := thread_destroy (current k) k.

Definition sys_yield k : res kernel := thread_suspend (current k) KReturn k.

(** The parts of [thread_create] the scheduler sees: the constructor, and a status of
    [SUSPEND] with the address space [vms].  [t] is the address of the new object. *)
Definition thread_create (t vms : Z) k : kernel :=
  let l := init_list_head (LWakeNode t) (init_list_head (LMlist t) (init_list_head (LReadyNode t) (links k))) in
  put_thread (set_links k l) t (mkThread TASK_STATUS_SUSPEND 0 vms 0 KNew).

(** The idle thread: the code that runs since the start becomes a thread. *)
Definition do_task_init (t vms : Z) k : kernel :=
  let k := thread_create t vms k in
  set_current (put_thread k t (mkThread TASK_STATUS_RUNNING 0 vms 0 KRun)) t.

(** ** core/mutex.c *)

Definition mutex_init (m : Z) k : kernel :=
  set_links (set_atomic k (<[m := 1]> (atomic k))) (init_list_head (LMwait m) (links k)).

(** [if (list_empty_careful(&self->mlist)) list_add_tail(&self->mlist, &m->mwait)] *)
Definition enqueue_waiter (t m : Z) k : res kernel :=
  if list_empty_careful (LMlist t) (links k)
  then on_links k (list_add_tail (LMlist t) (LMwait m)) else Ok k.

(** The call returns to its caller. *)
Definition returns k : res kernel := upd_thread k (current k) (fun th => with_cont th KRun).

(** From the test of the loop on, up to its return or a switch. *)
Definition mutex_lock (m : Z) k : res kernel :=
  let* v := deref (atomic k !! m) in
  if v =? 1 then returns (set_atomic k (<[m := 0]> (atomic k)))
  else
    let self := current k in
    let* k := enqueue_waiter self m k in
    thread_suspend self (KMutex m) k.

(** The first waiter is unlinked and resumed. *)
Definition wake_first (m : Z) k : res kernel :=
  if list_empty (LMwait m) (links k) then Ok k
  else
    let* pos := list_first_entry (LMwait m) (links k) in
    match pos with
    | LMlist t =>
        let* k := on_links k (list_del_init (LMlist t)) in
        thread_resume t k
    | _ => Undef
    end.

Definition mutex_unlock (m : Z) k : res kernel :=
  let* v := deref (atomic k !! m) in
  if v =? 0 then wake_first m (set_atomic k (<[m := 1]> (atomic k))) else Ok k.

(** ** core/semaphore.c *)

Definition semaphore_init (m count : Z) k : kernel :=
  set_links (set_atomic k (<[m := s32 count]> (atomic k))) (init_list_head (LMwait m) (links k)).

Definition semaphore_down (m : Z) k : res kernel :=
  let* v := deref (atomic k !! m) in
  if 0 <? v then returns (set_atomic k (<[m := s32 (v - 1)]> (atomic k)))
  else
    let self := current k in
    let* k := enqueue_waiter self m k in
    thread_suspend self (KSem m) k.

Definition semaphore_up (m : Z) k : res kernel :=
  let* v := deref (atomic k !! m) in
  let v := s32 (v + 1) in
  let k := set_atomic k (<[m := v]> (atomic k)) in
  if 0 <? v then wake_first m k else Ok k.

(** ** core/sys/time.c *)

(** The timer itself is armed by core/timer.c; when it expires it runs [sleep_callback]. *)
Definition sys_nanosleep k : res kernel := thread_suspend (current k) KSleep k.
Definition sleep_callback (t : Z) k : res kernel := thread_resume t k.

(** ** core/ipc: [thread_migrate_to_server] and [thread_migrate_to_client] *)

Definition thread_migrate_to_server (c : Z) k : res kernel :=
  let* conn := deref (conns k !! c) in
  let k := set_conns k (<[c := mkConn (current k) (target conn)]> (conns k)) in
  let* k := upd_thread k (target conn) (fun th => with_cont (with_conn th c) KNew) in
  schedule_to (target conn) KCall k.

(** [sys_ipc_return]; the value it hands over is not part of this model. *)
Definition sys_ipc_return k : res kernel :=
  let* th := get_thread k (current k) in
  let* conn := deref (conns k !! active_conn th) in
  let* k := upd_thread k (current k) (fun th => with_conn th 0) in
  schedule_to (source conn) KServe k.

(** The parts of [create_connection] the scheduler sees: a server thread [t] and the
    connection [c] to it. *)
Definition create_connection (c t vms : Z) k : kernel :=
  let k := thread_create t vms k in
  set_conns k (<[c := mkConn 0 t]> (conns k)).

(** ** core/futex.c *)

Definition FUTEX_BITSET_MATCH_ANY : Z := 0xffffffff.

(** The key as the four words of its memory. *)
Definition key_words (key : Z * Z) : list Z :=
  [u32 key.1; Z.shiftr key.1 32; u32 key.2; Z.shiftr key.2 32].

Definition hash_futex (key : Z * Z) k : Z := Z.land (jhash2 (key_words key) 0) (hashsize k - 1).

Definition match_futex (key1 key2 : Z * Z) : bool := (key1.2 =? key2.2) && (key1.1 =? key2.1).

Definition get_futex_key (uaddr : Z) k : res (Z * Z) :=
  let* th := get_thread k (current k) in Ok (vmspace th, uaddr).

Definition hb_waiters_add (b v : Z) k : res kernel :=
  let* w := deref (waiters k !! b) in
  Ok (set_futex k (<[b := s32 (w + v)]> (waiters k)) (chains k) (futex_qs k)).

(** [queue_lock] and, when the word has changed, [queue_unlock]; the bucket, or [None]
    for the error return.  [uval] is the word at [uaddr]. *)
Definition futex_wait_setup (uaddr uval val : Z) k : res (kernel * option Z) :=
  let* key := get_futex_key uaddr k in
  let hb := hash_futex key k in
  let* k := hb_waiters_add hb 1 k in
  let q := mkFutexQ 0 true key FUTEX_BITSET_MATCH_ANY in
  let k := set_futex k (waiters k) (chains k) (<[current k := q]> (futex_qs k)) in
  if negb (uval =? val) then
    let* k := hb_waiters_add hb (-1) k in
    Ok (k, None)
  else Ok (k, Some hb).

Definition queue_me (hb : Z) k : res kernel :=
  let t := current k in
  let* q := deref (futex_qs k !! t) in
  let c := hlist_add_head t hb (init_hlist_node t (chains k)) in
  Ok (set_futex k (waiters k) c (<[t := mkFutexQ t (q_locked q) (q_key q) (q_bitset q)]> (futex_qs k))).

(** [queue_me] links the node, so that [schedule] is called. *)
Definition futex_wait_queue_me (hb : Z) k : res kernel :=
  let t := current k in
  let* k := upd_thread k t (fun th => with_status th TASK_STATUS_SUSPEND) in
  let* k := queue_me hb k in
  if negb (hlist_unhashed t (chains k)) then schedule KFutex k
  else upd_thread k t (fun th => with_status th TASK_STATUS_RUNNING).

Definition sys_futex_wait (uaddr uval val : Z) k : res kernel :=
  let* '(k, hb) := futex_wait_setup uaddr uval val k in
  match hb with
  | None => Ok k
  | Some hb => futex_wait_queue_me hb k
  end.

(** [q] is the node of thread [t], in bucket [hb]. *)
Definition unqueue_futex (t hb : Z) k : res kernel :=
  let* q := deref (futex_qs k !! t) in
  if negb (q_locked q) || hlist_unhashed t (chains k) then Ok k
  else
    let* c := hlist_del t (chains k) in
    hb_waiters_add hb (-1) (set_futex k (waiters k) c (futex_qs k)).

Definition mark_wake_futex (t hb : Z) k : res kernel :=
  let* k := unqueue_futex t hb k in
  let* q := deref (futex_qs k !! t) in
  let k := set_futex k (waiters k) (chains k)
             (<[t := mkFutexQ (q_task q) false (q_key q) (q_bitset q)]> (futex_qs k)) in
  on_links k (list_add_tail (LWakeNode (q_task q)) LWakeHead).

(** [hlist_for_each_entry_safe(this, next, &hb->chain, list)] *)
Fixpoint wake_bucket (fuel : nat) (key : Z * Z) (hb : Z) (pos : option Z) k : res kernel :=
  match pos with
  | None => Ok k
  | Some t =>
      match fuel with
      | O => Undef
      | S fuel =>
          let next := hptr (chains k) !! CNext t in
          let* q := deref (futex_qs k !! t) in
          let* k :=
            if match_futex (q_key q) key && negb (Z.land (q_bitset q) FUTEX_BITSET_MATCH_ANY =? 0)
            then mark_wake_futex t hb k else Ok k in
          wake_bucket fuel key hb next k
      end
  end.

(** [list_for_each_entry_safe(pos, n, &wake_list, wake_list)] *)
Fixpoint resume_all (fuel : nat) (pos : kloc) k : res kernel :=
  match pos with
  | LWakeHead => Ok k
  | LWakeNode t =>
      match fuel with
      | O => Undef
      | S fuel =>
          let* next := get_next pos (links k) in
          let* k := on_links k (list_del_init pos) in
          let* k := thread_resume t k in
          resume_all fuel next k
      end
  | _ => Undef
  end.

Definition sys_futex_wake (uaddr : Z) k : res kernel :=
  let k := set_links k (init_list_head LWakeHead (links k)) in
  let* key := get_futex_key uaddr k in
  let hb := hash_futex key k in
  let* w := deref (waiters k !! hb) in
  if w =? 0 then Ok k
  else
    let fuel := size (futex_qs k) in
    let* k := wake_bucket fuel key hb (hptr (chains k) !! CFirst hb) k in
    let* first := get_next LWakeHead (links k) in
    resume_all fuel first k.

(** [roundup_pow_of_two(256 * CONFIG_CPU)] buckets, for one processor. *)
Definition do_futex_init k : kernel :=
  let n := 256 in
  mkKernel (threads k) (links k) (current k) (atomic k) (conns k) n
    (foldl (fun w i => <[i := 0]> w) (waiters k) (seqZ 0 n))
    (foldl (fun c i => init_hlist_head i c) (chains k) (seqZ 0 n)) (futex_qs k) (wq_priv k).

(** The static data, and what [main] does before the first thread can be created. *)
Definition boot (t vms : Z) : kernel :=
  do_task_init t vms
    (do_futex_init (mkKernel ∅ (init_list_head LReady (mk_lheap ∅ ∅)) 0 ∅ ∅ 0 ∅ (mk_hheap ∅ ∅) ∅ ∅)).

(** ** core/waitqueue.c *)

Definition init_waitqueue_head (w : Z) k : kernel := set_links k (init_list_head (LWaitHead w) (links k)).

Definition init_wait_entry (e : Z) k : kernel :=
  set_links (set_wq_priv k (<[e := current k]> (wq_priv k))) (init_list_head (LWaitEntry e) (links k)).

(** Every entry has this function. *)
Definition autoremove_wake_function (e : Z) k : res kernel :=
  let* t := deref (wq_priv k !! e) in
  let* k := thread_resume t k in
  on_links k (list_del_init (LWaitEntry e)).

Definition prepare_to_wait_queue (w e : Z) k : res kernel :=
  if list_empty (LWaitEntry e) (links k) then on_links k (list_add_tail (LWaitEntry e) (LWaitHead w)) else Ok k.

Definition add_wait_queue (w e : Z) k : res kernel := on_links k (list_add_tail (LWaitEntry e) (LWaitHead w)).

Definition remove_wait_queue (e : Z) k : res kernel := on_links k (list_del_init (LWaitEntry e)).

(** [list_for_each_entry_safe_from(curr, next, &wq_head->head, entry)], which reads the
    entry after the next one before it stops. *)
Fixpoint wake_up_loop (fuel : nat) (w : Z) (curr next : kloc) k : res kernel :=
  if bool_decide (curr = LWaitHead w) then Ok k
  else
    match fuel, curr with
    | S fuel, LWaitEntry e =>
        let* k := autoremove_wake_function e k in
        let* next' := get_next next (links k) in
        wake_up_loop fuel w next next' k
    | _, _ => Undef
    end.

Definition wake_up (fuel : nat) (w : Z) k : res kernel :=
  let* curr := list_first_entry (LWaitHead w) (links k) in
  if bool_decide (curr = LWaitHead w) then Ok k
  else let* next := get_next curr (links k) in wake_up_loop fuel w curr next k.

(** The loop of [wait_event]: [cond i] is the value of the condition when it is tested
    for the [i]th time; interrupts change it. *)
Fixpoint wait_event_loop (fuel : nat) (w e : Z) (cond : nat -> bool) (i : nat) k : res kernel :=
  match fuel with
  | O => Undef
  | S fuel =>
      let* k := prepare_to_wait_queue w e k in
      if cond i then Ok k
      else let* k := thread_resume (current k) k in wait_event_loop fuel w e cond (S i) k
  end.

Definition wait_event (fuel : nat) (w e : Z) (cond : nat -> bool) k : res kernel :=
  if cond 0%nat then Ok k
  else
    let k := init_wait_entry e k in
    let* k := wait_event_loop fuel w e cond 1 k in
    remove_wait_queue e k.

(** ** Switching back *)

(** The code of the running thread after it was switched to. *)
Definition continue_ k : res kernel :=
  let* th := get_thread k (current k) in
  match cont th with
  | KRun => Ok k
  | KMutex m => mutex_lock m k
  | KSem m => semaphore_down m k
  | KFutex =>
      let* k := upd_thread k (current k) (fun th => with_status th TASK_STATUS_RUNNING) in
      returns k
  | KDead => Panic
  | _ => returns k
  end.
