(* ===== verification/SchedLists.v ===== *)
(** * SchedLists: what the pointer heaps of the scheduler represent

    The [list_head]s of Sched.v hold the ready queue [rq] and the wait list [wl] of every
    mutex and semaphore; the hash chains hold the futex waiters [fl] of every bucket. *)

From S2P Require Import Prelude ListHead Hlist Sched.

Implicit Types (h : lheap kloc) (rq l : list Z) (wl : gmap Z (list Z)).

(** ** Frames by the kind of node *)

Definition touches (K : kloc -> Prop) h h' : Prop :=
  forall y, ~ K y -> lnext h' !! y = lnext h !! y /\ lprev h' !! y = lprev h !! y.

Definition is_ready (y : kloc) : Prop := match y with LReady | LReadyNode _ => True | _ => False end.
Definition is_wait (y : kloc) : Prop := match y with LMwait _ | LMlist _ => True | _ => False end.
Definition is_wake (y : kloc) : Prop := match y with LWakeHead | LWakeNode _ => True | _ => False end.

Lemma touches_refl K h : touches K h h.
Proof. done. Qed.

Lemma touches_trans K h1 h2 h3 : touches K h1 h2 -> touches K h2 h3 -> touches K h1 h3.
Proof. intros H1 H2 y Hy. destruct (H1 y Hy), (H2 y Hy). split; congruence. Qed.

Lemma touches_outside K ns h h' :
  same_outside ns h h' -> (forall y, y ∈ ns -> K y) -> touches K h h'.
Proof. intros Ho HK y Hy. apply Ho. intros Hin. by apply Hy, HK. Qed.

Lemma dlist_touches K h h' hd xs :
  touches K h h' -> (forall y, y ∈ hd :: xs -> ~ K y) -> dlist h hd xs -> dlist h' hd xs.
Proof.
  intros Ht Hk (Hnd & Hn & Hp). split; [done|]. split.
  - eapply path_frame, Hn. intros y Hy. symmetry. by apply Ht, Hk.
  - eapply path_frame, Hp. intros y Hy. symmetry. apply Ht, Hk.
    rewrite elem_of_cons in Hy |- *. by rewrite elem_of_reverse in Hy.
Qed.

(** Membership in the lists of nodes of a kind. *)
Ltac node_kinds :=
  repeat match goal with
  | |- forall y, y ∈ _ -> _ => intros ? ?
  | H : _ ∈ _ :: _ |- _ => apply elem_of_cons in H as [H|H]; [first [discriminate H | subst]|]
  | H : _ ∈ _ ++ _ |- _ => apply elem_of_app in H as [H|H]
  | H : _ ∈ [] |- _ => by apply not_elem_of_nil in H
  | H : _ ∈ _ <$> _ |- _ => apply list_elem_of_fmap in H as (? & H & ?); first [discriminate H | subst]
  | |- _ ∉ _ => let H := fresh in intros H
  | |- ~ _ => intros ?
  end; try done.

Lemma fmap_node_notin (f : Z -> kloc) (a : kloc) l t :
  (forall x y, f x = f y -> x = y) -> (forall x, f x <> a) -> t ∉ l -> f t ∉ a :: (f <$> l).
Proof.
  intros Hf Ha Ht Hin. apply elem_of_cons in Hin as [E|Hin]; [by eapply Ha|].
  apply list_elem_of_fmap in Hin as (x & E & Hx). by apply Hf in E as ->.
Qed.

(** ** The lists of threads *)

Definition waiting wl (t : Z) : Prop := exists m l, wl !! m = Some l /\ t ∈ l.

Record repr h (ths : gmap Z thread_t) rq wl : Prop := mk_repr {
  r_ready : dlist h LReady (LReadyNode <$> rq);
  r_wait m l : wl !! m = Some l -> dlist h (LMwait m) (LMlist <$> l);
  r_free t : is_Some (ths !! t) -> ~ waiting wl t -> dlist h (LMlist t) [];
  r_disj m1 l1 m2 l2 t : wl !! m1 = Some l1 -> wl !! m2 = Some l2 -> t ∈ l1 -> t ∈ l2 -> m1 = m2;
}.

Lemma repr_threads h ths ths' rq wl :
  (forall t, is_Some (ths' !! t) -> is_Some (ths !! t)) -> repr h ths rq wl -> repr h ths' rq wl.
Proof. intros He []. split; eauto. Qed.

Lemma repr_touch_wake h h' ths rq wl : touches is_wake h h' -> repr h ths rq wl -> repr h' ths rq wl.
Proof.
  intros Ht []. split; [..|done].
  - eapply dlist_touches; [done| |done]. node_kinds.
  - intros m l Hl. eapply dlist_touches; [done| |by apply r_wait0]. node_kinds.
  - intros t Ht' Hw. eapply dlist_touches; [done| |by apply r_free0]. node_kinds.
Qed.

(** Changes of the ready queue only. *)
Lemma repr_touch_ready h h' ths rq rq' wl :
  touches is_ready h h' -> dlist h' LReady (LReadyNode <$> rq') -> repr h ths rq wl -> repr h' ths rq' wl.
Proof.
  intros Ht Hd []. split; [done|..|done].
  - intros m l Hl. eapply dlist_touches; [done| |by apply r_wait0]. node_kinds.
  - intros t Ht' Hw. eapply dlist_touches; [done| |by apply r_free0]. node_kinds.
Qed.

Lemma repr_NoDup h ths rq wl : repr h ths rq wl -> NoDup rq.
Proof.
  intros [Hr _ _ _]. apply dlist_NoDup, NoDup_cons in Hr as [_ Hr]. by eapply NoDup_fmap_1.
Qed.

Lemma wait_NoDup h ths rq wl m l : repr h ths rq wl -> wl !! m = Some l -> NoDup l.
Proof.
  intros Hr Hl. pose proof (r_wait _ _ _ _ Hr _ _ Hl) as Hd. apply dlist_NoDup, NoDup_cons in Hd as [_ Hd].
  by eapply NoDup_fmap_1.
Qed.

Lemma ready_add h ths rq wl t :
  repr h ths rq wl -> t ∉ rq ->
  exists h', list_add_tail (LReadyNode t) LReady h = Ok h' /\ repr h' ths (rq ++ [t]) wl.
Proof.
  intros Hr Ht. destruct (list_add_tail_spec h LReady (LReadyNode <$> rq) (LReadyNode t)) as (h' & E & Hd & Ho).
  - apply Hr.
  - apply fmap_node_notin; [congruence|done|done].
  - exists h'. split; [done|]. eapply repr_touch_ready; [|by rewrite fmap_app|done].
    eapply touches_outside; [done|]. node_kinds.
Qed.

Lemma ready_del h ths l1 t l2 wl :
  repr h ths (l1 ++ t :: l2) wl ->
  exists h', list_del_init (LReadyNode t) h = Ok h' /\ repr h' ths (l1 ++ l2) wl.
Proof.
  intros Hr. pose proof (r_ready _ _ _ _ Hr) as Hd. rewrite fmap_app, fmap_cons in Hd.
  destruct (list_del_init_spec _ _ _ _ _ Hd) as (h' & E & Hd' & _ & Ho).
  exists h'. split; [done|]. eapply repr_touch_ready; [|by rewrite fmap_app|done].
  eapply touches_outside; [done|]. node_kinds.
Qed.

Lemma ready_init h ths rq wl t : repr h ths rq wl -> t ∉ rq -> repr (init_list_head (LReadyNode t) h) ths rq wl.
Proof.
  intros Hr Ht. eapply repr_touch_ready; [| |done].
  - eapply touches_outside; [apply init_same_outside|]. node_kinds.
  - eapply dlist_frame; [apply init_same_outside| |apply Hr].
    intros x Hx Hin. apply elem_of_cons in Hin as [->|Hin]; [|by apply not_elem_of_nil in Hin].
    revert Hx. apply fmap_node_notin; [congruence|done|done].
Qed.

(** ** Wait lists *)

Lemma free_careful h ths rq wl t :
  repr h ths rq wl -> is_Some (ths !! t) -> ~ waiting wl t -> list_empty_careful (LMlist t) h = true.
Proof.
  intros Hr Ht Hw. pose proof (r_free _ _ _ _ Hr _ Ht Hw) as Hd. unfold list_empty_careful.
  rewrite (dlist_first _ _ _ Hd), (dlist_last _ _ _ Hd). by rewrite !bool_decide_true.
Qed.

Lemma waiting_insert wl m l l' t :
  wl !! m = Some l -> waiting (<[m := l']> wl) t <-> (t ∈ l' \/ exists m' l, m' <> m /\ wl !! m' = Some l /\ t ∈ l).
Proof.
  intros Hm. split.
  - intros (m' & l0 & Hl & Ht). destruct (decide (m' = m)) as [->|].
    + rewrite lookup_insert_eq in Hl. left. by simplify_eq.
    + rewrite lookup_insert_ne in Hl by done. right. eauto 10.
  - intros [Ht|(m' & l0 & Hne & Hl & Ht)].
    + exists m, l'. by rewrite lookup_insert_eq.
    + exists m', l0. by rewrite lookup_insert_ne.
Qed.

(** A change of the list of [m] by operations on its nodes. *)
Lemma repr_touch_wait h h' ths rq wl m l l' (ns : list kloc) :
  repr h ths rq wl -> wl !! m = Some l ->
  same_outside ns h h' -> (forall y, y ∈ ns -> y = LMwait m \/ exists t, y = LMlist t /\ (t ∈ l \/ t ∈ l')) ->
  dlist h' (LMwait m) (LMlist <$> l') ->
  (forall t, t ∈ l' -> (t ∉ l) -> ~ waiting wl t) ->
  (forall t, t ∈ l -> (t ∉ l') -> dlist h' (LMlist t) []) ->
  repr h' ths rq (<[m := l']> wl).
Proof.
  intros Hr Hm Ho Hns Hd Hnew Hold.
  assert (Hother : forall m' l0 t, m' <> m -> wl !! m' = Some l0 -> t ∈ l0 -> (t ∉ l) /\ (t ∉ l')).
  { intros m' l0 t Hne Hl0 Ht. assert (t ∉ l) by (intros ?; by eapply Hne, (r_disj _ _ _ _ Hr)).
    split; [done|]. intros Ht'. eapply Hnew; [done..|]. by exists m', l0. }
  assert (Hframe : forall hd xs, (forall y, y ∈ hd :: xs -> y ∉ ns) -> dlist h hd xs -> dlist h' hd xs).
  { intros hd xs Hin. eapply dlist_frame; [done|]. intros y Hy. by apply Hin. }
  split.
  - apply Hframe; [|apply Hr]. intros y Hy Hin.
    destruct (Hns y Hin) as [->|(t & -> & _)]; node_kinds.
  - intros m' l0 Hl0. destruct (decide (m' = m)) as [->|Hne].
    + rewrite lookup_insert_eq in Hl0. by simplify_eq.
    + rewrite lookup_insert_ne in Hl0 by done. apply Hframe; [|by apply Hr].
      intros y Hy Hin. destruct (Hns y Hin) as [->|(t & -> & Ht)].
      * apply elem_of_cons in Hy as [[= ->]|Hy]; [done|]. node_kinds.
      * apply elem_of_cons in Hy as [|Hy]; [done|]. apply list_elem_of_fmap in Hy as (t' & [= ->] & Hy).
        destruct (Hother _ _ _ Hne Hl0 Hy). tauto.
  - intros t Ht Hw. rewrite (waiting_insert _ _ _ _ _ Hm) in Hw.
    destruct (decide (t ∈ l)) as [Hin|Hin].
    + apply Hold; [done|]. tauto.
    + apply Hframe; [|apply Hr; [done|]].
      * intros y Hy Hin'. apply elem_of_cons in Hy as [->|Hy]; [|by apply not_elem_of_nil in Hy].
        destruct (Hns _ Hin') as [|(t' & [= <-] & Ht')]; [done|]. tauto.
      * intros (m' & l0 & Hl0 & Hin'). destruct (decide (m' = m)) as [->|]; [by simplify_eq|]. apply Hw. eauto 10.
  - intros m1 l1 m2 l2 t H1 H2 Ht1 Ht2.
    destruct (decide (m1 = m)) as [->|N1], (decide (m2 = m)) as [->|N2];
      simplify_map_eq; try done.
    + by destruct (Hother _ _ _ N2 H2 Ht2).
    + by destruct (Hother _ _ _ N1 H1 Ht1).
    + by eapply (r_disj _ _ _ _ Hr).
Qed.

Lemma wait_add h ths rq wl m l t :
  repr h ths rq wl -> wl !! m = Some l -> ~ waiting wl t ->
  exists h', list_add_tail (LMlist t) (LMwait m) h = Ok h' /\ repr h' ths rq (<[m := l ++ [t]]> wl).
Proof.
  intros Hr Hm Hw. assert (Ht : t ∉ l) by (intros Hin; apply Hw; by exists m, l).
  destruct (list_add_tail_spec h (LMwait m) (LMlist <$> l) (LMlist t)) as (h' & E & Hd & Ho).
  - by apply Hr.
  - apply fmap_node_notin; [congruence|done|done].
  - exists h'. split; [done|]. eapply repr_touch_wait; [done|done|exact Ho|..].
    + intros y Hy. apply elem_of_cons in Hy as [->|Hy]; [right; exists t; set_solver|].
      apply elem_of_cons in Hy as [->|Hy]; [by left|]. apply list_elem_of_fmap in Hy as (t' & -> & ?). right. eauto.
    + by rewrite fmap_app.
    + intros t' Hin Hnin. apply elem_of_app in Hin as [|Hin]; [done|]. by apply list_elem_of_singleton in Hin as ->.
    + intros t' Hin Hnin. exfalso. apply Hnin, elem_of_app. by left.
Qed.

Lemma wait_pop h ths rq wl m t l :
  repr h ths rq wl -> wl !! m = Some (t :: l) ->
  list_empty (LMwait m) h = false /\ list_first_entry (LMwait m) h = Ok (LMlist t) /\
  exists h', list_del_init (LMlist t) h = Ok h' /\ repr h' ths rq (<[m := l]> wl).
Proof.
  intros Hr Hm. pose proof (r_wait _ _ _ _ Hr _ _ Hm) as Hd. pose proof (wait_NoDup _ _ _ _ _ _ Hr Hm) as Hnd.
  apply NoDup_cons in Hnd as [Hnt Hnd].
  rewrite (list_empty_spec _ _ _ Hd). split; [done|].
  unfold list_first_entry, get_next. rewrite (dlist_first _ _ _ Hd). split; [done|].
  rewrite fmap_cons in Hd. destruct (list_del_init_spec _ _ [] _ _ Hd) as (h' & E & Hd' & Hself & Ho).
  exists h'. split; [done|]. eapply repr_touch_wait; [done|done|exact Ho|..].
  - intros y Hy. apply elem_of_cons in Hy as [->|Hy]; [right; exists t; set_solver|].
    apply elem_of_cons in Hy as [->|Hy]; [by left|]. apply list_elem_of_fmap in Hy as (t' & -> & ?). right. eauto.
  - done.
  - intros t' Hin Hnin. exfalso. apply Hnin. by right.
  - intros t' Hin Hnin. apply elem_of_cons in Hin as [->|]; [done|done].
Qed.

Lemma wait_empty h ths rq wl m :
  repr h ths rq wl -> wl !! m = Some [] -> list_empty (LMwait m) h = true.
Proof. intros Hr Hm. pose proof (r_wait _ _ _ _ Hr _ _ Hm) as Hd. by rewrite (list_empty_spec _ _ _ Hd). Qed.

(** ** New objects *)

Lemma wait_new h ths rq wl m :
  repr h ths rq wl -> wl !! m = None -> repr (init_list_head (LMwait m) h) ths rq (<[m := []]> wl).
Proof.
  intros Hr Hm.
  assert (Hframe : forall hd xs, LMwait m ∉ hd :: xs -> dlist h hd xs -> dlist (init_list_head (LMwait m) h) hd xs).
  { intros hd xs Hin. eapply dlist_frame; [apply init_same_outside|]. intros y Hy Hy'.
    apply elem_of_cons in Hy' as [->|Hy']; [done|by apply not_elem_of_nil in Hy']. }
  split.
  - apply Hframe; [|apply Hr]. node_kinds.
  - intros m' l Hl. destruct (decide (m' = m)) as [->|].
    + rewrite lookup_insert_eq in Hl. simplify_eq. apply dlist_init.
    + rewrite lookup_insert_ne in Hl by done. apply Hframe; [|by apply Hr]. intros Hin.
      apply elem_of_cons in Hin as [[= ->]|Hin]; [done|]. node_kinds.
  - intros t Ht Hw. apply Hframe; [|apply Hr; [done|]].
    + intros Hin. apply elem_of_cons in Hin as [|Hin]; [done|by apply not_elem_of_nil in Hin].
    + intros (m' & l & Hl & Hin). apply Hw. exists m', l. rewrite lookup_insert_ne by congruence. done.
  - intros m1 l1 m2 l2 t H1 H2 Ht1 Ht2.
    destruct (decide (m1 = m)) as [->|], (decide (m2 = m)) as [->|];
      simplify_map_eq; try done.
    + by apply not_elem_of_nil in Ht1.
    + by apply not_elem_of_nil in Ht2.
    + by eapply (r_disj _ _ _ _ Hr).
Qed.

Lemma thread_new h ths rq wl t th :
  repr h ths rq wl -> t ∉ rq -> ~ waiting wl t ->
  repr (init_list_head (LWakeNode t) (init_list_head (LMlist t) (init_list_head (LReadyNode t) h)))
       (<[t := th]> ths) rq wl.
Proof.
  intros Hr Ht Hw. eapply repr_touch_wake.
  { eapply touches_outside; [apply init_same_outside|]. node_kinds. }
  apply (ready_init _ _ _ _ t) in Hr; [|done]. revert Hr. generalize (init_list_head (LReadyNode t) h). intros h0 Hr.
  assert (Hframe : forall hd xs, LMlist t ∉ hd :: xs -> dlist h0 hd xs -> dlist (init_list_head (LMlist t) h0) hd xs).
  { intros hd xs Hin. eapply dlist_frame; [apply init_same_outside|]. intros y Hy Hy'.
    apply elem_of_cons in Hy' as [->|Hy']; [done|by apply not_elem_of_nil in Hy']. }
  split; [| | |apply Hr].
  - apply Hframe; [|apply Hr]. node_kinds.
  - intros m l Hl. apply Hframe; [|by apply Hr]. apply fmap_node_notin; [congruence|done|].
    intros Hin. apply Hw. by exists m, l.
  - intros t' Ht' Hw'. destruct (decide (t' = t)) as [->|Hne]; [apply dlist_init|].
    apply Hframe; [|apply Hr; [|done]].
    + intros Hin. apply elem_of_cons in Hin as [[= ?]|Hin]; [done|by apply not_elem_of_nil in Hin].
    + by rewrite lookup_insert_ne in Ht' by done.
Qed.
