(* ===== verification/SchedInv.v ===== *)
(** * SchedInv: the invariants of the scheduler and of what blocks on it

    Each part of the kernel sees the threads through a view of its own: a change of the
    threads that a part does not see cannot break its invariant. *)

From S2P Require Import Prelude ListHead Hlist Jhash Sched SchedLists.

Implicit Types (ths : gmap Z thread_t) (rq l : list Z) (wl fl : gmap Z (list Z)) (k : kernel) (t m cur : Z).

(** ** The ready queue *)

Definition runnable (th : thread_t) : Prop := status th = TASK_STATUS_READY \/ status th = TASK_STATUS_RUNNING.

(** A thread that was preempted is in the queue and keeps the status [RUNNING]. *)
Record sched_inv (idle : Z) ths cur rq : Prop := mk_sched_inv {
  s_zero : ths !! 0 = None;
  s_cur : exists th, ths !! cur = Some th /\ status th = TASK_STATUS_RUNNING;
  s_ready t : t ∈ rq <-> t <> cur /\ exists th, ths !! t = Some th /\ runnable th;
  s_krun t th : ths !! t = Some th -> cont th = KRun -> t = cur;
  s_dead t th : ths !! t = Some th -> (cont th = KDead <-> status th = TASK_STATUS_EXIT);
  s_idle : exists th, ths !! idle = Some th /\ runnable th /\ (cont th = KRun \/ cont th = KReturn);
}.

(** ** Mutexes and semaphores *)

(** Who uses them: the mutex a thread holds (what its unlock may rely on), and which of
    the counters belong to mutexes. *)
Record ghost := mkGhost { held : gmap Z Z; mutexes : gset Z }.

(** The lock a thread waits for, whether it is a mutex, and whether it is suspended. *)
Definition lview ths t : option (Z * bool * bool) :=
  match ths !! t with
  | None => None
  | Some th =>
      let s := bool_decide (status th = TASK_STATUS_SUSPEND) in
      match cont th with
      | KMutex m => Some (m, true, s)
      | KSem m => Some (m, false, s)
      | _ => None
      end
  end.

Record lock_inv (v : Z -> option (Z * bool * bool)) (g : ghost) (at_ : gmap Z Z) wl : Prop := mk_lock_inv {
  l_wait m t : (exists l, wl !! m = Some l /\ t ∈ l) <-> exists b, v t = Some (m, b, true);
  l_dom m : is_Some (wl !! m) <-> is_Some (at_ !! m);
  l_kind t m b s : v t = Some (m, b, s) -> is_Some (at_ !! m) /\ (b = true <-> m ∈ mutexes g);
  l_mutex m : m ∈ mutexes g -> at_ !! m = Some (match held g !! m with Some _ => 0 | None => 1 end);
  l_held m : is_Some (held g !! m) -> m ∈ mutexes g;
  l_count m c : at_ !! m = Some c -> 0 <= c < 2 ^ 31;
  (** as many threads as can have the lock are awake and about to try it *)
  l_wake m c l : at_ !! m = Some c -> wl !! m = Some l ->
    l = [] \/ exists ts, NoDup ts /\ Z.of_nat (length ts) = c /\ forall t, t ∈ ts -> exists b, v t = Some (m, b, false);
}.

(** ** Futexes *)

(** The address space of a thread that sleeps on a futex. *)
Definition fview ths t : option Z :=
  match ths !! t with
  | Some th => if bool_decide (status th = TASK_STATUS_SUSPEND) && bool_decide (cont th = KFutex)
               then Some (vmspace th) else None
  | None => None
  end.

Definition futex_hash (hs : Z) (key : Z * Z) : Z := Z.land (jhash2 (key_words key) 0) (hs - 1).

Record futex_inv (v : Z -> option Z) (hs : Z) (ws : gmap Z Z) (ch : hheap Z Z) (qs : gmap Z futex_q) fl : Prop := mk_futex_inv {
  f_chain b l : fl !! b = Some l -> hlist ch b l /\ ws !! b = Some (Z.of_nat (length l));
  f_buckets key : is_Some (fl !! futex_hash hs key);
  f_mem b t : (exists l, fl !! b = Some l /\ t ∈ l) <->
    exists vms q, v t = Some vms /\ qs !! t = Some q /\ futex_hash hs (q_key q) = b;
  f_q t vms q : v t = Some vms -> qs !! t = Some q ->
    q_task q = t /\ q_locked q = true /\ q_bitset q = FUTEX_BITSET_MATCH_ANY /\ (q_key q).1 = vms;
  f_has t vms : v t = Some vms -> is_Some (qs !! t);
}.

(** ** Migrating calls *)

(** The connection a thread serves, and whether it waits for the result of a call. *)
Definition iview ths t : Z * bool :=
  match ths !! t with
  | Some th => (active_conn th, bool_decide (status th = TASK_STATUS_SUSPEND) && bool_decide (cont th = KCall))
  | None => (0, false)
  end.

(** The client of a connection in use waits for it, and for no other. *)
Record ipc_inv (v : Z -> Z * bool) (cs : gmap Z ipc_connection_t) : Prop := mk_ipc_inv {
  c_source t : (v t).1 <> 0 ->
    exists src, cs !! (v t).1 = Some (mkConn src t) /\ (v src).2 = true;
  c_once t1 t2 src : (v t1).1 <> 0 -> (v t2).1 <> 0 ->
    cs !! (v t1).1 = Some (mkConn src t1) -> cs !! (v t2).1 = Some (mkConn src t2) -> t1 = t2;
}.

(** ** Together *)

Record kernel_inv (idle : Z) (g : ghost) k rq wl fl : Prop := mk_kernel_inv {
  k_repr : repr (links k) (threads k) rq wl;
  k_sched : sched_inv idle (threads k) (current k) rq;
  k_lock : lock_inv (lview (threads k)) g (atomic k) wl;
  k_futex : futex_inv (fview (threads k)) (hashsize k) (waiters k) (chains k) (futex_qs k) fl;
  k_ipc : ipc_inv (iview (threads k)) (conns k);
  k_size : Z.of_nat (size (threads k)) < 2 ^ 31 - 1;
}.

Definition kernel_ok (idle : Z) (g : ghost) k : Prop := exists rq wl fl, kernel_inv idle g k rq wl fl.

(** ** The views decide *)

Lemma lock_inv_ext v v' g a wl : (forall t, v t = v' t) -> lock_inv v g a wl -> lock_inv v' g a wl.
Proof.
  intros E [W D K M Hh C Wk]. split; try done.
  - intros m t. rewrite W. by rewrite E.
  - intros t m b s Hv. apply (K t m b s). by rewrite E.
  - intros m c l Hm Hl. destruct (Wk m c l Hm Hl) as [|(ts & Hnd & Hc & Ht)]; [by left|right].
    exists ts. split_and!; [done..|]. intros t Hin. destruct (Ht t Hin) as [b Hb]. exists b. by rewrite <- E.
Qed.

Lemma futex_inv_ext v v' hs ws ch qs fl : (forall t, v t = v' t) -> futex_inv v hs ws ch qs fl -> futex_inv v' hs ws ch qs fl.
Proof.
  intros E [F1 F2 F4 F5 F6]. split; try done.
  - intros b t. rewrite F4. by setoid_rewrite E.
  - intros t vms q Hv. apply F5. by rewrite E.
  - intros t vms Hv. apply (F6 t vms). by rewrite E.
Qed.

Lemma ipc_inv_ext v v' cs : (forall t, v t = v' t) -> ipc_inv v cs -> ipc_inv v' cs.
Proof.
  intros E [C1 C2]. split.
  - intros t Ht. destruct (C1 t) as (src & Hs & Hv); [by rewrite E|]. exists src. by rewrite <- !E.
  - intros t1 t2 src. rewrite <- !E. apply C2.
Qed.

(** A view after one thread was written. *)
Lemma lview_insert ths t th t' :
  lview (<[t := th]> ths) t' = if decide (t' = t) then lview {[t := th]} t else lview ths t'.
Proof. unfold lview. destruct (decide (t' = t)) as [->|]; by simplify_map_eq. Qed.

Lemma fview_insert ths t th t' :
  fview (<[t := th]> ths) t' = if decide (t' = t) then fview {[t := th]} t else fview ths t'.
Proof. unfold fview. destruct (decide (t' = t)) as [->|]; by simplify_map_eq. Qed.

Lemma iview_insert ths t th t' :
  iview (<[t := th]> ths) t' = if decide (t' = t) then iview {[t := th]} t else iview ths t'.
Proof. unfold iview. destruct (decide (t' = t)) as [->|]; by simplify_map_eq. Qed.

(** ** The ready queue under the steps of the scheduler *)

(** Case analysis on which thread a lookup in an updated map names. *)
Ltac thread_cases :=
  repeat match goal with
  | H : <[?a := _]> _ !! ?b = Some _ |- _ =>
      destruct (decide (b = a)) as [->|]; [rewrite lookup_insert_eq in H; injection H as <-
                                          |rewrite lookup_insert_ne in H by congruence]
  end.

Lemma sched_cur_not_ready idle ths cur rq : sched_inv idle ths cur rq -> cur ∉ rq.
Proof. intros Hi Hin. by apply (s_ready _ _ _ _ Hi) in Hin as [? _]. Qed.

Lemma runnable_not_suspended th : runnable th -> status th <> TASK_STATUS_SUSPEND.
Proof. by intros [->| ->]. Qed.

(** The running thread is rewritten and keeps running. *)
Lemma sched_set_cur idle ths cur rq th' :
  sched_inv idle ths cur rq -> status th' = TASK_STATUS_RUNNING -> cont th' <> KDead ->
  (cur = idle -> cont th' = KRun \/ cont th' = KReturn) -> sched_inv idle (<[cur := th']> ths) cur rq.
Proof.
  intros Hi Hs Hc Hd. pose proof Hi as [Z0 C R K D I]. destruct C as (thc & Ec & Sc). split.
  - rewrite lookup_insert_ne; [done|]. intros ->. congruence.
  - exists th'. by rewrite lookup_insert_eq.
  - intros t. rewrite R. split; intros [Hne (th & Et & Hr)]; (split; [done|]); exists th; by rewrite lookup_insert_ne in *.
  - intros t th Et Ek. thread_cases; [done|]. eauto.
  - intros t th Et. thread_cases; [split; [done|congruence]|]. eauto.
  - destruct I as (th & Ei & Hr & Hk). destruct (decide (idle = cur)) as [->|].
    + exists th'. rewrite lookup_insert_eq. split_and!; [done|by right|by apply Hd].
    + exists th. by rewrite lookup_insert_ne.
Qed.

(** Another thread is rewritten and stays as runnable as it was. *)
Lemma sched_set_other idle ths cur rq t th th' :
  sched_inv idle ths cur rq -> ths !! t = Some th -> t <> cur -> t <> idle ->
  (runnable th <-> runnable th') -> cont th' <> KRun ->
  (cont th' = KDead <-> status th' = TASK_STATUS_EXIT) -> sched_inv idle (<[t := th']> ths) cur rq.
Proof.
  intros Hi Et Hc Hi' Hr Hk Hd. pose proof Hi as [Z0 C R K D I]. split.
  - rewrite lookup_insert_ne; [done|]. intros ->. congruence.
  - by rewrite lookup_insert_ne.
  - intros t'. rewrite R. destruct (decide (t' = t)) as [->|]; [|by rewrite lookup_insert_ne].
    rewrite lookup_insert_eq. split; intros (Hne & th0 & E & Hr0); simplify_eq; (split; [done|]); naive_solver.
  - intros t' th0 E Ek. thread_cases; [done|]. eauto.
  - intros t' th0 E. thread_cases; [done|]. eauto.
  - by rewrite lookup_insert_ne.
Qed.

Lemma sched_resume idle ths cur rq t th :
  sched_inv idle ths cur rq -> ths !! t = Some th -> status th = TASK_STATUS_SUSPEND ->
  sched_inv idle (<[t := with_status th TASK_STATUS_READY]> ths) cur (rq ++ [t]).
Proof.
  intros Hi Et Hs. pose proof Hi as [Z0 C R K D I].
  assert (Hc : t <> cur) by (intros ->; destruct C as (? & ? & ?); congruence).
  assert (Hi' : t <> idle).
  { intros ->. destruct I as (th0 & E & Hr & _). apply runnable_not_suspended in Hr. congruence. }
  split.
  - rewrite lookup_insert_ne; [done|]. intros ->. congruence.
  - by rewrite lookup_insert_ne.
  - intros t'. rewrite elem_of_app, list_elem_of_singleton, R. destruct (decide (t' = t)) as [->|].
    + rewrite lookup_insert_eq. split; [intros _; split; [done|]; eexists; split; [done|by left]|by right].
    + rewrite lookup_insert_ne by done. tauto.
  - intros t' th0 E Ek. thread_cases; [cbn in Ek|]; eauto.
  - intros t' th0 E. thread_cases; [cbn|]; [|eauto]. split; [|done]. intros Ek. apply (D _ _ Et) in Ek. congruence.
  - by rewrite lookup_insert_ne.
Qed.

(** The running thread leaves the processor to [n], the first of the queue.  What it
    leaves behind, [tho], is suspended, exited, or still runnable and back in the queue. *)
Lemma sched_switch idle ths cur rq n rq' th tho thn :
  sched_inv idle ths cur rq -> NoDup rq -> ths !! cur = Some th ->
  (if decide (runnable tho) then rq ++ [cur] else rq) = n :: rq' ->
  <[cur := tho]> ths !! n = Some thn -> cont tho <> KRun -> (cont tho = KDead <-> status tho = TASK_STATUS_EXIT) ->
  (cur = idle -> runnable tho /\ cont tho = KReturn) -> (runnable tho -> status tho = TASK_STATUS_RUNNING) ->
  sched_inv idle (<[n := with_status thn TASK_STATUS_RUNNING]> (<[cur := tho]> ths)) n rq'.
Proof.
  intros Hi Hnd Ec Erq En Hk Hd Hidle Hrun. pose proof Hi as [Z0 C R K D I].
  pose proof (sched_cur_not_ready _ _ _ _ Hi) as Hcr.
  assert (H0 : cur <> 0) by (intros ->; congruence).
  assert (Hn0 : n <> 0) by (intros ->; rewrite lookup_insert_ne in En by done; congruence).
  assert (Hnd' : NoDup (n :: rq')).
  { rewrite <- Erq. destruct (decide _); [|done]. apply NoDup_app. split_and!; [done| |apply NoDup_singleton].
    intros t Ht Ht'. by apply list_elem_of_singleton in Ht' as ->. }
  apply NoDup_cons in Hnd' as [Hnrq Hnd'].
  assert (Hin : forall t, t ∈ n :: rq' <-> exists th, <[cur := tho]> ths !! t = Some th /\ runnable th).
  { intros t. rewrite <- Erq. destruct (decide (t = cur)) as [->|Hne].
    - rewrite lookup_insert_eq. destruct (decide (runnable tho)) as [Hr|Hr].
      + rewrite elem_of_app, list_elem_of_singleton. naive_solver.
      + split; [done|]. intros (? & [= <-] & ?). done.
    - rewrite lookup_insert_ne by done. destruct (decide (runnable tho)).
      + rewrite elem_of_app, list_elem_of_singleton, R. naive_solver.
      + rewrite R. naive_solver. }
  assert (Hnr : runnable thn) by (destruct (proj1 (Hin n) (list_elem_of_here _ _)) as (? & ? & ?); congruence).
  split.
  - by rewrite !lookup_insert_ne.
  - exists (with_status thn TASK_STATUS_RUNNING). by rewrite lookup_insert_eq.
  - intros t. destruct (decide (t = n)) as [->|Hne]; [split; [done|by intros [? _]]|].
    rewrite lookup_insert_ne by done. rewrite <- Hin, elem_of_cons. naive_solver.
  - intros t th0 E Ek. destruct (decide (t = n)) as [->|]; [done|]. rewrite lookup_insert_ne in E by done.
    destruct (decide (t = cur)) as [->|Hne]; [rewrite lookup_insert_eq in E; by simplify_eq|].
    rewrite lookup_insert_ne in E by done. by pose proof (K _ _ E Ek).
  - intros t th0 E. destruct (decide (t = n)) as [->|].
    + rewrite lookup_insert_eq in E. simplify_eq. cbn. split; [|done]. intros Ek. exfalso.
      destruct (decide (n = cur)) as [->|]; [rewrite lookup_insert_eq in En; simplify_eq; apply Hd in Ek; destruct Hnr; congruence|].
      rewrite lookup_insert_ne in En by done. apply (D _ _ En) in Ek. destruct Hnr; congruence.
    + rewrite lookup_insert_ne in E by done. destruct (decide (t = cur)) as [->|]; [rewrite lookup_insert_eq in E; by simplify_eq|].
      rewrite lookup_insert_ne in E by done. eauto.
  - assert (Hi2 : exists th, <[cur := tho]> ths !! idle = Some th /\ runnable th /\ (cont th = KRun \/ cont th = KReturn)).
    { destruct I as (thi & Ei & Hri & Hki). destruct (decide (idle = cur)) as [->|].
      - exists tho. rewrite lookup_insert_eq. destruct Hidle; auto.
      - exists thi. by rewrite lookup_insert_ne. }
    destruct Hi2 as (thi & Ei & Hri & Hki). destruct (decide (idle = n)) as [->|].
    + exists (with_status thn TASK_STATUS_RUNNING). rewrite lookup_insert_eq. simplify_eq. split_and!; [done|by right|done].
    + exists thi. by rewrite lookup_insert_ne.
Qed.

(** [schedule_to]: from the running thread straight to a suspended one. *)
Lemma sched_switch_to idle ths cur rq t th tho tht :
  sched_inv idle ths cur rq -> ths !! cur = Some th -> ths !! t = Some tht ->
  status tht = TASK_STATUS_SUSPEND -> status tho = TASK_STATUS_SUSPEND -> cont tho <> KRun -> cont tho <> KDead ->
  cur <> idle ->
  sched_inv idle (<[t := with_status tht TASK_STATUS_RUNNING]> (<[cur := tho]> ths)) t rq.
Proof.
  intros Hi Ec Et Hst Hso Hk Hd Hidle. pose proof Hi as [Z0 C R K D I].
  assert (Hne : t <> cur) by (intros ->; destruct C as (? & ? & ?); congruence).
  assert (Hti : t <> idle).
  { intros ->. destruct I as (th0 & E & Hr & _). apply runnable_not_suspended in Hr. congruence. }
  split.
  - rewrite !lookup_insert_ne; [done|intros ->; congruence..].
  - exists (with_status tht TASK_STATUS_RUNNING). by rewrite lookup_insert_eq.
  - intros t'. rewrite R. destruct (decide (t' = t)) as [->|].
    + split; [|by intros [? _]]. intros (_ & th0 & E & Hr). apply runnable_not_suspended in Hr. congruence.
    + rewrite lookup_insert_ne by done. destruct (decide (t' = cur)) as [->|]; [|rewrite lookup_insert_ne by done; tauto].
      rewrite lookup_insert_eq. split; [by intros [? _]|]. intros (_ & th0 & [= <-] & Hr). by apply runnable_not_suspended in Hr.
  - intros t' th0 E Ek. destruct (decide (t' = t)) as [->|]; [done|]. rewrite lookup_insert_ne in E by done.
    destruct (decide (t' = cur)) as [->|]; [rewrite lookup_insert_eq in E; by simplify_eq|].
    rewrite lookup_insert_ne in E by done. by pose proof (K _ _ E Ek).
  - intros t' th0 E. thread_cases; [cbn|split; congruence|eauto].
    split; [|done]. intros Ek. apply (D _ _ Et) in Ek. congruence.
  - by rewrite !lookup_insert_ne.
Qed.

Lemma sched_new idle ths cur rq t th :
  sched_inv idle ths cur rq -> ths !! t = None -> t <> 0 -> status th = TASK_STATUS_SUSPEND -> cont th = KNew ->
  sched_inv idle (<[t := th]> ths) cur rq.
Proof.
  intros Hi Et H0 Hs Hk. pose proof Hi as [Z0 C R K D I].
  assert (t <> cur) by (intros ->; destruct C as (? & ? & ?); congruence).
  assert (t <> idle) by (intros ->; destruct I as (? & ? & ?); congruence).
  split; [by rewrite lookup_insert_ne..| | | |by rewrite lookup_insert_ne].
  - intros t'. rewrite R. destruct (decide (t' = t)) as [->|]; [|by rewrite lookup_insert_ne].
    rewrite lookup_insert_eq, Et. split; [naive_solver|]. intros (_ & th0 & [= <-] & Hr). by apply runnable_not_suspended in Hr.
  - intros t' th0 E Ek. thread_cases; [congruence|eauto].
  - intros t' th0 E. thread_cases; [rewrite Hk, Hs; done|eauto].
Qed.

Lemma sched_delete idle ths cur rq t th :
  sched_inv idle ths cur rq -> ths !! t = Some th -> status th = TASK_STATUS_EXIT -> sched_inv idle (delete t ths) cur rq.
Proof.
  intros Hi Et Hs. pose proof Hi as [Z0 C R K D I].
  assert (t <> cur) by (intros ->; destruct C as (? & ? & ?); congruence).
  assert (t <> idle) by (intros ->; destruct I as (? & ? & [?|?] & ?); congruence).
  split.
  - destruct (decide (t = 0)) as [->|]; [apply lookup_delete_eq|by rewrite lookup_delete_ne].
  - by rewrite lookup_delete_ne.
  - intros t'. rewrite R. destruct (decide (t' = t)) as [->|]; [|by rewrite lookup_delete_ne].
    rewrite lookup_delete_eq. split; [|naive_solver]. intros (_ & th0 & E & [?|?]); congruence.
  - intros t' th0 E. apply lookup_delete_Some in E as [_ E]. eauto.
  - intros t' th0 E. apply lookup_delete_Some in E as [_ E]. eauto.
  - by rewrite lookup_delete_ne.
Qed.
