(* ===== verification/SchedSteps.v ===== *)
(** * SchedSteps: how the views of the parts change

    The moves of a thread as the locks, the futexes and the connections see them. *)

From S2P Require Import Prelude ListHead Hlist Jhash Sched SchedLists SchedInv.

Implicit Types (ths : gmap Z thread_t) (rq l : list Z) (wl fl : gmap Z (list Z)) (k : kernel) (t m cur : Z).

(** One thread moves. *)
Definition vset {A} (v : Z -> A) (t : Z) (x : A) : Z -> A := fun t' => if decide (t' = t) then x else v t'.

Lemma vset_eq {A} (v : Z -> A) t x : vset v t x t = x.
Proof. unfold vset. by rewrite decide_True. Qed.

Lemma vset_ne {A} (v : Z -> A) t x t' : t' <> t -> vset v t x t' = v t'.
Proof. intros. unfold vset. by rewrite decide_False. Qed.

Lemma lview_vset ths t th t' : lview (<[t := th]> ths) t' = vset (lview ths) t (lview {[t := th]} t) t'.
Proof. apply lview_insert. Qed.

Lemma fview_vset ths t th t' : fview (<[t := th]> ths) t' = vset (fview ths) t (fview {[t := th]} t) t'.
Proof. apply fview_insert. Qed.

Lemma iview_vset ths t th t' : iview (<[t := th]> ths) t' = vset (iview ths) t (iview {[t := th]} t) t'.
Proof. apply iview_insert. Qed.

(** The view of a single thread. *)
Definition lone (th : thread_t) : option (Z * bool * bool) :=
  match cont th with
  | KMutex m => Some (m, true, bool_decide (status th = TASK_STATUS_SUSPEND))
  | KSem m => Some (m, false, bool_decide (status th = TASK_STATUS_SUSPEND))
  | _ => None
  end.
Definition fone (th : thread_t) : option Z :=
  if bool_decide (status th = TASK_STATUS_SUSPEND) && bool_decide (cont th = KFutex) then Some (vmspace th) else None.
Definition ione (th : thread_t) : Z * bool :=
  (active_conn th, bool_decide (status th = TASK_STATUS_SUSPEND) && bool_decide (cont th = KCall)).

Lemma lview_at ths t th : ths !! t = Some th -> lview ths t = lone th.
Proof. intros E. unfold lview. by rewrite E. Qed.
Lemma fview_at ths t th : ths !! t = Some th -> fview ths t = fone th.
Proof. intros E. unfold fview. by rewrite E. Qed.
Lemma iview_at ths t th : ths !! t = Some th -> iview ths t = ione th.
Proof. intros E. unfold iview. by rewrite E. Qed.

Lemma lview_put ths t th t' : lview (<[t := th]> ths) t' = vset (lview ths) t (lone th) t'.
Proof. rewrite lview_vset, (lview_at _ t th); [done|apply lookup_singleton_eq]. Qed.
Lemma fview_put ths t th t' : fview (<[t := th]> ths) t' = vset (fview ths) t (fone th) t'.
Proof. rewrite fview_vset, (fview_at _ t th); [done|apply lookup_singleton_eq]. Qed.
Lemma iview_put ths t th t' : iview (<[t := th]> ths) t' = vset (iview ths) t (ione th) t'.
Proof. rewrite iview_vset, (iview_at _ t th); [done|apply lookup_singleton_eq]. Qed.

Ltac vcases t t' := destruct (decide (t' = t)) as [->|]; [rewrite ?(vset_eq _ t) in *|rewrite ?(vset_ne _ t _ t') in * by done].

(** ** Mutexes and semaphores *)

Section locks.
Implicit Types (v : Z -> option (Z * bool * bool)) (g : ghost) (a : gmap Z Z).

(** [t] does not wait, or is awake and about to try [m]. *)
Definition trying v t m : Prop := v t = None \/ exists b, v t = Some (m, b, false).

Lemma trying_other v t m m' b s : trying v t m -> v t = Some (m', b, s) -> m' = m /\ s = false.
Proof. intros [E|[b' E]] E'; rewrite E in E'; naive_solver. Qed.

Lemma trying_not_waiting v g a wl t m : lock_inv v g a wl -> trying v t m -> ~ waiting wl t.
Proof.
  intros Hl Ht (m' & l & Hw & Hin). destruct (proj1 (l_wait _ _ _ _ Hl m' t)) as [b Hb]; [eauto|].
  by destruct (trying_other _ _ _ _ _ _ Ht Hb).
Qed.

(** A list of [c] threads gives one of [c - 1] without [t]. *)
Lemma shrink_without (ts : list Z) t c :
  NoDup ts -> Z.of_nat (length ts) = c -> 0 < c ->
  exists ts', NoDup ts' /\ Z.of_nat (length ts') = c - 1 /\ (forall t', t' ∈ ts' -> t' ∈ ts /\ t' <> t).
Proof.
  intros Hnd Hc Hpos. destruct (decide (t ∈ ts)) as [Hin|Hin].
  - apply list_elem_of_split in Hin as (l1 & l2 & ->). exists (l1 ++ l2).
    rewrite <- Permutation_middle in Hnd. apply NoDup_cons in Hnd as [Hn Hnd]. split_and!; [done| |].
    + rewrite length_app in *. cbn in Hc. lia.
    + intros t' Ht'. split; [|by intros ->]. apply elem_of_app in Ht' as [?|?]; apply elem_of_app; [by left|right; by right].
  - destruct ts as [|x ts]; [cbn in Hc; lia|]. exists ts. apply NoDup_cons in Hnd as [Hx Hnd].
    split_and!; [done|cbn in Hc; lia|]. intros t' Ht'. split; [by right|]. intros ->. apply Hin. by right.
Qed.

(** Threads awake for another lock stay awake when [t] moves. *)
Lemma wake_keep v t m m' x c l :
  trying v t m -> m' <> m ->
  (l = [] \/ exists ts, NoDup ts /\ Z.of_nat (length ts) = c /\ forall t, t ∈ ts -> exists b, v t = Some (m', b, false)) ->
  l = [] \/ exists ts, NoDup ts /\ Z.of_nat (length ts) = c /\ forall t', t' ∈ ts -> exists b, vset v t x t' = Some (m', b, false).
Proof.
  intros Ht Hne [?|(ts & Hnd & Hc & Hts)]; [by left|right]. exists ts. split_and!; [done..|].
  intros t' Hin. destruct (Hts t' Hin) as [b Hb]. exists b. rewrite vset_ne; [done|]. intros ->.
  by destruct (trying_other _ _ _ _ _ _ Ht Hb).
Qed.

Lemma wait_keep v t m x m' t' :
  trying v t m -> (forall m b, x <> Some (m, b, true)) ->
  (exists b, vset v t x t' = Some (m', b, true)) <-> exists b, v t' = Some (m', b, true).
Proof.
  intros Ht Hx. vcases t t'; [|done]. split; intros [b Hb]; [by apply Hx in Hb|].
  by destruct (trying_other _ _ _ _ _ _ Ht Hb).
Qed.

Lemma lock_take_mutex v g a wl t m :
  lock_inv v g a wl -> m ∈ mutexes g -> a !! m = Some 1 -> trying v t m ->
  lock_inv (vset v t None) (mkGhost (<[m := t]> (held g)) (mutexes g)) (<[m := 0]> a) wl.
Proof.
  intros [W D K M Hh C Wk] Hm Ha Ht. split; cbn [held mutexes].
  - intros m' t'. rewrite (wait_keep v t m) by done. apply W.
  - intros m'. rewrite D. destruct (decide (m' = m)) as [->|]; [|by rewrite lookup_insert_ne].
    rewrite lookup_insert_eq. naive_solver.
  - intros t' m' b s Hv. vcases t t'; [done|]. destruct (K _ _ _ _ Hv) as [? ?]. split; [|done].
    destruct (decide (m' = m)) as [->|]; [by rewrite lookup_insert_eq|by rewrite lookup_insert_ne].
  - intros m' Hm'. destruct (decide (m' = m)) as [->|]; [by rewrite !lookup_insert_eq|].
    rewrite !lookup_insert_ne by done. by apply M.
  - intros m' Hs. destruct (decide (m' = m)) as [->|]; [done|]. rewrite lookup_insert_ne in Hs by done. by apply Hh.
  - intros m' c Hc. destruct (decide (m' = m)) as [->|]; [rewrite lookup_insert_eq in Hc; simplify_eq; lia|].
    rewrite lookup_insert_ne in Hc by done. eauto.
  - intros m' c l Hc Hl. destruct (decide (m' = m)) as [->|].
    + rewrite lookup_insert_eq in Hc. simplify_eq. right. exists []. split_and!; [constructor|done|].
      intros t' Hin. by apply not_elem_of_nil in Hin.
    + rewrite lookup_insert_ne in Hc by done. eapply wake_keep; eauto.
Qed.

Lemma lock_take_sem v g a wl t m c :
  lock_inv v g a wl -> m ∉ mutexes g -> a !! m = Some c -> 0 < c -> trying v t m ->
  lock_inv (vset v t None) g (<[m := c - 1]> a) wl.
Proof.
  intros [W D K M Hh C Wk] Hm Ha Hpos Ht. split.
  - intros m' t'. rewrite (wait_keep v t m) by done. apply W.
  - intros m'. rewrite D. destruct (decide (m' = m)) as [->|]; [|by rewrite lookup_insert_ne].
    rewrite lookup_insert_eq. naive_solver.
  - intros t' m' b s Hv. vcases t t'; [done|]. destruct (K _ _ _ _ Hv) as [? ?]. split; [|done].
    destruct (decide (m' = m)) as [->|]; [by rewrite lookup_insert_eq|by rewrite lookup_insert_ne].
  - intros m' Hm'. rewrite lookup_insert_ne by congruence. by apply M.
  - done.
  - intros m' c' Hc. destruct (decide (m' = m)) as [->|]; [rewrite lookup_insert_eq in Hc; simplify_eq|].
    + pose proof (C _ _ Ha). lia.
    + rewrite lookup_insert_ne in Hc by done. eauto.
  - intros m' c' l Hc Hl. destruct (decide (m' = m)) as [->|].
    + rewrite lookup_insert_eq in Hc. simplify_eq. destruct (Wk _ _ _ Ha Hl) as [|(ts & Hnd & Hlen & Hts)]; [by left|right].
      destruct (shrink_without ts t c Hnd Hlen Hpos) as (ts' & ? & ? & Hin). exists ts'. split_and!; [done..|].
      intros t' Ht'. destruct (Hin t' Ht') as [? ?]. rewrite vset_ne by done. by apply Hts.
    + rewrite lookup_insert_ne in Hc by done. eapply wake_keep; eauto.
Qed.

Lemma lock_block v g a wl t m b l :
  lock_inv v g a wl -> a !! m = Some 0 -> wl !! m = Some l -> trying v t m -> (b = true <-> m ∈ mutexes g) ->
  lock_inv (vset v t (Some (m, b, true))) g a (<[m := l ++ [t]]> wl).
Proof.
  intros Hi Ha Hl Ht Hb. pose proof (trying_not_waiting _ _ _ _ _ _ Hi Ht) as Hnw.
  destruct Hi as [W D K M Hh C Wk]. split; [| | |done..|].
  - intros m' t'. vcases t t'.
    + destruct (decide (m' = m)) as [->|].
      * rewrite lookup_insert_eq. split; [eauto|]. intros _. eexists. split; [done|]. apply elem_of_app. right. by left.
      * rewrite lookup_insert_ne by done. split; [intros (l' & ? & ?); exfalso; apply Hnw; by exists m', l'|naive_solver].
    + rewrite <- W. destruct (decide (m' = m)) as [->|]; [|by rewrite lookup_insert_ne].
      rewrite lookup_insert_eq. split.
      * intros (l' & [= <-] & Hin). apply elem_of_app in Hin as [|Hin%list_elem_of_singleton]; [eauto|done].
      * intros (l' & Hl' & Hin). simplify_eq. eexists. split; [done|]. apply elem_of_app. by left.
  - intros m'. rewrite <- D. destruct (decide (m' = m)) as [->|]; [|by rewrite lookup_insert_ne].
    rewrite lookup_insert_eq. naive_solver.
  - intros t' m' b' s Hv. vcases t t'; [|eauto]. simplify_eq. eauto.
  - intros m' c l' Hc Hl'. destruct (decide (m' = m)) as [->|].
    + simplify_eq. right. exists []. split_and!; [constructor|done|]. intros t' Hin. by apply not_elem_of_nil in Hin.
    + rewrite lookup_insert_ne in Hl' by done. eapply wake_keep; eauto.
Qed.

(** The counter of [m] goes up: of a mutex that was held, or of a semaphore. *)
Definition released g m : ghost := mkGhost (delete m (held g)) (mutexes g).

Lemma lock_raise_counts v g a wl m c :
  lock_inv v g a wl -> a !! m = Some c -> (m ∈ mutexes g -> c = 0) -> c + 1 < 2 ^ 31 ->
  (forall m', m' ∈ mutexes g -> <[m := c + 1]> a !! m' = Some (match held (released g m) !! m' with Some _ => 0 | None => 1 end)) /\
  (forall m' c', <[m := c + 1]> a !! m' = Some c' -> 0 <= c' < 2 ^ 31) /\
  (forall m', is_Some (<[m := c + 1]> a !! m') <-> is_Some (a !! m')) /\
  (forall m', is_Some (held (released g m) !! m') -> m' ∈ mutexes g).
Proof.
  intros [W D K M Hh C Wk] Ha Hz Hc. split_and!.
  - intros m' Hm'. cbn. destruct (decide (m' = m)) as [->|].
    + rewrite lookup_insert_eq, lookup_delete_eq, (Hz Hm'). done.
    + rewrite lookup_insert_ne, lookup_delete_ne by done. by apply M.
  - intros m' c' E. destruct (decide (m' = m)) as [->|].
    + rewrite lookup_insert_eq in E. simplify_eq. pose proof (C _ _ Ha). lia.
    + rewrite lookup_insert_ne in E by done. eauto.
  - intros m'. destruct (decide (m' = m)) as [->|]; [|by rewrite lookup_insert_ne]. rewrite lookup_insert_eq. naive_solver.
  - intros m' Hs. apply Hh. cbn in Hs. destruct Hs as [x Hs]. apply lookup_delete_Some in Hs as [_ Hs]. eauto.
Qed.

Lemma lock_raise_idle v g a wl m c :
  lock_inv v g a wl -> a !! m = Some c -> wl !! m = Some [] -> (m ∈ mutexes g -> c = 0) -> c + 1 < 2 ^ 31 ->
  lock_inv v (released g m) (<[m := c + 1]> a) wl.
Proof.
  intros Hi Ha Hl Hz Hc. destruct (lock_raise_counts _ _ _ _ _ _ Hi Ha Hz Hc) as (M' & C' & D' & H').
  destruct Hi as [W D K M Hh C Wk]. split; [done| | |done|done|done|].
  - intros m'. by rewrite D', D.
  - intros t m' b s Hv. rewrite D'. eauto.
  - intros m' c' l' E El. destruct (decide (m' = m)) as [->|]; [simplify_eq; by left|].
    rewrite lookup_insert_ne in E by done. eauto.
Qed.

Lemma lock_raise_wake v g a wl m c t l b :
  lock_inv v g a wl -> a !! m = Some c -> wl !! m = Some (t :: l) -> t ∉ l -> v t = Some (m, b, true) ->
  (m ∈ mutexes g -> c = 0) -> c + 1 < 2 ^ 31 ->
  lock_inv (vset v t (Some (m, b, false))) (released g m) (<[m := c + 1]> a) (<[m := l]> wl).
Proof.
  intros Hi Ha Hl Hnl Hv Hz Hc. destruct (lock_raise_counts _ _ _ _ _ _ Hi Ha Hz Hc) as (M' & C' & D' & H').
  destruct Hi as [W D K M Hh C Wk]. split; [| | |done|done|done|].
  - intros m' t'. vcases t t'.
    + split; [|naive_solver]. intros (l' & El & Hin). exfalso. destruct (decide (m' = m)) as [->|].
      * rewrite lookup_insert_eq in El. by simplify_eq.
      * rewrite lookup_insert_ne in El by done. destruct (proj1 (W m' t)) as [b' Hb']; [eauto|]. congruence.
    + rewrite <- W. destruct (decide (m' = m)) as [->|]; [|by rewrite lookup_insert_ne].
      rewrite lookup_insert_eq, Hl. split; intros (l' & [= <-] & Hin); eexists; (split; [done|]).
      * by right.
      * by apply elem_of_cons in Hin as [|].
  - intros m'. rewrite D', <- D. destruct (decide (m' = m)) as [->|]; [|by rewrite lookup_insert_ne].
    rewrite lookup_insert_eq. naive_solver.
  - intros t' m' b' s E. rewrite D'. vcases t t'; [simplify_eq; eauto|eauto].
  - intros m' c' l' E El. destruct (decide (m' = m)) as [->|].
    + rewrite lookup_insert_eq in E. rewrite lookup_insert_eq in El. simplify_eq. destruct (Wk _ _ _ Ha Hl) as [|(ts & Hnd & Hlen & Hts)]; [done|right].
      assert (Hnt : t ∉ ts) by (intros Hin; destruct (Hts t Hin); congruence).
      exists (t :: ts). split_and!; [by constructor|cbn; lia|]. intros t' Hin. vcases t t'; [eauto|].
      apply elem_of_cons in Hin as [|]; [done|]. by apply Hts.
    + rewrite lookup_insert_ne in E by done. rewrite lookup_insert_ne in El by done. destruct (Wk _ _ _ E El) as [|(ts & Hnd & Hlen & Hts)]; [by left|right].
      exists ts. split_and!; [done..|]. intros t' Hin. destruct (Hts t' Hin) as [b' Hb']. exists b'. rewrite vset_ne; [done|].
      intros ->. congruence.
Qed.

(** A semaphore that nobody holds as a mutex is not affected by [released]. *)
Lemma released_sem v g a wl m : lock_inv v g a wl -> m ∉ mutexes g -> released g m = g.
Proof.
  intros Hi Hm. unfold released. rewrite delete_id; [by destruct g|].
  destruct (held g !! m) eqn:E; [|done]. exfalso. apply Hm, (l_held _ _ _ _ Hi). eauto.
Qed.

Lemma lock_new v g a wl m c (b : bool) :
  lock_inv v g a wl -> a !! m = None -> 0 <= c < 2 ^ 31 -> (b = true -> c = 1) ->
  lock_inv v (mkGhost (held g) (if b then {[m]} ∪ mutexes g else mutexes g)) (<[m := c]> a) (<[m := []]> wl).
Proof.
  intros [W D K M Hh C Wk] Ha Hc Hb.
  assert (Hm : m ∉ mutexes g) by (intros Hin; apply M in Hin; congruence).
  assert (Hwl : wl !! m = None) by (destruct (wl !! m) eqn:E; [|done]; destruct (proj1 (D m)); [eauto|congruence]).
  assert (Hmem : forall m', m' ∈ (if b then {[m]} ∪ mutexes g else mutexes g) <-> (b = true /\ m' = m) \/ m' ∈ mutexes g)
    by (destruct b; set_solver).
  split; cbn [held mutexes].
  - intros m' t'. rewrite <- W. destruct (decide (m' = m)) as [->|]; [|by rewrite lookup_insert_ne].
    rewrite lookup_insert_eq, Hwl. split; [|naive_solver]. intros (l & [= <-] & Hin). by apply not_elem_of_nil in Hin.
  - intros m'. destruct (decide (m' = m)) as [->|]; [by rewrite !lookup_insert_eq|by rewrite !lookup_insert_ne].
  - intros t m' b' s Hv. destruct (K _ _ _ _ Hv) as [Hs Hk]. assert (m' <> m) by (intros ->; destruct Hs; congruence).
    rewrite lookup_insert_ne, Hmem by done. split; [done|]. rewrite Hk. naive_solver.
  - intros m' Hin. apply Hmem in Hin as [[-> ->]|Hin].
    + rewrite lookup_insert_eq, (Hb eq_refl). destruct (held g !! m) eqn:E; [|done]. exfalso. apply Hm, Hh. eauto.
    + rewrite lookup_insert_ne by (intros ->; done). by apply M.
  - intros m' Hs. apply Hmem. right. by apply Hh.
  - intros m' c' E. destruct (decide (m' = m)) as [->|]; [rewrite lookup_insert_eq in E; by simplify_eq|].
    rewrite lookup_insert_ne in E by done. eauto.
  - intros m' c' l E El. destruct (decide (m' = m)) as [->|]; [rewrite lookup_insert_eq in El; simplify_eq; by left|].
    rewrite lookup_insert_ne in E by done. rewrite lookup_insert_ne in El by done. eauto.
Qed.
End locks.

(** ** Futexes *)

Section futexes.
Implicit Types (v : Z -> option Z) (ws : gmap Z Z) (ch : hheap Z Z) (qs : gmap Z futex_q).

Lemma futex_disjoint v hs ws ch qs fl b1 b2 l1 l2 t :
  futex_inv v hs ws ch qs fl -> fl !! b1 = Some l1 -> fl !! b2 = Some l2 -> t ∈ l1 -> t ∈ l2 -> b1 = b2.
Proof.
  intros Hf H1 H2 Ht1 Ht2. destruct (proj1 (f_mem _ _ _ _ _ _ Hf b1 t)) as (? & q1 & ? & ? & ?); [eauto|].
  destruct (proj1 (f_mem _ _ _ _ _ _ Hf b2 t)) as (? & q2 & ? & ? & ?); [eauto|]. congruence.
Qed.

Lemma futex_not_queued v hs ws ch qs fl b l t :
  futex_inv v hs ws ch qs fl -> v t = None -> fl !! b = Some l -> t ∉ l.
Proof.
  intros Hf Hv Hl Hin. destruct (proj1 (f_mem _ _ _ _ _ _ Hf b t)) as (? & ? & ? & ?); [eauto|]. congruence.
Qed.

(** The [futex_q] of a thread that does not sleep is free to change. *)
Lemma futex_set_q v hs ws ch qs fl t q :
  futex_inv v hs ws ch qs fl -> v t = None -> futex_inv v hs ws ch (<[t := q]> qs) fl.
Proof.
  intros [F1 F2 F4 F5 F6] Hv. split; [done|done|..].
  - intros b t'. rewrite F4. destruct (decide (t' = t)) as [->|]; [|by rewrite lookup_insert_ne].
    rewrite Hv. by split; intros (? & ? & ? & ?).
  - intros t' vms q' E Eq. rewrite lookup_insert_ne in Eq by congruence. eauto.
  - intros t' vms E. rewrite lookup_insert_ne by congruence. eauto.
Qed.

Lemma init_hlist_node_same (t : Z) ch : hsame [] [t] ch (init_hlist_node t ch).
Proof.
  split; intros x Hx; cbn.
  - by rewrite lookup_delete_ne.
  - rewrite !lookup_delete_ne; [done|set_solver|]. intros [= ->]. set_solver.
Qed.

Lemma futex_enter v hs ws ch qs fl t vms key l :
  futex_inv v hs ws ch qs fl -> v t = None -> key.1 = vms -> fl !! futex_hash hs key = Some l ->
  futex_inv (vset v t (Some vms)) hs (<[futex_hash hs key := Z.of_nat (length l) + 1]> ws)
    (hlist_add_head t (futex_hash hs key) (init_hlist_node t ch))
    (<[t := mkFutexQ t true key FUTEX_BITSET_MATCH_ANY]> qs) (<[futex_hash hs key := t :: l]> fl).
Proof.
  intros Hf Hv Hk Hl. set (b := futex_hash hs key) in *. pose proof Hf as [F1 F2 F4 F5 F6].
  assert (Hnt : forall b l, fl !! b = Some l -> t ∉ l) by (intros; by eapply futex_not_queued).
  assert (Hinit : forall b l, fl !! b = Some l -> hlist (init_hlist_node t ch) b l).
  { intros b' l' Hl'. eapply hlist_frame; [apply init_hlist_node_same|apply not_elem_of_nil| |by apply F1].
    intros x Hx Hx'. apply list_elem_of_singleton in Hx' as ->. by eapply Hnt. }
  destruct (hlist_add_head_spec _ _ _ t (Hinit _ _ Hl) (Hnt _ _ Hl)) as [Hadd Hsame].
  split.
  - intros b' l' E. destruct (decide (b' = b)) as [->|].
    + rewrite lookup_insert_eq in E. rewrite lookup_insert_eq. simplify_eq. split; [done|]. cbn. f_equal. lia.
    + rewrite lookup_insert_ne in E by done. rewrite lookup_insert_ne by done. split; [|by apply F1].
      eapply hlist_frame; [exact Hsame|by rewrite list_elem_of_singleton| |by apply Hinit]. intros x Hx Hx'.
      apply elem_of_cons in Hx' as [->|Hx']; [by eapply Hnt|].
      by pose proof (futex_disjoint _ _ _ _ _ _ _ _ _ _ _ Hf E Hl Hx Hx').
  - intros key'. destruct (decide (futex_hash hs key' = b)) as [->|]; [by rewrite lookup_insert_eq|].
    by rewrite lookup_insert_ne.
  - intros b' t'. vcases t t'.
    + rewrite lookup_insert_eq. destruct (decide (b' = b)) as [->|].
      * rewrite lookup_insert_eq. split; [|intros _; eexists; split; [done|by left]].
        intros _. exists vms. eexists. split_and!; [done|done|done].
      * rewrite lookup_insert_ne by done. split; [intros (l' & E & Hin); by apply Hnt in E|]. intros (? & q & ? & [= <-] & E). by subst b'.
    + rewrite (lookup_insert_ne qs) by done. rewrite <- F4. destruct (decide (b' = b)) as [->|]; [|by rewrite lookup_insert_ne].
      rewrite lookup_insert_eq, Hl. split; intros (l' & [= <-] & Hin); eexists; (split; [done|]).
      * by apply elem_of_cons in Hin as [|].
      * by right.
  - intros t' vms' q E Eq. vcases t t'.
    + rewrite lookup_insert_eq in Eq. simplify_eq. cbn. done.
    + rewrite lookup_insert_ne in Eq by done. eauto.
  - intros t' vms' E. vcases t t'; [by rewrite lookup_insert_eq|]. rewrite lookup_insert_ne by done. eauto.
Qed.

(** A waiter leaves its bucket. *)
Lemma futex_leave v hs ws ch qs fl t b l1 l2 q :
  futex_inv v hs ws ch qs fl -> fl !! b = Some (l1 ++ t :: l2) ->
  exists ch', hlist_del t ch = Ok ch' /\
    futex_inv (vset v t None) hs (<[b := Z.of_nat (length (l1 ++ l2))]> ws) ch' (<[t := q]> qs) (<[b := l1 ++ l2]> fl).
Proof.
  intros Hf Hl. pose proof Hf as [F1 F2 F4 F5 F6]. destruct (F1 _ _ Hl) as [Hh _].
  destruct (hlist_del_spec _ _ _ _ _ Hh) as (ch' & E & Hh' & Hsame). exists ch'. split; [done|].
  assert (Hnt : t ∉ l1 ++ l2).
  { destruct Hh as [_ Hnd]. rewrite <- Permutation_middle in Hnd. by apply NoDup_cons in Hnd as [? _]. }
  assert (Hin : t ∈ l1 ++ t :: l2) by (apply elem_of_app; right; by left).
  split.
  - intros b' l' El. destruct (decide (b' = b)) as [->|].
    + rewrite lookup_insert_eq in El. rewrite lookup_insert_eq. by simplify_eq.
    + rewrite lookup_insert_ne in El by done. rewrite lookup_insert_ne by done. destruct (F1 _ _ El) as [Hb' Hw']. split; [|done].
      eapply hlist_frame; [exact Hsame|by rewrite list_elem_of_singleton| |done]. intros x Hx Hx'.
      by pose proof (futex_disjoint _ _ _ _ _ _ _ _ _ _ _ Hf El Hl Hx Hx').
  - intros key'. destruct (decide (futex_hash hs key' = b)) as [->|]; [by rewrite lookup_insert_eq|].
    by rewrite lookup_insert_ne.
  - intros b' t'. vcases t t'.
    + split; [|by intros (? & ? & ? & _)]. intros (l' & El & Hin'). exfalso. destruct (decide (b' = b)) as [->|].
      * rewrite lookup_insert_eq in El. by simplify_eq.
      * rewrite lookup_insert_ne in El by done. by pose proof (futex_disjoint _ _ _ _ _ _ _ _ _ _ _ Hf El Hl Hin' Hin).
    + rewrite (lookup_insert_ne qs) by done. rewrite <- F4. destruct (decide (b' = b)) as [->|]; [|by rewrite lookup_insert_ne].
      rewrite lookup_insert_eq, Hl. split; intros (l' & [= <-] & Hin'); eexists; (split; [done|]); revert Hin';
        rewrite !elem_of_app, ?elem_of_cons; tauto.
  - intros t' vms' q' Ev Eq. vcases t t'; [done|]. rewrite lookup_insert_ne in Eq by done. eauto.
  - intros t' vms' Ev. vcases t t'; [done|]. rewrite lookup_insert_ne by done. eauto.
Qed.
End futexes.

(** ** Migrating calls *)

Section calls.
Implicit Types (v : Z -> Z * bool) (cs : gmap Z ipc_connection_t).

(** A thread that does not wait for a result moves and serves what it served. *)
Lemma ipc_move v cs t x :
  ipc_inv v cs -> (v t).2 = false -> x.1 = (v t).1 \/ x.1 = 0 -> ipc_inv (vset v t x) cs.
Proof.
  intros [C1 C2] Hv Hx. split.
  - intros t' Ht. vcases t t'.
    + destruct Hx as [Hx|Hx]; [|congruence]. rewrite Hx in *. destruct (C1 t Ht) as (src & Hs & Hw).
      exists src. rewrite vset_ne; [done|]. intros ->. congruence.
    + destruct (C1 t' Ht) as (src & Hs & Hw). exists src. rewrite vset_ne; [done|]. intros ->. congruence.
  - intros t1 t2 src H1 H2. vcases t t1; vcases t t2; intros E1 E2; try done.
    + destruct Hx as [Hx|Hx]; [|congruence]. rewrite Hx in *. by eapply (C2 t t2).
    + destruct Hx as [Hx|Hx]; [|congruence]. rewrite Hx in *. by eapply (C2 t1 t).
    + by eapply (C2 t1 t2).
Qed.

(** [sys_ipc_call]: [cur] waits and [t] serves [c], which nobody did. *)
Lemma ipc_call v cs cur t c src0 :
  ipc_inv v cs -> cs !! c = Some (mkConn src0 t) -> c <> 0 -> (v t).1 = 0 -> (v t).2 = false -> (v cur).2 = false -> t <> cur ->
  ipc_inv (vset (vset v t (c, false)) cur ((v cur).1, true)) (<[c := mkConn cur t]> cs).
Proof.
  intros [C1 C2] Hc H0 Ht Ht2 Hcur Hne.
  assert (Hserve : forall t', (v t').1 = c -> False).
  { intros t' E. destruct (C1 t') as (src & Es & _); [by rewrite E|]. rewrite E, Hc in Es. injection Es as _ <-. congruence. }
  assert (Hold : forall t' src, (v t').1 <> 0 -> cs !! (v t').1 = Some (mkConn src t') ->
    <[c := mkConn cur t]> cs !! (v t').1 = Some (mkConn src t')).
  { intros t' src Hn E. rewrite lookup_insert_ne; [done|]. intros E'. by eapply Hserve. }
  assert (Hview : forall t', (vset (vset v t (c, false)) cur ((v cur).1, true) t').1 = if decide (t' = t) then c else (v t').1).
  { intros t'. destruct (decide (t' = cur)) as [->|]; [rewrite vset_eq, decide_False by done; done|].
    rewrite vset_ne by done. destruct (decide (t' = t)) as [->|]; [by rewrite vset_eq|by rewrite vset_ne]. }
  split.
  - intros t'. rewrite Hview. destruct (decide (t' = t)) as [->|].
    + intros _. exists cur. by rewrite lookup_insert_eq, vset_eq.
    + intros Hn. destruct (C1 t' Hn) as (src & Es & Hw). exists src. split; [by apply Hold|].
      destruct (decide (src = cur)) as [->|]; [by rewrite vset_eq|]. rewrite vset_ne by done.
      rewrite vset_ne; [done|]. intros ->. congruence.
  - intros t1 t2 src. rewrite !Hview. destruct (decide (t1 = t)) as [->|], (decide (t2 = t)) as [->|]; try done.
    + rewrite lookup_insert_eq. intros _ Hn [= <-] E. rewrite lookup_insert_ne in E by (intros E'; by eapply (Hserve t2)).
      destruct (C1 t2 Hn) as (src & Es & Hw). rewrite E in Es. simplify_eq. congruence.
    + rewrite lookup_insert_eq. intros Hn _ E [= <-]. rewrite lookup_insert_ne in E by (intros E'; by eapply (Hserve t1)).
      destruct (C1 t1 Hn) as (src & Es & Hw). rewrite E in Es. simplify_eq. congruence.
    + intros H1 H2 E1 E2. rewrite lookup_insert_ne in E1 by (intros E'; by eapply (Hserve t1)).
      rewrite lookup_insert_ne in E2 by (intros E'; by eapply (Hserve t2)). by eapply (C2 t1 t2).
Qed.

(** [sys_ipc_return]: [cur] stops serving and its client goes on. *)
Lemma ipc_return v cs cur src x :
  ipc_inv v cs -> (v cur).1 <> 0 -> cs !! (v cur).1 = Some (mkConn src cur) -> (v cur).2 = false ->
  x.1 = (v src).1 -> src <> cur -> ipc_inv (vset (vset v cur (0, false)) src x) cs.
Proof.
  intros [C1 C2] Hn Hc Hcur Hx Hne.
  assert (Hview : forall t', (vset (vset v cur (0, false)) src x t').1 = if decide (t' = cur) then 0 else (v t').1).
  { intros t'. destruct (decide (t' = src)) as [->|]; [rewrite vset_eq, decide_False by done; done|].
    rewrite vset_ne by done. destruct (decide (t' = cur)) as [->|]; [by rewrite vset_eq|by rewrite vset_ne]. }
  split.
  - intros t'. rewrite Hview. destruct (decide (t' = cur)) as [->|]; [done|]. intros Ht.
    destruct (C1 t' Ht) as (src' & Es & Hw). exists src'. split; [done|].
    assert (src' <> src) by (intros ->; by pose proof (C2 _ _ _ Ht Hn Es Hc)).
    rewrite vset_ne by done. rewrite vset_ne; [done|]. intros ->. congruence.
  - intros t1 t2 src'. rewrite !Hview. destruct (decide (t1 = cur)) as [->|]; [done|].
    destruct (decide (t2 = cur)) as [->|]; [done|]. apply C2.
Qed.

Lemma ipc_new v cs c conn : ipc_inv v cs -> cs !! c = None -> ipc_inv v (<[c := conn]> cs).
Proof.
  intros [C1 C2] Hc. split.
  - intros t Ht. destruct (C1 t Ht) as (src & Es & Hw). exists src. by rewrite lookup_insert_ne by congruence.
  - intros t1 t2 src H1 H2 E1 E2. destruct (C1 t1 H1) as (s1 & F1 & _), (C1 t2 H2) as (s2 & F2 & _).
    rewrite lookup_insert_ne in E1 by congruence. rewrite lookup_insert_ne in E2 by congruence. exact (C2 t1 t2 src H1 H2 E1 E2).
Qed.
End calls.
