(* ===== verification/SchedProof.v ===== *)
(** * SchedProof: every operation of the scheduler keeps the invariants *)

From S2P Require Import Prelude ListHead Hlist Jhash Sched SchedLists SchedInv SchedSteps.

Implicit Types (ths : gmap Z thread_t) (rq l : list Z) (wl fl : gmap Z (list Z)) (k : kernel) (t m cur : Z).

(** ** Leaving the processor *)

(** How the queue and the running thread move: threads are added at the end, and the
    first one may be taken out to run. *)
Inductive moves (cur : Z) rq : Z -> list Z -> Prop :=
| moves_stay l : moves cur rq cur (rq ++ l)
| moves_next l n rq' : rq ++ l = n :: rq' -> moves cur rq n rq'.

Definition left_with (th : thread_t) (c : kcont) : thread_t :=
  with_cont (with_flags th (Z.land (flags th) (not64 NEED_RESCHED))) c.

Definition switch_state k h n ths : kernel := set_threads (set_current (set_links k h) n) ths.

Lemma schedule_spec c k rq wl th n rq' thn :
  repr (links k) (threads k) rq wl -> threads k !! current k = Some th -> current k ∉ rq ->
  (if decide (runnable th) then rq ++ [current k] else rq) = n :: rq' ->
  <[current k := left_with th c]> (threads k) !! n = Some thn ->
  exists h', repr h' (threads k) rq' wl /\
    schedule c k = after_switch (current k)
      (switch_state k h' n (<[n := with_status thn TASK_STATUS_RUNNING]> (<[current k := left_with th c]> (threads k)))).
Proof.
  intros Hr Ec Hc Erq En. unfold schedule, thread_clear_sched_flag, upd_thread, get_thread.
  rewrite Ec. cbn [deref res_bind put_thread threads set_threads]. rewrite lookup_insert_eq. cbn [deref res_bind status with_flags].
  set (k1 := put_thread k (current k) _).
  assert (Hq : exists h1, repr h1 (threads k) (n :: rq') wl /\
    (if bool_decide (status th = TASK_STATUS_SUSPEND) || bool_decide (status th = TASK_STATUS_EXIT)
     then Ok (set_links k1 (init_list_head (LReadyNode (current k)) (links k1)))
     else scheduler_enqueue_task (current k) k1) = Ok (set_links k1 h1)).
  { rewrite <- Erq. destruct (decide (runnable th)) as [Hrun|Hrun].
    - destruct (ready_add _ _ _ _ _ Hr Hc) as (h1 & E1 & Hr1). exists h1. split; [done|].
      unfold scheduler_enqueue_task, on_links. cbn. rewrite E1.
      destruct Hrun as [-> | ->]; done.
    - exists (init_list_head (LReadyNode (current k)) (links k)). split; [by apply ready_init|].
      destruct (status th) eqn:Es; [by destruct Hrun; right|by destruct Hrun; left|done|done]. }
  destruct Hq as (h1 & Hr1 & ->). cbn [res_bind].
  assert (Enext : scheduler_next_ready_task (set_links k1 h1) = Ok n).
  { unfold scheduler_next_ready_task, get_next. cbn. pose proof (r_ready _ _ _ _ Hr1) as Hd.
    rewrite (list_empty_spec _ _ _ Hd), (dlist_first _ _ _ Hd). done. }
  rewrite Enext. cbn [res_bind]. destruct (ready_del _ _ [] n rq' _ Hr1) as (h2 & E2 & Hr2).
  unfold scheduler_dequeue_task, on_links. cbn [links set_links]. rewrite E2. cbn [res_bind].
  exists h2. split; [done|]. unfold switch_to, upd_thread, get_thread, put_thread. cbn.
  destruct (decide (n = current k)) as [->|Hn].
  - rewrite lookup_insert_eq in En |- *. cbn. rewrite !lookup_insert_eq. cbn. rewrite !lookup_insert_eq. cbn.
    rewrite !insert_insert_eq. injection En as <-. done.
  - rewrite lookup_insert_ne in En |- * by done. rewrite En. cbn.
    rewrite (lookup_insert_ne _ n (current k)) by done. rewrite lookup_insert_eq. cbn.
    rewrite (lookup_insert_ne _ (current k) n) by done. rewrite lookup_insert_eq. cbn.
    rewrite (insert_insert_ne _ (current k) n) by done. rewrite insert_insert_eq. done.
Qed.

(** What the parts see of a switch: only the thread that leaves. *)
Record left_as (k k1 : kernel) (tho : thread_t) (k' : kernel) rq rq' wl (idle : Z) : Prop := mk_left {
  la_repr : repr (links k') (threads k') rq' wl;
  la_sched : sched_inv idle (threads k') (current k') rq';
  la_lview t : lview (threads k') t = vset (lview (threads k)) (current k) (lview {[current k := tho]} (current k)) t;
  la_fview t : fview (threads k') t = vset (fview (threads k)) (current k) (fview {[current k := tho]} (current k)) t;
  la_iview : exists x, (x.1 = active_conn tho \/ x.1 = 0) /\ x.2 = (iview {[current k := tho]} (current k)).2 /\
     forall t, iview (threads k') t = vset (iview (threads k)) (current k) x t;
  la_size : (size (threads k') <= size (threads k))%nat;
  la_moves : moves (current k) rq (current k') rq';
  la_left : status tho = TASK_STATUS_SUSPEND -> current k' <> current k /\ threads k' !! current k = Some tho;
  la_rest : atomic k' = atomic k1 /\ conns k' = conns k1 /\ hashsize k' = hashsize k1 /\ waiters k' = waiters k1 /\
            chains k' = chains k1 /\ futex_qs k' = futex_qs k1;
}.

Lemma lview_running ths n thn :
  ths !! n = Some thn -> runnable thn -> forall t, lview (<[n := with_status thn TASK_STATUS_RUNNING]> ths) t = lview ths t.
Proof.
  intros En Hr t. unfold lview. destruct (decide (t = n)) as [->|]; [|by simplify_map_eq].
  rewrite lookup_insert_eq, En. cbn. by destruct Hr as [-> | ->].
Qed.

Lemma fview_running ths n thn :
  ths !! n = Some thn -> runnable thn -> forall t, fview (<[n := with_status thn TASK_STATUS_RUNNING]> ths) t = fview ths t.
Proof.
  intros En Hr t. unfold fview. destruct (decide (t = n)) as [->|]; [|by simplify_map_eq].
  rewrite lookup_insert_eq, En. cbn. by destruct Hr as [-> | ->].
Qed.

Lemma iview_running ths n thn :
  ths !! n = Some thn -> runnable thn -> forall t, iview (<[n := with_status thn TASK_STATUS_RUNNING]> ths) t = iview ths t.
Proof.
  intros En Hr t. unfold iview. destruct (decide (t = n)) as [->|]; [|by simplify_map_eq].
  rewrite lookup_insert_eq, En. cbn. by destruct Hr as [-> | ->].
Qed.

Lemma leave_ok idle c k k1 rq wl th1 :
  sched_inv idle (threads k) (current k) rq ->
  threads k1 = <[current k := th1]> (threads k) -> current k1 = current k ->
  repr (links k1) (threads k) rq wl ->
  c <> KRun -> (c = KDead <-> status th1 = TASK_STATUS_EXIT) -> status th1 <> TASK_STATUS_READY ->
  (current k = idle -> status th1 = TASK_STATUS_RUNNING /\ c = KReturn) ->
  exists k' rq', schedule c k1 = Ok k' /\ left_as k k1 (left_with th1 c) k' rq rq' wl idle.
Proof.
  intros Hi Eths Ecur Hr Hc Hd Hnr Hidle. pose proof Hi as [Z0 C R K D I]. destruct C as (thc & Ec & _).
  pose proof (sched_cur_not_ready _ _ _ _ Hi) as Hcr. pose proof (repr_NoDup _ _ _ _ Hr) as Hnd.
  set (tho := left_with th1 c).
  assert (Hdom : forall t, is_Some (threads k1 !! t) <-> is_Some (threads k !! t)).
  { intros t. rewrite Eths. destruct (decide (t = current k)) as [->|]; [|by rewrite lookup_insert_ne].
    rewrite lookup_insert_eq, Ec. naive_solver. }
  assert (Hr1 : repr (links k1) (threads k1) rq wl) by (eapply repr_threads, Hr; intros t; apply Hdom).
  assert (Hne : exists n rq', (if decide (runnable th1) then rq ++ [current k] else rq) = n :: rq').
  { destruct (decide (runnable th1)) as [Hrun|Hrun]; [destruct rq; [exists (current k), []|eexists _, _]; done|].
    destruct rq as [|n rq']; [|by exists n, rq']. exfalso. destruct I as (thi & Ei & Hri & _).
    destruct (decide (idle = current k)) as [E|E]; [destruct (Hidle (eq_sym E)); by apply Hrun; right|].
    apply (not_elem_of_nil idle), R. eauto. }
  destruct Hne as (n & rq' & Erq).
  assert (Hin : exists thn, <[current k := tho]> (threads k) !! n = Some thn /\ runnable thn).
  { assert (Hn : n ∈ (if decide (runnable th1) then rq ++ [current k] else rq)) by (rewrite Erq; by left).
    destruct (decide (n = current k)) as [->|Hn'].
    - rewrite lookup_insert_eq. exists tho. split; [done|]. destruct (decide (runnable th1)); [done|by apply Hcr in Hn].
    - rewrite lookup_insert_ne by done. apply R. destruct (decide (runnable th1)); [|done].
      apply elem_of_app in Hn as [|Hn]; [done|by apply list_elem_of_singleton in Hn]. }
  destruct Hin as (thn & En & Hrn).
  assert (Eths' : forall x, <[current k := x]> (threads k1) = <[current k := x]> (threads k)) by (intros x; rewrite Eths; apply insert_insert_eq).
  destruct (schedule_spec c k1 rq wl th1 n rq' thn) as (h' & Hr' & ->); rewrite ?Ecur.
  { done. } { rewrite Eths. apply lookup_insert_eq. } { done. } { done. } { by rewrite Eths'. }
  rewrite Eths'. fold tho. set (ths' := <[n := with_status thn TASK_STATUS_RUNNING]> (<[current k := tho]> (threads k))).
  assert (Hs' : sched_inv idle ths' n rq').
  { eapply sched_switch; [exact Hi|exact Hnd|exact Ec|..]; [done|exact En|done|done| |].
    - intros E. destruct (Hidle E) as [Es ->]. split; [right; apply Es|done].
    - intros [Hr0|Hr0]; [by destruct (Hnr Hr0)|done]. }
  assert (Hl : forall t, lview ths' t = vset (lview (threads k)) (current k) (lview {[current k := tho]} (current k)) t).
  { intros t. unfold ths'. rewrite (lview_running _ _ _ En Hrn). apply lview_vset. }
  assert (Hf : forall t, fview ths' t = vset (fview (threads k)) (current k) (fview {[current k := tho]} (current k)) t).
  { intros t. unfold ths'. rewrite (fview_running _ _ _ En Hrn). apply fview_vset. }
  assert (Hv : forall t, iview ths' t = vset (iview (threads k)) (current k) (iview {[current k := tho]} (current k)) t).
  { intros t. unfold ths'. rewrite (iview_running _ _ _ En Hrn). apply iview_vset. }
  assert (Hdom' : forall t, is_Some (ths' !! t) -> is_Some (threads k !! t)).
  { intros t. unfold ths'. destruct (decide (t = n)) as [->|]; [|rewrite lookup_insert_ne by done].
    - intros _. destruct (decide (n = current k)) as [->|]; [by rewrite Ec|]. rewrite lookup_insert_ne in En by done. by rewrite En.
    - destruct (decide (t = current k)) as [->|]; [by rewrite Ec|]. by rewrite lookup_insert_ne. }
  assert (Hsz : (size ths' <= size (threads k))%nat).
  { rewrite <- !size_dom. apply subseteq_size. intros t. rewrite !elem_of_dom. apply Hdom'. }
  assert (Hmv : moves (current k) rq n rq').
  { apply (moves_next _ _ (if decide (runnable th1) then [current k] else [])).
    destruct (decide (runnable th1)); [done|by rewrite app_nil_r]. }
  assert (Hold : exists o, ths' !! current k = Some o /\ (status o = TASK_STATUS_EXIT -> o = tho /\ n <> current k)).
  { unfold ths'. destruct (decide (n = current k)) as [->|].
    - rewrite lookup_insert_eq. by eexists.
    - rewrite lookup_insert_ne, lookup_insert_eq by done. by eexists. }
  assert (Hleave : status tho = TASK_STATUS_SUSPEND -> n <> current k).
  { intros Hsu ->. rewrite decide_False in Erq by (intros Hr0; by apply runnable_not_suspended in Hr0). apply Hcr. rewrite Erq. by left. }
  assert (Hbase : left_as k k1 tho (switch_state k1 h' n ths') rq rq' wl idle).
  { split; try done; [| |intros Hsu; pose proof (Hleave Hsu); split; [done|]; cbn; unfold ths'; by rewrite lookup_insert_ne, lookup_insert_eq by done]; [|exists (iview {[current k := tho]} (current k)); split_and!; [left|..]; [|done|exact Hv]].
    - eapply repr_threads; [|exact Hr']. intros t Ht. apply Hdom. by apply Hdom'.
    - unfold iview. by rewrite lookup_singleton_eq. }
  destruct Hold as (o & Eo & Ho). unfold after_switch, get_thread.
  change (threads (switch_state k1 h' n ths')) with ths'. change (current (switch_state k1 h' n ths')) with n.
  assert (En' : ths' !! n = Some (with_status thn TASK_STATUS_RUNNING)) by apply lookup_insert_eq.
  rewrite En'. cbn [deref res_bind]. destruct (in_schedule _); [|by eexists _, rq'].
  rewrite Eo. cbn [deref res_bind]. destruct (bool_decide_reflect (status o = TASK_STATUS_EXIT)) as [Ex|Ex]; [|by eexists _, rq'].
  destruct (Ho Ex) as [-> Hnc]. eexists _, rq'. split; [done|].
  assert (Hdead : cont tho = KDead) by (by apply Hd).
  split; cbn [links threads current delete_thread switch_state set_threads set_current set_links]; try done.
  - eapply repr_threads; [|exact (la_repr _ _ _ _ _ _ _ _ Hbase)]. intros t [x E]. apply lookup_delete_Some in E as [_ E]. cbn. eauto.
  - by eapply sched_delete.
  - intros t. rewrite <- Hl. unfold lview at 1. destruct (decide (t = current k)) as [->|].
    + rewrite lookup_delete_eq. unfold lview. rewrite Eo. by rewrite Hdead.
    + by rewrite lookup_delete_ne.
  - intros t. rewrite <- Hf. unfold fview at 1. destruct (decide (t = current k)) as [->|].
    + rewrite lookup_delete_eq. unfold fview. rewrite Eo, Ex. done.
    + by rewrite lookup_delete_ne.
  - exists (0, false). split_and!; [by right| |].
    + unfold iview. rewrite lookup_singleton_eq. cbn [snd]. rewrite Ex. done.
    + intros t. unfold iview at 1. vcases (current k) t; [by rewrite lookup_delete_eq|].
      rewrite lookup_delete_ne by done. change (iview ths' t = iview (threads k) t). rewrite Hv. by rewrite vset_ne.
  - rewrite map_size_delete_Some; [lia|by eexists].
  - intros Hsu. rewrite Ex in Hsu. done.
Qed.

(** ** The running thread *)

Lemma cur_thread idle g k rq wl fl :
  kernel_inv idle g k rq wl fl ->
  exists th, threads k !! current k = Some th /\ status th = TASK_STATUS_RUNNING /\ current k <> 0 /\ cont th <> KDead.
Proof.
  intros Hi. pose proof (k_sched _ _ _ _ _ _ Hi) as [Z0 C R K D I]. destruct C as (th & E & Hs).
  exists th. split_and!; [done|done| |].
  - intros E0. rewrite E0 in E. congruence.
  - intros Hk. apply (D _ _ E) in Hk. congruence.
Qed.

Lemma running_views ths t th :
  ths !! t = Some th -> status th = TASK_STATUS_RUNNING -> fview ths t = None /\ (iview ths t).2 = false /\ (iview ths t).1 = active_conn th.
Proof. intros E Hs. unfold fview, iview. rewrite E, Hs. done. Qed.

Lemma trying_view ths t th m :
  ths !! t = Some th -> status th <> TASK_STATUS_SUSPEND ->
  (cont th = KMutex m \/ cont th = KSem m \/ (forall m', cont th <> KMutex m' /\ cont th <> KSem m')) -> trying (lview ths) t m.
Proof.
  intros E Hs Hc. unfold trying, lview. rewrite E, bool_decide_false by done.
  destruct Hc as [-> |[-> |Hc]]; [by right; eexists..|]. destruct (Hc m). left.
  destruct (cont th) as [| | |m'|m'| | | | | ] eqn:Ek; try done; by destruct (Hc m').
Qed.

(** The parts after the running thread has left. *)
Lemma leave_inv idle g g' k k1 k' rq rq' wl wl' fl fl' th tho x y :
  kernel_inv idle g k rq wl fl -> left_as k k1 tho k' rq rq' wl' idle ->
  threads k !! current k = Some th -> status th = TASK_STATUS_RUNNING ->
  active_conn tho = active_conn th -> conns k1 = conns k ->
  lview {[current k := tho]} (current k) = x -> fview {[current k := tho]} (current k) = y ->
  lock_inv (vset (lview (threads k)) (current k) x) g' (atomic k1) wl' ->
  futex_inv (vset (fview (threads k)) (current k) y) (hashsize k1) (waiters k1) (chains k1) (futex_qs k1) fl' ->
  (cont tho <> KCall) ->
  kernel_inv idle g' k' rq' wl' fl'.
Proof.
  intros Hi [Hr Hs Hl Hf Hv Hsz Hm _ (Ea & Ec & Eh & Ew & Ech & Eq)] Et Hst Hac Hcs <- <- Hlk Hfx Hnc.
  destruct (running_views _ _ _ Et Hst) as (_ & Hv2 & Hv1). split.
  - done.
  - done.
  - rewrite Ea. eapply lock_inv_ext, Hlk. intros t. by rewrite Hl.
  - rewrite Eh, Ew, Ech, Eq. eapply futex_inv_ext, Hfx. intros t. by rewrite Hf.
  - destruct Hv as (z & Hz1 & Hz2 & Hv). rewrite Ec, Hcs. eapply ipc_inv_ext; [intros t; symmetry; apply Hv|].
    apply ipc_move; [apply Hi|done|]. rewrite Hv1, <- Hac. destruct Hz1 as [->| ->]; auto.
  - pose proof (k_size _ _ _ _ _ _ Hi). lia.
Qed.

(** A blocking call leaves every other part as it is. *)
Lemma vset_same {A} (v : Z -> A) t x : v t = x -> forall t', vset v t x t' = v t'.
Proof. intros <- t'. vcases t t'; done. Qed.

(** [thread_suspend(thread_self())]. *)
Lemma suspend_self c k th :
  threads k !! current k = Some th -> status th = TASK_STATUS_RUNNING -> current k <> 0 ->
  thread_suspend (current k) c k = schedule c (put_thread k (current k) (with_status th TASK_STATUS_SUSPEND)).
Proof.
  intros E Hs H0. unfold thread_suspend, get_thread. rewrite (proj2 (Z.eqb_neq _ _) H0), E. cbn. by rewrite Hs.
Qed.

(** The call returns: the counters may have changed. *)
Lemma returns_inv idle g g' k rq wl fl th a :
  kernel_inv idle g k rq wl fl -> threads k !! current k = Some th ->
  lock_inv (vset (lview (threads k)) (current k) None) g' a wl ->
  exists k', returns (set_atomic k a) = Ok k' /\ kernel_inv idle g' k' rq wl fl /\ current k' = current k /\
    threads k' = <[current k := with_cont th KRun]> (threads k) /\ atomic k' = a.
Proof.
  intros Hi E Hl. destruct (cur_thread _ _ _ _ _ _ Hi) as (th' & E' & Hs & H0 & Hk). rewrite E in E'. injection E' as <-.
  unfold returns, upd_thread, get_thread. cbn. rewrite E. cbn. eexists. split; [done|]. split; [|done].
  destruct (running_views _ _ _ E Hs) as (Hf & Hv2 & Hv1). destruct Hi as [Hr Hsc Hlk Hfx Hipc Hsz]. split; cbn.
  - eapply repr_threads, Hr. intros t. destruct (decide (t = current k)) as [->|]; [by rewrite E|by rewrite lookup_insert_ne].
  - apply sched_set_cur; [done|done|done|by left].
  - eapply lock_inv_ext, Hl. intros t. by rewrite lview_vset; unfold lview at 3; rewrite lookup_singleton_eq.
  - eapply futex_inv_ext, Hfx. intros t. rewrite fview_vset. unfold fview at 3. rewrite lookup_singleton_eq. cbn. rewrite Hs. cbn.
    symmetry. by apply vset_same.
  - eapply ipc_inv_ext, Hipc. intros t. rewrite iview_vset. symmetry. apply vset_same. unfold iview.
    rewrite E, lookup_singleton_eq. cbn. by rewrite Hs.
  - rewrite map_size_insert_Some; [done|by eexists].
Qed.

(** ** Locks *)

(** The end of both lock operations: the running thread waits for [m]. *)
Lemma wait_for_lock idle g k rq wl fl th m (b : bool) :
  kernel_inv idle g k rq wl fl -> threads k !! current k = Some th -> current k <> idle ->
  trying (lview (threads k)) (current k) m -> atomic k !! m = Some 0 -> (b = true <-> m ∈ mutexes g) ->
  exists k' rq' wl', (let* k0 := enqueue_waiter (current k) m k in
                  thread_suspend (current k) (if b then KMutex m else KSem m) k0) = Ok k' /\
    kernel_inv idle g k' rq' wl' fl /\ moves (current k) rq (current k') rq' /\
    lview (threads k') (current k) = Some (m, b, true).
Proof.
  intros Hi E Hni Ht Ha Hb. destruct (cur_thread _ _ _ _ _ _ Hi) as (th' & E' & Hs & H0 & Hk). rewrite E in E'. injection E' as <-.
  pose proof Hi as [Hr Hsc Hlk Hfx Hipc Hsz].
  pose proof (trying_not_waiting _ _ _ _ _ _ Hlk Ht) as Hnw.
  destruct (proj2 (l_dom _ _ _ _ Hlk m)) as [l Hl]; [by rewrite Ha|].
  unfold enqueue_waiter. rewrite (free_careful _ _ _ _ _ Hr) by (rewrite ?E; done).
  destruct (wait_add _ _ _ _ _ _ _ Hr Hl Hnw) as (h' & Eh & Hr'). unfold on_links. rewrite Eh. cbn [res_bind].
  set (c := if b then KMutex m else KSem m).
  change (current k) with (current (set_links k h')) at 1. rewrite (suspend_self c (set_links k h') th) by done.
  destruct (leave_ok idle c k (put_thread (set_links k h') (current k) (with_status th TASK_STATUS_SUSPEND)) rq
             (<[m := l ++ [current k]]> wl) (with_status th TASK_STATUS_SUSPEND)) as (k' & rq' & Es & Hleft); try done.
  { by destruct b. } { by destruct b. }
  exists k', rq', (<[m := l ++ [current k]]> wl). split; [done|].
  split; [|split; [apply (la_moves _ _ _ _ _ _ _ _ Hleft)|rewrite (la_lview _ _ _ _ _ _ _ _ Hleft), vset_eq; unfold lview;
    rewrite lookup_singleton_eq; by destruct b]].
  eapply leave_inv; [exact Hi|exact Hleft|exact E|done|done|done|reflexivity|reflexivity|..].
  - cbn [atomic put_thread set_threads set_links]. unfold lview at 2. rewrite lookup_singleton_eq.
    replace (match cont _ with | KMutex m0 => _ | KSem m0 => _ | _ => None end) with (Some (m, b, true)); [|by destruct b].
    by apply lock_block.
  - eapply futex_inv_ext, Hfx. intros t. symmetry. apply vset_same. destruct (running_views _ _ _ E Hs) as [-> _].
    unfold fview. rewrite lookup_singleton_eq. by destruct b.
  - by destruct b.
Qed.

Lemma mutex_lock_inv idle g k rq wl fl th m :
  kernel_inv idle g k rq wl fl -> threads k !! current k = Some th -> current k <> idle ->
  (cont th = KRun \/ cont th = KMutex m) -> m ∈ mutexes g ->
  exists k' rq' wl', mutex_lock m k = Ok k' /\ moves (current k) rq (current k') rq' /\
    match held g !! m with
    | None => kernel_inv idle (mkGhost (<[m := current k]> (held g)) (mutexes g)) k' rq' wl' fl /\ current k' = current k /\
        threads k' = <[current k := with_cont th KRun]> (threads k)
    | Some _ => kernel_inv idle g k' rq' wl' fl /\ lview (threads k') (current k) = Some (m, true, true)
    end.
Proof.
  intros Hi E Hni Hc Hm. destruct (cur_thread _ _ _ _ _ _ Hi) as (th' & E' & Hs & H0 & Hk). rewrite E in E'. injection E' as <-.
  pose proof (l_mutex _ _ _ _ (k_lock _ _ _ _ _ _ Hi) m Hm) as Ha.
  assert (Ht : trying (lview (threads k)) (current k) m).
  { eapply trying_view; [done|by rewrite Hs|]. destruct Hc as [-> | ->]; [right; right; done|by left]. }
  unfold mutex_lock. rewrite Ha. cbn [deref res_bind]. destruct (held g !! m) as [o|] eqn:Eh; cbn [Z.eqb Pos.eqb].
  - destruct (wait_for_lock idle g k rq wl fl th m true) as (k' & rq' & wl' & ? & ? & ? & ?); try done. by exists k', rq', wl'.
  - destruct (returns_inv idle g (mkGhost (<[m := current k]> (held g)) (mutexes g)) k rq wl fl th (<[m := 0]> (atomic k)))
      as (k' & Er & Hi' & Ec & Et & _); [done|done|by apply lock_take_mutex; [apply Hi|..]|].
    exists k', rq, wl. split_and!; try done. rewrite Ec. rewrite <- (app_nil_r rq) at 2. constructor.
Qed.

Lemma semaphore_down_inv idle g k rq wl fl th m v :
  kernel_inv idle g k rq wl fl -> threads k !! current k = Some th -> current k <> idle ->
  (cont th = KRun \/ cont th = KSem m) -> m ∉ mutexes g -> atomic k !! m = Some v ->
  exists k' rq' wl', semaphore_down m k = Ok k' /\ kernel_inv idle g k' rq' wl' fl /\ moves (current k) rq (current k') rq' /\
    (if decide (0 < v)
     then current k' = current k /\ threads k' = <[current k := with_cont th KRun]> (threads k) /\ atomic k' = <[m := v - 1]> (atomic k)
     else lview (threads k') (current k) = Some (m, false, true)).
Proof.
  intros Hi E Hni Hc Hm Ha. destruct (cur_thread _ _ _ _ _ _ Hi) as (th' & E' & Hs & H0 & Hk). rewrite E in E'. injection E' as <-.
  pose proof (l_count _ _ _ _ (k_lock _ _ _ _ _ _ Hi) m v Ha) as Hv.
  assert (Ht : trying (lview (threads k)) (current k) m).
  { eapply trying_view; [done|by rewrite Hs|]. destruct Hc as [-> | ->]; [right; right; done|by right; left]. }
  unfold semaphore_down. rewrite Ha. cbn [deref res_bind]. destruct (Z.ltb_spec 0 v) as [Hpos|Hz].
  - destruct (decide (0 < v)); [|lia]. rewrite s32_small by lia.
    destruct (returns_inv idle g g k rq wl fl th (<[m := v - 1]> (atomic k)))
      as (k' & Er & Hi' & Ec & Et & Ea); [done|done|by apply lock_take_sem; [apply Hi|..]|].
    exists k', rq, wl. split_and!; try done. rewrite Ec. rewrite <- (app_nil_r rq) at 2. constructor.
  - destruct (decide (0 < v)); [lia|]. assert (v = 0) as -> by lia. apply (wait_for_lock idle g k rq wl fl th m false); try done.
Qed.

(** ** Waking a thread *)

Lemma suspended_not_ready idle ths cur rq t th :
  sched_inv idle ths cur rq -> ths !! t = Some th -> status th = TASK_STATUS_SUSPEND -> (t ∉ rq) /\ t <> 0 /\ t <> cur.
Proof.
  intros [Z0 C R K D I] E Hs. split_and!.
  - rewrite R. intros (_ & th' & E' & Hr). apply runnable_not_suspended in Hr. congruence.
  - intros ->. congruence.
  - intros ->. destruct C as (? & ? & ?). congruence.
Qed.

Lemma resume_spec t k rq wl th :
  repr (links k) (threads k) rq wl -> t ∉ rq -> t <> 0 -> threads k !! t = Some th -> status th = TASK_STATUS_SUSPEND ->
  exists h', repr h' (<[t := with_status th TASK_STATUS_READY]> (threads k)) (rq ++ [t]) wl /\
    thread_resume t k = Ok (set_links (put_thread k t (with_status th TASK_STATUS_READY)) h').
Proof.
  intros Hr Hq H0 E Hs. destruct (ready_add _ _ _ _ _ Hr Hq) as (h' & Eh & Hr'). exists h'. split.
  - eapply repr_threads, Hr'. intros t'. destruct (decide (t' = t)) as [->|]; [by rewrite E|by rewrite lookup_insert_ne].
  - unfold thread_resume, get_thread. rewrite (proj2 (Z.eqb_neq _ _) H0), E. cbn. rewrite Hs.
    rewrite bool_decide_true by done. unfold scheduler_enqueue_task, on_links. cbn. by rewrite Eh.
Qed.

(** Which parts see it: the locks when it waited for one, the futexes when it slept on one. *)
Lemma resume_views ths t th :
  ths !! t = Some th -> status th = TASK_STATUS_SUSPEND ->
  let ths' := <[t := with_status th TASK_STATUS_READY]> ths in
  (forall t', fview ths' t' = vset (fview ths) t None t') /\
  (cont th <> KCall -> forall t', iview ths' t' = iview ths t') /\
  (forall t', lview ths' t' = vset (lview ths) t (match lview ths t with Some (m, b, _) => Some (m, b, false) | None => None end) t').
Proof.
  intros E Hs ths'. split_and!.
  - intros t'. unfold ths'. rewrite fview_vset. unfold fview at 2. by rewrite lookup_singleton_eq.
  - intros Hc t'. unfold ths'. rewrite iview_vset. apply vset_same. unfold iview. rewrite E, lookup_singleton_eq. cbn.
    rewrite Hs. by rewrite (bool_decide_false (cont th = KCall)).
  - intros t'. unfold ths'. rewrite lview_vset. unfold vset. destruct (decide (t' = t)); [|done].
    unfold lview. rewrite E, lookup_singleton_eq. cbn. rewrite Hs. by destruct (cont th).
Qed.

Lemma size_insert_thread (ths : gmap Z thread_t) t th th' : ths !! t = Some th -> size (<[t := th']> ths) = size ths.
Proof. intros E. rewrite map_size_insert_Some; [done|by eexists]. Qed.

Lemma lview_none ths t th :
  ths !! t = Some th -> (forall m, cont th <> KMutex m /\ cont th <> KSem m) -> lview ths t = None.
Proof.
  intros E Hc. unfold lview. rewrite E. destruct (cont th) as [| | |m'|m'| | | | |] eqn:Ek; try done; by destruct (Hc m').
Qed.

Lemma fview_none ths t th : ths !! t = Some th -> cont th <> KFutex -> fview ths t = None.
Proof. intros E Hc. unfold fview. rewrite E, (bool_decide_false (cont th = KFutex)) by done. by rewrite andb_false_r. Qed.

(** A thread that waits for nothing of these. *)
Lemma resume_inv idle g k rq wl fl t th :
  kernel_inv idle g k rq wl fl -> threads k !! t = Some th -> status th = TASK_STATUS_SUSPEND ->
  (cont th = KSleep \/ cont th = KNew) ->
  exists k', thread_resume t k = Ok k' /\ kernel_inv idle g k' (rq ++ [t]) wl fl /\ current k' = current k.
Proof.
  intros Hi E Hs Hc. pose proof Hi as [Hr Hsc Hlk Hfx Hipc Hsz].
  destruct (suspended_not_ready _ _ _ _ _ _ Hsc E Hs) as (Hq & H0 & Hne).
  destruct (resume_spec t k rq wl th Hr Hq H0 E Hs) as (h' & Hr' & ->). eexists. split; [done|]. split; [|done].
  destruct (resume_views _ _ _ E Hs) as (Vf & Vi & Vl). split; cbn.
  - done.
  - by apply sched_resume.
  - eapply lock_inv_ext, Hlk. intros t'. rewrite Vl. rewrite (lview_none _ _ _ E) by (destruct Hc as [-> | ->]; done).
    symmetry. apply vset_same. apply (lview_none _ _ _ E). destruct Hc as [-> | ->]; done.
  - eapply futex_inv_ext, Hfx. intros t'. rewrite Vf. symmetry. apply vset_same. apply (fview_none _ _ _ E).
    by destruct Hc as [-> | ->].
  - eapply ipc_inv_ext, Hipc. intros t'. rewrite Vi; [done|]. by destruct Hc as [-> | ->].
  - by rewrite (size_insert_thread _ _ _ _ E).
Qed.

(** [mutex_unlock] and [semaphore_up]: the counter goes up and the first waiter wakes. *)
Lemma wake_first_inv idle g k rq wl fl m c :
  kernel_inv idle g k rq wl fl -> atomic k !! m = Some c -> (m ∈ mutexes g -> c = 0) -> c + 1 < 2 ^ 31 ->
  exists k' rq' wl', wake_first m (set_atomic k (<[m := c + 1]> (atomic k))) = Ok k' /\
    kernel_inv idle (released g m) k' rq' wl' fl /\ current k' = current k /\ exists l, rq' = rq ++ l.
Proof.
  intros Hi Ha Hz Hc. pose proof Hi as [Hr Hsc Hlk Hfx Hipc Hsz].
  destruct (proj2 (l_dom _ _ _ _ Hlk m)) as [l Hl]; [by rewrite Ha|]. unfold wake_first. cbn [links set_atomic].
  destruct l as [|t l].
  - rewrite (wait_empty _ _ _ _ _ Hr Hl). eexists _, rq, wl. split; [done|].
    split; [|split; [done|exists []; by rewrite app_nil_r]]. split; cbn; try done. by apply lock_raise_idle.
  - destruct (wait_pop _ _ _ _ _ _ _ Hr Hl) as (-> & -> & h' & Eh & Hr'). cbn [res_bind].
    unfold on_links. cbn [links set_atomic]. rewrite Eh. cbn [res_bind].
    destruct (proj1 (l_wait _ _ _ _ Hlk m t)) as [b Hv]; [exists (t :: l); split; [done|by left]|].
    assert (Hth : exists th, threads k !! t = Some th /\ status th = TASK_STATUS_SUSPEND /\ (cont th = KMutex m \/ cont th = KSem m)).
    { unfold lview in Hv. destruct (threads k !! t) as [th|] eqn:E; [|done]. exists th. split; [done|].
      destruct (cont th) eqn:Ek; try done; injection Hv as -> _ Hv; apply bool_decide_eq_true in Hv; auto. }
    destruct Hth as (th & E & Hs & Hk).
    destruct (suspended_not_ready _ _ _ _ _ _ Hsc E Hs) as (Hq & H0 & Hne).
    destruct (resume_spec t (set_links (set_atomic k (<[m := c + 1]> (atomic k))) h') rq (<[m := l]> wl) th Hr' Hq H0 E Hs)
      as (h2 & Hr2 & ->).
    eexists _, (rq ++ [t]), (<[m := l]> wl). split; [done|]. split; [|split; [done|by eexists]].
    destruct (resume_views _ _ _ E Hs) as (Vf & Vi & Vl). split; cbn.
    + done.
    + by apply sched_resume.
    + eapply lock_inv_ext; [|eapply (lock_raise_wake _ _ _ _ m c t l b)]; try done.
      * intros t'. by rewrite Vl, Hv.
      * pose proof (wait_NoDup _ _ _ _ _ _ Hr Hl) as Hnd. by apply NoDup_cons in Hnd as [? _].
    + eapply futex_inv_ext, Hfx. intros t'. rewrite Vf. symmetry. apply vset_same. apply (fview_none _ _ _ E).
      by destruct Hk as [-> | ->].
    + eapply ipc_inv_ext, Hipc. intros t'. rewrite Vi; [done|]. by destruct Hk as [-> | ->].
    + by rewrite (size_insert_thread _ _ _ _ E).
Qed.

Lemma mutex_unlock_inv idle g k rq wl fl m :
  kernel_inv idle g k rq wl fl -> is_Some (held g !! m) ->
  exists k' rq' wl', mutex_unlock m k = Ok k' /\ kernel_inv idle (released g m) k' rq' wl' fl /\
    current k' = current k /\ exists l, rq' = rq ++ l.
Proof.
  intros Hi Hh. pose proof (k_lock _ _ _ _ _ _ Hi) as Hlk. pose proof (l_held _ _ _ _ Hlk m Hh) as Hm.
  pose proof (l_mutex _ _ _ _ Hlk m Hm) as Ha. destruct Hh as [o Hh]. rewrite Hh in Ha.
  unfold mutex_unlock. rewrite Ha. cbn [deref res_bind Z.eqb]. by apply (wake_first_inv idle g k rq wl fl m 0).
Qed.

Lemma semaphore_up_inv idle g k rq wl fl m v :
  kernel_inv idle g k rq wl fl -> m ∉ mutexes g -> atomic k !! m = Some v -> v + 1 < 2 ^ 31 ->
  exists k' rq' wl', semaphore_up m k = Ok k' /\ kernel_inv idle g k' rq' wl' fl /\
    current k' = current k /\ exists l, rq' = rq ++ l.
Proof.
  intros Hi Hm Ha Hv. pose proof (k_lock _ _ _ _ _ _ Hi) as Hlk. pose proof (l_count _ _ _ _ Hlk m v Ha).
  unfold semaphore_up. rewrite Ha. cbn [deref res_bind]. rewrite s32_small, (proj2 (Z.ltb_lt 0 (v + 1))) by lia.
  pose proof (wake_first_inv idle g k rq wl fl m v Hi Ha ltac:(done) Hv) as Hw.
  by rewrite (released_sem _ _ _ _ _ Hlk Hm) in Hw.
Qed.

(** ** Giving up the processor *)

(** A switch that only the ready queue sees. *)
Lemma leave_plain idle g k rq wl fl th th1 c :
  kernel_inv idle g k rq wl fl -> threads k !! current k = Some th -> cont th = KRun ->
  active_conn th1 = active_conn th -> status th1 <> TASK_STATUS_READY ->
  (c = KSleep \/ c = KReturn \/ c = KDead) -> (c = KDead <-> status th1 = TASK_STATUS_EXIT) ->
  (current k = idle -> status th1 = TASK_STATUS_RUNNING /\ c = KReturn) ->
  exists k' rq', schedule c (put_thread k (current k) th1) = Ok k' /\ kernel_inv idle g k' rq' wl fl /\
    moves (current k) rq (current k') rq' /\
    (status th1 = TASK_STATUS_SUSPEND -> current k' <> current k /\ threads k' !! current k = Some (left_with th1 c)).
Proof.
  intros Hi E Hk Hac Hnr Hc Hd Hidle. destruct (cur_thread _ _ _ _ _ _ Hi) as (th' & E' & Hs & H0 & _). rewrite E in E'. injection E' as <-.
  pose proof Hi as [Hr Hsc Hlk Hfx Hipc Hsz].
  destruct (leave_ok idle c k (put_thread k (current k) th1) rq wl th1) as (k' & rq' & Es & Hleft); try done.
  { by destruct Hc as [->|[->| ->]]. }
  exists k', rq'. split; [done|]. split; [|split; [apply (la_moves _ _ _ _ _ _ _ _ Hleft)|apply (la_left _ _ _ _ _ _ _ _ Hleft)]].
  eapply leave_inv; [exact Hi|exact Hleft|exact E|done|done|done|reflexivity|reflexivity|..].
  - eapply lock_inv_ext, Hlk. intros t. symmetry. apply vset_same. rewrite (lview_none _ _ _ E) by (rewrite Hk; done).
    unfold lview. rewrite lookup_singleton_eq. by destruct Hc as [->|[->| ->]].
  - eapply futex_inv_ext, Hfx. intros t. symmetry. apply vset_same. rewrite (fview_none _ _ _ E) by (rewrite Hk; done).
    unfold fview. rewrite lookup_singleton_eq. destruct Hc as [->|[->| ->]]; cbn; by rewrite andb_false_r.
  - by destruct Hc as [->|[->| ->]].
Qed.
