(* ===== verification/SchedCalls.v ===== *)
(** * SchedCalls: migrating calls and futexes keep the invariants *)

From S2P Require Import Prelude ListHead Hlist Jhash Sched SchedLists SchedInv SchedSteps SchedProof.

Implicit Types (ths : gmap Z thread_t) (rq l wk : list Z) (wl fl : gmap Z (list Z)) (k : kernel) (t m cur : Z).

#[local] Opaque jhash2.

(** ** Migrating calls *)

Lemma schedule_to_spec t c k th tht :
  threads k !! current k = Some th -> threads k !! t = Some tht -> t <> current k -> in_schedule (cont tht) = false ->
  schedule_to t c k = Ok (switch_state k (init_list_head (LReadyNode (current k)) (links k)) t
    (<[t := with_status tht TASK_STATUS_RUNNING]> (<[current k := with_cont (with_status th TASK_STATUS_SUSPEND) c]> (threads k)))).
Proof.
  intros E Et Hne Hk. unfold schedule_to, switch_to, after_switch, upd_thread, get_thread, put_thread. cbn. rewrite E. cbn.
  rewrite lookup_insert_ne, Et by done. cbn. rewrite (lookup_insert_ne _ t) by done. rewrite lookup_insert_eq. cbn.
  rewrite (lookup_insert_ne _ (current k)) by done. rewrite lookup_insert_eq. cbn.
  rewrite (lookup_insert_ne _ (current k)) by done. rewrite lookup_insert_eq. cbn. rewrite Hk.
  rewrite (insert_insert_ne _ (current k) t) by done. by rewrite insert_insert_eq.
Qed.

(** The ready queue and the locks do not see a call or a return. *)
Lemma repr_switch_to idle k rq wl t ths' :
  repr (links k) (threads k) rq wl -> sched_inv idle (threads k) (current k) rq ->
  (forall t', is_Some (ths' !! t') -> is_Some (threads k !! t')) ->
  repr (init_list_head (LReadyNode (current k)) (links k)) ths' rq wl.
Proof.
  intros Hr Hs Hd. eapply repr_threads; [exact Hd|]. apply ready_init; [done|]. by eapply sched_cur_not_ready.
Qed.

Lemma insert_is_Some (ths : gmap Z thread_t) t th th' t' :
  ths !! t = Some th -> is_Some (<[t := th']> ths !! t') -> is_Some (ths !! t').
Proof. intros E. destruct (decide (t' = t)) as [->|]; [by rewrite E|by rewrite lookup_insert_ne]. Qed.

Lemma ipc_call_inv idle g k rq wl fl th c src t tht :
  kernel_inv idle g k rq wl fl -> threads k !! current k = Some th -> cont th = KRun -> current k <> idle ->
  conns k !! c = Some (mkConn src t) -> c <> 0 -> threads k !! t = Some tht -> status tht = TASK_STATUS_SUSPEND ->
  (cont tht = KNew \/ cont tht = KServe) -> active_conn tht = 0 ->
  exists k', thread_migrate_to_server c k = Ok k' /\ kernel_inv idle g k' rq wl fl /\ current k' = t /\
    threads k' !! t = Some (mkThread TASK_STATUS_RUNNING (flags tht) (vmspace tht) c KNew) /\
    threads k' !! current k = Some (with_cont (with_status th TASK_STATUS_SUSPEND) KCall) /\
    conns k' = <[c := mkConn (current k) t]> (conns k).
Proof.
  intros Hi E Hk Hni Hc H0 Et Hst Hct Hact. destruct (cur_thread _ _ _ _ _ _ Hi) as (th' & E' & Hs & Hc0 & _). rewrite E in E'. injection E' as <-.
  pose proof Hi as [Hr Hsc Hlk Hfx Hipc Hsz].
  destruct (suspended_not_ready _ _ _ _ _ _ Hsc Et Hst) as (_ & Ht0 & Hne).
  unfold thread_migrate_to_server. rewrite Hc. cbn [deref res_bind target]. unfold upd_thread at 1, get_thread at 1. cbn [threads set_conns].
  rewrite Et. cbn [deref res_bind].
  set (tht1 := with_cont (with_conn tht c) KNew). set (k1 := put_thread (set_conns k _) t tht1).
  assert (E1 : threads k1 !! current k1 = Some th) by (cbn; by rewrite lookup_insert_ne).
  assert (Et1 : threads k1 !! t = Some tht1) by apply lookup_insert_eq.
  rewrite (schedule_to_spec t KCall k1 th tht1 E1 Et1 Hne eq_refl). eexists. split; [done|].
  set (tho := with_cont (with_status th TASK_STATUS_SUSPEND) KCall).
  assert (Hti : t <> idle).
  { intros ->. destruct (s_idle _ _ _ _ Hsc) as (? & ? & Hri & _). apply runnable_not_suspended in Hri. congruence. }
  split; [split; cbn|cbn].
  - apply (repr_switch_to idle k rq wl t); [done|done|]. intros t' Ht'.
    eapply insert_is_Some in Ht'; [|by rewrite lookup_insert_ne, lookup_insert_eq by done].
    eapply insert_is_Some in Ht'; [|by rewrite lookup_insert_ne by done]. by eapply insert_is_Some in Ht'.
  - eapply sched_switch_to; [eapply sched_set_other; [exact Hsc|exact Et|..]| | | | | | |]; try done.
    split; [done|]. cbn. congruence.
  - eapply lock_inv_ext, Hlk. intros t'. rewrite lview_put. vcases t t'; [by rewrite (lview_none _ _ _ Et) by (by destruct Hct as [-> | ->])|].
    rewrite lview_put. vcases (current k) t'; [by rewrite (lview_none _ _ _ E) by (by rewrite Hk)|]. by rewrite lview_put, vset_ne.
  - eapply futex_inv_ext, Hfx. intros t'. rewrite fview_put. vcases t t'; [by rewrite (fview_none _ _ _ Et) by (by destruct Hct as [-> | ->])|].
    rewrite fview_put. vcases (current k) t'; [by rewrite (fview_none _ _ _ E) by (by rewrite Hk)|]. by rewrite fview_put, vset_ne.
  - destruct (running_views _ _ _ E Hs) as (_ & Hv2 & Hv1).
    assert (Hvt : iview (threads k) t = (0, false)).
    { rewrite (iview_at _ _ _ Et). unfold ione. rewrite Hact, Hst. by destruct Hct as [-> | ->]. }
    eapply ipc_inv_ext; [|apply (ipc_call _ _ (current k) t c src Hipc Hc H0); by rewrite ?Hvt].
    intros t'. rewrite iview_put. vcases t t'; [by rewrite vset_ne, vset_eq by done|].
    rewrite iview_put.
    vcases (current k) t'; [by rewrite Hv1|]. by rewrite vset_ne, iview_put, vset_ne by done.
  - by rewrite !map_size_insert_Some by (eexists; first [rewrite lookup_insert_ne by done; done | done]).
  - split_and!; [done|by rewrite lookup_insert_eq|by rewrite lookup_insert_ne, lookup_insert_eq by done|done].
Qed.

Lemma ipc_return_inv idle g k rq wl fl th :
  kernel_inv idle g k rq wl fl -> threads k !! current k = Some th -> cont th = KRun -> current k <> idle ->
  active_conn th <> 0 ->
  exists src sth k', conns k !! active_conn th = Some (mkConn src (current k)) /\ threads k !! src = Some sth /\
    status sth = TASK_STATUS_SUSPEND /\ cont sth = KCall /\ src <> current k /\
    sys_ipc_return k = Ok k' /\ kernel_inv idle g k' rq wl fl /\ current k' = src /\ (src ∉ rq) /\
    threads k' !! src = Some (with_status sth TASK_STATUS_RUNNING).
Proof.
  intros Hi E Hk Hni Hac. destruct (cur_thread _ _ _ _ _ _ Hi) as (th' & E' & Hs & Hc0 & _). rewrite E in E'. injection E' as <-.
  pose proof Hi as [Hr Hsc Hlk Hfx Hipc Hsz]. destruct (running_views _ _ _ E Hs) as (_ & Hv2 & Hv1).
  destruct (c_source _ _ Hipc (current k)) as (src & Hc & Hw); [by rewrite Hv1|]. rewrite Hv1 in Hc.
  assert (Hsrc : exists sth, threads k !! src = Some sth /\ status sth = TASK_STATUS_SUSPEND /\ cont sth = KCall).
  { unfold iview in Hw. destruct (threads k !! src) as [sth|] eqn:Es; [|done]. exists sth. cbn in Hw.
    by apply andb_true_iff in Hw as [H1%bool_decide_eq_true H2%bool_decide_eq_true]. }
  destruct Hsrc as (sth & Es & Hss & Hks). destruct (suspended_not_ready _ _ _ _ _ _ Hsc Es Hss) as (Hq & Hs0 & Hne).
  set (th1 := with_conn th 0). set (k1 := put_thread k (current k) th1).
  assert (E1 : threads k1 !! current k1 = Some th1) by apply lookup_insert_eq.
  assert (Es1 : threads k1 !! src = Some sth) by (cbn; by rewrite lookup_insert_ne).
  assert (Eret : sys_ipc_return k = schedule_to src KServe k1).
  { unfold sys_ipc_return, get_thread. rewrite E. cbn [deref res_bind]. rewrite Hc. cbn [deref res_bind].
    unfold upd_thread, get_thread. by rewrite E. }
  exists src, sth. eexists. do 5 (split; [done|]). split.
  { rewrite Eret. apply (schedule_to_spec src KServe k1 th1 sth E1 Es1 Hne). by rewrite Hks. }
  split_and!; [|done|done|by apply lookup_insert_eq].
  assert (Hins : forall x, <[current k := x]> (threads k1) = <[current k := x]> (threads k)) by (intros; apply insert_insert_eq).
  split; cbn [links threads current atomic conns hashsize waiters chains futex_qs switch_state set_threads set_current set_links];
    change (current k1) with (current k); rewrite ?Hins.
  - apply (repr_switch_to idle k rq wl src); [done|done|]. intros t' Ht'.
    eapply insert_is_Some in Ht'; [|by rewrite lookup_insert_ne by done]. by eapply insert_is_Some in Ht'.
  - by eapply sched_switch_to.
  - eapply lock_inv_ext, Hlk. intros t'. rewrite lview_put. vcases src t'.
    { rewrite (lview_none _ _ _ Es) by (by rewrite Hks). unfold lone. cbn. by rewrite Hks. }
    rewrite lview_put. vcases (current k) t'; [by rewrite (lview_none _ _ _ E) by (by rewrite Hk)|done].
  - eapply futex_inv_ext, Hfx. intros t'. rewrite fview_put. vcases src t'.
    { by rewrite (fview_none _ _ _ Es) by (by rewrite Hks). }
    rewrite fview_put. vcases (current k) t'; [by rewrite (fview_none _ _ _ E) by (by rewrite Hk)|done].
  - eapply ipc_inv_ext; [|apply (ipc_return _ _ (current k) src (ione (with_status sth TASK_STATUS_RUNNING)) Hipc)]; rewrite ?Hv1; try done.
    + intros t'. rewrite iview_put. vcases src t'; [done|]. by rewrite iview_put.
    + by rewrite (iview_at _ _ _ Es).
  - by rewrite !map_size_insert_Some by (eexists; first [rewrite lookup_insert_ne by done; done | done]).
Qed.

(** ** Waiting on a futex *)

(** The waiters of a bucket are threads, each once. *)
Lemma bucket_size idle g k rq wl fl b l :
  kernel_inv idle g k rq wl fl -> fl !! b = Some l -> Z.of_nat (length l) < 2 ^ 31 - 1.
Proof.
  intros Hi Hl. pose proof (k_futex _ _ _ _ _ _ Hi) as Hfx. destruct (f_chain _ _ _ _ _ _ Hfx _ _ Hl) as [[_ Hnd] _].
  pose proof (k_size _ _ _ _ _ _ Hi). enough (length l <= size (threads k))%nat by lia.
  rewrite <- (size_list_to_set (C := gset Z) l) by done. rewrite <- size_dom. apply subseteq_size.
  intros t. rewrite elem_of_list_to_set, elem_of_dom. intros Hin.
  destruct (proj1 (f_mem _ _ _ _ _ _ Hfx b t)) as (vms & q & Hv & _); [eauto|].
  unfold fview in Hv. destruct (threads k !! t); [by eexists|done].
Qed.

Lemma add_head_hashed (t b : Z) (ch : hheap Z Z) : hlist_unhashed t (hlist_add_head t b ch) = false.
Proof.
  unfold hlist_unhashed, hlist_add_head. destruct (hptr ch !! CFirst b) as [x|]; cbn; by rewrite bool_decide_false by (by rewrite lookup_insert_eq).
Qed.

Lemma futex_wait_inv idle g k rq wl fl th uaddr uval val :
  kernel_inv idle g k rq wl fl -> threads k !! current k = Some th -> cont th = KRun -> current k <> idle ->
  exists k' rq' fl', sys_futex_wait uaddr uval val k = Ok k' /\ kernel_inv idle g k' rq' wl fl' /\ moves (current k) rq (current k') rq' /\
    (if decide (uval = val)
     then exists l, fl !! futex_hash (hashsize k) (vmspace th, uaddr) = Some l /\
       fl' = <[futex_hash (hashsize k) (vmspace th, uaddr) := current k :: l]> fl
     else rq' = rq /\ fl' = fl /\ current k' = current k /\ threads k' = threads k).
Proof.
  intros Hi E Hk Hni. destruct (cur_thread _ _ _ _ _ _ Hi) as (th' & E' & Hs & Hc0 & _). rewrite E in E'. injection E' as <-.
  pose proof Hi as [Hr Hsc Hlk Hfx Hipc Hsz]. destruct (running_views _ _ _ E Hs) as (Hf & _ & _).
  set (key := (vmspace th, uaddr)). set (b := futex_hash (hashsize k) key).
  destruct (f_buckets _ _ _ _ _ _ Hfx key) as [l Hl]. fold b in Hl.
  destruct (f_chain _ _ _ _ _ _ Hfx _ _ Hl) as [_ Hw]. pose proof (bucket_size _ _ _ _ _ _ _ _ Hi Hl) as Hsl.
  unfold sys_futex_wait, futex_wait_setup, get_futex_key, get_thread. rewrite E. cbn [deref res_bind].
  assert (Eb : hash_futex (vmspace th, uaddr) k = b) by (unfold hash_futex, b, futex_hash, key; reflexivity).
  rewrite Eb. unfold hb_waiters_add at 1. rewrite Hw. cbn [deref res_bind].
  rewrite s32_small by lia. destruct (decide (uval = val)) as [->|Hne].
  - rewrite Z.eqb_refl. cbn [negb res_bind]. unfold futex_wait_queue_me, upd_thread, get_thread.
    cbn [threads set_futex current]. rewrite E. cbn [deref res_bind]. unfold queue_me. cbn [current put_thread set_threads set_futex futex_qs].
    rewrite lookup_insert_eq. cbn [deref res_bind chains set_futex put_thread set_threads waiters futex_qs q_locked q_key q_bitset].
    rewrite add_head_hashed. cbn [negb]. rewrite insert_insert_eq.
    match goal with |- context [schedule KFutex ?x] => set (k1 := x) end.
    destruct (leave_ok idle KFutex k k1 rq wl (with_status th TASK_STATUS_SUSPEND)) as (k' & rq' & Es & Hleft); try done.
    exists k', rq', (<[b := current k :: l]> fl). split; [done|].
    split; [|split; [apply (la_moves _ _ _ _ _ _ _ _ Hleft)|by exists l]].
    eapply leave_inv; [exact Hi|exact Hleft|exact E|done|done|done|reflexivity|reflexivity|..]; [| |done].
    + eapply lock_inv_ext, Hlk. intros t. symmetry. apply vset_same. rewrite (lview_none _ _ _ E) by (by rewrite Hk).
      unfold lview. by rewrite lookup_singleton_eq.
    + rewrite (fview_at _ _ (left_with (with_status th TASK_STATUS_SUSPEND) KFutex)) by apply lookup_singleton_eq.
      exact (futex_enter _ _ _ _ _ _ (current k) (vmspace th) key l Hfx Hf eq_refl Hl).
  - rewrite (proj2 (Z.eqb_neq _ _) Hne). cbn [negb]. unfold hb_waiters_add. cbn [waiters set_futex]. rewrite lookup_insert_eq.
    cbn [deref res_bind]. rewrite s32_small by lia. rewrite insert_insert_eq.
    eexists _, rq, fl. split; [done|]. split; [|split; [rewrite <- (app_nil_r rq) at 2; constructor|done]].
    split; cbn; try done. rewrite insert_id by (rewrite Hw; f_equal; lia). by apply futex_set_q.
Qed.

(** ** Waking the waiters of a futex *)

Definition fmatch (qs : gmap Z futex_q) (key : Z * Z) (t : Z) : bool :=
  match qs !! t with Some q => match_futex (q_key q) key | None => false end.

(** The fields that [wake_bucket] leaves alone. *)
Definition same_but_futex k k' : Prop :=
  threads k' = threads k /\ current k' = current k /\ atomic k' = atomic k /\ conns k' = conns k /\ hashsize k' = hashsize k.

Lemma wake_list_add h wk t :
  dlist h LWakeHead (LWakeNode <$> wk) -> t ∉ wk ->
  exists h', list_add_tail (LWakeNode t) LWakeHead h = Ok h' /\ dlist h' LWakeHead (LWakeNode <$> (wk ++ [t])) /\ touches is_wake h h'.
Proof.
  intros Hd Ht. destruct (list_add_tail_spec h LWakeHead (LWakeNode <$> wk) (LWakeNode t)) as (h' & E & Hd' & Ho); [done| |].
  - apply fmap_node_notin; [congruence|done|done].
  - exists h'. rewrite fmap_app. split_and!; [done..|]. eapply touches_outside; [done|]. node_kinds.
Qed.

Lemma chain_next_of h (b : Z) (l1 : list Z) (t : Z) (l2 : list Z) :
  hlist h b (l1 ++ t :: l2) -> hptr h !! CNext t = head l2.
Proof. intros [Hc _]. apply hchain_app in Hc as (_ & _ & Hc). destruct l2; [done|by destruct Hc]. Qed.

Lemma mark_wake_spec k v fl hb l1 t l2 wk :
  futex_inv v (hashsize k) (waiters k) (chains k) (futex_qs k) fl -> fl !! hb = Some (l1 ++ t :: l2) ->
  Z.of_nat (length (l1 ++ t :: l2)) < 2 ^ 31 ->
  dlist (links k) LWakeHead (LWakeNode <$> wk) -> t ∉ wk ->
  exists k' q, mark_wake_futex t hb k = Ok k' /\
    futex_inv (vset v t None) (hashsize k) (waiters k') (chains k') (futex_qs k') (<[hb := l1 ++ l2]> fl) /\
    futex_qs k' = <[t := q]> (futex_qs k) /\
    dlist (links k') LWakeHead (LWakeNode <$> (wk ++ [t])) /\ touches is_wake (links k) (links k') /\ same_but_futex k k'.
Proof.
  intros Hf Hl Hlen Hd Hwk. destruct (proj1 (f_mem _ _ _ _ _ _ Hf hb t)) as (vms & q & Hv & Hq & _).
  { exists (l1 ++ t :: l2). split; [done|]. apply elem_of_app. right. by left. }
  destruct (f_q _ _ _ _ _ _ Hf t vms q Hv Hq) as (Htask & Hlock & _ & _).
  destruct (f_chain _ _ _ _ _ _ Hf _ _ Hl) as [[Hch _] Hw].
  destruct (futex_leave v _ _ _ _ fl t hb l1 l2 (mkFutexQ (q_task q) false (q_key q) (q_bitset q)) Hf Hl) as (ch' & Edel & Hf').
  destruct (wake_list_add _ _ _ Hd Hwk) as (h' & Eadd & Hd' & Ht').
  unfold mark_wake_futex, unqueue_futex. rewrite Hq. cbn [deref res_bind]. rewrite Hlock.
  assert (Hun : hlist_unhashed t (chains k) = false).
  { apply hchain_app in Hch as (_ & Hpp & _). unfold hlist_unhashed. by rewrite Hpp, bool_decide_false. }
  rewrite Hun. cbn [negb orb]. rewrite Edel. cbn [res_bind]. unfold hb_waiters_add. cbn [waiters set_futex]. rewrite Hw.
  cbn [deref res_bind]. rewrite length_app in Hlen. cbn [length] in Hlen.
  rewrite s32_small by (rewrite length_app; cbn [length]; lia).
  cbn [futex_qs set_futex]. rewrite Hq. cbn [deref res_bind]. unfold on_links. cbn [links set_futex q_task].
  rewrite Htask, Eadd. eexists _, _. split; [done|]. cbn [waiters chains futex_qs set_futex set_links links].
  split_and!; [|done|done|done|done].
  replace (Z.of_nat (length (l1 ++ t :: l2)) + -1) with (Z.of_nat (length (l1 ++ l2))) by (rewrite !length_app; cbn [length]; lia).
  by rewrite Htask in Hf'.
Qed.

Definition drop_view (v : Z -> option Z) (ms : list Z) : Z -> option Z := fun t => if decide (t ∈ ms) then None else v t.

Lemma wake_bucket_spec key hb qs0 l2 : forall fuel l1 wk k v fl,
  futex_inv v (hashsize k) (waiters k) (chains k) (futex_qs k) fl -> fl !! hb = Some (l1 ++ l2) ->
  Z.of_nat (length (l1 ++ l2)) < 2 ^ 31 -> (length l2 <= fuel)%nat ->
  (forall t, t ∈ l2 -> futex_qs k !! t = qs0 !! t /\ t ∉ wk) ->
  dlist (links k) LWakeHead (LWakeNode <$> wk) ->
  exists k', wake_bucket fuel key hb (head l2) k = Ok k' /\
    futex_inv (drop_view v (filter (fun t => fmatch qs0 key t = true) l2)) (hashsize k) (waiters k') (chains k') (futex_qs k')
      (<[hb := l1 ++ filter (fun t => fmatch qs0 key t = false) l2]> fl) /\
    dlist (links k') LWakeHead (LWakeNode <$> (wk ++ filter (fun t => fmatch qs0 key t = true) l2)) /\
    touches is_wake (links k) (links k') /\ same_but_futex k k'.
Proof.
  induction l2 as [|t l2 IH]; intros fuel l1 wk k v fl Hf Hl Hlen Hfuel Hqs Hd.
  - rewrite app_nil_r in Hl. destruct fuel; (eexists; split; [done|]); rewrite !filter_nil, !app_nil_r, (insert_id fl) by done;
      split_and!; try done; (eapply futex_inv_ext, Hf; intros t; unfold drop_view; rewrite decide_False; [done|apply not_elem_of_nil]).
  - destruct fuel as [|fuel]; [cbn in Hfuel; lia|]. cbn [wake_bucket head].
    destruct (proj1 (f_mem _ _ _ _ _ _ Hf hb t)) as (vms & q & Hv & Hq & _).
    { exists (l1 ++ t :: l2). split; [done|]. apply elem_of_app. right. by left. }
    destruct (f_q _ _ _ _ _ _ Hf t vms q Hv Hq) as (_ & _ & Hbits & _).
    destruct (f_chain _ _ _ _ _ _ Hf _ _ Hl) as [Hh _]. rewrite (chain_next_of _ _ _ _ _ Hh).
    assert (Hnd : t ∉ l1 ++ l2).
    { destruct Hh as [_ Hnd]. rewrite <- Permutation_middle in Hnd. by apply NoDup_cons in Hnd as [? _]. }
    assert (Hnl2 : t ∉ l2) by (intros ?; apply Hnd, elem_of_app; by right).
    destruct (Hqs t (list_elem_of_here _ _)) as [Hqt Hwk]. rewrite Hq in Hqt |- *. cbn [deref res_bind]. rewrite Hbits.
    change (negb (Z.land _ _ =? 0)) with true. rewrite andb_true_r.
    assert (Hm : fmatch qs0 key t = match_futex (q_key q) key) by (unfold fmatch; by rewrite <- Hqt).
    destruct (match_futex (q_key q) key).
    + destruct (mark_wake_spec k v fl hb l1 t l2 wk Hf Hl Hlen Hd Hwk) as (k1 & q1 & E1 & Hf1 & Eq1 & Hd1 & Ht1 & Hs1).
      pose proof Hs1 as (Eth & Ecu & Eat & Eco & Ehs). rewrite E1. cbn [res_bind].
      destruct (IH fuel l1 (wk ++ [t]) k1 (vset v t None) (<[hb := l1 ++ l2]> fl)) as (k' & E' & Hf' & Hd' & Ht' & Hs').
      { by rewrite Ehs. } { apply lookup_insert_eq. } { rewrite length_app in *. cbn in Hlen. lia. } { cbn in Hfuel. lia. }
      { intros t' Hin. rewrite Eq1. rewrite lookup_insert_ne by (intros <-; done). destruct (Hqs t') as [? ?]; [by right|].
        split; [done|]. rewrite elem_of_app, list_elem_of_singleton. intros [?| ->]; done. }
      { done. }
      exists k'. split; [done|]. rewrite (filter_cons_True (fun t => fmatch qs0 key t = true)) by done.
      rewrite (filter_cons_False (fun t => fmatch qs0 key t = false)) by (rewrite Hm; done).
      rewrite insert_insert_eq in Hf'. rewrite Ehs in Hf'. split_and!.
      * eapply futex_inv_ext, Hf'. intros t'. unfold drop_view. vcases t t'.
        { rewrite (decide_True (P := t ∈ t :: _)) by (by left). by destruct (decide _). }
        destruct (decide (t' ∈ filter _ l2)) as [Hin|Hin]; [by rewrite decide_True by (by right)|].
        rewrite decide_False; [done|]. intros Hc. by apply elem_of_cons in Hc as [|].
      * by rewrite <- app_assoc in Hd'.
      * by eapply touches_trans.
      * destruct Hs' as (? & ? & ? & ? & ?). unfold same_but_futex. split_and!; congruence.
    + cbn [res_bind]. destruct (IH fuel (l1 ++ [t]) wk k v fl) as (k' & E' & Hf' & Hd' & Ht' & Hs').
      { done. } { by rewrite <- app_assoc. } { by rewrite <- app_assoc. } { cbn in Hfuel. lia. }
      { intros t' Hin. apply Hqs. by right. } { done. }
      exists k'. split; [done|]. rewrite (filter_cons_False (fun t => fmatch qs0 key t = true)) by (rewrite Hm; done).
      rewrite (filter_cons_True (fun t => fmatch qs0 key t = false)) by done. rewrite <- app_assoc in Hf'. done.
Qed.

(** The threads of the list become ready. *)
Definition ready_all wk ths : gmap Z thread_t :=
  foldl (fun ths t => alter (fun th => with_status th TASK_STATUS_READY) t ths) ths wk.

Lemma ready_all_cons t wk ths :
  ready_all (t :: wk) ths = ready_all wk (alter (fun th => with_status th TASK_STATUS_READY) t ths).
Proof. done. Qed.

Lemma ready_all_lookup wk ths t :
  ready_all wk ths !! t = if decide (t ∈ wk) then (fun th => with_status th TASK_STATUS_READY) <$> ths !! t else ths !! t.
Proof.
  revert ths. induction wk as [|x wk IH]; intros ths.
  - by rewrite decide_False by apply not_elem_of_nil.
  - rewrite ready_all_cons, IH.
    destruct (decide (t = x)) as [->|Hne].
    + rewrite lookup_alter_eq, (decide_True (P := x ∈ x :: wk)) by (by left). destruct (decide (x ∈ wk)); [|done].
      by destruct (ths !! x).
    + rewrite lookup_alter_ne by done. destruct (decide (t ∈ wk)) as [Hin|Hin].
      * by rewrite decide_True by (by right).
      * rewrite decide_False; [done|]. intros Hc. by apply elem_of_cons in Hc as [|].
Qed.

Lemma ready_all_alter t th wk ths :
  ths !! t = Some th -> ready_all (t :: wk) ths = ready_all wk (<[t := with_status th TASK_STATUS_READY]> ths).
Proof. intros E. rewrite ready_all_cons. f_equal. apply map_eq. intros x. destruct (decide (x = t)) as [->|]; by simplify_map_eq. Qed.

Lemma resume_all_spec idle wl wk : forall fuel k rq,
  repr (links k) (threads k) rq wl -> sched_inv idle (threads k) (current k) rq ->
  dlist (links k) LWakeHead (LWakeNode <$> wk) -> (length wk <= fuel)%nat ->
  (forall t, t ∈ wk -> exists th, threads k !! t = Some th /\ status th = TASK_STATUS_SUSPEND) ->
  exists h', resume_all fuel (first_of (LWakeNode <$> wk) LWakeHead) k = Ok (set_threads (set_links k h') (ready_all wk (threads k))) /\
    repr h' (ready_all wk (threads k)) (rq ++ wk) wl /\ sched_inv idle (ready_all wk (threads k)) (current k) (rq ++ wk).
Proof.
  induction wk as [|t wk IH]; intros fuel k rq Hr Hs Hd Hf Hst.
  - exists (links k). rewrite app_nil_r. split_and!; [|done|done]. destruct fuel, k; done.
  - destruct fuel as [|fuel]; [cbn in Hf; lia|]. change (first_of (LWakeNode <$> t :: wk) LWakeHead) with (LWakeNode t). cbn [resume_all].
    destruct (Hst t) as (th & E & Hss); [by left|]. destruct (suspended_not_ready _ _ _ _ _ _ Hs E Hss) as (Hq & H0 & Hne).
    pose proof (dlist_NoDup _ _ _ Hd) as Hnd. cbn [fmap list_fmap] in Hd. unfold get_next.
    rewrite (dlist_next _ _ [] _ _ Hd). cbn [deref res_bind].
    destruct (list_del_init_spec _ _ [] _ _ Hd) as (h1 & E1 & Hd1 & _ & Ho1). unfold on_links. rewrite E1. cbn [res_bind app] in *.
    assert (Ht1 : touches is_wake (links k) h1) by (eapply touches_outside; [exact Ho1|node_kinds]).
    destruct (resume_spec t (set_links k h1) rq wl th) as (h2 & Hr2 & Er); try done.
    { cbn. by eapply repr_touch_wake. }
    rewrite Er. cbn [res_bind]. set (k2 := set_links _ h2).
    assert (Hr2' : touches is_ready h1 h2).
    { unfold thread_resume, get_thread in Er. rewrite (proj2 (Z.eqb_neq _ _) H0) in Er. cbn in Er. rewrite E in Er. cbn in Er.
      rewrite Hss, bool_decide_true in Er by done. unfold scheduler_enqueue_task, on_links in Er. cbn in Er.
      destruct (list_add_tail_spec h1 LReady (LReadyNode <$> rq) (LReadyNode t)) as (h3 & E3 & _ & Ho3).
      { apply (r_ready _ _ _ _ (repr_touch_wake _ _ _ _ _ Ht1 Hr)). } { apply fmap_node_notin; [congruence|done|done]. }
      rewrite E3 in Er. cbn in Er. injection Er as <-. eapply touches_outside; [exact Ho3|node_kinds]. }
    destruct (IH fuel k2 (rq ++ [t])) as (h' & E' & Hr' & Hs').
    { done. } { by apply sched_resume. }
    { cbn. eapply dlist_touches; [exact Hr2'| |exact Hd1]. node_kinds. } { cbn in Hf. lia. }
    { intros t' Hin. destruct (Hst t') as (th' & E' & Hs'); [by right|]. exists th'. cbn. rewrite lookup_insert_ne; [done|].
      intros <-. apply NoDup_cons in Hnd as [_ Hnd]. apply NoDup_cons in Hnd as [Hnt _]. apply Hnt, list_elem_of_fmap. eauto. }
    exists h'. rewrite (ready_all_alter t th) by done. rewrite <- app_assoc in Hr', Hs'. cbn in Hr', Hs'. done.
Qed.

Lemma list_head_fmap (f : Z -> kloc) (wk : list Z) (a : kloc) : first_of (f <$> wk) a = match wk with [] => a | t :: _ => f t end.
Proof. by destruct wk. Qed.

Lemma futex_wake_inv idle g k rq wl fl th uaddr l :
  kernel_inv idle g k rq wl fl -> threads k !! current k = Some th ->
  fl !! futex_hash (hashsize k) (vmspace th, uaddr) = Some l ->
  let ms := filter (fun t => fmatch (futex_qs k) (vmspace th, uaddr) t = true) l in
  exists k', sys_futex_wake uaddr k = Ok k' /\
    kernel_inv idle g k' (rq ++ ms) wl
      (<[futex_hash (hashsize k) (vmspace th, uaddr) := filter (fun t => fmatch (futex_qs k) (vmspace th, uaddr) t = false) l]> fl) /\
    current k' = current k /\ threads k' = ready_all ms (threads k).
Proof.
  intros Hi E Hl ms. pose proof Hi as [Hr Hsc Hlk Hfx Hipc Hsz]. set (key := (vmspace th, uaddr)) in *.
  set (b := futex_hash (hashsize k) key) in *. pose proof (bucket_size _ _ _ _ _ _ _ _ Hi Hl) as Hsl.
  destruct (f_chain _ _ _ _ _ _ Hfx _ _ Hl) as [[Hch Hnd] Hw].
  unfold sys_futex_wake, get_futex_key, get_thread. cbn [threads current set_links]. rewrite E. cbn [deref res_bind].
  set (k0 := set_links k _).
  assert (Eb : hash_futex (vmspace th, uaddr) k0 = b) by (unfold hash_futex, b, futex_hash, key; reflexivity). rewrite Eb.
  change (waiters k0) with (waiters k). rewrite Hw. cbn [deref res_bind].
  assert (Ht0 : touches is_wake (links k) (links k0)) by (eapply touches_outside; [apply init_same_outside|node_kinds]).
  assert (Hd0 : dlist (links k0) LWakeHead []) by apply dlist_init.
  assert (Hr0 : repr (links k0) (threads k) rq wl) by (by eapply repr_touch_wake).
  destruct (Z.eqb_spec (Z.of_nat (length l)) 0) as [Hz|Hnz].
  { destruct l as [|x l]; [|cbn in Hz; lia]. exists k0. split; [done|]. unfold ms. rewrite !filter_nil, app_nil_r, (insert_id fl) by done.
    split_and!; [|done|done]. split; cbn; done. }
  assert (Hfirst : hptr (chains k0) !! CFirst b = head l) by (destruct l; [done|by destruct Hch]). rewrite Hfirst.
  assert (Hfuel : (length l <= size (futex_qs k0))%nat).
  { rewrite <- (size_list_to_set (C := gset Z) l) by done. rewrite <- size_dom. apply subseteq_size.
    intros t. rewrite elem_of_list_to_set, elem_of_dom. intros Hin.
    destruct (proj1 (f_mem _ _ _ _ _ _ Hfx b t)) as (? & q & _ & Hq & _); [eauto|]. cbn. by rewrite Hq. }
  destruct (wake_bucket_spec key b (futex_qs k) l (size (futex_qs k0)) [] [] k0 (fview (threads k)) fl) as (k1 & E1 & Hf1 & Hd1 & Ht1 & Hs1); try done.
  { change (Z.of_nat (length l) < 2 ^ 31). lia. }
  { intros t Hin. split; [done|apply not_elem_of_nil]. }
  change (vmspace th, uaddr) with key. rewrite E1. cbn [res_bind]. cbn [app] in Hd1. destruct Hs1 as (Eth & Ecu & Eat & Eco & Ehs).
  unfold get_next. rewrite (dlist_first _ _ _ Hd1). cbn [deref res_bind].
  destruct (resume_all_spec idle wl ms (size (futex_qs k0)) k1 rq) as (h' & E' & Hr' & Hs').
  { rewrite Eth. eapply repr_touch_wake; [exact Ht1|exact Hr0]. } { by rewrite Eth, Ecu. } { done. }
  { etrans; [apply length_filter|done]. }
  { intros t Hin. apply list_elem_of_filter in Hin as [_ Hin].
    destruct (proj1 (f_mem _ _ _ _ _ _ Hfx b t)) as (? & q & Hv & _); [eauto|]. rewrite Eth. cbn. unfold fview in Hv.
    destruct (threads k !! t) as [th'|]; [|done]. exists th'. split; [done|].
    destruct (bool_decide_reflect (status th' = TASK_STATUS_SUSPEND)); done. }
  fold ms. rewrite E'. eexists. split; [done|]. rewrite Eth in *. cbn in Ecu, Ehs, Eat, Eco.
  assert (Hone : forall t th', t ∈ ms -> threads k !! t = Some th' -> status th' = TASK_STATUS_SUSPEND /\ cont th' = KFutex).
  { intros t th' Hin Et. apply list_elem_of_filter in Hin as [_ Hin].
    destruct (proj1 (f_mem _ _ _ _ _ _ Hfx b t)) as (? & q & Hv & _); [eauto|]. rewrite (fview_at _ _ _ Et) in Hv. unfold fone in Hv.
    destruct (bool_decide_reflect (status th' = TASK_STATUS_SUSPEND)), (bool_decide_reflect (cont th' = KFutex)); done. }
  split_and!; [|by cbn|done]. split; cbn.
  - done.
  - by rewrite Ecu in Hs' |- *.
  - rewrite Eat. eapply lock_inv_ext, Hlk. intros t. unfold lview. rewrite ready_all_lookup. destruct (decide (t ∈ ms)) as [Hin|]; [|done].
    destruct (threads k !! t) as [th'|] eqn:Et; [|done]. destruct (Hone _ _ Hin Et) as [_ Hk]. cbn. by rewrite Hk.
  - rewrite Ehs. eapply futex_inv_ext, Hf1. intros t. unfold drop_view. fold ms. unfold fview. rewrite ready_all_lookup.
    destruct (decide (t ∈ ms)); [|done]. by destruct (threads k !! t).
  - rewrite Eco. eapply ipc_inv_ext, Hipc. intros t. unfold iview. rewrite ready_all_lookup. destruct (decide (t ∈ ms)) as [Hin|]; [|done].
    destruct (threads k !! t) as [th'|] eqn:Et; [|done]. destruct (Hone _ _ Hin Et) as [_ Hk]. cbn.
    rewrite !(bool_decide_false (cont th' = KCall)) by (rewrite Hk; done). by rewrite !andb_false_r.
  - replace (size (ready_all ms (threads k))) with (size (threads k)); [done|]. rewrite <- !size_dom. f_equal. apply set_eq.
    intros t. rewrite !elem_of_dom, ready_all_lookup. destruct (decide (t ∈ ms)); [|done]. by rewrite fmap_is_Some.
Qed.
