(* ===== verification/SchedTheorems.v ===== *)
(** * SchedTheorems: what the kernel guarantees to its threads

    Runs of the kernel from [boot]: the running thread calls one operation after the
    other, and what it was doing when it lost the processor goes on when it is switched to
    again.  Every run that keeps to the protocol of the callers ([event_ok]) is free of
    panics and of undefined behaviour, and keeps [kernel_ok]. *)

From S2P Require Import Prelude ListHead Hlist Jhash Sched SchedLists SchedInv SchedSteps SchedProof SchedCalls.

Implicit Types (ths : gmap Z thread_t) (rq l : list Z) (wl fl : gmap Z (list Z)) (k : kernel) (t m cur : Z).

#[local] Opaque jhash2.

(** ** Events *)

Inductive event :=
| Continue                        (* the thread that was switched to goes on *)
| Lock (m : Z) | Unlock (m : Z) | Down (m : Z) | Up (m : Z)
| Yield | Exit | Sleep
| FutexWait (uaddr uval val : Z) | FutexWake (uaddr : Z)
| Resched                         (* work_pending, and the loop of main *)
| Call (c : Z) | Return
| Tick | SleepTimer (t : Z)       (* interrupts *)
| Create (t vms : Z) | Start (t : Z)
| MutexInit (m : Z) | SemInit (m n : Z)
| Connect (c t vms : Z).

#[export] Instance event_eq_dec : EqDecision event.
Proof. solve_decision. Defined.

Definition run_event (e : event) k : res kernel :=
  match e with
  | Continue => continue_ k
  | Lock m => mutex_lock m k
  | Unlock m => mutex_unlock m k
  | Down m => semaphore_down m k
  | Up m => semaphore_up m k
  | Yield => sys_yield k
  | Exit => sys_thread_exit k
  | Sleep => sys_nanosleep k
  | FutexWait uaddr uval val => sys_futex_wait uaddr uval val k
  | FutexWake uaddr => sys_futex_wake uaddr k
  | Resched => schedule KReturn k
  | Call c => thread_migrate_to_server c k
  | Return => sys_ipc_return k
  | Tick => sched_timer_function k
  | SleepTimer t => sleep_callback t k
  | Create t vms => Ok (thread_create t vms k)
  | Start t => thread_resume t k
  | MutexInit m => Ok (mutex_init m k)
  | SemInit m n => Ok (semaphore_init m n k)
  | Connect c t vms => Ok (create_connection c t vms k)
  end.

Definition blocking (e : event) : bool :=
  match e with Lock _ | Down _ | Yield | Exit | Sleep | FutexWait _ _ _ | Call _ | Return => true | _ => false end.

Definition new_thread_ok k t : Prop := threads k !! t = None /\ t <> 0 /\ Z.of_nat (size (threads k)) < 2 ^ 31 - 2.

(** The protocol of the callers: the idle thread does not block, a mutex is unlocked by
    its holder, objects are fresh when they are created, a connection is used by one
    client at a time. *)
Definition event_ok (idle : Z) (g : ghost) (e : event) k : Prop :=
  exists th, threads k !! current k = Some th /\
  match e with Continue => cont th <> KRun | _ => cont th = KRun end /\
  (blocking e = true -> current k <> idle) /\
  match e with
  | Lock m => m ∈ mutexes g
  | Unlock m => held g !! m = Some (current k)
  | Down m => (m ∉ mutexes g) /\ is_Some (atomic k !! m)
  | Up m => (m ∉ mutexes g) /\ exists v, atomic k !! m = Some v /\ v + 1 < 2 ^ 31
  | Call c => c <> 0 /\ exists conn tht, conns k !! c = Some conn /\ threads k !! target conn = Some tht /\
      status tht = TASK_STATUS_SUSPEND /\ (cont tht = KNew \/ cont tht = KServe) /\ active_conn tht = 0
  | Return => active_conn th <> 0
  | SleepTimer t => exists tht, threads k !! t = Some tht /\ status tht = TASK_STATUS_SUSPEND /\ cont tht = KSleep
  | Start t => exists tht, threads k !! t = Some tht /\ status tht = TASK_STATUS_SUSPEND /\ cont tht = KNew
  | Create t _ => new_thread_ok k t
  | MutexInit m => atomic k !! m = None
  | SemInit m n => atomic k !! m = None /\ 0 <= n < 2 ^ 31
  | Connect c t _ => new_thread_ok k t /\ conns k !! c = None
  | _ => True
  end.

(** The mutex a thread tries: in the call, or when it goes on after it waited. *)
Definition tries (e : event) k : option Z :=
  match e with
  | Lock m => Some m
  | Continue => match threads k !! current k with
                | Some th => match cont th with KMutex m => Some m | _ => None end
                | None => None
                end
  | _ => None
  end.

(** The thread still runs, and is back in its own code. *)
Definition returned k k' : bool :=
  bool_decide (current k' = current k) &&
  match threads k' !! current k' with Some th => bool_decide (cont th = KRun) | None => false end.

(** Who holds what after [e]: a lock that returned is held by its caller. *)
Definition ghost_step (e : event) (g : ghost) k k' : ghost :=
  match e with
  | Unlock m => released g m
  | MutexInit m => mkGhost (held g) ({[m]} ∪ mutexes g)
  | _ => match tries e k with
         | Some m => if returned k k' then mkGhost (<[m := current k]> (held g)) (mutexes g) else g
         | None => g
         end
  end.

(** The thread that [schedule] took from the ready queue. *)
Definition dispatched (e : event) k k' : list Z :=
  match e with
  | Call _ | Return => []
  | _ => if decide (current k' = current k) then [] else [current k']
  end.

(** Runs, with the threads they dispatch. *)
Inductive runs (idle : Z) : ghost -> kernel -> list event -> list Z -> ghost -> kernel -> Prop :=
| runs_nil g k : runs idle g k [] [] g k
| runs_cons g k e k1 es ds g' k' :
    event_ok idle g e k -> run_event e k = Ok k1 ->
    runs idle (ghost_step e g k k1) k1 es ds g' k' ->
    runs idle g k (e :: es) (dispatched e k k1 ++ ds) g' k'.

Definition no_locks : ghost := mkGhost ∅ ∅.

(** The states of the kernel. *)
Definition reachable (idle : Z) (g : ghost) k : Prop :=
  exists vms es ds, idle <> 0 /\ runs idle no_locks (boot idle vms) es ds g k.

(** ** The start *)

Lemma foldl_insert_lookup {A} (x : A) (ids : list Z) (w : gmap Z A) b :
  foldl (fun w i => <[i := x]> w) w ids !! b = if decide (b ∈ ids) then Some x else w !! b.
Proof.
  revert w. induction ids as [|i ids IH]; intros w; cbn; [by rewrite decide_False by apply not_elem_of_nil|].
  rewrite IH. destruct (decide (b ∈ ids)) as [Hin|Hin]; [by rewrite decide_True by (by right)|].
  destruct (decide (b = i)) as [->|Hne].
  - by rewrite lookup_insert_eq, decide_True by (by left).
  - rewrite lookup_insert_ne, decide_False by (rewrite ?elem_of_cons; naive_solver). done.
Qed.

Lemma init_buckets_empty (ids : list Z) (c : hheap Z Z) b :
  hptr c !! CFirst b = None -> hlist (foldl (fun c i => init_hlist_head i c) c ids) b [].
Proof.
  intros Hc. split; [|constructor]. revert c Hc. induction ids as [|i ids IH]; intros c Hc; [done|]. cbn [foldl]. apply IH.
  unfold init_hlist_head. cbn. destruct (decide (b = i)) as [->|Hne]; [apply lookup_delete_eq|].
  rewrite lookup_delete_ne; [done|congruence].
Qed.

Definition empty_buckets : gmap Z (list Z) := foldl (fun w i => <[i := []]> w) ∅ (seqZ 0 256).

Lemma futex_init_inv v :
  (forall t, v t = None) ->
  futex_inv v 256 (foldl (fun w i => <[i := 0]> w) ∅ (seqZ 0 256))
    (foldl (fun c i => init_hlist_head i c) (mk_hheap ∅ ∅) (seqZ 0 256)) ∅ empty_buckets.
Proof.
  intros Hv. assert (Hb : forall b l, empty_buckets !! b = Some l -> b ∈ seqZ 0 256 /\ l = []).
  { intros b l E. unfold empty_buckets in E. rewrite foldl_insert_lookup in E. by destruct (decide _); simplify_eq. }
  split.
  - intros b l E. destruct (Hb _ _ E) as [Hin ->]. split; [by apply init_buckets_empty|].
    by rewrite foldl_insert_lookup, decide_True.
  - intros key. unfold empty_buckets. rewrite foldl_insert_lookup, decide_True; [by eexists|].
    apply elem_of_seqZ. unfold futex_hash. change (256 - 1) with (Z.ones 8). rewrite Z.land_ones by lia.
    pose proof (Z.mod_pos_bound (jhash2 (key_words key) 0) (2 ^ 8)). lia.
  - intros b t. split; [|intros (? & ? & E & _); by rewrite Hv in E].
    intros (l & E & Hin). apply Hb in E as [_ ->]. by apply not_elem_of_nil in Hin.
  - intros t vms q E. by rewrite Hv in E.
  - intros t vms E. by rewrite Hv in E.
Qed.

Lemma boot_inv idle vms : idle <> 0 -> kernel_inv idle no_locks (boot idle vms) [] ∅ empty_buckets.
Proof.
  intros H0. unfold boot, do_task_init, thread_create, do_futex_init.
  split; cbn [links threads current atomic conns hashsize waiters chains futex_qs put_thread set_threads set_current set_links].
  - rewrite insert_insert_eq. apply thread_new; [|apply not_elem_of_nil|intros (? & ? & E & _); by rewrite lookup_empty in E].
    split; [apply dlist_init|done|intros t [? E]; by rewrite lookup_empty in E|done].
  - rewrite insert_insert_eq. split.
    + by rewrite lookup_insert_ne.
    + eexists. by rewrite lookup_insert_eq.
    + intros t. split; [intros Hin; by apply not_elem_of_nil in Hin|]. intros (Hne & th & E & _).
      by rewrite lookup_insert_ne in E by done.
    + intros t th E _. destruct (decide (t = idle)); [done|]. by rewrite lookup_insert_ne in E by done.
    + intros t th E. thread_cases; [|by rewrite lookup_empty in E]. done.
    + eexists. rewrite lookup_insert_eq. split_and!; [done|by right|by left].
  - rewrite insert_insert_eq. split.
    + intros m t. split; [intros (? & E & _); by rewrite lookup_empty in E|]. intros [b E]. rewrite lview_put in E.
      vcases idle t; done.
    + intros m. by rewrite !lookup_empty.
    + intros t m b s E. rewrite lview_put in E. vcases idle t; done.
    + intros m Hm. by apply not_elem_of_empty in Hm.
    + intros m [? E]. cbn in E; by rewrite lookup_empty in E.
    + intros m c E. by rewrite lookup_empty in E.
    + intros m c l E. by rewrite lookup_empty in E.
  - rewrite insert_insert_eq. apply futex_init_inv. intros t. rewrite fview_put. vcases idle t; done.
  - rewrite insert_insert_eq. split; intros t; rewrite iview_put; vcases idle t; try done.
  - rewrite insert_insert_eq. rewrite map_size_insert_None by done. rewrite map_size_empty. lia.
Qed.

(** ** One event *)

Definition step_ok (idle : Z) g (e : event) k rq : Prop :=
  exists k' rq' wl' fl', run_event e k = Ok k' /\ kernel_inv idle (ghost_step e g k k') k' rq' wl' fl' /\
    exists l, rq ++ l = dispatched e k k' ++ rq'.

Lemma dispatch_moves cur rq cur' rq' :
  moves cur rq cur' rq' -> cur ∉ rq -> exists l, rq ++ l = (if decide (cur' = cur) then [] else [cur']) ++ rq'.
Proof.
  intros [l|l n rq1 E] Hc; [exists l; by rewrite decide_True|]. destruct (decide (n = cur)) as [->|]; [|by exists l].
  destruct rq as [|x rq]; [by exists rq1|]. cbn in E. injection E as -> _. by destruct (Hc (list_elem_of_here _ _)).
Qed.

(** An event that switches threads only by [schedule] and gives nobody a mutex. *)
Lemma step_moves idle g e k rq wl fl k' rq' wl' fl' :
  kernel_inv idle g k rq wl fl -> run_event e k = Ok k' -> ghost_step e g k k' = g ->
  dispatched e k k' = (if decide (current k' = current k) then [] else [current k']) ->
  kernel_inv idle g k' rq' wl' fl' -> moves (current k) rq (current k') rq' -> step_ok idle g e k rq.
Proof.
  intros Hi Er Eg Ed Hi' Hm. exists k', rq', wl', fl'. rewrite Eg, Ed. split_and!; [done|done|].
  eapply dispatch_moves; [done|]. eapply sched_cur_not_ready, Hi.
Qed.

(** An event that keeps the running thread and may wake others. *)
Lemma step_stay idle g e k rq wl fl k' rq' wl' fl' :
  run_event e k = Ok k' -> kernel_inv idle (ghost_step e g k k') k' rq' wl' fl' ->
  current k' = current k -> (exists l, rq' = rq ++ l) -> dispatched e k k' = (if decide (current k' = current k) then [] else [current k']) ->
  kernel_inv idle g k rq wl fl -> step_ok idle g e k rq.
Proof.
  intros Er Hi' Ec [l ->] Ed _. exists k', (rq ++ l), wl', fl'. rewrite Ed, decide_True by done. split_and!; [done|done|by exists l].
Qed.

Lemma lock_outcome idle g e k rq wl fl th m :
  kernel_inv idle g k rq wl fl -> threads k !! current k = Some th -> current k <> idle ->
  (cont th = KRun \/ cont th = KMutex m) -> m ∈ mutexes g -> run_event e k = mutex_lock m k -> tries e k = Some m ->
  exists k' rq' wl', run_event e k = Ok k' /\ moves (current k) rq (current k') rq' /\
    kernel_inv idle (ghost_step e g k k') k' rq' wl' fl /\
    match held g !! m with
    | None => returned k k' = true /\ ghost_step e g k k' = mkGhost (<[m := current k]> (held g)) (mutexes g)
    | Some _ => returned k k' = false /\ ghost_step e g k k' = g /\ lview (threads k') (current k) = Some (m, true, true)
    end.
Proof.
  intros Hi E Hni Hk Hm Er Et.
  assert (Eg : forall k', ghost_step e g k k' = if returned k k' then mkGhost (<[m := current k]> (held g)) (mutexes g) else g).
  { intros k'. destruct e; try done; cbn [ghost_step]; by rewrite Et. }
  destruct (mutex_lock_inv _ _ _ _ _ _ _ _ Hi E Hni Hk Hm) as (k' & rq' & wl' & Ek & Hmv & Hout).
  exists k', rq', wl'. rewrite Er. split_and!; [done|done|..]; rewrite Eg; unfold returned; destruct (held g !! m) as [o|].
  2,4: destruct Hout as (Hi' & Ec & Eth); rewrite Ec, Eth, lookup_insert_eq, bool_decide_true by done; done.
  all: destruct Hout as [Hi' Hv]; destruct (cur_thread _ _ _ _ _ _ Hi') as (th' & E' & Hs' & _);
    assert (current k' <> current k) by (intros Ec; rewrite Ec in E'; unfold lview in Hv; rewrite E', Hs' in Hv; by destruct (cont th'));
    by rewrite bool_decide_false.
Qed.

Lemma step_lock idle g e k rq wl fl th m :
  kernel_inv idle g k rq wl fl -> threads k !! current k = Some th -> current k <> idle ->
  (cont th = KRun \/ cont th = KMutex m) -> m ∈ mutexes g -> run_event e k = mutex_lock m k -> tries e k = Some m ->
  (forall k', dispatched e k k' = if decide (current k' = current k) then [] else [current k']) -> step_ok idle g e k rq.
Proof.
  intros Hi E Hni Hk Hm Er Et Hd. destruct (lock_outcome idle g e k rq wl fl th m) as (k' & rq' & wl' & Ek & Hmv & Hi' & _); try done.
  exists k', rq', wl', fl. rewrite Hd. split_and!; [done|done|]. eapply dispatch_moves; [done|]. eapply sched_cur_not_ready, Hi.
Qed.

Lemma step_down idle g e k rq wl fl th m :
  kernel_inv idle g k rq wl fl -> threads k !! current k = Some th -> current k <> idle ->
  (cont th = KRun \/ cont th = KSem m) -> m ∉ mutexes g -> is_Some (atomic k !! m) -> run_event e k = semaphore_down m k ->
  (forall k', ghost_step e g k k' = g) ->
  (forall k', dispatched e k k' = if decide (current k' = current k) then [] else [current k']) -> step_ok idle g e k rq.
Proof.
  intros Hi E Hni Hk Hm [v Ha] Er Eg Hd.
  destruct (semaphore_down_inv _ _ _ _ _ _ _ _ _ Hi E Hni Hk Hm Ha) as (k' & rq' & wl' & Ek & Hi' & Hmv & _).
  eapply step_moves; eauto. by rewrite Er.
Qed.

(** The running thread changes in nothing that the parts see. *)
Lemma touch_cur_inv idle g k rq wl fl th th' :
  kernel_inv idle g k rq wl fl -> threads k !! current k = Some th ->
  status th' = status th -> active_conn th' = active_conn th -> cont th' <> KDead ->
  (current k = idle -> cont th' = KRun \/ cont th' = KReturn) -> lone th' = lone th ->
  kernel_inv idle g (put_thread k (current k) th') rq wl fl.
Proof.
  intros Hi E Hs Ha Hd Hid Hl. destruct (cur_thread _ _ _ _ _ _ Hi) as (th0 & E0 & Hs0 & _). rewrite E in E0. injection E0 as <-.
  destruct (running_views _ _ _ E Hs0) as (Hf & Hv2 & Hv1). destruct Hi as [Hr Hsc Hlk Hfx Hipc Hsz]. split; cbn.
  - eapply repr_threads, Hr. intros t Ht. by eapply insert_is_Some in Ht.
  - apply sched_set_cur; [done|by rewrite Hs|done|done].
  - eapply lock_inv_ext, Hlk. intros t. rewrite lview_put. symmetry. apply vset_same. by rewrite (lview_at _ _ _ E).
  - eapply futex_inv_ext, Hfx. intros t. rewrite fview_put. symmetry. apply vset_same. rewrite Hf. unfold fone. by rewrite Hs, Hs0.
  - eapply ipc_inv_ext, Hipc. intros t. rewrite iview_put. symmetry. apply vset_same. rewrite (iview_at _ _ _ E). unfold ione.
    by rewrite Ha, Hs, Hs0.
  - by rewrite (size_insert_thread _ _ _ _ E).
Qed.

Lemma step_continue idle g k rq wl fl : kernel_inv idle g k rq wl fl -> event_ok idle g Continue k -> step_ok idle g Continue k rq.
Proof.
  intros Hi (th & E & Hk & _). destruct (cur_thread _ _ _ _ _ _ Hi) as (th' & E' & Hs & H0 & Hkd). rewrite E in E'. injection E' as <-.
  assert (Hni : cont th <> KReturn -> current k <> idle).
  { intros Hkr Eq. destruct (s_idle _ _ _ _ (k_sched _ _ _ _ _ _ Hi)) as (thi & Ei & _ & Hki). rewrite <- Eq, E in Ei. injection Ei as <-.
    by destruct Hki. }
  assert (Hrun : run_event Continue k = match cont th with
    | KRun => Ok k | KMutex m => mutex_lock m k | KSem m => semaphore_down m k
    | KFutex => let* k := upd_thread k (current k) (fun th => with_status th TASK_STATUS_RUNNING) in returns k
    | KDead => Panic | _ => returns k end) by (cbn; unfold continue_, get_thread; by rewrite E).
  assert (Hret : (forall m, cont th <> KMutex m /\ cont th <> KSem m) -> run_event Continue k = returns k -> step_ok idle g Continue k rq).
  { intros Hnl Er.
    assert (Ek : returns k = Ok (put_thread k (current k) (with_cont th KRun))) by (unfold returns, upd_thread, get_thread; by rewrite E).
    rewrite Ek in Er. eapply step_stay; [exact Er| |done|exists []; by rewrite app_nil_r|done|exact Hi].
    replace (ghost_step _ _ _ _) with g.
    - eapply touch_cur_inv; [exact Hi|exact E|done|done|done|by left|]. rewrite <- (lview_at _ _ _ E). by rewrite (lview_none _ _ _ E).
    - cbn. rewrite E. destruct (cont th) eqn:Ec; try done. by destruct (Hnl m). }
  destruct (cont th) as [| | |m|m| | | | |] eqn:Ek; try (by apply Hret; [done|rewrite Hrun]); try done.
  - destruct (l_kind _ _ _ _ (k_lock _ _ _ _ _ _ Hi) (current k) m true false) as [_ Hm].
    { rewrite (lview_at _ _ _ E). unfold lone. by rewrite Ek, Hs. }
    eapply step_lock; [exact Hi|exact E|by apply Hni|by right; rewrite Ek|by apply Hm|done| |done]. cbn. by rewrite E, Ek.
  - destruct (l_kind _ _ _ _ (k_lock _ _ _ _ _ _ Hi) (current k) m false false) as [Ha Hm].
    { rewrite (lview_at _ _ _ E). unfold lone. by rewrite Ek, Hs. }
    eapply step_down; [exact Hi|exact E|by apply Hni|by right|intros Hin; by apply Hm in Hin|done|done| |done].
    intros k'. cbn. by rewrite E, Ek.
  - apply Hret; [done|]. rewrite Hrun. unfold upd_thread, get_thread. rewrite E. cbn [deref res_bind]. f_equal.
    unfold put_thread. rewrite insert_id; [by destruct k|]. rewrite E. f_equal. destruct th. cbn in *. by subst.
Qed.

Lemma step_plain idle g e k rq wl fl th th1 c :
  kernel_inv idle g k rq wl fl -> threads k !! current k = Some th -> cont th = KRun ->
  run_event e k = schedule c (put_thread k (current k) th1) ->
  active_conn th1 = active_conn th -> status th1 <> TASK_STATUS_READY ->
  (c = KSleep \/ c = KReturn \/ c = KDead) -> (c = KDead <-> status th1 = TASK_STATUS_EXIT) ->
  (current k = idle -> status th1 = TASK_STATUS_RUNNING /\ c = KReturn) ->
  (forall k', ghost_step e g k k' = g) ->
  (forall k', dispatched e k k' = if decide (current k' = current k) then [] else [current k']) -> step_ok idle g e k rq.
Proof.
  intros Hi E Hk Er H1 H2 H3 H4 H5 Hg Hd.
  destruct (leave_plain _ _ _ _ _ _ _ _ _ Hi E Hk H1 H2 H3 H4 H5) as (k' & rq' & Es & Hi' & Hm & _).
  eapply step_moves; eauto. by rewrite Er.
Qed.

Lemma new_thread_inv idle g k rq wl fl t vms :
  kernel_inv idle g k rq wl fl -> new_thread_ok k t -> kernel_inv idle g (thread_create t vms k) rq wl fl.
Proof.
  intros [Hr Hsc Hlk Hfx Hipc Hsz] (Et & H0 & Hb). split; cbn.
  - apply thread_new; [done| |].
    + intros Hin. apply (s_ready _ _ _ _ Hsc) in Hin as (_ & ? & ? & _). congruence.
    + intros (m & l & Hl & Hin). destruct (proj1 (l_wait _ _ _ _ Hlk m t)) as [b Hv]; [eauto|]. unfold lview in Hv. by rewrite Et in Hv.
  - by apply sched_new.
  - eapply lock_inv_ext, Hlk. intros t'. rewrite lview_put. symmetry. apply vset_same. unfold lview. by rewrite Et.
  - eapply futex_inv_ext, Hfx. intros t'. rewrite fview_put. symmetry. apply vset_same. unfold fview. by rewrite Et.
  - eapply ipc_inv_ext, Hipc. intros t'. rewrite iview_put. symmetry. apply vset_same. unfold iview. by rewrite Et.
  - rewrite map_size_insert_None by done. lia.
Qed.

Lemma new_lock_inv idle g k rq wl fl m c (b : bool) :
  kernel_inv idle g k rq wl fl -> atomic k !! m = None -> 0 <= c < 2 ^ 31 -> (b = true -> c = 1) ->
  kernel_inv idle (mkGhost (held g) (if b then {[m]} ∪ mutexes g else mutexes g))
    (set_links (set_atomic k (<[m := c]> (atomic k))) (init_list_head (LMwait m) (links k))) rq (<[m := []]> wl) fl.
Proof.
  intros [Hr Hsc Hlk Hfx Hipc Hsz] Ha Hc Hb.
  assert (wl !! m = None) by (destruct (wl !! m) eqn:El; [destruct (proj1 (l_dom _ _ _ _ Hlk m)); [eauto|congruence]|done]).
  split; cbn; try done; [by apply wait_new|by apply lock_new].
Qed.

Lemma queue_stays rq : exists l, rq = rq ++ l.
Proof. exists []. by rewrite app_nil_r. Qed.

(** Every event of the protocol succeeds and keeps the invariants. *)
Lemma event_step idle g e k rq wl fl : kernel_inv idle g k rq wl fl -> event_ok idle g e k -> step_ok idle g e k rq.
Proof.
  intros Hi Hok. destruct (cur_thread _ _ _ _ _ _ Hi) as (thc & Ec & Hsc & H0 & Hkd).
  destruct (decide (e = Continue)) as [->|Hnc]; [by eapply step_continue|].
  destruct Hok as (th & E & Hk & Hni & Hok). rewrite E in Ec. injection Ec as <-.
  assert (Hrun : cont th = KRun) by (destruct e; done). clear Hk.
  pose proof (queue_stays rq) as Hst.
  destruct e; try done; cbn [blocking] in Hni; try specialize (Hni eq_refl).
  - eapply step_lock; [exact Hi|exact E|done|by left|exact Hok|done|done|done].
  - destruct (mutex_unlock_inv _ _ _ _ _ _ m Hi) as (k' & rq' & wl' & Ek & Hi' & Ecur & l & ->); [by rewrite Hok|].
    eapply (step_stay _ _ (Unlock m)); eauto.
  - destruct Hok as [Hm Ha]. eapply step_down; [exact Hi|exact E|done|by left|exact Hm|exact Ha|done|done|done].
  - destruct Hok as (Hm & v & Ha & Hv).
    destruct (semaphore_up_inv _ _ _ _ _ _ _ _ Hi Hm Ha Hv) as (k' & rq' & wl' & Ek & Hi' & Ecur & l & ->).
    eapply (step_stay _ _ (Up m)); eauto.
  - eapply (step_plain _ _ Yield); [exact Hi|exact E|done|by apply suspend_self|..]; try done; auto.
  - eapply (step_plain _ _ Exit _ _ _ _ _ (with_status th TASK_STATUS_EXIT) KDead); [exact Hi|exact E|done| |..]; try done; auto.
    cbn. unfold sys_thread_exit, thread_destroy, upd_thread, get_thread. by rewrite (proj2 (Z.eqb_neq _ _) H0), E.
  - eapply (step_plain _ _ Sleep); [exact Hi|exact E|done|by apply suspend_self|..]; try done; auto.
  - destruct (futex_wait_inv _ _ _ _ _ _ _ uaddr uval val Hi E Hrun Hni) as (k' & rq' & fl' & Ek & Hi' & Hm & _).
    eapply (step_moves _ _ (FutexWait uaddr uval val)); eauto.
  - destruct (f_buckets _ _ _ _ _ _ (k_futex _ _ _ _ _ _ Hi) (vmspace th, uaddr)) as [l Hl].
    destruct (futex_wake_inv _ _ _ _ _ _ _ uaddr l Hi E Hl) as (k' & Ek & Hi' & Ecur & _).
    eapply (step_stay _ _ (FutexWake uaddr)); eauto.
  - eapply (step_plain _ _ Resched _ _ _ _ _ th); [exact Hi|exact E|done| |..]; try done; auto; try (by rewrite Hsc).
    cbn. unfold put_thread. rewrite insert_id by done. by destruct k.
  - destruct Hok as (Hc & [src t] & tht & Econ & Et & Hst' & Hct & Hac).
    destruct (ipc_call_inv _ _ _ _ _ _ _ _ _ _ _ Hi E Hrun Hni Econ Hc Et Hst' Hct Hac) as (k' & Ek & Hi' & _).
    exists k', rq, wl, fl. split_and!; [done|done|by exists []; rewrite app_nil_r].
  - destruct (ipc_return_inv _ _ _ _ _ _ _ Hi E Hrun Hni Hok) as (src & sth & k' & _ & _ & _ & _ & _ & Ek & Hi' & _).
    exists k', rq, wl, fl. split_and!; [done|done|by exists []; rewrite app_nil_r].
  - eapply (step_stay _ _ Tick); [|eapply (touch_cur_inv _ _ _ _ _ _ th (with_flags th (Z.lor (flags th) NEED_RESCHED))); eauto|..]; eauto.
    cbn. unfold sched_timer_function, thread_need_sched, upd_thread, get_thread. by rewrite E.
  - destruct Hok as (tht & Et & Hst' & Hct). destruct (resume_inv _ _ _ _ _ _ _ _ Hi Et Hst' (or_introl Hct)) as (k' & Ek & Hi' & Ecur).
    eapply (step_stay _ _ (SleepTimer t)); eauto.
  - eapply (step_stay _ _ (Create t vms)); [done|by apply new_thread_inv|done|done|done|exact Hi].
  - destruct Hok as (tht & Et & Hst' & Hct). destruct (resume_inv _ _ _ _ _ _ _ _ Hi Et Hst' (or_intror Hct)) as (k' & Ek & Hi' & Ecur).
    eapply (step_stay _ _ (Start t)); eauto.
  - eapply (step_stay _ _ (MutexInit m)); [done|by apply (new_lock_inv idle g k rq wl fl m 1 true)|done|done|done|exact Hi].
  - destruct Hok as [Ha Hn]. eapply (step_stay _ _ (SemInit m n)); [done| |done|done|done|exact Hi].
    cbn. unfold semaphore_init. rewrite s32_small by lia. replace g with (mkGhost (held g) (mutexes g)) by (by destruct g).
    by apply (new_lock_inv idle g k rq wl fl m n false).
  - destruct Hok as [Hn Hc]. eapply (step_stay _ _ (Connect c t vms)); [done| |done|done|done|exact Hi].
    destruct (new_thread_inv _ _ _ _ _ _ _ vms Hi Hn) as [Hr' Hsc' Hlk' Hfx' Hipc' Hsz']. split; try done. by apply ipc_new.
Qed.

(** ** Runs *)

Lemma runs_inv idle g k es ds g' k' :
  runs idle g k es ds g' k' -> forall rq wl fl, kernel_inv idle g k rq wl fl ->
  exists rq' wl' fl', kernel_inv idle g' k' rq' wl' fl' /\ exists l, rq ++ l = ds ++ rq'.
Proof.
  induction 1 as [|g k e k1 es ds g' k' Hok Ek _ IH]; intros rq wl fl Hi.
  - exists rq, wl, fl. split; [done|]. exists []. by rewrite app_nil_r.
  - destruct (event_step _ _ _ _ _ _ _ Hi Hok) as (k2 & rq1 & wl1 & fl1 & Ek' & Hi1 & l1 & E1). rewrite Ek in Ek'. injection Ek' as <-.
    destruct (IH _ _ _ Hi1) as (rq' & wl' & fl' & Hi' & l & E). exists rq', wl', fl'. split; [done|].
    exists (l1 ++ l). by rewrite app_assoc, E1, <- app_assoc, E, app_assoc.
Qed.

Lemma kernel_reachable_inv idle g k : reachable idle g k -> kernel_ok idle g k.
Proof.
  intros (vms & es & ds & H0 & Hr). destruct (runs_inv _ _ _ _ _ _ _ Hr _ _ _ (boot_inv idle vms H0)) as (rq & wl & fl & Hi & _).
  by exists rq, wl, fl.
Qed.

(** The ready queue, as the pointers have it. *)
Definition ready_list k rq : Prop := dlist (links k) LReady (LReadyNode <$> rq).

Lemma path_unique {L} `{Countable L} (f : gmap L L) a xs ys z : path f a xs z -> path f a ys z -> z ∉ xs -> z ∉ ys -> xs = ys.
Proof.
  revert a ys. induction xs as [|x xs IH]; intros a [|y ys]; cbn; [done| | |].
  - intros E [E' _] _ Hy. rewrite E in E'. injection E' as ->. destruct Hy. by left.
  - intros [E' _] E Hx _. rewrite E in E'. injection E' as ->. destruct Hx. by left.
  - intros [E P] [E' P'] Hx Hy. rewrite E in E'. injection E' as <-. f_equal.
    apply (IH x); [done|done|..]; intros Hin; [apply Hx|apply Hy]; by right.
Qed.

Lemma ready_list_unique idle g k rq wl fl rq' : kernel_inv idle g k rq wl fl -> ready_list k rq' -> rq' = rq.
Proof.
  intros Hi Hd'. pose proof (r_ready _ _ _ _ (k_repr _ _ _ _ _ _ Hi)) as Hd.
  assert (LReadyNode <$> rq' = LReadyNode <$> rq) as E.
  { destruct Hd as (Hnd & Hp & _), Hd' as (Hnd' & Hp' & _). apply NoDup_cons in Hnd as [Hn _], Hnd' as [Hn' _].
    by eapply path_unique. }
  revert E. clear. revert rq. induction rq' as [|x rq' IH]; intros [|y rq] E; try done. cbn in E. injection E as -> E. f_equal. auto.
Qed.

(** A thread that tries a mutex may. *)
Lemma tries_ok idle g e k m rq wl fl :
  kernel_inv idle g k rq wl fl -> event_ok idle g e k -> tries e k = Some m ->
  exists th, threads k !! current k = Some th /\ current k <> idle /\ (cont th = KRun \/ cont th = KMutex m) /\ m ∈ mutexes g /\
    run_event e k = mutex_lock m k.
Proof.
  intros Hi (th & E & Hk & Hni & Hok) Ht. exists th. destruct e; try done; cbn in Ht.
  - rewrite E in Ht. destruct (cont th) eqn:Ek; simplify_eq. destruct (cur_thread _ _ _ _ _ _ Hi) as (th' & E' & Hs & _). simplify_eq.
    split_and!; [done| |by right| |cbn; unfold continue_, get_thread; by rewrite E; cbn; rewrite Ek].
    + intros Eq. destruct (s_idle _ _ _ _ (k_sched _ _ _ _ _ _ Hi)) as (thi & Ei & _ & Hki). rewrite <- Eq, E in Ei. injection Ei as <-.
      rewrite Ek in Hki. by destruct Hki.
    + destruct (l_kind _ _ _ _ (k_lock _ _ _ _ _ _ Hi) (current k) m true false) as [_ Hm]; [|by apply Hm].
      rewrite (lview_at _ _ _ E). unfold lone. by rewrite Ek, Hs.
  - injection Ht as <-. split_and!; [done|by apply Hni|by left|done|done].
Qed.


(** C13. Mutual exclusion: a thread that tries a mutex, in [mutex_lock] or when it was woken
    and tries again, gets it at once when nobody holds it, and is suspended in [mutex_lock]
    when somebody does.  A thread holds a mutex from the return of [mutex_lock] to its
    [mutex_unlock]. *)
Theorem mutex_excludes idle g k e m :
  reachable idle g k -> event_ok idle g e k -> tries e k = Some m ->
  exists k', run_event e k = Ok k' /\
    match held g !! m with
    | None => returned k k' = true /\ held (ghost_step e g k k') !! m = Some (current k)
    | Some _ => returned k k' = false /\ ghost_step e g k k' = g /\
        exists th, threads k' !! current k = Some th /\ status th = TASK_STATUS_SUSPEND /\ cont th = KMutex m
    end.
Proof.
  intros Hr Hok Ht. destruct (kernel_reachable_inv _ _ _ Hr) as (rq & wl & fl & Hi).
  destruct (tries_ok _ _ _ _ _ _ _ _ Hi Hok Ht) as (th & E & Hni & Hk & Hm & Er).
  destruct (lock_outcome idle g e k rq wl fl th m) as (k' & rq' & wl' & Ek & _ & _ & Hout); try done. exists k'. split; [done|].
  destruct (held g !! m) as [o|]; [|destruct Hout as [? ->]; split; [done|apply lookup_insert_eq]].
  destruct Hout as (? & ? & Hv). split_and!; [done|done|]. unfold lview in Hv. destruct (threads k' !! current k) as [th'|]; [|done].
  exists th'. destruct (cont th'); try done. injection Hv as -> Hv. by apply bool_decide_eq_true in Hv.
Qed.

(** In the queue or on the processor. *)
Definition has_turn k t : Prop := t = current k \/ exists rq, ready_list k rq /\ t ∈ rq.

(** C14. No lost wakeup: while a thread sleeps on a mutex or semaphore whose counter is [c],
    there are [c] other threads that were woken for it and are in the ready queue or running,
    about to try it.  In particular a free lock with a sleeper has a thread on its way. *)
Theorem no_lost_wakeup idle g k m c t th :
  reachable idle g k -> atomic k !! m = Some c -> threads k !! t = Some th ->
  status th = TASK_STATUS_SUSPEND -> (cont th = KMutex m \/ cont th = KSem m) ->
  exists ts, NoDup ts /\ Z.of_nat (length ts) = c /\
    forall t', t' ∈ ts -> has_turn k t' /\ exists th', threads k !! t' = Some th' /\ (cont th' = KMutex m \/ cont th' = KSem m).
Proof.
  intros Hr Ha Et Hs Hk. destruct (kernel_reachable_inv _ _ _ Hr) as (rq & wl & fl & Hi). pose proof (k_lock _ _ _ _ _ _ Hi) as Hlk.
  assert (Hv : exists b, lview (threads k) t = Some (m, b, true)).
  { unfold lview. rewrite Et, bool_decide_true by done. destruct Hk as [-> | ->]; by eexists. }
  destruct (proj2 (l_wait _ _ _ _ Hlk m t) Hv) as (l & Hl & Hin).
  destruct (l_wake _ _ _ _ Hlk m c l Ha Hl) as [->|(ts & Hnd & Hc & Hts)]; [by apply not_elem_of_nil in Hin|].
  exists ts. split_and!; [done|done|]. intros t' Hin'. destruct (Hts t' Hin') as [b Hv']. unfold lview in Hv'.
  pose proof (k_sched _ _ _ _ _ _ Hi) as Hsc.
  destruct (threads k !! t') as [th'|] eqn:Et'; [|done].
  assert (Hk' : (cont th' = KMutex m \/ cont th' = KSem m) /\ status th' <> TASK_STATUS_SUSPEND).
  { destruct (cont th'); try done; injection Hv' as -> _ Hv'; apply bool_decide_eq_false in Hv'; auto. }
  destruct Hk' as [Hk' Hns]. split; [|by exists th'].
  destruct (decide (t' = current k)) as [->|Hne]; [by left|right]. exists rq. split; [apply Hi|].
  apply (s_ready _ _ _ _ Hsc). split; [done|]. exists th'. split; [done|].
  pose proof (s_dead _ _ _ _ Hsc _ _ Et') as Hd. destruct (status th') eqn:Est; [by right|by left|done|].
  destruct Hd as [_ Hd]. destruct Hk' as [Hk'|Hk']; rewrite Hk' in Hd; by specialize (Hd eq_refl).
Qed.

(** C15. The scheduler is first come first served, so that no ready thread starves: in a run
    of the kernel, the threads that [schedule] dispatches, in order, followed by the ready
    queue at the end, begin with the ready queue at the start.  The thread at position [i] is
    therefore the [i]th one that is dispatched. *)
Theorem dispatch_in_order idle g k es ds g' k' rq :
  reachable idle g k -> runs idle g k es ds g' k' -> ready_list k rq ->
  exists rq' l, ready_list k' rq' /\ rq ++ l = ds ++ rq'.
Proof.
  intros Hr Hruns Hq. destruct (kernel_reachable_inv _ _ _ Hr) as (rq0 & wl & fl & Hi).
  rewrite (ready_list_unique _ _ _ _ _ _ _ Hi Hq). destruct (runs_inv _ _ _ _ _ _ _ Hruns _ _ _ Hi) as (rq' & wl' & fl' & Hi' & l & E).
  exists rq', l. split; [apply Hi'|done].
Qed.

(** A thread sleeps on the futex [key]. *)
Definition sleeps_on k (key : Z * Z) t : Prop :=
  exists th q, threads k !! t = Some th /\ status th = TASK_STATUS_SUSPEND /\ cont th = KFutex /\ futex_qs k !! t = Some q /\ q_key q = key.

Lemma fview_sleeps ths t vms :
  fview ths t = Some vms -> exists th, ths !! t = Some th /\ status th = TASK_STATUS_SUSPEND /\ cont th = KFutex /\ vmspace th = vms.
Proof.
  unfold fview. destruct (ths !! t) as [th|]; [|done]. intros E. exists th.
  destruct (bool_decide_reflect (status th = TASK_STATUS_SUSPEND)), (bool_decide_reflect (cont th = KFutex)); simplify_eq/=. done.
Qed.

Lemma fmatch_sleeps idle g k rq wl fl key l t :
  kernel_inv idle g k rq wl fl -> fl !! futex_hash (hashsize k) key = Some l ->
  t ∈ filter (fun t => fmatch (futex_qs k) key t = true) l <-> sleeps_on k key t.
Proof.
  intros Hi Hl. pose proof (k_futex _ _ _ _ _ _ Hi) as Hf. rewrite list_elem_of_filter. split.
  - intros [Hm Hin]. destruct (proj1 (f_mem _ _ _ _ _ _ Hf _ t) (ex_intro _ l (conj Hl Hin))) as (vms & q & Hv & Hq & _).
    destruct (fview_sleeps _ _ _ Hv) as (th & E & Hs & Hk & _). exists th, q. split_and!; try done.
    unfold fmatch in Hm. rewrite Hq in Hm. apply andb_true_iff in Hm as [H1%Z.eqb_eq H2%Z.eqb_eq].
    destruct (q_key q), key. cbn in *. by subst.
  - intros (th & q & E & Hs & Hk & Hq & Hkey). split; [unfold fmatch, match_futex; by rewrite Hq, Hkey, !Z.eqb_refl|].
    destruct (proj2 (f_mem _ _ _ _ _ _ Hf (futex_hash (hashsize k) key) t)) as (l' & Hl' & Hin); [|by simplify_eq].
    exists (vmspace th), q. split_and!; [|done|by rewrite Hkey]. rewrite (fview_at _ _ _ E). unfold fone. by rewrite Hs, Hk.
Qed.

(** C16. [sys_futex_wake] wakes exactly the threads of the caller's address space that sleep
    on the word: each of them becomes ready, once, behind the threads that are ready already;
    no other thread changes, and the caller goes on. *)
Theorem futex_wake_exact idle g k uaddr th rq :
  reachable idle g k -> threads k !! current k = Some th -> ready_list k rq ->
  exists k' ms, sys_futex_wake uaddr k = Ok k' /\ NoDup ms /\ (forall t, t ∈ ms <-> sleeps_on k (vmspace th, uaddr) t) /\
    ready_list k' (rq ++ ms) /\ current k' = current k /\
    forall t, threads k' !! t = if decide (t ∈ ms) then (fun th => with_status th TASK_STATUS_READY) <$> threads k !! t else threads k !! t.
Proof.
  intros Hr E Hq. destruct (kernel_reachable_inv _ _ _ Hr) as (rq0 & wl & fl & Hi). rewrite (ready_list_unique _ _ _ _ _ _ _ Hi Hq).
  destruct (f_buckets _ _ _ _ _ _ (k_futex _ _ _ _ _ _ Hi) (vmspace th, uaddr)) as [l Hl].
  destruct (futex_wake_inv _ _ _ _ _ _ _ uaddr l Hi E Hl) as (k' & Ek & Hi' & Ecur & Eth).
  exists k', (filter (fun t => fmatch (futex_qs k) (vmspace th, uaddr) t = true) l). split_and!; [done|..].
  - apply NoDup_filter. by destruct (f_chain _ _ _ _ _ _ (k_futex _ _ _ _ _ _ Hi) _ _ Hl) as [[_ ?] _].
  - intros t. by eapply fmatch_sleeps.
  - apply Hi'.
  - done.
  - intros t. rewrite Eth. apply ready_all_lookup.
Qed.


(** [sys_yield] does not yield: the caller is suspended, out of the ready queue, with
    nothing that it waits for. *)
Theorem sys_yield_suspends idle g k th :
  reachable idle g k -> threads k !! current k = Some th -> cont th = KRun -> current k <> idle ->
  exists k' th' rq', sys_yield k = Ok k' /\ threads k' !! current k = Some th' /\ status th' = TASK_STATUS_SUSPEND /\
    cont th' = KReturn /\ ready_list k' rq' /\ (current k ∉ rq').
Proof.
  intros Hr E Hk Hni. destruct (kernel_reachable_inv _ _ _ Hr) as (rq0 & wl & fl & Hi).
  destruct (cur_thread _ _ _ _ _ _ Hi) as (th' & E' & Hs & H0 & _). rewrite E in E'. injection E' as <-.
  unfold sys_yield. rewrite (suspend_self _ _ _ E Hs H0).
  destruct (leave_plain idle g k rq0 wl fl th (with_status th TASK_STATUS_SUSPEND) KReturn) as (k' & rq' & Ek & Hi' & _ & Hleft); try done; auto.
  destruct (Hleft eq_refl) as [_ Eth]. exists k', (left_with (with_status th TASK_STATUS_SUSPEND) KReturn), rq'. split_and!; try done.
  - apply Hi'.
  - intros Hin. apply (s_ready _ _ _ _ (k_sched _ _ _ _ _ _ Hi')) in Hin as (_ & th1 & E1 & Hr1).
    rewrite Eth in E1. injection E1 as <-. by apply runnable_not_suspended in Hr1.
Qed.

(** ** Concrete runs *)

Definition thread_is k t (s : task_status_t) (ok : kcont -> bool) : bool :=
  match threads k !! t with Some th => bool_decide (status th = s) && ok (cont th) | None => false end.

Definition new_thread_okb k t : bool :=
  bool_decide (threads k !! t = None) && negb (t =? 0) && (Z.of_nat (size (threads k)) <? 2 ^ 31 - 2).

Definition event_okb (idle : Z) (g : ghost) (e : event) k : bool :=
  match threads k !! current k with
  | None => false
  | Some th =>
      (match e with Continue => negb (bool_decide (cont th = KRun)) | _ => bool_decide (cont th = KRun) end) &&
      (negb (blocking e) || negb (current k =? idle)) &&
      match e with
      | Lock m => bool_decide (m ∈ mutexes g)
      | Unlock m => bool_decide (held g !! m = Some (current k))
      | Down m => bool_decide (m ∉ mutexes g) && bool_decide (is_Some (atomic k !! m))
      | Up m => bool_decide (m ∉ mutexes g) && match atomic k !! m with Some v => v + 1 <? 2 ^ 31 | None => false end
      | Call c => negb (c =? 0) &&
          match conns k !! c with
          | Some conn =>
              thread_is k (target conn) TASK_STATUS_SUSPEND (fun x => match x with KNew | KServe => true | _ => false end) &&
              match threads k !! target conn with Some tht => active_conn tht =? 0 | None => false end
          | None => false
          end
      | Return => negb (active_conn th =? 0)
      | SleepTimer t => thread_is k t TASK_STATUS_SUSPEND (fun x => bool_decide (x = KSleep))
      | Start t => thread_is k t TASK_STATUS_SUSPEND (fun x => bool_decide (x = KNew))
      | Create t _ => new_thread_okb k t
      | MutexInit m => bool_decide (atomic k !! m = None)
      | SemInit m n => bool_decide (atomic k !! m = None) && (0 <=? n) && (n <? 2 ^ 31)
      | Connect c t _ => new_thread_okb k t && bool_decide (conns k !! c = None)
      | _ => true
      end
  end.

Lemma thread_is_sound k t s ok :
  thread_is k t s ok = true -> exists th, threads k !! t = Some th /\ status th = s /\ ok (cont th) = true.
Proof.
  unfold thread_is. destruct (threads k !! t) as [th|]; [|done]. intros [H1%bool_decide_eq_true H2]%andb_true_iff. eauto.
Qed.

Lemma new_thread_okb_sound k t : new_thread_okb k t = true -> new_thread_ok k t.
Proof.
  unfold new_thread_okb. rewrite !andb_true_iff, bool_decide_eq_true, negb_true_iff, Z.eqb_neq, Z.ltb_lt.
  intros [[? ?] ?]. by split_and!.
Qed.

Lemma event_okb_sound idle g e k : event_okb idle g e k = true -> event_ok idle g e k.
Proof.
  unfold event_okb, event_ok. destruct (threads k !! current k) as [th|] eqn:E; [|done].
  rewrite !andb_true_iff, orb_true_iff, !negb_true_iff, Z.eqb_neq. intros [[Hk Hb] Hok]. exists th. split; [done|].
  split; [destruct e; try (by apply bool_decide_eq_true in Hk); by apply negb_true_iff, bool_decide_eq_false in Hk|].
  split; [intros Hbl; destruct Hb; congruence|].
  destruct e; try done;
    repeat match goal with
    | H : _ && _ = true |- _ => apply andb_true_iff in H as [? ?]
    | H : bool_decide _ = true |- _ => apply bool_decide_eq_true in H
    | H : negb _ = true |- _ => apply negb_true_iff, Z.eqb_neq in H
    | H : (_ <? _) = true |- _ => apply Z.ltb_lt in H
    | H : (_ <=? _) = true |- _ => apply Z.leb_le in H
    | H : new_thread_okb _ _ = true |- _ => apply new_thread_okb_sound in H
    | H : thread_is _ _ _ _ = true |- _ => apply thread_is_sound in H as (? & ? & ? & ?)
    | H : match atomic ?k !! ?m with _ => _ end = true |- _ => destruct (atomic k !! m) eqn:?; [|done]
    | H : match conns ?k !! ?m with _ => _ end = true |- _ => destruct (conns k !! m) as [[? ?]|] eqn:?; [|done]
    | H : match threads ?k !! ?m with _ => _ end = true |- _ => destruct (threads k !! m) eqn:?; [|done]
    | H : (_ =? _) = true |- _ => apply Z.eqb_eq in H
    end; simplify_eq; eauto 10.
  split; [done|]. eexists _, _. split_and!; try done. match goal with H : match ?c with _ => _ end = true |- _ => destruct c; try done; auto end.
Qed.

(** The state after a run, when every event of it is in the protocol. *)
Fixpoint exec (idle : Z) (es : list event) (g : ghost) k : option (ghost * kernel) :=
  match es with
  | [] => Some (g, k)
  | e :: es =>
      if event_okb idle g e k then
        match run_event e k with Ok k1 => exec idle es (ghost_step e g k k1) k1 | _ => None end
      else None
  end.

Lemma exec_runs idle es g k g' k' : exec idle es g k = Some (g', k') -> exists ds, runs idle g k es ds g' k'.
Proof.
  revert g k. induction es as [|e es IH]; intros g k; cbn [exec]; [intros [= -> ->]; by exists []; constructor|].
  destruct (event_okb idle g e k) eqn:Hok; [|done]. destruct (run_event e k) as [k1| |] eqn:Ek; [|done..].
  intros Hx. destruct (IH _ _ Hx) as [ds Hr]. eexists. econstructor; [by apply event_okb_sound|done|exact Hr].
Qed.

(** Runs of the kernel with the idle thread at address 1. *)
Definition after (es : list event) : ghost * kernel := default (no_locks, boot 1 0) (exec 1 es no_locks (boot 1 0)).

Definition completes (es : list event) : bool := match exec 1 es no_locks (boot 1 0) with Some _ => true | None => false end.

Lemma after_reachable es : completes es = true -> reachable 1 (after es).1 (after es).2.
Proof.
  unfold after, completes. destruct (exec _ _ _ _) as [[g k]|] eqn:E; [|done].
  destruct (exec_runs _ _ _ _ _ _ E) as [ds Hr]. exists 0, es, ds. by split.
Qed.

(** Two threads, 2 and 3, and a mutex at 100: 2 takes it and is preempted; 3 runs. *)
Definition two_threads : list event := [MutexInit 100; Create 2 7; Create 3 7; Start 2; Start 3; Resched; Continue].
Definition contended : list event := two_threads ++ [Lock 100; Tick; Resched; Continue].

(** The facts about concrete runs are evaluated. *)
Ltac run_it := first [by apply after_reachable; vm_compute | by apply event_okb_sound; vm_compute | by vm_compute].


Lemma mutex_excludes_witness :
  held (after contended).1 !! 100 = Some 2 /\ current (after contended).2 = 3 /\
  exists k', run_event (Lock 100) (after contended).2 = Ok k' /\ returned (after contended).2 k' = false.
Proof.
  split; [run_it|]. split; [run_it|].
  destruct (mutex_excludes 1 (after contended).1 (after contended).2 (Lock 100) 100) as (k' & E & H); [run_it..|].
  exists k'. split; [exact E|]. replace (held (after contended).1 !! 100) with (Some 2) in H by run_it. apply H.
Defined.

(** The status of a thread and where it is. *)
Definition state_of k t : option (task_status_t * kcont) := (fun th => (status th, cont th)) <$> threads k !! t.

Lemma state_of_thread k t s c : state_of k t = Some (s, c) -> exists th, threads k !! t = Some th /\ status th = s /\ cont th = c.
Proof. unfold state_of. destruct (threads k !! t) as [th|]; [|done]. intros [= <- <-]. by exists th. Qed.

(** 4 holds the mutex, 2 and 3 sleep on it; 4 unlocks it, which wakes 2. *)
Definition handed_on : list event :=
  [Create 4 7; Start 4] ++ contended ++ [Lock 100; Continue; Lock 100; Continue; Resched; Continue; Unlock 100].

Lemma no_lost_wakeup_witness :
  state_of (after handed_on).2 3 = Some (TASK_STATUS_SUSPEND, KMutex 100) /\ atomic (after handed_on).2 !! 100 = Some 1 /\
  exists t, has_turn (after handed_on).2 t.
Proof.
  assert (Hs : state_of (after handed_on).2 3 = Some (TASK_STATUS_SUSPEND, KMutex 100)) by run_it.
  split; [exact Hs|]. split; [run_it|]. destruct (state_of_thread _ _ _ _ Hs) as (th & E & E1 & E2).
  destruct (no_lost_wakeup 1 (after handed_on).1 (after handed_on).2 100 1 3 th) as (ts & _ & Hl & Ht); [run_it|run_it|exact E|exact E1|by left|].
  destruct ts as [|t ts]; [discriminate Hl|]. exists t. apply Ht. by left.
Defined.

(** The ready queue of a concrete state, by walking it. *)
Lemma ready_list_walk idle g k rq :
  reachable idle g k -> list_for_each (S (size (threads k))) LReady (links k) = Ok (LReadyNode <$> rq) -> ready_list k rq.
Proof.
  intros Hr. destruct (kernel_reachable_inv _ _ _ Hr) as (rq0 & wl & fl & Hi). pose proof (r_ready _ _ _ _ (k_repr _ _ _ _ _ _ Hi)) as Hd.
  rewrite (list_for_each_spec _ _ _ _ Hd).
  - intros [= E]. unfold ready_list. by rewrite <- E.
  - rewrite length_fmap. apply le_n_S. pose proof (repr_NoDup _ _ _ _ (k_repr _ _ _ _ _ _ Hi)) as Hnd.
    rewrite <- (size_list_to_set (C := gset Z) rq0) by done. rewrite <- size_dom. apply subseteq_size.
    intros t. rewrite elem_of_list_to_set, elem_of_dom. intros Hin.
    apply (s_ready _ _ _ _ (k_sched _ _ _ _ _ _ Hi)) in Hin as (_ & th & E & _). by rewrite E.
Qed.

Ltac ready_it := eapply ready_list_walk; [run_it|by vm_compute].

(** 3 runs, the idle thread and 2 are ready: they are dispatched next. *)
Lemma dispatch_in_order_witness :
  exists ds g' k' rq' l, runs 1 (after contended).1 (after contended).2 [Resched; Continue; Resched] ds g' k' /\
    ready_list k' rq' /\ [1; 2] ++ l = ds ++ rq'.
Proof.
  assert (Hx : match exec 1 [Resched; Continue; Resched] (after contended).1 (after contended).2 with Some _ => true | None => false end = true) by run_it.
  assert (Hq : ready_list (after contended).2 [1; 2]) by ready_it.
  assert (Hc : reachable 1 (after contended).1 (after contended).2) by run_it.
  revert Hx Hq Hc. generalize (after contended).1 (after contended).2. intros g k Hx Hq Hc.
  destruct (exec _ _ _ _) as [[g' k']|] eqn:E; [|discriminate Hx]. destruct (exec_runs _ _ _ _ _ _ E) as [ds Hr].
  destruct (dispatch_in_order 1 g k _ ds g' k' [1; 2] Hc Hr Hq) as (rq' & l & Hq' & El).
  exists ds, g', k', rq', l. split; [exact Hr|]. split; [exact Hq'|exact El].
Defined.

(** 2 sleeps on the futex at 5000, and 3, of the same address space, wakes it. *)
Definition futex_asleep : list event := two_threads ++ [FutexWait 5000 1 1; Continue].

Lemma futex_wake_exact_witness :
  state_of (after futex_asleep).2 2 = Some (TASK_STATUS_SUSPEND, KFutex) /\
  exists k' ms, sys_futex_wake 5000 (after futex_asleep).2 = Ok k' /\ NoDup ms /\ 2 ∈ ms.
Proof.
  split; [run_it|].
  assert (Hs : state_of (after futex_asleep).2 3 = Some (TASK_STATUS_RUNNING, KRun)) by run_it.
  destruct (state_of_thread _ _ _ _ Hs) as (th & E & _).
  assert (Ev : vmspace <$> (threads (after futex_asleep).2 !! 3) = Some 7) by run_it. rewrite E in Ev. injection Ev as Ev.
  destruct (futex_wake_exact 1 (after futex_asleep).1 (after futex_asleep).2 5000 th [1]) as (k' & ms & E1 & Hnd & Hms & _);
    [run_it|exact E|ready_it|].
  exists k', ms. split; [exact E1|]. split; [exact Hnd|]. apply Hms. rewrite Ev.
  assert (Hf : state_of (after futex_asleep).2 2 = Some (TASK_STATUS_SUSPEND, KFutex)) by run_it.
  destruct (state_of_thread _ _ _ _ Hf) as (th2 & E2 & Es & Ek). exists th2, (mkFutexQ 2 true (7, 5000) FUTEX_BITSET_MATCH_ANY).
  split; [exact E2|]. split; [exact Es|]. split; [exact Ek|]. split; run_it.
Defined.

(** 2 calls the server thread 9 through the connection 200. *)
Definition connected : list event := Connect 200 9 8 :: two_threads.


Lemma sys_yield_suspends_witness :
  exists k' rq', sys_yield (after two_threads).2 = Ok k' /\ ready_list k' rq' /\ (2 ∉ rq').
Proof.
  assert (Hs : state_of (after two_threads).2 2 = Some (TASK_STATUS_RUNNING, KRun)) by run_it.
  destruct (state_of_thread _ _ _ _ Hs) as (th & E & _ & Hk).
  destruct (sys_yield_suspends 1 (after two_threads).1 (after two_threads).2 th) as (k' & th' & rq' & H1 & _ & _ & _ & H2 & H3);
    [run_it|exact E|exact Hk|by vm_compute|].
  exists k', rq'. split; [exact H1|]. split; [exact H2|exact H3].
Defined.
