(* ===== verification/Vm.v ===== *)
(** * Vm: the Sv39 page tables of arch/vm.c

    A page table is a page of 512 words; [ptes] holds the words of all page-table pages by
    their address, as the processor reads them.  Pages come from any [KernelHeap].  Loops
    that the source leaves by [break] or [return] run as [run_upto], with more steps than
    there are pages below [MAXVA]. *)

From S2P Require Import Prelude Bits ListHead CMem Buddy BuddyBlocks BuddyProof PageAlloc MemPool MemPoolProof Kalloc KallocProof Alloc.

(** ** Loops with a binary bound *)

(** At most [p] steps of [f]; [inl] when it has not finished. *)
Fixpoint run_upto {A B} (p : positive) (f : A -> A + B) (a : A) : A + B :=
  match p with
  | xH => f a
  | xO p => match run_upto p f a with inl a => run_upto p f a | inr b => inr b end
  | xI p => match f a with
            | inl a => match run_upto p f a with inl a => run_upto p f a | inr b => inr b end
            | inr b => inr b
            end
  end.

(** The same with a unary bound. *)
Fixpoint run_steps {A B} (n : nat) (f : A -> A + B) (a : A) : A + B :=
  match n with
  | O => inl a
  | S n => match f a with inl a => run_steps n f a | inr b => inr b end
  end.

Lemma run_steps_add {A B} (f : A -> A + B) m n a :
  run_steps (m + n) f a = match run_steps m f a with inl a => run_steps n f a | inr b => inr b end.
Proof. revert a. induction m as [|m IH]; intros a; cbn; [done|]. destruct (f a); [apply IH|done]. Qed.

Lemma run_upto_steps {A B} (f : A -> A + B) p a : run_upto p f a = run_steps (Pos.to_nat p) f a.
Proof.
  revert a. induction p as [p IH|p IH|]; intros a; cbn [run_upto].
  - rewrite Pos2Nat.inj_xI. cbn [run_steps]. destruct (f a) as [a'|b]; [|done].
    replace (2 * Pos.to_nat p)%nat with (Pos.to_nat p + Pos.to_nat p)%nat by lia. rewrite run_steps_add, IH.
    destruct (run_steps (Pos.to_nat p) f a'); [apply IH|done].
  - rewrite Pos2Nat.inj_xO. replace (2 * Pos.to_nat p)%nat with (Pos.to_nat p + Pos.to_nat p)%nat by lia.
    rewrite run_steps_add, IH. destruct (run_steps (Pos.to_nat p) f a); [apply IH|done].
  - change (Pos.to_nat 1) with 1%nat. cbn. by destruct (f a).
Qed.

(** ** arch/include/riscv.h *)

Definition PGSIZE : Z := 4096.
Definition PAGE_MASK : Z := PGSIZE - 1.
Definition PGROUNDUP (sz : Z) : Z := Z.land (u64 (sz + PGSIZE - 1)) (not64 (PGSIZE - 1)).
Definition PGROUNDDOWN (a : Z) : Z := Z.land a (not64 (PGSIZE - 1)).
Definition PTE_V : Z := 1.
Definition PTE_R : Z := 2.
Definition PTE_W : Z := 4.
Definition PTE_X : Z := 8.
Definition PTE_U : Z := 16.
Definition PA2PTE (pa : Z) : Z := u64 (Z.shiftl (Z.shiftr pa 12) 10).
Definition PTE2PA (pte : Z) : Z := u64 (Z.shiftl (Z.shiftr pte 10) 12).
Definition PXMASK : Z := 0x1FF.
Definition PXSHIFT (level : Z) : Z := 12 + 9 * level.
Definition PX (level va : Z) : Z := Z.land (Z.shiftr va (PXSHIFT level)) PXMASK.
Definition MAXVA : Z := 2 ^ 38.
Definition SATP_SV39 : Z := 8 * 2 ^ 60.
Definition MAKE_SATP (pagetable : Z) : Z := Z.lor SATP_SV39 (Z.shiftr pagetable 12).

(** ** arch/vm.c *)

Record vmem (K : Type) := mk_vmem {
  vheap : K;
  ptes : gmap Z Z;
}.
Arguments mk_vmem {K} _ _.
Arguments vheap {K} _.
Arguments ptes {K} _.

Section ops.
Context {K : Type} `{KernelHeap K}.
Implicit Types s : vmem K.

(** [&pagetable[i]] *)
Definition pte_at (pagetable i : Z) : Z := pagetable + 8 * i.

(** [memset(pagetable, 0, PGSIZE)] *)
Definition zero_page (pagetable : Z) (m : gmap Z Z) : gmap Z Z :=
  foldl (fun m i => <[pte_at pagetable i := 0]> m) m (seqZ 0 512).

Definition set_pte (pte e : Z) s : vmem K := mk_vmem (vheap s) (<[pte := e]> (ptes s)).

Definition pagetable_create s : res (vmem K * Z) :=
  let* '(k, pt) := kh_alloc_page (vheap s) 1 in
  if pt =? 0 then Undef else Ok (mk_vmem k (zero_page pt (ptes s)), pt).

(** [for (int level = 2; level > 0; level--)], and the entry of the last level. *)
Fixpoint walk_loop (level : nat) (pagetable va : Z) (alloc : bool) s : res (vmem K * Z) :=
  match level with
  | O => Ok (s, pte_at pagetable (PX 0 va))
  | S l =>
      let pte := pte_at pagetable (PX (Z.of_nat level) va) in
      let* e := deref (ptes s !! pte) in
      if negb (Z.land e PTE_V =? 0) then walk_loop l (PTE2PA e) va alloc s
      else if alloc then
        let* '(k, p) := kh_alloc_page (vheap s) 1 in
        let s := mk_vmem k (ptes s) in
        if p =? 0 then Ok (s, 0)
        else
          let s := mk_vmem k (zero_page p (ptes s)) in
          walk_loop l p va alloc (set_pte pte (Z.lor (PA2PTE p) PTE_V) s)
      else Ok (s, 0)
  end.

Definition walk (pagetable va : Z) (alloc : bool) s : res (vmem K * Z) :=
  if MAXVA <=? va then Panic else walk_loop 2 pagetable va alloc s.

Definition walk_addr (pagetable va : Z) s : res (vmem K * Z) :=
  if MAXVA <=? va then Ok (s, 0)
  else
    let* '(s, pte) := walk pagetable va false s in
    if pte =? 0 then Ok (s, 0)
    else
      let* e := deref (ptes s !! pte) in
      if Z.land e PTE_V =? 0 then Ok (s, 0)
      else if Z.land e PTE_U =? 0 then Ok (s, 0)
      else Ok (s, PTE2PA e).

(** The body of [for (;;)]: [inr] when the function returns. *)
Definition map_step (pagetable last perm : Z) (x : vmem K * Z * Z) : (vmem K * Z * Z) + res (vmem K * Z) :=
  let '(s, a, pa) := x in
  match walk pagetable a true s with
  | Panic => inr Panic
  | Undef => inr Undef
  | Ok (s, pte) =>
      if pte =? 0 then inr (Ok (s, -1))
      else
        match ptes s !! pte with
        | None => inr Undef
        | Some _ =>
            let s := set_pte pte (Z.lor (Z.lor (PA2PTE pa) (u64 perm)) PTE_V) s in
            if a =? last then inr (Ok (s, 0)) else inl (s, u64 (a + PGSIZE), u64 (pa + PGSIZE))
        end
  end.

(** More than the number of pages below [MAXVA]: [walk] panics above. *)
Definition max_pages : positive := 2 ^ 27.

Definition finished {A B} (r : A + res B) : res B := match r with inl _ => Undef | inr b => b end.

Definition map_range_in_pgtbl (pagetable va pa size perm : Z) s : res (vmem K * Z) :=
  if negb (Z.land va PAGE_MASK =? 0) || negb (Z.land va PAGE_MASK =? 0) || negb (Z.land size PAGE_MASK =? 0) then Panic
  else
    let last := PGROUNDDOWN (u64 (u64 (va + size) - 1)) in
    finished (run_upto max_pages (map_step pagetable last perm) (s, PGROUNDDOWN va, pa)).

Definition unmap_step (pagetable last : Z) (x : vmem K * Z) : (vmem K * Z) + res (vmem K * Z) :=
  let '(s, a) := x in
  match walk pagetable a false s with
  | Panic => inr Panic
  | Undef => inr Undef
  | Ok (s, pte) =>
      if pte =? 0 then inr Panic
      else
        match ptes s !! pte with
        | None => inr Undef
        | Some _ =>
            let s := set_pte pte 0 s in
            if a =? last then inr (Ok (s, 0)) else inl (s, u64 (a + PGSIZE))
        end
  end.

Definition unmap_range_in_pgtbl (pagetable va size : Z) s : res (vmem K * Z) :=
  let last := PGROUNDDOWN (u64 (u64 (va + size) - 1)) in
  finished (run_upto max_pages (unmap_step pagetable last) (s, PGROUNDDOWN va)).

(** include/memlayout.h *)
Definition CLINT : Z := 0x2000000.
Definition UART0 : Z := 0x10000000.
Definition VIRTIO0 : Z := 0x10001000.
Definition PLIC_ADDR : Z := 0x0c000000.
Definition KERNBASE : Z := 0x80000000.
Definition PHYSTOP : Z := KERNBASE + 128 * 1024 * 1024.

(** [etext] is the end of the kernel code; the results of the calls are not used. *)
Definition map_kernel_page (etext pagetable : Z) s : res (vmem K) :=
  let* '(s, _) := map_range_in_pgtbl pagetable CLINT CLINT 0x10000 (Z.lor PTE_R PTE_W) s in
  let* '(s, _) := map_range_in_pgtbl pagetable UART0 UART0 PGSIZE (Z.lor PTE_R PTE_W) s in
  let* '(s, _) := map_range_in_pgtbl pagetable VIRTIO0 VIRTIO0 (PGSIZE * 8) (Z.lor PTE_R PTE_W) s in
  let* '(s, _) := map_range_in_pgtbl pagetable PLIC_ADDR PLIC_ADDR 0x400000 (Z.lor PTE_R PTE_W) s in
  let* '(s, _) := map_range_in_pgtbl pagetable KERNBASE KERNBASE (u64 (etext - KERNBASE)) (Z.lor PTE_R PTE_X) s in
  let* '(s, _) := map_range_in_pgtbl pagetable etext etext (u64 (PHYSTOP - etext)) (Z.lor PTE_R PTE_W) s in
  Ok s.

(** The kernel page table and the value of the [satp] register. *)
Definition do_kvm_init (etext : Z) s : res (vmem K * Z * Z) :=
  let* '(s, kernel_pagetable) := pagetable_create s in
  let* s := map_kernel_page etext kernel_pagetable s in
  Ok (s, kernel_pagetable, MAKE_SATP kernel_pagetable).
End ops.

(** ** The processor

    The walk of Sv39, on the words that [ptes] holds. *)

(** The bits of an entry that are left when no field of Sv39 is too wide: the page number has
    44 bits, the bits above it are reserved and fault when they are set. *)
Definition pte_bits : Z := 2 ^ 54.

(** Accessed and dirty: the kernel leaves them to the processor. *)
Definition PTE_A : Z := 64.
Definition PTE_D : Z := 128.

(** The next table: a valid entry without R, W and X; U, A and D are reserved in it.  Entries
    with R, W or X are leaves, which the kernel has only on the last level. *)
Definition sv39_next (m : gmap Z Z) (table i : Z) : option Z :=
  match m !! pte_at table i with
  | Some e =>
      if (Z.land e PTE_V =? 0) || negb (Z.land e (PTE_R + PTE_W + PTE_X + PTE_U + PTE_A + PTE_D) =? 0) || (pte_bits <=? e)
      then None else Some (PTE2PA e)
  | None => None
  end.

(** R or X is set, and R when W is: the permissions of a page.  Without R, W and X the entry
    names a table, which faults on the last level; W without R is reserved. *)
Definition page_perm (e : Z) : bool :=
  negb (Z.land e (PTE_R + PTE_X) =? 0) && ((Z.land e PTE_W =? 0) || negb (Z.land e PTE_R =? 0)).

(** The physical address and the flags from an entry of the last level. *)
Definition sv39_leaf (e va : Z) : option (Z * Z) :=
  if negb (Z.land e PTE_V =? 0) && page_perm e && (e <? pte_bits) then Some (PTE2PA e + va mod PGSIZE, Z.land e 0x3FF) else None.

(** The physical address and the flags for a virtual address. *)
Definition translate (m : gmap Z Z) (root va : Z) : option (Z * Z) :=
  match sv39_next m root (PX 2 va) with
  | None => None
  | Some p1 =>
      match sv39_next m p1 (PX 1 va) with
      | None => None
      | Some p0 => match m !! pte_at p0 (PX 0 va) with Some e => sv39_leaf e va | None => None end
      end
  end.
