(* ===== verification/VmProof.v ===== *)
(** * VmProof: the page tables are trees of pages of their own

    [vm_ok s Hp T]: [T] gives the page of every table, by its root and the indices that
    lead to it; no page belongs to two tables, so that a change in one address space cannot
    be seen in another. *)

From S2P Require Import Prelude Bits ListHead CMem Buddy BuddyBlocks BuddyProof PageAlloc MemPool MemPoolProof Kalloc KallocProof Alloc Vm.

(** ** Indices and entries *)

Lemma PX_range l va : 0 <= PX l va < 512.
Proof. unfold PX, PXMASK. change 0x1FF with (Z.ones 9). rewrite Z.land_ones by lia. apply Z.mod_pos_bound. lia. Qed.

Lemma PX_div l va : 0 <= l -> PX l va = (va / 2 ^ (12 + 9 * l)) mod 512.
Proof.
  intros. unfold PX, PXMASK, PXSHIFT. change 0x1FF with (Z.ones 9). rewrite Z.land_ones, Z.shiftr_div_pow2 by lia. done.
Qed.

(** The three indices make up the page number. *)
Lemma page_of_indices va : 0 <= va < MAXVA -> va / PGSIZE = PX 2 va * 2 ^ 18 + PX 1 va * 2 ^ 9 + PX 0 va.
Proof.
  intros Hva. rewrite !PX_div by lia. unfold PGSIZE, MAXVA in *. change (2 ^ (12 + 9 * 2)) with (4096 * (512 * 512)).
  change (2 ^ (12 + 9 * 1)) with (4096 * 512). change (2 ^ (12 + 9 * 0)) with 4096.
  rewrite <- !Z.div_div by lia. set (n := va / 4096).
  assert (0 <= n < 2 ^ 26) by (unfold n; split; [apply Z.div_pos; lia|apply Z.div_lt_upper_bound; lia]).
  rewrite (Z.mod_small (n / 512 / 512)); [|split; [apply Z.div_pos; [apply Z.div_pos; lia|lia]|]].
  - pose proof (Z.div_mod n 512). pose proof (Z.div_mod (n / 512) 512). lia.
  - rewrite Z.div_div by lia. apply Z.div_lt_upper_bound; lia.
Qed.

Lemma indices_inj va va' :
  0 <= va < MAXVA -> 0 <= va' < MAXVA -> PX 2 va = PX 2 va' -> PX 1 va = PX 1 va' -> PX 0 va = PX 0 va' -> va / PGSIZE = va' / PGSIZE.
Proof. intros H1 H2 E2 E1 E0. rewrite !page_of_indices by done. by rewrite E2, E1, E0. Qed.

Lemma indices_page l va va' : 0 <= l -> va / PGSIZE = va' / PGSIZE -> PX l va = PX l va'.
Proof.
  intros Hl E. rewrite !PX_div by done. rewrite Z.pow_add_r by lia. change (2 ^ 12) with PGSIZE.
  assert (0 < 2 ^ (9 * l)) by (apply Z.pow_pos_nonneg; lia). rewrite <- !Z.div_div by (unfold PGSIZE; lia). by rewrite E.
Qed.

Lemma PA2PTE_spec pa : 0 <= pa < 2 ^ 64 -> PA2PTE pa = (pa / PGSIZE) * 2 ^ 10.
Proof.
  intros Hp. unfold PA2PTE, PGSIZE. rewrite Z.shiftl_mul_pow2, Z.shiftr_div_pow2 by lia. change (2 ^ 12) with 4096.
  apply u64_small. pose proof (Z.div_lt_upper_bound pa 4096 (2 ^ 52)). pose proof (Z.div_pos pa 4096). lia.
Qed.

(** The low ten bits of an entry are flags. *)
Lemma pte_split a f : 0 <= a -> 0 <= f < 2 ^ 10 -> Z.lor (a * 2 ^ 10) f = a * 2 ^ 10 + f.
Proof.
  intros Ha Hf. rewrite <- Z.add_lor_land, (Z.land_comm _ f).
  enough (Z.land f (a * 2 ^ 10) = 0) by lia. apply Z.bits_inj'. intros n Hn. rewrite Z.land_spec, Z.bits_0.
  destruct (Z.lt_ge_cases n 10).
  - rewrite Z.mul_pow2_bits_low by lia. apply andb_false_r.
  - rewrite Z.bits_above_log2; [done|lia|]. destruct (decide (f = 0)) as [->|]; [change (Z.log2 0) with 0; lia|].
    assert (Z.log2 f < 10) by (apply Z.log2_lt_pow2; lia). lia.
Qed.

Lemma flags_lor f g : 0 <= f < 2 ^ 10 -> 0 <= g < 2 ^ 10 -> 0 <= Z.lor f g < 2 ^ 10.
Proof.
  intros Hf Hg. assert (Hn : 0 <= Z.lor f g) by (apply Z.lor_nonneg; lia). split; [done|].
  destruct (decide (Z.lor f g = 0)) as [->|]; [lia|]. apply Z.log2_lt_pow2; [lia|]. rewrite Z.log2_lor by lia.
  assert (Hl : forall x, 0 <= x < 2 ^ 10 -> Z.log2 x < 10).
  { intros x Hx. destruct (decide (x = 0)) as [->|]; [change (Z.log2 0) with 0; lia|]. apply Z.log2_lt_pow2; lia. }
  apply Z.max_lub_lt; by apply Hl.
Qed.

Lemma PTE2PA_entry pa f : 0 <= pa < 2 ^ 64 -> 0 <= f < 2 ^ 10 -> PTE2PA (Z.lor (PA2PTE pa) f) = pa / PGSIZE * PGSIZE.
Proof.
  intros Hp Hf. rewrite PA2PTE_spec by done. pose proof (Z.div_pos pa PGSIZE). unfold PGSIZE in *.
  rewrite pte_split by lia. unfold PTE2PA. rewrite Z.shiftl_mul_pow2, Z.shiftr_div_pow2 by lia.
  rewrite Z.div_add_l, (Z.div_small f), Z.add_0_r by lia. apply u64_small.
  pose proof (Z.div_lt_upper_bound pa 4096 (2 ^ 52)). change (2 ^ 12) with 4096. lia.
Qed.

Lemma PTE_flags pa f : 0 <= pa < 2 ^ 64 -> 0 <= f < 2 ^ 10 -> Z.land (Z.lor (PA2PTE pa) f) 0x3FF = f.
Proof.
  intros Hp Hf. rewrite PA2PTE_spec by done. pose proof (Z.div_pos pa PGSIZE). unfold PGSIZE in *.
  rewrite pte_split by lia. change 0x3FF with (Z.ones 10). rewrite Z.land_ones by lia.
  rewrite Z.add_comm, Z.mod_add by lia. apply Z.mod_small. lia.
Qed.

Lemma land_low e f : Z.land 0x3FF f = f -> Z.land e f = Z.land (Z.land e 0x3FF) f.
Proof. intros Hf. by rewrite <- Z.land_assoc, Hf. Qed.

Lemma rounddown_spec a : 0 <= a < 2 ^ 64 -> PGROUNDDOWN a = a / PGSIZE * PGSIZE.
Proof.
  intros Ha. unfold PGROUNDDOWN, PGSIZE. change (not64 (4096 - 1)) with (Z.shiftl (Z.ones 52) 12).
  replace (Z.land a (Z.shiftl (Z.ones 52) 12)) with (Z.shiftl (Z.land (Z.shiftr a 12) (Z.ones 52)) 12).
  - rewrite Z.land_ones, Z.shiftl_mul_pow2, Z.shiftr_div_pow2 by lia. change (2 ^ 12) with 4096.
    rewrite Z.mod_small; [done|]. split; [apply Z.div_pos; lia|apply Z.div_lt_upper_bound; lia].
  - apply Z.bits_inj'. intros n Hn. rewrite Z.land_spec. destruct (Z.lt_ge_cases n 12).
    + rewrite !Z.shiftl_spec_low by lia. by rewrite andb_false_r.
    + rewrite !Z.shiftl_spec by lia. rewrite Z.land_spec, Z.shiftr_spec by lia. f_equal. f_equal. lia.
Qed.

(** ** Words of pages *)

Lemma pte_at_inj p q i j :
  (PGSIZE | p) -> (PGSIZE | q) -> 0 <= i < 512 -> 0 <= j < 512 -> pte_at p i = pte_at q j -> p = q /\ i = j.
Proof. intros [a ->] [b ->]. unfold pte_at, PGSIZE. lia. Qed.

Lemma zero_page_lookup p m a :
  zero_page p m !! a = if decide (a ∈ pte_at p <$> seqZ 0 512) then Some 0 else m !! a.
Proof.
  unfold zero_page. revert m. induction (seqZ 0 512) as [|i l IH]; intros m; cbn; [by rewrite decide_False by apply not_elem_of_nil|].
  rewrite IH. destruct (decide (a ∈ pte_at p <$> l)) as [Hin|Hin]; [by rewrite decide_True by (by right)|].
  destruct (decide (a = pte_at p i)) as [->|Hne]; [by rewrite lookup_insert_eq, decide_True by (by left)|].
  rewrite lookup_insert_ne, decide_False by (rewrite ?elem_of_cons; naive_solver). done.
Qed.

Lemma zero_page_in p m i : 0 <= i < 512 -> zero_page p m !! pte_at p i = Some 0.
Proof.
  intros Hi. rewrite zero_page_lookup, decide_True; [done|]. apply list_elem_of_fmap. exists i. by rewrite elem_of_seqZ.
Qed.

Lemma zero_page_out p q m j : (PGSIZE | p) -> (PGSIZE | q) -> q <> p -> 0 <= j < 512 -> zero_page p m !! pte_at q j = m !! pte_at q j.
Proof.
  intros Hp Hq Hne Hj. rewrite zero_page_lookup, decide_False; [done|]. intros (i & E & Hi)%list_elem_of_fmap.
  rewrite elem_of_seqZ in Hi. by destruct (pte_at_inj q p j i) as [? _].
Qed.

(** ** The tree of tables *)

Section tables.
Context {K : Type} `{KernelHeap K}.
Implicit Types (s : vmem K) (Hp : gmap Z Z) (T : gmap (Z * list Z) Z) (path : list Z).

(** The entry for a table below. *)
Definition dir_entry (o : option Z) : Z := match o with Some q => Z.lor (PA2PTE q) PTE_V | None => 0 end.

Record vm_ok s Hp T : Prop := mk_vm_ok {
  v_heap : kh_inv (vheap s) Hp;
  v_page x p : T !! x = Some p -> (exists n, Hp !! p = Some n /\ PGSIZE <= n) /\ (PGSIZE | p);
  v_inj x y p : T !! x = Some p -> T !! y = Some p -> x = y;
  v_root r p : T !! (r, []) = Some p -> p = r;
  v_child r path i p : T !! (r, path ++ [i]) = Some p -> is_Some (T !! (r, path)) /\ 0 <= i < 512 /\ (length path < 2)%nat;
  v_dir r path p i : T !! (r, path) = Some p -> (length path < 2)%nat -> 0 <= i < 512 ->
    ptes s !! pte_at p i = Some (dir_entry (T !! (r, path ++ [i])));
  v_leaf r path p i : T !! (r, path) = Some p -> length path = 2%nat -> 0 <= i < 512 -> is_Some (ptes s !! pte_at p i);
}.

(** The last-level entry for an address; 0 when there is no table for it. *)
Definition leaf s T (r va : Z) : Z :=
  match T !! (r, [PX 2 va; PX 1 va]) with
  | Some p => default 0 (ptes s !! pte_at p (PX 0 va))
  | None => 0
  end.

Lemma v_bound s Hp T x p : vm_ok s Hp T -> T !! x = Some p -> 0 < p < 2 ^ 56.
Proof.
  intros Hv Hx. destruct (v_page _ _ _ Hv _ _ Hx) as [(n & Hn & Hs) _].
  destruct (kh_region _ _ _ _ (v_heap _ _ _ Hv) Hn) as (? & ? & ?). unfold PGSIZE in Hs. lia.
Qed.

Lemma dir_entry_table q : 0 <= q < 2 ^ 64 -> (PGSIZE | q) ->
  Z.land (dir_entry (Some q)) PTE_V = 1 /\ PTE2PA (dir_entry (Some q)) = q.
Proof.
  intros Hq Hd. cbn [dir_entry]. split.
  - rewrite (land_low _ PTE_V) by done. unfold PTE_V. rewrite PTE_flags by lia. done.
  - unfold PTE_V. rewrite PTE2PA_entry by lia. destruct Hd as [a ->]. by rewrite Z.div_mul.
Qed.

(** A table that is added below an existing one. *)
Lemma add_table s Hp T r path p i k q n :
  vm_ok s Hp T -> T !! (r, path) = Some p -> (length path < 2)%nat -> 0 <= i < 512 -> T !! (r, path ++ [i]) = None ->
  Hp !! q = None -> PGSIZE <= n -> (PGSIZE | q) -> kh_inv k (<[q := n]> Hp) ->
  let s' := set_pte (pte_at p i) (Z.lor (PA2PTE q) PTE_V) (mk_vmem k (zero_page q (ptes s))) in
  vm_ok s' (<[q := n]> Hp) (<[(r, path ++ [i]) := q]> T) /\
  forall r' va', leaf s' (<[(r, path ++ [i]) := q]> T) r' va' = leaf s T r' va'.
Proof.
  intros Hv Ep Hl Hi En Hq Hn Hd Hk s'. pose proof Hv as [Hh Hpg Hinj Hroot Hch Hdir Hlf].
  assert (Hqx : forall x p', T !! x = Some p' -> p' <> q) by (intros x p' Ex ->; destruct (Hpg _ _ Ex) as [(? & ? & _) _]; congruence).
  assert (Hold : forall x p' j, T !! x = Some p' -> 0 <= j < 512 -> (p', j) <> (p, i) -> ptes s' !! pte_at p' j = ptes s !! pte_at p' j).
  { intros x p' j Ex Hj Hne. destruct (Hpg _ _ Ex) as [_ Hd']. destruct (Hpg _ _ Ep) as [_ Hdp]. cbn.
    rewrite lookup_insert_ne by (intros E; by destruct (pte_at_inj p p' i j) as [-> ->]).
    apply zero_page_out; eauto. }
  assert (Hnew : forall j, 0 <= j < 512 -> ptes s' !! pte_at q j = Some 0).
  { intros j Hj. cbn. destruct (Hpg _ _ Ep) as [_ Hdp]. rewrite lookup_insert_ne; [by apply zero_page_in|].
    intros E. destruct (pte_at_inj p q i j) as [-> _]; try done. by eapply (Hqx _ q). }
  assert (Hkid : forall j, T !! (r, (path ++ [i]) ++ [j]) = None).
  { intros j. destruct (T !! (r, (path ++ [i]) ++ [j])) eqn:E; [|done]. apply Hch in E as ([? E] & _). congruence. }
  split; [split|].
  - done.
  - intros x p' Ex. destruct (decide (x = (r, path ++ [i]))) as [->|].
    + rewrite lookup_insert_eq in Ex. injection Ex as <-. split; [|done]. exists n. by rewrite lookup_insert_eq.
    + rewrite lookup_insert_ne in Ex by done. destruct (Hpg _ _ Ex) as [(n' & E' & ?) ?]. split; [|done]. exists n'.
      rewrite lookup_insert_ne by (intros ->; congruence). done.
  - intros x y p' Ex Ey.
    destruct (decide (x = (r, path ++ [i]))) as [->|], (decide (y = (r, path ++ [i]))) as [->|]; try done;
      repeat match goal with
             | H : <[_ := _]> T !! _ = Some _ |- _ => first [rewrite lookup_insert_eq in H|rewrite lookup_insert_ne in H by done]
             end.
    + injection Ex as <-. by destruct (Hqx _ _ Ey).
    + injection Ey as <-. by destruct (Hqx _ _ Ex).
    + by eapply Hinj.
  - intros r' p' Ex. rewrite lookup_insert_ne in Ex; [eauto|]. intros [= _ E]. by destruct path.
  - intros r' path' j p' Ex. destruct (decide ((r', path' ++ [j]) = (r, path ++ [i]))) as [E|Hne].
    + injection E as -> E. apply app_inj_tail in E as [-> ->]. split_and!; try done; try lia.
      rewrite lookup_insert_ne; [by rewrite Ep|]. intros [= E]. apply (f_equal length) in E. rewrite length_app in E. cbn in E. lia.
    + rewrite lookup_insert_ne in Ex by done. destruct (Hch _ _ _ _ Ex) as ([p0 E0] & ? & ?). split_and!; try done; try lia.
      destruct (decide ((r', path') = (r, path ++ [i]))) as [->|]; [by rewrite lookup_insert_eq|]. by rewrite lookup_insert_ne, E0.
  - intros r' path' p' j Ex Hl' Hj. destruct (decide ((r', path') = (r, path ++ [i]))) as [[= -> ->]|Hne].
    + rewrite lookup_insert_eq in Ex. injection Ex as <-. rewrite lookup_insert_ne, Hkid, Hnew; [done|done|].
      intros [= E]. apply (f_equal length) in E. rewrite !length_app in E. cbn in E. lia.
    + rewrite lookup_insert_ne in Ex by done. destruct (decide ((r', path' ++ [j]) = (r, path ++ [i]))) as [E|Hne'].
      * injection E as -> E. apply app_inj_tail in E as [-> ->]. rewrite Ep in Ex. injection Ex as <-.
        rewrite lookup_insert_eq. cbn. by rewrite lookup_insert_eq.
      * rewrite lookup_insert_ne by done. rewrite (Hold _ _ _ Ex Hj); [by eapply Hdir|]. intros [= -> ->].
        pose proof (Hinj _ _ _ Ex Ep). congruence.
  - intros r' path' p' j Ex Hl' Hj. destruct (decide ((r', path') = (r, path ++ [i]))) as [[= -> ->]|Hne].
    + rewrite lookup_insert_eq in Ex. injection Ex as <-. by rewrite Hnew.
    + rewrite lookup_insert_ne in Ex by done. rewrite (Hold _ _ _ Ex Hj); [by eapply Hlf|]. intros [= -> ->].
      pose proof (Hinj _ _ _ Ex Ep) as [= -> ->]. lia.
  - intros r' va'. unfold leaf. pose proof (PX_range 0 va') as Hj.
    destruct (decide ((r', [PX 2 va'; PX 1 va']) = (r, path ++ [i]))) as [E|Hne].
    + rewrite E, lookup_insert_eq, En, Hnew by done. done.
    + rewrite lookup_insert_ne by done. destruct (T !! (r', _)) as [p'|] eqn:Ex; [|done]. rewrite (Hold _ _ _ Ex Hj); [done|].
      intros [= -> Ej]. pose proof (Hinj _ _ _ Ex Ep) as E. injection E as _ E. rewrite <- E in Hl. cbn in Hl. lia.
Qed.
(** ** Walking *)

(** The indices from level [l] down to 1. *)
Fixpoint indices (l : nat) (va : Z) : list Z := match l with O => [] | S m => PX (Z.of_nat l) va :: indices m va end.

Definition leaf_path (va : Z) : list Z := [PX 2 va; PX 1 va].

Lemma indices_2 va : indices 2 va = leaf_path va.
Proof. done. Qed.

Lemma length_indices l va : length (indices l va) = l.
Proof. induction l; cbn; congruence. Qed.

Lemma walk_path path l va : path ++ indices l va = leaf_path va -> (length path + l = 2)%nat.
Proof. intros E. apply (f_equal length) in E. by rewrite length_app, length_indices in E. Qed.

(** One level of the walk: the entry is that of the table below, or has no table. *)
Lemma walk_level s Hp T r path p l va :
  vm_ok s Hp T -> T !! (r, path) = Some p -> path ++ indices (S l) va = leaf_path va ->
  (length path < 2)%nat /\ path ++ [PX (Z.of_nat (S l)) va] ++ indices l va = leaf_path va /\
  ptes s !! pte_at p (PX (Z.of_nat (S l)) va) = Some (dir_entry (T !! (r, path ++ [PX (Z.of_nat (S l)) va]))).
Proof.
  intros Hv Ep Epath. assert (length path < 2)%nat by (pose proof (walk_path _ _ _ Epath); lia).
  split_and!; [done|done|]. eapply v_dir; eauto. apply PX_range.
Qed.

Lemma walk_loop_alloc r va : forall l path p s Hp T,
  vm_ok s Hp T -> T !! (r, path) = Some p -> path ++ indices l va = leaf_path va ->
  exists s' Hp' T' q, walk_loop l p va true s = Ok (s', q) /\ vm_ok s' Hp' T' /\ (T ⊆ T' /\ Hp ⊆ Hp') /\
    (forall r' va', leaf s' T' r' va' = leaf s T r' va') /\
    ((q = 0 /\ no_page (vheap s')) \/ exists p0, T' !! (r, leaf_path va) = Some p0 /\ q = pte_at p0 (PX 0 va)).
Proof.
  induction l as [|l IH]; intros path p s Hp T Hv Ep Epath.
  - cbn in Epath. rewrite app_nil_r in Epath. subst path. exists s, Hp, T, (pte_at p (PX 0 va)). split_and!; eauto.
  - destruct (walk_level _ _ _ _ _ _ _ _ Hv Ep Epath) as (Hl & Epath' & Ee). set (i := PX (Z.of_nat (S l)) va) in *.
    rewrite app_assoc in Epath'. cbn [walk_loop]. fold i. rewrite Ee. cbn [deref res_bind].
    destruct (T !! (r, path ++ [i])) as [q|] eqn:Eq.
    + destruct (dir_entry_table q) as [-> ->]; [pose proof (v_bound _ _ _ _ _ Hv Eq); lia|by eapply v_page|]. cbn [Z.eqb negb].
      by eapply (IH (path ++ [i])).
    + cbn [dir_entry]. change (negb (Z.land 0 PTE_V =? 0)) with false. cbn iota.
      destruct (kh_alloc_page_ok _ _ 1 (v_heap _ _ _ Hv)) as (k & q & Ek & Hor); [done|]. rewrite Ek. cbn [res_bind].
      destruct Hor as [[-> ->]|(n & Hn & Hf & Hd & Hk)].
      { cbn [Z.eqb]. exists s, Hp, T, 0. destruct s. split_and!; try done. by left. }
      destruct (kh_region _ _ _ _ Hk (lookup_insert_eq _ _ _)) as (_ & Hq0 & _). rewrite (proj2 (Z.eqb_neq q 0)) by lia.
      destruct (add_table s Hp T r path p i k q n) as [Hv' Hleaf]; [done|done|done|apply PX_range|done|done|unfold PAGE_SIZE in Hn; unfold PGSIZE; lia|done|done|].
      cbn [ptes]. destruct (IH (path ++ [i]) q _ _ _ Hv') as (s' & Hp' & T' & q' & Ew & Hv2 & Hsub & Hleaf2 & Hq').
      { apply lookup_insert_eq. } { done. }
      destruct Hsub as [Hsub HsubH]. exists s', Hp', T', q'. split_and!; try done.
      * etrans; [by apply insert_subseteq|done].
      * etrans; [by apply insert_subseteq|done].
      * intros r' va'. by rewrite Hleaf2, Hleaf.
Qed.

Lemma walk_alloc s Hp T r va :
  vm_ok s Hp T -> T !! (r, []) = Some r -> 0 <= va < MAXVA ->
  exists s' Hp' T' q, walk r va true s = Ok (s', q) /\ vm_ok s' Hp' T' /\ (T ⊆ T' /\ Hp ⊆ Hp') /\
    (forall r' va', leaf s' T' r' va' = leaf s T r' va') /\
    ((q = 0 /\ no_page (vheap s')) \/ exists p0, T' !! (r, leaf_path va) = Some p0 /\ q = pte_at p0 (PX 0 va)).
Proof.
  intros Hv Er Hva. unfold walk. rewrite (proj2 (Z.leb_gt _ _)) by lia. by eapply (walk_loop_alloc r va 2 []).
Qed.

Lemma walk_loop_find r va s Hp T : vm_ok s Hp T -> forall l path p,
  T !! (r, path) = Some p -> path ++ indices l va = leaf_path va ->
  walk_loop l p va false s = Ok (s, match T !! (r, leaf_path va) with Some p0 => pte_at p0 (PX 0 va) | None => 0 end).
Proof.
  intros Hv. induction l as [|l IH]; intros path p Ep Epath.
  - cbn in Epath. rewrite app_nil_r in Epath. subst path. by rewrite Ep.
  - destruct (walk_level _ _ _ _ _ _ _ _ Hv Ep Epath) as (Hl & Epath' & Ee). set (i := PX (Z.of_nat (S l)) va) in *.
    rewrite app_assoc in Epath'. cbn [walk_loop]. fold i. rewrite Ee. cbn [deref res_bind].
    destruct (T !! (r, path ++ [i])) as [q|] eqn:Eq.
    + destruct (dir_entry_table q) as [-> ->]; [pose proof (v_bound _ _ _ _ _ Hv Eq); lia|by eapply v_page|]. cbn [Z.eqb negb].
      by apply (IH (path ++ [i])).
    + cbn [dir_entry]. change (negb (Z.land 0 PTE_V =? 0)) with false. cbn iota.
      destruct (T !! (r, leaf_path va)) as [p0|] eqn:E0; [|done]. exfalso.
      assert (Hdown : forall l path, T !! (r, path) = None -> T !! (r, path ++ indices l va) = None).
      { clear -Hv. induction l as [|l IH]; intros path En; cbn [indices]; [by rewrite app_nil_r|].
        replace (path ++ PX (Z.of_nat (S l)) va :: indices l va) with ((path ++ [PX (Z.of_nat (S l)) va]) ++ indices l va)
          by (by rewrite <- app_assoc).
        apply IH. destruct (T !! (r, path ++ [PX (Z.of_nat (S l)) va])) eqn:E; [|done]. apply (v_child _ _ _ Hv) in E as ([? E] & _). congruence. }
      pose proof (Hdown l (path ++ [i]) Eq) as Hn. rewrite Epath' in Hn. congruence.
Qed.

Lemma walk_find s Hp T r va :
  vm_ok s Hp T -> T !! (r, []) = Some r -> 0 <= va < MAXVA ->
  walk r va false s = Ok (s, match T !! (r, leaf_path va) with Some p0 => pte_at p0 (PX 0 va) | None => 0 end).
Proof.
  intros Hv Er Hva. unfold walk. rewrite (proj2 (Z.leb_gt _ _)) by lia. by apply (walk_loop_find r va s Hp T Hv 2 []).
Qed.

(** ** Writing a leaf *)

Lemma set_leaf_entry s Hp T r va p e :
  vm_ok s Hp T -> T !! (r, leaf_path va) = Some p -> 0 <= va < MAXVA ->
  vm_ok (set_pte (pte_at p (PX 0 va)) e s) Hp T /\
  forall r' va', 0 <= va' < MAXVA -> leaf (set_pte (pte_at p (PX 0 va)) e s) T r' va' =
    if decide (r' = r /\ va' / PGSIZE = va / PGSIZE) then e else leaf s T r' va'.
Proof.
  intros Hv Ep Hva. pose proof (PX_range 0 va) as Hi. pose proof Hv as [Hh Hpg Hinj Hroot Hch Hdir Hlf].
  assert (Hother : forall x p' j, T !! x = Some p' -> 0 <= j < 512 -> (x, j) <> ((r, leaf_path va), PX 0 va) ->
    <[pte_at p (PX 0 va) := e]> (ptes s) !! pte_at p' j = ptes s !! pte_at p' j).
  { intros x p' j Ex Hj Hne. rewrite lookup_insert_ne; [done|]. intros E. destruct (Hpg _ _ Ex), (Hpg _ _ Ep).
    destruct (pte_at_inj p p' (PX 0 va) j) as [-> <-]; try done. apply Hne. f_equal. by eapply Hinj. }
  split; [split; try done|].
  - intros r' path p' j Ex Hl Hj. cbn. rewrite (Hother _ _ _ Ex Hj); [by apply Hdir|]. intros [= _ -> _]. cbn in Hl. lia.
  - intros r' path p' j Ex Hl Hj. cbn. destruct (decide (pte_at p (PX 0 va) = pte_at p' j)) as [->|Hne].
    + by rewrite lookup_insert_eq.
    + rewrite lookup_insert_ne by done. by eapply Hlf.
  - intros r' va' Hva'. unfold leaf. destruct (decide (r' = r /\ va' / PGSIZE = va / PGSIZE)) as [[-> Epg]|Hne].
    + rewrite !(indices_page _ va' va) by done. change [PX 2 va; PX 1 va] with (leaf_path va). rewrite Ep. cbn. by rewrite lookup_insert_eq.
    + destruct (T !! (r', [PX 2 va'; PX 1 va'])) as [p'|] eqn:Ex; [|done]. cbn. rewrite (Hother _ _ _ Ex (PX_range 0 va')); [done|].
      intros [= -> E2 E1 E0]. apply Hne. split; [done|]. by apply indices_inj.
Qed.
(** ** Mapping a range *)

(** The entry for the page [i] pages after the start. *)
Definition range_entry (pa perm i : Z) : Z := Z.lor (Z.lor (PA2PTE (pa + i * PGSIZE)) perm) PTE_V.

Lemma in_page a va : (PGSIZE | a) -> va / PGSIZE = a / PGSIZE <-> a <= va < a + PGSIZE.
Proof.
  intros [q ->]. rewrite Z.div_mul by done. unfold PGSIZE. pose proof (Z.div_mod va 4096). pose proof (Z.mod_pos_bound va 4096).
  split; intros; nia.
Qed.

(** What is mapped after the first [m] pages. *)
Definition leaf_after s T (r a pa perm m : Z) (r' va' : Z) : Z :=
  if decide (r' = r /\ a <= va' < a + m * PGSIZE) then range_entry pa perm ((va' - a) / PGSIZE) else leaf s T r' va'.

Lemma range_entry_next pa perm a va :
  0 <= pa -> (va - a) / PGSIZE = (va - (a + PGSIZE)) / PGSIZE + 1 /\
  range_entry (pa + PGSIZE) perm ((va - (a + PGSIZE)) / PGSIZE) = range_entry pa perm ((va - a) / PGSIZE).
Proof.
  intros Hpa. assert (E : (va - a) / PGSIZE = (va - (a + PGSIZE)) / PGSIZE + 1).
  { replace (va - a) with (va - (a + PGSIZE) + 1 * PGSIZE) by lia. by rewrite Z.div_add. }
  split; [done|]. rewrite E. unfold range_entry. do 3 f_equal. unfold PGSIZE. lia.
Qed.

Lemma leaf_after_step s s' T T' r a pa perm m :
  (PGSIZE | a) -> 0 <= a -> 0 <= pa -> 0 <= m ->
  (forall r' va', 0 <= va' < MAXVA -> leaf s' T' r' va' = if decide (r' = r /\ va' / PGSIZE = a / PGSIZE) then range_entry pa perm 0 else leaf s T r' va') ->
  forall r' va', 0 <= va' < MAXVA -> leaf_after s' T' r (a + PGSIZE) (pa + PGSIZE) perm m r' va' = leaf_after s T r a pa perm (m + 1) r' va'.
Proof.
  intros Ha H0 Hp Hm Hl r' va' Hva'. unfold leaf_after. rewrite Hl by done. pose proof (in_page a va' Ha) as Hpg.
  destruct (range_entry_next pa perm a va' Hp) as [_ ->]. unfold PGSIZE in *.
  destruct (decide (r' = r)) as [->|]; [|by rewrite !decide_False by tauto].
  destruct (decide (a + 4096 <= va' < a + 4096 + m * 4096)).
  { by rewrite !decide_True by (split; [done|lia]). }
  rewrite decide_False by tauto. destruct (decide (a <= va' < a + 4096)) as [Hin|Hin].
  - rewrite !decide_True by (split; [done|first [lia|tauto]]). f_equal. symmetry. apply Z.div_small. lia.
  - rewrite !decide_False; [done|lia|tauto].
Qed.

Lemma u64_perm perm : 0 <= perm < 2 ^ 10 -> u64 perm = perm.
Proof. intros. apply u64_small. lia. Qed.

(** One page: out of memory, or mapped. *)
Lemma map_once r last perm s Hp T a pa :
  0 <= perm < 2 ^ 10 -> vm_ok s Hp T -> T !! (r, []) = Some r -> 0 <= a < MAXVA ->
  exists s' Hp' T', vm_ok s' Hp' T' /\ (T ⊆ T' /\ Hp ⊆ Hp') /\
    ((map_step r last perm (s, a, pa) = inr (Ok (s', -1)) /\ no_page (vheap s') /\ forall r' va', leaf s' T' r' va' = leaf s T r' va') \/
     (map_step r last perm (s, a, pa) = (if a =? last then inr (Ok (s', 0)) else inl (s', u64 (a + PGSIZE), u64 (pa + PGSIZE))) /\
      forall r' va', 0 <= va' < MAXVA ->
        leaf s' T' r' va' = if decide (r' = r /\ va' / PGSIZE = a / PGSIZE) then range_entry pa perm 0 else leaf s T r' va')).
Proof.
  intros Hperm Hv Er Ha. unfold map_step.
  destruct (walk_alloc s Hp T r a Hv Er Ha) as (s1 & Hp1 & T1 & q & Ew & Hv1 & Hsub & Hleaf & Hq). rewrite Ew.
  destruct Hq as [[-> Hno]|(p0 & Ep0 & ->)].
  { exists s1, Hp1, T1. split; [done|]. split; [done|by left]. }
  assert (Hq0 : pte_at p0 (PX 0 a) <> 0).
  { pose proof (v_bound _ _ _ _ _ Hv1 Ep0). pose proof (PX_range 0 a). unfold pte_at. lia. }
  rewrite (proj2 (Z.eqb_neq _ _) Hq0).
  destruct (v_leaf _ _ _ Hv1 _ _ _ (PX 0 a) Ep0 eq_refl (PX_range 0 a)) as [e Ee]. rewrite Ee, u64_perm by done.
  destruct (set_leaf_entry s1 Hp1 T1 r a p0 (range_entry pa perm 0) Hv1 Ep0 Ha) as [Hv2 Hleaf2].
  assert (Ent : Z.lor (Z.lor (PA2PTE pa) perm) PTE_V = range_entry pa perm 0) by (unfold range_entry; by rewrite Z.mul_0_l, Z.add_0_r).
  rewrite Ent. eexists _, Hp1, T1. split; [exact Hv2|]. split; [done|right]. split; [done|].
  intros r' va' Hva'. by rewrite Hleaf2, Hleaf.
Qed.

Lemma map_loop r last perm : 0 <= perm < 2 ^ 10 -> forall n s Hp T a pa,
  vm_ok s Hp T -> T !! (r, []) = Some r -> (PGSIZE | a) -> 0 <= a -> 0 <= pa ->
  last = a + Z.of_nat n * PGSIZE -> last < MAXVA -> pa + Z.of_nat n * PGSIZE < 2 ^ 64 ->
  exists s' Hp' T' rc m, run_steps (S n) (map_step r last perm) (s, a, pa) = inr (Ok (s', rc)) /\
    vm_ok s' Hp' T' /\ (T ⊆ T' /\ Hp ⊆ Hp') /\ 0 <= m <= Z.of_nat n + 1 /\ ((rc = 0 /\ m = Z.of_nat n + 1) \/ (rc = -1 /\ m < Z.of_nat n + 1 /\ no_page (vheap s'))) /\
    forall r' va', 0 <= va' < MAXVA -> leaf s' T' r' va' = leaf_after s T r a pa perm m r' va'.
Proof.
  intros Hperm. induction n as [|n IH]; intros s Hp T a pa Hv Er Ha H0 Hpa El Hlast Hend;
    destruct (map_once r last perm s Hp T a pa Hperm Hv Er) as (s1 & Hp1 & T1 & Hv1 & [Hsub HsubH] & Hor); try (unfold PGSIZE in *; lia); cbn [run_steps].
  all: destruct Hor as [(-> & Hno & Hleaf)|[-> Hleaf]].
  1,3: exists s1, Hp1, T1, (-1), 0; split_and!; try done; try lia; [right; split_and!; [done|lia|done]|];
    intros r' va' _; unfold leaf_after; rewrite decide_False by (unfold PGSIZE; lia); apply Hleaf.
  - rewrite (proj2 (Z.eqb_eq a last)) by lia. exists s1, Hp1, T1, 0, 1. split_and!; try done; try lia.
    intros r' va' Hva'. rewrite Hleaf by done. pose proof (in_page a va' Ha) as Hpg. unfold leaf_after, PGSIZE in *.
    destruct (decide (r' = r /\ va' / 4096 = a / 4096)) as [[-> Hin%Hpg]|Hn].
    + rewrite decide_True by (split; [done|lia]). by rewrite (Z.div_small (va' - a)) by lia.
    + rewrite decide_False; [done|]. intros [-> ?]. apply Hn. split; [done|]. apply Hpg. lia.
  - unfold PGSIZE in El, Hend. rewrite (proj2 (Z.eqb_neq a last)) by lia. rewrite !u64_small by (unfold PGSIZE, MAXVA in *; lia).
    destruct (IH s1 Hp1 T1 (a + PGSIZE) (pa + PGSIZE) Hv1) as (s' & Hp' & T' & rc & m & Es & Hv' & [Hsub' HsubH'] & Hm & Hrc & Hleaf');
      try (unfold PGSIZE; lia).
    { by eapply lookup_weaken. } { apply Z.divide_add_r; [done|by exists 1]. }
    exists s', Hp', T', rc, (m + 1). split_and!; try done; try lia; [by etrans..|destruct Hrc as [?|(? & ? & ?)]; [left; lia|right; split_and!; [done|lia|done]]|].
    intros r' va' Hva'. rewrite Hleaf' by done. by apply (leaf_after_step s _ T T1); try lia.
Qed.
Lemma run_steps_enough {A B} (f : A -> A + B) m n a b : run_steps m f a = inr b -> (m <= n)%nat -> run_steps n f a = inr b.
Proof. intros E Hle. replace n with (m + (n - m))%nat by lia. by rewrite run_steps_add, E. Qed.

Lemma mask_aligned a : Z.land a PAGE_MASK = 0 <-> (PGSIZE | a).
Proof.
  unfold PAGE_MASK, PGSIZE. change (4096 - 1) with (Z.ones 12). rewrite Z.land_ones by lia. apply Z.mod_divide. done.
Qed.

(** The pages of a range: [n] more after the first. *)
Lemma range_pages va size :
  (PGSIZE | va) -> 0 <= va -> (PGSIZE | size) -> 0 < size -> va + size <= MAXVA ->
  exists n, size = (Z.of_nat n + 1) * PGSIZE /\ PGROUNDDOWN va = va /\
    PGROUNDDOWN (u64 (u64 (va + size) - 1)) = va + Z.of_nat n * PGSIZE /\ (S n <= Pos.to_nat max_pages)%nat.
Proof.
  intros [q ->] H0 [c ->] Hs Hmax. unfold PGSIZE, MAXVA in *. exists (Z.to_nat (c - 1)). rewrite !Z2Nat.id by lia.
  rewrite (u64_small (q * 4096 + c * 4096)) by lia. rewrite u64_small by lia. rewrite !rounddown_spec by lia. unfold PGSIZE. split_and!.
  - f_equal. lia.
  - by rewrite Z.div_mul.
  - replace (q * 4096 + c * 4096 - 1) with ((q + c - 1) * 4096 + 4095) by lia. rewrite Z.div_add_l, (Z.div_small 4095) by lia. lia.
  - assert (Hmp : Z.of_nat (Pos.to_nat max_pages) = 2 ^ 27) by (rewrite positive_nat_Z; reflexivity). lia.
Qed.

Lemma map_range_ok s Hp T r va pa size perm :
  vm_ok s Hp T -> T !! (r, []) = Some r -> (PGSIZE | va) -> 0 <= va -> (PGSIZE | size) -> 0 < size -> va + size <= MAXVA ->
  0 <= pa -> pa + size <= 2 ^ 64 -> 0 <= perm < 2 ^ 10 ->
  exists s' Hp' T' rc m, map_range_in_pgtbl r va pa size perm s = Ok (s', rc) /\ vm_ok s' Hp' T' /\ (T ⊆ T' /\ Hp ⊆ Hp') /\
    0 <= m <= size / PGSIZE /\ ((rc = 0 /\ m = size / PGSIZE) \/ (rc = -1 /\ m < size / PGSIZE /\ no_page (vheap s'))) /\
    forall r' va', 0 <= va' < MAXVA -> leaf s' T' r' va' = leaf_after s T r va pa perm m r' va'.
Proof.
  intros Hv Er Ha H0 Hs Hs0 Hmax Hp0 Hpa Hperm. destruct (range_pages va size) as (n & Es & Eva & Elast & Hn); try done.
  unfold map_range_in_pgtbl. rewrite (proj2 (mask_aligned va)), (proj2 (mask_aligned size)) by done. cbn [Z.eqb negb orb].
  rewrite Eva, Elast.
  destruct (map_loop r (va + Z.of_nat n * PGSIZE) perm Hperm n s Hp T va pa) as (s' & Hp' & T' & rc & m & El & Hv' & Hsub & Hm & Hrc & Hleaf);
    try done; try (unfold PGSIZE in *; lia).
  rewrite run_upto_steps, (run_steps_enough _ _ _ _ _ El Hn). exists s', Hp', T', rc, m. rewrite Es, Z.div_mul by done. done.
Qed.

(** ** Unmapping a range *)

Lemma unmap_loop r last Hp T : T !! (r, []) = Some r -> forall n s a,
  vm_ok s Hp T -> (PGSIZE | a) -> 0 <= a -> last = a + Z.of_nat n * PGSIZE -> last < MAXVA ->
  (forall i, 0 <= i <= Z.of_nat n -> is_Some (T !! (r, leaf_path (a + i * PGSIZE)))) ->
  exists s', run_steps (S n) (unmap_step r last) (s, a) = inr (Ok (s', 0)) /\ vm_ok s' Hp T /\
    forall r' va', 0 <= va' < MAXVA ->
      leaf s' T r' va' = if decide (r' = r /\ a <= va' < a + (Z.of_nat n + 1) * PGSIZE) then 0 else leaf s T r' va'.
Proof.
  intros Er. induction n as [|n IH]; intros s a Hv Ha H0 El Hlast Hall;
    (destruct (Hall 0) as [p Ep]; [lia|]); rewrite Z.mul_0_l, Z.add_0_r in Ep;
    (assert (Hva : 0 <= a < MAXVA) by (unfold PGSIZE in *; lia)); cbn [run_steps]; unfold unmap_step at 1;
    rewrite (walk_find _ _ _ _ _ Hv Er Hva), Ep;
    pose proof (v_bound _ _ _ _ _ Hv Ep) as Hb; pose proof (PX_range 0 a) as Hi;
    rewrite (proj2 (Z.eqb_neq (pte_at p (PX 0 a)) 0)) by (unfold pte_at; lia);
    destruct (v_leaf _ _ _ Hv _ _ _ _ Ep eq_refl Hi) as [e ->];
    destruct (set_leaf_entry s Hp T r a p 0 Hv Ep Hva) as [Hv2 Hleaf].
  - rewrite (proj2 (Z.eqb_eq a last)) by lia. eexists. split_and!; [done|done|]. intros r' va' Hva'. rewrite Hleaf by done.
    apply decide_ext. rewrite in_page by done. replace (a + (Z.of_nat 0 + 1) * PGSIZE) with (a + PGSIZE) by lia. done.
  - rewrite (proj2 (Z.eqb_neq a last)) by (unfold PGSIZE in *; lia). rewrite u64_small by (unfold PGSIZE, MAXVA in *; lia).
    destruct (IH _ (a + PGSIZE) Hv2) as (s' & Es & Hv' & Hleaf'); try (unfold PGSIZE in *; lia).
    { apply Z.divide_add_r; [done|by exists 1]. }
    { intros i Hi'. destruct (Hall (i + 1)) as [p' Ep']; [lia|]. exists p'.
      by replace (a + PGSIZE + i * PGSIZE) with (a + (i + 1) * PGSIZE) by lia. }
    exists s'. split_and!; [done|done|]. intros r' va' Hva'. rewrite Hleaf', Hleaf by done. pose proof (in_page a va' Ha) as Hpg.
    unfold PGSIZE in *. destruct (decide (r' = r)) as [->|]; [|by rewrite !decide_False by tauto].
    destruct (decide (a <= va' < a + 4096)) as [Hin|Hin].
    + rewrite decide_False, !decide_True by (try split; try done; first [lia|tauto]). done.
    + rewrite (decide_False (P := r = r /\ va' / 4096 = a / 4096)) by tauto. apply decide_ext. lia.
Qed.

Lemma unmap_range_ok s Hp T r va size :
  vm_ok s Hp T -> T !! (r, []) = Some r -> (PGSIZE | va) -> 0 <= va -> (PGSIZE | size) -> 0 < size -> va + size <= MAXVA ->
  (forall va', va <= va' < va + size -> is_Some (T !! (r, leaf_path va'))) ->
  exists s', unmap_range_in_pgtbl r va size s = Ok (s', 0) /\ vm_ok s' Hp T /\
    forall r' va', 0 <= va' < MAXVA -> leaf s' T r' va' = if decide (r' = r /\ va <= va' < va + size) then 0 else leaf s T r' va'.
Proof.
  intros Hv Er Ha H0 Hs Hs0 Hmax Hall. destruct (range_pages va size) as (n & Es & Eva & Elast & Hn); try done.
  unfold unmap_range_in_pgtbl. rewrite Eva, Elast.
  destruct (unmap_loop r (va + Z.of_nat n * PGSIZE) Hp T Er n s va Hv Ha H0 eq_refl) as (s' & El & Hv' & Hleaf).
  { unfold PGSIZE in *. lia. } { intros i Hi. apply Hall. unfold PGSIZE in *. lia. }
  rewrite run_upto_steps, (run_steps_enough _ _ _ _ _ El Hn). exists s'. rewrite Es. done.
Qed.
(** ** A new address space *)

Lemma add_root_table s Hp T k q n :
  vm_ok s Hp T -> Hp !! q = None -> PGSIZE <= n -> (PGSIZE | q) -> kh_inv k (<[q := n]> Hp) ->
  let s' := mk_vmem k (zero_page q (ptes s)) in
  vm_ok s' (<[q := n]> Hp) (<[(q, []) := q]> T) /\
  (forall r va, r <> q -> leaf s' (<[(q, []) := q]> T) r va = leaf s T r va) /\
  (forall va, leaf s' (<[(q, []) := q]> T) q va = 0).
Proof.
  intros Hv Hq Hn Hd Hk s'. pose proof Hv as [Hh Hpg Hinj Hroot Hch Hdir Hlf].
  assert (Hqx : forall x p, T !! x = Some p -> p <> q) by (intros x p' Ex ->; destruct (Hpg _ _ Ex) as [(? & ? & _) _]; congruence).
  assert (Hnone : forall path, T !! (q, path) = None).
  { intros path. induction path as [|i path IH] using rev_ind.
    - destruct (T !! (q, [])) as [p|] eqn:E; [|done]. pose proof (Hroot _ _ E) as ->. by destruct (Hqx _ _ E).
    - destruct (T !! (q, path ++ [i])) eqn:E; [|done]. apply Hch in E as ([? E] & _). congruence. }
  assert (Hold : forall x p j, T !! x = Some p -> 0 <= j < 512 -> ptes s' !! pte_at p j = ptes s !! pte_at p j).
  { intros x p j Ex Hj. destruct (Hpg _ _ Ex) as [_ Hdp]. apply zero_page_out; eauto. }
  assert (Hins : forall r path p, <[(q, []) := q]> T !! (r, path) = Some p -> (r = q /\ path = [] /\ p = q) \/ (T !! (r, path) = Some p /\ r <> q)).
  { intros r path p E. destruct (decide ((r, path) = (q, []))) as [[= -> ->]|Hne]; [rewrite lookup_insert_eq in E; left; naive_solver|right].
    rewrite lookup_insert_ne in E by done. split; [done|]. intros ->. by rewrite Hnone in E. }
  assert (Hkeep : forall r path, r <> q -> <[(q, []) := q]> T !! (r, path) = T !! (r, path)).
  { intros r path Hr. by rewrite lookup_insert_ne by congruence. }
  split; [split|split].
  - done.
  - intros [r path] p E. apply Hins in E as [(-> & -> & ->)|[E _]].
    + split; [|done]. exists n. by rewrite lookup_insert_eq.
    + destruct (Hpg _ _ E) as [(n' & E' & ?) ?]. split; [|done]. exists n'. rewrite lookup_insert_ne by (intros ->; congruence). done.
  - intros [r path] [r' path'] p E E'. apply Hins in E as [(-> & -> & ->)|[E _]], E' as [(-> & -> & E')|[E' _]]; try done.
    + by destruct (Hqx _ _ E').
    + subst. by destruct (Hqx _ _ E).
    + by eapply Hinj.
  - intros r p E. apply Hins in E as [(-> & _ & ->)|[E _]]; eauto.
  - intros r path i p E. apply Hins in E as [(_ & E & _)|[E Hr]]; [by destruct path|]. rewrite Hkeep by done. eauto.
  - intros r path p i E Hl Hi. apply Hins in E as [(-> & -> & ->)|[E Hr]].
    + rewrite lookup_insert_ne, Hnone by done. by apply zero_page_in.
    + rewrite Hkeep, (Hold _ _ _ E) by done. by apply Hdir.
  - intros r path p i E Hl Hi. apply Hins in E as [(-> & -> & ->)|[E Hr]]; [done|]. rewrite (Hold _ _ _ E) by done. by eapply Hlf.
  - intros r va Hr. unfold leaf. rewrite Hkeep by done. destruct (T !! _) as [p|] eqn:E; [|done].
    by rewrite (Hold _ _ _ E) by apply PX_range.
  - intros va. unfold leaf. by rewrite lookup_insert_ne, Hnone by done.
Qed.
End tables.
