(* ===== verification/VmTheorems.v ===== *)
(** * VmTheorems: what the page tables translate

    [translate] is the walk that the processor does under Sv39, on the same words of memory.
    Mapping and unmapping change it for the pages they name, in the address space they
    name, and nowhere else. *)

From S2P Require Import Prelude Bits ListHead CMem Buddy BuddyBlocks BuddyProof PageAlloc MemPool MemPoolProof Kalloc KallocProof KallocTheorems Alloc Vm VmProof.

(** ** Entries *)

Lemma page_perm_flags pa f : 0 <= pa < 2 ^ 64 -> 0 <= f < 2 ^ 10 -> page_perm (Z.lor (PA2PTE pa) f) = page_perm f.
Proof.
  intros Hp Hf. unfold page_perm.
  rewrite (land_low _ (PTE_R + PTE_X)), (land_low _ PTE_W), (land_low _ PTE_R), PTE_flags by done. done.
Qed.

Lemma page_perm_valid f : page_perm (Z.lor f PTE_V) = page_perm f.
Proof. unfold page_perm. rewrite !Z.land_lor_distr_l. cbn -[Z.land]. by rewrite !Z.lor_0_r. Qed.

Lemma entry_bits pa f : 0 <= pa < 2 ^ 56 -> 0 <= f < 2 ^ 10 -> (Z.lor (PA2PTE pa) f <? pte_bits) = true.
Proof.
  intros Hp Hf. rewrite PA2PTE_spec by lia. pose proof (Z.div_pos pa PGSIZE). unfold PGSIZE, pte_bits in *.
  pose proof (Z.div_lt_upper_bound pa 4096 (2 ^ 44)). rewrite pte_split by lia. apply Z.ltb_lt. lia.
Qed.

Section vm.
Context {K : Type} `{KernelHeap K}.
Implicit Types s : vmem K.

Lemma sv39_next_dir s Hp T r path p i :
  vm_ok s Hp T -> T !! (r, path) = Some p -> (length path < 2)%nat -> 0 <= i < 512 ->
  sv39_next (ptes s) p i = T !! (r, path ++ [i]).
Proof.
  intros Hv Ep Hl Hi. unfold sv39_next. rewrite (v_dir _ _ _ Hv _ _ _ _ Ep Hl Hi).
  destruct (T !! (r, path ++ [i])) as [q|] eqn:Eq; [|done].
  pose proof (v_bound _ _ _ _ _ Hv Eq) as Hb. destruct (v_page _ _ _ Hv _ _ Eq) as [_ Hd].
  destruct (dir_entry_table q ltac:(lia) Hd) as [-> ->].
  rewrite (land_low _ (PTE_R + PTE_W + PTE_X + PTE_U + PTE_A + PTE_D)) by done. cbn [dir_entry]. unfold PTE_V. rewrite PTE_flags by lia.
  pose proof (entry_bits q 1 ltac:(lia) ltac:(lia)) as Hb2. apply Z.ltb_lt, Z.leb_gt in Hb2. by rewrite Hb2.
Qed.

Lemma translate_leaf s Hp T r va :
  vm_ok s Hp T -> T !! (r, []) = Some r -> translate (ptes s) r va = sv39_leaf (leaf s T r va) va.
Proof.
  intros Hv Er. unfold translate, leaf. rewrite (sv39_next_dir _ _ _ _ _ _ _ Hv Er) by (cbn; first [lia|apply PX_range]). cbn [app].
  destruct (T !! (r, [PX 2 va])) as [p1|] eqn:E1.
  - rewrite (sv39_next_dir _ _ _ _ _ _ _ Hv E1) by (cbn; first [lia|apply PX_range]). cbn [app].
    destruct (T !! (r, [PX 2 va; PX 1 va])) as [p0|] eqn:E0; [|done].
    destruct (v_leaf _ _ _ Hv _ _ _ _ E0 eq_refl (PX_range 0 va)) as [e Ee]. rewrite Ee. done.
  - destruct (T !! (r, [PX 2 va; PX 1 va])) as [p0|] eqn:E0; [|done].
    apply (v_child _ _ _ Hv r [PX 2 va]) in E0 as ([? E] & _). congruence.
Qed.

(** Consistent page tables with these roots, beside these other allocations. *)
Definition vm_holding s (roots X : gset Z) : Prop :=
  exists Hp T, vm_ok s Hp T /\ (forall r, r ∈ roots -> T !! (r, []) = Some r) /\ X ⊆ dom Hp.

Definition vm_spaces s (roots : gset Z) : Prop := vm_holding s roots ∅.

Lemma vm_holding_spaces s roots X : vm_holding s roots X -> vm_spaces s roots.
Proof. intros (Hp & T & Hv & Hr & _). exists Hp, T. split_and!; [done|done|set_solver]. Qed.

Lemma range_sv39_leaf pa perm i va :
  0 <= pa -> (PGSIZE | pa) -> 0 <= i -> pa + i * PGSIZE < 2 ^ 56 -> 0 <= perm < 2 ^ 10 -> page_perm perm = true ->
  sv39_leaf (range_entry pa perm i) va = Some (pa + i * PGSIZE + va mod PGSIZE, Z.lor perm PTE_V).
Proof.
  intros Hp [q ->] Hi He Hf Hpp. unfold sv39_leaf, range_entry. rewrite <- Z.lor_assoc.
  assert (Hfl : 0 <= Z.lor perm PTE_V < 2 ^ 10) by (apply flags_lor; [done|unfold PTE_V; lia]).
  assert (Hr : 0 <= q * PGSIZE + i * PGSIZE < 2 ^ 56) by (unfold PGSIZE in *; lia).
  rewrite page_perm_flags, page_perm_valid, Hpp, entry_bits, !andb_true_r by (done || lia).
  rewrite (land_low _ PTE_V), PTE_flags, PTE2PA_entry by (done || lia).
  rewrite (proj2 (Z.eqb_neq (Z.land (Z.lor perm PTE_V) PTE_V) 0)).
  - rewrite <- Z.mul_add_distr_r, Z.div_mul by done. done.
  - rewrite Z.land_lor_distr_l. change (Z.land PTE_V PTE_V) with 1. intros E. apply Z.lor_eq_0_iff in E as [_ E]. done.
Qed.

(** What [map_range_in_pgtbl] does to the translations. *)
Definition maps_range_in s roots X r va pa size perm : Prop :=
  exists s' rc len, map_range_in_pgtbl r va pa size perm s = Ok (s', rc) /\ vm_holding s' roots X /\
    ((rc = 0 /\ len = size) \/ (rc = -1 /\ 0 <= len < size /\ no_page (vheap s'))) /\
    forall r' va', r' ∈ roots -> 0 <= va' < MAXVA ->
      translate (ptes s') r' va' =
        if decide (r' = r /\ va <= va' < va + len) then Some (pa + (va' - va), Z.lor perm PTE_V) else translate (ptes s) r' va'.

Definition maps_range s roots r va pa size perm : Prop := maps_range_in s roots ∅ r va pa size perm.

Lemma map_range_translation s roots X r va pa size perm :
  vm_holding s roots X -> r ∈ roots -> (PGSIZE | va) -> 0 <= va -> (PGSIZE | size) -> 0 < size -> va + size <= MAXVA ->
  (PGSIZE | pa) -> 0 <= pa -> pa + size <= 2 ^ 56 -> 0 <= perm < 2 ^ 10 -> page_perm perm = true -> maps_range_in s roots X r va pa size perm.
Proof.
  intros (Hp & T & Hv & Hroots & HX) Hr Ha H0 Hs Hs0 Hmax Hpa Hp0 Hpmax Hperm Hpp.
  destruct (map_range_ok s Hp T r va pa size perm) as (s' & Hp' & T' & rc & m & E & Hv' & [Hsub HsubH] & Hm & Hrc & Hleaf); try done; [by apply Hroots|lia|].
  exists s', rc, (m * PGSIZE). destruct Hs as [c ->]. rewrite Z.div_mul in * by done.
  assert (Hroots' : forall r', r' ∈ roots -> T' !! (r', []) = Some r') by (intros r' Hr'; eapply lookup_weaken; [by apply Hroots|done]).
  split_and!; [done| | |].
  - exists Hp', T'. split_and!; [done|done|]. by etrans; [|apply subseteq_dom].
  - unfold PGSIZE. destruct Hrc as [[-> ->]|(-> & ? & ?)]; [by left|right]. split_and!; [done|lia|lia|done].
  - intros r' va' Hr' Hva'. rewrite (translate_leaf _ _ _ _ _ Hv' (Hroots' _ Hr')), (translate_leaf _ _ _ _ _ Hv (Hroots _ Hr')).
    rewrite Hleaf by done. unfold leaf_after. destruct (decide _) as [[-> Hin]|]; [|done].
    assert (0 <= (va' - va) / PGSIZE < m) by (unfold PGSIZE in *; split; [apply Z.div_pos; lia|apply Z.div_lt_upper_bound; lia]).
    rewrite range_sv39_leaf; try done; try (unfold PGSIZE in *; nia). do 2 f_equal.
    destruct Ha as [a ->]. replace (va' mod PGSIZE) with ((va' - a * PGSIZE) mod PGSIZE).
    + pose proof (Z.div_mod (va' - a * PGSIZE) PGSIZE). unfold PGSIZE in *. lia.
    + replace (va' - a * PGSIZE) with (va' + (- a) * PGSIZE) by lia. by rewrite Z.mod_add.
Qed.

(** C18. Mapping a page-aligned range below [MAXVA] to physical addresses below 2^56, with
    permissions that Sv39 has (readable or executable, and readable when writable), returns
    normally.  When it returns 0, the processor translates every address of the range to the
    address at the same distance in the physical range, with the given permissions, and
    every other address, of this and of every other address space, as before.  It returns -1
    only when there is no page left in the heap, and then this holds for a number of pages at
    the start of the range instead of all of them. *)
Theorem map_range_translates s roots r va pa size perm :
  vm_spaces s roots -> r ∈ roots -> (PGSIZE | va) -> 0 <= va -> (PGSIZE | size) -> 0 < size -> va + size <= MAXVA ->
  (PGSIZE | pa) -> 0 <= pa -> pa + size <= 2 ^ 56 -> 0 <= perm < 2 ^ 10 -> page_perm perm = true ->
  exists s' rc len, map_range_in_pgtbl r va pa size perm s = Ok (s', rc) /\ vm_spaces s' roots /\
    ((rc = 0 /\ len = size) \/ (rc = -1 /\ 0 <= len < size /\ no_page (vheap s'))) /\
    forall r' va', r' ∈ roots -> 0 <= va' < MAXVA ->
      translate (ptes s') r' va' =
        if decide (r' = r /\ va <= va' < va + len) then Some (pa + (va' - va), Z.lor perm PTE_V) else translate (ptes s) r' va'.
Proof. apply map_range_translation. Qed.

(** C19. Unmapping a page-aligned range whose pages are all mapped returns 0, after which no
    address of the range has a translation; every other address, of this and of every other
    address space, is translated as before. *)
Theorem unmap_range_translates s roots r va size :
  vm_spaces s roots -> r ∈ roots -> (PGSIZE | va) -> 0 <= va -> (PGSIZE | size) -> 0 < size -> va + size <= MAXVA ->
  (forall va', va <= va' < va + size -> is_Some (translate (ptes s) r va')) ->
  exists s', unmap_range_in_pgtbl r va size s = Ok (s', 0) /\ vm_spaces s' roots /\
    forall r' va', r' ∈ roots -> 0 <= va' < MAXVA ->
      translate (ptes s') r' va' = if decide (r' = r /\ va <= va' < va + size) then None else translate (ptes s) r' va'.
Proof.
  intros (Hp & T & Hv & Hroots & _) Hr Ha H0 Hs Hs0 Hmax Hall.
  destruct (unmap_range_ok s Hp T r va size) as (s' & E & Hv' & Hleaf); try done; [by apply Hroots| |].
  - intros va' Hva'. destruct (Hall va' Hva') as [x Hx]. rewrite (translate_leaf _ _ _ _ _ Hv (Hroots _ Hr)) in Hx.
    unfold leaf in Hx. destruct (T !! (r, [PX 2 va'; PX 1 va'])) eqn:Ex; [|done]. unfold leaf_path. by rewrite Ex.
  - exists s'. split_and!; [done|by exists Hp, T; split_and!; [..|set_solver]|]. intros r' va' Hr' Hva'.
    rewrite (translate_leaf _ _ _ _ _ Hv' (Hroots _ Hr')), (translate_leaf _ _ _ _ _ Hv (Hroots _ Hr')), Hleaf by done.
    by destruct (decide _).
Qed.

(** A fresh page table translates nothing. *)
Lemma pagetable_create_ok s roots :
  vm_spaces s roots ->
  pagetable_create s = Undef \/
  exists s' pt, pagetable_create s = Ok (s', pt) /\ (pt ∉ roots) /\ vm_spaces s' ({[pt]} ∪ roots) /\
    forall r va, r ∈ {[pt]} ∪ roots -> translate (ptes s') r va = if decide (r = pt) then None else translate (ptes s) r va.
Proof.
  intros (Hp & T & Hv & Hroots & _). unfold pagetable_create.
  destruct (kh_alloc_page_ok _ _ 1 (v_heap _ _ _ Hv)) as (k & q & Ek & Hor); [done|]. rewrite Ek. cbn [res_bind].
  destruct Hor as [[-> ->]|(n & Hn & Hf & Hd & Hk)]; [by left|right].
  destruct (kh_region _ _ _ _ Hk (lookup_insert_eq _ _ _)) as (_ & Hq0 & _). rewrite (proj2 (Z.eqb_neq q 0)) by lia.
  destruct (add_root_table s Hp T k q n) as (Hv' & Hleaf & Hzero); [done|done|unfold PAGE_SIZE in Hn; unfold PGSIZE; lia|done|done|].
  assert (Hnr : q ∉ roots) by (intros Hin; apply Hroots in Hin; destruct (v_page _ _ _ Hv _ _ Hin) as [(? & ? & _) _]; congruence).
  assert (Hroots' : forall r, r ∈ {[q]} ∪ roots -> <[(q, []) := q]> T !! (r, []) = Some r).
  { intros r Hr. destruct (decide (r = q)) as [->|]; [by rewrite lookup_insert_eq|]. rewrite lookup_insert_ne by congruence.
    apply Hroots. apply elem_of_union in Hr as [Hr|Hr]; [by apply elem_of_singleton in Hr|done]. }
  eexists _, q. split_and!; [done|done|eexists _, _; by split_and!; [done|done|set_solver]|]. intros r va Hr.
  rewrite (translate_leaf _ _ _ _ _ Hv' (Hroots' _ Hr)). destruct (decide (r = q)) as [->|Hne]; [by rewrite Hzero|].
  apply elem_of_union in Hr as [Hr|Hr]; [by apply elem_of_singleton in Hr|].
  by rewrite Hleaf, (translate_leaf _ _ _ _ _ Hv (Hroots _ Hr)).
Qed.
End vm.

(** ** A small machine *)

#[local] Existing Instance bump_heap.

(** One page table, at 4096. *)
Definition one_space : vmem Z := match pagetable_create (mk_vmem 1 ∅) with Ok (s, _) => s | _ => mk_vmem 1 ∅ end.

Lemma no_tables : vm_ok (mk_vmem 1 ∅ : vmem Z) ∅ ∅.
Proof. split; done. Qed.

Lemma one_space_ok : vm_spaces one_space {[4096]}.
Proof.
  destruct (pagetable_create_ok (mk_vmem 1 ∅) ∅) as [E|(s' & pt & E & _ & Hs & _)].
  - exists ∅, ∅. split_and!; [apply no_tables|done|done].
  - vm_compute in E. discriminate E.
  - unfold one_space. rewrite E. assert (Hpt : pt = 4096).
    { assert (Hx : match pagetable_create (mk_vmem 1 ∅) with Ok (_, p) => p | _ => 0 end = 4096) by (by vm_compute).
      rewrite E in Hx. exact Hx. }
    rewrite Hpt, union_empty_r_L in Hs. exact Hs.
Qed.

(** Three pages are mapped, and an address inside the last one is translated. *)
Lemma map_range_translates_witness :
  exists s', map_range_in_pgtbl 4096 0x20000000 0x80400000 0x3000 (Z.lor PTE_R PTE_U) one_space = Ok (s', 0) /\
    translate (ptes s') 4096 0x20002345 = Some (0x80402345, Z.lor (Z.lor PTE_R PTE_U) PTE_V).
Proof.
  destruct (map_range_translates one_space {[4096]} 4096 0x20000000 0x80400000 0x3000 (Z.lor PTE_R PTE_U))
    as (s' & rc & len & E & _ & Hrc & Ht);
    [exact one_space_ok|by apply elem_of_singleton|by exists 0x20000|done|by exists 3|done|done|by exists 0x80400|done|done|done|done|].
  assert (Hz : match map_range_in_pgtbl 4096 0x20000000 0x80400000 0x3000 (Z.lor PTE_R PTE_U) one_space with Ok (_, c) => c | _ => 1 end = 0)
    by (by vm_compute).
  rewrite E in Hz. cbn in Hz. subst rc. destruct Hrc as [[_ ->]|[Hbad _]]; [|discriminate Hbad]. exists s'. split; [exact E|].
  rewrite Ht by (first [by apply elem_of_singleton|unfold MAXVA; lia]). rewrite decide_True by (split; [done|lia]). reflexivity.
Defined.

Definition mapped_space : vmem Z :=
  match map_range_in_pgtbl 4096 0x20000000 0x80400000 0x3000 PTE_R one_space with Ok (s, _) => s | _ => one_space end.

Lemma mapped_space_ok :
  vm_spaces mapped_space {[4096]} /\ forall va, 0x20000000 <= va < 0x20003000 -> is_Some (translate (ptes mapped_space) 4096 va).
Proof.
  destruct (map_range_translation one_space {[4096]} ∅ 4096 0x20000000 0x80400000 0x3000 PTE_R) as (s' & rc & len & E & Hs & Hrc & Ht);
    [exact one_space_ok|by apply elem_of_singleton|by exists 0x20000|done|by exists 3|done|done|by exists 0x80400|done|done|done|done|].
  unfold mapped_space. rewrite E. split; [done|]. intros va Hva.
  assert (Hz : match map_range_in_pgtbl 4096 0x20000000 0x80400000 0x3000 PTE_R one_space with Ok (_, c) => c | _ => 1 end = 0) by (by vm_compute).
  rewrite E in Hz. cbn in Hz. subst rc. destruct Hrc as [[_ ->]|[? _]]; [|done].
  rewrite Ht by (first [by apply elem_of_singleton|unfold MAXVA; lia]). by rewrite decide_True by lia.
Qed.

Lemma unmap_range_translates_witness :
  exists s', unmap_range_in_pgtbl 4096 0x20000000 0x3000 mapped_space = Ok (s', 0) /\ vm_spaces s' {[4096]}.
Proof.
  destruct mapped_space_ok as [Hs Hm].
  destruct (unmap_range_translates mapped_space {[4096]} 4096 0x20000000 0x3000) as (s' & E & Hs' & _);
    [exact Hs|by apply elem_of_singleton|by exists 0x20000|done|by exists 3|done|done|exact Hm|].
  exists s'. split; [exact E|exact Hs'].
Defined.
