(* ===== verification/Class.v ===== *)
(** * Class: the object system of core/class

    An object of a class is laid out with the parts of its ancestors in front of it, from
    [object_t] to the class itself, each part preceded by a [class_head_info] that names its
    type and the type of the part behind it.  [heads] holds these headers by address; a write
    to the fields of an object destroys the headers it overlaps.  Constructors and
    destructors are the function pointers of the class table. *)

From S2P Require Import Prelude Bits ListHead CMem Buddy BuddyBlocks BuddyProof PageAlloc MemPool MemPoolProof Kalloc KallocProof Alloc.

(** [struct class_table_info] after [do_class_init]; the type is the index. *)
Record class_table_info := mk_class {
  size_ : Z;
  full_size : Z;
  parent_type : Z;
}.

(** [sizeof(struct class_head_info)] *)
Definition HEAD : Z := 8.

(** ** do_class_init *)

(** A class of the table as it is linked: its size and the index of its parent. *)
Definition raw_class : Type := Z * Z.

(** [__class_table_start[type]] *)
Definition raw_at (raw : list raw_class) (type : Z) : option raw_class := if 0 <=? type then raw !! Z.to_nat type else None.

(** [set_class_table_info]: the size of an object with all its parts. *)
Fixpoint set_class_table_info (fuel : nat) (raw : list raw_class) (object_t type : Z) : res Z :=
  match fuel with
  | O => Undef
  | S fuel =>
      let* '(sz, parent) := deref (raw_at raw type) in
      let* size :=
        if negb (type =? object_t) then
          if parent =? type then Panic else set_class_table_info fuel raw object_t parent
        else Ok 0 in
      Ok (size + HEAD + sz)
  end.

(** The [list_head]s of the table: the link among the children of a class, and the head of
    its own children. *)
Inductive cloc := CList (type : Z) | CChild (type : Z).

#[export] Instance cloc_eq_dec : EqDecision cloc.
Proof. solve_decision. Defined.
#[export] Instance cloc_countable : Countable cloc.
Proof.
  refine (inj_countable' (fun l => match l with CList t => (0, t) | CChild t => (1, t) end)
    (fun p => match p with (0, t) => CList t | (_, t) => CChild t end) _). by intros [].
Defined.

Fixpoint link_classes (i : Z) (raw : list raw_class) (h : lheap cloc) : res (lheap cloc) :=
  match raw with
  | [] => Ok h
  | (_, parent) :: raw => let* h := list_add_tail (CList i) (CChild parent) h in link_classes (i + 1) raw h
  end.

Fixpoint fill_table (i : Z) (todo raw : list raw_class) (object_t : Z) : res (gmap Z class_table_info) :=
  match todo with
  | [] => Ok ∅
  | (sz, parent) :: todo =>
      let* full := set_class_table_info (S (length raw)) raw object_t i in
      let* t := fill_table (i + 1) todo raw object_t in
      Ok (<[i := mk_class sz full parent]> t)
  end.

Definition do_class_init (raw : list raw_class) (object_t : Z) : res (gmap Z class_table_info * lheap cloc) :=
  let h := foldl (fun h i => init_list_head (CChild i) (init_list_head (CList i) h)) (mk_lheap ∅ ∅) (seqZ 0 (Z.of_nat (length raw))) in
  let* h := link_classes 0 raw h in
  let* t := fill_table 0 raw raw object_t in
  Ok (t, h).

(** ** Objects *)

Record cstate (K : Type) := mk_cstate {
  cheap : K;
  heads : gmap Z (Z * Z);     (* type, child *)
}.
Arguments mk_cstate {K} _ _.
Arguments cheap {K} _.
Arguments heads {K} _.

Section ops.
Context {K : Type} `{KernelHeap K} (table : gmap Z class_table_info) (object_t : Z).
Context (pointer_constructor pointer_destructor : Z -> Z -> cstate K -> res (cstate K)).
Implicit Types s : cstate K.

Definition get_head_info_from_obj (obj : Z) : Z := obj - HEAD.

Definition info_of (obj : Z) s : res (Z * Z) := deref (heads s !! get_head_info_from_obj obj).

Definition set_info (obj : Z) (i : Z * Z) s : cstate K := mk_cstate (cheap s) (<[get_head_info_from_obj obj := i]> (heads s)).

(** The bytes from [a] to [a + n] are written. *)
Definition overwrite (a n : Z) s : cstate K :=
  mk_cstate (cheap s) (filter (fun x => x.1 + HEAD <= a \/ a + n <= x.1) (heads s)).

(** [get_parent_obj_from_head_info] for the part [obj] of type [type]. *)
Definition get_parent_obj (type obj : Z) : res Z :=
  let* i := deref (table !! type) in
  let* p := deref (table !! parent_type i) in
  Ok (get_head_info_from_obj obj - size_ p).

Definition get_class_type (obj : Z) s : res Z :=
  let* _ := c_assert (negb (obj =? 0)) in
  let* '(type, _) := info_of obj s in
  let* _ := deref (table !! type) in
  Ok type.

Fixpoint object_init (fuel : nat) (type child obj : Z) s : res (cstate K) :=
  match fuel with
  | O => Undef
  | S fuel =>
      let s := set_info obj (type, child) s in
      if type =? object_t then Ok s
      else
        let* i := deref (table !! type) in
        let* parent_obj := get_parent_obj type obj in
        let* s := object_init fuel (parent_type i) type parent_obj s in
        pointer_constructor type obj (overwrite obj (size_ i) s)
  end.

(** There are no more ancestors than classes. *)
Definition depth : nat := S (size table).

Definition new_class_object (type : Z) s : res (cstate K * Z) :=
  let* i := deref (table !! type) in
  let* '(k, base) := kh_calloc (cheap s) (full_size i) in
  if base =? 0 then Ok (mk_cstate k (heads s), 0)
  else
    let obj := base + full_size i - size_ i in
    let* s := object_init depth type type obj (overwrite base (full_size i) (mk_cstate k (heads s))) in
    Ok (s, obj).

Fixpoint object_exit (fuel : nat) (obj : Z) s : res (cstate K) :=
  match fuel with
  | O => Undef
  | S fuel =>
      let* '(type, _) := info_of obj s in
      let* s := pointer_destructor type obj s in
      if type =? object_t then Ok s
      else let* parent_obj := get_parent_obj type obj in object_exit fuel parent_obj s
  end.

Definition delete_class_object (obj : Z) s : res (cstate K) :=
  let* _ := c_assert (negb (obj =? 0)) in
  let* s := object_exit depth obj s in
  let* type := get_class_type obj s in
  let* i := deref (table !! type) in
  let base := obj - full_size i + size_ i in
  let* k := kh_free (cheap s) base in
  Ok (mk_cstate k (heads s)).

(** The first loop of [class_cast], towards the class of the object: the part that was
    found, or the last part. *)
Fixpoint cast_up (fuel : nat) (type obj : Z) s : res (Z + Z) :=
  match fuel with
  | O => Undef
  | S fuel =>
      let* '(t, child) := info_of obj s in
      if t =? type then Ok (inl obj)
      else if t =? child then Ok (inr obj)
      else
        let* i := deref (table !! t) in
        cast_up fuel type (obj + size_ i + HEAD) s
  end.

(** The second loop, towards [object_t]. *)
Fixpoint cast_down (fuel : nat) (type obj : Z) s : res Z :=
  match fuel with
  | O => Undef
  | S fuel =>
      let* '(t, _) := info_of obj s in
      if t =? type then Ok obj
      else if t =? object_t then Ok 0
      else let* parent_obj := get_parent_obj t obj in cast_down fuel type parent_obj s
  end.

Definition class_cast (type obj : Z) s : res Z :=
  if obj =? 0 then Ok 0
  else
    let* r := cast_up depth type obj s in
    match r with
    | inl o => Ok o
    | inr o => cast_down depth type o s
    end.
End ops.
