(* ===== verification/ClassProof.v ===== *)
(** * ClassProof: the layout of objects, casts, construction and deletion *)

From S2P Require Import Prelude Bits ListHead CMem Buddy BuddyBlocks BuddyProof PageAlloc MemPool MemPoolProof Kalloc KallocProof Alloc Class.

Section class.
Context {K : Type} `{KernelHeap K} (table : gmap Z class_table_info) (object_t : Z).
Implicit Types (s : cstate K) (l : list Z) (ps : list (Z * Z)) (Hp : gmap Z Z).

(** ** Ancestors *)

(** The classes from a class to [object_t]. *)
Inductive lineage : Z -> list Z -> Prop :=
| lineage_object : is_Some (table !! object_t) -> lineage object_t [object_t]
| lineage_sub t i l : t <> object_t -> table !! t = Some i -> lineage (parent_type i) l -> lineage t (t :: l).

Definition part_size (t : Z) : Z := match table !! t with Some i => size_ i | None => 0 end.

Definition total (l : list Z) : Z := foldr (fun t n => HEAD + part_size t + n) 0 l.

(** Every class descends from [object_t], and [do_class_init] has summed up the sizes. *)
Record table_ok : Prop := mk_table_ok {
  t_lineage t : is_Some (table !! t) -> exists l, lineage t l;
  t_size t i : table !! t = Some i -> 0 <= size_ i;
  t_full t i l : table !! t = Some i -> lineage t l -> full_size i = total l /\ full_size i < 2 ^ 31;
}.

Lemma lineage_det t l l' : lineage t l -> lineage t l' -> l = l'.
Proof.
  intros Hl. revert l'. induction Hl as [|t i l Ht Ei Hl IH]; intros l' Hl'; inversion Hl'; subst; try done.
  f_equal. apply IH. congruence.
Qed.

Lemma lineage_head t l : lineage t l -> exists l', l = t :: l'.
Proof. destruct 1; eauto. Qed.

Lemma lineage_in_table t l a : lineage t l -> a ∈ l -> is_Some (table !! a).
Proof.
  induction 1 as [|t i l Ht Ei Hl IH]; intros Ha.
  - by apply list_elem_of_singleton in Ha as ->.
  - apply elem_of_cons in Ha as [->|]; [by rewrite Ei|auto].
Qed.

Lemma lineage_suffix t l a : lineage t l -> a ∈ l -> exists l1 l2, l = l1 ++ l2 /\ lineage a l2.
Proof.
  induction 1 as [Ho|t i l Ht Ei Hl IH]; intros Ha.
  - apply list_elem_of_singleton in Ha as ->. exists [], [object_t]. split; [done|]. by constructor.
  - apply elem_of_cons in Ha as [->|Ha].
    + exists [], (t :: l). split; [done|]. by econstructor.
    + destruct (IH Ha) as (l1 & l2 & -> & H2). by exists (t :: l1), l2.
Qed.

Lemma lineage_NoDup t l : lineage t l -> NoDup l.
Proof.
  induction 1 as [|t i l Ht Ei Hl IH]; [apply NoDup_singleton|]. apply NoDup_cons. split; [|done]. intros Hin.
  destruct (lineage_suffix _ _ _ Hl Hin) as (l1 & l2 & -> & H2).
  assert (E : l2 = t :: l1 ++ l2) by (eapply lineage_det; [exact H2|by econstructor]).
  apply (f_equal length) in E. cbn in E. rewrite length_app in E. lia.
Qed.

Lemma lineage_depth t l : lineage t l -> (length l <= size table)%nat.
Proof.
  intros Hl. pose proof (lineage_NoDup _ _ Hl) as Hnd. rewrite <- (size_list_to_set (C := gset Z) l) by done.
  rewrite <- size_dom. apply subseteq_size. intros a. rewrite elem_of_list_to_set, elem_of_dom. by eapply lineage_in_table.
Qed.

Lemma part_size_nonneg t : table_ok -> 0 <= part_size t.
Proof. intros Ht. unfold part_size. destruct (table !! t) eqn:E; [by eapply t_size|done]. Qed.

Lemma total_cons t l : total (t :: l) = HEAD + part_size t + total l.
Proof. done. Qed.

Lemma total_nonneg l : table_ok -> 0 <= total l.
Proof. intros Ht. induction l as [|t l IH]; [done|]. rewrite total_cons. pose proof (part_size_nonneg t Ht). unfold HEAD. lia. Qed.

(** ** The parts of an object *)

(** Types and addresses of the parts, from the class of the object to [object_t]. *)
Fixpoint parts l (obj : Z) : list (Z * Z) :=
  match l with
  | [] => []
  | t :: l => (t, obj) :: parts l (obj - HEAD - part_size (hd 0 l))
  end.

(** Each header names the type of its part and of the part behind it. *)
Fixpoint headed (hs : gmap Z (Z * Z)) (child : Z) ps : Prop :=
  match ps with
  | [] => True
  | (t, o) :: ps => hs !! (o - HEAD) = Some (t, child) /\ headed hs t ps
  end.

(** [obj] is an object of class [t]. *)
Definition object_at (hs : gmap Z (Z * Z)) (t obj : Z) l : Prop := lineage t l /\ headed hs t (parts l obj).

Definition base_of (obj : Z) l : Z := obj + part_size (hd 0 l) - total l.

Lemma parts_fst l obj : (parts l obj).*1 = l.
Proof. revert obj. induction l as [|t l IH]; intros obj; cbn; [done|]. by rewrite IH. Qed.

(** Every part lies in the object, and determines where it starts. *)
Lemma parts_inside t l obj a o :
  table_ok -> lineage t l -> (a, o) ∈ parts l obj ->
  base_of obj l <= o - HEAD /\ o + part_size a <= obj + part_size t /\ exists l', lineage a l' /\ base_of o l' = base_of obj l.
Proof.
  intros Ht Hl. revert obj. induction Hl as [Ho|t i l Htn Ei Hl IH]; intros obj Hin.
  - cbn in Hin. apply list_elem_of_singleton in Hin as [= -> ->]. split_and!.
    + unfold base_of. cbn [hd]. rewrite total_cons. change (total []) with 0. unfold HEAD. lia.
    + lia.
    + exists [object_t]. split; [by constructor|done].
  - cbn [parts] in Hin. pose proof (part_size_nonneg t Ht). pose proof (total_nonneg l Ht).
    destruct (lineage_head _ _ Hl) as [l' El]. apply elem_of_cons in Hin as [[= -> ->]|Hin].
    + split_and!.
      * unfold base_of. cbn [hd]. rewrite total_cons. unfold HEAD. lia.
      * lia.
      * exists (t :: l). split; [by econstructor|done].
    + destruct (IH _ Hin) as (B1 & B2 & l2 & Hl2 & Eb).
      assert (E : base_of (obj - HEAD - part_size (hd 0 l)) l = base_of obj (t :: l)).
      { unfold base_of. cbn [hd]. rewrite total_cons. lia. }
      assert (part_size (hd 0 l) = part_size (parent_type i)) by (by rewrite El).
      rewrite E in *. unfold HEAD in *. split_and!; [lia|lia|]. by exists l2.
Qed.

Lemma headed_keep hs hs' child ps :
  (forall a o x, (a, o) ∈ ps -> hs !! (o - HEAD) = Some x -> hs' !! (o - HEAD) = Some x) ->
  headed hs child ps -> headed hs' child ps.
Proof.
  revert child. induction ps as [|[t o] ps IH]; intros child Hk; cbn; [done|]. intros [E Hh]. split.
  - eapply Hk; [by left|done].
  - apply IH; [|done]. intros a o' x Hin. apply (Hk a o' x). by right.
Qed.

(** ** Casts *)

Lemma info_head s child t o ps : headed (heads s) child ((t, o) :: ps) -> info_of o s = Ok (t, child).
Proof. intros [E _]. unfold info_of, get_head_info_from_obj. by rewrite E. Qed.

(** The part of type [b], or NULL. *)
Fixpoint find_part (b : Z) ps : Z :=
  match ps with
  | [] => 0
  | (t, o) :: ps => if t =? b then o else find_part b ps
  end.

Lemma parent_obj_of t i l obj :
  lineage (parent_type i) l -> table !! t = Some i -> get_parent_obj table t obj = Ok (obj - HEAD - part_size (hd 0 l)).
Proof.
  intros Hl Ei. destruct (lineage_head _ _ Hl) as [l' El]. destruct (lineage_in_table _ _ (parent_type i) Hl) as [pi Ep]; [rewrite El; by left|].
  unfold get_parent_obj, get_head_info_from_obj, part_size. rewrite Ei. cbn [deref res_bind]. rewrite Ep, El. cbn. by rewrite Ep.
Qed.

Lemma cast_down_spec s b t l : lineage t l -> forall fuel child obj,
  headed (heads s) child (parts l obj) -> (length l <= fuel)%nat ->
  cast_down table object_t fuel b obj s = Ok (find_part b (parts l obj)).
Proof.
  induction 1 as [Ho|t i l Htn Ei Hl IH]; intros fuel child obj Hh Hf; (destruct fuel as [|fuel]; [cbn in Hf; lia|]); cbn [cast_down].
  - rewrite (info_head _ _ _ _ _ Hh). cbn. destruct (Z.eqb_spec object_t b); [done|]. by rewrite Z.eqb_refl.
  - cbn [parts] in Hh |- *. rewrite (info_head _ _ _ _ _ Hh). cbn [res_bind find_part]. destruct (Z.eqb_spec t b); [done|].
    rewrite (proj2 (Z.eqb_neq t object_t) Htn). rewrite (parent_obj_of t i l obj Hl Ei). cbn [res_bind].
    destruct Hh as [_ Hh]. eapply IH; [exact Hh|cbn in Hf; lia].
Qed.
Lemma find_part_in b o ps : NoDup ps.*1 -> (b, o) ∈ ps -> find_part b ps = o.
Proof.
  induction ps as [|[t o'] ps IH]; intros Hnd Hin; [by apply not_elem_of_nil in Hin|]. cbn in *. apply NoDup_cons in Hnd as [Hn Hnd].
  apply elem_of_cons in Hin as [[= -> ->]|Hin]; [by rewrite Z.eqb_refl|]. rewrite (proj2 (Z.eqb_neq t b)); [by apply IH|].
  intros ->. apply Hn, list_elem_of_fmap. by exists (b, o).
Qed.

Lemma headed_at hs child q1 a o q2 :
  headed hs child (q1 ++ (a, o) :: q2) -> hs !! (o - HEAD) = Some (a, default child (fst <$> last q1)).
Proof.
  revert child. induction q1 as [|[c oc] q1 IH]; intros child; cbn [app headed]; [by intros [E _]|]. intros [_ Hh].
  rewrite (IH c Hh). f_equal. f_equal. destruct q1 as [|x q1]; [done|]. cbn [last]. by destruct (last (x :: q1)) eqn:E; [|apply last_None in E].
Qed.

Lemma parts_next l obj q1 c oc a o q2 :
  parts l obj = q1 ++ (c, oc) :: (a, o) :: q2 -> o + part_size a + HEAD = oc.
Proof.
  revert obj q1. induction l as [|t l IH]; intros obj q1; cbn [parts]; [by destruct q1|].
  destruct q1 as [|x q1]; cbn [app].
  - intros [= -> -> E]. destruct l as [|t' l]; [done|]. cbn in E. injection E as <- <- _. cbn [hd]. lia.
  - intros [= _ E]. by eapply IH.
Qed.

Lemma cast_up_spec s b t l obj :
  object_at (heads s) t obj l -> forall q1 a o q2 fuel,
  parts l obj = q1 ++ (a, o) :: q2 -> (length q1 < fuel)%nat ->
  cast_up table fuel b o s = Ok (if decide (b ∈ a :: q1.*1) then inl (find_part b (parts l obj)) else inr obj).
Proof.
  intros [Hl Hh]. pose proof (lineage_NoDup _ _ Hl) as Hnd. rewrite <- (parts_fst l obj) in Hnd.
  induction q1 as [|[c oc] q1 IH] using rev_ind; intros a o q2 fuel Ep Hf; (destruct fuel as [|fuel]; [cbn in Hf; lia|]); cbn [cast_up].
  - pose proof Hh as Hh'. rewrite Ep in Hh'. pose proof (headed_at _ _ _ _ _ _ Hh') as E. cbn in E.
    assert (a = t /\ o = obj) as [-> ->].
    { destruct (lineage_head _ _ Hl) as [l' ->]. cbn in Ep. by injection Ep as -> -> _. }
    unfold info_of, get_head_info_from_obj. rewrite E. cbn [deref res_bind]. destruct (Z.eqb_spec t b) as [->|Hne].
    + rewrite decide_True by (by left). do 2 f_equal. symmetry. apply find_part_in; [done|]. rewrite Ep. by left.
    + rewrite Z.eqb_refl, decide_False; [done|]. cbn. rewrite list_elem_of_singleton. congruence.
  - pose proof Hh as Hh'. rewrite Ep in Hh'. pose proof (headed_at _ _ _ _ _ _ Hh') as E. rewrite last_snoc in E. cbn in E.
    unfold info_of, get_head_info_from_obj. rewrite E. cbn [deref res_bind]. destruct (Z.eqb_spec a b) as [->|Hne].
    + rewrite decide_True by (by left). do 2 f_equal. symmetry. apply find_part_in; [done|]. rewrite Ep. apply elem_of_app. right. by left.
    + rewrite (proj2 (Z.eqb_neq a c)).
      2:{ intros ->. rewrite Ep, <- app_assoc, fmap_app in Hnd. apply NoDup_app in Hnd as (_ & _ & Hnd). cbn in Hnd.
          apply NoDup_cons in Hnd as [Hn _]. apply Hn. by left. }
      rewrite <- app_assoc in Ep. cbn [app] in Ep. pose proof (parts_next _ _ _ _ _ _ _ _ Ep) as Hnext.
      destruct (lineage_in_table _ _ a Hl) as [i Ei].
      { rewrite <- (parts_fst l obj), Ep, fmap_app. apply elem_of_app. right. cbn. right. by left. }
      rewrite Ei. cbn [deref res_bind]. unfold part_size in Hnext. rewrite Ei in Hnext. rewrite Hnext.
      rewrite (IH c oc _ fuel Ep) by (rewrite length_app in Hf; cbn in Hf; lia).
      do 2 f_equal. apply decide_ext. rewrite fmap_app, !elem_of_cons, elem_of_app. cbn. rewrite list_elem_of_singleton.
      split; [tauto|]. intros [?|[?|?]]; [congruence|tauto|tauto].
Qed.

Lemma find_part_none b ps : b ∉ ps.*1 -> find_part b ps = 0.
Proof.
  induction ps as [|[t o] ps IH]; intros Hn; cbn in *; [done|]. rewrite elem_of_cons in Hn.
  rewrite (proj2 (Z.eqb_neq t b)) by (intros ->; tauto). apply IH. tauto.
Qed.

Lemma class_cast_parts s b t l obj a o :
  object_at (heads s) t obj l -> (a, o) ∈ parts l obj -> o <> 0 ->
  class_cast table object_t b o s = Ok (find_part b (parts l obj)).
Proof.
  intros Hob Hin Ho. pose proof Hob as [Hl Hh]. apply list_elem_of_split in Hin as (q1 & q2 & Ep).
  unfold class_cast. rewrite (proj2 (Z.eqb_neq o 0) Ho). pose proof (lineage_depth _ _ Hl) as Hd.
  assert (Hlen : length (parts l obj) = length l) by (by rewrite <- (length_fmap fst), parts_fst).
  assert (Hq1 : (length q1 < depth table)%nat).
  { rewrite Ep, length_app in Hlen. unfold depth. lia. }
  rewrite (cast_up_spec s b t l obj Hob _ _ _ _ _ Ep Hq1).
  cbn [res_bind]. destruct (decide (b ∈ a :: q1.*1)); [done|].
  eapply cast_down_spec; [exact Hl|exact Hh|unfold depth; lia].
Qed.
(** ** Construction *)

Context (constructor destructor : Z -> Z -> cstate K -> res (cstate K)).

(** A header at [h] lies in an allocation that [A] protects. *)
Definition guarded (A : Z -> Prop) (Hp : gmap Z Z) (h : Z) : Prop :=
  exists a n, A a /\ Hp !! a = Some n /\ a <= h /\ h + HEAD <= a + n.

(** The protected allocations and the headers in them are still there. *)
Record respects (A : Z -> Prop) s (Hp : gmap Z Z) s' (Hp' : gmap Z Z) : Prop := mk_respects {
  re_heap : kh_inv (cheap s') Hp';
  re_block a n : A a -> Hp !! a = Some n -> Hp' !! a = Some n;
  re_head h x : guarded A Hp h -> heads s !! h = Some x -> heads s' !! h = Some x;
}.

(** What the class system relies on: a constructor or destructor that returns has not freed an
    allocation that [A] protects nor written to a header in it.  It may allocate, free what is its
    own, and it may fail to return. *)
Definition hook_ok (A : Z -> Prop) (hook : Z -> Z -> cstate K -> res (cstate K)) : Prop :=
  forall t o s Hp s', kh_inv (cheap s) Hp -> hook t o s = Ok s' -> exists Hp', respects A s Hp s' Hp'.

(** The call does not return. *)
Definition halted {B} (r : res B) : Prop := r = Panic \/ r = Undef.

Lemma halted_or {B} (r : res B) : halted r \/ exists x, r = Ok x.
Proof. destruct r; [right; eauto|left; by left|left; by right]. Qed.

Lemma guarded_respects A s Hp s' Hp' h : respects A s Hp s' Hp' -> guarded A Hp h -> guarded A Hp' h.
Proof. intros [_ Hb _] (a & n & Ha & E & Hr). exists a, n. split_and!; [done|by apply Hb|apply Hr..]. Qed.

Lemma respects_trans A s1 Hp1 s2 Hp2 s3 Hp3 : respects A s1 Hp1 s2 Hp2 -> respects A s2 Hp2 s3 Hp3 -> respects A s1 Hp1 s3 Hp3.
Proof. intros R1 R2. split; [apply R2|intros a n Ha E; by eapply re_block, re_block|]. intros h x Hg E. eapply re_head; [exact R2|by eapply guarded_respects|by eapply re_head]. Qed.

Context (Htab : table_ok).

Lemma overwrite_keeps s a n h x :
  heads s !! h = Some x -> h + HEAD <= a \/ a + n <= h -> heads (overwrite a n s) !! h = Some x.
Proof. intros E Hd. cbn. by apply map_lookup_filter_Some. Qed.

(** [object_init] of an object in the protected allocation [b]. *)
Lemma object_init_ok A t l : lineage t l -> hook_ok A constructor -> forall fuel child obj s Hp b n,
  (length l <= fuel)%nat -> kh_inv (cheap s) Hp -> A b -> Hp !! b = Some n -> b <= base_of obj l -> obj + part_size t <= b + n ->
  (halted (object_init table object_t constructor fuel t child obj s) /\ exists t' o' s1, t' ∈ l /\ halted (constructor t' o' s1)) \/
  exists s' Hp', object_init table object_t constructor fuel t child obj s = Ok s' /\ kh_inv (cheap s') Hp' /\
    (forall a n, A a -> Hp !! a = Some n -> Hp' !! a = Some n) /\ headed (heads s') child (parts l obj) /\
    forall h x, guarded A Hp h -> heads s !! h = Some x -> h + HEAD <= base_of obj l \/ obj + part_size t <= h -> heads s' !! h = Some x.
Proof.
  intros Hl0 Hctor. induction Hl0 as [Ho|t i l Htn Ei Hl IH]; intros fuel child obj s Hp b n Hf Hi HA Hb Hlo Hhi; (destruct fuel as [|fuel]; [cbn in Hf; lia|]); cbn [object_init].
  - right. rewrite Z.eqb_refl. eexists _, Hp. split_and!; [done|done|done| |].
    + cbn. split; [apply lookup_insert_eq|done].
    + intros h x _ E Hd. cbn. rewrite lookup_insert_ne; [done|]. intros <-. unfold base_of in Hd. cbn [hd] in Hd. rewrite total_cons in Hd.
      pose proof (part_size_nonneg object_t Htab). change (total []) with 0 in Hd. unfold get_head_info_from_obj, HEAD in *. lia.
  - rewrite (proj2 (Z.eqb_neq t object_t) Htn), Ei. cbn [deref res_bind]. rewrite (parent_obj_of t i l obj Hl Ei). cbn [res_bind].
    set (s0 := set_info obj (t, child) s). set (pobj := obj - HEAD - part_size (hd 0 l)).
    destruct (lineage_head _ _ Hl) as [l' El]. assert (Ehd : part_size (hd 0 l) = part_size (parent_type i)) by (by rewrite El).
    assert (Esz : part_size t = size_ i) by (unfold part_size; by rewrite Ei).
    pose proof (part_size_nonneg t Htab) as Hsz. pose proof (total_nonneg l Htab) as Htot.
    assert (Ebase : base_of pobj l = base_of obj (t :: l)) by (unfold base_of, pobj; cbn [hd]; rewrite total_cons; lia).
    destruct (IH fuel t pobj s0 Hp b n) as [[Hstop (t' & o' & s1 & Ht' & Hs1)]|(s1 & Hp1 & E1 & Hi1 & Hsub1 & Hh1 & Hk1)]; [cbn in Hf; lia|done|done|done|lia|unfold pobj, HEAD in *; lia| |].
    { left. split; [destruct Hstop as [Es|Es]; rewrite Es; [by left|by right]|]. exists t', o', s1. split; [by right|done]. }
    rewrite E1. cbn [res_bind]. destruct (halted_or (constructor t obj (overwrite obj (size_ i) s1))) as [Hs|[s2 E2]].
    { left. split; [done|]. exists t, obj, (overwrite obj (size_ i) s1). split; [by left|done]. }
    right. destruct (Hctor _ _ (overwrite obj (size_ i) s1) Hp1 s2 Hi1 E2) as [Hp2 R2]. rewrite E2.
    assert (Hgd : forall h, guarded A Hp h -> guarded A Hp1 h) by (intros h (a & m & Ha & E & Hr); exists a, m; split_and!; [done|by apply Hsub1|apply Hr..]).
    assert (Hin : forall h, base_of obj (t :: l) <= h -> h + HEAD <= obj + part_size t -> guarded A Hp h) by (intros h H1 H2; exists b, n; split_and!; [done|done|lia|lia]).
    assert (Hbt : base_of obj (t :: l) + total l + HEAD = obj) by (unfold base_of; cbn [hd]; rewrite total_cons; lia).
    exists s2, Hp2. split_and!; [done|apply R2|intros a m Ha E; by eapply re_block, Hsub1| |].
    + cbn [parts headed]. split.
      * eapply re_head; [exact R2|apply Hgd, Hin; unfold HEAD in *; lia|]. apply overwrite_keeps; [|left; lia]. apply Hk1; [apply Hin; unfold HEAD in *; lia|apply lookup_insert_eq|]. right. unfold pobj, get_head_info_from_obj. lia.
      * eapply headed_keep, Hh1. intros a o x Hp' E. destruct (parts_inside _ _ _ _ _ Htab Hl Hp') as (Hl1 & Hb' & _). pose proof (part_size_nonneg a Htab).
        assert (base_of obj (t :: l) <= o - HEAD) by (rewrite <- Ebase; exact Hl1). eapply re_head; [exact R2|apply Hgd, Hin; unfold pobj, HEAD in *; lia|]. apply overwrite_keeps; [done|]. left. unfold pobj, HEAD in *. lia.
    + intros h x Hg E Hd. eapply re_head; [exact R2|by apply Hgd|]. apply overwrite_keeps; [|unfold HEAD in *; lia]. apply Hk1; [done| |unfold pobj, HEAD in *; lia].
      unfold s0. cbn. rewrite lookup_insert_ne; [done|]. unfold get_head_info_from_obj, HEAD in *. lia.
Qed.

(** ** The objects of the kernel *)

(** [objs]: the class of every live object.  Each has an allocation of its own. *)
Record class_ok s Hp (objs : gmap Z Z) : Prop := mk_class_ok {
  k_heap : kh_inv (cheap s) Hp;
  k_object o t : objs !! o = Some t ->
    exists l n, object_at (heads s) t o l /\ Hp !! base_of o l = Some n /\ total l <= n;
  k_sep o t o' t' l l' : objs !! o = Some t -> objs !! o' = Some t' -> lineage t l -> lineage t' l' ->
    base_of o l = base_of o' l' -> o = o';
}.

Lemma lineage_type_size t l i : lineage t l -> table !! t = Some i -> part_size (hd 0 l) = size_ i /\ full_size i = total l /\ 0 <= size_ i <= total l - HEAD.
Proof.
  intros Hl Ei. destruct (lineage_head _ _ Hl) as [l' ->]. cbn [hd]. destruct (t_full Htab _ _ _ Ei Hl) as [? _].
  assert (Es : part_size t = size_ i) by (unfold part_size; by rewrite Ei).
  split_and!; [done|done|..]; rewrite ?total_cons; pose proof (part_size_nonneg t Htab); pose proof (total_nonneg l' Htab); lia.
Qed.

(** The allocation of a live object starts at [a]. *)
Definition live_base (objs : gmap Z Z) (a : Z) : Prop := exists o t l, objs !! o = Some t /\ lineage t l /\ a = base_of o l.

(** [new]: a constructor that does not return stops it; otherwise it gives NULL, when there is no
    memory, or a new object. *)
Lemma new_object_ok A s Hp objs t i l :
  class_ok s Hp objs -> (forall a, live_base objs a -> A a) -> (forall p, Hp !! p = None -> hook_ok (fun a => A a \/ a = p) constructor) ->
  table !! t = Some i -> lineage t l ->
  (halted (new_class_object table object_t constructor t s) /\ exists t' o' s1, t' ∈ l /\ halted (constructor t' o' s1)) \/
  exists s' o, new_class_object table object_t constructor t s = Ok (s', o) /\
    ((o = 0 /\ s' = s /\ kh_calloc (cheap s) (full_size i) = Ok (cheap s, 0)) \/
     (o <> 0 /\ objs !! o = None /\ Hp !! base_of o l = None /\ exists Hp', class_ok s' Hp' (<[o := t]> objs) /\ forall a n, A a -> Hp !! a = Some n -> Hp' !! a = Some n)).
Proof.
  intros Hc Hlive Hctor Ei Hl. pose proof Hc as [Hh Hob Hsep].
  destruct (lineage_type_size _ _ _ Hl Ei) as (Esz & Efull & Hpos). destruct (t_full Htab _ _ _ Ei Hl) as [_ Hbnd].
  unfold new_class_object. rewrite Ei. cbn [deref res_bind].
  destruct (kh_calloc_ok _ _ (full_size i) Hh) as (k & base & Ek & Hor); [unfold HEAD in *; lia|]. rewrite Ek. cbn [res_bind].
  destruct Hor as [[-> ->]|(n & Hn & Hf & Hk)].
  { cbn [Z.eqb]. right. exists s, 0. destruct s. split; [done|]. by left. }
  destruct (kh_region _ _ _ _ Hk (lookup_insert_eq _ _ _)) as (_ & Hb0 & _). rewrite (proj2 (Z.eqb_neq base 0)) by lia.
  set (obj := base + full_size i - size_ i). set (s0 := overwrite base (full_size i) (mk_cstate k (heads s))).
  assert (Ebase : base_of obj l = base) by (unfold base_of, obj; lia).
  assert (Eend : base + full_size i = obj + part_size t) by (unfold obj, part_size; rewrite Ei; lia).
  destruct (object_init_ok (fun a => A a \/ a = base) t l Hl (Hctor base Hf) (depth table) t obj s0 (<[base := n]> Hp) base n)
    as [[[E|E] Hstop]|(s' & Hp' & E & Hi' & Hsub & Hhd & Hkeep)]; [pose proof (lineage_depth _ _ Hl); unfold depth; lia|done|by right|apply lookup_insert_eq|lia|lia|..].
  { left. rewrite E. split; [by left|done]. } { left. rewrite E. split; [by right|done]. }
  right. assert (Hold : forall a m, A a -> Hp !! a = Some m -> Hp' !! a = Some m) by (intros a m Ha Em; apply Hsub; [by left|]; rewrite lookup_insert_ne by congruence; done).
  rewrite E. cbn [res_bind]. exists s', obj. split; [done|right].
  assert (Hapart : forall b' n', Hp !! b' = Some n' -> base + n <= b' \/ b' + n' <= base).
  { intros b' n' E'. assert (b' <> base) by congruence.
    apply (kh_disjoint k (<[base := n]> Hp)); [done|apply lookup_insert_eq|by rewrite lookup_insert_ne|done]. }
  split_and!.
  - unfold obj, HEAD in *. lia.
  - destruct (objs !! obj) as [t'|] eqn:Eo; [|done]. exfalso. destruct (Hob _ _ Eo) as (l' & n' & [Hl' Hh'] & En' & Hn').
    destruct (lineage_head _ _ Hl') as [lt' El']. assert (Hin : (t', obj) ∈ parts l' obj) by (rewrite El'; by left).
    destruct (parts_inside _ _ _ _ _ Htab Hl' Hin) as (Hb1 & _ & _). pose proof (part_size_nonneg (hd 0 l') Htab).
    pose proof (Hapart _ _ En') as Hd.
    unfold base_of in *. unfold HEAD in *. lia.
  - by rewrite Ebase.
  - exists Hp'. split; [|exact Hold]. split.
    + done.
    + intros o' t' Eo. destruct (decide (o' = obj)) as [->|Hne].
      * rewrite lookup_insert_eq in Eo. injection Eo as <-. exists l, n. split_and!; [done| |lia]. rewrite Ebase.
        apply Hsub; [by right|apply lookup_insert_eq].
      * rewrite lookup_insert_ne in Eo by done. destruct (Hob _ _ Eo) as (l' & n' & [Hl' Hh'] & En' & Hn'). exists l', n'.
        pose proof (Hapart _ _ En') as Hd.
        assert (HA : A (base_of o' l')) by (apply Hlive; by exists o', t', l'). split_and!; [|by apply Hold|done].
        split; [done|]. eapply headed_keep, Hh'. intros a o x Hin Ex.
        destruct (parts_inside _ _ _ _ _ Htab Hl' Hin) as (Hb1 & Hb2 & _). pose proof (part_size_nonneg a Htab).
        assert (Ho : o <= base_of o' l' + total l').
        { unfold base_of. destruct (lineage_head _ _ Hl') as [lt ->]. cbn [hd]. lia. }
        apply Hkeep; [|apply overwrite_keeps; [done|]|rewrite Ebase]; [|unfold HEAD in *; lia..].
        exists (base_of o' l'), n'. split_and!; [by left|rewrite lookup_insert_ne by congruence; done|lia|lia].
    + intros o1 t1 o2 t2 l1 l2 E1 E2 L1 L2 Eb.
      assert (Hfresh : forall o' t' l', objs !! o' = Some t' -> lineage t' l' -> base_of o' l' <> base).
      { intros o' t' l' Eo L'. destruct (Hob _ _ Eo) as (l'' & n' & [Hl'' _] & En' & _). rewrite (lineage_det _ _ _ L' Hl''). congruence. }
      destruct (decide (o1 = obj)) as [->|N1], (decide (o2 = obj)) as [->|N2]; try done;
        repeat match goal with
        | X : <[obj := t]> objs !! obj = Some _ |- _ => rewrite lookup_insert_eq in X; injection X as <-
        | X : <[obj := t]> objs !! _ = Some _ |- _ => rewrite lookup_insert_ne in X by done
        end.
      * rewrite (lineage_det _ _ _ L1 Hl), Ebase in Eb. by destruct (Hfresh _ _ _ E2 L2).
      * rewrite (lineage_det _ _ _ L2 Hl), Ebase in Eb. by destruct (Hfresh _ _ _ E1 L1).
      * by eapply Hsep.
Qed.
(** ** Deletion *)

Lemma parts_suffix t l obj a o :
  lineage t l -> (a, o) ∈ parts l obj -> exists la q, lineage a la /\ parts l obj = q ++ parts la o.
Proof.
  intros Hl. revert obj. induction Hl as [Ho|t i l Htn Ei Hl IH]; intros obj Hin; cbn [parts] in Hin.
  - apply list_elem_of_singleton in Hin as [= -> ->]. exists [object_t], []. split; [by constructor|done].
  - apply elem_of_cons in Hin as [[= -> ->]|Hin]; [exists (t :: l), []; split; [by econstructor|done]|].
    destruct (IH _ Hin) as (la & q & Hla & E). exists la, ((t, obj) :: q). split; [done|]. cbn. by rewrite E.
Qed.

Lemma headed_suffix hs child q ps : headed hs child (q ++ ps) -> exists c, headed hs c ps.
Proof. revert child. induction q as [|[c oc] q IH]; intros child; cbn; [eauto|]. intros [_ Hh]. by apply (IH c). Qed.

Lemma object_exit_ok A t l : lineage t l -> hook_ok A destructor -> forall fuel child obj s Hp,
  (length l <= fuel)%nat -> kh_inv (cheap s) Hp -> headed (heads s) child (parts l obj) -> (forall a o, (a, o) ∈ parts l obj -> guarded A Hp (o - HEAD)) ->
  (halted (object_exit table object_t destructor fuel obj s) /\ exists t' o' s1, t' ∈ l /\ halted (destructor t' o' s1)) \/
  exists s' Hp', object_exit table object_t destructor fuel obj s = Ok s' /\ respects A s Hp s' Hp'.
Proof.
  intros Hl0 Hdtor. induction Hl0 as [Ho|t i l Htn Ei Hl IH]; intros fuel child obj s Hp Hf Hi Hh Hg; (destruct fuel as [|fuel]; [cbn in Hf; lia|]);
    cbn [object_exit]; cbn [parts] in Hh; rewrite (info_head _ _ _ _ _ Hh); cbn [res_bind].
  - destruct (halted_or (destructor object_t obj s)) as [Hs|[s1 E]].
    { left. split; [destruct Hs as [-> | ->]; [by left|by right]|]. exists object_t, obj, s. split; [by left|done]. }
    destruct (Hdtor _ _ _ Hp s1 Hi E) as [Hp1 R]. rewrite E. cbn [res_bind]. rewrite Z.eqb_refl. right. by exists s1, Hp1.
  - destruct (halted_or (destructor t obj s)) as [Hs|[s1 E]].
    { left. split; [destruct Hs as [-> | ->]; [by left|by right]|]. exists t, obj, s. split; [by left|done]. }
    destruct (Hdtor _ _ _ Hp s1 Hi E) as [Hp1 R]. rewrite E. cbn [res_bind].
    rewrite (proj2 (Z.eqb_neq t object_t) Htn), (parent_obj_of t i l obj Hl Ei). cbn [res_bind]. destruct Hh as [_ Hh].
    destruct (IH fuel t (obj - HEAD - part_size (hd 0 l)) s1 Hp1) as [[Hs (t' & o' & s2 & Ht' & Hs2)]|(s2 & Hp2 & E2 & R2)]; [cbn in Hf; lia|apply R| | | |].
    + eapply headed_keep, Hh. intros a o x Hin Ex. eapply re_head; [exact R| |done]. apply (Hg a). by right.
    + intros a o Hin. eapply guarded_respects; [exact R|]. apply (Hg a). by right.
    + left. split; [done|]. exists t', o', s2. split; [by right|done].
    + right. exists s2, Hp2. split; [done|]. by eapply respects_trans.
Qed.

(** [delete] on any part of an object frees the object. *)
Lemma delete_object_ok A s Hp objs obj t l a o :
  class_ok s Hp objs -> (forall a, live_base objs a -> A a) -> hook_ok A destructor -> objs !! obj = Some t -> lineage t l -> (a, o) ∈ parts l obj ->
  (halted (delete_class_object table object_t destructor o s) /\ exists t' o' s1, t' ∈ l /\ halted (destructor t' o' s1)) \/
  exists s' Hp', delete_class_object table object_t destructor o s = Ok s' /\ class_ok s' Hp' (delete obj objs) /\
    Hp' !! base_of obj l = None /\ forall b n, A b -> b <> base_of obj l -> Hp !! b = Some n -> Hp' !! b = Some n.
Proof.
  intros Hc Hlive Hdtor Eo Hl Hin. pose proof Hc as [Hh Hob Hsep]. destruct (Hob _ _ Eo) as (l0 & n & [Hl0 Hhd] & En & Hn).
  rewrite (lineage_det _ _ _ Hl0 Hl) in *. clear l0 Hl0.
  destruct (parts_inside _ _ _ _ _ Htab Hl Hin) as (Hb1 & Hb2 & la & Hla & Eb).
  destruct (parts_suffix _ _ _ _ _ Hl Hin) as (la' & q & Hla' & Ep). rewrite (lineage_det _ _ _ Hla' Hla) in Ep. clear la' Hla'.
  pose proof Hhd as Hhd'. rewrite Ep in Hhd'. apply headed_suffix in Hhd' as [c Hhd'].
  assert (HAb : A (base_of obj l)) by (apply Hlive; by exists obj, t, l).
  assert (Hend : obj + part_size t = base_of obj l + total l) by (unfold base_of; destruct (lineage_head _ _ Hl) as [l' ->]; cbn [hd]; lia).
  assert (Hg : forall b p, (b, p) ∈ parts l obj -> guarded A Hp (p - HEAD)).
  { intros b p Hp'. destruct (parts_inside _ _ _ _ _ Htab Hl Hp') as (H1 & H2 & _). pose proof (part_size_nonneg b Htab). exists (base_of obj l), n. split_and!; [done|done|lia|lia]. }
  destruct (kh_region _ _ _ _ Hh En) as (_ & Hb0 & _). unfold delete_class_object. rewrite (proj2 (Z.eqb_neq o 0)) by (unfold HEAD in *; lia).
  cbn [negb c_assert res_bind].
  destruct (object_exit_ok A a la Hla Hdtor (depth table) c o s Hp) as [[Hs (t' & o' & s1 & Ht' & Hs1)]|(s1 & Hp1 & -> & R)].
  { pose proof (lineage_depth _ _ Hla). unfold depth. lia. } { done. } { done. } { intros b p Hp'. apply (Hg b). rewrite Ep. apply elem_of_app. by right. }
  { left. split; [destruct Hs as [-> | ->]; [by left|by right]|]. exists t', o', s1. split; [|done]. rewrite <- (parts_fst l obj), Ep, fmap_app, parts_fst. apply elem_of_app. by right. }
  right. pose proof (re_heap _ _ _ _ _ R) as Hi1.
  cbn [res_bind]. destruct (lineage_head _ _ Hla) as [la' Ela]. destruct (lineage_in_table _ _ a Hla) as [i Ei]; [rewrite Ela; by left|].
  unfold get_class_type. rewrite (proj2 (Z.eqb_neq o 0)) by (unfold HEAD in *; lia). cbn [negb c_assert res_bind].
  assert (Einfo : info_of o s1 = Ok (a, c)).
  { rewrite Ela in Hhd'. destruct Hhd' as [E _]. unfold info_of, get_head_info_from_obj. rewrite (re_head _ _ _ _ _ R _ _ (Hg a o Hin) E). done. }
  rewrite Einfo. cbn [res_bind]. rewrite Ei. cbn [deref res_bind]. rewrite Ei. cbn [deref res_bind].
  destruct (lineage_type_size _ _ _ Hla Ei) as (Esz & Efull & _).
  assert (Ebase : o - full_size i + size_ i = base_of obj l) by (rewrite <- Eb; unfold base_of; lia). rewrite Ebase.
  assert (En1 : Hp1 !! base_of obj l = Some n) by (by eapply re_block).
  destruct (kh_free_ok _ _ _ _ Hi1 En1) as (k & -> & Hk'). cbn [res_bind]. eexists _, (delete (base_of obj l) Hp1).
  split_and!; [done| |apply lookup_delete_eq|intros b m Hb Hne Em; rewrite lookup_delete_ne by done; by eapply re_block]. split.
  - done.
  - intros o' t' Eo'. apply lookup_delete_Some in Eo' as [Hne Eo']. destruct (Hob _ _ Eo') as (l' & n' & [Hl' Hh'] & En' & Hn').
    assert (HA' : A (base_of o' l')) by (apply Hlive; by exists o', t', l'). exists l', n'. split_and!; [split; [done|]|..].
    + eapply headed_keep, Hh'. cbn. intros b p x Hp' Ex. eapply re_head; [exact R| |done]. destruct (parts_inside _ _ _ _ _ Htab Hl' Hp') as (H1 & H2 & _). pose proof (part_size_nonneg b Htab).
      exists (base_of o' l'), n'. split_and!; [done|done|lia|]. unfold base_of in *. destruct (lineage_head _ _ Hl') as [lt ->]. cbn [hd] in *. lia.
    + rewrite lookup_delete_ne; [by eapply re_block|]. intros E. apply Hne. by eapply Hsep.
    + done.
  - intros o1 t1 o2 t2 l1 l2 E1 E2. apply lookup_delete_Some in E1 as [_ E1], E2 as [_ E2]. by eapply Hsep.
Qed.
End class.
