(* ===== verification/ClassTheorems.v ===== *)
(** * ClassTheorems: the class table, casts, and the life of objects *)

From S2P Require Import Prelude Bits ListHead CMem Buddy BuddyBlocks BuddyProof PageAlloc MemPool MemPoolProof Kalloc KallocProof Alloc Class ClassProof.

(** ** do_class_init sets up the table *)

Section init.
Context (raw : list raw_class) (object_t : Z).

Lemma fill_table_lookup todo : forall i t,
  fill_table i todo raw object_t = Ok t -> forall j c,
  t !! j = Some c <-> exists sz p, i <= j /\ todo !! Z.to_nat (j - i) = Some (sz, p) /\ size_ c = sz /\ parent_type c = p /\
    set_class_table_info (S (length raw)) raw object_t j = Ok (full_size c).
Proof.
  induction todo as [|[sz p] todo IH]; intros i t; cbn [fill_table].
  - intros [= <-] j c. rewrite lookup_empty. split; [done|]. intros (? & ? & _ & E & _). by rewrite lookup_nil in E.
  - destruct (set_class_table_info _ _ _ i) as [full| |] eqn:Ef; [|done..]. cbn [res_bind].
    destruct (fill_table (i + 1) todo raw object_t) as [t'| |] eqn:Et; [|done..]. intros [= <-] j c.
    destruct (decide (j = i)) as [->|Hne].
    + rewrite lookup_insert_eq, Z.sub_diag. change (((sz, p) :: todo) !! Z.to_nat 0) with (Some (sz, p)). split.
      * intros [= <-]. exists sz, p. split_and!; [done..|exact Ef].
      * intros (? & ? & _ & [= <- <-] & E1 & E2 & E3). rewrite Ef in E3. injection E3 as E3. destruct c as [a b d]. simpl in E1, E2, E3. by subst.
    + rewrite lookup_insert_ne by done. rewrite (IH _ _ Et j c).
      assert (Hj : forall x, (i + 1 <= j /\ todo !! Z.to_nat (j - (i + 1)) = x) <-> (i <= j /\ ((sz, p) :: todo) !! Z.to_nat (j - i) = x)).
      { intros x. split; intros [Hle E]; (split; [lia|]).
        - replace (Z.to_nat (j - i)) with (S (Z.to_nat (j - (i + 1)))) by lia. done.
        - replace (Z.to_nat (j - i)) with (S (Z.to_nat (j - (i + 1)))) in E by lia. done. }
      split; intros (sz' & p' & H1 & H2 & H3); exists sz', p'; destruct (Hj (Some (sz', p'))) as [J1 J2]; [destruct (J1 (conj H1 H2))|destruct (J2 (conj H1 H2))]; done.
Qed.

Context (table : gmap Z class_table_info) (h : lheap cloc) (Hinit : do_class_init raw object_t = Ok (table, h)).

Lemma table_lookup j c :
  table !! j = Some c <-> raw_at raw j = Some (size_ c, parent_type c) /\ set_class_table_info (S (length raw)) raw object_t j = Ok (full_size c).
Proof.
  unfold do_class_init in Hinit. destruct (link_classes _ _ _); [|done..]. cbn [res_bind] in Hinit.
  destruct (fill_table 0 raw raw object_t) as [t'| |] eqn:Et; [|done..]. cbn [res_bind] in Hinit. injection Hinit as -> ->.
  rewrite (fill_table_lookup _ _ _ Et j c). unfold raw_at. rewrite Z.sub_0_r. split.
  - intros (sz & p & H0 & E & <- & <- & Ef). by rewrite (proj2 (Z.leb_le 0 j) H0).
  - destruct (Z.leb_spec 0 j); [|by intros [? _]]. intros [E Ef]. by exists (size_ c), (parent_type c).
Qed.

Lemma table_defined j : is_Some (raw_at raw j) -> exists c, table !! j = Some c.
Proof.
  intros [[sz p] E]. unfold do_class_init in Hinit. destruct (link_classes _ _ _); [|done..]. cbn [res_bind] in Hinit.
  destruct (fill_table 0 raw raw object_t) as [t'| |] eqn:Et; [|done..]. cbn [res_bind] in Hinit. injection Hinit as -> ->.
  assert (Hfull : forall todo i t, fill_table i todo raw object_t = Ok t -> forall j, i <= j -> is_Some (todo !! Z.to_nat (j - i)) ->
    exists f, set_class_table_info (S (length raw)) raw object_t j = Ok f).
  { clear. induction todo as [|[sz p] todo IH]; intros i t Et j Hj [x Ex]; [by rewrite lookup_nil in Ex|]. cbn [fill_table] in Et.
    destruct (set_class_table_info _ _ _ i) as [full| |] eqn:Ef; [|done..]. cbn [res_bind] in Et.
    destruct (fill_table (i + 1) todo raw object_t) as [t'| |] eqn:Et'; [|done..]. destruct (decide (j = i)) as [->|]; [eauto|].
    apply (IH _ _ Et' j); [lia|]. replace (Z.to_nat (j - i)) with (S (Z.to_nat (j - (i + 1)))) in Ex by lia. eauto. }
  unfold raw_at in E. destruct (Z.leb_spec 0 j) as [Hj|]; [|done]. destruct (Hfull _ _ _ Et j Hj) as [f Ef]; [by rewrite Z.sub_0_r, E|].
  exists (mk_class sz f p). apply (fill_table_lookup _ _ _ Et). exists sz, p. by rewrite Z.sub_0_r.
Qed.

(** The recursion ends at [object_t], so that every class has its ancestors. *)
Lemma set_info_lineage : forall fuel t n,
  set_class_table_info fuel raw object_t t = Ok n -> exists l, lineage table object_t t l /\ n = total table l.
Proof.
  induction fuel as [|fuel IH]; intros t n; cbn [set_class_table_info]; [done|].
  destruct (raw_at raw t) as [[sz p]|] eqn:Er; [|done]. cbn [deref res_bind].
  destruct (table_defined t) as [c Ec]; [by rewrite Er|]. pose proof Ec as Ec'. apply table_lookup in Ec' as [Er' _]. rewrite Er in Er'.
  injection Er' as Esz Ep. assert (Eps : part_size table t = sz) by (unfold part_size; by rewrite Ec).
  destruct (Z.eqb_spec t object_t) as [->|Hne]; cbn [negb].
  - cbn [res_bind]. intros [= <-]. exists [object_t]. split; [constructor; by rewrite Ec|]. rewrite total_cons, Eps. change (total table []) with 0. lia.
  - destruct (p =? t); [done|]. destruct (set_class_table_info fuel raw object_t p) as [m| |] eqn:Em; [|done..]. cbn [res_bind]. intros [= <-].
    destruct (IH _ _ Em) as (l & Hl & ->). exists (t :: l). split; [econstructor; [done|done|by rewrite <- Ep]|]. rewrite total_cons, Eps. lia.
Qed.

Lemma init_table_ok :
  Forall (fun c => 0 <= c.1) raw -> (forall j c, table !! j = Some c -> full_size c < 2 ^ 31) -> table_ok table object_t.
Proof.
  intros Hs Hb. split.
  - intros t [c Ec]. apply table_lookup in Ec as [_ Ef]. destruct (set_info_lineage _ _ _ Ef) as (l & Hl & _). eauto.
  - intros t c Ec. apply table_lookup in Ec as [Er _]. unfold raw_at in Er. destruct (0 <=? t); [|done].
    exact (proj1 (Forall_lookup _ _) Hs _ _ Er).
  - intros t c l Ec Hl. split; [|by eapply Hb]. pose proof Ec as Ec'. apply table_lookup in Ec' as [_ Ef].
    destruct (set_info_lineage _ _ _ Ef) as (l' & Hl' & ->). by rewrite (lineage_det _ _ _ _ _ Hl Hl').
Qed.
End init.

(** ** Guarantees *)

Section class.
Context {K : Type} `{KernelHeap K} (table : gmap Z class_table_info) (object_t : Z).
Context (constructor destructor : Z -> Z -> cstate K -> res (cstate K)).

(** C20. Casts are exact: from any part of a live object, [class_cast] to the class itself or
    one of its ancestors, whether up or down the hierarchy, gives the address of that part,
    and NULL for every other class. *)
Theorem class_cast_exact s Hp objs obj t l a o b :
  table_ok table object_t -> class_ok table object_t s Hp objs -> objs !! obj = Some t -> lineage table object_t t l ->
  (a, o) ∈ parts table l obj ->
  exists r, class_cast table object_t b o s = Ok r /\
    ((b ∈ l /\ (b, r) ∈ parts table l obj) \/ ((b ∉ l) /\ r = 0)).
Proof.
  intros Ht Hc Eo Hl Hin. destruct (k_object _ _ _ _ _ Hc _ _ Eo) as (l0 & n & Hob & En & _).
  assert (l0 = l) as -> by (eapply lineage_det; [apply Hob|done]).
  destruct (parts_inside _ _ _ _ _ _ _ Ht Hl Hin) as (Hb & _ & _). destruct (kh_region _ _ _ _ (k_heap _ _ _ _ _ Hc) En) as (_ & Hp0 & _).
  eexists. split; [eapply class_cast_parts; [exact Hob|exact Hin|unfold HEAD in *; lia]|].
  pose proof (lineage_NoDup _ _ _ _ Hl) as Hnd. pose proof (parts_fst table l obj) as Efst. rewrite <- Efst in Hnd.
  destruct (decide (b ∈ l)) as [Hb'|Hb']; [left|right]; (split; [done|]); rewrite <- Efst in Hb'.
  - apply list_elem_of_fmap in Hb' as ([b' r] & -> & Hr). cbn. by rewrite (find_part_in _ _ _ Hnd Hr).
  - by apply find_part_none.
Qed.

(** C21. Objects live apart, whatever their constructors and destructors allocate, and free of
    their own, as long as these leave the allocations of live objects and the headers in them alone.
    [new] returns NULL only when there is no memory for an object of the class, and otherwise a new
    object of the class in an allocation that no live object shares, whose parts have the headers
    that casts rely on; it does not return only when a constructor of the class or of an ancestor
    does not.  [delete], on any part of a live object, frees the allocation of the object; it does
    not return only when a destructor does not.  Both keep every other live object as it is. *)
Theorem objects_live_apart s Hp objs t i l :
  table_ok table object_t -> class_ok table object_t s Hp objs -> table !! t = Some i -> lineage table object_t t l ->
  ((forall p, Hp !! p = None -> hook_ok (fun a => live_base table object_t objs a \/ a = p) constructor) ->
     (halted (new_class_object table object_t constructor t s) /\ exists t' o' s1, t' ∈ l /\ halted (constructor t' o' s1)) \/
     exists s' o, new_class_object table object_t constructor t s = Ok (s', o) /\
       ((o = 0 /\ s' = s /\ kh_calloc (cheap s) (full_size i) = Ok (cheap s, 0)) \/
        (o <> 0 /\ objs !! o = None /\ Hp !! base_of table o l = None /\ exists Hp', class_ok table object_t s' Hp' (<[o := t]> objs)))) /\
  (hook_ok (live_base table object_t objs) destructor -> forall obj a o, objs !! obj = Some t -> (a, o) ∈ parts table l obj ->
     (halted (delete_class_object table object_t destructor o s) /\ exists t' o' s1, t' ∈ l /\ halted (destructor t' o' s1)) \/
     exists s' Hp', delete_class_object table object_t destructor o s = Ok s' /\
       class_ok table object_t s' Hp' (delete obj objs) /\ Hp' !! base_of table obj l = None).
Proof.
  intros Ht Hc Ei Hl. split.
  - intros Hctor. destruct (new_object_ok table object_t constructor Ht _ s Hp objs t i l Hc (fun a Ha => Ha) Hctor Ei Hl) as [?|(s' & o & E & [?|(Ho & Hn & Hb & Hp' & Hc' & _)])]; [by left|right; exists s', o; auto|].
    right. exists s', o. split; [done|]. right. split_and!; [done|done|done|]. by exists Hp'.
  - intros Hdtor obj a o Eo Hin. destruct (delete_object_ok table object_t destructor Ht _ s Hp objs obj t l a o Hc (fun a Ha => Ha) Hdtor Eo Hl Hin) as [?|(s' & Hp' & E & Hc' & Hn & _)]; [by left|right]. by exists s', Hp'.
Qed.
End class.

(** ** The classes of the kernel objects *)

#[local] Existing Instance bump_heap.

(** [object_t], [kobject_t], [thread_t], [process_t], [vmspace_t] with their parents as class_impl
    names them; the sizes do not matter. *)
Definition kernel_classes : list raw_class := [(0, 0); (4, 0); (400, 0); (32, 1); (40, 1)].

Definition kernel_table : gmap Z class_table_info := match do_class_init kernel_classes 0 with Ok (t, _) => t | _ => ∅ end.

Lemma kernel_table_ok : table_ok kernel_table 0.
Proof.
  destruct (do_class_init kernel_classes 0) as [[t h]| |] eqn:E; [|by vm_compute in E..].
  assert (Et : kernel_table = t) by (unfold kernel_table; by rewrite E). rewrite Et. eapply init_table_ok; [exact E|by repeat constructor|].
  rewrite <- Et. intros j c Ec. assert (Ha : map_Forall (fun _ c => full_size c < 2 ^ 31) kernel_table) by (apply (bool_decide_unpack _); by vm_compute).
  by eapply Ha.
Qed.

Definition no_hook (_ _ : Z) (s : cstate Z) : res (cstate Z) := Ok s.

Lemma no_hook_ok A : hook_ok A no_hook.
Proof. intros t o s Hp s' Hi [= <-]. by exists Hp. Qed.

Lemma no_objects : class_ok kernel_table 0 (mk_cstate 1 ∅ : cstate Z) ∅ ∅.
Proof. split; done. Qed.

(** The state after the first object of class [t] was made, and the object. *)
Definition first_object (t : Z) : cstate Z * Z :=
  match new_class_object kernel_table 0 no_hook t (mk_cstate 1 ∅) with Ok so => so | _ => (mk_cstate 1 ∅, 0) end.

Lemma first_object_ok t :
  is_Some (kernel_table !! t) -> (first_object t).2 <> 0 -> exists Hp, class_ok kernel_table 0 (first_object t).1 Hp {[(first_object t).2 := t]}.
Proof.
  intros [i Ei]. unfold first_object. destruct (t_lineage _ _ kernel_table_ok t) as [l Hl]; [by rewrite Ei|].
  destruct (new_object_ok kernel_table 0 no_hook kernel_table_ok (fun _ => True) _ _ _ t i l no_objects (fun _ _ => I) (fun _ _ => no_hook_ok _) Ei Hl)
    as [[[-> | ->] _]|(s & o & -> & [[-> _]|(_ & _ & _ & Hp & Hc & _)])]; [done|done|done|]. intros _. by exists Hp.
Qed.

Lemma kernel_lineages : lineage kernel_table 0 3 [3; 1; 0] /\ lineage kernel_table 0 2 [2; 0].
Proof.
  assert (H0 : lineage kernel_table 0 0 [0]) by (apply lineage_object; by eexists).
  assert (H1 : lineage kernel_table 0 1 [1; 0]) by (by eapply (lineage_sub _ _ 1 (mk_class 4 20 0))).
  split; [by eapply (lineage_sub _ _ 3 (mk_class 32 60 1))|by eapply (lineage_sub _ _ 2 (mk_class 400 416 0))].
Qed.

(** A process is a kernel object. *)
Lemma class_cast_exact_witness :
  exists r, class_cast kernel_table 0 1 (first_object 3).2 (first_object 3).1 = Ok r /\ (1, r) ∈ parts kernel_table [3; 1; 0] (first_object 3).2.
Proof.
  destruct (first_object_ok 3) as [Hp Hc]; [by eexists|by vm_compute|].
  destruct (class_cast_exact kernel_table 0 (first_object 3).1 Hp {[(first_object 3).2 := 3]} (first_object 3).2 3 [3; 1; 0] 3 (first_object 3).2 1
    kernel_table_ok Hc) as (r & Hr & Hor); [apply lookup_singleton_eq|apply kernel_lineages|by left|].
  exists r. split; [exact Hr|]. destruct Hor as [[_ Hin]|[Hn _]]; [exact Hin|]. exfalso. apply Hn. right. by left.
Defined.

(** Hooks that do what those of core/process.c and core/vmspace.c do: the constructor of a process
    makes its slot table, that of an address space clears an unchecked page. *)
Definition kernel_constructor (t _ : Z) (s : cstate Z) : res (cstate Z) :=
  if t =? 3 then let* '(k, _) := kh_calloc (cheap s) 8192 in Ok (mk_cstate k (heads s))
  else if t =? 4 then
    let* '(k, pgtbl) := kh_alloc_page (cheap s) 1 in
    let* _ := defined_if (negb (pgtbl =? 0)) in
    Ok (overwrite pgtbl PAGE_SIZE (mk_cstate k (heads s)))
  else Ok s.

(** A destructor that releases the slot table of a process. *)
Definition kernel_destructor (slots t _ : Z) (s : cstate Z) : res (cstate Z) :=
  if t =? 3 then let* k := kh_free (cheap s) slots in Ok (mk_cstate k (heads s)) else Ok s.

Lemma kernel_constructor_ok A : hook_ok A kernel_constructor.
Proof.
  intros t o s Hp s' Hi. unfold kernel_constructor. destruct (t =? 3); [|destruct (t =? 4)].
  - destruct (kh_calloc_ok (cheap s) Hp 8192 Hi) as (k & p & -> & Hor); [lia|]. cbn [res_bind]. intros [= <-].
    destruct Hor as [[_ ->]|(n & _ & Hn & Hi')]; [by exists Hp|]. exists (<[p := n]> Hp). split; [done|intros a m _ E; rewrite lookup_insert_ne by congruence; done|done].
  - destruct (kh_alloc_page_ok (cheap s) Hp 1 Hi) as (k & p & -> & Hor); [by split|]. cbn [res_bind]. destruct (Z.eqb_spec p 0) as [-> |H0]; [done|]. cbn [negb defined_if res_bind]. intros [= <-].
    destruct Hor as [[? _]|(n & Hge & Hn & _ & Hi')]; [done|]. exists (<[p := n]> Hp). split; [done|intros a m _ E; rewrite lookup_insert_ne by congruence; done|].
    intros h x (a & m & _ & Ea & H1 & H2) Ex. apply overwrite_keeps; [done|].
    destruct (kh_disjoint k (<[p := n]> Hp) p n a m Hi') as [?|?]; [apply lookup_insert_eq|rewrite lookup_insert_ne by congruence; done|congruence|right; lia|left; lia].
  - intros [= <-]. by exists Hp.
Qed.

Lemma kernel_destructor_ok A slots : hook_ok A (kernel_destructor slots).
Proof. intros t o s Hp s' Hi. unfold kernel_destructor. destruct (t =? 3); intros [= <-]; by exists Hp. Qed.

(** A thread, and a process whose slot table is at [slots]. *)
Definition two_objects : res (cstate Z * Z * Z) :=
  let* '(s, thread) := new_class_object kernel_table 0 kernel_constructor 2 (mk_cstate 1 ∅) in
  let* '(s, process) := new_class_object kernel_table 0 kernel_constructor 3 s in
  Ok (s, thread, process).

(** A thread and a process are made; the process is deleted through its [kobject_t] part, and the
    thread is still there. *)
Lemma objects_live_apart_witness :
  exists s thread process kobject s' Hp', two_objects = Ok (s, thread, process) /\ class_cast kernel_table 0 1 process s = Ok kobject /\ kobject <> process /\
    delete_class_object kernel_table 0 (kernel_destructor 12288) kobject s = Ok s' /\ class_ok kernel_table 0 s' Hp' {[thread := 2]} /\
    class_cast kernel_table 0 0 thread s' <> Ok 0.
Proof.
  destruct kernel_lineages as [L3 L2]. unfold two_objects.
  destruct (objects_live_apart kernel_table 0 kernel_constructor (kernel_destructor 0) (mk_cstate 1 ∅ : cstate Z) ∅ ∅ 2 (mk_class 400 416 0) [2; 0] kernel_table_ok no_objects eq_refl L2) as [Hn _].
  destruct (Hn (fun _ _ => kernel_constructor_ok _)) as [[[E|E] _]|(s1 & o1 & E1 & Hor1)]; [vm_compute in E; discriminate E|vm_compute in E; discriminate E|].
  assert (V1 : new_class_object kernel_table 0 kernel_constructor 2 (mk_cstate 1 ∅) = Ok (mk_cstate 2 (<[4104 := (2, 2)]> {[4096 := (0, 2)]}), 4112)) by (vm_compute; reflexivity).
  rewrite V1 in E1. injection E1 as <- <-. destruct Hor1 as [[E _]|(_ & _ & _ & Hp1 & Hc1)]; [discriminate E|].
  destruct (objects_live_apart kernel_table 0 kernel_constructor (kernel_destructor 0) _ Hp1 _ 3 (mk_class 32 60 1) [3; 1; 0] kernel_table_ok Hc1 eq_refl L3) as [Hn3 _].
  destruct (Hn3 (fun _ _ => kernel_constructor_ok _)) as [[[E|E] _]|(s2 & o2 & E2 & Hor2)]; [vm_compute in E; discriminate E|vm_compute in E; discriminate E|].
  rewrite V1. cbn [res_bind]. rewrite E2. cbn [res_bind]. vm_compute in E2. injection E2 as <- <-. destruct Hor2 as [[E _]|(_ & _ & _ & Hp2 & Hc2)]; [discriminate E|].
  destruct (objects_live_apart kernel_table 0 kernel_constructor (kernel_destructor 12288) _ Hp2 _ 3 (mk_class 32 60 1) [3; 1; 0] kernel_table_ok Hc2 eq_refl L3) as [_ Hd].
  destruct (Hd (kernel_destructor_ok _ _) 8220 1 8208) as [[[E|E] _]|(s3 & Hp3 & E3 & Hc3 & _)]; [reflexivity|right; left; reflexivity|vm_compute in E; discriminate E|vm_compute in E; discriminate E|].
  eexists _, _, _, 8208, s3, Hp3. split; [reflexivity|]. split; [vm_compute; reflexivity|]. split; [lia|]. split; [exact E3|]. split; [exact Hc3|].
  vm_compute in E3. injection E3 as <-. vm_compute. discriminate.
Defined.

(** [class_impl(thread_t)] names no parent, so that a thread is not a kernel object: the
    cast in [slot_alloc_install] gives NULL, and the assertion on it fails. *)
Lemma thread_is_no_kobject : class_cast kernel_table 0 1 (first_object 2).2 (first_object 2).1 = Ok 0.
Proof. by vm_compute. Qed.
