(* ===== verification/VmSpace.v ===== *)
(** * VmSpace: capabilities, memory objects and address spaces

    The slots of core/process.c, core/vmo.c and core/vmspace.c, on the page tables of Vm.v.
    [objs] holds the kernel objects by address; [dynamic_cast] gives NULL for an object of
    another class (Class.v), and [new] gives the address of an object, or 0, as an argument
    here.  The slots of a process are [None] when [calloc] gave no table.
    [obytes] is the physical memory; the copies of uaccess.h reach it through the page table
    that is active, in which one frame can appear at several addresses. *)

From S2P Require Import Prelude Bits ListHead CMem Buddy BuddyBlocks BuddyProof PageAlloc MemPool MemPoolProof Kalloc KallocProof Alloc Radix Vm.

Inductive vmo_type_t := VMO_ANONYM | VMO_DATA | VMO_FILE | VMO_SHM | VMO_USER_PAGER | VMO_DEVICE.

#[export] Instance vmo_type_eq_dec : EqDecision vmo_type_t.
Proof. solve_decision. Defined.

Record vmobject_t := mk_vmo { vmo_radix : Z; vmo_start : Z; vmo_size : Z; vmo_type : vmo_type_t }.

Record vmregion := mk_vmr { vmr_start : Z; vmr_size : Z; vmr_perm : Z; vmr_vmo : Z }.

Inductive kobject :=
| OProcess (slots : option (list Z))
| OVmspace (pgtbl : Z)
| OVmo (v : vmobject_t)
| OOther.

(** The list of regions of an address space, and the node of a region. *)
Inductive rloc := RList (vmspace : Z) | RNode (vmr : Z).

#[export] Instance rloc_eq_dec : EqDecision rloc.
Proof. solve_decision. Defined.
#[export] Instance rloc_countable : Countable rloc.
Proof.
  refine (inj_countable' (fun l => match l with RList t => (0, t) | RNode t => (1, t) end)
    (fun p => match p with (0, t) => RList t | (_, t) => RNode t end) _). by intros [].
Defined.

Record osys (K : Type) := mk_osys {
  omem : vmem K;
  obytes : cmem;
  objs : gmap Z kobject;
  regions : gmap Z vmregion;
  rlinks : lheap rloc;
}.
Arguments mk_osys {K} _ _ _ _ _.
Arguments omem {K} _.
Arguments obytes {K} _.
Arguments objs {K} _.
Arguments regions {K} _.
Arguments rlinks {K} _.

Section ops.
Context {K : Type} `{KernelHeap K}.
Implicit Types s : osys K.

Definition set_omem s x : osys K := mk_osys x (obytes s) (objs s) (regions s) (rlinks s).
Definition set_obytes s x : osys K := mk_osys (omem s) x (objs s) (regions s) (rlinks s).
Definition set_objs s x : osys K := mk_osys (omem s) (obytes s) x (regions s) (rlinks s).
Definition set_regions s x l : osys K := mk_osys (omem s) (obytes s) (objs s) x l.
Definition set_oheap s (k : K) : osys K := set_omem s (mk_vmem k (ptes (omem s))).

(** [dynamic_cast]: the object, or [None] for NULL. *)
Definition as_process (p : Z) s : res (option (option (list Z))) :=
  if p =? 0 then Ok None
  else let* o := deref (objs s !! p) in Ok (match o with OProcess l => Some l | _ => None end).
Definition as_vmspace (p : Z) s : res (option Z) :=
  if p =? 0 then Ok None
  else let* o := deref (objs s !! p) in Ok (match o with OVmspace pt => Some pt | _ => None end).
Definition as_vmo (p : Z) s : res (option vmobject_t) :=
  if p =? 0 then Ok None
  else let* o := deref (objs s !! p) in Ok (match o with OVmo v => Some v | _ => None end).

(** ** include/uaccess.h

    [root] is the page table that [satp] names.  The kernel sets SUM (arch/exception.c), so
    that it reaches user pages as its own; an access that the processor refuses has no
    result. *)

Definition vload8 (root va : Z) s : res Z :=
  match translate (ptes (omem s)) root va with
  | Some (pa, f) => if Z.land f PTE_R =? 0 then Undef else load8 (obytes s) pa
  | None => Undef
  end.

Definition vstore8 (root va b : Z) s : res (osys K) :=
  match translate (ptes (omem s)) root va with
  | Some (pa, f) => if Z.land f PTE_W =? 0 then Undef else let* m := store8 (obytes s) pa b in Ok (set_obytes s m)
  | None => Undef
  end.

(** The loops of [memmove] (lib/libc/string.c), down and up, with its comparison of the
    addresses, which are virtual ones. *)
Fixpoint vcopy_down (n : nat) (root d p : Z) s : res (osys K) :=
  match n with
  | O => Ok s
  | S n => let* b := vload8 root (p - 1) s in let* s := vstore8 root (d - 1) b s in vcopy_down n root (d - 1) (p - 1) s
  end.

Fixpoint vcopy_up (n : nat) (root d p : Z) s : res (osys K) :=
  match n with
  | O => Ok s
  | S n => let* b := vload8 root p s in let* s := vstore8 root d b s in vcopy_up n root (d + 1) (p + 1) s
  end.

Definition vmemcpy (root dst src n : Z) s : res (osys K) :=
  let n := u32 n in
  if (src <? dst) && (dst <? src + n) then vcopy_down (Z.to_nat n) root (dst + n) (src + n) s
  else vcopy_up (Z.to_nat n) root dst src s.

Definition copy_from_user (root kernel_buf user_buf size : Z) s : res (osys K * Z) :=
  let* s := vmemcpy root kernel_buf user_buf size s in Ok (s, 0).

Definition copy_to_user (root user_buf kernel_buf size : Z) s : res (osys K * Z) :=
  let* s := vmemcpy root user_buf kernel_buf size s in Ok (s, 0).

(** ** core/process.c: slots *)

Definition MAX_SLOTS_SIZE : Z := 64.
Definition VMSPACE_OBJ_ID : Z := 1.

Fixpoint slot_alloc_loop (i : Z) (slots : list Z) : Z :=
  match slots with
  | [] => -1
  | x :: slots => if x =? 0 then i else slot_alloc_loop (i + 1) slots
  end.

Definition process_slots (process : Z) s : res (list Z) :=
  let* o := as_process process s in
  let* slots := deref o in
  deref slots.

Definition slot_alloc (process : Z) s : res Z :=
  let* _ := c_assert (negb (process =? 0)) in
  let* slots := process_slots process s in
  Ok (slot_alloc_loop 0 slots).

(** [size > slot] compares unsigned. *)
Definition slot_get (process slot : Z) s : res Z :=
  let* slots := process_slots process s in
  if u32 slot <? Z.of_nat (length slots) then deref (slots !! Z.to_nat (u32 slot)) else Ok 0.

Definition slot_install (process slot_id obj : Z) s : res (osys K) :=
  let* _ := c_assert (negb (process =? 0) && negb (obj =? 0)) in
  let* slots := process_slots process s in
  let* _ := defined_if ((0 <=? slot_id) && (slot_id <? Z.of_nat (length slots))) in
  Ok (set_objs s (<[process := OProcess (Some (<[Z.to_nat slot_id := obj]> slots))]> (objs s))).

Definition slot_alloc_install (process obj : Z) s : res (osys K * Z) :=
  let* _ := c_assert (negb (process =? 0) && negb (obj =? 0)) in
  let* slot := slot_alloc process s in
  if slot <? 0 then Ok (s, -1)
  else let* s := slot_install process slot obj s in Ok (s, slot).

Definition slot_copy (src dest slot : Z) s : res (osys K * Z) :=
  let* obj := slot_get src slot s in
  slot_alloc_install dest obj s.

(** ** core/vmo.c *)

(** [new_radix] and [init_radix] are those of Radix.v: an allocation that is not NULL. *)
Definition vmo_init (vmo : Z) (type : vmo_type_t) (len paddr : Z) s : res (osys K) :=
  let len := PGROUNDUP len in
  match type with
  | VMO_DATA =>
      let* '(k, start) := kh_malloc (vheap (omem s)) len in
      Ok (set_objs (set_oheap s k) (<[vmo := OVmo (mk_vmo 0 start len type)]> (objs s)))
  | VMO_DEVICE => Ok (set_objs s (<[vmo := OVmo (mk_vmo 0 paddr len type)]> (objs s)))
  | _ =>
      let* '(k, radix) := kh_calloc (vheap (omem s)) sizeof_radix in
      let* _ := c_assert (negb (radix =? 0)) in
      Ok (set_objs (set_oheap s k) (<[vmo := OVmo (mk_vmo radix 0 len type)]> (objs s)))
  end.

(** [new (vmobject_t)]: [vmo] is the new object, 0 when there is no memory. *)
Definition vmo_create (vmo size : Z) (type : vmo_type_t) s : res (osys K * Z) :=
  if vmo =? 0 then Ok (s, 0)
  else let* s := vmo_init vmo type size 0 s in Ok (s, vmo).

Definition sys_vmo_create (self vmo size : Z) (type : vmo_type_t) s : res (osys K * Z) :=
  if vmo =? 0 then Ok (s, -1)
  else
    let* s := vmo_init vmo type size 0 s in
    let* '(s, slot) := slot_alloc_install self vmo s in
    if slot =? -1 then Ok (set_objs s (delete vmo (objs s)), -1) else Ok (s, slot).

Definition READ_PMO : bool := true.
Definition WRITE_PMO : bool := false.

(** The slot is as the system call has it; [phys_to_virt] gives the address itself. *)
Definition read_write_vmo (root self slot offset user_buf size : Z) (type : bool) s : res (osys K * Z) :=
  let* p := slot_get self (s32 slot) s in
  let* v := as_vmo p s in
  match v with
  | None => Ok (s, -1)
  | Some vmo =>
      if negb (bool_decide (vmo_type vmo = VMO_DATA)) then Ok (s, -1)
      else if (u64 (offset + size) <? offset) || (vmo_size vmo <? u64 (offset + size)) then Ok (s, -1)
      else
        if type then copy_to_user root user_buf (vmo_start vmo + offset) size s
        else copy_from_user root (vmo_start vmo + offset) user_buf size s
  end.

Definition sys_vmo_write (root self slot offset user_ptr len : Z) s : res (osys K * Z) := read_write_vmo root self slot offset user_ptr len WRITE_PMO s.
Definition sys_vmo_read (root self slot offset user_ptr len : Z) s : res (osys K * Z) := read_write_vmo root self slot offset user_ptr len READ_PMO s.

(** ** core/vmspace.c *)

(** The regions that [list_for_each_entry] visits. *)
Definition region_list (vmspace : Z) s : res (list rloc) := list_for_each (S (size (regions s))) (RList vmspace) (rlinks s).

Fixpoint intersect_loop (new_start new_end : Z) (l : list rloc) s : res bool :=
  match l with
  | [] => Ok false
  | RNode r :: l =>
      let* vmr := deref (regions s !! r) in
      let start := vmr_start vmr in
      let end_ := u64 (start + vmr_size vmr) in
      if ((start <=? new_start) && (new_start <? end_)) || ((start <=? new_end) && (new_end <? end_)) then Ok true
      else intersect_loop new_start new_end l s
  | _ => Undef
  end.

Definition check_vmr_intersect (vmspace vmr_to_add : Z) s : res bool :=
  let* v := deref (regions s !! vmr_to_add) in
  let new_start := vmr_start v in
  let new_end := u64 (new_start + vmr_size v - 1) in
  let* l := region_list vmspace s in
  intersect_loop new_start new_end l s.

Definition is_vmr_in_vmspace (vmspace vmr : Z) s : res bool :=
  let* l := region_list vmspace s in Ok (bool_decide (RNode vmr ∈ l)).

Definition add_vmr_to_vmspace (vmspace vmr : Z) s : res (osys K * Z) :=
  let* b := check_vmr_intersect vmspace vmr s in
  if b then Ok (s, 0)
  else let* h := list_add (RNode vmr) (RList vmspace) (rlinks s) in Ok (set_regions s (regions s) h, 1).

(** The memory of a freed region holds no list node. *)
Definition del_vmr_from_vmspace (vmspace vmr : Z) s : res (osys K) :=
  let* b := is_vmr_in_vmspace vmspace vmr s in
  let* h := if negb b then list_del (RNode vmr) (rlinks s) else Ok (rlinks s) in
  let* k := kh_free (vheap (omem s)) vmr in
  Ok (set_regions (set_oheap s k) (delete vmr (regions s)) (clear_links (RNode vmr) h)).

Fixpoint find_loop (addr : Z) (l : list rloc) s : res Z :=
  match l with
  | [] => Ok 0
  | RNode r :: l =>
      let* vmr := deref (regions s !! r) in
      if (vmr_start vmr <=? addr) && (addr <? u64 (vmr_start vmr + vmr_size vmr)) then Ok r else find_loop addr l s
  | _ => Undef
  end.

Definition find_vmr_for_va (vmspace addr : Z) s : res Z :=
  let* l := region_list vmspace s in find_loop addr l s.

Definition fill_page_table (pgtbl vmr : Z) s : res (osys K * Z) :=
  let* r := deref (regions s !! vmr) in
  let* v := as_vmo (vmr_vmo r) s in
  let* vmo := deref v in
  let* '(m, rc) := map_range_in_pgtbl pgtbl (vmr_start r) (vmo_start vmo) (vmo_size vmo) (vmr_perm r) (omem s) in
  Ok (set_omem s m, rc).

Definition sizeof_vmregion : Z := 48.

(** The result of [add_vmr_to_vmspace] is FALSE or TRUE, so that the test [ret < 0] never
    holds. *)
Definition arch_vmspace_map_range (vmspace va len flags vmo : Z) s : res (osys K * Z) :=
  let* pt := as_vmspace vmspace s in
  let* pgtbl := deref pt in
  let va := PGROUNDUP va in
  let len := if len <? PGSIZE then PGSIZE else len in
  let* '(k, vmr) := kh_malloc (vheap (omem s)) sizeof_vmregion in
  let s := set_oheap s k in
  if vmr =? 0 then Ok (s, 0)
  else
    let s := set_regions s (<[vmr := mk_vmr va len flags vmo]> (regions s)) (rlinks s) in
    let* '(s, ret) := add_vmr_to_vmspace vmspace vmr s in
    if ret <? 0 then
      let* k := kh_free (vheap (omem s)) vmr in
      Ok (set_regions (set_oheap s k) (delete vmr (regions s)) (rlinks s), ret)
    else
      let* v := as_vmo vmo s in
      let* o := deref v in
      let* s := if bool_decide (vmo_type o = VMO_DATA) then let* '(s, _) := fill_page_table pgtbl vmr s in Ok s else Ok s in
      Ok (s, 1).

Definition PROT_READ : Z := 1.
Definition PROT_WRITE : Z := 2.
Definition PROT_EXEC : Z := 4.

(** [if (prot | PROT_EXEC)] and so on. *)
Definition prot_flags (prot : Z) : Z :=
  let f := if negb (Z.lor prot PROT_EXEC =? 0) then PTE_X else 0 in
  let f := if negb (Z.lor prot PROT_WRITE =? 0) then Z.lor f PTE_W else f in
  if negb (Z.lor prot PROT_READ =? 0) then Z.lor f PTE_R else f.

Definition vmspace_map_range_user (vmspace va len prot vmo : Z) s : res (osys K * Z) :=
  let* _ := c_assert (negb (vmspace =? 0) && (0 <? len)) in
  arch_vmspace_map_range vmspace va len (Z.lor (prot_flags prot) PTE_U) vmo s.

Definition vmspace_map_range_kernel (vmspace va len prot vmo : Z) s : res (osys K * Z) :=
  let* _ := c_assert (negb (vmspace =? 0) && (0 <? len)) in
  arch_vmspace_map_range vmspace va len (prot_flags prot) vmo s.

Definition vmspace_unmap_range (vmspace va len : Z) s : res (osys K * Z) :=
  let* _ := c_assert (negb (vmspace =? 0) && (0 <? len)) in
  let* vmr := find_vmr_for_va vmspace va s in
  if vmr =? 0 then Ok (s, -1)
  else
    let* r := deref (regions s !! vmr) in
    if negb (va =? vmr_start r) && negb (len =? vmr_size r) then Panic
    else
      let* s := del_vmr_from_vmspace vmspace vmr s in
      let* pt := as_vmspace vmspace s in
      let* pgtbl := deref pt in
      let* '(m, _) := unmap_range_in_pgtbl pgtbl va len (omem s) in
      Ok (set_omem s m, 0).

Definition sys_vmo_map (self target_process_slot slot addr prot : Z) s : res (osys K * Z) :=
  let* p := slot_get self (s32 slot) s in
  let* v := as_vmo p s in
  match v with
  | None => Ok (s, -1)
  | Some vmo =>
      let* target := slot_get self (s32 target_process_slot) s in
      let* t := as_process target s in
      match t with
      | None => Ok (s, -1)
      | Some _ =>
          let* vs := slot_get target VMSPACE_OBJ_ID s in
          let* c := as_vmspace vs s in
          let* '(s, r) := vmspace_map_range_user (match c with Some _ => vs | None => 0 end) addr (vmo_size vmo) prot p s in
          if negb (r =? 0) then Ok (s, -1)
          else if negb (target =? self) then slot_copy self target (s32 slot) s
          else Ok (s, 0)
      end
  end.

(** [constructor(vmspace_t)] for the object at [vmspace]. *)
Definition vmspace_init (etext vmspace : Z) s : res (osys K) :=
  let h := init_list_head (RList vmspace) (rlinks s) in
  let* '(m, pt) := pagetable_create (omem s) in
  let* m := map_kernel_page etext pt m in
  Ok (mk_osys m (obytes s) (<[vmspace := OVmspace pt]> (objs s)) (regions s) h).

(** [constructor(process_t)]: no slot is used. *)
Definition process_init (process : Z) s : res (osys K) :=
  let* '(k, p) := kh_calloc (vheap (omem s)) (MAX_SLOTS_SIZE * 8) in
  let slots := if p =? 0 then None else Some (replicate (Z.to_nat MAX_SLOTS_SIZE) 0) in
  Ok (set_objs (set_oheap s k) (<[process := OProcess slots]> (objs s))).

(** The constructors run for the objects that [new] could allocate. *)
Definition sys_process_create (etext self new_process vmspace : Z) s : res (osys K * Z) :=
  let* s := if new_process =? 0 then Ok s else process_init new_process s in
  let* s := if vmspace =? 0 then Ok s else vmspace_init etext vmspace s in
  let* '(s, slot) := slot_alloc_install self new_process s in
  let* '(s, _) := slot_alloc_install new_process new_process s in
  let* '(s, _) := slot_alloc_install new_process vmspace s in
  Ok (s, slot).
End ops.
