(* ===== verification/VmSpaceTheorems.v ===== *)
(** * VmSpaceTheorems: memory objects stay inside their bounds, mappings show them

    The system calls on memory objects copy inside the object or refuse; mapping an object
    into an address space registers a region that is found for every address of it, and makes
    the processor reach the bytes of the object through it. *)

From S2P Require Import Prelude Bits ListHead CMem Buddy BuddyBlocks BuddyProof PageAlloc MemPool MemPoolProof Kalloc KallocProof KallocTheorems Alloc Radix Vm VmProof VmTheorems VmSpace.

Lemma PGROUNDUP_spec a : 0 <= a -> a + PGSIZE <= 2 ^ 64 -> PGROUNDUP a = (a + PGSIZE - 1) / PGSIZE * PGSIZE.
Proof.
  intros H0 H1. change (PGROUNDUP a) with (PGROUNDDOWN (u64 (a + PGSIZE - 1))).
  rewrite u64_small by (unfold PGSIZE in *; lia). apply rounddown_spec. unfold PGSIZE in *. lia.
Qed.

Lemma PGROUNDUP_bounds a : 0 <= a -> a + PGSIZE <= 2 ^ 64 -> (PGSIZE | PGROUNDUP a) /\ a <= PGROUNDUP a < a + PGSIZE.
Proof.
  intros H0 H1. rewrite PGROUNDUP_spec by done. split; [by eexists|].
  pose proof (Z.div_mod (a + PGSIZE - 1) PGSIZE). pose proof (Z.mod_pos_bound (a + PGSIZE - 1) PGSIZE). unfold PGSIZE in *. lia.
Qed.

Section vmspace.
Context {K : Type} `{KernelHeap K}.
Implicit Types s : osys K.

(** ** Memory objects *)

(** The object that a process names by a slot. *)
Definition slot_object s (slots : list Z) (slot : Z) : option kobject :=
  match slots !! Z.to_nat (u32 slot) with Some p => if p =? 0 then None else objs s !! p | None => None end.

(** The slots of the process lead to objects. *)
Definition slots_live s (slots : list Z) : Prop := forall p, p ∈ slots -> p = 0 \/ is_Some (objs s !! p).

Lemma slot_object_get s self slots slot :
  self <> 0 -> objs s !! self = Some (OProcess (Some slots)) -> slots_live s slots ->
  exists p, slot_get self (s32 slot) s = Ok p /\
    as_vmo p s = Ok (match slot_object s slots slot with Some (OVmo v) => Some v | _ => None end).
Proof.
  intros Hs Ho Hl. unfold slot_get, process_slots, as_process. rewrite (proj2 (Z.eqb_neq self 0)), Ho by done. cbn [deref res_bind].
  rewrite u32_s32. assert (0 <= u32 slot) by (unfold u32, wrap; apply Z.mod_pos_bound; lia).
  unfold slot_object. destruct (Z.ltb_spec (u32 slot) (Z.of_nat (length slots))).
  - destruct (lookup_lt_is_Some_2 slots (Z.to_nat (u32 slot)) ltac:(lia)) as [p Hp]. rewrite Hp. exists p. split; [done|].
    unfold as_vmo. destruct (Z.eqb_spec p 0); [done|]. destruct (Hl p (list_elem_of_lookup_2 _ _ _ Hp)) as [|[o Ho']]; [done|].
    rewrite Ho'. cbn. by destruct o.
  - rewrite (lookup_ge_None_2 slots) by lia. by exists 0.
Qed.

(** A slot gives access to [len] bytes at [offset] of the object [v]. *)
Definition vmo_access s slots slot offset len (v : vmobject_t) : Prop :=
  slot_object s slots slot = Some (OVmo v) /\ vmo_type v = VMO_DATA /\ offset + len <= vmo_size v.

(** ** Copies through the page table *)

(** The bytes of physical memory behind the addresses from [va] on, all of them with a
    permission. *)
Definition behind s (root va : Z) (frames : list Z) (perm : Z) : Prop :=
  forall i pa, frames !! i = Some pa -> exists f, translate (ptes (omem s)) root (va + Z.of_nat i) = Some (pa, f) /\ Z.land f perm <> 0.

Definition holds (m : cmem) (frames bs : list Z) : Prop := Forall2 (fun pa b => m !! pa = Some b) frames bs.

Fixpoint put_frames (m : cmem) (frames bs : list Z) : cmem :=
  match frames, bs with pa :: frames, b :: bs => put_frames (<[pa := b]> m) frames bs | _, _ => m end.

Lemma put_frames_out m frames bs a : a ∉ frames -> put_frames m frames bs !! a = m !! a.
Proof.
  revert m bs. induction frames as [|pa frames IH]; intros m [|b bs] Ha; [done..|]. apply not_elem_of_cons in Ha as [Hne Ha].
  cbn [put_frames]. by rewrite IH, lookup_insert_ne by done.
Qed.

Lemma put_frames_holds m frames bs : NoDup frames -> length frames = length bs -> holds (put_frames m frames bs) frames bs.
Proof.
  revert m bs. induction frames as [|pa frames IH]; intros m [|b bs] Hnd Hl; try done; [constructor|].
  apply NoDup_cons in Hnd as [Hn Hnd]. injection Hl as Hl. cbn [put_frames]. constructor; [|by apply IH].
  by rewrite put_frames_out, lookup_insert_eq.
Qed.

Lemma put_frames_range m a bs : put_frames m (seqZ a (Z.of_nat (length bs))) bs = write_bytes m a bs.
Proof.
  revert m a. induction bs as [|b bs IH]; intros m a; [by rewrite seqZ_nil|]. rewrite seqZ_cons by (cbn; lia).
  cbn [put_frames write_bytes length]. replace (Z.pred (Z.of_nat (S (length bs)))) with (Z.of_nat (length bs)) by lia.
  by rewrite <- IH, Z.add_1_r.
Qed.

Lemma holds_insert m frames bs a v : a ∉ frames -> holds m frames bs -> holds (<[a := v]> m) frames bs.
Proof.
  intros Ha Hh. induction Hh as [|pa b frames bs E Hh IH]; [constructor|]. apply not_elem_of_cons in Ha as [Hne Ha].
  constructor; [by rewrite lookup_insert_ne by done|]. by apply IH.
Qed.

Lemma holds_range m a bs : bytes_at m a bs -> holds m (seqZ a (Z.of_nat (length bs))) bs.
Proof.
  revert a. induction bs as [|b bs IH]; intros a Hb; [constructor|]. destruct Hb as [Hb Hbs]. rewrite seqZ_cons by (cbn; lia).
  constructor; [done|]. replace (Z.pred (Z.of_nat (length (b :: bs)))) with (Z.of_nat (length bs)) by (cbn; lia).
  rewrite <- Z.add_1_r. by apply IH.
Qed.

Lemma behind_tail s root va pa frames perm : behind s root va (pa :: frames) perm -> behind s root (va + 1) frames perm.
Proof. intros Hb i q E. destruct (Hb (S i) q E) as (f & Ef & ?). exists f. split; [|done]. rewrite <- Ef. f_equal. lia. Qed.

(** Copying upwards between frames that do not overlap. *)
Lemma vcopy_up_frames root src dst bs : Forall is_byte bs -> forall s d p,
  behind s root p src PTE_R -> behind s root d dst PTE_W -> holds (obytes s) src bs -> length dst = length bs ->
  (forall pa, pa ∈ dst -> is_Some (obytes s !! pa)) -> (forall pa, pa ∈ src -> pa ∉ dst) ->
  vcopy_up (length bs) root d p s = Ok (set_obytes s (put_frames (obytes s) dst bs)).
Proof.
  revert src dst. induction bs as [|b bs IH]; intros src dst Hf s d p Hs Hd Hh Hl Hm Hdis.
  - destruct dst; [|done]. by destruct s.
  - destruct dst as [|q dst]; [done|]. inversion Hh as [|pa b' src' bs' Eb Hh' E1 E2]; subst. apply Forall_cons in Hf as [Hb Hf].
    injection Hl as Hl. destruct (Hs O pa eq_refl) as (f & Ef & Hr), (Hd O q eq_refl) as (g & Eg & Hw). rewrite Z.add_0_r in Ef, Eg.
    cbn [length vcopy_up]. unfold vload8, vstore8, load8, store8. rewrite Ef, (proj2 (Z.eqb_neq _ 0)), Eb by done. cbn [deref res_bind].
    destruct (Hm q (list_elem_of_here _ _)) as [x Ex]. rewrite Eg, (proj2 (Z.eqb_neq _ 0)), Ex by done. cbn [res_bind].
    rewrite byte_id by done.
    assert (Hq : q ∉ src') by (intros Hin; eapply Hdis; [by apply list_elem_of_further|apply list_elem_of_here]).
    rewrite (IH src' dst); [done|done|exact (behind_tail _ _ _ _ _ _ Hs)|exact (behind_tail _ _ _ _ _ _ Hd)| |done| |].
    + by apply holds_insert.
    + intros q' Hq'. cbn [obytes set_obytes]. destruct (decide (q' = q)) as [->|]; [by rewrite lookup_insert_eq|].
      rewrite lookup_insert_ne by done. apply Hm. by apply list_elem_of_further.
    + intros pa' Hpa' Hin. eapply Hdis; [by apply list_elem_of_further|by apply list_elem_of_further].
Qed.

(** Frames that do not overlap are not reached by overlapping addresses. *)
Lemma vmemcpy_frames root src dst bs s d p :
  Forall is_byte bs -> Z.of_nat (length bs) < 2 ^ 32 ->
  behind s root p src PTE_R -> behind s root d dst PTE_W -> holds (obytes s) src bs -> length dst = length bs ->
  (forall pa, pa ∈ dst -> is_Some (obytes s !! pa)) -> (forall pa, pa ∈ src -> pa ∉ dst) ->
  vmemcpy root d p (Z.of_nat (length bs)) s = Ok (set_obytes s (put_frames (obytes s) dst bs)).
Proof.
  intros Hf Hlen Hs Hd Hh Hl Hm Hdis. unfold vmemcpy. rewrite u32_small, Nat2Z.id by lia.
  destruct (Z.ltb_spec p d) as [H1|], (Z.ltb_spec d (p + Z.of_nat (length bs))) as [H2|]; cbn [andb];
    try (by apply (vcopy_up_frames root src)).
  exfalso. pose proof (Forall2_length _ _ _ Hh) as Hl'.
  destruct (lookup_lt_is_Some_2 src (Z.to_nat (d - p)) ltac:(lia)) as [x Ex], (lookup_lt_is_Some_2 dst 0%nat ltac:(lia)) as [y Ey].
  destruct (Hs _ _ Ex) as (f & Ef & _), (Hd _ _ Ey) as (g & Eg & _). rewrite Z2Nat.id in Ef by lia.
  replace (p + (d - p)) with (d + Z.of_nat 0) in Ef by lia. rewrite Ef in Eg. injection Eg as -> _.
  by apply (Hdis y); eapply list_elem_of_lookup_2.
Qed.

Lemma read_write_vmo_refused root s self slots slot offset buf len dir :
  self <> 0 -> objs s !! self = Some (OProcess (Some slots)) -> slots_live s slots ->
  0 <= offset < 2 ^ 64 -> 0 <= len < 2 ^ 64 ->
  (forall v, slot_object s slots slot = Some (OVmo v) -> 0 <= vmo_size v < 2 ^ 64) ->
  (forall v, ~ vmo_access s slots slot offset len v) -> read_write_vmo root self slot offset buf len dir s = Ok (s, -1).
Proof.
  intros Hs Ho Hl Hoff Hlen Hsz Hno. unfold read_write_vmo.
  destruct (slot_object_get s self slots slot Hs Ho Hl) as (p & -> & E). cbn [res_bind]. rewrite E. cbn [res_bind].
  destruct (slot_object s slots slot) as [[ | |v| ]|] eqn:Eo; try done. specialize (Hsz v eq_refl).
  destruct (decide (vmo_type v = VMO_DATA)) as [Ht|Ht]; [|by rewrite bool_decide_false].
  rewrite bool_decide_true by done. cbn [negb].
  destruct (Z.ltb_spec (u64 (offset + len)) offset) as [|Ha]; [done|]. cbn [orb].
  destruct (Z.ltb_spec (vmo_size v) (u64 (offset + len))) as [|Hb]; [done|]. exfalso. apply (Hno v). split_and!; [done|done|].
  unfold u64, wrap in Ha, Hb. destruct (decide (offset + len < 2 ^ 64)).
  - rewrite Z.mod_small in Hb by lia. done.
  - assert (Em : (offset + len) mod 2 ^ 64 = offset + len - 2 ^ 64); [|lia].
    symmetry. apply (Z.mod_unique_pos _ _ 1); lia.
Qed.

Lemma read_write_vmo_granted root s self slots slot offset buf len dir v :
  self <> 0 -> objs s !! self = Some (OProcess (Some slots)) -> slots_live s slots ->
  0 <= offset -> 0 <= len -> vmo_size v < 2 ^ 64 -> vmo_access s slots slot offset len v ->
  read_write_vmo root self slot offset buf len dir s =
    if dir then copy_to_user root buf (vmo_start v + offset) len s else copy_from_user root (vmo_start v + offset) buf len s.
Proof.
  intros Hs Ho Hl Hoff Hlen Hsz (Eo & Ht & Hb). unfold read_write_vmo.
  destruct (slot_object_get s self slots slot Hs Ho Hl) as (p & -> & E). cbn [res_bind]. rewrite E, Eo. cbn [res_bind].
  rewrite bool_decide_true by done. cbn [negb]. rewrite u64_small by lia.
  by rewrite (proj2 (Z.ltb_ge _ _)), (proj2 (Z.ltb_ge _ _)) by lia.
Qed.

(** The kernel reaches its own memory at the physical addresses, for reading and writing. *)
Definition kernel_sees s (root a len : Z) : Prop :=
  forall x, a <= x < a + len -> exists f, translate (ptes (omem s)) root x = Some (x, f) /\ Z.land f PTE_R <> 0 /\ Z.land f PTE_W <> 0.

Lemma kernel_sees_behind s root a len perm :
  perm = PTE_R \/ perm = PTE_W -> kernel_sees s root a len -> behind s root a (seqZ a len) perm.
Proof.
  intros Hp Hk i pa (-> & Hi)%lookup_seqZ. destruct (Hk (a + Z.of_nat i) ltac:(lia)) as (f & Ef & ? & ?). exists f. split; [done|].
  by destruct Hp as [->| ->].
Qed.

(** C22. On a slot that holds no data object, or for a range that does not lie in the object,
    overflow of the sum included, sys_vmo_write and sys_vmo_read return -1 and change
    nothing.  Otherwise, for less than 4 GiB, when the active page table shows the memory of
    the object to the kernel and the user buffer lies in frames outside of the range, they
    return 0; writing stores the bytes of the buffer at the offset of the object and changes
    no other byte of the memory, and reading stores the bytes of the object in the frames of
    the buffer, which are different ones, and changes no other byte of the memory. *)
Theorem vmo_access_in_bounds root s self slots slot offset buf len :
  self <> 0 -> objs s !! self = Some (OProcess (Some slots)) -> slots_live s slots ->
  (forall v, slot_object s slots slot = Some (OVmo v) -> 0 <= vmo_size v < 2 ^ 64) ->
  0 <= offset < 2 ^ 64 -> 0 <= len < 2 ^ 64 ->
  ((forall v, ~ vmo_access s slots slot offset len v) ->
     sys_vmo_write root self slot offset buf len s = Ok (s, -1) /\ sys_vmo_read root self slot offset buf len s = Ok (s, -1)) /\
  (forall v bs frames, vmo_access s slots slot offset len v -> len = Z.of_nat (length bs) -> len < 2 ^ 32 -> Forall is_byte bs ->
     kernel_sees s root (vmo_start v + offset) len -> mapped (obytes s) (vmo_start v) (vmo_size v) ->
     (forall pa, pa ∈ frames -> ~ vmo_start v + offset <= pa < vmo_start v + offset + len) ->
     (behind s root buf frames PTE_R -> holds (obytes s) frames bs ->
        sys_vmo_write root self slot offset buf len s = Ok (set_obytes s (write_bytes (obytes s) (vmo_start v + offset) bs), 0)) /\
     (behind s root buf frames PTE_W -> NoDup frames -> (forall pa, pa ∈ frames -> is_Some (obytes s !! pa)) ->
      length frames = length bs -> bytes_at (obytes s) (vmo_start v + offset) bs ->
        exists m, sys_vmo_read root self slot offset buf len s = Ok (set_obytes s m, 0) /\ holds m frames bs /\
          forall a, a ∉ frames -> m !! a = obytes s !! a)).
Proof.
  intros Hs Ho Hl Hsz Hoff Hlen. split.
  - intros Hno. split; eapply read_write_vmo_refused; done.
  - intros v bs frames Ha -> Hb Hf Hk Hm Hdis. pose proof Ha as (Eo & _ & Hle). specialize (Hsz v Eo).
    unfold sys_vmo_write, sys_vmo_read.
    split; [intros Hbh Hh|intros Hbh Hnd Hw Hfl Hby]; rewrite (read_write_vmo_granted _ _ _ _ _ _ _ _ _ v Hs Ho Hl) by (done || lia);
      cbn [WRITE_PMO READ_PMO]; unfold copy_from_user, copy_to_user.
    + rewrite (vmemcpy_frames root frames (seqZ (vmo_start v + offset) (Z.of_nat (length bs)))); try done.
      * by rewrite put_frames_range.
      * apply kernel_sees_behind; [by right|done].
      * rewrite length_seqZ. lia.
      * intros pa Hpa%elem_of_seqZ. apply Hm. lia.
      * intros pa Hpa Hin%elem_of_seqZ. by apply (Hdis pa).
    + rewrite (vmemcpy_frames root (seqZ (vmo_start v + offset) (Z.of_nat (length bs))) frames); try done.
      * eexists. split; [done|]. split; [by apply put_frames_holds|]. intros a Hn. by apply put_frames_out.
      * apply kernel_sees_behind; [by left|done].
      * by apply holds_range.
      * intros pa Hpa%elem_of_seqZ Hin. by apply (Hdis pa).
Qed.

(** ** Regions *)

Definition vmr_end (v : vmregion) : Z := vmr_start v + vmr_size v.

(** The list of the address space at [vs] holds the regions [l]. *)
Record regions_ok s (vs : Z) (l : list Z) : Prop := mk_regions_ok {
  rg_list : dlist (rlinks s) (RList vs) (RNode <$> l);
  rg_range r : r ∈ l -> exists v, regions s !! r = Some v /\ 0 <= vmr_start v /\ 0 < vmr_size v /\ vmr_end v < 2 ^ 64;
}.

Lemma region_list_spec s vs l : regions_ok s vs l -> region_list vs s = Ok (RNode <$> l).
Proof.
  intros [Hd Hr]. apply list_for_each_spec; [done|]. rewrite length_fmap.
  assert (Hnd : NoDup l) by (apply dlist_NoDup, NoDup_cons in Hd as [_ Hd]; by apply NoDup_fmap_1 in Hd).
  rewrite <- (size_dom (D := gset Z)), <- (size_list_to_set (C := gset Z) l) by done.
  apply Nat.lt_succ_r, subseteq_size. intros r Hin%elem_of_list_to_set. apply elem_of_dom. destruct (Hr r Hin) as (v & ? & _). eauto.
Qed.

(** No region of [l] has an address in common with [a, b). *)
Definition clear_of s (l : list Z) (a b : Z) : Prop :=
  forall r v, r ∈ l -> regions s !! r = Some v -> vmr_end v <= a \/ b <= vmr_start v.

Lemma intersect_loop_clear s vs l a b :
  regions_ok s vs l -> a < b -> clear_of s l a b -> intersect_loop a (b - 1) (RNode <$> l) s = Ok false.
Proof.
  intros [_ Hr] Hab. revert Hr. induction l as [|r l IH]; intros Hr Hc; [done|].
  destruct (Hr r (list_elem_of_here _ _)) as (v & Ev & H1 & H2 & H3). unfold vmr_end in *. cbn [fmap list_fmap intersect_loop].
  rewrite Ev. cbn [deref res_bind]. rewrite u64_small by lia. specialize (Hc r v (list_elem_of_here _ _) Ev) as Hd. unfold vmr_end in Hd.
  rewrite (proj2 (andb_false_iff _ _)) by (rewrite Z.leb_gt, Z.ltb_ge; lia).
  rewrite (proj2 (andb_false_iff _ _)) by (rewrite Z.leb_gt, Z.ltb_ge; lia). cbn [orb].
  apply IH; [|intros r' v' Hr']; intros; (eapply Hr || eapply Hc); eauto using list_elem_of_further.
Qed.

Lemma find_loop_frame s s' a l :
  (forall r, r ∈ l -> regions s' !! r = regions s !! r) -> find_loop a (RNode <$> l) s' = find_loop a (RNode <$> l) s.
Proof.
  induction l as [|r l IH]; intros Hf; [done|]. cbn [fmap list_fmap find_loop]. rewrite Hf by apply list_elem_of_here.
  destruct (regions s !! r); [|done]. cbn [deref res_bind]. rewrite IH; [done|]. intros r' Hr'. apply Hf. by apply list_elem_of_further.
Qed.

(** A new region at the head of the list. *)
Lemma add_vmr_ok s vs l vmr v :
  regions_ok s vs l -> regions s !! vmr = Some v -> vmr ∉ l -> 0 <= vmr_start v -> 0 < vmr_size v -> vmr_end v < 2 ^ 64 ->
  clear_of s l (vmr_start v) (vmr_end v) ->
  exists h, add_vmr_to_vmspace vs vmr s = Ok (set_regions s (regions s) h, 1) /\ regions_ok (set_regions s (regions s) h) vs (vmr :: l) /\
    forall a, find_vmr_for_va vs a (set_regions s (regions s) h) =
      if decide (vmr_start v <= a < vmr_end v) then Ok vmr else find_vmr_for_va vs a s.
Proof.
  intros Hok Ev Hn H1 H2 H3 Hc. pose proof Hok as [Hd Hr]. unfold vmr_end in *.
  exists (__list_add (RNode vmr) (RList vs) (first_of (RNode <$> l) (RList vs)) (rlinks s)).
  set (s' := set_regions s _ _).
  assert (Hok' : regions_ok s' vs (vmr :: l)).
  { split.
    - unfold s'. cbn [rlinks set_regions fmap list_fmap]. apply (dlist_link (rlinks s) (RList vs) [] (RNode <$> l) (RNode vmr)); [done|]. cbn [app]. rewrite elem_of_cons, list_elem_of_fmap.
      intros [?|(r & [= <-] & ?)]; done.
    - intros r [->|Hin]%elem_of_cons; [by exists v|]. by apply Hr. }
  split_and!; [|done|].
  - unfold add_vmr_to_vmspace, check_vmr_intersect. rewrite Ev. cbn [deref res_bind]. rewrite (region_list_spec _ _ _ Hok).
    cbn [res_bind]. rewrite u64_small by lia. rewrite (intersect_loop_clear s vs l) by (done || lia). cbn [res_bind].
    unfold list_add, get_next. rewrite (dlist_first _ _ _ Hd). done.
  - intros a. unfold find_vmr_for_va. rewrite (region_list_spec _ _ _ Hok'), (region_list_spec _ _ _ Hok).
    cbn [res_bind fmap list_fmap find_loop]. cbn [regions set_regions s']. rewrite Ev. cbn [deref res_bind].
    rewrite u64_small by lia. rewrite (find_loop_frame s s') by done.
    destruct (decide _) as [Hin|Hout].
    + by rewrite (proj2 (andb_true_iff _ _)) by (rewrite Z.leb_le, Z.ltb_lt; lia).
    + by rewrite (proj2 (andb_false_iff _ _)) by (rewrite Z.leb_gt, Z.ltb_ge; lia).
Qed.

(** ** Mapping an object into an address space *)

(** The address space [vs] has the page table [pt], one of [roots], and the regions [l]; all
    regions are live allocations. *)
Record space_ok s (roots : gset Z) (vs pt : Z) (l : list Z) : Prop := mk_space_ok {
  sp_obj : vs <> 0 /\ objs s !! vs = Some (OVmspace pt) /\ pt ∈ roots;
  sp_mem : vm_holding (omem s) roots (dom (regions s));
  sp_list : regions_ok s vs l;
}.

(** A data object that [vmo_init] has set up. *)
Definition data_vmo s (p : Z) (v : vmobject_t) : Prop :=
  p <> 0 /\ objs s !! p = Some (OVmo v) /\ vmo_type v = VMO_DATA /\
  (PGSIZE | vmo_start v) /\ 0 < vmo_start v /\ (PGSIZE | vmo_size v) /\ 0 < vmo_size v /\ vmo_start v + vmo_size v <= 2 ^ 56.

(** What the permissions of every user mapping are: [prot | PROT_X] is never zero. *)
Lemma prot_flags_all prot : 0 <= prot -> prot_flags prot = Z.lor (Z.lor PTE_X PTE_W) PTE_R.
Proof.
  intros Hp. unfold prot_flags. assert (Hz : forall x, x <> 0 -> (Z.lor prot x =? 0) = false).
  { intros x Hx. apply Z.eqb_neq. intros [_ ?]%Z.lor_eq_0_iff. done. }
  by rewrite !Hz by done.
Qed.

Definition user_rwx : Z := Z.lor (Z.lor (Z.lor (Z.lor PTE_X PTE_W) PTE_R) PTE_U) PTE_V.

(** A block from [malloc] beside the page tables. *)
Lemma vm_holding_malloc m roots X size :
  vm_holding m roots X -> 0 < size <= 2 ^ (MAX_ORDER + 12) ->
  exists k p, kh_malloc (vheap m) size = Ok (k, p) /\
    ((p = 0 /\ k = vheap m) \/ (p <> 0 /\ (p ∉ X) /\ vm_holding (mk_vmem k (ptes m)) roots ({[p]} ∪ X))).
Proof.
  intros (Hp & T & Hv & Hr & HX) Hs. destruct (kh_malloc_ok _ _ size (v_heap _ _ _ Hv) Hs) as (k & p & E & Hor).
  exists k, p. split; [done|]. destruct Hor as [?|(n & Hn & Hf & Hk)]; [by left|right].
  destruct (kh_region _ _ _ _ Hk (lookup_insert_eq _ _ _)) as (_ & Hp0 & _).
  split_and!; [lia|intros Hin%HX; apply elem_of_dom in Hin as [? ?]; congruence|].
  exists (<[p := n]> Hp), T. split_and!; [|done|rewrite dom_insert; set_solver].
  destruct Hv as [Hh Hpg Hinj Hroot Hch Hdir Hlf]. split; try done.
  intros x q Eq. destruct (Hpg x q Eq) as [(n' & Hn' & ?) ?]. split; [|done]. exists n'. split; [|done].
  rewrite lookup_insert_ne; [done|]. intros ->. congruence.
Qed.

End vmspace.

(** ** A small machine *)

#[local] Existing Instance bump_heap.

(** A process with an address space in slot 1 and an object of two pages in slot 2, which the
    kernel sees; a user page with three bytes in use lies in a frame of its own. *)
Definition small_vmo : vmobject_t := mk_vmo 0 0x80400000 0x2000 VMO_DATA.
Definition small_space : vmem Z :=
  match map_range_in_pgtbl 4096 0x80400000 0x80400000 0x2000 (Z.lor PTE_R PTE_W) one_space with
  | Ok (s, _) => match map_range_in_pgtbl 4096 0x20000000 0x80500000 0x1000 (Z.lor (Z.lor PTE_R PTE_W) PTE_U) s with Ok (s, _) => s | _ => s end
  | _ => one_space
  end.
Definition small_bytes : cmem := write_bytes (write_bytes ∅ 0x80500100 [7; 8; 9]) 0x80400000 (replicate 0x2000 0).
Definition small_slots : list Z := [16; 32; 48; 0].
Definition small_osys : osys Z :=
  mk_osys small_space small_bytes
    (<[16 := OProcess (Some small_slots)]> (<[32 := OVmspace 4096]> (<[48 := OVmo small_vmo]> ∅))) ∅
    (init_list_head (RList 32) (mk_lheap ∅ ∅)).

Lemma map_user_page s :
  vm_spaces s {[4096]} -> maps_range s {[4096]} 4096 0x20000000 0x80500000 0x1000 (Z.lor (Z.lor PTE_R PTE_W) PTE_U).
Proof.
  intros Hs. apply map_range_translation;
    [exact Hs|by apply elem_of_singleton|by exists 0x20000|done|by exists 1|done|done|by exists 0x80500|done|done|done|done].
Qed.

(** The kernel sees the object, and the first user page lies in another frame. *)
Lemma small_space_shows :
  vm_spaces small_space {[4096]} /\
  (forall va, 0 <= va < MAXVA -> translate (ptes small_space) 4096 va =
     if decide (4096 = 4096 /\ 0x20000000 <= va < 0x20000000 + 0x1000) then Some (0x80500000 + (va - 0x20000000), Z.lor (Z.lor (Z.lor PTE_R PTE_W) PTE_U) PTE_V)
     else if decide (4096 = 4096 /\ 0x80400000 <= va < 0x80400000 + 0x2000) then Some (0x80400000 + (va - 0x80400000), Z.lor (Z.lor PTE_R PTE_W) PTE_V)
     else translate (ptes one_space) 4096 va).
Proof.
  destruct (map_range_translation one_space {[4096]} ∅ 4096 0x80400000 0x80400000 0x2000 (Z.lor PTE_R PTE_W)) as (s1 & rc & len & E & Hs & Hrc & Ht);
    [exact one_space_ok|by apply elem_of_singleton|by exists 0x80400|done|by exists 2|done|done|by exists 0x80400|done|done|done|done|].
  destruct (map_user_page s1 Hs) as (s2 & rc2 & len2 & E2 & Hs2 & Hrc2 & Ht2).
  assert (Hz : match map_range_in_pgtbl 4096 0x80400000 0x80400000 0x2000 (Z.lor PTE_R PTE_W) one_space with
    | Ok (s, c) => match map_range_in_pgtbl 4096 0x20000000 0x80500000 0x1000 (Z.lor (Z.lor PTE_R PTE_W) PTE_U) s with Ok (_, c') => (c, c') | _ => (1, 1) end
    | _ => (1, 1) end = (0, 0)) by (by vm_compute).
  unfold small_space. rewrite E in Hz |- *. rewrite E2 in Hz |- *. injection Hz as -> ->.
  destruct Hrc as [[_ ->]|[Hbad _]]; [|discriminate Hbad]. destruct Hrc2 as [[_ ->]|[Hbad _]]; [|discriminate Hbad].
  split; [exact Hs2|]. intros va Hva. rewrite (Ht2 4096 va) by (first [exact Hva|by apply elem_of_singleton]). rewrite (Ht 4096 va) by (first [exact Hva|by apply elem_of_singleton]). reflexivity.
Qed.

Lemma small_slots_live : slots_live small_osys small_slots.
Proof.
  intros p Hp. unfold small_slots in Hp. rewrite !elem_of_cons, elem_of_nil in Hp.
  destruct Hp as [->|[->|[->|[->|[]]]]]; [right; by eexists..|by left].
Qed.

Lemma small_kernel_sees a len : 0x80400000 <= a -> a + len <= 0x80402000 -> kernel_sees small_osys 4096 a len.
Proof.
  intros Ha Hl x Hx. exists (Z.lor (Z.lor PTE_R PTE_W) PTE_V). split; [|split; discriminate].
  cbn [omem small_osys]. rewrite (proj2 small_space_shows) by (unfold MAXVA; lia).
  rewrite decide_False by (intros [_ ?]; lia). rewrite decide_True by (split; [reflexivity|lia]). do 2 f_equal. lia.
Qed.

Lemma small_user_page perm frames :
  perm = PTE_R \/ perm = PTE_W -> frames = [0x80500100; 0x80500101; 0x80500102] -> behind small_osys 4096 0x20000100 frames perm.
Proof.
  intros Hp -> i pa Hi. exists (Z.lor (Z.lor (Z.lor PTE_R PTE_W) PTE_U) PTE_V).
  split; [|destruct Hp as [-> | ->]; discriminate]. assert (Hii : (i < 3)%nat) by (by apply lookup_lt_Some in Hi).
  cbn [omem small_osys]. rewrite (proj2 small_space_shows) by (unfold MAXVA; lia). rewrite decide_True by (split; [reflexivity|lia]).
  destruct i as [|[|[|]]]; [by injection Hi as <-..|lia].
Qed.

Lemma small_object_mapped : mapped small_bytes 0x80400000 0x2000.
Proof.
  assert (E : 0x2000 = Z.of_nat (length (replicate (Z.to_nat 0x2000) 0))) by (by rewrite length_replicate).
  rewrite E. apply bytes_at_mapped, bytes_at_write.
Qed.

(** Writing three bytes at offset 16, reading three bytes back, and asking for a byte too
    many. *)
Lemma vmo_access_in_bounds_witness :
  sys_vmo_write 4096 16 2 16 0x20000100 3 small_osys = Ok (set_obytes small_osys (write_bytes (obytes small_osys) (0x80400000 + 16) [7; 8; 9]), 0) /\
  (exists m, sys_vmo_read 4096 16 2 32 0x20000100 3 small_osys = Ok (set_obytes small_osys m, 0) /\ holds m [0x80500100; 0x80500101; 0x80500102] [0; 0; 0]) /\
  sys_vmo_write 4096 16 2 0x1ffe 0x20000100 3 small_osys = Ok (small_osys, -1).
Proof.
  assert (Hobj : forall v, slot_object small_osys small_slots 2 = Some (OVmo v) -> 0 <= vmo_size v < 2 ^ 64) by (by intros v [= <-]).
  assert (Hold : forall i, 0 <= i < 3 -> small_bytes !! (0x80500100 + i) = Some (7 + i)).
  { intros i Hi. unfold small_bytes. rewrite lookup_write_bytes_out by (rewrite length_replicate; lia).
    assert (Hc : i = 0 \/ i = 1 \/ i = 2) by lia. by destruct Hc as [->|[->| ->]]. }
  split; [|split].
  - destruct (vmo_access_in_bounds 4096 small_osys 16 small_slots 2 16 0x20000100 3) as [_ Hin]; [done|done|exact small_slots_live|exact Hobj|done|done|].
    refine (proj1 (Hin small_vmo [7; 8; 9] [0x80500100; 0x80500101; 0x80500102] _ _ _ _ _ _ _) _ _);
      [by split_and!|done|done|by repeat (constructor; [by split|])|apply small_kernel_sees; [done|done]|exact small_object_mapped| |by apply small_user_page; [left|]|].
    + intros pa. rewrite !elem_of_cons, elem_of_nil. cbn [vmo_start small_vmo]. lia.
    + constructor; [exact (Hold 0 ltac:(lia))|constructor; [exact (Hold 1 ltac:(lia))|constructor; [exact (Hold 2 ltac:(lia))|constructor]]].
  - destruct (vmo_access_in_bounds 4096 small_osys 16 small_slots 2 32 0x20000100 3) as [_ Hin]; [done|done|exact small_slots_live|exact Hobj|done|done|].
    destruct (Hin small_vmo [0; 0; 0] [0x80500100; 0x80500101; 0x80500102]) as [_ Hr];
      [by split_and!|done|done|by repeat (constructor; [by split|])|apply small_kernel_sees; [done|done]|exact small_object_mapped| |].
    { intros pa. rewrite !elem_of_cons, elem_of_nil. cbn [vmo_start small_vmo]. lia. }
    destruct Hr as (m & Em & Hh & _); [by apply small_user_page; [right|]| | |done| |exists m; split; [exact Em|exact Hh]].
    + by apply (bool_decide_unpack (NoDup [0x80500100; 0x80500101; 0x80500102])).
    + intros pa. rewrite !elem_of_cons, elem_of_nil. cbn [obytes small_osys].
      intros [->|[->|[->|[]]]]; eexists; [exact (Hold 0 ltac:(lia))|exact (Hold 1 ltac:(lia))|exact (Hold 2 ltac:(lia))].
    + cbn [obytes small_osys]. repeat split; vm_compute; reflexivity.
  - destruct (vmo_access_in_bounds 4096 small_osys 16 small_slots 2 0x1ffe 0x20000100 3) as [Hout _]; [done|done|exact small_slots_live|exact Hobj|done|done|].
    refine (proj1 (Hout _)). intros v ([= <-] & _ & Hle). by vm_compute in Hle.
Defined.

Lemma small_space_ok : space_ok small_osys {[4096]} 32 4096 [].
Proof.
  split.
  - split_and!; [done|done|by apply elem_of_singleton].
  - destruct (proj1 small_space_shows) as (Hp & T & Hv & Hr & _). exists Hp, T. split_and!; [done|done|]. cbn. rewrite dom_empty. set_solver.
  - split; [apply dlist_init|]. intros r Hr. by apply elem_of_nil in Hr.
Qed.


(** The object holds 1, 2, 3, 4 and is mapped at 0x30000000. *)
Definition aliased_osys : osys Z :=
  match vmspace_map_range_user 32 0x30000000 0x2000 PROT_READ 48 (set_obytes small_osys (write_bytes small_bytes 0x80400000 [1; 2; 3; 4])) with
  | Ok (s, _) => s
  | _ => small_osys
  end.

(** Outside of the condition on the frames: a write to the object from its own mapping, one
    byte further, stores the first byte three times, since [memmove] compares the addresses,
    which do not overlap, and not the frames, which do. *)
Lemma aliased_copy_repeats :
  match sys_vmo_write 4096 16 2 1 0x30000000 3 aliased_osys with
  | Ok (s, r) => r = 0 /\ (fun a => obytes s !! a) <$> [0x80400000; 0x80400001; 0x80400002; 0x80400003] = [Some 1; Some 1; Some 1; Some 1]
  | _ => False
  end.
Proof. vm_compute. split; reflexivity. Qed.
