(* ===== verification/Rbtree.v ===== *)
(** * Rbtree: the red-black trees of lib/rbtree.c

    Nodes are embedded in the objects of their users and linked by pointers; the word
    [__rb_parent_color] holds the address of the parent and, in bit 0, the color.  [nodes]
    gives the three words of a node by its address, [root] is the [rb_node] of the
    [rb_root] and [leftmost] the [rb_leftmost] of a cached root.

    The two halves of the source's loops, which differ by exchanging left and right, are one
    definition with the side as an argument.  The callbacks for augmented trees are the
    dummies that do nothing, as in every function of lib/rbtree.c that is called. *)

From S2P Require Import Prelude Bits.

Record rb_node := mk_rb { __rb_parent_color : Z; rb_right : Z; rb_left : Z }.

Record rb_tree := mk_rb_tree { nodes : gmap Z rb_node; root : Z; leftmost : Z }.

Implicit Types s : rb_tree.

Definition RB_RED : Z := 0.
Definition RB_BLACK : Z := 1.

Definition __rb_parent (pc : Z) : Z := Z.land pc (not64 3).
Definition __rb_color (pc : Z) : Z := Z.land pc 1.
Definition __rb_is_black (pc : Z) : bool := negb (__rb_color pc =? 0).
Definition __rb_is_red (pc : Z) : bool := __rb_color pc =? 0.

(** ** Reading and writing the fields of a node *)

Definition get (a : Z) s : res rb_node := deref (nodes s !! a).
Definition put (a : Z) (n : rb_node) s : rb_tree := mk_rb_tree (<[a := n]> (nodes s)) (root s) (leftmost s).
Definition set_root (p : Z) s : rb_tree := mk_rb_tree (nodes s) p (leftmost s).
Definition set_leftmost (p : Z) s : rb_tree := mk_rb_tree (nodes s) (root s) p.

Definition set_pc (a v : Z) s : res rb_tree := let* n := get a s in Ok (put a (mk_rb v (rb_right n) (rb_left n)) s).

(** The sides of a node. *)
Inductive side := L | R.
Definition other (d : side) : side := match d with L => R | R => L end.
Definition child (d : side) (n : rb_node) : Z := match d with L => rb_left n | R => rb_right n end.
Definition with_child (d : side) (v : Z) (n : rb_node) : rb_node :=
  match d with
  | L => mk_rb (__rb_parent_color n) (rb_right n) v
  | R => mk_rb (__rb_parent_color n) v (rb_left n)
  end.

Definition get_child (d : side) (a : Z) s : res Z := let* n := get a s in Ok (child d n).
Definition set_child (d : side) (a v : Z) s : res rb_tree := let* n := get a s in Ok (put a (with_child d v n) s).

Definition rb_parent (a : Z) s : res Z := let* n := get a s in Ok (__rb_parent (__rb_parent_color n)).
Definition rb_red_parent (a : Z) s : res Z := let* n := get a s in Ok (__rb_parent_color n).
Definition rb_color (a : Z) s : res Z := let* n := get a s in Ok (__rb_color (__rb_parent_color n)).
Definition rb_is_red (a : Z) s : res bool := let* n := get a s in Ok (__rb_is_red (__rb_parent_color n)).
Definition rb_is_black (a : Z) s : res bool := let* n := get a s in Ok (__rb_is_black (__rb_parent_color n)).

Definition rb_set_parent (a p : Z) s : res rb_tree := let* c := rb_color a s in set_pc a (Z.lor c p) s.
Definition rb_set_parent_color (a p color : Z) s : res rb_tree := set_pc a (Z.lor p color) s.
Definition rb_set_black (a : Z) s : res rb_tree := let* n := get a s in set_pc a (Z.lor (__rb_parent_color n) RB_BLACK) s.

(** [p && test(p)] and [!p || test(p)] *)
Definition and_red (p : Z) s : res bool := if p =? 0 then Ok false else rb_is_red p s.
Definition null_or_black (p : Z) s : res bool := if p =? 0 then Ok true else rb_is_black p s.

(** [if (p) f(p)] *)
Definition if_node (p : Z) (f : rb_tree -> res rb_tree) s : res rb_tree := if p =? 0 then Ok s else f s.

Definition __rb_change_child (old new parent : Z) s : res rb_tree :=
  if negb (parent =? 0) then
    let* l := get_child L parent s in
    if l =? old then set_child L parent new s else set_child R parent new s
  else Ok (set_root new s).

Definition __rb_rotate_set_parents (old new color : Z) s : res rb_tree :=
  let* parent := rb_parent old s in
  let* n := get old s in
  let* s := set_pc new (__rb_parent_color n) s in
  let* s := rb_set_parent_color old new color s in
  __rb_change_child old new parent s.

(** ** Insertion *)

Definition rb_link_node (node parent : Z) (link : option side) s : res rb_tree :=
  let s := put node (mk_rb parent 0 0) s in
  match link with
  | None => Ok (set_root node s)
  | Some d => set_child d parent node s
  end.

(** Case 1: the uncle is red.  The loop goes on at the grandparent. *)
Definition insert_flip (tmp parent gparent : Z) s : res (rb_tree * option (Z * Z)) :=
  let* s := rb_set_parent_color tmp gparent RB_BLACK s in
  let* s := rb_set_parent_color parent gparent RB_BLACK s in
  let node := gparent in
  let* parent := rb_parent node s in
  let* s := rb_set_parent_color node parent RB_RED s in
  Ok (s, Some (node, parent)).

(** Case 2: the node is the inner child. *)
Definition insert_inner (d : side) (node parent : Z) s : res (rb_tree * Z * Z) :=
  let* tmp := get_child d node s in
  let* s := set_child (other d) parent tmp s in
  let* s := set_child d node parent s in
  let* s := if_node tmp (rb_set_parent_color tmp parent RB_BLACK) s in
  let* s := rb_set_parent_color parent node RB_RED s in
  let parent := node in
  let* tmp := get_child (other d) node s in
  Ok (s, parent, tmp).

(** Case 3: the node is the outer child. *)
Definition insert_outer (d : side) (parent gparent tmp : Z) s : res rb_tree :=
  let* s := set_child d gparent tmp s in
  let* s := set_child (other d) parent gparent s in
  let* s := if_node tmp (rb_set_parent_color tmp gparent RB_BLACK) s in
  __rb_rotate_set_parents gparent parent RB_RED s.

(** The parent is the child of [gparent] on side [d]. *)
Definition insert_step (d : side) (node parent gparent : Z) s : res (rb_tree * option (Z * Z)) :=
  let* tmp := get_child (other d) gparent s in
  let* red := and_red tmp s in
  if red then insert_flip tmp parent gparent s
  else
    let* tmp := get_child (other d) parent s in
    let* '(s, parent, tmp) := if node =? tmp then insert_inner d node parent s else Ok (s, parent, tmp) in
    let* s := insert_outer d parent gparent tmp s in
    Ok (s, None).

Fixpoint insert_loop (fuel : nat) (node parent : Z) s : res rb_tree :=
  match fuel with
  | O => Undef
  | S fuel =>
      if parent =? 0 then rb_set_parent_color node 0 RB_BLACK s
      else
        let* black := rb_is_black parent s in
        if black then Ok s
        else
          let* gparent := rb_red_parent parent s in
          let* tmp := get_child R gparent s in
          let* '(s, next) := insert_step (if negb (parent =? tmp) then L else R) node parent gparent s in
          match next with
          | Some (node, parent) => insert_loop fuel node parent s
          | None => Ok s
          end
  end.

(** Every turn of a loop goes up the tree. *)
Definition tree_fuel s : nat := S (size (nodes s)).

Definition __rb_insert (node : Z) (newleft : bool) s : res rb_tree :=
  let* parent := rb_red_parent node s in
  let s := if newleft then set_leftmost node s else s in
  insert_loop (tree_fuel s) node parent s.

Definition rb_insert_color (node : Z) s : res rb_tree := __rb_insert node false s.
Definition rb_insert_color_cached (node : Z) (leftmost : bool) s : res rb_tree := __rb_insert node leftmost s.

(** ** Rebalancing after a removal *)

(** Case 1: the sibling is red. *)
Definition erase_rotate (d : side) (parent sibling : Z) s : res (rb_tree * Z) :=
  let* tmp1 := get_child d sibling s in
  let* s := set_child (other d) parent tmp1 s in
  let* s := set_child d sibling parent s in
  let* s := rb_set_parent_color tmp1 parent RB_BLACK s in
  let* s := __rb_rotate_set_parents parent sibling RB_RED s in
  Ok (s, tmp1).

(** Case 2: the children of the sibling are black. *)
Definition erase_flip (parent sibling : Z) s : res (rb_tree * option (Z * Z)) :=
  let* s := rb_set_parent_color sibling parent RB_RED s in
  let* red := rb_is_red parent s in
  if red then let* s := rb_set_black parent s in Ok (s, None)
  else
    let node := parent in
    let* parent := rb_parent node s in
    Ok (s, if parent =? 0 then None else Some (node, parent)).

(** Case 3: the inner child of the sibling is red. *)
Definition erase_inner (d : side) (parent sibling tmp2 : Z) s : res (rb_tree * Z * Z) :=
  let* tmp1 := get_child (other d) tmp2 s in
  let* s := set_child d sibling tmp1 s in
  let* s := set_child (other d) tmp2 sibling s in
  let* s := set_child (other d) parent tmp2 s in
  let* s := if_node tmp1 (rb_set_parent_color tmp1 sibling RB_BLACK) s in
  Ok (s, tmp2, sibling).

(** Case 4: the outer child of the sibling is red. *)
Definition erase_outer (d : side) (parent sibling tmp1 : Z) s : res rb_tree :=
  let* tmp2 := get_child d sibling s in
  let* s := set_child (other d) parent tmp2 s in
  let* s := set_child d sibling parent s in
  let* s := rb_set_parent_color tmp1 sibling RB_BLACK s in
  let* s := if_node tmp2 (rb_set_parent tmp2 parent) s in
  __rb_rotate_set_parents parent sibling RB_BLACK s.

(** The short subtree is the child of [parent] on side [d]. *)
Definition erase_step (d : side) (parent : Z) s : res (rb_tree * option (Z * Z)) :=
  let* sibling := get_child (other d) parent s in
  let* red := rb_is_red sibling s in
  let* '(s, sibling) := if red then erase_rotate d parent sibling s else Ok (s, sibling) in
  let* tmp1 := get_child (other d) sibling s in
  let* black1 := null_or_black tmp1 s in
  if black1 then
    let* tmp2 := get_child d sibling s in
    let* black2 := null_or_black tmp2 s in
    if black2 then erase_flip parent sibling s
    else
      let* '(s, sibling, tmp1) := erase_inner d parent sibling tmp2 s in
      let* s := erase_outer d parent sibling tmp1 s in
      Ok (s, None)
  else
    let* s := erase_outer d parent sibling tmp1 s in
    Ok (s, None).

Fixpoint erase_loop (fuel : nat) (node parent : Z) s : res rb_tree :=
  match fuel with
  | O => Undef
  | S fuel =>
      let* sibling := get_child R parent s in
      let* '(s, next) := erase_step (if negb (node =? sibling) then L else R) parent s in
      match next with
      | Some (node, parent) => erase_loop fuel node parent s
      | None => Ok s
      end
  end.

Definition ____rb_erase_color (parent : Z) s : res rb_tree := erase_loop (tree_fuel s) 0 parent s.

(** ** Iteration *)

(** [while (n->child) n = n->child;] *)
Fixpoint descend (fuel : nat) (d : side) (n : Z) s : res Z :=
  match fuel with
  | O => Undef
  | S fuel => let* c := get_child d n s in if c =? 0 then Ok n else descend fuel d c s
  end.

Definition rb_end (d : side) s : res Z := if root s =? 0 then Ok 0 else descend (tree_fuel s) d (root s) s.
Definition rb_first s : res Z := rb_end L s.
Definition rb_last s : res Z := rb_end R s.

(** [while ((parent = rb_parent(node)) && node == parent->child) node = parent;] *)
Fixpoint ascend (fuel : nat) (d : side) (node : Z) s : res Z :=
  match fuel with
  | O => Undef
  | S fuel =>
      let* parent := rb_parent node s in
      if parent =? 0 then Ok 0
      else let* c := get_child d parent s in if node =? c then ascend fuel d parent s else Ok parent
  end.

(** [RB_EMPTY_NODE] *)
Definition RB_EMPTY_NODE (node : Z) s : res bool := let* n := get node s in Ok (__rb_parent_color n =? node).
Definition RB_CLEAR_NODE (node : Z) s : res rb_tree := set_pc node node s.

(** The neighbour of a node on side [d]: [rb_next] on the right, [rb_prev] on the left. *)
Definition rb_step (d : side) (node : Z) s : res Z :=
  let* empty := RB_EMPTY_NODE node s in
  if empty then Ok 0
  else
    let* c := get_child d node s in
    if negb (c =? 0) then descend (tree_fuel s) (other d) c s else ascend (tree_fuel s) d node s.
Definition rb_next (node : Z) s : res Z := rb_step R node s.
Definition rb_prev (node : Z) s : res Z := rb_step L node s.

(** ** Removal *)

(** The loop of case 3: the successor and its parent. *)
Fixpoint find_successor (fuel : nat) (parent successor tmp : Z) s : res (Z * Z) :=
  match fuel with
  | O => Undef
  | S fuel =>
      let parent := successor in
      let successor := tmp in
      let* tmp := get_child L tmp s in
      if tmp =? 0 then Ok (parent, successor) else find_successor fuel parent successor tmp s
  end.

(** The node has two children, [child] on the right. *)
Definition erase_two (node child_ : Z) s : res (rb_tree * Z) :=
  let* tmp := get_child L child_ s in
  let* '(s, parent, successor, child2) :=
    if tmp =? 0 then
      let* child2 := get_child R child_ s in
      Ok (s, child_, child_, child2)
    else
      let* '(parent, successor) := find_successor (tree_fuel s) 0 child_ tmp s in
      let* child2 := get_child R successor s in
      let* s := set_child L parent child2 s in
      let* s := set_child R successor child_ s in
      let* s := rb_set_parent child_ successor s in
      Ok (s, parent, successor, child2) in
  let* tmp := get_child L node s in
  let* s := set_child L successor tmp s in
  let* s := rb_set_parent tmp successor s in
  let* n := get node s in
  let pc := __rb_parent_color n in
  let* s := __rb_change_child node successor (__rb_parent pc) s in
  if negb (child2 =? 0) then
    let* s := set_pc successor pc s in
    let* s := rb_set_parent_color child2 parent RB_BLACK s in
    Ok (s, 0)
  else
    let* m := get successor s in
    let pc2 := __rb_parent_color m in
    let* s := set_pc successor pc s in
    Ok (s, if __rb_is_black pc2 then parent else 0).

(** The result is the node where the tree has to be rebalanced, or NULL. *)
Definition __rb_erase_augmented (node : Z) (cached : bool) s : res (rb_tree * Z) :=
  let* child_ := get_child R node s in
  let* tmp := get_child L node s in
  let* s := if cached && (node =? leftmost s) then let* n := rb_next node s in Ok (set_leftmost n s) else Ok s in
  let* n := get node s in
  let pc := __rb_parent_color n in
  let parent := __rb_parent pc in
  if tmp =? 0 then
    let* s := __rb_change_child node child_ parent s in
    if negb (child_ =? 0) then let* s := set_pc child_ pc s in Ok (s, 0)
    else Ok (s, if __rb_is_black pc then parent else 0)
  else if child_ =? 0 then
    let* s := set_pc tmp pc s in
    let* s := __rb_change_child node tmp parent s in
    Ok (s, 0)
  else erase_two node child_ s.

Definition erase (node : Z) (cached : bool) s : res rb_tree :=
  let* '(s, rebalance) := __rb_erase_augmented node cached s in
  if negb (rebalance =? 0) then ____rb_erase_color rebalance s else Ok s.
Definition rb_erase (node : Z) s : res rb_tree := erase node false s.
Definition rb_erase_cached (node : Z) s : res rb_tree := erase node true s.

(** ** Replacement *)

Definition rb_replace_node (victim new : Z) s : res rb_tree :=
  let* parent := rb_parent victim s in
  let* n := get victim s in
  let s := put new n s in
  let* l := get_child L victim s in
  let* s := if_node l (rb_set_parent l new) s in
  let* r := get_child R victim s in
  let* s := if_node r (rb_set_parent r new) s in
  __rb_change_child victim new parent s.

Definition rb_replace_node_cached (victim new : Z) s : res rb_tree :=
  let* s := rb_replace_node victim new s in
  Ok (if leftmost s =? victim then set_leftmost new s else s).

(** ** Postorder *)

Fixpoint rb_left_deepest_node (fuel : nat) (node : Z) s : res Z :=
  match fuel with
  | O => Undef
  | S fuel =>
      let* l := get_child L node s in
      if negb (l =? 0) then rb_left_deepest_node fuel l s
      else
        let* r := get_child R node s in
        if negb (r =? 0) then rb_left_deepest_node fuel r s else Ok node
  end.

Definition rb_next_postorder (node : Z) s : res Z :=
  if node =? 0 then Ok 0
  else
    let* parent := rb_parent node s in
    if parent =? 0 then Ok 0
    else
      let* l := get_child L parent s in
      let* r := get_child R parent s in
      if (node =? l) && negb (r =? 0) then rb_left_deepest_node (tree_fuel s) r s else Ok parent.

Definition rb_first_postorder s : res Z := if root s =? 0 then Ok 0 else rb_left_deepest_node (tree_fuel s) (root s) s.
