(* ===== verification/RbtreeHeap.v ===== *)
(** * RbtreeHeap: pointer trees as lists of disjoint parts

    The memory of a tree is described by a list of parts that share no node: a single node, a
    subtree, the path from a place of the tree to its root, or a segment of such a path.
    [holds F l s] says that the state [s] has the parts [l], and that all other nodes are as in
    [F].  The lemmas say how each primitive of Rbtree.v changes the list; unfolding and folding
    parts is rearranging it. *)

From S2P Require Import Prelude Bits Rbtree.

Implicit Types s F : rb_tree.

Inductive color := Red | Black.

#[export] Instance color_eq_dec : EqDecision color.
Proof. solve_decision. Defined.
#[export] Instance side_eq_dec : EqDecision side.
Proof. solve_decision. Defined.

Definition cbit (c : color) : Z := match c with Red => RB_RED | Black => RB_BLACK end.

Inductive tree := E | T (c : color) (l : tree) (a : Z) (r : tree).

#[export] Instance tree_eq_dec : EqDecision tree.
Proof. solve_decision. Defined.

Definition ptr (t : tree) : Z := match t with E => 0 | T _ _ a _ => a end.

Fixpoint inorder (t : tree) : list Z := match t with E => [] | T _ l a r => inorder l ++ a :: inorder r end.

(** A tree with [x] on side [d] and [y] on the other, and the words of such a node. *)
Definition Td (d : side) (c : color) (x : tree) (a : Z) (y : tree) : tree := match d with L => T c x a y | R => T c y a x end.
Definition mkd (d : side) (pc x y : Z) : rb_node := match d with L => mk_rb pc y x | R => mk_rb pc x y end.

(** A step from a place towards the root: the side the place is on, and the rest of the
    node above it. *)
Record frame := mk_frame { f_side : side; f_color : color; f_addr : Z; f_sib : tree }.
Implicit Types (f : frame) (K : list frame).

Definition join f (t : tree) : tree := Td (f_side f) (f_color f) t (f_addr f) (f_sib f).
Fixpoint plug K (t : tree) : tree := match K with [] => t | f :: K => plug K (join f t) end.

(** The node above a place, [par] when there is no step. *)
Definition up_from (par : Z) K : Z := match K with [] => par | f :: _ => f_addr f end.
Abbreviation up := (up_from 0).

(** The topmost node of a path, [p] when there is no step. *)
Definition outer K (p : Z) : Z := default p (f_addr <$> last K).

(** ** Parts *)

Inductive part :=
| Pt (a : Z) (n : rb_node)
| Sub (par : Z) (t : tree)
| Seg (par : Z) (K : list frame) (p : Z)
| Ctx (K : list frame) (p : Z).

Definition frame_foot f : list Z := f_addr f :: inorder (f_sib f).

Definition foot (x : part) : list Z :=
  match x with
  | Pt a _ => [a]
  | Sub _ t => inorder t
  | Seg _ K _ | Ctx K _ => K ≫= frame_foot
  end.

Fixpoint sub_ok s (par : Z) (t : tree) : Prop :=
  match t with
  | E => True
  | T c l a r => nodes s !! a = Some (mk_rb (par + cbit c) (ptr r) (ptr l)) /\ sub_ok s a l /\ sub_ok s a r
  end.

Definition frame_node (par : Z) f (p : Z) : rb_node := mkd (f_side f) (par + cbit (f_color f)) p (ptr (f_sib f)).

Fixpoint seg_ok s (par : Z) K (p : Z) : Prop :=
  match K with
  | [] => True
  | f :: K => nodes s !! f_addr f = Some (frame_node (up_from par K) f p) /\ sub_ok s (f_addr f) (f_sib f) /\ seg_ok s par K (f_addr f)
  end.

Definition part_ok s (x : part) : Prop :=
  match x with
  | Pt a n => nodes s !! a = Some n
  | Sub par t => sub_ok s par t
  | Seg par K p => seg_ok s par K p
  | Ctx K p => seg_ok s 0 K p /\ root s = outer K p
  end.

(** The addresses of nodes: 4-byte aligned, so that the low bits are free. *)
Definition good (a : Z) : Prop := 0 < a < 2 ^ 64 /\ (4 | a).

Implicit Types l : list part.

Definition feet l : list Z := l ≫= foot.

Record holds F l s : Prop := mk_holds {
  h_nodup : NoDup (feet l);
  h_good a : a ∈ feet l -> good a;
  h_ok : Forall (part_ok s) l;
  h_frame a : a ∉ feet l -> nodes s !! a = nodes F !! a;
  h_left : leftmost s = leftmost F;
}.

(** ** Words of nodes *)

Lemma mkd_child d pc x y : child d (mkd d pc x y) = x.
Proof. by destruct d. Qed.
Lemma mkd_child_other d pc x y : child (other d) (mkd d pc x y) = y.
Proof. by destruct d. Qed.
Lemma mkd_with_child d pc x y v : with_child d v (mkd d pc x y) = mkd d pc v y.
Proof. by destruct d. Qed.
Lemma mkd_with_child_other d pc x y v : with_child (other d) v (mkd d pc x y) = mkd d pc x v.
Proof. by destruct d. Qed.
Lemma mkd_L_R pc x y : child R (mkd L pc x y) = y.
Proof. done. Qed.
Lemma mkd_L_with_R pc x y v : with_child R v (mkd L pc x y) = mkd L pc x v.
Proof. done. Qed.
Lemma mkd_pc d pc x y : __rb_parent_color (mkd d pc x y) = pc.
Proof. by destruct d. Qed.
Lemma mkd_set_pc d pc x y v : mk_rb v (rb_right (mkd d pc x y)) (rb_left (mkd d pc x y)) = mkd d v x y.
Proof. by destruct d. Qed.
Lemma other_other d : other (other d) = d.
Proof. by destruct d. Qed.
Lemma mkd_other d pc x y : mkd (other d) pc x y = mkd d pc y x.
Proof. by destruct d. Qed.
Lemma Td_other d c x a y : Td (other d) c x a y = Td d c y a x.
Proof. by destruct d. Qed.

Lemma ptr_Td d c x a y : ptr (Td d c x a y) = a.
Proof. by destruct d. Qed.

Lemma ptr_plug K t : ptr (plug K t) = outer K (ptr t).
Proof.
  revert t. induction K as [|g K IH]; intros t; [done|]. cbn [plug]. rewrite IH. unfold outer, join. rewrite ptr_Td, last_cons.
  by destruct (last K).
Qed.

(** A parent and a color in one word. *)
Definition good0 (p : Z) : Prop := p = 0 \/ good p.

Lemma pc_div p c : good0 p -> exists q, p = q * 4 /\ 0 <= q /\ p + cbit c < 2 ^ 64.
Proof.
  intros [->|[Hr [q ->]]]; [exists 0; by destruct c|]. exists q. split_and!; [done|lia|]. destruct c; unfold cbit, RB_RED, RB_BLACK; lia.
Qed.

Lemma land_not3 x : 0 <= x < 2 ^ 64 -> Z.land x (not64 3) = x / 4 * 4.
Proof.
  intros Hx. change (not64 3) with (Z.land (Z.ones 64) (Z.lnot 3)).
  rewrite Z.land_assoc, Z.land_ones by lia. rewrite Z.mod_small by lia.
  change (Z.land x (Z.lnot 3)) with (Z.ldiff x (Z.ones 2)). rewrite Z.ldiff_ones_r, Z.shiftl_mul_pow2, Z.shiftr_div_pow2 by lia. done.
Qed.

Lemma pc_parent p c : good0 p -> __rb_parent (p + cbit c) = p.
Proof.
  intros Hp. destruct (pc_div p c Hp) as (q & -> & Hq & Hb). unfold __rb_parent.
  assert (0 <= cbit c < 4) by (destruct c; unfold cbit, RB_RED, RB_BLACK; lia).
  rewrite land_not3 by lia. rewrite Z.div_add_l, (Z.div_small (cbit c)) by lia. lia.
Qed.

Lemma pc_color p c : good0 p -> __rb_color (p + cbit c) = cbit c.
Proof.
  intros Hp. destruct (pc_div p c Hp) as (q & -> & Hq & Hb). unfold __rb_color. change 1 with (Z.ones 1) at 1.
  rewrite Z.land_ones by lia. replace (q * 4 + cbit c) with (cbit c + (q * 2) * 2 ^ 1) by lia. rewrite Z.mod_add by done. by destruct c.
Qed.

Lemma pc_lor p c : good0 p -> Z.lor p (cbit c) = p + cbit c.
Proof.
  intros Hp. destruct (pc_div p c Hp) as (q & -> & Hq & Hb). destruct c; cbn [cbit]; unfold RB_RED, RB_BLACK; [rewrite Z.lor_0_r; lia|].
  rewrite <- Z.lxor_lor, <- Z.add_nocarry_lxor; [done|..].
  all: replace (q * 4) with (Z.shiftl q 2) by (rewrite Z.shiftl_mul_pow2; lia); apply Z.bits_inj'; intros i Hi;
    rewrite Z.land_spec, Z.shiftl_spec, Z.bits_0 by lia; destruct (decide (i = 0)) as [->|]; [by rewrite Z.testbit_neg_r|].
  all: change 1 with (2 ^ 0); rewrite Z.pow2_bits_false by lia; apply andb_false_r.
Qed.

Lemma cbit_black c : negb (cbit c =? 0) = bool_decide (c = Black).
Proof. by destruct c. Qed.

(** ** Rearranging parts *)

Lemma sub_ok_frame s s' par t : (forall a, a ∈ inorder t -> nodes s' !! a = nodes s !! a) -> sub_ok s par t -> sub_ok s' par t.
Proof.
  revert par. induction t as [|c t1 IH1 a t2 IH2]; intros par Hf; cbn in *; [done|]. intros (Ha & H1 & H2).
  split_and!; [rewrite Hf by set_solver; done|apply IH1; set_solver|apply IH2; set_solver].
Qed.

Lemma seg_ok_frame s s' par K p : (forall a, a ∈ K ≫= frame_foot -> nodes s' !! a = nodes s !! a) -> seg_ok s par K p -> seg_ok s' par K p.
Proof.
  revert p. induction K as [|f K IH]; intros p Hf; cbn in *; [done|]. intros (Ha & H1 & H2).
  split_and!; [rewrite Hf by set_solver; done|eapply sub_ok_frame, H1; set_solver|apply IH; set_solver].
Qed.

Lemma part_ok_frame s s' x : (forall a, a ∈ foot x -> nodes s' !! a = nodes s !! a) -> root s' = root s -> part_ok s x -> part_ok s' x.
Proof.
  intros Hf Hr. destruct x; cbn in *.
  - by rewrite Hf by set_solver.
  - by apply sub_ok_frame.
  - by apply seg_ok_frame.
  - rewrite Hr. intros [? ?]. split; [by eapply seg_ok_frame|done].
Qed.

Lemma feet_app l1 l2 : feet (l1 ++ l2) = feet l1 ++ feet l2.
Proof. apply bind_app. Qed.

Lemma holds_perm F l l' s : l ≡ₚ l' -> holds F l s -> holds F l' s.
Proof.
  intros Hp [H1 H2 H3 H4 H5]. assert (Hf : feet l ≡ₚ feet l') by (unfold feet; by rewrite Hp).
  split; [by rewrite <- Hf| |by rewrite <- Hp| |done]; intros a; rewrite <- Hf; eauto.
Qed.

Lemma lookup_split l i x : l !! i = Some x -> l ≡ₚ x :: delete i l.
Proof. intros Hi. by apply delete_Permutation. Qed.

(** Permutations of lists with the same elements written out. *)
Ltac part_index x l :=
  lazymatch l with
  | x :: _ => constr:(0%nat)
  | _ :: ?t => let n := part_index x t in constr:(S n)
  end.
Ltac perm :=
  lazymatch goal with
  | |- ?l ≡ₚ ?l => reflexivity
  | |- ?l ≡ₚ ?x :: _ =>
      let i := part_index x l in
      etransitivity; [apply (lookup_split l i x); reflexivity|]; cbn [delete list_delete]; apply perm_skip; perm
  end.

Lemma holds_pull F l i x s : l !! i = Some x -> holds F l s -> holds F (x :: delete i l) s.
Proof. intros Hi. apply holds_perm. by apply lookup_split. Qed.

(** A part may be replaced by parts of the same nodes that say the same. *)
Lemma holds_replace F xs ys l s :
  feet xs ≡ₚ feet ys -> (Forall (part_ok s) xs -> Forall (part_ok s) ys) -> holds F (xs ++ l) s -> holds F (ys ++ l) s.
Proof.
  intros Hf Ho [H1 H2 H3 H4 H5]. apply Forall_app in H3 as [H3 H3'].
  assert (Hp : feet (xs ++ l) ≡ₚ feet (ys ++ l)) by (rewrite !feet_app, Hf; done).
  split; [by rewrite <- Hp| |apply Forall_app; auto| |done]; intros a; rewrite <- Hp; eauto.
Qed.

Lemma holds_good F l i x a s : holds F l s -> l !! i = Some x -> a ∈ foot x -> good a.
Proof.
  intros Hh Hi Ha. apply (h_good _ _ _ Hh). apply list_elem_of_bind. exists x. split; [done|by eapply list_elem_of_lookup_2].
Qed.

Lemma holds_ok F l i x s : holds F l s -> l !! i = Some x -> part_ok s x.
Proof. intros Hh Hi. by apply (Forall_lookup_1 _ _ _ _ (h_ok _ _ _ Hh) Hi). Qed.

Lemma holds_pt_good F l i a n s : holds F l s -> l !! i = Some (Pt a n) -> good a.
Proof. intros Hh Hi. eapply holds_good; [done|done|]. by apply list_elem_of_singleton. Qed.

Lemma up_from_good F l i par K p s :
  holds F l s -> l !! i = Some (Seg par K p) \/ (par = 0 /\ l !! i = Some (Ctx K p)) -> good0 par -> good0 (up_from par K).
Proof.
  intros Hh Hi Hp. destruct K as [|f K]; [done|]. right. destruct Hi as [Hi|[_ Hi]]; eapply (holds_good _ _ _ _ _ _ Hh Hi); cbn; set_solver.
Qed.

Lemma ctx_up_good F l i K p s : holds F l s -> l !! i = Some (Ctx K p) -> good0 (up K).
Proof. intros Hh Hi. eapply up_from_good; [done|by right|by left]. Qed.

(** The central lemma: a change of the nodes of one part. *)
Lemma holds_update F l i x x' s s' :
  holds F l s -> l !! i = Some x -> foot x' ≡ₚ foot x -> (forall a, a ∉ foot x -> nodes s' !! a = nodes s !! a) ->
  root s' = root s -> leftmost s' = leftmost s -> part_ok s' x' -> holds F (<[i := x']> l) s'.
Proof.
  intros Hh Hi Hf Hn Hr Hl Hx. assert (Hlen : (i < length l)%nat) by (by eapply lookup_lt_Some).
  pose proof (holds_pull _ _ _ _ _ Hi Hh) as [H1 H2 H3 H4 H5]. apply Forall_cons in H3 as [_ H3].
  apply (holds_perm _ (x' :: delete i l)).
  { rewrite (delete_Permutation (<[i := x']> l) i x') by (by rewrite list_lookup_insert_eq).
    rewrite !delete_take_drop, take_insert_ge, drop_insert_lt by lia. done. }
  assert (Hp : feet (x' :: delete i l) ≡ₚ feet (x :: delete i l)) by (cbn; unfold feet; by rewrite Hf).
  split; [by rewrite Hp|intros a; rewrite Hp; apply H2| |intros a Ha|congruence].
  - constructor; [done|]. apply Forall_forall. intros y Hy. rewrite Forall_forall in H3. eapply part_ok_frame; [|done|by apply H3].
    intros a Ha. apply Hn. intros Hin. cbn in H1. apply NoDup_app in H1 as (_ & H1 & _). apply (H1 a Hin).
    apply list_elem_of_bind. by exists y.
  - rewrite Hp in Ha. rewrite Hn; [by apply H4|]. intros Hin. apply Ha. cbn. apply elem_of_app. by left.
Qed.

(** ** Unfolding and folding *)

Lemma Forall_2 {A} (P : A -> Prop) x y : Forall P [x; y] <-> P x /\ P y.
Proof. rewrite !Forall_cons, Forall_nil. tauto. Qed.
Lemma Forall_3 {A} (P : A -> Prop) x y z : Forall P [x; y; z] <-> P x /\ P y /\ P z.
Proof. rewrite !Forall_cons, Forall_nil. tauto. Qed.

Lemma sub_ok_Td s d par c x a y :
  sub_ok s par (Td d c x a y) <-> nodes s !! a = Some (mkd d (par + cbit c) (ptr x) (ptr y)) /\ sub_ok s a x /\ sub_ok s a y.
Proof. destruct d; cbn; [done|]. tauto. Qed.

Lemma inorder_Td d c x a y : inorder (Td d c x a y) ≡ₚ a :: inorder x ++ inorder y.
Proof. destruct d; cbn; rewrite <- Permutation_middle; [done|]. by rewrite Permutation_app_comm. Qed.

Lemma split_node F d par c x a y l s :
  holds F (Sub par (Td d c x a y) :: l) s <-> holds F (Pt a (mkd d (par + cbit c) (ptr x) (ptr y)) :: Sub a x :: Sub a y :: l) s.
Proof.
  assert (Hf : feet [Sub par (Td d c x a y)] ≡ₚ feet [Pt a (mkd d (par + cbit c) (ptr x) (ptr y)); Sub a x; Sub a y]).
  { cbn. rewrite !app_nil_r. apply inorder_Td. }
  split; [apply (holds_replace _ [_] [_; _; _])|apply (holds_replace _ [_; _; _] [_])]; try done;
    rewrite Forall_singleton, Forall_3; cbn [part_ok]; apply sub_ok_Td.
Qed.

Lemma split_ctx F f K p l s :
  holds F (Ctx (f :: K) p :: l) s <-> holds F (Pt (f_addr f) (frame_node (up K) f p) :: Sub (f_addr f) (f_sib f) :: Ctx K (f_addr f) :: l) s.
Proof.
  assert (Hf : feet [Ctx (f :: K) p] ≡ₚ feet [Pt (f_addr f) (frame_node (up K) f p); Sub (f_addr f) (f_sib f); Ctx K (f_addr f)]).
  { cbn. rewrite !app_nil_r. done. }
  assert (Ho : outer (f :: K) p = outer K (f_addr f)) by (unfold outer; rewrite last_cons; by destruct (last K)).
  split; [apply (holds_replace _ [_] [_; _; _])|apply (holds_replace _ [_; _; _] [_])]; try done;
    rewrite Forall_singleton, Forall_3; cbn [part_ok seg_ok]; rewrite Ho; tauto.
Qed.

(** A whole path folds into the tree. *)
Lemma fold_ctx F K t l s : holds F (Ctx K (ptr t) :: Sub (up K) t :: l) s -> holds F (Ctx [] (ptr (plug K t)) :: Sub 0 (plug K t) :: l) s.
Proof.
  revert t. induction K as [|f K IH]; intros t; [done|]. intros Hh. cbn [plug]. apply IH. apply split_ctx in Hh.
  unfold join at 1. rewrite ptr_Td. apply (holds_perm _ (Sub (up K) (join f t) :: Ctx K (f_addr f) :: l)); [apply Permutation_swap|].
  unfold join. apply split_node. revert Hh. apply holds_perm. unfold frame_node. cbn [up_from]. perm.
Qed.

Lemma unfold_ctx F K t l s : holds F (Ctx [] (ptr (plug K t)) :: Sub 0 (plug K t) :: l) s -> holds F (Ctx K (ptr t) :: Sub (up K) t :: l) s.
Proof.
  revert t. induction K as [|f K IH]; intros t; [done|]. intros Hh. cbn [plug] in Hh. apply IH in Hh. unfold join in Hh at 1. rewrite ptr_Td in Hh.
  apply split_ctx. apply (holds_perm _ _ (Sub (up K) (join f t) :: Ctx K (f_addr f) :: l)) in Hh; [|apply Permutation_swap].
  unfold join in Hh. apply split_node in Hh. revert Hh. apply holds_perm. unfold frame_node. cbn [up_from]. perm.
Qed.

(** ** Running the primitives *)

Definition set_color (c : color) (t : tree) : tree := match t with E => E | T _ x a y => T c x a y end.
Definition is_red (t : tree) : bool := match t with T Red _ _ _ => true | _ => false end.
Definition not_ctx (x : part) : bool := match x with Ctx _ _ => false | _ => true end.

Lemma good_not_0 a : good a -> (a =? 0) = false.
Proof. intros [? _]. apply Z.eqb_neq. lia. Qed.

Section run.
Context (F : rb_tree) (l : list part) (s : rb_tree) (Hh : holds F l s).

Lemma run_get i a n : l !! i = Some (Pt a n) -> get a s = Ok n.
Proof. intros Hi. unfold get. by rewrite (holds_ok _ _ _ _ _ Hh Hi : nodes s !! a = Some n). Qed.

Lemma run_get_child d i a n : l !! i = Some (Pt a n) -> get_child d a s = Ok (child d n).
Proof. intros Hi. unfold get_child. by rewrite (run_get _ _ _ Hi). Qed.

Lemma run_rb_parent i a d p c x y : l !! i = Some (Pt a (mkd d (p + cbit c) x y)) -> good0 p -> rb_parent a s = Ok p.
Proof. intros Hi Hp. unfold rb_parent. rewrite (run_get _ _ _ Hi). cbn [res_bind]. by rewrite mkd_pc, pc_parent. Qed.

Lemma run_is_red i a d p c x y : l !! i = Some (Pt a (mkd d (p + cbit c) x y)) -> good0 p -> rb_is_red a s = Ok (bool_decide (c = Red)).
Proof.
  intros Hi Hp. unfold rb_is_red, __rb_is_red. rewrite (run_get _ _ _ Hi). cbn [res_bind]. rewrite mkd_pc, pc_color by done. by destruct c.
Qed.

Lemma run_is_black i a d p c x y : l !! i = Some (Pt a (mkd d (p + cbit c) x y)) -> good0 p -> rb_is_black a s = Ok (bool_decide (c = Black)).
Proof.
  intros Hi Hp. unfold rb_is_black, __rb_is_black. rewrite (run_get _ _ _ Hi). cbn [res_bind]. rewrite mkd_pc, pc_color by done. by destruct c.
Qed.

Lemma run_red_parent i a d p x y : l !! i = Some (Pt a (mkd d (p + cbit Red) x y)) -> rb_red_parent a s = Ok p.
Proof. intros Hi. unfold rb_red_parent. rewrite (run_get _ _ _ Hi). cbn [res_bind]. rewrite mkd_pc. f_equal. apply Z.add_0_r. Qed.

Lemma run_put i a n n' : l !! i = Some (Pt a n) -> holds F (<[i := Pt a n']> l) (put a n' s).
Proof.
  intros Hi. eapply holds_update; [exact Hh|exact Hi|done| |done|done|cbn; apply lookup_insert_eq].
  intros b Hb. cbn. rewrite lookup_insert_ne; [done|]. intros <-. apply Hb. by apply list_elem_of_singleton.
Qed.

Lemma run_set_child d v i a n :
  l !! i = Some (Pt a n) -> exists s', set_child d a v s = Ok s' /\ holds F (<[i := Pt a (with_child d v n)]> l) s'.
Proof. intros Hi. unfold set_child. rewrite (run_get _ _ _ Hi). eexists. split; [done|]. by eapply run_put. Qed.

Lemma run_set_pc v i a d pc x y :
  l !! i = Some (Pt a (mkd d pc x y)) -> exists s', set_pc a v s = Ok s' /\ holds F (<[i := Pt a (mkd d v x y)]> l) s'.
Proof.
  intros Hi. unfold set_pc. rewrite (run_get _ _ _ Hi). cbn [res_bind]. rewrite mkd_set_pc. eexists. split; [done|]. by eapply run_put.
Qed.

Lemma run_color p c i a d pc x y :
  l !! i = Some (Pt a (mkd d pc x y)) -> good0 p ->
  exists s', rb_set_parent_color a p (cbit c) s = Ok s' /\ holds F (<[i := Pt a (mkd d (p + cbit c) x y)]> l) s'.
Proof. intros Hi Hp. unfold rb_set_parent_color. rewrite pc_lor by done. by eapply run_set_pc. Qed.

(** The root of a subtree. *)
Lemma sub_root i par c x a y :
  l !! i = Some (Sub par (T c x a y)) ->
  get a s = Ok (mk_rb (par + cbit c) (ptr y) (ptr x)) /\ good a /\
  forall p c', holds F (<[i := Sub p (T c' x a y)]> l) (put a (mk_rb (p + cbit c') (ptr y) (ptr x)) s).
Proof.
  intros Hi. pose proof (holds_ok _ _ _ _ _ Hh Hi) as (Ha & Hx & Hy). split_and!.
  - unfold get. by rewrite Ha.
  - eapply (holds_good _ _ _ _ _ _ Hh Hi). cbn. set_solver.
  - assert (Hnd : NoDup (inorder (T c x a y))).
    { pose proof (h_nodup _ _ _ (holds_pull _ _ _ _ _ Hi Hh)) as Hnd. cbn [feet mbind list_bind foot] in Hnd. by apply NoDup_app in Hnd as [? _]. }
    cbn in Hnd. rewrite <- Permutation_middle in Hnd. apply NoDup_cons in Hnd as [Hn Hnd].
    intros p c'. eapply holds_update; [exact Hh|exact Hi|done| |done|done|].
    + intros b Hb. cbn in Hb |- *. rewrite lookup_insert_ne; [done|]. set_solver.
    + cbn. rewrite lookup_insert_eq. split_and!; [done|eapply sub_ok_frame, Hx|eapply sub_ok_frame, Hy];
        intros b Hb; cbn; rewrite lookup_insert_ne by set_solver; done.
Qed.

Lemma run_color_sub p c i par t :
  l !! i = Some (Sub par t) -> t <> E -> good0 p ->
  exists s', rb_set_parent_color (ptr t) p (cbit c) s = Ok s' /\ holds F (<[i := Sub p (set_color c t)]> l) s'.
Proof.
  intros Hi Ht Hp. destruct t as [|c0 x a y]; [done|]. destruct (sub_root _ _ _ _ _ _ Hi) as (Hg & _ & Hput).
  unfold rb_set_parent_color, set_pc. rewrite pc_lor by done. cbn [ptr]. rewrite Hg. cbn [res_bind]. eexists. split; [done|]. apply Hput.
Qed.

Lemma run_parent_sub p i par t :
  l !! i = Some (Sub par t) -> t <> E -> good0 p -> good0 par ->
  exists s', rb_set_parent (ptr t) p s = Ok s' /\ holds F (<[i := Sub p t]> l) s'.
Proof.
  intros Hi Ht Hp Hpar. destruct t as [|c0 x a y]; [done|]. destruct (sub_root _ _ _ _ _ _ Hi) as (Hg & _ & Hput).
  unfold rb_set_parent, rb_color, set_pc. cbn [ptr]. rewrite Hg. cbn [res_bind __rb_parent_color rb_right rb_left].
  rewrite pc_color, Z.lor_comm, pc_lor by done. eexists. split; [done|]. apply Hput.
Qed.

Lemma run_pc_sub p c i par t :
  l !! i = Some (Sub par t) -> t <> E -> exists s', set_pc (ptr t) (p + cbit c) s = Ok s' /\ holds F (<[i := Sub p (set_color c t)]> l) s'.
Proof.
  intros Hi Ht. destruct t as [|c0 x a y]; [done|]. destruct (sub_root _ _ _ _ _ _ Hi) as (Hg & _ & Hput).
  unfold set_pc. cbn [ptr]. rewrite Hg. cbn [res_bind]. eexists. split; [done|]. apply Hput.
Qed.

Lemma insert_same i x : l !! i = Some x -> <[i := x]> l = l.
Proof. apply list_insert_id. Qed.

Lemma sub_E i par par' : l !! i = Some (Sub par E) -> holds F (<[i := Sub par' E]> l) s.
Proof. intros Hi. eapply holds_update; [exact Hh|exact Hi|done..]. Qed.

Lemma run_if_color p c i par t :
  l !! i = Some (Sub par t) -> good0 p ->
  exists s', if_node (ptr t) (rb_set_parent_color (ptr t) p (cbit c)) s = Ok s' /\ holds F (<[i := Sub p (set_color c t)]> l) s'.
Proof.
  intros Hi Hp. destruct t as [|c0 x a y] eqn:Et; [exists s; split; [done|by eapply sub_E]|].
  destruct (sub_root _ _ _ _ _ _ Hi) as (_ & Hg & _). unfold if_node. cbn [ptr]. rewrite good_not_0 by done.
  by apply (run_color_sub p c i par (T c0 x a y)).
Qed.

Lemma run_if_parent p i par t :
  l !! i = Some (Sub par t) -> good0 p -> good0 par ->
  exists s', if_node (ptr t) (rb_set_parent (ptr t) p) s = Ok s' /\ holds F (<[i := Sub p t]> l) s'.
Proof.
  intros Hi Hp Hpar. destruct t as [|c0 x a y] eqn:Et; [exists s; split; [done|by eapply sub_E]|].
  destruct (sub_root _ _ _ _ _ _ Hi) as (_ & Hg & _). unfold if_node. cbn [ptr]. rewrite good_not_0 by done.
  by apply (run_parent_sub p i par (T c0 x a y)).
Qed.

Lemma run_and_red i par t : l !! i = Some (Sub par t) -> good0 par -> and_red (ptr t) s = Ok (is_red t).
Proof.
  intros Hi Hp. destruct t as [|c x a y]; [done|]. destruct (sub_root _ _ _ _ _ _ Hi) as (Hg & Ha & _).
  unfold and_red, rb_is_red, __rb_is_red. cbn [ptr]. rewrite good_not_0, Hg by done. cbn [res_bind __rb_parent_color]. rewrite pc_color by done. by destruct c.
Qed.

Lemma run_red_sub i par t : l !! i = Some (Sub par t) -> t <> E -> good0 par -> rb_is_red (ptr t) s = Ok (is_red t).
Proof.
  intros Hi Ht Hp. rewrite <- (run_and_red i par t Hi Hp). destruct t as [|c x a y]; [done|].
  destruct (sub_root _ _ _ _ _ _ Hi) as (_ & Ha & _). unfold and_red. cbn [ptr]. by rewrite good_not_0.
Qed.

Lemma run_null_or_black i par t : l !! i = Some (Sub par t) -> good0 par -> null_or_black (ptr t) s = Ok (negb (is_red t)).
Proof.
  intros Hi Hp. destruct t as [|c x a y]; [done|]. destruct (sub_root _ _ _ _ _ _ Hi) as (Hg & Ha & _).
  unfold null_or_black, rb_is_black, __rb_is_black. cbn [ptr]. rewrite good_not_0, Hg by done. cbn [res_bind __rb_parent_color]. rewrite pc_color by done. by destruct c.
Qed.

(** Two different parts have no node in common. *)
Lemma parts_differ i j x y a b : l !! i = Some x -> l !! j = Some y -> i <> j -> a ∈ foot x -> b ∈ foot y -> a <> b.
Proof.
  intros Hi Hj Hij Ha Hb <-. pose proof (h_nodup _ _ _ (holds_pull _ _ _ _ _ Hi Hh)) as Hnd.
  cbn [feet mbind list_bind] in Hnd. apply NoDup_app in Hnd as (_ & Hnd & _). apply (Hnd a Ha).
  apply list_elem_of_bind. exists y. split; [done|]. apply list_elem_of_lookup.
  destruct (decide (j < i)%nat); [exists j; by rewrite list_lookup_delete_lt|exists (j - 1)%nat].
  rewrite list_lookup_delete_ge by lia. by replace (S (j - 1)) with j by lia.
Qed.

(** The root, when the path has no steps. *)
Lemma run_set_root i p p' : l !! i = Some (Ctx [] p) -> forallb not_ctx (delete i l) = true -> holds F (<[i := Ctx [] p']> l) (set_root p' s).
Proof.
  intros Hi Hn. pose proof (holds_pull _ _ _ _ _ Hi Hh) as [H1 H2 H3 H4 H5]. apply Forall_cons in H3 as [_ H3].
  assert (Hlen : (i < length l)%nat) by (by eapply lookup_lt_Some).
  apply (holds_perm _ (Ctx [] p' :: delete i l)).
  { rewrite (delete_Permutation (<[i := Ctx [] p']> l) i (Ctx [] p')) by (by rewrite list_lookup_insert_eq).
    rewrite !delete_take_drop, take_insert_ge, drop_insert_lt by lia. done. }
  split; try done. constructor; [done|]. apply Forall_forall. intros y Hy. rewrite Forall_forall in H3. specialize (H3 y Hy).
  rewrite List.forallb_forall in Hn. specialize (Hn y (proj1 (list_elem_of_In _ _) Hy)).
  destruct y; cbn in *; [done|by eapply sub_ok_frame, H3|by eapply seg_ok_frame, H3|done].
Qed.
End run.

Lemma run_change_child F l s i K old new j x :
  holds F l s -> l !! i = Some (Ctx K old) -> l !! j = Some x -> j <> i -> old ∈ foot x -> forallb not_ctx (delete i l) = true ->
  exists s', __rb_change_child old new (up K) s = Ok s' /\ holds F (<[i := Ctx K new]> l) s'.
Proof.
  intros Hh Hi Hj Hij Hold Hn. unfold __rb_change_child. destruct K as [|f K].
  { eexists. split; [done|]. by eapply run_set_root. }
  cbn [up_from]. assert (Hgf : good (f_addr f)) by (eapply (holds_good _ _ _ _ _ _ Hh Hi); cbn; set_solver).
  pose proof (holds_ok _ _ _ _ _ Hh Hi) as [(Hf & Hs & Hk) Hr].
  assert (Hg : get (f_addr f) s = Ok (frame_node (up K) f old)) by (unfold get; by rewrite Hf).
  rewrite good_not_0 by done. cbn [negb]. unfold get_child. rewrite Hg. cbn [res_bind].
  exists (put (f_addr f) (frame_node (up K) f new) s). split.
  - unfold set_child. rewrite Hg. cbn [res_bind]. unfold frame_node. destruct (f_side f); cbn [child mkd rb_left].
    + rewrite Z.eqb_refl. done.
    + rewrite (proj2 (Z.eqb_neq _ _)); [done|]. intros E. destruct (f_sib f) as [|c a1 a a2] eqn:Es; cbn in E.
      * apply (holds_good _ _ _ _ _ _ Hh Hj) in Hold as [? _]. lia.
      * revert E. eapply (parts_differ _ _ _ Hh i j); [done|done|done| |done]. cbn. unfold frame_foot. rewrite Es. cbn. set_solver.
  - assert (Hnd : NoDup (foot (Ctx (f :: K) old))).
    { pose proof (h_nodup _ _ _ (holds_pull _ _ _ _ _ Hi Hh)) as Hnd. cbn [feet mbind list_bind] in Hnd. by apply NoDup_app in Hnd as [? _]. }
    cbn in Hnd. apply NoDup_cons in Hnd as [Hnf _].
    eapply holds_update; [exact Hh|exact Hi|done| |done|done|].
    + intros a Ha. cbn. rewrite lookup_insert_ne; [done|]. cbn in Ha. set_solver.
    + cbn. rewrite lookup_insert_eq. split; [split_and!; [done| |]|].
      * eapply sub_ok_frame, Hs. intros a Ha. cbn. rewrite lookup_insert_ne; [done|set_solver].
      * eapply seg_ok_frame, Hk. intros a Ha. cbn. rewrite lookup_insert_ne; [done|set_solver].
      * rewrite Hr. unfold outer. by destruct (last (f :: K)) eqn:El; [|apply last_None in El].
Qed.

Lemma run_rotate F l s i j k K old new c c0 d x y pc x' y' :
  holds F l s -> l !! i = Some (Pt old (mkd d (up K + cbit c0) x y)) -> l !! j = Some (Pt new (mkd d pc x' y')) ->
  l !! k = Some (Ctx K old) -> i <> j -> i <> k -> j <> k -> 
  let l' := <[i := Pt old (mkd d (new + cbit c) x y)]> (<[j := Pt new (mkd d (up K + cbit c0) x' y')]> l) in
  forallb not_ctx (delete k l') = true ->
  exists s', __rb_rotate_set_parents old new (cbit c) s = Ok s' /\ holds F (<[k := Ctx K new]> l') s'.
Proof.
  intros Hh Hi Hj Hk Hij Hik Hjk l' Hn. unfold __rb_rotate_set_parents.
  assert (Hup : good0 (up K)) by (eapply ctx_up_good; [exact Hh|exact Hk]).
  rewrite (run_rb_parent _ _ _ Hh _ _ _ _ _ _ _ Hi Hup). cbn [res_bind]. rewrite (run_get _ _ _ Hh _ _ _ Hi). cbn [res_bind]. rewrite mkd_pc.
  destruct (run_set_pc _ _ _ Hh (up K + cbit c0) _ _ _ _ _ _ Hj) as (s1 & -> & H1). cbn [res_bind].
  assert (Hgn : good0 new) by (right; eapply holds_pt_good; [exact Hh|exact Hj]).
  destruct (run_color _ _ _ H1 new c i old d (up K + cbit c0) x y) as (s2 & -> & H2); [by rewrite list_lookup_insert_ne|done|]. cbn [res_bind].
  assert (Hli : (i < length l)%nat) by (by eapply lookup_lt_Some).
  destruct (run_change_child _ _ _ k K old new i (Pt old (mkd d (new + cbit c) x y)) H2) as (s3 & -> & H3).
  - by rewrite !list_lookup_insert_ne.
  - rewrite list_lookup_insert_eq; [done|]. by rewrite length_insert.
  - done.
  - by apply list_elem_of_singleton.
  - done.
  - by exists s3.
Qed.

Ltac pt_index a l :=
  lazymatch l with
  | Pt a ?n :: _ => constr:((0%nat, n))
  | _ :: ?t => lazymatch pt_index a t with (?i, ?n) => constr:((S i, n)) end
  end.
Ltac sub_index t l :=
  lazymatch l with
  | Sub ?p t :: _ => constr:((0%nat, p))
  | _ :: ?r => lazymatch sub_index t r with (?i, ?p) => constr:((S i, p)) end
  end.
Ltac ctx_index l :=
  lazymatch l with
  | Ctx ?K ?p :: _ => constr:((0%nat, K))
  | _ :: ?r => lazymatch ctx_index r with (?i, ?K) => constr:((S i, K)) end
  end.

Ltac parts_simpl H :=
  cbn [insert list_insert delete list_delete] in H;
  rewrite ?mkd_with_child, ?mkd_with_child_other, ?mkd_L_with_R in H.

Ltac run_simpl := cbn [res_bind]; rewrite ?res_bind_assoc, ?mkd_child, ?mkd_child_other, ?mkd_L_R, ?mkd_pc.

(** Alignment of the addresses that occur in the parts. *)
Ltac is_good H :=
  lazymatch type of H with
  | holds _ ?l _ =>
      lazymatch goal with
      | |- good0 0 => by left
      | |- good0 (up_from 0 ?K) => lazymatch ctx_index l with (?i, _) => exact (ctx_up_good _ _ i _ _ _ H eq_refl) end
      | |- good0 ?a => right; lazymatch pt_index a l with (?i, _) => exact (holds_pt_good _ _ i _ _ _ H eq_refl) end
      end
  end.

Ltac after_store H :=
  let s' := fresh "s" in let H' := fresh "H" in
  intros (s' & -> & H'); clear H; parts_simpl H'; run_simpl; rename H' into H.

(** One primitive of the goal, with the parts in [H]. *)
Ltac run H :=
  lazymatch type of H with
  | holds ?F ?l ?s =>
      lazymatch goal with
      | |- exists s', res_bind ?m _ = @?r s' /\ @?P s' =>
      lazymatch m with
      | get_child ?d ?a s => lazymatch pt_index a l with (?i, ?n) => rewrite (run_get_child _ _ _ H d i a n eq_refl) end; run_simpl
      | get ?a s => lazymatch pt_index a l with (?i, ?n) => rewrite (run_get _ _ _ H i a n eq_refl) end; run_simpl
      | set_pc (ptr ?t) (?p + cbit ?c) s => lazymatch sub_index t l with (?i, ?q) => generalize (run_pc_sub _ _ _ H p c i q t eq_refl ltac:(done)) end; after_store H
      | set_pc ?a ?v s => lazymatch pt_index a l with (?i, mkd ?d ?pc ?x ?y) => generalize (run_set_pc _ _ _ H v i a d pc x y eq_refl) end; after_store H
      | __rb_change_child ?old ?new (up_from 0 ?K) s =>
          lazymatch pt_index old l with (?j, ?n) =>
          lazymatch ctx_index l with (?i, _) =>
            generalize (run_change_child _ _ _ i K old new j (Pt old n) H eq_refl eq_refl ltac:(done) (list_elem_of_here old []) eq_refl)
          end end; after_store H
      | set_child ?d ?a ?v s => lazymatch pt_index a l with (?i, ?n) => generalize (run_set_child _ _ _ H d v i a n eq_refl) end; after_store H
      | and_red (ptr ?t) s => lazymatch sub_index t l with (?i, ?p) => rewrite (run_and_red _ _ _ H i p t eq_refl) by is_good H end; run_simpl
      | null_or_black (ptr ?t) s => lazymatch sub_index t l with (?i, ?p) => rewrite (run_null_or_black _ _ _ H i p t eq_refl) by is_good H end; run_simpl
      | rb_is_red (ptr ?t) s => lazymatch sub_index t l with (?i, ?p) => rewrite (run_red_sub _ _ _ H i p t eq_refl) by (done || is_good H) end; run_simpl
      | rb_parent ?a s => lazymatch pt_index a l with (?i, mkd ?d (?p + cbit ?c) ?x ?y) => rewrite (run_rb_parent _ _ _ H i a d p c x y eq_refl) by is_good H end; run_simpl
      | rb_red_parent ?a s => lazymatch pt_index a l with (?i, mkd ?d (?p + cbit Red) ?x ?y) => rewrite (run_red_parent _ _ _ H i a d p x y eq_refl) end; run_simpl
      | rb_is_red ?a s => lazymatch pt_index a l with (?i, mkd ?d (?p + cbit ?c) ?x ?y) => rewrite (run_is_red _ _ _ H i a d p c x y eq_refl) by is_good H end; run_simpl
      | rb_is_black ?a s => lazymatch pt_index a l with (?i, mkd ?d (?p + cbit ?c) ?x ?y) => rewrite (run_is_black _ _ _ H i a d p c x y eq_refl) by is_good H end; run_simpl
      | if_node (ptr ?t) (rb_set_parent_color (ptr ?t) ?p (cbit ?c)) s =>
          lazymatch sub_index t l with (?i, ?q) => generalize (run_if_color _ _ _ H p c i q t eq_refl ltac:(is_good H)) end; after_store H
      | if_node (ptr ?t) (rb_set_parent (ptr ?t) ?p) s =>
          lazymatch sub_index t l with (?i, ?q) => generalize (run_if_parent _ _ _ H p i q t eq_refl ltac:(is_good H) ltac:(is_good H)) end; after_store H
      | rb_set_parent_color (ptr ?t) ?p (cbit ?c) s =>
          lazymatch sub_index t l with (?i, ?q) => generalize (run_color_sub _ _ _ H p c i q t eq_refl ltac:(done) ltac:(is_good H)) end; after_store H
      | rb_set_parent (ptr ?t) ?p s =>
          lazymatch sub_index t l with (?i, ?q) => generalize (run_parent_sub _ _ _ H p i q t eq_refl ltac:(done) ltac:(is_good H) ltac:(is_good H)) end; after_store H
      | rb_set_parent_color ?a ?p (cbit ?c) s =>
          lazymatch pt_index a l with (?i, mkd ?d ?pc ?x ?y) => generalize (run_color _ _ _ H p c i a d pc x y eq_refl ltac:(is_good H)) end; after_store H
      | __rb_rotate_set_parents ?old ?new (cbit ?c) s =>
          lazymatch pt_index old l with (?i, mkd ?d (_ + cbit ?c0) ?x ?y) =>
          lazymatch pt_index new l with (?j, mkd _ ?pc ?x' ?y') =>
          lazymatch ctx_index l with (?k, ?K) =>
            generalize (run_rotate _ _ _ i j k K old new c c0 d x y pc x' y' H eq_refl eq_refl eq_refl ltac:(done) ltac:(done) ltac:(done) eq_refl)
          end end end; after_store H
      end end
  end.

(** The parts in another order. *)
Ltac arrange H l := apply (holds_perm _ _ l) in H; [|cbn [app]; perm].
Ltac goal_arrange l := apply (holds_perm _ l); [cbn [app]; perm|].

(** ** Segments of a path *)

Lemma seg_ok_snoc s par K g p :
  seg_ok s par (K ++ [g]) p <->
  seg_ok s (f_addr g) K p /\ nodes s !! f_addr g = Some (frame_node par g (outer K p)) /\ sub_ok s (f_addr g) (f_sib g).
Proof.
  revert p. induction K as [|f K IH]; intros p; cbn [app seg_ok].
  - cbn [up_from]. unfold outer. cbn. tauto.
  - rewrite IH. assert (E1 : up_from par (K ++ [g]) = up_from (f_addr g) K) by (by destruct K). rewrite E1.
    assert (E2 : outer (f :: K) p = outer K (f_addr f)) by (unfold outer; rewrite last_cons; by destruct (last K)). rewrite E2. tauto.
Qed.

Lemma outer_snoc K g p : outer (K ++ [g]) p = f_addr g.
Proof. unfold outer. by rewrite last_snoc. Qed.

Lemma outer_any K p q : K <> [] -> outer K p = outer K q.
Proof. intros HK. unfold outer. destruct (last K) eqn:El; [done|]. by apply last_None in El. Qed.

Lemma holds_seg_nil F par p l s : holds F (Seg par [] p :: l) s <-> holds F l s.
Proof. split; [apply (holds_replace _ [_] [])|apply (holds_replace _ [] [_])]; try done; intros _; by repeat constructor. Qed.

Lemma split_seg F par f K p l s :
  holds F (Seg par (f :: K) p :: l) s <->
  holds F (Pt (f_addr f) (frame_node (up_from par K) f p) :: Sub (f_addr f) (f_sib f) :: Seg par K (f_addr f) :: l) s.
Proof.
  assert (Hf : feet [Seg par (f :: K) p] ≡ₚ feet [Pt (f_addr f) (frame_node (up_from par K) f p); Sub (f_addr f) (f_sib f); Seg par K (f_addr f)]).
  { cbn. rewrite !app_nil_r. done. }
  split; [apply (holds_replace _ [_] [_; _; _])|apply (holds_replace _ [_; _; _] [_])]; try done;
    rewrite Forall_singleton, Forall_3; cbn [part_ok seg_ok]; tauto.
Qed.

(** A subtree with a path into it. *)
Lemma split_plug F par K t l s : holds F (Sub par (plug K t) :: l) s <-> holds F (Seg par K (ptr t) :: Sub (up_from par K) t :: l) s.
Proof.
  revert t. induction K as [|f K IH]; intros t; cbn [plug].
  - by rewrite holds_seg_nil.
  - rewrite IH, split_seg. unfold join at 1. rewrite ptr_Td. cbn [up_from]. split; intros H.
    + apply (holds_perm _ _ (Sub (up_from par K) (join f t) :: Seg par K (f_addr f) :: l)) in H; [|apply Permutation_swap].
      unfold join in H. apply split_node in H. revert H. apply holds_perm. unfold frame_node. perm.
    + apply (holds_perm _ (Sub (up_from par K) (join f t) :: Seg par K (f_addr f) :: l)); [apply Permutation_swap|].
      unfold join. apply split_node. revert H. apply holds_perm. unfold frame_node. perm.
Qed.

(** A segment below a node and the path above it. *)
Lemma join_ctx F K f K' p l s :
  holds F (Seg (f_addr f) K p :: Ctx (f :: K') (outer K p) :: l) s <-> holds F (Ctx (K ++ f :: K') p :: l) s.
Proof.
  revert p l. induction K as [|g K IH]; intros p l; cbn [app].
  - unfold outer. cbn. apply holds_seg_nil.
  - rewrite split_ctx, split_seg. assert (Eo : outer (g :: K) p = outer K (f_addr g)) by (unfold outer; rewrite last_cons; by destruct (last K)).
    rewrite Eo. assert (Eu : up (K ++ f :: K') = up_from (f_addr f) K) by (by destruct K). rewrite Eu. split; intros H.
    + apply (holds_perm _ (Ctx (K ++ f :: K') (f_addr g) :: Pt (f_addr g) (frame_node (up_from (f_addr f) K) g p) :: Sub (f_addr g) (f_sib g) :: l)); [perm|].
      apply IH. revert H. apply holds_perm. perm.
    + apply (holds_perm _ _ (Ctx (K ++ f :: K') (f_addr g) :: Pt (f_addr g) (frame_node (up_from (f_addr f) K) g p) :: Sub (f_addr g) (f_sib g) :: l)) in H; [|perm].
      apply IH in H. revert H. apply holds_perm. perm.
Qed.

(** A new parent for the top of a segment. *)
Lemma run_seg_parent F l s i par K p y :
  holds F l s -> l !! i = Some (Seg par K p) -> K <> [] -> good0 par -> good0 y ->
  exists s', rb_set_parent (outer K p) y s = Ok s' /\ holds F (<[i := Seg y K p]> l) s'.
Proof.
  intros Hh Hi HK Hp Hy. destruct K as [|g K _] using rev_ind; [done|]. rewrite outer_snoc.
  pose proof (holds_ok _ _ _ _ _ Hh Hi) as Ho. cbn in Ho. apply seg_ok_snoc in Ho as (Hs & Hg & Hsib).
  unfold rb_set_parent, rb_color, set_pc, get. rewrite Hg. cbn [deref res_bind]. unfold frame_node. rewrite mkd_pc, mkd_set_pc, pc_color, Z.lor_comm, pc_lor by done.
  eexists. split; [done|].
  assert (Hnd : NoDup (foot (Seg par (K ++ [g]) p))).
  { pose proof (h_nodup _ _ _ (holds_pull _ _ _ _ _ Hi Hh)) as Hnd. cbn [feet mbind list_bind] in Hnd. by apply NoDup_app in Hnd as [? _]. }
  cbn [foot] in Hnd. rewrite bind_app in Hnd. apply NoDup_app in Hnd as (_ & Hd & Hnd). cbn in Hd, Hnd. rewrite app_nil_r in Hd, Hnd. apply NoDup_cons in Hnd as [Hn _].
  eapply holds_update; [exact Hh|exact Hi|done| |done|done|].
  - intros a Ha. cbn in Ha |- *. rewrite lookup_insert_ne; [done|]. rewrite bind_app in Ha. cbn in Ha. set_solver.
  - cbn [part_ok]. apply seg_ok_snoc. split_and!.
    + eapply seg_ok_frame, Hs. intros a Ha. cbn. rewrite lookup_insert_ne; [done|]. intros <-. apply (Hd _ Ha). set_solver.
    + cbn. apply lookup_insert_eq.
    + eapply sub_ok_frame, Hsib. intros a Ha. cbn. rewrite lookup_insert_ne; [done|]. set_solver.
Qed.

(** ** Adding a node, and counting *)

Lemma holds_add F l s x n : holds F l s -> good x -> x ∉ feet l -> holds F (Pt x n :: l) (put x n s).
Proof.
  intros [H1 H2 H3 H4 H5] Hx Hn. split; cbn [feet mbind list_bind foot app].
  - by apply NoDup_cons.
  - intros a [->|Ha]%elem_of_cons; [done|by apply H2].
  - constructor; [cbn; apply lookup_insert_eq|]. apply Forall_forall. intros y Hy. rewrite Forall_forall in H3.
    apply (part_ok_frame s); [|done|by apply H3]. intros a Ha. cbn. rewrite lookup_insert_ne; [done|]. intros <-. apply Hn.
    apply list_elem_of_bind. by exists y.
  - intros a Ha. cbn. apply not_elem_of_cons in Ha as [Ha1 Ha2]. rewrite lookup_insert_ne by done. by apply H4.
  - done.
Qed.

Lemma holds_E F p l s : holds F (Sub p E :: l) s <-> holds F l s.
Proof. split; [apply (holds_replace _ [_] [])|apply (holds_replace _ [] [_])]; try done; intros _; by repeat constructor. Qed.

(** A node that no longer belongs to a tree. *)
Lemma holds_drop F F' x n l s : nodes F' = nodes s -> leftmost F' = leftmost s -> holds F (Pt x n :: l) s -> holds F' l s.
Proof.
  intros En El [H1 H2 H3 H4 H5]. cbn [feet mbind list_bind foot app] in *. apply NoDup_cons in H1 as [_ H1]. apply Forall_cons in H3 as [_ H3].
  split; [done| |done|by intros a _; rewrite En|done]. intros a Ha. apply H2. by right.
Qed.

Lemma sub_ok_dom s par t a : sub_ok s par t -> a ∈ inorder t -> is_Some (nodes s !! a).
Proof.
  revert par. induction t as [|c x IHx b y IHy]; intros par; cbn; [set_solver|]. intros (Hb & Hx & Hy).
  rewrite elem_of_app, elem_of_cons. intros [?|[->|?]]; eauto.
Qed.

Lemma seg_ok_dom s par K p a : seg_ok s par K p -> a ∈ K ≫= frame_foot -> is_Some (nodes s !! a).
Proof.
  revert p. induction K as [|f K IH]; intros p; cbn; [set_solver|]. intros (Hb & Hx & Hy).
  rewrite elem_of_cons, elem_of_app. intros [->|[?|?]]; eauto using sub_ok_dom.
Qed.

Lemma holds_dom F l s a : holds F l s -> a ∈ feet l -> is_Some (nodes s !! a).
Proof.
  intros Hh (x & Hx & Ha)%list_elem_of_bind. pose proof (h_ok _ _ _ Hh) as Ho. rewrite Forall_forall in Ho. specialize (Ho x Ha).
  destruct x as [b n|par t|par K p|K p]; cbn in *.
  - apply list_elem_of_singleton in Hx as ->. eauto.
  - eauto using sub_ok_dom.
  - eauto using seg_ok_dom.
  - destruct Ho. eauto using seg_ok_dom.
Qed.

Lemma holds_size F l s : holds F l s -> (length (feet l) <= size (nodes s))%nat.
Proof.
  intros Hh. rewrite <- (size_dom (D := gset Z)), <- (size_list_to_set (C := gset Z) (feet l)) by apply Hh.
  apply subseteq_size. intros a Ha%elem_of_list_to_set. apply elem_of_dom. by eapply holds_dom.
Qed.

Lemma length_ctx K : (length K <= length (K ≫= frame_foot))%nat.
Proof. induction K as [|f K IH]; cbn; [done|]. rewrite length_app. lia. Qed.

Lemma ctx_fuel F l s i K p : holds F l s -> l !! i = Some (Ctx K p) -> (length K < tree_fuel s)%nat.
Proof.
  intros Hh Hi. pose proof (holds_size _ _ _ (holds_pull _ _ _ _ _ Hi Hh)) as Hs. cbn [feet mbind list_bind foot] in Hs.
  rewrite length_app in Hs. pose proof (length_ctx K). unfold tree_fuel. lia.
Qed.
