(* ===== verification/RbtreeProof.v ===== *)
(** * RbtreeProof: insertion and removal keep red-black trees

    [rbt n t]: no red node of [t] has a red child and every path has [n] black nodes;
    [kok n K]: the path [K] is one of a red-black tree with a subtree of [n] black nodes taken
    out. *)

From S2P Require Import Prelude Bits Rbtree RbtreeHeap.

Implicit Types (s F : rb_tree) (f : frame) (K : list frame) (n : nat) (t u : tree).

Fixpoint rbt n t : Prop :=
  match t with
  | E => n = O
  | T Red x _ y => rbt n x /\ rbt n y /\ is_red x = false /\ is_red y = false
  | T Black x _ y => match n with O => False | S m => rbt m x /\ rbt m y end
  end.

Definition rb_valid t : Prop := is_red t = false /\ exists n, rbt n t.

Definition black_top K : Prop := match K with f :: _ => f_color f = Black | [] => False end.

Fixpoint kok n K : Prop :=
  match K with
  | [] => True
  | f :: K =>
      rbt n (f_sib f) /\
      match f_color f with Black => kok (S n) K | Red => is_red (f_sib f) = false /\ black_top K /\ kok n K end
  end.

Lemma rbt_Td_black d n x a y : rbt (S n) (Td d Black x a y) <-> rbt n x /\ rbt n y.
Proof. destruct d; cbn; tauto. Qed.
Lemma rbt_Td_red d n x a y : rbt n (Td d Red x a y) <-> (rbt n x /\ rbt n y) /\ is_red x = false /\ is_red y = false.
Proof. destruct d; cbn; tauto. Qed.
Lemma is_red_Td d c x a y : is_red (Td d c x a y) = bool_decide (c = Red).
Proof. by destruct d, c. Qed.
Lemma set_color_Td d c c' x a y : set_color c (Td d c' x a y) = Td d c x a y.
Proof. by destruct d. Qed.
Lemma set_black_id t : is_red t = false -> set_color Black t = t.
Proof. by destruct t as [|[] ???]. Qed.
Lemma rbt_set_black n t : is_red t = true -> rbt n t -> rbt (S n) (set_color Black t).
Proof. destruct t as [|[] x a y]; cbn; [done| |done]. intros _ (? & ? & _). done. Qed.
Lemma rbt_S_not_E n t : rbt (S n) t -> t <> E.
Proof. by intros ? ->. Qed.
Lemma is_red_set_black t : is_red (set_color Black t) = false.
Proof. by destruct t. Qed.

(** A tree that is not empty, seen from side [d]. *)
Lemma Td_form d t : t <> E -> exists c x a y, t = Td d c x a y.
Proof. destruct t as [|c x a y]; [done|]. intros _. exists c. destruct d; by eexists _, _, _. Qed.

Lemma plug_valid K n t : kok n K -> rbt n t -> (is_red t = false \/ black_top K) -> rb_valid (plug K t).
Proof.
  revert n t. induction K as [|f K IH]; intros n t Hk Ht Hc; cbn [plug kok] in *.
  - destruct Hc as [Hc|[]]. split; [done|by exists n].
  - destruct Hk as [Hs Hk]. unfold join. destruct (f_color f) eqn:Ef; cbn [black_top] in Hc.
    + destruct Hk as (Hr & Hb & Hk). apply (IH n); [done| |by right]. apply rbt_Td_red. destruct Hc; [tauto|congruence].
    + apply (IH (S n)); [done|by apply rbt_Td_black|]. left. by rewrite is_red_Td.
Qed.

Lemma holds_valid_fold F K n t s :
  holds F [Ctx K (ptr t); Sub (up K) t] s -> kok n K -> rbt n t -> (is_red t = false \/ black_top K) ->
  exists t', holds F [Ctx [] (ptr t'); Sub 0 t'] s /\ rb_valid t' /\ inorder t' = inorder (plug K t).
Proof. intros Hh Hk Ht Hc. exists (plug K t). split_and!; [by apply fold_ctx|by eapply plug_valid|done]. Qed.

(** ** Insertion *)

Lemma plug_inorder K t t' : inorder t = inorder t' -> inorder (plug K t) = inorder (plug K t').
Proof.
  revert t t'. induction K as [|f K IH]; intros t t' E; cbn; [done|]. apply IH. unfold join. destruct (f_side f); cbn; by rewrite E.
Qed.

(** Two trees with the same nodes in order. *)
Ltac same_order := cbn; repeat (rewrite <- app_assoc; cbn); reflexivity.

Ltac unfold_steps := unfold insert_flip, insert_inner, insert_outer, erase_rotate, erase_flip, erase_inner, erase_outer;
  change RB_RED with (cbit Red); change RB_BLACK with (cbit Black); rewrite ?res_bind_assoc.

Lemma ptr_set_color c t : ptr (set_color c t) = ptr t.
Proof. by destruct t. Qed.

(** Folds the part of a node with subtrees of the shape [t]. *)
Ltac fold_node par t rest := goal_arrange (Sub par t :: rest); apply split_node; rewrite ?ptr_Td, ?ptr_set_color.

(** A node [X] whose parent [p] is red, on side [d] of the grandparent [g]; [U] is the uncle. *)
Section step.
Context (F : rb_tree) (d : side) (K : list frame) (x p g : Z) (X S U : tree) (HX : ptr X = x).

Lemma step_flip dp s :
  is_red U = true ->
  holds F [Ctx K g; Pt g (mkd d (up K + cbit Black) p (ptr U)); Sub g U; Pt p (mkd dp (g + cbit Red) x (ptr S)); Sub p X; Sub p S] s ->
  exists s', insert_step d x p g s = Ok (s', Some (g, up K)) /\
    holds F [Ctx K g; Sub (up K) (Td d Red (Td dp Black X p S) g (set_color Black U))] s'.
Proof.
  intros HU H. unfold insert_step. unfold_steps. assert (U <> E) by (by intros ->).
  run H. run H. rewrite HU. cbn [res_bind]. unfold_steps. do 4 run H. eexists. split; [done|].
  fold_node (up K) (Td d Red (Td dp Black X p S) g (set_color Black U)) [Ctx K g].
  fold_node g (Td dp Black X p S) [Pt g (mkd d (up K + cbit Red) p (ptr U)); Sub g (set_color Black U); Ctx K g].
  rewrite HX. revert H. apply holds_perm. perm.
Qed.

Lemma step_outer s :
  is_red U = false -> is_red S = false -> X <> E ->
  holds F [Ctx K g; Pt g (mkd d (up K + cbit Black) p (ptr U)); Sub g U; Pt p (mkd d (g + cbit Red) x (ptr S)); Sub p X; Sub p S] s ->
  exists s', insert_step d x p g s = Ok (s', None) /\ holds F [Ctx K p; Sub (up K) (Td d Black X p (Td d Red S g U))] s'.
Proof.
  intros HU HS HE H. unfold insert_step.
  assert (Hne : (x =? ptr S) = false).
  { apply Z.eqb_neq. rewrite <- HX. destruct X as [|c1 l1 a1 r1]; [done|]. destruct S as [|c2 l2 a2 r2]; cbn.
    - destruct (holds_good _ _ 4 _ a1 _ H eq_refl); [cbn; set_solver|lia].
    - eapply (parts_differ _ _ _ H 4 5); [done|done|done|cbn; set_solver|cbn; set_solver]. }
  run H. run H. rewrite HU. cbn [res_bind]. run H. rewrite Hne. cbn [res_bind]. unfold_steps. do 4 run H.
  rewrite (set_black_id S) in H by done. eexists. split; [done|].
  fold_node (up K) (Td d Black X p (Td d Red S g U)) [Ctx K p]. rewrite HX.
  fold_node p (Td d Red S g U) [Pt p (mkd d (up K + cbit Black) x g); Sub p X; Ctx K p]. revert H. apply holds_perm. perm.
Qed.

Lemma step_inner A B s :
  is_red U = false -> is_red A = false -> is_red B = false -> X = Td d Red A x B ->
  holds F [Ctx K g; Pt g (mkd d (up K + cbit Black) p (ptr U)); Sub g U; Pt p (mkd d (g + cbit Red) (ptr S) x); Sub p X; Sub p S] s ->
  exists s', insert_step d x p g s = Ok (s', None) /\ holds F [Ctx K x; Sub (up K) (Td d Black (Td d Red S p A) x (Td d Red B g U))] s'.
Proof.
  intros HU HA HB EX H. rewrite EX in H.
  arrange H [Sub p (Td d Red A x B); Ctx K g; Pt g (mkd d (up K + cbit Black) p (ptr U)); Sub g U; Pt p (mkd d (g + cbit Red) (ptr S) x); Sub p S].
  apply split_node in H. unfold insert_step. run H. run H. rewrite HU. cbn [res_bind]. run H. rewrite Z.eqb_refl. unfold_steps.
  do 10 run H. rewrite (set_black_id A), (set_black_id B) in H by done. eexists. split; [done|].
  fold_node (up K) (Td d Black (Td d Red S p A) x (Td d Red B g U)) [Ctx K x].
  fold_node x (Td d Red S p A) [Pt x (mkd d (up K + cbit Black) p g); Sub x (Td d Red B g U); Ctx K x].
  fold_node x (Td d Red B g U) [Pt x (mkd d (up K + cbit Black) p g); Pt p (mkd d (x + cbit Red) (ptr S) (ptr A)); Sub p S; Sub p A; Ctx K x].
  revert H. apply holds_perm. perm.
Qed.
End step.

Lemma up_cons f K : up (f :: K) = f_addr f.
Proof. done. Qed.

(** Which child of the grandparent the parent is. *)
Lemma which_side F l s i j d pc p t a x :
  holds F l s -> l !! i = Some (Sub a t) -> l !! j = Some x -> i <> j -> p ∈ foot x ->
  (if negb (p =? child R (mkd d pc p (ptr t))) then L else R) = d.
Proof.
  intros Hh Hi Hj Hij Hp. destruct d; cbn [child mkd rb_right]; [|by rewrite Z.eqb_refl].
  rewrite (proj2 (Z.eqb_neq _ _)); [done|]. intros ->. destruct t as [|c t1 b t2].
  - apply (holds_good _ _ _ _ _ _ Hh Hj) in Hp as [? _]. cbn in *. lia.
  - eapply (parts_differ _ _ _ Hh i j); [done|done|done| |exact Hp|done]. cbn. set_solver.
Qed.

(** A red node seen from side [d]. *)
Lemma red_from d dx n A x B :
  rbt n A -> rbt n B -> is_red A = false -> is_red B = false ->
  exists A' B', Td dx Red A x B = Td d Red A' x B' /\ rbt n A' /\ rbt n B' /\ is_red A' = false /\ is_red B' = false.
Proof. intros. destruct (decide (dx = d)) as [->|Hd]; [by exists A, B|]. exists B, A. split_and!; try done. by destruct dx, d. Qed.

(** The step for a red node [X] under a red parent: the loop goes on two levels up with a red
    node, or the tree is in order. *)
Lemma insert_step_ok F d df K n x p g X S U s :
  ptr X = x -> rbt n X -> is_red X = true -> rbt n S -> is_red S = false -> rbt n U -> kok (Datatypes.S n) K ->
  holds F [Ctx K g; Pt g (mkd d (up K + cbit Black) p (ptr U)); Sub g U; Pt p (mkd df (g + cbit Red) x (ptr S)); Sub p X; Sub p S] s ->
  exists s' next, insert_step d x p g s = Ok (s', next) /\
    let whole := plug K (Td d Black (Td df Red X p S) g U) in
    match next with
    | Some (x', p') => x' = g /\ p' = up K /\ exists A B, holds F [Ctx K g; Sub (up K) (Td d Red A g B)] s' /\ rbt (Datatypes.S n) A /\ rbt (Datatypes.S n) B /\
        is_red A = false /\ is_red B = false /\ inorder (plug K (Td d Red A g B)) = inorder whole
    | None => exists t', holds F [Ctx [] (ptr t'); Sub 0 t'] s' /\ rb_valid t' /\ inorder t' = inorder whole
    end.
Proof.
  intros HX HnX HrX HS HSr HU HK H. assert (HXE : X <> E) by (by intros ->). destruct (is_red U) eqn:EU.
  - destruct (step_flip F d K x p g X S U HX df s EU H) as (s' & -> & H'). eexists _, _. split; [done|]. cbn. split_and!; [done|done|].
    exists (Td df Black X p S), (set_color Black U). split_and!; [done|by apply rbt_Td_black|by apply rbt_set_black|by rewrite is_red_Td|apply is_red_set_black|].
    apply plug_inorder. destruct d, df, U; done.
  - destruct (decide (df = d)) as [->|Hd].
    + destruct (step_outer F d K x p g X S U HX s EU HSr HXE H) as (s' & -> & H'). eexists _, _. split; [done|]. cbn.
      destruct (holds_valid_fold F K (Datatypes.S n) (Td d Black X p (Td d Red S g U)) s') as (t' & Ht & Hv & Hi).
      * by rewrite ptr_Td.
      * done.
      * apply rbt_Td_black. split; [done|]. by rewrite rbt_Td_red.
      * left. by rewrite is_red_Td.
      * exists t'. split_and!; [done|done|]. rewrite Hi. apply plug_inorder. destruct d; same_order.
    + assert (df = other d) as -> by (by destruct df, d). rewrite mkd_other in H.
      assert (HXd : exists A B, X = Td d Red A x B /\ rbt n A /\ rbt n B /\ is_red A = false /\ is_red B = false).
      { destruct X as [|[] A a B]; try done. cbn in HX, HnX. subst a. apply (red_from d L); tauto. }
      destruct HXd as (A & B & EX & HA & HB & HAr & HBr).
      destruct (step_inner F d K x p g X S U A B s EU HAr HBr EX H) as (s' & -> & H'). eexists _, _. split; [done|]. cbn.
      destruct (holds_valid_fold F K (Datatypes.S n) (Td d Black (Td d Red S p A) x (Td d Red B g U)) s') as (t' & Ht & Hv & Hi).
      * by rewrite ptr_Td.
      * done.
      * apply rbt_Td_black. by rewrite !rbt_Td_red.
      * left. by rewrite is_red_Td.
      * exists t'. split_and!; [done|done|]. rewrite Hi, EX. apply plug_inorder. destruct d; same_order.
Qed.

Lemma insert_loop_ok F : forall fuel K d x A B s n,
  holds F [Ctx K x; Sub (up K) (Td d Red A x B)] s -> rbt n A -> rbt n B -> is_red A = false -> is_red B = false -> kok n K ->
  (length K < fuel)%nat ->
  exists s', insert_loop fuel x (up K) s = Ok s' /\
    exists t', holds F [Ctx [] (ptr t'); Sub 0 t'] s' /\ rb_valid t' /\ inorder t' = inorder (plug K (Td d Red A x B)).
Proof.
  induction fuel as [|fuel IH]; intros K dx x A B s n H HA HB HAr HBr HK Hf; [lia|]. cbn [insert_loop].
  destruct K as [|[df cf p S] K].
  { cbn [up_from] in *. rewrite Z.eqb_refl. change RB_BLACK with (cbit Black).
    arrange H [Sub 0 (Td dx Red A x B); Ctx [] x]. apply split_node in H.
    destruct (run_color _ _ _ H 0 Black 0%nat x dx _ _ _ eq_refl) as (s' & -> & H'); [by left|]. cbn [insert list_insert] in H'.
    exists s'. split; [done|]. exists (Td dx Black A x B). rewrite ptr_Td. split_and!.
    - fold_node 0 (Td dx Black A x B) [Ctx [] x]. done.
    - split; [by rewrite is_red_Td|]. exists (Datatypes.S n). by apply rbt_Td_black.
    - by destruct dx. }
  rewrite up_cons in *. cbn [f_addr] in *. set (X := Td dx Red A x B) in *. assert (HX : ptr X = x) by apply ptr_Td.
  assert (HnX : rbt n X /\ is_red X = true) by (unfold X; rewrite rbt_Td_red, is_red_Td; done). destruct HnX as [HnX HrX].
  pose proof H as H0. apply split_ctx in H. cbn [f_addr f_sib] in H. unfold frame_node in H. cbn [f_side f_color f_sib] in H.
  assert (Hgp : good p) by (eapply (holds_pt_good _ _ 0); [exact H|done]). rewrite (good_not_0 p) by done.
  assert (Hup : good0 (up K)) by (eapply (ctx_up_good _ _ 2); [exact H|done]).
  rewrite (run_is_black _ _ _ H 0%nat _ _ _ _ _ _ eq_refl Hup). cbn [res_bind]. destruct cf.
  2: { rewrite bool_decide_true by done. exists s. split; [done|]. rewrite <- HX in H0. eapply holds_valid_fold; [exact H0|done|done|by right]. }
  rewrite bool_decide_false by done. cbn in HK. destruct HK as (HS & HSr & Htop & HK). destruct K as [|[d cg g U] K]; [done|]. cbn in Htop. subst cg.
  cbn in HK. destruct HK as [HU HK]. cbn [length] in Hf. rewrite up_cons in *. cbn [f_addr] in *.
  arrange H [Ctx (mk_frame d Black g U :: K) p; Pt p (mkd df (g + cbit Red) x (ptr S)); Sub p S; Sub p X].
  apply split_ctx in H. unfold frame_node in H. cbn [f_addr f_sib f_side f_color] in H.
  arrange H [Ctx K g; Pt g (mkd d (up K + cbit Black) p (ptr U)); Sub g U; Pt p (mkd df (g + cbit Red) x (ptr S)); Sub p X; Sub p S].
  run H. rewrite (run_get_child _ _ _ H R 1%nat _ _ eq_refl). cbn [res_bind].
  rewrite (which_side _ _ _ 2%nat 3%nat _ _ _ _ _ _ H eq_refl eq_refl) by (done || by apply list_elem_of_singleton).
  destruct (insert_step_ok F d df K n x p g X S U s HX HnX HrX HS HSr HU HK H) as (s' & next & -> & Hnext). cbn [res_bind].
  destruct next as [[x' p']|]; [|by exists s'].
  destruct Hnext as (-> & -> & A' & B' & H' & HA' & HB' & HAr' & HBr' & Ho).
  destruct (IH K d g A' B' s' (Datatypes.S n) H' HA' HB' HAr' HBr' HK) as (s2 & E2 & t' & Ht & Hv & Hi); [lia|].
  exists s2. split; [done|]. exists t'. split_and!; [done|done|]. by rewrite Hi.
Qed.

(** ** rb_link_node and rb_insert_color *)

(** The state holds the tree [t], and all other nodes are as in [F]. *)
Definition tree_in F t s : Prop := holds F [Ctx [] (ptr t); Sub 0 t] s.

(** What is before and after a place in order. *)
Fixpoint before K : list Z :=
  match K with [] => [] | f :: K => before K ++ match f_side f with L => [] | R => inorder (f_sib f) ++ [f_addr f] end end.
Fixpoint after K : list Z :=
  match K with [] => [] | f :: K => match f_side f with L => f_addr f :: inorder (f_sib f) | R => [] end ++ after K end.

Lemma inorder_plug K t : inorder (plug K t) = before K ++ inorder t ++ after K.
Proof.
  revert t. induction K as [|f K IH]; intros t; cbn [plug before after]; [by rewrite app_nil_r|].
  rewrite IH. unfold join. destruct (f_side f); cbn [Td inorder]; rewrite <- ?app_assoc; cbn [app]; by rewrite <- ?app_assoc.
Qed.

Lemma foot_in_order K a : a ∈ K ≫= frame_foot -> a ∈ before K ++ after K.
Proof.
  induction K as [|f K IH]; cbn; [done|]. unfold frame_foot. rewrite elem_of_cons, elem_of_app. intros [->|[Ha|Ha]];
    [..|specialize (IH Ha)]; destruct (f_side f); set_solver.
Qed.

Lemma valid_unplug K t : rb_valid (plug K t) -> exists n, kok n K /\ rbt n t /\ (is_red t = false \/ black_top K).
Proof.
  revert t. induction K as [|f K IH]; intros t Hv; cbn [plug] in Hv.
  - destruct Hv as [Hr [n Hn]]. exists n. split_and!; [done|done|by left].
  - apply IH in Hv as (n & Hk & Hn & Hc). unfold join in Hn, Hc. rewrite is_red_Td in Hc. cbn [kok black_top]. destruct (f_color f) eqn:Ef.
    + apply rbt_Td_red in Hn as ([Hn1 Hn2] & Hr1 & Hr2). exists n. split_and!; try done; [|by left]. by destruct Hc as [?|?].
    + destruct n as [|n]; [by destruct (f_side f)|]. apply rbt_Td_black in Hn as [? ?]. exists n. split_and!; try done. by right.
Qed.

Definition link_of K : option side := match K with [] => None | f :: _ => Some (f_side f) end.

Lemma frame_with_child par f p q : with_child (f_side f) q (frame_node par f p) = frame_node par f q.
Proof. unfold frame_node. apply mkd_with_child. Qed.

Lemma link_ok F K x s :
  holds F [Ctx K 0] s -> good x -> x ∉ feet [Ctx K 0] ->
  exists s', rb_link_node x (up K) (link_of K) s = Ok s' /\ holds F [Ctx K x; Sub (up K) (Td L Red E x E)] s'.
Proof.
  intros Hh Hx Hn. assert (H : holds F [Pt x (mk_rb (up K) 0 0); Ctx K 0] (put x (mk_rb (up K) 0 0) s)) by (by apply holds_add).
  assert (Hlink : exists s', rb_link_node x (up K) (link_of K) s = Ok s' /\ holds F [Pt x (mk_rb (up K) 0 0); Ctx K x] s').
  { unfold rb_link_node. destruct K as [|f K]; cbn [link_of].
    - eexists. split; [done|]. by apply (run_set_root _ _ _ H 1 0 x).
    - rewrite up_cons in *. arrange H [Ctx (f :: K) 0; Pt x (mk_rb (f_addr f) 0 0)]. apply split_ctx in H.
      destruct (run_set_child _ _ _ H (f_side f) x 0 _ _ eq_refl) as (s' & E & H'). exists s'. split; [done|].
      cbn [insert list_insert] in H'. rewrite frame_with_child in H'.
      goal_arrange [Ctx (f :: K) x; Pt x (mk_rb (f_addr f) 0 0)]. by apply split_ctx. }
  destruct Hlink as (s' & Es & H'). exists s'. split; [done|]. fold_node (up K) (Td L Red E x E) [Ctx K x].
  goal_arrange [Sub x E; Sub x E; Pt x (mkd L (up K + cbit Red) (ptr E) (ptr E)); Ctx K x]. rewrite !holds_E.
  cbn [mkd ptr cbit]. unfold RB_RED. by rewrite Z.add_0_r.
Qed.

Lemma tree_split F K t s : tree_in F (plug K t) s -> holds F [Ctx K (ptr t); Sub (up K) t] s.
Proof. apply unfold_ctx. Qed.

(** Any fuel above the depth of the place is enough. *)
Lemma insert_fuel_ok F K x s :
  tree_in F (plug K E) s -> rb_valid (plug K E) -> good x -> x ∉ inorder (plug K E) ->
  exists s1, rb_link_node x (up K) (link_of K) s = Ok s1 /\ rb_insert_color x s1 = insert_loop (tree_fuel s1) x (up K) s1 /\
    (length K < tree_fuel s1)%nat /\
    forall fuel, (length K < fuel)%nat -> exists s2 t', insert_loop fuel x (up K) s1 = Ok s2 /\
      tree_in F t' s2 /\ rb_valid t' /\ inorder t' = before K ++ x :: after K.
Proof.
  intros Ht Hv Hx Hn. apply tree_split in Ht. arrange Ht [Sub (up K) E; Ctx K (ptr E)]. rewrite holds_E in Ht. cbn [ptr] in Ht.
  destruct (valid_unplug _ _ Hv) as (n & HK & Hn0 & _). cbn in Hn0. subst n.
  destruct (link_ok F K x s Ht Hx) as (s1 & E1 & H1).
  { intros Hin. apply Hn. rewrite inorder_plug. cbn in Hin. rewrite app_nil_r in Hin. by apply foot_in_order. }
  exists s1. unfold rb_insert_color, __rb_insert. pose proof (ctx_fuel _ _ _ 0 _ _ H1 eq_refl) as Hfuel.
  assert (Hp : rb_red_parent x s1 = Ok (up K)).
  { pose proof H1 as H2. arrange H2 [Sub (up K) (Td L Red E x E); Ctx K x]. apply split_node in H2. by apply (run_red_parent _ _ _ H2 0 x L (up K) 0 0). }
  rewrite Hp. cbn [res_bind]. split_and!; try done. intros fuel Hf.
  destruct (insert_loop_ok F fuel K L x E E s1 0 H1) as (s2 & E2 & t' & Ht' & Hv' & Hi); try done.
  exists s2, t'. split_and!; try done. by rewrite Hi, inorder_plug.
Qed.

Lemma insert_ok F K x s :
  tree_in F (plug K E) s -> rb_valid (plug K E) -> good x -> x ∉ inorder (plug K E) ->
  exists s1 s2 t', rb_link_node x (up K) (link_of K) s = Ok s1 /\ rb_insert_color x s1 = Ok s2 /\
    tree_in F t' s2 /\ rb_valid t' /\ inorder t' = before K ++ x :: after K.
Proof.
  intros Ht Hv Hx Hn. destruct (insert_fuel_ok F K x s Ht Hv Hx Hn) as (s1 & E1 & E2 & Hf & Hrun).
  destruct (Hrun _ Hf) as (s2 & t' & H). exists s1, s2, t'. by rewrite E2.
Qed.
