(* ===== verification/RbtreeErase.v ===== *)
(** * RbtreeErase: removal keeps red-black trees *)

From S2P Require Import Prelude Bits Rbtree RbtreeHeap RbtreeProof.

Implicit Types (s F : rb_tree) (f : frame) (K : list frame) (n : nat) (t u : tree).

(** ** Rebalancing *)

(** The code of [erase_step] after its case 1. *)
Definition erase_rest (d : side) (parent sibling : Z) s : res (rb_tree * option (Z * Z)) :=
  let* tmp1 := get_child (other d) sibling s in
  let* black1 := null_or_black tmp1 s in
  if black1 then
    let* tmp2 := get_child d sibling s in
    let* black2 := null_or_black tmp2 s in
    if black2 then erase_flip parent sibling s
    else
      let* '(s, sibling, tmp1) := erase_inner d parent sibling tmp2 s in
      let* s := erase_outer d parent sibling tmp1 s in
      Ok (s, None)
  else
    let* s := erase_outer d parent sibling tmp1 s in
    Ok (s, None).

(** [t] is one black node short; its parent is [p], of color [c], and its sibling [a] is
    black, with children [A] on the side of [t] and [B]. *)
Section step.
Context (F : rb_tree) (d : side) (K : list frame) (c : color) (q p a : Z) (t A B : tree) (Hq : ptr t = q).

Let parts := [Ctx K p; Pt p (mkd d (up K + cbit c) q a); Pt a (mkd d (p + cbit Black) (ptr A) (ptr B)); Sub a A; Sub a B; Sub p t].

Lemma rest_outer s :
  is_red B = true -> holds F parts s ->
  exists s', erase_rest d p a s = Ok (s', None) /\ holds F [Ctx K a; Sub (up K) (Td d c (Td d Black t p A) a (set_color Black B))] s'.
Proof.
  intros HB H. unfold parts in H. unfold erase_rest. assert (B <> E) by (by intros ->).
  run H. run H. rewrite HB. cbn [negb res_bind]. unfold_steps. do 6 run H. eexists. split; [done|].
  fold_node (up K) (Td d c (Td d Black t p A) a (set_color Black B)) [Ctx K a].
  fold_node a (Td d Black t p A) [Pt a (mkd d (up K + cbit c) p (ptr B)); Sub a (set_color Black B); Ctx K a].
  rewrite Hq. revert H. apply holds_perm. perm.
Qed.

Lemma rest_inner b A1 A2 s :
  is_red B = false -> A = Td d Red A1 b A2 -> is_red A2 = false -> holds F parts s ->
  exists s', erase_rest d p a s = Ok (s', None) /\ holds F [Ctx K b; Sub (up K) (Td d c (Td d Black t p A1) b (Td d Black A2 a B))] s'.
Proof.
  intros HB HA HA2 H. unfold parts in H. unfold erase_rest. run H. run H. rewrite HB. cbn [negb res_bind]. run H. run H.
  rewrite HA in *. rewrite is_red_Td, bool_decide_true by done. rewrite ptr_Td in *. cbn [negb res_bind].
  arrange H [Sub a (Td d Red A1 b A2); Ctx K p; Pt p (mkd d (up K + cbit c) q a); Pt a (mkd d (p + cbit Black) b (ptr B)); Sub a B; Sub p t].
  apply split_node in H. unfold_steps. do 5 run H. cbn [res_bind]. do 6 run H.
  rewrite (set_black_id A2) in H by done. eexists. split; [done|].
  fold_node (up K) (Td d c (Td d Black t p A1) b (Td d Black A2 a B)) [Ctx K b].
  fold_node b (Td d Black t p A1) [Pt b (mkd d (up K + cbit c) p a); Sub b (Td d Black A2 a B); Ctx K b].
  fold_node b (Td d Black A2 a B) [Pt b (mkd d (up K + cbit c) p a); Pt p (mkd d (b + cbit Black) (ptr t) (ptr A1)); Sub p t; Sub p A1; Ctx K b].
  rewrite Hq. revert H. apply holds_perm. perm.
Qed.

Lemma rest_flip s :
  is_red A = false -> is_red B = false -> holds F parts s ->
  exists s', erase_rest d p a s = Ok (s', match c with Red => None | Black => if up K =? 0 then None else Some (p, up K) end) /\
    holds F [Ctx K p; Sub (up K) (Td d Black t p (Td d Red A a B))] s'.
Proof.
  intros HA HB H. unfold parts in H. unfold erase_rest. run H. run H. rewrite HB. cbn [negb res_bind]. run H. run H. rewrite HA. cbn [negb res_bind].
  unfold_steps. run H. run H.
  assert (Hfold : forall s', holds F [Ctx K p; Pt p (mkd d (up K + cbit Black) q a); Pt a (mkd d (p + cbit Red) (ptr A) (ptr B)); Sub a A; Sub a B; Sub p t] s' ->
    holds F [Ctx K p; Sub (up K) (Td d Black t p (Td d Red A a B))] s').
  { intros s' H'. fold_node (up K) (Td d Black t p (Td d Red A a B)) [Ctx K p]. rewrite Hq.
    fold_node p (Td d Red A a B) [Pt p (mkd d (up K + cbit Black) q a); Sub p t; Ctx K p]. revert H'. apply holds_perm. perm. }
  destruct c.
  - rewrite bool_decide_true by done. unfold rb_set_black. rewrite (run_get _ _ _ H 1%nat _ _ eq_refl). cbn [res_bind]. rewrite mkd_pc.
    change (Z.lor (up K + cbit Red) RB_BLACK) with (Z.lor (up K + RB_RED) (cbit Black)). unfold RB_RED. rewrite Z.add_0_r.
    change (set_pc p (Z.lor (up K) (cbit Black))) with (rb_set_parent_color p (up K) (cbit Black)). run H. eexists. split; [done|]. by apply Hfold.
  - rewrite bool_decide_false by done. run H. eexists. split; [done|]. by apply Hfold.
Qed.
End step.

(** What a step leads to: the whole tree is in order, or the node [p] is one black node
    short. *)
Definition step_result F K n p whole s' (next : option (Z * Z)) : Prop :=
  match next with
  | Some (x', p') => x' = p /\ p' = up K /\ K <> [] /\ exists t', ptr t' = p /\ holds F [Ctx K p; Sub (up K) t'] s' /\ rbt (S n) t' /\
      is_red t' = false /\ inorder (plug K t') = inorder whole
  | None => exists t', tree_in F t' s' /\ rb_valid t' /\ inorder t' = inorder whole
  end.

Lemma step_done F K n t s' whole p :
  holds F [Ctx K (ptr t); Sub (up K) t] s' -> kok n K -> rbt n t -> (is_red t = false \/ black_top K) ->
  inorder (plug K t) = inorder whole -> forall m, step_result F K m p whole s' None.
Proof. intros H1 H2 H3 H4 H5 m. destruct (holds_valid_fold _ _ _ _ _ H1 H2 H3 H4) as (t' & ? & ? & ?). exists t'. split_and!; [done|done|congruence]. Qed.

Lemma up_zero F l i K p s : holds F l s -> l !! i = Some (Ctx K p) -> (up K =? 0) = bool_decide (K = []).
Proof.
  intros Hh Hi. destruct K as [|f K]; [done|]. rewrite bool_decide_false by done. apply good_not_0.
  eapply (holds_good _ _ _ _ _ _ Hh Hi). cbn. set_solver.
Qed.

Lemma kok_frame_black n K d c p S A a B :
  kok (Datatypes.S n) (mk_frame d c p S :: K) -> S = Td d Black A a B ->
  rbt n A /\ rbt n B /\ match c with Black => kok (Datatypes.S (Datatypes.S n)) K | Red => black_top K /\ kok (Datatypes.S n) K end.
Proof. intros [HS HK] ->. cbn in HS, HK. apply rbt_Td_black in HS. destruct c; tauto. Qed.

Lemma erase_rest_ok F d K c n q p a t A B s :
  ptr t = q -> rbt n t -> is_red t = false -> kok (S n) (mk_frame d c p (Td d Black A a B) :: K) ->
  holds F [Ctx K p; Pt p (mkd d (up K + cbit c) q a); Pt a (mkd d (p + cbit Black) (ptr A) (ptr B)); Sub a A; Sub a B; Sub p t] s ->
  exists s' next, erase_rest d p a s = Ok (s', next) /\ (c = Red -> next = None) /\ step_result F K n p (plug K (Td d c t p (Td d Black A a B))) s' next.
Proof.
  intros Hq Ht Htr HK H. destruct (kok_frame_black _ _ _ _ _ _ _ _ _ HK eq_refl) as (HA & HB & HK').
  destruct (is_red B) eqn:EB; [|destruct (is_red A) eqn:EA].
  - destruct (rest_outer F d K c q p a t A B Hq s EB H) as (s' & -> & H'). eexists _, None. do 2 (split; [done|]).
    eapply (step_done F K (match c with Red => S n | Black => S (S n) end)); [by rewrite ptr_Td|destruct c; tauto| | |].
    + pose proof (rbt_set_black n B EB HB). destruct c; [rewrite rbt_Td_red|rewrite rbt_Td_black];
        rewrite rbt_Td_black, ?is_red_Td, ?is_red_set_black; done.
    + rewrite is_red_Td. destruct c; [right; tauto|by left].
    + apply plug_inorder. destruct d, B; same_order.
  - assert (HAd : exists b A1 A2, A = Td d Red A1 b A2 /\ rbt n A1 /\ rbt n A2 /\ is_red A1 = false /\ is_red A2 = false).
    { destruct A as [|[] x b y]; try done. cbn in HA. exists b. apply (red_from d L); tauto. }
    destruct HAd as (b & A1 & A2 & EA' & HA1 & HA2 & HA1r & HA2r).
    destruct (rest_inner F d K c q p a t A B Hq b A1 A2 s EB EA' HA2r H) as (s' & -> & H'). eexists _, None. do 2 (split; [done|]).
    eapply (step_done F K (match c with Red => S n | Black => S (S n) end)); [by rewrite ptr_Td|destruct c; tauto| | |].
    + destruct c; [apply rbt_Td_red|apply rbt_Td_black]; rewrite !rbt_Td_black, ?is_red_Td; done.
    + rewrite is_red_Td. destruct c; [right; tauto|by left].
    + apply plug_inorder. rewrite EA'. destruct d; same_order.
  - destruct (rest_flip F d K c q p a t A B Hq s EA EB H) as (s' & -> & H'). eexists _, _. split; [done|]. split; [by intros ->|].
    assert (Hn : rbt (S n) (Td d Black t p (Td d Red A a B))) by (by rewrite rbt_Td_black, rbt_Td_red).
    assert (Hi : inorder (plug K (Td d Black t p (Td d Red A a B))) = inorder (plug K (Td d c t p (Td d Black A a B)))) by (apply plug_inorder; by destruct d).
    destruct c.
    + eapply step_done; [by rewrite ptr_Td|apply HK'|done|right; tauto|done].
    + rewrite (up_zero _ _ 0%nat _ _ _ H' eq_refl). destruct (decide (K = [])) as [->|HKn].
      * rewrite bool_decide_true by done. eapply (step_done F [] (S n)); [by rewrite ptr_Td|done|done|left; by rewrite is_red_Td|done].
      * rewrite bool_decide_false by done. cbn. split_and!; [done|done|done|]. exists (Td d Black t p (Td d Red A a B)).
        rewrite ptr_Td, is_red_Td. split_and!; done.
Qed.

Lemma erase_step_eq d p s :
  erase_step d p s =
    let* sibling := get_child (other d) p s in
    let* red := rb_is_red sibling s in
    let* '(s, sibling) := if red then erase_rotate d p sibling s else Ok (s, sibling) in
    erase_rest d p sibling s.
Proof. done. Qed.

Lemma erase_step_ok F d K c n q p S t s :
  ptr t = q -> rbt n t -> is_red t = false -> kok (Datatypes.S n) (mk_frame d c p S :: K) ->
  holds F [Ctx K p; Pt p (mkd d (up K + cbit c) q (ptr S)); Sub p S; Sub p t] s ->
  exists s' next, erase_step d p s = Ok (s', next) /\ (c = Red -> next = None) /\ step_result F K n p (plug K (Td d c t p S)) s' next.
Proof.
  intros Hq Ht Htr HK H. pose proof HK as [HS HK']. cbn [f_sib f_color] in HS, HK'. pose proof (rbt_S_not_E _ _ HS) as HSE.
  rewrite erase_step_eq. rewrite (run_get_child _ _ _ H (other d) 1%nat _ _ eq_refl). cbn [res_bind]. rewrite mkd_child_other.
  rewrite (run_red_sub _ _ _ H 2%nat p S eq_refl HSE) by is_good H. cbn [res_bind].
  destruct (Td_form d S HSE) as (cs & A & a & B & ->). rewrite ptr_Td in *. rewrite is_red_Td.
  arrange H [Sub p (Td d cs A a B); Ctx K p; Pt p (mkd d (up K + cbit c) q a); Sub p t]. apply split_node in H.
  destruct cs; [|].
  2: { rewrite bool_decide_false by done. cbn [res_bind].
       destruct (erase_rest_ok F d K c n q p a t A B s Hq Ht Htr HK) as (s' & next & E & Hn & Hr); [|by exists s', next].
       revert H. apply holds_perm. perm. }
  rewrite bool_decide_true by done. destruct c; [destruct HK' as [HK' _]; by rewrite is_red_Td in HK'|].
  apply rbt_Td_red in HS as ([HA HB] & HAr & HBr). assert (HAE : A <> E) by (by eapply rbt_S_not_E).
  assert (Hrot : exists s', erase_rotate d p a s = Ok (s', ptr A) /\
    holds F [Ctx (mk_frame d Black a B :: K) p; Pt p (mkd d (a + cbit Red) q (ptr A)); Sub p A; Sub p t] s').
  { unfold_steps. do 5 run H. eexists. split; [done|]. rewrite (set_black_id A) in H by done.
    apply split_ctx. unfold frame_node. cbn [f_addr f_side f_color f_sib]. revert H. apply holds_perm. perm. }
  destruct Hrot as (s1 & -> & H1). cbn [res_bind].
  destruct A as [|[] x b y] eqn:EA; [done|done|]. 
  assert (HAd : exists A' B', A = Td d Black A' b B') by (rewrite EA; destruct d; by eexists _, _). rewrite <- EA in *. clear EA x y. destruct HAd as (A' & B' & ->).
  arrange H1 [Sub p (Td d Black A' b B'); Ctx (mk_frame d Black a B :: K) p; Pt p (mkd d (a + cbit Red) q (ptr (Td d Black A' b B'))); Sub p t].
  apply split_node in H1. rewrite ptr_Td in *.
  destruct (erase_rest_ok F d (mk_frame d Black a B :: K) Red n q p b t A' B' s1 Hq Ht Htr) as (s' & next & E & Hnone & Hr).
  - cbn. split_and!; [done|by rewrite is_red_Td|done|done|done].
  - revert H1. apply holds_perm. cbn [up_from f_addr]. perm.
  - specialize (Hnone eq_refl). subst next. exists s', None. do 2 (split; [done|]). destruct Hr as (t' & ? & ? & Hi). exists t'. split_and!; [done|done|].
    rewrite Hi. cbn [plug]. apply plug_inorder. unfold join. destruct d; same_order.
Qed.

Lemma erase_loop_ok F : forall fuel f K q t s n,
  ptr t = q -> holds F [Ctx (f :: K) q; Sub (f_addr f) t] s -> rbt n t -> is_red t = false -> kok (S n) (f :: K) -> (length K < fuel)%nat ->
  exists s', erase_loop fuel q (f_addr f) s = Ok s' /\ exists t', tree_in F t' s' /\ rb_valid t' /\ inorder t' = inorder (plug (f :: K) t).
Proof.
  induction fuel as [|fuel IH]; intros [d c p S] K q t s n Hq H Ht Htr HK Hf; [lia|]. cbn [erase_loop f_addr] in *.
  apply split_ctx in H. unfold frame_node in H. cbn [f_addr f_sib f_side f_color] in H.
  arrange H [Ctx K p; Pt p (mkd d (up K + cbit c) q (ptr S)); Sub p S; Sub p t].
  rewrite (run_get_child _ _ _ H R 1%nat _ _ eq_refl). cbn [res_bind].
  assert (Hside : (if negb (q =? child R (mkd d (up K + cbit c) q (ptr S))) then L else R) = d).
  { destruct t as [|c0 x b y].
    - cbn in Hq. subst q. destruct d; [|done]. cbn [child mkd rb_right]. destruct HK as [HS _]. cbn in HS. destruct S as [|c1 x b y]; [done|].
      cbn [ptr]. rewrite Z.eqb_sym, good_not_0; [done|]. eapply (holds_good _ _ 2 _ _ _ H eq_refl). cbn. set_solver.
    - cbn in Hq. subst b. eapply (which_side _ _ _ 2%nat 3%nat _ _ _ _ _ _ H eq_refl eq_refl); [done|]. cbn. set_solver. }
  rewrite Hside. destruct (erase_step_ok F d K c n q p S t s Hq Ht Htr HK H) as (s1 & next & -> & Hnone & Hr). cbn [res_bind].
  destruct next as [[x' p']|]; [|by exists s1]. destruct Hr as (-> & -> & HKn & t' & Hp & H1 & Hn' & Hr' & Hi). destruct K as [|f K]; [done|].
  cbn [length] in Hf. destruct (IH f K p t' s1 (Datatypes.S n) Hp H1 Hn' Hr') as (s2 & E2 & u & Hu & Hv & Hi2).
  - destruct HK as [_ HK]. cbn [f_color f_sib] in HK. destruct c; [|done]. by specialize (Hnone eq_refl).
  - lia.
  - exists s2. split; [done|]. exists u. split_and!; [done|done|]. by rewrite Hi2, Hi.
Qed.

(** ** Taking a node out *)

Section unlink.
Context (F : rb_tree) (K : list frame) (c : color) (x : Z).

Lemma pc_is_black p : good0 p -> __rb_is_black (p + cbit c) = bool_decide (c = Black).
Proof. intros Hp. unfold __rb_is_black. rewrite pc_color by done. by destruct c. Qed.

(** The node has no left child. *)
Lemma unlink_right r s :
  holds F [Ctx K x; Pt x (mkd L (up K + cbit c) 0 (ptr r)); Sub x r] s ->
  exists s', __rb_erase_augmented x false s = Ok (s', match r with E => match c with Black => up K | Red => 0 end | _ => 0 end) /\
    holds F [Ctx K (ptr r); Pt x (mkd L (up K + cbit c) 0 (ptr r)); Sub (up K) (set_color c r)] s'.
Proof.
  intros H. assert (Hup : good0 (up K)) by is_good H. unfold __rb_erase_augmented. do 2 run H. cbn [andb]. run_simpl. run H.
  rewrite Z.eqb_refl, pc_parent by done. run H.
  destruct r as [|cr r1 b r2] eqn:Er.
  - cbn [ptr]. rewrite Z.eqb_refl. cbn [negb]. rewrite pc_is_black by done. exists s0. split; [by destruct c|].
    cbn [set_color]. by apply (sub_E _ _ _ H 2 x (up K)).
  - rewrite <- Er in *.
    assert (Hr : (ptr r =? 0) = false) by (rewrite Er; apply good_not_0; eapply (holds_good _ _ 2 _ _ _ H eq_refl); rewrite Er; cbn; set_solver).
    rewrite Hr. cbn [negb]. assert (r <> E) by (by rewrite Er). run H. by eexists.
Qed.

(** It has a left child and no right child. *)
Lemma unlink_left t s :
  t <> E -> holds F [Ctx K x; Pt x (mkd L (up K + cbit c) (ptr t) 0); Sub x t] s ->
  exists s', __rb_erase_augmented x false s = Ok (s', 0) /\
    holds F [Ctx K (ptr t); Pt x (mkd L (up K + cbit c) (ptr t) 0); Sub (up K) (set_color c t)] s'.
Proof.
  intros HE H. assert (Hup : good0 (up K)) by is_good H.
  assert (Ht : (ptr t =? 0) = false).
  { destruct t as [|ct t1 b t2]; [done|]. apply good_not_0. eapply (holds_good _ _ 2 _ _ _ H eq_refl). cbn. set_solver. }
  unfold __rb_erase_augmented. do 2 run H. cbn [andb]. run_simpl. run H.
  rewrite Ht, Z.eqb_refl, pc_parent by done. do 2 run H. by eexists.
Qed.

(** ** The successor *)

(** The leftmost node [y] of a tree, with the path to it. *)
Lemma min_path r : r <> E -> exists Ks sc y c2, r = plug Ks (T sc E y c2) /\ Forall (fun f => f_side f = L) Ks.
Proof.
  induction r as [|cr r1 IH b r2 _]; [done|]. intros _. destruct r1 as [|c1 x1 b1 y1] eqn:E1; [by exists [], cr, b, r2|]. rewrite <- E1 in *.
  destruct IH as (Ks & sc & y & c2 & -> & HL); [by rewrite E1|]. exists (Ks ++ [mk_frame L cr b r2]), sc, y, c2.
  split; [|apply Forall_app; split; [done|by apply Forall_singleton]]. generalize (T sc E y c2). clear. induction Ks as [|f Ks IH]; intros t; [done|]. cbn. apply IH.
Qed.

Lemma find_successor_ok s y : forall Ks fuel par p0 (s0 : Z) (n : rb_node),
  seg_ok s par Ks y -> Forall (fun f => f_side f = L) Ks -> nodes s !! y = Some n -> rb_left n = 0 -> y <> 0 ->
  (forall f, f ∈ Ks -> f_addr f <> 0) -> (length Ks < fuel)%nat -> find_successor fuel p0 s0 (outer Ks y) s = Ok (up_from s0 Ks, y).
Proof.
  induction Ks as [|g Ks IH] using rev_ind; intros fuel par p0 s0 n Hs HL Hn Hl Hy Ha Hf; (destruct fuel as [|fuel]; [cbn in Hf; lia|]); cbn [find_successor].
  - unfold outer. cbn. unfold get_child, get. rewrite Hn. cbn. rewrite Hl. done.
  - apply seg_ok_snoc in Hs as (Hs & Hg & _). apply Forall_app in HL as [HL HLg]. rewrite Forall_singleton in HLg. rewrite length_app in Hf. cbn in Hf.
    rewrite outer_snoc. unfold get_child, get. rewrite Hg. cbn [deref res_bind]. unfold frame_node. rewrite HLg. cbn [child mkd rb_left].
    assert (Hne : outer Ks y <> 0).
    { unfold outer. destruct (last Ks) as [f|] eqn:El; [|done]. cbn. apply Ha. apply elem_of_app. left. by apply last_Some_elem_of. }
    rewrite (proj2 (Z.eqb_neq _ _)) by done.
    rewrite (IH fuel (f_addr g) _ _ n) by (done || lia || (intros f Hfin; apply Ha; apply elem_of_app; by left)).
    by destruct Ks.
Qed.

(** The code of [erase_two] up to the search for the successor, and after it. *)
Definition two_find (child_ : Z) s : res (rb_tree * Z * Z * Z) :=
  let* tmp := get_child L child_ s in
  if tmp =? 0 then
    let* child2 := get_child R child_ s in
    Ok (s, child_, child_, child2)
  else
    let* '(parent, successor) := find_successor (tree_fuel s) 0 child_ tmp s in
    let* child2 := get_child R successor s in
    let* s := set_child L parent child2 s in
    let* s := set_child R successor child_ s in
    let* s := rb_set_parent child_ successor s in
    Ok (s, parent, successor, child2).

Definition two_finish (node parent successor child2 : Z) s : res (rb_tree * Z) :=
  let* tmp := get_child L node s in
  let* s := set_child L successor tmp s in
  let* s := rb_set_parent tmp successor s in
  let* n := get node s in
  let pc := __rb_parent_color n in
  let* s := __rb_change_child node successor (__rb_parent pc) s in
  if negb (child2 =? 0) then
    let* s := set_pc successor pc s in
    let* s := rb_set_parent_color child2 parent RB_BLACK s in
    Ok (s, 0)
  else
    let* m := get successor s in
    let pc2 := __rb_parent_color m in
    let* s := set_pc successor pc s in
    Ok (s, if __rb_is_black pc2 then parent else 0).

Lemma erase_two_eq node child_ s :
  erase_two node child_ s = let* '(s, parent, successor, child2) := two_find child_ s in two_finish node parent successor child2 s.
Proof. unfold erase_two, two_find. by rewrite res_bind_assoc. Qed.

Context (t : tree) (Ks : list frame) (sc : color) (y : Z) (c2 : tree) (HL : Forall (fun f => f_side f = L) Ks).

Lemma two_find_ok xn s :
  holds F [Ctx K x; Pt x xn; Sub x t; Seg x Ks y; Pt y (mkd L (up_from x Ks + cbit sc) 0 (ptr c2)); Sub y c2] s ->
  exists s', two_find (outer Ks y) s = Ok (s', up_from y Ks, y, ptr c2) /\
    holds F [Ctx K x; Pt x xn; Sub x t; Seg y Ks (ptr c2); Pt y (mkd L (up_from x Ks + cbit sc) 0 (outer Ks (ptr c2))); Sub y c2] s'.
Proof.
  intros H. unfold two_find. assert (Hy : good y) by (eapply (holds_pt_good _ _ 4); [exact H|done]). assert (Hx : good x) by (eapply (holds_pt_good _ _ 1); [exact H|done]).
  destruct Ks as [|f Ks'] eqn:EKs.
  { unfold outer. cbn [last fmap option_fmap option_map default up_from] in *. run H. rewrite Z.eqb_refl. run H. exists s. split; [done|].
    arrange H [Seg x [] y; Ctx K x; Pt x xn; Sub x t; Pt y (mkd L (x + cbit sc) 0 (ptr c2)); Sub y c2]. rewrite holds_seg_nil in H.
    goal_arrange [Seg y [] (ptr c2); Ctx K x; Pt x xn; Sub x t; Pt y (mkd L (x + cbit sc) 0 (ptr c2)); Sub y c2]. by rewrite holds_seg_nil. }
  rewrite <- EKs in *. assert (HKs : Ks <> []) by (by rewrite EKs).
  destruct Ks as [|g Ks0 _] using rev_ind; [done|]. pose proof (holds_ok _ _ _ _ _ H (eq_refl : _ !! 3%nat = Some _)) as Hs. cbn [part_ok] in Hs.
  apply seg_ok_snoc in Hs as (Hs & Hg & _). pose proof (holds_ok _ _ _ _ _ H (eq_refl : _ !! 4%nat = Some _)) as Hny. cbn [part_ok] in Hny.
  assert (Hgood : forall h, h ∈ Ks0 ++ [g] -> good (f_addr h)).
  { intros h Hh. eapply (holds_good _ _ 3 _ _ _ H eq_refl). cbn [foot]. apply list_elem_of_bind. exists h. split; [left|done]. }
  apply Forall_app in HL as [HL0 HLg]. rewrite Forall_singleton in HLg. rewrite outer_snoc.
  assert (Hgc : get_child L (f_addr g) s = Ok (outer Ks0 y)).
  { unfold get_child, get. rewrite Hg. cbn. unfold frame_node. by rewrite HLg. }
  assert (Hne : outer Ks0 y <> 0).
  { unfold outer. destruct (last Ks0) as [h|] eqn:El; cbn; [|destruct Hy; lia]. apply last_Some_elem_of in El.
    destruct (Hgood h); [apply elem_of_app; by left|lia]. }
  rewrite Hgc. cbn [res_bind]. rewrite (proj2 (Z.eqb_neq _ _)) by done.
  rewrite (find_successor_ok s y Ks0 (tree_fuel s) (f_addr g) _ _ _ Hs HL0 Hny eq_refl); [|destruct Hy; lia| |].
  2: { intros h Hh. destruct (Hgood h); [apply elem_of_app; by left|lia]. }
  2: { pose proof H as Hz. apply (holds_pull _ _ 3%nat (Seg x (Ks0 ++ [g]) y)) in Hz; [|done]. apply holds_size in Hz. cbn [feet mbind list_bind foot] in Hz. rewrite length_app in Hz.
       pose proof (length_ctx (Ks0 ++ [g])). rewrite length_app in *. cbn [length] in *. unfold tree_fuel. lia. }
  cbn [res_bind]. run H.
  assert (Hf : up_from (f_addr g) Ks0 = f_addr f /\ f_side f = L) by (destruct Ks0; injection EKs as <- <-; [done|split; [done|by apply Forall_cons in HL0 as [? _]]]).
  destruct Hf as [-> HfL]. rewrite EKs in *. rewrite <- (outer_snoc Ks0 g (ptr c2)), EKs. clear Hs Hg Hgood Hgc Hne HL0 HLg EKs g Ks0 HKs.
  arrange H [Seg x (f :: Ks') y; Ctx K x; Pt x xn; Sub x t; Pt y (mkd L (up_from x (f :: Ks') + cbit sc) 0 (ptr c2)); Sub y c2].
  apply split_seg in H. unfold frame_node in H. rewrite HfL in H. cbn [f_addr up_from] in H. do 2 run H.
  arrange H [Pt (f_addr f) (mkd L (up_from x Ks' + cbit (f_color f)) (ptr c2) (ptr (f_sib f))); Sub (f_addr f) (f_sib f); Seg x Ks' (f_addr f);
    Ctx K x; Pt x xn; Sub x t; Pt y (mkd L (f_addr f + cbit sc) 0 (outer (f :: Ks') (ptr c2))); Sub y c2].
  replace (mkd L (up_from x Ks' + cbit (f_color f)) (ptr c2) (ptr (f_sib f))) with (frame_node (up_from x Ks') f (ptr c2)) in H
    by (unfold frame_node; by rewrite HfL).
  apply split_seg in H.
  destruct (run_seg_parent _ _ _ 0%nat x (f :: Ks') (ptr c2) y H eq_refl) as (s3 & E3 & H3); [done|by right|by right|].
  rewrite E3. cbn [res_bind]. exists s3. split; [done|]. cbn [insert list_insert] in H3. cbn [up_from]. revert H3. apply holds_perm. perm.
Qed.

Lemma two_finish_ok xr s :
  t <> E ->
  holds F [Ctx K x; Pt x (mkd L (up K + cbit c) (ptr t) xr); Sub x t; Seg y Ks (ptr c2);
    Pt y (mkd L (up_from x Ks + cbit sc) 0 (outer Ks (ptr c2))); Sub y c2] s ->
  exists s', two_finish x (up_from y Ks) y (ptr c2) s = Ok (s', match c2 with E => match sc with Black => up_from y Ks | Red => 0 end | _ => 0 end) /\
    holds F [Ctx K y; Pt x (mkd L (up K + cbit c) (ptr t) xr); Sub y t; Seg y Ks (ptr c2);
      Pt y (mkd L (up K + cbit c) (ptr t) (outer Ks (ptr c2))); Sub (up_from y Ks) (set_color Black c2)] s'.
Proof.
  intros HE H. unfold two_finish. assert (Hup : good0 (up K)) by is_good H.
  assert (Hx : good0 x) by is_good H. assert (Hy : good0 y) by is_good H.
  assert (HKy : good0 (up_from y Ks)) by (eapply (up_from_good _ _ 3); [exact H|by left|done]).
  assert (HKx : good0 (up_from x Ks)) by (destruct Ks; [exact Hx|exact HKy]).
  do 4 run H. rewrite pc_parent by done. run H. destruct c2 as [|ca c21 b c22] eqn:Ec.
  - cbn [ptr]. rewrite Z.eqb_refl. cbn [negb]. do 2 run H. unfold __rb_is_black. rewrite pc_color by done. eexists. split; [by destruct sc|].
    by apply (sub_E _ _ _ H 5 y (up_from y Ks)).
  - rewrite <- Ec in *. assert (Hb : (ptr c2 =? 0) = false).
    { rewrite Ec. apply good_not_0. eapply (holds_good _ _ 5 _ _ _ H eq_refl). rewrite Ec. cbn. set_solver. }
    rewrite Hb. cbn [negb]. run H. change RB_BLACK with (cbit Black).
    destruct (run_color_sub _ _ _ H (up_from y Ks) Black 5%nat y c2 eq_refl) as (s9 & E9 & H9); [by rewrite Ec|done|].
    rewrite E9. cbn [res_bind]. exists s9. split; [done|exact H9].
Qed.
End unlink.

(** ** Removal *)

(** What the removal of a node leaves: the tree with the place [u] under the path [KK], which
    may be one black node short. *)
Definition unlinked F K x t r s' (rebalance : Z) : Prop :=
  exists KK u nx, holds F [Ctx KK (ptr u); Sub (up KK) u; Pt x nx] s' /\
    inorder (plug KK u) = before K ++ inorder t ++ inorder r ++ after K /\
    ((rebalance = 0 /\ rb_valid (plug KK u)) \/ (u = E /\ rebalance = up KK /\ KK <> [] /\ kok 1 KK)).

Lemma kok_readdr Ks f x K n : kok n (Ks ++ f :: K) -> kok n (Ks ++ mk_frame (f_side f) (f_color f) x (f_sib f) :: K).
Proof.
  revert n. induction Ks as [|g Ks IH]; intros n; cbn; [done|]. intros [Hg Hk]. split; [done|]. destruct (f_color g); [|by apply IH].
  destruct Hk as (? & Ht & ?). split_and!; [done| |by apply IH]. by destruct Ks.
Qed.

Lemma plug_app K1 K2 t : plug (K1 ++ K2) t = plug K2 (plug K1 t).
Proof. revert t. induction K1 as [|f K1 IH]; intros t; cbn; [done|]. apply IH. Qed.

Lemma before_left Ks : Forall (fun f => f_side f = L) Ks -> before Ks = [].
Proof. induction 1 as [|f Ks Hf _ IH]; cbn; [done|]. by rewrite IH, Hf. Qed.

(** A node with one subtree missing has at most one red child. *)
Lemma one_child n c r : (rbt n (T c E 0 r) \/ rbt n (T c r 0 E)) -> r <> E -> c = Black /\ n = 1%nat /\ is_red r = true /\ rbt 0 r.
Proof.
  intros Hn Hr. assert (H : match c with Black => exists m, n = S m /\ m = O /\ rbt m r | Red => rbt O r /\ is_red r = false end).
  { destruct c, Hn as [Hn|Hn]; cbn in Hn.
    - destruct Hn as (-> & ? & _ & ?). done.
    - destruct Hn as (? & -> & ? & _). done.
    - destruct n; [done|]. destruct Hn as [-> ?]. by exists 0%nat.
    - destruct n; [done|]. destruct Hn as [? ->]. by exists 0%nat. }
  destruct c; [destruct H as [H1 H2]; by destruct r as [|[] ???]|]. destruct H as (m & -> & -> & H). split_and!; try done. by destruct r as [|[] ???].
Qed.

Lemma unlink_one F K c x t r s' n u :
  kok n K -> rbt n (T c t x r) -> (t = E \/ r = E) -> u = (match t with E => r | _ => t end) ->
  (exists nx, holds F [Ctx K (ptr u); Pt x nx; Sub (up K) (set_color c u)] s') -> (is_red (T c t x r) = false \/ black_top K) ->
  unlinked F K x t r s' (match u with E => match c with Black => up K | Red => 0 end | _ => 0 end).
Proof.
  intros HK Hn Hor Hu [nx H] Htop. exists K, (set_color c u), nx.
  assert (Hin : inorder u = inorder t ++ inorder r) by (rewrite Hu; destruct Hor as [->| ->]; [done|]; rewrite app_nil_r; by destruct t).
  split_and!.
  - rewrite ptr_set_color. revert H. apply holds_perm. perm.
  - rewrite inorder_plug. replace (inorder (set_color c u)) with (inorder u) by (by destruct u). by rewrite Hin, <- app_assoc.
  - destruct (decide (u = E)) as [HuE|HuE].
    + rewrite HuE in *. cbn [set_color]. assert (Et : t = E /\ r = E) by (destruct t, r; naive_solver). destruct Et as [-> ->].
      destruct c; cbn in Hn.
      * left. split; [done|]. apply (plug_valid K n); [done|by destruct Hn as [-> _]|by left].
      * destruct n as [|n]; [done|]. destruct Hn as [-> _]. destruct K as [|f K]; [left; split; [done|]; split; [done|by exists O]|].
        right. split_and!; done.
    + left. destruct (one_child n c u) as (-> & -> & Hr & H0); [|done|].
      { rewrite Hu. destruct Hor as [->| ->]; [by left|]. destruct t; [by left|by right]. }
      split; [by destruct u|]. apply (plug_valid K 1); [done|by apply rbt_set_black|left; apply is_red_set_black].
Qed.

Lemma unlink_two F K c x t r s :
  t <> E -> r <> E -> holds F [Ctx K x; Sub (up K) (T c t x r)] s -> rb_valid (plug K (T c t x r)) ->
  exists s' rebalance, erase_two x (ptr r) s = Ok (s', rebalance) /\ unlinked F K x t r s' rebalance.
Proof.
  intros Ht Hr H Hv. destruct (min_path r Hr) as (Ks & sc & y & c2 & -> & HL). rewrite erase_two_eq.
  arrange H [Sub (up K) (T c t x (plug Ks (T sc E y c2))); Ctx K x]. apply (split_node F L) in H.
  arrange H [Sub x (plug Ks (T sc E y c2)); Ctx K x; Pt x (mkd L (up K + cbit c) (ptr t) (ptr (plug Ks (T sc E y c2)))); Sub x t].
  apply split_plug in H. rewrite ptr_plug in *. cbn [ptr] in *.
  arrange H [Sub (up_from x Ks) (T sc E y c2); Seg x Ks y; Ctx K x; Pt x (mkd L (up K + cbit c) (ptr t) (outer Ks y)); Sub x t].
  apply (split_node F L) in H. cbn [ptr] in *.
  arrange H [Sub y E; Ctx K x; Pt x (mkd L (up K + cbit c) (ptr t) (outer Ks y)); Sub x t; Seg x Ks y; Pt y (mkd L (up_from x Ks + cbit sc) 0 (ptr c2)); Sub y c2].
  rewrite holds_E in H.
  destruct (two_find_ok F K x t Ks sc y c2 HL _ s H) as (s1 & -> & H1). cbn [res_bind].
  destruct (two_finish_ok F K c x t Ks sc y c2 HL _ s1 Ht H1) as (s2 & -> & H2). eexists _, _. split; [done|].
  set (f := mk_frame R c y t). exists (Ks ++ f :: K), (set_color Black c2), (mkd L (up K + cbit c) (ptr t) (outer Ks y)).
  change (T c t x (plug Ks (T sc E y c2))) with (join (mk_frame R c x t) (plug Ks (T sc E y c2))) in Hv.
  change (plug K (join (mk_frame R c x t) (plug Ks (T sc E y c2)))) with (plug (mk_frame R c x t :: K) (plug Ks (T sc E y c2))) in Hv.
  rewrite <- plug_app in Hv. apply valid_unplug in Hv as (n & HK & Hn & Htop). apply (kok_readdr Ks (mk_frame R c x t) y) in HK. cbn [f_side f_color f_sib] in HK. fold f in HK.
  assert (Eup : up (Ks ++ f :: K) = up_from y Ks) by (by destruct Ks).
  split_and!.
  - rewrite ptr_set_color, Eup. goal_arrange [Ctx (Ks ++ f :: K) (ptr c2); Sub (up_from y Ks) (set_color Black c2); Pt x (mkd L (up K + cbit c) (ptr t) (outer Ks y))].
    apply join_ctx. cbn [f_addr f]. goal_arrange [Ctx (f :: K) (outer Ks (ptr c2)); Seg y Ks (ptr c2); Sub (up_from y Ks) (set_color Black c2); Pt x (mkd L (up K + cbit c) (ptr t) (outer Ks y))].
    apply split_ctx. unfold frame_node. cbn [f f_addr f_side f_color f_sib]. change (mkd R (up K + cbit c) (outer Ks (ptr c2)) (ptr t)) with (mkd L (up K + cbit c) (ptr t) (outer Ks (ptr c2))).
    revert H2. apply holds_perm. perm.
  - rewrite plug_app, inorder_plug. cbn [before after f f_side f_sib f_addr]. rewrite !inorder_plug, (before_left _ HL). cbn [app inorder].
    replace (inorder (set_color Black c2)) with (inorder c2) by (by destruct c2). by rewrite <- !app_assoc.
  - destruct (decide (c2 = E)) as [->|HcE].
    + destruct sc; cbn in Hn.
      * left. split; [done|]. apply (plug_valid _ n); [done|by destruct Hn as [-> _]|by left].
      * destruct n as [|n]; [done|]. destruct Hn as [-> _]. right. split_and!; [done|by rewrite Eup|by destruct Ks|done].
    + left. split; [by destruct c2|]. destruct (one_child n sc c2) as (-> & -> & Hred & H0); [by left|done|].
      apply (plug_valid _ 1); [done|by apply rbt_set_black|left; apply is_red_set_black].
Qed.

Lemma erase_augmented_ok F K c t x r s :
  holds F [Ctx K x; Sub (up K) (T c t x r)] s -> rb_valid (plug K (T c t x r)) ->
  exists s' rebalance, __rb_erase_augmented x false s = Ok (s', rebalance) /\ unlinked F K x t r s' rebalance.
Proof.
  intros H Hv. destruct (valid_unplug _ _ Hv) as (n & HK & Hn & Htop). pose proof H as H0.
  arrange H [Sub (up K) (T c t x r); Ctx K x]. apply (split_node F L) in H.
  destruct (decide (t = E)) as [->|Ht]; [|destruct (decide (r = E)) as [->|Hr]].
  - arrange H [Sub x E; Ctx K x; Pt x (mkd L (up K + cbit c) (ptr E) (ptr r)); Sub x r]. rewrite holds_E in H.
    destruct (unlink_right F K c x r s H) as (s' & -> & H'). eexists _, _. split; [done|].
    apply (unlink_one F K c x E r s' n r); [done|done|by left|done|by eexists|done].
  - arrange H [Sub x E; Ctx K x; Pt x (mkd L (up K + cbit c) (ptr t) (ptr E)); Sub x t]. rewrite holds_E in H.
    destruct (unlink_left F K c x t s Ht H) as (s' & -> & H'). eexists _, _. split; [done|].
    replace 0 with (match t with E => match c with Black => up K | Red => 0 end | _ => 0 end) by (by destruct t).
    apply (unlink_one F K c x t E s' n t); [done|done|by right|by destruct t|by eexists|done].
  - assert (Hp : (ptr t =? 0) = false /\ (ptr r =? 0) = false).
    { split; apply good_not_0; [destruct t as [|ct t1 b t2]|destruct r as [|cr r1 b r2]]; try done;
        [eapply (holds_good _ _ 1 _ _ _ H eq_refl)|eapply (holds_good _ _ 2 _ _ _ H eq_refl)]; cbn; set_solver. }
    destruct Hp as [Hp1 Hp2].
    destruct (unlink_two F K c x t r s Ht Hr H0 Hv) as (s' & reb & E2 & Hu). exists s', reb. split; [|done].
    unfold __rb_erase_augmented. rewrite !(run_get_child _ _ _ H _ 0%nat _ _ eq_refl). cbn [res_bind andb].
    rewrite (run_get _ _ _ H 0%nat _ _ eq_refl). cbn [res_bind]. rewrite mkd_child, mkd_L_R, Hp1, Hp2. exact E2.
Qed.

Lemma holds_self F l s : holds F l s -> holds s l s.
Proof. intros [H1 H2 H3 H4 H5]. by split. Qed.

Lemma find_path x t : x ∈ inorder t -> exists K c l r, t = plug K (T c l x r).
Proof.
  induction t as [|c l IHl a r IHr]; cbn; [set_solver|]. rewrite elem_of_app, elem_of_cons. intros [Hl|[->|Hr]].
  - destruct (IHl Hl) as (K & c' & l' & r' & ->). exists (K ++ [mk_frame L c a r]), c', l', r'. by rewrite plug_app.
  - by exists [], c, l, r.
  - destruct (IHr Hr) as (K & c' & l' & r' & ->). exists (K ++ [mk_frame R c a l]), c', l', r'. by rewrite plug_app.
Qed.

(** Removing a node from a red-black tree. *)
Lemma erase_ok F t x s :
  tree_in F t s -> rb_valid t -> x ∈ inorder t ->
  exists s' t', rb_erase x s = Ok s' /\ tree_in s' t' s' /\ rb_valid t' /\
    (exists l1 l2, inorder t = l1 ++ x :: l2 /\ inorder t' = l1 ++ l2) /\
    (forall a, a ∉ inorder t -> nodes s' !! a = nodes F !! a) /\ is_Some (nodes s' !! x) /\ leftmost s' = leftmost F.
Proof.
  intros Ht Hv Hx. destruct (find_path x t Hx) as (K & c & l & r & ->). unfold rb_erase, erase.
  destruct (erase_augmented_ok F K c l x r s (tree_split _ _ _ _ Ht) Hv) as (s1 & reb & -> & KK & u & nx & H1 & Hi & Hor). cbn [res_bind].
  assert (Hsplit : inorder (plug K (T c l x r)) = (before K ++ inorder l) ++ x :: (inorder r ++ after K))
    by (rewrite inorder_plug; cbn [inorder]; by rewrite <- !app_assoc).
  assert (Hout : forall a, a ∉ inorder (plug K (T c l x r)) -> nodes s1 !! a = nodes F !! a).
  { intros a Ha. apply (h_frame _ _ _ H1). intros Hin. apply Ha. rewrite Hsplit. cbn in Hin. rewrite !elem_of_app in Hin.
    assert (Hpl : a ∈ inorder (plug KK u) -> a ∈ (before K ++ inorder l) ++ x :: (inorder r ++ after K)) by (rewrite Hi; set_solver).
    rewrite inorder_plug in Hpl. destruct Hin as [Hin|[Hin|Hin]]; [apply foot_in_order in Hin; set_solver|set_solver|set_solver]. }
  assert (Hxs : nodes s1 !! x = Some nx) by exact (holds_ok _ _ 2%nat _ _ H1 eq_refl).
  assert (Hl1 : leftmost s1 = leftmost F) by apply (h_left _ _ _ H1).
  assert (H2 : holds s1 [Ctx KK (ptr u); Sub (up KK) u] s1).
  { arrange H1 [Pt x nx; Ctx KK (ptr u); Sub (up KK) u]. by eapply holds_drop in H1. }
  assert (Hxn : x ∉ inorder (plug KK u)).
  { rewrite Hi. apply h_nodup in Ht. cbn in Ht. rewrite app_nil_r, Hsplit in Ht. rewrite <- Permutation_middle in Ht. apply NoDup_cons in Ht as [Ht _]. set_solver. }
  destruct Hor as [[-> Hval]|(-> & -> & HKK & Hkok)].
  - rewrite Z.eqb_refl. cbn [negb]. exists s1, (plug KK u). split_and!; try done.
    + by apply fold_ctx.
    + exists (before K ++ inorder l), (inorder r ++ after K). split; [done|]. by rewrite Hi, <- !app_assoc.
  - rewrite (up_zero _ _ 0%nat _ _ _ H2 eq_refl), bool_decide_false by done. cbn [negb]. destruct KK as [|f KK]; [done|].
    pose proof (ctx_fuel _ _ _ 0%nat _ _ H2 eq_refl) as Hf. cbn [length] in Hf.
    destruct (erase_loop_ok s1 (tree_fuel s1) f KK 0 E s1 0 eq_refl H2) as (s2 & E2 & t' & Ht' & Hv' & Hi'); try done; [lia|].
    unfold ____rb_erase_color. exists s2, t'. split_and!; try done.
    + by eapply holds_self.
    + exists (before K ++ inorder l), (inorder r ++ after K). split; [done|]. by rewrite Hi', Hi, <- !app_assoc.
    + intros a Ha. rewrite <- Hout by done. apply (h_frame _ _ _ Ht'). cbn. rewrite app_nil_r, Hi', Hi. rewrite Hsplit in Ha. set_solver.
    + exists nx. rewrite <- Hxs. apply (h_frame _ _ _ Ht'). cbn. by rewrite app_nil_r, Hi'.
    + by rewrite (h_left _ _ _ Ht').
Qed.
