(* ===== verification/RbtreeIter.v ===== *)
(** * RbtreeIter: walking through a red-black tree, and its height

    [rb_first], [rb_last], [rb_next] and [rb_prev] follow the order of the nodes; a tree of [n]
    nodes is at most [2 log2 (n + 1)] deep, which bounds every loop of lib/rbtree.c. *)

From S2P Require Import Prelude Bits Rbtree RbtreeHeap RbtreeProof RbtreeErase.

Implicit Types (s F : rb_tree) (f : frame) (K : list frame) (t : tree).

(** The end of a list on side [d]. *)
Definition end_of (d : side) (l : list Z) : option Z := match d with L => head l | R => last l end.

Lemma end_of_Td d c x a y : end_of d (inorder (Td d c x a y)) = match end_of d (inorder x) with Some b => Some b | None => Some a end.
Proof.
  destruct d; cbn; [by destruct (inorder x)|]. rewrite last_app_cons, last_cons. by destruct (last (inorder x)).
Qed.

Fixpoint height t : nat := match t with E => O | T _ l _ r => S (Nat.max (height l) (height r)) end.

Lemma height_length t : (height t <= length (inorder t))%nat.
Proof. induction t as [|c l IHl a r IHr]; cbn; [done|]. rewrite length_app. cbn. lia. Qed.

Lemma height_Td d c x a y : height (Td d c x a y) = S (Nat.max (height x) (height y)).
Proof. destruct d; cbn; lia. Qed.

Lemma descend_ok s d : forall fuel par t,
  sub_ok s par t -> t <> E -> (forall a, a ∈ inorder t -> a <> 0) -> (height t <= fuel)%nat ->
  exists b, descend fuel d (ptr t) s = Ok b /\ end_of d (inorder t) = Some b.
Proof.
  induction fuel as [|fuel IH]; intros par t Hs Ht Ha Hf; destruct (Td_form d t Ht) as (c & x & a & y & ->);
    pose proof (inorder_Td d c x a y) as Hp; rewrite height_Td in Hf; [lia|].
  apply sub_ok_Td in Hs as (Hn & Hx & _). rewrite ptr_Td. cbn [descend]. unfold get_child, get. rewrite Hn. cbn [deref res_bind]. rewrite mkd_child, end_of_Td.
  destruct (decide (x = E)) as [->|HxE].
  - cbn. exists a. split; [done|]. by destruct d.
  - rewrite (proj2 (Z.eqb_neq (ptr x) 0)).
    + destruct (IH a x Hx HxE) as (b & -> & Hb).
      * intros b Hb. apply Ha. rewrite Hp. set_solver.
      * lia.
      * exists b. split; [done|]. by rewrite Hb.
    + apply Ha. rewrite Hp. destruct x; [done|]. cbn. set_solver.
Qed.

(** The node that the path reaches first on side [d]. *)
Definition path_next (d : side) K : option Z := match d with R => head (after K) | L => last (before K) end.

Lemma path_next_cons d f K : path_next d (f :: K) = if decide (f_side f = d) then path_next d K else Some (f_addr f).
Proof.
  destruct d; cbn; destruct (f_side f) eqn:Ef; cbn; try done.
  - by rewrite app_nil_r.
  - by rewrite app_assoc, last_snoc.
Qed.

(** From the bottom of a path. *)
Lemma ascend_ok s d : forall fuel K x n,
  seg_ok s 0 K x -> NoDup (x :: K ≫= frame_foot) -> (forall a, a ∈ x :: K ≫= frame_foot -> good a) ->
  nodes s !! x = Some n -> __rb_parent (__rb_parent_color n) = up K -> (length K < fuel)%nat ->
  ascend fuel d x s = Ok (default 0 (path_next d K)).
Proof.
  induction fuel as [|fuel IH]; intros K x n Hs Hnd Hg Hx Hp Hf; [lia|]. cbn [ascend]. unfold rb_parent, get. rewrite Hx. cbn [deref res_bind]. rewrite Hp.
  destruct K as [|f K]; [by destruct d|]. rewrite up_cons. cbn [seg_ok length] in Hs, Hf. destruct Hs as (Hn & Hsib & Hs).
  assert (Hgf : good (f_addr f)) by (apply Hg; cbn; set_solver). rewrite good_not_0 by done.
  unfold get_child, get. rewrite Hn. cbn [deref res_bind]. unfold frame_node. rewrite path_next_cons.
  cbn in Hnd. apply NoDup_cons in Hnd as [Hxn Hnd]. destruct (decide (f_side f = d)) as [<-|Hd].
  - rewrite mkd_child, Z.eqb_refl. eapply IH; [done| | |exact Hn| |lia].
    + apply NoDup_cons in Hnd as [Hfn Hnd]. apply NoDup_app in Hnd as (_ & _ & Hnd). apply NoDup_cons. split; [set_solver|done].
    + intros a Ha. apply Hg. cbn. set_solver.
    + unfold frame_node. rewrite mkd_pc. apply pc_parent. destruct K as [|g K]; [by left|]. right. apply Hg. cbn. set_solver.
  - assert (Hc : child d (mkd (f_side f) (up K + cbit (f_color f)) x (ptr (f_sib f))) = ptr (f_sib f)) by (by destruct d, (f_side f)).
    rewrite Hc, (proj2 (Z.eqb_neq x _)); [done|]. intros ->. destruct (f_sib f) as [|cs a b e]; cbn in *.
    + destruct (Hg 0); [set_solver|lia].
    + set_solver.
Qed.

(** The neighbour of [x] in the order of the tree. *)
Definition neighbour (d : side) (l1 l2 : list Z) : Z := default 0 (match d with R => head l2 | L => last l1 end).

Lemma not_empty_node p c x : good0 p -> good x -> x <> p -> (p + cbit c =? x) = false.
Proof.
  intros Hp [Hx [q ->]] Hne. apply Z.eqb_neq. intros E. destruct (pc_div p c Hp) as (r & -> & _). destruct c; unfold cbit, RB_RED, RB_BLACK in *; lia.
Qed.

Lemma holds_ctx_sub_nodup F K x t s : holds F [Ctx K x; Sub (up K) t] s -> ptr t = x -> t <> E -> NoDup (x :: K ≫= frame_foot) /\ (forall a, a ∈ x :: K ≫= frame_foot -> good a).
Proof.
  intros Hh Hx Ht. pose proof (h_nodup _ _ _ Hh) as Hnd. cbn in Hnd. rewrite app_nil_r in Hnd. apply NoDup_app in Hnd as (Hnd & Hd & _).
  assert (Hin : x ∈ inorder t) by (subst x; destruct t; [done|]; cbn; set_solver). split.
  - apply NoDup_cons. split; [|done]. intros Hx'. by apply (Hd x).
  - intros a [->|Ha]%elem_of_cons; apply (h_good _ _ _ Hh); cbn; rewrite app_nil_r; set_solver.
Qed.

Lemma rb_step_plug F d K c x l r s :
  tree_in F (plug K (T c l x r)) s -> rb_step d x s = Ok (neighbour d (before K ++ inorder l) (inorder r ++ after K)).
Proof.
  intros Ht. apply tree_split in Ht. cbn [ptr] in Ht.
  destruct (holds_ctx_sub_nodup _ _ _ _ _ Ht) as [Hnd Hg]; [done|done|].
  assert (Hup : good0 (up K)) by (destruct K as [|f K]; [by left|right; apply Hg; cbn; set_solver]).
  pose proof (holds_ok _ _ 0%nat _ _ Ht eq_refl) as [Hseg _]. pose proof (holds_ok _ _ 1%nat _ _ Ht eq_refl) as (Hx & Hl & Hr).
  assert (Hxu : x <> up K).
  { destruct K as [|f K]; cbn; [destruct (Hg x ltac:(set_solver)); lia|]. cbn in Hnd. apply NoDup_cons in Hnd as [Hnd _]. set_solver. }
  unfold rb_step, RB_EMPTY_NODE, get_child, get. rewrite Hx. cbn [deref res_bind __rb_parent_color]. rewrite not_empty_node by (done || (apply Hg; set_solver)). cbn [res_bind].
  set (u := match d with L => l | R => r end). replace (child d _) with (ptr u) by (by destruct d).
  assert (Hu : sub_ok s x u) by (by destruct d). destruct (decide (u = E)) as [Eu|Eu].
  - rewrite Eu. cbn [ptr]. rewrite Z.eqb_refl. cbn [negb].
    rewrite (ascend_ok s d (tree_fuel s) K x _ Hseg Hnd Hg Hx); [|by apply pc_parent|by eapply (ctx_fuel _ _ _ 0)].
    destruct d; subst u; cbn [neighbour]; unfold neighbour; rewrite Eu; cbn; [by rewrite app_nil_r|done].
  - assert (Hin : forall a, a ∈ inorder u -> good a).
    { intros a Ha. apply (holds_good _ _ 1 _ _ _ Ht eq_refl). cbn. destruct d; set_solver. }
    rewrite (proj2 (Z.eqb_neq (ptr u) 0)) by (destruct u as [|cu u1 b u2]; [done|]; cbn; destruct (Hin b); [cbn; set_solver|lia]). cbn [negb].
    destruct (descend_ok s (other d) (tree_fuel s) x u Hu Eu) as (b & -> & Hb).
    + intros a Ha. destruct (Hin a Ha). lia.
    + pose proof (holds_size _ _ _ Ht) as Hz. cbn in Hz. rewrite app_nil_r, !length_app in Hz. cbn in Hz. pose proof (height_length u). unfold tree_fuel. destruct d; subst u; lia.
    + f_equal. unfold neighbour. destruct d; subst u; cbn in Hb.
      * by rewrite last_app, Hb.
      * by rewrite head_app, Hb.
Qed.

Lemma nodup_split (x : Z) l1 l2 k1 k2 : NoDup (l1 ++ x :: l2) -> l1 ++ x :: l2 = k1 ++ x :: k2 -> l1 = k1 /\ l2 = k2.
Proof.
  revert k1. induction l1 as [|a l1 IH]; intros [|b k1] Hnd E; cbn in *; simplify_eq; [done| | |].
  - apply NoDup_cons in Hnd as [Hn _]. set_solver.
  - apply NoDup_cons in Hnd as [Hn _]. set_solver.
  - apply NoDup_cons in Hnd as [_ Hnd]. destruct (IH k1 Hnd H0) as [-> ->]. done.
Qed.

Lemma tree_nodup F t s : tree_in F t s -> NoDup (inorder t).
Proof. intros Ht. pose proof (h_nodup _ _ _ Ht) as H. cbn in H. by rewrite app_nil_r in H. Qed.

(** The neighbours of a node in the order of the tree. *)
Lemma rb_step_ok F d t s l1 x l2 : tree_in F t s -> inorder t = l1 ++ x :: l2 -> rb_step d x s = Ok (neighbour d l1 l2).
Proof.
  intros Ht Hi. destruct (find_path x t) as (K & c & l & r & Et); [rewrite Hi; set_solver|]. pose proof (tree_nodup _ _ _ Ht) as Hnd. subst t.
  rewrite (rb_step_plug F d K c x l r s Ht). rewrite inorder_plug in *. cbn [inorder] in *. rewrite <- (app_assoc (inorder l)) in *. cbn [app] in *.
  rewrite app_assoc in *. by destruct (nodup_split x _ _ _ _ Hnd Hi) as [-> ->].
Qed.

Lemma rb_end_ok F d t s : tree_in F t s -> rb_end d s = Ok (default 0 (end_of d (inorder t))).
Proof.
  intros Ht. pose proof (holds_ok _ _ 0%nat _ _ Ht eq_refl) as [_ Hr]. pose proof (holds_ok _ _ 1%nat _ _ Ht eq_refl) as Hs. cbn in Hr, Hs.
  unfold rb_end. rewrite Hr. change (outer [] (ptr t)) with (ptr t). destruct (decide (t = E)) as [->|HtE]; [by destruct d|].
  assert (Hg : forall a, a ∈ inorder t -> good a) by (intros a Ha; apply (holds_good _ _ 1 _ _ _ Ht eq_refl); done).
  rewrite (proj2 (Z.eqb_neq (ptr t) 0)) by (destruct t as [|c l b r]; [done|]; cbn; destruct (Hg b); [cbn; set_solver|lia]).
  destruct (descend_ok s d (tree_fuel s) 0 t Hs HtE) as (b & -> & ->); [| |done].
  - intros a Ha. destruct (Hg a Ha). lia.
  - pose proof (holds_size _ _ _ Ht) as Hz. cbn in Hz. rewrite app_nil_r in Hz. pose proof (height_length t). unfold tree_fuel. lia.
Qed.

(** ** Height *)

Lemma rbt_size n t : rbt n t -> (2 ^ n <= length (inorder t) + 1)%nat.
Proof.
  revert n. induction t as [|c l IHl a r IHr]; intros n; cbn [rbt inorder]; [by intros ->|]. rewrite length_app. cbn [length]. destruct c.
  - intros (Hl & Hr & _). apply IHl in Hl. lia.
  - destruct n as [|n]; [done|]. intros [Hl%IHl Hr%IHr]. cbn [Nat.pow]. lia.
Qed.

Lemma rbt_height n t : rbt n t -> (height t <= 2 * n + if is_red t then 1 else 0)%nat.
Proof.
  revert n. induction t as [|c l IHl a r IHr]; intros n; cbn [rbt height is_red]; [lia|]. destruct c.
  - intros (Hl%IHl & Hr%IHr & H1 & H2). rewrite H1 in Hl. rewrite H2 in Hr. lia.
  - destruct n as [|n]; [done|]. intros [Hl%IHl Hr%IHr]. destruct (is_red l), (is_red r); lia.
Qed.

Lemma valid_height t : rb_valid t -> (height t <= 2 * Nat.log2 (length (inorder t) + 1))%nat.
Proof.
  intros [Hr [n Hn]]. pose proof (rbt_height _ _ Hn) as Hh. rewrite Hr in Hh. pose proof (rbt_size _ _ Hn) as Hz.
  apply Nat.log2_le_mono in Hz. rewrite Nat.log2_pow2 in Hz by lia. lia.
Qed.

Lemma height_plug K t : (length K + height t <= height (plug K t))%nat.
Proof.
  revert t. induction K as [|f K IH]; intros t; cbn [length plug]; [done|]. specialize (IH (join f t)).
  assert (S (height t) <= height (join f t))%nat by (unfold join; destruct (f_side f); cbn; lia). lia.
Qed.

(** ** Replacement *)

(** The new node [w] takes the place of [v], with its color. *)
Lemma replace_ok F K c l v r w s :
  tree_in F (plug K (T c l v r)) s -> good w -> w ∉ inorder (plug K (T c l v r)) ->
  exists s', rb_replace_node v w s = Ok s' /\ tree_in s' (plug K (T c l w r)) s' /\
    (forall a, a ∉ inorder (plug K (T c l v r)) -> a <> w -> nodes s' !! a = nodes F !! a).
Proof.
  intros Ht Hw Hn. apply tree_split in Ht. cbn [ptr] in Ht. rename Ht into H.
  arrange H [Sub (up K) (T c l v r); Ctx K v]. apply (split_node F L) in H.
  set (n := mkd L (up K + cbit c) (ptr l) (ptr r)) in *.
  assert (Hwf : w ∉ feet [Pt v n; Sub v l; Sub v r; Ctx K v]).
  { intros Hin. apply Hn. rewrite inorder_plug. cbn in Hin. rewrite app_nil_r, !elem_of_cons, !elem_of_app in Hin. cbn [inorder].
    destruct Hin as [->|[?|[?|?%foot_in_order]]]; set_solver. }
  assert (Hrun : exists s', rb_replace_node v w s = Ok s' /\ holds F [Pt w n; Pt v n; Sub w l; Sub w r; Ctx K w] s').
  { unfold rb_replace_node. rewrite (run_rb_parent _ _ _ H 0%nat v L (up K) c _ _ eq_refl) by is_good H. cbn [res_bind].
    rewrite (run_get _ _ _ H 0%nat _ _ eq_refl). cbn [res_bind].
    pose proof (holds_add _ _ _ w n H Hw Hwf) as H1. clear H. rename H1 into H. unfold n in *. do 4 run H.
    destruct (run_change_child _ _ _ 4%nat K v w 1%nat (Pt v (mkd L (up K + cbit c) (ptr l) (ptr r))) H eq_refl eq_refl) as (s' & -> & H');
      [done|apply list_elem_of_here|done|]. exists s'. split; [done|exact H']. }
  destruct Hrun as (s' & E' & H'). exists s'. split; [done|]. split.
  - arrange H' [Pt v n; Pt w n; Sub w l; Sub w r; Ctx K w]. apply (holds_drop _ s') in H'; [|done|done]. apply (split_node s' L) in H'. apply fold_ctx. cbn [ptr].
    cbn [Td] in H'. revert H'. apply holds_perm. perm.
  - intros a Ha Haw. apply (h_frame _ _ _ H'). rewrite inorder_plug in Ha. cbn. cbn [inorder] in Ha. rewrite app_nil_r, !elem_of_cons, !elem_of_app.
    intros [?|[?|[?|[?|?%foot_in_order]]]]; set_solver.
Qed.
