(* ===== verification/RbtreeTheorems.v ===== *)
(** * RbtreeTheorems: what lib/rbtree.c guarantees

    Insertion and removal keep a red-black tree and the order of its nodes, iteration follows
    that order, and the loops are logarithmic. *)

From S2P Require Import Prelude Bits Rbtree RbtreeHeap RbtreeProof RbtreeErase RbtreeIter.

Implicit Types (s F : rb_tree) (f : frame) (K : list frame) (t : tree).

(** ** Fuel *)

Lemma insert_loop_more fuel : forall k node parent s s', insert_loop fuel node parent s = Ok s' -> insert_loop (fuel + k) node parent s = Ok s'.
Proof.
  induction fuel as [|fuel IH]; intros k node parent s s'; [done|]. cbn [Nat.add insert_loop]. destruct (parent =? 0); [done|].
  destruct (rb_is_black parent s) as [[]| |]; cbn [res_bind]; try done.
  destruct (rb_red_parent parent s) as [g| |]; cbn [res_bind]; try done. destruct (get_child R g s) as [tmp| |]; cbn [res_bind]; try done.
  destruct (insert_step _ node parent g s) as [[s2 [[node' parent']|]]| |]; cbn [res_bind]; try done. apply IH.
Qed.

(** Two runs that end agree. *)
Lemma insert_loop_agree n m node parent s s1 s2 : insert_loop n node parent s = Ok s1 -> insert_loop m node parent s = Ok s2 -> s1 = s2.
Proof.
  intros H1%(fun H => insert_loop_more _ m _ _ _ _ H) H2%(fun H => insert_loop_more _ n _ _ _ _ H). rewrite Nat.add_comm in H1. congruence.
Qed.

Lemma path_log K t : rb_valid (plug K t) -> (length K <= 2 * Nat.log2 (length (inorder (plug K t)) + 1))%nat.
Proof. intros Hv. pose proof (valid_height _ Hv). pose proof (height_plug K t). lia. Qed.

Lemma tree_nonzero F t s : tree_in F t s -> forall a, a ∈ inorder t -> a <> 0.
Proof. intros Ht a Ha ->. destruct (holds_good _ _ 1 _ _ _ Ht eq_refl Ha). lia. Qed.

(** ** Claims *)

(** C24. Linking a new node at any empty place of a red-black tree and rebalancing it succeeds
    and gives a red-black tree again (the root black, no red node with a red child, the same
    number of black nodes on every path), whose nodes in order are those of the old tree with
    the new one at its place; no other node of memory changes. *)
Theorem rb_insert_keeps_tree F K x s :
  tree_in F (plug K E) s -> rb_valid (plug K E) -> good x -> x ∉ inorder (plug K E) ->
  exists s1 s2 t', rb_link_node x (up K) (link_of K) s = Ok s1 /\ rb_insert_color x s1 = Ok s2 /\
    tree_in F t' s2 /\ rb_valid t' /\ inorder t' = before K ++ x :: after K.
Proof. apply insert_ok. Qed.

(** C25. Removing a node of a red-black tree succeeds and gives a red-black tree again, whose
    nodes in order are the others as they were; no node outside of the tree changes. *)
Theorem rb_erase_keeps_tree F t x s :
  tree_in F t s -> rb_valid t -> x ∈ inorder t ->
  exists s' t', rb_erase x s = Ok s' /\ tree_in s' t' s' /\ rb_valid t' /\
    (exists l1 l2, inorder t = l1 ++ x :: l2 /\ inorder t' = l1 ++ l2) /\
    (forall a, a ∉ inorder t -> nodes s' !! a = nodes F !! a).
Proof. intros Ht Hv Hx. destruct (erase_ok F t x s Ht Hv Hx) as (s' & t' & ? & ? & ? & ? & ? & _). by exists s', t'. Qed.

(** Iteration follows the order of the tree: [rb_first] and [rb_last] are the first and the
    last node, NULL when the tree is empty, and [rb_next] and [rb_prev] of a node are the nodes
    after and before it, NULL at the end. *)
Theorem rb_iteration_in_order F t s :
  tree_in F t s ->
  rb_first s = Ok (default 0 (head (inorder t))) /\ rb_last s = Ok (default 0 (last (inorder t))) /\
  forall l1 x l2, inorder t = l1 ++ x :: l2 -> rb_next x s = Ok (default 0 (head l2)) /\ rb_prev x s = Ok (default 0 (last l1)).
Proof.
  intros Ht. split_and!; [apply (rb_end_ok F L t s Ht)|apply (rb_end_ok F R t s Ht)|]. intros l1 x l2 Hi.
  split; [by apply (rb_step_ok F R t s l1 x l2)|by apply (rb_step_ok F L t s l1 x l2)].
Qed.

(** C26. The loops of the tree end after a number of turns logarithmic in the number [n] of its
    nodes: rebalancing after an insertion takes at most [2 log2 (n + 1) + 1] turns, finding the
    first or the last node at most [2 log2 (n + 1)]. *)
Theorem rb_loops_logarithmic F K x s :
  tree_in F (plug K E) s -> rb_valid (plug K E) -> good x -> x ∉ inorder (plug K E) ->
  let turns := (2 * Nat.log2 (length (inorder (plug K E)) + 1))%nat in
  (exists s1 s2, rb_link_node x (up K) (link_of K) s = Ok s1 /\ insert_loop (turns + 1) x (up K) s1 = Ok s2 /\ rb_insert_color x s1 = Ok s2) /\
  (forall d, plug K E <> E -> exists b, descend turns d (root s) s = Ok b /\ rb_end d s = Ok b).
Proof.
  intros Ht Hv Hx Hn turns. split.
  - destruct (insert_fuel_ok F K x s Ht Hv Hx Hn) as (s1 & E1 & E0 & Hf & Hrun). destruct (Hrun _ Hf) as (s2 & _ & E2 & _).
    destruct (Hrun (turns + 1)%nat) as (s3 & _ & E3 & _); [pose proof (path_log _ _ Hv); lia|].
    exists s1, s2. rewrite E0. split_and!; [done| |done]. by rewrite (insert_loop_agree _ _ _ _ _ _ _ E2 E3).
  - intros d Hne. pose proof (holds_ok _ _ 0%nat _ _ Ht eq_refl) as [_ Hr]. pose proof (holds_ok _ _ 1%nat _ _ Ht eq_refl) as Hs. cbn in Hr, Hs.
    change (outer [] (ptr (plug K E))) with (ptr (plug K E)) in Hr. rewrite Hr.
    destruct (descend_ok s d turns 0 (plug K E) Hs Hne (tree_nonzero _ _ _ Ht) (valid_height _ Hv)) as (b & Eb & Hb).
    exists b. split; [done|]. by rewrite (rb_end_ok F d _ s Ht), Hb.
Qed.

(** ** Witnesses *)

(** Five nodes at the addresses 8, 16, 24, 32 and 40, linked in order, and one more at 48. *)
Definition demo_tree : tree := T Black (T Black E 8 E) 16 (T Black (T Red E 24 E) 32 (T Red E 40 E)).
Definition demo_nodes : gmap Z rb_node :=
  {[ 8 := mk_rb 17 0 0; 16 := mk_rb 1 32 8; 24 := mk_rb 32 0 0; 32 := mk_rb 17 40 24; 40 := mk_rb 32 0 0; 48 := mk_rb 48 0 0 ]}.
Definition demo_state : rb_tree := mk_rb_tree demo_nodes 16 0.
(** The empty place on the right of 40. *)
Definition demo_path : list frame := [mk_frame R Red 40 E; mk_frame R Black 32 (T Red E 24 E); mk_frame R Black 16 (T Black E 8 E)].

Lemma demo_plug : plug demo_path E = demo_tree.
Proof. reflexivity. Qed.

Lemma demo_in : tree_in demo_state demo_tree demo_state.
Proof.
  split; [by apply (bool_decide_unpack _)| |repeat constructor|done|done].
  intros a Ha. cbn in Ha. rewrite !elem_of_cons in Ha. unfold good. destruct Ha as [->|[->|[->|[->|[->|Ha]]]]];
    [| | | | |by apply not_elem_of_nil in Ha]; (split; [lia|by apply Z.mod_divide]).
Qed.

Lemma demo_valid : rb_valid demo_tree.
Proof. split; [done|]. exists 2%nat. repeat split. Qed.

Lemma demo_good : good 48.
Proof. split; [lia|by apply Z.mod_divide]. Qed.

Lemma rb_insert_keeps_tree_witness :
  exists s1 s2 t', rb_link_node 48 40 (Some R) demo_state = Ok s1 /\ rb_insert_color 48 s1 = Ok s2 /\
    tree_in demo_state t' s2 /\ rb_valid t' /\ inorder t' = [8; 16; 24; 32; 40] ++ [48].
Proof.
  apply (rb_insert_keeps_tree demo_state demo_path 48 demo_state);
    [apply demo_in|apply demo_valid|apply demo_good|by apply (bool_decide_unpack _)].
Defined.

Lemma rb_erase_keeps_tree_witness :
  exists s' t', rb_erase 16 demo_state = Ok s' /\ tree_in s' t' s' /\ rb_valid t' /\
    (exists l1 l2, inorder demo_tree = l1 ++ 16 :: l2 /\ inorder t' = l1 ++ l2) /\
    (forall a, a ∉ inorder demo_tree -> nodes s' !! a = nodes demo_state !! a).
Proof. apply (rb_erase_keeps_tree demo_state demo_tree 16 demo_state); [apply demo_in|apply demo_valid|by apply (bool_decide_unpack _)]. Defined.

Lemma rb_iteration_in_order_witness :
  rb_first demo_state = Ok 8 /\ rb_last demo_state = Ok 40 /\
  forall l1 x l2, inorder demo_tree = l1 ++ x :: l2 -> rb_next x demo_state = Ok (default 0 (head l2)) /\ rb_prev x demo_state = Ok (default 0 (last l1)).
Proof. apply (rb_iteration_in_order demo_state demo_tree demo_state). apply demo_in. Defined.

Lemma rb_loops_logarithmic_witness :
  (exists s1 s2, rb_link_node 48 40 (Some R) demo_state = Ok s1 /\ insert_loop 5 48 40 s1 = Ok s2 /\ rb_insert_color 48 s1 = Ok s2) /\
  (forall d, plug demo_path E <> E -> exists b, descend 4 d (root demo_state) demo_state = Ok b /\ rb_end d demo_state = Ok b).
Proof.
  apply (rb_loops_logarithmic demo_state demo_path 48 demo_state);
    [apply demo_in|apply demo_valid|apply demo_good|by apply (bool_decide_unpack _)].
Defined.
