(* ===== verification/Time.v ===== *)
(** * Time: instants, clock sources and clock events

    include/core/time.h, include/clocksource/clocksource.h, driver/clocksource.c,
    include/clockevent/clockevent.h and driver/clockevent.c, with the two drivers of the CLINT
    timer (driver/cs-clint-timer.c, driver/ce-clint-timer.c).

    An instant [ktime_t] is its [tv64], a signed 64-bit number of nanoseconds.  An addition of
    two signed values that overflows is undefined; one with an unsigned operand wraps around.

    The theorems are about the conversions between nanoseconds and ticks. *)

From S2P Require Import Prelude Bits.

(** The result of a signed 64-bit operation. *)
Definition signed64 (x : Z) : res Z := if (- 2 ^ 63 <=? x) && (x <? 2 ^ 63) then Ok x else Undef.

(** [x << n], [x >> n] at 64 bits and [x / y]. *)
Definition shl64 (x n : Z) : res Z := if (0 <=? n) && (n <? 64) then Ok (u64 (Z.shiftl x n)) else Undef.
Definition shr64 (x n : Z) : res Z := if (0 <=? n) && (n <? 64) then Ok (Z.shiftr x n) else Undef.
Definition udiv (x y : Z) : res Z := if y =? 0 then Undef else Ok (x / y).

(** ** Instants *)

Definition KTIME_MAX : Z := 2 ^ 63 - 1.
Definition KTIME_SEC_MAX : Z := KTIME_MAX / 1000000000.

(** [KTIME_SEC_MAX] is unsigned, and so is the comparison with it. *)
Definition ktime_set (s ns : Z) : Z :=
  if KTIME_SEC_MAX <=? u64 s then KTIME_MAX else s64 (u64 (u64 s * 1000000000) + ns).

Definition ktime_equal (a b : Z) : bool := a =? b.
Definition ktime_compare (a b : Z) : Z := if a <? b then -1 else if b <? a then 1 else 0.
Definition ktime_after (a b : Z) : bool := 0 <? ktime_compare a b.
Definition ktime_before (a b : Z) : bool := ktime_compare a b <? 0.

Definition ktime_add (a b : Z) : res Z := signed64 (a + b).
Definition ktime_sub (a b : Z) : res Z := signed64 (a - b).

(** [ktime_add_ns] and [ktime_sub_ns] with an unsigned number of nanoseconds, and with a
    signed one. *)
Definition ktime_add_ns (kt ns : Z) : Z := s64 (u64 kt + ns).
Definition ktime_sub_ns (kt ns : Z) : Z := s64 (u64 kt - ns).
Definition ktime_add_sns (kt ns : Z) : res Z := signed64 (kt + ns).

Definition ktime_add_safe (a b : Z) : res Z :=
  let* kt := ktime_add a b in
  if (kt <? 0) || (kt <? a) || (kt <? b) then Ok (ktime_set KTIME_SEC_MAX 0) else Ok kt.

Definition ktime_add_us (kt us : Z) : Z := ktime_add_ns kt (u64 (us * 1000)).
Definition ktime_sub_us (kt us : Z) : Z := ktime_sub_ns kt (u64 (us * 1000)).
Definition ktime_add_ms (kt ms : Z) : Z := ktime_add_ns kt (u64 (ms * 1000000)).
Definition ktime_sub_ms (kt ms : Z) : Z := ktime_sub_ns kt (u64 (ms * 1000000)).

Definition ktime_to_ns (kt : Z) : Z := kt.
Definition ktime_to_us (kt : Z) : Z := Z.quot kt 1000.
Definition ktime_to_ms (kt : Z) : Z := Z.quot kt 1000000.
Definition ktime_us_delta (later earlier : Z) : res Z := let* d := ktime_sub later earlier in Ok (ktime_to_us d).
Definition ktime_ms_delta (later earlier : Z) : res Z := let* d := ktime_sub later earlier in Ok (ktime_to_ms d).

Definition ns_to_ktime (ns : Z) : Z := ktime_add_ns 0 ns.
Definition us_to_ktime (us : Z) : Z := ktime_add_us 0 us.
Definition ms_to_ktime (ms : Z) : Z := ktime_add_ms 0 ms.

(** ** Conversion factors *)

(** [while (tmp) { tmp >>= 1; sftacc--; }]: one turn for each bit of [tmp]. *)
Fixpoint sftacc_loop (fuel : nat) (tmp sftacc : Z) : res Z :=
  if tmp =? 0 then Ok sftacc
  else match fuel with O => Undef | S fuel => sftacc_loop fuel (Z.shiftr tmp 1) (u32 (sftacc - 1)) end.

(** [for (sft = 32; sft > 0; sft--)]: the first shift whose factor fits in [sftacc] bits. *)
Fixpoint shift_loop (to from sftacc : Z) (sft : nat) (tmp : Z) : res (Z * Z) :=
  match sft with
  | O => Ok (tmp, 0)
  | S sft' =>
      let* tmp := udiv (u64 (u64 (Z.shiftl to (Z.of_nat sft)) + from / 2)) from in
      let* high := shr64 tmp sftacc in
      if high =? 0 then Ok (tmp, Z.of_nat sft) else shift_loop to from sftacc sft' tmp
  end.

(** ** Clock sources *)

Record clocksource := mk_cs { cs_mask : Z; cs_mult : Z; cs_shift : Z; ticks_per_second : Z }.

Definition CLOCKSOURCE_MASK (bits : Z) : Z := if bits <? 64 then 2 ^ bits - 1 else 2 ^ 64 - 1.

Definition clocksource_hz2mult (hz shift : Z) : res Z :=
  let* tmp := shl64 1000000000 shift in
  let* tmp := udiv (u64 (tmp + hz / 2)) hz in
  Ok (u32 tmp).

Definition clocksource_khz2mult (khz shift : Z) : res Z :=
  let* tmp := shl64 1000000 shift in
  let* tmp := udiv (u64 (tmp + khz / 2)) khz in
  Ok (u32 tmp).

(** The result is [mult] and [shift]. *)
Definition clocksource_calc_mult_shift (from to maxsec : Z) : res (Z * Z) :=
  let* q := udiv to from in
  if u32 (q * from) =? to then Ok (q, 0)
  else
    let* sftacc := sftacc_loop 32 (Z.shiftr (u64 (maxsec * from)) 32) 32 in
    let* '(tmp, sft) := shift_loop to from sftacc 32 0 in
    Ok (u32 tmp, sft).

Definition clocksource_deferment (cs : clocksource) : res Z := shr64 (u64 (cs_mask cs * cs_mult cs)) (cs_shift cs).

(** [read] is what the [read] of the clock source gives. *)
Definition clocksource_cycle (cs : clocksource) (read : Z) : Z := Z.land read (cs_mask cs).

Definition clocksource_delta (cs : clocksource) (last now : Z) : Z :=
  if last <? now then Z.land (now - last) (cs_mask cs)
  else Z.land (u64 (cs_mask cs + 1 - last + now)) (cs_mask cs).

Definition clocksource_delta2ns (cs : clocksource) (delta : Z) : res Z := shr64 (u64 (delta * cs_mult cs)) (cs_shift cs).

Definition clocksource_keeper_read (cs : clocksource) (read : Z) : res Z :=
  let now := clocksource_cycle cs read in
  let* offset := clocksource_delta2ns cs now in
  Ok (ns_to_ktime offset).

Definition clocksource_ktime_get (cs : option clocksource) (read : Z) : res Z :=
  match cs with Some cs => clocksource_keeper_read cs read | None => Ok (ns_to_ktime 0) end.

Definition clocksource_kticks_get (cs : option clocksource) (read : Z) : Z :=
  match cs with Some cs => s64 (clocksource_cycle cs read) | None => 0 end.

Definition clocksource_kticks_per_second (cs : option clocksource) : Z :=
  match cs with Some cs => ticks_per_second cs | None => 0 end.

Definition kticks_ticks_per_second (cs : option clocksource) (read : Z) : Z := clocksource_kticks_get cs read.

(** [cs_clint_timer_probe] for a timer of [rate] Hz. *)
Definition cs_clint_timer_probe (rate : Z) : res clocksource :=
  let* '(mult, shift) := clocksource_calc_mult_shift (u32 rate) 1000000000 10 in
  Ok (mk_cs (CLOCKSOURCE_MASK 64) mult shift (s64 rate)).

(** ** Clock events *)

Inductive ce_handler := ce_dummy_handler | timer_event_handler_of_base.
Inductive ce_next := ce_dummy_next | ce_clint_next.

(** [ce_cmp] is the compare register of the timer, in ticks of its counter. *)
Record clockevent := mk_ce {
  ce_mult : Z;
  ce_shift : Z;
  min_delta_ns : Z;
  max_delta_ns : Z;
  ce_on_event : ce_handler;
  ce_program : ce_next;
  ce_cmp : Z;
}.

Definition clockevent_hz2mult (hz shift : Z) : res Z :=
  let* tmp := shl64 1000000000 shift in
  let* tmp := udiv (u64 (tmp + hz / 2)) hz in
  Ok (u32 tmp).

Definition clockevent_khz2mult (khz shift : Z) : res Z :=
  let* tmp := shl64 1000000 shift in
  let* tmp := udiv (u64 (tmp + khz / 2)) khz in
  Ok (u32 tmp).

Definition set_factors (mult shift : Z) (ce : clockevent) : clockevent :=
  mk_ce mult shift (min_delta_ns ce) (max_delta_ns ce) (ce_on_event ce) (ce_program ce) (ce_cmp ce).

Definition clockevent_calc_mult_shift (freq minsec : Z) (ce : clockevent) : res clockevent :=
  let* sftacc := sftacc_loop 32 (Z.shiftr (u64 (minsec * 1000000000)) 32) 32 in
  let* '(tmp, sft) := shift_loop freq 1000000000 sftacc 32 0 in
  Ok (set_factors (u32 tmp) sft ce).

(** A factor of 0 is replaced by 1. *)
Definition clockevent_delta2ns (latch : Z) (ce : clockevent) : res (clockevent * Z) :=
  let* clc := shl64 latch (ce_shift ce) in
  let ce := if ce_mult ce =? 0 then set_factors 1 (ce_shift ce) ce else ce in
  let rnd := ce_mult ce - 1 in
  let* back := shr64 clc (ce_shift ce) in
  let clc := if negb (back =? latch) then 2 ^ 64 - 1 else clc in
  let* one := shl64 1 (ce_shift ce) in
  let clc := if (rnd <? 2 ^ 64 - 1 - clc) && (ce_mult ce <=? one) then u64 (clc + rnd) else clc in
  let* clc := udiv clc (ce_mult ce) in
  Ok (ce, if 1000 <? clc then clc else 1000).

(** The prototype that [class_impl(clockevent_t, device_t)] gives to every clock event. *)
Definition clockevent_default : clockevent := mk_ce 4294967 32 1000 4294967591000 ce_dummy_handler ce_dummy_next 0.

(** [ce_clint_timer_probe] for a timer of [rate] Hz, up to [register_default_clockevent]. *)
Definition ce_clint_timer_probe (rate : Z) (ce : clockevent) : res clockevent :=
  let* ce := clockevent_calc_mult_shift (u32 rate) 10 ce in
  let* '(ce, min) := clockevent_delta2ns 1 ce in
  let ce := mk_ce (ce_mult ce) (ce_shift ce) min (max_delta_ns ce) (ce_on_event ce) (ce_program ce) (ce_cmp ce) in
  let* '(ce, max) := clockevent_delta2ns (2 ^ 64 - 1) ce in
  Ok (mk_ce (ce_mult ce) (ce_shift ce) (min_delta_ns ce) max (ce_on_event ce) ce_clint_next 4294967295).

(** What the counter shows is [mtime]. *)
Definition ce_clint_timer_next (mtime evt : Z) (ce : clockevent) : clockevent :=
  mk_ce (ce_mult ce) (ce_shift ce) (min_delta_ns ce) (max_delta_ns ce) (ce_on_event ce) (ce_program ce) (u64 (mtime + evt)).

(** The number of ticks that [clockevent_set_event_next] asks for, [None] when it does not. *)
Definition event_ticks (now expires : Z) (ce : clockevent) : res (option Z) :=
  if ktime_before expires now then Ok None
  else
    let* d := ktime_sub expires now in
    let delta := u64 (ktime_to_ns d) in
    let delta := if max_delta_ns ce <? delta then max_delta_ns ce else delta in
    let delta := if delta <? min_delta_ns ce then min_delta_ns ce else delta in
    let* evt := shr64 (u64 (delta * ce_mult ce)) (ce_shift ce) in
    Ok (Some evt).

Definition clockevent_set_event_next (mtime : Z) (now expires : Z) (ce : clockevent) : res (clockevent * bool) :=
  let* ticks := event_ticks now expires ce in
  match ticks with
  | None => Ok (ce, false)
  | Some evt =>
      match ce_program ce with
      | ce_dummy_next => Ok (ce, true)
      | ce_clint_next => Ok (ce_clint_timer_next mtime evt ce, true)
      end
  end.

Definition clockevent_set_event_handler (handler : ce_handler) (ce : clockevent) : clockevent :=
  mk_ce (ce_mult ce) (ce_shift ce) (min_delta_ns ce) (max_delta_ns ce) handler (ce_program ce) (ce_cmp ce).

#[local] Ltac Zify.zify_post_hook ::= Z.div_mod_to_equations.

(** ** The loops that compute the factors *)

Lemma sftacc_loop_ok fuel : forall tmp k,
  0 <= tmp < 2 ^ Z.of_nat fuel -> Z.of_nat fuel <= k <= 32 ->
  exists j, sftacc_loop fuel tmp k = Ok (k - j) /\ 0 <= j <= Z.of_nat fuel /\ tmp < 2 ^ j /\ (0 < j -> 2 ^ (j - 1) <= tmp).
Proof.
  induction fuel as [|fuel IH]; intros tmp k Ht Hk; cbn [sftacc_loop]; destruct (Z.eqb_spec tmp 0) as [->|Hne].
  - exists 0. rewrite Z.sub_0_r. by split_and!.
  - cbn in Ht. lia.
  - exists 0. rewrite Z.sub_0_r. split_and!; [done|lia..].
  - rewrite Z.shiftr_div_pow2 by lia. rewrite u32_small by lia. change (2 ^ 1) with 2.
    destruct (IH (tmp / 2) (k - 1)) as (j & -> & Hj & Hlt & Hge); [|lia|].
    { rewrite Nat2Z.inj_succ, Z.pow_succ_r in Ht by lia. lia. }
    exists (j + 1). split; [by f_equal; lia|]. split; [lia|]. rewrite Z.pow_add_r by lia. change (2 ^ 1) with 2. split; [lia|].
    intros _. rewrite Z.add_simpl_r. destruct (decide (0 < j)) as [Hp|Hp].
    + specialize (Hge Hp). replace j with (j - 1 + 1) by lia. rewrite Z.pow_add_r by lia. change (2 ^ 1) with 2. lia.
    + assert (j = 0) as -> by lia. cbn. lia.
Qed.

(** The factor of a shift: [to * 2^sft / from], rounded to the nearest. *)
Definition factor (to from sft : Z) : Z := (to * 2 ^ sft + from / 2) / from.

Lemma factor_near to from sft : 0 <= sft -> 0 <= to -> 0 < from -> Z.abs (factor to from sft * from - to * 2 ^ sft) <= from / 2.
Proof.
  intros Hs Ht Hf. unfold factor. set (n := to * 2 ^ sft). pose proof (Z.mod_pos_bound (n + from / 2) from Hf).
  pose proof (Z.div_mod (n + from / 2) from ltac:(lia)). pose proof (Z.mod_pos_bound from 2 ltac:(lia)). pose proof (Z.div_mod from 2 ltac:(lia)). nia.
Qed.

Lemma factor_nonneg to from sft : 0 <= sft -> 0 <= to -> 0 < from -> 0 <= factor to from sft.
Proof. intros. unfold factor. apply Z.div_pos; [|lia]. pose proof (Z.pow_nonneg 2 sft). pose proof (Z.div_pos from 2). nia. Qed.

Lemma shift_step to from sft :
  0 <= sft <= 32 -> 0 <= to < 2 ^ 32 -> 0 < from < 2 ^ 32 ->
  udiv (u64 (u64 (Z.shiftl to sft) + from / 2)) from = Ok (factor to from sft).
Proof.
  intros Hs Ht Hf. rewrite Z.shiftl_mul_pow2 by lia.
  assert (Hp : 0 <= to * 2 ^ sft <= (2 ^ 32 - 1) * 2 ^ 32).
  { assert (0 < 2 ^ sft <= 2 ^ 32) by (split; [by apply Z.pow_pos_nonneg; lia|apply Z.pow_le_mono_r; lia]). nia. }
  assert (0 <= from / 2 < 2 ^ 32) by (split; [apply Z.div_pos; lia|apply Z.div_lt_upper_bound; lia]).
  rewrite (u64_small (to * 2 ^ sft)) by lia. rewrite u64_small by lia. unfold udiv. by rewrite (proj2 (Z.eqb_neq from 0)) by lia.
Qed.

(** The loop stops at the largest shift that fits, when there is one. *)
Lemma shift_loop_ok to from sftacc : forall sft tmp,
  (1 <= sft <= 32)%nat -> 0 <= to < 2 ^ 32 -> 0 < from < 2 ^ 32 -> 0 <= sftacc < 64 -> factor to from 1 < 2 ^ sftacc ->
  exists k, shift_loop to from sftacc sft tmp = Ok (factor to from k, k) /\ 1 <= k <= Z.of_nat sft /\
    factor to from k < 2 ^ sftacc /\ (k < Z.of_nat sft -> 2 ^ sftacc <= factor to from (k + 1)).
Proof.
  induction sft as [|sft IH]; intros tmp Hs Ht Hf Ha H1; [lia|]. cbn [shift_loop]. rewrite shift_step by lia. cbn [res_bind]. unfold shr64.
  rewrite (proj2 (Z.leb_le 0 sftacc)), (proj2 (Z.ltb_lt sftacc 64)) by lia. cbn [andb res_bind]. rewrite Z.shiftr_div_pow2 by lia.
  set (f := factor to from (Z.of_nat (S sft))). pose proof (factor_nonneg to from (Z.of_nat (S sft)) ltac:(lia) ltac:(lia) ltac:(lia)) as Hnn. fold f in Hnn.
  assert (Hp : 0 < 2 ^ sftacc) by (apply Z.pow_pos_nonneg; lia). destruct (Z.eqb_spec (f / 2 ^ sftacc) 0) as [Hz|Hz].
  - exists (Z.of_nat (S sft)). split; [done|]. split; [lia|]. split; [|lia]. apply Z.div_small_iff in Hz; fold f; lia.
  - assert (Hbig : 2 ^ sftacc <= f) by (destruct (Z.le_gt_cases (2 ^ sftacc) f); [done|]; exfalso; apply Hz, Z.div_small; lia).
    destruct sft as [|sft]; [change (Z.of_nat 1) with 1 in f; subst f; lia|].
    destruct (IH f) as (k & -> & Hk & Hlt & Hmax); [lia|lia|lia|lia|done|]. exists k. split; [done|]. split; [lia|]. split; [done|].
    intros Hk'. destruct (decide (k = Z.of_nat (S sft))) as [->|]; [|apply Hmax; lia].
    replace (Z.of_nat (S sft) + 1) with (Z.of_nat (S (S sft))) by lia. exact Hbig.
Qed.

(** The width of the factor, for a range of [n] units of which the high word is [n / 2^32]. *)
Lemma sftacc_of n : 0 <= n < 2 ^ 64 ->
  exists j, sftacc_loop 32 (Z.shiftr n 32) 32 = Ok (32 - j) /\ 0 <= j <= 32 /\ n < 2 ^ (32 + j) /\ (0 < j -> 2 ^ (31 + j) <= n).
Proof.
  intros Hn. rewrite Z.shiftr_div_pow2 by lia. destruct (sftacc_loop_ok 32 (n / 2 ^ 32) 32) as (j & E & Hj & Hlt & Hge); [cbn; lia|lia|].
  exists j. split; [done|]. split; [lia|]. rewrite !Z.pow_add_r by lia. split; [nia|]. intros Hp. specialize (Hge Hp).
  replace (2 ^ 31 * 2 ^ j) with (2 ^ 32 * 2 ^ (j - 1)); [nia|]. replace (2 ^ j) with (2 * 2 ^ (j - 1)); [lia|]. rewrite <- Z.pow_succ_r by lia. f_equal. lia.
Qed.

(** A factor of [32 - j] bits times a number below [2^(32 + j)] fits in 64 bits. *)
Lemma product_fits j n m d : 0 <= j <= 32 -> n < 2 ^ (32 + j) -> 0 <= m < 2 ^ (32 - j) -> 0 <= d <= n -> d * m < 2 ^ 64.
Proof.
  intros Hj Hn Hm Hd. replace (2 ^ 64) with (2 ^ (32 + j) * 2 ^ (32 - j)) by (rewrite <- Z.pow_add_r by lia; f_equal; lia). nia.
Qed.

Lemma pow2_le a b : 0 <= a <= b -> 0 < 2 ^ a <= 2 ^ b.
Proof. intros H. split; [apply Z.pow_pos_nonneg; lia|apply Z.pow_le_mono_r; lia]. Qed.

(** The factors of a clock event that can wait for [minsec] seconds. *)
Lemma clockevent_factors freq minsec ce :
  0 <= freq < 2 ^ 32 -> 0 <= minsec < 2 ^ 30 ->
  exists mult shift, clockevent_calc_mult_shift freq minsec ce = Ok (set_factors mult shift ce) /\ 1 <= shift <= 32 /\ 0 <= mult < 2 ^ 32 /\
    mult = factor freq 1000000000 shift /\ (forall d, 0 <= d <= minsec * 1000000000 -> d * mult < 2 ^ 64) /\
    (shift < 32 -> 2 * mult + 1 >= 2 ^ 3).
Proof.
  intros Hf Hm. unfold clockevent_calc_mult_shift. rewrite u64_small by lia.
  destruct (sftacc_of (minsec * 1000000000)) as (j & -> & Hj & Hlt & Hge); [lia|]. cbn [res_bind].
  assert (Hj' : j <= 28).
  { destruct (Z.le_gt_cases j 28); [done|]. specialize (Hge ltac:(lia)). pose proof (pow2_le 60 (31 + j) ltac:(lia)). lia. }
  pose proof (pow2_le 4 (32 - j) ltac:(lia)) as Hw.
  destruct (shift_loop_ok freq 1000000000 (32 - j) 32 0) as (k & -> & Hk & Hfit & Hmax); [lia|lia|lia|lia| |].
  { unfold factor. change (2 ^ 1) with 2. lia. }
  cbn [res_bind]. pose proof (factor_nonneg freq 1000000000 k ltac:(lia) ltac:(lia) ltac:(lia)) as Hnn.
  pose proof (pow2_le (32 - j) 32 ltac:(lia)). exists (factor freq 1000000000 k), k. rewrite u32_small by lia. split; [done|]. split; [lia|]. split; [lia|]. split; [done|]. split.
  - intros d Hd. by apply (product_fits j (minsec * 1000000000)).
  - intros Hk'. specialize (Hmax ltac:(lia)). pose proof (factor_near freq 1000000000 k ltac:(lia) ltac:(lia) ltac:(lia)).
    pose proof (factor_near freq 1000000000 (k + 1) ltac:(lia) ltac:(lia) ltac:(lia)) as Hn1. rewrite Z.pow_add_r in Hn1 by lia. change (2 ^ 1) with 2 in Hn1. lia.
Qed.

(** ** The CLINT clock event *)

Lemma shl64_ok x n : 0 <= n < 64 -> shl64 x n = Ok (u64 (x * 2 ^ n)).
Proof. intros [? ?]. unfold shl64. rewrite (proj2 (Z.leb_le 0 n)), (proj2 (Z.ltb_lt n 64)) by lia. cbn [andb]. by rewrite Z.shiftl_mul_pow2 by lia. Qed.
Lemma shr64_ok x n : 0 <= n < 64 -> shr64 x n = Ok (x / 2 ^ n).
Proof. intros [? ?]. unfold shr64. rewrite (proj2 (Z.leb_le 0 n)), (proj2 (Z.ltb_lt n 64)) by lia. cbn [andb]. by rewrite Z.shiftr_div_pow2 by lia. Qed.
Lemma udiv_ok x y : 0 < y -> udiv x y = Ok (x / y).
Proof. intros Hy. unfold udiv. by rewrite (proj2 (Z.eqb_neq y 0)) by lia. Qed.

(** One tick, and the longest wait, in nanoseconds. *)
Lemma delta2ns_one ce : 1 <= ce_shift ce <= 32 -> 0 < ce_mult ce < 2 ^ 32 ->
  exists d, clockevent_delta2ns 1 ce = Ok (ce, d) /\ 1000 <= d <= 2 ^ 32.
Proof.
  intros Hs Hm. unfold clockevent_delta2ns. rewrite !shl64_ok by lia. cbn [res_bind]. pose proof (pow2_le (ce_shift ce) 32 ltac:(lia)) as Hp.
  rewrite Z.mul_1_l, u64_small by lia. rewrite (proj2 (Z.eqb_neq (ce_mult ce) 0)) by lia. rewrite shr64_ok by lia. cbn [res_bind]. rewrite Z.div_same by lia.
  rewrite shl64_ok by lia. cbn [res_bind Z.eqb negb Pos.eqb]. rewrite Z.mul_1_l, (u64_small (2 ^ ce_shift ce)) by lia.
  lazymatch goal with |- context [udiv ?c _] => set (clc := c) end. assert (Hc : 0 <= clc < 2 ^ ce_shift ce + ce_mult ce).
  { subst clc. destruct (_ && _); [rewrite u64_small by lia|]; lia. }
  rewrite udiv_ok by lia. cbn [res_bind]. assert (Hq : clc / ce_mult ce <= 2 ^ ce_shift ce) by (apply Z.lt_succ_r, Z.div_lt_upper_bound; nia).
  eexists. split; [done|]. destruct (Z.ltb_spec 1000 (clc / ce_mult ce)); lia.
Qed.

Lemma delta2ns_max ce : 1 <= ce_shift ce <= 32 -> 0 < ce_mult ce < 2 ^ 31 ->
  clockevent_delta2ns (2 ^ 64 - 1) ce = Ok (ce, (2 ^ 64 - 1) / ce_mult ce).
Proof.
  intros Hs Hm. unfold clockevent_delta2ns. rewrite !shl64_ok by lia. cbn [res_bind]. pose proof (pow2_le (ce_shift ce) 32 ltac:(lia)) as Hp.
  rewrite (proj2 (Z.eqb_neq (ce_mult ce) 0)) by lia. rewrite shr64_ok by lia. cbn [res_bind]. rewrite shl64_ok by lia. cbn [res_bind].
  assert (Hb : u64 ((2 ^ 64 - 1) * 2 ^ ce_shift ce) / 2 ^ ce_shift ce <> 2 ^ 64 - 1).
  { pose proof (u64_range ((2 ^ 64 - 1) * 2 ^ ce_shift ce)). pose proof (pow2_le 1 (ce_shift ce) ltac:(lia)) as Hp2. change (2 ^ 1) with 2 in Hp2.
    assert (u64 ((2 ^ 64 - 1) * 2 ^ ce_shift ce) / 2 ^ ce_shift ce <= 2 ^ 63) by (apply Z.div_le_upper_bound; nia). lia. }
  rewrite (proj2 (Z.eqb_neq _ _) Hb). cbn [negb]. rewrite Z.sub_diag, (proj2 (Z.ltb_ge (ce_mult ce - 1) 0)) by lia. cbn [andb].
  rewrite udiv_ok by lia. cbn [res_bind]. rewrite (proj2 (Z.ltb_lt 1000 ((2 ^ 64 - 1) / ce_mult ce))); [done|]. apply (Z.lt_le_trans _ (2 ^ 33 - 1)); [lia|].
  apply Z.div_le_lower_bound; nia.
Qed.

(** The clock event of the CLINT timer, for every frequency: its factor is the ratio of ticks
    to nanoseconds to the nearest, and whatever instants it is given, the number of ticks that
    it programs is the exact product of the wait (limited to the range of the device) and the
    factor: the 64-bit product never overflows.  An instant that has passed programs nothing. *)
Theorem clint_event_exact rate :
  0 < rate < 2 ^ 32 ->
  exists ce, ce_clint_timer_probe rate clockevent_default = Ok ce /\
    Z.abs (ce_mult ce * 1000000000 - rate * 2 ^ ce_shift ce) <= 500000000 /\
    (forall now expires, 0 <= now <= expires -> expires <= KTIME_MAX ->
      let delta := Z.max (min_delta_ns ce) (Z.min (max_delta_ns ce) (expires - now)) in
      delta * ce_mult ce < 2 ^ 64 /\ event_ticks now expires ce = Ok (Some (delta * ce_mult ce / 2 ^ ce_shift ce))) /\
    (forall now expires, expires < now -> event_ticks now expires ce = Ok None).
Proof.
  intros Hr. unfold ce_clint_timer_probe. rewrite u32_small by lia.
  destruct (clockevent_factors rate 10 clockevent_default) as (mult & shift & -> & Hs & Hm & Em & Hfit & Hpos); [lia|lia|]. cbn [res_bind].
  specialize (Hfit 10000000000 ltac:(lia)). assert (Hm1 : 0 < mult < 2 ^ 31).
  { split; [|lia]. destruct (decide (shift < 32)) as [Hlt|Hlt]; [specialize (Hpos Hlt); lia|]. replace shift with 32 in Em by lia. unfold factor in Em. lia. }
  destruct (delta2ns_one (set_factors mult shift clockevent_default)) as (d & -> & Hd); [cbn; lia|cbn; lia|]. cbn [res_bind]. rewrite delta2ns_max by (cbn; lia). cbn [res_bind].
  eexists. split; [done|]. cbn [ce_mult ce_shift min_delta_ns max_delta_ns set_factors clockevent_default]. split; [|split].
  - rewrite Em. apply (factor_near rate 1000000000 shift); lia.
  - intros now expires Hn He. set (mx := (2 ^ 64 - 1) / mult).
    assert (Hmx : mx * mult < 2 ^ 64 /\ 2 ^ 32 <= mx).
    { subst mx. split; [pose proof (Z.mul_div_le (2 ^ 64 - 1) mult); lia|]. apply Z.div_le_lower_bound; lia. }
    cbn zeta. set (delta := Z.max d (Z.min mx (expires - now))). assert (Hdl : 0 <= delta <= mx) by lia.
    assert (Hprod : delta * mult < 2 ^ 64) by nia. split; [done|]. unfold event_ticks, ktime_before, ktime_compare.
    cbn [ce_mult ce_shift min_delta_ns max_delta_ns]. fold mx. rewrite (proj2 (Z.ltb_ge expires now)) by lia.
    replace ((if now <? expires then 1 else 0) <? 0) with false by (by destruct (now <? expires)).
    unfold ktime_sub, signed64, KTIME_MAX in *. rewrite (proj2 (Z.leb_le _ _)), (proj2 (Z.ltb_lt _ _)) by lia. cbn [andb res_bind]. unfold ktime_to_ns. rewrite (u64_small (expires - now)) by lia.
    replace (if (if mx <? expires - now then mx else expires - now) <? d then d else if mx <? expires - now then mx else expires - now) with delta.
    + rewrite u64_small by nia. by rewrite shr64_ok by lia.
    + subst delta. destruct (Z.ltb_spec mx (expires - now)) as [H1|H1]; [destruct (Z.ltb_spec mx d)|destruct (Z.ltb_spec (expires - now) d)]; lia.
  - intros now expires Hlt. unfold event_ticks, ktime_before, ktime_compare. by rewrite (proj2 (Z.ltb_lt expires now)) by lia.
Qed.

Lemma clint_event_exact_witness :
  exists ce, ce_clint_timer_probe 10000000 clockevent_default = Ok ce /\
    Z.abs (ce_mult ce * 1000000000 - 10000000 * 2 ^ ce_shift ce) <= 500000000 /\
    (forall now expires, 0 <= now <= expires -> expires <= KTIME_MAX ->
      let delta := Z.max (min_delta_ns ce) (Z.min (max_delta_ns ce) (expires - now)) in
      delta * ce_mult ce < 2 ^ 64 /\ event_ticks now expires ce = Ok (Some (delta * ce_mult ce / 2 ^ ce_shift ce))) /\
    (forall now expires, expires < now -> event_ticks now expires ce = Ok None).
Proof. apply (clint_event_exact 10000000). lia. Defined.

(** ** The CLINT clock source *)

(** The count times the factor fits in 64 bits, and the instant in an [s64]. *)
Definition clock_fits (cs : clocksource) (r : Z) : Prop := r * cs_mult cs < 2 ^ 64 /\ r * cs_mult cs / 2 ^ cs_shift cs < 2 ^ 63.

Lemma cs_factors rate : 0 < rate < 2 ^ 32 ->
  exists cs, cs_clint_timer_probe rate = Ok cs /\ 0 <= cs_shift cs <= 32 /\ 0 <= cs_mult cs < 2 ^ 32 /\ cs_mask cs = 2 ^ 64 - 1 /\
    cs_mult cs = factor 1000000000 rate (cs_shift cs) /\ (forall d, 0 <= d <= 10 * rate -> clock_fits cs d).
Proof.
  intros Hr. unfold cs_clint_timer_probe, clocksource_calc_mult_shift. rewrite (u32_small rate) by lia. rewrite udiv_ok by lia. cbn [res_bind].
  set (q := 1000000000 / rate). assert (Hq : 0 <= q * rate <= 1000000000) by (subst q; pose proof (Z.mul_div_le 1000000000 rate ltac:(lia)); pose proof (Z.div_pos 1000000000 rate); nia).
  rewrite u32_small by lia. destruct (Z.eqb_spec (q * rate) 1000000000) as [Hex|Hne].
  { cbn [res_bind]. eexists. split; [done|]. cbn [cs_shift cs_mult cs_mask]. assert (0 <= q <= 1000000000) by (subst q; split; [apply Z.div_pos|apply Z.div_le_upper_bound]; lia).
    split_and!; [lia|lia|lia|lia|done| |intros d Hd; unfold clock_fits; cbn [cs_mult cs_shift]; change (2 ^ 0) with 1; rewrite Z.div_1_r; nia]. unfold factor. change (2 ^ 0) with 1. rewrite Z.mul_1_r. apply Z.div_unique with (rate / 2); [left|]; lia. }
  rewrite u64_small by lia. destruct (sftacc_of (10 * rate)) as (j & -> & Hj & Hlt & Hge); [lia|]. cbn [res_bind].
  destruct (shift_loop_ok 1000000000 rate (32 - j) 32 0) as (k & -> & Hk & Hfit & _); [lia|lia|lia|lia| |].
  { unfold factor. change (2 ^ 1) with 2. destruct (decide (j = 0)) as [->|Hj0].
    - apply Z.div_lt_upper_bound; [lia|]. cbn. lia.
    - specialize (Hge ltac:(lia)). assert (j <= 4) by (destruct (Z.le_gt_cases j 4); [done|]; pose proof (pow2_le 36 (31 + j) ltac:(lia)); lia).
      pose proof (pow2_le 28 (32 - j) ltac:(lia)). pose proof (pow2_le 32 (31 + j) ltac:(lia)). apply Z.div_lt_upper_bound; [lia|]. nia. }
  cbn [res_bind]. pose proof (factor_nonneg 1000000000 rate k ltac:(lia) ltac:(lia) ltac:(lia)) as Hnn. pose proof (pow2_le (32 - j) 32 ltac:(lia)).
  eexists. split; [done|]. cbn [cs_shift cs_mult cs_mask]. rewrite u32_small by lia. split_and!; [lia|lia|lia|lia|done|done|].
  intros d Hd. pose proof (product_fits j (10 * rate) (factor 1000000000 rate k) d Hj Hlt ltac:(lia) Hd) as Hp. split; [exact Hp|].
  pose proof (pow2_le 1 k ltac:(lia)) as H2. change (2 ^ 1) with 2 in H2. cbn [cs_mult cs_shift]. apply Z.div_lt_upper_bound; nia.
Qed.

Lemma land_mask64 x : 0 <= x < 2 ^ 64 -> Z.land x (2 ^ 64 - 1) = x.
Proof. intros Hx. change (2 ^ 64 - 1) with (Z.ones 64). rewrite Z.land_ones by lia. by apply Z.mod_small. Qed.

(** The instant of a count whose product with the factor fits. *)
Lemma keeper_read_exact cs r : 0 <= cs_shift cs <= 32 -> cs_mask cs = 2 ^ 64 - 1 -> 0 <= r < 2 ^ 64 -> 0 <= r * cs_mult cs < 2 ^ 64 -> r * cs_mult cs / 2 ^ cs_shift cs < 2 ^ 63 ->
  clocksource_keeper_read cs r = Ok (r * cs_mult cs / 2 ^ cs_shift cs).
Proof.
  intros Hs Hm Hr Hp H63. unfold clocksource_keeper_read, clocksource_cycle, clocksource_delta2ns. rewrite Hm, land_mask64 by done. rewrite (u64_small (r * _)) by done.
  rewrite shr64_ok by lia. cbn [res_bind]. unfold ns_to_ktime, ktime_add_ns. change (u64 0) with 0. rewrite Z.add_0_l, s64_small; [done|].
  pose proof (Z.div_pos (r * cs_mult cs) (2 ^ cs_shift cs)). pose proof (pow2_le 0 (cs_shift cs)). lia.
Qed.

(** C27. The clock of the CLINT timer, for every frequency: as long as the count times the
    factor fits in 64 bits and the instant in 63 bits, which they do for the first ten
    seconds at least, [ktime_get] is the count times the factor, to the nanosecond below, and
    it never goes back.  The factor is the ratio of nanoseconds to ticks, to the nearest. *)
Theorem clint_clock_monotone rate :
  0 < rate < 2 ^ 32 ->
  exists cs, cs_clint_timer_probe rate = Ok cs /\ Z.abs (cs_mult cs * rate - 1000000000 * 2 ^ cs_shift cs) <= rate / 2 /\
    (forall r, 0 <= r <= 10 * rate -> clock_fits cs r) /\
    (forall r, 0 <= r < 2 ^ 64 -> clock_fits cs r -> clocksource_ktime_get (Some cs) r = Ok (r * cs_mult cs / 2 ^ cs_shift cs)) /\
    (forall r1 r2, 0 <= r1 <= r2 -> r2 < 2 ^ 64 -> clock_fits cs r2 ->
      exists t1 t2, clocksource_ktime_get (Some cs) r1 = Ok t1 /\ clocksource_ktime_get (Some cs) r2 = Ok t2 /\ 0 <= t1 <= t2).
Proof.
  intros Hr. destruct (cs_factors rate Hr) as (cs & -> & Hs & Hm & Hmask & Em & Hfit). exists cs. pose proof (pow2_le 0 (cs_shift cs) ltac:(lia)) as Hp.
  split; [done|]. split; [rewrite Em; apply factor_near; lia|]. split; [done|].
  assert (Hget : forall r, 0 <= r < 2 ^ 64 -> clock_fits cs r -> clocksource_ktime_get (Some cs) r = Ok (r * cs_mult cs / 2 ^ cs_shift cs)).
  { intros r Hr0 [Hf1 Hf2]. apply keeper_read_exact; [done|done|lia|nia|done]. }
  split; [exact Hget|]. intros r1 r2 H12 H63 Hfit2. assert (Hle : r1 * cs_mult cs / 2 ^ cs_shift cs <= r2 * cs_mult cs / 2 ^ cs_shift cs) by (apply Z.div_le_mono; nia).
  assert (Hfit1 : clock_fits cs r1) by (destruct Hfit2; split; [nia|lia]). rewrite !Hget by (done || lia).
  eexists _, _. split; [done|]. split; [done|]. split; [|exact Hle]. apply Z.div_pos; nia.
Qed.

(** At 10 MHz, the frequency of the machine, the factor is 100 and the instants are exact for
    292 years; the first second reads one second. *)
Lemma clint_clock_monotone_witness :
  exists cs, cs_clint_timer_probe 10000000 = Ok cs /\ clocksource_ktime_get (Some cs) 10000000 = Ok 1000000000 /\
    exists t, clocksource_ktime_get (Some cs) 10000001 = Ok t /\ 1000000000 <= t.
Proof.
  destruct (clint_clock_monotone 10000000 ltac:(lia)) as (cs & E & _ & Hten & Hget & Hmono).
  destruct (Hmono 10000000 10000001) as (t1 & t2 & E1 & E2 & Hle); [lia|lia|apply Hten; lia|].
  assert (Hc : cs_mult cs = 100 /\ cs_shift cs = 0) by (vm_compute in E; injection E as <-; split; reflexivity).
  destruct Hc as [Hc1 Hc2]. assert (E1' := Hget 10000000 ltac:(lia) (Hten 10000000 ltac:(lia))). rewrite Hc1, Hc2 in E1'.
  exists cs. split; [exact E|]. split; [exact E1'|]. exists t2. split; [exact E2|]. rewrite E1' in E1. injection E1 as <-. apply Hle.
Defined.

(** With a frequency that does not divide 1 GHz, the clock starts again from 0 after a few minutes: at
    24 MHz the product overflows at count 6597069766, which is 275 seconds. *)
Lemma clint_clock_wraps :
  exists cs, cs_clint_timer_probe 24000000 = Ok cs /\
    clocksource_ktime_get (Some cs) 6597069765 = Ok 274877906907 /\ clocksource_ktime_get (Some cs) 6597069766 = Ok 5.
Proof. eexists. split; [vm_compute; reflexivity|]. split; vm_compute; reflexivity. Qed.

(** Where the time does not fit in an [s64] it is negative: at 10 MHz, with shift 0, after 292
    years. *)
Lemma clint_clock_negative :
  exists cs, cs_clint_timer_probe 10000000 = Ok cs /\ ~ clock_fits cs (2 ^ 63 / 100 + 1) /\
    exists t, clocksource_ktime_get (Some cs) (2 ^ 63 / 100 + 1) = Ok t /\ t < 0.
Proof.
  eexists. split; [vm_compute; reflexivity|]. split; [intros [_ Hf]; vm_compute in Hf; discriminate Hf|]. eexists. split; [vm_compute; reflexivity|lia].
Qed.

(** ** Sums of instants *)

Lemma ktime_add_safe_ok a b : 0 <= a -> 0 <= b -> a + b <= KTIME_MAX -> ktime_add_safe a b = Ok (a + b).
Proof.
  intros Ha Hb Hs. unfold ktime_add_safe, ktime_add, signed64, KTIME_MAX in *. rewrite (proj2 (Z.leb_le _ _)), (proj2 (Z.ltb_lt _ _)) by lia. cbn [andb res_bind].
  by rewrite !(proj2 (Z.ltb_ge _ _)) by lia.
Qed.

(** The saturation is never reached by a defined addition of instants that are not negative. *)
Lemma ktime_add_safe_overflow a b : KTIME_MAX < a + b -> ktime_add_safe a b = Undef.
Proof.
  intros Hs. unfold ktime_add_safe, ktime_add, signed64, KTIME_MAX in *. by rewrite (proj2 (Z.ltb_ge (a + b) (2 ^ 63))), andb_false_r by lia.
Qed.

Lemma ktime_add_safe_negative a b : - 2 ^ 63 <= a + b < 0 -> ktime_add_safe a b = Ok KTIME_MAX.
Proof.
  intros Hs. unfold ktime_add_safe, ktime_add, signed64. rewrite (proj2 (Z.leb_le _ _)), (proj2 (Z.ltb_lt _ (2 ^ 63))) by lia. cbn [andb res_bind].
  rewrite (proj2 (Z.ltb_lt _ 0)) by lia. cbn [orb]. done.
Qed.

Lemma ms_to_ktime_ok ms : 0 <= ms <= 9223372036854 -> ms_to_ktime ms = ms * 1000000.
Proof.
  intros H. unfold ms_to_ktime, ktime_add_ms, ktime_add_ns. change (u64 0) with 0. by rewrite Z.add_0_l, u64_small, s64_small by lia.
Qed.
