(* ===== verification/Timer.v ===== *)
(** * Timer: core/timer.c

    Timers wait in a red-black tree ordered by expiry; the base remembers the first of them
    and programs the clock event with its instant.  A timer is named by the address of its
    [node], so that [rb_entry] is the identity; the words of the nodes are in the tree's
    memory, the other fields in [timers].

    The counter of the hardware advances by itself: [mtime i] is what the [i]-th read of it
    gives, and [reads] counts the reads.  [function] pointers are codes, and [call] says what
    calling them does; [calls] records the timers whose function has been called. *)

From S2P Require Import Prelude Bits Rbtree Time.

Inductive timer_state := TIMER_STATE_INACTIVE | TIMER_STATE_ENQUEUED | TIMER_STATE_CALLBACK.

#[export] Instance timer_state_eq_dec : EqDecision timer_state.
Proof. solve_decision. Defined.

(** [t_base] says that [base] is [&__timer_base]; otherwise it is NULL. *)
Record timer := mk_timer { t_base : bool; t_state : timer_state; t_expires : Z; t_data : Z; t_function : Z }.

Record world := mk_world {
  tb_head : rb_tree;             (** __timer_base.head, and the nodes *)
  tb_next : Z;                   (** __timer_base.next *)
  tb_ce : Z;                     (** __timer_base.ce *)
  timers : gmap Z timer;
  ces : gmap Z clockevent;
  default_ce : Z;                (** __clockevent of driver/clockevent.c *)
  reads : nat;
  calls : list Z;
}.

Implicit Types w : world.

(** ** Fields *)

Definition set_head h w := mk_world h (tb_next w) (tb_ce w) (timers w) (ces w) (default_ce w) (reads w) (calls w).
Definition set_next n w := mk_world (tb_head w) n (tb_ce w) (timers w) (ces w) (default_ce w) (reads w) (calls w).
Definition set_tb_ce c w := mk_world (tb_head w) (tb_next w) c (timers w) (ces w) (default_ce w) (reads w) (calls w).
Definition set_timers m w := mk_world (tb_head w) (tb_next w) (tb_ce w) m (ces w) (default_ce w) (reads w) (calls w).
Definition set_ces m w := mk_world (tb_head w) (tb_next w) (tb_ce w) (timers w) m (default_ce w) (reads w) (calls w).
Definition set_default_ce c w := mk_world (tb_head w) (tb_next w) (tb_ce w) (timers w) (ces w) c (reads w) (calls w).
Definition set_reads n w := mk_world (tb_head w) (tb_next w) (tb_ce w) (timers w) (ces w) (default_ce w) n (calls w).
Definition set_calls l w := mk_world (tb_head w) (tb_next w) (tb_ce w) (timers w) (ces w) (default_ce w) (reads w) l.

Definition get_timer (a : Z) w : res timer := deref (timers w !! a).

Definition with_state (s : timer_state) (t : timer) : timer := mk_timer (t_base t) s (t_expires t) (t_data t) (t_function t).
Definition with_expires (e : Z) (t : timer) : timer := mk_timer (t_base t) (t_state t) e (t_data t) (t_function t).

Definition upd_timer (a : Z) (f : timer -> timer) w : res world :=
  let* t := get_timer a w in Ok (set_timers (<[a := f t]> (timers w)) w).

(** ** The queue *)

(** The search of [add_timer]: [p] is what [*p] is, [link] the side of [parent] that [p]
    points to, none for the root. *)
Fixpoint find_place (fuel : nat) (expires : Z) (parent : Z) (link : option side) (p : Z) w : res (Z * option side) :=
  match fuel with
  | O => Undef
  | S fuel =>
      if p =? 0 then Ok (parent, link)
      else
        let* ptr := get_timer p w in
        let d := if expires <? t_expires ptr then L else R in
        let* c := get_child d p (tb_head w) in
        find_place fuel expires p (Some d) c w
  end.

Definition add_timer (base : bool) (a : Z) w : res (world * bool) :=
  let* t := get_timer a w in
  if negb (bool_decide (t_state t = TIMER_STATE_INACTIVE)) then Ok (w, false)
  else
    let* _ := defined_if base in
    let* '(parent, link) := find_place (tree_fuel (tb_head w)) (t_expires t) 0 None (root (tb_head w)) w in
    let* h := rb_link_node a parent link (tb_head w) in
    let* h := rb_insert_color a h in
    let w := set_head h w in
    let* first := if tb_next w =? 0 then Ok true else let* n := get_timer (tb_next w) w in Ok (t_expires t <? t_expires n) in
    let w := if first then set_next a w else w in
    let* w := upd_timer a (with_state TIMER_STATE_ENQUEUED) w in
    Ok (w, a =? tb_next w).

Definition del_timer (base : bool) (a : Z) w : res (world * bool) :=
  let* t := get_timer a w in
  if negb (bool_decide (t_state t = TIMER_STATE_ENQUEUED)) then Ok (w, false)
  else
    let* _ := defined_if base in
    let* '(w, ret) :=
      if tb_next w =? a then let* rbn := rb_next a (tb_head w) in Ok (set_next rbn w, true) else Ok (w, false) in
    let* h := rb_erase a (tb_head w) in
    let* h := RB_CLEAR_NODE a h in
    let w := set_head h w in
    let* w := upd_timer a (with_state TIMER_STATE_INACTIVE) w in
    Ok (w, ret).

(** [memset] and the assignments after it. *)
Definition timer_init (a function data : Z) w : world :=
  if a =? 0 then w
  else set_timers (<[a := mk_timer true TIMER_STATE_INACTIVE 0 data function]> (timers w)) (set_head (put a (mk_rb a 0 0) (tb_head w)) w).

Section hardware.
Context (cs : option clocksource) (mtime : nat -> Z).

(** ** The clock *)

Definition ktime_get w : res (world * Z) :=
  let* t := clocksource_ktime_get cs (mtime (reads w)) in Ok (set_reads (S (reads w)) w, t).

(** [clockevent_set_event_next(ce, now, expires)]; only the CLINT's [next] reads the counter. *)
Definition set_event_next (p now expires : Z) w : res world :=
  if p =? 0 then Ok w
  else
    let* ce := deref (ces w !! p) in
    let* '(ce', programmed) := clockevent_set_event_next (mtime (reads w)) now expires ce in
    let n := match ce_program ce, programmed with ce_clint_next, true => S (reads w) | _, _ => reads w end in
    Ok (set_reads n (set_ces (<[p := ce']> (ces w)) w)).

(** The end of [timer_cancel], and of the first part of [timer_start]: program the clock event
    for the first timer, if it has changed and there is one. *)
Definition next_event (changed : bool) w : res world :=
  if changed && negb (tb_next w =? 0) then
    let* '(w, now) := ktime_get w in
    let* n := get_timer (tb_next w) w in
    set_event_next (tb_ce w) now (t_expires n) w
  else Ok w.

Definition timer_start (a now interval : Z) w : res world :=
  let* t := get_timer a w in
  let base := t_base t in
  let* '(w, changed) := del_timer base a w in
  let* w := next_event changed w in
  let* expires := ktime_add_safe now interval in
  let* w := upd_timer a (with_expires expires) w in
  let* '(w, first) := add_timer base a w in
  if first then
    let* '(w, now) := ktime_get w in
    let* t := get_timer a w in
    set_event_next (tb_ce w) now (t_expires t) w
  else Ok w.

Definition timer_start_now (a interval : Z) w : res world :=
  if a =? 0 then Ok w else let* '(w, now) := ktime_get w in timer_start a now interval w.

Definition timer_forward (a now interval : Z) w : res world :=
  if a =? 0 then Ok w
  else
    let* expires := ktime_add_safe now interval in
    upd_timer a (with_expires expires) w.

Definition timer_forward_now (a interval : Z) w : res world :=
  if a =? 0 then Ok w else let* '(w, now) := ktime_get w in timer_forward a now interval w.

Definition timer_cancel (a : Z) w : res world :=
  let* t := get_timer a w in
  let* '(w, changed) := del_timer (t_base t) a w in
  next_event changed w.

(** ** The event *)

(** [call function timer data] *)
Context (call : Z -> Z -> Z -> world -> res (world * Z)).

Fixpoint event_loop (fuel : nat) (now : Z) w : res world :=
  match fuel with
  | O => Undef
  | S fuel =>
      let a := tb_next w in
      if a =? 0 then Ok w
      else
        let* t := get_timer a w in
        if now <? t_expires t then Ok w
        else
          let* '(w, _) := del_timer true a w in
          let* w := upd_timer a (with_state TIMER_STATE_CALLBACK) w in
          let* t := get_timer a w in
          let* '(w, restart) := call (t_function t) a (t_data t) (set_calls (calls w ++ [a]) w) in
          let* w := upd_timer a (with_state TIMER_STATE_INACTIVE) w in
          let* w := if negb (restart =? 0) then let* '(w, _) := add_timer true a w in Ok w else Ok w in
          event_loop fuel now w
  end.

(** Each turn takes a timer out of the queue; one that comes back is not due. *)
Definition timer_event_handler (ce : Z) w : res world :=
  let* '(w, now) := ktime_get w in
  let* w := event_loop (S (size (timers w))) now w in
  if tb_next w =? 0 then Ok w
  else let* t := get_timer (tb_next w) w in set_event_next ce now (t_expires t) w.

Definition timer_bind_clockevent (p : Z) w : res world :=
  if p =? 0 then Ok w
  else
    let w := set_head (set_root 0 (tb_head w)) w in
    let w := set_tb_ce p (set_next 0 w) in
    let* ce := deref (ces w !! p) in
    Ok (set_ces (<[p := clockevent_set_event_handler timer_event_handler_of_base ce]> (ces w)) w).

Definition register_default_clockevent (p : Z) w : res world := timer_bind_clockevent p (set_default_ce p w).

Definition handle_clockevent w : res world :=
  let p := default_ce w in
  if p =? 0 then Ok w
  else
    let* ce := deref (ces w !! p) in
    match ce_on_event ce with ce_dummy_handler => Ok w | timer_event_handler_of_base => timer_event_handler p w end.

End hardware.

(** ** The functions of the kernel's timers *)

Definition SCHED_TIMER_FUNCTION : Z := 1.
Definition SLEEP_CALLBACK : Z := 2.

(** What [sched_timer_function] (core/sched.c) and [sleep_callback] (core/sys/time.c) do to the
    timers; their effect on the threads is in Sched.v. *)
Definition kernel_call (cs : option clocksource) (mtime : nat -> Z) (function a data : Z) w : res (world * Z) :=
  if function =? SCHED_TIMER_FUNCTION then
    let* w := timer_forward_now cs mtime a (ms_to_ktime 1000) w in Ok (w, 1)
  else if function =? SLEEP_CALLBACK then Ok (w, 0)
  else Undef.

(** [do_sched_init], for the timer at [a], and the timer of [sys_nanosleep]. *)
Definition sched_timer_init (cs : option clocksource) (mtime : nat -> Z) (a : Z) w : res world :=
  timer_start_now cs mtime a (ms_to_ktime 1000) (timer_init a SCHED_TIMER_FUNCTION 0 w).
Definition nanosleep_arm (cs : option clocksource) (mtime : nat -> Z) (a thread deadline : Z) w : res world :=
  timer_start cs mtime a deadline (ms_to_ktime 0) (timer_init a SLEEP_CALLBACK thread w).
