(* ===== verification/TimerProof.v ===== *)
(** * TimerProof: the queue of timers is a list sorted by expiry

    [queue_ok w q] says that the tree of the base holds the timers [q], in order of their
    expiry, and that [tb_next] is the first of them.  [add_timer] inserts after the timers of
    the same expiry, [del_timer] removes. *)

From stdpp Require Import sorting.
From S2P Require Import Prelude Bits Rbtree RbtreeHeap RbtreeProof RbtreeErase RbtreeIter Time Timer.

Implicit Types (w : world) (q : list Z) (t : tree) (h : rb_tree).

(** ** Sorted lists *)

Fixpoint qinsert (k : Z -> Z) (a : Z) q : list Z :=
  match q with
  | [] => [a]
  | b :: q' => if k a <? k b then a :: q else b :: qinsert k a q'
  end.

Abbreviation by_key k := (fun a b : Z => k a <= k b).

Lemma qinsert_app k a l1 l2 : Forall (fun b => k b <= k a) l1 -> Forall (fun b => k a < k b) l2 -> qinsert k a (l1 ++ l2) = l1 ++ a :: l2.
Proof.
  intros H1 H2. induction H1 as [|b l1 Hb H1 IH]; cbn.
  - destruct H2 as [|b l2 Hb H2]; [done|]. cbn. by rewrite (proj2 (Z.ltb_lt _ _)).
  - rewrite (proj2 (Z.ltb_ge _ _)) by lia. by rewrite IH.
Qed.

Lemma elem_of_qinsert k a b q : b ∈ qinsert k a q <-> b = a \/ b ∈ q.
Proof. induction q as [|c q IH]; cbn; [set_solver|]. destruct (k a <? k c); set_solver. Qed.

Lemma qinsert_head k a q : head (qinsert k a q) = Some (match q with [] => a | b :: _ => if k a <? k b then a else b end).
Proof. destruct q as [|b q]; [done|]. cbn. by destruct (k a <? k b). Qed.

Lemma qinsert_ext k k' a q : (forall b, b = a \/ b ∈ q -> k b = k' b) -> qinsert k a q = qinsert k' a q.
Proof.
  induction q as [|b q IH]; intros H; [done|]. cbn. rewrite (H a), (H b) by set_solver. rewrite IH; [done|]. intros c Hc. apply H. set_solver.
Qed.

Lemma qinsert_sorted k a q : StronglySorted (by_key k) q -> StronglySorted (by_key k) (qinsert k a q).
Proof.
  induction 1 as [|b q Hs IH Hb]; cbn; [repeat constructor|]. destruct (Z.ltb_spec (k a) (k b)) as [Hlt|Hge].
  - constructor; [by constructor|]. constructor; [lia|]. eapply Forall_impl; [exact Hb|]. cbn. lia.
  - constructor; [done|]. apply Forall_forall. intros c Hc. apply elem_of_qinsert in Hc as [->|Hc]; [lia|]. by eapply Forall_forall in Hb.
Qed.

Lemma sorted_ext k k' q : (forall b, b ∈ q -> k b = k' b) -> StronglySorted (by_key k) q -> StronglySorted (by_key k') q.
Proof.
  intros H Hs. induction Hs as [|b q Hs IH Hb]; constructor.
  - apply IH. intros c Hc. apply H. set_solver.
  - apply Forall_forall. intros c Hc. rewrite <- !H by set_solver. by eapply Forall_forall in Hb.
Qed.

(** The queue without a timer. *)
Definition without (a : Z) q : list Z := filter (fun b => b <> a) q.

Lemma without_none a q : a ∉ q -> without a q = q.
Proof.
  induction q as [|b q IH]; intros H; [done|]. unfold without in *. rewrite filter_cons_True by set_solver. f_equal. apply IH. set_solver.
Qed.

Lemma without_split a l1 l2 : NoDup (l1 ++ a :: l2) -> without a (l1 ++ a :: l2) = l1 ++ l2.
Proof.
  intros Hnd. apply NoDup_app in Hnd as (H1 & H2 & H3). apply NoDup_cons in H3 as [H3 H4]. unfold without. rewrite filter_app, filter_cons_False by tauto.
  change (without a l1 ++ without a l2 = l1 ++ l2). by rewrite (without_none a l1), (without_none a l2) by set_solver.
Qed.

Lemma sorted_without k a q : StronglySorted (by_key k) q -> StronglySorted (by_key k) (without a q).
Proof.
  induction 1 as [|b q Hs IH Hb]; [constructor|]. unfold without in *. rewrite filter_cons. case_decide; [|done]. constructor; [done|].
  apply Forall_forall. intros c [_ Hc]%list_elem_of_filter. by eapply Forall_forall in Hb.
Qed.

(** ** The invariant *)

Definition expiry w (a : Z) : Z := default 0 (t_expires <$> timers w !! a).

Lemma expiry_of w a (t : timer) : timers w !! a = Some t -> expiry w a = t_expires t.
Proof. intros H. unfold expiry. by rewrite H. Qed.

(** The timer at [a], whose node is in the memory of the tree. *)
Record timer_ok w a (t : timer) : Prop := mk_timer_ok {
  tk_good : good a;
  tk_node : is_Some (nodes (tb_head w) !! a);
  tk_range : 0 <= t_expires t <= KTIME_MAX;
  tk_base : t_state t = TIMER_STATE_ENQUEUED -> t_base t = true;
}.

Record queue_ok w q : Prop := mk_queue_ok {
  q_tree : exists t, tree_in (tb_head w) t (tb_head w) /\ rb_valid t /\ inorder t = q;
  q_next : tb_next w = default 0 (head q);
  q_sorted : StronglySorted (by_key (expiry w)) q;
  q_state a (t : timer) : timers w !! a = Some t -> (t_state t = TIMER_STATE_ENQUEUED <-> a ∈ q);
  q_known a : a ∈ q -> is_Some (timers w !! a);
  q_timer a (t : timer) : timers w !! a = Some t -> timer_ok w a t;
  q_ce : tb_ce w = 0 \/ exists ce, ces w !! tb_ce w = Some ce /\ 0 <= ce_shift ce < 64;
}.

Lemma tree_dom F t s a : tree_in F t s -> is_Some (nodes F !! a) \/ a ∈ inorder t -> is_Some (nodes s !! a).
Proof.
  intros Ht Ha. destruct (decide (a ∈ inorder t)) as [Hin|Hn].
  - eapply sub_ok_dom; [exact (holds_ok _ _ 1%nat _ _ Ht eq_refl)|done].
  - destruct Ha as [Ha|]; [|done]. rewrite (h_frame _ _ _ Ht); [done|]. cbn. by rewrite app_nil_r.
Qed.

Lemma queue_nodup w q : queue_ok w q -> NoDup q.
Proof. intros [(t & Ht & _ & <-) _ _ _ _ _ _]. by eapply tree_nodup. Qed.

Lemma queue_good w q a : queue_ok w q -> a ∈ q -> good a.
Proof. intros H Ha. destruct (q_known _ _ H a Ha) as [t Ht]. apply (tk_good _ _ _ (q_timer _ _ H a t Ht)). Qed.

(** ** The search for a place *)

Lemma find_place_ok w e : forall fuel K t,
  tree_in (tb_head w) (plug K t) (tb_head w) ->
  (forall a, a ∈ inorder t -> is_Some (timers w !! a)) ->
  StronglySorted (by_key (expiry w)) (inorder t) ->
  Forall (fun b => expiry w b <= e) (before K) -> Forall (fun b => e < expiry w b) (after K) ->
  (height t < fuel)%nat ->
  exists K', find_place fuel e (up K) (link_of K) (ptr t) w = Ok (up K', link_of K') /\ plug K' E = plug K t /\
    Forall (fun b => expiry w b <= e) (before K') /\ Forall (fun b => e < expiry w b) (after K').
Proof.
  induction fuel as [|fuel IH]; intros K t Ht Hk Hs Hb Ha Hf; [lia|]. cbn [find_place]. destruct t as [|c l a r]; [by exists K|].
  pose proof (tree_split _ _ _ _ Ht) as Hsp. pose proof (holds_ok _ _ 1%nat _ _ Hsp eq_refl) as (Hn & _).
  rewrite good_not_0 by (eapply (holds_good _ _ 1 _ _ _ Hsp eq_refl); cbn; set_solver). cbn [ptr].
  destruct (Hk a) as [tm Htm]; [cbn; set_solver|]. unfold get_timer. rewrite Htm. cbn [deref res_bind].
  cbn [inorder] in Hs. apply StronglySorted_app in Hs as (Hlr & Hsl & [Har Hsr]%StronglySorted_cons). cbn [height] in Hf.
  rewrite <- (expiry_of _ _ _ Htm). unfold get_child, get. rewrite Hn. cbn [deref res_bind]. destruct (Z.ltb_spec e (expiry w a)) as [Hlt|Hge]; cbn [child rb_left rb_right].
  - apply (IH (mk_frame L c a r :: K) l); [done| |done| | |lia].
    + intros b Hb'. apply Hk. cbn. set_solver.
    + cbn. by rewrite app_nil_r.
    + cbn. constructor; [done|]. apply Forall_app. split; [|done]. eapply Forall_impl; [exact Har|]. cbn. lia.
  - apply (IH (mk_frame R c a l :: K) r); [done| |done| | |lia].
    + intros b Hb'. apply Hk. cbn. set_solver.
    + cbn. rewrite !Forall_app. split_and!; [done| |by constructor]. apply Forall_forall. intros b Hb'. specialize (Hlr b a Hb' ltac:(set_solver)). cbn in Hlr. lia.
    + done.
Qed.

(** ** add_timer and del_timer *)

(** The parts of the state that the queue operations leave. *)
Definition rest w := (tb_ce w, ces w, default_ce w, reads w, calls w).

Lemma expiry_insert w w' a (tm tm' : timer) b :
  timers w !! a = Some tm -> timers w' = <[a := tm']> (timers w) -> t_expires tm' = t_expires tm -> expiry w' b = expiry w b.
Proof.
  intros Ha Hw He. unfold expiry. rewrite Hw. destruct (decide (a = b)) as [->|Hne]; [|by rewrite lookup_insert_ne].
  rewrite lookup_insert_eq, Ha. exact He.
Qed.

(** A change of the tree and of one timer. *)
Lemma queue_change w w' q q' a (tm tm' : timer) t' :
  queue_ok w q -> timers w !! a = Some tm -> timers w' = <[a := tm']> (timers w) -> t_expires tm' = t_expires tm -> t_base tm' = t_base tm ->
  rest w' = rest w -> tree_in (tb_head w') t' (tb_head w') -> rb_valid t' -> inorder t' = q' ->
  (forall b, is_Some (nodes (tb_head w) !! b) -> is_Some (nodes (tb_head w') !! b)) ->
  tb_next w' = default 0 (head q') -> StronglySorted (by_key (expiry w)) q' ->
  (forall b, b <> a -> b ∈ q' <-> b ∈ q) -> (t_state tm' = TIMER_STATE_ENQUEUED <-> a ∈ q') -> (a ∈ q' -> t_base tm = true) ->
  queue_ok w' q'.
Proof.
  intros H Ha Hw He Hb Hr Ht Hv Hi Hdom Hn Hs Hq Hst Hbase. unfold rest in Hr. injection Hr as E1 E2 E3 E4 E5. split; [by exists t'|done| | | | |].
  - eapply sorted_ext; [|exact Hs]. intros b _. symmetry. by eapply expiry_insert.
  - intros b u. rewrite Hw, lookup_insert_Some. intros [[<- <-]|[Hne Hu]]; [done|]. rewrite Hq by done. by apply (q_state _ _ H).
  - intros b Hb'. rewrite Hw. destruct (decide (a = b)) as [->|Hne]; [by rewrite lookup_insert_eq|]. rewrite lookup_insert_ne by done. by apply (q_known _ _ H), Hq.
  - intros b u. rewrite Hw, lookup_insert_Some. intros [[<- <-]|[Hne Hu]].
    + destruct (q_timer _ _ H _ _ Ha). split; [done|by apply Hdom|by rewrite He|]. rewrite Hst, Hb. done.
    + destruct (q_timer _ _ H _ _ Hu). split; [done|by apply Hdom|done|done].
  - rewrite E1, E2. apply (q_ce _ _ H).
Qed.

Lemma add_timer_ok w q a (tm : timer) :
  queue_ok w q -> timers w !! a = Some tm -> t_state tm = TIMER_STATE_INACTIVE -> t_base tm = true ->
  let q' := qinsert (expiry w) a q in
  exists w', add_timer true a w = Ok (w', bool_decide (head q' = Some a)) /\ queue_ok w' q' /\
    timers w' = <[a := with_state TIMER_STATE_ENQUEUED tm]> (timers w) /\ rest w' = rest w.
Proof.
  intros H Ha Hst Hbase q'. destruct (q_tree _ _ H) as (t & Ht & Hv & Hi). destruct (q_timer _ _ H a tm Ha) as [Hg Hnode _ _].
  assert (Haq : a ∉ q) by (rewrite <- (q_state _ _ H a tm Ha), Hst; done).
  unfold add_timer, get_timer. rewrite Ha. cbn [deref res_bind]. rewrite bool_decide_true by done. cbn [negb defined_if res_bind]. rewrite <- (expiry_of _ _ _ Ha).
  destruct (find_place_ok w (expiry w a) (tree_fuel (tb_head w)) [] t) as (K & EK & Hplug & Hbef & Haft); [done| | |constructor|constructor| |].
  { rewrite Hi. apply (q_known _ _ H). }
  { rewrite Hi. apply (q_sorted _ _ H). }
  { pose proof (holds_size _ _ _ Ht) as Hz. cbn in Hz. rewrite app_nil_r in Hz. pose proof (height_length t). unfold tree_fuel. lia. }
  cbn [plug] in Hplug. assert (Hroot : root (tb_head w) = ptr t) by exact (proj2 (holds_ok _ _ 0%nat _ _ Ht eq_refl)).
  change (up []) with 0 in EK. change (link_of []) with (@None side) in EK. rewrite Hroot, EK. cbn [res_bind].
  destruct (insert_ok (tb_head w) K a (tb_head w)) as (s1 & s2 & t' & -> & E2 & Ht' & Hv' & Hi'); [by rewrite Hplug|by rewrite Hplug|done|by rewrite Hplug, Hi|].
  cbn [res_bind]. rewrite E2. cbn [res_bind]. assert (Hq' : inorder t' = q').
  { rewrite Hi'. unfold q'. rewrite <- Hi, <- Hplug, inorder_plug. cbn [inorder app]. by rewrite qinsert_app. }
  assert (Hfirst : (if tb_next (set_head s2 w) =? 0 then Ok true else let* n := deref (timers (set_head s2 w) !! tb_next (set_head s2 w)) in Ok (expiry w a <? t_expires n))
    = Ok (bool_decide (head q' = Some a))).
  { cbn [set_head tb_next timers]. rewrite (q_next _ _ H). unfold q'. rewrite qinsert_head. destruct q as [|b q2]; cbn [head default from_option id].
    - by rewrite Z.eqb_refl, bool_decide_true.
    - assert (Hb : b ∈ b :: q2) by set_solver. rewrite good_not_0 by (by eapply queue_good). destruct (q_known _ _ H b Hb) as [tb Htb]. rewrite Htb. cbn [deref res_bind].
      rewrite (expiry_of _ _ _ Htb). f_equal. destruct (expiry w a <? t_expires tb); [by rewrite bool_decide_true|]. rewrite bool_decide_false; [done|]. set_solver. }
  rewrite Hfirst. cbn [res_bind]. set (first := bool_decide (head q' = Some a)) in *.
  assert (Hnext : tb_next (if first then set_next a (set_head s2 w) else set_head s2 w) = default 0 (head q')).
  { subst first. case_bool_decide as Hh; [by rewrite Hh|]. cbn [set_head tb_next]. rewrite (q_next _ _ H). unfold q' in *. rewrite qinsert_head in *.
    destruct q as [|b q2]; [done|]. destruct (expiry w a <? expiry w b); [done|done]. }
  unfold upd_timer, get_timer. set (w1 := if first then _ else _) in *. assert (Ew1 : timers w1 = timers w /\ tb_head w1 = s2 /\ rest w1 = rest w) by (subst w1; by destruct first).
  destruct Ew1 as (Et1 & Eh1 & Er1). rewrite Et1, Ha. cbn [deref res_bind]. eexists. split.
  { do 2 f_equal. change (tb_next (set_timers _ w1)) with (tb_next w1). rewrite Hnext. subst first. destruct (head q') as [b|] eqn:Eh; cbn [default from_option id].
    - destruct (Z.eqb_spec a b) as [->|Hne]; [by rewrite bool_decide_true|]. rewrite bool_decide_false; [done|]. by intros [= ->].
    - rewrite bool_decide_false by done. by apply good_not_0. }
  split; [|split; [done|by rewrite <- Er1]].
  eapply (queue_change w _ q q' a tm _ t'); [done|done|done|done|done|by rewrite <- Er1| |done|done| |done|by apply qinsert_sorted, (q_sorted _ _ H)| | |done].
  - cbn [set_timers tb_head]. rewrite Eh1. by eapply holds_self.
  - cbn [set_timers tb_head]. rewrite Eh1. intros b Hb. eapply tree_dom; [exact Ht'|]. by left.
  - intros b Hb. unfold q'. rewrite elem_of_qinsert. set_solver.
  - unfold q'. rewrite elem_of_qinsert. by split; [left|].
Qed.

Lemma add_timer_active w a (tm : timer) base : timers w !! a = Some tm -> t_state tm <> TIMER_STATE_INACTIVE -> add_timer base a w = Ok (w, false).
Proof. intros Ha Hs. unfold add_timer, get_timer. rewrite Ha. cbn [deref res_bind]. by rewrite bool_decide_false. Qed.

Lemma del_timer_inactive w a (tm : timer) base : timers w !! a = Some tm -> t_state tm <> TIMER_STATE_ENQUEUED -> del_timer base a w = Ok (w, false).
Proof. intros Ha Hs. unfold del_timer, get_timer. rewrite Ha. cbn [deref res_bind]. by rewrite bool_decide_false. Qed.

(** A node out of the tree may be written. *)
Lemma tree_put F t s a n : tree_in F t s -> good a -> a ∉ inorder t -> tree_in (put a n s) t (put a n s).
Proof.
  intros Ht Hg Ha. assert (Hf : a ∉ feet [Ctx [] (ptr t); Sub 0 t]) by (cbn; by rewrite app_nil_r).
  pose proof (holds_add _ _ _ a n Ht Hg Hf) as H. by eapply (holds_drop _ _ a n) in H.
Qed.

(** [rb_erase] and [RB_CLEAR_NODE]. *)
Lemma erase_clear t x s :
  tree_in s t s -> rb_valid t -> x ∈ inorder t ->
  exists s1 s2 t', rb_erase x s = Ok s1 /\ RB_CLEAR_NODE x s1 = Ok s2 /\ tree_in s2 t' s2 /\ rb_valid t' /\
    (exists l1 l2, inorder t = l1 ++ x :: l2 /\ inorder t' = l1 ++ l2) /\
    (forall b, is_Some (nodes s !! b) -> is_Some (nodes s2 !! b)).
Proof.
  intros Ht Hv Hx. destruct (erase_ok s t x s Ht Hv Hx) as (s1 & t' & E1 & Ht' & Hv' & (l1 & l2 & Hi & Hi') & Hout & [nx Hxs] & Hl).
  assert (Hg : good x) by (eapply (holds_good _ _ 1 _ _ _ Ht eq_refl); done).
  assert (Hnx : x ∉ inorder t').
  { pose proof (tree_nodup _ _ _ Ht) as Hnd. rewrite Hi in Hnd. rewrite Hi'. apply NoDup_app in Hnd as (_ & H2 & H3). apply NoDup_cons in H3 as [H3 _]. set_solver. }
  unfold RB_CLEAR_NODE, set_pc, get. eexists s1, _, t'. rewrite Hxs. split; [done|]. split; [done|]. split; [by eapply tree_put|]. split; [done|]. split; [by exists l1, l2|].
  intros b Hb. cbn [put nodes]. apply lookup_insert_is_Some'. destruct (decide (b = x)) as [->|Hbx]; [by left|]. right.
  destruct (decide (b ∈ inorder t)) as [Hin|Hn]; [|by rewrite Hout]. eapply tree_dom; [exact Ht'|]. right. rewrite Hi'. rewrite Hi in Hin. set_solver.
Qed.

Lemma del_timer_ok w q a (tm : timer) :
  queue_ok w q -> timers w !! a = Some tm -> t_state tm = TIMER_STATE_ENQUEUED ->
  exists w', del_timer true a w = Ok (w', bool_decide (head q = Some a)) /\ queue_ok w' (without a q) /\
    timers w' = <[a := with_state TIMER_STATE_INACTIVE tm]> (timers w) /\ rest w' = rest w.
Proof.
  intros H Ha Hst. destruct (q_tree _ _ H) as (t & Ht & Hv & Hi). assert (Haq : a ∈ q) by (by apply (q_state _ _ H a tm Ha)).
  assert (Hg : good a) by (by eapply queue_good).
  destruct (erase_clear t a (tb_head w) Ht Hv) as (s1 & s2 & t' & E1 & E2 & Ht' & Hv' & (l1 & l2 & Hl & Hl') & Hdom); [by rewrite Hi|].
  pose proof (queue_nodup _ _ H) as Hnd. rewrite Hi in Hl. assert (Hq' : without a q = l1 ++ l2) by (rewrite Hl in *; by apply without_split).
  unfold del_timer, get_timer. rewrite Ha. cbn [deref res_bind]. rewrite bool_decide_true by done. cbn [negb defined_if res_bind].
  set (first := bool_decide (head q = Some a)).
  assert (Hstep : exists w1, (if tb_next w =? a then let* rbn := rb_next a (tb_head w) in Ok (set_next rbn w, true) else Ok (w, false)) = Ok (w1, first) /\
    tb_next w1 = default 0 (head (l1 ++ l2)) /\ tb_head w1 = tb_head w /\ timers w1 = timers w /\ rest w1 = rest w).
  { rewrite (q_next _ _ H). subst first. destruct l1 as [|b l1]; cbn [app] in Hl.
    - rewrite Hl. cbn [head default from_option id]. rewrite Z.eqb_refl, bool_decide_true by done.
      assert (Hn : rb_next a (tb_head w) = Ok (default 0 (head l2))) by (apply (rb_step_ok _ R t _ [] a l2 Ht); by rewrite Hi).
      rewrite Hn. cbn [res_bind]. eexists. by split.
    - rewrite Hl. cbn [head default from_option id]. assert (Hab : b <> a) by (rewrite Hl in Hnd; apply NoDup_cons in Hnd as [Hnd _]; set_solver).
      rewrite (proj2 (Z.eqb_neq b a)) by done. rewrite bool_decide_false by congruence. eexists. split; [done|]. split; [|done]. by rewrite (q_next _ _ H), Hl. }
  destruct Hstep as (w1 & -> & Hn1 & Eh1 & Et1 & Er1). cbn [res_bind]. rewrite Eh1, E1. cbn [res_bind]. rewrite E2. cbn [res_bind].
  unfold upd_timer, get_timer. cbn [set_head timers]. rewrite Et1, Ha. cbn [deref res_bind]. eexists. split; [done|]. split; [|split; [done|by rewrite <- Er1]].
  eapply (queue_change w _ q (without a q) a tm _ t'); [done|done|done|done|done|by rewrite <- Er1|done|done|by rewrite Hq'|done| |by apply sorted_without, (q_sorted _ _ H)| | |].
  - cbn. by rewrite Hq', Hn1.
  - intros b Hb. unfold without. rewrite list_elem_of_filter. tauto.
  - split; [done|]. unfold without. rewrite list_elem_of_filter. tauto.
  - unfold without. rewrite list_elem_of_filter. tauto.
Qed.
