(* ===== verification/TimerEvents.v ===== *)
(** * TimerEvents: starting, cancelling and firing timers

    [Clock] is what the timers need of the clock: a value that is defined, in range and never
    goes back.  [TimerFunctions] is what they need of the functions that they call: a function
    may move its own timer, past the present if it asks to be called again. *)

From stdpp Require Import sorting.
From S2P Require Import Prelude Bits Rbtree RbtreeHeap RbtreeProof RbtreeErase RbtreeIter Time Timer TimerProof.

Implicit Types (w : world) (q : list Z).

Class Clock (cs : option clocksource) (mtime : nat -> Z) (clock : nat -> Z) : Prop := {
  clock_read i : clocksource_ktime_get cs (mtime i) = Ok (clock i);
  clock_range i : 0 <= clock i <= KTIME_MAX;
  clock_mono i j : (i <= j)%nat -> clock i <= clock j;
}.

Record called now (a : Z) (tm : timer) w w' (r : Z) (tm' : timer) : Prop := mk_called {
  cd_head : tb_head w' = tb_head w;
  cd_next : tb_next w' = tb_next w;
  cd_ce : tb_ce w' = tb_ce w;
  cd_ces : ces w' = ces w;
  cd_calls : calls w' = calls w;
  cd_reads : (reads w <= reads w')%nat;
  cd_timers : timers w' = <[a := tm']> (timers w);
  cd_state : t_state tm' = t_state tm;
  cd_base : t_base tm' = t_base tm;
  cd_function : t_function tm' = t_function tm;
  cd_range : 0 <= t_expires tm' <= KTIME_MAX;
  cd_later : r <> 0 -> now < t_expires tm';
}.

Class TimerFunctions (clock : nat -> Z) (fns : list Z) (call : Z -> Z -> Z -> world -> res (world * Z)) : Prop := {
  call_ok now w a tm :
    timers w !! a = Some tm -> t_state tm = TIMER_STATE_CALLBACK -> t_function tm ∈ fns -> a <> 0 ->
    0 <= t_expires tm <= KTIME_MAX -> now <= clock (reads w) ->
    exists w' r tm', call (t_function tm) a (t_data tm) w = Ok (w', r) /\ called now a tm w w' r tm';
}.

(** ** Programming the clock event *)

Lemma event_ticks_defined now expires ce : 0 <= ce_shift ce < 64 -> 0 <= now -> expires <= KTIME_MAX -> exists o, event_ticks now expires ce = Ok o /\ (now <= expires -> is_Some o).
Proof.
  intros Hs Hn He. unfold event_ticks, ktime_before, ktime_compare. destruct (Z.ltb_spec expires now) as [Hlt|Hge]; [exists None; split; [done|lia]|].
  replace ((if now <? expires then 1 else 0) <? 0) with false by (by destruct (now <? expires)).
  unfold ktime_sub, signed64, KTIME_MAX in *. rewrite (proj2 (Z.leb_le _ _)), (proj2 (Z.ltb_lt _ _)) by lia. cbn [andb res_bind]. rewrite shr64_ok by lia. cbn [res_bind].
  by eexists.
Qed.

(** What is left of the queue when only the clock event and the reads change. *)
Definition same_queue w w' : Prop :=
  tb_head w' = tb_head w /\ tb_next w' = tb_next w /\ tb_ce w' = tb_ce w /\ timers w' = timers w /\ calls w' = calls w /\ (reads w <= reads w')%nat.

Lemma same_queue_refl w : same_queue w w.
Proof. by repeat split. Qed.
Lemma same_queue_trans w1 w2 w3 : same_queue w1 w2 -> same_queue w2 w3 -> same_queue w1 w3.
Proof. unfold same_queue. intros (->&->&->&->&->&?) (->&->&->&->&->&?). by split_and!; try lia. Qed.

Definition ce_ok w : Prop := tb_ce w = 0 \/ exists ce, ces w !! tb_ce w = Some ce /\ 0 <= ce_shift ce < 64.

Lemma queue_eq w w' q : queue_ok w q -> tb_head w' = tb_head w -> tb_next w' = tb_next w -> timers w' = timers w -> ce_ok w' -> queue_ok w' q.
Proof.
  intros [H1 H2 H3 H4 H5 H6 H7] E1 E2 E4 Hce. split; rewrite ?E1, ?E2, ?E4; try done.
  - eapply sorted_ext; [|exact H3]. intros b _. unfold expiry. by rewrite E4.
  - intros a t Ht. destruct (H6 a t Ht). split; [done|by rewrite E1|done|done].
Qed.

Lemma queue_same w w' q : queue_ok w q -> same_queue w w' -> ce_ok w' -> queue_ok w' q.
Proof. intros H (E1 & E2 & _ & E4 & _) Hce. by eapply queue_eq. Qed.

(** The compare register after an event at [expires] has been asked for at [now]. *)
Definition asked (mt now expires : Z) (ce ce' : clockevent) : Prop :=
  match event_ticks now expires ce, ce_program ce with
  | Ok (Some evt), ce_clint_next => ce' = ce_clint_timer_next mt evt ce
  | _, _ => ce' = ce
  end.

(** The reads of the counter so far and the clock events, after the event [p] has been asked
    for [expires] at [now]: a CLINT event that is not in the past reads the counter once more
    and sets its compare register. *)
Definition programmed (mtime : nat -> Z) (p now expires : Z) (x : nat * gmap Z clockevent) : nat * gmap Z clockevent :=
  let '(n, m) := x in
  match (if p =? 0 then None else m !! p) with
  | Some ce =>
      match event_ticks now expires ce, ce_program ce with
      | Ok (Some evt), ce_clint_next => (S n, <[p := ce_clint_timer_next (mtime n) evt ce]> m)
      | _, _ => (n, m)
      end
  | None => (n, m)
  end.

(** The same with the present time, read first. *)
Definition ask (mtime clock : nat -> Z) (p : Z) (x : nat * gmap Z clockevent) (expires : Z) : nat * gmap Z clockevent :=
  programmed mtime p (clock x.1) expires (S x.1, x.2).

Section clock.
Context (cs : option clocksource) (mtime clock : nat -> Z) `{!Clock cs mtime clock}.

Lemma set_event_next_exact w w' p now expires :
  set_event_next mtime p now expires w = Ok w' -> (reads w', ces w') = programmed mtime p now expires (reads w, ces w).
Proof.
  unfold set_event_next, programmed. destruct (Z.eqb_spec p 0) as [->|Hp]; [by intros [= <-]|]. destruct (ces w !! p) as [ce|] eqn:Ep; [|done].
  cbn [deref res_bind]. unfold clockevent_set_event_next. destruct (event_ticks now expires ce) as [[evt|]| |]; cbn [res_bind]; [| |done|done].
  - destruct (ce_program ce); cbn [res_bind]; intros [= <-]; cbn; [by rewrite insert_id|done].
  - intros [= <-]. cbn. rewrite insert_id by done. by destruct (ce_program ce).
Qed.

Lemma set_event_next_ok w p now expires :
  p = 0 \/ (exists ce, ces w !! p = Some ce /\ 0 <= ce_shift ce < 64) -> 0 <= now -> expires <= KTIME_MAX ->
  exists w', set_event_next mtime p now expires w = Ok w' /\ same_queue w w' /\
    (p = 0 /\ w' = w \/ exists ce ce', ces w !! p = Some ce /\ ces w' = <[p := ce']> (ces w) /\ ce_shift ce' = ce_shift ce /\ asked (mtime (reads w)) now expires ce ce').
Proof.
  intros Hp Hn He. unfold set_event_next. destruct (Z.eqb_spec p 0) as [->|Hp0].
  { exists w. split; [done|]. split; [apply same_queue_refl|by left]. }
  destruct Hp as [?|(ce & Hce & Hs)]; [done|]. rewrite Hce. cbn [deref res_bind]. unfold clockevent_set_event_next, asked.
  destruct (event_ticks_defined now expires ce Hs Hn He) as (o & Eo & _). rewrite Eo. cbn [res_bind].
  destruct o as [evt|]; [destruct (ce_program ce) eqn:Ep|]; cbn [res_bind]; eexists; (split; [done|]); (split; [repeat split; cbn; repeat case_match; lia|]); right;
    exists ce; eexists; (split; [done|]); (split; [done|]); split; rewrite ?Eo, ?Ep; done.
Qed.

Lemma ktime_get_ok w : ktime_get cs mtime w = Ok (set_reads (S (reads w)) w, clock (reads w)).
Proof. unfold ktime_get. by rewrite clock_read. Qed.

(** Reading the clock and asking for the event of the timer [a]. *)
Lemma ask_ok w a tm (e : Z) :
  ce_ok w -> timers w !! a = Some tm -> t_expires tm = e -> 0 <= e <= KTIME_MAX ->
  exists w', (let* '(w, now) := ktime_get cs mtime w in let* t := get_timer a w in set_event_next mtime (tb_ce w) now (t_expires t) w) = Ok w' /\ same_queue w w' /\ ce_ok w' /\
    (tb_ce w <> 0 -> exists ce ce', ces w !! tb_ce w = Some ce /\ ces w' !! tb_ce w = Some ce' /\ asked (mtime (S (reads w))) (clock (reads w)) e ce ce') /\
    (reads w', ces w') = ask mtime clock (tb_ce w) (reads w, ces w) e.
Proof.
  intros Hce Ha He Hr. rewrite ktime_get_ok. cbn [res_bind]. unfold get_timer. cbn [set_reads timers tb_ce]. rewrite Ha. cbn [deref res_bind]. rewrite He.
  set (w1 := set_reads (S (reads w)) w). destruct (set_event_next_ok w1 (tb_ce w) (clock (reads w)) e) as (w' & E & Hq & Hor); [exact Hce|apply clock_range|lia|].
  exists w'. split; [done|]. split; [by eapply same_queue_trans; [|exact Hq]; repeat split; cbn; lia|]. destruct Hq as (_ & _ & Ec & _). change (tb_ce w1) with (tb_ce w) in Ec.
  pose proof (set_event_next_exact _ _ _ _ _ E) as Hex.
  unfold ce_ok. rewrite Ec. destruct Hor as [[H0 ->]|(ce & ce' & H1 & H2 & H3 & H4)]; [split; [by left|done]|].
  assert (Hl : ces w' !! tb_ce w = Some ce') by (rewrite H2; apply lookup_insert_eq). destruct (decide (tb_ce w = 0)) as [H0|H0]; [split; [by left|done]|]. split; [|split; [|exact Hex]].
  - right. exists ce'. split; [done|]. rewrite H3. destruct Hce as [?|(c & Hc & Hs)]; [done|]. change (ces w1) with (ces w) in H1. congruence.
  - intros _. by exists ce, ce'.
Qed.

Lemma next_event_ok w q changed :
  queue_ok w q -> exists w', next_event cs mtime changed w = Ok w' /\ same_queue w w' /\ ce_ok w' /\
    (changed = false -> w' = w) /\
    (reads w', ces w') = foldl (ask mtime clock (tb_ce w)) (reads w, ces w) (if changed then option_list (expiry w <$> head q) else []) /\
    (forall b, changed = true -> head q = Some b -> tb_ce w <> 0 ->
      exists ce ce', ces w !! tb_ce w = Some ce /\ ces w' !! tb_ce w = Some ce' /\ asked (mtime (S (reads w))) (clock (reads w)) (expiry w b) ce ce').
Proof.
  intros H. unfold next_event. rewrite (q_next _ _ H). destruct q as [|b q]; cbn [head default from_option id]; [|destruct changed].
  1: rewrite Z.eqb_refl, andb_false_r. 1, 3: (exists w; split; [done|]; split; [apply same_queue_refl|]; split; [apply (q_ce _ _ H)|]; split; [done|]; split; [first [done|by destruct changed]|done]).
  assert (Hb : b ∈ b :: q) by set_solver. destruct (q_known _ _ H b Hb) as [tb Htb]. rewrite good_not_0 by (by eapply queue_good). cbn [andb negb].
  destruct (ask_ok w b tb (t_expires tb) (q_ce _ _ H) Htb eq_refl (tk_range _ _ _ (q_timer _ _ H b tb Htb))) as (w' & E & Hq & Hce & Hask & Hex).
  exists w'. split.
  { rewrite <- E. rewrite ktime_get_ok. cbn [res_bind]. change (tb_next (set_reads (S (reads w)) w)) with (tb_next w). by rewrite (q_next _ _ H). }
  split; [done|]. split; [done|]. split; [done|]. split; [cbn [foldl option_list fmap option_fmap option_map]; by rewrite (expiry_of _ _ _ Htb)|].
  intros c _ [= <-] H0. rewrite (expiry_of _ _ _ Htb). by apply Hask.
Qed.
End clock.

(** ** Starting and cancelling *)

(** A timer out of the queue may change. *)
Lemma queue_set w q a tm' :
  queue_ok w q -> a ∉ q -> is_Some (timers w !! a) -> t_state tm' <> TIMER_STATE_ENQUEUED -> 0 <= t_expires tm' <= KTIME_MAX ->
  queue_ok (set_timers (<[a := tm']> (timers w)) w) q.
Proof.
  intros [H1 H2 H3 H4 H5 H6 H7] Ha [t0 Ht0] Hst Hr. split; try done.
  - eapply sorted_ext; [|exact H3]. intros b Hb. unfold expiry. cbn. rewrite lookup_insert_ne; [done|]. by intros ->.
  - intros b u. cbn. rewrite lookup_insert_Some. intros [[<- <-]|[Hne Hu]]; [by split|by apply H4].
  - intros b Hb. cbn. apply lookup_insert_is_Some'. right. by apply H5.
  - intros b u. cbn. rewrite lookup_insert_Some. intros [[<- <-]|[Hne Hu]].
    + destruct (H6 _ _ Ht0). by split.
    + destruct (H6 _ _ Hu). by split.
Qed.

(** [del_timer] in any state of the timer but [CALLBACK]. *)
Lemma del_timer_any w q a tm :
  queue_ok w q -> timers w !! a = Some tm -> t_base tm = true -> t_state tm <> TIMER_STATE_CALLBACK ->
  exists w', del_timer true a w = Ok (w', bool_decide (head q = Some a)) /\ queue_ok w' (without a q) /\
    timers w' = <[a := with_state TIMER_STATE_INACTIVE tm]> (timers w) /\ rest w' = rest w.
Proof.
  intros H Ha Hb Hc. destruct (t_state tm) eqn:Hst; [|by apply del_timer_ok|done]. exists w.
  assert (Hn : a ∉ q) by (rewrite <- (q_state _ _ H a tm Ha), Hst; done).
  rewrite (del_timer_inactive w a tm) by (done || by rewrite Hst). rewrite without_none by done. split; [|split; [done|split; [|done]]].
  - rewrite bool_decide_false; [done|]. intros Hh. apply Hn. by destruct q; simplify_eq/=; left.
  - rewrite insert_id; [done|]. rewrite Ha. f_equal. destruct tm. cbn in *. by subst.
Qed.

(** The queue that starting a timer leaves. *)
Definition started (k : Z -> Z) (a e : Z) q : list Z := qinsert (fun b => if b =? a then e else k b) a (without a q).

(** The instants that the clock event is asked for when the timer [a] is started at [e]: when it
    was the first, that of the timer behind it; when it is the first, its own. *)
Definition start_asks (k : Z -> Z) (a e : Z) q : list Z :=
  (if bool_decide (head q = Some a) then option_list (k <$> head (without a q)) else []) ++
  (if bool_decide (head (started k a e q) = Some a) then [e] else []).

Section start.
Context (cs : option clocksource) (mtime clock : nat -> Z) `{!Clock cs mtime clock}.

Lemma timer_start_ok w q a tm now interval :
  queue_ok w q -> timers w !! a = Some tm -> t_base tm = true -> t_state tm <> TIMER_STATE_CALLBACK ->
  0 <= now -> 0 <= interval -> now + interval <= KTIME_MAX ->
  exists w', timer_start cs mtime a now interval w = Ok w' /\ queue_ok w' (started (expiry w) a (now + interval) q) /\
    timers w' = <[a := with_state TIMER_STATE_ENQUEUED (with_expires (now + interval) tm)]> (timers w) /\
    calls w' = calls w /\ tb_ce w' = tb_ce w /\
    (reads w', ces w') = foldl (ask mtime clock (tb_ce w)) (reads w, ces w) (start_asks (expiry w) a (now + interval) q).
Proof.
  intros H Ha Hb Hc Hn Hi Hsum. set (e := now + interval) in *. unfold timer_start, get_timer. rewrite Ha. cbn [deref res_bind]. rewrite Hb.
  destruct (del_timer_any w q a tm H Ha Hb Hc) as (w1 & -> & H1 & Ht1 & Hr1). cbn [res_bind]. unfold rest in Hr1. injection Hr1 as Ec1 Es1 Ed1 En1 Ecl1.
  destruct (next_event_ok cs mtime clock w1 (without a q) (bool_decide (head q = Some a)) H1) as (w2 & -> & Hq2 & Hce2 & _ & Hex2 & _). cbn [res_bind].
  rewrite ktime_add_safe_ok by (unfold e in *; lia). cbn [res_bind]. pose proof (queue_same _ _ _ H1 Hq2 Hce2) as H2. destruct Hq2 as (_ & _ & Ec2 & Et2 & Ecl2 & En2).
  fold e. unfold upd_timer, get_timer. rewrite Et2, Ht1, lookup_insert_eq. cbn [deref res_bind]. rewrite insert_insert_eq.
  set (tm2 := with_expires e (with_state TIMER_STATE_INACTIVE tm)). set (w3 := set_timers _ w2).
  assert (Hnot : a ∉ without a q) by (unfold without; rewrite list_elem_of_filter; tauto).
  assert (H3 : queue_ok w3 (without a q)).
  { subst w3. rewrite <- (insert_insert_eq (timers w) a tm2 (with_state TIMER_STATE_INACTIVE tm)), <- Ht1, <- Et2.
    apply queue_set; [done|done| |done|unfold e; cbn; lia]. rewrite Et2, Ht1, lookup_insert_eq. done. }
  assert (Ha3 : timers w3 !! a = Some tm2) by apply lookup_insert_eq.
  destruct (add_timer_ok w3 (without a q) a tm2 H3 Ha3 eq_refl Hb) as (w4 & -> & H4 & Ht4 & Hr4). cbn [res_bind]. unfold rest in Hr4. injection Hr4 as Ec4 Es4 Ed4 En4 Ecl4.
  assert (Eq : qinsert (expiry w3) a (without a q) = started (expiry w) a e q).
  { apply qinsert_ext. intros b Hb'. unfold expiry. cbn [w3 set_timers timers]. destruct (Z.eqb_spec b a) as [->|Hne]; [by rewrite lookup_insert_eq|].
    by rewrite lookup_insert_ne. }
  rewrite Eq in *. assert (Ht4' : timers w4 = <[a := with_state TIMER_STATE_ENQUEUED (with_expires e tm)]> (timers w)) by (rewrite Ht4; subst w3; cbn; by rewrite insert_insert_eq).
  assert (Hreads : (reads w <= reads w4)%nat) by (rewrite En4; subst w3; cbn; lia).
  assert (Hce : tb_ce w4 = tb_ce w) by (rewrite Ec4; subst w3; cbn; congruence). assert (Hcl : calls w4 = calls w) by (rewrite Ecl4; subst w3; cbn; congruence).
  assert (Hex4 : (reads w4, ces w4) = foldl (ask mtime clock (tb_ce w)) (reads w, ces w)
    (if bool_decide (head q = Some a) then option_list (expiry w <$> head (without a q)) else [])).
  { replace (reads w4, ces w4) with (reads w2, ces w2) by (rewrite En4, Es4; done). rewrite Hex2, Ec1, En1, Es1. case_bool_decide; [|done].
    f_equal. destruct (without a q) as [|b q'] eqn:Ewo; [done|]. cbn [head fmap option_fmap option_map option_list]. f_equal. unfold expiry. rewrite Ht1.
    rewrite lookup_insert_ne; [done|]. intros ->. apply Hnot. apply list_elem_of_here. }
  unfold start_asks. fold e. rewrite foldl_app, <- Hex4. destruct (decide (head (started (expiry w) a e q) = Some a)) as [Hfirst|Hfirst];
    [rewrite !bool_decide_true by done|rewrite !bool_decide_false by done; by exists w4].
  destruct (ask_ok cs mtime clock w4 a _ e (q_ce _ _ H4) ltac:(rewrite Ht4'; apply lookup_insert_eq) eq_refl ltac:(unfold e; lia)) as (w5 & E5 & Hq5 & Hce5 & _ & Hex5).
  exists w5. split; [exact E5|]. split; [by eapply queue_same|]. destruct Hq5 as (_ & _ & Ec5 & Et5 & Ecl5 & En5). split; [by rewrite Et5|].
  split; [congruence|]. split; [congruence|]. by rewrite Hex5, Hce.
Qed.

Lemma timer_cancel_ok w q a tm :
  queue_ok w q -> timers w !! a = Some tm -> t_base tm = true -> t_state tm <> TIMER_STATE_CALLBACK ->
  exists w', timer_cancel cs mtime a w = Ok w' /\ queue_ok w' (without a q) /\
    timers w' = <[a := with_state TIMER_STATE_INACTIVE tm]> (timers w) /\ calls w' = calls w /\ tb_ce w' = tb_ce w.
Proof.
  intros H Ha Hb Hc. unfold timer_cancel, get_timer. rewrite Ha. cbn [deref res_bind]. rewrite Hb.
  destruct (del_timer_any w q a tm H Ha Hb Hc) as (w1 & -> & H1 & Ht1 & Hr1). cbn [res_bind]. unfold rest in Hr1. injection Hr1 as Ec1 Es1 Ed1 En1 Ecl1.
  destruct (next_event_ok cs mtime clock w1 (without a q) (bool_decide (head q = Some a)) H1) as (w2 & -> & Hq2 & Hce2 & _). exists w2. split; [done|].
  split; [by eapply queue_same|]. destruct Hq2 as (_ & _ & Ec2 & Et2 & Ecl2 & En2). split_and!; congruence.
Qed.
End start.

(** ** Firing *)

Lemma sorted_due k n q : StronglySorted (by_key k) q -> q = filter (fun a => k a <= n) q ++ filter (fun a => n < k a) q.
Proof.
  induction 1 as [|b q Hs IH Hb]; [done|]. rewrite !filter_cons. destruct (decide (k b <= n)) as [Hle|Hgt].
  - rewrite (decide_False (P := n < k b)) by lia. cbn. by rewrite <- IH.
  - rewrite (decide_True (P := n < k b)) by lia. assert (Hall : Forall (fun a => n < k a) q) by (eapply Forall_impl; [exact Hb|]; cbn; lia).
    assert (E1 : filter (fun a => k a <= n) q = []) by (clear -Hall; induction Hall as [|a q Ha Hq IHq]; [done|]; rewrite filter_cons_False by lia; done).
    rewrite E1 in *. cbn in *. by rewrite <- IH.
Qed.

Section fire.
Context (cs : option clocksource) (mtime clock : nat -> Z) `{!Clock cs mtime clock}.
Context (fns : list Z) (call : Z -> Z -> Z -> world -> res (world * Z)) `{!TimerFunctions clock fns call}.

Definition functions_ok w : Prop := forall a tm, timers w !! a = Some tm -> t_function tm ∈ fns.

(** One timer that is due. *)
Definition fire_one (a : Z) w : res world :=
  let* '(w, _) := del_timer true a w in
  let* w := upd_timer a (with_state TIMER_STATE_CALLBACK) w in
  let* t := get_timer a w in
  let* '(w, restart) := call (t_function t) a (t_data t) (set_calls (calls w ++ [a]) w) in
  let* w := upd_timer a (with_state TIMER_STATE_INACTIVE) w in
  if negb (restart =? 0) then let* '(w, _) := add_timer true a w in Ok w else Ok w.

(** The timers but [a] are as they were. *)
Definition others_same (ds : list Z) w w' : Prop := forall b, b ∉ ds -> timers w' !! b = timers w !! b.

Lemma fire_one_ok now w a q :
  queue_ok w (a :: q) -> functions_ok w -> now <= clock (reads w) ->
  exists w' q', fire_one a w = Ok w' /\ queue_ok w' q' /\ functions_ok w' /\ calls w' = calls w ++ [a] /\ tb_ce w' = tb_ce w /\ ces w' = ces w /\
    (reads w <= reads w')%nat /\ others_same [a] w w' /\
    (q' = q \/ now < expiry w' a /\ q' = qinsert (expiry w') a q).
Proof.
  intros H Hfn Hnow. destruct (q_known _ _ H a) as [tm Ha]; [set_solver|]. assert (Hst : t_state tm = TIMER_STATE_ENQUEUED) by (apply (q_state _ _ H a tm Ha); set_solver).
  pose proof (queue_nodup _ _ H) as Hnd. apply NoDup_cons in Hnd as [Hnq Hnd]. destruct (q_timer _ _ H a tm Ha) as [Hg _ Hr Hbase].
  assert (Hwo : without a (a :: q) = q) by (apply (without_split a [] q); by apply NoDup_cons).
  unfold fire_one. destruct (del_timer_ok w (a :: q) a tm H Ha Hst) as (w1 & -> & H1 & Ht1 & Hr1). cbn [res_bind]. unfold rest in Hr1. injection Hr1 as Ec1 Es1 Ed1 En1 Ecl1. rewrite Hwo in H1.
  unfold upd_timer at 1, get_timer at 1. rewrite Ht1, lookup_insert_eq. cbn [deref res_bind]. rewrite insert_insert_eq. unfold get_timer at 1. cbn [set_timers timers]. rewrite lookup_insert_eq. cbn [deref res_bind].
  set (tm2 := with_state TIMER_STATE_CALLBACK (with_state TIMER_STATE_INACTIVE tm)). set (w2 := set_timers _ w1). set (w3 := set_calls _ w2).
  assert (Ha3 : timers w3 !! a = Some tm2) by apply lookup_insert_eq.
  destruct (call_ok now w3 a tm2 Ha3 eq_refl) as (w4 & r & tm4 & -> & Hcd); [exact (Hfn a tm Ha)|destruct Hg; lia|done|cbn; by rewrite En1|]. cbn [res_bind].
  assert (H2 : queue_ok w2 q).
  { subst w2. rewrite <- (insert_insert_eq (timers w) a tm2 (with_state TIMER_STATE_INACTIVE tm)), <- Ht1. apply queue_set; [done|done| |done|done]. rewrite Ht1, lookup_insert_eq. done. }
  unfold upd_timer at 1, get_timer at 1. rewrite (cd_timers _ _ _ _ _ _ _ Hcd), lookup_insert_eq. cbn [deref res_bind]. rewrite insert_insert_eq.
  set (tm5 := with_state TIMER_STATE_INACTIVE tm4). set (w5 := set_timers _ w4).
  assert (Ht5 : timers w5 = <[a := tm5]> (timers w)) by (subst w5 w3 w2; cbn; by rewrite insert_insert_eq).
  destruct Hcd as [C1 C2 C3 C4 C5 C6 C7 C8 C9 C10 C11 C12]. assert (Hces5 : ces w5 = ces w) by (subst w5; cbn; rewrite C4; subst w3 w2; cbn; congruence).
  assert (Hce5 : tb_ce w5 = tb_ce w) by (subst w5; cbn; rewrite C3; subst w3 w2; cbn; congruence).
  assert (Hcl5 : calls w5 = calls w ++ [a]) by (subst w5; cbn; rewrite C5; subst w3 w2; cbn; congruence).
  assert (Hrd5 : (reads w <= reads w5)%nat) by (subst w5; cbn; subst w3 w2; cbn in C6; lia).
  assert (H5 : queue_ok w5 q).
  { assert (H5' : queue_ok (set_timers (<[a := tm5]> (timers w2)) w2) q).
    { apply queue_set; [done|done| |done|done]. subst w2. cbn. by rewrite lookup_insert_eq. }
    eapply queue_eq; [exact H5'|exact C1|exact C2|rewrite Ht5; subst w2; cbn; by rewrite insert_insert_eq|]. unfold ce_ok. rewrite Hce5, Hces5. apply (q_ce _ _ H). }
  assert (Ha5 : timers w5 !! a = Some tm5) by (rewrite Ht5; apply lookup_insert_eq).
  assert (Hfn' : forall s', (forall b u, <[a := with_state s' tm5]> (timers w) !! b = Some u -> t_function u ∈ fns)).
  { intros s' b u. rewrite lookup_insert_Some. intros [[<- <-]|[_ Hu]]; [|by eapply Hfn]. cbn. rewrite C10. exact (Hfn a tm Ha). }
  assert (Hsame : forall u, others_same [a] w (set_timers (<[a := u]> (timers w)) w5)).
  { intros u b Hb. cbn. rewrite lookup_insert_ne; [done|]. set_solver. }
  destruct (Z.eqb_spec r 0) as [Hr0|Hr0]; cbn [negb].
  - exists w5, q. split; [done|]. split; [done|]. split; [intros b u; rewrite Ht5; apply (Hfn' TIMER_STATE_INACTIVE b u)|]. split_and!; try done; [|by left].
    intros b Hb. rewrite Ht5. by apply Hsame.
  - assert (Hb5 : t_base tm5 = true) by (cbn; rewrite C9; cbn; by apply Hbase).
    destruct (add_timer_ok w5 q a tm5 H5 Ha5 eq_refl Hb5) as (w6 & -> & H6 & Ht6 & Hr6). cbn [res_bind]. unfold rest in Hr6. injection Hr6 as Ec6 Es6 Ed6 En6 Ecl6.
    exists w6, (qinsert (expiry w5) a q). rewrite Ht5, insert_insert_eq in Ht6. assert (Hex : forall b, expiry w6 b = expiry w5 b).
    { intros b. eapply expiry_insert; [exact Ha5|rewrite Ht6, Ht5, insert_insert_eq; done|done]. }
    split; [done|]. split; [done|]. split; [intros b u; rewrite Ht6; apply Hfn'|]. split_and!; [by rewrite Ecl6|by rewrite Ec6|by rewrite Es6|by rewrite En6|intros b Hb; rewrite Ht6; by apply Hsame|].
    right. split; [rewrite Hex, (expiry_of _ _ _ Ha5); by apply C12|]. apply qinsert_ext. intros b _. by rewrite Hex.
Qed.

Lemma event_loop_eq fuel now w a t :
  tb_next w = a -> (a =? 0) = false -> timers w !! a = Some t -> t_expires t <= now ->
  event_loop call (S fuel) now w = (let* w := fire_one a w in event_loop call fuel now w).
Proof.
  intros Hn Ha Ht He. cbn [event_loop]. rewrite Hn, Ha. unfold get_timer at 1. rewrite Ht. cbn [deref res_bind]. rewrite (proj2 (Z.ltb_ge now (t_expires t))) by lia.
  unfold fire_one. destruct (del_timer true a w) as [[w1 ?]| |]; cbn [res_bind]; [|done|done]. destruct (upd_timer a _ w1) as [w2| |]; cbn [res_bind]; [|done|done].
  destruct (get_timer a w2) as [u| |]; cbn [res_bind]; [|done|done]. destruct (call _ a _ _) as [[w3 r]| |]; cbn [res_bind]; [|done|done].
  by destruct (upd_timer a _ w3) as [w4| |].
Qed.

Lemma event_loop_ok now : forall ds fuel w ls,
  queue_ok w (ds ++ ls) -> functions_ok w -> now <= clock (reads w) -> Forall (fun b => expiry w b <= now) ds -> Forall (fun b => now < expiry w b) ls -> (length ds < fuel)%nat ->
  exists w' ls', event_loop call fuel now w = Ok w' /\ queue_ok w' ls' /\ Forall (fun b => now < expiry w' b) ls' /\ calls w' = calls w ++ ds /\ tb_ce w' = tb_ce w /\ ces w' = ces w /\
    (reads w <= reads w')%nat /\ others_same ds w w' /\ (forall b, b ∈ ls -> b ∈ ls') /\ (forall b, b ∈ ls' -> b ∈ ds ++ ls).
Proof.
  induction ds as [|a ds IH]; intros [|fuel] w ls H Hfn Hnow Hds Hls Hf; cbn [length] in Hf; try lia.
  - cbn [app] in H. exists w, ls. split; [|by rewrite app_nil_r]. cbn [event_loop]. rewrite (q_next _ _ H). destruct ls as [|b ls]; [done|]. cbn [head default from_option id].
    assert (Hb : b ∈ b :: ls) by set_solver. destruct (q_known _ _ H b Hb) as [tb Htb]. rewrite good_not_0 by (by eapply queue_good). unfold get_timer. rewrite Htb. cbn [deref res_bind].
    apply Forall_cons in Hls as [Hlt _]. rewrite (expiry_of _ _ _ Htb) in Hlt. by rewrite (proj2 (Z.ltb_lt _ _)).
  - cbn [app] in H. assert (Hin : a ∈ a :: ds ++ ls) by set_solver. destruct (q_known _ _ H a Hin) as [ta Hta]. apply Forall_cons in Hds as [Hle Hds].
    rewrite (expiry_of _ _ _ Hta) in Hle. rewrite (event_loop_eq fuel now w a ta); [|by rewrite (q_next _ _ H)|apply good_not_0; by eapply queue_good|done|done].
    destruct (fire_one_ok now w a (ds ++ ls) H Hfn Hnow) as (w1 & q1 & -> & H1 & Hfn1 & Hc1 & Hce1 & Hces1 & Hr1 & Hs1 & Hor). cbn [res_bind].
    pose proof (queue_nodup _ _ H) as Hnd. apply NoDup_cons in Hnd as [Hna _].
    assert (Hex : forall b, b ∈ ds ++ ls -> expiry w1 b = expiry w b) by (intros b Hb; unfold expiry; rewrite Hs1; [done|set_solver]).
    assert (Hds1 : Forall (fun b => expiry w1 b <= now) ds) by (apply Forall_forall; intros b Hb; rewrite Hex by set_solver; by eapply Forall_forall in Hds).
    assert (Hls1 : Forall (fun b => now < expiry w1 b) ls) by (apply Forall_forall; intros b Hb; rewrite Hex by set_solver; by eapply Forall_forall in Hls).
    assert (Hq1 : exists ls1, q1 = ds ++ ls1 /\ Forall (fun b => now < expiry w1 b) ls1 /\ (forall b, b ∈ ls -> b ∈ ls1) /\ (forall b, b ∈ ls1 -> b = a \/ b ∈ ls)).
    { destruct Hor as [->|[Hlt ->]]; [by exists ls; split_and!; auto|]. exists (qinsert (expiry w1) a ls). split_and!.
      - clear -Hds1 Hlt. induction Hds1 as [|b ds Hb Hds IH]; [done|]. cbn. rewrite (proj2 (Z.ltb_ge _ _)) by lia. by rewrite IH.
      - apply Forall_forall. intros b [->|Hb]%elem_of_qinsert; [done|]. by eapply Forall_forall in Hls1.
      - intros b Hb. apply elem_of_qinsert. by right.
      - intros b Hb. by apply elem_of_qinsert in Hb. }
    destruct Hq1 as (ls1 & -> & Hgt & Hkeep & Hfrom).
    destruct (IH fuel w1 ls1 H1 Hfn1) as (w' & ls' & -> & H' & Hgt' & Hc' & Hce' & Hces' & Hr' & Hs' & Hk' & Hf'); [|done|done|lia|].
    { apply (Z.le_trans _ (clock (reads w))); [done|]. by apply clock_mono. }
    exists w', ls'. split; [done|]. split_and!; [done|done|by rewrite Hc', Hc1, <- app_assoc|congruence|congruence|lia| |auto|].
    + intros b Hb. rewrite Hs', Hs1 by set_solver. done.
    + intros b Hb. apply Hf' in Hb. rewrite elem_of_app in Hb. set_solver.
Qed.

(** The handler: the timers that are due are called, each once and in order of their expiry. *)
Lemma timer_event_handler_ok w q :
  queue_ok w q -> functions_ok w ->
  let now := clock (reads w) in
  exists w' q', timer_event_handler cs mtime call (tb_ce w) w = Ok w' /\ queue_ok w' q' /\
    calls w' = calls w ++ filter (fun a => expiry w a <= now) q /\
    Forall (fun b => now < expiry w' b) q' /\ (forall b, b ∈ q -> now < expiry w b -> b ∈ q') /\ (forall b, b ∈ q' -> b ∈ q) /\
    (forall b, head q' = Some b -> tb_ce w <> 0 -> exists i ce ce' evt, ces w !! tb_ce w = Some ce /\ ces w' !! tb_ce w = Some ce' /\
      asked (mtime i) now (expiry w' b) ce ce' /\ event_ticks now (expiry w' b) ce = Ok (Some evt)).
Proof.
  intros H Hfn now. unfold timer_event_handler. rewrite (ktime_get_ok cs mtime clock). cbn [res_bind]. fold now. set (w1 := set_reads (S (reads w)) w).
  set (ds := filter (fun a => expiry w a <= now) q). set (ls := filter (fun a => now < expiry w a) q).
  assert (Eq : q = ds ++ ls) by exact (sorted_due (expiry w) now q (q_sorted _ _ H)).
  assert (H1 : queue_ok w1 (ds ++ ls)) by (rewrite <- Eq; eapply queue_eq; [exact H|done|done|done|exact (q_ce _ _ H)]).
  destruct (event_loop_ok now ds (S (size (timers w1))) w1 ls H1) as (w2 & q' & -> & H2 & Hgt & Hc & Hce & Hces & Hr & Hs & Hk & Hf).
  { exact Hfn. }
  { apply (clock_mono (reads w)). cbn. lia. }
  { apply Forall_forall. intros b [Hb _]%list_elem_of_filter. exact Hb. }
  { apply Forall_forall. intros b [Hb _]%list_elem_of_filter. exact Hb. }
  { assert (Hlen : (length ds <= size (timers w1))%nat); [|lia]. pose proof (queue_nodup _ _ H1) as Hnd. apply NoDup_app in Hnd as (Hnd & _ & _).
    rewrite <- (size_dom (D := gset Z)), <- (size_list_to_set (C := gset Z) ds) by done. apply subseteq_size. intros b Hb. apply elem_of_list_to_set in Hb. apply elem_of_dom.
    apply (q_known _ _ H1). set_solver. }
  cbn [res_bind]. assert (Hold : forall b, b ∈ q -> now < expiry w b -> b ∈ q') by (intros b Hb Hlt; apply Hk, list_elem_of_filter; done).
  assert (Hnew : forall b, b ∈ q' -> b ∈ q) by (intros b Hb; rewrite Eq; by apply Hf).
  rewrite (q_next _ _ H2). destruct q' as [|b q']; cbn [head default from_option id].
  { exists w2, []. split; [done|]. by split_and!. }
  assert (Hb : b ∈ b :: q') by set_solver. destruct (q_known _ _ H2 b Hb) as [tb Htb]. rewrite good_not_0 by (by eapply queue_good). unfold get_timer. rewrite Htb. cbn [deref res_bind].
  pose proof (tk_range _ _ _ (q_timer _ _ H2 b tb Htb)) as Hrange. change (tb_ce w1) with (tb_ce w) in Hce. change (ces w1) with (ces w) in Hces.
  destruct (set_event_next_ok mtime w2 (tb_ce w) now (t_expires tb)) as (w3 & -> & Hq3 & Hor); [rewrite Hces; exact (q_ce _ _ H)|apply clock_range|lia|].
  assert (Hex3 : forall c, expiry w3 c = expiry w2 c) by (intros c; unfold expiry; by destruct Hq3 as (_ & _ & _ & -> & _)).
  assert (Hlt : now < t_expires tb) by (apply Forall_cons in Hgt as [Hgt _]; by rewrite (expiry_of _ _ _ Htb) in Hgt).
  assert (Hask : tb_ce w <> 0 -> exists ce ce' evt, ces w !! tb_ce w = Some ce /\ ces w3 !! tb_ce w = Some ce' /\ 0 <= ce_shift ce' < 64 /\
    asked (mtime (reads w2)) now (expiry w3 b) ce ce' /\ event_ticks now (expiry w3 b) ce = Ok (Some evt)).
  { intros H0. destruct (q_ce _ _ H) as [?|(c & Hc0 & Hsh)]; [done|]. destruct Hor as [[? _]|(ce & ce' & E1 & E2 & E3 & E4)]; [done|].
    rewrite Hces, Hc0 in E1. injection E1 as <-. rewrite Hex3, (expiry_of _ _ _ Htb).
    destruct (event_ticks_defined now (t_expires tb) c Hsh) as (o & Eo & Ho); [apply clock_range|lia|]. destruct Ho as [evt ->]; [lia|].
    exists c, ce', evt. split; [done|]. split; [by rewrite E2, lookup_insert_eq|]. split; [lia|done]. }
  exists w3, (b :: q'). split; [done|]. split; [|split; [by destruct Hq3 as (_ & _ & _ & _ & -> & _)|split; [|split; [done|split; [done|]]]]].
  - eapply queue_same; [exact H2|done|]. unfold ce_ok. destruct Hq3 as (_ & _ & -> & _). rewrite Hce. destruct (decide (tb_ce w = 0)) as [|H0]; [by left|]. right.
    destruct (Hask H0) as (ce & ce' & evt & _ & ? & ? & _). by exists ce'.
  - eapply Forall_impl; [exact Hgt|]. intros c. cbn. by rewrite Hex3.
  - intros c [= <-] H0. destruct (Hask H0) as (ce & ce' & evt & ? & ? & _ & ? & ?). by exists (reads w2), ce, ce', evt.
Qed.
End fire.
