(* ===== verification/TimerTheorems.v ===== *)
(** * TimerTheorems: what core/timer.c guarantees *)

From stdpp Require Import sorting.
From S2P Require Import Prelude Bits Rbtree RbtreeHeap RbtreeProof RbtreeErase RbtreeIter Time Timer TimerProof TimerEvents.

Implicit Types (w : world) (q : list Z).

(** ** The clock of the CLINT timer, and the functions of the kernel *)

Lemma clint_clock rate cs mtime :
  0 < rate < 2 ^ 32 -> cs_clint_timer_probe rate = Ok cs -> (forall i, 0 <= mtime i < 2 ^ 63) -> (forall i, mtime i * cs_mult cs < 2 ^ 63) ->
  (forall i j, (i <= j)%nat -> mtime i <= mtime j) -> Clock (Some cs) mtime (fun i => mtime i * cs_mult cs / 2 ^ cs_shift cs).
Proof.
  intros Hr E H1 H2 H3. destruct (cs_factors rate Hr) as (cs' & E' & Hs & Hm & Hmask & _). rewrite E in E'. injection E' as <-.
  pose proof (pow2_le 0 (cs_shift cs) ltac:(lia)) as Hp. split.
  - intros i. specialize (H1 i). specialize (H2 i). apply keeper_read_exact; [done|done|lia|nia|]. apply Z.div_lt_upper_bound; nia.
  - intros i. specialize (H1 i). specialize (H2 i). unfold KTIME_MAX. split; [apply Z.div_pos; nia|]. apply Z.lt_le_pred, Z.div_lt_upper_bound; nia.
  - intros i j Hij. specialize (H3 i j Hij). apply Z.div_le_mono; nia.
Qed.

(** The tick restarts its timer a second later, the end of a sleep does not. *)
Lemma kernel_functions cs mtime clock `{!Clock cs mtime clock} :
  (forall i, clock i <= KTIME_MAX - 1000000000) -> TimerFunctions clock [SCHED_TIMER_FUNCTION; SLEEP_CALLBACK] (kernel_call cs mtime).
Proof.
  intros Hleft. split. intros now w a tm Ha Hst Hf H0 Hr Hnow. unfold kernel_call. rewrite !elem_of_cons in Hf. destruct Hf as [Hf|[Hf|Hf]]; [| |by apply not_elem_of_nil in Hf].
  - rewrite Hf. cbn [Z.eqb Pos.eqb SCHED_TIMER_FUNCTION]. unfold timer_forward_now. rewrite (proj2 (Z.eqb_neq a 0)) by done. rewrite (ktime_get_ok cs mtime clock). cbn [res_bind].
    unfold timer_forward. rewrite (proj2 (Z.eqb_neq a 0)) by done. change (ms_to_ktime 1000) with 1000000000. pose proof (clock_range (reads w)). specialize (Hleft (reads w)).
    rewrite ktime_add_safe_ok by lia. cbn [res_bind]. unfold upd_timer, get_timer. cbn [set_reads timers]. rewrite Ha. cbn [deref res_bind].
    eexists _, _, _. split; [done|]. split; try done; cbn [with_expires t_expires reads set_reads set_timers]; lia.
  - rewrite Hf. cbn. exists w, 0, tm. split; [done|]. split; try done. by rewrite insert_id.
Qed.

(** ** Initialisation *)

(** Before any timer. *)
Lemma queue_empty w : root (tb_head w) = 0 -> tb_next w = 0 -> timers w = ∅ -> ce_ok w -> queue_ok w [].
Proof.
  intros Hr Hn Ht Hce. split; [|done|constructor| | | |done].
  - exists E. split; [|split; [split; [done|by exists 0%nat]|done]]. split; cbn; [constructor|intros a Ha; by apply not_elem_of_nil in Ha| |done|done]. repeat constructor. by rewrite Hr.
  - intros a t. rewrite Ht. done.
  - intros a Ha. by apply not_elem_of_nil in Ha.
  - intros a t. rewrite Ht. done.
Qed.

Lemma timer_init_ok w q a function data : queue_ok w q -> good a -> a ∉ q -> queue_ok (timer_init a function data w) q.
Proof.
  intros [(t & Ht & Hv & Hi) H2 H3 H4 H5 H6 H7] Hg Ha. unfold timer_init. rewrite good_not_0 by done. split; try done.
  - exists t. split; [|done]. apply (tree_put (tb_head w)); [done|done|by rewrite Hi].
  - eapply sorted_ext; [|exact H3]. intros b Hb. unfold expiry. cbn. rewrite lookup_insert_ne; [done|]. by intros ->.
  - intros b u. cbn. rewrite lookup_insert_Some. intros [[<- <-]|[Hne Hu]]; [by split|by apply H4].
  - intros b Hb. cbn. apply lookup_insert_is_Some'. right. by apply H5.
  - intros b u. cbn. rewrite lookup_insert_Some. intros [[<- <-]|[Hne Hu]].
    + split; [done|cbn; by rewrite lookup_insert_eq|cbn; unfold KTIME_MAX; lia|done].
    + destruct (H6 _ _ Hu). split; [done| |done|done]. cbn. apply lookup_insert_is_Some'. by right.
Qed.

(** ** Claims *)

(** C28. Starting a timer refines insertion into a list sorted by expiry: the timer is taken out
    of its place, if it was waiting, and put at its new one, after the timers that expire at
    the same instant; the others are as they were and [next] is the first.  The counter is
    read and the clock event programmed exactly for the instants [start_asks]: for the timer
    behind it when the started one was the first, then for the started one when it is the
    first now; so that a first timer that moves back leaves the event to the next one, and a
    timer that neither was nor is the first leaves the event as it was. *)
Theorem timer_start_enqueues cs mtime clock `{!Clock cs mtime clock} w q a tm now interval :
  queue_ok w q -> timers w !! a = Some tm -> t_base tm = true -> t_state tm <> TIMER_STATE_CALLBACK ->
  0 <= now -> 0 <= interval -> now + interval <= KTIME_MAX ->
  exists w', timer_start cs mtime a now interval w = Ok w' /\ queue_ok w' (started (expiry w) a (now + interval) q) /\
    timers w' = <[a := with_state TIMER_STATE_ENQUEUED (with_expires (now + interval) tm)]> (timers w) /\
    calls w' = calls w /\ tb_ce w' = tb_ce w /\
    (reads w', ces w') = foldl (ask mtime clock (tb_ce w)) (reads w, ces w) (start_asks (expiry w) a (now + interval) q).
Proof. by apply timer_start_ok. Qed.

(** C29. A timer event calls the functions of exactly the timers that are due, each once and in
    order of their expiry, whatever the functions do within their contract; it ends with all
    waiting timers in the future, those that were not due still waiting, and the clock event
    programmed for the first of them. *)
Theorem timer_event_fires_due cs mtime clock `{!Clock cs mtime clock} fns call `{!TimerFunctions clock fns call} w q :
  queue_ok w q -> functions_ok fns w ->
  let now := clock (reads w) in
  exists w' q', timer_event_handler cs mtime call (tb_ce w) w = Ok w' /\ queue_ok w' q' /\
    calls w' = calls w ++ filter (fun a => expiry w a <= now) q /\
    Forall (fun b => now < expiry w' b) q' /\ (forall b, b ∈ q -> now < expiry w b -> b ∈ q') /\ (forall b, b ∈ q' -> b ∈ q) /\
    (forall b, head q' = Some b -> tb_ce w <> 0 -> exists i ce ce' evt, ces w !! tb_ce w = Some ce /\ ces w' !! tb_ce w = Some ce' /\
      asked (mtime i) now (expiry w' b) ce ce' /\ event_ticks now (expiry w' b) ce = Ok (Some evt)).
Proof. by apply timer_event_handler_ok. Qed.

(** ** Witnesses *)

(** A counter of 10 MHz, and a kernel with the tick at address 16, due at 1 ms, and the timer of
    a thread at 32. *)
Definition demo_cs : clocksource := mk_cs (2 ^ 64 - 1) 100 0 10000000.
Definition demo_mtime (i : nat) : Z := Z.min 1000000 (20000 + 10 * Z.of_nat i).
Definition demo_clock (i : nat) : Z := demo_mtime i * 100 / 2 ^ 0.
Definition demo_ce : clockevent := mk_ce 42949673 32 1000 429496725633 timer_event_handler_of_base ce_clint_next 4294967295.

Definition demo_timers : gmap Z timer :=
  {[ 16 := mk_timer true TIMER_STATE_ENQUEUED 1000000 0 SCHED_TIMER_FUNCTION; 32 := mk_timer true TIMER_STATE_INACTIVE 0 7 SLEEP_CALLBACK ]}.
Definition demo_world : world :=
  mk_world (mk_rb_tree {[ 16 := mk_rb 1 0 0; 32 := mk_rb 32 0 0 ]} 16 0) 16 8 demo_timers {[ 8 := demo_ce ]} 8 0 [].

Lemma demo_clock_ok : Clock (Some demo_cs) demo_mtime demo_clock.
Proof.
  apply (clint_clock 10000000 demo_cs demo_mtime); [lia|vm_compute; reflexivity|..]; unfold demo_mtime; cbn [demo_cs cs_mult]; intros; lia.
Qed.

Lemma demo_left i : demo_clock i <= KTIME_MAX - 1000000000.
Proof. unfold demo_clock, demo_mtime, KTIME_MAX. change (2 ^ 0) with 1. rewrite Z.div_1_r. lia. Qed.

Lemma demo_timer_elim (P : Z -> timer -> Prop) :
  P 16 (mk_timer true TIMER_STATE_ENQUEUED 1000000 0 SCHED_TIMER_FUNCTION) -> P 32 (mk_timer true TIMER_STATE_INACTIVE 0 7 SLEEP_CALLBACK) ->
  forall a t, demo_timers !! a = Some t -> P a t.
Proof. intros H1 H2 a t. unfold demo_timers. rewrite lookup_insert_Some. intros [[<- <-]|[_ [<- <-]%lookup_singleton_Some]]; done. Qed.

Lemma demo_queue : queue_ok demo_world [16].
Proof.
  split.
  - exists (T Black E 16 E). split; [|split; [split; [done|by exists 1%nat]|done]]. split; [by apply (bool_decide_unpack _)| |repeat constructor|done|done].
    intros a Ha. cbn in Ha. apply list_elem_of_singleton in Ha as ->. split; [lia|by apply Z.mod_divide].
  - done.
  - repeat constructor.
  - apply demo_timer_elim; cbn; rewrite list_elem_of_singleton; by split.
  - intros a Ha. apply list_elem_of_singleton in Ha as ->. by eexists.
  - apply demo_timer_elim; (split; [split; [lia|by apply Z.mod_divide]|by eexists|cbn; unfold KTIME_MAX; lia|done]).
  - right. exists demo_ce. by split.
Qed.

Lemma demo_functions : functions_ok [SCHED_TIMER_FUNCTION; SLEEP_CALLBACK] demo_world.
Proof. unfold functions_ok. apply demo_timer_elim; by apply (bool_decide_unpack _). Qed.

(** The timer of the thread goes behind the tick and leaves the clock event as it was; then the
    tick is started for a later instant and goes behind it, and the event is programmed for
    the thread. *)
Lemma timer_start_enqueues_witness :
  exists w1 w2, timer_start (Some demo_cs) demo_mtime 32 5000000 100 demo_world = Ok w1 /\ queue_ok w1 [16; 32] /\
    (reads w1, ces w1) = (0%nat, ces demo_world) /\
    timer_start (Some demo_cs) demo_mtime 16 6000000 0 w1 = Ok w2 /\ queue_ok w2 [32; 16] /\
    (reads w2, ces w2) = (2%nat, {[ 8 := ce_clint_timer_next 20010 30001 demo_ce ]}).
Proof.
  destruct (timer_start_enqueues (Some demo_cs) demo_mtime demo_clock (Clock0 := demo_clock_ok) demo_world [16] 32 (mk_timer true TIMER_STATE_INACTIVE 0 7 SLEEP_CALLBACK) 5000000 100)
    as (w1 & E1 & Hq1 & Ht1 & _ & Hce1 & Hex1); [exact demo_queue|reflexivity|reflexivity|discriminate|lia|lia|unfold KTIME_MAX; lia|].
  assert (Hc1 : (reads w1, ces w1) = (0%nat, ces demo_world)) by (rewrite Hex1; vm_compute; reflexivity).
  assert (Hk1 : expiry w1 16 = 1000000 /\ expiry w1 32 = 5000100) by (unfold expiry; rewrite Ht1; split; vm_compute; reflexivity). destruct Hk1 as [Hk16 Hk32].
  destruct (timer_start_enqueues (Some demo_cs) demo_mtime demo_clock (Clock0 := demo_clock_ok) w1 [16; 32] 16 (mk_timer true TIMER_STATE_ENQUEUED 1000000 0 SCHED_TIMER_FUNCTION) 6000000 0)
    as (w2 & E2 & Hq2 & _ & _ & _ & Hex2); [exact Hq1|by rewrite Ht1; vm_compute|reflexivity|discriminate|lia|lia|unfold KTIME_MAX; lia|].
  assert (Hs : started (expiry w1) 16 (6000000 + 0) [16; 32] = [32; 16]) by (unfold started; change (without 16 [16; 32]) with [32]; cbn [qinsert Z.eqb Pos.eqb]; rewrite Hk32; reflexivity).
  assert (Ha : start_asks (expiry w1) 16 (6000000 + 0) [16; 32] = [5000100]) by (unfold start_asks; rewrite Hs; change (without 16 [16; 32]) with [32]; cbn [head fmap option_fmap option_map option_list]; rewrite Hk32; reflexivity).
  exists w1, w2. split; [exact E1|]. split; [exact Hq1|]. split; [exact Hc1|]. split; [exact E2|]. rewrite Hs in Hq2. split; [exact Hq2|].
  rewrite Hex2, Ha, Hc1, Hce1. vm_compute. reflexivity.
Defined.

Lemma timer_event_fires_due_witness :
  exists w' q', timer_event_handler (Some demo_cs) demo_mtime (kernel_call (Some demo_cs) demo_mtime) 8 demo_world = Ok w' /\ queue_ok w' q' /\
    calls w' = [] ++ filter (fun a => expiry demo_world a <= demo_clock 0) [16] /\
    Forall (fun b => demo_clock 0 < expiry w' b) q' /\ (forall b, b ∈ [16] -> demo_clock 0 < expiry demo_world b -> b ∈ q') /\ (forall b, b ∈ q' -> b ∈ [16]) /\
    (forall b, head q' = Some b -> 8 <> 0 -> exists i ce ce' evt, ces demo_world !! 8 = Some ce /\ ces w' !! 8 = Some ce' /\
      asked (demo_mtime i) (demo_clock 0) (expiry w' b) ce ce' /\ event_ticks (demo_clock 0) (expiry w' b) ce = Ok (Some evt)).
Proof.
  exact (timer_event_fires_due (Some demo_cs) demo_mtime demo_clock (Clock0 := demo_clock_ok) [SCHED_TIMER_FUNCTION; SLEEP_CALLBACK] (kernel_call (Some demo_cs) demo_mtime)
    (TimerFunctions0 := kernel_functions _ _ _ (Clock0 := demo_clock_ok) demo_left) demo_world [16] demo_queue demo_functions).
Defined.

(** The tick at 2 ms is called and comes back a second later, and the clock event waits for it. *)
Example demo_tick : exists w', timer_event_handler (Some demo_cs) demo_mtime (kernel_call (Some demo_cs) demo_mtime) 8 demo_world = Ok w' /\
  calls w' = [16] /\ tb_next w' = 16 /\ expiry w' 16 = 1002001000 /\ ce_cmp <$> ces w' !! 8 = Some 10020030.
Proof. eexists. split; [vm_compute; reflexivity|]. split_and!; vm_compute; reflexivity. Qed.

(** Sleeping until an instant that has passed (1 ms, at 2 ms) puts the timer first in the queue
    and leaves the clock event as it was: no event is on its way that would wake the thread. *)
Example past_deadline_not_programmed :
  let w := mk_world (mk_rb_tree ∅ 0 0) 0 8 ∅ {[ 8 := demo_ce ]} 8 0 [] in
  exists w', nanosleep_arm (Some demo_cs) demo_mtime 32 7 1000000 w = Ok w' /\ tb_next w' = 32 /\ ces w' !! 8 = Some demo_ce.
Proof. eexists. split; [vm_compute; reflexivity|]. split; vm_compute; reflexivity. Qed.
