(* ===== verification/Block.v ===== *)
(** * Block: reading and writing block devices (driver/block.c, include/block/block.h)

    A device reads and writes whole blocks; [block_read] and [block_write] give access to any
    range of bytes, through a bounce buffer for the blocks at the ends.

    The driver is a parameter: what its [read] leaves in the buffer, how many blocks it says it
    has read, and how its state changes.  [blks] gives the fields of a device object by its
    address; every device pointer of the kernel comes from the search for a device, so that
    each address that is used is one.  [mallocs i] says whether the [i]-th bounce buffer can be
    allocated. *)

From S2P Require Import Prelude.

Record block_t := mk_block { blksz : Z; blkcnt : Z; has_sync : bool }.

Definition block_size (b : block_t) : Z := blksz b.
Definition block_count (b : block_t) : Z := blkcnt b.
Definition block_capacity (b : block_t) : Z := u64 (blksz b * blkcnt b).
Definition block_offset (b : block_t) (blkno : Z) : Z := u64 (blksz b * blkno).

Definition block_available_count (b : block_t) (blkno cnt : Z) : Z :=
  if blkno <? blkcnt b then let count := blkcnt b - blkno in if cnt <? count then cnt else count else 0.

Definition block_available_length (b : block_t) (blkno cnt : Z) : Z := u64 (block_size b * block_available_count b blkno cnt).

(** The functions of a driver: [drv_read hw dev b blkno cnt] gives the bytes that are left in
    the buffer and the number of blocks that it returns. *)
Record block_driver (B : Type) := mk_driver {
  drv_read : B -> Z -> block_t -> Z -> Z -> list Z * Z * B;
  drv_write : B -> Z -> block_t -> list Z -> Z -> Z -> Z * B;
  drv_sync : B -> Z -> B;
}.
Arguments drv_read {B} _ _ _ _ _ _.
Arguments drv_write {B} _ _ _ _ _ _ _.
Arguments drv_sync {B} _ _ _.

Record bstate (B : Type) := mk_bstate { hw : B; blks : Z -> block_t; mallocs : nat -> bool; n_malloc : nat }.
Arguments mk_bstate {B} _ _ _ _.
Arguments hw {B} _.
Arguments blks {B} _.
Arguments mallocs {B} _.
Arguments n_malloc {B} _.

Section block.
Context {B : Type} (drv : block_driver B).
Implicit Types st : bstate B.

Definition set_hw st (h : B) : bstate B := mk_bstate h (blks st) (mallocs st) (n_malloc st).

(** [malloc(blksz)] of the bounce buffer, which is freed before the function returns. *)
Definition bounce st : bool * bstate B := (mallocs st (n_malloc st), mk_bstate (hw st) (blks st) (mallocs st) (S (n_malloc st))).

(** [memcpy] of [len] bytes from [p + off]. *)
Definition sub_bytes (p : list Z) (off len : Z) : res (list Z) :=
  if (0 <=? off) && (0 <=? len) && (off + len <=? Z.of_nat (length p)) then Ok (take (Z.to_nat len) (drop (Z.to_nat off) p)) else Undef.

(** [memcpy] of [src] to [p + off]. *)
Definition put_bytes (p : list Z) (off : Z) (src : list Z) : res (list Z) :=
  if (0 <=? off) && (off + Z.of_nat (length src) <=? Z.of_nat (length p))
  then Ok (take (Z.to_nat off) p ++ src ++ drop (Z.to_nat off + length src) p) else Undef.

(** The local variables of the two functions: what has been stored to [buf] (or, for a write,
    what is left of it), and [count], [ret] and [blkno].  A step returns also whether the
    function goes on. *)
Record progress := mk_progress { g_buf : list Z; g_count : Z; g_ret : Z; g_blkno : Z }.

(** ** block_read *)

(** The end of the first block, when the range starts inside of it. *)
Definition read_first (dev : Z) (b : block_t) (tmp : Z) (g : progress) st : res (progress * bool * bstate B) :=
  if 0 <? tmp then
    let len := blksz b - tmp in
    let len := if g_count g <? len then g_count g else len in
    let '(p, n, h) := drv_read drv (hw st) dev b (g_blkno g) 1 in
    let st := set_hw st h in
    if negb (n =? 1) then Ok (g, false, st)
    else
      let* bytes := sub_bytes p tmp len in
      Ok (mk_progress (g_buf g ++ bytes) (g_count g - len) (g_ret g + len) (g_blkno g + 1), true, st)
  else Ok (g, true, st).

(** The whole blocks, directly to the buffer. *)
Definition read_middle (dev : Z) (b : block_t) (g : progress) st : res (progress * bool * bstate B) :=
  let tmp := g_count g / blksz b in
  if 0 <? tmp then
    let len := tmp * blksz b in
    let '(p, n, h) := drv_read drv (hw st) dev b (g_blkno g) tmp in
    let st := set_hw st h in
    if negb (n =? tmp) then Ok (mk_progress (g_buf g ++ p) (g_count g) (g_ret g) (g_blkno g), false, st)
    else Ok (mk_progress (g_buf g ++ p) (g_count g - len) (g_ret g + len) (g_blkno g + tmp), true, st)
  else Ok (g, true, st).

(** The start of the last block. *)
Definition read_last (dev : Z) (b : block_t) (g : progress) st : res (progress * bool * bstate B) :=
  if 0 <? g_count g then
    let len := g_count g in
    let '(p, n, h) := drv_read drv (hw st) dev b (g_blkno g) 1 in
    let st := set_hw st h in
    if negb (n =? 1) then Ok (g, false, st)
    else
      let* bytes := sub_bytes p 0 len in
      Ok (mk_progress (g_buf g ++ bytes) (g_count g) (g_ret g + len) (g_blkno g), true, st)
  else Ok (g, true, st).

Definition block_read (dev buf offset count : Z) st : res (list Z * Z * bstate B) :=
  if (dev =? 0) || (buf =? 0) || (count =? 0) then Ok ([], 0, st)
  else
    let b := blks st dev in
    if (blksz b =? 0) || (blkcnt b =? 0) then Ok ([], 0, st)
    else
      let capacity := block_capacity b in
      if capacity <=? offset then Ok ([], 0, st)
      else
        let count := if capacity - offset <? count then capacity - offset else count in
        let '(ok, st) := bounce st in
        if negb ok then Ok ([], 0, st)
        else
          let* '(g, go, st) := read_first dev b (offset mod blksz b) (mk_progress [] count 0 (offset / blksz b)) st in
          if negb go then Ok (g_buf g, g_ret g, st)
          else
            let* '(g, go, st) := read_middle dev b g st in
            if negb go then Ok (g_buf g, g_ret g, st)
            else
              let* '(g, go, st) := read_last dev b g st in
              Ok (g_buf g, g_ret g, st).

(** ** block_write *)

(** Change part of a block: read it, copy [len] bytes to [off] and write it back. *)
Definition write_part (dev : Z) (b : block_t) (off len : Z) (g : progress) st : res (bool * bstate B) :=
  let '(p, n, h) := drv_read drv (hw st) dev b (g_blkno g) 1 in
  let st := set_hw st h in
  if negb (n =? 1) then Ok (false, st)
  else
    let* src := sub_bytes (g_buf g) 0 len in
    let* p := put_bytes p off src in
    let '(n, h) := drv_write drv (hw st) dev b p (g_blkno g) 1 in
    let st := set_hw st h in
    Ok (n =? 1, st).

Definition write_first (dev : Z) (b : block_t) (tmp : Z) (g : progress) st : res (progress * bool * bstate B) :=
  if 0 <? tmp then
    let len := blksz b - tmp in
    let len := if g_count g <? len then g_count g else len in
    let* '(ok, st) := write_part dev b tmp len g st in
    if negb ok then Ok (g, false, st)
    else Ok (mk_progress (drop (Z.to_nat len) (g_buf g)) (g_count g - len) (g_ret g + len) (g_blkno g + 1), true, st)
  else Ok (g, true, st).

Definition write_middle (dev : Z) (b : block_t) (g : progress) st : res (progress * bool * bstate B) :=
  let tmp := g_count g / blksz b in
  if 0 <? tmp then
    let len := tmp * blksz b in
    let* src := sub_bytes (g_buf g) 0 len in
    let '(n, h) := drv_write drv (hw st) dev b src (g_blkno g) tmp in
    let st := set_hw st h in
    if negb (n =? tmp) then Ok (g, false, st)
    else Ok (mk_progress (drop (Z.to_nat len) (g_buf g)) (g_count g - len) (g_ret g + len) (g_blkno g + tmp), true, st)
  else Ok (g, true, st).

Definition write_last (dev : Z) (b : block_t) (g : progress) st : res (progress * bool * bstate B) :=
  if 0 <? g_count g then
    let len := g_count g in
    let* '(ok, st) := write_part dev b 0 len g st in
    if negb ok then Ok (g, false, st)
    else Ok (mk_progress (g_buf g) (g_count g) (g_ret g + len) (g_blkno g), true, st)
  else Ok (g, true, st).

(** [data] is what [buf] points to. *)
Definition block_write (dev buf : Z) (data : list Z) (offset count : Z) st : res (Z * bstate B) :=
  if (dev =? 0) || (buf =? 0) || (count =? 0) then Ok (0, st)
  else
    let b := blks st dev in
    if (blksz b =? 0) || (blkcnt b =? 0) then Ok (0, st)
    else
      let capacity := block_capacity b in
      if capacity <=? offset then Ok (0, st)
      else
        let count := if capacity - offset <? count then capacity - offset else count in
        let '(ok, st) := bounce st in
        if negb ok then Ok (0, st)
        else
          let* '(g, go, st) := write_first dev b (offset mod blksz b) (mk_progress data count 0 (offset / blksz b)) st in
          if negb go then Ok (g_ret g, st)
          else
            let* '(g, go, st) := write_middle dev b g st in
            if negb go then Ok (g_ret g, st)
            else
              let* '(g, go, st) := write_last dev b g st in
              Ok (g_ret g, st).

Definition block_sync (dev : Z) st : bstate B :=
  if negb (dev =? 0) && has_sync (blks st dev) then set_hw st (drv_sync drv (hw st) dev) else st.

(** ** The system calls of core/sys/block.c

    [user_bdev] is the device that [do_user_block_init] has found, 0 if none: the inline
    functions that give the size of a device follow that pointer. *)

Definition do_user_block_init (search : list Z -> Z) (dev : list Z) : Z := search dev.

Definition sys_block_read (user_bdev buf offset count : Z) st : res (list Z * Z * bstate B) := block_read user_bdev buf offset count st.
Definition sys_block_write (user_bdev buf : Z) (data : list Z) (offset count : Z) st : res (Z * bstate B) := block_write user_bdev buf data offset count st.

Definition of_user_bdev (f : block_t -> Z) (user_bdev : Z) st : res Z := if user_bdev =? 0 then Undef else Ok (f (blks st user_bdev)).
Definition sys_block_capacity : Z -> bstate B -> res Z := of_user_bdev block_capacity.
Definition sys_block_size : Z -> bstate B -> res Z := of_user_bdev block_size.
Definition sys_block_count : Z -> bstate B -> res Z := of_user_bdev block_count.
End block.
