(* ===== verification/BlockProof.v ===== *)
(** * BlockProof: block_read and block_write give access to ranges of bytes

    [BlockDriver] is what the block layer needs of a driver: an answer of as many blocks as
    were asked for means that the bytes of those blocks were read or written, and whatever
    happens the other blocks are as they were.  [Reliable] says that a driver always answers so. *)

From S2P Require Import Prelude Block.

(** ** Ranges of lists *)

Definition range (l : list Z) (off len : Z) : list Z := take (Z.to_nat len) (drop (Z.to_nat off) l).
Definition splice (l : list Z) (off : Z) (src : list Z) : list Z := take (Z.to_nat off) l ++ src ++ drop (Z.to_nat off + length src) l.

Lemma range_length l off len : 0 <= off -> 0 <= len -> off + len <= Z.of_nat (length l) -> Z.of_nat (length (range l off len)) = len.
Proof. intros. unfold range. rewrite length_take, length_drop. lia. Qed.

Lemma range_app l off a b : 0 <= off -> 0 <= a -> 0 <= b -> range l off a ++ range l (off + a) b = range l off (a + b).
Proof.
  intros. unfold range. rewrite !Z2Nat.inj_add by lia. rewrite <- drop_drop. by rewrite take_take_drop.
Qed.

Lemma range_range l off len a b : 0 <= off -> 0 <= a -> 0 <= b -> a + b <= len -> range (range l off len) a b = range l (off + a) b.
Proof.
  intros. unfold range. rewrite skipn_firstn_comm, take_take, drop_drop. f_equal; [lia|]. f_equal. lia.
Qed.

Lemma range_nil l off : range l off 0 = [].
Proof. done. Qed.

Lemma splice_length l off src : 0 <= off -> off + Z.of_nat (length src) <= Z.of_nat (length l) -> length (splice l off src) = length l.
Proof. intros. unfold splice. rewrite !length_app, length_take, length_drop. lia. Qed.

Lemma sub_bytes_range p off len : 0 <= off -> 0 <= len -> off + len <= Z.of_nat (length p) -> sub_bytes p off len = Ok (range p off len).
Proof. intros. unfold sub_bytes. rewrite !(proj2 (Z.leb_le _ _)) by lia. done. Qed.

Lemma put_bytes_splice p off src : 0 <= off -> off + Z.of_nat (length src) <= Z.of_nat (length p) -> put_bytes p off src = Ok (splice p off src).
Proof. intros. unfold put_bytes. rewrite !(proj2 (Z.leb_le _ _)) by lia. done. Qed.

(** Two neighbouring splices are one. *)
Lemma splice_app l off s1 s2 : 0 <= off -> off + Z.of_nat (length s1) + Z.of_nat (length s2) <= Z.of_nat (length l) ->
  splice (splice l off s1) (off + Z.of_nat (length s1)) s2 = splice l off (s1 ++ s2).
Proof.
  intros Ho Hl. unfold splice. assert (E : Z.to_nat (off + Z.of_nat (length s1)) = (Z.to_nat off + length s1)%nat) by lia. rewrite E, length_app.
  assert (Hlt : length (take (Z.to_nat off) l) = Z.to_nat off) by (rewrite length_take; lia).
  rewrite take_app_ge by lia. rewrite Hlt. replace (Z.to_nat off + length s1 - Z.to_nat off)%nat with (length s1) by lia. rewrite take_app_length.
  rewrite <- !app_assoc. do 3 f_equal. rewrite drop_app_ge by lia. rewrite Hlt, drop_app_ge by lia. rewrite drop_drop. f_equal. lia.
Qed.

(** A splice inside of a range of whole blocks. *)
Lemma splice_range l off len a src : 0 <= off -> 0 <= a -> a + Z.of_nat (length src) <= len -> off + len <= Z.of_nat (length l) ->
  splice l off (splice (range l off len) a src) = splice l (off + a) src.
Proof.
  intros Ho Ha Hs Hl. unfold splice, range. assert (Hd : length (drop (Z.to_nat off) l) = (length l - Z.to_nat off)%nat) by apply length_drop.
  rewrite !length_app, !length_take, !length_drop, !length_take, Hd.
  rewrite take_take, (Nat.min_l (Z.to_nat a)) by lia. rewrite <- !app_assoc, (app_assoc (take (Z.to_nat off) l)).
  assert (E1 : take (Z.to_nat off) l ++ take (Z.to_nat a) (drop (Z.to_nat off) l) = take (Z.to_nat (off + a)) l).
  { rewrite take_take_drop. f_equal. lia. }
  rewrite E1. do 2 f_equal. rewrite skipn_firstn_comm, drop_drop.
  rewrite <- (take_drop (Z.to_nat len - (Z.to_nat a + length src)) (drop (Z.to_nat (off + a) + length src) l)). f_equal.
  - f_equal. f_equal. lia.
  - rewrite drop_drop. f_equal. lia.
Qed.

(** What was spliced in is read back, the rest as before. *)
Lemma range_splice l off src : 0 <= off -> off + Z.of_nat (length src) <= Z.of_nat (length l) -> range (splice l off src) off (Z.of_nat (length src)) = src.
Proof.
  intros. unfold range, splice. rewrite drop_app_length' by (rewrite length_take; lia). rewrite Nat2Z.id. apply take_app_length.
Qed.

(** ** Drivers *)

(** The memory of the devices behind a driver, and the sizes that the driver works with. *)
Record disk_view (B : Type) := mk_view { view :> B -> Z -> list Z; view_geom : block_t -> Prop }.
Arguments mk_view {B} _ _.
Arguments view {B} _ _ _.
Arguments view_geom {B} _ _.

Class BlockDriver {B : Type} (drv : block_driver B) (disk : disk_view B) : Prop := {
  read_contract h dev b blkno cnt p n h' :
    drv_read drv h dev b blkno cnt = (p, n, h') -> 0 < blksz b -> 0 <= blkno -> 0 < cnt -> blkno + cnt <= blkcnt b ->
    view_geom disk b -> Z.of_nat (length (disk h dev)) = blksz b * blkcnt b ->
    (forall d, disk h' d = disk h d) /\ Z.of_nat (length p) = cnt * blksz b /\
    (n = cnt -> p = range (disk h dev) (blkno * blksz b) (cnt * blksz b));
  write_contract h dev b data blkno cnt n h' :
    drv_write drv h dev b data blkno cnt = (n, h') -> 0 < blksz b -> 0 <= blkno -> 0 < cnt -> blkno + cnt <= blkcnt b ->
    view_geom disk b -> Z.of_nat (length (disk h dev)) = blksz b * blkcnt b -> Z.of_nat (length data) = cnt * blksz b ->
    (forall d, d <> dev -> disk h' d = disk h d) /\ length (disk h' dev) = length (disk h dev) /\
    (n = cnt -> disk h' dev = splice (disk h dev) (blkno * blksz b) data);
  sync_contract h dev d : disk (drv_sync drv h dev) d = disk h d;
}.

(** A driver that transfers all the blocks it is asked for, when the device has them. *)
Class Reliable {B : Type} (drv : block_driver B) (disk : disk_view B) : Prop := {
  reliable_read h dev b blkno cnt :
    0 < blksz b -> 0 <= blkno -> 0 < cnt -> blkno + cnt <= blkcnt b -> view_geom disk b -> Z.of_nat (length (disk h dev)) = blksz b * blkcnt b ->
    (drv_read drv h dev b blkno cnt).1.2 = cnt;
  reliable_write h dev b data blkno cnt :
    0 < blksz b -> 0 <= blkno -> 0 < cnt -> blkno + cnt <= blkcnt b -> view_geom disk b -> Z.of_nat (length (disk h dev)) = blksz b * blkcnt b ->
    Z.of_nat (length data) = cnt * blksz b -> (drv_write drv h dev b data blkno cnt).1 = cnt;
}.

Section read.
Context {B : Type} (drv : block_driver B) (disk : disk_view B) `{!BlockDriver drv disk}.
Implicit Types st : bstate B.

(** A device whose memory has the size that its fields say. *)
Record dev_ok st dev : Prop := mk_dev_ok {
  dk_size : 0 < blksz (blks st dev);
  dk_count : 0 < blkcnt (blks st dev);
  dk_fits : blksz (blks st dev) * blkcnt (blks st dev) < 2 ^ 64;
  dk_disk : Z.of_nat (length (disk (hw st) dev)) = blksz (blks st dev) * blkcnt (blks st dev);
  dk_geom : view_geom disk (blks st dev);
}.

(** Only the hardware and the allocator have changed, the memory of the devices has not. *)
Definition unchanged st st' : Prop := blks st' = blks st /\ mallocs st' = mallocs st /\ forall d, disk (hw st') d = disk (hw st) d.

Lemma unchanged_refl st : unchanged st st.
Proof. done. Qed.
Lemma unchanged_trans st1 st2 st3 : unchanged st1 st2 -> unchanged st2 st3 -> unchanged st1 st3.
Proof. intros (E1 & E2 & E3) (F1 & F2 & F3). split_and!; [congruence|congruence|]. intros d. by rewrite F3, E3. Qed.

Lemma dev_ok_unchanged st st' dev : dev_ok st dev -> unchanged st st' -> dev_ok st' dev.
Proof. intros [H1 H2 H3 H4 H5] (E1 & _ & E3). by split; rewrite ?E1, ?E3. Qed.

(** One call of the driver, for blocks that the device has. *)
Lemma run_read st dev blkno cnt :
  dev_ok st dev -> 0 <= blkno -> 0 < cnt -> blkno + cnt <= blkcnt (blks st dev) ->
  exists p n h, drv_read drv (hw st) dev (blks st dev) blkno cnt = (p, n, h) /\ unchanged st (set_hw st h) /\
    Z.of_nat (length p) = cnt * blksz (blks st dev) /\ (Reliable drv disk -> n = cnt) /\
    (n = cnt -> p = range (disk (hw st) dev) (blkno * blksz (blks st dev)) (cnt * blksz (blks st dev))).
Proof.
  intros [H1 H2 H3 H4 H5] Hb Hc Hle. destruct (drv_read drv (hw st) dev (blks st dev) blkno cnt) as [[p n] h] eqn:E. exists p, n, h. split; [done|].
  destruct (read_contract _ _ _ _ _ _ _ _ E) as (Hd & Hl & Hp); try done. split; [done|]. split; [done|]. split; [|done].
  intros HR. pose proof (reliable_read (hw st) dev (blks st dev) blkno cnt H1 Hb Hc Hle H5 H4) as Hn. by rewrite E in Hn.
Qed.

(** The state of a read of [count] bytes at [offset]: what has been read is right. *)
Record reading (l : list Z) (offset count sz : Z) (g : progress) (go : bool) : Prop := mk_reading {
  rg_ret : 0 <= g_ret g <= count;
  rg_buf : take (Z.to_nat (g_ret g)) (g_buf g) = range l offset (g_ret g);
  rg_go : go = true -> g_buf g = range l offset (g_ret g) /\ g_count g = count - g_ret g /\ (g_count g = 0 \/ offset + g_ret g = g_blkno g * sz);
}.

Lemma take_range l off len : 0 <= off -> 0 <= len -> off + len <= Z.of_nat (length l) -> take (Z.to_nat len) (range l off len) = range l off len.
Proof. intros. rewrite take_ge; [done|]. pose proof (range_length l off len). lia. Qed.

Section run.
Context (st : bstate B) (dev offset count : Z).
Context (Hdev : dev_ok st dev) (Hoff : 0 <= offset) (Hcount : 0 < count) (Hcap : offset + count <= blksz (blks st dev) * blkcnt (blks st dev)).
Let b := blks st dev.
Let l := disk (hw st) dev.

Lemma read_first_ok :
  exists g go st', read_first drv dev b (offset mod blksz b) (mk_progress [] count 0 (offset / blksz b)) st = Ok (g, go, st') /\
    unchanged st st' /\ reading l offset count (blksz b) g go /\ (Reliable drv disk -> go = true).
Proof.
  pose proof (dk_size _ _ Hdev) as Hs. pose proof (dk_disk _ _ Hdev) as Hl. fold b l in Hs, Hl, Hcap. unfold read_first. cbn [g_count g_blkno g_buf g_ret].
  set (tmp := offset mod blksz b). pose proof (Z.mod_pos_bound offset (blksz b) Hs) as Hm. fold tmp in Hm. pose proof (Z.div_mod offset (blksz b) ltac:(lia)) as Hdm. fold tmp in Hdm.
  destruct (Z.ltb_spec 0 tmp) as [Ht|Ht].
  - set (len := if count <? blksz b - tmp then count else blksz b - tmp). assert (Hlen : len = Z.min count (blksz b - tmp)) by (subst len; destruct (Z.ltb_spec count (blksz b - tmp)); lia).
    assert (Hq : 0 <= offset / blksz b) by (apply Z.div_pos; lia).
    destruct (run_read st dev (offset / blksz b) 1 Hdev Hq) as (p & n & h & E & Hu & Hp & Hrel & Hval); [lia|fold b; nia|]. fold b in E, Hp, Hval. rewrite E.
    destruct (Z.eqb_spec n 1) as [->|Hn]; cbn [negb].
    + rewrite sub_bytes_range by lia. cbn [res_bind]. eexists _, _, _. split; [done|]. split; [done|]. split; [|done]. specialize (Hval eq_refl). fold l in Hval.
      assert (Hr : range p tmp len = range l offset len) by (rewrite Hval, range_range by nia; f_equal; nia).
      split; cbn [g_ret g_buf g_count g_blkno app]; rewrite ?Z.add_0_l; [lia|rewrite Hr; apply take_range; lia|].
      intros _. split; [done|]. split; [done|]. destruct (Z.le_gt_cases (blksz b - tmp) count); [right; nia|left; lia].
    + exists (mk_progress [] count 0 (offset / blksz b)), false. eexists. split; [done|]. split; [done|]. split; [by split; cbn; [lia|rewrite range_nil|]|]. intros HR. by specialize (Hrel HR).
  - eexists _, _, _. split; [done|]. split; [apply unchanged_refl|]. split; [|done]. split; cbn; [lia|by rewrite range_nil|]. intros _. rewrite range_nil. split_and!; [done|lia|right; lia].
Qed.

Lemma read_middle_ok st1 g :
  unchanged st st1 -> reading l offset count (blksz b) g true ->
  exists g' go st', read_middle drv dev b g st1 = Ok (g', go, st') /\ unchanged st st' /\ reading l offset count (blksz b) g' go /\
    (go = true -> g_count g' < blksz b) /\ (Reliable drv disk -> go = true).
Proof.
  intros Hu1 Hg. pose proof (dk_size _ _ Hdev) as Hs. pose proof (dk_disk _ _ Hdev) as Hl. fold b l in Hs, Hl, Hcap. pose proof (dev_ok_unchanged _ _ _ Hdev Hu1) as Hdev1.
  destruct Hg as [Hret Hbuf Hgo]. destruct (Hgo eq_refl) as (Eb & Ec & Hpos). destruct Hu1 as (Eblks & Em & Edisk). unfold read_middle. set (tmp := g_count g / blksz b).
  assert (Hdm := Z.div_mod (g_count g) (blksz b) ltac:(lia)). fold tmp in Hdm. pose proof (Z.mod_pos_bound (g_count g) (blksz b) Hs) as Hm.
  destruct (Z.ltb_spec 0 tmp) as [Ht|Ht].
  - destruct Hpos as [Hz|Hpos]; [exfalso; subst tmp; rewrite Hz, Z.div_0_l in Ht by lia; lia|].
    assert (Hblk : g_blkno g + tmp <= blkcnt b) by nia. assert (Hb0 : 0 <= g_blkno g) by nia. assert (Eb1 : blks st1 dev = b) by (by rewrite Eblks).
    destruct (run_read st1 dev (g_blkno g) tmp Hdev1 Hb0 Ht) as (p & n & h & E & Hu & Hp & Hrel & Hval); [by rewrite Eb1|]. rewrite Eb1 in *. rewrite E.
    assert (Hu' : unchanged st (set_hw st1 h)) by (eapply unchanged_trans; [|exact Hu]; done).
    destruct (Z.eqb_spec n tmp) as [->|Hn]; cbn [negb].
    + eexists _, _, _. split; [done|]. split; [done|]. specialize (Hval eq_refl). rewrite Edisk in Hval. fold l in Hval. rewrite <- Hpos in Hval.
      assert (Hr : g_buf g ++ p = range l offset (g_ret g + tmp * blksz b)) by (rewrite Eb, Hval; apply range_app; nia).
      split; [split; cbn [g_ret g_buf g_count g_blkno]; [nia|rewrite Hr; apply take_range; nia|]|cbn; split; [intros _; nia|done]].
      intros _. split; [done|]. split; [lia|]. right. nia.
    + eexists _, false, _. split; [done|]. split; [done|]. split; [|split; [done|]; intros HR; by specialize (Hrel HR)]. split; cbn [g_ret g_buf g_count g_blkno]; [done| |done].
      rewrite take_app_le; [done|]. rewrite Eb. pose proof (range_length l offset (g_ret g)). lia.
  - exists g, true, st1. split; [done|]. split; [done|]. split; [by split|]. split; [|done]. intros _. nia.
Qed.

Lemma read_last_ok st1 g :
  unchanged st st1 -> reading l offset count (blksz b) g true -> g_count g < blksz b ->
  exists g' go st', read_last drv dev b g st1 = Ok (g', go, st') /\ unchanged st st' /\ 0 <= g_ret g' <= count /\
    take (Z.to_nat (g_ret g')) (g_buf g') = range l offset (g_ret g') /\ (Reliable drv disk -> g_ret g' = count /\ g_buf g' = range l offset count).
Proof.
  intros Hu1 Hg Hlt. pose proof (dk_size _ _ Hdev) as Hs. pose proof (dk_disk _ _ Hdev) as Hl. fold b l in Hs, Hl, Hcap. pose proof (dev_ok_unchanged _ _ _ Hdev Hu1) as Hdev1.
  destruct Hg as [Hret Hbuf Hgo]. destruct (Hgo eq_refl) as (Eb & Ec & Hpos). destruct Hu1 as (Eblks & Em & Edisk). unfold read_last.
  destruct (Z.ltb_spec 0 (g_count g)) as [Ht|Ht].
  - destruct Hpos as [Hz|Hpos]; [lia|]. assert (Hblk : g_blkno g + 1 <= blkcnt b) by nia. assert (Hb0 : 0 <= g_blkno g) by nia. assert (Eb1 : blks st1 dev = b) by (by rewrite Eblks).
    destruct (run_read st1 dev (g_blkno g) 1 Hdev1 Hb0) as (p & n & h & E & Hu & Hp & Hrel & Hval); [lia|by rewrite Eb1|]. rewrite Eb1 in *. rewrite E.
    assert (Hu' : unchanged st (set_hw st1 h)) by (eapply unchanged_trans; [|exact Hu]; done).
    destruct (Z.eqb_spec n 1) as [->|Hn]; cbn [negb].
    + rewrite sub_bytes_range by lia. cbn [res_bind]. eexists _, _, _. split; [done|]. split; [done|]. cbn [g_ret g_buf]. specialize (Hval eq_refl). rewrite Edisk in Hval. fold l in Hval.
      assert (Hr : g_buf g ++ range p 0 (g_count g) = range l offset count).
      { rewrite Eb, Hval, range_range by nia. rewrite Z.add_0_r, <- Hpos. rewrite range_app by lia. f_equal. lia. }
      replace (g_ret g + g_count g) with count by lia. rewrite Hr. split; [lia|]. split; [apply take_range; lia|done].
    + eexists g, false, _. split; [done|]. split; [done|]. split; [done|]. split; [done|]. intros HR. by specialize (Hrel HR).
  - exists g, true, st1. split; [done|]. split; [done|]. split; [done|]. split; [done|]. intros _. replace count with (g_ret g) by lia. by rewrite Eb.
Qed.
End run.

(** The number of bytes of a request that the device has. *)
Definition clipped (b : block_t) (offset count : Z) : Z := Z.max 0 (Z.min count (blksz b * blkcnt b - offset)).

Lemma clip_count b offset count : 0 <= count -> blksz b * blkcnt b < 2 ^ 64 -> 0 < blksz b -> 0 < blkcnt b -> offset < block_capacity b ->
  (if block_capacity b - offset <? count then block_capacity b - offset else count) = clipped b offset count.
Proof.
  intros Hc Hf Hs Hn. unfold block_capacity, clipped. rewrite u64_small by nia. intros Ho. destruct (Z.ltb_spec (blksz b * blkcnt b - offset) count); lia.
Qed.

Lemma block_read_ok st dev buf offset count :
  dev_ok st dev -> dev <> 0 -> buf <> 0 -> 0 <= offset -> 0 <= count ->
  exists bytes ret st', block_read drv dev buf offset count st = Ok (bytes, ret, st') /\ unchanged st st' /\
    0 <= ret <= clipped (blks st dev) offset count /\ take (Z.to_nat ret) bytes = range (disk (hw st) dev) offset ret /\
    (Reliable drv disk -> (ret = 0 /\ bytes = [] /\ mallocs st (n_malloc st) = false) \/ (ret = clipped (blks st dev) offset count /\ bytes = range (disk (hw st) dev) offset ret)).
Proof.
  intros Hdev Hd Hb Ho Hc. pose proof Hdev as [Hs Hn Hf Hl]. unfold block_read. rewrite (proj2 (Z.eqb_neq dev 0)), (proj2 (Z.eqb_neq buf 0)) by done. cbn [orb].
  set (b := blks st dev) in *. set (l := disk (hw st) dev) in *.
  assert (Hnone : clipped b offset count = 0 \/ 0 < clipped b offset count) by (unfold clipped; lia).
  assert (Hzero : forall st', unchanged st st' -> (mallocs st (n_malloc st) = false \/ clipped b offset count = 0) -> exists bytes ret st'', Ok ([], 0, st') = Ok (bytes, ret, st'') /\ unchanged st st'' /\
    0 <= ret <= clipped b offset count /\ take (Z.to_nat ret) bytes = range l offset ret /\
    (Reliable drv disk -> (ret = 0 /\ bytes = [] /\ mallocs st (n_malloc st) = false) \/ (ret = clipped b offset count /\ bytes = range l offset ret))).
  { intros st' Hu Hor. exists [], 0, st'. split; [done|]. split; [done|]. split; [lia|]. split; [done|]. intros _. destruct Hor as [Hor|Hor]; [by left|by right]. }
  destruct (Z.eqb_spec count 0) as [Hc0|Hc0]. { apply Hzero; [apply unchanged_refl|right; unfold clipped; lia]. }
  rewrite (proj2 (Z.eqb_neq (blksz b) 0)), (proj2 (Z.eqb_neq (blkcnt b) 0)) by lia. cbn [orb].
  destruct (Z.leb_spec (block_capacity b) offset) as [Hcap|Hcap]. { apply Hzero; [apply unchanged_refl|right]. unfold block_capacity in Hcap. rewrite u64_small in Hcap by nia. unfold clipped. lia. }
  rewrite clip_count by (done || lia). assert (Hpos : 0 < clipped b offset count). { unfold block_capacity in Hcap. rewrite u64_small in Hcap by nia. unfold clipped. lia. }
  set (n := clipped b offset count) in *. assert (Hfit : offset + n <= blksz b * blkcnt b) by (subst n; unfold clipped in *; lia).
  unfold bounce. destruct (mallocs st (n_malloc st)) eqn:Em; cbn [negb]; [|by apply Hzero; [|left]].
  set (st0 := mk_bstate _ _ _ _). assert (Hu0 : unchanged st st0) by done. assert (Hdev0 : dev_ok st0 dev) by (by eapply dev_ok_unchanged).
  destruct (read_first_ok st0 dev offset n Hdev0 Ho Hpos Hfit) as (g1 & go1 & st1 & E1 & U1 & R1 & Rel1). change (blks st0 dev) with b in *. change (disk (hw st0) dev) with l in *. rewrite E1. cbn [res_bind].
  assert (Hstop : forall g go stx, unchanged st0 stx -> reading l offset n (blksz b) g go -> (Reliable drv disk -> go = true) -> go = false -> exists bytes ret st', Ok (g_buf g, g_ret g, stx) = Ok (bytes, ret, st') /\ unchanged st st' /\
    0 <= ret <= n /\ take (Z.to_nat ret) bytes = range l offset ret /\ (Reliable drv disk -> (ret = 0 /\ bytes = [] /\ true = false) \/ (ret = n /\ bytes = range l offset ret))).
  { intros g go stx Hux [Hr Hbf _] Hrel ->. eexists _, _, _. split; [done|]. split; [done|]. split; [done|]. split; [done|]. intros HR. by specialize (Hrel HR). }
  destruct go1; cbn [negb]; [|by eapply Hstop].
  destruct (read_middle_ok st0 dev offset n Hdev0 Ho Hpos Hfit st1 g1 U1 R1) as (g2 & go2 & st2 & E2 & U2 & R2 & Hlt & Rel2). change (blks st0 dev) with b in *. rewrite E2. cbn [res_bind].
  destruct go2; cbn [negb]; [|by eapply Hstop].
  destruct (read_last_ok st0 dev offset n Hdev0 Ho Hpos Hfit st2 g2 U2 R2 (Hlt eq_refl)) as (g3 & go3 & st3 & E3 & U3 & Hr3 & Hb3 & Rel3). change (blks st0 dev) with b in *. rewrite E3. cbn [res_bind].
  eexists _, _, _. split; [done|]. split; [done|]. split; [done|]. split; [done|]. intros HR. right. destruct (Rel3 HR) as [-> ->]. done.
Qed.
End read.

Section write.
Context {B : Type} (drv : block_driver B) (disk : disk_view B) `{!BlockDriver drv disk, !Reliable drv disk}.
Implicit Types st : bstate B.
Abbreviation dev_ok := (dev_ok disk).

(** The memory of [dev] has become [l], that of the other devices is as before. *)
Definition written st dev (l : list Z) st' : Prop :=
  blks st' = blks st /\ mallocs st' = mallocs st /\ disk (hw st') dev = l /\ forall d, d <> dev -> disk (hw st') d = disk (hw st) d.

Lemma dev_ok_written st dev l st' : dev_ok st dev -> length l = length (disk (hw st) dev) -> written st dev l st' -> dev_ok st' dev.
Proof. intros [H1 H2 H3 H4 H5] Hl (E1 & _ & E3 & _). split; rewrite ?E1, ?E3, ?Hl; done. Qed.

Lemma run_write st dev data blkno cnt :
  dev_ok st dev -> 0 <= blkno -> 0 < cnt -> blkno + cnt <= blkcnt (blks st dev) -> Z.of_nat (length data) = cnt * blksz (blks st dev) ->
  exists h, drv_write drv (hw st) dev (blks st dev) data blkno cnt = (cnt, h) /\ written st dev (splice (disk (hw st) dev) (blkno * blksz (blks st dev)) data) (set_hw st h).
Proof.
  intros [H1 H2 H3 H4 H5] Hb Hc Hle Hlen. pose proof (reliable_write (hw st) dev (blks st dev) data blkno cnt H1 Hb Hc Hle H5 H4 Hlen) as Hn.
  destruct (drv_write drv (hw st) dev (blks st dev) data blkno cnt) as [n h] eqn:E. cbn in Hn. subst n. exists h. split; [done|].
  destruct (write_contract _ _ _ _ _ _ _ _ E) as (Hd & Hl & Hp); try done. split_and!; try done. by apply Hp.
Qed.

(** A read, a change and a write of one block. *)
Lemma write_part_ok st dev off len g :
  dev_ok st dev -> 0 <= g_blkno g -> g_blkno g + 1 <= blkcnt (blks st dev) -> 0 <= off -> 0 <= len -> off + len <= blksz (blks st dev) -> len <= Z.of_nat (length (g_buf g)) ->
  exists st', write_part drv dev (blks st dev) off len g st = Ok (true, st') /\
    written st dev (splice (disk (hw st) dev) (g_blkno g * blksz (blks st dev) + off) (range (g_buf g) 0 len)) st'.
Proof.
  intros Hdev Hb0 Hb1 Ho Hlen Hfit Hdata. unfold write_part. pose proof Hdev as [Hs Hn Hf Hl].
  destruct (run_read drv disk st dev (g_blkno g) 1 Hdev Hb0) as (p & n & h & E & Hu & Hp & Hrel & Hval); [lia|lia|]. rewrite E. rewrite (Hrel _), Z.eqb_refl. cbn [negb].
  specialize (Hval (Hrel _)). rewrite sub_bytes_range by lia. cbn [res_bind]. assert (Hrl : Z.of_nat (length (range (g_buf g) 0 len)) = len) by (apply range_length; lia).
  rewrite put_bytes_splice by lia. cbn [res_bind]. set (st1 := set_hw st h) in *. assert (Hdev1 : dev_ok st1 dev) by (by eapply dev_ok_unchanged). destruct Hu as (Eb & Em & Ed).
  destruct (run_write st1 dev (splice p off (range (g_buf g) 0 len)) (g_blkno g) 1 Hdev1 Hb0) as (h2 & E2 & W2); [lia|done| |].
  { rewrite splice_length by lia. exact Hp. }
  change (blks st1 dev) with (blks st dev) in *. rewrite E2. rewrite Z.eqb_refl. eexists. split; [done|]. destruct W2 as (F1 & F2 & F3 & F4). split_and!; try done.
  - rewrite F3, Ed, Hval. rewrite !Z.mul_1_l in *. apply splice_range; nia.
  - intros d Hd. by rewrite F4, Ed.
Qed.

(** The state of a write of the first [n] bytes of [data] to [offset]. *)
Record writing st dev (offset n : Z) (data : list Z) (g : progress) st' : Prop := mk_writing {
  wg_ret : 0 <= g_ret g <= n;
  wg_count : g_count g = n - g_ret g;
  wg_buf : g_buf g = drop (Z.to_nat (g_ret g)) data;
  wg_disk : written st dev (splice (disk (hw st) dev) offset (range data 0 (g_ret g))) st';
  wg_pos : g_count g = 0 \/ offset + g_ret g = g_blkno g * blksz (blks st dev);
}.

Section run.
Context (st : bstate B) (dev offset n : Z) (data : list Z).
Context (Hdev : dev_ok st dev) (Hoff : 0 <= offset) (Hn : 0 < n) (Hcap : offset + n <= blksz (blks st dev) * blkcnt (blks st dev)) (Hdata : n <= Z.of_nat (length data)).
Let b := blks st dev.
Let l := disk (hw st) dev.

Lemma writing_dev_ok g st' : writing st dev offset n data g st' -> dev_ok st' dev.
Proof.
  intros [Hr _ _ Hw _]. eapply dev_ok_written; [exact Hdev| |exact Hw]. apply splice_length; [done|]. rewrite range_length by lia. rewrite (dk_disk _ _ _ Hdev). lia.
Qed.

(** [len] more bytes at the place where the write is. *)
Lemma writing_more g st1 st2 len blkno :
  writing st dev offset n data g st1 -> 0 <= len <= g_count g ->
  written st1 dev (splice (disk (hw st1) dev) (offset + g_ret g) (range (g_buf g) 0 len)) st2 ->
  (g_count g - len = 0 \/ offset + (g_ret g + len) = blkno * blksz b) ->
  forall buf, buf = drop (Z.to_nat len) (g_buf g) ->
  writing st dev offset n data (mk_progress buf (g_count g - len) (g_ret g + len) blkno) st2.
Proof.
  intros [Hr Hc Hb (E1 & E2 & E3 & E4) _] Hlen (F1 & F2 & F3 & F4) Hpos buf ->. split; cbn [g_ret g_count g_buf g_blkno]; [lia|lia| | |done].
  - rewrite Hb, drop_drop. f_equal. lia.
  - split_and!; [congruence|congruence| |intros d Hd; by rewrite F4, E4]. rewrite F3, E3, Hb. pose proof (dk_disk _ _ _ Hdev) as Hl. fold b l in Hl, Hcap.
    assert (Er : range (drop (Z.to_nat (g_ret g)) data) 0 len = range data (g_ret g) len) by done. rewrite Er.
    assert (L1 : Z.of_nat (length (range data 0 (g_ret g))) = g_ret g) by (apply range_length; lia). assert (L2 : Z.of_nat (length (range data (g_ret g) len)) = len) by (apply range_length; lia).
    rewrite <- L1 at 2. rewrite splice_app by (fold l; lia). by rewrite range_app by lia.
Qed.

Lemma write_first_ok :
  exists g st', write_first drv dev b (offset mod blksz b) (mk_progress data n 0 (offset / blksz b)) st = Ok (g, true, st') /\ writing st dev offset n data g st'.
Proof.
  pose proof (dk_size _ _ _ Hdev) as Hs. pose proof (dk_disk _ _ _ Hdev) as Hl. fold b l in Hs, Hl, Hcap. unfold write_first. cbn [g_count g_blkno g_buf g_ret].
  set (tmp := offset mod blksz b). pose proof (Z.mod_pos_bound offset (blksz b) Hs) as Hm. fold tmp in Hm. pose proof (Z.div_mod offset (blksz b) ltac:(lia)) as Hdm. fold tmp in Hdm.
  assert (W0 : forall blkno, (offset = blkno * blksz b) \/ True -> written st dev (splice l offset (range data 0 0)) st).
  { intros _ _. split_and!; [done|done| |done]. rewrite range_nil. unfold splice. cbn [app length]. by rewrite Nat.add_0_r, take_drop. }
  destruct (Z.ltb_spec 0 tmp) as [Ht|Ht].
  - set (len := if n <? blksz b - tmp then n else blksz b - tmp). assert (Hlen : len = Z.min n (blksz b - tmp)) by (subst len; destruct (Z.ltb_spec n (blksz b - tmp)); lia).
    assert (Hq : 0 <= offset / blksz b) by (apply Z.div_pos; lia).
    destruct (write_part_ok st dev tmp len (mk_progress data n 0 (offset / blksz b)) Hdev) as (st1 & E & W); cbn [g_blkno g_buf] in *; fold b; [lia|nia|lia|lia|lia|lia|]. fold b in E, W. rewrite E. cbn [res_bind negb].
    eexists _, _. split; [done|]. destruct W as (F1 & F2 & F3 & F4). split; cbn [g_ret g_count g_buf g_blkno]; rewrite ?Z.add_0_l; [lia|done|done| |].
    + split_and!; try done. rewrite F3. fold l. f_equal. lia.
    + fold b. destruct (Z.le_gt_cases (blksz b - tmp) n); [right; nia|left; lia].
  - eexists _, _. split; [done|]. split; cbn [g_ret g_count g_buf g_blkno]; [lia|lia|done|by apply (W0 0); right|right; fold b; lia].
Qed.

Lemma write_middle_ok st1 g :
  writing st dev offset n data g st1 ->
  exists g' st', write_middle drv dev b g st1 = Ok (g', true, st') /\ writing st dev offset n data g' st' /\ g_count g' < blksz b.
Proof.
  intros Hw. pose proof (writing_dev_ok _ _ Hw) as Hdev1. pose proof Hw as [Hr Hc Hb (E1 & E2 & E3 & E4) Hpos]. pose proof (dk_size _ _ _ Hdev) as Hs. fold b in Hs, Hpos, Hcap. unfold write_middle.
  set (tmp := g_count g / blksz b). assert (Hdm := Z.div_mod (g_count g) (blksz b) ltac:(lia)). fold tmp in Hdm. pose proof (Z.mod_pos_bound (g_count g) (blksz b) Hs) as Hm.
  destruct (Z.ltb_spec 0 tmp) as [Ht|Ht].
  - destruct Hpos as [Hz|Hpos]; [exfalso; subst tmp; rewrite Hz, Z.div_0_l in Ht by lia; lia|]. assert (Hbl : Z.of_nat (length (g_buf g)) = Z.of_nat (length data) - g_ret g) by (rewrite Hb, length_drop; lia).
    assert (Hrl : Z.of_nat (length (range (g_buf g) 0 (tmp * blksz b))) = tmp * blksz b) by (apply range_length; nia).
    rewrite sub_bytes_range by nia. cbn [res_bind]. assert (Eb1 : blks st1 dev = b) by (by rewrite E1).
    destruct (run_write st1 dev (range (g_buf g) 0 (tmp * blksz b)) (g_blkno g) tmp Hdev1) as (h & E & W); rewrite ?Eb1; [nia|done|nia|done|]. rewrite Eb1 in *. rewrite E, Z.eqb_refl. cbn [negb].
    eexists _, _. split; [done|]. split; [|cbn; nia]. eapply writing_more; [exact Hw|nia| |right; nia|done]. by rewrite Hpos.
  - exists g, st1. split; [done|]. split; [done|]. nia.
Qed.

Lemma write_last_ok st1 g :
  writing st dev offset n data g st1 -> g_count g < blksz b ->
  exists g' st', write_last drv dev b g st1 = Ok (g', true, st') /\ g_ret g' = n /\ written st dev (splice l offset (range data 0 n)) st'.
Proof.
  intros Hw Hlt. pose proof (writing_dev_ok _ _ Hw) as Hdev1. pose proof Hw as [Hr Hc Hb (E1 & E2 & E3 & E4) Hpos]. fold b in Hpos, Hcap. unfold write_last.
  destruct (Z.ltb_spec 0 (g_count g)) as [Ht|Ht].
  - destruct Hpos as [Hz|Hpos]; [lia|]. assert (Eb1 : blks st1 dev = b) by (by rewrite E1). assert (Hbl : Z.of_nat (length (g_buf g)) = Z.of_nat (length data) - g_ret g) by (rewrite Hb, length_drop; lia).
    pose proof (dk_size _ _ _ Hdev) as Hs. fold b in Hs. destruct (write_part_ok st1 dev 0 (g_count g) g Hdev1) as (st2 & E & W); rewrite ?Eb1; [nia|nia|lia|lia|lia|lia|]. rewrite Eb1 in *. rewrite E. cbn [res_bind negb].
    eexists _, _. split; [done|]. cbn [g_ret]. split; [lia|]. rewrite Z.add_0_r, <- Hpos in W.
    assert (Hm : writing st dev offset n data (mk_progress (drop (Z.to_nat (g_count g)) (g_buf g)) (g_count g - g_count g) (g_ret g + g_count g) 0) st2) by (eapply writing_more; [exact Hw|lia|exact W|left; lia|done]).
    pose proof (wg_disk _ _ _ _ _ _ _ Hm) as Hd. cbn [g_ret] in Hd. by replace (g_ret g + g_count g) with n in Hd by lia.
  - exists g, st1. split; [done|]. split; [lia|]. replace n with (g_ret g) by lia. by split_and!.
Qed.
End run.

Lemma block_write_ok st dev buf data offset count :
  dev_ok st dev -> dev <> 0 -> buf <> 0 -> 0 <= offset -> 0 <= count <= Z.of_nat (length data) -> (forall i, mallocs st i = true) ->
  let n := clipped (blks st dev) offset count in
  exists st', block_write drv dev buf data offset count st = Ok (n, st') /\ written st dev (splice (disk (hw st) dev) offset (range data 0 n)) st'.
Proof.
  intros Hdev Hd Hb Ho Hc Hmal n. pose proof Hdev as [Hs Hn Hf Hl]. unfold block_write. rewrite (proj2 (Z.eqb_neq dev 0)), (proj2 (Z.eqb_neq buf 0)) by done. cbn [orb].
  set (b := blks st dev) in *. assert (Hzero : n = 0 -> exists st', Ok (0, st) = Ok (n, st') /\ written st dev (splice (disk (hw st) dev) offset (range data 0 n)) st').
  { intros ->. exists st. split; [done|]. split_and!; [done|done| |done]. rewrite range_nil. unfold splice. cbn [app length]. by rewrite Nat.add_0_r, take_drop. }
  destruct (Z.eqb_spec count 0) as [Hc0|Hc0]; [apply Hzero; subst n; unfold clipped; lia|].
  rewrite (proj2 (Z.eqb_neq (blksz b) 0)), (proj2 (Z.eqb_neq (blkcnt b) 0)) by lia. cbn [orb].
  destruct (Z.leb_spec (block_capacity b) offset) as [Hcap|Hcap]; pose proof Hcap as Hcap'; unfold block_capacity in Hcap'; rewrite u64_small in Hcap' by nia; [apply Hzero; subst n; unfold clipped; lia|].
  rewrite clip_count by (done || lia). fold n. assert (Hpos : 0 < n) by (subst n; unfold clipped; lia). assert (Hfit : offset + n <= blksz b * blkcnt b) by (subst n; unfold clipped in *; lia).
  assert (Hnd : n <= Z.of_nat (length data)) by (subst n; unfold clipped; lia).
  unfold bounce. rewrite Hmal. cbn [negb]. set (st0 := mk_bstate _ _ _ _). assert (Hdev0 : dev_ok st0 dev) by done.
  destruct (write_first_ok st0 dev offset n data Hdev0 Ho Hpos Hfit Hnd) as (g1 & st1 & E1 & W1). change (blks st0 dev) with b in *. rewrite E1. cbn [res_bind negb].
  destruct (write_middle_ok st0 dev offset n data Hdev0 Ho Hpos Hfit Hnd st1 g1 W1) as (g2 & st2 & E2 & W2 & Hlt). change (blks st0 dev) with b in *. rewrite E2. cbn [res_bind negb].
  destruct (write_last_ok st0 dev offset n data Hdev0 Ho Hpos Hfit Hnd st2 g2 W2 Hlt) as (g3 & st3 & E3 & Er & W3). change (blks st0 dev) with b in *. rewrite E3. cbn [res_bind]. rewrite Er.
  by exists st3.
Qed.
End write.
