(* ===== verification/Strtoul.v ===== *)
(** * Strtoul: character classes and the parsing of numbers

    lib/libc/ctype.c, include/ctype.h and lib/libc/strtoul.c.  A C string is the list of its
    bytes, without the final NUL. *)

From S2P Require Import Prelude Bits.

(** ** Character classes *)

Definition _U : Z := 1.
Definition _L : Z := 2.
Definition _D : Z := 4.
Definition _C : Z := 8.
Definition _P : Z := 16.
Definition _S : Z := 32.
Definition _X : Z := 64.
Definition _SP : Z := 128.

Definition _ctype : list Z := [
  _C; _C; _C; _C; _C; _C; _C; _C;
  _C; Z.lor _C _S; Z.lor _C _S; Z.lor _C _S; Z.lor _C _S; Z.lor _C _S; _C; _C;
  _C; _C; _C; _C; _C; _C; _C; _C;
  _C; _C; _C; _C; _C; _C; _C; _C;
  Z.lor _S _SP; _P; _P; _P; _P; _P; _P; _P;
  _P; _P; _P; _P; _P; _P; _P; _P;
  _D; _D; _D; _D; _D; _D; _D; _D;
  _D; _D; _P; _P; _P; _P; _P; _P;
  _P; Z.lor _U _X; Z.lor _U _X; Z.lor _U _X; Z.lor _U _X; Z.lor _U _X; Z.lor _U _X; _U;
  _U; _U; _U; _U; _U; _U; _U; _U;
  _U; _U; _U; _U; _U; _U; _U; _U;
  _U; _U; _U; _P; _P; _P; _P; _P;
  _P; Z.lor _L _X; Z.lor _L _X; Z.lor _L _X; Z.lor _L _X; Z.lor _L _X; Z.lor _L _X; _L;
  _L; _L; _L; _L; _L; _L; _L; _L;
  _L; _L; _L; _L; _L; _L; _L; _L;
  _L; _L; _L; _P; _P; _P; _P; _C;
  0; 0; 0; 0; 0; 0; 0; 0; 0; 0; 0; 0; 0; 0; 0; 0;
  0; 0; 0; 0; 0; 0; 0; 0; 0; 0; 0; 0; 0; 0; 0; 0;
  Z.lor _S _SP; _P; _P; _P; _P; _P; _P; _P; _P; _P; _P; _P; _P; _P; _P; _P;
  _P; _P; _P; _P; _P; _P; _P; _P; _P; _P; _P; _P; _P; _P; _P; _P;
  _U; _U; _U; _U; _U; _U; _U; _U; _U; _U; _U; _U; _U; _U; _U; _U;
  _U; _U; _U; _U; _U; _U; _U; _P; _U; _U; _U; _U; _U; _U; _U; _L;
  _L; _L; _L; _L; _L; _L; _L; _L; _L; _L; _L; _L; _L; _L; _L; _L;
  _L; _L; _L; _L; _L; _L; _L; _P; _L; _L; _L; _L; _L; _L; _L; _L].

(** [_ctype[(int)(unsigned char)(x)]] *)
Definition __ismask (x : Z) : Z := nth (Z.to_nat (wrap 8 x)) _ctype 0.
Definition is_class (x mask : Z) : bool := negb (Z.land (__ismask x) mask =? 0).

Definition isalnum (c : Z) : bool := is_class c (Z.lor _U (Z.lor _L _D)).
Definition isalpha (c : Z) : bool := is_class c (Z.lor _U _L).
Definition isdigit (c : Z) : bool := is_class c _D.
Definition isspace (c : Z) : bool := is_class c _S.
Definition isupper (c : Z) : bool := is_class c _U.
Definition islower (c : Z) : bool := is_class c _L.
Definition isxdigit (c : Z) : bool := is_class c (Z.lor _D _X).

(** ** strtoul *)

Definition ULONG_MAX : Z := 2 ^ 64 - 1.

(** A plain [char] is signed. *)
Definition char_of (c : Z) : Z := swrap 8 c.

(** [*s], a [char], and [s + 1].  At the NUL there is nothing more to read. *)
Definition peek (s : list Z) : Z := char_of (hd 0 s).

(** [do { c = ( unsigned char ) *s++; } while (isspace(c));] *)
Fixpoint skip_space (s : list Z) : Z * list Z :=
  match s with
  | [] => (0, [])
  | c :: s => if isspace c then skip_space s else (c, s)
  end.

(** The digit that [c] stands for, if any. *)
Definition digit_of (c : Z) : option Z :=
  if isdigit c then Some (c - 48)
  else if isalpha c then Some (c - (if isupper c then 65 - 10 else 97 - 10))
  else None.

(** The loop, with [c] the character that was read last; the NUL at the end is no digit. *)
Fixpoint number_loop (base cutoff cutlim : Z) (c : Z) (s : list Z) (acc any : Z) : Z * Z :=
  match digit_of c with
  | None => (acc, any)
  | Some d =>
      if base <=? d then (acc, any)
      else
        let '(acc, any) :=
          if any <? 0 then (acc, any)
          else if (cutoff <? acc) || ((acc =? cutoff) && (cutlim <? d)) then (ULONG_MAX, -1)
          else (u64 (u64 (acc * base) + d), 1) in
        match s with
        | [] => (acc, any)
        | c :: s => number_loop base cutoff cutlim c s acc any
        end
  end.

(** [strtoul(nptr, NULL, base)], for a base that is not negative: every call of it leaves out
    [endptr]. *)
Definition strtoul (nptr : list Z) (base : Z) : Z :=
  let '(c, s) := skip_space nptr in
  let '(neg, c, s) :=
    if c =? 45 then (true, peek s, tl s)
    else if c =? 43 then (false, peek s, tl s)
    else (false, c, s) in
  let '(base, c, s) :=
    if ((base =? 0) || (base =? 16)) && (c =? 48) && ((peek s =? 120) || (peek s =? 88))
    then (16, peek (tl s), tl (tl s)) else (base, c, s) in
  let base := if base =? 0 then (if c =? 48 then 8 else 10) else base in
  let cutoff := ULONG_MAX / base in
  let cutlim := ULONG_MAX mod base in
  let '(acc, any) := number_loop base cutoff cutlim c s 0 0 in
  if neg && (0 <? any) then u64 (- acc) else acc.

(** ** Hexadecimal numbers *)

(** The digit [d] as a character, in lower or upper case. *)
Definition hex_char (up : bool) (d : Z) : Z := if d <? 10 then 48 + d else (if up then 55 else 87) + d.

Fixpoint hex_digits (up : bool) (n : nat) (x : Z) : list Z :=
  match n with O => [] | S n => hex_digits up n (x / 16) ++ [hex_char up (x mod 16)] end.

Lemma hex_char_digit up d : 0 <= d < 16 -> digit_of (hex_char up d) = Some d /\ isspace (hex_char up d) = false /\ 48 <= hex_char up d <= 102 /\ hex_char up d <> 120 /\ hex_char up d <> 88.
Proof.
  intros H. assert (Hd : d = 0 \/ d = 1 \/ d = 2 \/ d = 3 \/ d = 4 \/ d = 5 \/ d = 6 \/ d = 7 \/ d = 8 \/ d = 9 \/ d = 10 \/ d = 11 \/ d = 12 \/ d = 13 \/ d = 14 \/ d = 15) by lia.
  destruct up; repeat (destruct Hd as [->|Hd]; [vm_compute; repeat split; discriminate|]); subst d; vm_compute; repeat split; discriminate.
Qed.

(** The value of a list of digits read after [acc]. *)
Definition value_of (ds : list Z) (acc : Z) : Z := fold_left (fun a d => a * 16 + d) ds acc.

Lemma number_loop_hex up : forall ds d acc any,
  Forall (fun x => 0 <= x < 16) (d :: ds) -> 0 <= any -> 0 <= acc -> (acc + 1) * 16 ^ Z.of_nat (length (d :: ds)) <= 2 ^ 60 ->
  number_loop 16 (ULONG_MAX / 16) (ULONG_MAX mod 16) (hex_char up d) (hex_char up <$> ds) acc any = (value_of (d :: ds) acc, 1).
Proof.
  induction ds as [|d2 ds IH]; intros d acc any HF Hany Hacc Hlim; apply Forall_cons in HF as [Hd HF]; destruct (hex_char_digit up d Hd) as (Ed & _); cbn [length] in Hlim;
    rewrite Nat2Z.inj_succ, Z.pow_succ_r in Hlim by lia; cbn [number_loop fmap list_fmap]; rewrite Ed, (proj2 (Z.leb_gt 16 d)), (proj2 (Z.ltb_ge any 0)) by lia;
    change (ULONG_MAX / 16) with (2 ^ 60 - 1); change (ULONG_MAX mod 16) with 15.
  - change (16 ^ Z.of_nat 0) with 1 in Hlim. assert (acc < 2 ^ 60 - 1) by lia. rewrite (proj2 (Z.ltb_ge _ acc)), (proj2 (Z.eqb_neq acc _)) by lia. cbn [orb andb]. rewrite (u64_small (acc * 16)), u64_small by lia. done.
  - set (k := 16 ^ Z.of_nat (S (length ds))) in *. assert (Hk : 16 <= k) by (subst k; rewrite Nat2Z.inj_succ, Z.pow_succ_r by lia; pose proof (Z.pow_pos_nonneg 16 (Z.of_nat (length ds))); lia).
    assert (Ha : acc < 2 ^ 60 - 1) by nia. assert (Hnext : (acc * 16 + d + 1) * k <= 2 ^ 60) by nia. clear Hlim.
    rewrite (proj2 (Z.ltb_ge _ acc)), (proj2 (Z.eqb_neq acc _)) by lia. cbn [orb andb]. rewrite (u64_small (acc * 16)), u64_small by lia. apply IH; [done|lia|lia|exact Hnext].
Qed.

Fixpoint digits (n : nat) (x : Z) : list Z := match n with O => [] | S n => digits n (x / 16) ++ [x mod 16] end.

Lemma hex_digits_map up n x : hex_digits up n x = hex_char up <$> digits n x.
Proof. revert x. induction n as [|n IH]; intros x; [done|]. cbn. by rewrite IH, fmap_app. Qed.

Lemma digits_length n x : length (digits n x) = n.
Proof. revert x. induction n as [|n IH]; intros x; [done|]. cbn. rewrite length_app, IH. cbn. lia. Qed.

Lemma digits_range n x : Forall (fun d => 0 <= d < 16) (digits n x).
Proof. revert x. induction n as [|n IH]; intros x; [constructor|]. cbn. apply Forall_app. split; [done|]. constructor; [apply Z.mod_pos_bound; lia|constructor]. Qed.

Lemma digits_value n x : 0 <= x < 16 ^ Z.of_nat n -> value_of (digits n x) 0 = x.
Proof.
  revert x. induction n as [|n IH]; intros x Hx; [cbn in *; lia|]. rewrite Nat2Z.inj_succ, Z.pow_succ_r in Hx by lia. cbn. unfold value_of in *. rewrite fold_left_app.
  rewrite IH; [cbn; pose proof (Z.div_mod x 16); lia|]. split; [apply Z.div_pos; lia|apply Z.div_lt_upper_bound; lia].
Qed.

(** Parsing undoes printing. *)
Lemma strtoul_hex up n x : (0 < n <= 14)%nat -> 0 <= x < 16 ^ Z.of_nat n -> strtoul (hex_digits up n x) 16 = x.
Proof.
  intros Hn Hx. pose proof (digits_length n x) as Hl. pose proof (digits_range n x) as HF. pose proof (digits_value n x Hx) as Hv. rewrite hex_digits_map.
  destruct (digits n x) as [|d ds]; [cbn in Hl; lia|]. pose proof HF as HF0. apply Forall_cons in HF0 as [Hd HF']. destruct (hex_char_digit up d Hd) as (_ & Hsp & Hr & _ & _).
  unfold strtoul. cbn [fmap list_fmap skip_space]. rewrite Hsp. rewrite (proj2 (Z.eqb_neq _ 45)), (proj2 (Z.eqb_neq _ 43)) by lia.
  assert (Hx0 : ((peek (hex_char up <$> ds) =? 120) || (peek (hex_char up <$> ds) =? 88)) = false).
  { destruct ds as [|d2 ds]; [done|]. apply Forall_cons in HF' as [Hd2 _]. destruct (hex_char_digit up d2 Hd2) as (_ & _ & Hr2 & H1 & H2). cbn [peek hd fmap list_fmap]. unfold peek, char_of. cbn [hd].
    rewrite swrap_small by lia. by rewrite (proj2 (Z.eqb_neq _ 120)), (proj2 (Z.eqb_neq _ 88)). }
  change (list_fmap Z Z (hex_char up) ds) with (hex_char up <$> ds). rewrite Hx0, andb_false_r. cbn [Z.eqb orb]. rewrite number_loop_hex; [cbn; exact Hv|done|lia|lia|].
  rewrite Hl, Z.add_0_l, Z.mul_1_l. apply (Z.le_trans _ (16 ^ 14)); [apply Z.pow_le_mono_r; lia|lia].
Qed.
