(* ===== verification/Cpio.v ===== *)
(** * Cpio: the filesystem of a cpio archive (fs/cpio/cpio.c)

    A read-only filesystem on a block device that holds an archive in the "newc" format: a
    sequence of entries, each a header of 110 bytes with numbers in hexadecimal, a name and the
    contents of a file, up to an entry of the name [TRAILER!!!].  Every lookup walks through
    the archive from its start.

    The buffers [path] and [name] on the stack have their sizes: a name that does not fit is
    undefined, and so is one without its NUL. *)

From S2P Require Import Prelude Bits Strtoul CMem Alloc Vfs Block.

(** [sizeof(struct cpio_newc_header_t)], and the address of a local variable. *)
Definition HEADER : Z := 110.
Definition STACK : Z := 8.

Definition MAGIC : list Z := [48; 55; 48; 55; 48; 49].
Definition TRAILER : list Z := [84; 82; 65; 73; 76; 69; 82; 33; 33; 33].
Definition DOT : Z := 46.

(** ** Names *)

(** The C string at the start of an array: up to its NUL. *)
Fixpoint cstring (l : list Z) : option (list Z) :=
  match l with
  | [] => None
  | c :: l => if c =? 0 then Some [] else cons c <$> cstring l
  end.

(** [if ( *p == '/' ) p++;] *)
Definition skip_slash (p : list Z) : list Z := if chr p =? SLASH then tl p else p.

(** [strchr(p, '/')]: what is before and behind the first slash. *)
Fixpoint split_slash (p : list Z) : option (list Z * list Z) :=
  match p with
  | [] => None
  | c :: p => if c =? SLASH then Some ([], p) else match split_slash p with Some (a, b) => Some (c :: a, b) | None => None end
  end.

(** The result is what is copied to [result], none for FALSE. *)
Definition get_next_token (path prefix : list Z) : res (option (list Z)) :=
  let path := skip_slash path in
  let prefix := skip_slash prefix in
  let l := Z.of_nat (length prefix) in
  if negb (strncmp_eq path prefix l) then Ok None
  else
    let p := drop (length prefix) path in
    if chr p =? 0 then Ok None
    else
      let p := skip_slash p in
      if chr p =? 0 then Ok None
      else
        match split_slash p with
        | Some (tok, rest) =>
            if negb (chr rest =? 0) then Ok None
            else let* _ := defined_if (Z.of_nat (length tok) <? VFS_MAX_NAME) in Ok (Some tok)
        | None => let* _ := defined_if (Z.of_nat (length p) <? VFS_MAX_NAME) in Ok (Some p)
        end.

Definition check_path (path prefix name : list Z) : bool :=
  let path := skip_slash path in
  let prefix := skip_slash prefix in
  let l := Z.of_nat (length prefix) in
  if negb (l =? 0) && negb (strncmp_eq path prefix l) then false
  else
    let path := skip_slash (drop (length prefix) path) in
    strcmp_eq path name.

(** ** Entries *)

Record entry := mk_entry { e_size : Z; e_namesize : Z; e_mode : Z; e_mtime : Z; e_path : list Z }.

(** The number in a field of eight digits: [memcpy(buf, &header.field, 8)] and [strtoul]. *)
Definition field (h : list Z) (i : nat) : Z :=
  u32 (strtoul (default (take 8 (drop (6 + 8 * i) h)) (cstring (take 8 (drop (6 + 8 * i) h)))) 16).

(** The offset of the contents of the entry at [off], and that of the next entry; the sizes are
    32-bit numbers. *)
Definition data_off (off : Z) (e : entry) : Z :=
  u64 (u64 (off + HEADER) + u32 (Z.land (u32 (e_namesize e + 1)) (not32 3) + 2)).

Definition next_off (off : Z) (e : entry) : Z :=
  Z.land (u64 (u64 (u64 (off + HEADER) + u32 (u32 (Z.land (u32 (e_namesize e + 1)) (not32 3) + 2) + e_size e)) + 3)) (not64 3).

(** [(mode & 00170000)] *)
Definition kind_of (mode : Z) : Z := Z.land mode 61440.

Definition node_type (mode : Z) : vfs_node_type_t * Z :=
  if kind_of mode =? 49152 then (VNT_SOCK, S_IFSOCK)
  else if kind_of mode =? 40960 then (VNT_LNK, S_IFLNK)
  else if kind_of mode =? 32768 then (VNT_REG, S_IFREG)
  else if kind_of mode =? 24576 then (VNT_BLK, S_IFBLK)
  else if kind_of mode =? 16384 then (VNT_DIR, S_IFDIR)
  else if kind_of mode =? 8192 then (VNT_CHR, S_IFCHR)
  else if kind_of mode =? 4096 then (VNT_FIFO, S_IFIFO)
  else (VNT_REG, 0).

Definition dirent_type (mode : Z) : vfs_dirent_type_t :=
  if kind_of mode =? 49152 then VDT_SOCK
  else if kind_of mode =? 40960 then VDT_LNK
  else if kind_of mode =? 32768 then VDT_REG
  else if kind_of mode =? 24576 then VDT_BLK
  else if kind_of mode =? 16384 then VDT_DIR
  else if kind_of mode =? 8192 then VDT_CHR
  else if kind_of mode =? 4096 then VDT_FIFO
  else VDT_REG.

Definition perm_bits (mode : Z) : Z :=
  let bit m s := if has mode m then s else 0 in
  Z.lor (bit 256 S_IRUSR) (Z.lor (bit 128 S_IWUSR) (Z.lor (bit 64 S_IXUSR)
    (Z.lor (bit 32 S_IRGRP) (Z.lor (bit 16 S_IWGRP) (Z.lor (bit 8 S_IXGRP)
    (Z.lor (bit 4 S_IROTH) (Z.lor (bit 2 S_IWOTH) (bit 1 S_IXOTH)))))))).

(** The attributes that a lookup gives to the node of the entry at [off]. *)
Definition entry_attr (off : Z) (e : entry) : vattr :=
  let '(ty, bits) := node_type (e_mode e) in
  mkAttr ty (Z.lor bits (perm_bits (e_mode e))) (e_size e) (e_mtime e) (e_mtime e) (e_mtime e) (data_off off e).

Section cpio.
Context {B : Type} (drv : block_driver B).
Implicit Types st : bstate B.

(** The first part of the loops of [cpio_readdir] and [cpio_lookup]: the entry at [off], none
    at the end of the archive or when it cannot be read. *)
Definition read_entry (dev off : Z) st : res (option entry * bstate B) :=
  let* '(h, rd, st) := block_read drv dev STACK off HEADER st in
  if negb (rd =? HEADER) then Ok (None, st)
  else if negb (bool_decide (take 6 h = MAGIC)) then Ok (None, st)
  else
    let size := field h 6 in
    let name_size := field h 11 in
    let mode := field h 1 in
    let mtime := field h 5 in
    let* '(p, rd, st) := block_read drv dev STACK (u64 (off + HEADER)) name_size st in
    if rd =? 0 then Ok (None, st)
    else
      let* _ := defined_if (Z.of_nat (length p) <=? VFS_MAX_PATH) in
      let* path := deref (cstring p) in
      if (size =? 0) && (mode =? 0) && (name_size =? 11) && strncmp_eq path TRAILER 10 then Ok (None, st)
      else Ok (Some (mk_entry size name_size mode mtime path), st).

(** Each entry takes a header at least. *)
Definition walk_fuel st (dev : Z) : nat := S (Z.to_nat (block_capacity (blks st dev))).

Fixpoint lookup_entry (fuel : nat) (dev : Z) (dir name : list Z) (off : Z) st : res (option (entry * Z) * bstate B) :=
  match fuel with
  | O => Undef
  | S fuel =>
      let* '(o, st) := read_entry dev off st in
      match o with
      | None => Ok (None, st)
      | Some e =>
          if negb (chr (e_path e) =? DOT) && check_path (e_path e) dir name then Ok (Some (e, off), st)
          else lookup_entry fuel dev dir name (next_off off e) st
      end
  end.

Definition cpio_lookup (name : list Z) : op2 (bstate B) Z := fun mi dn n st =>
  let* '(o, st) := lookup_entry (walk_fuel st (m_dev mi)) (m_dev mi) (v_path dn) name 0 st in
  match o with
  | None => Ok (-1, v_attr dn, v_attr n, st)
  | Some (e, off) => Ok (0, v_attr dn, entry_attr off e, st)
  end.

(** The [n]-th entry, from [i] on, that is directly below the directory. *)
Fixpoint readdir_entry (fuel : nat) (dev : Z) (dir : list Z) (n i : Z) (toff : Z) st : res (option (entry * list Z) * bstate B) :=
  match fuel with
  | O => Undef
  | S fuel =>
      let* '(o, st) := read_entry dev toff st in
      match o with
      | None => Ok (None, st)
      | Some e =>
          if chr (e_path e) =? DOT then readdir_entry fuel dev dir n i (next_off toff e) st
          else
            let* tok := get_next_token (e_path e) dir in
            match tok with
            | None => readdir_entry fuel dev dir n i (next_off toff e) st
            | Some name => if i =? n then Ok (Some (e, name), st) else readdir_entry fuel dev dir n (i + 1) (next_off toff e) st
            end
      end
  end.

Definition no_dirent : vfs_dirent_t := mkDirent 0 0 VDT_UNK [].

Definition cpio_readdir (off : Z) : op1 (bstate B) (Z * vfs_dirent_t) := fun mi dn st =>
  let* '(o, st) := readdir_entry (walk_fuel st (m_dev mi)) (m_dev mi) (v_path dn) off 0 0 st in
  match o with
  | None => Ok ((-1, no_dirent), v_attr dn, st)
  | Some (e, name) => Ok ((0, mkDirent off 1 (dirent_type (e_mode e)) name), v_attr dn, st)
  end.

(** [len] is unsigned; [off] is the offset of an open file, which is not negative. *)
Definition cpio_read (off len : Z) : op1 (bstate B) (list Z * Z) := fun mi n st =>
  let a := v_attr n in
  let len := u64 len in
  if negb (bool_decide (v_type a = VNT_REG)) then Ok (([], 0), a, st)
  else if v_size a <=? off then Ok (([], 0), a, st)
  else
    let sz := if v_size a - off <? len then v_size a - off else len in
    let* '(buf, rd, st) := block_read drv (m_dev mi) STACK (u64 (v_data a + off)) sz st in
    Ok ((buf, rd), a, st).

Definition with_data (a : vattr) (x : Z) : vattr := mkAttr (v_type a) (v_mode a) (v_size a) (v_ctime a) (v_atime a) (v_mtime a) x.

Definition cpio_mount (dev : option (list Z)) (mi : minfo) (root : vnode) st : res (Z * Z * Z * vattr * bstate B) :=
  let fail st := Ok (-1, m_flags mi, m_data mi, v_attr root, st) in
  match dev with
  | None => fail st
  | Some _ =>
      let* _ := defined_if (negb (m_dev mi =? 0)) in
      if block_capacity (blks st (m_dev mi)) <=? HEADER then fail st
      else
        let* '(h, rd, st) := block_read drv (m_dev mi) STACK 0 HEADER st in
        if negb (rd =? HEADER) then fail st
        else if negb (bool_decide (take 6 h = MAGIC)) then fail st
        else Ok (0, Z.lor (m_flags mi) MOUNT_RO, 0, with_data (v_attr root) 0, st)
  end.

Definition cpio_unmount (mi : minfo) st : res (Z * Z * bstate B) := Ok (0, 0, st).
Definition cpio_msync (mi : minfo) st : res (Z * Z * bstate B) := Ok (0, m_data mi, st).

(** The operations that do nothing, and those that a read-only filesystem refuses. *)
Definition ret1 {A : Type} (a : A) : op1 (bstate B) A := fun mi n st => Ok (a, v_attr n, st).
Definition ret2 {A : Type} (a : A) : op2 (bstate B) A := fun mi n1 n2 st => Ok (a, v_attr n1, v_attr n2, st).
Definition ret3 {A : Type} (a : A) : op3 (bstate B) A := fun mi n1 n2 n3 st => Ok (a, v_attr n1, v_attr n2, v_attr n3, st).

Definition cpio_vget : op1 (bstate B) Z := ret1 0.
Definition cpio_vput : op1 (bstate B) Z := ret1 0.
Definition cpio_write (off : Z) (buf : list Z) (len : Z) : op1 (bstate B) Z := ret1 0.
Definition cpio_truncate (off : Z) : op1 (bstate B) Z := ret1 (-1).
Definition cpio_sync : op1 (bstate B) Z := ret1 0.
Definition cpio_create (name : list Z) (mode : Z) : op1 (bstate B) Z := ret1 (-1).
Definition cpio_remove (name : list Z) : op2 (bstate B) Z := ret2 (-1).
Definition cpio_rename (sname dname : list Z) : op3 (bstate B) Z := ret3 (-1).
Definition cpio_mkdir (name : list Z) (mode : Z) : op1 (bstate B) Z := ret1 (-1).
Definition cpio_rmdir (name : list Z) : op2 (bstate B) Z := ret2 (-1).
Definition cpio_chmod (mode : Z) : op1 (bstate B) Z := ret1 (-1).

Definition cpio : filesystem_t (bstate B) := {|
  fs_mount := cpio_mount;
  fs_unmount := cpio_unmount;
  fs_msync := cpio_msync;
  fs_vget := cpio_vget;
  fs_vput := cpio_vput;
  fs_read := cpio_read;
  fs_write := cpio_write;
  fs_truncate := cpio_truncate;
  fs_sync := cpio_sync;
  fs_readdir := cpio_readdir;
  fs_lookup := cpio_lookup;
  fs_create := cpio_create;
  fs_remove := cpio_remove;
  fs_rename := cpio_rename;
  fs_mkdir := cpio_mkdir;
  fs_rmdir := cpio_rmdir;
  fs_chmod := cpio_chmod;
|}.
End cpio.
