(* ===== verification/CpioProof.v ===== *)
(** * CpioProof: walking through an archive

    [parse_entry l off] is the entry that the bytes [l] of a device have at [off], and
    [entries] lists those that the loops visit.  On an image whose names fit in the buffers of
    the code ([image_ok]) every operation of the filesystem returns, and what the loops find is
    what is in that list, unless memory for a bounce buffer runs out. *)

From S2P Require Import Prelude Bits Strtoul CMem Alloc Vfs VfsCache Block BlockProof Cpio.

(** ** Entries of a list of bytes *)

Definition trailer (size mode ns : Z) (path : list Z) : bool := (size =? 0) && (mode =? 0) && (ns =? 11) && strncmp_eq path TRAILER 10.

Definition parse_entry (l : list Z) (off : Z) : option entry :=
  let h := range l off HEADER in
  if negb (Z.of_nat (length h) =? HEADER) then None
  else if negb (bool_decide (take 6 h = MAGIC)) then None
  else
    let p := range l (off + HEADER) (field h 11) in
    match p, cstring p with
    | _ :: _, Some path =>
        if trailer (field h 6) (field h 1) (field h 11) path then None
        else Some (mk_entry (field h 6) (field h 11) (field h 1) (field h 5) path)
    | _, _ => None
    end.

(** The name at [off], if there is an entry, has its NUL and fits in [path]. *)
Definition name_ok (l : list Z) (off : Z) : Prop :=
  let h := range l off HEADER in
  let p := range l (off + HEADER) (field h 11) in
  Z.of_nat (length h) = HEADER -> take 6 h = MAGIC -> p <> [] -> Z.of_nat (length p) <= VFS_MAX_PATH /\ is_Some (cstring p).

(** No component of the path is too long for [name]. *)
Definition short_comps (path : list Z) : Prop :=
  forall l1 c l2, path = l1 ++ c ++ l2 -> Forall (fun b => b <> SLASH) c -> Z.of_nat (length c) < VFS_MAX_NAME.

(** The places that a walk from the start visits. *)
Inductive visited (l : list Z) : Z -> Prop :=
| visited_start : visited l 0
| visited_next off e : visited l off -> parse_entry l off = Some e -> visited l (next_off off e).

Definition image_ok (l : list Z) : Prop :=
  Z.of_nat (length l) < 2 ^ 62 /\
  forall off, visited l off -> name_ok l off /\ forall e, parse_entry l off = Some e -> short_comps (e_path e).

(** The entries that a walk visits, with their places. *)
Fixpoint entries (fuel : nat) (l : list Z) (off : Z) : list (entry * Z) :=
  match fuel with
  | O => []
  | S fuel => match parse_entry l off with Some e => (e, off) :: entries fuel l (next_off off e) | None => [] end
  end.

Lemma field_range h i : 0 <= field h i < 2 ^ 32.
Proof. apply (wrap_range 32). lia. Qed.

Lemma parse_entry_bounds l off e : 0 <= off -> parse_entry l off = Some e ->
  off + HEADER <= Z.of_nat (length l) /\ 0 <= e_size e < 2 ^ 32 /\ 0 <= e_namesize e < 2 ^ 32.
Proof.
  intros Ho. unfold parse_entry. destruct (Z.eqb_spec (Z.of_nat (length (range l off HEADER))) HEADER) as [Hl|Hl]; cbn [negb]; [|done].
  assert (Hoff : off + HEADER <= Z.of_nat (length l)) by (unfold range, HEADER in *; rewrite length_take, length_drop in Hl; lia).
  intros H. repeat case_match; simplify_eq. cbn. split; [done|]. split; apply field_range.
Qed.

(** The end of an entry is behind its header. *)
Lemma next_off_mono off e : 0 <= off < 2 ^ 62 -> 0 <= e_size e < 2 ^ 32 -> off + HEADER <= next_off off e < 2 ^ 63.
Proof.
  intros Ho He. unfold next_off. set (x := u32 (u32 (Z.land (u32 (e_namesize e + 1)) (not32 3) + 2) + e_size e)).
  assert (Hx : 0 <= x < 2 ^ 32) by (apply (wrap_range 32); lia). unfold HEADER in *.
  rewrite (u64_small (off + 110)), (u64_small (off + 110 + x)), u64_small by lia.
  change (not64 3) with (not64 (2 ^ 2 - 1)). rewrite land_not64_low by lia. change (2 ^ 2) with 4.
  pose proof (Z.div_mod (off + 110 + x + 3) 4 ltac:(lia)). pose proof (Z.mod_pos_bound (off + 110 + x + 3) 4 ltac:(lia)). lia.
Qed.

Lemma visited_bounds l off : image_ok l -> visited l off -> 0 <= off < 2 ^ 63.
Proof.
  intros [Hl _]. induction 1 as [|off e Hv IH He]; [lia|]. destruct (parse_entry_bounds l off e) as (H1 & H2 & _); [lia|done|].
  pose proof (next_off_mono off e). unfold HEADER in *. lia.
Qed.

(** ** Tokens and paths *)

Lemma cstring_sound p s : cstring p = Some s -> exists q, p = s ++ 0 :: q.
Proof.
  revert s. induction p as [|c p IH]; intros s; cbn; [done|]. destruct (Z.eqb_spec c 0) as [->|Hc]; [intros [= <-]; by exists p|].
  destruct (cstring p) as [s'|]; [|done]. intros [= <-]. destruct (IH s' eq_refl) as [q ->]. by exists q.
Qed.

Lemma cstring_nonzero p s : cstring p = Some s -> Forall (fun c => c <> 0) s.
Proof.
  revert s. induction p as [|c p IH]; intros s; cbn; [done|]. destruct (Z.eqb_spec c 0) as [->|Hc]; [intros [= <-]; constructor|].
  destruct (cstring p) as [s'|]; [|done]. intros [= <-]. constructor; [done|by apply IH].
Qed.

Lemma cstring_app s q : Forall (fun c => c <> 0) s -> cstring (s ++ 0 :: q) = Some s.
Proof. induction 1 as [|c s Hc Hs IH]; [done|]. cbn. by rewrite (proj2 (Z.eqb_neq c 0)), IH. Qed.

Lemma split_slash_Some p a b : split_slash p = Some (a, b) -> p = a ++ SLASH :: b /\ Forall (fun c => c <> SLASH) a.
Proof.
  revert a b. induction p as [|c p IH]; intros a b; cbn; [done|]. destruct (Z.eqb_spec c SLASH) as [->|Hc]; [by intros [= <- <-]|].
  destruct (split_slash p) as [[a' b']|]; [|done]. intros [= <- <-]. destruct (IH a' b' eq_refl) as [-> Ha]. split; [done|by constructor].
Qed.

Lemma split_slash_None p : split_slash p = None -> Forall (fun c => c <> SLASH) p.
Proof.
  induction p as [|c p IH]; cbn; [constructor|]. destruct (Z.eqb_spec c SLASH) as [->|Hc]; [done|]. destruct (split_slash p) as [[]|]; [done|]. intros _. constructor; [done|by apply IH].
Qed.

Lemma skip_slash_suffix p : exists q, p = q ++ skip_slash p.
Proof. unfold skip_slash. destruct p as [|c p]; [by exists []|]. cbn [chr hd tl]. destruct (c =? SLASH); [by exists [c]|by exists []]. Qed.

(** The token of a path, as [get_next_token] finds it. *)
Definition token (path prefix : list Z) : option (list Z) :=
  let path := skip_slash path in
  let prefix := skip_slash prefix in
  let p := drop (length prefix) path in
  if negb (strncmp_eq path prefix (Z.of_nat (length prefix))) || (chr p =? 0) || (chr (skip_slash p) =? 0) then None
  else match split_slash (skip_slash p) with
       | Some (tok, rest) => if chr rest =? 0 then Some tok else None
       | None => Some (skip_slash p)
       end.

Lemma get_next_token_ok path prefix : short_comps path -> get_next_token path prefix = Ok (token path prefix).
Proof.
  intros Hs. unfold get_next_token, token. destruct (strncmp_eq _ _ _); cbn [negb orb]; [|done].
  set (p := drop (length (skip_slash prefix)) (skip_slash path)). destruct (chr p =? 0); cbn [orb]; [done|]. destruct (chr (skip_slash p) =? 0); [done|].
  assert (Hsuf : exists q, path = q ++ skip_slash p).
  { destruct (skip_slash_suffix p) as [q1 E1]. destruct (skip_slash_suffix path) as [q2 E2]. exists (q2 ++ take (length (skip_slash prefix)) (skip_slash path) ++ q1).
    rewrite <- !app_assoc, <- E1. unfold p. by rewrite take_drop, <- E2. }
  destruct Hsuf as [q Hq]. destruct (split_slash (skip_slash p)) as [[tok rest]|] eqn:Esp.
  - destruct (chr rest =? 0); cbn [negb]; [|done]. apply split_slash_Some in Esp as [Ep Hf]. rewrite (proj2 (Z.ltb_lt _ _)); [done|]. eapply (Hs q tok (SLASH :: rest)); [by rewrite Hq, Ep|done].
  - apply split_slash_None in Esp. rewrite (proj2 (Z.ltb_lt _ _)); [done|]. eapply (Hs q (skip_slash p) []); [by rewrite app_nil_r|done].
Qed.

(** ** Reading entries *)

Section walk.
Context {B : Type} (drv : block_driver B) (disk : disk_view B) `{!BlockDriver drv disk, !Reliable drv disk}.
Implicit Types st : bstate B.
Abbreviation unchanged := (unchanged disk).

(** A device is missing or empty, or its memory has the size that it says. *)
Definition no_dev st (dev : Z) : bool := (dev =? 0) || (blksz (blks st dev) =? 0) || (blkcnt (blks st dev) =? 0).
Definition dev_fine st dev : Prop := no_dev st dev = true \/ dev_ok disk st dev.

(** What can be read from it. *)
Definition contents st (dev : Z) : list Z := if no_dev st dev then [] else disk (hw st) dev.

Definition out_of_memory st : Prop := exists i, mallocs st i = false.

Lemma contents_unchanged st st' dev : unchanged st st' -> contents st' dev = contents st dev /\ (dev_fine st dev -> dev_fine st' dev) /\ (out_of_memory st' -> out_of_memory st).
Proof.
  intros Hu. pose proof Hu as (E1 & E2 & E3). unfold contents, dev_fine, no_dev, out_of_memory. rewrite E1, E2, E3. split; [done|]. split; [|done].
  intros [?|?]; [by left|right; by eapply dev_ok_unchanged].
Qed.

Lemma no_dev_false st dev : no_dev st dev = false -> dev <> 0 /\ blksz (blks st dev) <> 0 /\ blkcnt (blks st dev) <> 0.
Proof. unfold no_dev. rewrite !orb_false_iff, !Z.eqb_neq. tauto. Qed.

Lemma range_clip l off len : 0 <= off -> 0 <= len -> range l off len = range l off (Z.max 0 (Z.min len (Z.of_nat (length l) - off))).
Proof.
  intros. unfold range. destruct (Z.le_gt_cases len (Z.of_nat (length l) - off)); [do 2 f_equal; lia|]. rewrite (take_ge (drop (Z.to_nat off) l)); [|rewrite length_drop; lia].
  rewrite take_ge; [done|]. rewrite length_drop. lia.
Qed.

(** A read through the block layer: all of the range that there is, or nothing. *)
Lemma block_read_fine st dev off len :
  dev_fine st dev -> 0 <= off -> 0 <= len ->
  exists bytes ret st', block_read drv dev STACK off len st = Ok (bytes, ret, st') /\ unchanged st st' /\
    ((bytes = [] /\ ret = 0 /\ out_of_memory st) \/ (bytes = range (contents st dev) off len /\ ret = Z.of_nat (length bytes))).
Proof.
  intros Hfine Ho Hl. unfold contents. destruct (no_dev st dev) eqn:En.
  - exists [], 0, st. split; [|split; [by apply unchanged_refl|right; split; [unfold range; by rewrite drop_nil, take_nil|done]]].
    unfold no_dev in En. unfold block_read. destruct (dev =? 0); [done|]. cbn [orb] in En |- *. change (STACK =? 0) with false. destruct (len =? 0); [done|]. cbn [orb]. by rewrite En.
  - destruct Hfine as [Hfine|Hdev]; [congruence|]. apply no_dev_false in En as (Hd & _ & _).
    destruct (block_read_ok drv disk st dev STACK off len Hdev Hd) as (bytes & ret & st' & E & Hu & Hr & _ & Hrel); [done|done|done|]. exists bytes, ret, st'. split; [done|]. split; [done|].
    destruct (Hrel _) as [(-> & -> & Hm)|[-> ->]]; [left; split_and!; try done; by eexists|]. right. pose proof (dk_disk _ _ _ Hdev) as Hlen.
    rewrite (range_clip _ off len) by done. rewrite Hlen. fold (clipped (blks st dev) off len). split; [done|]. unfold clipped in *.
    destruct (Z.le_gt_cases off (blksz (blks st dev) * blkcnt (blks st dev))); [rewrite range_length; lia|].
    replace (Z.max 0 _) with 0 by lia. done.
Qed.

Lemma read_entry_ok st dev off :
  dev_fine st dev -> 0 <= off < 2 ^ 63 -> name_ok (contents st dev) off ->
  exists o st', read_entry drv dev off st = Ok (o, st') /\ unchanged st st' /\
    ((o = None /\ out_of_memory st) \/ o = parse_entry (contents st dev) off).
Proof.
  intros Hfine Ho Hname. unfold read_entry. set (l := contents st dev) in *.
  destruct (block_read_fine st dev off HEADER Hfine) as (h & rd & st1 & -> & U1 & Hor); [lia|done|]. cbn [res_bind]. fold l in Hor.
  destruct Hor as [(-> & -> & Hm)|[Eh ->]]. { exists None, st1. split; [done|]. split; [done|by left]. }
  unfold parse_entry. unfold name_ok in Hname. rewrite <- Eh in Hname |- *.
  destruct (Z.eqb_spec (Z.of_nat (length h)) HEADER) as [Hlen|Hlen]; cbn [negb]; [|exists None, st1; split; [done|split; [done|by right]]].
  case_bool_decide as Hmag; cbn [negb]; [|exists None, st1; split; [done|split; [done|by right]]].
  specialize (Hname Hlen Hmag). rewrite (u64_small (off + HEADER)) by (unfold HEADER; lia).
  destruct (contents_unchanged _ _ dev U1) as (Ec1 & Hf1 & Hm1).
  destruct (block_read_fine st1 dev (off + HEADER) (field h 11) (Hf1 Hfine)) as (p & rd & st2 & -> & U2 & Hor2); [unfold HEADER; lia|apply field_range|]. cbn [res_bind].
  rewrite Ec1 in Hor2. fold l in Hor2. assert (U : unchanged st st2) by (by eapply unchanged_trans).
  destruct Hor2 as [(-> & -> & Hm)|[Ep ->]]. { exists None, st2. split; [done|]. split; [done|left; split; [done|by apply Hm1]]. }
  rewrite <- Ep in Hname |- *. destruct p as [|c p]; [exists None, st2; split; [done|split; [done|by right]]|].
  destruct Hname as [Hlp [path Hpath]]; [done|]. rewrite Hpath. change (Z.of_nat (length (c :: p)) =? 0) with false. cbn [negb].
  rewrite (proj2 (Z.leb_le _ VFS_MAX_PATH)) by done. cbn [defined_if res_bind deref]. fold (trailer (field h 6) (field h 1) (field h 11) path).
  destruct (trailer _ _ _ _); eexists _, st2; (split; [done|split; [done|by right]]).
Qed.

(** ** The loops *)

Definition matches (dir name : list Z) (x : entry * Z) : bool := negb (chr (e_path x.1) =? DOT) && check_path (e_path x.1) dir name.

Fixpoint first_match (f : entry * Z -> bool) (es : list (entry * Z)) : option (entry * Z) :=
  match es with [] => None | x :: es => if f x then Some x else first_match f es end.

Lemma lookup_entry_ok dev dir name : forall fuel off st,
  dev_fine st dev -> image_ok (contents st dev) -> visited (contents st dev) off -> Z.of_nat (length (contents st dev)) - off < Z.of_nat fuel -> (0 < fuel)%nat ->
  exists o st', lookup_entry drv fuel dev dir name off st = Ok (o, st') /\ unchanged st st' /\
    ((o = None /\ out_of_memory st) \/ o = first_match (matches dir name) (entries fuel (contents st dev) off)).
Proof.
  induction fuel as [|fuel IH]; intros off st Hfine Himg Hv Hf Hpos; [lia|]. cbn [lookup_entry entries]. pose proof (visited_bounds _ _ Himg Hv) as Hoff. destruct Himg as [Hlen Himg].
  destruct (read_entry_ok st dev off Hfine) as (o & st1 & -> & U1 & Hor); [lia|by apply Himg|]. cbn [res_bind].
  destruct Hor as [[-> Hm]| ->]. { exists None, st1. split; [done|]. split; [done|by left]. }
  destruct (parse_entry (contents st dev) off) as [e|] eqn:Ee; [|exists None, st1; split; [done|split; [done|by right]]].
  cbn [first_match]. change (matches dir name (e, off)) with (negb (chr (e_path e) =? DOT) && check_path (e_path e) dir name).
  destruct (negb _ && _); [exists (Some (e, off)), st1; split; [done|split; [done|by right]]|].
  destruct (parse_entry_bounds (contents st dev) off e ltac:(lia) Ee) as (Hb1 & Hb2 & _). pose proof (next_off_mono off e ltac:(unfold HEADER in *; lia) Hb2) as Hnext.
  destruct (contents_unchanged _ _ dev U1) as (Ec1 & Hf1 & Hm1). rewrite <- Ec1 in *.
  destruct (IH (next_off off e) st1) as (o & st2 & -> & U2 & Hor); [by apply Hf1|done|by eapply visited_next|unfold HEADER in *; lia|unfold HEADER in *; lia|].
  exists o, st2. split; [done|]. split; [by eapply unchanged_trans|]. destruct Hor as [[-> Hm]| ->]; [left; split; [done|by apply Hm1]|by right].
Qed.

(** The tokens of the entries below a directory. *)
Definition listed (dir : list Z) (x : entry * Z) : option (entry * list Z) :=
  if chr (e_path x.1) =? DOT then None else (fun name => (x.1, name)) <$> token (e_path x.1) dir.

Lemma readdir_entry_ok dev dir n : forall fuel off i st,
  dev_fine st dev -> image_ok (contents st dev) -> visited (contents st dev) off -> Z.of_nat (length (contents st dev)) - off < Z.of_nat fuel -> (0 < fuel)%nat -> 0 <= i ->
  exists o st', readdir_entry drv fuel dev dir n i off st = Ok (o, st') /\ unchanged st st' /\
    ((o = None /\ out_of_memory st) \/ (i <= n -> o = omap (listed dir) (entries fuel (contents st dev) off) !! Z.to_nat (n - i))).
Proof.
  induction fuel as [|fuel IH]; intros off i st Hfine Himg Hv Hf Hpos Hi; [lia|]. cbn [readdir_entry entries]. pose proof (visited_bounds _ _ Himg Hv) as Hoff. pose proof Himg as [Hlen Himg'].
  destruct (read_entry_ok st dev off Hfine) as (o & st1 & -> & U1 & Hor); [lia|by apply Himg'|]. cbn [res_bind].
  destruct Hor as [[-> Hm]| ->]. { exists None, st1. split; [done|]. split; [done|by left]. }
  destruct (parse_entry (contents st dev) off) as [e|] eqn:Ee; [|exists None, st1; split; [done|split; [done|right; done]]].
  cbn [omap list_omap]. unfold listed at 1. cbn [fst]. destruct (parse_entry_bounds (contents st dev) off e ltac:(lia) Ee) as (Hb1 & Hb2 & _).
  pose proof (next_off_mono off e ltac:(unfold HEADER in *; lia) Hb2) as Hnext. destruct (contents_unchanged _ _ dev U1) as (Ec1 & Hf1 & Hm1).
  assert (Hrec : forall j, 0 <= j -> exists o st', readdir_entry drv fuel dev dir n j (next_off off e) st1 = Ok (o, st') /\ unchanged st st' /\
    ((o = None /\ out_of_memory st) \/ (j <= n -> o = omap (listed dir) (entries fuel (contents st dev) (next_off off e)) !! Z.to_nat (n - j)))).
  { intros j Hj. rewrite <- Ec1 in *. destruct (IH (next_off off e) j st1) as (o & st2 & -> & U2 & Hor); [by apply Hf1|done|by eapply visited_next|unfold HEADER in *; lia|unfold HEADER in *; lia|done|].
    exists o, st2. split; [done|]. split; [by eapply unchanged_trans|]. destruct Hor as [[-> Hm]|Hor]; [left; split; [done|by apply Hm1]|by right]. }
  destruct (chr (e_path e) =? DOT); [by apply Hrec|]. destruct (Himg' off Hv) as [_ Hshort]. rewrite get_next_token_ok by (by apply Hshort). cbn [res_bind].
  destruct (token (e_path e) dir) as [name|]; cbn [fmap option_fmap option_map]; [|by apply Hrec].
  destruct (Z.eqb_spec i n) as [->|Hne]. { exists (Some (e, name)), st1. split; [done|]. split; [done|]. right. by rewrite Z.sub_diag. }
  destruct (Hrec (i + 1)) as (o & st2 & E & U2 & Hor); [lia|]. exists o, st2. split; [done|]. split; [done|]. destruct Hor as [?|Hor]; [by left|right]. intros Hin.
  rewrite Hor by lia. replace (Z.to_nat (n - i)) with (S (Z.to_nat (n - (i + 1)))) by lia. done.
Qed.

(** ** The contract of a filesystem *)

Lemma parse_entry_size l off e : parse_entry l off = Some e -> 0 <= e_size e < 2 ^ 32.
Proof. unfold parse_entry. intros H. repeat case_match; simplify_eq. apply field_range. Qed.

Lemma walked_sizes fuel l : forall off, Forall (fun x => 0 <= e_size x.1 < 2 ^ 32) (entries fuel l off).
Proof.
  induction fuel as [|fuel IH]; intros off; cbn; [constructor|]. destruct (parse_entry l off) as [e|] eqn:Ee; [|constructor]. constructor; [by eapply parse_entry_size|apply IH].
Qed.

Lemma first_match_in f es x : first_match f es = Some x -> x ∈ es /\ f x = true.
Proof. induction es as [|y es IH]; cbn; [done|]. destruct (f y) eqn:Ef; [intros [= <-]; split; [left|done]|]. intros H. destruct (IH H). split; [by right|done]. Qed.

Lemma entry_attr_ok off e : 0 <= e_size e < 2 ^ 32 -> attr_ok (entry_attr off e).
Proof. intros He. unfold entry_attr, attr_ok. destruct (node_type (e_mode e)). cbn. lia. Qed.

(** A device with an image that the filesystem can walk through, and all devices such. *)
Definition image_at st dev : Prop := dev_fine st dev /\ image_ok (contents st dev).
Definition images_ok st : Prop := forall dev, image_at st dev.

Lemma images_unchanged st st' : images_ok st -> unchanged st st' -> images_ok st'.
Proof. intros H Hu dev. destruct (contents_unchanged st st' dev Hu) as (Ec & Hf & _). unfold image_at. rewrite Ec. destruct (H dev). split; [by apply Hf|done]. Qed.

Lemma walk_fuel_ok st dev : dev_fine st dev -> Z.of_nat (length (contents st dev)) - 0 < Z.of_nat (walk_fuel st dev).
Proof.
  intros Hf. unfold contents, walk_fuel. destruct (no_dev st dev) eqn:En; [cbn; lia|]. destruct Hf as [Hf|[H1 H2 H3 H4 _]]; [congruence|].
  rewrite H4. unfold block_capacity. rewrite u64_small by nia. lia.
Qed.

(** What a lookup finds. *)
Lemma cpio_lookup_ok name mi dn n st :
  image_at st (m_dev mi) -> exists o st', unchanged st st' /\
    ((o = None /\ out_of_memory st) \/ o = first_match (matches (v_path dn) name) (entries (walk_fuel st (m_dev mi)) (contents st (m_dev mi)) 0)) /\
    cpio_lookup drv name mi dn n st = Ok (match o with
      | None => (-1, v_attr dn, v_attr n, st')
      | Some (e, off) => (0, v_attr dn, entry_attr off e, st') end).
Proof.
  intros [Hf Hi]. unfold cpio_lookup.
  destruct (lookup_entry_ok (m_dev mi) (v_path dn) name (walk_fuel st (m_dev mi)) 0 st Hf Hi) as (o & st' & -> & Hu & Hor); [constructor|by apply walk_fuel_ok|unfold walk_fuel; lia|].
  exists o, st'. split; [done|]. split; [done|]. by destruct o as [[e off]|].
Qed.

Lemma cpio_readdir_ok n mi dn st :
  image_at st (m_dev mi) -> exists o st', unchanged st st' /\
    ((o = None /\ out_of_memory st) \/ (0 <= n -> o = omap (listed (v_path dn)) (entries (walk_fuel st (m_dev mi)) (contents st (m_dev mi)) 0) !! Z.to_nat n)) /\
    cpio_readdir drv n mi dn st = Ok (match o with
      | None => ((-1, no_dirent), v_attr dn, st')
      | Some (e, name) => ((0, mkDirent n 1 (dirent_type (e_mode e)) name), v_attr dn, st') end).
Proof.
  intros [Hf Hi]. unfold cpio_readdir.
  destruct (readdir_entry_ok (m_dev mi) (v_path dn) n (walk_fuel st (m_dev mi)) 0 0 st Hf Hi) as (o & st' & -> & Hu & Hor); [constructor|by apply walk_fuel_ok|unfold walk_fuel; lia|lia|].
  exists o, st'. split; [done|]. rewrite Z.sub_0_r in Hor. split; [done|]. by destruct o as [[e name]|].
Qed.

(** What a read gives. *)
Lemma cpio_read_ok off len mi n st :
  dev_fine st (m_dev mi) -> attr_ok (v_attr n) -> let a := v_attr n in
  exists buf rd st', unchanged st st' /\ cpio_read drv off len mi n st = Ok ((buf, rd), a, st') /\
    (v_type a = VNT_REG -> off < v_size a ->
      (buf = [] /\ rd = 0 /\ out_of_memory st) \/
      (buf = range (contents st (m_dev mi)) (u64 (v_data a + off)) (Z.min (u64 len) (v_size a - off)) /\ rd = Z.of_nat (length buf))).
Proof.
  intros Hf Ha a. unfold cpio_read. fold a. case_bool_decide as Ht; cbn [negb]; [|exists [], 0, st; by split].
  destruct (Z.leb_spec (v_size a) off) as [Hle|Hgt]; [exists [], 0, st; split; [done|split; [done|lia]]|].
  replace (if v_size a - off <? u64 len then v_size a - off else u64 len) with (Z.min (u64 len) (v_size a - off)) by (destruct (Z.ltb_spec (v_size a - off) (u64 len)); lia).
  pose proof (u64_range len). destruct (block_read_fine st (m_dev mi) (u64 (v_data a + off)) (Z.min (u64 len) (v_size a - off)) Hf) as (buf & rd & st' & -> & Hu & Hor); [apply u64_range|lia|].
  exists buf, rd, st'. split; [done|]. split; [done|]. intros _ _. done.
Qed.

Lemma block_sync_unchanged dev st : unchanged st (block_sync drv dev st).
Proof. unfold block_sync. destruct (_ && _); [|done]. split_and!; [done|done|]. intros d. apply sync_contract. Qed.

(** Whatever is called, the devices keep the contents that they had at first. *)
Section contract.
Context (st0 : bstate B) (Himg : images_ok st0).
Abbreviation I := (unchanged st0).

Lemma images_here st dev : I st -> image_at st dev.
Proof. intros Hu. by apply (images_unchanged st0 st). Qed.

Lemma ret1_ok {A} (a : A) : op1_ok I (ret1 a).
Proof. intros mi nd d Ha Hd. by exists a, (v_attr nd), d. Qed.
Lemma ret2_ok {A} (a : A) : op2_ok I (ret2 a).
Proof. intros mi n1 n2 d H1 H2 Hd. by exists a, (v_attr n1), (v_attr n2), d. Qed.
Lemma ret3_ok {A} (a : A) : op3_ok I (ret3 a).
Proof. intros mi n1 n2 n3 d H1 H2 H3 Hd. by exists a, (v_attr n1), (v_attr n2), (v_attr n3), d. Qed.

Lemma cpio_mount_ok dev mi nd st :
  attr_ok (v_attr nd) -> I st -> (dev <> None -> m_dev mi <> 0) ->
  exists r fl x a st', cpio_mount drv dev mi nd st = Ok (r, fl, x, a, st') /\ attr_ok a /\ I st'.
Proof.
  intros Ha H Hd. unfold cpio_mount. destruct dev as [dev|]; [|by eexists _, _, _, _, st]. rewrite (proj2 (Z.eqb_neq (m_dev mi) 0)) by (by apply Hd). cbn [negb defined_if res_bind].
  destruct (_ <=? _); [by eexists _, _, _, _, st|]. destruct (images_here st (m_dev mi) H) as [Hf _].
  destruct (block_read_fine st (m_dev mi) 0 HEADER Hf) as (h & rd & st' & -> & Hu & _); [lia|done|]. cbn [res_bind]. pose proof (unchanged_trans _ _ _ _ H Hu) as H'.
  destruct (negb _); [by eexists _, _, _, _, st'|]. destruct (negb _); [by eexists _, _, _, _, st'|]. eexists _, _, _, _, st'. split; [done|]. split; [exact Ha|done].
Qed.

(** The archive filesystem keeps the contract of the switch. *)
Lemma cpio_fs_ok : fs_ok I (cpio drv).
Proof.
  split; cbn; try (intros; first [apply ret1_ok|apply ret2_ok|apply ret3_ok]).
  - intros. by apply cpio_mount_ok.
  - intros mi d Hd. by eexists _, _, d.
  - intros mi d Hd. by eexists _, _, d.
  - intros off len mi nd st Ha H. destruct (cpio_read_ok off len mi nd st (proj1 (images_here _ _ H)) Ha) as (buf & rd & st' & Hu & -> & _). eexists _, _, st'. split; [done|]. split; [done|by eapply unchanged_trans].
  - intros off mi nd st Ha H. destruct (cpio_readdir_ok off mi nd st (images_here _ _ H)) as (o & st' & Hu & _ & ->). pose proof (unchanged_trans _ _ _ _ H Hu).
    destruct o as [[e name]|]; eexists _, _, st'; by split.
  - intros name mi n1 n2 st H1 H2 H. destruct (cpio_lookup_ok name mi n1 n2 st (images_here _ _ H)) as (o & st' & Hu & Hor & ->). pose proof (unchanged_trans _ _ _ _ H Hu).
    destruct o as [[e off]|]; eexists _, _, _, st'; (split; [done|]); (split; [done|]); (split; [|done]); [|done].
    destruct Hor as [[? _]|Hor]; [done|]. symmetry in Hor. apply first_match_in in Hor as [Hin _]. apply entry_attr_ok.
    pose proof (walked_sizes (walk_fuel st (m_dev mi)) (contents st (m_dev mi)) 0) as HF. by eapply Forall_forall in HF; [|exact Hin].
Qed.
End contract.
End walk.
