(* ===== verification/CpioArchive.v ===== *)
(** * CpioArchive: archives in the "newc" format

    The format as a definition of its own: [archive fs rest] is what the tool that writes an
    archive of the files [fs] produces.  The entries that the walk of the filesystem finds in
    it are those files, in their order and with their contents where the attributes say. *)

From S2P Require Import Prelude Bits Strtoul CMem Alloc Vfs VfsCache Block BlockProof Cpio CpioProof.

#[local] Ltac Zify.zify_post_hook ::= Z.div_mod_to_equations.

(** ** The format *)

(** A file with the numbers of its header; [f_up] says in which case their digits are. *)
Record cfile := mk_cfile {
  f_up : bool; f_ino : Z; f_mode : Z; f_uid : Z; f_gid : Z; f_nlink : Z; f_mtime : Z;
  f_devmajor : Z; f_devminor : Z; f_rdevmajor : Z; f_rdevminor : Z; f_check : Z;
  f_name : list Z; f_data : list Z }.

Definition zlen (l : list Z) : Z := Z.of_nat (length l).

Definition numbers (f : cfile) : list Z :=
  [f_ino f; f_mode f; f_uid f; f_gid f; f_nlink f; f_mtime f; zlen (f_data f); f_devmajor f; f_devminor f;
   f_rdevmajor f; f_rdevminor f; zlen (f_name f) + 1; f_check f].

Definition header_of (f : cfile) : list Z := MAGIC ++ mjoin (hex_digits (f_up f) 8 <$> numbers f).

(** Zeros up to the next multiple of four. *)
Definition padding (n : Z) : list Z := repeat 0 (Z.to_nat ((- n) mod 4)).

Definition file_head (f : cfile) : list Z := header_of f ++ f_name f ++ [0] ++ padding (HEADER + zlen (f_name f) + 1).
Definition file_bytes (f : cfile) : list Z := file_head f ++ f_data f ++ padding (zlen (f_data f)).

Definition trailer_file : cfile := mk_cfile true 0 0 0 0 1 0 0 0 0 0 0 TRAILER [].

(** [rest]: what fills the last record of the archive, or the last block of the device. *)
Definition archive (fs : list cfile) (rest : list Z) : list Z := mjoin (file_bytes <$> fs) ++ file_bytes trailer_file ++ rest.

(** Where the [i]-th file starts, and where its contents do. *)
Definition file_off (fs : list cfile) (i : nat) : Z := zlen (mjoin (file_bytes <$> take i fs)).
Definition file_data_off (fs : list cfile) (i : nat) (f : cfile) : Z := file_off fs i + zlen (file_head f).

(** What the format can hold: numbers of 32 bits, names that are C strings. *)
Record fits (f : cfile) : Prop := mk_fits {
  ft_numbers : Forall (fun x => 0 <= x < 2 ^ 32) (numbers f);
  ft_name : Forall (fun c => c <> 0) (f_name f);
}.

(** A file that the code can work with: a path that fits in its buffers, contents below 4 GB
    also with the padded name, and not the name of the trailer. *)
Record file_ok (f : cfile) : Prop := mk_file_ok {
  fo_fits : fits f;
  fo_path : zlen (f_name f) < VFS_MAX_PATH;
  fo_comps : short_comps (f_name f);
  fo_size : zlen (f_data f) < 2 ^ 32 - 2048;
  fo_trailer : f_name f <> TRAILER;
}.

(** The entry of a file. *)
Definition entry_of (f : cfile) : entry := mk_entry (zlen (f_data f)) (zlen (f_name f) + 1) (f_mode f) (f_mtime f) (f_name f).

(** ** Headers *)

Lemma zlen_app a b : zlen (a ++ b) = zlen a + zlen b.
Proof. unfold zlen. rewrite length_app. lia. Qed.
Lemma zlen_nonneg a : 0 <= zlen a.
Proof. unfold zlen. lia. Qed.

Lemma range_middle a b c : range (a ++ b ++ c) (zlen a) (zlen b) = b.
Proof. unfold range, zlen. rewrite !Nat2Z.id, drop_app_length. apply take_app_length. Qed.

Lemma length_mjoin_eq {A} (n : nat) (ls : list (list A)) : Forall (fun l => length l = n) ls -> length (mjoin ls) = (n * length ls)%nat.
Proof. induction 1 as [|l ls Hl _ IH]; [cbn; lia|]. change (mjoin (l :: ls)) with (l ++ mjoin ls). rewrite length_app, IH. cbn [length]. lia. Qed.

Lemma take_drop_mjoin {A} (n : nat) (ls : list (list A)) i l : Forall (fun l => length l = n) ls -> ls !! i = Some l -> take n (drop (n * i) (mjoin ls)) = l.
Proof.
  intros HF. revert i. induction HF as [|l' ls Hl HF IH]; intros i Hi; [done|]. change (mjoin (l' :: ls)) with (l' ++ mjoin ls). destruct i as [|i]; cbn in Hi.
  - simplify_eq. rewrite Nat.mul_0_r, drop_0. apply take_app_length.
  - replace (n * S i)%nat with (length l' + n * i)%nat by lia. rewrite drop_app_add. by apply IH.
Qed.

Lemma hex_digits_length up n x : length (hex_digits up n x) = n.
Proof. rewrite hex_digits_map, length_fmap. apply digits_length. Qed.

Lemma hex_digits_nonzero up n x : Forall (fun c => c <> 0) (hex_digits up n x).
Proof. rewrite hex_digits_map. apply Forall_fmap. eapply Forall_impl; [apply digits_range|]. intros d Hd. cbn. destruct (hex_char_digit up d Hd) as (_ & _ & ? & _). lia. Qed.

Lemma cstring_none l : Forall (fun c => c <> 0) l -> cstring l = None.
Proof. induction 1 as [|c l Hc _ IH]; [done|]. cbn. by rewrite (proj2 (Z.eqb_neq c 0)), IH. Qed.

Lemma header_fields f : Forall (fun l => length l = 8%nat) (hex_digits (f_up f) 8 <$> numbers f).
Proof. apply Forall_fmap, Forall_forall. intros x _. apply hex_digits_length. Qed.

Lemma header_length f : zlen (header_of f) = HEADER.
Proof. unfold zlen, header_of. rewrite length_app, (length_mjoin_eq 8) by apply header_fields. by rewrite length_fmap. Qed.

Lemma header_magic f : take 6 (header_of f) = MAGIC.
Proof. done. Qed.

(** The number that the code reads from a field is the one that was written. *)
Lemma header_field f i x : fits f -> numbers f !! i = Some x -> field (header_of f) i = x.
Proof.
  intros [Hn _] Hi. unfold field. assert (E : take 8 (drop (6 + 8 * i) (header_of f)) = hex_digits (f_up f) 8 x).
  { unfold header_of. change (6 + 8 * i)%nat with (length MAGIC + 8 * i)%nat. rewrite drop_app_add. apply take_drop_mjoin; [apply header_fields|]. by rewrite list_lookup_fmap, Hi. }
  rewrite E, cstring_none by apply hex_digits_nonzero. cbn [default]. eapply Forall_lookup_1 in Hn; [|exact Hi]. rewrite strtoul_hex; [apply u32_small; lia|lia|]. change (16 ^ Z.of_nat 8) with (2 ^ 32). lia.
Qed.

(** ** Entries of an archive *)

Lemma padding_length n : zlen (padding n) = (- n) mod 4.
Proof. unfold zlen, padding. rewrite repeat_length. lia. Qed.

Lemma file_head_length f : zlen (file_head f) = HEADER + (zlen (f_name f) + 2) / 4 * 4 + 2.
Proof. unfold file_head. rewrite !zlen_app, header_length, padding_length. change (zlen [0]) with 1. unfold HEADER. pose proof (zlen_nonneg (f_name f)). lia. Qed.

Lemma file_bytes_length f : zlen (file_bytes f) = (zlen (file_head f) + zlen (f_data f) + 3) / 4 * 4.
Proof.
  unfold file_bytes. rewrite !zlen_app, padding_length, file_head_length. unfold HEADER. pose proof (zlen_nonneg (f_data f)). pose proof (zlen_nonneg (f_name f)). lia.
Qed.

(** The arithmetic of the code on the sizes of an entry. *)
Lemma name_room n : 0 <= n < 2 ^ 31 -> u32 (Z.land (u32 (n + 1 + 1)) (not32 3) + 2) = (n + 2) / 4 * 4 + 2.
Proof.
  intros Hn. rewrite (u32_small (n + 1 + 1)) by lia. change (not32 3) with (2 ^ 32 - 2 ^ 2). rewrite land_high_mask by lia. change (2 ^ 2) with 4.
  replace (n + 1 + 1) with (n + 2) by lia. apply u32_small. lia.
Qed.

Lemma data_off_entry f off : zlen (f_name f) < VFS_MAX_PATH -> 0 <= off < 2 ^ 62 -> data_off off (entry_of f) = off + zlen (file_head f).
Proof.
  unfold VFS_MAX_PATH. intros Hn Ho. pose proof (zlen_nonneg (f_name f)). unfold data_off, entry_of. cbn [e_namesize]. rewrite name_room by lia. unfold HEADER.
  rewrite file_head_length. rewrite (u64_small (off + 110)), u64_small by lia. unfold HEADER. lia.
Qed.

Lemma next_off_entry f off : file_ok f -> 0 <= off < 2 ^ 62 -> off mod 4 = 0 -> next_off off (entry_of f) = off + zlen (file_bytes f).
Proof.
  intros [_ Hn _ Hs _] Ho Hm. unfold VFS_MAX_PATH in Hn. pose proof (zlen_nonneg (f_name f)). pose proof (zlen_nonneg (f_data f)). unfold next_off, entry_of. cbn [e_namesize e_size].
  rewrite name_room by lia. rewrite (u32_small (_ + zlen (f_data f))) by lia. unfold HEADER. rewrite (u64_small (off + 110)) by lia. set (x := (zlen (f_name f) + 2) / 4 * 4 + 2 + zlen (f_data f)).
  assert (Hx : 0 <= x < 2 ^ 32) by lia. rewrite (u64_small (off + 110 + x)), u64_small by lia. change (not64 3) with (not64 (2 ^ 2 - 1)). rewrite land_not64_low by lia. change (2 ^ 2) with 4. rewrite file_bytes_length, file_head_length. unfold HEADER, x. lia.
Qed.

(** What the code sees where an entry starts. *)
Section at_entry.
Context (pre post : list Z) (f : cfile) (Hf : fits f).
Let l := pre ++ file_bytes f ++ post.

Lemma header_at : range l (zlen pre) HEADER = header_of f.
Proof. unfold l, file_bytes, file_head. rewrite <- (header_length f), <- !app_assoc. apply range_middle. Qed.

Lemma name_at : range l (zlen pre + HEADER) (zlen (f_name f) + 1) = f_name f ++ [0].
Proof.
  unfold l, file_bytes, file_head. generalize (padding (HEADER + zlen (f_name f) + 1)). intros pad. rewrite <- (header_length f). change 1 with (zlen [0]).
  rewrite <- !zlen_app, <- !app_assoc, (app_assoc pre), (app_assoc (f_name f)). apply range_middle.
Qed.

Lemma data_at : range l (zlen pre + zlen (file_head f)) (zlen (f_data f)) = f_data f.
Proof. unfold l, file_bytes. rewrite <- zlen_app, <- !app_assoc, (app_assoc pre). apply range_middle. Qed.

Lemma namesize_at : field (range l (zlen pre) HEADER) 11 = zlen (f_name f) + 1.
Proof. rewrite header_at. by apply header_field. Qed.

Lemma name_ok_at : zlen (f_name f) < VFS_MAX_PATH -> name_ok l (zlen pre).
Proof.
  intros Hn _ _ _. rewrite namesize_at, name_at, length_app. unfold zlen in Hn. cbn. split; [lia|]. eexists. by apply (cstring_app (f_name f) []), Hf.
Qed.

Lemma parse_at : parse_entry l (zlen pre) = if trailer (zlen (f_data f)) (f_mode f) (zlen (f_name f) + 1) (f_name f) then None else Some (entry_of f).
Proof.
  unfold parse_entry. rewrite header_at. fold (zlen (header_of f)). rewrite header_length, Z.eqb_refl. cbn [negb]. rewrite header_magic, bool_decide_true by done. cbn [negb].
  rewrite !(header_field f 11 (zlen (f_name f) + 1)), (header_field f 6 (zlen (f_data f))), (header_field f 1 (f_mode f)), (header_field f 5 (f_mtime f)) by done.
  rewrite name_at.
  pose proof (cstring_app (f_name f) [] (ft_name _ Hf)) as Hc. destruct (f_name f ++ [0]) as [|c p]; [done|]. by rewrite Hc.
Qed.
End at_entry.

(** ** The walk through an archive *)

Lemma trailer_name size mode n path : trailer size mode n path = true -> zlen path + 1 = n -> path = TRAILER.
Proof.
  unfold trailer, strncmp_eq. rewrite !andb_true_iff, !Z.eqb_eq, bool_decide_eq_true. intros [[_ ->] H] Hn. unfold zlen in Hn. change (Z.to_nat 10) with 10%nat in H.
  rewrite !take_ge in H by (cbn; lia). done.
Qed.

Lemma file_off_0 fs : file_off fs 0 = 0.
Proof. done. Qed.

Lemma file_off_S fs i f : fs !! i = Some f -> file_off fs (S i) = file_off fs i + zlen (file_bytes f).
Proof.
  intros Hi. unfold file_off. rewrite (take_S_r fs i f Hi), fmap_app, join_app, zlen_app. f_equal. cbn. by rewrite app_nil_r.
Qed.

Lemma file_off_aligned fs i : file_off fs i mod 4 = 0.
Proof.
  unfold file_off. induction (take i fs) as [|f l IH]; [done|]. change (mjoin (file_bytes <$> f :: l)) with (file_bytes f ++ mjoin (file_bytes <$> l)). rewrite zlen_app, file_bytes_length. lia.
Qed.

Lemma archive_split fs rest i f : fs !! i = Some f ->
  exists post, archive fs rest = mjoin (file_bytes <$> take i fs) ++ file_bytes f ++ post.
Proof.
  intros Hi. unfold archive. exists (mjoin (file_bytes <$> drop (S i) fs) ++ file_bytes trailer_file ++ rest). rewrite <- (take_drop_middle fs i f Hi) at 1.
  rewrite fmap_app, join_app, fmap_cons. change (mjoin (?a :: ?l)) with (a ++ mjoin l). by rewrite <- !app_assoc.
Qed.

Section archive.
Context (fs : list cfile) (rest : list Z) (Hfs : Forall file_ok fs) (Hlen : zlen (archive fs rest) < 2 ^ 62).
Let l := archive fs rest.

Lemma file_off_bound i : 0 <= file_off fs i < 2 ^ 62.
Proof.
  split; [apply zlen_nonneg|]. revert Hlen. unfold archive, file_off. rewrite <- (take_drop i fs) at 1. rewrite fmap_app, join_app, !zlen_app.
  pose proof (zlen_nonneg (mjoin (file_bytes <$> drop i fs))). pose proof (zlen_nonneg (file_bytes trailer_file)). pose proof (zlen_nonneg rest). lia.
Qed.

Lemma parse_file i f : fs !! i = Some f -> parse_entry l (file_off fs i) = Some (entry_of f) /\ name_ok l (file_off fs i).
Proof.
  intros Hi. unfold l. destruct (archive_split fs rest i f Hi) as [post ->]. eapply Forall_lookup_1 in Hfs as Hf; [|exact Hi]. unfold file_off. split; [|apply name_ok_at; apply Hf].
  rewrite parse_at by apply Hf. destruct (trailer _ _ _ _) eqn:E; [|done]. apply trailer_name in E; [|done]. by destruct (fo_trailer _ Hf).
Qed.

Lemma trailer_fits : fits trailer_file.
Proof. split; [|by repeat constructor]. unfold numbers, zlen. cbn. repeat (apply Forall_cons_2; [lia|]). constructor. Qed.

Lemma parse_trailer : parse_entry l (file_off fs (length fs)) = None /\ name_ok l (file_off fs (length fs)).
Proof.
  unfold l, file_off, archive. rewrite take_ge by done. split; [by rewrite parse_at by apply trailer_fits|]. by apply name_ok_at; [apply trailer_fits|].
Qed.

Lemma next_file i f : fs !! i = Some f -> next_off (file_off fs i) (entry_of f) = file_off fs (S i).
Proof.
  intros Hi. rewrite (file_off_S _ _ _ Hi). eapply Forall_lookup_1 in Hfs as Hf; [|exact Hi]. apply next_off_entry; [done|apply file_off_bound|apply file_off_aligned].
Qed.

(** The walk stops at the files and at the trailer only. *)
Lemma visited_file off : visited l off -> exists i, (i <= length fs)%nat /\ off = file_off fs i.
Proof.
  induction 1 as [|off e _ (i & Hi & ->) He]; [exists 0%nat; split; [lia|done]|]. destruct (fs !! i) as [f|] eqn:Ef.
  - destruct (parse_file i f Ef) as [Ep _]. rewrite Ep in He. simplify_eq. exists (S i). split; [by apply lookup_lt_Some in Ef|by apply next_file].
  - apply lookup_ge_None in Ef. replace i with (length fs) in He by lia. by rewrite (proj1 parse_trailer) in He.
Qed.

Lemma archive_image_ok : image_ok l.
Proof.
  split; [exact Hlen|]. intros off Hv. destruct (visited_file off Hv) as (i & Hi & ->). destruct (fs !! i) as [f|] eqn:Ef.
  - destruct (parse_file i f Ef) as [-> Hn]. split; [done|]. intros e [= <-]. eapply Forall_lookup_1 in Hfs as Hf; [|exact Ef]. apply Hf.
  - apply lookup_ge_None in Ef. replace i with (length fs) by lia. destruct parse_trailer as [-> Hn]. by split.
Qed.

(** What a walk finds is the list of the files. *)
Definition file_entries : list (entry * Z) := imap (fun i f => (entry_of f, file_off fs i)) fs.

Lemma entries_from fuel : forall i, (i <= length fs)%nat -> (length fs - i < fuel)%nat ->
  entries fuel l (file_off fs i) = drop i file_entries.
Proof.
  induction fuel as [|fuel IH]; intros i Hi Hf; [lia|]. cbn [entries]. destruct (fs !! i) as [f|] eqn:Ef.
  - destruct (parse_file i f Ef) as [-> _]. rewrite (next_file i f Ef), IH by (apply lookup_lt_Some in Ef; lia).
    symmetry. apply drop_S. unfold file_entries. by rewrite list_lookup_imap, Ef.
  - apply lookup_ge_None in Ef. replace i with (length fs) by lia. rewrite (proj1 parse_trailer). symmetry. apply drop_ge. unfold file_entries. by rewrite length_imap.
Qed.

Lemma entries_archive fuel : (length fs < fuel)%nat -> entries fuel l 0 = file_entries.
Proof. intros Hf. rewrite <- (file_off_0 fs), (entries_from fuel 0) by lia. done. Qed.

Lemma archive_length_files : (length fs <= length l)%nat.
Proof.
  unfold l, archive. rewrite !length_app. enough (length fs <= length (mjoin (file_bytes <$> fs)))%nat by lia. clear.
  induction fs as [|f fs' IH]; [done|]. change (mjoin (file_bytes <$> f :: fs')) with (file_bytes f ++ mjoin (file_bytes <$> fs')). rewrite length_app.
  cbn [length]. pose proof (file_bytes_length f). rewrite file_head_length in H. pose proof (zlen_nonneg (f_name f)). pose proof (zlen_nonneg (f_data f)). unfold zlen, HEADER in *. lia.
Qed.

(** The contents of a file, from the offset that its attributes have. *)
Lemma file_contents i f : fs !! i = Some f -> range l (data_off (file_off fs i) (entry_of f)) (zlen (f_data f)) = f_data f.
Proof.
  intros Hi. eapply Forall_lookup_1 in Hfs as Hf; [|exact Hi]. rewrite data_off_entry by (apply Hf || apply file_off_bound).
  unfold l. destruct (archive_split fs rest i f Hi) as [post ->]. apply data_at.
Qed.
End archive.
