(* ===== verification/CpioTheorems.v ===== *)
(** * CpioTheorems: the guarantees of driver/block.c and fs/cpio/cpio.c *)

From S2P Require Import Prelude Bits Strtoul CMem Alloc Vfs VfsOps VfsPath VfsCache VfsWalk VfsInv VfsMount VfsTheorems Block BlockProof Cpio CpioProof CpioArchive.

#[local] Ltac Zify.zify_post_hook ::= Z.div_mod_to_equations.

(** ** Paths *)

(** The file [path] is [name] in the directory [dir], as far as [check_path] can tell: a slash
    between the two may be missing. *)
Definition located (path dir name : list Z) : Prop :=
  chr path <> DOT /\ exists r, skip_slash path = skip_slash dir ++ r /\ skip_slash r = name.

Lemma check_path_spec path dir name : check_path path dir name = true <-> exists r, skip_slash path = skip_slash dir ++ r /\ skip_slash r = name.
Proof.
  unfold check_path, strncmp_eq, strcmp_eq. set (p := skip_slash path). set (d := skip_slash dir). rewrite !Nat2Z.id. rewrite (take_ge d) by done.
  destruct (decide (take (length d) p = d)) as [E|E].
  - rewrite (bool_decide_true (take (length d) p = d)) by done. rewrite andb_false_r, bool_decide_eq_true. split.
    + intros Hn. exists (drop (length d) p). split; [|done]. by rewrite <- E at 1; rewrite take_drop.
    + intros (r & Er & Hr). rewrite Er, drop_app_length. done.
  - rewrite (bool_decide_false (take (length d) p = d)) by done. destruct (Z.eqb_spec (Z.of_nat (length d)) 0) as [Hz|Hz].
    + destruct d; [by destruct E|cbn in Hz; lia].
    + cbn. split; [done|]. intros (r & Er & _). destruct E. rewrite Er. apply take_app_length.
Qed.

Lemma matches_located dir name e off : matches dir name (e, off) = true <-> located (e_path e) dir name.
Proof. unfold matches, located. rewrite andb_true_iff, check_path_spec, negb_true_iff, Z.eqb_neq. done. Qed.

Lemma first_match_at f es x : forall i, es !! i = Some x -> f x = true -> (forall j y, (j < i)%nat -> es !! j = Some y -> f y = false) -> first_match f es = Some x.
Proof.
  induction es as [|y es IH]; intros i Hi Hx Hb; [done|]. cbn. destruct i as [|i]; cbn in Hi; [simplify_eq; by rewrite Hx|].
  rewrite (Hb 0%nat y) by (done || lia). apply (IH i); [done|done|]. intros j z Hj Hz. apply (Hb (S j) z); [lia|done].
Qed.

(** The file [path] is directly in [dir], under [name], as [get_next_token] decides it. *)
Definition child (path dir name : list Z) : Prop :=
  chr path <> DOT /\ exists r, skip_slash path = skip_slash dir ++ r /\ skip_slash r <> [] /\
    Forall (fun c => c <> SLASH) name /\ (skip_slash r = name \/ skip_slash r = name ++ [SLASH]).

Lemma split_slash_none p : Forall (fun c => c <> SLASH) p -> split_slash p = None.
Proof. induction 1 as [|c p Hc _ IH]; [done|]. cbn. by rewrite (proj2 (Z.eqb_neq c SLASH)), IH. Qed.
Lemma split_slash_app p q : Forall (fun c => c <> SLASH) p -> split_slash (p ++ SLASH :: q) = Some (p, q).
Proof. induction 1 as [|c p Hc _ IH]; [done|]. cbn. by rewrite (proj2 (Z.eqb_neq c SLASH)), IH. Qed.

Lemma chr_nonzero p : Forall (fun c => c <> 0) p -> (chr p =? 0) = bool_decide (p = []).
Proof. destruct 1 as [|c p Hc _]; [done|]. rewrite bool_decide_false by done. by apply Z.eqb_neq. Qed.

Lemma skip_slash_nonzero p : Forall (fun c => c <> 0) p -> Forall (fun c => c <> 0) (skip_slash p).
Proof. unfold skip_slash. destruct 1; cbn [chr hd tl]; [by destruct (_ =? _)|]. destruct (_ =? _); [done|by constructor]. Qed.

Lemma last_token_spec q name : Forall (fun c => c <> 0) q -> q <> [] ->
  match split_slash q with Some (tok, rest) => if chr rest =? 0 then Some tok else None | None => Some q end = Some name <->
  Forall (fun c => c <> SLASH) name /\ (q = name \/ q = name ++ [SLASH]).
Proof.
  intros Hq Hne. destruct (split_slash q) as [[tok rest]|] eqn:E.
  - apply split_slash_Some in E as [-> Ht]. apply Forall_app in Hq as [_ [_ Hr]%Forall_cons]. rewrite chr_nonzero by done. case_bool_decide as Er.
    + subst rest. split; [intros [= <-]; split; [done|by right]|]. intros [Hn [<-|Hs]].
      * apply Forall_app in Hn as [_ [Hn _]%Forall_cons]. done.
      * apply app_inj_tail in Hs as [-> _]. done.
    + split; [done|]. intros [Hn [<-|Hs]].
      * apply Forall_app in Hn as [_ [Hn _]%Forall_cons]. done.
      * pose proof (split_slash_app tok rest Ht) as E1. rewrite Hs, (split_slash_app name [] Hn) in E1. simplify_eq.
  - apply split_slash_None in E as Hf. split; [intros [= <-]; split; [done|by left]|]. intros [Hn [->|Hs]]; [done|]. by rewrite Hs, split_slash_app in E.
Qed.

Lemma token_spec path dir name : Forall (fun c => c <> 0) path -> chr path <> DOT -> token path dir = Some name <-> child path dir name.
Proof.
  intros Hz Hdot. unfold token, child, strncmp_eq. rewrite !Nat2Z.id, (take_ge (skip_slash dir)) by done. set (p := skip_slash path). set (d := skip_slash dir).
  assert (Hp : Forall (fun c => c <> 0) p) by (by apply skip_slash_nonzero). assert (Hr : Forall (fun c => c <> 0) (drop (length d) p)) by (by apply Forall_drop).
  rewrite (chr_nonzero (drop (length d) p)), (chr_nonzero (skip_slash (drop (length d) p))) by (done || by apply skip_slash_nonzero). destruct (decide (take (length d) p = d)) as [E|E].
  - rewrite (bool_decide_true (take (length d) p = d)) by done. cbn [negb orb].
    assert (Hex : forall P : list Z -> Prop, (exists r, p = d ++ r /\ P r) <-> P (drop (length d) p)).
    { intros P. split; [intros (r & -> & HP); by rewrite drop_app_length|]. intros HP. exists (drop (length d) p). split; [|done]. by rewrite <- E at 1; rewrite take_drop. }
    rewrite Hex. generalize dependent (drop (length d) p). intros r Hr Hex. destruct (decide (skip_slash r = [])) as [Es|Es].
    + rewrite (bool_decide_true (skip_slash r = [])), orb_true_r by done. split; [done|]. tauto.
    + rewrite (bool_decide_false (skip_slash r = [])) by done. rewrite bool_decide_false by (by intros ->). cbn [orb]. rewrite last_token_spec by (done || by apply skip_slash_nonzero). tauto.
  - rewrite (bool_decide_false (take (length d) p = d)) by done. cbn [negb orb]. split; [done|]. intros (_ & r & Er & _). destruct E. rewrite Er. apply take_app_length.
Qed.

(** What a directory has, in the order of the archive. *)
Definition child_of (dir : list Z) (f : cfile) : option (cfile * list Z) :=
  if chr (f_name f) =? DOT then None else (fun name => (f, name)) <$> token (f_name f) dir.
Definition children (dir : list Z) (fs : list cfile) : list (cfile * list Z) := omap (child_of dir) fs.

Lemma children_spec dir fs f name : Forall file_ok fs -> (f, name) ∈ children dir fs <-> f ∈ fs /\ child (f_name f) dir name.
Proof.
  intros Hfs. unfold children. rewrite list_elem_of_omap. unfold child_of. split.
  - intros (g & Hg & E). destruct (Z.eqb_spec (chr (f_name g)) DOT) as [|Hd]; [done|]. destruct (token (f_name g) dir) as [t|] eqn:Et; [|done]. cbn in E. simplify_eq. split; [done|].
    eapply Forall_forall in Hfs; [|exact Hg]. by apply token_spec; [apply Hfs| |].
  - intros [Hin Hc]. exists f. split; [done|]. pose proof Hc as [Hd _]. rewrite (proj2 (Z.eqb_neq _ _)) by done. eapply Forall_forall in Hfs; [|exact Hin].
    apply token_spec in Hc as ->; [done|apply Hfs|done].
Qed.

Lemma listed_children dir fs : omap (listed dir) (file_entries fs) = (fun x => (entry_of x.1, x.2)) <$> children dir fs.
Proof.
  unfold file_entries, children. assert (H : forall g, omap (listed dir) (imap (fun i f => (entry_of f, g i)) fs) = (fun x => (entry_of x.1, x.2)) <$> omap (child_of dir) fs); [|apply H].
  induction fs as [|f fs IH]; intros g; [done|]. cbn [imap omap list_omap]. unfold listed at 1, child_of at 1. cbn [fst entry_of e_path].
  specialize (IH (fun i => g (S i))). destruct (chr (f_name f) =? DOT); [exact IH|]. destruct (token (f_name f) dir) as [t|]; [|exact IH]. cbn. f_equal. exact IH.
Qed.

Section archive.
Context {B : Type} (drv : block_driver B) (disk : disk_view B) `{!BlockDriver drv disk, !Reliable drv disk}.
Implicit Types st : bstate B.

(** Device [dev] holds an archive of [fs]. *)
Record holds st (dev : Z) (fs : list cfile) (rest : list Z) : Prop := mk_holds {
  hd_dev : dev_ok disk st dev;
  hd_here : dev <> 0;
  hd_disk : disk (hw st) dev = archive fs rest;
  hd_files : Forall file_ok fs;
  hd_len : zlen (archive fs rest) < 2 ^ 62;
}.

Lemma holds_contents st dev fs rest : holds st dev fs rest -> contents disk st dev = archive fs rest.
Proof.
  intros [H1 H2 H3 _ _]. unfold contents, no_dev. rewrite (proj2 (Z.eqb_neq dev 0)) by done. destruct H1 as [Hs Hc _ _ _]. by rewrite (proj2 (Z.eqb_neq _ 0)), (proj2 (Z.eqb_neq _ 0)) by lia.
Qed.

Lemma holds_image st dev fs rest : holds st dev fs rest -> image_at disk st dev.
Proof. intros H. split; [right; apply H|]. rewrite (holds_contents _ _ _ _ H). apply archive_image_ok; apply H. Qed.

Lemma holds_unchanged st st' dev fs rest : holds st dev fs rest -> unchanged disk st st' -> holds st' dev fs rest.
Proof. intros [H1 H2 H3 H4 H5] Hu. split; try done; [by eapply dev_ok_unchanged|]. destruct Hu as (_ & _ & ->). done. Qed.

Lemma holds_entries st dev fs rest : holds st dev fs rest -> entries (walk_fuel st dev) (contents disk st dev) 0 = file_entries fs.
Proof.
  intros H. pose proof (walk_fuel_ok disk st dev (proj1 (holds_image _ _ _ _ H))) as Hf. rewrite (holds_contents _ _ _ _ H) in Hf |- *. apply entries_archive; [apply H|apply H|].
  pose proof (archive_length_files fs rest). lia.
Qed.

Lemma no_out_of_memory st : (forall k, mallocs st k = true) -> ~ out_of_memory st.
Proof. intros H [i Hi]. by rewrite H in Hi. Qed.

Lemma lookup_archive st mi dn nd fs rest i f name :
  holds st (m_dev mi) fs rest -> (forall k, mallocs st k = true) -> fs !! i = Some f ->
  located (f_name f) (v_path dn) name -> (forall j g, (j < i)%nat -> fs !! j = Some g -> ~ located (f_name g) (v_path dn) name) ->
  exists st', cpio_lookup drv name mi dn nd st = Ok (0, v_attr dn, entry_attr (file_off fs i) (entry_of f), st') /\ unchanged disk st st'.
Proof.
  intros H Hm Hi Hl Hb. destruct (cpio_lookup_ok drv disk name mi dn nd st (holds_image _ _ _ _ H)) as (o & st' & Hu & Hor & ->).
  destruct Hor as [[_ Hout]|Ho]; [by destruct (no_out_of_memory st Hm)|]. rewrite (holds_entries _ _ _ _ H) in Ho.
  rewrite (first_match_at _ _ (entry_of f, file_off fs i) i) in Ho.
  - subst o. by exists st'.
  - unfold file_entries. by rewrite list_lookup_imap, Hi.
  - by apply matches_located.
  - intros j y Hj Hy. unfold file_entries in Hy. rewrite list_lookup_imap in Hy. destruct (fs !! j) as [g|] eqn:Eg; [|done]. cbn in Hy. simplify_eq.
    apply not_true_iff_false. rewrite matches_located. by eapply Hb.
Qed.

Lemma read_archive st mi nd fs rest i f off len :
  holds st (m_dev mi) fs rest -> (forall k, mallocs st k = true) -> fs !! i = Some f -> v_attr nd = entry_attr (file_off fs i) (entry_of f) ->
  (node_type (f_mode f)).1 = VNT_REG -> 0 <= off < zlen (f_data f) -> 0 <= len < 2 ^ 64 ->
  let n := Z.min len (zlen (f_data f) - off) in
  exists st', cpio_read drv off len mi nd st = Ok ((range (f_data f) off n, n), v_attr nd, st') /\ unchanged disk st st'.
Proof.
  intros H Hm Hi Ha Ht Hoff Hlen n. pose proof H as [_ _ _ Hfs Hl]. eapply Forall_lookup_1 in Hfs as Hf; [|exact Hi].
  assert (Hn : attr_ok (v_attr nd)) by (rewrite Ha; apply entry_attr_ok; cbn; pose proof (fo_size _ Hf); pose proof (zlen_nonneg (f_data f)); lia).
  destruct (cpio_read_ok drv disk off len mi nd st (proj1 (holds_image _ _ _ _ H)) Hn) as (buf & rd & st' & Hu & -> & Hspec). exists st'. split; [|done].
  assert (Et : v_type (v_attr nd) = VNT_REG /\ v_size (v_attr nd) = zlen (f_data f) /\ v_data (v_attr nd) = data_off (file_off fs i) (entry_of f)).
  { rewrite Ha. unfold entry_attr. cbn [entry_of e_mode]. by destruct (node_type (f_mode f)). }
  destruct Et as (Et & Es & Ed). destruct Hspec as [(_ & _ & Hout)|[-> ->]]; [done|lia|by destruct (no_out_of_memory st Hm)|].
  rewrite (holds_contents _ _ _ _ H), Es, Ed, (u64_small len) by lia. fold n.
  pose proof (file_contents fs rest Hfs Hl i f Hi) as Hc. rewrite data_off_entry in Hc |- * by (apply Hf || by eapply file_off_bound).
  pose proof (file_off_bound fs rest Hl i). pose proof (file_head_length f). pose proof (fo_path _ Hf). pose proof (zlen_nonneg (f_name f)). pose proof (fo_size _ Hf). unfold VFS_MAX_PATH, HEADER in *.
  set (d := file_off fs i + zlen (file_head f)) in *. assert (Hd : 0 <= d < 2 ^ 63) by lia. rewrite u64_small by lia.
  assert (E : range (f_data f) off n = range (archive fs rest) (d + off) n) by (rewrite <- Hc at 1; apply range_range; lia).
  rewrite <- E. rewrite range_length; [done|lia|lia|]. unfold zlen in *. lia.
Qed.

Lemma mount_archive st mi root fs rest dev :
  holds st (m_dev mi) fs rest -> (forall k, mallocs st k = true) ->
  exists st', cpio_mount drv (Some dev) mi root st = Ok (0, Z.lor (m_flags mi) MOUNT_RO, 0, with_data (v_attr root) 0, st') /\ unchanged disk st st'.
Proof.
  intros H Hm. pose proof H as [Hd H0 Hdisk _ Hl]. unfold cpio_mount. rewrite (proj2 (Z.eqb_neq (m_dev mi) 0)) by done. cbn [negb defined_if res_bind].
  assert (Hhead : exists f l, archive fs rest = header_of f ++ l /\ fits f).
  { unfold archive. destruct fs as [|f fs']; [exists trailer_file; unfold file_bytes, file_head; cbn [fmap list_fmap]|exists f; cbn [fmap list_fmap]; change (mjoin (?a :: ?l)) with (a ++ mjoin l); unfold file_bytes, file_head].
    - rewrite <- !app_assoc. cbn [mjoin list_join app]. eexists. split; [done|apply trailer_fits].
    - rewrite <- !app_assoc. eexists. split; [done|]. pose proof (hd_files _ _ _ _ H) as [? _]%Forall_cons. by apply fo_fits. }
  destruct Hhead as (f & l & El & Hf). pose proof (header_length f) as Hh. assert (Hlen : zlen (archive fs rest) = HEADER + zlen l) by (by rewrite El, zlen_app, Hh).
  assert (Hgt : HEADER < block_capacity (blks st (m_dev mi))).
  { destruct Hd as [D1 D2 D3 D4 _]. rewrite Hdisk in D4. unfold block_capacity. rewrite u64_small by nia. fold (zlen (archive fs rest)) in D4. rewrite <- D4.
    unfold archive. rewrite !zlen_app. pose proof (zlen_nonneg (mjoin (file_bytes <$> fs))). pose proof (zlen_nonneg rest). change (zlen (file_bytes trailer_file)) with 124. unfold HEADER. lia. }
  rewrite (proj2 (Z.leb_gt _ HEADER)) by done.
  destruct (block_read_fine drv disk st (m_dev mi) 0 HEADER (proj1 (holds_image _ _ _ _ H))) as (h & rd & st' & -> & Hu & Hor); [lia|done|]. cbn [res_bind].
  destruct Hor as [(_ & _ & Hout)|[-> ->]]; [by destruct (no_out_of_memory st Hm)|]. rewrite (holds_contents _ _ _ _ H), El.
  assert (E : range (header_of f ++ l) 0 HEADER = header_of f) by (rewrite <- Hh; apply (range_middle [] (header_of f) l)). rewrite E. fold (zlen (header_of f)). rewrite Hh, Z.eqb_refl, header_magic, bool_decide_true by done.
  by exists st'.
Qed.

(** C31. The filesystem reads back what an archive was made of.  On a device with an archive in
    the "newc" format of any list of files that fit the buffers of the code, the mount succeeds
    and is read-only; a lookup of a name in a directory finds the first file of the archive
    there, with its type, permissions, size and time; and a read at any offset of a node with
    those attributes gives the bytes that the file was archived with, as many as are asked for
    and left. *)
Theorem cpio_archive_roundtrip st mi dn nd fs rest i f name dev :
  holds st (m_dev mi) fs rest -> (forall k, mallocs st k = true) -> fs !! i = Some f ->
  located (f_name f) (v_path dn) name -> (forall j g, (j < i)%nat -> fs !! j = Some g -> ~ located (f_name g) (v_path dn) name) ->
  (exists st', cpio_mount drv (Some dev) mi dn st = Ok (0, Z.lor (m_flags mi) MOUNT_RO, 0, with_data (v_attr dn) 0, st')) /\
  exists a st1, cpio_lookup drv name mi dn nd st = Ok (0, v_attr dn, a, st1) /\
    v_size a = Z.of_nat (length (f_data f)) /\ v_mtime a = f_mtime f /\
    v_type a = (node_type (f_mode f)).1 /\ v_mode a = Z.lor (node_type (f_mode f)).2 (perm_bits (f_mode f)) /\
    forall nd' off len, v_attr nd' = a -> v_type a = VNT_REG -> 0 <= off < v_size a -> 0 <= len < 2 ^ 64 ->
      let n := Z.min len (v_size a - off) in
      exists st2, cpio_read drv off len mi nd' st1 = Ok ((range (f_data f) off n, n), a, st2).
Proof.
  intros H Hm Hi Hl Hb. split; [destruct (mount_archive st mi dn fs rest dev H Hm) as (st' & E & _); by exists st'|].
  destruct (lookup_archive st mi dn nd fs rest i f name H Hm Hi Hl Hb) as (st1 & -> & Hu). eexists _, st1. split; [done|].
  pose proof (holds_unchanged _ _ _ _ _ H Hu) as H1. assert (Hm1 : forall k, mallocs st1 k = true) by (destruct Hu as (_ & -> & _); done).
  unfold entry_attr. cbn [entry_of e_mode e_size e_mtime]. destruct (node_type (f_mode f)) as [ty bits] eqn:Et. cbn. fold (zlen (f_data f)). split_and!; try done.
  intros nd' off len Ha -> Hoff Hlen. destruct (read_archive st1 mi nd' fs rest i f off len H1 Hm1 Hi) as (st2 & E & _); [|by rewrite Et|done|done|].
  { rewrite Ha. unfold entry_attr. cbn [entry_of e_mode e_size e_mtime]. by rewrite Et. }
  exists st2. by rewrite E, Ha.
Qed.

(** Reading a directory.  On a device with an archive the entries of a directory are read
    in the order of the archive, one for each file whose path is that of the directory and one
    component more, with the name and the type of the file; behind the last of them, the read
    fails. *)
Theorem cpio_readdir_children st mi dn fs rest n :
  holds st (m_dev mi) fs rest -> (forall k, mallocs st k = true) -> 0 <= n ->
  (exists st', cpio_readdir drv n mi dn st = Ok (match children (v_path dn) fs !! Z.to_nat n with
     | Some (f, name) => ((0, mkDirent n 1 (dirent_type (f_mode f)) name), v_attr dn, st')
     | None => ((-1, no_dirent), v_attr dn, st') end)) /\
  forall f name, (f, name) ∈ children (v_path dn) fs <-> f ∈ fs /\ child (f_name f) (v_path dn) name.
Proof.
  intros H Hm Hn. split; [|intros f name; apply children_spec, H].
  destruct (cpio_readdir_ok drv disk n mi dn st (holds_image _ _ _ _ H)) as (o & st' & _ & Hor & ->). exists st'.
  destruct Hor as [[_ Hout]|Ho]; [by destruct (no_out_of_memory st Hm)|]. rewrite (Ho Hn), (holds_entries _ _ _ _ H), listed_children, list_lookup_fmap.
  destruct (children (v_path dn) fs !! Z.to_nat n) as [[f name]|]; reflexivity.
Qed.
End archive.

(** ** Block devices *)

Lemma splice_nil l off : splice l off [] = l.
Proof. unfold splice. cbn. by rewrite Nat.add_0_r, take_drop. Qed.

Lemma splice_lookup_out l off src i : 0 <= off -> off + Z.of_nat (length src) <= Z.of_nat (length l) ->
  Z.of_nat i < off \/ off + Z.of_nat (length src) <= Z.of_nat i -> splice l off src !! i = l !! i.
Proof.
  intros Ho Hl Hi. unfold splice. destruct Hi as [Hi|Hi].
  - rewrite lookup_app_l by (rewrite length_take; lia). apply lookup_take_lt. lia.
  - rewrite lookup_app_r by (rewrite length_take; lia). rewrite length_take, lookup_app_r by lia. rewrite lookup_drop. f_equal. lia.
Qed.

(** C30. Ranges of bytes on a block device.  A write of any range, aligned to blocks or not, is
    clipped at the end of the device and changes those bytes only; a read of the same range
    gives back what was written. *)
Theorem block_write_read {B : Type} (drv : block_driver B) (disk : disk_view B) `{!BlockDriver drv disk, !Reliable drv disk} st dev buf data offset :
  dev_ok disk st dev -> dev <> 0 -> buf <> 0 -> 0 <= offset -> (forall i, mallocs st i = true) ->
  let count := Z.of_nat (length data) in
  let n := Z.max 0 (Z.min count (blksz (blks st dev) * blkcnt (blks st dev) - offset)) in
  exists st1 st2, block_write drv dev buf data offset count st = Ok (n, st1) /\
    block_read drv dev buf offset count st1 = Ok (range data 0 n, n, st2) /\
    (forall d i, d <> dev \/ Z.of_nat i < offset \/ offset + n <= Z.of_nat i -> disk (hw st1) d !! i = disk (hw st) d !! i).
Proof.
  intros Hd Hdev Hbuf Ho Hm count n. destruct (block_write_ok drv disk st dev buf data offset count Hd Hdev Hbuf Ho) as (st1 & -> & Hw); [lia|done|].
  fold (clipped (blks st dev) offset count) in n. fold n in Hw |- *. assert (Hn : n = clipped (blks st dev) offset count) by done. unfold clipped in Hn.
  pose proof (dk_disk _ _ _ Hd) as Hlen. assert (Hr : Z.of_nat (length (range data 0 n)) = n) by (apply range_length; lia). pose proof Hw as (E1 & E2 & E3 & E4).
  assert (Hsp : disk (hw st1) dev = disk (hw st) dev /\ n = 0 \/ offset + n <= Z.of_nat (length (disk (hw st) dev))).
  { destruct (Z.eq_dec n 0) as [E|E]; [left|right; lia]. split; [|done]. by rewrite E3, E, range_nil, splice_nil. }
  assert (Hd1 : dev_ok disk st1 dev). { eapply dev_ok_written; [exact Hd| |exact Hw]. destruct Hsp as [[Es _]|Hsp]; [by rewrite <- E3, Es|]. apply splice_length; [done|by rewrite Hr]. }
  destruct (block_read_ok drv disk st1 dev buf offset count Hd1 Hdev Hbuf Ho) as (bytes & ret & st2 & E & _ & _ & _ & Hrel); [lia|]. exists st1, st2. split; [done|]. rewrite E.
  destruct (Hrel _) as [(_ & _ & Hf)|[-> ->]]; [by rewrite E2, Hm in Hf|]. rewrite E1. fold n. split.
  - rewrite E3. do 3 f_equal. destruct Hsp as [[_ ->]|Hsp]; [done|]. rewrite <- Hr at 2. apply range_splice; [done|by rewrite Hr].
  - intros d i Hi. destruct (Z.eq_dec d dev) as [->|Hne]; [|by rewrite E4]. destruct Hsp as [[-> _]|Hsp]; [done|]. rewrite E3. apply splice_lookup_out; [done|by rewrite Hr|]. rewrite Hr. by destruct Hi.
Qed.

(** ** The switch on archives *)

Section switch.
Context {S B : Type} `{KernelAlloc S} (drv : block_driver B) (disk : disk_view B) `{!BlockDriver drv disk, !Reliable drv disk}.
Implicit Types s : vfs S (bstate B).

(** The only filesystem is that of archives, and devices are synchronised by the block layer. *)
Definition archives_only (env : vfs_env (bstate B)) : Prop :=
  (forall i fs, new_filesystem env i = Some fs -> fs = cpio drv) /\
  (forall dev st, Vfs.block_sync env dev st = Ok (Block.block_sync drv dev st)).

Lemma archives_env_ok st0 env : images_ok disk st0 -> archives_only env -> env_ok (unchanged disk st0) env.
Proof.
  intros Hi [Hfs Hsync]. split; [intros i fs E; rewrite (Hfs i fs E); by apply cpio_fs_ok|].
  intros dev st Hu. exists (Block.block_sync drv dev st). split; [done|]. exact (unchanged_trans disk _ _ _ Hu (block_sync_unchanged drv disk dev st)).
Qed.

End switch.

(** ** An archive in memory *)

Module RamDisk.

(** A device at address 1, with blocks of 16 bytes. *)
Definition ram_disk : disk_view (list Z) := mk_view (fun h dev => if dev =? 1 then h else []) (fun _ => True).
Definition ram : block_driver (list Z) := mk_driver (list Z)
  (fun h dev b blkno cnt => (range (ram_disk h dev) (blkno * blksz b) (cnt * blksz b), cnt, h))
  (fun h dev b data blkno cnt => (cnt, if dev =? 1 then splice h (blkno * blksz b) data else h))
  (fun h dev => h).

#[export] Instance ram_driver : BlockDriver ram ram_disk.
Proof.
  split.
  - intros h dev b blkno cnt p n h' [= <- <- <-] Hs Hb Hc Hle _ Hlen. split; [done|]. split; [|done]. cbn in *. apply range_length; nia.
  - intros h dev b data blkno cnt n h' [= <- <-] Hs Hb Hc Hle _ Hlen Hd. unfold ram_disk, view in *. destruct (Z.eqb_spec dev 1) as [->|Hne].
    + split; [intros d Hd1; by rewrite (proj2 (Z.eqb_neq d 1))|]. split; [apply splice_length; nia|done].
    + cbn in Hlen. nia.
  - done.
Qed.
#[export] Instance ram_reliable : Reliable ram ram_disk.
Proof. by split. Qed.

(** The file ["greet"] with the text ["hi"], the directory ["d"] and the file ["d/x"]. *)
Definition plain_file (name data : list Z) (mode : Z) : cfile := mk_cfile false 7 mode 0 0 1 1000 0 0 0 0 0 name data.
Definition greet : cfile := plain_file [103; 114; 101; 101; 116] [104; 105] 33188.
Definition files : list cfile := [greet; plain_file [100] [] 16877; plain_file [100; 47; 120] [1; 2; 3; 4; 5] 33188].
Definition image : list Z := archive files (repeat 0 16).
Definition start : bstate (list Z) :=
  mk_bstate image (fun dev => if dev =? 1 then mk_block 16 31 true else mk_block 0 0 false) (fun _ => true) 0.

Definition mount_of : minfo := mkMInfo 1 [47] 0 0 0 0 0.
Definition node_at (path : list Z) (a : vattr) : vnode := mkNode 1 1 path VNF_NONE a.
Lemma image_length : zlen image = 496.
Proof. vm_compute. reflexivity. Qed.

Lemma short_comps_short path : zlen path < VFS_MAX_NAME -> short_comps path.
Proof. intros H l1 c l2 -> _. unfold zlen in H. rewrite !length_app in H. lia. Qed.

Lemma plain_file_ok name data mode :
  Forall (fun c => c <> 0) name -> zlen name < VFS_MAX_NAME -> zlen data < 1000 -> 0 <= mode < 2 ^ 32 -> name <> TRAILER -> file_ok (plain_file name data mode).
Proof.
  intros Hn Hl Hd Hm Ht. unfold VFS_MAX_NAME in Hl. pose proof (zlen_nonneg name). pose proof (zlen_nonneg data). split; cbn; [split; [|done]|unfold VFS_MAX_PATH; lia|by apply short_comps_short|lia|done].
  unfold numbers. cbn. repeat (apply Forall_cons_2; [lia|]). constructor.
Qed.

Lemma files_ok : Forall file_ok files.
Proof. repeat (apply Forall_cons_2; [apply plain_file_ok; [by repeat constructor|done|done|done|done]|]). constructor. Qed.

Lemma start_holds : holds ram_disk start 1 files (repeat 0 16).
Proof.
  split; [|done|done|apply files_ok|]; [|change (zlen image < 2 ^ 62); by rewrite image_length]. split; [done|done|done| |done]. change (zlen image = 496). apply image_length.
Qed.

Lemma start_images : images_ok ram_disk start.
Proof.
  intros dev. destruct (Z.eq_dec dev 1) as [->|Hne]; [exact (holds_image ram_disk start 1 files (repeat 0 16) start_holds)|].
  assert (Hn : no_dev start dev = true) by (unfold no_dev; cbn; rewrite (proj2 (Z.eqb_neq dev 1)) by done; cbn; by rewrite orb_true_r).
  split; [by left|]. unfold contents. rewrite Hn. split; [done|]. intros off Hv. split; [intros Hl; unfold range in Hl; rewrite drop_nil, take_nil in Hl; done|].
  intros e He. unfold parse_entry, range in He. by rewrite drop_nil, take_nil in He.
Qed.
End RamDisk.

Import RamDisk.

Lemma cpio_archive_roundtrip_witness :
  exists a st1, cpio_lookup ram [120] mount_of (node_at [47; 100] attr0) (node_at [47; 100; 47; 120] attr0) start = Ok (0, attr0, a, st1) /\ v_size a = 5.
Proof.
  destruct (cpio_archive_roundtrip ram ram_disk start mount_of (node_at [47; 100] attr0) (node_at [47; 100; 47; 120] attr0) files (repeat 0 16) 2
    (plain_file [100; 47; 120] [1; 2; 3; 4; 5] 33188) [120] [] start_holds (fun _ => eq_refl) eq_refl) as (_ & a & st1 & E & Hs & _).
  - split; [done|]. by exists [47; 120].
  - intros j g Hj Hg. rewrite <- (matches_located _ _ (entry_of g) 0). destruct j as [|[|j]]; [| |lia]; injection Hg as <-; vm_compute; discriminate.
  - exists a, st1. split; [exact E|exact Hs].
Defined.

Lemma cpio_readdir_children_witness :
  exists st', cpio_readdir ram 0 mount_of (node_at [47; 100] attr0) start = Ok ((0, mkDirent 0 1 VDT_REG [120]), attr0, st').
Proof.
  destruct (cpio_readdir_children ram ram_disk start mount_of (node_at [47; 100] attr0) files (repeat 0 16) 0 start_holds (fun _ => eq_refl)) as [[st' E] _]; [lia|].
  exists st'. exact E.
Defined.

Lemma block_write_read_witness :
  exists st1 st2, block_write ram 1 8 [9; 8; 7; 6] 490 4 start = Ok (4, st1) /\ block_read ram 1 8 490 4 st1 = Ok ([9; 8; 7; 6], 4, st2).
Proof.
  destruct (block_write_read ram ram_disk start 1 8 [9; 8; 7; 6] 490 (hd_dev _ _ _ _ _ start_holds)) as (st1 & st2 & E1 & E2 & _); [done|done|lia|done|].
  exists st1, st2. split; [exact E1|exact E2].
Defined.

(** ** The whole stack: mount the archive, open ["/greet"] and read it *)

Module Stack.
#[local] Instance alloc : KernelAlloc Z := bump_alloc.

Definition rom : list Z := [114; 111; 109].
Definition env : vfs_env (bstate (list Z)) := mkEnv (bstate (list Z))
  (fun _ name => if bool_decide (name = rom) then 1 else 0)
  (fun dev st => Ok (Block.block_sync ram dev st))
  (fun i => if i =? 1 then Some (cpio ram) else None).

Definition empty : vfs Z (bstate (list Z)) := do_vfs_init Demo.tree (mkVfs 1 start ∅ ∅ [] [] [] ∅).
Definition after (m : VM Z (bstate (list Z)) unit) s := match m s with inl (_, s') => s' | inr _ => s end.

Definition greet_path : list Z := 47 :: f_name greet.
Definition mount_call : vfs_call := CMount (Some rom) [47] (Some Demo.cpio) MOUNT_RO.
Definition open_call : vfs_call := COpen greet_path O_RDONLY 0.
Definition mounted := after (run_call env mount_call) empty.
Definition opened := after (run_call env open_call) mounted.

Definition outcome {A} (m : VM Z (bstate (list Z)) A) s : option A := match m s with inl (a, _) => Some a | inr _ => None end.

Example open_finds : outcome (vfs_open (Some greet_path) O_RDONLY 0) mounted = Some 3.
Proof. vm_compute. reflexivity. Qed.
Example read_greet : outcome (vfs_read 3 true 10) opened = Some ([104; 105], 2).
Proof. vm_compute. reflexivity. Qed.

Abbreviation I := (unchanged ram_disk start).

Lemma env_archives : archives_only ram env.
Proof. split; [|done]. intros i fs. unfold env. cbn [new_filesystem]. destruct (i =? 1); [by intros [= <-]|done]. Qed.

Lemma stack_empty_reachable : reachable ∅ I env empty.
Proof. apply reach_init; [|done|done|done]. split; [done|]. intros p Hp. set_solver. Qed.

Lemma run_after c s : is_Some (outcome (run_call env c) s) -> run_call env c s = inl (tt, after (run_call env c) s).
Proof. intros [x Hx]. unfold outcome, after in *. by destruct (run_call env c s) as [[[] ?]|]. Qed.

Lemma stack_mounted_reachable : reachable ∅ I env mounted.
Proof.
  apply (reach_call _ _ _ empty mount_call); [apply stack_empty_reachable|by repeat constructor|by vm_compute|]. apply run_after. vm_compute. by eexists.
Qed.

Lemma stack_opened_reachable : reachable ∅ I env opened.
Proof.
  apply (reach_call _ _ _ mounted open_call); [apply stack_mounted_reachable| |by vm_compute|]; [split; [by repeat constructor|done]|]. apply run_after. vm_compute. by eexists.
Qed.
End Stack.


(** ** What the code does not check *)

(** The file ["foobar"] is found as ["bar"] in the directory ["/foo"]. *)
Lemma lookup_without_slash : check_path [102; 111; 111; 98; 97; 114] [47; 102; 111; 111] [98; 97; 114] = true.
Proof. reflexivity. Qed.

(** A device of 1264 bytes with one entry, whose header says how long the name is. *)
Definition one_entry (name_size : Z) (name : list Z) : bstate (list Z) :=
  let header := MAGIC ++ mjoin (hex_digits true 8 <$> [0; 33188; 0; 0; 1; 0; 0; 0; 0; 0; 0; name_size; 0]) in
  mk_bstate (take 1264 (header ++ name ++ repeat 0 1264)) (fun _ => mk_block 16 79 false) (fun _ => true) 0.

(** A name that is longer than [path] is read over the end of that array. *)
Lemma long_name_overflows : read_entry ram 1 0 (one_entry 1025 (repeat 97 1024)) = Undef.
Proof. vm_compute. reflexivity. Qed.

(** A name without a NUL is used as a string. *)
Lemma unterminated_name_used : read_entry ram 1 0 (one_entry 2 [97; 98]) = Undef.
Proof. vm_compute. reflexivity. Qed.

(** A component of 256 characters does not fit in [name]. *)
Lemma long_component_overflows : get_next_token (repeat 97 256) [47] = Undef.
Proof. vm_compute. reflexivity. Qed.

(** Asking for the size of the user's block device when there is none. *)
Lemma no_user_device (B : Type) (st : bstate B) : sys_block_capacity 0 st = Undef.
Proof. done. Qed.
