(* ===== verification/Virtio.v ===== *)
(** * Virtio: the rings between drivers and virtio devices (driver/virtio/virtio.c)

    A queue is a table of descriptors and two rings: the driver puts chains of descriptors on
    the ring [avail], the device returns them, in any order, on the ring [used].  The indexes of
    the rings run freely in 16 bits.

    The device reads and writes the same memory: its steps are in VirtioProof.  Within one
    function of the driver the model lets the device do nothing; a device that works at the same
    time is one whose step is before or after, since each function reads [used->idx] and writes
    [avail->idx] where the barriers of the code are. *)

From S2P Require Import Prelude Bits Vfs.

(** ** Queues (include/virtio/virtio_ring.h, driver/virtio/virtio-internal.h) *)

Definition VIRTIO_RING_SIZE : Z := 128.
Definition VRING_DESC_F_NEXT : Z := 1.
Definition VRING_DESC_F_WRITE : Z := 2.

Record vring_desc := mk_desc { addr : Z; len : Z; flags : Z; next : Z }.
Definition no_desc : vring_desc := mk_desc 0 0 0 0.

Definition VRING_DESC (data size : Z) : vring_desc := mk_desc data size 0 0.
Definition VRING_DESC_LEN (data _len : Z) : vring_desc := mk_desc data _len 0 0.
Definition VRING_DESC_LEN_FLAG (data _len _flags : Z) : vring_desc := mk_desc data _len _flags 0.

(** The three tables in the memory that is shared with the device, and the two numbers that only
    the driver has.  An entry of [used_ring] is the head of a chain and a length. *)
Record virtio_queue_t := mk_queue {
  desc : list vring_desc;
  avail_idx : Z;
  avail_ring : list Z;
  used_idx : Z;
  used_ring : list (Z * Z);
  idx : Z;
  ack_used_idx : Z;
}.

(** The places of the three tables in memory. *)
Record vring := mk_vring { num : Z; desc_at : Z; avail_at : Z; used_at : Z }.

Definition vring_init (num p align : Z) : vring :=
  let avail := u64 (p + u64 (num * 16)) in
  let used := Z.land (u64 (u64 (u64 (avail + 4 + 2 * num) + 2) + align - 1)) (not64 (u64 (align - 1))) in
  mk_vring num p avail used.

Definition vring_size (num align : Z) : Z :=
  u32 (u64 (Z.land (u64 (16 * num + 2 * (u32 (3 + num)) + align - 1)) (not64 (u64 (align - 1))) + 6 + 8 * num)).

Definition vring_need_event (event_idx new_idx old : Z) : bool := wrap 16 (new_idx - event_idx - 1) <? wrap 16 (new_idx - old).

(** ** Sending *)

Definition set_desc (q : virtio_queue_t) (ds : list vring_desc) (i : Z) : virtio_queue_t :=
  mk_queue ds (avail_idx q) (avail_ring q) (used_idx q) (used_ring q) i (ack_used_idx q).

Definition virtio_desc_new (q : virtio_queue_t) (d : vring_desc) (fl : Z) : res (bool * virtio_queue_t) :=
  let nx := if has fl VRING_DESC_F_NEXT then (idx q + 1) mod VIRTIO_RING_SIZE else 0 in
  let d := mk_desc (addr d) (len d) (Z.lor (flags d) fl) nx in
  let* old := deref (desc q !! Z.to_nat (idx q)) in
  if negb (flags old =? 0) then Ok (false, q)
  else Ok (true, set_desc q (<[Z.to_nat (idx q) := d]> (desc q)) ((idx q + 1) mod VIRTIO_RING_SIZE)).

Definition virtio_desc_get_index (q : virtio_queue_t) : Z := idx q.

Definition virtio_avail_new (q : virtio_queue_t) (i : Z) : virtio_queue_t :=
  mk_queue (desc q) (wrap 16 (avail_idx q + 1)) (<[Z.to_nat (avail_idx q mod VIRTIO_RING_SIZE) := wrap 16 i]> (avail_ring q))
    (used_idx q) (used_ring q) (idx q) (ack_used_idx q).

Definition virtio_send_command_1 (q : virtio_queue_t) (response : vring_desc) : res (bool * virtio_queue_t) :=
  let head := virtio_desc_get_index q in
  let* '(ok, q) := virtio_desc_new q response VRING_DESC_F_WRITE in
  if negb ok then Ok (false, q) else Ok (true, virtio_avail_new q head).

Definition virtio_send_command_2 (q : virtio_queue_t) (request response : vring_desc) : res (bool * virtio_queue_t) :=
  let head := virtio_desc_get_index q in
  let* '(ok, q) := virtio_desc_new q request VRING_DESC_F_NEXT in
  if negb ok then Ok (false, q)
  else
    let* '(ok, q) := virtio_desc_new q response VRING_DESC_F_WRITE in
    if negb ok then Ok (false, q) else Ok (true, virtio_avail_new q head).

Definition virtio_send_command_3 (q : virtio_queue_t) (request1 request2 response : vring_desc) : res (bool * virtio_queue_t) :=
  let head := virtio_desc_get_index q in
  let* '(ok, q) := virtio_desc_new q request1 VRING_DESC_F_NEXT in
  if negb ok then Ok (false, q)
  else
    let* '(ok, q) := virtio_desc_new q request2 VRING_DESC_F_NEXT in
    if negb ok then Ok (false, q)
    else
      let* '(ok, q) := virtio_desc_new q response VRING_DESC_F_WRITE in
      if negb ok then Ok (false, q) else Ok (true, virtio_avail_new q head).

(** ** Taking back *)

Definition virtio_desc_del_fuel : nat := Z.to_nat VIRTIO_RING_SIZE.

Fixpoint del_loop (fuel : nat) (i : Z) (ds : list vring_desc) : res (list vring_desc) :=
  match fuel with
  | O => Undef
  | S fuel =>
      let* _ := deref (ds !! Z.to_nat i) in
      let ds := <[Z.to_nat i := no_desc]> ds in
      let* d := deref (ds !! Z.to_nat i) in
      if has (flags d) VRING_DESC_F_NEXT then del_loop fuel (next d) ds else Ok ds
  end.

Definition virtio_desc_del (q : virtio_queue_t) (i : Z) : res virtio_queue_t :=
  let* ds := del_loop virtio_desc_del_fuel i (desc q) in Ok (set_desc q ds (idx q)).

Section handler.
(** What a driver does with a descriptor that comes back; those of the kernel do not touch the
    queue. *)
Context {W : Type} (free_desc : vring_desc -> W -> res W).

(** Each turn clears a descriptor, so that a chain has no more turns than there are. *)
Definition chain_fuel : nat := S (Z.to_nat VIRTIO_RING_SIZE).

Fixpoint free_chain (fuel : nat) (i : Z) (ds : list vring_desc) (w : W) : res (list vring_desc * W) :=
  match fuel with
  | O => Undef
  | S fuel =>
      let* temp := deref (ds !! Z.to_nat i) in
      let ds := <[Z.to_nat i := no_desc]> ds in
      let* w := free_desc temp w in
      if negb (has (flags temp) VRING_DESC_F_NEXT) then Ok (ds, w) else free_chain fuel (next temp) ds w
  end.

(** One turn of the outer loop. *)
Definition irq_one (q : virtio_queue_t) (w : W) : res (virtio_queue_t * W) :=
  let* '(i, _) := deref (used_ring q !! Z.to_nat (ack_used_idx q mod VIRTIO_RING_SIZE)) in
  let* '(ds, w) := free_chain chain_fuel i (desc q) w in
  Ok (mk_queue ds (avail_idx q) (avail_ring q) (used_idx q) (used_ring q) (idx q) (wrap 16 (ack_used_idx q + 1)), w).

(** The indexes have 16 bits. *)
Definition irq_fuel : nat := Z.to_nat (2 ^ 16).

Fixpoint irq_loop (fuel : nat) (q : virtio_queue_t) (w : W) : res (virtio_queue_t * W) :=
  if ack_used_idx q =? used_idx q then Ok (q, w)
  else match fuel with
       | O => Undef
       | S fuel => let* '(q, w) := irq_one q w in irq_loop fuel q w
       end.

Definition virtio_device_irq_handler (q : virtio_queue_t) (w : W) : res (virtio_queue_t * W) := irq_loop irq_fuel q w.
End handler.
