(* ===== verification/VirtioProof.v ===== *)
(** * VirtioProof: the commands that are in a queue

    [table ds cs leak]: the descriptors [ds] hold the chains of the commands [cs], the slots
    [leak] are in use and belong to no command, all others are free.  [queue_ok] adds what the
    two rings hold: the commands that the device has not seen yet ([pend]), in order, and those
    that it has returned ([done]), in the order in which it did; [work] are those in between. *)

From S2P Require Import Prelude Bits Vfs Virtio.

#[local] Ltac Zify.zify_post_hook ::= Z.div_mod_to_equations.

(** ** Chains *)

Definition N : Z := 128.

Definition succ (i : Z) : Z := (i + 1) mod N.

(** The [n] slots from [i] on. *)
Fixpoint slots (i : Z) (n : nat) : list Z := match n with O => [] | S n => i :: slots (succ i) n end.

(** The descriptors of a command that starts in slot [i]: the last one is for the answer. *)
Fixpoint place (i : Z) (bufs : list vring_desc) : list vring_desc :=
  match bufs with
  | [] => []
  | [r] => [mk_desc (addr r) (len r) (Z.lor (flags r) VRING_DESC_F_WRITE) 0]
  | d :: bufs => mk_desc (addr d) (len d) (Z.lor (flags d) VRING_DESC_F_NEXT) (succ i) :: place (succ i) bufs
  end.

(** Flags that a caller may set: that the device may write. *)
Definition bufs_ok (bufs : list vring_desc) : Prop := bufs <> [] /\ Forall (fun d => flags d = 0 \/ flags d = VRING_DESC_F_WRITE) bufs.

Record command := mk_command { c_head : Z; c_bufs : list vring_desc }.
Definition c_descs (c : command) : list vring_desc := place (c_head c) (c_bufs c).
Definition c_slots (c : command) : list Z := slots (c_head c) (length (c_bufs c)).

Definition is_slot (i : Z) : Prop := 0 <= i < N.

Lemma succ_slot i : is_slot (succ i).
Proof. unfold is_slot, succ, N. lia. Qed.

Lemma slots_range i n : is_slot i -> Forall is_slot (slots i n).
Proof. revert i. induction n as [|n IH]; intros i Hi; cbn; constructor; [done|]. apply IH, succ_slot. Qed.

Lemma length_slots i n : length (slots i n) = n.
Proof. revert i. induction n as [|n IH]; intros i; cbn; [done|]. by rewrite IH. Qed.

Lemma place_cons i d d2 bufs : place i (d :: d2 :: bufs) = mk_desc (addr d) (len d) (Z.lor (flags d) VRING_DESC_F_NEXT) (succ i) :: place (succ i) (d2 :: bufs).
Proof. done. Qed.

Lemma length_place i bufs : length (place i bufs) = length bufs.
Proof. revert i. induction bufs as [|d [|d2 bufs] IH]; intros i; [done|done|]. rewrite place_cons. cbn [length]. by rewrite IH. Qed.

Lemma lor_nonzero a b : 0 <= a -> 0 < b -> Z.lor a b <> 0.
Proof. intros Ha Hb E. apply Z.lor_eq_0_iff in E. lia. Qed.

(** ** Tables *)

Implicit Types ds : list vring_desc.

Definition busy (cs : list command) (leak : list Z) : list Z := mjoin (c_slots <$> cs) ++ leak.

(** The descriptors [l] are in the slots [ss]. *)
Definition holds_at (ds : list vring_desc) : list Z -> list vring_desc -> Prop := Forall2 (fun s d => ds !! Z.to_nat s = Some d).

Record table (ds : list vring_desc) (cs : list command) (leak : list Z) : Prop := mk_table {
  tb_len : length ds = Z.to_nat N;
  tb_nodup : NoDup (busy cs leak);
  tb_range : Forall is_slot (busy cs leak);
  tb_chain : Forall (fun c => bufs_ok (c_bufs c) /\ holds_at ds (c_slots c) (c_descs c)) cs;
  tb_free i d : ds !! i = Some d -> flags d <> 0 <-> Z.of_nat i ∈ busy cs leak;
}.

Lemma slot_lookup ds i : length ds = Z.to_nat N -> is_slot i -> exists d, ds !! Z.to_nat i = Some d.
Proof. intros Hl Hi. apply lookup_lt_is_Some_2. unfold is_slot, N in *. lia. Qed.

Lemma holds_at_insert ds ss l i d : holds_at ds ss l -> i ∉ ss -> Forall is_slot ss -> is_slot i -> holds_at (<[Z.to_nat i := d]> ds) ss l.
Proof.
  intros H Hi HF Hs. induction H as [|s d' ss l Hl _ IH]; [constructor|]. apply not_elem_of_cons in Hi as [Hne Hi]. apply Forall_cons in HF as [H1 HF]. unfold is_slot in *.
  constructor; [|by apply IH]. rewrite list_lookup_insert_ne; [done|]. intros E. apply Hne. lia.
Qed.

Lemma busy_chain cs leak c : c ∈ cs -> forall s, s ∈ c_slots c -> s ∈ busy cs leak.
Proof. intros Hc s Hs. apply elem_of_app. left. apply list_elem_of_join. exists (c_slots c). split; [done|]. by apply list_elem_of_fmap_2. Qed.

(** A free slot can be filled: it belongs to no command yet. *)
Lemma table_fill ds cs leak i d :
  table ds cs leak -> is_slot i -> i ∉ busy cs leak -> flags d <> 0 -> table (<[Z.to_nat i := d]> ds) cs (leak ++ [i]).
Proof.
  intros [H1 H2 H3 H4 H5] Hi Hfree Hd. assert (Eb : busy cs (leak ++ [i]) = busy cs leak ++ [i]) by (unfold busy; by rewrite app_assoc). split; rewrite ?Eb.
  - by rewrite length_insert.
  - apply NoDup_app. split; [done|]. split; [|apply NoDup_singleton]. intros x Hx ->%list_elem_of_singleton. done.
  - apply Forall_app. split; [done|by constructor].
  - apply Forall_forall. intros c Hc. eapply Forall_forall in H4 as [Hb Hh]; [|exact Hc]. split; [done|]. apply holds_at_insert; [done| | |done].
    + intros Hin. apply Hfree. by eapply busy_chain.
    + apply Forall_forall. intros s Hs. eapply Forall_forall in H3; [exact H3|]. by eapply busy_chain.
  - intros j e Hj. rewrite elem_of_app, list_elem_of_singleton. destruct (decide (j = Z.to_nat i)) as [->|Hne].
    + rewrite list_lookup_insert_eq in Hj by (unfold is_slot, N in *; lia). simplify_eq. split; [|done]. intros _. right. unfold is_slot in Hi. lia.
    + rewrite list_lookup_insert_ne in Hj by done. rewrite (H5 j e Hj). split; [by left|]. intros [?|E]; [done|]. unfold is_slot in Hi. lia.
Qed.

(** Slots that are in use and hold the chain of a command become that command. *)
Lemma table_command ds cs leak c :
  table ds cs (leak ++ c_slots c) -> bufs_ok (c_bufs c) -> holds_at ds (c_slots c) (c_descs c) -> table ds (cs ++ [c]) leak.
Proof.
  intros [H1 H2 H3 H4 H5] Hb Hh. assert (Hp : busy (cs ++ [c]) leak ≡ₚ busy cs (leak ++ c_slots c)).
  { unfold busy. rewrite fmap_app, join_app. cbn. rewrite app_nil_r, <- app_assoc. f_equiv. apply Permutation_app_comm. }
  split; [done|by rewrite Hp|by rewrite Hp| |].
  - apply Forall_app. split; [done|]. by constructor.
  - intros i d Hi. rewrite Hp. by apply H5.
Qed.

(** ** Sending *)

Fixpoint put_chain (q : virtio_queue_t) (bufs : list vring_desc) : res (bool * virtio_queue_t) :=
  match bufs with
  | [] => Ok (true, q)
  | [r] => virtio_desc_new q r VRING_DESC_F_WRITE
  | d :: bufs => let* '(ok, q) := virtio_desc_new q d VRING_DESC_F_NEXT in if negb ok then Ok (false, q) else put_chain q bufs
  end.

(** Any number of descriptors. *)
Definition send (q : virtio_queue_t) (bufs : list vring_desc) : res (bool * virtio_queue_t) :=
  let* '(ok, q') := put_chain q bufs in if negb ok then Ok (false, q') else Ok (true, virtio_avail_new q' (idx q)).

Lemma send_1 q r : virtio_send_command_1 q r = send q [r].
Proof. done. Qed.
Lemma send_2 q d r : virtio_send_command_2 q d r = send q [d; r].
Proof. unfold virtio_send_command_2, send. cbn [put_chain]. by destruct (virtio_desc_new q d _) as [[[] q1]| |]. Qed.
Lemma send_3 q d1 d2 r : virtio_send_command_3 q d1 d2 r = send q [d1; d2; r].
Proof.
  unfold virtio_send_command_3, send. cbn [put_chain]. destruct (virtio_desc_new q d1 _) as [[[] q1]| |]; cbn [res_bind negb]; try done.
  by destruct (virtio_desc_new q1 d2 _) as [[[] q2]| |].
Qed.

Definition same_rings (q q' : virtio_queue_t) : Prop :=
  avail_idx q' = avail_idx q /\ avail_ring q' = avail_ring q /\ used_idx q' = used_idx q /\ used_ring q' = used_ring q /\ ack_used_idx q' = ack_used_idx q.

Lemma same_rings_trans q1 q2 q3 : same_rings q1 q2 -> same_rings q2 q3 -> same_rings q1 q3.
Proof. unfold same_rings. intuition congruence. Qed.

Lemma desc_new_ok q cs leak d fl :
  table (desc q) cs leak -> is_slot (idx q) -> 0 <= flags d -> fl = VRING_DESC_F_NEXT \/ fl = VRING_DESC_F_WRITE ->
  let d' := mk_desc (addr d) (len d) (Z.lor (flags d) fl) (if fl =? VRING_DESC_F_NEXT then succ (idx q) else 0) in
  ((idx q ∈ busy cs leak) /\ virtio_desc_new q d fl = Ok (false, q)) \/
  ((idx q ∉ busy cs leak) /\ exists q', virtio_desc_new q d fl = Ok (true, q') /\ desc q' = <[Z.to_nat (idx q) := d']> (desc q) /\
     table (desc q') cs (leak ++ [idx q]) /\ idx q' = succ (idx q) /\ same_rings q q').
Proof.
  intros Ht Hi Hd Hfl d'. unfold virtio_desc_new. destruct (slot_lookup (desc q) (idx q) (tb_len _ _ _ Ht) Hi) as [old Hold]. rewrite Hold. cbn [deref res_bind].
  pose proof (tb_free _ _ _ Ht _ _ Hold) as Hfree. rewrite Z2Nat.id in Hfree by apply Hi.
  replace (if has fl VRING_DESC_F_NEXT then (idx q + 1) mod VIRTIO_RING_SIZE else 0) with (next d') by (destruct Hfl as [-> | ->]; done).
  destruct (Z.eqb_spec (flags old) 0) as [E|E]; cbn [negb].
  - right. split; [tauto|]. eexists. split; [done|]. split; [done|]. split; [|done]. apply table_fill; [done|done|tauto|].
    apply lor_nonzero; [done|]. by destruct Hfl as [-> | ->].
  - left. split; [tauto|done].
Qed.

Lemma slots_lookup i n k : is_slot i -> (k < n)%nat -> slots i n !! k = Some ((i + Z.of_nat k) mod N).
Proof.
  revert i k. induction n as [|n IH]; intros i k Hi Hk; [lia|]. destruct k as [|k]; cbn.
  - f_equal. unfold is_slot, N in *. lia.
  - rewrite IH by (apply succ_slot || lia). f_equal. unfold succ, N. lia.
Qed.

Lemma slots_nodup i n : is_slot i -> Z.of_nat n <= N -> NoDup (slots i n).
Proof.
  intros Hi Hn. apply NoDup_alt. intros a b x Ha Hb. pose proof (lookup_lt_Some _ _ _ Ha) as La. pose proof (lookup_lt_Some _ _ _ Hb) as Lb. rewrite length_slots in La, Lb.
  rewrite slots_lookup in Ha, Hb by done. simplify_eq. unfold is_slot, N in *. lia.
Qed.

Lemma busy_snoc cs leak ss s : s ∈ busy cs (leak ++ ss) <-> s ∈ busy cs leak \/ s ∈ ss.
Proof. unfold busy. rewrite !elem_of_app. tauto. Qed.

Lemma bufs_ok_cons d d2 bufs : bufs_ok (d :: d2 :: bufs) -> 0 <= flags d /\ bufs_ok (d2 :: bufs).
Proof. intros [_ [Hd HF]%Forall_cons]. split; [destruct Hd as [-> | ->]; done|]. by split. Qed.

(** Descriptors are taken from the next slots as long as they are free; those that were in use
    stay as they are. *)
Lemma put_chain_ok cs : forall bufs q leak,
  table (desc q) cs leak -> is_slot (idx q) -> bufs_ok bufs -> NoDup (slots (idx q) (length bufs)) ->
  exists ok q' k, put_chain q bufs = Ok (ok, q') /\ (k <= length bufs)%nat /\ table (desc q') cs (leak ++ slots (idx q) k) /\ idx q' = (idx q + Z.of_nat k) mod N /\ same_rings q q' /\
    (forall s, s ∈ busy cs leak -> desc q' !! Z.to_nat s = desc q !! Z.to_nat s) /\
    (if ok then k = length bufs /\ holds_at (desc q') (slots (idx q) k) (place (idx q) bufs) /\ (forall s, s ∈ slots (idx q) k -> s ∉ busy cs leak)
     else (k < length bufs)%nat /\ exists s, s ∈ slots (idx q) (length bufs) /\ s ∈ busy cs leak).
Proof.
  assert (Hid : forall i, is_slot i -> i = (i + Z.of_nat 0) mod N) by (unfold is_slot, N; lia).
  induction bufs as [|d [|d2 bufs] IH]; intros q leak Ht Hi Hb Hnd.
  - by destruct Hb.
  - assert (Hfd : 0 <= flags d) by (destruct Hb as [_ [[-> | ->] _]%Forall_cons]; done). cbn [put_chain].
    destruct (desc_new_ok q cs leak d VRING_DESC_F_WRITE Ht Hi Hfd) as [[Hin ->]|(Hout & q' & -> & Ed & Ht' & Ei & Hr)]; [by right| |].
    + exists false, q, 0%nat. split; [done|]. split; [cbn; lia|]. split; [by rewrite app_nil_r|]. split; [by apply Hid|]. split; [done|]. split; [done|]. split; [cbn; lia|]. exists (idx q). split; [left|done].
    + exists true, q', 1%nat. split; [done|]. split; [cbn; lia|]. split; [done|]. split; [exact Ei|]. split; [done|]. split; [|split; [done|split]].
      * intros s Hs. rewrite Ed. apply list_lookup_insert_ne. intros E. apply Hout. pose proof (tb_range _ _ _ Ht) as HF. eapply Forall_forall in HF; [|exact Hs]. unfold is_slot in *. by replace (idx q) with s by lia.
      * constructor; [|constructor]. rewrite Ed. apply list_lookup_insert_eq. rewrite (tb_len _ _ _ Ht). unfold is_slot, N in *. lia.
      * by intros s ->%list_elem_of_singleton.
  - apply bufs_ok_cons in Hb as [Hfd Hb]. cbn [put_chain]. cbn [length slots] in Hnd. apply NoDup_cons in Hnd as [Hni Hnd].
    destruct (desc_new_ok q cs leak d VRING_DESC_F_NEXT Ht Hi Hfd) as [[Hin ->]|(Hout & q1 & -> & Ed & Ht1 & Ei & Hr)]; [by left| |]; cbn [res_bind negb].
    + exists false, q, 0%nat. split; [done|]. split; [cbn; lia|]. split; [by rewrite app_nil_r|]. split; [by apply Hid|]. split; [done|]. split; [done|]. split; [cbn; lia|]. exists (idx q). split; [left|done].
    + destruct (IH q1 (leak ++ [idx q]) Ht1) as (ok & q' & k & E & Hk & Ht' & Hi' & Hr' & Hsame & Hok); [rewrite Ei; apply succ_slot|done|by rewrite Ei|].
      change (match bufs with [] => virtio_desc_new q1 d2 VRING_DESC_F_WRITE | _ :: _ => _ end) with (put_chain q1 (d2 :: bufs)). rewrite E, Ei in *. exists ok, q', (S k). split; [done|].
      split; [cbn [length] in *; lia|]. split; [by rewrite <- app_assoc in Ht'|]. split; [rewrite Hi'; unfold succ, N; lia|]. split; [by eapply same_rings_trans|].
      assert (Hidx : desc q' !! Z.to_nat (idx q) = desc q1 !! Z.to_nat (idx q)) by (apply Hsame, busy_snoc; right; left).
      split; [|destruct ok].
      * intros s Hs. rewrite Hsame by (apply busy_snoc; by left). rewrite Ed. apply list_lookup_insert_ne. intros E2. apply Hout. pose proof (tb_range _ _ _ Ht) as HF.
        eapply Forall_forall in HF; [|exact Hs]. unfold is_slot in *. by replace (idx q) with s by lia.
      * destruct Hok as (-> & Hh & Hfree). split; [done|]. split.
        -- rewrite place_cons. constructor; [|exact Hh]. rewrite Hidx, Ed. apply list_lookup_insert_eq. rewrite (tb_len _ _ _ Ht). unfold is_slot, N in *. lia.
        -- intros s [->|Hs]%elem_of_cons; [done|]. intros Hin. apply (Hfree s Hs), busy_snoc. by left.
      * destruct Hok as (Hkl & s & Hs & Hin). split; [cbn [length] in *; lia|]. exists s. split; [right; exact Hs|]. apply busy_snoc in Hin as [?| ->%list_elem_of_singleton]; [done|]. by destruct Hni.
Qed.

(** ** Taking back *)

Definition clear (ss : list Z) ds : list vring_desc := foldl (fun ds s => <[Z.to_nat s := no_desc]> ds) ds ss.

Section back.
Context {W : Type} (free_desc : vring_desc -> W -> res W).

(** The driver's function for each of a list of descriptors. *)
Fixpoint run_all (l : list vring_desc) (w : W) : res W := match l with [] => Ok w | d :: l => let* w := free_desc d w in run_all l w end.

Lemma free_chain_ok bufs : forall i fuel ds w,
  bufs_ok bufs -> is_slot i -> NoDup (slots i (length bufs)) -> holds_at ds (slots i (length bufs)) (place i bufs) -> (length bufs <= fuel)%nat ->
  free_chain free_desc fuel i ds w = let* w := run_all (place i bufs) w in Ok (clear (slots i (length bufs)) ds, w).
Proof.
  induction bufs as [|d [|d2 bufs] IH]; intros i fuel ds w Hb Hi Hnd Hh Hf; [by destruct Hb|..]; (destruct fuel as [|fuel]; [cbn in Hf; lia|]).
  - cbn in Hh. inversion Hh as [|? ? ? ? H1 _]; subst. cbn [free_chain]. rewrite H1. cbn [deref res_bind place run_all length slots flags].
    replace (has _ VRING_DESC_F_NEXT) with false by (destruct Hb as [_ [[-> | ->] _]%Forall_cons]; done). cbn [negb]. by destruct (free_desc _ w).
  - rewrite place_cons in *. cbn [length slots] in Hh, Hnd. inversion Hh as [|? ? ? ? H1 H2]; subst. cbn [free_chain]. rewrite H1. cbn [deref res_bind run_all flags next].
    replace (has _ VRING_DESC_F_NEXT) with true by (destruct Hb as [_ [[-> | ->] _]%Forall_cons]; done). cbn [negb].
    apply NoDup_cons in Hnd as [Hni Hnd]. apply bufs_ok_cons in Hb as [_ Hb]. destruct (free_desc _ w) as [w1| |]; [|done|done]. cbn [res_bind].
    rewrite IH; [done|done|apply succ_slot|done| |cbn [length] in *; lia]. apply holds_at_insert; [done|done|apply slots_range, succ_slot|done].
Qed.

End back.

(** Clearing the slots of a command takes it off the table. *)
Lemma insert_fmap ds i d : <[i := d]> ds !! i = (fun _ => d) <$> ds !! i.
Proof.
  destruct (ds !! i) as [x|] eqn:E; cbn; [apply list_lookup_insert_eq; by eapply lookup_lt_Some|]. apply lookup_ge_None. rewrite length_insert. by apply lookup_ge_None.
Qed.

Lemma clear_lookup ss ds i : Forall is_slot ss -> clear ss ds !! i = if bool_decide (Z.of_nat i ∈ ss) then (fun _ => no_desc) <$> ds !! i else ds !! i.
Proof.
  revert ds. induction ss as [|s ss IH]; intros ds HF; [done|]. apply Forall_cons in HF as [Hs HF]. cbn [clear foldl]. fold (clear ss (<[Z.to_nat s := no_desc]> ds)). rewrite IH by done.
  destruct (decide (Z.of_nat i = s)) as [<-|Hne].
  - rewrite (bool_decide_true (Z.of_nat i ∈ Z.of_nat i :: ss)) by left. rewrite Nat2Z.id, insert_fmap. destruct (bool_decide _); [|done]. by destruct (ds !! i).
  - rewrite list_lookup_insert_ne by (unfold is_slot in Hs; lia). replace (bool_decide (Z.of_nat i ∈ s :: ss)) with (bool_decide (Z.of_nat i ∈ ss)); [done|].
    apply bool_decide_ext. rewrite elem_of_cons. tauto.
Qed.

Lemma length_clear ss ds : length (clear ss ds) = length ds.
Proof. revert ds. induction ss as [|s ss IH]; intros ds; [done|]. cbn [clear foldl]. fold (clear ss (<[Z.to_nat s := no_desc]> ds)). by rewrite IH, length_insert. Qed.

Lemma busy_middle cs1 c cs2 leak : busy (cs1 ++ c :: cs2) leak ≡ₚ c_slots c ++ busy (cs1 ++ cs2) leak.
Proof.
  unfold busy. rewrite !fmap_app, fmap_cons, !join_app. change (mjoin (?a :: ?l)) with (a ++ mjoin l). rewrite !app_assoc. do 2 f_equiv. apply Permutation_app_comm.
Qed.

Lemma table_remove ds cs1 c cs2 leak : table ds (cs1 ++ c :: cs2) leak -> table (clear (c_slots c) ds) (cs1 ++ cs2) leak.
Proof.
  intros [H1 H2 H3 H4 H5]. rewrite busy_middle in H2, H3. apply NoDup_app in H2 as (Hn1 & Hdisj & Hn2). apply Forall_app in H3 as [Hr1 Hr2].
  split; [by rewrite length_clear|done|done| |].
  - apply Forall_forall. intros c' Hc'. assert (Hin : c' ∈ cs1 ++ c :: cs2) by (apply elem_of_app in Hc' as [?|?]; apply elem_of_app; [by left|right; by right]).
    eapply Forall_forall in H4 as [Hb Hh]; [|exact Hin]. split; [done|]. eapply Forall2_impl; [|intros s d Hs; exact Hs]. 
    unfold holds_at in Hh. apply Forall2_same_length_lookup_2; [by eapply Forall2_length|]. intros k s d Hs Hd. eapply Forall2_lookup_lr in Hh; [|done|done].
    assert (Hsb : s ∈ busy (cs1 ++ cs2) leak) by (eapply busy_chain; [exact Hc'|by eapply list_elem_of_lookup_2]).
    assert (Hs0 : is_slot s) by (eapply Forall_forall in Hr2; [exact Hr2|done]). rewrite clear_lookup by done. rewrite Z2Nat.id by apply Hs0. rewrite bool_decide_false; [done|]. intros Hx. by eapply Hdisj.
  - intros i d Hi. rewrite clear_lookup in Hi by done. case_bool_decide as Hx.
    + destruct (ds !! i) as [d'|]; [|done]. cbn in Hi. simplify_eq. split; [done|]. intros Hb. exfalso. by eapply Hdisj.
    + rewrite (H5 i d Hi), busy_middle, elem_of_app. tauto.
Qed.

(** ** Queues *)

Lemma table_perm ds cs cs' leak : cs ≡ₚ cs' -> table ds cs leak -> table ds cs' leak.
Proof.
  intros Hp [H1 H2 H3 H4 H5]. assert (Hb : busy cs leak ≡ₚ busy cs' leak) by (unfold busy; by rewrite Hp).
  split; [done|by rewrite <- Hb|by rewrite <- Hb|by rewrite <- Hp|]. intros i d Hi. rewrite <- Hb. by apply H5.
Qed.

Lemma slots_count l : NoDup l -> Forall is_slot l -> (length l <= Z.to_nat N)%nat.
Proof.
  intros Hn HF. assert (Hs : l ⊆+ (Z.of_nat <$> seq 0 (Z.to_nat N))).
  { apply NoDup_submseteq; [done|]. intros x Hx. eapply Forall_forall in HF; [|exact Hx]. apply list_elem_of_fmap. exists (Z.to_nat x). unfold is_slot, N in *. split; [lia|]. apply elem_of_seq. lia. }
  apply submseteq_length in Hs. by rewrite length_fmap, length_seq in Hs.
Qed.

(** There are no more commands than descriptors. *)
Lemma table_count ds cs leak : table ds cs leak -> Z.of_nat (length cs) <= N.
Proof.
  intros [_ H2 H3 H4 _]. pose proof (slots_count _ H2 H3) as Hc. unfold busy in Hc. rewrite length_app in Hc. enough (length cs <= length (mjoin (c_slots <$> cs)))%nat by (unfold N in *; lia). clear -H4.
  induction cs as [|c cs IH]; [done|]. apply Forall_cons in H4 as [[[Hb _] _] H4]. rewrite fmap_cons. change (mjoin (?a :: ?l)) with (a ++ mjoin l). rewrite length_app. unfold c_slots at 1. rewrite length_slots.
  specialize (IH H4). destruct (c_bufs c); [done|]. cbn. lia.
Qed.

Record queue_ok (q : virtio_queue_t) (seen : Z) (pend work fin : list command) (leak : list Z) : Prop := mk_queue_ok {
  qk_table : table (desc q) (pend ++ work ++ fin) leak;
  qk_idx : is_slot (idx q);
  qk_avail : length (avail_ring q) = Z.to_nat N;
  qk_seen : 0 <= seen < 2 ^ 16;
  qk_avail_idx : avail_idx q = wrap 16 (seen + Z.of_nat (length pend));
  qk_pend k c : pend !! k = Some c -> avail_ring q !! Z.to_nat ((seen + Z.of_nat k) mod N) = Some (c_head c);
  qk_used : length (used_ring q) = Z.to_nat N;
  qk_ack : 0 <= ack_used_idx q < 2 ^ 16;
  qk_used_idx : used_idx q = wrap 16 (ack_used_idx q + Z.of_nat (length fin));
  qk_fin k c : fin !! k = Some c -> exists n, used_ring q !! Z.to_nat ((ack_used_idx q + Z.of_nat k) mod N) = Some (c_head c, n);
}.

(** The indexes wrap around at a multiple of the size of the rings. *)
Lemma wrap_mod x : wrap 16 x mod N = x mod N.
Proof. unfold wrap, N. change (2 ^ 16) with 65536. lia. Qed.

Lemma wrap_succ x n : wrap 16 (wrap 16 x + n) = wrap 16 (x + n).
Proof. unfold wrap. change (2 ^ 16) with 65536. lia. Qed.

(** A new entry behind the last one of a ring keeps those before it. *)
Lemma ring_push {A} (l : list A) start n k (x : A) :
  length l = Z.to_nat N -> 0 <= start -> (k < n)%nat -> Z.of_nat n < N ->
  <[Z.to_nat ((start + Z.of_nat n) mod N) := x]> l !! Z.to_nat ((start + Z.of_nat k) mod N) = l !! Z.to_nat ((start + Z.of_nat k) mod N).
Proof. intros Hl Hs Hk Hn. apply list_lookup_insert_ne. unfold N in *. lia. Qed.

Lemma ring_last {A} (l : list A) i (x : A) : length l = Z.to_nat N -> <[Z.to_nat (i mod N) := x]> l !! Z.to_nat (i mod N) = Some x.
Proof. intros Hl. apply list_lookup_insert_eq. rewrite Hl. unfold N. lia. Qed.

(** The number of descriptors that a call has filled. *)
Definition filled (q q' : virtio_queue_t) : nat := Z.to_nat ((idx q' - idx q) mod N).

Lemma send_ok q seen pend work fin leak bufs :
  queue_ok q seen pend work fin leak -> bufs_ok bufs -> Z.of_nat (length bufs) <= N ->
  exists ok q', send q bufs = Ok (ok, q') /\
    if ok then queue_ok q' seen (pend ++ [mk_command (idx q) bufs]) work fin leak /\
               (forall s, s ∈ slots (idx q) (length bufs) -> s ∉ busy (pend ++ work ++ fin) leak)
    else queue_ok q' seen pend work fin (leak ++ slots (idx q) (filled q q')) /\
         exists s, s ∈ slots (idx q) (length bufs) /\ s ∈ busy (pend ++ work ++ fin) leak.
Proof.
  intros [H1 H2 H3 H4 H5 H6 H7 H8 H9 H10] Hb Hn. unfold send.
  destruct (put_chain_ok (pend ++ work ++ fin) bufs q leak H1 H2 Hb) as (ok & q' & k & -> & Hk & Ht & Hidx & (E1 & E2 & E3 & E4 & E5) & Hsame & Hok); [by apply slots_nodup|]. cbn [res_bind].
  assert (Hi : is_slot (idx q')) by (rewrite Hidx; unfold is_slot, N; lia).
  destruct ok; cbn [negb].
  - destruct Hok as (-> & Hh & Hfree). eexists _, _. split; [done|]. split; [|done]. set (c := mk_command (idx q) bufs).
    assert (Ht' : table (desc q') ((pend ++ [c]) ++ work ++ fin) leak).
    { apply (table_perm _ ((pend ++ work ++ fin) ++ [c])); [|apply table_command; [exact Ht|done|exact Hh]]. rewrite <- !app_assoc. f_equiv. rewrite (app_assoc work). apply Permutation_app_comm. }
    pose proof (table_count _ _ _ Ht') as Hcount. rewrite !length_app in Hcount. cbn [length] in Hcount. unfold is_slot, N in H2.
    split; cbn [desc idx avail_ring avail_idx used_ring used_idx ack_used_idx virtio_avail_new]; rewrite ?E1, ?E2, ?E3, ?E4, ?E5; try done.
    + by rewrite length_insert.
    + rewrite length_app, H5, wrap_succ. f_equal. cbn [length]. lia.
    + intros j c' Hj. change VIRTIO_RING_SIZE with N. rewrite H5, wrap_mod, (wrap_small 16 (idx q)) by lia. apply lookup_app_Some in Hj as [Hj|[Hj Hlast]].
      * rewrite ring_push; [by apply H6|done|lia|by eapply lookup_lt_Some|lia].
      * destruct (j - length pend)%nat as [|m] eqn:Ej; [|done]. cbn in Hlast. simplify_eq. replace j with (length pend) by lia. by apply ring_last.
  - destruct Hok as [Hkl Hok]. exists false, q'. split; [done|]. split; [|done].
    replace (filled q q') with k by (unfold filled; rewrite Hidx; unfold is_slot, N in *; lia). split; rewrite ?E1, ?E2, ?E3, ?E4, ?E5; done.
Qed.

(** The device takes the oldest command that it has not seen. *)
Lemma take_ok q seen c pend work fin leak :
  queue_ok q seen (c :: pend) work fin leak ->
  seen <> avail_idx q /\ avail_ring q !! Z.to_nat (seen mod N) = Some (c_head c) /\ holds_at (desc q) (c_slots c) (c_descs c) /\
  queue_ok q (wrap 16 (seen + 1)) pend (work ++ [c]) fin leak.
Proof.
  intros [H1 H2 H3 H4 H5 H6 H7 H8 H9 H10]. pose proof (table_count _ _ _ H1) as Hc. rewrite length_app in Hc. cbn [length] in *. split_and!.
  - rewrite H5. unfold N in Hc. intros E. unfold wrap in E. change (2 ^ 16) with 65536 in *. lia.
  - specialize (H6 0%nat c eq_refl). by rewrite Z.add_0_r in H6.
  - pose proof (tb_chain _ _ _ H1) as [[_ Hh] _]%Forall_cons. exact Hh.
  - split; try done.
    + eapply table_perm; [|exact H1]. rewrite <- app_assoc. cbn. rewrite !app_assoc. apply Permutation_middle.
    + apply (wrap_range 16). lia.
    + rewrite H5, wrap_succ. f_equal. lia.
    + intros k c' Hk. specialize (H6 (S k) c' Hk). rewrite Zplus_mod, wrap_mod, <- Zplus_mod. by replace (seen + 1 + Z.of_nat k) with (seen + Z.of_nat (S k)) by lia.
Qed.

(** What the device does when it returns a chain. *)
Definition device_returns (q : virtio_queue_t) (head n : Z) : virtio_queue_t :=
  mk_queue (desc q) (avail_idx q) (avail_ring q) (wrap 16 (used_idx q + 1)) (<[Z.to_nat (used_idx q mod N) := (head, n)]> (used_ring q)) (idx q) (ack_used_idx q).

Lemma return_ok q seen pend w1 c w2 fin leak n :
  queue_ok q seen pend (w1 ++ c :: w2) fin leak -> queue_ok (device_returns q (c_head c) n) seen pend (w1 ++ w2) (fin ++ [c]) leak.
Proof.
  intros [H1 H2 H3 H4 H5 H6 H7 H8 H9 H10]. pose proof (table_count _ _ _ H1) as Hc. rewrite !length_app in Hc. cbn [length] in Hc. split; cbn [device_returns desc idx avail_ring avail_idx used_ring used_idx ack_used_idx]; try done.
  - eapply table_perm; [|exact H1]. f_equiv. rewrite <- !app_assoc. f_equiv. cbn. rewrite app_assoc. apply Permutation_cons_append.
  - by rewrite length_insert.
  - rewrite length_app, H9, wrap_succ. f_equal. cbn [length]. lia.
  - intros j c' Hj. rewrite H9, wrap_mod. apply lookup_app_Some in Hj as [Hj|[Hj Hlast]].
    + rewrite ring_push; [by apply H10|done|lia|by eapply lookup_lt_Some|lia].
    + destruct (j - length fin)%nat as [|m] eqn:Ej; [|done]. cbn in Hlast. simplify_eq. replace j with (length fin) by lia. exists n. by apply ring_last.
Qed.

(** One turn of the interrupt handler gives the driver's function the descriptors of the command
    that came back first. *)
Lemma irq_one_ok {W : Type} (free_desc : vring_desc -> W -> res W) q seen pend work c fin leak w :
  queue_ok q seen pend work (c :: fin) leak ->
  ack_used_idx q <> used_idx q /\
  exists q', irq_one free_desc q w = (let* w := run_all free_desc (c_descs c) w in Ok (q', w)) /\ queue_ok q' seen pend work fin leak /\ used_idx q' = used_idx q.
Proof.
  intros [H1 H2 H3 H4 H5 H6 H7 H8 H9 H10]. pose proof (table_count _ _ _ H1) as Hc. rewrite !length_app in Hc. cbn [length] in *. unfold N in Hc. split.
  { rewrite H9. intros E. unfold wrap in E. change (2 ^ 16) with 65536 in *. lia. }
  unfold irq_one. destruct (H10 0%nat c eq_refl) as [n Hn]. rewrite Z.add_0_r in Hn. change VIRTIO_RING_SIZE with N. rewrite Hn. cbn [deref res_bind].
  assert (Hin : c ∈ pend ++ work ++ c :: fin) by (rewrite !elem_of_app, elem_of_cons; tauto). pose proof (tb_chain _ _ _ H1) as HF. eapply Forall_forall in HF as [Hb Hh]; [|exact Hin].
  rewrite app_assoc in H1. pose proof (tb_nodup _ _ _ H1) as Hnd. pose proof (tb_range _ _ _ H1) as Hr. rewrite busy_middle in Hnd, Hr. apply NoDup_app in Hnd as (Hnd & _ & _). apply Forall_app in Hr as [Hr _].
  assert (Hlen : (length (c_bufs c) <= chain_fuel)%nat). { pose proof (slots_count _ Hnd Hr) as Hl. unfold c_slots in Hl. rewrite length_slots in Hl. unfold chain_fuel. change VIRTIO_RING_SIZE with N. lia. }
  assert (Hhead : is_slot (c_head c)) by (destruct Hb as [Hne _]; unfold c_slots in Hr; destruct (c_bufs c); [done|]; cbn in Hr; by apply Forall_cons in Hr as [? _]).
  rewrite (free_chain_ok free_desc (c_bufs c)) by done. fold (c_descs c) (c_slots c).
  eexists (mk_queue _ _ _ _ _ _ _). split; [by destruct (run_all free_desc (c_descs c) w)|]. split; [|done]. split; cbn [desc idx avail_ring avail_idx used_ring used_idx ack_used_idx]; try done.
  - rewrite app_assoc. by apply table_remove.
  - apply (wrap_range 16). lia.
  - rewrite H9, wrap_succ. f_equal. lia.
  - intros k c' Hk. destruct (H10 (S k) c' Hk) as [m Hm]. exists m. rewrite Zplus_mod, wrap_mod, <- Zplus_mod. by replace (ack_used_idx q + 1 + Z.of_nat k) with (ack_used_idx q + Z.of_nat (S k)) by lia.
Qed.
