(* ===== verification/VirtioTheorems.v ===== *)
(** * VirtioTheorems: the guarantees of driver/virtio/virtio.c

    A driver that sends, a device that takes commands and returns them in any order, and the
    interrupt handler, in any order of steps. *)

From S2P Require Import Prelude Bits Vfs Virtio VirtioProof.

#[local] Ltac Zify.zify_post_hook ::= Z.div_mod_to_equations.

(** ** The whole interrupt handler *)

Lemma run_all_app {W : Type} (f : vring_desc -> W -> res W) l1 l2 w : run_all f (l1 ++ l2) w = let* w := run_all f l1 w in run_all f l2 w.
Proof. revert w. induction l1 as [|d l1 IH]; intros w; [done|]. cbn. destruct (f d w); cbn [res_bind]; [apply IH|done|done]. Qed.

Lemma irq_loop_ok {W : Type} (f : vring_desc -> W -> res W) seen pend work leak : forall fin fuel q w,
  queue_ok q seen pend work fin leak -> (length fin <= fuel)%nat ->
  exists q', queue_ok q' seen pend work [] leak /\ ack_used_idx q' = used_idx q' /\
    irq_loop f fuel q w = (let* w := run_all f (mjoin (c_descs <$> fin)) w in Ok (q', w)).
Proof.
  induction fin as [|c fin IH]; intros fuel q w Hq Hf.
  - exists q. split; [done|]. assert (E : ack_used_idx q = used_idx q) by (rewrite (qk_used_idx _ _ _ _ _ _ Hq); cbn; rewrite Z.add_0_r, wrap_small; [done|apply Hq]).
    split; [done|]. destruct fuel; cbn; by rewrite (proj2 (Z.eqb_eq _ _) E).
  - destruct fuel as [|fuel]; [cbn in Hf; lia|]. destruct (irq_one_ok f q seen pend work c fin leak w Hq) as (Hne & q1 & E1 & Hq1 & _).
    cbn [irq_loop]. rewrite (proj2 (Z.eqb_neq _ _) Hne), E1. change (mjoin (c_descs <$> c :: fin)) with (c_descs c ++ mjoin (c_descs <$> fin)). rewrite run_all_app.
    destruct (run_all f (c_descs c) w) as [w1| |]; cbn [res_bind].
    + destruct (IH fuel q1 w1 Hq1) as (q' & Hq' & E & ->); [cbn in Hf; lia|]. by exists q'.
    + destruct (IH fuel q1 w Hq1) as (q' & Hq' & E & _); [cbn in Hf; lia|]. by exists q'.
    + destruct (IH fuel q1 w Hq1) as (q' & Hq' & E & _); [cbn in Hf; lia|]. by exists q'.
Qed.

Lemma irq_handler_ok {W : Type} (f : vring_desc -> W -> res W) seen pend work leak fin q w :
  queue_ok q seen pend work fin leak ->
  exists q', queue_ok q' seen pend work [] leak /\ ack_used_idx q' = used_idx q' /\
    virtio_device_irq_handler f q w = (let* w := run_all f (mjoin (c_descs <$> fin)) w in Ok (q', w)).
Proof.
  intros Hq. apply irq_loop_ok; [done|]. pose proof (table_count _ _ _ (qk_table _ _ _ _ _ _ Hq)) as Hc. rewrite !length_app in Hc. unfold irq_fuel, N in *. lia.
Qed.

(** ** Drivers and devices *)

(** The calls that a driver makes. *)
Definition driver_send (q : virtio_queue_t) (bufs : list vring_desc) : res (bool * virtio_queue_t) :=
  match bufs with
  | [r] => virtio_send_command_1 q r
  | [d; r] => virtio_send_command_2 q d r
  | [d1; d2; r] => virtio_send_command_3 q d1 d2 r
  | _ => Undef
  end.

Definition sendable (bufs : list vring_desc) : Prop := bufs_ok bufs /\ (length bufs <= 3)%nat.

Lemma driver_send_eq q bufs : sendable bufs -> driver_send q bufs = send q bufs.
Proof.
  intros [[Hne _] Hl]. destruct bufs as [|d1 [|d2 [|d3 [|d4 bufs]]]]; [done|apply send_1|apply send_2|apply send_3|cbn in Hl; lia].
Qed.

(** A device follows a chain from its head. *)
Fixpoint read_chain (fuel : nat) (i : Z) (ds : list vring_desc) : option (list vring_desc) :=
  match fuel with
  | O => None
  | S fuel => match ds !! Z.to_nat i with
              | None => None
              | Some d => if has (flags d) VRING_DESC_F_NEXT then cons d <$> read_chain fuel (next d) ds else Some [d]
              end
  end.

Lemma read_chain_ok ds bufs : forall i fuel,
  bufs_ok bufs -> holds_at ds (slots i (length bufs)) (place i bufs) -> (length bufs <= fuel)%nat -> read_chain fuel i ds = Some (place i bufs).
Proof.
  induction bufs as [|d [|d2 bufs] IH]; intros i fuel Hb Hh Hf; [by destruct Hb|..]; (destruct fuel as [|fuel]; [cbn in Hf; lia|]).
  - cbn in Hh. inversion Hh as [|? ? ? ? H1 _]; subst. cbn [read_chain]. rewrite H1. cbn [flags].
    replace (has _ VRING_DESC_F_NEXT) with false by (destruct Hb as [_ [[-> | ->] _]%Forall_cons]; done). done.
  - rewrite place_cons in *. cbn [length slots] in Hh. inversion Hh as [|? ? ? ? H1 H2]; subst. cbn [read_chain]. rewrite H1. cbn [flags next].
    replace (has _ VRING_DESC_F_NEXT) with true by (destruct Hb as [_ [[-> | ->] _]%Forall_cons]; done). apply bufs_ok_cons in Hb as [_ Hb].
    rewrite IH; [done|done|done|cbn [length] in *; lia].
Qed.

(** The queue, what the device has (its place in the ring [avail] and the chains that it has read
    and not returned), and a record of the commands that were accepted, of the descriptors
    that came back to the driver, and of the slots that refused calls had filled before they
    met one in use. *)
Record system := mk_system {
  s_q : virtio_queue_t;
  s_seen : Z;
  s_taken : list (Z * list vring_desc);
  s_sent : list command;
  s_back : list vring_desc;
  s_leak : list Z;
}.

Definition log_desc (d : vring_desc) (w : list vring_desc) : res (list vring_desc) := Ok (w ++ [d]).

Inductive sys_step : system -> system -> Prop :=
| step_send bufs ok q q' seen taken sent back leak :
    sendable bufs -> driver_send q bufs = Ok (ok, q') ->
    sys_step (mk_system q seen taken sent back leak)
      (if ok : bool then mk_system q' seen taken (sent ++ [mk_command (idx q) bufs]) back leak
       else mk_system q' seen taken sent back (leak ++ slots (idx q) (filled q q')))
| step_take head ds q seen taken sent back leak :
    seen <> avail_idx q -> avail_ring q !! Z.to_nat (seen mod N) = Some head -> read_chain chain_fuel head (desc q) = Some ds ->
    sys_step (mk_system q seen taken sent back leak) (mk_system q (wrap 16 (seen + 1)) (taken ++ [(head, ds)]) sent back leak)
| step_return head ds n q seen t1 t2 sent back leak :
    sys_step (mk_system q seen (t1 ++ (head, ds) :: t2) sent back leak) (mk_system (device_returns q head n) seen (t1 ++ t2) sent back leak)
| step_irq q q' seen taken sent back back' leak :
    ack_used_idx q <> used_idx q -> irq_one log_desc q back = Ok (q', back') ->
    sys_step (mk_system q seen taken sent back leak) (mk_system q' seen taken sent back' leak).

(** A queue as [virtio_mmio_queue_set] leaves it, cleared by [calloc]. *)
Definition new_queue : virtio_queue_t := mk_queue (replicate 128 no_desc) 0 (replicate 128 0) 0 (replicate 128 (0, 0)) 0 0.

Inductive sys_reachable : system -> Prop :=
| reach_start : sys_reachable (mk_system new_queue 0 [] [] [] [])
| reach_step s s' : sys_reachable s -> sys_step s s' -> sys_reachable s'.

Definition chain_of (c : command) : Z * list vring_desc := (c_head c, c_descs c).

Record sys_ok (s : system) (pend work fin ret past : list command) : Prop := mk_sys_ok {
  so_queue : queue_ok (s_q s) (s_seen s) pend work fin (s_leak s);
  so_sent : s_sent s ≡ₚ ret ++ fin ++ work ++ pend;
  so_order : s_sent s = past ++ pend;
  so_taken : s_taken s = chain_of <$> work;
  so_back : s_back s = mjoin (c_descs <$> ret);
}.

Lemma run_log l w : run_all log_desc l w = Ok (w ++ l).
Proof. revert w. induction l as [|d l IH]; intros w; cbn; [by rewrite app_nil_r|]. by rewrite IH, <- app_assoc. Qed.

Lemma new_queue_ok : queue_ok new_queue 0 [] [] [] [].
Proof.
  split; cbn [new_queue desc idx avail_ring avail_idx used_ring used_idx ack_used_idx app]; try done.
  split; [done|constructor|constructor|constructor|]. intros i d [-> _]%lookup_replicate. split; [done|]. by intros ?%elem_of_nil.
Qed.

Lemma pend_empty q seen work fin leak : queue_ok q seen [] work fin leak -> seen = avail_idx q.
Proof. intros Hq. rewrite (qk_avail_idx _ _ _ _ _ _ Hq). cbn. rewrite Z.add_0_r, wrap_small; [done|apply Hq]. Qed.
Lemma fin_empty q seen pend work leak : queue_ok q seen pend work [] leak -> ack_used_idx q = used_idx q.
Proof. intros Hq. rewrite (qk_used_idx _ _ _ _ _ _ Hq). cbn. rewrite Z.add_0_r, wrap_small; [done|apply Hq]. Qed.

Lemma chain_fuel_ok q seen pend work fin leak c : queue_ok q seen pend work fin leak -> c ∈ pend ++ work ++ fin ->
  bufs_ok (c_bufs c) /\ (length (c_bufs c) <= chain_fuel)%nat.
Proof.
  intros Hq Hc. pose proof (qk_table _ _ _ _ _ _ Hq) as Ht. pose proof (tb_chain _ _ _ Ht) as HF. eapply Forall_forall in HF as [Hb _]; [|exact Hc]. split; [done|].
  apply list_elem_of_split in Hc as (l1 & l2 & E). rewrite E in Ht. pose proof (tb_nodup _ _ _ Ht) as Hnd. pose proof (tb_range _ _ _ Ht) as Hr.
  rewrite busy_middle in Hnd, Hr. apply NoDup_app in Hnd as (Hnd & _ & _). apply Forall_app in Hr as [Hr _]. pose proof (slots_count _ Hnd Hr) as Hl.
  unfold c_slots in Hl. rewrite length_slots in Hl. unfold chain_fuel. change VIRTIO_RING_SIZE with N. lia.
Qed.

(** The device can always take the next command, and reads what was sent. *)
Lemma take_enabled q seen c pend work fin leak : queue_ok q seen (c :: pend) work fin leak ->
  seen <> avail_idx q /\ avail_ring q !! Z.to_nat (seen mod N) = Some (c_head c) /\ read_chain chain_fuel (c_head c) (desc q) = Some (c_descs c).
Proof.
  intros Hq. destruct (take_ok _ _ _ _ _ _ _ Hq) as (Hne & Hr & Hh & _). split; [done|]. split; [done|]. destruct (chain_fuel_ok _ _ _ _ _ _ c Hq) as [Hb Hl]; [left|]. by apply read_chain_ok.
Qed.

Lemma sys_ok_step s s' : sys_step s s' -> (exists pend work fin ret past, sys_ok s pend work fin ret past) ->
  exists pend work fin ret past, sys_ok s' pend work fin ret past.
Proof.
  intros Hs (pend & work & fin & ret & past & [H1 H2 H3 H4 H5]). destruct Hs as [bufs ok q q' seen taken sent back leak Hb E|head ds q seen taken sent back leak Hne Hr Hc|head ds n q seen t1 t2 sent back leak|q q' seen taken sent back back' leak Hne E]; cbn [s_q s_seen s_taken s_sent s_back s_leak] in *.
  - rewrite driver_send_eq in E by done. destruct (send_ok q seen pend work fin leak bufs H1 (proj1 Hb)) as (ok' & q1 & E1 & Hok); [destruct Hb; unfold N; lia|].
    rewrite E in E1. simplify_eq. destruct ok'.
    + exists (pend ++ [mk_command (idx q) bufs]), work, fin, ret, past. split; cbn; try done; [apply Hok| |by rewrite app_assoc]. by rewrite !app_assoc, H2, !app_assoc.
    + destruct Hok as [Hq _]. by exists pend, work, fin, ret, past.
  - destruct pend as [|c pend]; [by destruct Hne; eapply pend_empty|]. destruct (take_enabled _ _ _ _ _ _ _ H1) as (_ & E1 & E2). rewrite E1 in Hr. injection Hr as <-. rewrite E2 in Hc. injection Hc as <-.
    exists pend, (work ++ [c]), fin, ret, (past ++ [c]). split; cbn; [by apply take_ok in H1 as (_ & _ & _ & ?)| |by rewrite <- app_assoc|by rewrite fmap_app, H4|done]. by rewrite H2, <- !app_assoc.
  - symmetry in H4. apply fmap_app_inv in H4 as (w1 & w2' & -> & E2 & ->). symmetry in E2. apply fmap_cons_inv in E2 as (c & w2 & Ec & -> & ->). unfold chain_of in Ec. simplify_eq.
    exists pend, (w1 ++ w2), (fin ++ [c]), ret, past. split; cbn; [by apply return_ok| |done|by rewrite fmap_app|done]. rewrite H2, <- !app_assoc. cbn. do 2 apply Permutation_app_head. symmetry. apply Permutation_middle.
  - destruct fin as [|c fin]; [by destruct Hne; eapply fin_empty|]. destruct (irq_one_ok log_desc q seen pend work c fin leak back H1) as (_ & q1 & E1 & Hq1 & _). rewrite E, run_log in E1. cbn [res_bind] in E1. simplify_eq.
    exists pend, work, fin, (ret ++ [c]), past. split; cbn; [done| |done|done|]; [by rewrite H2, <- !app_assoc|]. rewrite fmap_app, join_app. cbn. by rewrite app_nil_r.
Qed.

Lemma sys_reachable_ok s : sys_reachable s -> exists pend work fin ret past, sys_ok s pend work fin ret past.
Proof.
  induction 1 as [|s s' _ IH Hs]; [|by eapply sys_ok_step]. exists [], [], [], [], []. split; try done. exact new_queue_ok.
Qed.

(** ** The guarantees *)

(** The slots in use are those of the commands and the leaked ones. *)
Definition in_use (q : virtio_queue_t) (cs : list command) (leak : list Z) : Prop :=
  forall i d, desc q !! i = Some d -> flags d <> 0 <-> Z.of_nat i ∈ busy cs leak.

(** A call is accepted when the next slots, one for each buffer, are free, and only then. *)
Lemma send_iff q seen pend work fin leak bufs :
  queue_ok q seen pend work fin leak -> sendable bufs ->
  exists ok q', driver_send q bufs = Ok (ok, q') /\ (ok = true <-> forall s, s ∈ slots (idx q) (length bufs) -> s ∉ busy (pend ++ work ++ fin) leak).
Proof.
  intros Hq Hb. rewrite driver_send_eq by done. destruct (send_ok q seen pend work fin leak bufs Hq (proj1 Hb)) as (ok & q' & E & Hok); [destruct Hb; unfold N; lia|].
  exists ok, q'. split; [done|]. destruct ok; [by destruct Hok|]. destruct Hok as [_ (s & Hs & Hin)]. split; [done|]. intros Hall. by destruct (Hall s Hs).
Qed.

(** C34. Nothing is lost or duplicated in a queue.  Whatever the order in which a driver sends
    commands of one to three buffers, the device takes and returns them, and the interrupt
    handler runs: each command that was accepted is, exactly once, waiting for the device, with
    the device, returned, or back at the driver.  The device gets the commands in the order in
    which they were sent and reads the buffers as they were given; the next one can always be
    read.  The slots in use are, each once, those of the commands that wait, are with the
    device or are returned, and those that refused calls had filled; a call is accepted
    exactly when the next slots, one for each buffer, are not among them.  The handler ends,
    gives the driver's function all descriptors of the commands that came back, in their
    order, and frees their slots. *)
Theorem virtio_ring_exact s :
  sys_reachable s ->
  exists pend work fin ret past,
    s_sent s ≡ₚ ret ++ fin ++ work ++ pend /\ s_sent s = past ++ pend /\
    s_taken s = chain_of <$> work /\ s_back s = mjoin (c_descs <$> ret) /\
    NoDup (busy (pend ++ work ++ fin) (s_leak s)) /\ in_use (s_q s) (pend ++ work ++ fin) (s_leak s) /\
    (forall bufs, sendable bufs -> exists ok q', driver_send (s_q s) bufs = Ok (ok, q') /\
       (ok = true <-> forall i, i ∈ slots (idx (s_q s)) (length bufs) -> i ∉ busy (pend ++ work ++ fin) (s_leak s))) /\
    match pend with
    | [] => s_seen s = avail_idx (s_q s)
    | c :: _ => exists s', sys_step s s' /\ s_taken s' = s_taken s ++ [chain_of c]
    end /\
    exists q', virtio_device_irq_handler log_desc (s_q s) (s_back s) = Ok (q', s_back s ++ mjoin (c_descs <$> fin)) /\ ack_used_idx q' = used_idx q' /\
      in_use q' (pend ++ work) (s_leak s).
Proof.
  intros Hr. destruct (sys_reachable_ok s Hr) as (pend & work & fin & ret & past & [H1 H2 H3 H4 H5]). exists pend, work, fin, ret, past. split; [done|]. split; [done|]. split; [done|]. split; [done|].
  pose proof (qk_table _ _ _ _ _ _ H1) as Ht. split; [exact (tb_nodup _ _ _ Ht)|]. split; [exact (tb_free _ _ _ Ht)|]. split; [intros bufs Hb; by eapply send_iff|]. split.
  - destruct pend as [|c pend]; [by eapply pend_empty|]. destruct (take_enabled _ _ _ _ _ _ _ H1) as (E1 & E2 & E3). destruct s as [q seen taken sent back leak].
    eexists. split; [by apply step_take|done].
  - destruct (irq_handler_ok log_desc _ _ _ _ _ _ (s_back s) H1) as (q' & Hq' & E & ->). exists q'. rewrite run_log. split; [done|]. split; [done|].
    pose proof (tb_free _ _ _ (qk_table _ _ _ _ _ _ Hq')) as Hf. by rewrite app_nil_r in Hf.
Qed.

(** When a command is accepted.  A driver's call is accepted if and only if the next
    descriptors, as many as the command has buffers, are all free: the others that are free do
    not count.  A call that is refused half way keeps the descriptors that it has filled. *)
Theorem virtio_send_accepted q seen pend work fin leak bufs :
  queue_ok q seen pend work fin leak -> sendable bufs ->
  exists ok q', driver_send q bufs = Ok (ok, q') /\
    (ok = true <-> forall s d, s ∈ slots (idx q) (length bufs) -> desc q !! Z.to_nat s = Some d -> flags d = 0) /\
    if ok then queue_ok q' seen (pend ++ [mk_command (idx q) bufs]) work fin leak
    else queue_ok q' seen pend work fin (leak ++ slots (idx q) (filled q q')).
Proof.
  intros Hq Hb. rewrite driver_send_eq by done. destruct (send_ok q seen pend work fin leak bufs Hq (proj1 Hb)) as (ok & q' & E & Hok); [destruct Hb; unfold N; lia|].
  exists ok, q'. split; [done|]. pose proof (qk_table _ _ _ _ _ _ Hq) as Ht. pose proof (slots_range (idx q) (length bufs) (qk_idx _ _ _ _ _ _ Hq)) as HF.
  assert (Hbusy : forall s d, s ∈ slots (idx q) (length bufs) -> desc q !! Z.to_nat s = Some d -> flags d <> 0 <-> s ∈ busy (pend ++ work ++ fin) leak).
  { intros s d Hs Hd. eapply Forall_forall in HF; [|exact Hs]. rewrite (tb_free _ _ _ Ht _ _ Hd). by rewrite Z2Nat.id by apply HF. }
  destruct ok.
  - destruct Hok as [Hq' Hfree]. split; [|done]. split; [|done]. intros _ s d Hs Hd. specialize (Hbusy s d Hs Hd). specialize (Hfree s Hs). destruct (Z.eq_dec (flags d) 0); tauto.
  - destruct Hok as [Hq' (s & Hs & Hin)]. split; [|done]. split; [done|]. intros Hall. exfalso. eapply Forall_forall in HF; [|exact Hs]. destruct (slot_lookup _ _ (tb_len _ _ _ Ht) HF) as [d Hd].
    apply (proj2 (Hbusy s d Hs Hd)) in Hin. by apply Hin, (Hall s).
Qed.

(** ** Two commands in a queue *)

Module Ring.
Definition event (a : Z) : vring_desc := VRING_DESC a 8.
Definition request : list vring_desc := [VRING_DESC 4096 16; VRING_DESC_LEN_FLAG 8192 512 VRING_DESC_F_WRITE; VRING_DESC 12288 1].

Definition queue_of (r : res (bool * virtio_queue_t)) : virtio_queue_t := match r with Ok (_, q) => q | _ => new_queue end.
Definition q1 : virtio_queue_t := queue_of (driver_send new_queue request).
Definition q2 : virtio_queue_t := queue_of (driver_send q1 [event 16]).

Definition sent_two : system := mk_system q2 0 [] [mk_command 0 request; mk_command 3 [event 16]] [] [].

Lemma request_sendable : sendable request.
Proof. split; [|cbn; lia]. split; [done|]. repeat constructor; by (left + right). Qed.
Lemma event_sendable a : sendable [event a].
Proof. split; [|cbn; lia]. split; [done|]. constructor; [by left|constructor]. Qed.

Lemma sent_two_reachable : sys_reachable sent_two.
Proof.
  eapply reach_step; [eapply reach_step; [apply reach_start|]|].
  - apply (step_send request true); [apply request_sendable|]. vm_compute. reflexivity.
  - apply (step_send [event 16] true q1 q2); [apply event_sendable|]. vm_compute. reflexivity.
Qed.

(** What the device reads of the two, and its return of the second. *)
Definition chain_at (i : Z) : list vring_desc := default [] (read_chain chain_fuel i (desc q2)).
Definition second_back : system :=
  mk_system (device_returns q2 3 0) 2 [(0, chain_at 0)] [mk_command 0 request; mk_command 3 [event 16]] [] [].

Lemma second_back_reachable : sys_reachable second_back.
Proof.
  eapply reach_step; [eapply reach_step; [eapply reach_step; [apply sent_two_reachable|]|]|].
  - apply (step_take 0 (chain_at 0)); vm_compute; [discriminate|reflexivity|reflexivity].
  - apply (step_take 3 (chain_at 3) q2 1); vm_compute; [discriminate|reflexivity|reflexivity].
  - apply (step_return 3 (chain_at 3) 0 q2 2 [(0, chain_at 0)] []).
Qed.
End Ring.

(** The device has taken the two and returned the second; the handler frees its slot, so that
    the first and the next are what is left in use. *)
Lemma virtio_ring_exact_witness :
  exists q', virtio_device_irq_handler log_desc (s_q Ring.second_back) [] = Ok (q', [mk_desc 16 8 VRING_DESC_F_WRITE 0]) /\
    (exists d, desc q' !! 3%nat = Some d /\ flags d = 0) /\ exists q2, driver_send (s_q Ring.second_back) [Ring.event 64] = Ok (true, q2).
Proof.
  destruct (virtio_ring_exact Ring.second_back Ring.second_back_reachable) as (pend & work & fin & ret & past & Hp & Ho & Ht & Hb & _ & Hu & Hs & _ & (q' & E & _ & Hu')).
  assert (Hh : exists q'', virtio_device_irq_handler log_desc (s_q Ring.second_back) [] = Ok (q'', [mk_desc 16 8 VRING_DESC_F_WRITE 0]) /\ exists d, desc q'' !! 3%nat = Some d /\ flags d = 0)
    by (eexists; split; [vm_compute; reflexivity|eexists; split; reflexivity]).
  destruct Hh as (q'' & Eq & Hd). change (s_back Ring.second_back) with (@nil vring_desc) in E. rewrite Eq in E. injection E as <- _.
  exists q''. split; [exact Eq|]. split; [exact Hd|]. destruct (Hs [Ring.event 64] (Ring.event_sendable 64)) as (ok & q2 & E2 & _).
  assert (Hok : match driver_send (s_q Ring.second_back) [Ring.event 64] with Ok (b, _) => b | _ => false end = true) by (vm_compute; reflexivity).
  rewrite E2 in Hok. cbn in Hok. subst ok. exists q2. exact E2.
Defined.

Lemma virtio_send_accepted_witness :
  exists ok q', driver_send new_queue Ring.request = Ok (ok, q') /\
    (ok = true <-> forall s d, s ∈ slots (idx new_queue) (length Ring.request) -> desc new_queue !! Z.to_nat s = Some d -> flags d = 0).
Proof.
  destruct (virtio_send_accepted new_queue 0 [] [] [] [] Ring.request new_queue_ok Ring.request_sendable) as (ok & q' & E & Hiff & _). by exists ok, q'.
Defined.

(** ** A queue that stops for ever *)

(** When the next descriptor is in use every call is refused and changes nothing. *)
Lemma wedged_refuses q d bufs : desc q !! Z.to_nat (idx q) = Some d -> flags d <> 0 -> sendable bufs -> driver_send q bufs = Ok (false, q).
Proof.
  intros Hd Hf Hs. assert (Hn : forall b fl, virtio_desc_new q b fl = Ok (false, q)) by (intros b fl; unfold virtio_desc_new; rewrite Hd; cbn [deref res_bind]; by rewrite (proj2 (Z.eqb_neq _ _) Hf)).
  destruct bufs as [|d1 [|d2 [|d3 [|d4 bufs]]]]; [by destruct Hs as [[? _] _]|..]; cbn [driver_send]; unfold virtio_send_command_1, virtio_send_command_2, virtio_send_command_3; rewrite ?Hn; try done.
  destruct Hs as [_ Hl]. cbn in Hl. lia.
Qed.

Lemma irq_loop_idx {W : Type} (f : vring_desc -> W -> res W) fuel : forall q w q' w', irq_loop f fuel q w = Ok (q', w') -> idx q' = idx q.
Proof.
  induction fuel as [|fuel IH]; intros q w q' w'; cbn [irq_loop]; destruct (_ =? _); [by intros [= <- _]|done|by intros [= <- _]|].
  unfold irq_one. destruct (used_ring q !! _) as [[i n]|]; [|done]. cbn [deref res_bind]. destruct (free_chain f chain_fuel i (desc q) w) as [[ds w1]| |]; [|done|done]. cbn [res_bind]. intros H. by apply IH in H.
Qed.

Lemma irq_handler_idx {W : Type} (f : vring_desc -> W -> res W) q w q' w' : virtio_device_irq_handler f q w = Ok (q', w') -> idx q' = idx q.
Proof. unfold virtio_device_irq_handler. generalize irq_fuel. intros fuel. apply irq_loop_idx. Qed.

(** The handler never frees a descriptor that belongs to no command. *)
Lemma wedged_forever {W : Type} (f : vring_desc -> W -> res W) seen pend work fin leak q w q' w' :
  queue_ok q seen pend work fin leak -> idx q ∈ leak -> virtio_device_irq_handler f q w = Ok (q', w') ->
  forall bufs, sendable bufs -> driver_send q' bufs = Ok (false, q').
Proof.
  intros Hq Hin E bufs Hs. destruct (irq_handler_ok f _ _ _ _ _ _ w Hq) as (q1 & Hq1 & _ & E1).
  pose proof (irq_handler_idx f q w q' w' E) as Ei. rewrite E in E1. destruct (run_all f _ w); [|done|done]. cbn [res_bind] in E1. simplify_eq.
  pose proof (qk_table _ _ _ _ _ _ Hq1) as Ht. destruct (slot_lookup _ _ (tb_len _ _ _ Ht) (qk_idx _ _ _ _ _ _ Hq1)) as [d Hd]. eapply wedged_refuses; [exact Hd| |done].
  apply (tb_free _ _ _ Ht _ _ Hd). rewrite Z2Nat.id by apply (qk_idx _ _ _ _ _ _ Hq1). rewrite Ei. unfold busy. apply elem_of_app. by right.
Qed.

(** A burst of commands as the display driver sends them, one of three buffers and then pairs. *)
Definition burst (n : nat) (q : virtio_queue_t) : virtio_queue_t :=
  Nat.iter n (fun q => Ring.queue_of (driver_send q [Ring.event 16; Ring.event 32])) q.

(** The device does all that it can and the handler takes everything back. *)
Definition serve_one (x : virtio_queue_t * Z) : virtio_queue_t * Z :=
  let '(q, seen) := x in
  if seen =? avail_idx q then x
  else match avail_ring q !! Z.to_nat (seen mod N) with Some head => (device_returns q head 0, wrap 16 (seen + 1)) | None => x end.
Definition serve (x : virtio_queue_t * Z) : virtio_queue_t * Z :=
  let '(q, seen) := Nat.iter 128 serve_one x in
  match virtio_device_irq_handler (fun _ w => Ok w) q tt with Ok (q, _) => (q, seen) | _ => (q, seen) end.

(** Two such bursts: nothing is with the device any more, and the queue accepts nothing. *)
Definition wedged : virtio_queue_t * Z :=
  let q := Ring.queue_of (driver_send new_queue [Ring.event 16; Ring.event 32; Ring.event 48]) in
  let '(q, seen) := serve (burst 64 q, 0) in serve (burst 64 q, seen).

Lemma burst_wedges :
  let '(q, seen) := wedged in
  seen = avail_idx q /\ ack_used_idx q = used_idx q /\ seen = used_idx q /\ driver_send q [Ring.event 64] = Ok (false, q).
Proof. vm_compute. repeat split. Qed.

(** [virtio_desc_del] clears the descriptor before it looks for the next one of the chain. *)
Lemma desc_del_first_only q i d : desc q !! Z.to_nat i = Some d -> virtio_desc_del q i = Ok (set_desc q (<[Z.to_nat i := no_desc]> (desc q)) (idx q)).
Proof.
  intros Hd. unfold virtio_desc_del. change virtio_desc_del_fuel with (S 127). cbn [del_loop]. rewrite Hd. cbn [deref res_bind].
  rewrite list_lookup_insert_eq by (by eapply lookup_lt_Some). done.
Qed.
