(* ===== verification/VirtioBlk.v ===== *)
(** * VirtioBlk: the driver of virtio disks (driver/virtio/block.c)

    A request is a chain of three buffers: a header with the type and the first sector, the data
    and a byte for the status.  The device is a parameter: what it does with a request, as a
    function of the type, the sector and the data.  The memory that the driver shares with it is
    a map from addresses to the objects that a request has.

    The model runs a request on its own: the device serves what is in the queue when it is
    notified, the interrupt handler runs, and then the thread that waits goes on if the status
    allows it. *)

From S2P Require Import Prelude Bits Vfs Block Virtio VirtioProof VirtioTheorems.

Definition VIRTIO_BLK_T_IN : Z := 0.
Definition VIRTIO_BLK_T_OUT : Z := 1.

(** [sizeof(struct virtio_blk_outhdr)] *)
Definition OUTHDR : Z := 16.

Inductive vobj := OHdr (type sector : Z) | OBytes (l : list Z) | OByte (b : Z).

Record vblk (D : Type) := mk_vblk { vb_q : virtio_queue_t; vb_seen : Z; vb_dev : D; vb_mem : gmap Z vobj }.
Arguments mk_vblk {D} _ _ _ _.
Arguments vb_q {D} _.
Arguments vb_seen {D} _.
Arguments vb_dev {D} _.
Arguments vb_mem {D} _.

(** [free_desc]: the memory and whether the waiters were woken. *)
Definition blk_free_desc (d : vring_desc) (w : gmap Z vobj * bool) : res (gmap Z vobj * bool) :=
  let '(mem, woken) := w in
  if flags d =? VRING_DESC_F_WRITE then
    match mem !! addr d with
    | Some (OByte status) => Ok (mem, if status =? 0 then true else woken)
    | _ => Undef
    end
  else if len d =? OUTHDR then
    match mem !! addr d with
    | Some (OHdr _ _) => Ok (delete (addr d) mem, woken)
    | _ => Undef
    end
  else Ok (mem, woken).

(** The features that the driver accepts: all but seven. *)
Definition virtio_block_get_features (features : Z) : Z :=
  let drop f bit := Z.land f (not32 (Z.shiftl 1 bit)) in
  drop (drop (drop (drop (drop (drop (drop features 5) 7) 11) 12) 27) 29) 28.

Section blk.
Context {D : Type} (serve : D -> Z -> Z -> list Z -> list Z * Z * D).
Implicit Types h : vblk D.

(** The device takes one chain, serves it and returns it. *)
Definition device_one h : res (vblk D) :=
  let q := vb_q h in
  let* head := deref (avail_ring q !! Z.to_nat (vb_seen h mod N)) in
  let* ds := deref (read_chain chain_fuel head (desc q)) in
  match ds with
  | [d0; d1; d2] =>
      match vb_mem h !! addr d0, vb_mem h !! addr d1, vb_mem h !! addr d2 with
      | Some (OHdr type sector), Some (OBytes l), Some (OByte _) =>
          let n := Z.to_nat (len d1) in
          let '(l', status, dev) := serve (vb_dev h) type sector (take n l) in
          let mem := if has (flags d1) VRING_DESC_F_WRITE then <[addr d1 := OBytes (l' ++ drop n l)]> (vb_mem h) else vb_mem h in
          Ok (mk_vblk (device_returns q head (len d1 + 1)) (wrap 16 (vb_seen h + 1)) dev (<[addr d2 := OByte status]> mem))
      | _, _, _ => Undef
      end
  | _ => Undef
  end.

Fixpoint device_all (fuel : nat) h : res (vblk D) :=
  if vb_seen h =? avail_idx (vb_q h) then Ok h
  else match fuel with O => Undef | S fuel => let* h := device_one h in device_all fuel h end.

(** [irq_handler]: the interrupt of the device. *)
Definition blk_irq_handler h : res (vblk D * bool) :=
  let* '(q, (mem, woken)) := virtio_device_irq_handler blk_free_desc (vb_q h) (vb_mem h, false) in
  Ok (mk_vblk q (vb_seen h) (vb_dev h) mem, woken).

(** Send a request and wait: [None] when the status does not become 0 or nobody wakes the caller,
    so that the wait does not end.  [hdr] is what [calloc] returned, [status] the address of a local variable. *)
Definition submit (hdr buf status : Z) (type sector fl : Z) (size : Z) (data : list Z) h : res (option (list Z * vblk D)) :=
  let* _ := defined_if (negb (hdr =? 0)) in
  let mem := <[hdr := OHdr type sector]> (<[buf := OBytes data]> (<[status := OByte 1]> (vb_mem h))) in
  let* '(_, q) := virtio_send_command_3 (vb_q h) (VRING_DESC hdr OUTHDR) (VRING_DESC_LEN_FLAG buf (u32 size) fl) (VRING_DESC status 1) in
  let* h := device_all (Z.to_nat VIRTIO_RING_SIZE) (mk_vblk q (vb_seen h) (vb_dev h) mem) in
  let* '(h, woken) := blk_irq_handler h in
  match vb_mem h !! status, vb_mem h !! buf with
  | Some (OByte s), Some (OBytes l) =>
      if (s =? 0) && woken then Ok (Some (l, mk_vblk (vb_q h) (vb_seen h) (vb_dev h) (delete status (delete buf (vb_mem h))))) else Ok None
  | _, _ => Undef
  end.

(** [blksz] is the size of the blocks of the device; [old] is what the buffer holds before. *)
Definition virtio_block_read (hdr buf status blksz : Z) (old : list Z) (blkno blkcnt : Z) h : res (option (list Z * Z * vblk D)) :=
  let* o := submit hdr buf status VIRTIO_BLK_T_IN blkno VRING_DESC_F_WRITE (u64 (blkcnt * blksz)) old h in
  Ok (match o with Some (l, h) => Some (l, blkcnt, h) | None => None end).

Definition virtio_block_write (hdr buf status blksz : Z) (data : list Z) (blkno blkcnt : Z) h : res (option (Z * vblk D)) :=
  let* o := submit hdr buf status VIRTIO_BLK_T_OUT blkno 0 (u64 (blkcnt * blksz)) data h in
  Ok (match o with Some (_, h) => Some (blkcnt, h) | None => None end).

Definition virtio_block_sync h : vblk D := h.
End blk.
