(* ===== verification/VirtioBlkTheorems.v ===== *)
(** * VirtioBlkTheorems: virtio disks as block devices

    On a disk of 512-byte sectors below 4 GB, a request of driver/virtio/block.c returns, the
    header is freed and the queue is empty again; so the driver keeps the contract of the block
    layer, and what is proved of archives on a block device holds of archives on a virtio disk. *)

From S2P Require Import Prelude Bits Strtoul CMem Alloc Vfs Block BlockProof Cpio CpioProof CpioArchive CpioTheorems Virtio VirtioProof VirtioTheorems VirtioBlk.

#[local] Ltac Zify.zify_post_hook ::= Z.div_mod_to_equations.

(** ** Devices *)

Definition SECTOR : Z := 512.

(** What a virtio disk does with a request whose sectors it has. *)
Class VirtioDisk {D : Type} (serve : D -> Z -> Z -> list Z -> list Z * Z * D) (sectors : D -> list Z) : Prop := {
  serve_in dev sector l :
    0 <= sector -> sector * SECTOR + Z.of_nat (length l) <= Z.of_nat (length (sectors dev)) ->
    let '(l', status, dev') := serve dev VIRTIO_BLK_T_IN sector l in
    status = 0 /\ sectors dev' = sectors dev /\ l' = range (sectors dev) (sector * SECTOR) (Z.of_nat (length l));
  serve_out dev sector l :
    0 <= sector -> sector * SECTOR + Z.of_nat (length l) <= Z.of_nat (length (sectors dev)) ->
    let '(_, status, dev') := serve dev VIRTIO_BLK_T_OUT sector l in
    status = 0 /\ sectors dev' = splice (sectors dev) (sector * SECTOR) l;
}.

(** ** A queue with nothing in it *)

Definition idle_queue (q : virtio_queue_t) (seen : Z) : bool :=
  (Z.of_nat (length (desc q)) =? N) && forallb (fun d => flags d =? 0) (desc q) && (0 <=? idx q) && (idx q <? N) &&
  (Z.of_nat (length (avail_ring q)) =? N) && (Z.of_nat (length (used_ring q)) =? N) &&
  (0 <=? seen) && (seen <? 2 ^ 16) && (avail_idx q =? seen) && (0 <=? ack_used_idx q) && (ack_used_idx q <? 2 ^ 16) && (used_idx q =? ack_used_idx q).

Lemma idle_queue_ok q seen : idle_queue q seen = true <-> queue_ok q seen [] [] [] [].
Proof.
  unfold idle_queue. rewrite !andb_true_iff, !Z.eqb_eq, !Z.leb_le, !Z.ltb_lt, forallb_forall. split.
  - intros (((((((((((H1 & H2) & H3) & H4) & H5) & H6) & H7) & H8) & H9) & H10) & H11) & H12). assert (Hw : forall x, 0 <= x < 2 ^ 16 -> wrap 16 (x + Z.of_nat 0) = x) by (intros x Hx; rewrite Z.add_0_r; by apply wrap_small).
    split; cbn [length]; try done; [|lia|rewrite Hw; lia|lia|rewrite Hw; lia].
    split; [lia|constructor|constructor|constructor|]. intros i d Hd. apply list_elem_of_lookup_2, list_elem_of_In, H2, Z.eqb_eq in Hd. split; [done|by intros ?%elem_of_nil].
  - intros Hq. pose proof (pend_empty _ _ _ _ _ Hq). pose proof (fin_empty _ _ _ _ _ Hq). destruct Hq as [[T1 _ _ _ T5] [H2 H2'] H3 H4 _ _ H7 H8 _ _]. unfold N in *. split_and!; try lia.
    intros d Hd. apply Z.eqb_eq. apply list_elem_of_In, list_elem_of_lookup_1 in Hd as [i Hd]. destruct (Z.eq_dec (flags d) 0) as [?|Hne]; [done|]. apply (T5 i d Hd) in Hne. by apply elem_of_nil in Hne.
Qed.

Section vblk.
Context {D : Type} (serve : D -> Z -> Z -> list Z -> list Z * Z * D) (sectors : D -> list Z) `{!VirtioDisk serve sectors}.
Implicit Types h : vblk D.

Definition idle h : bool := idle_queue (vb_q h) (vb_seen h) && bool_decide (size (vb_mem h) = 0%nat).

Lemma idle_spec h : idle h = true <-> queue_ok (vb_q h) (vb_seen h) [] [] [] [] /\ vb_mem h = ∅.
Proof. unfold idle. rewrite andb_true_iff, idle_queue_ok, bool_decide_eq_true, map_size_empty_iff. done. Qed.

(** A request that the device grants: it comes back, and the queue and the memory are as before. *)
Lemma submit_ok hdr buf status type sector fl data h l' dev' :
  idle h = true -> hdr <> 0 -> hdr <> buf -> hdr <> status -> buf <> status ->
  fl = 0 \/ fl = VRING_DESC_F_WRITE -> 0 < Z.of_nat (length data) < 2 ^ 32 -> Z.of_nat (length data) <> OUTHDR ->
  serve (vb_dev h) type sector data = (l', 0, dev') ->
  exists h', submit serve hdr buf status type sector fl (Z.of_nat (length data)) data h = Ok (Some (if fl =? 0 then data else l', h')) /\
    idle h' = true /\ vb_dev h' = dev'.
Proof.
  intros Hidle Hh Hhb Hhs Hbs Hfl Hlen Hne Hserve. apply idle_spec in Hidle as [Hq Hmem]. unfold submit. rewrite (proj2 (Z.eqb_neq hdr 0)) by done. cbn [negb defined_if res_bind].
  rewrite send_3, u32_small by lia. set (d1 := VRING_DESC_LEN_FLAG buf (Z.of_nat (length data)) fl). set (bufs := [VRING_DESC hdr OUTHDR; d1; VRING_DESC status 1]).
  assert (Hb : bufs_ok bufs) by (split; [done|]; constructor; [by left|]; constructor; [done|]; constructor; [by left|constructor]).
  destruct (send_ok (vb_q h) (vb_seen h) [] [] [] [] bufs Hq Hb) as (ok & q1 & -> & Hok); [cbn; unfold N; lia|].
  destruct ok; [destruct Hok as [Hq1 _]|destruct Hok as [_ (s & _ & Hs)]; by apply elem_of_nil in Hs]. cbn [res_bind app]. set (c := mk_command (idx (vb_q h)) bufs) in *. cbn [app] in Hq1.
  destruct (take_enabled _ _ _ _ _ _ _ Hq1) as (Hne1 & Hav & Hch). pose proof (take_ok _ _ _ _ _ _ _ Hq1) as (_ & _ & _ & Hq2). cbn [app] in Hq2. apply (return_ok _ _ _ [] c [] [] _ (Z.of_nat (length data) + 1)) in Hq2. cbn [app] in Hq2.
  set (m := <[hdr := OHdr type sector]> (<[buf := OBytes data]> (<[status := OByte 1]> (vb_mem h)))).
  change (Z.to_nat VIRTIO_RING_SIZE) with (S 127). cbn [device_all vb_seen vb_q]. rewrite (proj2 (Z.eqb_neq _ _) Hne1). unfold device_one at 1. cbn [vb_q vb_seen vb_mem vb_dev]. rewrite Hav. cbn [deref res_bind]. rewrite Hch. cbn [deref res_bind].
  change (c_descs c) with [mk_desc hdr OUTHDR 1 (succ (idx (vb_q h))); mk_desc buf (Z.of_nat (length data)) (Z.lor fl 1) (succ (succ (idx (vb_q h)))); mk_desc status 1 2 0].
  cbn [addr len flags]. assert (M0 : m !! hdr = Some (OHdr type sector)) by apply lookup_insert_eq.
  assert (M1 : m !! buf = Some (OBytes data)) by (unfold m; rewrite lookup_insert_ne by done; apply lookup_insert_eq).
  assert (M2 : m !! status = Some (OByte 1)) by (unfold m; rewrite !lookup_insert_ne by done; apply lookup_insert_eq).
  rewrite M0, M1, M2, Nat2Z.id, take_ge, drop_ge by done. rewrite Hserve, app_nil_r. cbn [res_bind vb_seen vb_q].
  rewrite (proj2 (Z.eqb_eq _ _) (pend_empty _ _ _ _ _ Hq2)). cbn [res_bind]. unfold blk_irq_handler. cbn [vb_q vb_seen vb_dev vb_mem].
  set (m' := <[status := OByte 0]> (if has (Z.lor fl 1) VRING_DESC_F_WRITE then <[buf := OBytes l']> m else m)).
  destruct (irq_handler_ok blk_free_desc _ _ _ _ _ _ (m', false) Hq2) as (q3 & Hq3 & _ & ->).
  assert (E0 : m' !! hdr = Some (OHdr type sector)) by (unfold m'; rewrite lookup_insert_ne by done; destruct (has _ _); [by rewrite lookup_insert_ne|done]).
  assert (E1 : m' !! buf = Some (OBytes (if fl =? 0 then data else l'))) by (unfold m'; rewrite lookup_insert_ne by done; destruct Hfl as [-> | ->]; [done|apply lookup_insert_eq]).
  assert (E2 : m' !! status = Some (OByte 0)) by apply lookup_insert_eq.
  change (mjoin (c_descs <$> [c])) with [mk_desc hdr OUTHDR 1 (succ (idx (vb_q h))); mk_desc buf (Z.of_nat (length data)) (Z.lor fl 1) (succ (succ (idx (vb_q h)))); mk_desc status 1 2 0].
  cbn [run_all]. unfold blk_free_desc at 1. cbn [flags len addr]. change (1 =? VRING_DESC_F_WRITE) with false. rewrite Z.eqb_refl, E0. cbn [res_bind].
  unfold blk_free_desc at 1. cbn [flags len addr]. replace (Z.lor fl 1 =? VRING_DESC_F_WRITE) with false by (destruct Hfl as [-> | ->]; done). rewrite (proj2 (Z.eqb_neq _ _) Hne). cbn [res_bind].
  unfold blk_free_desc at 1. cbn [flags len addr]. rewrite Z.eqb_refl, lookup_delete_ne, E2 by done. cbn [res_bind vb_mem vb_q vb_seen vb_dev]. rewrite !lookup_delete_ne, E2, E1 by done. rewrite Z.eqb_refl. cbn [andb].
  eexists. split; [done|]. split; [|done]. apply idle_spec. split; [done|]. cbn [vb_mem]. unfold m', m. rewrite Hmem. apply map_eq. intros a. rewrite lookup_empty.
  destruct (decide (a = status)) as [->|Ha]; [by rewrite lookup_delete_eq|]. rewrite lookup_delete_ne by done. destruct (decide (a = buf)) as [->|Hb']; [by rewrite lookup_delete_eq|]. rewrite lookup_delete_ne by done.
  destruct (decide (a = hdr)) as [->|Hd]; [by rewrite lookup_delete_eq|]. rewrite lookup_delete_ne, lookup_insert_ne by done. destruct (has _ _); rewrite !lookup_insert_ne by done; apply lookup_empty.
Qed.

(** ** The driver as a block driver *)

(** The device object, and three different addresses for the parts of a request. *)
Definition DEV : Z := 1.
Definition HDR : Z := 16.
Definition BUF : Z := 32.
Definition STATUS : Z := 48.

(** What the functions of the driver return: the number of blocks.  The calls that do not return,
    because the wait does not end or the behaviour is not defined, stand for calls that
    transfer no block here; the theorems below exclude them. *)
Definition read_result h (l : list Z) (r : res (option (list Z * Z * vblk D))) : list Z * Z * vblk D :=
  match r with Ok (Some x) => x | _ => (l, 0, h) end.
Definition write_result h (r : res (option (Z * vblk D))) : Z * vblk D := match r with Ok (Some x) => x | _ => (0, h) end.

Definition vblk_driver : block_driver (vblk D) := mk_driver (vblk D)
  (fun h dev b blkno cnt =>
     let old := repeat 0 (Z.to_nat (cnt * blksz b)) in
     read_result h old (virtio_block_read serve HDR BUF STATUS (blksz b) old blkno cnt h))
  (fun h dev b data blkno cnt => write_result h (virtio_block_write serve HDR BUF STATUS (blksz b) data blkno cnt h))
  (fun h dev => virtio_block_sync h).

Definition vblk_view : disk_view (vblk D) := mk_view
  (fun h dev => if (dev =? DEV) && idle h then sectors (vb_dev h) else [])
  (fun b => blksz b = SECTOR /\ blkcnt b * SECTOR < 2 ^ 32).

Lemma view_idle h dev n : Z.of_nat (length (vblk_view h dev)) = n -> 0 < n -> dev = DEV /\ idle h = true /\ vblk_view h dev = sectors (vb_dev h).
Proof.
  cbn. destruct (Z.eqb_spec dev DEV) as [->|?]; cbn [andb]; [|cbn; lia]. destruct (idle h); [done|cbn; lia].
Qed.

Lemma view_at h : idle h = true -> vblk_view h DEV = sectors (vb_dev h).
Proof. intros Hi. cbn. by rewrite Hi. Qed.
Lemma view_other h d : d <> DEV -> vblk_view h d = [].
Proof. intros Hd. cbn. by rewrite (proj2 (Z.eqb_neq d DEV)). Qed.

Lemma blk_read_ok h b blkno cnt :
  idle h = true -> blksz b = SECTOR -> 0 <= blkno -> 0 < cnt -> (blkno + cnt) * SECTOR <= Z.of_nat (length (sectors (vb_dev h))) -> cnt * SECTOR < 2 ^ 32 ->
  exists h', virtio_block_read serve HDR BUF STATUS (blksz b) (repeat 0 (Z.to_nat (cnt * blksz b))) blkno cnt h =
      Ok (Some (range (sectors (vb_dev h)) (blkno * SECTOR) (cnt * SECTOR), cnt, h')) /\
    idle h' = true /\ sectors (vb_dev h') = sectors (vb_dev h).
Proof.
  unfold SECTOR. intros Hi -> Hb Hc Hr Hs. set (old := repeat 0 (Z.to_nat (cnt * 512))). assert (Hl : Z.of_nat (length old) = cnt * 512) by (unfold old; rewrite repeat_length; lia).
  pose proof (serve_in (vb_dev h) blkno old) as Hin. unfold SECTOR in Hin. rewrite Hl in Hin. specialize (Hin Hb ltac:(lia)). destruct (serve (vb_dev h) VIRTIO_BLK_T_IN blkno old) as [[l' st] dev'] eqn:E. destruct Hin as (-> & Es & ->).
  unfold virtio_block_read. replace (u64 (cnt * 512)) with (Z.of_nat (length old)) by (rewrite u64_small; lia).
  destruct (submit_ok HDR BUF STATUS VIRTIO_BLK_T_IN blkno VRING_DESC_F_WRITE old h (range (sectors (vb_dev h)) (blkno * 512) (cnt * 512)) dev' Hi) as (h' & -> & Hi' & <-); [done|done|done|done|by right|lia|unfold OUTHDR; lia|exact E|].
  cbn [res_bind]. change (VRING_DESC_F_WRITE =? 0) with false. by exists h'.
Qed.

Lemma blk_write_ok h b data blkno cnt :
  idle h = true -> blksz b = SECTOR -> 0 <= blkno -> 0 < cnt -> Z.of_nat (length data) = cnt * SECTOR -> (blkno + cnt) * SECTOR <= Z.of_nat (length (sectors (vb_dev h))) -> cnt * SECTOR < 2 ^ 32 ->
  exists h', virtio_block_write serve HDR BUF STATUS (blksz b) data blkno cnt h = Ok (Some (cnt, h')) /\
    idle h' = true /\ sectors (vb_dev h') = splice (sectors (vb_dev h)) (blkno * SECTOR) data.
Proof.
  unfold SECTOR. intros Hi -> Hb Hc Hl Hr Hs. pose proof (serve_out (vb_dev h) blkno data) as Hout. unfold SECTOR in Hout. rewrite Hl in Hout. specialize (Hout Hb ltac:(lia)).
  destruct (serve (vb_dev h) VIRTIO_BLK_T_OUT blkno data) as [[l' st] dev'] eqn:E. destruct Hout as (-> & Es). unfold virtio_block_write. rewrite u64_small by lia. rewrite <- Hl.
  destruct (submit_ok HDR BUF STATUS VIRTIO_BLK_T_OUT blkno 0 data h l' dev' Hi) as (h' & -> & Hi' & <-); [done|done|done|done|by left|lia|unfold OUTHDR; lia|exact E|]. cbn [res_bind]. by exists h'.
Qed.

#[export] Instance vblk_block_driver : BlockDriver vblk_driver vblk_view.
Proof.
  split; [intros h dev b blkno cnt p n h' E Hs Hb Hc Hle [Hg1 Hg2] Hlen|intros h dev b data blkno cnt n h' E Hs Hb Hc Hle [Hg1 Hg2] Hlen Hdata|done].
  - destruct (view_idle _ _ _ Hlen) as (-> & Hi & Hv); [nia|]. rewrite Hv in *. unfold SECTOR in *. rewrite Hg1 in *.
    destruct (blk_read_ok h b blkno cnt Hi Hg1 Hb Hc) as (h1 & E1 & Hi1 & Es); [unfold SECTOR; lia|unfold SECTOR; lia|]. cbn [drv_read vblk_driver] in E. rewrite Hg1 in E1, E. rewrite E1 in E. cbn in E. injection E as <- <- <-.
    split; [|split; [apply range_length; unfold SECTOR; lia|done]]. intros d. destruct (Z.eq_dec d DEV) as [->|Hd]; [by rewrite !view_at, Es|by rewrite !view_other].
  - destruct (view_idle _ _ _ Hlen) as (-> & Hi & Hv); [nia|]. rewrite Hv in *. unfold SECTOR in *. rewrite Hg1 in *.
    destruct (blk_write_ok h b data blkno cnt Hi Hg1 Hb Hc) as (h1 & E1 & Hi1 & Es); [unfold SECTOR; lia|unfold SECTOR; lia|unfold SECTOR; lia|]. cbn [drv_write vblk_driver] in E. rewrite Hg1 in E1, E. rewrite E1 in E. cbn in E. injection E as <- <-.
    split; [intros d Hd; by rewrite !view_other|]. rewrite view_at, Es by done. split; [|done]. apply splice_length; unfold SECTOR; lia.
Qed.

#[export] Instance vblk_reliable : Reliable vblk_driver vblk_view.
Proof.
  split; [intros h dev b blkno cnt Hs Hb Hc Hle [Hg1 Hg2] Hlen|intros h dev b data blkno cnt Hs Hb Hc Hle [Hg1 Hg2] Hlen Hdata];
    (destruct (view_idle _ _ _ Hlen) as (-> & Hi & Hv); [nia|]); rewrite Hv in *; unfold SECTOR in *; rewrite Hg1 in *.
  - destruct (blk_read_ok h b blkno cnt Hi Hg1 Hb Hc) as (h1 & E1 & _); [unfold SECTOR; lia|unfold SECTOR; lia|]. cbn [drv_read vblk_driver]. by rewrite E1.
  - destruct (blk_write_ok h b data blkno cnt Hi Hg1 Hb Hc) as (h1 & E1 & _); [unfold SECTOR; lia|unfold SECTOR; lia|unfold SECTOR; lia|]. cbn [drv_write vblk_driver]. by rewrite E1.
Qed.
End vblk.

(** ** The guarantees *)

(** C35. The driver of virtio disks implements the interface of block drivers, as long as [calloc]
    gives a header.  On a disk of 512-byte blocks below 4 GB whose device follows the virtio
    rules, and with an idle queue, a request for blocks that the disk has returns and is
    complete: the device gets the header, the buffer and the status as one chain, a read gives
    the bytes of the disk and changes nothing, a write changes those bytes and no others, the
    header is freed exactly once and the queue is empty again.  So everything that is proved of
    block devices holds of virtio disks. *)
Theorem virtio_block_refines {D : Type} (serve : D -> Z -> Z -> list Z -> list Z * Z * D) (sectors : D -> list Z) `{!VirtioDisk serve sectors} :
  BlockDriver (vblk_driver serve) (vblk_view sectors) /\ Reliable (vblk_driver serve) (vblk_view sectors) /\
  forall h blkno cnt data,
    idle h = true -> 0 <= blkno -> 0 < cnt -> (blkno + cnt) * SECTOR <= Z.of_nat (length (sectors (vb_dev h))) -> cnt * SECTOR < 2 ^ 32 -> Z.of_nat (length data) = cnt * SECTOR ->
    (exists h', virtio_block_read serve HDR BUF STATUS SECTOR (repeat 0 (Z.to_nat (cnt * SECTOR))) blkno cnt h = Ok (Some (range (sectors (vb_dev h)) (blkno * SECTOR) (cnt * SECTOR), cnt, h')) /\
       idle h' = true /\ sectors (vb_dev h') = sectors (vb_dev h)) /\
    (exists h', virtio_block_write serve HDR BUF STATUS SECTOR data blkno cnt h = Ok (Some (cnt, h')) /\
       idle h' = true /\ sectors (vb_dev h') = splice (sectors (vb_dev h)) (blkno * SECTOR) data).
Proof.
  split; [apply _|]. split; [apply _|]. intros h blkno cnt data Hi Hb Hc Hr Hs Hd. set (b := mk_block SECTOR 1 true). split.
  - exact (blk_read_ok serve sectors h b blkno cnt Hi eq_refl Hb Hc Hr Hs).
  - exact (blk_write_ok serve sectors h b data blkno cnt Hi eq_refl Hb Hc Hd Hr Hs).
Qed.

(** ** A disk in memory *)

Module RamVirtio.
Definition serve (d : list Z) (type sector : Z) (l : list Z) : list Z * Z * list Z :=
  if type =? VIRTIO_BLK_T_IN then (range d (sector * SECTOR) (Z.of_nat (length l)), 0, d)
  else (l, 0, splice d (sector * SECTOR) l).
Definition sectors (d : list Z) : list Z := d.

#[global] Instance ram_virtio_disk : VirtioDisk serve sectors.
Proof. by split; intros dev sector l _ _; cbn. Qed.

(** The archive of CpioTheorems, on a disk of one sector. *)
Definition start : bstate (vblk (list Z)) :=
  mk_bstate (mk_vblk new_queue 0 (archive RamDisk.files (repeat 0 32)) ∅)
    (fun dev => if dev =? DEV then mk_block 512 1 true else mk_block 0 0 false) (fun _ => true) 0.
Abbreviation ram_blk := (vblk_driver serve).
End RamVirtio.

Lemma virtio_block_refines_witness :
  BlockDriver (vblk_driver RamVirtio.serve) (vblk_view RamVirtio.sectors) /\
  exists h', virtio_block_read RamVirtio.serve HDR BUF STATUS SECTOR (repeat 0 (Z.to_nat (1 * SECTOR))) 0 1 (hw RamVirtio.start) =
    Ok (Some (range (RamVirtio.sectors (vb_dev (hw RamVirtio.start))) (0 * SECTOR) (1 * SECTOR), 1, h')) /\ idle h' = true.
Proof.
  destruct (virtio_block_refines RamVirtio.serve RamVirtio.sectors) as (H1 & _ & H2). split; [exact H1|].
  destruct (H2 (hw RamVirtio.start) 0 1 (repeat 0 512)) as [(h' & E & Hi & _) _]; [vm_compute; reflexivity|lia|lia|vm_compute; discriminate|vm_compute; reflexivity|vm_compute; reflexivity|].
  exists h'. split; [exact E|exact Hi].
Defined.

(** The file ["x"] of the directory ["/d"], looked up and read through the archive filesystem, the
    block layer and the rings. *)
Definition read_x : option (list Z * Z) :=
  match cpio_lookup RamVirtio.ram_blk [120] RamDisk.mount_of (RamDisk.node_at [47; 100] attr0) (RamDisk.node_at [47; 100; 47; 120] attr0) RamVirtio.start with
  | Ok (0, _, a, st) => match cpio_read RamVirtio.ram_blk 1 3 RamDisk.mount_of (RamDisk.node_at [47; 100; 47; 120] a) st with Ok (x, _, _) => Some x | _ => None end
  | _ => None
  end.

Example read_x_ok : read_x = Some ([2; 3; 4], 3).
Proof. vm_compute. reflexivity. Qed.

(** ** What the driver does not handle *)

(** A device that answers with an error: the wait does not end. *)
Lemma io_error_waits h : h = hw RamVirtio.start -> virtio_block_read (fun d _ _ l => (l, 1, d)) HDR BUF STATUS SECTOR (repeat 0 512) 0 1 h = Ok None.
Proof. intros ->. vm_compute. reflexivity. Qed.

(** A queue that refuses the request: nothing is sent, and the wait does not end. *)
Lemma refused_waits : virtio_block_read RamVirtio.serve HDR BUF STATUS SECTOR (repeat 0 512) 0 1 (mk_vblk wedged.1 wedged.2 (repeat 7 512) ∅) = Ok None.
Proof. vm_compute. reflexivity. Qed.

(** Blocks of 1024 bytes: block 1 of a disk is read from sector 1, in the middle of block 0. *)
Definition big_blocks : list Z := repeat 0 512 ++ repeat 1 512 ++ repeat 2 512 ++ repeat 3 512.
Lemma big_blocks_misread :
  match virtio_block_read RamVirtio.serve HDR BUF STATUS 1024 (repeat 9 1024) 1 1 (mk_vblk new_queue 0 big_blocks ∅) with
  | Ok (Some (l, 1, _)) => l = range big_blocks 512 1024
  | _ => False
  end.
Proof. vm_compute. reflexivity. Qed.
