(* ===== verification/Interrupt.v ===== *)
(** * Interrupt: interrupt controllers and handlers (driver/interrupt.c, driver/plic.c)

    The controllers are on a list; each has a table of handlers for the interrupts that are its
    own.  A handler is the address of a function, called with a pointer; what it does is not
    part of this model, only that it is called.

    The registers of the PLIC that the code uses: the enable bits of the hart, the priorities and
    the claim register, whose reads give the pending interrupts one by one, then 0. *)

From S2P Require Import Prelude Bits Vfs.

(** The address of [null_interrupt_function]. *)
Definition null_interrupt_function : Z := 1.

Record irq_desc_t := mk_irq { func : Z; thread_func : Z; data : Z }.

(** The functions of a controller, which may be missing. *)
Record irqchip_t := mk_chip { base : Z; nirq : Z; desc : list irq_desc_t; enable : bool; disable : bool; dispatch : bool }.

Record plic := mk_plic { senable : Z; threshold : Z; priority : list (Z * Z); pending : list Z; completed : list Z }.

(** [calls]: the functions that were called, with their data. *)
Record irqs := mk_irqs { chips : list irqchip_t; pic : plic; calls : list (Z * Z) }.

Definition set_pic (w : irqs) (p : plic) : irqs := mk_irqs (chips w) p (calls w).
Definition set_chip (w : irqs) (i : nat) (c : irqchip_t) : irqs := mk_irqs (<[i := c]> (chips w)) (pic w) (calls w).
Definition set_senable (p : plic) (x : Z) : plic := mk_plic x (threshold p) (priority p) (pending p) (completed p).

(** ** driver/plic.c *)

Definition plic_claim (p : plic) : Z * plic :=
  match pending p with
  | [] => (0, p)
  | irq :: l => (s32 irq, mk_plic (senable p) (threshold p) (priority p) l (completed p))
  end.

Definition plic_complete (irq : Z) (p : plic) : plic := mk_plic (senable p) (threshold p) (priority p) (pending p) (completed p ++ [u32 irq]).

(** [1 << n] of a signed number. *)
Definition bit (n : Z) : res Z := let* _ := defined_if ((0 <=? n) && (n <? 31)) in Ok (2 ^ n).

Definition plic_irqchip_enable (c : irqchip_t) (offset : Z) (w : irqs) : res irqs :=
  let* b := bit (offset + base c) in Ok (set_pic w (set_senable (pic w) (Z.lor (senable (pic w)) b))).

Definition plic_irqchip_disable (c : irqchip_t) (offset : Z) (w : irqs) : res irqs :=
  let* b := bit (offset + base c) in Ok (set_pic w (set_senable (pic w) (Z.land (senable (pic w)) (not32 b)))).

Definition plic_irqchip_dispatch (c : irqchip_t) (w : irqs) : res irqs :=
  let '(irq, p) := plic_claim (pic w) in
  let w := set_pic w p in
  let offset := irq - base c in
  let* w :=
    if (0 <=? offset) && (offset <? nirq c) then
      let* d := deref (desc c !! Z.to_nat offset) in
      if func d =? 0 then Panic else Ok (mk_irqs (chips w) (pic w) (calls w ++ [(func d, data d)]))
    else Ok w in
  if negb (irq =? 0) then Ok (set_pic w (plic_complete irq (pic w))) else Ok w.

(** ** driver/interrupt.c *)

Definition register_irqchip (c : irqchip_t) (w : irqs) : irqs := mk_irqs (chips w ++ [c]) (pic w) (calls w).

Definition has_irq (irq : Z) (c : irqchip_t) : bool := (base c <=? irq) && (irq <? base c + nirq c).

(** The place of the controller on the list, and the controller. *)
Fixpoint search_chips (irq : Z) (i : nat) (l : list irqchip_t) : option (nat * irqchip_t) :=
  match l with [] => None | c :: l => if has_irq irq c then Some (i, c) else search_chips irq (S i) l end.
Definition search_irqchip (irq : Z) (w : irqs) : option (nat * irqchip_t) := search_chips irq 0 (chips w).

Definition irq_is_valid (irq : Z) (w : irqs) : bool := match search_irqchip irq w with Some _ => true | None => false end.

Definition enable_irq (irq : Z) (w : irqs) : res irqs :=
  match search_irqchip irq w with
  | Some (_, c) => if enable c then plic_irqchip_enable c (irq - base c) w else Ok w
  | None => Ok w
  end.

Definition disable_irq (irq : Z) (w : irqs) : res irqs :=
  match search_irqchip irq w with
  | Some (_, c) => if disable c then plic_irqchip_disable c (irq - base c) w else Ok w
  | None => Ok w
  end.

Fixpoint dispatch_all (l : list irqchip_t) (w : irqs) : res irqs :=
  match l with
  | [] => Ok w
  | c :: l => let* w := if dispatch c then plic_irqchip_dispatch c w else Ok w in dispatch_all l w
  end.
Definition interrupt_handle_exception (w : irqs) : res irqs := dispatch_all (chips w) w.

(** [ok]: whether there is memory, which the code does not ask. *)
Definition create_interrupt_desc (ok : bool) (n : Z) : res (list irq_desc_t) :=
  if ok then Ok (replicate (Z.to_nat n) (mk_irq null_interrupt_function 0 0)) else Undef.

Definition set_irq (c : irqchip_t) (offset : Z) (d : irq_desc_t) : irqchip_t :=
  mk_chip (base c) (nirq c) (<[Z.to_nat offset := d]> (desc c)) (enable c) (disable c) (dispatch c).

Definition request_irq (irq f x : Z) (w : irqs) : res (bool * irqs) :=
  if f =? 0 then Ok (false, w)
  else match search_irqchip irq w with
       | None => Ok (false, w)
       | Some (i, c) =>
           let offset := irq - base c in
           let* d := deref (desc c !! Z.to_nat offset) in
           if negb (func d =? null_interrupt_function) then Ok (false, w)
           else
             let c := set_irq c offset (mk_irq f (thread_func d) x) in
             let w := set_chip w i c in
             let* w := if enable c then plic_irqchip_enable c offset w else Ok w in
             Ok (true, w)
       end.

Definition free_irq (irq : Z) (w : irqs) : res (bool * irqs) :=
  match search_irqchip irq w with
  | None => Ok (false, w)
  | Some (i, c) =>
      let offset := irq - base c in
      let* d := deref (desc c !! Z.to_nat offset) in
      if func d =? null_interrupt_function then Ok (false, w)
      else
        let c := set_irq c offset (mk_irq null_interrupt_function (thread_func d) 0) in
        let w := set_chip w i c in
        let* w := if disable c then plic_irqchip_disable c offset w else Ok w in
        Ok (true, w)
  end.

(** [base] and [nirq] are what the device tree says. *)
Fixpoint probe_bits (n : nat) (i : Z) (x : Z) : res Z :=
  match n with O => Ok x | S n => let* b := bit i in probe_bits n (i + 1) (Z.land x (not32 b)) end.

Definition plic_irqchip_probe (ok : bool) (b n : Z) (w : irqs) : res (Z * irqs) :=
  if (b <? 0) || (n <=? 0) then Ok (-1, w)
  else
    let* ds := create_interrupt_desc ok n in
    let p := pic w in
    let prios := (fun k => (b + Z.of_nat k, 1)) <$> seq 0 (Z.to_nat n) in
    let* x := probe_bits (Z.to_nat n) b (senable p) in
    let w := set_pic w (mk_plic x 0 (priority p ++ prios) (pending p) (completed p)) in
    Ok (0, register_irqchip (mk_chip b n ds true true true) w).

(** ** Searching *)

Lemma search_chips_Some irq l : forall k j c, search_chips irq k l = Some (j, c) -> (k <= j)%nat /\ l !! (j - k)%nat = Some c /\ has_irq irq c = true.
Proof.
  induction l as [|x l IH]; intros k j c; cbn; [done|]. destruct (has_irq irq x) eqn:E; [intros [= <- <-]; by rewrite Nat.sub_diag|].
  intros H. apply IH in H as (H1 & H2 & H3). split; [lia|]. split; [|done]. by replace (j - k)%nat with (S (j - S k)) by lia.
Qed.

Lemma search_chips_insert irq c' l : forall k i c, l !! i = Some c -> base c' = base c -> nirq c' = nirq c ->
  search_chips irq k (<[i := c']> l) = (fun x => (x.1, if Nat.eqb x.1 (k + i) then c' else x.2)) <$> search_chips irq k l.
Proof.
  induction l as [|x l IH]; intros k i c Hi Hb Hn; [done|]. destruct i as [|i]; cbn in Hi.
  - simplify_eq. change (<[0%nat := c']> (c :: l)) with (c' :: l). cbn [search_chips]. unfold has_irq at 1. rewrite Hb, Hn. fold (has_irq irq c). destruct (has_irq irq c); cbn; [by rewrite Nat.add_0_r, Nat.eqb_refl|].
    destruct (search_chips irq (S k) l) as [[j y]|] eqn:E; [|done]. apply search_chips_Some in E as [Hj _]. cbn. by rewrite (proj2 (Nat.eqb_neq j (k + 0))) by lia.
  - change (<[S i := c']> (x :: l)) with (x :: <[i := c']> l). cbn [search_chips]. destruct (has_irq irq x); cbn; [by rewrite (proj2 (Nat.eqb_neq k (k + S i))) by lia|]. rewrite (IH (S k) i c Hi Hb Hn). by replace (S k + i)%nat with (k + S i)%nat by lia.
Qed.

(** ** Tables *)

Record chip_ok (c : irqchip_t) : Prop := mk_chip_ok {
  co_range : 0 <= base c /\ base c + nirq c <= 31;
  co_len : Z.of_nat (length (desc c)) = nirq c;
  co_func : Forall (fun d => func d <> 0) (desc c);
  co_fns : enable c = true /\ disable c = true;
}.

(** What is registered for an interrupt. *)
Definition entry (w : irqs) (irq : Z) : option irq_desc_t :=
  match search_irqchip irq w with Some (_, c) => desc c !! Z.to_nat (irq - base c) | None => None end.
Definition handler (w : irqs) (irq : Z) : option (Z * Z) :=
  match entry w irq with Some d => if func d =? null_interrupt_function then None else Some (func d, data d) | None => None end.

(** The enable bits are those of the interrupts that have a handler. *)
Record irqs_ok (w : irqs) : Prop := mk_irqs_ok {
  io_chips : Forall chip_ok (chips w);
  io_bits : 0 <= senable (pic w) < 2 ^ 32;
  io_enabled irq : irq_is_valid irq w = true -> Z.testbit (senable (pic w)) irq = match handler w irq with Some _ => true | None => false end;
}.

Lemma search_found w irq i c : irqs_ok w -> search_irqchip irq w = Some (i, c) ->
  chips w !! i = Some c /\ chip_ok c /\ base c <= irq < base c + nirq c /\ exists d, desc c !! Z.to_nat (irq - base c) = Some d /\ func d <> 0.
Proof.
  intros [Hc _ _] E. apply search_chips_Some in E as (_ & Hi & Hh). rewrite Nat.sub_0_r in Hi. eapply Forall_lookup_1 in Hc as Hk; [|exact Hi]. unfold has_irq in Hh.
  apply andb_true_iff in Hh as [H1%Z.leb_le H2%Z.ltb_lt]. split; [done|]. split; [done|]. split; [lia|].
  destruct (lookup_lt_is_Some_2 (desc c) (Z.to_nat (irq - base c))) as [d Hd]; [pose proof (co_len _ Hk); lia|]. exists d. split; [done|].
  pose proof (co_func _ Hk) as HF. by eapply Forall_lookup_1 in HF.
Qed.

(** ** Changing an entry *)

Section change.
Context (w : irqs) (irq : Z) (i : nat) (c : irqchip_t) (d : irq_desc_t) (x : Z).
Context (Hok : irqs_ok w) (Hs : search_irqchip irq w = Some (i, c)) (Hd : func d <> 0) (Hx : 0 <= x < 2 ^ 32).
Let c' := set_irq c (irq - base c) d.
Let w' := set_pic (set_chip w i c') (set_senable (pic w) x).

Lemma search_changed irq' : search_irqchip irq' w' = (fun y => (y.1, if Nat.eqb y.1 i then c' else y.2)) <$> search_irqchip irq' w.
Proof. destruct (search_found w irq i c Hok Hs) as (Hi & _). unfold search_irqchip, w'. cbn [chips set_pic set_chip]. by rewrite (search_chips_insert irq' c' (chips w) 0 i c). Qed.

Lemma entry_changed irq' : entry w' irq' = if irq' =? irq then Some d else entry w irq'.
Proof.
  destruct (search_found w irq i c Hok Hs) as (Hi & Hc & Hr & d0 & Hd0 & _). unfold entry. rewrite search_changed. destruct (search_irqchip irq' w) as [[j y]|] eqn:E; cbn [fmap option_fmap option_map fst snd].
  - destruct (search_found w irq' j y Hok E) as (Hj & _ & Hr' & _). destruct (Nat.eqb_spec j i) as [->|Hne].
    + rewrite Hi in Hj. simplify_eq. cbn [c' desc base set_irq]. destruct (Z.eqb_spec irq' irq) as [->|Hn]; [apply list_lookup_insert_eq; by eapply lookup_lt_Some|]. apply list_lookup_insert_ne. lia.
    + destruct (Z.eqb_spec irq' irq) as [->|Hn]; [|done]. rewrite Hs in E. by simplify_eq.
  - destruct (Z.eqb_spec irq' irq) as [->|Hn]; [by rewrite Hs in E|done].
Qed.

Lemma changed_ok :
  (forall k, Z.testbit x k = if k =? irq then negb (func d =? null_interrupt_function) else Z.testbit (senable (pic w)) k) -> irqs_ok w'.
Proof.
  intros Hbits. destruct (search_found w irq i c Hok Hs) as (Hi & Hc & Hr & d0 & Hd0 & _). split; cbn [chips pic w' set_pic set_chip set_senable senable]; [|done|].
  - apply Forall_insert; [apply Hok|]. destruct Hc as [H1 H2 H3 H4]. split; cbn [c' set_irq base nirq desc enable disable]; [done|by rewrite length_insert| |done]. by apply Forall_insert.
  - intros irq' Hv. rewrite Hbits. unfold handler. rewrite entry_changed. destruct (Z.eqb_spec irq' irq) as [->|Hne]; [by destruct (func d =? null_interrupt_function)|].
    apply (io_enabled _ Hok). unfold irq_is_valid in *. rewrite search_changed in Hv. by destruct (search_irqchip irq' w).
Qed.

Lemma handler_changed irq' : handler w' irq' = if irq' =? irq then (if func d =? null_interrupt_function then None else Some (func d, data d)) else handler w irq'.
Proof. unfold handler. rewrite entry_changed. by destruct (irq' =? irq). Qed.
End change.

(** ** The enable bits *)

Lemma set_bit_range x n : 0 <= x < 2 ^ 32 -> 0 <= n < 31 -> 0 <= Z.lor x (2 ^ n) < 2 ^ 32.
Proof.
  intros Hx Hn. assert (0 <= Z.lor x (2 ^ n)) by (apply Z.lor_nonneg; lia). split; [done|]. destruct (Z.eq_dec (Z.lor x (2 ^ n)) 0) as [->|Hne]; [lia|]. apply Z.log2_lt_pow2; [lia|].
  rewrite Z.log2_lor by lia. apply Z.max_lub_lt; [|rewrite Z.log2_pow2; lia]. destruct (Z.eq_dec x 0) as [->|]; [done|]. apply Z.log2_lt_pow2; lia.
Qed.

Lemma set_bit_spec x n k : 0 <= n -> Z.testbit (Z.lor x (2 ^ n)) k = if k =? n then true else Z.testbit x k.
Proof.
  intros Hn. rewrite Z.lor_spec, Z.pow2_bits_eqb by done. rewrite Z.eqb_sym. destruct (k =? n); [apply orb_true_r|apply orb_false_r].
Qed.

Lemma clear_bit_spec x n k : 0 <= x < 2 ^ 32 -> 0 <= n < 31 -> Z.testbit (Z.land x (not32 (2 ^ n))) k = if k =? n then false else Z.testbit x k.
Proof.
  intros Hx Hn. unfold not32. rewrite Z.land_spec, Z.lxor_spec, Z.pow2_bits_eqb by lia. rewrite (Z.eqb_sym n k). destruct (Z.le_gt_cases 0 k) as [Hk|Hk].
  - destruct (Z.lt_ge_cases k 32) as [Hk2|Hk2].
    + rewrite Z.ones_spec_low by lia. destruct (k =? n); [apply andb_false_r|apply andb_true_r].
    + rewrite Z.ones_spec_high by lia. rewrite (proj2 (Z.eqb_neq k n)) by lia. rewrite <- (Z.mod_small x (2 ^ 32)), Z.mod_pow2_bits_high by lia. done.
  - rewrite !Z.testbit_neg_r by lia. by destruct (k =? n).
Qed.

Lemma clear_bit_range x n : 0 <= x < 2 ^ 32 -> 0 <= n -> 0 <= Z.land x (not32 n) < 2 ^ 32.
Proof.
  intros Hx Hn. assert (H0 : 0 <= Z.land x (not32 n)) by (apply Z.land_nonneg; lia). split; [done|]. destruct (Z.eq_dec (Z.land x (not32 n)) 0) as [->|Hne]; [lia|]. apply Z.log2_lt_pow2; [lia|].
  destruct (Z.eq_dec x 0) as [->|Hx0]; [by rewrite Z.land_0_l in Hne|]. apply (Z.le_lt_trans _ (Z.log2 x)); [|apply Z.log2_lt_pow2; lia].
  pose proof (Z.log2_land x (not32 n)) as Hl. assert (0 <= not32 n) by (unfold not32; apply Z.lxor_nonneg; split; intros _; [done|lia]). lia.
Qed.

(** ** Interrupts *)

(** A function that a driver registers. *)
Definition is_handler (f : Z) : Prop := f <> 0 /\ f <> null_interrupt_function.

Lemma bit_ok n : 0 <= n < 31 -> bit n = Ok (2 ^ n).
Proof. intros Hn. unfold bit. rewrite (proj2 (Z.leb_le 0 n)), (proj2 (Z.ltb_lt n 31)) by lia. done. Qed.

(** Of the PLIC only the enable bit of [irq] changes. *)
Definition only_bit (irq : Z) (v : bool) (w w' : irqs) : Prop :=
  pic w' = set_senable (pic w) (senable (pic w')) /\
  forall k, Z.testbit (senable (pic w')) k = if k =? irq then v else Z.testbit (senable (pic w)) k.

Lemma request_irq_ok w irq f x : irqs_ok w -> is_handler f ->
  if irq_is_valid irq w && negb (match handler w irq with Some _ => true | None => false end)
  then exists w', request_irq irq f x w = Ok (true, w') /\ irqs_ok w' /\ calls w' = calls w /\ pending (pic w') = pending (pic w) /\ (forall i, handler w' i = if i =? irq then Some (f, x) else handler w i) /\
    only_bit irq true w w'
  else request_irq irq f x w = Ok (false, w).
Proof.
  intros Hok [Hf0 Hf1]. unfold request_irq. rewrite (proj2 (Z.eqb_neq f 0)) by done. unfold irq_is_valid. destruct (search_irqchip irq w) as [[i c]|] eqn:E; [|done]. cbn [andb].
  destruct (search_found w irq i c Hok E) as (Hi & Hc & Hr & d & Hd & Hd0). rewrite Hd. cbn [deref res_bind].
  assert (He : handler w irq = if func d =? null_interrupt_function then None else Some (func d, data d)) by (unfold handler, entry; by rewrite E, Hd). rewrite He.
  destruct (func d =? null_interrupt_function); cbn [negb]; [|done]. destruct (co_fns _ Hc) as [En _]. pose proof (co_range _ Hc) as Hrange. pose proof (io_bits _ Hok) as Hb.
  unfold plic_irqchip_enable. cbn [set_irq enable base]. rewrite En, bit_ok by lia. cbn [res_bind]. replace (irq - base c + base c) with irq by lia.
  eexists. split; [done|]. set (d' := mk_irq f (thread_func d) x). assert (Hd' : func d' <> 0) by done. assert (Hx : 0 <= Z.lor (senable (pic w)) (2 ^ irq) < 2 ^ 32) by (apply set_bit_range; lia).
  split; [|split; [done|split; [done|]]].
  - apply (changed_ok w irq i c d' _ Hok E Hd' Hx). intros k. rewrite set_bit_spec by lia. cbn [func d']. by rewrite (proj2 (Z.eqb_neq f _)).
  - split; [intros k; rewrite (handler_changed w irq i c d' _ Hok E); cbn [func data d']; by rewrite (proj2 (Z.eqb_neq f _))|].
    split; [done|]. intros k. cbn. apply set_bit_spec. lia.
Qed.

Lemma free_irq_ok w irq : irqs_ok w ->
  match handler w irq with
  | Some _ => exists w', free_irq irq w = Ok (true, w') /\ irqs_ok w' /\ calls w' = calls w /\ pending (pic w') = pending (pic w) /\ (forall i, handler w' i = if i =? irq then None else handler w i) /\
    only_bit irq false w w'
  | None => free_irq irq w = Ok (false, w)
  end.
Proof.
  intros Hok. unfold free_irq. unfold handler at 1, entry at 1. destruct (search_irqchip irq w) as [[i c]|] eqn:E; [|done].
  destruct (search_found w irq i c Hok E) as (Hi & Hc & Hr & d & Hd & Hd0). rewrite Hd. cbn [deref res_bind].
  destruct (func d =? null_interrupt_function); [done|]. destruct (co_fns _ Hc) as [_ En]. pose proof (co_range _ Hc) as Hrange. pose proof (io_bits _ Hok) as Hb.
  unfold plic_irqchip_disable. cbn [set_irq disable base]. rewrite En, bit_ok by lia. cbn [res_bind]. replace (irq - base c + base c) with irq by lia.
  eexists. split; [done|]. set (d' := mk_irq null_interrupt_function (thread_func d) 0). assert (Hd' : func d' <> 0) by done. assert (Hx : 0 <= Z.land (senable (pic w)) (not32 (2 ^ irq)) < 2 ^ 32) by (apply clear_bit_range; lia).
  split; [|split; [done|split; [done|]]].
  - apply (changed_ok w irq i c d' _ Hok E Hd' Hx). intros k. by rewrite clear_bit_spec by lia.
  - split; [intros k; by rewrite (handler_changed w irq i c d' _ Hok E)|]. split; [done|]. intros k. cbn. apply clear_bit_spec; lia.
Qed.

(** ** The controller at work *)

(** From a PLIC that was probed with the interrupts [b], ..., [b + n - 1], drivers register and
    remove handlers, the hardware raises interrupts and the kernel handles them. *)
Section work.
Context (b n : Z) (Hb : 1 <= b) (Hn : 0 < n) (Hbn : b + n <= 31).

Inductive irq_step : irqs -> irqs -> Prop :=
| step_request irq f x r w w' : is_handler f -> request_irq irq f x w = Ok (r, w') -> irq_step w w'
| step_free irq r w w' : free_irq irq w = Ok (r, w') -> irq_step w w'
| step_raise irq w : 0 < irq < 2 ^ 31 ->
    irq_step w (set_pic w (mk_plic (senable (pic w)) (threshold (pic w)) (priority (pic w)) (pending (pic w) ++ [irq]) (completed (pic w))))
| step_handle w w' : interrupt_handle_exception w = Ok w' -> irq_step w w'.

Inductive irq_reachable : irqs -> Prop :=
| irq_start x w : 0 <= x < 2 ^ 32 -> plic_irqchip_probe true b n (mk_irqs [] (mk_plic x 0 [] [] []) []) = Ok (0, w) -> irq_reachable w
| irq_next w w' : irq_reachable w -> irq_step w w' -> irq_reachable w'.

(** The one controller. *)
Record one_chip (w : irqs) : Prop := mk_one_chip {
  oc_ok : irqs_ok w;
  oc_chip : exists ds, chips w = [mk_chip b n ds true true true];
  oc_pending : Forall (fun irq => 0 < irq < 2 ^ 31) (pending (pic w));
}.

Lemma probe_bits_ok k : forall i x, 0 <= x < 2 ^ 32 -> 0 <= i -> i + Z.of_nat k <= 31 ->
  exists y, probe_bits k i x = Ok y /\ 0 <= y < 2 ^ 32 /\ forall j, i <= j < i + Z.of_nat k -> Z.testbit y j = false.
Proof.
  assert (Hkeep : forall k i x y j, 0 <= x < 2 ^ 32 -> 0 <= i -> i + Z.of_nat k <= 31 -> probe_bits k i x = Ok y -> Z.testbit x j = false -> Z.testbit y j = false).
  { clear k. induction k as [|k IH]; intros i x y j Hx Hi Hl; cbn; [by intros [= <-]|]. rewrite bit_ok by lia. cbn [res_bind]. intros E Hj.
    eapply (IH (i + 1)); [|lia|lia|exact E|]; [by apply clear_bit_range; lia|]. rewrite clear_bit_spec by lia. by destruct (j =? i). }
  induction k as [|k IH]; intros i x Hx Hi Hl; cbn [probe_bits]; [exists x; split; [done|]; split; [done|lia]|]. rewrite bit_ok by lia. cbn [res_bind].
  assert (Hx' : 0 <= Z.land x (not32 (2 ^ i)) < 2 ^ 32) by (apply clear_bit_range; lia). destruct (IH (i + 1) _ Hx') as (y & E & Hy & Hz); [lia|lia|]. exists y. split; [done|]. split; [done|]. intros j Hj.
  destruct (Z.eq_dec j i) as [->|Hne]; [|apply Hz; lia]. apply (Hkeep k (i + 1) _ y i Hx'); [lia|lia|exact E|]. rewrite clear_bit_spec by lia. by rewrite Z.eqb_refl.
Qed.

Lemma probe_ok x w : 0 <= x < 2 ^ 32 -> plic_irqchip_probe true b n (mk_irqs [] (mk_plic x 0 [] [] []) []) = Ok (0, w) -> one_chip w.
Proof.
  intros Hx. unfold plic_irqchip_probe. rewrite (proj2 (Z.ltb_ge b 0)), (proj2 (Z.leb_gt n 0)) by lia. cbn [orb create_interrupt_desc res_bind pic senable].
  destruct (probe_bits_ok (Z.to_nat n) b x Hx) as (y & -> & Hy & Hz); [lia|lia|]. cbn [res_bind]. intros [= <-]. split; cbn; [|by eexists|constructor].
  split; cbn; [|done|].
  - constructor; [|constructor]. split; cbn; [lia|rewrite length_replicate; lia| |done]. by apply Forall_replicate.
  - intros irq. unfold irq_is_valid, handler, entry, search_irqchip. cbn. destruct (has_irq irq _) eqn:E; [|done]. intros _. unfold has_irq in E. cbn in E. apply andb_true_iff in E as [E1%Z.leb_le E2%Z.ltb_lt].
    cbn [desc base]. rewrite Hz by lia. rewrite lookup_replicate_2 by lia. done.
Qed.

(** Handling an interrupt. *)
Lemma handle_ok w : one_chip w ->
  match pending (pic w) with
  | [] => interrupt_handle_exception w = Ok w
  | irq :: l => exists w', interrupt_handle_exception w = Ok w' /\ chips w' = chips w /\ pending (pic w') = l /\ completed (pic w') = completed (pic w) ++ [irq] /\ senable (pic w') = senable (pic w) /\
      calls w' = calls w ++ match entry w irq with Some d => [(func d, data d)] | None => [] end
  end.
Proof.
  intros [Hok [ds Hc] Hp]. pose proof (io_chips _ Hok) as Hch. rewrite Hc in Hch. apply Forall_cons in Hch as [Hco _]. unfold interrupt_handle_exception. rewrite Hc. cbn [dispatch_all dispatch]. unfold plic_irqchip_dispatch, plic_claim.
  destruct w as [cs [se th pr pe co] ca]. cbn [chips pic calls pending] in *. subst cs. destruct pe as [|irq l].
  - cbn [base nirq]. rewrite (proj2 (Z.leb_gt 0 (0 - b))) by lia. done.
  - apply Forall_cons in Hp as [Hirq _]. rewrite (s32_small irq) by lia. cbn [base nirq desc set_pic chips calls pic]. rewrite (proj2 (Z.eqb_neq irq 0)) by lia. cbn [negb].
    unfold entry, search_irqchip. cbn [chips search_chips]. unfold has_irq. cbn [base nirq].
    replace ((0 <=? irq - b) && (irq - b <? n)) with ((b <=? irq) && (irq <? b + n)) by (f_equal; [destruct (Z.leb_spec b irq), (Z.leb_spec 0 (irq - b)); lia|destruct (Z.ltb_spec irq (b + n)), (Z.ltb_spec (irq - b) n); lia]).
    destruct ((b <=? irq) && (irq <? b + n)) eqn:E.
    + apply andb_true_iff in E as [E1%Z.leb_le E2%Z.ltb_lt]. pose proof (co_len _ Hco) as Hlen. cbn in Hlen. destruct (lookup_lt_is_Some_2 ds (Z.to_nat (irq - b))) as [d Hd]; [lia|]. cbn [desc base]. rewrite Hd. cbn [deref res_bind].
      pose proof (co_func _ Hco) as HF. cbn in HF. eapply Forall_lookup_1 in HF; [|exact Hd]. rewrite (proj2 (Z.eqb_neq (func d) 0)) by done. cbn [res_bind]. eexists. split; [done|]. cbn. rewrite u32_small by lia. done.
    + cbn [res_bind]. eexists. split; [done|]. cbn. rewrite u32_small, app_nil_r by lia. done.
Qed.

Definition shape (c : irqchip_t) : Z * Z * bool * bool * bool := (base c, nirq c, enable c, disable c, dispatch c).

Lemma shape_changed w i c o d p : chips w !! i = Some c -> shape <$> chips (set_pic (set_chip w i (set_irq c o d)) p) = shape <$> chips w.
Proof. intros Hi. cbn [chips set_pic set_chip]. rewrite list_fmap_insert. apply list_insert_id. rewrite list_lookup_fmap, Hi. done. Qed.

Lemma one_chip_shape w w' : one_chip w -> irqs_ok w' -> shape <$> chips w' = shape <$> chips w -> pending (pic w') = pending (pic w) -> one_chip w'.
Proof.
  intros [_ [ds Hc] Hp] Hok Hs Ep. split; [done| |by rewrite Ep]. rewrite Hc in Hs. destruct (chips w') as [|[b' n' ds' e1 e2 e3] [|? ?]]; [done| |done]. cbn in Hs. simplify_eq. by exists ds'.
Qed.

Lemma one_chip_request w irq f x r w' : one_chip w -> is_handler f -> request_irq irq f x w = Ok (r, w') -> one_chip w'.
Proof.
  intros Hw Hf E. pose proof (request_irq_ok w irq f x (oc_ok _ Hw) Hf) as H. destruct (irq_is_valid irq w && _) eqn:Ev; [|rewrite E in H; by simplify_eq]. destruct H as (w1 & E1 & Hok & _ & Hp & _). rewrite E in E1. simplify_eq.
  apply (one_chip_shape w); [done|done| |done]. unfold request_irq in E. rewrite (proj2 (Z.eqb_neq f 0)) in E by apply Hf. destruct (search_irqchip irq w) as [[i c]|] eqn:Es; [|done].
  destruct (search_found w irq i c (oc_ok _ Hw) Es) as (Hi & Hc & _ & d & Hd & _). rewrite Hd in E. cbn [deref res_bind] in E. destruct (negb _); [done|]. cbn [set_irq enable] in E. rewrite (proj1 (co_fns _ Hc)) in E.
  unfold plic_irqchip_enable in E. destruct (bit _); [|done|done]. cbn [res_bind] in E. injection E as <- . by apply shape_changed.
Qed.

Lemma one_chip_free w irq r w' : one_chip w -> free_irq irq w = Ok (r, w') -> one_chip w'.
Proof.
  intros Hw E. pose proof (free_irq_ok w irq (oc_ok _ Hw)) as H. destruct (handler w irq) eqn:Ev; [|rewrite E in H; by simplify_eq]. destruct H as (w1 & E1 & Hok & _ & Hp & _). rewrite E in E1. simplify_eq.
  apply (one_chip_shape w); [done|done| |done]. unfold free_irq in E. destruct (search_irqchip irq w) as [[i c]|] eqn:Es; [|done].
  destruct (search_found w irq i c (oc_ok _ Hw) Es) as (Hi & Hc & _ & d & Hd & _). rewrite Hd in E. cbn [deref res_bind] in E. destruct (func d =? null_interrupt_function); [done|]. cbn [set_irq disable] in E. rewrite (proj2 (co_fns _ Hc)) in E.
  unfold plic_irqchip_disable in E. destruct (bit _); [|done|done]. cbn [res_bind] in E. injection E as <- . by apply shape_changed.
Qed.

Lemma irqs_ok_same w w' : irqs_ok w -> chips w' = chips w -> senable (pic w') = senable (pic w) -> irqs_ok w'.
Proof.
  intros [H1 H2 H3] Ec Es. split; [by rewrite Ec|by rewrite Es|]. intros irq. unfold irq_is_valid, handler, entry, search_irqchip in *. rewrite Ec, Es. apply H3.
Qed.

Lemma irq_reachable_ok w : irq_reachable w -> one_chip w.
Proof.
  induction 1 as [x w Hx E|w w' _ IH Hs]; [by eapply probe_ok|]. destruct Hs as [irq f x r w w' Hf E|irq r w w' E|irq w Hirq|w w' E].
  - by eapply one_chip_request.
  - by eapply one_chip_free.
  - split; [by eapply irqs_ok_same; [apply IH| |]|apply IH|]. cbn. apply Forall_app. split; [apply IH|]. by constructor.
  - pose proof (handle_ok w IH) as H. destruct (pending (pic w)) as [|irq l] eqn:Ep; [by rewrite E in H; simplify_eq|]. destruct H as (w1 & E1 & Ec & Epl & _ & Es & _). rewrite E in E1. simplify_eq.
    split; [by eapply irqs_ok_same; [apply IH| |]|rewrite Ec; apply IH|]. pose proof (oc_pending _ IH) as Hp. rewrite Ep in Hp. by apply Forall_cons in Hp as [_ ?].
Qed.

(** The function of the table for an interrupt without a handler: [null_interrupt_function]. *)
Definition unhandled (w : irqs) (irq : Z) : list (Z * Z) := match entry w irq with Some d => [(func d, data d)] | None => [] end.

Lemma one_chip_valid w : one_chip w -> forall irq, irq_is_valid irq w = bool_decide (b <= irq < b + n).
Proof.
  intros Hw irq. destruct (oc_chip _ Hw) as [ds Hc]. unfold irq_is_valid, search_irqchip. rewrite Hc. cbn [search_chips]. unfold has_irq. cbn [base nirq].
  destruct (Z.leb_spec b irq), (Z.ltb_spec irq (b + n)); cbn [andb]; case_bool_decide; lia || done.
Qed.

(** C33. Interrupts reach the handler that was registered.  Whatever drivers register and remove
    and the hardware raises: the enable bits of the PLIC are exactly those of the interrupts
    that have a handler; for an interrupt of the controller, registering succeeds just when it
    is free and removing just when it is not, and both change the handler and the enable bit
    of no other interrupt and nothing else of the PLIC; for any other number both fail and
    change nothing, and so does registering no function; handling calls the function in the
    table for the oldest pending interrupt, once and with its data, or nothing when it is not
    of the controller, and completes that interrupt, and does nothing when there is none. *)
Theorem irq_table_exact w irq f x :
  irq_reachable w -> is_handler f ->
  request_irq irq 0 x w = Ok (false, w) /\
  (if decide (b <= irq < b + n) then
     Z.testbit (senable (pic w)) irq = (match handler w irq with Some _ => true | None => false end) /\
     match handler w irq with
     | None => free_irq irq w = Ok (false, w) /\
         exists w', request_irq irq f x w = Ok (true, w') /\ only_bit irq true w w' /\ calls w' = calls w /\
           forall i, handler w' i = if i =? irq then Some (f, x) else handler w i
     | Some _ => request_irq irq f x w = Ok (false, w) /\
         exists w', free_irq irq w = Ok (true, w') /\ only_bit irq false w w' /\ calls w' = calls w /\
           forall i, handler w' i = if i =? irq then None else handler w i
     end
   else handler w irq = None /\ request_irq irq f x w = Ok (false, w) /\ free_irq irq w = Ok (false, w)) /\
  match pending (pic w) with
  | [] => interrupt_handle_exception w = Ok w
  | irq' :: l => exists w', interrupt_handle_exception w = Ok w' /\ pending (pic w') = l /\ completed (pic w') = completed (pic w) ++ [irq'] /\
      senable (pic w') = senable (pic w) /\ (forall i, handler w' i = handler w i) /\
      calls w' = calls w ++ (match handler w irq' with Some fx => [fx] | None => if decide (b <= irq' < b + n) then unhandled w irq' else [] end)
  end.
Proof.
  intros Hr Hf. pose proof (irq_reachable_ok w Hr) as Hw. pose proof (oc_ok _ Hw) as Hok. split; [done|].
  pose proof (one_chip_valid w Hw) as Hvalid. split.
  - pose proof (request_irq_ok w irq f x Hok Hf) as H1. pose proof (free_irq_ok w irq Hok) as H2. rewrite Hvalid in H1.
    destruct (decide (b <= irq < b + n)) as [Hin|Hout].
    + rewrite bool_decide_true in H1 by done. cbn [andb] in H1. split; [apply Hok; by rewrite Hvalid, bool_decide_true|].
      destruct (handler w irq); cbn [negb] in H1.
      * split; [done|]. destruct H2 as (w' & E & _ & Eca & _ & Hh & Hbit). by exists w'.
      * split; [done|]. destruct H1 as (w' & E & _ & Eca & _ & Hh & Hbit). by exists w'.
    + rewrite bool_decide_false in H1 by done. cbn [andb] in H1. assert (Hno : handler w irq = None); [|rewrite Hno in H2; done].
      unfold handler, entry. specialize (Hvalid irq). unfold irq_is_valid in Hvalid. rewrite bool_decide_false in Hvalid by done. by destruct (search_irqchip irq w).
  - pose proof (handle_ok w Hw) as H. destruct (pending (pic w)) as [|irq' l]; [done|]. destruct H as (w' & E & Ec & Ep & Eco & Es & Eca). exists w'. split_and!; try done.
    + intros i. unfold handler, entry, search_irqchip. by rewrite Ec.
    + rewrite Eca. f_equal. unfold handler, unhandled. specialize (Hvalid irq'). unfold irq_is_valid in Hvalid. unfold entry in *.
      destruct (search_irqchip irq' w) as [[i c]|] eqn:Esr; [|by rewrite decide_False by (symmetry in Hvalid; by apply bool_decide_eq_false in Hvalid)].
      destruct (search_found w irq' i c Hok Esr) as (_ & _ & _ & d & Hd & _). rewrite Hd. destruct (func d =? null_interrupt_function); [|done].
      by rewrite decide_True by (symmetry in Hvalid; by apply bool_decide_eq_true in Hvalid).
Qed.
End work.

(** ** The controller of the machine: interrupts 1 to 10 *)

Definition demo_probed : irqs := match plic_irqchip_probe true 1 10 (mk_irqs [] (mk_plic 65535 0 [] [] []) []) with Ok (_, w) => w | _ => mk_irqs [] (mk_plic 0 0 [] [] []) [] end.
Definition demo_irqs : irqs := match request_irq 5 4096 8192 demo_probed with Ok (_, w) => w | _ => demo_probed end.

Lemma demo_irqs_reachable : irq_reachable 1 10 demo_irqs.
Proof.
  eapply irq_next; [apply (irq_start 1 10 65535 demo_probed); [lia|vm_compute; reflexivity]|]. apply (step_request 5 4096 8192 true); [done|]. vm_compute. reflexivity.
Qed.

(** Interrupt 5 has a handler, 6 gets one, and 11 is not of the controller. *)
Lemma irq_table_exact_witness :
  (Z.testbit (senable (pic demo_irqs)) 5 = true /\ request_irq 5 12288 0 demo_irqs = Ok (false, demo_irqs)) /\
  (exists w', request_irq 6 12288 0 demo_irqs = Ok (true, w') /\ handler w' 6 = Some (12288, 0) /\ handler w' 5 = Some (4096, 8192) /\ Z.testbit (senable (pic w')) 6 = true) /\
  request_irq 11 12288 0 demo_irqs = Ok (false, demo_irqs).
Proof.
  assert (E5 : handler demo_irqs 5 = Some (4096, 8192)) by (vm_compute; reflexivity). assert (E6 : handler demo_irqs 6 = None) by (vm_compute; reflexivity).
  split; [|split].
  - destruct (irq_table_exact 1 10 ltac:(lia) ltac:(lia) ltac:(lia) demo_irqs 5 12288 0 demo_irqs_reachable ltac:(done)) as (_ & H & _).
    rewrite decide_True in H by lia. rewrite E5 in H. destruct H as (H1 & H2 & _). split; [exact H1|exact H2].
  - destruct (irq_table_exact 1 10 ltac:(lia) ltac:(lia) ltac:(lia) demo_irqs 6 12288 0 demo_irqs_reachable ltac:(done)) as (_ & H & _).
    rewrite decide_True in H by lia. rewrite E6 in H. destruct H as (_ & _ & w' & E & [_ Hb] & _ & Hh). exists w'. split; [exact E|]. rewrite !Hh, Hb, E5. by split_and!.
  - destruct (irq_table_exact 1 10 ltac:(lia) ltac:(lia) ltac:(lia) demo_irqs 11 12288 0 demo_irqs_reachable ltac:(done)) as (_ & H & _).
    rewrite decide_False in H by lia. apply H.
Defined.

(** Interrupts from 31 on: the shift of a signed 1 overflows. *)
Lemma high_irq_undefined w c irq : base c = 1 -> 31 <= irq -> plic_irqchip_enable c (irq - base c) w = Undef.
Proof.
  intros Hb Hi. unfold plic_irqchip_enable, bit. replace (irq - base c + base c) with irq by lia. rewrite (proj2 (Z.ltb_ge irq 31)) by lia. by rewrite andb_false_r.
Qed.
