(* ===== verification/Xjil.v ===== *)
(** * Xjil: the language of the device tree (lib/xjil/xjil.c)

    A text with objects, arrays, numbers (integer expressions), strings and booleans, where a
    value may have a tag and an object may be followed by an array.

    A position in the text is what is left of it, up to its NUL: the code does not look at the
    length that it is given.  A string is the list of its characters and an array the list of its
    elements, up to [size].

    Two things are parameters because the code leaves them to the memory.  [mem] is what an
    allocation gives: nothing, or memory in which the word of [size], which [_array_new] does
    not set, has some value; the purpose of the request and the text that is left tell the
    requests of a parse apart.  [tail] are the bytes behind a string, which is not ended by a
    NUL.  The buffers that the characters of strings are in are taken to be there. *)

From S2P Require Import Prelude Bits Strtoul Vfs Cpio.

(** ** Values *)

Definition TYPE_NULL : Z := 0.
Definition TYPE_BOOL : Z := 1.
Definition TYPE_NUMBER : Z := 2.
Definition TYPE_STRING : Z := 3.
Definition TYPE_ARRAY : Z := 4.
Definition TYPE_OBJECT : Z := 8.

Definition string_t : Type := list Z.

Set Warnings "-register-all".

(** The tag, the type and, depending on it, the number, the string, the elements and the
    members. *)
Inductive xjil_value_t := mk_value (tag : option string_t) (type num : Z) (str : string_t) (arr : list xjil_value_t) (obj : list (string_t * xjil_value_t)).

Definition v_tag (v : xjil_value_t) := let 'mk_value t _ _ _ _ _ := v in t.
Definition v_type (v : xjil_value_t) := let 'mk_value _ t _ _ _ _ := v in t.
Definition v_num (v : xjil_value_t) := let 'mk_value _ _ n _ _ _ := v in n.
Definition v_str (v : xjil_value_t) := let 'mk_value _ _ _ s _ _ := v in s.
Definition v_arr (v : xjil_value_t) := let 'mk_value _ _ _ _ a _ := v in a.
Definition v_obj (v : xjil_value_t) := let 'mk_value _ _ _ _ _ o := v in o.

Definition value_new : xjil_value_t := mk_value None TYPE_NULL 0 [] [] [].

(** What memory is asked for. *)
Inductive request := AContext | AValue | AMember | AKey | ATag | AString | AArray | AObject | AGrow.

Section memory.
Context (mem : request -> list Z -> option Z).

(** [assert] of an allocation. *)
Definition allocate (k : request) (s : list Z) : res Z := match mem k s with Some size => Ok size | None => Panic end.

(** [array_new]: the new array is taken for one of as many elements as there is in memory. *)
Definition array_new (s : list Z) : res (list xjil_value_t) := let* size := allocate AArray s in let* _ := defined_if (size =? 0) in Ok [].
Definition object_new (s : list Z) : res (list (string_t * xjil_value_t)) := let* size := allocate AObject s in let* _ := defined_if (size =? 0) in Ok [].

(** [value_new(TYPE_NULL)], cleared by [calloc], and [member_new]. *)
Definition new_value (s : list Z) : res xjil_value_t := let* _ := allocate AValue s in Ok value_new.
Definition member_new (s : list Z) : res xjil_value_t :=
  let* _ := allocate AMember s in
  let* v := new_value s in
  let* _ := allocate AKey s in Ok v.

(** [array_push] on an array of [n] elements: its buffer has room for 1, 2, 4, ... elements, and
    nobody asks whether there is one. *)
Definition room (n : Z) (s : list Z) : res unit :=
  if (n =? 0) || (n =? 2 ^ Z.log2 n) then match mem AGrow s with Some _ => Ok tt | None => Undef end else Ok tt.

(** A value is initialised once for each of its types, so that there is no array to be cleared. *)
Definition value_init (s0 : list Z) (v : xjil_value_t) (type : Z) : res xjil_value_t :=
  let 'mk_value t ty n s a o := v in
  let ty := Z.lor ty type in
  if type =? TYPE_ARRAY then let* a := array_new s0 in Ok (mk_value t ty n s a o)
  else if type =? TYPE_OBJECT then let* o := object_new s0 in Ok (mk_value t ty n s a o)
  else if type =? TYPE_STRING then let* _ := allocate AString s0 in Ok (mk_value t ty n [] a o)
  else if type =? TYPE_NUMBER then Ok (mk_value t ty 0 s a o)
  else if type =? TYPE_BOOL then Ok (mk_value t ty 0 s a o)
  else Ok (mk_value t ty n s a o).

Definition push_element (s0 : list Z) (v e : xjil_value_t) : res xjil_value_t :=
  let 'mk_value t ty n s a o := v in
  let* _ := c_assert (has ty TYPE_ARRAY) in
  let* _ := room (Z.of_nat (length a)) s0 in Ok (mk_value t ty n s (a ++ [e]) o).

Definition push_member (s0 : list Z) (v : xjil_value_t) (key : string_t) (e : xjil_value_t) : res xjil_value_t :=
  let 'mk_value t ty n s a o := v in
  let* _ := c_assert (has ty TYPE_OBJECT) in
  let* _ := room (Z.of_nat (length o)) s0 in Ok (mk_value t ty n s a (o ++ [(key, e)])).

Definition set_num (v : xjil_value_t) (n : Z) : xjil_value_t := let 'mk_value t ty _ s a o := v in mk_value t ty n s a o.
Definition set_str (v : xjil_value_t) (s : string_t) : xjil_value_t := let 'mk_value t ty n _ a o := v in mk_value t ty n s a o.
Definition set_tag (v : xjil_value_t) (x : string_t) : xjil_value_t := let 'mk_value _ ty n s a o := v in mk_value (Some x) ty n s a o.

(** ** Tokens *)

Record context_t := mk_ctx { src : list Z; line : Z; num : Z; str : string_t }.

(** The other tokens are characters. *)
Definition TOKEN_NUM : Z := 126.
Definition TOKEN_ID : Z := 127.
Definition TOKEN_BOOL : Z := 128.
Definition TOKEN_STRING : Z := 129.
Definition TOKEN_TYPE_MAX : Z := 130.

Definition TRUE_ : string_t := [116; 114; 117; 101].
Definition FALSE_ : string_t := [102; 97; 108; 115; 101].

Definition is_punct (c : Z) : bool := bool_decide (c ∈ [123; 125; 58; 44; 91; 93; 62; 60; 43; 45; 42; 40; 41]).

(** [!strncmp(s, word, s->size)]: [s] is as much of the word as it is long. *)
Definition same_start (s word : string_t) : bool := bool_decide (take (length s) word = s).

(** The characters of an identifier, and what is behind them. *)
Fixpoint span (f : Z -> bool) (s : list Z) : list Z * list Z :=
  match s with
  | [] => ([], [])
  | c :: s' => if f c then let '(a, b) := span f s' in (c :: a, b) else ([], s)
  end.
Definition id_char (c : Z) : bool := isalnum c || (c =? 95) || (c =? 45).

Definition decimal (v c : Z) : Z := u64 (u64 (v * 10) + char_of c - 48).
Definition hexadecimal (v c : Z) : Z := u64 (u64 (v * 16) + Z.land c 15 + (if 65 <=? char_of c then 9 else 0)).

Definition scan_number (c : Z) (s : list Z) : res (Z * list Z) :=
  let token_val := c - 48 in
  if 0 <? token_val then
    let '(ds, s) := span isalnum s in Ok (foldl decimal token_val ds, s)
  else
    match s with
    | x :: s' =>
        if (x =? 120) || (x =? 88) then
          let '(ds, s'') := span isalnum s' in
          match ds with [] => Panic | _ => Ok (foldl hexadecimal token_val ds, s'') end
        else Ok (token_val, s)
    | [] => Ok (token_val, s)
    end.

Definition escape (c : Z) : Z :=
  if c =? 110 then 10 else if c =? 114 then 13 else if c =? 102 then 12 else if c =? 116 then 9 else c.

(** A NUL behind a backslash is taken as a character, and the text is left. *)
Fixpoint scan_string (s : list Z) : res (string_t * list Z) :=
  match s with
  | [] => Ok ([], [])
  | c :: s =>
      if c =? 34 then Ok ([], s)
      else if c =? 92 then
        match s with
        | [] => Undef
        | c :: s => let* '(t, s) := scan_string s in Ok (escape c :: t, s)
        end
      else let* '(t, s) := scan_string s in Ok (c :: t, s)
  end.

(** The newline that ends a comment is skipped with it; without one the text is left. *)
Fixpoint skip_comment (s : list Z) : res (list Z) :=
  match s with [] => Undef | c :: s => if c =? 10 then Ok s else skip_comment s end.

Definition classify (s : string_t) (ctx : context_t) (rest : list Z) : Z * context_t :=
  if same_start s TRUE_ then (TOKEN_BOOL, mk_ctx rest (line ctx) 1 s)
  else if same_start s FALSE_ then (TOKEN_BOOL, mk_ctx rest (line ctx) 0 s)
  else (TOKEN_ID, mk_ctx rest (line ctx) (num ctx) s).

Fixpoint next_loop (fuel : nat) (s : list Z) (ctx : context_t) : res (Z * context_t) :=
  match s with
  | [] => Ok (TOKEN_TYPE_MAX, mk_ctx [] (line ctx) (num ctx) (str ctx))
  | c :: s' =>
      match fuel with
      | O => Undef
      | S fuel =>
          if c =? 10 then next_loop fuel s' (mk_ctx (src ctx) (line ctx + 1) (num ctx) (str ctx))
          else if (c =? 9) || (c =? 13) || (c =? 32) then next_loop fuel s' ctx
          else if isalpha c || (c =? 95) then
            let '(a, s) := span id_char s' in Ok (classify (c :: a) ctx s)
          else if isdigit c then
            let* '(n, s) := scan_number c s' in Ok (TOKEN_NUM, mk_ctx s (line ctx) n (str ctx))
          else if c =? 34 then
            let* '(t, s) := scan_string s' in Ok (TOKEN_STRING, mk_ctx s (line ctx) (num ctx) t)
          else if is_punct c then Ok (c, mk_ctx s' (line ctx) (num ctx) (str ctx))
          else if c =? 47 then
            match s' with
            | 47 :: s'' => let* s := skip_comment s'' in next_loop fuel s ctx
            | _ => Ok (47, mk_ctx s' (line ctx) (num ctx) (str ctx))
            end
          else Panic
      end
  end.

Definition next (ctx : context_t) : res (Z * context_t) := next_loop (length (src ctx)) (src ctx) ctx.

Definition expect (ctx : context_t) (type : Z) : res context_t :=
  let* '(t, ctx) := next ctx in if negb (t =? type) then Panic else Ok ctx.

(** The position is set back, the number and the string of the token stay. *)
Definition next_if (ctx : context_t) (type : Z) : res (bool * context_t) :=
  let* '(t, c) := next ctx in
  if negb (t =? type) then Ok (false, mk_ctx (src ctx) (line ctx) (num c) (str c)) else Ok (true, c).

Definition peek (ctx : context_t) : res (Z * context_t) :=
  let* '(t, c) := next ctx in Ok (t, mk_ctx (src ctx) (line ctx) (num c) (str c)).

(** ** Parsing *)

(** Arithmetic of type [int]. *)
Definition int_res (x : Z) : res Z := let* _ := defined_if ((- 2 ^ 31 <=? x) && (x <? 2 ^ 31)) in Ok x.
Definition int_div (a b : Z) : res Z := let* _ := defined_if (negb (b =? 0)) in int_res (Z.quot a b).

Definition parser_tag (ctx : context_t) (v : xjil_value_t) : res (context_t * xjil_value_t) :=
  let* ctx := expect ctx 60 in
  let* ctx := expect ctx TOKEN_ID in
  let* _ := match v_tag v with Some _ => Ok 0 | None => allocate ATag (src ctx) end in
  let v := set_tag v (str ctx) in
  let* ctx := expect ctx 62 in
  Ok (ctx, v).

(** A turn of a loop and a call of a function take one unit of fuel each. *)
Fixpoint parser_factor (fuel : nat) (ctx : context_t) : res (Z * context_t) :=
  match fuel with
  | O => Undef
  | S fuel =>
      let* '(type, ctx) := peek ctx in
      if type =? 40 then
        let* ctx := expect ctx 40 in
        let* '(x, ctx) := parser_exp fuel ctx in
        let* ctx := expect ctx 41 in
        Ok (x, ctx)
      else if type =? TOKEN_NUM then
        let* '(_, ctx) := next ctx in Ok (s32 (num ctx), ctx)
      else Panic
  end
with term_loop (fuel : nat) (x type : Z) (ctx : context_t) : res (Z * context_t) :=
  match fuel with
  | O => Undef
  | S fuel =>
      if negb ((type =? 42) || (type =? 47)) then Ok (x, ctx)
      else
        let* '(_, ctx) := next ctx in
        let* '(v, ctx) := parser_factor fuel ctx in
        let* x := if type =? 42 then int_res (x * v) else int_div x v in
        let* '(type, ctx) := peek ctx in
        term_loop fuel x type ctx
  end
with parser_term (fuel : nat) (ctx : context_t) : res (Z * context_t) :=
  match fuel with
  | O => Undef
  | S fuel =>
      let* '(x, ctx) := parser_factor fuel ctx in
      let* '(type, ctx) := peek ctx in
      term_loop fuel x type ctx
  end
with exp_loop (fuel : nat) (x type : Z) (ctx : context_t) : res (Z * context_t) :=
  match fuel with
  | O => Undef
  | S fuel =>
      if negb ((type =? 43) || (type =? 45)) then Ok (x, ctx)
      else
        let* '(_, ctx) := next ctx in
        let* '(v, ctx) := parser_term fuel ctx in
        let* x := if type =? 43 then int_res (x + v) else int_res (x - v) in
        let* '(type, ctx) := peek ctx in
        exp_loop fuel x type ctx
  end
with parser_exp (fuel : nat) (ctx : context_t) : res (Z * context_t) :=
  match fuel with
  | O => Undef
  | S fuel =>
      let* '(x, ctx) := parser_term fuel ctx in
      let* '(type, ctx) := peek ctx in
      exp_loop fuel x type ctx
  end.

(** [parser_object] and [parser_array] with their loops. *)
Fixpoint parser_value (fuel : nat) (ctx : context_t) (v : xjil_value_t) : res (context_t * xjil_value_t) :=
  match fuel with
  | O => Undef
  | S fuel =>
      let* '(type, ctx) := peek ctx in
      let* '(type, ctx, v, with_tag) :=
        if type =? 60 then
          let* '(ctx, v) := parser_tag ctx v in
          let* '(type, ctx) := peek ctx in Ok (type, ctx, v, true)
        else Ok (type, ctx, v, false) in
      if type =? 123 then
        let* v := value_init (src ctx) v TYPE_OBJECT in
        let* ctx := expect ctx 123 in
        let* '(ctx, v) := object_loop fuel ctx v in
        let* '(type, ctx) := peek ctx in
        if type =? 91 then
          let* v := value_init (src ctx) v TYPE_ARRAY in
          let* ctx := expect ctx 91 in
          array_loop fuel ctx v
        else Ok (ctx, v)
      else if type =? 91 then
        let* v := value_init (src ctx) v TYPE_ARRAY in
        let* ctx := expect ctx 91 in
        array_loop fuel ctx v
      else if (type =? TOKEN_NUM) || (type =? 40) then
        let* v := value_init (src ctx) v TYPE_NUMBER in
        let* '(x, ctx) := parser_exp fuel ctx in
        Ok (ctx, set_num v (u64 x))
      else if type =? TOKEN_STRING then
        let* v := value_init (src ctx) v TYPE_STRING in
        let* '(_, ctx) := next ctx in
        Ok (ctx, set_str v (str ctx))
      else if type =? TOKEN_BOOL then
        let* v := value_init (src ctx) v TYPE_BOOL in
        let* '(_, ctx) := next ctx in
        Ok (ctx, set_num v (num ctx))
      else if with_tag : bool then Ok (ctx, v) else Panic
  end
with object_loop (fuel : nat) (ctx : context_t) (v : xjil_value_t) : res (context_t * xjil_value_t) :=
  match fuel with
  | O => Undef
  | S fuel =>
      let* '(type, ctx) := peek ctx in
      if type =? TOKEN_ID then
        let* e := member_new (src ctx) in
        let* ctx := expect ctx TOKEN_ID in
        let key := str ctx in
        let* ctx := expect ctx 58 in
        let* '(ctx, e) := parser_value fuel ctx e in
        let* v := push_member (src ctx) v key e in
        let* '(more, ctx) := next_if ctx 44 in
        if more : bool then object_loop fuel ctx v
        else let* ctx := expect ctx 125 in Ok (ctx, v)
      else let* ctx := expect ctx 125 in Ok (ctx, v)
  end
with array_loop (fuel : nat) (ctx : context_t) (v : xjil_value_t) : res (context_t * xjil_value_t) :=
  match fuel with
  | O => Undef
  | S fuel =>
      let* '(type, ctx) := peek ctx in
      if negb (type =? 93) then
        let* e := new_value (src ctx) in
        let* '(ctx, e) := parser_value fuel ctx e in
        let* v := push_element (src ctx) v e in
        let* '(more, ctx) := next_if ctx 44 in
        if more : bool then array_loop fuel ctx v
        else let* ctx := expect ctx 93 in Ok (ctx, v)
      else let* ctx := expect ctx 93 in Ok (ctx, v)
  end.

(** Every two calls read a character at least. *)
Definition parse_fuel (json : list Z) : nat := 8 * S (length json).

(** [json] is the memory that the text is in; the text ends at the first NUL. *)
Definition xjil_parse (v : xjil_value_t) (json : list Z) (len : Z) : res (Z * xjil_value_t) :=
  if len =? 0 then Ok (-1, v)
  else
    let* json := deref (cstring json) in
    let* _ := allocate AContext json in
    let* '(_, v) := parser_value (parse_fuel json) (mk_ctx json 1 0 []) v in
    Ok (0, v).
End memory.

(** ** Reading values *)

Section tail.
Context (tail : list Z).

(** A string as the C functions see it. *)
Definition c_string (s : string_t) : res string_t := deref (cstring (s ++ tail)).

(** A value without a tag: the pointer is followed all the same. *)
Definition xjil_value_get_tag (v : xjil_value_t) : res string_t := let* t := deref (v_tag v) in c_string t.

Definition xjil_is_null (v : xjil_value_t) : bool := v_type v =? TYPE_NULL.
Definition xjil_is_string (v : xjil_value_t) : bool := v_type v =? TYPE_STRING.
Definition xjil_is_boolean (v : xjil_value_t) : bool := v_type v =? TYPE_BOOL.
Definition xjil_is_number (v : xjil_value_t) : bool := v_type v =? TYPE_NUMBER.
Definition xjil_is_array (v : xjil_value_t) : bool := has (v_type v) TYPE_ARRAY.
Definition xjil_is_object (v : xjil_value_t) : bool := has (v_type v) TYPE_OBJECT.

Definition xjil_get_boolean (v : xjil_value_t) : res Z := let* _ := c_assert (v_type v =? TYPE_BOOL) in Ok (s32 (v_num v)).
Definition xjil_get_number (v : xjil_value_t) : res Z := let* _ := c_assert (v_type v =? TYPE_NUMBER) in Ok (v_num v).
Definition xjil_get_string_size (v : xjil_value_t) : res Z := let* _ := c_assert (v_type v =? TYPE_STRING) in Ok (Z.of_nat (length (v_str v))).
Definition xjil_get_string (v : xjil_value_t) : res string_t := let* _ := c_assert (v_type v =? TYPE_STRING) in c_string (v_str v).

Definition xjil_get_array_size (v : xjil_value_t) : res Z := let* _ := c_assert (has (v_type v) TYPE_ARRAY) in Ok (Z.of_nat (length (v_arr v))).
Definition xjil_get_array_element (v : xjil_value_t) (index : Z) : res xjil_value_t :=
  let* _ := c_assert (has (v_type v) TYPE_ARRAY) in
  let* _ := c_assert (index <? Z.of_nat (length (v_arr v))) in
  deref (v_arr v !! Z.to_nat index).

Definition xjil_get_object_size (v : xjil_value_t) : res Z := let* _ := c_assert (has (v_type v) TYPE_OBJECT) in Ok (Z.of_nat (length (v_obj v))).
Definition xjil_get_object_key (v : xjil_value_t) (index : Z) : res string_t :=
  let* _ := c_assert (has (v_type v) TYPE_OBJECT) in
  let* _ := c_assert (index <? Z.of_nat (length (v_obj v))) in
  let* m := deref (v_obj v !! Z.to_nat index) in c_string m.1.
Definition xjil_get_object_value (v : xjil_value_t) (index : Z) : res xjil_value_t :=
  let* _ := c_assert (has (v_type v) TYPE_OBJECT) in
  let* _ := c_assert (index <? Z.of_nat (length (v_obj v))) in
  let* m := deref (v_obj v !! Z.to_nat index) in Ok m.2.

Fixpoint find_member (l : list (string_t * xjil_value_t)) (key : string_t) : res (option xjil_value_t) :=
  match l with
  | [] => Ok None
  | (k, v) :: l => let* k := c_string k in if bool_decide (k = key) then Ok (Some v) else find_member l key
  end.

Definition xjil_find_object_value (v : xjil_value_t) (key : string_t) : res (option xjil_value_t) :=
  let* _ := c_assert (has (v_type v) TYPE_OBJECT) in find_member (v_obj v) key.

Definition xjil_read_string (v : xjil_value_t) (name : string_t) (def : option string_t) : res (option string_t) :=
  let* t := xjil_find_object_value v name in
  match t with
  | Some t => if xjil_is_string t then let* s := xjil_get_string t in Ok (Some s) else Ok def
  | None => Ok def
  end.

(** The functions that read a number differ in its type. *)
Definition read_number (conv : Z -> Z) (v : xjil_value_t) (name : string_t) (def : Z) : res Z :=
  let* t := xjil_find_object_value v name in
  match t with
  | Some t => if xjil_is_number t then let* n := xjil_get_number t in Ok (conv n) else Ok def
  | None => Ok def
  end.

Definition xjil_read_int : xjil_value_t -> string_t -> Z -> res Z := read_number s32.
Definition xjil_read_long : xjil_value_t -> string_t -> Z -> res Z := read_number s64.
Definition xjil_read_u8 : xjil_value_t -> string_t -> Z -> res Z := read_number (wrap 8).
Definition xjil_read_u16 : xjil_value_t -> string_t -> Z -> res Z := read_number (wrap 16).
Definition xjil_read_u32 : xjil_value_t -> string_t -> Z -> res Z := read_number u32.
Definition xjil_read_u64 : xjil_value_t -> string_t -> Z -> res Z := read_number u64.

Definition xjil_read_bool (v : xjil_value_t) (name : string_t) (def : Z) : res Z :=
  let* t := xjil_find_object_value v name in
  match t with
  | Some t => if xjil_is_boolean t then xjil_get_boolean t else Ok def
  | None => Ok def
  end.
End tail.
