(* ===== verification/XjilProof.v ===== *)
(** * XjilProof: the grammar of the device tree language and its parser

    The spelling of tokens, white space and comments as inductive predicates on characters, and the
    proof that [next] reads the tokens of every text that is spelled that way.  The grammar as
    inductive predicates on tokens, with the value that each phrase denotes, and the proof that the
    parser reads every phrase of it and returns that value. *)

From S2P Require Import Prelude Bits Strtoul Vfs Cpio CpioProof Xjil.

(** ** Spelling *)

Inductive token := KChar (c : Z) | KNum (n : Z) | KId (s : string_t) | KBool (b : bool) | KStr (s : string_t).

Definition code (t : token) : Z :=
  match t with KChar c => c | KNum _ => TOKEN_NUM | KId _ => TOKEN_ID | KBool _ => TOKEN_BOOL | KStr _ => TOKEN_STRING end.

Inductive blank : list Z -> Prop :=
| blank_nil : blank []
| blank_space c s : c ∈ [9; 10; 13; 32] -> blank s -> blank (c :: s)
| blank_comment l s : 10 ∉ l -> blank s -> blank (47 :: 47 :: l ++ 10 :: s).

Definition is_digit (c : Z) : Prop := 48 <= c <= 57.
Definition is_hex (c : Z) : Prop := is_digit c \/ 65 <= c <= 70 \/ 97 <= c <= 102.
Definition digit_value (c : Z) : Z := if c <=? 57 then c - 48 else if c <=? 70 then c - 55 else c - 87.

(** The number that a list of digits stands for in a base. *)
Definition numeral (b : Z) (ds : list Z) : Z := foldl (fun v c => v * b + digit_value c) 0 ds.

(** The text between the quotes: a quote, a backslash and the characters of [escape] are written
    with a backslash. *)
Inductive quoted : string_t -> list Z -> Prop :=
| q_nil : quoted [] []
| q_char c t s : c <> 34 -> c <> 92 -> quoted t s -> quoted (c :: t) (c :: s)
| q_escape c t s : quoted t s -> quoted (escape c :: t) (92 :: c :: s).

Inductive spells : token -> list Z -> Prop :=
| sp_char c : is_punct c = true \/ c = 47 -> spells (KChar c) [c]
| sp_zero : spells (KNum 0) [48]
| sp_decimal d ds : 49 <= d <= 57 -> Forall is_digit ds -> spells (KNum (u64 (numeral 10 (d :: ds)))) (d :: ds)
| sp_hexadecimal x ds : x = 120 \/ x = 88 -> ds <> [] -> Forall is_hex ds -> spells (KNum (u64 (numeral 16 ds))) (48 :: x :: ds)
| sp_id c s : isalpha c || (c =? 95) = true -> forallb id_char s = true ->
    same_start (c :: s) TRUE_ = false -> same_start (c :: s) FALSE_ = false -> spells (KId (c :: s)) (c :: s)
| sp_true : spells (KBool true) TRUE_
| sp_false : spells (KBool false) FALSE_
| sp_string t s : quoted t s -> spells (KStr t) (34 :: s ++ [34]).

(** What may stand right behind a token. *)
Definition stops (f : Z -> bool) (s : list Z) : Prop := match s with [] => True | c :: _ => f c = false end.
Definition follows (t : token) (s : list Z) : Prop :=
  match t with
  | KNum _ => stops isalnum s
  | KId _ | KBool _ => stops id_char s
  | KChar c => if c =? 47 then stops (Z.eqb 47) s else True
  | KStr _ => True
  end.

Inductive tokens : list token -> list Z -> Prop :=
| tokens_nil b : blank b -> tokens [] b
| tokens_cons b t w ts s : blank b -> spells t w -> follows t s -> tokens ts s -> tokens (t :: ts) (b ++ w ++ s).

Create HintDb xjil.
#[export] Hint Constructors blank spells tokens : xjil.

(** ** Characters *)

Lemma is_digit_cases d : is_digit d -> d ∈ [48; 49; 50; 51; 52; 53; 54; 55; 56; 57].
Proof. unfold is_digit. rewrite !elem_of_cons. lia. Qed.

Lemma is_hex_cases d : is_hex d -> d ∈ [48; 49; 50; 51; 52; 53; 54; 55; 56; 57; 65; 66; 67; 68; 69; 70; 97; 98; 99; 100; 101; 102].
Proof. unfold is_hex, is_digit. rewrite !elem_of_cons. lia. Qed.

(** A property that is evaluated at every member of a list holds of its members. *)
Lemma check_all (f : Z -> bool) l c : c ∈ l -> forallb f l = true -> f c = true.
Proof. intros Hc H. rewrite forallb_forall in H. by apply H, list_elem_of_In. Qed.

Lemma digit_ok d : is_digit d -> isalnum d = true /\ isdigit d = true /\ isalpha d = false /\ char_of d - 48 = digit_value d.
Proof.
  intros Hd%is_digit_cases. pose proof (check_all (fun d => isalnum d && isdigit d && negb (isalpha d) && (char_of d - 48 =? digit_value d)) _ d Hd eq_refl) as H.
  cbn beta in H. rewrite !andb_true_iff, Z.eqb_eq, negb_true_iff in H. tauto.
Qed.

Lemma hex_ok d : is_hex d -> isalnum d = true /\ Z.land d 15 + (if 65 <=? char_of d then 9 else 0) = digit_value d.
Proof.
  intros Hd%is_hex_cases. pose proof (check_all (fun d => isalnum d && (Z.land d 15 + (if 65 <=? char_of d then 9 else 0) =? digit_value d)) _ d Hd eq_refl) as H.
  cbn beta in H. rewrite !andb_true_iff, Z.eqb_eq in H. tauto.
Qed.

Lemma span_ok f a s : forallb f a = true -> stops f s -> span f (a ++ s) = (a, s).
Proof.
  intros Ha Hs. induction a as [|c a IH]; cbn [app span].
  - destruct s as [|c s]; [done|]. cbn in Hs |- *. by rewrite Hs.
  - cbn [forallb] in Ha. apply andb_true_iff in Ha as [-> Ha]. by rewrite (IH Ha).
Qed.

(** ** Numbers *)

Lemma decimal_ok ds : forall v, Forall is_digit ds -> foldl decimal (u64 v) ds = u64 (foldl (fun v c => v * 10 + digit_value c) v ds).
Proof.
  induction ds as [|d ds IH]; intros v HF; [done|]. apply Forall_cons in HF as [Hd HF]. cbn [foldl]. rewrite <- (IH _ HF). f_equal. unfold decimal.
  destruct (digit_ok d Hd) as (_ & _ & _ & <-). unfold u64, wrap. rewrite Zmult_mod_idemp_l. rewrite <- Z.add_sub_assoc. by rewrite Zplus_mod_idemp_l.
Qed.

Lemma hexadecimal_ok ds : forall v, Forall is_hex ds -> foldl hexadecimal (u64 v) ds = u64 (foldl (fun v c => v * 16 + digit_value c) v ds).
Proof.
  induction ds as [|d ds IH]; intros v HF; [done|]. apply Forall_cons in HF as [Hd HF]. cbn [foldl]. rewrite <- (IH _ HF). f_equal. unfold hexadecimal.
  destruct (hex_ok d Hd) as (_ & <-). unfold u64, wrap. rewrite Zmult_mod_idemp_l, <- Z.add_assoc. by rewrite Zplus_mod_idemp_l.
Qed.

Lemma scan_decimal d ds s : 49 <= d <= 57 -> Forall is_digit ds -> stops isalnum s -> scan_number d (ds ++ s) = Ok (u64 (numeral 10 (d :: ds)), s).
Proof.
  intros Hd HF Hs. unfold scan_number. rewrite (proj2 (Z.ltb_lt 0 (d - 48))) by lia. rewrite (span_ok isalnum ds s); [|apply forallb_forall; intros c Hc; eapply Forall_forall in HF; [apply (digit_ok c HF)|by apply list_elem_of_In]|done].
  unfold numeral. cbn [foldl]. replace (0 * 10 + digit_value d) with (d - 48) by (unfold digit_value; rewrite (proj2 (Z.leb_le d 57)); lia).
  by rewrite <- decimal_ok, u64_small by (done || lia).
Qed.

Lemma scan_hexadecimal x ds s : x = 120 \/ x = 88 -> ds <> [] -> Forall is_hex ds -> stops isalnum s -> scan_number 48 (x :: ds ++ s) = Ok (u64 (numeral 16 ds), s).
Proof.
  intros Hx Hne HF Hs. unfold scan_number. change (0 <? 48 - 48) with false. cbn [negb]. replace ((x =? 120) || (x =? 88)) with true by (destruct Hx as [-> | ->]; done).
  rewrite (span_ok isalnum ds s); [|apply forallb_forall; intros c Hc; eapply Forall_forall in HF; [apply (hex_ok c HF)|by apply list_elem_of_In]|done].
  destruct ds as [|d ds]; [done|]. unfold numeral. rewrite <- hexadecimal_ok by done. by change (48 - 48) with (u64 0).
Qed.

Lemma scan_zero s : stops isalnum s -> scan_number 48 s = Ok (0, s).
Proof.
  intros Hs. unfold scan_number. change (0 <? 48 - 48) with false. destruct s as [|x s]; [done|]. cbn in Hs.
  replace ((x =? 120) || (x =? 88)) with false; [done|]. symmetry. apply orb_false_iff. split; apply Z.eqb_neq; intros ->; vm_compute in Hs; discriminate.
Qed.

Lemma scan_string_ok t s rest : quoted t s -> scan_string (s ++ 34 :: rest) = Ok (t, rest).
Proof.
  induction 1 as [|c t s H1 H2 Hq IH|c t s Hq IH]; cbn [app scan_string]; [done| |].
  - rewrite (proj2 (Z.eqb_neq c 34)), (proj2 (Z.eqb_neq c 92)) by done. by rewrite IH.
  - change (92 =? 34) with false. change (92 =? 92) with true. by rewrite IH.
Qed.

(** ** Reading a token *)

Definition set_line (ctx : context_t) (l : Z) : context_t := mk_ctx (src ctx) l (num ctx) (str ctx).

Lemma skip_comment_ok l s : 10 ∉ l -> skip_comment (l ++ 10 :: s) = Ok s.
Proof.
  induction l as [|c l IH]; intros Hl; [done|]. rewrite not_elem_of_cons in Hl. destruct Hl as [Hc Hl]. cbn [app skip_comment]. by rewrite (proj2 (Z.eqb_neq c 10)), IH.
Qed.

Lemma next_blank b s : blank b -> forall fuel ctx, (length (b ++ s) <= fuel)%nat ->
  exists fuel' l, next_loop fuel (b ++ s) ctx = next_loop fuel' s (set_line ctx l) /\ (length s <= fuel')%nat.
Proof.
  induction 1 as [|c b Hc Hb IH|l b Hl Hb IH]; intros fuel ctx Hf.
  - exists fuel, (line ctx). split; [|done]. by destruct ctx.
  - destruct fuel as [|fuel]; [cbn in Hf; lia|]. cbn [app length] in Hf. rewrite !elem_of_cons in Hc. destruct Hc as [-> |[-> |[-> |[-> |Hc]]]]; [| | | |by apply elem_of_nil in Hc].
    + apply (IH fuel ctx). lia.
    + destruct (IH fuel (set_line ctx (line ctx + 1))) as (f' & l & E & Hf'); [lia|]. exists f', l. split; [|done]. exact E.
    + apply (IH fuel ctx). lia.
    + apply (IH fuel ctx). lia.
  - destruct fuel as [|fuel]; [cbn in Hf; lia|]. cbn [app length] in Hf. rewrite !length_app in Hf. cbn [length] in Hf.
    change ((47 :: 47 :: l ++ 10 :: b) ++ s) with (47 :: 47 :: (l ++ 10 :: b) ++ s). rewrite <- app_assoc. cbn [app]. change (next_loop (S fuel) (47 :: 47 :: l ++ 10 :: b ++ s) ctx) with (let* s := skip_comment (l ++ 10 :: b ++ s) in next_loop fuel s ctx).
    rewrite skip_comment_ok by done. cbn [res_bind]. apply IH. rewrite length_app. lia.
Qed.

(** The number and the string of the context after a token. *)
Definition token_num (t : token) (n : Z) : Z := match t with KNum x => x | KBool b => Z.b2z b | _ => n end.
Definition token_str (t : token) (s : string_t) : string_t := match t with KId x | KStr x => x | KBool true => TRUE_ | KBool false => FALSE_ | _ => s end.

Lemma alpha_ok c : isalpha c || (c =? 95) = true -> (c =? 10) = false /\ ((c =? 9) || (c =? 13) || (c =? 32)) = false.
Proof. intros H. split; [|rewrite !orb_false_iff; split_and!]; apply Z.eqb_neq; intros ->; vm_compute in H; discriminate. Qed.

Lemma next_word c a s fuel ctx : isalpha c || (c =? 95) = true -> forallb id_char a = true -> stops id_char s ->
  next_loop (S fuel) (c :: a ++ s) ctx = Ok (classify (c :: a) ctx s).
Proof. intros Hc Ha Hs. cbn [next_loop]. destruct (alpha_ok c Hc) as [-> ->]. rewrite Hc. by rewrite span_ok. Qed.

Lemma next_number d r fuel ctx : is_digit d -> next_loop (S fuel) (d :: r) ctx = let* '(n, s) := scan_number d r in Ok (TOKEN_NUM, mk_ctx s (line ctx) n (str ctx)).
Proof.
  intros Hd. cbn [next_loop]. destruct (digit_ok d Hd) as (_ & -> & -> & _). unfold is_digit in Hd.
  rewrite (proj2 (Z.eqb_neq d 10)), (proj2 (Z.eqb_neq d 9)), (proj2 (Z.eqb_neq d 13)), (proj2 (Z.eqb_neq d 32)), (proj2 (Z.eqb_neq d 95)) by lia. done.
Qed.

Lemma next_punct c s fuel ctx : is_punct c = true -> next_loop (S fuel) (c :: s) ctx = Ok (c, mk_ctx s (line ctx) (num ctx) (str ctx)).
Proof. intros Hc. unfold is_punct in Hc. apply bool_decide_eq_true in Hc. rewrite !elem_of_cons in Hc. repeat (destruct Hc as [-> |Hc]; [reflexivity|]). by apply elem_of_nil in Hc. Qed.

Lemma next_slash s fuel ctx : stops (Z.eqb 47) s -> next_loop (S fuel) (47 :: s) ctx = Ok (47, mk_ctx s (line ctx) (num ctx) (str ctx)).
Proof.
  intros Hs. change (next_loop (S fuel) (47 :: s) ctx) with (match s with 47 :: s'' => let* s := skip_comment s'' in next_loop fuel s ctx | _ => Ok (47, mk_ctx s (line ctx) (num ctx) (str ctx)) end).
  destruct s as [|c s]; [done|]. cbn [stops] in Hs. apply Z.eqb_neq in Hs. destruct c as [|p|p]; [done| |done]. do 6 (destruct p as [p|p|]; try reflexivity). done.
Qed.

Lemma next_spelled t w s fuel ctx : spells t w -> follows t s -> (length (w ++ s) <= fuel)%nat ->
  next_loop fuel (w ++ s) ctx = Ok (code t, mk_ctx s (line ctx) (token_num t (num ctx)) (token_str t (str ctx))).
Proof.
  intros Hw Hs Hf. assert (exists f, fuel = S f) as [f ->] by (destruct fuel; [destruct Hw; cbn in Hf; lia|eauto]). clear Hf.
  destruct Hw as [c Hc| |d ds Hd HF|x ds Hx Hne HF|c a Hc Ha H1 H2| | |u q Hq]; cbn [follows] in Hs; cbn [app code token_num token_str].
  - destruct Hc as [Hc| ->]; [by apply next_punct|]. by apply next_slash.
  - rewrite next_number by (unfold is_digit; lia). by rewrite scan_zero.
  - rewrite next_number by (unfold is_digit; lia). by rewrite scan_decimal.
  - rewrite next_number by (unfold is_digit; lia). by rewrite scan_hexadecimal.
  - rewrite next_word by done. unfold classify. by rewrite H1, H2.
  - exact (next_word 116 [114; 117; 101] s f ctx eq_refl eq_refl Hs).
  - exact (next_word 102 [97; 108; 115; 101] s f ctx eq_refl eq_refl Hs).
  - rewrite <- app_assoc. change (next_loop (S f) (34 :: q ++ [34] ++ s) ctx) with (let* '(t, s) := scan_string (q ++ 34 :: s) in Ok (TOKEN_STRING, mk_ctx s (line ctx) (num ctx) t)).
    by rewrite (scan_string_ok u q s Hq).
Qed.

Lemma next_ok ctx t ts : tokens (t :: ts) (src ctx) ->
  exists ctx', next ctx = Ok (code t, ctx') /\ tokens ts (src ctx') /\ num ctx' = token_num t (num ctx) /\ str ctx' = token_str t (str ctx).
Proof.
  intros H. unfold next. inversion H as [|b t' w ts' s Hb Hw Hs Hts E1 E2]; subst.
  destruct (next_blank b (w ++ s) Hb (length (b ++ w ++ s)) ctx (le_n _)) as (f & l & -> & Hf). rewrite (next_spelled t w s f _ Hw Hs Hf). eexists. split; [reflexivity|]. done.
Qed.

Lemma next_end ctx : tokens [] (src ctx) -> exists ctx', next ctx = Ok (TOKEN_TYPE_MAX, ctx').
Proof.
  intros H. unfold next. inversion H as [b Hb E1|]; subst.
  pose proof (next_blank (src ctx) [] Hb (length (src ctx)) ctx) as Hn. rewrite app_nil_r in Hn. destruct (Hn (le_n _)) as (f & l & -> & _). destruct f; cbn [next_loop]; eauto.
Qed.

(** ** Grammar *)

Definition fits_int (x : Z) : Prop := - 2 ^ 31 <= x < 2 ^ 31.

(** Expressions of type [int]: the usual precedence, operators of the same level from the left. *)
Inductive factor : list token -> Z -> Prop :=
| f_num n : factor [KNum n] (s32 n)
| f_paren ts x : exp ts x -> factor (KChar 40 :: ts ++ [KChar 41]) x
with term : list token -> Z -> Prop :=
| t_factor ts x : factor ts x -> term ts x
| t_mul ts1 ts2 a b : term ts1 a -> factor ts2 b -> fits_int (a * b) -> term (ts1 ++ KChar 42 :: ts2) (a * b)
| t_div ts1 ts2 a b : term ts1 a -> factor ts2 b -> b <> 0 -> fits_int (Z.quot a b) -> term (ts1 ++ KChar 47 :: ts2) (Z.quot a b)
with exp : list token -> Z -> Prop :=
| e_term ts x : term ts x -> exp ts x
| e_add ts1 ts2 a b : exp ts1 a -> term ts2 b -> fits_int (a + b) -> exp (ts1 ++ KChar 43 :: ts2) (a + b)
| e_sub ts1 ts2 a b : exp ts1 a -> term ts2 b -> fits_int (a - b) -> exp (ts1 ++ KChar 45 :: ts2) (a - b).

(** Values: a tag in angle brackets, alone or before a body.  The body is an object, an array, an
    object with an array, a number, a string or a boolean.  A comma may follow the last member and
    the last element. *)
Inductive value : list token -> xjil_value_t -> Prop :=
| v_plain ts v : body ts v -> value ts v
| v_tagged s ts v : body ts v -> value (KChar 60 :: KId s :: KChar 62 :: ts) (set_tag v s)
| v_only_tag s : value [KChar 60; KId s; KChar 62] (set_tag value_new s)
with body : list token -> xjil_value_t -> Prop :=
| b_object ts ms : members ts ms -> body (KChar 123 :: ts ++ [KChar 125]) (mk_value None TYPE_OBJECT 0 [] [] ms)
| b_array ts es : elements ts es -> body (KChar 91 :: ts ++ [KChar 93]) (mk_value None TYPE_ARRAY 0 [] es [])
| b_both ts ms us es : members ts ms -> elements us es ->
    body (KChar 123 :: ts ++ KChar 125 :: KChar 91 :: us ++ [KChar 93]) (mk_value None (Z.lor TYPE_OBJECT TYPE_ARRAY) 0 [] es ms)
| b_number ts x : exp ts x -> body ts (mk_value None TYPE_NUMBER (u64 x) [] [] [])
| b_string s : body [KStr s] (mk_value None TYPE_STRING 0 s [] [])
| b_bool b : body [KBool b] (mk_value None TYPE_BOOL (Z.b2z b) [] [] [])
with members : list token -> list (string_t * xjil_value_t) -> Prop :=
| m_nil : members [] []
| m_last k ts v : value ts v -> members (KId k :: KChar 58 :: ts) [(k, v)]
| m_cons k ts v us ms : value ts v -> members us ms -> members (KId k :: KChar 58 :: ts ++ KChar 44 :: us) ((k, v) :: ms)
with elements : list token -> list xjil_value_t -> Prop :=
| l_nil : elements [] []
| l_last ts v : value ts v -> elements ts [v]
| l_cons ts v us es : value ts v -> elements us es -> elements (ts ++ KChar 44 :: us) (v :: es).

Scheme factor_mind := Minimality for factor Sort Prop
with term_mind := Minimality for term Sort Prop
with exp_mind := Minimality for exp Sort Prop.
Combined Scheme expression_ind from factor_mind, term_mind, exp_mind.
Scheme value_mind := Minimality for value Sort Prop
with body_mind := Minimality for body Sort Prop
with members_mind := Minimality for members Sort Prop
with elements_mind := Minimality for elements Sort Prop.
Combined Scheme phrase_ind from value_mind, body_mind, members_mind, elements_mind.
#[export] Hint Constructors factor term exp value body members elements : xjil.

(** ** Steps of the parser *)

(** The tokens that are left. *)
Definition reads (ctx : context_t) (ts : list token) : Prop := tokens ts (src ctx).
Definition head_code (ts : list token) : Z := match ts with [] => TOKEN_TYPE_MAX | t :: _ => code t end.

Lemma tokens_length ts s : tokens ts s -> (length ts <= length s)%nat.
Proof. induction 1 as [|b t w ts s Hb Hw Hs _ IH]; [cbn; lia|]. rewrite !length_app. cbn [length]. assert (1 <= length w)%nat by (destruct Hw; cbn; lia). lia. Qed.

Lemma peek_ok ctx ts : reads ctx ts -> exists ctx', peek ctx = Ok (head_code ts, ctx') /\ reads ctx' ts.
Proof.
  intros H. unfold peek. destruct ts as [|t ts].
  - destruct (next_end ctx H) as (c & ->). eexists. split; [reflexivity|done].
  - destruct (next_ok ctx t ts H) as (c & -> & _). eexists. split; [reflexivity|done].
Qed.

Lemma take_token ctx t ts : reads ctx (t :: ts) -> exists ctx', next ctx = Ok (code t, ctx') /\ reads ctx' ts /\ num ctx' = token_num t (num ctx) /\ str ctx' = token_str t (str ctx).
Proof. apply next_ok. Qed.

Lemma expect_ok ctx t ts type : reads ctx (t :: ts) -> code t = type -> exists ctx', expect ctx type = Ok ctx' /\ reads ctx' ts /\ str ctx' = token_str t (str ctx).
Proof. intros H <-. unfold expect. destruct (next_ok ctx t ts H) as (c & -> & Hc & _ & Hs). cbn [res_bind]. rewrite Z.eqb_refl. by exists c. Qed.

Lemma next_if_yes ctx ts : reads ctx (KChar 44 :: ts) -> exists ctx', next_if ctx 44 = Ok (true, ctx') /\ reads ctx' ts.
Proof. intros H. unfold next_if. destruct (next_ok ctx _ ts H) as (c & -> & Hc & _). cbn. by exists c. Qed.

Lemma next_if_no ctx ts : reads ctx ts -> head_code ts <> 44 -> exists ctx', next_if ctx 44 = Ok (false, ctx') /\ reads ctx' ts.
Proof.
  intros H Hne. unfold next_if. destruct ts as [|t ts].
  - destruct (next_end ctx H) as (c & ->). cbn. eexists. split; [reflexivity|done].
  - destruct (next_ok ctx t ts H) as (c & -> & _). cbn [res_bind]. cbn [head_code] in Hne. rewrite (proj2 (Z.eqb_neq _ _) Hne). eexists. split; [reflexivity|done].
Qed.

(** There is memory for everything, and it is cleared. *)
Definition plenty : request -> list Z -> option Z := fun _ _ => Some 0.

Lemma room_plenty n s : room plenty n s = Ok tt.
Proof. unfold room. by destruct (_ || _). Qed.

Lemma parser_tag_ok ctx t ty n s a o x ts : reads ctx (KChar 60 :: KId x :: KChar 62 :: ts) ->
  exists ctx', parser_tag plenty ctx (mk_value t ty n s a o) = Ok (ctx', mk_value (Some x) ty n s a o) /\ reads ctx' ts.
Proof.
  intros H. unfold parser_tag. destruct (expect_ok ctx _ _ 60 H eq_refl) as (c1 & -> & H1 & _). cbn [res_bind]. destruct (expect_ok c1 _ _ TOKEN_ID H1 eq_refl) as (c2 & -> & H2 & Hs). cbn [res_bind].
  replace (match v_tag _ with Some _ => Ok 0 | None => _ end) with (@Ok Z 0) by (by destruct t). cbn [res_bind].
  destruct (expect_ok c2 _ _ 62 H2 eq_refl) as (c3 & -> & H3 & _). cbn [res_bind]. rewrite Hs. by exists c3.
Qed.

(** ** Expressions *)

Definition no_mul (ts : list token) : Prop := head_code ts <> 42 /\ head_code ts <> 47.
Definition no_op (ts : list token) : Prop := no_mul ts /\ head_code ts <> 43 /\ head_code ts <> 45.

Lemma int_res_ok x : fits_int x -> int_res x = Ok x.
Proof. intros H. unfold int_res, fits_int in *. rewrite (proj2 (Z.leb_le _ _)), (proj2 (Z.ltb_lt _ _)) by lia. done. Qed.

Lemma term_stop fuel x ts ctx : no_mul ts -> (0 < fuel)%nat -> term_loop fuel x (head_code ts) ctx = Ok (x, ctx).
Proof. intros [H1 H2] Hf. destruct fuel; [lia|]. cbn [term_loop]. by rewrite (proj2 (Z.eqb_neq _ _) H1), (proj2 (Z.eqb_neq _ _) H2). Qed.

Lemma exp_stop fuel x ts ctx : no_op ts -> (0 < fuel)%nat -> exp_loop fuel x (head_code ts) ctx = Ok (x, ctx).
Proof. intros (_ & H1 & H2) Hf. destruct fuel; [lia|]. cbn [exp_loop]. by rewrite (proj2 (Z.eqb_neq _ _) H1), (proj2 (Z.eqb_neq _ _) H2). Qed.

(** What the functions of the parser do at a phrase.  The loops are stopped behind the phrase,
    after [k] turns. *)
Definition factor_read (ts : list token) (x : Z) : Prop :=
  forall ctx rest fuel, reads ctx (ts ++ rest) -> (2 * length ts <= fuel)%nat ->
  exists ctx', parser_factor fuel ctx = Ok (x, ctx') /\ reads ctx' rest.
Definition term_read (ts : list token) (x : Z) : Prop :=
  exists k, (k < length ts)%nat /\ forall ctx rest fuel, reads ctx (ts ++ rest) -> (2 * length ts <= k + fuel)%nat ->
  exists ctx', parser_term (S (k + fuel)) ctx = (let* '(ty, c) := peek ctx' in term_loop fuel x ty c) /\ reads ctx' rest.
Definition exp_read (ts : list token) (x : Z) : Prop :=
  exists k, (k < length ts)%nat /\ forall ctx rest fuel, reads ctx (ts ++ rest) -> no_mul rest -> (2 * length ts + 1 <= k + fuel)%nat ->
  exists ctx', parser_exp (S (k + fuel)) ctx = (let* '(ty, c) := peek ctx' in exp_loop fuel x ty c) /\ reads ctx' rest.

Lemma term_done ts x ctx rest fuel : term_read ts x -> reads ctx (ts ++ rest) -> no_mul rest -> (2 * length ts + 1 <= fuel)%nat ->
  exists ctx', parser_term fuel ctx = Ok (x, ctx') /\ reads ctx' rest.
Proof.
  intros (k & Hk & Ht) Hr Hn Hf. destruct (Ht ctx rest (fuel - 1 - k)%nat Hr) as (c & E & Hc); [lia|]. replace (S (k + (fuel - 1 - k))) with fuel in E by lia. rewrite E.
  destruct (peek_ok c rest Hc) as (c' & -> & Hc'). cbn [res_bind]. rewrite term_stop by (done || lia). by exists c'.
Qed.

Lemma exp_done ts x ctx rest fuel : exp_read ts x -> reads ctx (ts ++ rest) -> no_op rest -> (2 * length ts + 2 <= fuel)%nat ->
  exists ctx', parser_exp fuel ctx = Ok (x, ctx') /\ reads ctx' rest.
Proof.
  intros (k & Hk & Ht) Hr Hn Hf. destruct (Ht ctx rest (fuel - 1 - k)%nat Hr) as (c & E & Hc); [apply Hn|lia|]. replace (S (k + (fuel - 1 - k))) with fuel in E by lia. rewrite E.
  destruct (peek_ok c rest Hc) as (c' & -> & Hc'). cbn [res_bind]. rewrite exp_stop by (done || lia). by exists c'.
Qed.

(** One more operator of a term, and of an expression. *)
Lemma term_turn op ts1 ts2 a b x : op = 42 \/ op = 47 -> term_read ts1 a -> factor_read ts2 b ->
  (if op =? 42 then int_res (a * b) else int_div a b) = Ok x -> term_read (ts1 ++ KChar op :: ts2) x.
Proof.
  intros Hop (k & Hk & H1) H2 Hx. exists (S k). rewrite length_app. cbn [length]. split; [lia|]. intros ctx rest fuel Hr Hf. rewrite <- app_assoc in Hr.
  destruct (H1 ctx _ (S fuel) Hr) as (c1 & E & Hc1); [lia|]. rewrite Nat.add_succ_r in E. cbn [Nat.add]. rewrite E. cbn [app] in Hc1.
  destruct (peek_ok c1 _ Hc1) as (c2 & -> & Hc2). cbn [res_bind head_code code term_loop]. replace ((op =? 42) || (op =? 47)) with true by (destruct Hop as [-> | ->]; done). cbn [negb].
  destruct (take_token c2 _ _ Hc2) as (c3 & -> & Hc3 & _). cbn [res_bind]. destruct (H2 c3 rest fuel Hc3) as (c4 & -> & Hc4); [lia|]. cbn [res_bind]. rewrite Hx. cbn [res_bind]. by exists c4.
Qed.

Lemma exp_turn op ts1 ts2 a b x : op = 43 \/ op = 45 -> exp_read ts1 a -> term_read ts2 b ->
  (if op =? 43 then int_res (a + b) else int_res (a - b)) = Ok x -> exp_read (ts1 ++ KChar op :: ts2) x.
Proof.
  intros Hop (k & Hk & H1) H2 Hx. exists (S k). rewrite length_app. cbn [length]. split; [lia|]. intros ctx rest fuel Hr Hn Hf. rewrite <- app_assoc in Hr.
  destruct (H1 ctx _ (S fuel) Hr) as (c1 & E & Hc1); [destruct Hop as [-> | ->]; done|lia|]. rewrite Nat.add_succ_r in E. cbn [Nat.add]. rewrite E. cbn [app] in Hc1.
  destruct (peek_ok c1 _ Hc1) as (c2 & -> & Hc2). cbn [res_bind head_code code exp_loop]. replace ((op =? 43) || (op =? 45)) with true by (destruct Hop as [-> | ->]; done). cbn [negb].
  destruct (take_token c2 _ _ Hc2) as (c3 & -> & Hc3 & _). cbn [res_bind]. destruct (term_done ts2 b c3 rest fuel H2 Hc3 Hn) as (c4 & -> & Hc4); [lia|]. cbn [res_bind]. rewrite Hx. cbn [res_bind]. by exists c4.
Qed.

Lemma expression_read :
  (forall ts x, factor ts x -> factor_read ts x) /\ (forall ts x, term ts x -> term_read ts x) /\ (forall ts x, exp ts x -> exp_read ts x).
Proof.
  apply expression_ind.
  - intros n ctx rest fuel Hr Hf. cbn [length] in Hf. destruct fuel as [|fuel]; [lia|]. cbn [app] in Hr. cbn [parser_factor]. destruct (peek_ok ctx _ Hr) as (c1 & -> & H1). cbn [res_bind head_code code].
    change (TOKEN_NUM =? 40) with false. change (TOKEN_NUM =? TOKEN_NUM) with true. destruct (take_token c1 _ _ H1) as (c2 & -> & H2 & Hn & _). cbn [res_bind]. rewrite Hn. by exists c2.
  - intros ts x _ IH ctx rest fuel Hr Hf. cbn [length] in Hf. rewrite length_app in Hf. cbn [length] in Hf. destruct fuel as [|fuel]; [lia|]. cbn [app] in Hr. rewrite <- app_assoc in Hr. cbn [app] in Hr.
    cbn [parser_factor]. destruct (peek_ok ctx _ Hr) as (c1 & -> & H1). cbn [res_bind head_code code]. change (40 =? 40) with true. destruct (expect_ok c1 _ _ 40 H1 eq_refl) as (c2 & -> & H2 & _). cbn [res_bind].
    destruct (exp_done ts x c2 _ fuel IH H2) as (c3 & -> & H3); [done|lia|]. cbn [res_bind]. destruct (expect_ok c3 _ _ 41 H3 eq_refl) as (c4 & -> & H4 & _). cbn [res_bind]. by exists c4.
  - intros ts x Hx IH. exists 0%nat. assert (0 < length ts)%nat as Hl by (destruct Hx; cbn; lia). split; [done|]. intros ctx rest fuel Hr Hf. cbn [Nat.add parser_term].
    destruct (IH ctx rest fuel Hr) as (c1 & -> & H1); [lia|]. cbn [res_bind]. by exists c1.
  - intros ts1 ts2 a b _ IH1 _ IH2 Hx. apply (term_turn 42 ts1 ts2 a b); [by left|done|done|]. by apply int_res_ok.
  - intros ts1 ts2 a b _ IH1 _ IH2 Hb Hx. apply (term_turn 47 ts1 ts2 a b); [by right|done|done|]. change (47 =? 42) with false. unfold int_div. rewrite (proj2 (Z.eqb_neq b 0)) by done. cbn. by apply int_res_ok.
  - intros ts x _ IH. exists 0%nat. assert (0 < length ts)%nat as Hl by (destruct IH as (k & Hk & _); lia). split; [done|]. intros ctx rest fuel Hr Hn Hf. cbn [Nat.add parser_exp].
    destruct (term_done ts x ctx rest fuel IH Hr Hn) as (c1 & -> & H1); [lia|]. cbn [res_bind]. by exists c1.
  - intros ts1 ts2 a b _ IH1 _ IH2 Hx. apply (exp_turn 43 ts1 ts2 a b); [by left|done|done|]. by apply int_res_ok.
  - intros ts1 ts2 a b _ IH1 _ IH2 Hx. apply (exp_turn 45 ts1 ts2 a b); [by right|done|done|]. by apply int_res_ok.
Qed.

(** ** Values *)

Lemma exp_head : (forall ts x, factor ts x -> forall r, head_code (ts ++ r) = TOKEN_NUM \/ head_code (ts ++ r) = 40) /\
  (forall ts x, term ts x -> forall r, head_code (ts ++ r) = TOKEN_NUM \/ head_code (ts ++ r) = 40) /\
  (forall ts x, exp ts x -> forall r, head_code (ts ++ r) = TOKEN_NUM \/ head_code (ts ++ r) = 40).
Proof. apply expression_ind; intros; rewrite <- ?app_assoc; cbn; auto. Qed.

(** A value is followed by the end of the text, a comma or a closing bracket. *)
Definition ends (ts : list token) : Prop := head_code ts ∈ [TOKEN_TYPE_MAX; 44; 125; 93].
Lemma ends_not ts c : ends ts -> bool_decide (c ∈ [TOKEN_TYPE_MAX; 44; 125; 93]) = false -> head_code ts <> c.
Proof. unfold ends. intros H Hc%bool_decide_eq_false <-. done. Qed.
Lemma ends_eqb ts c : ends ts -> bool_decide (c ∈ [TOKEN_TYPE_MAX; 44; 125; 93]) = false -> (head_code ts =? c) = false.
Proof. intros H Hc. by apply Z.eqb_neq, ends_not. Qed.
Lemma ends_comma r : ends (KChar 44 :: r).
Proof. by apply (bool_decide_eq_true_1 (_ ∈ _)). Qed.
Lemma ends_brace r : ends (KChar 125 :: r).
Proof. by apply (bool_decide_eq_true_1 (_ ∈ _)). Qed.
Lemma ends_bracket r : ends (KChar 93 :: r).
Proof. by apply (bool_decide_eq_true_1 (_ ∈ _)). Qed.
Lemma ends_op ts : ends ts -> no_op ts.
Proof. intros H. repeat split; by apply ends_not. Qed.

(** The part of [parser_value] behind the tag. *)
Definition body_of (fuel : nat) (type : Z) (ctx : context_t) (v : xjil_value_t) (with_tag : bool) : res (context_t * xjil_value_t) :=
  if type =? 123 then
    let* v := value_init plenty (src ctx) v TYPE_OBJECT in
    let* ctx := expect ctx 123 in
    let* '(ctx, v) := object_loop plenty fuel ctx v in
    let* '(type, ctx) := peek ctx in
    if type =? 91 then
      let* v := value_init plenty (src ctx) v TYPE_ARRAY in
      let* ctx := expect ctx 91 in
      array_loop plenty fuel ctx v
    else Ok (ctx, v)
  else if type =? 91 then
    let* v := value_init plenty (src ctx) v TYPE_ARRAY in
    let* ctx := expect ctx 91 in
    array_loop plenty fuel ctx v
  else if (type =? TOKEN_NUM) || (type =? 40) then
    let* v := value_init plenty (src ctx) v TYPE_NUMBER in
    let* '(x, ctx) := parser_exp fuel ctx in
    Ok (ctx, set_num v (u64 x))
  else if type =? TOKEN_STRING then
    let* v := value_init plenty (src ctx) v TYPE_STRING in
    let* '(_, ctx) := next ctx in
    Ok (ctx, set_str v (str ctx))
  else if type =? TOKEN_BOOL then
    let* v := value_init plenty (src ctx) v TYPE_BOOL in
    let* '(_, ctx) := next ctx in
    Ok (ctx, set_num v (num ctx))
  else if with_tag then Ok (ctx, v) else Panic.

Lemma parser_value_eq fuel ctx v : parser_value plenty (S fuel) ctx v =
  let* '(type, ctx) := peek ctx in
  let* '(type, ctx, v, with_tag) :=
    if type =? 60 then let* '(ctx, v) := parser_tag plenty ctx v in let* '(type, ctx) := peek ctx in Ok (type, ctx, v, true)
    else Ok (type, ctx, v, false) in
  body_of fuel type ctx v with_tag.
Proof. reflexivity. Qed.

Definition retag (t : option string_t) (v : xjil_value_t) : xjil_value_t := let 'mk_value _ ty n s a o := v in mk_value t ty n s a o.

Definition value_read (ts : list token) (v : xjil_value_t) : Prop :=
  forall ctx rest fuel, reads ctx (ts ++ rest) -> ends rest -> (8 * length ts <= fuel)%nat ->
  exists ctx', parser_value plenty fuel ctx value_new = Ok (ctx', v) /\ reads ctx' rest.
Definition body_read (ts : list token) (v : xjil_value_t) : Prop :=
  head_code ts <> 60 /\ v_tag v = None /\ forall ctx rest fuel t with_tag, reads ctx (ts ++ rest) -> ends rest -> (8 * length ts <= S fuel)%nat ->
  exists ctx', body_of fuel (head_code (ts ++ rest)) ctx (mk_value t TYPE_NULL 0 [] [] []) with_tag = Ok (ctx', retag t v) /\ reads ctx' rest.
Definition members_read (ts : list token) (ms : list (string_t * xjil_value_t)) : Prop :=
  forall ctx rest fuel t ty n s a o, has ty TYPE_OBJECT = true -> reads ctx (ts ++ KChar 125 :: rest) -> (8 * length ts + 1 <= fuel)%nat ->
  exists ctx', object_loop plenty fuel ctx (mk_value t ty n s a o) = Ok (ctx', mk_value t ty n s a (o ++ ms)) /\ reads ctx' rest.
Definition elements_read (ts : list token) (es : list xjil_value_t) : Prop :=
  forall ctx rest fuel t ty n s a o, has ty TYPE_ARRAY = true -> reads ctx (ts ++ KChar 93 :: rest) -> (8 * length ts + 1 <= fuel)%nat ->
  exists ctx', array_loop plenty fuel ctx (mk_value t ty n s a o) = Ok (ctx', mk_value t ty n s (a ++ es) o) /\ reads ctx' rest.

Lemma value_length : (forall ts v, value ts v -> (0 < length ts)%nat /\ head_code ts <> 93) /\ (forall ts v, body ts v -> (0 < length ts)%nat /\ head_code ts <> 93) /\
  (forall ts ms, members ts ms -> True) /\ (forall ts es, elements ts es -> True).
Proof.
  apply phrase_ind; intros; try done; cbn [length]; try (split; [lia|done]).
  destruct (proj2 (proj2 exp_head) _ _ H []) as [E|E]; rewrite app_nil_r in E; rewrite E; (split; [|done]); destruct ts; [done|cbn; lia|done|cbn; lia].
Qed.

(** *** Members and elements *)

Lemma member_step k ts v ctx rest fuel t ty n s a o : value_read ts v -> has ty TYPE_OBJECT = true -> ends rest ->
  reads ctx (KId k :: KChar 58 :: ts ++ rest) -> (8 * length ts <= fuel)%nat ->
  exists ctx', reads ctx' rest /\ object_loop plenty (S fuel) ctx (mk_value t ty n s a o) =
    let* '(more, c) := next_if ctx' 44 in
    if more : bool then object_loop plenty fuel c (mk_value t ty n s a (o ++ [(k, v)]))
    else let* c := expect c 125 in Ok (c, mk_value t ty n s a (o ++ [(k, v)])).
Proof.
  intros Hv Hty He Hr Hf. cbn [object_loop]. destruct (peek_ok ctx _ Hr) as (c1 & -> & H1). cbn [res_bind head_code code]. change (TOKEN_ID =? TOKEN_ID) with true.
  change (member_new plenty (src c1)) with (Ok value_new). cbn [res_bind].
  destruct (expect_ok c1 _ _ TOKEN_ID H1 eq_refl) as (c2 & -> & H2 & Hs). cbn [res_bind]. destruct (expect_ok c2 _ _ 58 H2 eq_refl) as (c3 & -> & H3 & _). cbn [res_bind].
  destruct (Hv c3 rest fuel H3 He Hf) as (c4 & -> & H4). cbn [res_bind push_member]. rewrite c_assert_true by done. cbn [res_bind]. rewrite room_plenty. cbn [res_bind]. rewrite Hs. by exists c4.
Qed.

Lemma members_nil : members_read [] [].
Proof.
  intros ctx rest fuel t ty n s a o _ Hr Hf. cbn [app length] in *. destruct fuel as [|fuel]; [lia|]. cbn [object_loop]. destruct (peek_ok ctx _ Hr) as (c1 & -> & H1). cbn [res_bind head_code code].
  change (125 =? TOKEN_ID) with false. destruct (expect_ok c1 _ _ 125 H1 eq_refl) as (c2 & -> & H2 & _). cbn [res_bind]. rewrite app_nil_r. by exists c2.
Qed.

Lemma members_last k ts v : value_read ts v -> members_read (KId k :: KChar 58 :: ts) [(k, v)].
Proof.
  intros Hv ctx rest fuel t ty n s a o Hty Hr Hf. cbn [app length] in *. destruct fuel as [|fuel]; [lia|].
  destruct (member_step k ts v ctx _ fuel t ty n s a o Hv Hty (ends_brace rest) Hr) as (c1 & H1 & ->); [lia|].
  destruct (next_if_no c1 _ H1) as (c2 & -> & H2); [done|]. cbn [res_bind]. destruct (expect_ok c2 _ _ 125 H2 eq_refl) as (c3 & -> & H3 & _). cbn [res_bind]. by exists c3.
Qed.

Lemma members_cons k ts v us ms : value_read ts v -> members_read us ms -> members_read (KId k :: KChar 58 :: ts ++ KChar 44 :: us) ((k, v) :: ms).
Proof.
  intros Hv IH ctx rest fuel t ty n s a o Hty Hr Hf. cbn [app length] in *. rewrite <- app_assoc in Hr. rewrite length_app in Hf. cbn [app length] in *. destruct fuel as [|fuel]; [lia|].
  destruct (member_step k ts v ctx _ fuel t ty n s a o Hv Hty (ends_comma _) Hr) as (c1 & H1 & ->); [lia|].
  destruct (next_if_yes c1 _ H1) as (c2 & -> & H2). cbn [res_bind]. destruct (IH c2 rest fuel t ty n s a (o ++ [(k, v)]) Hty H2) as (c3 & -> & H3); [lia|]. rewrite <- app_assoc. by exists c3.
Qed.

Lemma element_step ts v ctx rest fuel t ty n s a o : value_read ts v -> has ty TYPE_ARRAY = true -> ends rest -> head_code (ts ++ rest) <> 93 ->
  reads ctx (ts ++ rest) -> (8 * length ts <= fuel)%nat ->
  exists ctx', reads ctx' rest /\ array_loop plenty (S fuel) ctx (mk_value t ty n s a o) =
    let* '(more, c) := next_if ctx' 44 in
    if more : bool then array_loop plenty fuel c (mk_value t ty n s (a ++ [v]) o)
    else let* c := expect c 93 in Ok (c, mk_value t ty n s (a ++ [v]) o).
Proof.
  intros Hv Hty He Hne Hr Hf. cbn [array_loop]. destruct (peek_ok ctx _ Hr) as (c1 & -> & H1). cbn [res_bind]. rewrite (proj2 (Z.eqb_neq _ _) Hne). cbn [negb].
  change (new_value plenty (src c1)) with (Ok value_new). cbn [res_bind].
  destruct (Hv c1 rest fuel H1 He Hf) as (c4 & -> & H4). cbn [res_bind push_element]. rewrite c_assert_true by done. cbn [res_bind]. rewrite room_plenty. cbn [res_bind]. by exists c4.
Qed.

Lemma value_head ts v r : value ts v -> head_code (ts ++ r) <> 93.
Proof. intros H. destruct (proj1 value_length _ _ H) as [Hl Hh]. by destruct ts; [cbn in Hl; lia|]. Qed.

Lemma elements_nil : elements_read [] [].
Proof.
  intros ctx rest fuel t ty n s a o _ Hr Hf. cbn [app length] in *. destruct fuel as [|fuel]; [lia|]. cbn [array_loop]. destruct (peek_ok ctx _ Hr) as (c1 & -> & H1). cbn [res_bind head_code code].
  change (negb (93 =? 93)) with false. destruct (expect_ok c1 _ _ 93 H1 eq_refl) as (c2 & -> & H2 & _). cbn [res_bind]. rewrite app_nil_r. by exists c2.
Qed.

Lemma elements_last ts v : value ts v -> value_read ts v -> elements_read ts [v].
Proof.
  intros Hval Hv ctx rest fuel t ty n s a o Hty Hr Hf. destruct fuel as [|fuel]; [lia|].
  destruct (element_step ts v ctx _ fuel t ty n s a o Hv Hty (ends_bracket rest) (value_head _ v _ Hval) Hr) as (c1 & H1 & ->); [lia|].
  destruct (next_if_no c1 _ H1) as (c2 & -> & H2); [done|]. cbn [res_bind]. destruct (expect_ok c2 _ _ 93 H2 eq_refl) as (c3 & -> & H3 & _). cbn [res_bind]. by exists c3.
Qed.

Lemma elements_cons ts v us es : value ts v -> value_read ts v -> elements_read us es -> elements_read (ts ++ KChar 44 :: us) (v :: es).
Proof.
  intros Hval Hv IH ctx rest fuel t ty n s a o Hty Hr Hf. rewrite <- app_assoc in Hr. rewrite length_app in Hf. cbn [app length] in *. destruct fuel as [|fuel]; [lia|].
  destruct (element_step ts v ctx _ fuel t ty n s a o Hv Hty (ends_comma _) (value_head _ v _ Hval) Hr) as (c1 & H1 & ->); [lia|].
  destruct (next_if_yes c1 _ H1) as (c2 & -> & H2). cbn [res_bind]. destruct (IH c2 rest fuel t ty n s (a ++ [v]) o Hty H2) as (c3 & -> & H3); [lia|]. rewrite <- app_assoc. by exists c3.
Qed.

(** *** Bodies *)

Lemma body_object ts ms : members_read ts ms -> body_read (KChar 123 :: ts ++ [KChar 125]) (mk_value None TYPE_OBJECT 0 [] [] ms).
Proof.
  intros IH. split; [done|]. split; [done|]. intros ctx rest fuel t with_tag Hr He Hf. cbn [app length] in *. rewrite <- app_assoc in *. rewrite length_app in Hf. cbn [app length head_code code] in *. unfold body_of. change (123 =? 123) with true. cbn [value_init].
  change (TYPE_OBJECT =? TYPE_ARRAY) with false. change (TYPE_OBJECT =? TYPE_OBJECT) with true. change (object_new plenty (src ctx)) with (@Ok (list (string_t * xjil_value_t)) []). cbn [res_bind]. destruct (expect_ok ctx _ _ 123 Hr eq_refl) as (c1 & -> & H1 & _). cbn [res_bind].
  destruct (IH c1 rest fuel t TYPE_OBJECT 0 [] [] [] eq_refl H1) as (c2 & E & H2); [lia|]. change (Z.lor TYPE_NULL TYPE_OBJECT) with TYPE_OBJECT. rewrite E. cbn [res_bind]. destruct (peek_ok c2 _ H2) as (c3 & -> & H3). cbn [res_bind].
  rewrite (ends_eqb rest) by done. by exists c3.
Qed.

Lemma body_array ts es : elements_read ts es -> body_read (KChar 91 :: ts ++ [KChar 93]) (mk_value None TYPE_ARRAY 0 [] es []).
Proof.
  intros IH. split; [done|]. split; [done|]. intros ctx rest fuel t with_tag Hr He Hf. cbn [app length] in *. rewrite <- app_assoc in *. rewrite length_app in Hf. cbn [app length head_code code] in *. unfold body_of. change (91 =? 123) with false. change (91 =? 91) with true. cbn [value_init].
  change (TYPE_ARRAY =? TYPE_ARRAY) with true. change (array_new plenty (src ctx)) with (@Ok (list xjil_value_t) []). cbn [res_bind]. destruct (expect_ok ctx _ _ 91 Hr eq_refl) as (c1 & -> & H1 & _). cbn [res_bind].
  destruct (IH c1 rest fuel t TYPE_ARRAY 0 [] [] [] eq_refl H1) as (c2 & E & H2); [lia|]. change (Z.lor TYPE_NULL TYPE_ARRAY) with TYPE_ARRAY. rewrite E. by exists c2.
Qed.

Lemma body_both ts ms us es : members_read ts ms -> elements_read us es ->
  body_read (KChar 123 :: ts ++ KChar 125 :: KChar 91 :: us ++ [KChar 93]) (mk_value None (Z.lor TYPE_OBJECT TYPE_ARRAY) 0 [] es ms).
Proof.
  intros IH1 IH2. split; [done|]. split; [done|]. intros ctx rest fuel t with_tag Hr He Hf. cbn [app length] in *. rewrite <- app_assoc in *. rewrite length_app in Hf. cbn [app length] in *. rewrite <- app_assoc in *. rewrite length_app in Hf. cbn [app length head_code code] in *.
  unfold body_of. change (123 =? 123) with true. cbn [value_init]. change (TYPE_OBJECT =? TYPE_ARRAY) with false. change (TYPE_OBJECT =? TYPE_OBJECT) with true. change (object_new plenty (src ctx)) with (@Ok (list (string_t * xjil_value_t)) []). cbn [res_bind].
  destruct (expect_ok ctx _ _ 123 Hr eq_refl) as (c1 & -> & H1 & _). cbn [res_bind]. change (Z.lor TYPE_NULL TYPE_OBJECT) with TYPE_OBJECT.
  destruct (IH1 c1 _ fuel t TYPE_OBJECT 0 [] [] [] eq_refl H1) as (c2 & -> & H2); [lia|]. cbn [res_bind app]. destruct (peek_ok c2 _ H2) as (c3 & -> & H3). cbn [res_bind head_code code value_init].
  change (91 =? 91) with true. change (TYPE_ARRAY =? TYPE_ARRAY) with true. change (array_new plenty (src c3)) with (@Ok (list xjil_value_t) []). cbn [res_bind]. destruct (expect_ok c3 _ _ 91 H3 eq_refl) as (c4 & -> & H4 & _). cbn [res_bind].
  destruct (IH2 c4 rest fuel t (Z.lor TYPE_OBJECT TYPE_ARRAY) 0 [] [] ms eq_refl H4) as (c5 & -> & H5); [lia|]. by exists c5.
Qed.

Lemma body_number ts x : exp ts x -> body_read ts (mk_value None TYPE_NUMBER (u64 x) [] [] []).
Proof.
  intros Hx. destruct expression_read as (_ & _ & He'). pose proof (He' _ _ Hx) as Hread. pose proof (proj2 (proj2 exp_head) _ _ Hx) as Hh. split; [specialize (Hh []); rewrite app_nil_r in Hh; destruct Hh as [-> | ->]; done|]. split; [done|].
  intros ctx rest fuel t with_tag Hr He Hf. assert (0 < length ts)%nat by (destruct Hread as (k & Hk & _); lia).
  destruct (exp_done ts x ctx rest fuel Hread Hr (ends_op rest He)) as (c1 & E & H1); [lia|].
  destruct (Hh rest) as [-> | ->]; unfold body_of; cbn -[parser_exp]; rewrite E; cbn; by exists c1.
Qed.

Lemma body_string s : body_read [KStr s] (mk_value None TYPE_STRING 0 s [] []).
Proof.
  split; [done|]. split; [done|]. intros ctx rest fuel t with_tag Hr He Hf. cbn [app] in *. destruct (take_token ctx _ _ Hr) as (c1 & E & H1 & _ & Hs). unfold body_of. cbn -[next]. rewrite E. cbn. rewrite Hs. by exists c1.
Qed.

Lemma body_bool b : body_read [KBool b] (mk_value None TYPE_BOOL (Z.b2z b) [] [] []).
Proof.
  split; [done|]. split; [done|]. intros ctx rest fuel t with_tag Hr He Hf. cbn [app] in *. destruct (take_token ctx _ _ Hr) as (c1 & E & H1 & Hn & _). unfold body_of. cbn -[next]. rewrite E. cbn. rewrite Hn. by exists c1.
Qed.

(** *** Values *)

Lemma value_plain ts v : (0 < length ts)%nat -> body_read ts v -> value_read ts v.
Proof.
  intros Hl (Hh & Ht & Hb) ctx rest fuel Hr He Hf. destruct fuel as [|fuel]; [lia|]. rewrite parser_value_eq. destruct (peek_ok ctx _ Hr) as (c1 & -> & H1). cbn [res_bind].
  assert (Hne : head_code (ts ++ rest) <> 60) by (by destruct ts; [cbn in Hl; lia|]). rewrite (proj2 (Z.eqb_neq _ _) Hne). cbn [res_bind].
  destruct (Hb c1 rest fuel None false H1 He Hf) as (c2 & E & H2). unfold value_new. rewrite E. exists c2. split; [|done]. destruct v; cbn in Ht |- *. by subst.
Qed.

Lemma value_tagged s ts v : body_read ts v -> value_read (KChar 60 :: KId s :: KChar 62 :: ts) (set_tag v s).
Proof.
  intros (_ & Ht & Hb) ctx rest fuel Hr He Hf. cbn [app length] in *. destruct fuel as [|fuel]; [lia|]. rewrite parser_value_eq. destruct (peek_ok ctx _ Hr) as (c1 & -> & H1). cbn [res_bind head_code code]. change (60 =? 60) with true.
  unfold value_new. destruct (parser_tag_ok c1 None TYPE_NULL 0 [] [] [] s _ H1) as (c2 & -> & H2). cbn [res_bind]. destruct (peek_ok c2 _ H2) as (c3 & -> & H3). cbn [res_bind].
  destruct (Hb c3 rest fuel (Some s) true H3 He) as (c4 & E & H4); [lia|]. rewrite E. exists c4. split; [|done]. by destruct v.
Qed.

Lemma value_only_tag s : value_read [KChar 60; KId s; KChar 62] (set_tag value_new s).
Proof.
  intros ctx rest fuel Hr He Hf. cbn [app length] in *. destruct fuel as [|fuel]; [lia|]. rewrite parser_value_eq. destruct (peek_ok ctx _ Hr) as (c1 & -> & H1). cbn [res_bind head_code code]. change (60 =? 60) with true.
  unfold value_new. destruct (parser_tag_ok c1 None TYPE_NULL 0 [] [] [] s _ H1) as (c2 & -> & H2). cbn [res_bind]. destruct (peek_ok c2 _ H2) as (c3 & -> & H3). cbn [res_bind].
  exists c3. split; [|done]. unfold body_of. by rewrite !(ends_eqb rest) by done.
Qed.

Lemma phrase_read : (forall ts v, value ts v -> value_read ts v) /\ (forall ts v, body ts v -> body_read ts v) /\
  (forall ts ms, members ts ms -> members_read ts ms) /\ (forall ts es, elements ts es -> elements_read ts es).
Proof.
  apply phrase_ind; intros; auto using value_tagged, value_only_tag, body_object, body_array, body_both, body_number, body_string, body_bool, members_nil, members_last, members_cons, elements_nil, elements_last, elements_cons.
  apply value_plain; [|done]. by apply (proj1 (proj2 value_length) _ v).
Qed.

(** The text in memory: [more] is what is behind it. *)
Definition text (json more : list Z) : list Z := json ++ 0 :: more.

Lemma parse_ok ts v json more len : value ts v -> tokens ts json -> Forall (fun c => c <> 0) json -> len <> 0 -> xjil_parse plenty value_new (text json more) len = Ok (0, v).
Proof.
  intros Hv Ht H0 Hl. unfold xjil_parse, text. rewrite (proj2 (Z.eqb_neq _ _) Hl), cstring_app by done. cbn [deref res_bind]. change (allocate plenty AContext json) with (Ok 0). cbn [res_bind]. destruct phrase_read as (Hp & _). pose proof (tokens_length _ _ Ht).
  destruct (Hp ts v Hv (mk_ctx json 1 0 []) [] (parse_fuel json)) as (c & -> & _); [by unfold reads; rewrite app_nil_r|by apply (bool_decide_eq_true_1 (_ ∈ _))|unfold parse_fuel; lia|done].
Qed.

(** ** Without memory *)

(** What another memory does to a computation: nothing, unless some request is refused or gives an
    array with a size; then the computation may stop. *)
Section any_memory.
Context (mem : request -> list Z -> option Z).

Definition starved : Prop := exists k s, mem k s <> Some 0.
Definition stops_at {A} (r : res A) : Prop := r = Panic \/ r = Undef.
Definition agrees {A} (r r0 : res A) : Prop := r = r0 \/ (starved /\ stops_at r).

Lemma agrees_refl {A} (r : res A) : agrees r r.
Proof. by left. Qed.

Lemma agrees_bind {A B} (r r0 : res A) (f g : A -> res B) : agrees r r0 -> (forall x, agrees (f x) (g x)) -> agrees (let* x := r in f x) (let* x := r0 in g x).
Proof. intros [->|[Hs [->| ->]]] Hf; [destruct r0; [apply Hf|by left|by left]|right; split; [done|by left]|right; split; [done|by right]]. Qed.

(** A request whose memory is not looked at. *)
Lemma allocate_agrees {B} k s (f g : Z -> res B) : (forall x y, agrees (f x) (g y)) -> agrees (let* x := allocate mem k s in f x) (let* x := allocate plenty k s in g x).
Proof.
  intros Hf. unfold allocate. cbn [plenty]. destruct (mem k s) as [z|] eqn:E; cbn [res_bind]; [apply Hf|]. right. split; [exists k, s; by rewrite E|by left].
Qed.

Lemma array_agrees {B} k s (r : res B) : agrees (let* size := allocate mem k s in let* _ := defined_if (size =? 0) in r) (let* size := allocate plenty k s in let* _ := defined_if (size =? 0) in r).
Proof.
  unfold allocate. cbn [plenty]. destruct (mem k s) as [z|] eqn:E; cbn [res_bind]; [|right; split; [exists k, s; by rewrite E|by left]].
  destruct (Z.eqb_spec z 0) as [->|Hz]; [by left|]. right. split; [exists k, s; rewrite E; congruence|by right].
Qed.

Lemma room_agrees n s : agrees (room mem n s) (room plenty n s).
Proof.
  unfold room. destruct (_ || _); [|by left]. cbn [plenty]. destruct (mem AGrow s) eqn:E; [by left|]. right. split; [exists AGrow, s; by rewrite E|by right].
Qed.

Lemma new_value_agrees s : agrees (new_value mem s) (new_value plenty s).
Proof. apply allocate_agrees. intros _ _. apply agrees_refl. Qed.

Lemma member_new_agrees s : agrees (member_new mem s) (member_new plenty s).
Proof. apply allocate_agrees. intros _ _. apply agrees_bind; [apply new_value_agrees|]. intros v. apply allocate_agrees. intros _ _. apply agrees_refl. Qed.

Lemma value_init_agrees s v type : agrees (value_init mem s v type) (value_init plenty s v type).
Proof.
  destruct v as [t ty n x a o]. cbn [value_init]. destruct (type =? TYPE_ARRAY); [apply agrees_bind; [apply array_agrees|intros; apply agrees_refl]|].
  destruct (type =? TYPE_OBJECT); [apply agrees_bind; [apply array_agrees|intros; apply agrees_refl]|].
  destruct (type =? TYPE_STRING); [apply allocate_agrees; intros _ _|]; apply agrees_refl.
Qed.

Lemma push_element_agrees s v e : agrees (push_element mem s v e) (push_element plenty s v e).
Proof. destruct v as [t ty n x a o]. cbn [push_element]. apply agrees_bind; [apply agrees_refl|]. intros _. apply agrees_bind; [apply room_agrees|]. intros _. apply agrees_refl. Qed.
Lemma push_member_agrees s v k e : agrees (push_member mem s v k e) (push_member plenty s v k e).
Proof. destruct v as [t ty n x a o]. cbn [push_member]. apply agrees_bind; [apply agrees_refl|]. intros _. apply agrees_bind; [apply room_agrees|]. intros _. apply agrees_refl. Qed.

Lemma parser_tag_agrees ctx v : agrees (parser_tag mem ctx v) (parser_tag plenty ctx v).
Proof.
  unfold parser_tag. do 2 (apply agrees_bind; [apply agrees_refl|intros ?]). destruct (v_tag v); [apply agrees_refl|].
  apply allocate_agrees. intros _ _. apply agrees_refl.
Qed.

#[local] Ltac agree :=
  lazymatch goal with
  | |- agrees ?r ?r => apply agrees_refl
  | |- agrees (value_init _ _ _ _) _ => apply value_init_agrees
  | |- agrees (push_element _ _ _ _) _ => apply push_element_agrees
  | |- agrees (push_member _ _ _ _ _) _ => apply push_member_agrees
  | |- agrees (parser_tag _ _ _) _ => apply parser_tag_agrees
  | |- agrees (new_value _ _) _ => apply new_value_agrees
  | |- agrees (member_new _ _) _ => apply member_new_agrees
  | |- agrees (res_bind _ _) _ => apply agrees_bind; [agree|intros ?; agree]
  | |- agrees (let '(_, _) := ?x in _) _ => destruct x; agree
  | |- agrees (if ?b then _ else _) _ => destruct b; agree
  | |- _ => idtac
  end.

Lemma parser_agrees fuel :
  (forall ctx v, agrees (parser_value mem fuel ctx v) (parser_value plenty fuel ctx v)) /\
  (forall ctx v, agrees (object_loop mem fuel ctx v) (object_loop plenty fuel ctx v)) /\
  (forall ctx v, agrees (array_loop mem fuel ctx v) (array_loop plenty fuel ctx v)).
Proof.
  induction fuel as [|fuel (IH1 & IH2 & IH3)]; [split_and!; intros; apply agrees_refl|].
  split_and!; intros ctx v; cbn [parser_value object_loop array_loop];
    agree; first [apply IH1|apply IH2|apply IH3].
Qed.

Lemma parse_agrees v json len : agrees (xjil_parse mem v json len) (xjil_parse plenty v json len).
Proof.
  unfold xjil_parse. destruct (len =? 0); [apply agrees_refl|]. apply agrees_bind; [apply agrees_refl|intros s]. apply allocate_agrees. intros _ _.
  apply agrees_bind; [apply parser_agrees|intros ?]. apply agrees_refl.
Qed.
End any_memory.
