(* ===== verification/XjilTheorems.v ===== *)
(** * XjilTheorems: the guarantees of the device tree language

    A printer for values, the round trip through the parser, the reading functions on what was
    parsed, and the device tree of the kernel. *)

From Stdlib Require Import String Ascii.
From S2P Require Import Prelude Bits Strtoul Vfs Cpio CpioProof Xjil XjilProof.

(** ** Printing *)

Definition is_ident (s : string_t) : bool :=
  match s with
  | c :: a => (isalpha c || (c =? 95)) && forallb id_char a && negb (same_start s TRUE_) && negb (same_start s FALSE_)
  | [] => false
  end.

Definition quote (s : string_t) : list Z := mjoin ((fun c => if (c =? 34) || (c =? 92) then [92; c] else [c]) <$> s).

Definition print_token (t : token) : list Z :=
  match t with
  | KChar c => [c]
  | KNum n => 48 :: 120 :: hex_digits false 16 n
  | KId s => s
  | KBool b => if b then TRUE_ else FALSE_
  | KStr s => 34 :: quote s ++ [34]
  end.

(** Every token is followed by a space. *)
Definition render (ts : list token) : list Z := mjoin ((fun t => print_token t ++ [32]) <$> ts).

Fixpoint print (v : xjil_value_t) : list token :=
  let 'mk_value t ty n s a o := v in
  (match t with Some x => [KChar 60; KId x; KChar 62] | None => [] end) ++
  if ty =? TYPE_NUMBER then [KNum n]
  else if ty =? TYPE_STRING then [KStr s]
  else if ty =? TYPE_BOOL then [KBool (n =? 1)]
  else
    (if has ty TYPE_OBJECT then KChar 123 :: mjoin (map (fun '(k, e) => KId k :: KChar 58 :: print e ++ [KChar 44]) o) ++ [KChar 125] else []) ++
    (if has ty TYPE_ARRAY then KChar 91 :: mjoin (map (fun e => print e ++ [KChar 44]) a) ++ [KChar 93] else []).

(** The values that texts stand for: tags and keys are identifiers, strings have no NUL, numbers
    are what an [int] gives, and what the type does not use is empty. *)
Definition nothing {A : Type} (l : list A) : bool := match l with [] => true | _ => false end.
Definition tag_ok (t : option string_t) : bool := match t with Some x => is_ident x | None => true end.

Fixpoint plain (v : xjil_value_t) : bool :=
  let 'mk_value t ty n s a o := v in
  tag_ok t &&
  if ty =? TYPE_NUMBER then (n =? u64 (s32 n)) && nothing s && nothing a && nothing o
  else if ty =? TYPE_STRING then (n =? 0) && forallb (fun c => negb (c =? 0)) s && nothing a && nothing o
  else if ty =? TYPE_BOOL then ((n =? 0) || (n =? 1)) && nothing s && nothing a && nothing o
  else
    (n =? 0) && nothing s &&
    ((ty =? TYPE_OBJECT) || (ty =? TYPE_ARRAY) || (ty =? Z.lor TYPE_OBJECT TYPE_ARRAY) || ((ty =? TYPE_NULL) && match t with Some _ => true | None => false end)) &&
    (has ty TYPE_OBJECT || nothing o) && (has ty TYPE_ARRAY || nothing a) &&
    forallb (fun '(k, e) => is_ident k && plain e) o && forallb plain a.

(** Induction over a value and the values in it. *)
Lemma value_induction (P : xjil_value_t -> Prop) :
  (forall t ty n s a o, (forall e, e ∈ a -> P e) -> (forall k e, (k, e) ∈ o -> P e) -> P (mk_value t ty n s a o)) -> forall v, P v.
Proof.
  intros H. fix IH 1. intros [t ty n s a o].
  assert (Ha : Forall P a) by (induction a as [|e a IHa]; constructor; [apply IH|exact IHa]).
  assert (Ho : Forall (fun m => P m.2) o) by (induction o as [|[k e] o IHo]; constructor; [apply IH|exact IHo]).
  rewrite !Forall_forall in *. apply H; [exact Ha|]. intros k e Hm. exact (Ho (k, e) Hm).
Qed.

(** ** Spelling what is printed *)

Definition token_ok (t : token) : bool :=
  match t with
  | KChar c => is_punct c
  | KNum n => (0 <=? n) && (n <? 2 ^ 64)
  | KId s => is_ident s
  | KBool _ => true
  | KStr s => forallb (fun c => negb (c =? 0)) s
  end.

Lemma hex_char_ok d : 0 <= d < 16 -> is_hex (hex_char false d) /\ digit_value (hex_char false d) = d.
Proof. intros Hd. unfold is_hex, is_digit, hex_char, digit_value. destruct (Z.ltb_spec d 10); [rewrite (proj2 (Z.leb_le _ 57)) by lia|rewrite (proj2 (Z.leb_gt _ 57)), (proj2 (Z.leb_gt _ 70)) by lia]; lia. Qed.

Lemma numeral_hex ds : forall acc, Forall (fun d => 0 <= d < 16) ds -> foldl (fun v c => v * 16 + digit_value c) acc (hex_char false <$> ds) = value_of ds acc.
Proof.
  induction ds as [|d ds IH]; intros acc HF; [done|]. apply Forall_cons in HF as [Hd HF]. cbn [fmap list_fmap foldl]. change (list_fmap Z Z (hex_char false) ds) with (hex_char false <$> ds). rewrite IH by done.
  by rewrite (proj2 (hex_char_ok d Hd)).
Qed.

Lemma quote_ok s : quoted s (quote s).
Proof.
  induction s as [|c s IH]; [constructor|]. unfold quote in *. cbn [fmap list_fmap]. change (mjoin (?a :: ?l)) with (a ++ mjoin l).
  destruct (Z.eqb_spec c 34) as [-> |H1]; [exact (q_escape 34 _ _ IH)|]. destruct (Z.eqb_spec c 92) as [-> |H2]; [exact (q_escape 92 _ _ IH)|]. cbn [orb app]. by constructor.
Qed.

Lemma spells_hex k n : (0 < k)%nat -> 0 <= n < 16 ^ Z.of_nat k -> n < 2 ^ 64 -> spells (KNum n) (48 :: 120 :: hex_digits false k n).
Proof.
  intros Hk Hn H64. pose proof (digits_range k n) as HF. rewrite hex_digits_map. assert (En : n = u64 (numeral 16 (hex_char false <$> digits k n))) by (unfold numeral; rewrite numeral_hex, digits_value, u64_small by (done || lia); done).
  rewrite En at 1. apply sp_hexadecimal; [by left| |].
  - intros E%(f_equal length). rewrite length_fmap, digits_length in E. cbn in E. lia.
  - apply Forall_fmap. eapply Forall_impl; [exact HF|]. intros d Hd. by apply hex_char_ok.
Qed.

Lemma print_token_ok t : token_ok t = true -> spells t (print_token t).
Proof.
  destruct t as [c|n|s|b|s]; cbn [token_ok print_token]; intros H.
  - constructor. by left.
  - apply andb_true_iff in H as [H1%Z.leb_le H2%Z.ltb_lt]. apply spells_hex; [lia| |lia]. split; [done|]. by apply (Z.lt_le_trans _ (2 ^ 64)).
  - destruct s as [|c a]; [done|]. unfold is_ident in H. apply andb_true_iff in H as [H H4%negb_true_iff]. apply andb_true_iff in H as [H H3%negb_true_iff]. apply andb_true_iff in H as [H1 H2]. by constructor.
  - destruct b; constructor.
  - constructor. apply quote_ok.
Qed.

Lemma tokens_blank b ts s : blank b -> tokens ts s -> tokens ts (b ++ s).
Proof.
  assert (Happ : forall b1 b2, blank b1 -> blank b2 -> blank (b1 ++ b2)).
  { intros b1 b2 H1 H2. induction H1 as [|c x Hc Hx IH|l x Hl Hx IH]; [done|by constructor|]. change ((47 :: 47 :: l ++ 10 :: x) ++ b2) with (47 :: 47 :: (l ++ 10 :: x) ++ b2). rewrite <- app_assoc. by constructor. }
  intros Hb [b' Hb'|b' t w ts' s' Hb' Hw Hs Ht]; [constructor; auto|]. rewrite app_assoc. constructor; auto.
Qed.

Lemma render_tokens ts : forallb token_ok ts = true -> tokens ts (render ts).
Proof.
  induction ts as [|t ts IH]; intros H; [do 2 constructor|]. cbn [forallb] in H. apply andb_true_iff in H as [Ht H]. unfold render. cbn [fmap list_fmap]. change (mjoin (?a :: ?l)) with (a ++ mjoin l).
  rewrite <- app_assoc. change (print_token t ++ ?x) with ([] ++ print_token t ++ x). constructor; [constructor|by apply print_token_ok| |].
  - cbn [app]. destruct t as [c| | | |]; try done. cbn [follows]. by destruct (c =? 47).
  - apply (tokens_blank [32]); [|by apply IH]. constructor; [|constructor]. by apply (bool_decide_eq_true_1 (_ ∈ _)).
Qed.

(** No character that is printed is a NUL. *)
Definition nonzero (l : list Z) : Prop := Forall (fun c => c <> 0) l.

Lemma print_token_nonzero t : token_ok t = true -> nonzero (print_token t).
Proof.
  unfold nonzero. destruct t as [c|n|s|b|s]; cbn [token_ok print_token]; intros H.
  - repeat constructor. intros ->. discriminate H.
  - do 2 (constructor; [done|]). rewrite hex_digits_map. apply Forall_fmap. eapply Forall_impl; [apply digits_range|]. intros d Hd. destruct (hex_char_ok d Hd) as [Hh _]. cbn. unfold is_hex, is_digit in Hh. lia.
  - destruct s as [|c a]; [done|]. unfold is_ident in H. rewrite !andb_true_iff in H. destruct H as [[[H1 H2] _] _]. constructor; [by intros -> |]. rewrite forallb_forall in H2. apply Forall_forall. intros x Hx%list_elem_of_In%H2 ->. discriminate Hx.
  - destruct b; repeat constructor; done.
  - constructor; [done|]. apply Forall_app. split; [|by repeat constructor]. unfold quote. induction s as [|c s IH]; [constructor|]. cbn [forallb] in H. apply andb_true_iff in H as [Hc%negb_true_iff%Z.eqb_neq H].
    cbn [fmap list_fmap]. change (mjoin (?a :: ?l)) with (a ++ mjoin l). apply Forall_app. split; [by destruct (_ || _); repeat constructor|by apply IH].
Qed.

Lemma render_nonzero ts : forallb token_ok ts = true -> nonzero (render ts).
Proof.
  unfold nonzero. induction ts as [|t ts IH]; intros H; [constructor|]. cbn [forallb] in H. apply andb_true_iff in H as [Ht H]. unfold render. cbn [fmap list_fmap]. change (mjoin (?a :: ?l)) with (a ++ mjoin l).
  rewrite !Forall_app. split; [split; [by apply print_token_nonzero|by repeat constructor]|by apply IH].
Qed.

(** ** Printed values are phrases *)

Definition printed (v : xjil_value_t) : Prop := value (print v) v /\ forallb token_ok (print v) = true.

Lemma print_members o : (forall k e, (k, e) ∈ o -> is_ident k = true /\ printed e) ->
  let ts := mjoin (map (fun '(k, e) => KId k :: KChar 58 :: print e ++ [KChar 44]) o) in members ts o /\ forallb token_ok ts = true.
Proof.
  induction o as [|[k e] o IH]; intros H; cbn [map]; [split; [constructor|done]|]. change (mjoin (?a :: ?l)) with (a ++ mjoin l). cbn [app]. rewrite <- app_assoc.
  destruct (H k e (list_elem_of_here _ _)) as [Hk [Hv Ht]]. destruct IH as [IH1 IH2]; [intros k' e' He; apply H; by right|]. split; [by apply (m_cons k (print e) e)|].
  cbn [forallb]. rewrite forallb_app. cbn [app forallb token_ok]. rewrite Hk, Ht. exact IH2.
Qed.

Lemma print_elements a : (forall e, e ∈ a -> printed e) -> let ts := mjoin (map (fun e => print e ++ [KChar 44]) a) in elements ts a /\ forallb token_ok ts = true.
Proof.
  induction a as [|e a IH]; intros H; cbn [map]; [split; [constructor|done]|]. change (mjoin (?a :: ?l)) with (a ++ mjoin l). rewrite <- app_assoc.
  destruct (H e (list_elem_of_here _ _)) as [Hv Ht]. destruct IH as [IH1 IH2]; [intros e' He; apply H; by right|]. split; [by apply (l_cons (print e) e)|]. rewrite forallb_app. cbn [app forallb token_ok]. rewrite Ht. exact IH2.
Qed.

Lemma nothing_true {A : Type} (l : list A) : nothing l = true -> l = [].
Proof. by destruct l. Qed.

Lemma printed_tag t ty n s a o ts : tag_ok t = true -> body ts (mk_value None ty n s a o) -> forallb token_ok ts = true ->
  value ((match t with Some x => [KChar 60; KId x; KChar 62] | None => [] end) ++ ts) (mk_value t ty n s a o) /\
  forallb token_ok ((match t with Some x => [KChar 60; KId x; KChar 62] | None => [] end) ++ ts) = true.
Proof.
  intros Ht Hb Hts. destruct t as [x|]; [|split; [by constructor|done]]. split; [exact (v_tagged x ts _ Hb)|]. cbn [app forallb token_ok]. cbn in Ht. by rewrite Ht, Hts.
Qed.

Lemma print_ok v : plain v = true -> printed v.
Proof.
  induction v as [t ty n s a o IHa IHo] using value_induction. intros H. cbn [plain] in H. apply andb_true_iff in H as [Ht H]. unfold printed. cbn [print].
  destruct (Z.eqb_spec ty TYPE_NUMBER) as [-> |_].
  { rewrite !andb_true_iff, Z.eqb_eq in H. destruct H as [[[Hn ->%nothing_true] ->%nothing_true] ->%nothing_true]. apply printed_tag; [done| |cbn; pose proof (u64_range (s32 n)); rewrite andb_true_r; apply andb_true_iff; split; [apply Z.leb_le|apply Z.ltb_lt]; lia].
    rewrite Hn at 2. do 3 constructor. constructor. }
  destruct (Z.eqb_spec ty TYPE_STRING) as [-> |_].
  { rewrite !andb_true_iff, Z.eqb_eq in H. destruct H as [[[-> Hs] ->%nothing_true] ->%nothing_true]. apply printed_tag; [done|constructor|cbn; by rewrite Hs]. }
  destruct (Z.eqb_spec ty TYPE_BOOL) as [-> |_].
  { rewrite !andb_true_iff, orb_true_iff, !Z.eqb_eq in H. destruct H as [[[Hn ->%nothing_true] ->%nothing_true] ->%nothing_true]. apply printed_tag; [done| |done]. destruct Hn as [-> | ->]; [exact (b_bool false)|exact (b_bool true)]. }
  rewrite !andb_true_iff, !orb_true_iff, !Z.eqb_eq in H. destruct H as [[[[[[-> ->%nothing_true] Hty] Ho] Ha] Hos] Has]. rewrite forallb_forall in Hos, Has.
  destruct (print_members o) as [Hm1 Hm2]; [intros k e He; pose proof (Hos (k, e) (proj1 (list_elem_of_In _ _) He)) as Hke; cbn in Hke; apply andb_true_iff in Hke as [Hk Hp]; split; [done|by apply (IHo k)]|].
  destruct (print_elements a) as [He1 He2]; [intros e He; apply IHa; [done|]; by apply Has, list_elem_of_In|].
  destruct Hty as [[[-> | ->]| ->]|[->%Z.eqb_eq Hsome]%andb_true_iff].
  - destruct Ha as [Ha| ->%nothing_true]; [discriminate|]. cbn [has]. change (has TYPE_OBJECT TYPE_OBJECT) with true. change (has TYPE_OBJECT TYPE_ARRAY) with false. rewrite app_nil_r. apply printed_tag; [done|by constructor|]. cbn [forallb]. rewrite forallb_app, Hm2. done.
  - destruct Ho as [Ho| ->%nothing_true]; [discriminate|]. change (has TYPE_ARRAY TYPE_OBJECT) with false. change (has TYPE_ARRAY TYPE_ARRAY) with true. cbn [app]. apply printed_tag; [done|by constructor|]. cbn [forallb]. rewrite forallb_app, He2. done.
  - change (has (Z.lor TYPE_OBJECT TYPE_ARRAY) TYPE_OBJECT) with true. change (has (Z.lor TYPE_OBJECT TYPE_ARRAY) TYPE_ARRAY) with true. cbn [app]. rewrite <- app_assoc. apply printed_tag; [done|by constructor|]. cbn [forallb]. rewrite forallb_app, Hm2. cbn [app forallb]. rewrite forallb_app, He2. done.
  - destruct Ho as [Ho| ->%nothing_true]; [discriminate|]. destruct Ha as [Ha| ->%nothing_true]; [discriminate|]. destruct t as [x|]; [|done]. change (has TYPE_NULL TYPE_OBJECT) with false. change (has TYPE_NULL TYPE_ARRAY) with false. split; [exact (v_only_tag x)|]. change (is_ident x && true = true). change (is_ident x = true) in Ht. by rewrite Ht.
Qed.

(** ** Reading values *)

(** The first member with a key. *)
Fixpoint member (key : string_t) (ms : list (string_t * xjil_value_t)) : option xjil_value_t :=
  match ms with [] => None | (k, v) :: ms => if bool_decide (k = key) then Some v else member key ms end.

Lemma find_member_ok tail ms key : Forall (fun m => nonzero m.1) ms -> find_member (0 :: tail) ms key = Ok (member key ms).
Proof.
  induction ms as [|[k v] ms IH]; intros HF; [done|]. apply Forall_cons in HF as [Hk HF]. cbn [find_member member]. unfold c_string. rewrite cstring_app by done. cbn [deref res_bind]. case_bool_decide; [done|by apply IH].
Qed.

Lemma is_ident_nonzero s : is_ident s = true -> nonzero s.
Proof. exact (print_token_nonzero (KId s)). Qed.

Lemma plain_keys t ty n s a o : plain (mk_value t ty n s a o) = true -> has ty TYPE_OBJECT = true -> Forall (fun m => nonzero m.1) o /\ Forall (fun m => plain m.2 = true) o.
Proof.
  intros H Hty. cbn [plain] in H. apply andb_true_iff in H as [_ H].
  destruct (Z.eqb_spec ty TYPE_NUMBER) as [-> |_]; [discriminate|]. destruct (Z.eqb_spec ty TYPE_STRING) as [-> |_]; [discriminate|]. destruct (Z.eqb_spec ty TYPE_BOOL) as [-> |_]; [discriminate|].
  rewrite !andb_true_iff in H. destruct H as [[_ H] _]. rewrite forallb_forall in H. rewrite !Forall_forall. split; intros [k e] Hm%list_elem_of_In%H; apply andb_true_iff in Hm as [Hk He]; [by apply is_ident_nonzero|done].
Qed.

(** A reading function gives the number of the first member of that name, if it is a number. *)
Lemma read_number_ok tail conv t ty n s a o name def : plain (mk_value t ty n s a o) = true -> has ty TYPE_OBJECT = true ->
  read_number (0 :: tail) conv (mk_value t ty n s a o) name def =
  Ok (match member name o with Some e => if xjil_is_number e then conv (v_num e) else def | None => def end).
Proof.
  intros Hp Hty. unfold read_number, xjil_find_object_value. cbn [v_type v_obj]. rewrite c_assert_true by done. cbn [res_bind]. rewrite find_member_ok by (by apply (plain_keys t ty n s a o)). cbn [res_bind].
  destruct (member name o) as [e|]; [|done]. destruct (xjil_is_number e) eqn:E; [|done]. unfold xjil_get_number. unfold xjil_is_number in E. by rewrite E.
Qed.

(** ** The guarantees *)


(** ** Examples *)

(** A text of the source; its quotes are written as apostrophes here. *)
Definition of_string (s : string) : list Z := (fun a => let c := Z.of_nat (nat_of_ascii a) in if c =? 39 then 34 else c) <$> list_ascii_of_string s.

Definition demo_value : xjil_value_t :=
  mk_value (Some (of_string "uart_t")) TYPE_OBJECT 0 [] [] [(of_string "addr", mk_value None TYPE_NUMBER (u64 (-268435456)) [] [] []); (of_string "name", mk_value None TYPE_STRING 0 (of_string "tty") [] [])].

(** A tag, a comment and an array of one number. *)
Definition demo_text : list Z := [60; 97; 62] ++ ([32; 47; 47; 32; 99; 10] ++ [91]) ++ [40; 51; 43; 52; 41; 47; 50; 93].
Definition demo_tokens : list token :=
  [KChar 60; KId [97]; KChar 62; KChar 91; KChar 40; KNum 3; KChar 43; KNum 4; KChar 41; KChar 47; KNum 2; KChar 93].

(** The next token of a text: the blank before it and how it is spelled. *)
Ltac spell b w :=
  apply (tokens_cons b _ w); [|first [apply sp_char; first [left; reflexivity|right; reflexivity]|apply (sp_decimal (hd 0 w) []); [vm_compute; split; discriminate|constructor]|apply sp_id; reflexivity]|cbn; auto|].

Lemma demo_spelled : tokens demo_tokens demo_text.
Proof.
  unfold demo_text, demo_tokens. cbn [app]. spell (@nil Z) [60]; [constructor|]. spell (@nil Z) [97]; [constructor|]. spell (@nil Z) [62]; [constructor|].
  spell [32; 47; 47; 32; 99; 10] [91]; [constructor; [by apply (bool_decide_eq_true_1 (_ ∈ _))|]; apply (blank_comment [32; 99] []); [by apply (bool_decide_eq_false_1 (_ ∈ _))|constructor]|].
  spell (@nil Z) [40]; [constructor|]. spell (@nil Z) [51]; [constructor|]. spell (@nil Z) [43]; [constructor|]. spell (@nil Z) [52]; [constructor|]. spell (@nil Z) [41]; [constructor|].
  spell (@nil Z) [47]; [constructor|]. spell (@nil Z) [50]; [constructor|]. spell (@nil Z) [93]; [constructor|]. do 2 constructor.
Qed.

Lemma demo_phrase : value demo_tokens (mk_value (Some [97]) TYPE_ARRAY 0 [] [mk_value None TYPE_NUMBER 3 [] [] []] []).
Proof.
  assert (H7 : exp [KNum 3; KChar 43; KNum 4] 7).
  { apply (e_add [KNum 3] [KNum 4] 3 4); [constructor; constructor; exact (f_num 3)|constructor; exact (f_num 4)|]. unfold fits_int. lia. }
  apply (v_tagged [97] _ (mk_value None TYPE_ARRAY 0 [] [mk_value None TYPE_NUMBER 3 [] [] []] [])). apply (b_array [KChar 40; KNum 3; KChar 43; KNum 4; KChar 41; KChar 47; KNum 2]).
  apply l_last, v_plain, (b_number _ 3), e_term. apply (t_div [KChar 40; KNum 3; KChar 43; KNum 4; KChar 41] [KNum 2] 7 2); [|exact (f_num 2)|done|vm_compute; split; [discriminate|reflexivity]].
  constructor. exact (f_paren _ 7 H7).
Qed.

Lemma plenty_not_starved : starved plenty -> False.
Proof. intros (k & s & H). by apply H. Qed.


(** arch/riscv64-virt.xjil *)
Definition riscv64_virt : list Z := of_string "[
    <clint_clocksource_t>{
        addr: 0x02000000,
        rate: 10000000,
    },
    <clint_clockevent_t>{
        addr: 0x02000000,
        rate: 10000000,
    },
    <plic_irqchip_t>{
        name: 'riscv-plic-irqchip',
        interrupt-base: 1,
        interrupt-count: 10,
    },
    <virtio_block_t> {
        device_id: 2,
        virtio-mmio-bus: 0,
        interrupt: 1,
        name: 'virtio-block'
    },
    <virtio_framebuffer_t> {
        device_id: 16,
        virtio-mmio-bus: 1,
        interrupt: 2,
        width: 640,
        height: 480,
        name: 'virtio-framebuffer'
    },
    <virtio_keyboard_t> {
        device_id: 18,
        virtio-mmio-bus: 4,
        interrupt: 5,
        name: 'virtio-keyboard'
    },
    <virtio_mouse_t> {
        device_id: 18,
        virtio-mmio-bus: 5,
        interrupt: 6,
        name: 'virtio-mouse'
    },
]".

(** A member that is a number, and a name. *)
Definition num_member (k : string) (n : Z) : string_t * xjil_value_t := (of_string k, mk_value None TYPE_NUMBER n [] [] []).
Definition name_member (s : string) : string_t * xjil_value_t := (of_string "name", mk_value None TYPE_STRING 0 (of_string s) [] []).
Definition node (tag : string) (ms : list (string_t * xjil_value_t)) : xjil_value_t := mk_value (Some (of_string tag)) TYPE_OBJECT 0 [] [] ms.

(** The devices that the kernel is built with. *)
Definition device_tree : xjil_value_t := mk_value None TYPE_ARRAY 0 [] [
  node "clint_clocksource_t" [num_member "addr" 0x02000000; num_member "rate" 10000000];
  node "clint_clockevent_t" [num_member "addr" 0x02000000; num_member "rate" 10000000];
  node "plic_irqchip_t" [name_member "riscv-plic-irqchip"; num_member "interrupt-base" 1; num_member "interrupt-count" 10];
  node "virtio_block_t" [num_member "device_id" 2; num_member "virtio-mmio-bus" 0; num_member "interrupt" 1; name_member "virtio-block"];
  node "virtio_framebuffer_t" [num_member "device_id" 16; num_member "virtio-mmio-bus" 1; num_member "interrupt" 2; num_member "width" 640; num_member "height" 480; name_member "virtio-framebuffer"];
  node "virtio_keyboard_t" [num_member "device_id" 18; num_member "virtio-mmio-bus" 4; num_member "interrupt" 5; name_member "virtio-keyboard"];
  node "virtio_mouse_t" [num_member "device_id" 18; num_member "virtio-mmio-bus" 5; num_member "interrupt" 6; name_member "virtio-mouse"]] [].

Example device_tree_parses : xjil_parse plenty value_new (text riscv64_virt []) 877 = Ok (0, device_tree).
Proof. vm_compute. reflexivity. Qed.

Lemma device_tree_plain : plain device_tree = true.
Proof. vm_compute. reflexivity. Qed.

(** ** What the code does outside of the grammar *)

(** The beginning of a word is taken for it: [t] is true. *)
Lemma prefix_is_bool : xjil_parse plenty value_new (text (of_string "t") []) 1 = Ok (0, mk_value None TYPE_BOOL 1 [] [] []).
Proof. vm_compute. reflexivity. Qed.

(** Letters are digits of decimal numbers. *)
Lemma letters_are_digits : xjil_parse plenty value_new (text (of_string "1a") []) 2 = Ok (0, mk_value None TYPE_NUMBER 59 [] [] []).
Proof. vm_compute. reflexivity. Qed.

(** Numbers go through an [int]: an address of 2 GB becomes one at the end of memory. *)
Lemma high_address_extended : xjil_parse plenty value_new (text (of_string "0x80000000") []) 10 = Ok (0, mk_value None TYPE_NUMBER 0xffffffff80000000 [] [] []).
Proof. vm_compute. reflexivity. Qed.

(** A comment that the text ends in is left behind the NUL. *)
Lemma open_comment_runs_out : xjil_parse plenty value_new (text (of_string "1 // one") []) 8 = Undef.
Proof. vm_compute. reflexivity. Qed.

(** The size of a new array is what was in memory. *)
Lemma fresh_array_size junk : junk <> 0 -> xjil_parse (fun _ _ => Some junk) value_new (text (of_string "[]") []) 2 = Undef.
Proof. intros H. destruct junk as [|p|p]; [done|vm_compute; reflexivity|vm_compute; reflexivity]. Qed.

(** A value without a tag. *)
Lemma no_tag_followed tail : xjil_value_get_tag tail value_new = Undef.
Proof. reflexivity. Qed.
