(* ===== verification/Device.v ===== *)
(** * Device: the devices of the machine (core/device.c)

    [do_device_init] collects the classes below [device_t] by name, parses the device tree, and for
    every node of it makes an object of the class that its tag names, lets the driver probe it and
    records it under its name.

    The two hash maps are those of lib/hmap.c (Hmap), in the same heap as the objects; a map that
    could not be made is NULL.  The heap of the parser and the bytes behind its strings are the
    parameters [mem] and [tail] of Xjil.  A driver is its function [probe], by the class of the
    object. *)

From Stdlib Require Import String.
From S2P Require Import Prelude Bits ListHead CMem Buddy BuddyBlocks BuddyProof PageAlloc MemPool MemPoolProof Kalloc KallocProof Alloc Class ClassProof ClassTheorems.
From S2P Require Import Hlist LSort Hmap HmapProof.
From S2P Require Import Strtoul Vfs Cpio CpioProof Xjil XjilProof XjilTheorems.

Definition NAME : list Z := [110; 97; 109; 101].

(** ** The heap, as the hash maps use it *)

(** The allocations of [B] are those of others. *)
#[program] Definition heap_alloc {K} `{KernelHeap K} (B : gmap Z Z) : KernelAlloc K := {|
  al_malloc := kh_malloc;
  al_calloc := kh_calloc;
  al_free := kh_free;
  al_inv := fun k X => exists Hp, kh_inv k Hp /\ B ⊆ Hp /\ X = dom Hp ∖ dom B;
|}.
Next Obligation.
  intros K HK B k X n (Hp & Hi & HB & ->) Hn. destruct (kh_malloc_ok k Hp n Hi) as (k' & p & E & Hor); [change (2 ^ (MAX_ORDER + 12)) with (2 ^ 32); lia|].
  exists k', p. split; [done|]. destruct Hor as [?|(m & _ & Hnone & Hi')]; [by left|right]. destruct (kh_region _ _ _ _ Hi' (lookup_insert_eq _ _ _)) as (_ & ? & _).
  assert (p ∉ dom B) by (intros Hp'; apply (subseteq_dom _ _ HB) in Hp'; by apply not_elem_of_dom in Hnone).
  split_and!; [lia|rewrite elem_of_difference; intros [Hp' _]; by apply not_elem_of_dom in Hnone|]. exists (<[p := m]> Hp).
  split_and!; [done|apply insert_subseteq_r; [by apply not_elem_of_dom|done]|rewrite dom_insert_L; set_solver].
Qed.
Next Obligation.
  intros K HK B k X n (Hp & Hi & HB & ->) Hn. destruct (kh_calloc_ok k Hp n Hi) as (k' & p & E & Hor); [lia|].
  exists k', p. split; [done|]. destruct Hor as [?|(m & _ & Hnone & Hi')]; [by left|right]. destruct (kh_region _ _ _ _ Hi' (lookup_insert_eq _ _ _)) as (_ & ? & _).
  assert (p ∉ dom B) by (intros Hp'; apply (subseteq_dom _ _ HB) in Hp'; by apply not_elem_of_dom in Hnone).
  split_and!; [lia|rewrite elem_of_difference; intros [Hp' _]; by apply not_elem_of_dom in Hnone|]. exists (<[p := m]> Hp).
  split_and!; [done|apply insert_subseteq_r; [by apply not_elem_of_dom|done]|rewrite dom_insert_L; set_solver].
Qed.
Next Obligation.
  intros K HK B k X p (Hp & Hi & HB & ->) [[n En]%elem_of_dom HpB]%elem_of_difference. destruct (kh_free_ok k Hp p n Hi En) as (k' & E & Hi').
  exists k'. split; [done|]. exists (delete p Hp). split_and!; [done| |rewrite dom_delete_L; set_solver].
  apply map_subseteq_spec. intros q m Em. rewrite lookup_delete_ne; [by eapply lookup_weaken|]. intros ->. apply HpB, elem_of_dom. eauto.
Qed.

(** ** The classes of devices *)

Section maps.
Context {K : Type} `{KernelHeap K}.

(** A hash map, or NULL.  Its field [heap] is the heap after its last operation. *)
Definition map_t : Type := option (hstate K).

#[local] Instance hmap_heap : KernelAlloc K := heap_alloc ∅.

Definition map_alloc (k : K) : res (K * map_t) := hmap_alloc k (mk_hheap ∅ ∅) (mk_lheap ∅ ∅) 0.

Definition map_add (m : map_t) (key : option (list Z)) (v : Z) (k : K) : res (K * map_t) :=
  match m, key with
  | Some st, Some key => let* st := hmap_add (with_heap st k) key v in Ok (heap st, Some st)
  | _, _ => Ok (k, m)
  end.

Definition map_search (m : map_t) (key : list Z) : res Z := match m with Some st => hmap_search st key | None => Ok 0 end.

(** [strdup(name)]: the copy, or NULL. *)
Definition name_copy (k : K) (name : list Z) : res (K * option (list Z)) := let* '(k, p) := strdup k name in Ok (k, snd <$> p).
End maps.
Arguments map_t : clear implicits.

(** [&info->type] of a class, and the type at such an address. *)
Definition type_slot (class_table t : Z) : Z := class_table + 96 * t + 32.
Definition type_at (class_table a : Z) : res Z :=
  let* _ := defined_if ((a - class_table - 32) mod 96 =? 0) in Ok ((a - class_table - 32) / 96).

Section register.
Context {K : Type} `{KernelHeap K} (class_table : Z) (class_name : Z -> list Z) (h : lheap cloc) (nclass : nat).

(** The entry of the class table that a link is in. *)
Definition entry_of (l : cloc) : res Z := match l with CList t => Ok t | CChild _ => Undef end.

Fixpoint add_names (child : list cloc) (km : K * map_t K) : res (K * map_t K) :=
  match child with
  | [] => Ok km
  | c :: child => let* t := entry_of c in let* km := map_add km.2 (Some (class_name t)) (type_slot class_table t) km.1 in add_names child km
  end.

Fixpoint register_device (fuel : nat) (index : Z) (km : K * map_t K) : res (K * map_t K) :=
  match fuel with
  | O => Undef
  | S fuel =>
      let* child := list_for_each (S nclass) (CChild index) h in
      let* km := add_names child km in
      (fix each (child : list cloc) (km : K * map_t K) : res (K * map_t K) :=
         match child with
         | [] => Ok km
         | c :: child => let* t := entry_of c in let* km := register_device fuel t km in each child km
         end) child km
  end.
End register.

(** ** The devices *)

(** [rest] is what the drivers keep. *)
Record dstate (K X : Type) := mk_dstate { classes : cstate K; device_map : map_t K; rest : X }.
Arguments mk_dstate {K X} _ _ _.
Arguments classes {K X} _.
Arguments device_map {K X} _.
Arguments rest {K X} _.

Section init.
Context {K X : Type} `{KernelHeap K} (table : gmap Z class_table_info) (object_t device_t class_table : Z).
Context (pointer_constructor pointer_destructor : Z -> Z -> cstate K -> res (cstate K)).
Context (probe : Z -> Z -> xjil_value_t -> cstate K * X -> res (Z * (cstate K * X))).
Context (tail : list Z) (mem : request -> list Z -> option Z).
Implicit Types st : dstate K X.

Definition search_device (name : list Z) st : res Z := map_search (device_map st) name.

(** One turn of the loop. *)
Definition init_node (map : map_t K) (value : xjil_value_t) st : res (dstate K X) :=
  let* tag := xjil_value_get_tag tail value in
  let* index := map_search map tag in
  if index =? 0 then Panic
  else
    let* index := type_at class_table index in
    let* '(cs, obj) := new_class_object table object_t pointer_constructor index (classes st) in
    if obj =? 0 then Panic
    else
      let* dev := class_cast table object_t device_t obj cs in
      let* _ := defined_if (negb (dev =? 0)) in
      let* '(ret, (cs, x)) := probe index dev value (cs, rest st) in
      let* cs := if negb (ret =? 0) then delete_class_object table object_t pointer_destructor dev cs else Ok cs in
      let* name := xjil_read_string tail value NAME None in
      match name with
      | None => Ok (mk_dstate cs (device_map st) x)
      | Some name =>
          let* old := search_device name st in
          if negb (old =? 0) then Panic
          else
            let* '(k, copy) := name_copy (cheap cs) name in
            let* '(k, m) := map_add (device_map st) copy dev k in
            Ok (mk_dstate (mk_cstate k (heads cs)) m x)
      end.

Fixpoint init_nodes (map : map_t K) (nodes : list xjil_value_t) st : res (dstate K X) :=
  match nodes with
  | [] => Ok st
  | value :: nodes => let* st := init_node map value st in init_nodes map nodes st
  end.

(** [xjil_new] and [xjil_parse] of the text between [__dtree_start] and [__dtree_end]: [dtree] is
    the memory of the device tree, [len] its length. *)
Definition read_tree (dtree : list Z) (len : Z) : res (Z * xjil_value_t) :=
  let* v := new_value mem dtree in xjil_parse mem v dtree len.

Definition do_device_init (class_name : Z -> list Z) (h : lheap cloc) (nclass : nat) (dtree : list Z) (len : Z) (cs : cstate K) (x : X) : res (dstate K X) :=
  let* '(k, map) := map_alloc (cheap cs) in
  let* '(k, devices) := map_alloc k in
  let* '(k, map) := register_device class_table class_name h nclass (S nclass) device_t (k, map) in
  let* '(_, v) := read_tree dtree len in
  let st := mk_dstate (mk_cstate k (heads cs)) devices x in
  if xjil_is_array v then init_nodes map (v_arr v) st else Ok st.
End init.

(** ** Memory *)

Section enough.
Context {K : Type} `{KernelHeap K} (big : Z).

Definition freed (k k' : K) : Prop := exists p, kh_free k p = Ok k'.

(** The next [j] requests for at most [big] bytes are granted, whatever is freed in between. *)
Fixpoint enough (j : nat) (k : K) : Prop :=
  match j with
  | O => True
  | S j => forall k1 n, rtc freed k k1 -> 0 < n <= big ->
      (exists k' p, kh_malloc k1 n = Ok (k', p) /\ p <> 0 /\ enough j k') /\ exists k' p, kh_calloc k1 n = Ok (k', p) /\ p <> 0 /\ enough j k'
  end.

Lemma enough_S j : forall k, enough (S j) k -> enough j k.
Proof.
  induction j as [|j IH]; intros k Hk; [done|]. intros k1 n H1 Hn. destruct (Hk k1 n H1 Hn) as [(k2 & p2 & E2 & N2 & Hk2) (k3 & p3 & E3 & N3 & Hk3)].
  split; [exists k2, p2|exists k3, p3]; (split_and!; [done|done|by apply IH]).
Qed.

Lemma enough_le i j k : (i <= j)%nat -> enough j k -> enough i k.
Proof. induction 1 as [|j _ IH]; [done|]. intros Hk. by apply IH, enough_S. Qed.

Lemma enough_free j k k' p : enough j k -> kh_free k p = Ok k' -> enough j k'.
Proof. destruct j as [|j]; [done|]. intros Hk E k1 n H1. apply Hk. eapply rtc_l; [by exists p|done]. Qed.

Lemma enough_malloc j k n : enough (S j) k -> 0 < n <= big -> exists k' p, kh_malloc k n = Ok (k', p) /\ p <> 0 /\ enough j k'.
Proof. intros Hk Hn. apply (Hk k n); [reflexivity|done]. Qed.

Lemma enough_calloc j k n : enough (S j) k -> 0 < n <= big -> exists k' p, kh_calloc k n = Ok (k', p) /\ p <> 0 /\ enough j k'.
Proof. intros Hk Hn. apply (Hk k n); [reflexivity|done]. Qed.

(** ** The hash maps in the heap *)

Implicit Types (m : map_t K) (M : gmap (list Z) Z).

Definition owned (st : hstate K) (es : list Z) : list Z := hash (hm st) :: maddr st :: es ++ keys_of (Hmap.entries st) es.

(** A hash map that stands for [M], with the addresses of its own. *)
Definition map_ok m (own : gset Z) M : Prop :=
  exists st es, m = Some st /\ own = list_to_set (owned st es) /\ msize (hm st) <= Z.max 16 (4 * Z.of_nat (size M)) /\
    @hmap_rel K (heap_alloc ∅) st es M.

(** The map among the allocations of others, in the heap as it is now. *)
Lemma map_among st es M k Hp : @hmap_rel K (heap_alloc ∅) st es M -> kh_inv k Hp -> list_to_set (owned st es) ⊆ dom Hp ->
  @hmap_rel K (heap_alloc (filter (fun x => x.1 ∉ owned st es) Hp)) (with_heap st k) es M.
Proof.
  intros [H1 H2 H3 H4 H5 (X & _ & Hnd & _)] Hi Hown. split; [done|done|done|done|done|].
  exists (list_to_set (owned st es)). split_and!; [|done|intros p Hp'; by apply elem_of_list_to_set]. exists Hp. split_and!; [done|apply map_filter_subseteq|].
  apply set_eq. intros p. rewrite elem_of_difference, !elem_of_dom. split.
  - intros Hp'. split; [by apply elem_of_dom, Hown|]. intros [n En]. apply map_lookup_filter_Some in En as [_ En]. by apply elem_of_list_to_set in Hp'.
  - intros [[n En] Hno]. apply elem_of_list_to_set. destruct (decide (p ∈ owned st es)) as [|Hn]; [done|]. destruct Hno. exists n. by apply map_lookup_filter_Some.
Qed.

Lemma map_alone B st es M : @hmap_rel K (heap_alloc B) st es M ->
  @hmap_rel K (heap_alloc ∅) st es M /\ exists Hp, kh_inv (heap st) Hp /\ B ⊆ Hp /\ list_to_set (owned st es) ⊆ dom Hp /\ forall p, p ∈ owned st es -> p ∉ dom B.
Proof.
  intros [H1 H2 H3 H4 H5 (X & (Hp & Hi & HB & ->) & Hnd & Hin)]. split.
  - split; [done|done|done|done|done|]. exists (dom Hp). split_and!; [|done|intros p Hp'; by apply Hin, elem_of_difference in Hp' as [? _]].
    exists Hp. split_and!; [done|apply map_empty_subseteq|set_solver].
  - exists Hp. split_and!; [done|done| |]; intros p Hp'; [apply elem_of_list_to_set in Hp'|]; apply Hin, elem_of_difference in Hp' as [? ?]; done.
Qed.

Lemma map_alloc_ok k Hp j : kh_inv k Hp -> enough (2 + j) k -> 128 <= big ->
  exists k' m own Hp', map_alloc k = Ok (k', m) /\ map_ok m own ∅ /\ kh_inv k' Hp' /\ own ⊆ dom Hp' /\ enough j k' /\
    forall p n, Hp !! p = Some n -> Hp' !! p = Some n /\ p ∉ own.
Proof.
  intros Hi Hen Hbig. destruct (@hmap_alloc_spec K (heap_alloc Hp) k ∅ (mk_hheap ∅ ∅) (mk_lheap ∅ ∅) 4) as (k' & o & E & Ho); [exists Hp; split_and!; [done|done|set_solver]|done|].
  change (2 ^ 4) with 16 in E. change (map_alloc k = Ok (k', o)) in E. pose proof E as E'. unfold map_alloc, hmap_alloc in E'. cbn [res_bind round_size Z.ltb Z.compare] in E'.
  change (round_size 0) with (Ok 16 : res Z) in E'. cbn [res_bind al_malloc heap_alloc] in E'.
  destruct (enough_malloc (1 + j) k sizeof_hmap_t) as (k1 & a1 & E1 & N1 & Hk1); [done|unfold sizeof_hmap_t; lia|]. cbn in E'. rewrite E1 in E'. cbn [res_bind] in E'. rewrite (proj2 (Z.eqb_neq a1 0) N1) in E'.
  destruct (enough_malloc j k1 (sizeof_hlist_head * 16)) as (k2 & a2 & E2 & N2 & Hk2); [done|unfold sizeof_hlist_head; lia|]. rewrite E2 in E'. cbn [res_bind] in E'. rewrite (proj2 (Z.eqb_neq a2 0) N2) in E'.
  injection E' as <- <-. destruct Ho as [es Hr]. destruct (map_alone _ _ _ _ Hr) as (Hr' & Hp' & Hi' & HB & Hown & Hdis).
  eexists _, _, _, Hp'. split; [exact E|]. split; [eexists _, es; split_and!; [reflexivity|reflexivity|cbn; lia|exact Hr']|]. split_and!; [exact Hi'|exact Hown|done|].
  intros p n En. split; [by eapply lookup_weaken|]. intros Hp0%elem_of_list_to_set. apply (Hdis p Hp0), elem_of_dom. eauto.
Qed.

(** *** Adding a key *)

Lemma add_all_flow es : forall (st st' : hstate K), add_all es st = Ok st' -> heap st' = heap st /\ hm st' = hm st.
Proof.
  induction es as [|e es IH]; intros st st'; cbn [add_all]; [by intros [= <-]|]. destruct (node_entry e) as [e'| |]; [|done..]. cbn [res_bind]. destruct (get_entry st e') as [en| |]; [|done..]. cbn [res_bind].
  destruct (defined_if _) as [[]| |]; [|done..]. cbn [res_bind]. intros E. by apply IH in E as [-> ->].
Qed.

Lemma resize_flow B (st st' : hstate K) size r j : @hmap_resize K (heap_alloc B) st size = Ok st' -> round_size (u32 size) = Ok r -> enough (S j) (heap st) -> 0 < sizeof_hlist_head * r <= big ->
  enough j (heap st') /\ msize (hm st') = r.
Proof.
  intros E Er Hen Hr. unfold hmap_resize in E. rewrite Er in E. cbn [res_bind al_malloc heap_alloc] in E. destruct (enough_malloc j (heap st) _ Hen Hr) as (k & a & Ek & Ha & Hk). rewrite Ek in E. cbn [res_bind] in E.
  rewrite (proj2 (Z.eqb_neq a 0) Ha) in E. destruct (entry_list _) as [es| |]; [|done..]. cbn [res_bind] in E. destruct (del_all es _) as [c| |]; [|done..]. cbn [res_bind al_free heap_alloc] in E.
  match type of E with (let* s := kh_free ?k ?a in _) = _ => destruct (kh_free k a) as [k1| |] eqn:Ef; [|done..] end. cbn [res_bind] in E.
  destruct (entry_list _) as [es'| |]; [|done..]. cbn [res_bind] in E. apply add_all_flow in E as [-> ->]. cbn [heap hm msize]. split; [|done]. by eapply enough_free.
Qed.

(** At most three requests, and the table has room for twice the keys. *)
Lemma hmap_add_flow B (st st' : hstate K) es M key v j :
  @hmap_rel K (heap_alloc B) st es M -> @hmap_add K (heap_alloc B) st key v = Ok st' -> Z.of_nat (size M) <= 2 ^ 26 ->
  enough (3 + j) (heap st) -> msize (hm st) <= Z.max 16 (4 * Z.of_nat (size M)) -> 32 * Z.of_nat (size M) + 128 <= big -> Z.of_nat (length key) + 1 <= big ->
  enough j (heap st') /\ msize (hm st') <= Z.max 16 (4 * Z.of_nat (size M)).
Proof.
  intros Hr E HM Hen Hsz Hb Hk. unfold hmap_add in E. destruct (find st key) as [[e|]| |]; [| |done..]; cbn [res_bind] in E.
  { destruct (get_entry st e) as [en| |]; [|done..]. cbn [res_bind] in E. injection E as <-. cbn [heap with_entries hm]. split; [|done]. eapply enough_le; [|exact Hen]. lia. }
  assert (Hst1 : exists st1, (if Z.shiftr (msize (hm st)) 1 <? n (hm st) then @hmap_resize K (heap_alloc B) st (Z.shiftl (msize (hm st)) 1) else Ok st) = Ok st1 /\
    enough (2 + j) (heap st1) /\ msize (hm st1) <= Z.max 16 (4 * Z.of_nat (size M))).
  { destruct (hr_size _ _ _ Hr) as (b & Hbr & Em). destruct (hr_n _ _ _ Hr) as [En _]. pose proof (entries_length _ _ _ (hr_ents _ _ _ Hr) (hr_es_nodup _ _ _ Hr)) as Hlen.
    destruct (grow_spec st es M Hr HM) as (st1 & E1 & _). exists st1. split; [exact E1|]. destruct (Z.ltb_spec (Z.shiftr (msize (hm st)) 1) (n (hm st))) as [Hlt|_].
    - assert (Hp : 2 ^ b * 2 = 2 ^ (b + 1)) by (rewrite Z.pow_add_r by lia; done). rewrite Em, Z.shiftr_div_pow2 in Hlt by lia. change (2 ^ 1) with 2 in Hlt.
      assert (Hb2 : 2 ^ b / 2 * 2 = 2 ^ b) by (replace b with ((b - 1) + 1) by lia; rewrite Z.pow_add_r by lia; change (2 ^ 1) with 2; by rewrite Z.div_mul).
      assert (Hb27 : b <> 27) by (intros ->; change (2 ^ 27 / 2) with (2 ^ 26) in Hlt; lia).
      assert (Esh : Z.shiftl (msize (hm st)) 1 = 2 ^ (b + 1)) by (rewrite Em, Z.shiftl_mul_pow2 by lia; exact Hp). rewrite Esh in E1.
      destruct (resize_flow B st st1 _ (2 ^ (b + 1)) (2 + j) E1) as [H1 H2].
      + rewrite u32_small; [apply round_size_pow2; lia|]. split; [lia|]. apply Z.pow_lt_mono_r; lia.
      + exact Hen.
      + unfold sizeof_hlist_head. pose proof (Z.pow_pos_nonneg 2 (b + 1)). lia.
      + split; [exact H1|]. rewrite H2. lia.
    - injection E1 as <-. split; [|done]. eapply enough_le; [|exact Hen]. lia. }
  destruct Hst1 as (st1 & E1 & Hen1 & Hm1). rewrite E1 in E. cbn [res_bind al_malloc heap_alloc] in E.
  destruct (enough_malloc (1 + j) (heap st1) sizeof_hmap_entry_t Hen1) as (k2 & pos & E2 & N2 & Hk2); [unfold sizeof_hmap_entry_t; lia|]. rewrite E2 in E. cbn [res_bind] in E. rewrite (proj2 (Z.eqb_neq pos 0) N2) in E.
  unfold strdup in E. cbn [heap with_heap al_malloc heap_alloc] in E. destruct (enough_malloc j k2 (Z.of_nat (length key) + 1) Hk2) as (k3 & a & E3 & N3 & Hk3); [lia|]. rewrite E3 in E. cbn [res_bind] in E. rewrite (proj2 (Z.eqb_neq a 0) N3) in E. cbn [res_bind] in E.
  destruct (list_add_tail _ _ _) as [l| |]; [|done..]. cbn [res_bind] in E. injection E as <-. cbn [heap hm msize with_heap]. by split.
Qed.

(** With memory for it a key is bound, and the allocations of others stay. *)
Lemma map_add_ok m own M k Hp key v j : map_ok m own M -> kh_inv k Hp -> own ⊆ dom Hp -> is_str key -> Z.of_nat (size M) <= 2 ^ 26 ->
  enough (4 + j) k -> 32 * Z.of_nat (size M) + 128 <= big -> Z.of_nat (length key) + 1 <= big ->
  exists k' m' own' Hp', map_add m (Some key) v k = Ok (k', m') /\ map_ok m' own' (<[key := v]> M) /\ kh_inv k' Hp' /\ own' ⊆ dom Hp' /\ enough j k' /\
    forall p n, p ∉ own -> Hp !! p = Some n -> Hp' !! p = Some n /\ p ∉ own'.
Proof.
  intros (st & es & -> & -> & Hsz & Hr) Hi Hown Hkey HM Hen Hb Hl. pose proof (map_among st es M k Hp Hr Hi Hown) as Hr1. set (B := filter _ Hp) in Hr1.
  destruct (hmap_add_spec (with_heap st k) M key v (ex_intro _ es Hr1) Hkey HM) as (st' & E & Hor).
  destruct (hmap_add_flow B _ st' es M key v (1 + j) Hr1 E HM Hen Hsz Hb Hl) as [Hen' Hsz'].
  assert (Hno : forall n, 0 < n <= big -> ~ @no_memory K (heap_alloc B) (heap st') n).
  { intros n Hn Hm. destruct (enough_malloc j (heap st') n Hen' Hn) as (k' & p & E' & N & _). unfold no_memory in Hm. cbn [al_malloc heap_alloc] in Hm. rewrite E' in Hm. injection Hm as _ ->. done. }
  destruct Hor as [[es' Hr']|[(_ & _ & Hm)|(_ & _ & Hm)]]; [|destruct (Hno sizeof_hmap_entry_t ltac:(unfold sizeof_hmap_entry_t; lia) Hm)|destruct (Hno (Z.of_nat (length key) + 1) ltac:(lia) Hm)].
  destruct (map_alone _ _ _ _ Hr') as (Hr'' & Hp' & Hi' & HB & Hown' & Hdis).
  exists (heap st'), (Some st'), (list_to_set (owned st' es')), Hp'. change (map_add (Some st) (Some key) v k = Ok (heap st', Some st')) with ((let* s := @hmap_add K (heap_alloc B) (with_heap st k) key v in Ok (heap s, Some s)) = Ok (heap st', Some st')). rewrite E. split; [done|].
  split; [exists st', es'; split_and!; [done|done| |done]|split_and!; [done|done|by apply enough_S|]].
  - rewrite map_size_insert. destruct (M !! key); cbn; lia.
  - intros p n Hp0 En. assert (HBp : B !! p = Some n) by (apply map_lookup_filter_Some; split; [done|]; intros ?; by apply Hp0, elem_of_list_to_set).
    split; [by eapply lookup_weaken|]. intros Hp1%elem_of_list_to_set. apply (Hdis p Hp1), elem_of_dom. eauto.
Qed.

Lemma map_search_ok m own M key : map_ok m own M -> is_str key -> map_search m key = Ok (default 0 (M !! key)).
Proof. intros (st & es & -> & _ & _ & Hr) Hk. apply (@hmap_search_spec K (heap_alloc ∅) st M key); [by exists es|done]. Qed.

Lemma name_copy_ok k Hp name j : kh_inv k Hp -> enough (S j) k -> is_str name -> Z.of_nat (length name) + 1 <= big ->
  exists k' Hp', name_copy k name = Ok (k', Some name) /\ kh_inv k' Hp' /\ Hp ⊆ Hp' /\ enough j k'.
Proof.
  intros Hi Hen [_ Hl] Hb. unfold name_copy, strdup. cbn [al_malloc heap_alloc]. destruct (enough_malloc j k (Z.of_nat (length name) + 1) Hen) as (k' & p & E & N & Hk); [lia|]. 
  destruct (kh_malloc_ok k Hp (Z.of_nat (length name) + 1) Hi) as (k1 & p1 & E1 & Hor); [change (2 ^ (MAX_ORDER + 12)) with (2 ^ 32); lia|]. rewrite E in E1. injection E1 as <- <-.
  destruct Hor as [[? _]|(n & _ & Hn & Hi')]; [done|]. exists k', (<[p := n]> Hp). cbn. rewrite E. cbn [res_bind]. rewrite (proj2 (Z.eqb_neq p 0) N). cbn. split_and!; [done|done|by apply insert_subseteq|done].
Qed.
End enough.

(** ** The children of a class *)

(** The classes from [i] on whose parent is [p]. *)
Fixpoint kids_from (i : Z) (todo : list raw_class) (p : Z) : list Z :=
  match todo with
  | [] => []
  | (_, q) :: todo => (if q =? p then [i] else []) ++ kids_from (i + 1) todo p
  end.

Lemma kids_from_spec todo : forall i p k, k ∈ kids_from i todo p <-> exists sz, i <= k /\ todo !! Z.to_nat (k - i) = Some (sz, p).
Proof.
  induction todo as [|[sz q] todo IH]; intros i p k; cbn [kids_from].
  - split; [by intros ?%elem_of_nil|]. intros (? & _ & E). by rewrite lookup_nil in E.
  - rewrite elem_of_app, IH. split.
    + intros [Hk|(s & Hk & E)].
      * destruct (Z.eqb_spec q p) as [-> |]; [|by apply elem_of_nil in Hk]. apply list_elem_of_singleton in Hk as ->. exists sz. split; [lia|]. by rewrite Z.sub_diag.
      * exists s. split; [lia|]. by replace (Z.to_nat (k - i)) with (S (Z.to_nat (k - (i + 1)))) by lia.
    + intros (s & Hk & E). destruct (Z.eq_dec k i) as [-> |Hne].
      * left. rewrite Z.sub_diag in E. cbn in E. injection E as -> ->. rewrite Z.eqb_refl. by left.
      * right. exists s. split; [lia|]. by replace (Z.to_nat (k - i)) with (S (Z.to_nat (k - (i + 1)))) in E by lia.
Qed.

Lemma kids_from_length todo : forall i p, (length (kids_from i todo p) <= length todo)%nat.
Proof. induction todo as [|[sz q] todo IH]; intros i p; cbn [kids_from length]; [lia|]. rewrite length_app. specialize (IH (i + 1) p). destruct (q =? p); cbn; lia. Qed.

Lemma empty_lists l : forall h p, p ∈ l -> dlist (foldl (fun h i => init_list_head (CChild i) (init_list_head (CList i) h)) h l) (CChild p) [].
Proof.
  induction l as [|i l IH] using rev_ind; intros h p Hp; [by apply elem_of_nil in Hp|]. rewrite foldl_app. cbn [foldl]. destruct (Z.eq_dec p i) as [-> |Hne]; [apply dlist_init|].
  apply elem_of_app in Hp as [Hp|Hp%list_elem_of_singleton]; [|done]. eapply dlist_frame; [apply init_same_outside|set_solver|]. eapply dlist_frame; [apply init_same_outside|set_solver|]. by apply IH.
Qed.

Lemma link_classes_ok n todo : forall i h (kids : Z -> list Z),
  Forall (fun c : raw_class => 0 <= c.2 < n) todo -> (forall p, 0 <= p < n -> dlist h (CChild p) (CList <$> kids p)) ->
  (forall p k, k ∈ kids p -> k < i) -> (forall p q k, k ∈ kids p -> k ∈ kids q -> p = q) ->
  exists h', link_classes i todo h = Ok h' /\ forall p, 0 <= p < n -> dlist h' (CChild p) (CList <$> (kids p ++ kids_from i todo p)).
Proof.
  induction todo as [|[sz q] todo IH]; intros i h kids HF Hd Hlt Hone; cbn [link_classes kids_from].
  { exists h. split; [done|]. intros p Hp. rewrite app_nil_r. by apply Hd. }
  apply Forall_cons in HF as [Hq HF]. cbn in Hq.
  destruct (list_add_tail_spec h (CChild q) (CList <$> kids q) (CList i) (Hd q Hq)) as (h1 & -> & Hd1 & Ho).
  { rewrite not_elem_of_cons. split; [done|]. intros (k & E & Hk)%list_elem_of_fmap. injection E as <-. apply Hlt in Hk. lia. }
  cbn [res_bind]. destruct (IH (i + 1) h1 (fun p => kids p ++ (if q =? p then [i] else []))) as (h' & E & Hd'); [done| | | |].
  - intros p Hp. destruct (Z.eqb_spec q p) as [<- |Hne]; [by rewrite fmap_app|]. rewrite app_nil_r. eapply dlist_frame; [exact Ho| |by apply Hd].
    intros x Hx Hx'. apply elem_of_cons in Hx' as [-> |Hx']; [|apply elem_of_cons in Hx' as [-> |Hx']].
    + apply elem_of_cons in Hx as [?|(k & E & Hk)%list_elem_of_fmap]; [done|]. injection E as <-. apply Hlt in Hk. lia.
    + apply elem_of_cons in Hx as [E|(k & E & _)%list_elem_of_fmap]; [|done]. injection E as ->. done.
    + apply list_elem_of_fmap in Hx' as (k & -> & Hk). apply elem_of_cons in Hx as [?|(k' & E & Hk')%list_elem_of_fmap]; [done|]. injection E as <-. by rewrite (Hone p q k) in Hne.
  - intros p k Hk. apply elem_of_app in Hk as [Hk|Hk]; [apply Hlt in Hk; lia|]. destruct (q =? p); [apply list_elem_of_singleton in Hk; lia|by apply elem_of_nil in Hk].
  - intros p p' k Hk Hk'. apply elem_of_app in Hk as [Hk|Hk], Hk' as [Hk'|Hk']; [by apply (Hone p p' k)| | |].
    + destruct (Z.eqb_spec q p') as [<- |]; [|by apply elem_of_nil in Hk']. apply list_elem_of_singleton in Hk' as ->. apply Hlt in Hk. lia.
    + destruct (Z.eqb_spec q p) as [<- |]; [|by apply elem_of_nil in Hk]. apply list_elem_of_singleton in Hk as ->. apply Hlt in Hk'. lia.
    + destruct (Z.eqb_spec q p), (Z.eqb_spec q p'); subst; try done; try (by apply elem_of_nil in Hk); by apply elem_of_nil in Hk'.
  - exists h'. split; [exact E|]. intros p Hp. rewrite app_assoc. by apply Hd'.
Qed.

(** What [get_class_child] gives for every class. *)
Definition children_ok (table : gmap Z class_table_info) (h : lheap cloc) (n : nat) : Prop :=
  forall p, is_Some (table !! p) -> exists ks, dlist h (CChild p) (CList <$> ks) /\ (length ks <= n)%nat /\
    forall k, k ∈ ks <-> exists c, table !! k = Some c /\ parent_type c = p.

Lemma init_children_ok raw object_t table h :
  do_class_init raw object_t = Ok (table, h) -> Forall (fun c : raw_class => 0 <= c.2 < Z.of_nat (length raw)) raw -> children_ok table h (length raw).
Proof.
  intros Hinit HF p [c Ec]. pose proof Hinit as Hi. unfold do_class_init in Hi. set (n := Z.of_nat (length raw)) in *.
  destruct (link_classes_ok n raw 0 (foldl (fun h i => init_list_head (CChild i) (init_list_head (CList i) h)) (mk_lheap ∅ ∅) (seqZ 0 n)) (fun _ => [])) as (h' & E & Hd).
  { done. } { intros q Hq. apply empty_lists. apply elem_of_seqZ. lia. } { intros q k Hk. by apply elem_of_nil in Hk. } { intros q q' k Hk. by apply elem_of_nil in Hk. }
  rewrite E in Hi. cbn [res_bind] in Hi. destruct (fill_table 0 raw raw object_t); [|done..]. cbn [res_bind] in Hi. injection Hi as -> ->.
  assert (Hp : 0 <= p < n).
  { apply (table_lookup raw object_t table h Hinit) in Ec as [Er _]. unfold raw_at in Er. destruct (Z.leb_spec 0 p); [|done]. apply lookup_lt_Some in Er. lia. }
  exists (kids_from 0 raw p). split; [exact (Hd p Hp)|]. split; [apply kids_from_length|]. intros k. rewrite kids_from_spec. split.
  - intros (sz & Hk & El). rewrite Z.sub_0_r in El. assert (Er : raw_at raw k = Some (sz, p)) by (unfold raw_at; by rewrite (proj2 (Z.leb_le 0 k))).
    destruct (table_defined raw object_t table h Hinit k) as [c' Ec']; [by eexists|]. exists c'. split; [done|]. apply (table_lookup raw object_t table h Hinit) in Ec' as [Er' _]. rewrite Er in Er'. by injection Er'.
  - intros (c' & Ec' & <-). apply (table_lookup raw object_t table h Hinit) in Ec' as [Er _]. unfold raw_at in Er. destruct (Z.leb_spec 0 k); [|done]. exists (size_ c'). rewrite Z.sub_0_r. done.
Qed.

(** ** The classes of devices *)

Section register.
Context (table : gmap Z class_table_info) (object_t : Z) (h : lheap cloc) (n : nat).
Context (Htab : table_ok table object_t) (Hkids : children_ok table h n).
Context (Hroot : forall c, table !! object_t = Some c -> parent_type c = object_t).

(** [t] is a class below [d]. *)
Definition descends (d t : Z) : Prop := t <> d /\ exists l, lineage table object_t t l /\ d ∈ l.

(** A class below [d] is a child of [d] or below one. *)
Lemma descends_child d t : d <> object_t -> descends d t <-> exists k c, table !! k = Some c /\ parent_type c = d /\ (t = k \/ descends k t).
Proof.
  intros Hd. split.
  - intros (Hne & l & Hl & Hin). induction Hl as [|t i l Hto Ei Hl IH]; [apply list_elem_of_singleton in Hin; done|].
    apply elem_of_cons in Hin as [-> |Hin]; [done|]. destruct (Z.eq_dec (parent_type i) d) as [<- |Hp]; [exists t, i; auto|].
    destruct (IH (fun E => Hp E) Hin) as (k & c & Ek & Ec & Hor). exists k, c. split_and!; [done|done|]. right.
    assert (Hk : k ∈ l) by (destruct Hor as [<- |(_ & l' & Hl' & Hk)]; [destruct (lineage_head _ _ _ _ Hl) as [l' ->]; by left|by rewrite (lineage_det _ _ _ _ _ Hl Hl')]).
    split; [|exists (t :: l); split; [by econstructor|by right]]. intros ->. assert (Hnd := lineage_NoDup _ _ _ _ (lineage_sub _ _ _ _ _ Hto Ei Hl)). by apply NoDup_cons in Hnd as [? _].
  - intros (k & c & Ek & Ec & Hor). destruct (t_lineage _ _ Htab k) as [lk Hlk]; [by rewrite Ek|].
    inversion Hlk as [Ho E1 E2|k' i l Hto Ei Hl E1 E2]; subst.
    + by rewrite (Hroot c Ek) in Hd.
    + rewrite Ek in Ei. injection Ei as <-. destruct (lineage_head _ _ _ _ Hl) as [l' El].
      assert (Hin : parent_type c ∈ l) by (rewrite El; by left). assert (Hnd := lineage_NoDup _ _ _ _ Hlk). apply NoDup_cons in Hnd as [Hnk _].
      destruct Hor as [-> |(Hne & lt & Hlt & Hkl)].
      * split; [intros ->; done|]. exists (k :: l). split; [done|by right].
      * destruct (lineage_suffix table object_t t lt k Hlt Hkl) as (l1 & l2 & -> & Hl2). rewrite (lineage_det _ _ _ _ _ Hl2 Hlk) in *.
        split; [|exists (l1 ++ k :: l); split; [done|]; apply elem_of_app; right; by right].
        intros ->. destruct (lineage_head _ _ _ _ Hlt) as [lt' E]. assert (Hnd := lineage_NoDup _ _ _ _ Hlt). destruct l1 as [|x l1]; cbn in E; injection E as -> _; [done|]. cbn in Hnd. apply NoDup_cons in Hnd as [Hx _]. apply Hx, elem_of_app. right. by right.
Qed.

Lemma descends_in_table d t : descends d t -> is_Some (table !! t).
Proof. intros (_ & l & Hl & _). destruct (lineage_head _ _ _ _ Hl) as [l' ->]. apply (lineage_in_table _ _ _ _ _ Hl). by left. Qed.

(** A class is below one child of [d] only. *)
Lemma one_branch t l d k k' c c' : d <> object_t -> lineage table object_t t l -> k ∈ l -> k' ∈ l -> table !! k = Some c -> table !! k' = Some c' ->
  parent_type c = d -> parent_type c' = d -> k = k'.
Proof.
  intros Hd Hl Hk Hk' Ec Ec' Ep Ep'.
  assert (Hend : forall k c, table !! k = Some c -> parent_type c = d -> k ∈ l -> exists l1 ld, l = l1 ++ k :: ld /\ lineage table object_t d ld).
  { intros x cx Ex Epx Hx. destruct (lineage_suffix table object_t t l x Hl Hx) as (l1 & l2 & -> & Hl2). inversion Hl2 as [Ho E1 E2|x' i lx Hto Ei Hlx E1 E2].
    - exfalso. apply Hd. rewrite <- Epx. apply Hroot. by rewrite E1.
    - rewrite Ex in Ei. injection Ei as <-. exists l1, lx. by rewrite <- Epx. }
  destruct (Hend k c Ec Ep Hk) as (l1 & ld & E1 & H1), (Hend k' c' Ec' Ep' Hk') as (l2 & ld' & E2 & H2). rewrite (lineage_det _ _ _ _ _ H2 H1) in E2. rewrite E1 in E2.
  apply (f_equal reverse) in E2. rewrite !reverse_app, !reverse_cons, <- !app_assoc in E2. apply app_inv_head in E2. by injection E2.
Qed.

Context {K : Type} `{KernelHeap K} (class_table : Z) (class_name : Z -> list Z).

Lemma add_names_app l1 l2 (km : K * map_t K) : add_names class_table class_name (l1 ++ l2) km = (let* km := add_names class_table class_name l1 km in add_names class_table class_name l2 km).
Proof. revert km. induction l1 as [|c l1 IH]; intros km; cbn [app add_names res_bind]; [done|]. destruct (entry_of c) as [t| |]; [|done..]. cbn [res_bind]. destruct (map_add _ _ _ _); [|done..]. apply IH. Qed.

(** The recursion ends, and enters the name of every class below [d] once. *)
Lemma register_all fuel : forall d l, lineage table object_t d l -> d <> object_t -> (size table < fuel + length l)%nat ->
  exists ds, NoDup ds /\ (forall t, t ∈ ds <-> descends d t) /\
    forall km : K * map_t K, register_device class_table class_name h n fuel d km = add_names class_table class_name (CList <$> ds) km.
Proof.
  induction fuel as [|fuel IH]; intros d l Hl Hd Hf; [pose proof (lineage_depth _ _ _ _ Hl); lia|]. cbn [register_device].
  destruct (lineage_head _ _ _ _ Hl) as [l' El]. destruct (Hkids d) as (ks & Hdl & Hlen & Hks); [apply (lineage_in_table _ _ _ _ _ Hl); rewrite El; by left|].
  rewrite (list_for_each_spec _ _ _ _ Hdl) by (rewrite length_fmap; lia). cbn [res_bind].
  assert (Hnd : NoDup ks) by (apply (NoDup_fmap_1 CList); exact (proj2 (proj1 (NoDup_cons _ _) (dlist_NoDup _ _ _ Hdl)))).
  assert (Hsub : forall todo, NoDup todo -> todo ⊆ ks -> exists ds, NoDup ds /\ (forall t, t ∈ ds <-> exists k, k ∈ todo /\ descends k t) /\
     forall km : K * map_t K, (fix each (child : list cloc) (km : K * map_t K) : res (K * map_t K) :=
       match child with [] => Ok km | c :: child => let* t := entry_of c in let* km := register_device class_table class_name h n fuel t km in each child km end) (CList <$> todo) km =
       add_names class_table class_name (CList <$> ds) km).
  { induction todo as [|k todo IHt]; intros Hn Hin; cbn [fmap list_fmap entry_of res_bind].
    - exists []. split_and!; [constructor| |done]. intros t. split; [by intros ?%elem_of_nil|]. by intros (? & ?%elem_of_nil & _).
    - assert (Hk : k ∈ ks) by (apply Hin; by left). apply Hks in Hk as (c & Ec & Ep). assert (Hko : k <> object_t) by (intros ->; apply Hd; by rewrite <- Ep, (Hroot c Ec)).
      apply NoDup_cons in Hn as [Hkt Hn]. destruct (IH k (k :: l)) as (d1 & N1 & Hd1 & E1); [econstructor; [done|done|by rewrite Ep]|done|cbn; lia|].
      destruct IHt as (d2 & N2 & Hd2 & E2); [done|intros x Hx; apply Hin; by right|]. exists (d1 ++ d2). split_and!.
      + apply NoDup_app. split_and!; [done| |done]. intros t Ht1%Hd1 Ht2%Hd2. destruct Ht1 as (_ & lt & Hlt & Hk1), Ht2 as (k' & Hk' & _ & lt' & Hlt' & Hk2). rewrite (lineage_det _ _ _ _ _ Hlt' Hlt) in Hk2.
        assert (Hks' : k' ∈ ks) by (apply Hin; by right). apply Hks in Hks' as (c' & Ec' & Ep'). by rewrite (one_branch t lt d k k' c c' Hd Hlt Hk1 Hk2 Ec Ec' Ep Ep') in Hkt.
      + intros t. rewrite elem_of_app, Hd1, Hd2. split; [intros [?|(x & Hx & ?)]; [exists k; split; [by left|done]|exists x; split; [by right|done]]|].
        intros (x & [-> |Hx]%elem_of_cons & ?); [by left|right; eauto].
      + intros km. rewrite fmap_app, add_names_app, E1. destruct (add_names class_table class_name (CList <$> d1) km) as [km1| |]; [|done..]. cbn [res_bind]. apply E2. }
  destruct (Hsub ks Hnd (reflexivity _)) as (d2 & N2 & Hd2 & E2). exists (ks ++ d2). split_and!.
  - apply NoDup_app. split_and!; [done| |done]. intros t Ht (k' & Hk' & Hne & lt & Hlt & Hk2)%Hd2. apply Hks in Ht as (c & Ec & Ep), Hk' as (c' & Ec' & Ep'). apply Hne.
    destruct (lineage_head _ _ _ _ Hlt) as [lt' Elt]. apply (one_branch t lt d t k' c c' Hd Hlt); [rewrite Elt; by left|done..].
  - intros t. rewrite elem_of_app, descends_child, Hd2 by done. split.
    + intros [Hk|(k & Hk & Ht)]; apply Hks in Hk as (c & Ec & Ep); eauto 6.
    + intros (k & c & Ec & Ep & Hor). assert (Hk : k ∈ ks) by (apply Hks; eauto). destruct Hor as [-> |?]; [by left|right; eauto].
  - intros km. rewrite fmap_app, add_names_app. destruct (add_names class_table class_name (CList <$> ks) km) as [km1| |]; [|done..]. cbn [res_bind]. apply E2.
Qed.

(** The names of the classes [ds] in a map of the addresses of their types. *)
Definition names_map (ds : list Z) (M : gmap (list Z) Z) : gmap (list Z) Z := foldl (fun M t => <[class_name t := type_slot class_table t]> M) M ds.

Context (big : Z) (Hnames : forall t t', is_Some (table !! t) -> is_Some (table !! t') -> class_name t = class_name t' -> t = t').
Context (Hstr : forall t, is_Some (table !! t) -> is_str (class_name t) /\ Z.of_nat (length (class_name t)) + 1 <= big).

Lemma add_names_ok ds : forall m own M k Hp j, (forall t, t ∈ ds -> is_Some (table !! t)) -> map_ok m own M -> kh_inv k Hp -> own ⊆ dom Hp ->
  enough big (4 * length ds + j) k -> 32 * (Z.of_nat (size M) + Z.of_nat (length ds)) + 128 <= big -> Z.of_nat (size M) + Z.of_nat (length ds) <= 2 ^ 26 ->
  exists k' m' own' Hp', add_names class_table class_name (CList <$> ds) (k, m) = Ok (k', m') /\ map_ok m' own' (names_map ds M) /\ kh_inv k' Hp' /\ own' ⊆ dom Hp' /\ enough big j k' /\
    forall p n, p ∉ own -> Hp !! p = Some n -> Hp' !! p = Some n /\ p ∉ own'.
Proof.
  induction ds as [|t ds IH]; intros m own M k Hp j Hin Hm Hi Hown Hen Hb HM; cbn [fmap list_fmap add_names entry_of res_bind length] in *.
  { exists k, m, own, Hp. by split_and!. }
  destruct (Hstr t) as [Hs Hl]; [apply Hin; by left|].
  destruct (map_add_ok big m own M k Hp (class_name t) (type_slot class_table t) (4 * length ds + j) Hm Hi Hown Hs) as (k1 & m1 & own1 & Hp1 & E1 & Hm1 & Hi1 & Hown1 & Hen1 & Hf1); [lia|by replace (4 * S (length ds) + j)%nat with (4 + (4 * length ds + j))%nat in Hen by lia|lia|done|].
  cbn [fst snd]. rewrite E1. cbn [res_bind]. assert (Hsz : (size (<[class_name t := type_slot class_table t]> M) <= S (size M))%nat) by (rewrite map_size_insert; destruct (M !! class_name t); cbn; lia).
  destruct (IH m1 own1 _ k1 Hp1 j (fun x Hx => Hin x (list_elem_of_further _ _ _ Hx)) Hm1 Hi1 Hown1 Hen1) as (k2 & m2 & own2 & Hp2 & E2 & Hm2 & Hi2 & Hown2 & Hen2 & Hf2); [lia|lia|].
  exists k2, m2, own2, Hp2. split_and!; [done|done|done|done|done|]. intros p x Hp0 Ex. destruct (Hf1 p x Hp0 Ex). by apply Hf2.
Qed.

Lemma names_map_lookup ds : forall M s, (forall t, t ∈ ds -> is_Some (table !! t)) ->
  (forall a, names_map ds M !! s = Some a -> M !! s = Some a \/ exists t, t ∈ ds /\ class_name t = s /\ a = type_slot class_table t) /\
  (forall t, t ∈ ds -> class_name t = s -> names_map ds M !! s = Some (type_slot class_table t)).
Proof.
  induction ds as [|d ds IH] using rev_ind; intros M s Hin; [split; [by left|by intros t ?%elem_of_nil]|]. unfold names_map. rewrite foldl_app. cbn [foldl]. fold (names_map ds M).
  destruct (IH M s) as [IH1 IH2]; [intros t Ht; apply Hin, elem_of_app; by left|]. assert (Hd : is_Some (table !! d)) by (apply Hin, elem_of_app; right; by left). split.
  - intros a Ea. apply lookup_insert_Some in Ea as [[<- <-]|[_ Ea]]; [right; exists d; split_and!; [apply elem_of_app; right; by left|done|done]|].
    destruct (IH1 a Ea) as [?|(t & Ht & ?)]; [by left|right]. exists t. split; [apply elem_of_app; by left|done].
  - intros t Ht Es. destruct (decide (class_name d = s)) as [Ed|Hne].
    + assert (t = d) as -> by (apply Hnames; [by apply Hin|done|congruence]). rewrite Ed. apply lookup_insert_eq.
    + rewrite lookup_insert_ne by done. apply elem_of_app in Ht as [Ht| ->%list_elem_of_singleton]; [by apply IH2|done].
Qed.
End register.

Lemma fill_table_size todo raw object_t : forall i t, fill_table i todo raw object_t = Ok t -> (size t <= length todo)%nat.
Proof.
  induction todo as [|[sz p] todo IH]; intros i t; cbn [fill_table length]; [intros [= <-]; by rewrite map_size_empty|].
  destruct (set_class_table_info _ _ _ _); [|done..]. cbn [res_bind]. destruct (fill_table (i + 1) todo raw object_t) as [t'| |] eqn:E; [|done..]. intros [= <-]. apply IH in E. rewrite map_size_insert. destruct (t' !! i); cbn; lia.
Qed.

Lemma table_size raw object_t table h : do_class_init raw object_t = Ok (table, h) -> (size table <= length raw)%nat.
Proof. unfold do_class_init. destruct (link_classes _ _ _); [|done..]. cbn [res_bind]. destruct (fill_table 0 raw raw object_t) as [t| |] eqn:E; [|done..]. intros [= <- <-]. by eapply fill_table_size. Qed.

(** ** The nodes of the tree *)

Definition name_of (v : xjil_value_t) : option (list Z) :=
  match member NAME (v_obj v) with Some e => if xjil_is_string e then Some (v_str e) else None | None => None end.

Lemma member_plain ms k e : Forall (fun m => plain m.2 = true) ms -> member k ms = Some e -> plain e = true.
Proof. induction ms as [|[k' v] ms IH]; intros HF; [done|]. apply Forall_cons in HF as [Hv HF]. cbn [member]. case_bool_decide; [by intros [= <-]|by apply IH]. Qed.

Lemma plain_string e : plain e = true -> xjil_is_string e = true -> nonzero (v_str e).
Proof.
  destruct e as [t ty n s a o]. unfold xjil_is_string. cbn [v_type v_str plain]. intros H E. apply Z.eqb_eq in E as ->. apply andb_true_iff in H as [_ H]. change (TYPE_STRING =? TYPE_NUMBER) with false in H. change (TYPE_STRING =? TYPE_STRING) with true in H.
  cbn [negb] in H. rewrite !andb_true_iff in H. destruct H as [[[_ H] _] _]. rewrite forallb_forall in H. apply Forall_forall. intros c Hc%list_elem_of_In%H. by apply negb_true_iff, Z.eqb_neq in Hc.
Qed.

Lemma plain_tag v t : plain v = true -> v_tag v = Some t -> nonzero t.
Proof. destruct v as [t' ty n s a o]. cbn [v_tag plain]. intros H ->. apply andb_true_iff in H as [H _]. by apply is_ident_nonzero. Qed.

Lemma read_name_ok tail v : plain v = true -> has (v_type v) TYPE_OBJECT = true -> xjil_read_string (0 :: tail) v NAME None = Ok (name_of v).
Proof.
  destruct v as [t ty n s a o]. cbn [v_type]. intros Hp Ho. destruct (plain_keys _ _ _ _ _ _ Hp Ho) as [Hk Hm]. unfold xjil_read_string, xjil_find_object_value, name_of. cbn [v_type v_obj]. rewrite c_assert_true by done. cbn [res_bind].
  rewrite find_member_ok by done. cbn [res_bind]. destruct (member NAME o) as [e|] eqn:E; [|done]. destruct (xjil_is_string e) eqn:Es; [|done]. pose proof (member_plain _ _ _ Hm E) as He.
  unfold xjil_get_string. unfold xjil_is_string in Es. rewrite Es. cbn [c_assert res_bind]. unfold c_string. rewrite cstring_app by (by apply plain_string). done.
Qed.

Section nodes.
Context {K X : Type} `{KernelHeap K} (table : gmap Z class_table_info) (object_t device_t class_table : Z) (class_name : Z -> list Z).
Context (constructor destructor : Z -> Z -> cstate K -> res (cstate K)).
Context (probe : Z -> Z -> xjil_value_t -> cstate K * X -> res (Z * (cstate K * X))) (tail : list Z) (big : Z) (c : nat).
Context (Htab : table_ok table object_t).

(** A constructor returns when [c] requests for memory are granted; it frees nothing and leaves the
    headers of objects alone. *)
Definition constructor_ok (hook : Z -> Z -> cstate K -> res (cstate K)) : Prop :=
  hook_ok (fun _ => True) hook /\ forall t o s j, enough big (c + j) (cheap s) -> exists s', hook t o s = Ok s' /\ enough big j (cheap s').

(** So does a probe, which succeeds. *)
Definition probe_ok : Prop :=
  forall t dev v cs x Hp j, kh_inv (cheap cs) Hp -> enough big (c + j) (cheap cs) ->
  exists cs' x' Hp', probe t dev v (cs, x) = Ok (0, (cs', x')) /\ respects (fun _ => True) cs Hp cs' Hp' /\ enough big j (cheap cs').

Lemma hook_ok_weaken (A A' : Z -> Prop) (hook : Z -> Z -> cstate K -> res (cstate K)) : (forall a, A a -> A' a) -> hook_ok A' hook -> hook_ok A hook.
Proof.
  intros HA Hk t o s Hp s' Hi E. destruct (Hk t o s Hp s' Hi E) as [Hp' [R1 R2 R3]]. exists Hp'. split; [done|eauto|].
  intros h x (a & n & Ha & ?) Ex. apply R3; [|done]. exists a, n. split; [by apply HA|done].
Qed.

Lemma class_ok_heap s Hp k Hp' objs : class_ok table object_t s Hp objs -> kh_inv k Hp' -> (forall a n, live_base table object_t objs a -> Hp !! a = Some n -> Hp' !! a = Some n) ->
  class_ok table object_t (mk_cstate k (heads s)) Hp' objs.
Proof.
  intros [H1 H2 H3] Hi Hk. split; [done| |done]. intros o t Eo. destruct (H2 o t Eo) as (l & n & Hat & En & Hn). exists l, n. split_and!; [done| |done]. apply Hk; [|done]. exists o, t, l. by destruct Hat.
Qed.

Lemma class_ok_respects s Hp s' Hp' objs : class_ok table object_t s Hp objs -> respects (fun _ => True) s Hp s' Hp' -> class_ok table object_t s' Hp' objs.
Proof.
  intros [H1 H2 H3] R. split; [apply R| |done]. intros o t Eo. destruct (H2 o t Eo) as (l & n & [Hl Hh] & En & Hn). exists l, n. split_and!; [split; [done|]|by eapply re_block|done].
  eapply headed_keep, Hh. intros a p x Hin Ex. eapply re_head; [exact R| |done]. destruct (parts_inside _ _ _ _ _ _ _ Htab Hl Hin) as (B1 & B2 & _). pose proof (part_size_nonneg table object_t a Htab).
  exists (base_of table o l), n. split_and!; [done|done|lia|]. unfold base_of in *. destruct (lineage_head _ _ _ _ Hl) as [lt ->]. cbn [hd] in *. lia.
Qed.

Lemma live_positive s Hp objs o t l a p : class_ok table object_t s Hp objs -> objs !! o = Some t -> lineage table object_t t l -> (a, p) ∈ parts table l o -> p <> 0.
Proof.
  intros Hc Eo Hl Hin. destruct (k_object _ _ _ _ _ Hc _ _ Eo) as (l0 & n & [Hl0 _] & En & _). rewrite (lineage_det _ _ _ _ _ Hl0 Hl) in En.
  destruct (parts_inside _ _ _ _ _ _ _ Htab Hl Hin) as (Hb & _ & _). destruct (kh_region _ _ _ _ (k_heap _ _ _ _ _ Hc) En) as (_ & Hp0 & _). unfold HEAD in *. lia.
Qed.

Lemma object_init_flow t l : lineage table object_t t l -> constructor_ok constructor -> forall fuel child obj s j, (length l <= fuel)%nat -> enough big (c * length l + j) (cheap s) ->
  exists s', object_init table object_t constructor fuel t child obj s = Ok s' /\ enough big j (cheap s').
Proof.
  intros Hl [_ Hctor]. induction Hl as [Ho|t i l Htn Ei Hl IH]; intros fuel child obj s j Hf Hen; (destruct fuel as [|fuel]; [cbn in Hf; lia|]); cbn [object_init].
  - rewrite Z.eqb_refl. eexists. split; [done|]. eapply enough_le; [|exact Hen]. lia.
  - rewrite (proj2 (Z.eqb_neq t object_t) Htn), Ei. cbn [deref res_bind]. rewrite (parent_obj_of table object_t t i l obj Hl Ei). cbn [res_bind length] in *.
    destruct (IH fuel t (obj - HEAD - part_size table (hd 0 l)) (set_info obj (t, child) s) (c + j)%nat) as (s1 & -> & Hen1); [lia|eapply enough_le; [|exact Hen]; lia|]. cbn [res_bind].
    by apply (Hctor t obj (overwrite obj (size_ i) s1) j).
Qed.

Lemma new_device s Hp objs t i l j : constructor_ok constructor -> class_ok table object_t s Hp objs -> table !! t = Some i -> lineage table object_t t l -> full_size i <= big ->
  enough big (1 + (c * length l + j)) (cheap s) ->
  exists s' o Hp', new_class_object table object_t constructor t s = Ok (s', o) /\ o <> 0 /\ objs !! o = None /\ Hp !! base_of table o l = None /\
    class_ok table object_t s' Hp' (<[o := t]> objs) /\ Hp ⊆ Hp' /\ enough big j (cheap s').
Proof.
  intros Hctor Hc Ei Hl Hsz Hen. destruct (lineage_type_size table object_t Htab _ _ _ Hl Ei) as (_ & _ & Hpos).
  assert (Hflow : exists s' o, new_class_object table object_t constructor t s = Ok (s', o) /\ enough big j (cheap s') /\ kh_calloc (cheap s) (full_size i) <> Ok (cheap s, 0)).
  { unfold new_class_object. rewrite Ei. cbn [deref res_bind]. destruct (lineage_type_size table object_t Htab _ _ _ Hl Ei) as (_ & Efull & _).
    destruct (enough_calloc big (c * length l + j) (cheap s) (full_size i) Hen) as (k & a & Ek & Ha & Hk); [unfold HEAD in *; lia|]. rewrite Ek. cbn [res_bind]. rewrite (proj2 (Z.eqb_neq a 0) Ha).
    destruct (object_init_flow t l Hl Hctor (depth table) t (a + full_size i - size_ i) (overwrite a (full_size i) (mk_cstate k (heads s))) j) as (s' & -> & Hen'); [pose proof (lineage_depth _ _ _ _ Hl); unfold depth; lia|exact Hk|].
    exists s'. eexists. split; [reflexivity|]. split; [done|]. congruence. }
  destruct Hflow as (s1 & o1 & E1 & Hen1 & Hno).
  destruct (new_object_ok table object_t constructor Htab (fun _ => True) s Hp objs t i l Hc (fun _ _ => I) (fun p _ => hook_ok_weaken _ _ _ (fun _ _ => I) (proj1 Hctor)) Ei Hl)
    as [[[E|E] _]|(s' & o & E & [(_ & _ & E0)|(Ho & Hn & Hb & Hp' & Hc' & Hsub)])]; [congruence|congruence|done|]. rewrite E1 in E. injection E as -> ->.
  exists s', o, Hp'. split_and!; [done|done|done|done|done| |done]. apply map_subseteq_spec. intros a n Ea. by apply Hsub.
Qed.

(** The objects and the map of the names, in one heap. *)
Record boot_ok (st : dstate K X) (Hp : gmap Z Z) (objs : gmap Z Z) (own : gset Z) (M : gmap (list Z) Z) : Prop := {
  bo_objects : class_ok table object_t (classes st) Hp objs;
  bo_map : map_ok (device_map st) own M;
  bo_own : own ⊆ dom Hp;
  bo_apart a : live_base table object_t objs a -> a ∉ own;
}.

(** The object [o] is the device of a node. *)
Definition found (objs : gmap Z Z) (M : gmap (list Z) Z) (v : xjil_value_t) (o : Z) : Prop :=
  exists t l dev, v_tag v = Some (class_name t) /\ objs !! o = Some t /\ lineage table object_t t l /\ (device_t, dev) ∈ parts table l o /\ dev <> 0 /\
    forall nm, name_of v = Some nm -> M !! nm = Some dev.

Context (map : map_t K) (Hct : 0 < class_table) (Hidx : forall t, is_Some (table !! t) -> 0 <= t).
Context (Hmap : forall t, descends table object_t device_t t -> map_search map (class_name t) = Ok (type_slot class_table t)).
Context (Hfull : forall t i, table !! t = Some i -> full_size i <= big).

(** A node of the tree is an object whose tag is the name of a class of devices; its name is a
    string that a block of memory can hold. *)
Definition is_device (v : xjil_value_t) : Prop :=
  has (v_type v) TYPE_OBJECT = true /\ (exists t, descends table object_t device_t t /\ v_tag v = Some (class_name t)) /\
  forall nm, name_of v = Some nm -> is_str nm /\ Z.of_nat (length nm) + 1 <= big.


Lemma type_slot_at t : type_at class_table (type_slot class_table t) = Ok t.
Proof. unfold type_at, type_slot. replace (class_table + 96 * t + 32 - class_table - 32) with (t * 96) by lia. rewrite Z.mod_mul, Z.div_mul by lia. done. Qed.

Lemma init_node_device v st tag t l i Hp objs own M j : constructor_ok constructor -> boot_ok st Hp objs own M -> plain v = true -> v_tag v = Some tag -> tag = class_name t -> descends table object_t device_t t ->
  table !! t = Some i -> lineage table object_t t l -> enough big (1 + (c * length l + j)) (cheap (classes st)) ->
  exists cs dev o Hp', new_class_object table object_t constructor t (classes st) = Ok (cs, o) /\ o <> 0 /\ class_cast table object_t device_t o cs = Ok dev /\ dev <> 0 /\ (device_t, dev) ∈ parts table l o /\
    objs !! o = None /\ boot_ok (mk_dstate cs (device_map st) (rest st)) Hp' (<[o := t]> objs) own M /\ Hp ⊆ Hp' /\ enough big j (cheap cs).
Proof.
  intros Hctor [B1 B2 B3 B4] Hpl Et -> Hd Ei Hl Hen. destruct (new_device (classes st) Hp objs t i l j Hctor B1 Ei Hl (Hfull t i Ei) Hen) as (cs & o & Hp' & Enew & Ho & Hfresh & Hb & Hc1 & Hsub & Hen1).
  destruct Hd as (_ & l0 & Hl0 & Hdev). rewrite (lineage_det _ _ _ _ _ Hl0 Hl) in Hdev. clear l0 Hl0.
  destruct (lineage_head _ _ _ _ Hl) as [l' El]. assert (Hself : (t, o) ∈ parts table l o) by (rewrite El; by left).
  destruct (k_object _ _ _ _ _ Hc1 o t (lookup_insert_eq _ _ _)) as (l0 & n & Hat & _). assert (l0 = l) as -> by (eapply lineage_det; [apply Hat|done]).
  pose proof (lineage_NoDup _ _ _ _ Hl) as Hnd. rewrite <- (parts_fst table l o) in Hnd, Hdev. apply list_elem_of_fmap in Hdev as ([d dev] & Ed & Hdin). cbn in Ed. subst d.
  exists cs, dev, o, Hp'. split_and!; [done|done| | |done|done| |done|done].
  - by rewrite (class_cast_parts table object_t cs device_t t l o t o Hat Hself Ho), (find_part_in _ _ _ Hnd Hdin).
  - by apply (live_positive _ _ _ _ _ _ _ _ Hc1 (lookup_insert_eq _ _ _) Hl Hdin).
  - split; [done|done|etrans; [exact B3|by apply subseteq_dom]|]. intros a (o' & t' & l1 & Eo & Hl1 & ->). destruct (decide (o' = o)) as [-> |Hne].
    + rewrite lookup_insert_eq in Eo. injection Eo as <-. rewrite (lineage_det _ _ _ _ _ Hl1 Hl). intros Hin%B3. by apply not_elem_of_dom in Hb.
    + rewrite lookup_insert_ne in Eo by done. apply B4. by exists o', t', l1.
Qed.

(** The requests for memory of a node. *)
Definition node_cost : nat := 1 + (c * size table + (c + 5)).

Lemma init_node_ok v st Hp objs own M j : constructor_ok constructor -> probe_ok -> boot_ok st Hp objs own M -> is_device v -> plain v = true ->
  (forall nm, name_of v = Some nm -> M !! nm = None) -> enough big (node_cost + j) (cheap (classes st)) -> 32 * Z.of_nat (size M) + 128 <= big -> Z.of_nat (size M) <= 2 ^ 26 ->
  exists st' Hp' objs' own' M' o, init_node table object_t device_t class_table constructor destructor probe (0 :: tail) map v st = Ok st' /\
    boot_ok st' Hp' objs' own' M' /\ objs ⊆ objs' /\ objs !! o = None /\ found objs' M' v o /\ M ⊆ M' /\ (forall nm, name_of v <> Some nm -> M' !! nm = M !! nm) /\
    (size M' <= S (size M))%nat /\ enough big j (cheap (classes st')).
Proof.
  intros Hctor Hprobe Hb (Hob & (t & Hd & Et) & Hname) Hpl Hfree Hen Hbig HM. pose proof Hd as (_ & l & Hl & _).
  destruct (descends_in_table _ _ _ _ Hd) as [i Ei]. assert (H0 : 0 <= t) by (apply Hidx; by rewrite Ei). pose proof (lineage_depth _ _ _ _ Hl) as Hdep.
  destruct (init_node_device v st _ t l i Hp objs own M (c + (5 + j)) Hctor Hb Hpl Et eq_refl Hd Ei Hl) as (cs & dev & o & Hp1 & Enew & Ho & Ecast & Hd0 & Hdin & Hfresh & Hb1 & _ & Hen1).
  { eapply enough_le; [|exact Hen]. unfold node_cost. pose proof (Nat.mul_le_mono_l _ _ c Hdep). lia. }
  unfold init_node, xjil_value_get_tag. rewrite Et. cbn [deref res_bind]. unfold c_string. rewrite cstring_app by (by apply (plain_tag v)). cbn [deref res_bind]. rewrite (Hmap t Hd). cbn [res_bind].
  rewrite (proj2 (Z.eqb_neq (type_slot class_table t) 0)) by (unfold type_slot; lia). rewrite type_slot_at. cbn [res_bind]. rewrite Enew. cbn [res_bind]. rewrite (proj2 (Z.eqb_neq o 0)) by done.
  rewrite Ecast. cbn [res_bind]. rewrite (proj2 (Z.eqb_neq dev 0)) by done. cbn [negb defined_if res_bind].
  destruct Hb1 as [C1 C2 C3 C4]. cbn [classes device_map] in C1, C2. destruct (Hprobe t dev v cs (rest st) Hp1 (5 + j)%nat (k_heap _ _ _ _ _ C1) Hen1) as (s2 & x2 & Hp2 & -> & R & Hen2). cbn [res_bind Z.eqb negb].
  rewrite read_name_ok by done. cbn [res_bind]. pose proof (class_ok_respects _ _ _ _ _ C1 R) as Hc2.
  assert (Hsub2 : Hp1 ⊆ Hp2) by (apply map_subseteq_spec; intros a n Ea; by eapply re_block).
  assert (Hfound : forall M', (forall nm, name_of v = Some nm -> M' !! nm = Some dev) -> found (<[o := t]> objs) M' v o) by (intros M' HM'; exists t, l, dev; split_and!; [done|apply lookup_insert_eq|done|done|done|done]).
  destruct (name_of v) as [nm|] eqn:En.
  - destruct (Hname nm eq_refl) as [Hstr Hlen]. unfold search_device. rewrite (map_search_ok _ own M nm C2 Hstr), (Hfree nm eq_refl). cbn [default negb Z.eqb res_bind].
    destruct (name_copy_ok big (cheap s2) Hp2 nm (4 + j) (k_heap _ _ _ _ _ Hc2) Hen2 Hstr Hlen) as (k3 & Hp3 & -> & Hi3 & Hsub3 & Hen3). cbn [res_bind].
    destruct (map_add_ok big (device_map st) own M k3 Hp3 nm dev j C2 Hi3) as (k4 & m4 & own4 & Hp4 & -> & Hm4 & Hi4 & Hown4 & Hen4 & Hf4); [etrans; [exact C3|apply subseteq_dom; by etrans]|done|done|done|done|done|]. cbn [res_bind].
    assert (Hkeep : forall a n, live_base table object_t (<[o := t]> objs) a -> Hp2 !! a = Some n -> Hp4 !! a = Some n /\ a ∉ own4) by (intros a n Ha Ea; apply Hf4; [by apply C4|by eapply lookup_weaken]).
    eexists _, Hp4, (<[o := t]> objs), own4, (<[nm := dev]> M), o. split; [reflexivity|]. cbn [classes device_map]. split_and!; [|by apply insert_subseteq|done| | | |rewrite map_size_insert; destruct (M !! nm); cbn; lia|done].
    + split; cbn [classes device_map]; [|done|done|].
      * eapply class_ok_heap; [exact Hc2|done|]. intros a n Ha Ea. by apply Hkeep.
      * intros a Ha. pose proof Ha as (o' & t' & l1 & Eo & Hl1 & ->). destruct (k_object _ _ _ _ _ Hc2 _ _ Eo) as (l2 & n & [Hl2 _] & En2 & _). rewrite (lineage_det _ _ _ _ _ Hl2 Hl1) in En2. by apply (Hkeep _ n).
    + apply Hfound. intros nm' [= <-]. apply lookup_insert_eq.
    + apply insert_subseteq. by apply Hfree.
    + intros nm' Hne. apply lookup_insert_ne. congruence.
  - eexists _, Hp2, (<[o := t]> objs), own, M, o. split; [reflexivity|]. cbn [classes device_map]. split_and!; [|by apply insert_subseteq|done|by apply Hfound|done|done|lia|eapply enough_le; [|exact Hen2]; lia].
    split; [done|done|etrans; [exact C3|by apply subseteq_dom]|done].
Qed.

Lemma found_grow objs objs' M M' v o : objs ⊆ objs' -> M ⊆ M' -> found objs M v o -> found objs' M' v o.
Proof. intros Ho Hm (t & l & dev & H1 & H3 & H4 & H5 & H6 & H7). exists t, l, dev. split_and!; [done|by eapply lookup_weaken|done|done|done|]. intros nm Hn. eapply lookup_weaken; [by apply H7|done]. Qed.

Lemma init_nodes_ok nodes : forall st Hp objs own M j, constructor_ok constructor -> probe_ok -> boot_ok st Hp objs own M -> Forall is_device nodes -> Forall (fun v => plain v = true) nodes ->
  NoDup (omap name_of nodes) -> (forall nm, nm ∈ omap name_of nodes -> M !! nm = None) -> enough big (node_cost * length nodes + j) (cheap (classes st)) ->
  32 * (Z.of_nat (size M) + Z.of_nat (length nodes)) + 128 <= big -> Z.of_nat (size M) + Z.of_nat (length nodes) <= 2 ^ 26 ->
  exists st' Hp' objs' own' M' os, init_nodes table object_t device_t class_table constructor destructor probe (0 :: tail) map nodes st = Ok st' /\
    boot_ok st' Hp' objs' own' M' /\ objs ⊆ objs' /\ NoDup os /\ (forall o, o ∈ os -> objs !! o = None) /\ Forall2 (found objs' M') nodes os /\
    M ⊆ M' /\ (forall nm, nm ∉ omap name_of nodes -> M' !! nm = M !! nm) /\ enough big j (cheap (classes st')).
Proof.
  induction nodes as [|v nodes IH]; intros st Hp objs own M j Hctor Hprobe Hb HF HP Hnd Hfree Hen Hbig HM; cbn [init_nodes].
  { exists st, Hp, objs, own, M, []. split_and!; try done; [constructor|by intros o ?%elem_of_nil|]. eapply enough_le; [|exact Hen]. lia. }
  apply Forall_cons in HF as [Hv HF], HP as [Hpv HP]. cbn [length] in Hen, Hbig, HM. assert (Hnames : omap name_of (v :: nodes) = (match name_of v with Some nm => [nm] | None => [] end) ++ omap name_of nodes) by (cbn; by destruct (name_of v)).
  rewrite Hnames in Hnd, Hfree |- *. apply NoDup_app in Hnd as (_ & Hdisj & Hnd).
  assert (Hin : forall nm, name_of v = Some nm -> nm ∈ (match name_of v with Some nm => [nm] | None => [] end)) by (intros nm ->; by left).
  assert (Hin' : forall nm, nm ∈ (match name_of v with Some nm => [nm] | None => [] end) -> name_of v = Some nm) by (intros nm; destruct (name_of v); [by intros ->%list_elem_of_singleton|by intros ?%elem_of_nil]).
  destruct (init_node_ok v st Hp objs own M (node_cost * length nodes + j) Hctor Hprobe Hb Hv Hpv) as (st1 & Hp1 & objs1 & own1 & M1 & o & E1 & Hb1 & Hs1 & Ho1 & Hf1 & Hd1 & Hk1 & Hz1 & Hen1);
    [intros nm Hn; apply Hfree, elem_of_app; left; by apply Hin|by replace (node_cost * S (length nodes) + j)%nat with (node_cost + (node_cost * length nodes + j))%nat in Hen by lia|lia|lia|].
  rewrite E1. cbn [res_bind].
  destruct (IH st1 Hp1 objs1 own1 M1 j Hctor Hprobe Hb1 HF HP Hnd) as (st2 & Hp2 & objs2 & own2 & M2 & os & -> & Hb2 & Hs2 & Hno & Hos & Hf2 & Hd2 & Hk2 & Hen2); [|done|lia|lia|].
  { intros nm Hn. rewrite Hk1; [apply Hfree, elem_of_app; by right|]. intros Hv'. by apply (Hdisj nm); [apply Hin|]. }
  exists st2, Hp2, objs2, own2, M2, (o :: os). split_and!; [done|done|by etrans| | | |by etrans| |done].
  - constructor; [|done]. intros Hoo. apply Hos in Hoo. destruct Hf1 as (t & _ & _ & _ & E & _). congruence.
  - intros o' Ho'. apply elem_of_cons in Ho' as [-> |Ho']; [done|]. apply Hos in Ho'. destruct (objs !! o') eqn:E; [|done]. eapply lookup_weaken in E; [|exact Hs1]. congruence.
  - constructor; [|done]. by apply (found_grow objs1 _ M1).
  - intros nm Hn. rewrite not_elem_of_app in Hn. destruct Hn as [Hn1 Hn2]. rewrite Hk2 by done. apply Hk1. intros E. by apply Hn1, Hin.
Qed.
End nodes.

(** ** The guarantees *)

(** The class table of a kernel with devices: [do_class_init] has made it, [object_t] is its root,
    [device_t] is below it and no two classes have the same name. *)
Record device_classes (raw : list raw_class) (object_t device_t : Z) (table : gmap Z class_table_info) (h : lheap cloc) (class_name : Z -> list Z) : Prop := {
  dc_init : do_class_init raw object_t = Ok (table, h);
  dc_parents : Forall (fun c : raw_class => 0 <= c.2 < Z.of_nat (length raw)) raw;
  dc_table : table_ok table object_t;
  dc_root c : table !! object_t = Some c -> parent_type c = object_t;
  dc_device : is_Some (table !! device_t);
  dc_below : device_t <> object_t;
  dc_names t t' : is_Some (table !! t) -> is_Some (table !! t') -> class_name t = class_name t' -> t = t';
  dc_strings t : is_Some (table !! t) -> is_str (class_name t);
}.

(** There is memory for the objects, the names and the two hash maps: so many requests, of at most
    [big] bytes each, will be granted. *)
Record boot_memory {K} `{KernelHeap K} (big : Z) (c : nat) (raw : list raw_class) (table : gmap Z class_table_info) (class_name : Z -> list Z) (nodes : nat) (k : K) : Prop := {
  bm_objects t i : table !! t = Some i -> full_size i <= big;
  bm_names t : is_Some (table !! t) -> Z.of_nat (length (class_name t)) + 1 <= big;
  bm_tables : 32 * (Z.of_nat (length raw) + Z.of_nat nodes) + 128 <= big;
  bm_few : Z.of_nat (length raw) + Z.of_nat nodes <= 2 ^ 26;
  bm_enough : enough big (4 + 4 * length raw + node_cost table c * nodes) k;
}.

Lemma plain_elements t ty n s a o v : plain (mk_value t ty n s a o) = true -> v ∈ a -> plain v = true.
Proof.
  intros H Hv. cbn [plain] in H. apply andb_true_iff in H as [_ H]. assert (Ha : nothing a = true -> False) by (destruct a; [by apply elem_of_nil in Hv|done]).
  destruct (ty =? TYPE_NUMBER); [rewrite !andb_true_iff in H; tauto|]. destruct (ty =? TYPE_STRING); [rewrite !andb_true_iff in H; tauto|]. destruct (ty =? TYPE_BOOL); [rewrite !andb_true_iff in H; tauto|].
  rewrite !andb_true_iff in H. destruct H as [_ H]. rewrite forallb_forall in H. by apply H, list_elem_of_In.
Qed.

(** The two maps are made and the classes are registered. *)
Lemma register_ok {K} `{KernelHeap K} raw object_t device_t class_table table h class_name big c nodes (cs : cstate K) Hp objs :
  device_classes raw object_t device_t table h class_name -> class_ok table object_t cs Hp objs -> boot_memory big c raw table class_name nodes (cheap cs) ->
  exists k1 m1 k2 m2 k3 map own own' M Hp', map_alloc (cheap cs) = Ok (k1, m1) /\ map_alloc k1 = Ok (k2, m2) /\
    register_device class_table class_name h (length raw) (S (length raw)) device_t (k2, m1) = Ok (k3, map) /\
    map_ok m2 own ∅ /\ own ⊆ dom Hp' /\ map_ok map own' M /\ (forall t, descends table object_t device_t t -> M !! class_name t = Some (type_slot class_table t)) /\
    kh_inv k3 Hp' /\ (forall p n, Hp !! p = Some n -> Hp' !! p = Some n /\ p ∉ own) /\ enough big (node_cost table c * nodes) k3.
Proof.
  intros [Hi Hpar Ht Hroot Hdev Hbelow Hnames Hstrs] [Hk _ _] [_ Hlen Htabs Hfew Hen].
  destruct (map_alloc_ok big (cheap cs) Hp (2 + (4 * length raw + node_cost table c * nodes)) Hk) as (k1 & m1 & own1 & Hp1 & E1 & Hm1 & Hk1 & Ho1 & Hen1 & Hf1); [eapply enough_le; [|exact Hen]; lia|lia|].
  destruct (map_alloc_ok big k1 Hp1 (4 * length raw + node_cost table c * nodes) Hk1) as (k2 & m2 & own2 & Hp2 & E2 & Hm2 & Hk2 & Ho2 & Hen2 & Hf2); [exact Hen1|lia|].
  destruct (t_lineage _ _ Ht device_t Hdev) as [l Hl]. pose proof (table_size _ _ _ _ Hi) as Hsz.
  destruct (register_all table object_t h (length raw) Ht (init_children_ok _ _ _ _ Hi Hpar) Hroot class_table class_name (S (length raw)) device_t l Hl Hbelow) as (ds & Hnd & Hds & Ereg); [destruct (lineage_head _ _ _ _ Hl) as [l' ->]; cbn; lia|].
  assert (Hin : forall t, t ∈ ds -> is_Some (table !! t)) by (intros t Hd%Hds; by eapply descends_in_table).
  assert (Hle : (length ds <= length raw)%nat).
  { etrans; [|exact Hsz]. rewrite <- (size_list_to_set (C := gset Z) ds) by done. rewrite <- size_dom. apply subseteq_size. intros t. rewrite elem_of_list_to_set, elem_of_dom. apply Hin. }
  assert (Hown1 : own1 ⊆ dom Hp2) by (intros p Hp'; apply Ho1, elem_of_dom in Hp' as [n En]; apply elem_of_dom; exists n; by apply Hf2).
  destruct (add_names_ok table class_table class_name big (fun t Ht' => conj (Hstrs t Ht') (Hlen t Ht')) ds m1 own1 ∅ k2 Hp2 (node_cost table c * nodes) Hin Hm1 Hk2 Hown1) as (k3 & map & own' & Hp3 & E3 & Hm3 & Hk3 & _ & Hen3 & Hf3).
  { eapply enough_le; [|exact Hen2]. lia. } { rewrite map_size_empty. lia. } { rewrite map_size_empty. lia. }
  exists k1, m1, k2, m2, k3, map, own2, own', (names_map class_table class_name ds ∅), Hp3. rewrite Ereg.
  assert (Hdis : forall p, p ∈ own1 -> p ∉ own2) by (intros p Hp'; apply Ho1, elem_of_dom in Hp' as [n En]; by eapply Hf2).
  split_and!; [done|done|exact E3|done| |done| |done| |done].
  - intros p Hp'. pose proof Hp' as Hp0. apply Ho2, elem_of_dom in Hp0 as [n En]. apply elem_of_dom. exists n. apply Hf3; [|done]. intros Hp1'. by apply (Hdis p).
  - intros t Hd%Hds. apply (names_map_lookup table class_table class_name Hnames ds ∅ (class_name t) Hin); done.
  - intros p n En. destruct (Hf1 p n En) as [En1 Hn1]. destruct (Hf2 p n En1) as [En2 Hn2]. destruct (Hf3 p n Hn1 En2) as [En3 _]. done.
Qed.

(** C37. Every node of the device tree becomes a device.  When the tree is read as an array of
    objects that are tagged with classes below [device_t] and have different names, constructors
    and probes succeed, free nothing and leave the headers of objects alone, the bytes behind the
    strings of the parser start with a NUL, and there is memory for the objects, the names and the
    two hash maps, [do_device_init] ends with one new live object per node, of the class of its tag
    and different from all others; [search_device] finds under the name of a node the [device_t]
    part of its object, and nothing under any other name. *)
Theorem devices_found {K X : Type} `{KernelHeap K} raw object_t device_t class_table table h class_name constructor destructor
    (probe : Z -> Z -> xjil_value_t -> cstate K * X -> res (Z * (cstate K * X))) tail mem dtree len tree cs x Hp objs big c :
  device_classes raw object_t device_t table h class_name -> 0 < class_table -> constructor_ok big c constructor -> probe_ok probe big c -> class_ok table object_t cs Hp objs ->
  read_tree mem dtree len = Ok (0, tree) -> plain tree = true -> v_type tree = TYPE_ARRAY ->
  Forall (is_device table object_t device_t class_name big) (v_arr tree) -> NoDup (omap name_of (v_arr tree)) ->
  boot_memory big c raw table class_name (length (v_arr tree)) (cheap cs) ->
  exists st Hp' objs' os,
    do_device_init table object_t device_t class_table constructor destructor probe (0 :: tail) mem class_name h (length raw) dtree len cs x = Ok st /\
    class_ok table object_t (classes st) Hp' objs' /\ objs ⊆ objs' /\ NoDup os /\ (forall o, o ∈ os -> objs !! o = None) /\
    Forall2 (fun v o => exists t l dev, v_tag v = Some (class_name t) /\ objs' !! o = Some t /\ lineage table object_t t l /\ (device_t, dev) ∈ parts table l o /\ dev <> 0 /\
      forall nm, name_of v = Some nm -> search_device nm st = Ok dev) (v_arr tree) os /\
    forall nm, is_str nm -> nm ∉ omap name_of (v_arr tree) -> search_device nm st = Ok 0.
Proof.
  intros Hdc Hct Hctor Hprobe Hc Hparse Hplain Hty Hnodes Hnd Hmem. unfold do_device_init.
  destruct (register_ok raw object_t device_t class_table table h class_name big c (length (v_arr tree)) cs Hp objs Hdc Hc Hmem) as (k1 & m1 & k2 & m2 & k3 & map & own & own' & M & Hp1 & -> & E2 & E3 & Hm2 & Hown & Hmap & HM & Hk3 & Hf & Hen).
  cbn [res_bind]. rewrite E2. cbn [res_bind]. rewrite E3. cbn [res_bind]. rewrite Hparse. cbn [res_bind]. unfold xjil_is_array. rewrite Hty. change (has TYPE_ARRAY TYPE_ARRAY) with true.
  pose proof Hdc as [Hi _ Ht _ _ _ _ Hstrs]. pose proof Hmem as [Hobj Hlen Htabs Hfew _].
  destruct (init_nodes_ok table object_t device_t class_table class_name constructor destructor probe tail big c Ht map Hct) with (nodes := v_arr tree) (st := mk_dstate (mk_cstate k3 (heads cs)) m2 x) (Hp := Hp1) (objs := objs) (own := own) (M := ∅ : gmap (list Z) Z) (j := 0%nat)
    as (st & Hp' & objs' & own2 & M' & os & E & [Hc' Hm' _ _] & Hsub & Hnodup & Hfresh & Hfound & _ & Hother & _).
  - intros t [i Ei]. apply (table_lookup _ _ _ _ Hi) in Ei as [Er _]. unfold raw_at in Er. by destruct (Z.leb_spec 0 t).
  - intros t Hd. rewrite (map_search_ok map own' M _ Hmap) by (by apply Hstrs; eapply descends_in_table). by rewrite (HM t Hd).
  - done.
  - done.
  - done.
  - split; cbn [classes device_map]; [|done|done|].
    + eapply class_ok_heap; [exact Hc|done|]. intros a n _ Ea. by apply Hf.
    + intros a (o & t & l & Eo & Hl & ->). destruct (k_object _ _ _ _ _ Hc _ _ Eo) as (l' & n & [Hl' _] & En & _). rewrite (lineage_det _ _ _ _ _ Hl' Hl) in En. by apply (Hf _ n).
  - done.
  - apply Forall_forall. intros v Hv. destruct tree as [t0 ty n s a o]. by eapply plain_elements.
  - done.
  - intros nm _. apply lookup_empty.
  - cbn [classes cheap]. by rewrite Nat.add_0_r.
  - rewrite map_size_empty. lia.
  - rewrite map_size_empty. lia.
  - exists st, Hp', objs', os. split_and!; [exact E|done|done|done|done| |].
    + apply Forall2_same_length_lookup. split; [by eapply Forall2_length|]. intros idx v o Ev Eo. destruct (Forall2_lookup_lr _ _ _ _ _ _ Hfound Ev Eo) as (t & l & dev & H1 & H2 & H3 & H4 & H5 & H6). exists t, l, dev. split_and!; [done..|].
      intros nm Hn. unfold search_device. rewrite (map_search_ok _ own2 M' nm Hm'), (H6 nm Hn); [done|]. eapply Forall_lookup_1 in Hnodes as (_ & _ & Hs); [|exact Ev]. by apply Hs.
    + intros nm Hs Hn. unfold search_device. rewrite (map_search_ok _ own2 M' nm Hm' Hs), (Hother nm Hn). by rewrite lookup_empty.
Qed.

(** ** The devices of the kernel *)

#[local] Existing Instance bump_heap.

(** [object_t], [device_t], the classes of drivers and the drivers, with their parents as
    class_impl names them; the sizes do not matter. *)
Definition driver_classes : list raw_class :=
  [(0, 0); (40, 0); (56, 1); (48, 1); (64, 1); (56, 1); (80, 1); (8, 2); (16, 3); (16, 4); (96, 5); (120, 6); (64, 1); (64, 1)].
Definition driver_names : list string_t := of_string <$>
  ["object_t"; "device_t"; "irqchip_t"; "clocksource_t"; "clockevent_t"; "block_t"; "framebuffer_t"; "plic_irqchip_t"; "clint_clocksource_t";
   "clint_clockevent_t"; "virtio_block_t"; "virtio_framebuffer_t"; "virtio_keyboard_t"; "virtio_mouse_t"]%string.
Definition driver_name (t : Z) : list Z := default [] (driver_names !! Z.to_nat t).

Definition driver_init : gmap Z class_table_info * lheap cloc := match do_class_init driver_classes 0 with Ok th => th | _ => (∅, mk_lheap ∅ ∅) end.

Lemma driver_init_ok : do_class_init driver_classes 0 = Ok (driver_init.1, driver_init.2).
Proof. vm_compute. reflexivity. Qed.

Lemma driver_classes_ok : device_classes driver_classes 0 1 driver_init.1 driver_init.2 driver_name.
Proof.
  assert (Hall : forall t, is_Some (driver_init.1 !! t) -> t ∈ seqZ 0 14).
  { intros t [c Ec]. apply (table_lookup _ _ _ _ driver_init_ok) in Ec as [Er _]. unfold raw_at in Er. destruct (Z.leb_spec 0 t); [|done]. apply lookup_lt_Some in Er. apply elem_of_seqZ. cbn in Er. lia. }
  split; [exact driver_init_ok| | | |by eexists|done| |].
  - repeat (constructor; [cbn; lia|]). constructor.
  - eapply init_table_ok; [exact driver_init_ok|repeat (constructor; [cbn; lia|]); constructor|].
    assert (Ha : map_Forall (fun _ c => full_size c < 2 ^ 31) driver_init.1) by (apply (bool_decide_unpack _); by vm_compute). intros j c Ec. by eapply Ha.
  - intros c Ec. vm_compute in Ec. by injection Ec as <-.
  - intros t t' Ht%Hall Ht'%Hall E. assert (Hn : NoDup (driver_name <$> seqZ 0 14)) by (apply (bool_decide_unpack _); by vm_compute).
    apply elem_of_seqZ in Ht, Ht'. assert (E1 : (driver_name <$> seqZ 0 14) !! Z.to_nat t = Some (driver_name t)) by (rewrite list_lookup_fmap, lookup_seqZ_lt by lia; cbn; do 2 f_equal; lia).
    assert (E2 : (driver_name <$> seqZ 0 14) !! Z.to_nat t' = Some (driver_name t)) by (rewrite list_lookup_fmap, lookup_seqZ_lt by lia; cbn; rewrite E; do 2 f_equal; lia).
    pose proof (NoDup_lookup _ _ _ _ Hn E1 E2). lia.
  - intros t Ht%Hall. assert (Hs : Forall (fun t => Forall (fun b => 0 < b < 256) (driver_name t) /\ Z.of_nat (length (driver_name t)) < 2 ^ 31 - 1) (seqZ 0 14)) by (apply (bool_decide_unpack _); by vm_compute). by apply (proj1 (Forall_forall _ _) Hs).
Qed.

(** The ancestors of a class, evaluated. *)
Fixpoint ancestors (fuel : nat) (table : gmap Z class_table_info) (object_t t : Z) : option (list Z) :=
  match fuel, table !! t with
  | S fuel, Some c => if t =? object_t then Some [t] else cons t <$> ancestors fuel table object_t (parent_type c)
  | _, _ => None
  end.

Lemma ancestors_ok fuel table object_t : forall t l, ancestors fuel table object_t t = Some l -> lineage table object_t t l.
Proof.
  induction fuel as [|fuel IH]; intros t l; cbn [ancestors]; [done|]. destruct (table !! t) as [c|] eqn:E; [|done]. destruct (Z.eqb_spec t object_t) as [-> |Hne].
  - intros [= <-]. constructor. by rewrite E.
  - destruct (ancestors fuel table object_t (parent_type c)) as [l'|] eqn:E'; [|done]. intros [= <-]. econstructor; [done|done|by apply IH].
Qed.

Lemma driver_descends t l : ancestors 20 driver_init.1 0 t = Some l -> bool_decide (t <> 1 /\ 1 ∈ l) = true -> descends driver_init.1 0 1 t.
Proof. intros E%ancestors_ok [Hne Hin]%bool_decide_eq_true. split; [done|]. by exists l. Qed.

(** A probe that makes a queue. *)
Definition queue_probe (_ dev : Z) (_ : xjil_value_t) (s : cstate Z * list Z) : res (Z * (cstate Z * list Z)) :=
  let* '(k, _) := kh_calloc (cheap s.1) 4096 in Ok (0, (mk_cstate k (heads s.1), s.2 ++ [dev])).

Definition booted : res (dstate Z (list Z)) :=
  do_device_init driver_init.1 0 1 2147483648 no_hook no_hook queue_probe [0] plenty driver_name driver_init.2 14 (text riscv64_virt []) 877 (mk_cstate 1 ∅) [].

Lemma bump_enough j : forall s, 0 < s -> s + 2 * Z.of_nat j <= 2 ^ 40 -> enough 4096 j s.
Proof.
  induction j as [|j IH]; intros s Hs Hj; [done|]. intros k1 n Hk Hn. assert (k1 = s) as -> by (induction Hk as [|? ? ? [p [= ->]] _ IHk]; [done|by apply IHk]).
  assert (Hd : 0 <= n / PAGE_SIZE <= 1) by (unfold PAGE_SIZE; split; [apply Z.div_pos; lia|apply Z.lt_succ_r, Z.div_lt_upper_bound; lia]).
  cbn [kh_malloc kh_calloc bump_heap]. unfold bump_page. rewrite (proj2 (Z.leb_le _ _)) by lia.
  split; eexists _, _; (split; [reflexivity|]); (split; [unfold PAGE_SIZE; lia|apply IH; lia]).
Qed.

Lemma queue_probe_ok : probe_ok queue_probe 4096 1.
Proof.
  intros t dev v cs x Hp j Hi Hen. unfold queue_probe. destruct (enough_calloc 4096 j (cheap cs) 4096 Hen ltac:(lia)) as (k & p & E & N & Hk). cbn [fst snd]. rewrite E. cbn [res_bind].
  destruct (kh_calloc_ok (cheap cs) Hp 4096 Hi ltac:(lia)) as (k1 & p1 & E1 & Hor). rewrite E in E1. injection E1 as <- <-. destruct Hor as [[? _]|(n & _ & Hn & Hi')]; [done|].
  eexists _, _, (<[p := n]> Hp). split; [reflexivity|]. split; [|done]. split; [done|intros a m _ Ea; rewrite lookup_insert_ne by congruence; done|done].
Qed.

Lemma no_hook_serves : constructor_ok 4096 1 no_hook.
Proof. split; [apply no_hook_ok|]. intros t o s j Hen. exists s. split; [done|]. eapply enough_le; [|exact Hen]. lia. Qed.

Lemma device_tree_names : NoDup (omap name_of (v_arr device_tree)).
Proof. apply (bool_decide_unpack _). by vm_compute. Qed.

Lemma device_tree_strings : Forall (fun nm => Forall (fun b => 0 < b < 256) nm /\ Z.of_nat (length nm) < 100) (omap name_of (v_arr device_tree)).
Proof. apply (bool_decide_unpack _). by vm_compute. Qed.

Lemma device_tree_nodes : Forall (is_device driver_init.1 0 1 driver_name 4096) (v_arr device_tree).
Proof.
  assert (Hd : Forall (fun v => has (v_type v) TYPE_OBJECT = true /\ exists t, descends driver_init.1 0 1 t /\ v_tag v = Some (driver_name t)) (v_arr device_tree)).
  { repeat (apply Forall_cons; split); [..|constructor]; (split; [reflexivity|]).
    - exists 8. split; [eapply driver_descends; vm_compute; reflexivity|reflexivity].
    - exists 9. split; [eapply driver_descends; vm_compute; reflexivity|reflexivity].
    - exists 7. split; [eapply driver_descends; vm_compute; reflexivity|reflexivity].
    - exists 10. split; [eapply driver_descends; vm_compute; reflexivity|reflexivity].
    - exists 11. split; [eapply driver_descends; vm_compute; reflexivity|reflexivity].
    - exists 12. split; [eapply driver_descends; vm_compute; reflexivity|reflexivity].
    - exists 13. split; [eapply driver_descends; vm_compute; reflexivity|reflexivity]. }
  apply Forall_forall. intros v Hv. eapply Forall_forall in Hd as [Ho Ht]; [|exact Hv]. split_and!; [done|done|]. intros nm Hn. pose proof device_tree_strings as Hs. eapply Forall_forall in Hs as [H1 H2]; [|apply list_elem_of_omap; by exists v]. split; [split; [done|lia]|lia].
Qed.

Lemma driver_memory : boot_memory 4096 1 driver_classes driver_init.1 driver_name 7 (1 : Z).
Proof.
  assert (Ha : map_Forall (fun t c => full_size c <= 4096 /\ Z.of_nat (length (driver_name t)) + 1 <= 4096) driver_init.1) by (apply (bool_decide_unpack _); by vm_compute).
  split; [intros t i Ei; by eapply Ha|intros t [i Ei]; by eapply Ha|cbn; lia|cbn; lia|]. apply bump_enough; [lia|]. vm_compute. discriminate.
Qed.

(** The device tree of the kernel is brought up. *)
Lemma devices_found_witness :
  exists st (os : list Z) dev, booted = Ok st /\ NoDup os /\ length os = 7%nat /\ dev <> 0 /\ search_device (of_string "virtio-block") st = Ok dev /\ search_device (of_string "virtio-net") st = Ok 0.
Proof.
  assert (Hc : class_ok driver_init.1 0 (mk_cstate 1 ∅ : cstate Z) ∅ ∅) by (split; done).
  assert (Hread : read_tree plenty (text riscv64_virt []) 877 = Ok (0, device_tree)) by (exact device_tree_parses).
  destruct (devices_found driver_classes 0 1 2147483648 driver_init.1 driver_init.2 driver_name no_hook no_hook queue_probe [] plenty (text riscv64_virt []) 877 device_tree (mk_cstate 1 ∅) [] ∅ ∅ 4096 1
    driver_classes_ok ltac:(lia) no_hook_serves queue_probe_ok Hc Hread device_tree_plain eq_refl device_tree_nodes device_tree_names driver_memory) as (st & Hp' & objs' & os & E & _ & _ & Hnd & _ & Hf & Ho).
  destruct (os !! 3%nat) as [o|] eqn:Eo; [|exfalso; apply Forall2_length in Hf; apply lookup_ge_None in Eo; cbn in Hf; lia].
  destruct (Forall2_lookup_lr _ _ _ 3%nat _ _ Hf eq_refl Eo) as (t & l & dev & _ & _ & _ & _ & Hdev & Hs).
  exists st, os, dev. split; [exact E|]. split; [exact Hnd|]. split; [apply Forall2_length in Hf; rewrite <- Hf; reflexivity|]. split; [exact Hdev|]. split; [apply Hs; vm_compute; reflexivity|].
  apply Ho; [split; [apply (bool_decide_unpack _); vm_compute; exact I|vm_compute; reflexivity]|apply (bool_decide_unpack _); vm_compute; exact I].
Defined.

(** ** What goes wrong *)

(** A tag that no class was registered for, and every tag when there was no memory for the map of the
    classes or for the entry of the class. *)
Lemma unknown_tag_panics {K X : Type} `{KernelHeap K} table object_t device_t class_table constructor destructor (probe : Z -> Z -> xjil_value_t -> cstate K * X -> res (Z * (cstate K * X))) tail (map : map_t K) v tag st :
  v_tag v = Some tag -> nonzero tag -> map = None \/ map_search map tag = Ok 0 -> init_node table object_t device_t class_table constructor destructor probe (0 :: tail) map v st = Panic.
Proof. intros Ht H0 Hm. unfold init_node, xjil_value_get_tag. rewrite Ht. cbn [deref res_bind]. unfold c_string. rewrite cstring_app by done. cbn [deref res_bind]. destruct Hm as [-> | ->]; done. Qed.

(** Without memory for the map of the names nothing is recorded, and nobody is told. *)
Lemma no_device_map {K X : Type} `{KernelHeap K} table object_t device_t class_table constructor destructor (probe : Z -> Z -> xjil_value_t -> cstate K * X -> res (Z * (cstate K * X))) tail (map : map_t K) v st st' nm :
  device_map st = None -> init_node table object_t device_t class_table constructor destructor probe (0 :: tail) map v st = Ok st' -> device_map st' = None /\ search_device nm st' = Ok 0.
Proof.
  intros Hn E. assert (Hd : device_map st' = None); [|split; [done|unfold search_device; by rewrite Hd]]. unfold init_node in E.
  destruct (xjil_value_get_tag _ v) as [tag| |]; [|done..]. cbn [res_bind] in E. destruct (map_search map tag) as [a| |]; [|done..]. cbn [res_bind] in E. destruct (a =? 0); [done|].
  destruct (type_at class_table a) as [t| |]; [|done..]. cbn [res_bind] in E. destruct (new_class_object _ _ _ _ _) as [[cs o]| |]; [|done..]. cbn [res_bind] in E. destruct (o =? 0); [done|].
  destruct (class_cast _ _ _ _ _) as [dev| |]; [|done..]. cbn [res_bind] in E. destruct (defined_if _); [|done..]. cbn [res_bind] in E. destruct (probe t dev v _) as [[ret [cs1 x]]| |]; [|done..]. cbn [res_bind] in E.
  destruct (if negb (ret =? 0) then _ else _) as [cs2| |]; [|done..]. cbn [res_bind] in E. destruct (xjil_read_string _ _ _ _) as [[name|]| |]; [| |done..]; cbn [res_bind] in E; [|by injection E as <-].
  unfold search_device in E. rewrite Hn in E. cbn [map_search res_bind Z.eqb negb] in E. destruct (name_copy _ name) as [[k3 copy]| |]; [|done..]. cbn [res_bind] in E. unfold map_add in E. cbn [res_bind] in E. by injection E as <-.
Qed.

(** The driver says no: its object is deleted, so that the live objects are those of before, and
    the address of its [device_t] part is recorded under its name all the same. *)
Lemma failed_probe_dangles {K X : Type} `{KernelHeap K} table object_t device_t class_table class_name constructor destructor (probe : Z -> Z -> xjil_value_t -> cstate K * X -> res (Z * (cstate K * X)))
    tail big c map v nm st Hp objs own M :
  table_ok table object_t -> 0 < class_table -> (forall t, is_Some (table !! t) -> 0 <= t) ->
  (forall t, descends table object_t device_t t -> map_search map (class_name t) = Ok (type_slot class_table t)) -> (forall t i, table !! t = Some i -> full_size i <= big) ->
  constructor_ok big c constructor -> (forall t o s, destructor t o s = Ok s) -> (forall t dev v s, probe t dev v s = Ok (-1, s)) ->
  boot_ok table object_t st Hp objs own M -> is_device table object_t device_t class_name big v -> plain v = true -> name_of v = Some nm -> M !! nm = None ->
  enough big (node_cost table c) (cheap (classes st)) -> 32 * Z.of_nat (size M) + 128 <= big -> Z.of_nat (size M) <= 2 ^ 26 ->
  exists st' Hp' own' dev, init_node table object_t device_t class_table constructor destructor probe (0 :: tail) map v st = Ok st' /\
    search_device nm st' = Ok dev /\ dev <> 0 /\ boot_ok table object_t st' Hp' objs own' (<[nm := dev]> M).
Proof.
  intros Htab Hct Hidx Hmap Hfull Hctor Hdtor Hprobe Hb (Hob & (t & Hd & Et) & Hname) Hpl En Hfree Hen Hbig HM. pose proof Hd as (_ & l & Hl & _).
  destruct (descends_in_table _ _ _ _ Hd) as [i Ei]. assert (H0 : 0 <= t) by (apply Hidx; by rewrite Ei). pose proof (lineage_depth _ _ _ _ Hl) as Hdep.
  destruct (init_node_device table object_t device_t class_name constructor big c Htab Hfull v st _ t l i Hp objs own M 5 Hctor Hb Hpl Et eq_refl Hd Ei Hl) as (cs & dev & o & Hp1 & Enew & Ho & Ecast & Hd0 & Hdin & Hfresh & Hb1 & _ & Hen1).
  { eapply enough_le; [|exact Hen]. unfold node_cost. pose proof (Nat.mul_le_mono_l _ _ c Hdep). lia. }
  unfold init_node, xjil_value_get_tag. rewrite Et. cbn [deref res_bind]. unfold c_string. rewrite cstring_app by (by apply (plain_tag v)). cbn [deref res_bind]. rewrite (Hmap t Hd). cbn [res_bind].
  rewrite (proj2 (Z.eqb_neq (type_slot class_table t) 0)) by (unfold type_slot; lia). rewrite type_slot_at. cbn [res_bind]. rewrite Enew. cbn [res_bind]. rewrite (proj2 (Z.eqb_neq o 0)) by done.
  rewrite Ecast. cbn [res_bind]. rewrite (proj2 (Z.eqb_neq dev 0)) by done. cbn [negb defined_if res_bind]. rewrite Hprobe. cbn [res_bind]. change (negb (-1 =? 0)) with true. cbn match.
  destruct Hb1 as [C1 C2 C3 C4]. cbn [classes device_map] in C1, C2. assert (Hdk : hook_ok (fun _ => True) destructor) by (intros x y s Hp' s' Hi E; rewrite Hdtor in E; injection E as <-; by exists Hp').
  destruct (delete_object_ok table object_t destructor Htab _ cs Hp1 _ o t l device_t dev C1 (fun _ _ => I) Hdk (lookup_insert_eq _ _ _) Hl Hdin) as [[_ (? & ? & ? & _ & [E|E])]|(s2 & Hp2 & Edel & Hc2 & _ & Hkeep2)]; [by rewrite Hdtor in E..|].
  assert (Hen2 : enough big 5 (cheap s2)).
  { clear - Edel Hen1 Hdtor. assert (Hex : forall fuel o s s', object_exit table object_t destructor fuel o s = Ok s' -> s' = s).
    { induction fuel as [|fuel IH]; intros o s s'; cbn [object_exit]; [done|]. destruct (info_of o s) as [[ty ch]| |]; [|done..]. cbn [res_bind]. rewrite Hdtor. cbn [res_bind]. destruct (ty =? object_t); [by intros [= <-]|].
      destruct (get_parent_obj table ty o); [|done..]. apply IH. }
    unfold delete_class_object in Edel. destruct (c_assert _); [|done..]. cbn [res_bind] in Edel. destruct (object_exit _ _ _ _ dev cs) as [s1| |] eqn:Eex; [|done..]. apply Hex in Eex as ->. cbn [res_bind] in Edel.
    destruct (get_class_type _ dev cs) as [ty| |]; [|done..]. cbn [res_bind] in Edel. destruct (deref (table !! ty)) as [ci| |]; [|done..]. cbn [res_bind] in Edel.
    destruct (kh_free _ _) as [k| |] eqn:Ef; [|done..]. injection Edel as <-. cbn [cheap]. by eapply enough_free. }
  rewrite Edel. cbn [res_bind]. rewrite read_name_ok by done. cbn [res_bind]. rewrite En. rewrite delete_insert_id in Hc2 by done.
  destruct (Hname nm En) as [Hstr Hlen]. unfold search_device at 1. rewrite (map_search_ok _ own M nm C2 Hstr), Hfree. cbn [default negb Z.eqb res_bind].
  assert (Hbase : forall p n, p ∈ own -> Hp1 !! p = Some n -> Hp2 !! p = Some n) by (intros p n Hp' Ep; apply Hkeep2; [done| |done]; intros ->; apply (C4 (base_of table o l)); [exists o, t, l; split_and!; [apply lookup_insert_eq|done|done]|done]).
  destruct (name_copy_ok big (cheap s2) Hp2 nm 4 (k_heap _ _ _ _ _ Hc2) Hen2 Hstr Hlen) as (k3 & Hp3 & -> & Hi3 & Hsub3 & Hen3). cbn [res_bind].
  destruct (map_add_ok big (device_map st) own M k3 Hp3 nm dev 0 C2 Hi3) as (k4 & m4 & own4 & Hp4 & -> & Hm4 & Hi4 & Hown4 & _ & Hf4); [|done|done|done|done|done|].
  { intros p Hp'. pose proof Hp' as Hpd. apply C3, elem_of_dom in Hpd as [n Epn]. apply elem_of_dom. exists n. eapply lookup_weaken; [by apply Hbase|done]. }
  cbn [res_bind]. eexists _, Hp4, own4, dev. split; [reflexivity|]. unfold search_device. cbn [device_map]. rewrite (map_search_ok _ own4 _ nm Hm4 Hstr), lookup_insert_eq. split_and!; [done|done|].
  assert (Hlive : forall a, live_base table object_t objs a -> a ∉ own) by (intros a Ha; by apply (bo_apart _ _ _ _ _ _ _ Hb)).
  split; cbn [classes device_map]; [|done|done|].
  - eapply class_ok_heap; [exact Hc2|done|]. intros a n Ha Ea. apply Hf4; [by apply Hlive|by eapply lookup_weaken].
  - intros a Ha. pose proof Ha as (o' & t' & l1 & Eo & Hl1 & ->). destruct (k_object _ _ _ _ _ Hc2 _ _ Eo) as (l2 & n & [Hl2 _] & En2 & _). rewrite (lineage_det _ _ _ _ _ Hl2 Hl1) in En2. apply (Hf4 _ n); [by apply Hlive|by eapply lookup_weaken].
Qed.
