(* ===== verification/Input.v ===== *)
(** * Input: the keyboard and the mouse (driver/virtio/keyboard.c, driver/virtio/mouse.c)

    Both drivers keep the event queue of their device filled with empty events.  The device writes
    an event and returns it; the interrupt handler reports it, frees it and fills the queue up
    again.  The two differ in what they report.

    [calloc] is a function of the events in memory, which gives a new address.  What the drivers
    print is a list of reports.  The probe functions are in VirtioMmio; the writes
    to registers ([virtio_mmio_notify], [virtio_mmio_interrupt_ack]) are left out. *)

From S2P Require Import Prelude Bits Vfs Virtio VirtioProof VirtioTheorems.

Record virtio_input_event := mk_event { type : Z; code : Z; value : Z }.
Definition no_event : virtio_input_event := mk_event 0 0 0.

(** [sizeof(struct virtio_input_event)] *)
Definition sizeof_event : Z := 8.

Definition EV_SYN : Z := 0.
Definition EV_KEY : Z := 1.
Definition EV_REL : Z := 2.
Definition SYN_REPORT : Z := 0.
Definition SYN_CONFIG : Z := 1.
Definition SYN_MT_REPORT : Z := 2.
Definition SYN_DROPPED : Z := 3.
Definition BTN_LEFT : Z := 272.
Definition BTN_RIGHT : Z := 273.
Definition BTN_MIDDLE : Z := 274.
Definition BTN_GEAR_DOWN : Z := 336.
Definition BTN_GEAR_UP : Z := 337.
Definition REL_X : Z := 0.
Definition REL_Y : Z := 1.
Definition REL_WHEEL : Z := 8.

(** ** What is reported *)

Inductive report :=
| Report | Config | MtReport | Dropped | Code (code : Z) | Key (code value : Z) | LeftClick | RightClick | Pressed | Released | BadValue
| MiddleClick | GearDown (value : Z) | GearUp (value : Z) | RelX (value : Z) | RelY (value : Z) | Wheel (value : Z) | EvType (type : Z).

Definition virtio_keyboard_handle_syn_event (code value : Z) : list report :=
  if code =? SYN_REPORT then [Report]
  else if code =? SYN_CONFIG then [Config]
  else if code =? SYN_MT_REPORT then [MtReport]
  else if code =? SYN_DROPPED then [Dropped]
  else [Code code].

Definition virtio_keyboard_handle_key_event (code value : Z) : list report := [Key code value].

Definition virtio_keyboard_handle_event (b : virtio_input_event) : list report :=
  if type b =? EV_SYN then virtio_keyboard_handle_syn_event (code b) (value b)
  else if type b =? EV_KEY then virtio_keyboard_handle_key_event (code b) (value b)
  else [EvType (type b)].

Definition virtio_mouse_handle_syn_event (code value : Z) : list report :=
  if code =? SYN_REPORT then [Report]
  else if code =? SYN_CONFIG then [Config]
  else if code =? SYN_MT_REPORT then [MtReport]
  else if code =? SYN_DROPPED then [Dropped]
  else [Code code].

(** A button is pressed or released. *)
Definition click (value : Z) : report := if value =? 1 then Pressed else if value =? 0 then Released else BadValue.

Definition virtio_mouse_handle_key_event (code value : Z) : list report :=
  if code =? BTN_LEFT then [LeftClick; click value]
  else if code =? BTN_RIGHT then [RightClick; click value]
  else if code =? BTN_MIDDLE then [MiddleClick]
  else if code =? BTN_GEAR_DOWN then [GearDown value]
  else if code =? BTN_GEAR_UP then [GearUp value]
  else [Code code].

Definition virtio_mouse_handle_rel_event (code value : Z) : list report :=
  if code =? REL_X then [RelX value] else if code =? REL_Y then [RelY value] else if code =? REL_WHEEL then [Wheel value] else [Code code].

Definition virtio_mouse_handle_event (b : virtio_input_event) : list report :=
  if type b =? EV_SYN then virtio_mouse_handle_syn_event (code b) (value b)
  else if type b =? EV_KEY then virtio_mouse_handle_key_event (code b) (value b)
  else if type b =? EV_REL then virtio_mouse_handle_rel_event (code b) (value b)
  else [EvType (type b)].

(** ** The event queue *)

(** The queue, the events in memory and what was reported. *)
Record input := mk_input { eventq : virtio_queue_t; events : gmap Z virtio_input_event; reports : list report }.

Section driver.
Context (calloc : gmap Z virtio_input_event -> Z) (handle_event : virtio_input_event -> list report).

(** The loop of [virtio_keyboard_request_event] and [virtio_mouse_request_event].  There are no
    more events in the queue than it has descriptors. *)
Fixpoint request_event (fuel : nat) (q : virtio_queue_t) (mem : gmap Z virtio_input_event) : res (virtio_queue_t * gmap Z virtio_input_event) :=
  match fuel with
  | O => Undef
  | S fuel =>
      let event := calloc mem in
      let mem := <[event := no_event]> mem in
      let* '(ok, q) := virtio_send_command_1 q (VRING_DESC event sizeof_event) in
      if negb ok then Ok (q, mem) else request_event fuel q mem
  end.

Definition input_free_desc (d : vring_desc) (w : gmap Z virtio_input_event * list report) : res (gmap Z virtio_input_event * list report) :=
  let '(mem, out) := w in
  if flags d =? VRING_DESC_F_WRITE then
    let* event := deref (mem !! addr d) in
    Ok (delete (addr d) mem, out ++ handle_event event)
  else Panic.

Definition request_fuel : nat := S (Z.to_nat VIRTIO_RING_SIZE).

Definition input_irq_handler (s : input) : res input :=
  let* '(q, (mem, out)) := virtio_device_irq_handler input_free_desc (eventq s) (events s, reports s) in
  let* '(q, mem) := request_event request_fuel q mem in
  Ok (mk_input q mem out).
End driver.

(** ** Filling the queue *)

(** An event buffer in the queue. *)
Definition buffer (head a : Z) : command := mk_command head [VRING_DESC a sizeof_event].

Definition buffers (start : Z) (l : list Z) : list command := zip_with buffer (slots start (length l)) l.

Lemma slots_app i n m : is_slot i -> slots i (n + m) = slots i n ++ slots ((i + Z.of_nat n) mod N) m.
Proof.
  revert i. induction n as [|n IH]; intros i Hi; cbn [Nat.add slots app].
  - f_equal. unfold is_slot, N in *. rewrite Z.add_0_r, Z.mod_small; lia.
  - f_equal. rewrite IH by apply succ_slot. do 2 f_equal. unfold succ, N. rewrite Zplus_mod_idemp_l. f_equal. lia.
Qed.

Lemma buffers_app start l1 l2 : is_slot start -> buffers start (l1 ++ l2) = buffers start l1 ++ buffers ((start + Z.of_nat (length l1)) mod N) l2.
Proof. intros Hs. unfold buffers. rewrite length_app, slots_app, zip_with_app by (done || by rewrite length_slots). done. Qed.

Lemma buffers_length start l : length (buffers start l) = length l.
Proof. unfold buffers. rewrite length_zip_with, length_slots. lia. Qed.

Lemma zip_slots s l : mjoin (c_slots <$> zip_with buffer s l) = zip_with (fun x _ => x) s l.
Proof. revert l. induction s as [|x s IH]; intros [|a l]; [done|done|done|]. cbn [zip_with fmap list_fmap]. change (mjoin (?a :: ?l)) with (a ++ mjoin l). change (list_fmap _ _ c_slots (zip_with buffer s l)) with (c_slots <$> zip_with buffer s l). by rewrite IH. Qed.

Lemma buffers_slots start l : mjoin (c_slots <$> buffers start l) = slots start (length l).
Proof. unfold buffers. rewrite zip_slots. generalize (length_slots start (length l)). generalize (slots start (length l)). induction l as [|a l IH]; intros [|x s]; cbn; intros E; try done. f_equal. apply IH. lia. Qed.

Lemma send_1_idx q r q' : virtio_send_command_1 q r = Ok (true, q') -> idx q' = succ (idx q).
Proof.
  unfold virtio_send_command_1, virtio_desc_new. destruct (desc q !! Z.to_nat (idx q)) as [old|]; [|done]. cbn [deref res_bind]. destruct (negb (flags old =? 0)); cbn [res_bind negb]; [done|]. intros [= <-]. done.
Qed.

Lemma event_ok a : bufs_ok [VRING_DESC a sizeof_event].
Proof. split; [done|]. constructor; [by left|constructor]. Qed.

Lemma buffers_descs start l : mjoin (c_descs <$> buffers start l) = (fun a => mk_desc a sizeof_event VRING_DESC_F_WRITE 0) <$> l.
Proof.
  unfold buffers. generalize (length_slots start (length l)). generalize (slots start (length l)). induction l as [|a l IH]; intros [|x s] E; try done. cbn [zip_with fmap list_fmap]. change (mjoin (?a :: ?l)) with (a ++ mjoin l).
  change (list_fmap _ _ c_descs (zip_with buffer s l)) with (c_descs <$> zip_with buffer s l). rewrite IH by (cbn in E; lia). done.
Qed.

Section proof.
Context (calloc : gmap Z virtio_input_event -> Z) (handle_event : virtio_input_event -> list report) (Hcalloc : forall mem, mem !! calloc mem = None).

Lemma slot_free start n : is_slot start -> Z.of_nat n < N -> (start + Z.of_nat n) mod N ∉ slots start n.
Proof.
  intros Hs Hn Hin. apply list_elem_of_lookup_1 in Hin as [k Hk]. pose proof (lookup_lt_Some _ _ _ Hk) as Hlt. rewrite length_slots in Hlt. rewrite slots_lookup in Hk by done. injection Hk as E. unfold is_slot, N in *.
  pose proof (Z.div_mod (start + Z.of_nat n) 128). pose proof (Z.div_mod (start + Z.of_nat k) 128). pose proof (Z.mod_pos_bound (start + Z.of_nat n) 128). lia.
Qed.

Lemma slot_busy start : is_slot start -> start ∈ slots start (Z.to_nat N).
Proof. intros _. change (Z.to_nat N) with (S 127). by left. Qed.

(** The loop fills the queue and keeps one event more. *)
Lemma request_ok start seen : is_slot start -> forall k q l mem fuel,
  queue_ok q seen (buffers start l) [] [] [] -> (length l + k = 128)%nat -> idx q = (start + Z.of_nat (length l)) mod N -> (k < fuel)%nat -> NoDup l -> (forall a, a ∈ l -> is_Some (mem !! a)) ->
  exists q' l' mem', request_event calloc fuel q mem = Ok (q', mem') /\ queue_ok q' seen (buffers start (l ++ l')) [] [] [] /\ length l' = k /\ idx q' = start /\
    NoDup (l ++ l') /\ (forall a, a ∈ l' -> is_Some (mem' !! a)) /\ mem ⊆ mem' /\ size mem' = (size mem + k + 1)%nat.
Proof.
  intros Hs. induction k as [|k IH]; intros q l mem fuel Hq Hlen Hidx Hf Hnd Hmem; (destruct fuel as [|fuel]; [lia|]); cbn [request_event]; pose proof (Hcalloc mem) as Hnew; set (a := calloc mem) in *.
  - assert (Hbusy : idx q ∈ busy (buffers start l ++ [] ++ []) []).
    { unfold busy. rewrite !app_nil_r, buffers_slots, Hidx. replace (length l) with 128%nat by lia. replace ((start + Z.of_nat 128) mod N) with start by (unfold is_slot, N in *; change (Z.of_nat 128) with 128; rewrite <- (Z.mul_1_l 128) at 1; rewrite Z.mod_add, Z.mod_small; lia). by apply slot_busy. }
    destruct (desc_new_ok q (buffers start l ++ [] ++ []) [] (VRING_DESC a sizeof_event) VRING_DESC_F_WRITE (qk_table _ _ _ _ _ _ Hq) (qk_idx _ _ _ _ _ _ Hq)) as [[_ E]|[Hn _]]; [done|by right| |done].
    unfold virtio_send_command_1. rewrite E. cbn [res_bind negb]. exists q, [], (<[a := no_event]> mem). rewrite app_nil_r. split_and!; try done; [|by intros x ?%elem_of_nil|by apply insert_subseteq|rewrite map_size_insert_None by done; lia].
    rewrite Hidx. replace (length l) with 128%nat by lia. unfold is_slot, N in *. change (Z.of_nat 128) with 128. rewrite <- (Z.mul_1_l 128) at 1. rewrite Z.mod_add, Z.mod_small; lia.
  - destruct (send_ok q seen (buffers start l) [] [] [] [VRING_DESC a sizeof_event] Hq (event_ok a)) as (ok & q1 & E & Hok); [cbn; unfold N; lia|].
    assert (ok = true) as ->.
    { destruct ok; [done|]. destruct Hok as [_ (s & Hs1 & Hs2)]. exfalso. cbn in Hs1. apply list_elem_of_singleton in Hs1 as ->. unfold busy in Hs2. rewrite !app_nil_r, buffers_slots, Hidx in Hs2. eapply slot_free; [exact Hs| |exact Hs2]. unfold N. lia. }
    destruct Hok as [Hq1 _]. rewrite <- send_1 in E. rewrite E. cbn [res_bind negb]. apply send_1_idx in E.
    assert (Hq1' : queue_ok q1 seen (buffers start (l ++ [a])) [] [] []) by (rewrite buffers_app by done; unfold buffers at 2; cbn [length slots zip_with]; by rewrite <- Hidx).
    destruct (IH q1 (l ++ [a]) (<[a := no_event]> mem) fuel Hq1') as (q' & l' & mem' & -> & Hq' & Hl' & Hi' & Hnd' & Hin & Hsub & Hsize).
    + rewrite length_app. cbn. lia.
    + rewrite E, Hidx, length_app. unfold succ, N. rewrite Zplus_mod_idemp_l. f_equal. cbn. lia.
    + lia.
    + apply NoDup_app. split; [done|]. split; [|apply NoDup_singleton]. intros x Hx ->%list_elem_of_singleton. apply Hmem in Hx as [? Hx]. congruence.
    + intros x Hx. apply elem_of_app in Hx as [Hx| ->%list_elem_of_singleton]; [|by rewrite lookup_insert_eq]. destruct (Hmem x Hx) as [y Hy]. exists y. rewrite lookup_insert_ne; [done|]. intros <-. congruence.
    + exists q', (a :: l'), mem'. rewrite <- app_assoc in Hq', Hnd'. cbn [app] in *. assert (Hsub' : mem ⊆ mem') by (etrans; [by apply insert_subseteq|exact Hsub]). split_and!; try done.
      * cbn. lia.
      * intros x Hx. apply elem_of_cons in Hx as [-> |Hx]; [|by apply Hin]. eexists. eapply lookup_weaken; [apply lookup_insert_eq|exact Hsub].
      * rewrite Hsize, map_size_insert_None by done. lia.
Qed.

(** Events that come back are reported in their order and freed. *)
Lemma run_free l : forall mem out evs, NoDup l -> Forall2 (fun a e => mem !! a = Some e) l evs ->
  exists mem', run_all (input_free_desc handle_event) ((fun a => mk_desc a sizeof_event VRING_DESC_F_WRITE 0) <$> l) (mem, out) = Ok (mem', out ++ mjoin (handle_event <$> evs)) /\
    (size mem' + length l = size mem)%nat /\ (forall a, a ∉ l -> mem' !! a = mem !! a).
Proof.
  induction l as [|a l IH]; intros mem out evs Hnd HF; inversion HF as [|? e ? evs' He HF']; subst.
  - exists mem. cbn. rewrite app_nil_r. split_and!; [done|lia|done].
  - apply NoDup_cons in Hnd as [Ha Hnd]. cbn [fmap list_fmap run_all]. unfold input_free_desc at 1. cbn [flags addr]. change (VRING_DESC_F_WRITE =? VRING_DESC_F_WRITE) with true. rewrite He. cbn [deref res_bind].
    destruct (IH (delete a mem) (out ++ handle_event e) evs' Hnd) as (mem' & E & Hsize & Hkeep).
    { apply Forall2_same_length_lookup_2; [by eapply Forall2_length|]. intros k x y Hx Hy. rewrite lookup_delete_ne; [eapply Forall2_lookup_lr in HF'; [exact HF'|exact Hx|exact Hy]|]. intros <-. by apply Ha, (list_elem_of_lookup_2 _ k). }
    exists mem'. change (list_fmap _ _ (fun a => mk_desc a sizeof_event VRING_DESC_F_WRITE 0) l) with ((fun a => mk_desc a sizeof_event VRING_DESC_F_WRITE 0) <$> l). rewrite E. change (mjoin (?a :: ?l)) with (a ++ mjoin l). rewrite <- app_assoc. split_and!; [done| |].
    + cbn [length]. rewrite map_size_delete, He in Hsize. assert (size mem <> 0)%nat by (intros Hz%map_size_empty_inv; by rewrite Hz, lookup_empty in He). cbn in Hsize. lia.
    + intros x Hx. apply not_elem_of_cons in Hx as [Hne Hx]. rewrite Hkeep by done. by apply lookup_delete_ne.
Qed.

(** ** A device that delivers events *)

(** The driver, the index up to which the device has taken buffers, the events that it has
    delivered, and how often the queue was filled. *)
Record isys := mk_isys { i_in : input; i_seen : Z; i_given : list virtio_input_event; i_runs : nat }.

(** The device takes the next buffer, writes an event and returns it; or the interrupt handler
    runs. *)
Inductive istep : isys -> isys -> Prop :=
| istep_deliver e head d old q mem out seen given runs :
    seen <> avail_idx q -> avail_ring q !! Z.to_nat (seen mod N) = Some head -> read_chain chain_fuel head (desc q) = Some [d] -> mem !! addr d = Some old ->
    istep (mk_isys (mk_input q mem out) seen given runs)
          (mk_isys (mk_input (device_returns q head sizeof_event) (<[addr d := e]> mem) out) (wrap 16 (seen + 1)) (given ++ [e]) runs)
| istep_irq s s' seen given runs : input_irq_handler calloc handle_event s = Ok s' -> istep (mk_isys s seen given runs) (mk_isys s' seen given (S runs)).

(** The probe has filled the queue. *)
Inductive ireachable : isys -> Prop :=
| ireach_start q mem : request_event calloc request_fuel new_queue ∅ = Ok (q, mem) -> ireachable (mk_isys (mk_input q mem []) 0 [] 1)
| ireach_step s s' : ireachable s -> istep s s' -> ireachable s'.

(** [l1]: the events that wait for the handler; [l2]: the empty ones. *)
Record isys_ok (s : isys) (start : Z) (l1 l2 : list Z) (handled waiting : list virtio_input_event) : Prop := mk_isys_ok {
  io_slot : is_slot start;
  io_queue : queue_ok (eventq (i_in s)) (i_seen s) (buffers ((start + Z.of_nat (length l1)) mod N) l2) [] (buffers start l1) [];
  io_idx : idx (eventq (i_in s)) = start;
  io_full : (length l1 + length l2 = 128)%nat;
  io_nodup : NoDup (l1 ++ l2);
  io_waiting : Forall2 (fun a e => events (i_in s) !! a = Some e) l1 waiting;
  io_empty a : a ∈ l2 -> is_Some (events (i_in s) !! a);
  io_given : i_given s = handled ++ waiting;
  io_reports : reports (i_in s) = mjoin (handle_event <$> handled);
  io_size : size (events (i_in s)) = (128 + i_runs s)%nat;
}.

Lemma handler_ok s start l1 l2 handled waiting : isys_ok s start l1 l2 handled waiting ->
  exists s' l', input_irq_handler calloc handle_event (i_in s) = Ok s' /\
    isys_ok (mk_isys s' (i_seen s) (i_given s) (S (i_runs s))) ((start + Z.of_nat (length l1)) mod N) [] (l2 ++ l') (i_given s) [].
Proof.
  intros [H1 H2 H3 H4 H5 H6 H7 H8 H9 H10]. unfold input_irq_handler. apply NoDup_app in H5 as (Hn1 & Hdis & Hn2).
  destruct (irq_handler_ok (input_free_desc handle_event) _ _ _ _ _ _ (events (i_in s), reports (i_in s)) H2) as (q1 & Hq1 & _ & E).
  destruct (run_free l1 (events (i_in s)) (reports (i_in s)) waiting Hn1 H6) as (mem1 & Er & Hsize & Hkeep). rewrite buffers_descs, Er in E. cbn [res_bind] in E. rewrite E. pose proof (irq_handler_idx _ _ _ _ _ E) as Hidx. rewrite H3 in Hidx. cbn [res_bind].
  set (start' := (start + Z.of_nat (length l1)) mod N) in *. assert (Hs' : is_slot start') by (apply Z.mod_pos_bound; unfold N; lia).
  destruct (request_ok start' (i_seen s) Hs' (length l1) q1 l2 mem1 request_fuel Hq1) as (q2 & l' & mem2 & -> & Hq2 & Hl' & Hi2 & Hnd2 & Hin2 & Hsub & Hsize2).
  { lia. } { rewrite Hidx. unfold start'. rewrite Zplus_mod_idemp_l. unfold is_slot, N in *. replace (start + Z.of_nat (length l1) + Z.of_nat (length l2)) with (start + 1 * 128) by lia. rewrite Z.mod_add, Z.mod_small; lia. }
  { unfold request_fuel. change (Z.to_nat VIRTIO_RING_SIZE) with 128%nat. lia. } { done. }
  { intros a Ha. destruct (H7 a Ha) as [x Hx]. exists x. rewrite Hkeep; [done|]. intros Ha'. by apply (Hdis a). }
  cbn [res_bind]. exists (mk_input q2 mem2 (reports (i_in s) ++ mjoin (handle_event <$> waiting))), l'. split; [done|]. split; cbn [i_in i_seen i_given i_runs eventq events reports length app].
  - done.
  - rewrite Z.add_0_r, Z.mod_small by done. exact Hq2.
  - done.
  - rewrite length_app. lia.
  - done.
  - constructor.
  - intros a Ha. apply elem_of_app in Ha as [Ha|Ha]; [|by apply Hin2]. destruct (H7 a Ha) as [x Hx]. exists x. eapply lookup_weaken; [|exact Hsub]. rewrite Hkeep; [done|]. intros Ha'. by apply (Hdis a).
  - by rewrite app_nil_r.
  - rewrite H8, H9, fmap_app, join_app. done.
  - lia.
Qed.

(** As long as there is an empty event the device can deliver one. *)
Lemma deliver_ok s start l1 a l2 handled waiting e : isys_ok s start l1 (a :: l2) handled waiting ->
  exists s', istep s s' /\ i_given s' = i_given s ++ [e].
Proof.
  intros [H1 H2 H3 H4 H5 H6 H7 H8 H9 H10]. destruct s as [[q mem out] seen given runs]. cbn [i_in i_seen i_given i_runs eventq events reports] in *.
  destruct (H7 a) as [old Hold]; [by left|]. unfold buffers in H2 at 1. cbn [length slots zip_with] in H2. destruct (take_enabled _ _ _ _ _ _ _ H2) as (Hne & Hr & Hc). eexists. split; [eapply (istep_deliver e); [exact Hne|exact Hr|exact Hc|exact Hold]|done].
Qed.

Lemma istep_ok s s' start l1 l2 handled waiting : istep s s' -> isys_ok s start l1 l2 handled waiting -> exists start' l1' l2' handled' waiting', isys_ok s' start' l1' l2' handled' waiting'.
Proof.
  intros Hs Hok. destruct Hs as [e head d old q mem out seen given runs Hne Hr Hc Hm|s s' seen given runs E].
  - destruct Hok as [H1 H2 H3 H4 H5 H6 H7 H8 H9 H10]. cbn [i_in i_seen i_given i_runs eventq events reports] in *. set (mid := (start + Z.of_nat (length l1)) mod N) in *. assert (Hmid : is_slot mid) by (apply Z.mod_pos_bound; unfold N; lia).
    destruct l2 as [|a l2]; [destruct Hne; by eapply pend_empty|]. unfold buffers in H2 at 1. cbn [length slots zip_with] in H2. destruct (take_enabled _ _ _ _ _ _ _ H2) as (_ & Hr' & Hc'). change (c_head (buffer mid a)) with mid in Hr', Hc'. rewrite Hr' in Hr. injection Hr as <-. rewrite Hc' in Hc. cbn in Hc. injection Hc as <-. cbn [addr] in *.
    pose proof (take_ok _ _ _ _ _ _ _ H2) as (_ & _ & _ & Hq1). apply (return_ok _ _ _ [] _ [] _ _ sizeof_event) in Hq1. cbn [app c_head buffer] in Hq1.
    assert (Hna : (a ∉ l1) /\ (a ∉ l2) /\ NoDup (l1 ++ a :: l2)) by (split_and!; [| |done]; apply NoDup_app in H5 as (? & Hd & [? ?]%NoDup_cons); [intros Ha; apply (Hd a Ha); by left|done]).
    destruct Hna as (Hna1 & Hna2 & _). exists start, (l1 ++ [a]), l2, handled, (waiting ++ [e]). split; cbn [i_in i_seen i_given i_runs eventq events reports]; try done.
    + rewrite buffers_app by done. fold mid. unfold buffers at 3. cbn [length slots zip_with]. replace ((start + Z.of_nat (length (l1 ++ [a]))) mod N) with (succ mid); [exact Hq1|]. unfold succ, mid. rewrite Zplus_mod_idemp_l, length_app. f_equal. cbn. lia.
    + rewrite length_app. cbn [length] in *. lia.
    + by rewrite <- app_assoc.
    + apply Forall2_app; [|constructor; [apply lookup_insert_eq|constructor]]. apply Forall2_same_length_lookup_2; [by eapply Forall2_length|]. intros k x y Hx Hy. rewrite lookup_insert_ne; [eapply Forall2_lookup_lr in H6; [exact H6|exact Hx|exact Hy]|].
      intros <-. by apply Hna1, (list_elem_of_lookup_2 _ k).
    + intros x Hx. rewrite lookup_insert_ne; [apply H7; by right|]. by intros <-.
    + by rewrite H8, app_assoc.
    + rewrite map_size_insert, Hm. exact H10.
  - destruct (handler_ok _ _ _ _ _ _ Hok) as (s1 & l' & E1 & Hok1). cbn [i_in i_seen i_given i_runs] in *. rewrite E in E1. injection E1 as <-. eauto 10.
Qed.

Lemma istart_ok : exists q mem l, request_event calloc request_fuel new_queue ∅ = Ok (q, mem) /\ isys_ok (mk_isys (mk_input q mem []) 0 [] 1) 0 [] l [] [].
Proof.
  destruct (request_ok 0 0 ltac:(unfold is_slot, N; lia) 128 new_queue [] ∅ request_fuel new_queue_ok) as (q & l & mem & E & Hq & Hl & Hi & Hnd & Hin & _ & Hsize); [done|done|unfold request_fuel; change (Z.to_nat VIRTIO_RING_SIZE) with 128%nat; lia|constructor|by intros a ?%elem_of_nil|].
  exists q, mem, l. split; [done|]. cbn [app] in *. split; cbn [i_in i_seen i_given i_runs eventq events reports length app].
  - unfold is_slot, N. lia.
  - exact Hq.
  - exact Hi.
  - lia.
  - exact Hnd.
  - constructor.
  - exact Hin.
  - reflexivity.
  - reflexivity.
  - rewrite Hsize, map_size_empty. lia.
Qed.

Lemma ireachable_ok s : ireachable s -> exists start l1 l2 handled waiting, isys_ok s start l1 l2 handled waiting.
Proof.
  induction 1 as [q mem E|s s' _ (start & l1 & l2 & handled & waiting & IH) Hs]; [|by eapply istep_ok]. destruct istart_ok as (q' & mem' & l & E' & Hok). rewrite E in E'. injection E' as <- <-. eauto 10.
Qed.
End proof.

(** ** The guarantees *)

Lemma all_slots start i : is_slot start -> is_slot i -> i ∈ slots start (Z.to_nat N).
Proof.
  intros Hs Hi. apply (list_elem_of_lookup_2 _ (Z.to_nat ((i - start) mod N))). unfold is_slot, N in *. pose proof (Z.mod_pos_bound (i - start) 128 ltac:(lia)). rewrite slots_lookup by (unfold is_slot, N; lia). f_equal. unfold N.
  rewrite Z2Nat.id by lia. rewrite Zplus_mod_idemp_r. replace (start + (i - start)) with i by lia. apply Z.mod_small. lia.
Qed.

Lemma full_queue handle_event s start l handled : isys_ok handle_event s start [] l handled [] -> Forall (fun d => flags d <> 0) (desc (eventq (i_in s))).
Proof.
  intros [H1 H2 _ H4 _ _ _ _ _ _]. pose proof (qk_table _ _ _ _ _ _ H2) as Ht. cbn [length] in *. assert (Hstart : (start + Z.of_nat 0) mod N = start) by (rewrite Z.add_0_r; by apply Z.mod_small). rewrite Hstart in Ht.
  apply Forall_lookup. intros i d Hd. apply (tb_free _ _ _ Ht i d Hd). unfold busy. rewrite !app_nil_r, buffers_slots. replace (length l) with (Z.to_nat N) by (unfold N; lia). apply all_slots; [done|]. apply lookup_lt_Some in Hd. rewrite (tb_len _ _ _ Ht) in Hd. unfold is_slot, N in *. lia.
Qed.

(** C38. No event is lost: whatever the order of deliveries and interrupts, the reports are those of
    the events that the device has delivered, each once and in their order, except those that wait
    for the handler; the handler ends, reports these too and leaves every descriptor of the queue
    with a buffer for the device, which can deliver an event as long as one is left.  Filling the
    queue allocates one event too many each time, which is never freed: after [n] times there are
    [128 + n] events in memory. *)
Theorem input_events_exact (calloc : gmap Z virtio_input_event -> Z) (handle_event : virtio_input_event -> list report) s :
  (forall mem, mem !! calloc mem = None) -> ireachable calloc handle_event s ->
  exists handled waiting,
    i_given s = handled ++ waiting /\ reports (i_in s) = mjoin (handle_event <$> handled) /\ size (events (i_in s)) = (128 + i_runs s)%nat /\
    (exists s', input_irq_handler calloc handle_event (i_in s) = Ok s' /\ reports s' = mjoin (handle_event <$> i_given s) /\
       Forall (fun d => flags d <> 0) (desc (eventq s')) /\ size (events s') = (129 + i_runs s)%nat) /\
    ((length waiting < 128)%nat -> forall e, exists s', istep calloc handle_event s s' /\ i_given s' = i_given s ++ [e]).
Proof.
  intros Hcalloc Hr. destruct (ireachable_ok calloc handle_event Hcalloc s Hr) as (start & l1 & l2 & handled & waiting & Hok). exists handled, waiting. split; [apply Hok|]. split; [apply Hok|]. split; [apply Hok|]. split.
  - destruct (handler_ok calloc handle_event Hcalloc _ _ _ _ _ _ Hok) as (s' & l' & E & Hok'). exists s'. split; [done|]. split; [apply Hok'|]. split; [exact (full_queue handle_event _ _ _ _ Hok')|]. exact (io_size _ _ _ _ _ _ _ Hok').
  - intros Hlt e. pose proof (Forall2_length _ _ _ (io_waiting _ _ _ _ _ _ _ Hok)) as Hl. pose proof (io_full _ _ _ _ _ _ _ Hok) as Hf. destruct l2 as [|a l2]; [cbn in Hf; lia|]. by eapply deliver_ok.
Qed.

(** ** A key is pressed *)

(** Above all addresses that are in use. *)
Definition new_address (mem : gmap Z virtio_input_event) : Z := map_fold (fun k _ m => Z.max m (k + 8)) 8 mem.

Lemma new_address_ok mem : mem !! new_address mem = None.
Proof.
  assert (Hlt : forall k x, mem !! k = Some x -> k < new_address mem).
  { unfold new_address. apply (map_fold_weak_ind (fun r m => forall k x, m !! k = Some x -> k < r)); [intros k x E; by rewrite lookup_empty in E|].
    intros i x m r Hi IH k y E. apply lookup_insert_Some in E as [[<- _]|[_ E]]; [lia|]. apply IH in E. lia. }
  destruct (mem !! new_address mem) as [x|] eqn:E; [|done]. apply Hlt in E. lia.
Qed.

Module Keyboard.
Definition filled : virtio_queue_t * gmap Z virtio_input_event := match request_event new_address request_fuel new_queue ∅ with Ok x => x | _ => (new_queue, ∅) end.
Definition press : virtio_input_event := mk_event EV_KEY 30 1.
Definition pressed : isys := mk_isys (mk_input (device_returns filled.1 0 sizeof_event) (<[8 := press]> filled.2) []) 1 [press] 1.

Lemma pressed_reachable : ireachable new_address virtio_keyboard_handle_event pressed.
Proof.
  eapply ireach_step; [apply (ireach_start _ _ filled.1 filled.2); vm_compute; reflexivity|].
  apply (istep_deliver _ _ press 0 (mk_desc 8 sizeof_event VRING_DESC_F_WRITE 0) no_event filled.1 filled.2 [] 0 [] 1); [vm_compute; discriminate|vm_compute; reflexivity|vm_compute; reflexivity|vm_compute; reflexivity].
Qed.
End Keyboard.

Lemma input_events_exact_witness :
  exists s', input_irq_handler new_address virtio_keyboard_handle_event (i_in Keyboard.pressed) = Ok s' /\ reports s' = [Key 30 1] /\ size (events s') = 130%nat.
Proof.
  destruct (input_events_exact new_address virtio_keyboard_handle_event Keyboard.pressed new_address_ok Keyboard.pressed_reachable) as (handled & waiting & _ & _ & _ & (s' & E & Er & _ & Es) & _).
  exists s'. split; [exact E|]. split; [exact Er|exact Es].
Defined.

(** A button of the mouse. *)
Example mouse_click : virtio_mouse_handle_event (mk_event EV_KEY BTN_LEFT 1) = [LeftClick; Pressed].
Proof. reflexivity. Qed.
