(* ===== verification/Gpu.v ===== *)
(** * Gpu: the virtio display (driver/virtio/gpu.c, driver/framebuffer.c)

    The driver sends commands to the display through its control queue: each is a chain of
    requests and a place for the answer, all on the heap, which the interrupt handler frees.

    [malloc] is a function of a size and of the objects on the heap, and [junk n] is what new memory of [n]
    bytes holds.  Fields of the structures that stay 0 are left out.  The probe function is in
    VirtioMmio; the writes to registers and what the driver prints of its configuration are left
    out. *)

From S2P Require Import Prelude Bits Vfs Virtio VirtioProof VirtioTheorems Input.

(** ** Commands (include/virtio/virtio_gpu.h) *)

Definition VIRTIO_GPU_CMD_GET_DISPLAY_INFO : Z := 0x100.
Definition VIRTIO_GPU_CMD_RESOURCE_CREATE_2D : Z := 0x101.
Definition VIRTIO_GPU_CMD_SET_SCANOUT : Z := 0x103.
Definition VIRTIO_GPU_CMD_RESOURCE_FLUSH : Z := 0x104.
Definition VIRTIO_GPU_CMD_TRANSFER_TO_HOST_2D : Z := 0x105.
Definition VIRTIO_GPU_CMD_RESOURCE_ATTACH_BACKING : Z := 0x106.
Definition VIRTIO_GPU_CMD_UPDATE_CURSOR : Z := 0x300.
Definition VIRTIO_GPU_CMD_MOVE_CURSOR : Z := 0x301.
Definition VIRTIO_GPU_RESP_OK_NODATA : Z := 0x1100.
Definition VIRTIO_GPU_RESP_OK_EDID : Z := 0x1104.
Definition VIRTIO_GPU_RESP_ERR_UNSPEC : Z := 0x1200.
Definition VIRTIO_GPU_RESP_ERR_INVALID_PARAMETER : Z := 0x1205.
Definition VIRTIO_GPU_FORMAT_B8G8R8A8_UNORM : Z := 1.

Record virtio_gpu_rect := mk_rect { r_x : Z; r_y : Z; r_width : Z; r_height : Z }.
Record virtio_gpu_cursor_pos := mk_pos { p_scanout_id : Z; p_x : Z; p_y : Z }.
Record surface_t := mk_surface { width : Z; height : Z; stride : Z; pixlen : Z; pixels : Z }.

(** What the heap holds; [Zero] is a request that [calloc] has just returned. *)
Inductive gobj :=
| Zero
| Hdr (type : Z)
| DisplayInfo (type : Z)
| Create2d (type resource_id format width height : Z)
| AttachBacking (type resource_id nr_entries : Z)
| MemEntry (addr length : Z)
| SetScanout (type : Z) (r : virtio_gpu_rect) (scanout_id resource_id : Z)
| Transfer (type : Z) (r : virtio_gpu_rect) (offset resource_id : Z)
| Flush (type : Z) (r : virtio_gpu_rect) (resource_id : Z)
| Cursor (type : Z) (pos : virtio_gpu_cursor_pos) (resource_id : Z)
| Surface (s : surface_t)
| Pixels (l : list Z).

(** [sizeof] *)
Definition size_of (o : gobj) : Z :=
  match o with
  | Zero => 0
  | Hdr _ => 24
  | DisplayInfo _ => 24 + 16 * 24
  | Create2d _ _ _ _ _ => 40
  | AttachBacking _ _ _ => 32
  | MemEntry _ _ => 16
  | SetScanout _ _ _ _ => 48
  | Transfer _ _ _ _ => 56
  | Flush _ _ _ => 48
  | Cursor _ _ _ => 56
  | Surface _ => 24
  | Pixels l => Z.of_nat (length l)
  end.

(** The first 32 bits of an object, which [free_desc] takes for a type. *)
Definition first_word (o : gobj) : option Z :=
  match o with
  | Zero => Some 0
  | Hdr t | DisplayInfo t | Create2d t _ _ _ _ | AttachBacking t _ _ | SetScanout t _ _ _ | Transfer t _ _ _ | Flush t _ _ | Cursor t _ _ => Some t
  | MemEntry a _ => Some (u32 a)
  | Surface _ | Pixels _ => None
  end.

(** ** The driver *)

(** The control queue, the heap and the answers that were printed. *)
Record gpu := mk_gpu { controlq : virtio_queue_t; heap : gmap Z gobj; printed : list Z }.
Record framebuffer_t := mk_fb { fb_width : Z; fb_height : Z }.

Definition get_features (features : Z) : Z := features.

(** A product of [int]. *)
Definition int_mul (a b : Z) : res Z := let* _ := defined_if ((- 2 ^ 31 <=? a * b) && (a * b <? 2 ^ 31)) in Ok (a * b).

(** An assignment to [*p]. *)
Definition store (p : Z) (o : gobj) (mem : gmap Z gobj) : res (gmap Z gobj) := let* _ := defined_if (negb (p =? 0)) in Ok (<[p := o]> mem).

Section driver.
Context (malloc : Z -> gmap Z gobj -> Z) (junk : Z -> list Z).
Implicit Types g : gpu.

(** A request and the place of its answer are allocated, the request is filled in and sent.  The
    result of sending is not looked at. *)
Definition command_2 g (request response : gobj) : res gpu :=
  let a := malloc (size_of request) (heap g) in
  let mem := <[a := Zero]> (heap g) in
  let b := malloc (size_of response) mem in
  let mem := <[b := response]> mem in
  let* mem := store a request mem in
  let* '(_, q) := virtio_send_command_2 (controlq g) (VRING_DESC a (size_of request)) (VRING_DESC b (size_of response)) in
  Ok (mk_gpu q mem (printed g)).

Definition create_2d_resource g (resource_id width height : Z) : res gpu :=
  command_2 g (Create2d VIRTIO_GPU_CMD_RESOURCE_CREATE_2D resource_id VIRTIO_GPU_FORMAT_B8G8R8A8_UNORM width height) (Hdr 0).

Definition attach_backing g (resource_id ptr buf_len : Z) : res gpu :=
  let request1 := AttachBacking VIRTIO_GPU_CMD_RESOURCE_ATTACH_BACKING resource_id 1 in
  let request2 := MemEntry ptr (u32 buf_len) in
  let response := Hdr 0 in
  let a := malloc (size_of request1) (heap g) in
  let mem := <[a := Zero]> (heap g) in
  let b := malloc (size_of request2) mem in
  let mem := <[b := Zero]> mem in
  let c := malloc (size_of response) mem in
  let mem := <[c := response]> mem in
  let* mem := store a request1 mem in
  let* mem := store b request2 mem in
  let* '(_, q) := virtio_send_command_3 (controlq g) (VRING_DESC a (size_of request1)) (VRING_DESC b (size_of request2)) (VRING_DESC c (size_of response)) in
  Ok (mk_gpu q mem (printed g)).

Definition set_scanout g (resource_id scanout_id x y width height : Z) : res gpu :=
  command_2 g (SetScanout VIRTIO_GPU_CMD_SET_SCANOUT (mk_rect x y width height) scanout_id resource_id) (Hdr 0).

Definition transfer_to_host_2d g (resource_id x y width height : Z) : res gpu :=
  command_2 g (Transfer VIRTIO_GPU_CMD_TRANSFER_TO_HOST_2D (mk_rect x y width height) 0 resource_id) (Hdr 0).

Definition flush_resource g (resource_id x y width height : Z) : res gpu :=
  command_2 g (Flush VIRTIO_GPU_CMD_RESOURCE_FLUSH (mk_rect x y width height) resource_id) (Hdr 0).

Definition update_cursor g (resource_id scanout_id x y : Z) : res gpu :=
  command_2 g (Cursor VIRTIO_GPU_CMD_UPDATE_CURSOR (mk_pos scanout_id x y) resource_id) (Hdr 0).

Definition move_cursor g (resource_id scanout_id x y : Z) : res gpu :=
  command_2 g (Cursor VIRTIO_GPU_CMD_MOVE_CURSOR (mk_pos scanout_id x y) resource_id) (Hdr 0).

Definition get_display_info g : res gpu := command_2 g (Hdr VIRTIO_GPU_CMD_GET_DISPLAY_INFO) (DisplayInfo 0).

(** The answers that have a name are printed: success from [OK_NODATA] to [OK_EDID], errors from
    [ERR_UNSPEC] to [ERR_INVALID_PARAMETER]. *)
Definition answer_printed (type : Z) : list Z :=
  if ((VIRTIO_GPU_RESP_OK_NODATA <=? type) && (type <=? VIRTIO_GPU_RESP_OK_EDID)) ||
     ((VIRTIO_GPU_RESP_ERR_UNSPEC <=? type) && (type <=? VIRTIO_GPU_RESP_ERR_INVALID_PARAMETER)) then [type] else [].

Definition gpu_free_desc (d : vring_desc) (w : gmap Z gobj * list Z) : res (gmap Z gobj * list Z) :=
  let '(mem, out) := w in
  let* o := deref (mem !! addr d) in
  let* type := deref (first_word o) in
  Ok (delete (addr d) mem, out ++ answer_printed type).

Definition gpu_irq_handler g : res gpu :=
  let* '(q, (mem, out)) := virtio_device_irq_handler gpu_free_desc (controlq g) (heap g, printed g) in
  Ok (mk_gpu q mem out).

(** ** Surfaces *)

Definition surface_create (width height pixlen : Z) (mem : gmap Z gobj) : res (Z * surface_t * gmap Z gobj) :=
  let surface := malloc 24 mem in
  let mem := <[surface := Surface (mk_surface 0 0 0 0 0)]> mem in
  let* n := int_mul width height in
  let* n := int_mul n pixlen in
  let pixels := malloc (u64 n) mem in
  let mem := <[pixels := Pixels (junk n)]> mem in
  let* stride := int_mul width pixlen in
  let s := mk_surface width height stride pixlen pixels in
  let* mem := store surface (Surface s) mem in
  Ok (surface, s, mem).

Definition surface_destory (surface : Z) (mem : gmap Z gobj) : res (gmap Z gobj) :=
  let* o := deref (mem !! surface) in
  match o with
  | Surface s =>
      let* _ := deref (mem !! pixels s) in
      let mem := delete (pixels s) mem in
      let* mem := store surface (Surface (mk_surface 0 0 0 0 0)) mem in
      Ok (delete surface mem)
  | _ => Undef
  end.

(** [memset(pixels, 0, n)] *)
Definition clear_pixels (p n : Z) (mem : gmap Z gobj) : res (gmap Z gobj) :=
  let* _ := defined_if (negb (p =? 0)) in
  let* o := deref (mem !! p) in
  match o with
  | Pixels l =>
      let* _ := defined_if ((0 <=? n) && (n <=? Z.of_nat (length l))) in
      Ok (<[p := Pixels (replicate (Z.to_nat n) 0 ++ drop (Z.to_nat n) l)]> mem)
  | _ => Undef
  end.

Definition virtio_framebuffer_create (fb : framebuffer_t) g : res (Z * gpu) :=
  let w := fb_width fb in
  let h := fb_height fb in
  let* '(surface, s, mem) := surface_create w h 4 (heap g) in
  let* n := int_mul w w in
  let* n := int_mul n 4 in
  let* mem := clear_pixels (pixels s) n mem in
  let resource_id := 1 in
  let* g := get_display_info (mk_gpu (controlq g) mem (printed g)) in
  let* g := create_2d_resource g resource_id (u32 w) (u32 h) in
  let* n := int_mul w h in
  let* n := int_mul n 4 in
  let* g := attach_backing g resource_id (pixels s) (u64 n) in
  let* g := set_scanout g resource_id 0 0 0 (u32 w) (u32 h) in
  let* g := transfer_to_host_2d g resource_id 0 0 (u32 w) (u32 h) in
  let* g := flush_resource g resource_id 0 0 (u32 w) (u32 h) in
  Ok (surface, g).

Definition virtio_framebuffer_destroy (fb : framebuffer_t) (s : Z) g : gpu := g.

Definition virtio_framebuffer_present (fb : framebuffer_t) (s : Z) g : res gpu :=
  let w := fb_width fb in
  let h := fb_height fb in
  let resource_id := 1 in
  let* g := transfer_to_host_2d g resource_id 0 0 (u32 w) (u32 h) in
  flush_resource g resource_id 0 0 (u32 w) (u32 h).

(** [sys_framebuffer_get_info] *)
Definition sys_framebuffer_get_info (s : surface_t) : Z * Z * Z := (u32 (width s), u32 (height s), u32 (stride s)).
End driver.

(** ** The display *)

(** The answer is written over the last object of a chain. *)
Definition answered (t : Z) (o : gobj) : gobj := match o with DisplayInfo _ => DisplayInfo t | _ => Hdr t end.

Section device.
(** The type of the answer to a command, whose requests are given. *)
Context (answer : list gobj -> Z).

(** The display takes one chain, reads its requests, writes the answer and returns it. *)
Definition display_one (seen : Z) (g : gpu) : res (list gobj * gpu) :=
  let q := controlq g in
  let* head := deref (avail_ring q !! Z.to_nat (seen mod N)) in
  let* ds := deref (read_chain chain_fuel head (desc q)) in
  let* os := deref (mapM (fun d => heap g !! addr d) ds) in
  let* last_d := deref (last ds) in
  let* last_o := deref (last os) in
  let requests := take (length os - 1) os in
  Ok (requests, mk_gpu (device_returns q head (size_of last_o)) (<[addr last_d := answered (answer requests) last_o]> (heap g)) (printed g)).

Fixpoint display_all (fuel : nat) (seen : Z) (g : gpu) : res (list (list gobj) * Z * gpu) :=
  if seen =? avail_idx (controlq g) then Ok ([], seen, g)
  else match fuel with
       | O => Undef
       | S fuel =>
           let* '(rs, g) := display_one seen g in
           let* '(l, seen, g) := display_all fuel (wrap 16 (seen + 1)) g in
           Ok (rs :: l, seen, g)
       end.

(** The display does all that it was asked, and the interrupt handler runs. *)
Definition served (seen : Z) (g : gpu) : res (list (list gobj) * Z * gpu) :=
  let* '(l, seen, g) := display_all (Z.to_nat VIRTIO_RING_SIZE) seen g in
  let* g := gpu_irq_handler g in
  Ok (l, seen, g).
End device.

(** ** What is in the queue *)

(** The addresses and objects of a chain. *)
Abbreviation chain := (list (Z * gobj)).

Definition bufs_of (x : chain) : list vring_desc := (fun '(a, o) => VRING_DESC a (size_of o)) <$> x.
Definition requests_of (x : chain) : list gobj := take (length x - 1) x.*2.

(** The commands of a run of slots. *)
Fixpoint layout (start : Z) (xs : list chain) : list command :=
  match xs with [] => [] | x :: xs => mk_command start (bufs_of x) :: layout ((start + Z.of_nat (length x)) mod N) xs end.

Definition total (xs : list chain) : nat := length (mjoin xs).

Lemma length_bufs x : length (bufs_of x) = length x.
Proof. unfold bufs_of. by rewrite length_fmap. Qed.

Lemma bufs_of_ok x : x <> [] -> bufs_ok (bufs_of x).
Proof. intros Hx. split; [by destruct x as [|[] ?]|]. apply Forall_fmap, Forall_true. intros [a o]. by left. Qed.

Lemma layout_slots start xs : is_slot start -> mjoin (c_slots <$> layout start xs) = slots start (total xs).
Proof.
  revert start. induction xs as [|x xs IH]; intros start Hs; [done|]. cbn [layout]. change (mjoin (c_slots <$> (?c :: ?l))) with (c_slots c ++ mjoin (c_slots <$> l)).
  unfold total. change (mjoin (x :: xs)) with (x ++ mjoin xs). rewrite length_app, slots_app, IH by (done || apply Z.mod_pos_bound; unfold N; lia). unfold c_slots. cbn. by rewrite length_bufs.
Qed.

Lemma total_app xs ys : total (xs ++ ys) = (total xs + total ys)%nat.
Proof. unfold total. by rewrite join_app, length_app. Qed.

Lemma layout_snoc start xs x : is_slot start -> layout start (xs ++ [x]) = layout start xs ++ [mk_command ((start + Z.of_nat (total xs)) mod N) (bufs_of x)].
Proof.
  revert start. induction xs as [|y xs IH]; intros start Hs; cbn [layout app].
  - unfold total. cbn. rewrite Z.add_0_r. unfold is_slot, N in *. by rewrite Z.mod_small.
  - rewrite IH by (apply Z.mod_pos_bound; unfold N; lia). do 3 f_equal. unfold total. change (mjoin (y :: xs)) with (y ++ mjoin xs). rewrite length_app, Zplus_mod_idemp_l. do 2 f_equal. lia.
Qed.

Lemma layout_chains start xs : Forall2 (fun c x => c_bufs c = bufs_of x) (layout start xs) xs.
Proof. revert start. induction xs as [|x xs IH]; intros start; constructor; [done|apply IH]. Qed.

Lemma desc_new_idx q d fl q' : virtio_desc_new q d fl = Ok (true, q') -> idx q' = succ (idx q).
Proof. unfold virtio_desc_new. destruct (desc q !! _) as [old|]; [|done]. cbn [deref res_bind]. destruct (negb _); [done|]. by intros [= <-]. Qed.

Lemma put_chain_idx bufs : forall q q', is_slot (idx q) -> put_chain q bufs = Ok (true, q') -> idx q' = (idx q + Z.of_nat (length bufs)) mod N.
Proof.
  induction bufs as [|d [|d2 bufs] IH]; intros q q' Hs; cbn [put_chain].
  - intros [= <-]. cbn. rewrite Z.add_0_r, Z.mod_small; done.
  - intros E%desc_new_idx. by rewrite E.
  - destruct (virtio_desc_new q d VRING_DESC_F_NEXT) as [[[] q1]| |] eqn:E; cbn [res_bind negb]; try done. apply desc_new_idx in E. intros H. apply IH in H; [|rewrite E; apply succ_slot].
    rewrite H, E. unfold succ. rewrite Zplus_mod_idemp_l. f_equal. cbn [length]. lia.
Qed.

Lemma send_idx q bufs q' : is_slot (idx q) -> send q bufs = Ok (true, q') -> idx q' = (idx q + Z.of_nat (length bufs)) mod N.
Proof. intros Hs. unfold send. destruct (put_chain q bufs) as [[[] q1]| |] eqn:E; cbn [res_bind negb]; try done. intros [= <-]. cbn [virtio_avail_new idx]. by apply put_chain_idx. Qed.

(** The commands [xs] wait in the slots from [start] on, and the heap is [base] and their objects. *)
Record gpu_ok (g : gpu) (seen start : Z) (base : gmap Z gobj) (xs : list chain) : Prop := mk_gpu_ok {
  gk_slot : is_slot start;
  gk_queue : queue_ok (controlq g) seen (layout start xs) [] [] [];
  gk_idx : idx (controlq g) = (start + Z.of_nat (total xs)) mod N;
  gk_nodup : NoDup (mjoin xs).*1;
  gk_fresh : Forall (fun a => base !! a = None) (mjoin xs).*1;
  gk_heap : heap g = list_to_map (mjoin xs) ∪ base;
}.

(** A chain is accepted as long as there is room. *)
Lemma send_chain g seen start base xs x :
  gpu_ok g seen start base xs -> (total xs + length x <= 128)%nat -> x <> [] -> NoDup x.*1 -> Forall (fun a => heap g !! a = None) x.*1 ->
  exists q', send (controlq g) (bufs_of x) = Ok (true, q') /\ forall out, gpu_ok (mk_gpu q' (list_to_map x ∪ heap g) out) seen start base (xs ++ [x]).
Proof.
  intros [H1 H2 H3 H4 H5 H6] Hroom Hx Hnd Hfresh. pose proof (qk_idx _ _ _ _ _ _ H2) as Hi.
  destruct (send_ok (controlq g) seen (layout start xs) [] [] [] (bufs_of x) H2 (bufs_of_ok x Hx)) as (ok & q' & E & Hok); [rewrite length_bufs; unfold N; lia|].
  assert (ok = true) as ->.
  { destruct ok; [done|]. destruct Hok as [_ (s & Hs1 & Hs2)]. exfalso. unfold busy in Hs2. rewrite !app_nil_r, layout_slots in Hs2 by done. rewrite H3, length_bufs in Hs1.
    pose proof (slots_nodup start (total xs + length x) H1 ltac:(unfold N; lia)) as Hn. rewrite slots_app in Hn by done. apply NoDup_app in Hn as (_ & Hd & _). by apply (Hd s). }
  destruct Hok as [Hq _]. exists q'. split; [done|]. intros out. split; cbn [controlq heap].
  - done.
  - rewrite layout_snoc by done. by rewrite <- H3.
  - rewrite (send_idx _ _ _ Hi E), H3, length_bufs, Zplus_mod_idemp_l, total_app. f_equal. unfold total. cbn. rewrite app_nil_r. lia.
  - rewrite join_app. cbn. rewrite app_nil_r, fmap_app. apply NoDup_app. split; [done|]. split; [|done]. intros a Ha Hb. rewrite Forall_forall in Hfresh. specialize (Hfresh a Hb). rewrite H6, lookup_union_None in Hfresh. destruct Hfresh as [Hf _]. by apply not_elem_of_list_to_map in Hf.
  - rewrite join_app. cbn. rewrite app_nil_r, fmap_app. apply Forall_app. split; [done|]. eapply Forall_impl; [exact Hfresh|]. intros a Ha. cbn in Ha. rewrite H6, lookup_union_None in Ha. apply Ha.
  - rewrite join_app. cbn. rewrite app_nil_r, H6, list_to_map_app, !map_union_assoc. f_equal. apply map_union_comm. apply map_disjoint_spec. intros a o1 o2 E1 E2.
    apply elem_of_list_to_map_2, (list_elem_of_fmap_2 fst) in E1. rewrite Forall_forall in Hfresh. specialize (Hfresh a E1). rewrite H6, lookup_union_None in Hfresh. destruct Hfresh. congruence.
Qed.

Section commands.
Context (malloc : Z -> gmap Z gobj -> Z) (Hmalloc : forall n mem, mem !! malloc n mem = None /\ malloc n mem <> 0).

Lemma store_ok p o mem : p <> 0 -> store p o mem = Ok (<[p := o]> mem).
Proof. intros Hne. unfold store. by rewrite (proj2 (Z.eqb_neq _ _) Hne). Qed.

Lemma command_2_ok g seen start base xs rq rs :
  gpu_ok g seen start base xs -> (total xs + 2 <= 128)%nat ->
  exists g' a b, command_2 malloc g rq rs = Ok g' /\ printed g' = printed g /\ gpu_ok g' seen start base (xs ++ [[(a, rq); (b, rs)]]).
Proof.
  intros Hok Hroom. unfold command_2. set (a := malloc (size_of rq) (heap g)). destruct (Hmalloc (size_of rq) (heap g)) as [Ha Ha0]. fold a in Ha, Ha0.
  set (b := malloc (size_of rs) (<[a := Zero]> (heap g))). destruct (Hmalloc (size_of rs) (<[a := Zero]> (heap g))) as [Hb Hb0]. fold b in Hb, Hb0. apply lookup_insert_None in Hb as [Hb Hab].
  rewrite store_ok by done. cbn [res_bind]. rewrite send_2. destruct (send_chain _ _ _ _ _ [(a, rq); (b, rs)] Hok) as (q' & E & Hg).
  { cbn. lia. } { done. } { cbn. by apply NoDup_cons_2; [rewrite list_elem_of_singleton|apply NoDup_singleton]. } { by repeat constructor. }
  cbn [bufs_of fmap list_fmap] in E. rewrite E. cbn [res_bind]. eexists _, a, b. split; [done|]. split; [done|]. cbn [printed]. specialize (Hg (printed g)). cbn [list_to_map foldr] in Hg.
  rewrite <- !insert_union_l, map_empty_union in Hg. rewrite (insert_insert_ne _ b a), insert_insert_eq by done. exact Hg.
Qed.

Lemma attach_backing_ok g seen start base xs id ptr n :
  gpu_ok g seen start base xs -> (total xs + 3 <= 128)%nat ->
  exists g' a b c, attach_backing malloc g id ptr n = Ok g' /\ printed g' = printed g /\
    gpu_ok g' seen start base (xs ++ [[(a, AttachBacking VIRTIO_GPU_CMD_RESOURCE_ATTACH_BACKING id 1); (b, MemEntry ptr (u32 n)); (c, Hdr 0)]]).
Proof.
  intros Hok Hroom. unfold attach_backing. set (r1 := AttachBacking _ _ _). set (r2 := MemEntry _ _). set (r3 := Hdr 0).
  set (a := malloc (size_of r1) (heap g)). destruct (Hmalloc (size_of r1) (heap g)) as [Ha Ha0]. fold a in Ha, Ha0.
  set (m1 := <[a := Zero]> (heap g)). set (b := malloc (size_of r2) m1). destruct (Hmalloc (size_of r2) m1) as [Hb Hb0]. fold b in Hb, Hb0. apply lookup_insert_None in Hb as [Hb Hab].
  set (m2 := <[b := Zero]> m1). set (c := malloc (size_of r3) m2). destruct (Hmalloc (size_of r3) m2) as [Hc _]. fold c in Hc. apply lookup_insert_None in Hc as [Hc Hbc]. apply lookup_insert_None in Hc as [Hc Hac].
  rewrite store_ok by done. cbn [res_bind]. rewrite store_ok by done. cbn [res_bind]. rewrite send_3. destruct (send_chain _ _ _ _ _ [(a, r1); (b, r2); (c, r3)] Hok) as (q' & E & Hg).
  { cbn. lia. } { done. } { cbn. apply NoDup_cons_2; [rewrite elem_of_cons, list_elem_of_singleton; naive_solver|]. by apply NoDup_cons_2; [rewrite list_elem_of_singleton|apply NoDup_singleton]. } { by repeat constructor. }
  cbn [bufs_of fmap list_fmap] in E. rewrite E. cbn [res_bind]. eexists _, a, b, c. split; [done|]. split; [done|]. cbn [printed]. specialize (Hg (printed g)). cbn [list_to_map foldr] in Hg.
  rewrite <- !insert_union_l, map_empty_union in Hg. unfold m2, m1. replace (<[b := r2]> _) with (<[a := r1]> (<[b := r2]> (<[c := r3]> (heap g)))); [exact Hg|].
  apply map_eq. intros i. destruct (decide (i = a)) as [->|]; [|destruct (decide (i = b)) as [->|]; [|destruct (decide (i = c)) as [->|]]]; by simplify_map_eq.
Qed.
End commands.

(** ** What the display does *)

Lemma place_addrs bufs : forall i, addr <$> place i bufs = addr <$> bufs.
Proof. induction bufs as [|d [|d2 bufs] IH]; intros i; [done|done|]. rewrite place_cons. cbn [fmap list_fmap addr]. f_equal. exact (IH (succ i)). Qed.

Lemma bufs_addrs x : addr <$> bufs_of x = x.*1.
Proof. unfold bufs_of. rewrite <- list_fmap_compose. apply list_fmap_ext. by intros i [a o] _. Qed.

Lemma read_objects (mem : gmap Z gobj) (x : chain) : forall ds, addr <$> ds = x.*1 -> Forall (fun '(a, o) => mem !! a = Some o) x -> mapM (fun d => mem !! addr d) ds = Some x.*2.
Proof.
  induction x as [|[a o] x IH]; intros [|d ds]; cbn; intros [=]; [done|]. intros [Ha HF]%Forall_cons. subst. rewrite Ha. cbn. by rewrite IH.
Qed.

(** The chain after its answer. *)
Definition answer_chain (answer : list gobj -> Z) (x : chain) : chain :=
  match last x with Some (a, o) => take (length x - 1) x ++ [(a, answered (answer (requests_of x)) o)] | None => x end.

Lemma answer_chain_addrs answer x : (answer_chain answer x).*1 = x.*1.
Proof. unfold answer_chain. destruct x as [|y x _] using rev_ind; [done|]. rewrite last_snoc. destruct y as [a o]. rewrite length_app. cbn. rewrite Nat.add_sub, take_app_length, !fmap_app. done. Qed.

Lemma answer_chain_bufs answer x : Forall (fun o => first_word o <> None) x.*2 -> Forall (fun o => first_word o <> None) (answer_chain answer x).*2.
Proof.
  unfold answer_chain. destruct x as [|[a o] x _] using rev_ind; [done|]. rewrite last_snoc, length_app. cbn. rewrite Nat.add_sub, take_app_length, !fmap_app. intros [H _]%Forall_app. apply Forall_app. split; [done|]. constructor; [by destruct o|constructor].
Qed.

(** The heap with the objects of the chains [xs]. *)
Lemma heap_lookup (base : gmap Z gobj) l : NoDup l.*1 -> Forall (fun '(a, o) => (list_to_map l ∪ base) !! a = Some o) l.
Proof. intros Hnd. apply Forall_forall. intros [a o] Hin. apply lookup_union_Some_l. by apply elem_of_list_to_map_1. Qed.

Lemma heap_answer (base : gmap Z gobj) l1 a o o' l2 : NoDup (l1 ++ (a, o) :: l2).*1 -> <[a := o']> (list_to_map (l1 ++ (a, o) :: l2) ∪ base) = list_to_map (l1 ++ (a, o') :: l2) ∪ base.
Proof.
  intros Hnd. rewrite insert_union_l. f_equal. rewrite fmap_app in Hnd. cbn in Hnd. apply NoDup_app in Hnd as (_ & Hd & _). assert (Ha : a ∉ l1.*1) by (intros H; apply (Hd a H); by left). clear Hd.
  induction l1 as [|[b p] l1 IH]; cbn; [by rewrite insert_insert_eq|]. cbn in Ha. apply not_elem_of_cons in Ha as [Hne Ha]. rewrite insert_insert_ne by done. by rewrite IH.
Qed.

Lemma display_one_ok answer g seen c cs done x (xs1 xs2 : list chain) base :
  queue_ok (controlq g) seen (c :: cs) [] done [] -> c_bufs c = bufs_of x -> x <> [] -> heap g = list_to_map (mjoin (xs1 ++ x :: xs2)) ∪ base -> NoDup (mjoin (xs1 ++ x :: xs2)).*1 ->
  exists g', display_one answer seen g = Ok (requests_of x, g') /\ queue_ok (controlq g') (wrap 16 (seen + 1)) cs [] (done ++ [c]) [] /\
    heap g' = list_to_map (mjoin (xs1 ++ answer_chain answer x :: xs2)) ∪ base /\ printed g' = printed g.
Proof.
  intros Hq Hc Hx Hh Hnd. destruct (take_enabled _ _ _ _ _ _ _ Hq) as (_ & Hav & Hch). pose proof (take_ok _ _ _ _ _ _ _ Hq) as (_ & _ & _ & Hq2). unfold display_one. rewrite Hav. cbn [deref res_bind]. rewrite Hch. cbn [deref res_bind].
  assert (Hds : addr <$> c_descs c = x.*1) by (unfold c_descs; by rewrite place_addrs, Hc, bufs_addrs).
  assert (HF : Forall (fun '(a, o) => heap g !! a = Some o) x).
  { rewrite Hh. eapply Forall_impl; [|intros ? H; exact H]. pose proof (heap_lookup base (mjoin (xs1 ++ x :: xs2)) Hnd) as H. rewrite join_app in H. change (mjoin (x :: xs2)) with (x ++ mjoin xs2) in H. rewrite !Forall_app in H. rewrite join_app. apply H. }
  rewrite (read_objects (heap g) x _ Hds HF). cbn [deref res_bind].
  destruct x as [|[a o] x _] using rev_ind; [done|]. set (ds := c_descs c) in *. destruct ds as [|d ds _] using rev_ind; [exfalso; apply (f_equal length) in Hds; rewrite fmap_app, length_app in Hds; cbn in Hds; lia|].
  rewrite !fmap_app in Hds. cbn in Hds. apply app_inj_tail in Hds as [_ Hd]. rewrite fmap_app. cbn [fmap list_fmap snd]. rewrite !last_snoc. cbn [deref res_bind].
  eexists. split; [unfold requests_of; rewrite fmap_app, !length_app, length_fmap; reflexivity|]. cbn [controlq heap printed]. split; [|split; [|done]].
  - exact (return_ok _ _ _ [] c [] done [] (size_of o) Hq2).
  - rewrite Hd, Hh, !join_app. change (mjoin ((x ++ [(a, o)]) :: xs2)) with ((x ++ [(a, o)]) ++ mjoin xs2). rewrite join_app in Hnd. change (mjoin ((x ++ [(a, o)]) :: xs2)) with ((x ++ [(a, o)]) ++ mjoin xs2) in Hnd.
    rewrite <- !app_assoc in Hnd |- *. cbn [app] in Hnd |- *. rewrite (app_assoc (mjoin xs1)) in Hnd |- *. rewrite heap_answer by done. f_equal. f_equal. rewrite <- app_assoc. f_equal.
    unfold answer_chain. rewrite last_snoc. change (mjoin (?y :: xs2)) with (y ++ mjoin xs2).
    unfold requests_of. rewrite fmap_app, length_app. cbn [length]. rewrite Nat.add_sub, take_app_length, <- app_assoc. reflexivity.
Qed.

(** The display reads the requests of all commands in their order and answers them. *)
Lemma display_all_ok answer base : forall xs cs fuel g seen fin (xs1 : list chain),
  queue_ok (controlq g) seen cs [] fin [] -> Forall2 (fun c x => c_bufs c = bufs_of x) cs xs -> Forall (fun x => x <> []) xs -> (length xs <= fuel)%nat ->
  heap g = list_to_map (mjoin (xs1 ++ xs)) ∪ base -> NoDup (mjoin (xs1 ++ xs)).*1 ->
  exists seen' g', display_all answer fuel seen g = Ok (requests_of <$> xs, seen', g') /\ queue_ok (controlq g') seen' [] [] (fin ++ cs) [] /\
    heap g' = list_to_map (mjoin (xs1 ++ (answer_chain answer <$> xs))) ∪ base /\ printed g' = printed g.
Proof.
  induction xs as [|x xs IH]; intros cs fuel g seen fin xs1 Hq HF Hne Hf Hh Hnd; inversion HF as [|c ? cs' ? Hc HF']; subst.
  - exists seen, g. rewrite !app_nil_r in *. assert (E : (seen =? avail_idx (controlq g)) = true) by (apply Z.eqb_eq; by eapply pend_empty). destruct fuel; cbn [display_all]; by rewrite E.
  - apply Forall_cons in Hne as [Hx Hne]. destruct fuel as [|fuel]; [cbn in Hf; lia|]. cbn [display_all]. destruct (take_enabled _ _ _ _ _ _ _ Hq) as (Hs & _). rewrite (proj2 (Z.eqb_neq _ _) Hs).
    destruct (display_one_ok answer g seen c cs' fin x xs1 xs base Hq Hc Hx Hh Hnd) as (g1 & -> & Hq1 & Hh1 & Hp1). cbn [res_bind].
    destruct (IH cs' fuel g1 (wrap 16 (seen + 1)) (fin ++ [c]) (xs1 ++ [answer_chain answer x]) Hq1 HF' Hne) as (seen' & g' & -> & Hq' & Hh' & Hp').
    + cbn in Hf. lia.
    + by rewrite <- app_assoc.
    + rewrite <- app_assoc. cbn [app]. rewrite join_app, fmap_app in Hnd |- *. change (mjoin (?y :: xs)) with (y ++ mjoin xs) in *. rewrite fmap_app in Hnd |- *. by rewrite answer_chain_addrs.
    + cbn [res_bind]. exists seen', g'. rewrite <- !app_assoc in Hq', Hh'. cbn [app fmap list_fmap] in *. split; [done|]. split; [exact Hq'|]. split; [exact Hh'|congruence].
Qed.

(** The handler frees the objects of the chains and prints the answers. *)
Definition prints (o : gobj) : list Z := match first_word o with Some t => answer_printed t | None => [] end.

Lemma run_free_objects base : forall l ds out, addr <$> ds = l.*1 -> NoDup l.*1 -> Forall (fun a => base !! a = None) l.*1 -> Forall (fun o => first_word o <> None) l.*2 ->
  run_all gpu_free_desc ds (list_to_map l ∪ base, out) = Ok (base, out ++ mjoin (prints <$> l.*2)).
Proof.
  induction l as [|[a o] l IH]; intros [|d ds] out; cbn [fmap list_fmap fst snd]; try done.
  - intros _ _ _ _. cbn. by rewrite map_empty_union, app_nil_r.
  - intros [= Hd Hds] [Ha Hnd]%NoDup_cons [Hb HF]%Forall_cons [Hw HW]%Forall_cons. cbn [run_all list_to_map foldr fst snd]. unfold gpu_free_desc at 1. change (foldr _ ∅ l) with (list_to_map l : gmap Z gobj).
    rewrite Hd, <- insert_union_l, lookup_insert_eq. cbn [deref res_bind]. change (mjoin (?y :: ?r)) with (y ++ mjoin r). unfold prints at 1. destruct (first_word o) as [t|]; [|done]. cbn [deref res_bind].
    rewrite delete_insert_id; [|apply lookup_union_None; split; [by apply not_elem_of_list_to_map_1|done]]. rewrite IH by done. by rewrite <- app_assoc.
Qed.

Lemma chains_addrs cs xs : Forall2 (fun c x => c_bufs c = bufs_of x) cs xs -> addr <$> mjoin (c_descs <$> cs) = (mjoin xs).*1.
Proof.
  induction 1 as [|c x cs xs Hc _ IH]; [done|]. cbn [fmap list_fmap]. change (mjoin (?y :: ?r)) with (y ++ mjoin r). change (list_fmap _ _ c_descs cs) with (c_descs <$> cs). rewrite !fmap_app, IH. f_equal. unfold c_descs. by rewrite place_addrs, Hc, bufs_addrs.
Qed.

Lemma answers_addrs answer xs : (mjoin (answer_chain answer <$> xs)).*1 = (mjoin xs).*1.
Proof. induction xs as [|x xs IH]; [done|]. cbn [fmap list_fmap]. change (mjoin (?y :: ?r)) with (y ++ mjoin r). change (list_fmap _ _ (answer_chain answer) xs) with (answer_chain answer <$> xs). by rewrite !fmap_app, IH, answer_chain_addrs. Qed.

Lemma answers_words answer xs : Forall (fun o => first_word o <> None) (mjoin xs).*2 -> Forall (fun o => first_word o <> None) (mjoin (answer_chain answer <$> xs)).*2.
Proof.
  induction xs as [|x xs IH]; [done|]. cbn [fmap list_fmap]. change (mjoin (?y :: ?r)) with (y ++ mjoin r). change (list_fmap _ _ (answer_chain answer) xs) with (answer_chain answer <$> xs). rewrite !fmap_app, !Forall_app.
  intros [H1 H2]. split; [by apply answer_chain_bufs|by apply IH].
Qed.

Lemma chain_count xs : Forall (fun x : chain => x <> []) xs -> (length xs <= total xs)%nat.
Proof. unfold total. induction 1 as [|x xs Hx _ IH]; [done|]. change (mjoin (x :: xs)) with (x ++ mjoin xs). rewrite length_app. destruct x; [done|]. cbn. lia. Qed.

(** The commands [xs] are read in their order, and then the heap and the queue are as before them. *)
Lemma served_ok answer g seen start base xs :
  gpu_ok g seen start base xs -> (total xs <= 128)%nat -> Forall (fun x => x <> []) xs -> Forall (fun o => first_word o <> None) (mjoin xs).*2 ->
  exists seen' g', served answer seen g = Ok (requests_of <$> xs, seen', g') /\ queue_ok (controlq g') seen' [] [] [] [] /\ heap g' = base /\
    printed g' = printed g ++ mjoin (prints <$> (mjoin (answer_chain answer <$> xs)).*2).
Proof.
  intros [H1 H2 H3 H4 H5 H6] Hroom Hne Hw. unfold served. pose proof (chain_count xs Hne) as Hc.
  destruct (display_all_ok answer base xs _ (Z.to_nat VIRTIO_RING_SIZE) g seen [] [] H2 (layout_chains start xs) Hne) as (seen' & g1 & -> & Hq1 & Hh1 & Hp1); [change (Z.to_nat VIRTIO_RING_SIZE) with 128%nat; lia|done|done|].
  cbn [res_bind app] in *. unfold gpu_irq_handler. destruct (irq_handler_ok gpu_free_desc _ _ _ _ _ _ (heap g1, printed g1) Hq1) as (q' & Hq' & _ & ->).
  rewrite Hh1, run_free_objects; [|by rewrite answers_addrs; apply chains_addrs, layout_chains|by rewrite answers_addrs|by rewrite answers_addrs|by apply answers_words].
  cbn [res_bind]. eexists seen', _. split; [done|]. cbn [controlq heap printed]. rewrite Hp1. done.
Qed.

(** ** The guarantees *)

Lemma idle_gpu g seen : queue_ok (controlq g) seen [] [] [] [] -> gpu_ok g seen (idx (controlq g)) (heap g) [].
Proof.
  intros Hq. pose proof (qk_idx _ _ _ _ _ _ Hq) as Hi. split; [done|done| |constructor|constructor|].
  - change (Z.of_nat (total [])) with 0. rewrite Z.add_0_r. symmetry. by apply Z.mod_small.
  - cbn. by rewrite map_empty_union.
Qed.

Lemma int_mul_ok a b : - 2 ^ 31 <= a * b < 2 ^ 31 -> int_mul a b = Ok (a * b).
Proof. intros H. unfold int_mul. rewrite defined_if_true; [done|]. rewrite andb_true_iff, Z.leb_le, Z.ltb_lt. done. Qed.

Section screen.
Context (malloc : Z -> gmap Z gobj -> Z) (Hmalloc : forall n mem, mem !! malloc n mem = None /\ malloc n mem <> 0).
Context (junk : Z -> list Z) (Hjunk : forall n, 0 <= n -> Z.of_nat (length (junk n)) = n).

Lemma surface_create_ok w h mem : 0 < w -> 0 < h -> w * h * 4 < 2 ^ 31 ->
  exists s p, surface_create malloc junk w h 4 mem = Ok (s, mk_surface w h (w * 4) 4 p, <[s := Surface (mk_surface w h (w * 4) 4 p)]> (<[p := Pixels (junk (w * h * 4))]> mem)) /\
    mem !! s = None /\ mem !! p = None /\ s <> p /\ s <> 0 /\ p <> 0.
Proof.
  intros Hw Hh Hb. unfold surface_create. rewrite !int_mul_ok by nia. cbn [res_bind]. rewrite int_mul_ok by nia. cbn [res_bind]. set (s := malloc 24 mem). destruct (Hmalloc 24 mem) as [Hs Hs0]. fold s in Hs, Hs0.
  set (m1 := <[s := _]> mem). set (p := malloc (u64 (w * h * 4)) m1). destruct (Hmalloc (u64 (w * h * 4)) m1) as [Hp Hp0]. fold p in Hp, Hp0. apply lookup_insert_None in Hp as [Hp Hps].
  rewrite store_ok by done. cbn [res_bind]. exists s, p. split; [|done]. do 2 f_equal. unfold m1. rewrite (insert_insert_ne _ p s) by done. by rewrite insert_insert_eq.
Qed.

(** The bytes of a new screen: those of the first [w] lines of [w] pixels are cleared. *)
Definition screen (w h : Z) : list Z := replicate (Z.to_nat (w * w * 4)) 0 ++ drop (Z.to_nat (w * w * 4)) (junk (w * h * 4)).

Lemma clear_pixels_ok p n l mem : p <> 0 -> mem !! p = Some (Pixels l) -> 0 <= n <= Z.of_nat (length l) -> clear_pixels p n mem = Ok (<[p := Pixels (replicate (Z.to_nat n) 0 ++ drop (Z.to_nat n) l)]> mem).
Proof. intros Hp Hm Hn. unfold clear_pixels. rewrite (proj2 (Z.eqb_neq p 0)) by done. cbn [negb defined_if res_bind]. rewrite Hm. cbn [deref res_bind]. rewrite defined_if_true; [done|]. rewrite andb_true_iff, !Z.leb_le. done. Qed.

(** The commands of a new screen are all accepted by an empty queue. *)
Lemma screen_create_ok fb g seen (w := fb_width fb) (h := fb_height fb) :
  queue_ok (controlq g) seen [] [] [] [] -> 0 < w -> w <= h -> w * h * 4 < 2 ^ 31 ->
  exists s p g' xs, virtio_framebuffer_create malloc junk fb g = Ok (s, g') /\ heap g !! s = None /\ heap g !! p = None /\ s <> p /\ s <> 0 /\
    gpu_ok g' seen (idx (controlq g)) (<[s := Surface (mk_surface w h (w * 4) 4 p)]> (<[p := Pixels (screen w h)]> (heap g))) xs /\
    (total xs <= 128)%nat /\ Forall (fun x => x <> []) xs /\ Forall (fun o => first_word o <> None) (mjoin xs).*2 /\
    requests_of <$> xs =
      [ [Hdr VIRTIO_GPU_CMD_GET_DISPLAY_INFO];
        [Create2d VIRTIO_GPU_CMD_RESOURCE_CREATE_2D 1 VIRTIO_GPU_FORMAT_B8G8R8A8_UNORM w h];
        [AttachBacking VIRTIO_GPU_CMD_RESOURCE_ATTACH_BACKING 1 1; MemEntry p (w * h * 4)];
        [SetScanout VIRTIO_GPU_CMD_SET_SCANOUT (mk_rect 0 0 w h) 0 1];
        [Transfer VIRTIO_GPU_CMD_TRANSFER_TO_HOST_2D (mk_rect 0 0 w h) 0 1];
        [Flush VIRTIO_GPU_CMD_RESOURCE_FLUSH (mk_rect 0 0 w h) 1] ].
Proof.
  intros Hq Hw Hh Hb. unfold virtio_framebuffer_create. fold w h. destruct (surface_create_ok w h (heap g) Hw ltac:(lia) Hb) as (s & p & -> & Hs & Hp & Hsp & Hs0 & Hp0). cbn [res_bind pixels].
  rewrite !(int_mul_ok w) by nia. cbn [res_bind]. rewrite !int_mul_ok by nia. cbn [res_bind]. rewrite (clear_pixels_ok p _ (junk (w * h * 4))); [|done|by rewrite lookup_insert_ne, lookup_insert_eq by done|rewrite Hjunk by nia; nia]. cbn [res_bind].
  fold (screen w h). rewrite (insert_insert_ne _ p s), insert_insert_eq by done. set (base := <[s := _]> _). rewrite u64_small, !u32_small by nia.
  pose proof (idle_gpu (mk_gpu (controlq g) base (printed g)) seen Hq) as Hg0. cbn [controlq heap] in Hg0.
  destruct (command_2_ok malloc Hmalloc _ _ _ _ _ (Hdr VIRTIO_GPU_CMD_GET_DISPLAY_INFO) (DisplayInfo 0) Hg0) as (g1 & a1 & b1 & E1 & _ & Hg1); [cbn; lia|]. unfold get_display_info. rewrite E1. cbn [res_bind app] in *.
  destruct (command_2_ok malloc Hmalloc _ _ _ _ _ (Create2d VIRTIO_GPU_CMD_RESOURCE_CREATE_2D 1 VIRTIO_GPU_FORMAT_B8G8R8A8_UNORM w h) (Hdr 0) Hg1) as (g2 & a2 & b2 & E2 & _ & Hg2); [cbn; lia|]. unfold create_2d_resource. rewrite E2. cbn [res_bind app] in *.
  destruct (attach_backing_ok malloc Hmalloc _ _ _ _ _ 1 p (w * h * 4) Hg2) as (g3 & a3 & b3 & c3 & E3 & _ & Hg3); [cbn; lia|]. rewrite E3. rewrite u32_small in Hg3 by nia. cbn [res_bind app] in *.
  destruct (command_2_ok malloc Hmalloc _ _ _ _ _ (SetScanout VIRTIO_GPU_CMD_SET_SCANOUT (mk_rect 0 0 w h) 0 1) (Hdr 0) Hg3) as (g4 & a4 & b4 & E4 & _ & Hg4); [cbn; lia|]. unfold set_scanout. rewrite E4. cbn [res_bind app] in *.
  destruct (command_2_ok malloc Hmalloc _ _ _ _ _ (Transfer VIRTIO_GPU_CMD_TRANSFER_TO_HOST_2D (mk_rect 0 0 w h) 0 1) (Hdr 0) Hg4) as (g5 & a5 & b5 & E5 & _ & Hg5); [cbn; lia|]. unfold transfer_to_host_2d. rewrite E5. cbn [res_bind app] in *.
  destruct (command_2_ok malloc Hmalloc _ _ _ _ _ (Flush VIRTIO_GPU_CMD_RESOURCE_FLUSH (mk_rect 0 0 w h) 1) (Hdr 0) Hg5) as (g6 & a6 & b6 & E6 & _ & Hg6); [cbn; lia|]. unfold flush_resource. rewrite E6. cbn [res_bind app] in *.
  eexists s, p, g6, _. split; [done|]. split_and!; [done|done|done|done|exact Hg6|cbn; lia|by repeat constructor|by repeat constructor|done].
Qed.

Lemma present_ok fb sf g seen (w := fb_width fb) (h := fb_height fb) :
  queue_ok (controlq g) seen [] [] [] [] -> 0 <= w < 2 ^ 32 -> 0 <= h < 2 ^ 32 ->
  exists g' a1 b1 a2 b2, virtio_framebuffer_present malloc fb sf g = Ok g' /\ printed g' = printed g /\
    gpu_ok g' seen (idx (controlq g)) (heap g)
      [ [(a1, Transfer VIRTIO_GPU_CMD_TRANSFER_TO_HOST_2D (mk_rect 0 0 w h) 0 1); (b1, Hdr 0)]; [(a2, Flush VIRTIO_GPU_CMD_RESOURCE_FLUSH (mk_rect 0 0 w h) 1); (b2, Hdr 0)] ].
Proof.
  intros Hq Hw Hh. unfold virtio_framebuffer_present. fold w h. rewrite !u32_small by done. pose proof (idle_gpu g seen Hq) as Hg0.
  destruct (command_2_ok malloc Hmalloc _ _ _ _ _ (Transfer VIRTIO_GPU_CMD_TRANSFER_TO_HOST_2D (mk_rect 0 0 w h) 0 1) (Hdr 0) Hg0) as (g1 & a1 & b1 & E1 & Hp1 & Hg1); [cbn; lia|]. unfold transfer_to_host_2d. rewrite E1. cbn [res_bind app] in *.
  destruct (command_2_ok malloc Hmalloc _ _ _ _ _ (Flush VIRTIO_GPU_CMD_RESOURCE_FLUSH (mk_rect 0 0 w h) 1) (Hdr 0) Hg1) as (g2 & a2 & b2 & E2 & Hp2 & Hg2); [cbn; lia|]. unfold flush_resource. rewrite E2.
  exists g2, a1, b1, a2, b2. split; [done|]. split; [congruence|exact Hg2].
Qed.

Lemma destory_ok s p w h st pl l mem : mem !! s = None -> mem !! p = None -> s <> p -> s <> 0 ->
  surface_destory s (<[s := Surface (mk_surface w h st pl p)]> (<[p := Pixels l]> mem)) = Ok mem.
Proof.
  intros Hs Hp Hsp Hs0. unfold surface_destory. rewrite lookup_insert_eq. cbn [deref res_bind pixels]. rewrite lookup_insert_ne, lookup_insert_eq by done. cbn [deref res_bind]. rewrite store_ok by done. cbn [res_bind]. f_equal.
  rewrite (delete_insert_ne _ p s) by congruence. rewrite (delete_insert_id _ p) by done. rewrite insert_insert_eq. by apply delete_insert_id.
Qed.

(** A screen that is wider than high: clearing it writes behind its end. *)
Lemma wide_screen_overflows fb g : 0 < fb_height fb < fb_width fb -> virtio_framebuffer_create malloc junk fb g = Undef.
Proof.
  intros [Hh Hw]. unfold virtio_framebuffer_create. set (w := fb_width fb) in *. set (h := fb_height fb) in *.
  assert (Hc : forall a b, int_mul a b = Ok (a * b) \/ int_mul a b = Undef) by (intros a b; unfold int_mul; destruct (_ && _); auto).
  destruct (Z_lt_dec (w * h * 4) (2 ^ 31)) as [Hb|Hb].
  - destruct (surface_create_ok w h (heap g) ltac:(lia) Hh Hb) as (s & p & -> & Hs & Hp & Hsp & Hs0 & Hp0). cbn [res_bind pixels]. destruct (Hc w w) as [-> | ->]; [|done]. cbn [res_bind]. destruct (Hc (w * w) 4) as [-> | ->]; [|done]. cbn [res_bind].
    unfold clear_pixels. rewrite (proj2 (Z.eqb_neq p 0)) by done. cbn [negb defined_if res_bind]. rewrite lookup_insert_ne, lookup_insert_eq by done. cbn [deref res_bind].
    rewrite (proj2 (Z.leb_gt (w * w * 4) (Z.of_nat (length (junk (w * h * 4)))))); [by rewrite andb_false_r|]. rewrite Hjunk by nia. nia.
  - unfold surface_create. destruct (Hc w h) as [-> | ->]; [|done]. cbn [res_bind]. destruct (Hc (w * h) 4) as [E|E]; [|by rewrite E]. exfalso. unfold int_mul in E. rewrite (proj2 (Z.ltb_ge (w * h * 4) (2 ^ 31))) in E by lia. by rewrite andb_false_r in E.
Qed.
End screen.

(** C39. The screen works on an idle queue, whatever the display answers.  Creating a screen that
    is at most as wide as it is high sends the six commands that set it up, with the pixels as
    their backing, which the display reads in this order; after the interrupt the heap has the
    surface and its pixels in addition to what it had, and nothing else, the queue is idle again,
    and destroying the surface gives the heap of before.  Creating a wider one is undefined: it is
    cleared beyond its end.  Presenting sends a transfer and a flush of
    the whole screen in this order, and after the interrupt the heap is as it was and exactly the
    answers are printed. *)
Theorem framebuffer_commands_exact (malloc : Z -> gmap Z gobj -> Z) (junk : Z -> list Z) (answer : list gobj -> Z) fb g seen (w := fb_width fb) (h := fb_height fb) :
  (forall n mem, mem !! malloc n mem = None /\ malloc n mem <> 0) -> (forall n, 0 <= n -> Z.of_nat (length (junk n)) = n) ->
  queue_ok (controlq g) seen [] [] [] [] -> 0 < w -> 0 < h -> w * h * 4 < 2 ^ 31 ->
  (w <= h -> exists s p g1 seen2 g2,
     virtio_framebuffer_create malloc junk fb g = Ok (s, g1) /\
     served answer seen g1 = Ok
       ([ [Hdr VIRTIO_GPU_CMD_GET_DISPLAY_INFO];
          [Create2d VIRTIO_GPU_CMD_RESOURCE_CREATE_2D 1 VIRTIO_GPU_FORMAT_B8G8R8A8_UNORM w h];
          [AttachBacking VIRTIO_GPU_CMD_RESOURCE_ATTACH_BACKING 1 1; MemEntry p (w * h * 4)];
          [SetScanout VIRTIO_GPU_CMD_SET_SCANOUT (mk_rect 0 0 w h) 0 1];
          [Transfer VIRTIO_GPU_CMD_TRANSFER_TO_HOST_2D (mk_rect 0 0 w h) 0 1];
          [Flush VIRTIO_GPU_CMD_RESOURCE_FLUSH (mk_rect 0 0 w h) 1] ], seen2, g2) /\
     queue_ok (controlq g2) seen2 [] [] [] [] /\
     heap g2 = <[s := Surface (mk_surface w h (w * 4) 4 p)]> (<[p := Pixels (screen junk w h)]> (heap g)) /\
     surface_destory s (heap g2) = Ok (heap g)) /\
  (h < w -> virtio_framebuffer_create malloc junk fb g = Undef) /\
  (forall s, let transfer := Transfer VIRTIO_GPU_CMD_TRANSFER_TO_HOST_2D (mk_rect 0 0 w h) 0 1 in let flush := Flush VIRTIO_GPU_CMD_RESOURCE_FLUSH (mk_rect 0 0 w h) 1 in
   exists g1 seen2 g2,
     virtio_framebuffer_present malloc fb s g = Ok g1 /\ served answer seen g1 = Ok ([[transfer]; [flush]], seen2, g2) /\
     queue_ok (controlq g2) seen2 [] [] [] [] /\ heap g2 = heap g /\
     printed g2 = printed g ++ answer_printed (answer [transfer]) ++ answer_printed (answer [flush])).
Proof.
  intros Hmalloc Hjunk Hq Hw Hh Hb. split; [|split].
  - intros Hle. destruct (screen_create_ok malloc Hmalloc junk Hjunk fb g seen Hq Hw Hle Hb) as (s & p & g1 & xs & E & Hs & Hp & Hsp & Hs0 & Hg1 & Ht & Hne & Hwd & Hreq).
    destruct (served_ok answer _ _ _ _ _ Hg1 Ht Hne Hwd) as (seen2 & g2 & E2 & Hq2 & Hh2 & _). rewrite Hreq in E2. exists s, p, g1, seen2, g2. split; [exact E|]. split; [exact E2|]. split; [exact Hq2|]. split; [exact Hh2|].
    rewrite Hh2. by apply destory_ok.
  - intros Hlt. by apply (wide_screen_overflows malloc Hmalloc junk Hjunk).
  - intros s transfer flush. destruct (present_ok malloc Hmalloc fb s g seen Hq) as (g1 & a1 & b1 & a2 & b2 & E & Hp & Hg1); [nia|nia|].
    destruct (served_ok answer _ _ _ _ _ Hg1) as (seen2 & g2 & E2 & Hq2 & Hh2 & Hp2); [cbn; lia|by repeat constructor|by repeat constructor|]. exists g1, seen2, g2. split; [exact E|]. split; [exact E2|]. split; [exact Hq2|]. split; [exact Hh2|].
    rewrite Hp2, Hp. f_equal. cbn. by rewrite app_nil_r.
Qed.

(** ** A small screen *)

Module Screen.
(** Above all addresses that are in use. *)
Definition new_object (n : Z) (mem : gmap Z gobj) : Z := map_fold (fun k _ m => Z.max m (k + 8)) 8 mem.
Definition old_bytes (n : Z) : list Z := replicate (Z.to_nat n) 7.
Definition small : framebuffer_t := mk_fb 1 2.
Definition started : gpu := mk_gpu new_queue ∅ [].
Definition always_ok (_ : list gobj) : Z := VIRTIO_GPU_RESP_OK_NODATA.

Lemma new_gobj_ok n mem : mem !! new_object n mem = None /\ new_object n mem <> 0.
Proof.
  assert (Hlt : 0 < new_object n mem /\ forall k x, mem !! k = Some x -> k < new_object n mem).
  { unfold new_object. apply (map_fold_weak_ind (fun r m => 0 < r /\ forall k x, m !! k = Some x -> k < r)); [split; [lia|]; intros k x E; by rewrite lookup_empty in E|].
    intros i x m r Hi [H0 IH]. split; [lia|]. intros k y E. apply lookup_insert_Some in E as [[<- _]|[_ E]]; [lia|]. apply IH in E. lia. }
  destruct Hlt as [H0 Hlt]. split; [|lia]. destruct (mem !! new_object n mem) as [x|] eqn:E; [|done]. apply Hlt in E. lia.
Qed.

Lemma old_bytes_ok n : 0 <= n -> Z.of_nat (length (old_bytes n)) = n.
Proof. intros Hn. unfold old_bytes. rewrite length_replicate. lia. Qed.

(** The display of the device tree. *)
Definition real : framebuffer_t := mk_fb 640 480.

Lemma real_overflows : virtio_framebuffer_create new_object old_bytes real started = Undef.
Proof. apply (wide_screen_overflows new_object new_gobj_ok old_bytes old_bytes_ok). cbn. lia. Qed.

(** Presents that the display has not seen. *)
Definition presented (n : nat) : gpu :=
  Nat.iter n (fun g => match virtio_framebuffer_present new_object small 0 g with Ok g => g | _ => g end) started.

(** The queue has room for 32 of them.  What comes then is dropped, and its four objects are still
    on the heap when everything has come back. *)
Lemma full_queue_drops :
  avail_idx (controlq (presented 32)) = 64 /\ avail_idx (controlq (presented 33)) = 64 /\ size (heap (presented 33)) = 132%nat /\
  match served always_ok 0 (presented 33) with Ok (l, _, g) => length l = 64%nat /\ size (heap g) = 4%nat | _ => False end.
Proof. vm_compute. repeat split. Qed.
End Screen.

Lemma framebuffer_commands_exact_witness :
  exists g1 seen2 g2, virtio_framebuffer_present Screen.new_object Screen.small 0 Screen.started = Ok g1 /\
    served Screen.always_ok 0 g1 =
      Ok ([[Transfer VIRTIO_GPU_CMD_TRANSFER_TO_HOST_2D (mk_rect 0 0 1 2) 0 1]; [Flush VIRTIO_GPU_CMD_RESOURCE_FLUSH (mk_rect 0 0 1 2) 1]], seen2, g2) /\
    heap g2 = ∅ /\ printed g2 = [VIRTIO_GPU_RESP_OK_NODATA; VIRTIO_GPU_RESP_OK_NODATA].
Proof.
  destruct (framebuffer_commands_exact Screen.new_object Screen.old_bytes Screen.always_ok Screen.small Screen.started 0 Screen.new_gobj_ok Screen.old_bytes_ok new_queue_ok) as (_ & _ & H); [cbn; lia|cbn; lia|cbn; lia|].
  destruct (H 0) as (g1 & seen2 & g2 & E1 & E2 & _ & Eh & Ep). exists g1, seen2, g2. split; [exact E1|]. split; [exact E2|]. split; [exact Eh|exact Ep].
Defined.
