(* ===== verification/Printf.v ===== *)
(** * Printf: what the kernel prints (core/printf.c)

    The output is the list of the bytes that are given to [serial_lowlevel_putc]; a C string is
    the list of its bytes without the final NUL.  Arguments are values with their types, as the
    macros of include/printv.h pass them. *)

From S2P Require Import Prelude Bits Strtoul.

(** ** The code *)

(** ["0123456789abcdef"] *)
Definition printf_digits : list Z := [48; 49; 50; 51; 52; 53; 54; 55; 56; 57; 97; 98; 99; 100; 101; 102].

(** [buf[i++] = c], with [buf] of 16 bytes; the list has the [i] bytes that are written. *)
Definition BUF_SIZE : Z := 16.
Definition buf_push (buf : list Z) (c : Z) : res (list Z) := let* _ := defined_if (Z.of_nat (length buf) <? BUF_SIZE) in Ok (buf ++ [c]).

(** The [do] loop, whose turns each take a place of [buf]. *)
Fixpoint digit_loop (fuel : nat) (x base : Z) (buf : list Z) : res (list Z) :=
  match fuel with
  | O => Undef
  | S fuel =>
      let* c := deref (printf_digits !! Z.to_nat (x mod base)) in
      let* buf := buf_push buf c in
      let x := x / base in
      if negb (x =? 0) then digit_loop fuel x base buf else Ok buf
  end.

Definition digit_fuel : nat := Z.to_nat BUF_SIZE.

Definition printint (xx base : Z) (sign : bool) : res (list Z) :=
  let sign := sign && (xx <? 0) in
  let* x := if sign then let* _ := defined_if (negb (xx =? - 2 ^ 31)) in Ok (u32 (- xx)) else Ok (u32 xx) in
  let* buf := digit_loop digit_fuel x base [] in
  let* buf := if sign then buf_push buf 45 else Ok buf in
  Ok (rev buf).

Fixpoint ptr_loop (n : nat) (x : Z) : res (list Z) :=
  match n with
  | O => Ok []
  | S n => let* c := deref (printf_digits !! Z.to_nat (Z.shiftr x 60)) in let* l := ptr_loop n (u64 (Z.shiftl x 4)) in Ok (c :: l)
  end.

Definition printptr (x : Z) : res (list Z) := let* l := ptr_loop 16 x in Ok (48 :: 120 :: l).

Inductive arg := AInt (x : Z) | APtr (x : Z) | AStr (s : option (list Z)).

Definition va_int (ap : list arg) : res (Z * list arg) := match ap with AInt x :: ap => Ok (x, ap) | _ => Undef end.
Definition va_ptr (ap : list arg) : res (Z * list arg) := match ap with APtr x :: ap => Ok (x, ap) | _ => Undef end.
Definition va_str (ap : list arg) : res (option (list Z) * list arg) := match ap with AStr s :: ap => Ok (s, ap) | _ => Undef end.

(** ["(null)"] *)
Definition NULL_TEXT : list Z := [40; 110; 117; 108; 108; 41].

(** The loop of [printf]. *)
Fixpoint printf_loop (fmt : list Z) (ap : list arg) : res (list Z) :=
  match fmt with
  | [] => Ok []
  | c :: fmt =>
      if c =? 0 then Ok []
      else if negb (c =? 37) then let* l := printf_loop fmt ap in Ok (c :: l)
      else
        match fmt with
        | [] => Ok []
        | c :: fmt =>
            if c =? 0 then Ok []
            else
              let* '(t, ap) :=
                if c =? 100 then let* '(x, ap) := va_int ap in let* t := printint x 10 true in Ok (t, ap)
                else if c =? 120 then let* '(x, ap) := va_int ap in let* t := printint x 16 true in Ok (t, ap)
                else if c =? 112 then let* '(x, ap) := va_ptr ap in let* t := printptr x in Ok (t, ap)
                else if c =? 115 then let* '(s, ap) := va_str ap in Ok (default NULL_TEXT s, ap)
                else if c =? 37 then Ok ([37], ap)
                else Ok ([37; c], ap) in
              let* l := printf_loop fmt ap in
              Ok (t ++ l)
        end
  end.

(** Without a format the kernel prints a message and stops. *)
Definition printf (fmt : option (list Z)) (ap : list arg) : res (list Z) :=
  match fmt with Some fmt => printf_loop fmt ap | None => Panic end.

(** ** Numbers *)

(** The value of digits in base [b], read after [acc]. *)
Definition value_in (b : Z) (ds : list Z) (acc : Z) : Z := fold_left (fun a d => a * b + d) ds acc.

Definition digit_char (d : Z) : Z := hex_char false d.

Definition is_base (b : Z) : Prop := b = 10 \/ b = 16.

Lemma table_digit d : 0 <= d < 16 -> printf_digits !! Z.to_nat d = Some (digit_char d).
Proof.
  intros H. assert (Hd : d = 0 \/ d = 1 \/ d = 2 \/ d = 3 \/ d = 4 \/ d = 5 \/ d = 6 \/ d = 7 \/ d = 8 \/ d = 9 \/ d = 10 \/ d = 11 \/ d = 12 \/ d = 13 \/ d = 14 \/ d = 15) by lia.
  repeat (destruct Hd as [->|Hd]; [reflexivity|]). subst d. reflexivity.
Qed.

Lemma value_in_grows b ds : is_base b -> forall acc, Forall (fun d => 0 <= d < b) ds -> 0 <= acc -> acc <= value_in b ds acc.
Proof. intros Hb. unfold value_in. induction ds as [|d ds IH]; intros acc HF Ha; [cbn; lia|]. apply Forall_cons in HF as [Hd HF]. cbn [fold_left]. specialize (IH (acc * b + d) HF). destruct Hb as [-> | ->]; lia. Qed.

Lemma value_in_app b ds d acc : value_in b (ds ++ [d]) acc = value_in b ds acc * b + d.
Proof. unfold value_in. by rewrite fold_left_app. Qed.

(** The test for overflow of [strtoul]. *)
Lemma cutoff_ok b acc d : is_base b -> 0 <= d -> acc * b + d < 2 ^ 64 -> ((ULONG_MAX / b <? acc) || ((acc =? ULONG_MAX / b) && (ULONG_MAX mod b <? d))) = false.
Proof.
  intros Hb Hd Hn. rewrite orb_false_iff, andb_false_iff, Z.eqb_neq, !Z.ltb_ge.
  destruct Hb as [-> | ->]; [change (ULONG_MAX / 10) with 1844674407370955161; change (ULONG_MAX mod 10) with 5|change (ULONG_MAX / 16) with 1152921504606846975; change (ULONG_MAX mod 16) with 15]; lia.
Qed.

(** The loop of [strtoul] reads digits whose value fits. *)
Lemma number_loop_reads b : is_base b -> forall ds d acc any,
  Forall (fun x => 0 <= x < b) (d :: ds) -> 0 <= any -> 0 <= acc -> value_in b (d :: ds) acc < 2 ^ 64 ->
  number_loop b (ULONG_MAX / b) (ULONG_MAX mod b) (digit_char d) (digit_char <$> ds) acc any = (value_in b (d :: ds) acc, 1).
Proof.
  intros Hb. induction ds as [|d2 ds IH]; intros d acc any HF Hany Hacc Hlim; pose proof HF as [Hd HF']%Forall_cons; destruct (hex_char_digit false d ltac:(destruct Hb; lia)) as (Ed & _);
    cbn [number_loop fmap list_fmap]; unfold digit_char at 1; rewrite Ed, (proj2 (Z.leb_gt b d)), (proj2 (Z.ltb_ge any 0)) by lia.
  - unfold value_in in *. cbn [fold_left] in *. rewrite cutoff_ok by (done || lia). by rewrite (u64_small (acc * b)), u64_small by (destruct Hb as [-> | ->]; lia).
  - assert (Hn : acc * b + d < 2 ^ 64) by (pose proof (value_in_grows b (d2 :: ds) Hb (acc * b + d) HF' ltac:(destruct Hb as [-> | ->]; lia)); unfold value_in in *; cbn [fold_left] in *; lia).
    rewrite cutoff_ok by (done || lia). rewrite (u64_small (acc * b)), u64_small by (destruct Hb as [-> | ->]; lia). apply IH; [done|lia|destruct Hb as [-> | ->]; lia|exact Hlim].
Qed.

(** [digit_loop] writes the digits of a number below [b^k] from the last to the first, without
    zeros in front. *)
Lemma digit_loop_ok b : is_base b -> forall k fuel x buf, (0 < k <= fuel)%nat -> (length buf + k <= 16)%nat -> 0 <= x < b ^ Z.of_nat k ->
  exists ds, digit_loop fuel x b buf = Ok (buf ++ rev (digit_char <$> ds)) /\ (length ds <= k)%nat /\ ds <> [] /\ Forall (fun d => 0 <= d < b) ds /\ value_in b ds 0 = x /\ (hd 0 ds = 0 -> ds = [0]).
Proof.
  intros Hb. assert (Hb1 : 2 <= b <= 16) by (destruct Hb; lia). induction k as [|k IH]; intros fuel x buf Hk Hl Hx; [lia|]. destruct fuel as [|fuel]; [lia|]. cbn [digit_loop].
  pose proof (Z.mod_pos_bound x b ltac:(lia)) as Hm. rewrite table_digit by lia. cbn [deref res_bind]. unfold buf_push at 1. rewrite defined_if_true by (apply Z.ltb_lt; unfold BUF_SIZE; lia). cbn [res_bind].
  destruct (Z.eqb_spec (x / b) 0) as [E|E]; cbn [negb].
  - apply Z.div_small_iff in E as [E|E]; [|lia|lia]. rewrite Z.mod_small by lia. exists [x]. split; [done|]. cbn. split_and!; [lia|done|by constructor|lia|by intros ->].
  - rewrite Nat2Z.inj_succ, Z.pow_succ_r in Hx by lia. assert (Hq : 0 <= x / b < b ^ Z.of_nat k) by (split; [apply Z.div_pos; lia|apply Z.div_lt_upper_bound; lia]).
    assert (0 < k)%nat by (destruct k; [cbn in Hq; lia|lia]).
    destruct (IH fuel (x / b) (buf ++ [digit_char (x mod b)])) as (ds & -> & Hlen & Hne & HF & Hv & Hz); [lia|rewrite length_app; cbn; lia|exact Hq|].
    exists (ds ++ [x mod b]). split_and!.
    + rewrite fmap_app. cbn. by rewrite rev_app_distr, <- app_assoc.
    + rewrite length_app. cbn. lia.
    + by destruct ds.
    + apply Forall_app. split; [done|by constructor].
    + rewrite value_in_app, Hv. pose proof (Z.div_mod x b). lia.
    + destruct ds as [|d ds]; [done|]. cbn [app hd] in *. intros Hd. specialize (Hz Hd). injection Hz as -> ->. cbn in Hv. lia.
Qed.

(** ** What a number looks like *)

(** The numeral of [x] in base [b]: a sign if [x] is negative, digits without zeros in front; and
    [strtoul] reads it as [x]. *)
Definition numeral (b x : Z) (t : list Z) : Prop :=
  strtoul t b = u64 x /\
  exists ds, t = (if x <? 0 then [45] else []) ++ (digit_char <$> ds) /\ ds <> [] /\ Forall (fun d => 0 <= d < b) ds /\ (hd 0 ds = 0 -> ds = [0]).

Lemma peek_digit d s : 0 <= d < 16 -> peek (digit_char d :: s) = digit_char d.
Proof. intros Hd. destruct (hex_char_digit false d Hd) as (_ & _ & Hr & _). unfold peek, char_of, digit_char. cbn [hd]. apply swrap_small; lia. Qed.

Lemma peek_not_x ds : Forall (fun d => 0 <= d < 16) ds -> ((peek (digit_char <$> ds) =? 120) || (peek (digit_char <$> ds) =? 88)) = false.
Proof.
  intros HF. destruct ds as [|d ds]; [done|]. apply Forall_cons in HF as [Hd _]. cbn [fmap list_fmap]. rewrite peek_digit by done. destruct (hex_char_digit false d Hd) as (_ & _ & _ & H1 & H2). unfold digit_char. by rewrite (proj2 (Z.eqb_neq _ 120)), (proj2 (Z.eqb_neq _ 88)).
Qed.

Lemma base_16 b ds : is_base b -> Forall (fun d => 0 <= d < b) ds -> Forall (fun d => 0 <= d < 16) ds.
Proof. intros Hb HF. eapply Forall_impl; [exact HF|]. cbn. intros d Hd. destruct Hb as [-> | ->]; lia. Qed.

Lemma strtoul_numeral b (neg : bool) ds : is_base b -> ds <> [] -> Forall (fun d => 0 <= d < b) ds -> value_in b ds 0 < 2 ^ 64 ->
  strtoul ((if neg then [45] else []) ++ (digit_char <$> ds)) b = if neg then u64 (- value_in b ds 0) else value_in b ds 0.
Proof.
  intros Hb Hne HF Hv. destruct ds as [|d ds]; [done|]. pose proof (base_16 b _ Hb HF) as [Hd HF16]%Forall_cons. destruct (hex_char_digit false d Hd) as (_ & Hsp & Hr & _ & _). fold (digit_char d) in Hsp, Hr.
  pose proof (number_loop_reads b Hb ds d 0 0 HF ltac:(lia) ltac:(lia) Hv) as Hl.
  assert (Hb0 : (b =? 0) = false) by (destruct Hb as [-> | ->]; done). unfold strtoul. destruct neg; cbn [app fmap list_fmap skip_space].
  - change (isspace 45) with false. change (45 =? 45) with true. cbv beta iota. change (list_fmap Z Z digit_char ds) with (digit_char <$> ds). rewrite peek_digit by done. cbn [tl].
    change (45 =? 45) with true. cbv beta iota. rewrite peek_not_x, andb_false_r by done. rewrite Hb0, Hl. done.
  - rewrite Hsp, (proj2 (Z.eqb_neq _ 45)), (proj2 (Z.eqb_neq _ 43)) by lia. change (list_fmap Z Z digit_char ds) with (digit_char <$> ds). rewrite peek_not_x, andb_false_r by done. rewrite Hb0, Hl. done.
Qed.

Lemma printint_ok b x : is_base b -> - 2 ^ 31 < x < 2 ^ 31 -> exists t, printint x b true = Ok t /\ numeral b x t.
Proof.
  intros Hb Hx. unfold printint. cbn [andb]. assert (Hpow : 2 ^ 32 <= b ^ Z.of_nat 10) by (destruct Hb as [-> | ->]; vm_compute; discriminate).
  destruct (Z.ltb_spec x 0) as [Hneg|Hpos].
  - rewrite (proj2 (Z.eqb_neq x _)) by lia. cbn [negb defined_if res_bind]. rewrite u32_small by lia.
    destruct (digit_loop_ok b Hb 10 digit_fuel (- x) []) as (ds & -> & Hl & Hne & HF & Hv & Hz); [unfold digit_fuel; change (Z.to_nat BUF_SIZE) with 16%nat; lia|cbn; lia|lia|].
    cbn [res_bind app]. unfold buf_push. rewrite defined_if_true by (apply Z.ltb_lt; unfold BUF_SIZE; rewrite length_rev, length_fmap; lia). cbn [res_bind]. eexists. split; [done|]. rewrite rev_app_distr, rev_involutive. cbn [rev app].
    split; [|exists ds; by rewrite (proj2 (Z.ltb_lt x 0))]. pose proof (strtoul_numeral b true ds Hb Hne HF ltac:(lia)) as E. cbn [app] in E. rewrite E, Hv. f_equal. lia.
  - cbn [res_bind]. rewrite u32_small by lia. destruct (digit_loop_ok b Hb 10 digit_fuel x []) as (ds & -> & Hl & Hne & HF & Hv & Hz); [unfold digit_fuel; change (Z.to_nat BUF_SIZE) with 16%nat; lia|cbn; lia|lia|].
    cbn [res_bind app]. eexists. split; [done|]. rewrite rev_involutive. split; [|exists ds; by rewrite (proj2 (Z.ltb_ge x 0))]. pose proof (strtoul_numeral b false ds Hb Hne HF ltac:(lia)) as E. cbn [app] in E. rewrite E, Hv, u64_small by lia. done.
Qed.

(** ** Addresses *)

(** After [16 - n] digits the rest of the address is in the upper [4 * n] bits. *)
Lemma ptr_loop_ok n : forall x, (n <= 16)%nat -> 0 <= x < 2 ^ 64 ->
  exists ds, ptr_loop n x = Ok (digit_char <$> ds) /\ length ds = n /\ Forall (fun d => 0 <= d < 16) ds /\ forall acc, value_in 16 ds acc = acc * 16 ^ Z.of_nat n + x / 16 ^ (16 - Z.of_nat n).
Proof.
  induction n as [|n IH]; intros x Hn Hx.
  - exists []. split_and!; [done|done|constructor|]. intros acc. change (16 - Z.of_nat 0) with 16. rewrite Z.div_small by (change (16 ^ 16) with (2 ^ 64); lia). cbn. lia.
  - cbn [ptr_loop]. rewrite Z.shiftr_div_pow2, Z.shiftl_mul_pow2 by lia. assert (Hd : 0 <= x / 2 ^ 60 < 16) by (split; [apply Z.div_pos; lia|apply Z.div_lt_upper_bound; lia]). rewrite table_digit by done. cbn [deref res_bind].
    set (d := x / 2 ^ 60) in *. set (r := x mod 2 ^ 60). assert (Hr : 0 <= r < 2 ^ 60) by (apply Z.mod_pos_bound; lia). assert (Hxr : x = d * 2 ^ 60 + r) by (unfold d, r; pose proof (Z.div_mod x (2 ^ 60)); lia).
    assert (Eu : u64 (x * 2 ^ 4) = 16 * r) by (unfold u64, wrap; rewrite Hxr; replace ((d * 2 ^ 60 + r) * 2 ^ 4) with (16 * r + d * 2 ^ 64) by lia; rewrite Z.mod_add by lia; apply Z.mod_small; lia).
    rewrite Eu. destruct (IH (16 * r)) as (ds & -> & Hl & HF & Hv); [lia|lia|]. cbn [res_bind]. exists (d :: ds). split; [done|]. split; [cbn; lia|]. split; [by constructor|].
    intros acc. unfold value_in in *. cbn [fold_left]. rewrite Hv. rewrite Nat2Z.inj_succ, Z.pow_succ_r by lia. replace (16 - Z.of_nat n) with (Z.succ (16 - Z.succ (Z.of_nat n))) by lia. rewrite Z.pow_succ_r, Z.div_mul_cancel_l by lia.
    set (k := 16 ^ (16 - Z.succ (Z.of_nat n))). assert (Hk : 0 < k) by (apply Z.pow_pos_nonneg; lia). assert (E60 : 2 ^ 60 = 16 ^ Z.of_nat n * k) by (unfold k; rewrite <- Z.pow_add_r by lia; replace (Z.of_nat n + (16 - Z.succ (Z.of_nat n))) with 15 by lia; reflexivity).
    assert (Eq : x / k = d * 16 ^ Z.of_nat n + r / k) by (rewrite <- Z.div_add_l by lia; f_equal; rewrite Hxr, E60; lia). rewrite Eq. lia.
Qed.

(** An address: [0x] and all its digits. *)
Definition address (x : Z) (t : list Z) : Prop := strtoul t 16 = x /\ exists ds, t = 48 :: 120 :: (digit_char <$> ds) /\ length ds = 16%nat /\ Forall (fun d => 0 <= d < 16) ds.

Lemma printptr_ok x : 0 <= x < 2 ^ 64 -> exists t, printptr x = Ok t /\ address x t.
Proof.
  intros Hx. unfold printptr. destruct (ptr_loop_ok 16 x ltac:(lia) Hx) as (ds & -> & Hl & HF & Hv). cbn [res_bind]. eexists. split; [done|]. split; [|by exists ds].
  specialize (Hv 0). change (16 - Z.of_nat 16) with 0 in Hv. rewrite Z.mul_0_l, Z.add_0_l, Z.pow_0_r, Z.div_1_r in Hv. destruct ds as [|d ds]; [done|]. pose proof HF as [Hd _]%Forall_cons.
  pose proof (number_loop_reads 16 ltac:(by right) ds d 0 0 HF ltac:(lia) ltac:(lia) ltac:(lia)) as Hn. unfold strtoul. cbn [skip_space fmap list_fmap]. change (isspace 48) with false. cbv beta iota. change (48 =? 45) with false. change (48 =? 43) with false. cbv beta iota.
  change (peek (120 :: digit_char d :: list_fmap Z Z digit_char ds)) with 120. cbn [Z.eqb Pos.eqb orb andb tl]. change (list_fmap Z Z digit_char ds) with (digit_char <$> ds). rewrite peek_digit by done. change (peek (120 :: ?l)) with 120. cbn [tl].
  change ((120 =? 120) || (120 =? 88)) with true. cbv beta iota. change (16 =? 0) with false. cbv beta iota. rewrite Hn. exact Hv.
Qed.

(** ** Formats *)

Inductive piece := Lit (c : Z) | Dec (x : Z) | Hex (x : Z) | Ptr (x : Z) | Str (s : option (list Z)) | Percent | Unknown (c : Z).

Definition fmt_of (p : piece) : list Z :=
  match p with Lit c => [c] | Dec _ => [37; 100] | Hex _ => [37; 120] | Ptr _ => [37; 112] | Str _ => [37; 115] | Percent => [37; 37] | Unknown c => [37; c] end.
Definition args_of (p : piece) : list arg :=
  match p with Dec x | Hex x => [AInt x] | Ptr x => [APtr x] | Str s => [AStr s] | _ => [] end.

Definition piece_ok (p : piece) : Prop :=
  match p with
  | Lit c => c <> 0 /\ c <> 37
  | Dec x | Hex x => - 2 ^ 31 < x < 2 ^ 31
  | Ptr x => 0 <= x < 2 ^ 64
  | Str (Some s) => Forall (fun c => c <> 0) s
  | Str None | Percent => True
  | Unknown c => c ∉ [0; 37; 100; 112; 115; 120]
  end.

Definition text_of (p : piece) (t : list Z) : Prop :=
  match p with
  | Lit c => t = [c]
  | Dec x => numeral 10 x t
  | Hex x => numeral 16 x t
  | Ptr x => address x t
  | Str (Some s) => t = s
  | Str None => t = NULL_TEXT
  | Percent => t = [37]
  | Unknown c => t = [37; c]
  end.

Lemma piece_printed p fmt ap : piece_ok p -> exists t, text_of p t /\ printf_loop (fmt_of p ++ fmt) (args_of p ++ ap) = (let* l := printf_loop fmt ap in Ok (t ++ l)).
Proof.
  destruct p as [c|x|x|x|s| |c]; cbn [piece_ok fmt_of args_of app text_of]; intros Hp.
  - exists [c]. split; [done|]. cbn [printf_loop]. destruct Hp as [H0 H37]. rewrite (proj2 (Z.eqb_neq _ _) H0), (proj2 (Z.eqb_neq _ _) H37). done.
  - destruct (printint_ok 10 x ltac:(by left) Hp) as (t & E & Ht). exists t. split; [done|]. cbn [printf_loop Z.eqb Pos.eqb negb va_int res_bind]. by rewrite E.
  - destruct (printint_ok 16 x ltac:(by right) Hp) as (t & E & Ht). exists t. split; [done|]. cbn [printf_loop Z.eqb Pos.eqb negb va_int res_bind]. by rewrite E.
  - destruct (printptr_ok x Hp) as (t & E & Ht). exists t. split; [done|]. cbn [printf_loop Z.eqb Pos.eqb negb va_ptr res_bind]. by rewrite E.
  - exists (default NULL_TEXT s). split; [by destruct s|done].
  - by exists [37].
  - exists [37; c]. split; [done|]. rewrite !not_elem_of_cons in Hp. destruct Hp as (H1 & H2 & H3 & H4 & H5 & H6 & _). cbn [printf_loop Z.eqb Pos.eqb negb]. by rewrite !(proj2 (Z.eqb_neq c _)) by done.
Qed.

(** C40. What [printf] prints.  For a format of any pieces with arguments of their types, it prints
    the texts of the pieces in their order: numbers as numerals without zeros in front, which
    [strtoul] reads back as the number, addresses with all their digits, which it reads back too,
    strings as they are, and unknown letters with their percent sign; a lone percent sign at the
    end prints nothing. *)
Theorem printf_exact (ps : list piece) (lone : bool) :
  Forall piece_ok ps ->
  exists ts, printf (Some (mjoin (fmt_of <$> ps) ++ (if lone then [37] else []))) (mjoin (args_of <$> ps)) = Ok (mjoin ts) /\ Forall2 text_of ps ts.
Proof.
  cbn [printf]. induction 1 as [|p ps Hp _ (ts & IH & Hts)].
  - exists []. split; [by destruct lone|constructor].
  - cbn [fmap list_fmap]. change (mjoin (?a :: ?l)) with (a ++ mjoin l). change (list_fmap _ _ fmt_of ps) with (fmt_of <$> ps). change (list_fmap _ _ args_of ps) with (args_of <$> ps).
    rewrite <- app_assoc. destruct (piece_printed p (mjoin (fmt_of <$> ps) ++ (if lone then [37] else [])) (mjoin (args_of <$> ps)) Hp) as (t & Ht & ->). rewrite IH. cbn [res_bind]. exists (t :: ts). split; [done|by constructor].
Qed.

(** The format ["x=%d %p"]. *)
Lemma printf_exact_witness :
  exists ts, printf (Some [120; 61; 37; 100; 32; 37; 112]) [AInt (-42); APtr 0x80001000] = Ok (mjoin ts) /\ Forall2 text_of [Lit 120; Lit 61; Dec (-42); Lit 32; Ptr 0x80001000] ts.
Proof.
  apply (printf_exact [Lit 120; Lit 61; Dec (-42); Lit 32; Ptr 0x80001000] false). repeat constructor; cbn; lia.
Defined.

(** The same by computation: [x=-42 0x0000000080001000]. *)
Example printf_runs : printf (Some [120; 61; 37; 100; 32; 37; 112]) [AInt (-42); APtr 0x80001000] =
  Ok [120; 61; 45; 52; 50; 32; 48; 120; 48; 48; 48; 48; 48; 48; 48; 48; 56; 48; 48; 48; 49; 48; 48; 48].
Proof. reflexivity. Qed.

(** The least [int] has no negative, and the hexadecimal form of a negative number has a sign. *)
Lemma least_int_undefined base : printint (- 2 ^ 31) base true = Undef.
Proof. done. Qed.

Lemma hex_is_signed : printf (Some [37; 120]) [AInt (-1)] = Ok [45; 49].
Proof. reflexivity. Qed.
