(* ===== verification/VirtioMmio.v ===== *)
(** * VirtioMmio: the registers of virtio devices (driver/virtio/virtio.c), and the probe functions
    of the virtio drivers

    The registers are a parameter: what a read returns, and how reads and writes change the
    device. *)

From S2P Require Import Prelude Bits Xjil Interrupt Vfs Virtio VirtioProof VirtioTheorems VirtioBlk Input.

Definition VIRTIO_MMIO_MAGIC_VALUE : Z := 0.
Definition VIRTIO_MMIO_VERSION : Z := 4.
Definition VIRTIO_MMIO_DEVICE_ID : Z := 8.
Definition VIRTIO_MMIO_VENDOR_ID : Z := 12.
Definition VIRTIO_MMIO_DEVICE_FEATURES : Z := 16.
Definition VIRTIO_MMIO_DRIVER_FEATURES : Z := 32.
Definition VIRTIO_MMIO_GUEST_PAGE_SIZE : Z := 40.
Definition VIRTIO_MMIO_QUEUE_SEL : Z := 48.
Definition VIRTIO_MMIO_QUEUE_NUM_MAX : Z := 52.
Definition VIRTIO_MMIO_QUEUE_NUM : Z := 56.
Definition VIRTIO_MMIO_QUEUE_PFN : Z := 64.
Definition VIRTIO_MMIO_QUEUE_NOTIFY : Z := 80.
Definition VIRTIO_MMIO_INTERRUPT_STATUS : Z := 96.
Definition VIRTIO_MMIO_INTERRUPT_ACK : Z := 100.
Definition VIRTIO_MMIO_STATUS : Z := 112.
Definition VIRTIO_MMIO_CONFIG : Z := 256.

Definition VIRTIO_CONFIG_S_ACKNOWLEDGE : Z := 1.
Definition VIRTIO_CONFIG_S_DRIVER : Z := 2.
Definition VIRTIO_CONFIG_S_DRIVER_OK : Z := 4.
Definition VIRTIO_CONFIG_S_FEATURES_OK : Z := 8.
Definition VIRTIO_CONFIG_S_FAILED : Z := 128.

Definition MMIO_VIRTIO_START : Z := 0x10001000.
Definition MMIO_VIRTIO_STRIDE : Z := 0x1000.
Definition MMIO_VIRTIO_MAGIC : Z := 0x74726976.
Definition MMIO_VIRTIO_NUM : Z := 8.

Definition PAGE_SHIFT : Z := 12.
Definition PAGE_SIZE : Z := 4096.

Record virtio_mmio_desc_t := mk_mmio { m_addr : Z; device_id : Z; virtio_mmio_bus : Z }.

Section mmio.
Context {R : Type} (read32 : Z -> R -> Z * R) (write32 : Z -> Z -> R -> R).
Implicit Types r : R.

Definition virtio_mmio_notify (d : virtio_mmio_desc_t) r : R := write32 (m_addr d + VIRTIO_MMIO_QUEUE_NOTIFY) 0 r.

Definition virtio_mmio_interrupt_ack (d : virtio_mmio_desc_t) r : R :=
  let '(s, r) := read32 (m_addr d + VIRTIO_MMIO_INTERRUPT_STATUS) r in
  write32 (m_addr d + VIRTIO_MMIO_INTERRUPT_ACK) (Z.land s 3) r.

Definition virtio_mmio_get_config (d : virtio_mmio_desc_t) : Z := m_addr d + VIRTIO_MMIO_CONFIG.

Definition virtio_mmio_setup (d : virtio_mmio_desc_t) (get_features : Z -> Z) r : Z * R :=
  let addr := m_addr d in
  let r := write32 (addr + VIRTIO_MMIO_STATUS) 0 r in
  let status := VIRTIO_CONFIG_S_ACKNOWLEDGE in
  let r := write32 (addr + VIRTIO_MMIO_STATUS) status r in
  let status := Z.lor status VIRTIO_CONFIG_S_DRIVER in
  let r := write32 (addr + VIRTIO_MMIO_STATUS) status r in
  let '(features, r) := read32 (addr + VIRTIO_MMIO_DEVICE_FEATURES) r in
  let r := write32 (addr + VIRTIO_MMIO_DRIVER_FEATURES) (get_features features) r in
  let status := Z.lor status VIRTIO_CONFIG_S_FEATURES_OK in
  let r := write32 (addr + VIRTIO_MMIO_STATUS) status r in
  let '(status_ok, r) := read32 (addr + VIRTIO_MMIO_STATUS) r in
  if negb (has status_ok VIRTIO_CONFIG_S_FEATURES_OK) then (0, write32 (addr + VIRTIO_MMIO_STATUS) VIRTIO_CONFIG_S_FAILED r)
  else
    let status := Z.lor status VIRTIO_CONFIG_S_DRIVER_OK in
    let r := write32 (addr + VIRTIO_MMIO_STATUS) status r in
    let r := write32 (addr + VIRTIO_MMIO_GUEST_PAGE_SIZE) PAGE_SIZE r in
    (1, r).

Definition num_pages : Z := Z.shiftr (u64 (vring_size VIRTIO_RING_SIZE PAGE_SIZE + PAGE_SIZE - 1)) PAGE_SHIFT.

(** [queue_ptr]: what [calloc] returns for [num_pages] pages, which the code does not test.  The
    places of the tables are none when the device cannot have so large a queue. *)
Definition virtio_mmio_queue_set (d : virtio_mmio_desc_t) (sel queue_ptr : Z) r : Z * option vring * R :=
  let addr := m_addr d in
  let r := write32 (addr + VIRTIO_MMIO_QUEUE_SEL) sel r in
  let '(max, r) := read32 (addr + VIRTIO_MMIO_QUEUE_NUM_MAX) r in
  let r := write32 (addr + VIRTIO_MMIO_QUEUE_NUM) VIRTIO_RING_SIZE r in
  if max <? VIRTIO_RING_SIZE then (0, None, write32 (addr + VIRTIO_MMIO_STATUS) VIRTIO_CONFIG_S_FAILED r)
  else
    let queue_pfn := u32 (Z.shiftr queue_ptr PAGE_SHIFT) in
    let r := write32 (addr + VIRTIO_MMIO_QUEUE_PFN) queue_pfn r in
    (1, Some (vring_init VIRTIO_RING_SIZE queue_ptr PAGE_SIZE), r).

(** The entry of [mmio_device_data] that is filled, if the device is found; a negative bus, which
    the code does not test, is outside of the array. *)
Definition virtio_mmio_search_device (_device_id bus : Z) r : res (option virtio_mmio_desc_t * R) :=
  let addr := u64 (MMIO_VIRTIO_START + bus * MMIO_VIRTIO_STRIDE) in
  let '(magic_value, r) := read32 (addr + VIRTIO_MMIO_MAGIC_VALUE) r in
  let '(version, r) := read32 (addr + VIRTIO_MMIO_VERSION) r in
  let '(device_id, r) := read32 (addr + VIRTIO_MMIO_DEVICE_ID) r in
  let '(vendor_id, r) := read32 (addr + VIRTIO_MMIO_VENDOR_ID) r in
  if negb (magic_value =? MMIO_VIRTIO_MAGIC) then Ok (None, r)
  else if device_id =? _device_id then
    if bus <? MMIO_VIRTIO_NUM then
      let* _ := defined_if (0 <=? bus) in
      Ok (Some (mk_mmio addr device_id bus), r)
    else Ok (None, r)
  else Ok (None, r).
End mmio.

(** ** The tables in memory *)

(** The rings fit in the pages that are allocated, one behind the other; the ring that the device
    writes is on a page of its own. *)
Lemma queue_layout p : 0 <= p < 2 ^ 60 -> p mod PAGE_SIZE = 0 ->
  let v := vring_init VIRTIO_RING_SIZE p PAGE_SIZE in
  desc_at v = p /\ avail_at v = p + 16 * VIRTIO_RING_SIZE /\ used_at v = p + PAGE_SIZE /\
  avail_at v + 4 + 2 * VIRTIO_RING_SIZE + 2 <= used_at v /\ used_at v + 4 + 8 * VIRTIO_RING_SIZE + 2 <= p + num_pages * PAGE_SIZE.
Proof.
  intros Hp Hm v. unfold v, PAGE_SIZE in *. clear v. assert (Hnum : num_pages = 2) by (vm_compute; reflexivity). rewrite Hnum. unfold VIRTIO_RING_SIZE in *. cbn [vring_init desc_at avail_at used_at].
  change (u64 (128 * 16)) with 2048. rewrite (u64_small (p + 2048)) by lia. rewrite (u64_small (p + 2048 + 4 + 2 * 128)), (u64_small (p + 2048 + 4 + 2 * 128 + 2)) by lia. rewrite u64_small by lia.
  change (not64 (u64 (4096 - 1))) with (not64 (2 ^ 12 - 1)). rewrite land_not64_low by lia. change (2 ^ 12) with 4096.
  assert (E : (p + 2048 + 4 + 2 * 128 + 2 + 4096 - 1) / 4096 * 4096 = p + 4096) by (apply Z.div_exact in Hm; [|lia]; rewrite Hm at 1; symmetry; rewrite Hm at 1; Z.div_mod_to_equations; lia).
  rewrite E. split_and!; lia.
Qed.

(** ** Talking to a device *)

(** A device that accepts the features and remembers what it is told: the last status, and the
    statuses in the order in which they were written. *)
Record mdev := mk_mdev { md_status : Z; md_log : list Z }.
Definition mdev_read (refuse : bool) (a : Z) (r : mdev) : Z * mdev :=
  if a =? VIRTIO_MMIO_STATUS then (if refuse then Z.land (md_status r) 247 else md_status r, r) else (0, r).
Definition mdev_write (a x : Z) (r : mdev) : mdev := if a =? VIRTIO_MMIO_STATUS then mk_mdev x (md_log r ++ [x]) else r.

(** The statuses go through reset, acknowledged, driver, features and driver ready; a device that
    refuses the features is given up. *)
Example setup_statuses : virtio_mmio_setup (mdev_read false) mdev_write (mk_mmio 0 2 0) (fun f => f) (mk_mdev 9 []) = (1, mk_mdev 15 [0; 1; 3; 11; 15]).
Proof. reflexivity. Qed.
Example setup_refused : virtio_mmio_setup (mdev_read true) mdev_write (mk_mmio 0 2 0) (fun f => f) (mk_mdev 9 []) = (0, mk_mdev 128 [0; 1; 3; 11; 128]).
Proof. reflexivity. Qed.

(** ** Probing

    The probe functions of driver/virtio/block.c, keyboard.c, mouse.c and gpu.c.  Each returns its
    result with what it has set up; [handler] and [this] are the addresses of its interrupt handler
    and its object, and [ptr], [ptr2] what [calloc] returns for its queues. *)

Definition VIRTIO_INPUT_CFG_EV_BITS : Z := 0x11.

(** Offsets in [struct virtio_input_config] and [struct virtio_blk_config]. *)
Definition CFG_SELECT : Z := 0.
Definition CFG_SUBSEL : Z := 1.
Definition CFG_SIZE : Z := 2.
Definition CFG_BITMAP : Z := 8.
Definition CFG_CAPACITY : Z := 0.
Definition CFG_BLK_SIZE : Z := 20.

(** ["device_id"], ["virtio-mmio-bus"], ["interrupt"], ["width"], ["height"] *)
Definition KEY_DEVICE_ID : string_t := [100; 101; 118; 105; 99; 101; 95; 105; 100].
Definition KEY_BUS : string_t := [118; 105; 114; 116; 105; 111; 45; 109; 109; 105; 111; 45; 98; 117; 115].
Definition KEY_INTERRUPT : string_t := [105; 110; 116; 101; 114; 114; 117; 112; 116].
Definition KEY_WIDTH : string_t := [119; 105; 100; 116; 104].
Definition KEY_HEIGHT : string_t := [104; 101; 105; 103; 104; 116].

Definition mouse_key_codes : list Z := [BTN_LEFT; BTN_RIGHT; BTN_MIDDLE].
Definition mouse_rel_codes : list Z := [REL_X; REL_Y; REL_WHEEL].
Definition NUM_MOUSE_KEY_SUPPORTED : nat := 3.
Definition NUM_MOUSE_REL_SUPPORTED : nat := 2.

Section probe.
(** [tail]: what is in memory behind the bytes of a string of the device tree. *)
Context (tail : list Z) {R : Type} (read8 read32 read64 : Z -> R -> Z * R) (write8 write32 : Z -> Z -> R -> R).
Implicit Types r : R.

(** The beginning of the four functions: the device on its bus and its interrupt. *)
Definition find_virtio (v : xjil_value_t) r : res (option (virtio_mmio_desc_t * Z) * R) :=
  let* device_id := xjil_read_int tail v KEY_DEVICE_ID (-1) in
  let device_id := u32 device_id in
  let* bus := xjil_read_int tail v KEY_BUS (-1) in
  let* irq := xjil_read_int tail v KEY_INTERRUPT (-1) in
  if device_id =? u32 (-1) then Ok (None, r)
  else
    let* '(d, r) := virtio_mmio_search_device read32 device_id bus r in
    Ok (match d with Some d => Some (d, irq) | None => None end, r).

(** What a probe has set up: the device and the places of its queues. *)
Record probed := mk_probed { pr_desc : virtio_mmio_desc_t; pr_queue : option vring; pr_queue2 : option vring }.

(** With the size and the number of blocks. *)
Definition virtio_block_probe (handler this ptr : Z) (v : xjil_value_t) r (w : irqs) : res (Z * option (probed * Z * Z) * R * irqs) :=
  let* '(o, r) := find_virtio v r in
  match o with
  | None => Ok (-1, None, r, w)
  | Some (d, irq) =>
      let '(_, r) := virtio_mmio_setup read32 write32 d virtio_block_get_features r in
      let '(_, q, r) := virtio_mmio_queue_set read32 write32 d 0 ptr r in
      let config := virtio_mmio_get_config d in
      let '(blk_size, r) := read32 (config + CFG_BLK_SIZE) r in
      let '(capacity, r) := read64 (config + CFG_CAPACITY) r in
      let* '(_, w) := request_irq irq handler this w in
      Ok (0, Some (mk_probed d q None, blk_size, capacity), r, w)
  end.

Definition input_get_features (features : Z) : Z := 0.

Definition virtio_keyboard_supports_key (d : virtio_mmio_desc_t) r : R :=
  let config := virtio_mmio_get_config d in
  let r := write8 (config + CFG_SELECT) VIRTIO_INPUT_CFG_EV_BITS r in
  write8 (config + CFG_SUBSEL) EV_KEY r.

(** The test of [key_code] or [rel_code] in the bitmap, for each of the codes. *)
Fixpoint codes_supported (config : Z) (codes : list Z) r : res R :=
  match codes with
  | [] => Ok r
  | code :: codes =>
      let '(b, r) := read8 (config + CFG_BITMAP + code / 8) r in
      if Z.land b (2 ^ (code mod 8)) =? 0 then Panic else codes_supported config codes r
  end.

Definition virtio_mouse_supports_key (d : virtio_mmio_desc_t) r : res R :=
  let config := virtio_mmio_get_config d in
  let r := write8 (config + CFG_SELECT) VIRTIO_INPUT_CFG_EV_BITS r in
  let r := write8 (config + CFG_SUBSEL) EV_KEY r in
  codes_supported config (take NUM_MOUSE_KEY_SUPPORTED mouse_key_codes) r.

Definition virtio_mouse_supports_rel (d : virtio_mmio_desc_t) r : res R :=
  let config := virtio_mmio_get_config d in
  let r := write8 (config + CFG_SELECT) VIRTIO_INPUT_CFG_EV_BITS r in
  let r := write8 (config + CFG_SUBSEL) EV_REL r in
  let '(size, r) := read8 (config + CFG_SIZE) r in
  if size =? 0 then Panic else codes_supported config (take NUM_MOUSE_REL_SUPPORTED mouse_rel_codes) r.

(** The event queue is filled in the memory that [queue_set] has cleared: it has none if that
    failed.  The notifications of [request_event] are left out. *)
Definition virtio_keyboard_probe (calloc : gmap Z virtio_input_event -> Z) (handler this ptr ptr2 : Z) (v : xjil_value_t) r (w : irqs) : res (Z * option (probed * input) * R * irqs) :=
  let* '(o, r) := find_virtio v r in
  match o with
  | None => Ok (-1, None, r, w)
  | Some (d, irq) =>
      let '(_, r) := virtio_mmio_setup read32 write32 d input_get_features r in
      let '(_, q, r) := virtio_mmio_queue_set read32 write32 d 0 ptr r in
      let '(_, q2, r) := virtio_mmio_queue_set read32 write32 d 1 ptr2 r in
      let r := virtio_keyboard_supports_key d r in
      let* _ := deref q in
      let* '(eq, mem) := request_event calloc request_fuel new_queue ∅ in
      let* '(_, w) := request_irq irq handler this w in
      Ok (0, Some (mk_probed d q q2, mk_input eq mem []), r, w)
  end.

Definition virtio_mouse_probe (calloc : gmap Z virtio_input_event -> Z) (handler this ptr ptr2 : Z) (v : xjil_value_t) r (w : irqs) : res (Z * option (probed * input) * R * irqs) :=
  let* '(o, r) := find_virtio v r in
  match o with
  | None => Ok (-1, None, r, w)
  | Some (d, irq) =>
      let '(_, r) := virtio_mmio_setup read32 write32 d input_get_features r in
      let '(_, q, r) := virtio_mmio_queue_set read32 write32 d 0 ptr r in
      let '(_, q2, r) := virtio_mmio_queue_set read32 write32 d 1 ptr2 r in
      let* r := virtio_mouse_supports_key d r in
      let* r := virtio_mouse_supports_rel d r in
      let* _ := deref q in
      let* '(eq, mem) := request_event calloc request_fuel new_queue ∅ in
      let* '(_, w) := request_irq irq handler this w in
      Ok (0, Some (mk_probed d q q2, mk_input eq mem []), r, w)
  end.

(** With the width and the height; [get_features] of the display accepts all. *)
Definition virtio_framebuffer_probe (handler this ptr : Z) (v : xjil_value_t) r (w : irqs) : res (Z * option (probed * Z * Z) * R * irqs) :=
  let* '(o, r) := find_virtio v r in
  match o with
  | None => Ok (-1, None, r, w)
  | Some (d, irq) =>
      let* width := xjil_read_int tail v KEY_WIDTH (-1) in
      let* height := xjil_read_int tail v KEY_HEIGHT (-1) in
      if (width <=? 0) || (height <=? 0) then Ok (-1, None, r, w)
      else
        let '(_, r) := virtio_mmio_setup read32 write32 d (fun features => features) r in
        let '(_, q, r) := virtio_mmio_queue_set read32 write32 d 0 ptr r in
        let* '(_, w) := request_irq irq handler this w in
        Ok (0, Some (mk_probed d q None, width, height), r, w)
  end.
End probe.

Lemma land_bit b k : 0 <= k -> (Z.land b (2 ^ k) =? 0) = negb (Z.testbit b k).
Proof.
  intros Hk. destruct (Z.testbit b k) eqn:E; cbn [negb]; [apply Z.eqb_neq|apply Z.eqb_eq].
  - intros H. apply (f_equal (fun x => Z.testbit x k)) in H. by rewrite Z.land_spec, E, Z.pow2_bits_true, Z.bits_0 in H.
  - apply Z.bits_inj'. intros n Hn. rewrite Z.land_spec, Z.bits_0. destruct (Z.eq_dec n k) as [->|Hne]; [by rewrite E|]. rewrite Z.pow2_bits_false by lia. apply andb_false_r.
Qed.

(** The mouse panics unless the device has every code in its bitmap, which lies behind [config]. *)
Lemma codes_supported_exact {R : Type} (read8 : Z -> R -> Z * R) (bytes : Z -> Z) config codes r :
  (forall a r, read8 a r = (bytes a, r)) ->
  codes_supported read8 config codes r = if forallb (fun c => Z.testbit (bytes (config + CFG_BITMAP + c / 8)) (c mod 8)) codes then Ok r else Panic.
Proof.
  intros Hread. induction codes as [|c codes IH]; [done|]. cbn [codes_supported forallb]. rewrite Hread, land_bit by (apply Z.mod_pos_bound; lia). destruct (Z.testbit _ _); [exact IH|done].
Qed.

(** ** The disk of the device tree *)

Module Disk.
(** A disk on the first bus: its status, and whether it refuses the features. *)
Record disk := mk_disk { refuses : bool; dstatus : Z }.

Definition dread32 (a : Z) (d : disk) : Z * disk :=
  let off := a - MMIO_VIRTIO_START in
  (if off =? VIRTIO_MMIO_MAGIC_VALUE then MMIO_VIRTIO_MAGIC
   else if off =? VIRTIO_MMIO_DEVICE_ID then 2
   else if off =? VIRTIO_MMIO_STATUS then (if refuses d then Z.land (dstatus d) 247 else dstatus d)
   else if off =? VIRTIO_MMIO_QUEUE_NUM_MAX then 1024
   else if off =? VIRTIO_MMIO_CONFIG + CFG_BLK_SIZE then 512
   else 0, d).
Definition dread64 (a : Z) (d : disk) : Z * disk := (if a - MMIO_VIRTIO_START =? VIRTIO_MMIO_CONFIG + CFG_CAPACITY then 2048 else 0, d).
Definition dwrite32 (a x : Z) (d : disk) : disk := if a - MMIO_VIRTIO_START =? VIRTIO_MMIO_STATUS then mk_disk (refuses d) x else d.

Definition number (n : Z) : xjil_value_t := mk_value None TYPE_NUMBER n [] [] [].
Definition node : xjil_value_t := mk_value None TYPE_OBJECT 0 [] [] [(KEY_DEVICE_ID, number 2); (KEY_BUS, number 0); (KEY_INTERRUPT, number 1)].

(** A controller for ten interrupts from 1 on. *)
Definition plic0 : irqs := mk_irqs [mk_chip 1 10 (replicate 10 (mk_irq null_interrupt_function 0 0)) true true true] (mk_plic 0 0 [] [] []) [].

Definition probe_disk (b : bool) : res (Z * option (probed * Z * Z) * disk * irqs) := virtio_block_probe [0] dread32 dread64 dwrite32 256 512 8192 node (mk_disk b 0) plic0.

(** The disk is ready, its queue has its place, its size is known and its interrupt is enabled. *)
Example probe_ready :
  match probe_disk false with
  | Ok (ret, Some (p, blk_size, capacity), d, w) =>
      ret = 0 /\ dstatus d = 15 /\ pr_queue p = Some (vring_init VIRTIO_RING_SIZE 8192 PAGE_SIZE) /\ (blk_size, capacity) = (512, 2048) /\ senable (pic w) = 2
  | _ => False
  end.
Proof. vm_compute. repeat split. Qed.

(** The results of the set-up are not looked at: a disk that refuses the features is marked as
    failed, and the probe succeeds. *)
Lemma probe_ignores_refusal :
  match probe_disk true with Ok (ret, Some _, d, w) => ret = 0 /\ Z.land (dstatus d) VIRTIO_CONFIG_S_FAILED = VIRTIO_CONFIG_S_FAILED /\ senable (pic w) = 2 | _ => False end.
Proof. vm_compute. repeat split. Qed.
End Disk.
